(* ===== verification/_CoqProject ===== *)
-Q . S2P
Prelude.v
StdUtil.v
StdHash.v
StdHashProof.v
HashMap.v
HashProps.v
StdCarr.v
StdCarrProof.v
CarrProps.v
Events.v
EventProps.v
NetTypes.v
Route.v
RouteProof.v
RouteProps.v
Daemon.v
StateFlood.v
FloodProof.v
FloodSend.v
DaemonInv.v
FloodTotal.v
FloodProps.v
MultiPath.v
MultiPathProof.v
MultiPathFlow.v
MultiPathNet.v
MultiPathProps.v
RealTime.v
RealTimeProof.v
RealTimeProps.v
ITFrag.v
ITFragProof.v
ITBuildProof.v
ITFragProps.v
CFloat.v
ReliableLink.v
ReliableProof.v
ReliableSys.v
ReliableProps.v
ITLink.v
ITLinkProof.v
ITLinkRecv.v
ITLinkSys.v
ITLinkProps.v
PrioFlood.v
PrioProof.v
PrioState.v
PrioSend.v
PrioDissem.v
PrioSys.v
PrioProps.v
Leg.v
LegProps.v
Hello.v
HelloProof.v
HelloLink.v
HelloMake.v
HelloCost.v
HelloState.v
HelloRecv.v
HelloDisp.v
HelloSys.v
HelloFlood.v
HelloProps.v
SklList.v
Dissem.v
DissemState.v
DissemUpdate.v
DissemGraph.v
DissemPath.v
DissemMask.v
DissemCompute.v
DissemProps.v
StdSkl.v
StdSklMem.v
StdSklRep.v
StdSklFind.v
StdSklOps.v
StdSklSpec.v
StdSklProps.v
