(* ===== verification/Prelude.v ===== *)
(** * Spines: a verification development

    Spines is an overlay network: daemons ([daemon/]) connected by virtual links
    route the messages of client programs.  This development models the parts
    that decide where messages go and whether they arrive, and proves them
    correct.  It is a shallow embedding: C functions are Rocq functions on
    explicit state, executable throughout.

    ** The program and the files that model it

    - [stdutil/] is the container library.  [StdUtil] models the arithmetic of
      stdutil.c (powers of two, byte flips, hash codes, the 48-bit generator),
      [StdHash] the open-addressing hash table of stdhash.c position by position
      (probing, erased cells, growing and shrinking, multi-insertion, keyed
      iteration).  [StdHashProof] holds the invariant [hash_wf] and the lemmas
      of every operation; [HashMap] the refinement of finite maps and the class
      [HashOrder], the interface the daemon's components use: a table
      enumerates its map in some order.  Properties: [HashProps].  [StdCarr]
      models the circular array of stdcarr.c on its block of elements (shifts to
      the cheaper side, growing and shrinking, malloc that may fail),
      [StdCarrProof] its representation of a list.  Properties: [CarrProps].
      [StdSkl] models the skip list of stdskl.c as nodes in a memory, linked on
      every level in both directions through a sentinel.  [StdSklMem] sees a
      memory through its links and has the loops over the levels, [StdSklRep] the
      list a memory represents, under linking, removal and a new sentinel,
      [StdSklFind] the search under the class [KeyOrder] (what a list needs of its
      comparison), [StdSklOps] the operations, [StdSklSpec] the ordered list they
      promise.
      Properties: [StdSklProps].
    - [libspread-util/] holds the event loop.  [Events] models events.c: times
      ([sp_time]), the sorted queue of time events ([E_queue], [E_dequeue],
      [E_in_queue]), what the loop does with it ([E_time_action], the part of
      [E_handle_events] that looks at the queue) and the registry of file
      descriptors with its select masks.  Properties: [EventProps].
    - [NetTypes] has the records the daemon replicates (state_flood.h,
      link_state.h, multicast.h), the classes of addresses and sizes of
      net_types.h, the wrap-around timestamps of link_state.c, and [outcome],
      the result of code that may end the process ([Exit], from [Alarm(EXIT)])
      or follow a NULL pointer or leave an array ([Fault]).
    - [Route] models route.c: [RR_Init] (indexes, direct edges, the
      Floyd-Warshall loops over the flat matrix), look-ups, the forwarding sets
      of multicast and anycast groups with their cache, and traces.
      [RouteProof] relates the matrix to shortest simple paths.  Properties:
      [RouteProps].
    - [Daemon] is the state of one daemon: the tables of nodes, edges and groups
      (node.c, link_state.c, multicast.c), the tables of changed states with
      their bit masks, the event queue, and what was sent.  [StateFlood] models
      the flooding of state_flood.c over the two protocol definitions
      ([EdgeP], [GroupsP]): [Net_Send_State_All], [Net_Send_State_Updates],
      [Process_state_body] (Process_state_packet from the first state packet
      on), [Resend_States], [State_Garbage_Collect]; the joins and leaves of
      multicast.c; and the scheduling of the route computation.  [FloodProof],
      [FloodSend], [DaemonInv] and [FloodTotal] hold the lemmas (effects on the
      tables, contents of messages, the invariant of the tables, absence of
      failures).  Properties: [FloodProps].
    - [MultiPath] models the disjoint paths of multipath.c: the flow network of
      the nodes split in two ([Init_MultiPath]), Bellman-Ford and augmentation
      ([MultiPath_Compute]), the cache and the masks stamped on messages
      ([MultiPath_Stamp_Bitmask]) and the operations on masks.
      [MultiPathProof] has the shortest-path invariants, [MultiPathFlow] the
      theory of flows and residual cycles, [MultiPathNet] the network of a
      topology.  Properties: [MultiPathProps].
    - [Dissem] models the dissemination graphs of dissem_graphs.c: the search for
      shortest paths over the configured links, the four graphs of every
      destination ([DG_Compute_Graphs]) and the choice among them when links get
      and lose problems ([DG_Process_Edge_Update], called with the updates that
      [StateFlood] and [Hello] record in [calls]).  [SklList] is the skip list as
      its clients see it, which [stdskl_unique_keys] justifies.  [DissemGraph] has the invariant of the search,
      [DissemPath] and [DissemMask] the problem graphs and their masks,
      [DissemCompute] the state at start-up, [DissemState] and [DissemUpdate] the
      state that goes with a set of problems.  Properties: [DissemProps].
    - [CFloat] has the IEEE arithmetic of C's float and double.  [ReliableLink]
      models reliable_datagram.c, one end of a reliable link: windows, buffer,
      cumulative and negative acknowledgements, timeouts, congestion control,
      and the two callers of [Process_Ack] in reliable_udp.c and state_flood.c,
      with [Dissemination_Header_Size] of protocol.c.
      [ReliableProof] has the invariants of the sending and of the receiving
      side, [ReliableSys] the transition system of two ends over a network that
      loses, repeats and reorders.  Properties: [ReliableProps].
    - [RealTime] models the real-time link of realtime_udp.c (history of sent
      packets, requests, budget of retransmissions), [RealTimeProof] two ends of
      it over the same network.  Properties: [RealTimeProps].
    - [ITFrag] models how the intrusion-tolerant link of intrusion_tol_udp.c cuts
      messages into packets and puts them together, on the bytes of the packets.
      [ITFragProof] has the greedy division of a message and what a run of the
      packing leaves to do, [ITBuildProof] the scan of a packet.  Properties:
      [ITFragProps].  [ITLink] models the window of that link: nonces and the
      digests that acknowledgements must show, negative acknowledgements,
      retransmissions and timeouts, congestion control, the receiving window and
      the turns of the dissemination protocols.  [ITLinkProof] has the invariant
      of one end and what every handler keeps, [ITLinkRecv] the receiving side,
      [ITLinkSys] two ends over the network.  Properties: [ITLinkProps].
    - [PrioFlood] models the priority flooding of priority_flood.c: the messages
      remembered until they expire, the queues by priority, source and
      neighbour, the fair queues of the sources, eviction, duplicates and garbage
      collection.  [PrioProof] has the invariant of the queues of one neighbour,
      [PrioState] that of the whole state, [PrioSend] the sending loop,
      [PrioDissem] the handling of a message, [PrioSys] any run of the handlers.
      Properties: [PrioProps].
    - [Leg] models what link.c does with a packet that leaves or arrives on a
      network leg: the leaky bucket with its queue ([Link_Send],
      [Fill_Leg_Bucket]) and the estimate of losses ([Check_Link_Loss]).
      Properties: [LegProps].  [Hello] models the connections of a daemon: the
      interfaces and legs of network.c with their costs, the legs [Init_Nodes] of
      node.c makes at the start, the creation and
      destruction of links in link.c, the hello protocol of hello.c and the
      dispatch of packets in protocol.c ([Prot_process_scat]), on top of the
      tables of [Daemon].  [HelloProof] has the invariant of the tables ([wf]),
      [HelloLink], [HelloMake] and [HelloCost] what links, neighbours and costs
      do to it, [HelloState], [HelloRecv] and [HelloDisp] the status of legs under
      timers, hellos and packets ([net_ok]), [HelloSys] any run of them, with
      [foreign] as the interface to the rest of the daemon, and [HelloFlood] the
      proof that state flooding meets that interface.  Properties: [HelloProps].

    How they interact: hellos connect legs, which gives edges a cost and starts
    the exchange of states over the new control link; data packets and state packets arrive over reliable
    links; state packets update the tables of edges and groups; a change of an
    edge schedules [Set_Routes], which runs [RR_Init] on the ordered nodes and
    the edges; [RR_Get_Next_Hop] and [RR_Get_Mcast_Neighbors] then direct the
    data.  All timing goes through the event queue.

    ** What the theorems show

    - Routing: each cell of the matrix is the least cost of a route or -1
      ([route_shortest_path], no overflow); routers that compute their tables
      independently agree well enough that forwarding hop by hop reaches the
      destination along a shortest route ([hop_by_hop_delivery]); the forwarding
      sets of groups are right, and the cache of them stays so as long as no
      active membership is collected ([mcast_neighbors_correct], with the
      invariant of the cache in [FloodTotal] and the exception in
      [mcast_collected_member]).
    - Flooding: the outcome of a received cell on every branch
      ([flood_cell_outcome]); stored states only get newer
      ([flood_never_goes_back]); pending changes go to a neighbour exactly once,
      over several calls if need be, and the answer tells whether any is left
      ([send_updates_exactly_once]); a whole-state
      transfer carries everything and synchronises the receiver
      ([send_all_complete], [full_state_sync]); collection removes exactly what
      expired ([garbage_collect_exact]); the tables stay fit for the route
      computation under every handler of states, nodes and groups
      ([daemon_topology_invariant]).  These
      theorems include that the handlers return.
    - Reliable links: exactly-once delivery ([reliable_link_exactly_once]),
      absence of failures for messages of the minimum-weight routing, and the
      exit an unknown routing byte causes ([reliable_link_never_fails]), what a
      timeout resends and that it suffices ([timeout_round_completes]), bounds of packets
      ([reliable_packet_fits]), and what happens when the sequence numbers wrap
      around ([seq_wrap_stalls]).
    - Disjoint paths: the paths found are disjoint, marked exactly, of least total
      cost and as many as there can be ([multipath_disjoint],
      [multipath_optimal]); caching never changes an answer
      ([multipath_stamp_correct]); masks are sets ([multipath_masks_are_sets]).
    - Dissemination graphs: the graphs computed are exactly the shortest paths to
      the near neighbours of the destination, from those of the source, and their
      union ([dissem_graphs_correct]); which one is used depends on the links that
      have a problem now and on nothing else ([dissem_follows_problems]), and is
      what messages are stamped with ([dissem_stamp]); a problem on a link that is
      not configured writes out of bounds ([dissem_foreign_link_faults]).
    - Real-time links: at-most-once delivery ([rt_link_at_most_once]), recovery
      of a gap of at most 176 packets while they are recent ([rt_loss_recovered]), the budget of
      retransmissions ([rt_retransmission_budget]).
    - Fragments: cutting and building is the identity over any schedule of
      acknowledgements ([it_fragment_roundtrip]), the packets made are those
      predicted ([it_packet_count]), packing ends ([it_pack_terminates]), and
      building is safe for arbitrary bytes until a packet is refused as
      unexpected, after which the message holds released elements: another such
      packet releases them twice ([it_build_total]), and the expected ones
      complete it with them ([it_released_elements_delivered]).
    - Intrusion-tolerant links: messages are handed up whole, once and in order
      ([it_link_fifo]), lost packets do not stop a link ([it_link_progress]), an
      acknowledgement without the nonces of what it acknowledges has no effect
      ([it_ack_needs_nonces]), no handler fails while there is a link, for the
      dissemination numbers below 15 ([it_link_never_fails]).
    - Priority flooding: a message is accepted once and handed at most once to each
      link ([prio_at_most_once]); a link that asks gets the oldest message of
      greatest priority of the source at the turn ([prio_send_order]), and gets
      one whenever there is one ([prio_send_live]); queues, statuses and the
      counts of packets agree and stay within the limit ([prio_queues_consistent]) at the cost of
      the greatest user ([prio_evict_victim]); no handler fails on admissible
      messages ([prio_never_fails]), which excludes two inputs that do fail: a duplicate from a neighbour off
      the mask ([prio_duplicate_exits]) and a message that expires in the middle of
      its handling ([prio_expiry_while_offered]).
    - Rate limits and losses: packets leave in order, none that was taken is lost,
      and the bytes stay within the bucket and the configured rate times the
      time, up to the rounding of doubles ([leg_rate_limited],
      [leg_queue_progress]), but rates below 16 kbps send nothing
      ([leg_slow_rate_starves]); losses are counted exactly
      ([link_loss_counted]), but a number out of range hangs the daemon
      ([link_loss_hangs]).
    - Connections: status, links, cost, edge and hello timer of a leg agree in
      every state reachable from the start-up of the daemon ([hello_consistent]), no
      event and no admissible packet fails ([hello_never_fails]), what is measured
      never makes a leg look dead, unless by loss rates ([leg_cost_range],
      [lossrate_dead_cost]), a silent neighbour is given up
      ([silent_leg_dies]), one that is heard is connected ([hello_connects]),
      sessions are told apart ([hello_session]), connected neighbours can flood
      ([hello_supports_flooding]); a false claim of an identity ends the daemon
      ([hello_claim_exits]).
    - Hash table: the table is a multimap, and with unique keys refines a finite
      map, for every sequence of operations ([stdhash_refines_map] and the
      theorems of single operations), with termination of every probe loop.
    - Circular array: every run of operations behaves like a list and stays in
      its block ([stdcarr_refines_list]); what iterators give
      ([stdcarr_iterators]).
    - Skip list: every run of operations, with failing allocations, behaves like
      the ordered list of entries ([stdskl_refines_list]); without equal keys it
      is the list the other components use ([stdskl_unique_keys]); overwriting at a
      hint can leave two entries of a key ([stdskl_put_n_duplicates]); copies
      keep the order and destruction leaks nothing ([stdskl_copy_correct]).
    - Events: order and uniqueness of the queue, the choice of the loop, the
      consistency of the registry.
    - Numbers: time arithmetic, wrap-around timestamps, the generator, powers of
      two.

    ** Modelling choices

    A C integer is the [Z] it denotes, wrapped to its width by the functions of
    [Word] wherever the code can leave the range.  A pointer to a table entry
    is its key.  Reading the clock and [rand()] gives arguments ([now], [rnd]);
    allocation succeeds, except in the containers, where it may fail.  The iteration order of a hash table is left open
    ([HashOrder]); theorems hold for every order.  Loops whose length is known
    are structural recursions on that length; the probe loops of the hash table
    take the size of the table as fuel, and [low_find_ends] shows that a
    table with a free cell never uses it up; the recursion of [Trace_Route] is
    cut by the code itself after MAX_COUNT entries; Bellman-Ford makes at most as
    many rounds as the network has nodes, enough because no cycle of the residual
    network is negative; packing makes at most MAX_SEND_ON_LINK packets, enough
    by [it_pack_terminates]; the scan of a packet takes its length as fuel, and
    each step consumes at least four bytes.  In [ReliableLink] a message
    buffer is not shared by two waiting messages of one link, so the tail
    written behind the message needs no aliasing; the routing byte of a received
    packet is read from its bytes, and a dissemination header longer than
    what follows the message is a [Fault] (the 16-bit length wraps and the tail is
    read from behind the packet).  In [ITFrag] the references to the buffers of a
    message are one flag, which an unexpected packet clears.  The theorems about two ends of
    a link take [TCP_Fairness] off, the default of spines.c; the functions are
    modelled with it.  The theorems about intrusion-tolerant links hold with and
    without it, for ordered delivery.  There, what a dissemination protocol does
    when it gets its turn is the next of a list of answers (the messages it
    forwards and the bytes it counts), so the loop over the protocols needs no
    more rounds than there are answers and protocols in the queue; the tail of
    the receiving window moves at most MAX_SEND_ON_LINK times, for which
    [advance] has fuel by [process_data_inv]; a handler reads the clock once.
    In [PrioFlood] the answers of the links to the requests for one message are
    lists given from outside, so the request loop ends with them; a handler that
    receives sees the clock when it starts and when it sends; the sending loop
    has the fuel [turns], enough by [send_loop_ok]; what the links took is kept
    in a list ([forwarded]) that the program does not have.  The loop over missing
    numbers of [Check_Link_Loss] has one step more than there are numbers, enough
    by [check_loss_total]; running out of it is the endless loop of the code.  In
    [Hello] the clock, the random values and the answer of the socket of one call
    are in [net_env]; the timers of the link protocols belong to their models; the
    theorems take a bucket that holds a packet of any size and a metric the code
    knows, and for the metric of loss rates only that it never gives the cost of a
    dead leg ([conf_ok]); a daemon starts with its own node, its interfaces and the
    nodes and edges of its configuration, and the legs of the configuration
    ([Init_Leg]) and the first pings are steps, with at most MAX_NEIGHBORS legs.
    In [Dissem] a search has as much fuel as there are nodes, enough because every
    pass finishes one ([sp_search_ok]); distances are sums of 16-bit costs, exact
    in the doubles of the source; the theorems take costs that are not negative.

    In [StdSkl] an address is never used twice and freed nodes leave the memory,
    so that a pointer to one is a [Fault]; walks have as much fuel as there are
    nodes, enough by [run_level_ok] and [taller_ok].

    ** What is not modelled

    Sockets, logging, configuration and cryptography are I/O or library calls.
    Autodiscovery, wireless and intrusion-tolerance mode are off in [Hello].  Of
    the intrusion-tolerant link, the pings, the key exchange and the changes of
    incarnation are left out: they turn on the answers of the cryptographic
    library.  The sessions of the daemon (session.c) and the client library
    (libspines) move bytes between sockets.  End-to-end sessions
    (reliable_session.c) and reliable flooding (reliable_flood.c) are separate
    protocols beside those modelled here; the byte layout of state messages is
    abstracted by lists of cells. *)
From stdpp Require Import base list gmap numbers option.
From Stdlib Require Import ZArith Lia.
#[local] Open Scope Z_scope.

(** ** Machine integers

    A C integer of width [w] is the [Z] it denotes; the operations of the
    code that can leave the range of their type write the wrap-around out
    with the functions below. *)
Module Word.
Definition wrapu (w x : Z) : Z := x mod 2 ^ w.
Definition wraps (w x : Z) : Z := (x + 2 ^ (w - 1)) mod 2 ^ w - 2 ^ (w - 1).

Definition u8 : Z -> Z := wrapu 8.
Definition u16 : Z -> Z := wrapu 16.
Definition u32 : Z -> Z := wrapu 32.
Definition u64 : Z -> Z := wrapu 64.
Definition s8 : Z -> Z := wraps 8.
Definition s16 : Z -> Z := wraps 16.
Definition s32 : Z -> Z := wraps 32.

(** [in_u w x]: [x] is a value of the unsigned [w]-bit type. *)
Definition in_u (w x : Z) : Prop := 0 <= x < 2 ^ w.
Definition in_s (w x : Z) : Prop := - 2 ^ (w - 1) <= x < 2 ^ (w - 1).

Lemma pow2_pos w : 0 <= w -> 0 < 2 ^ w.
Proof. intros. apply Z.pow_pos_nonneg; lia. Qed.

Lemma wrapu_range w x : 0 <= w -> in_u w (wrapu w x).
Proof. intros. apply Z.mod_pos_bound, pow2_pos, H. Qed.

Lemma wrapu_small w x : in_u w x -> wrapu w x = x.
Proof. apply Z.mod_small. Qed.

Lemma u64_small x : 0 <= x < 2 ^ 64 -> u64 x = x.
Proof. apply wrapu_small. Qed.

Lemma u32_small x : 0 <= x < 2 ^ 32 -> u32 x = x.
Proof. apply wrapu_small. Qed.

Lemma u16_small x : 0 <= x < 2 ^ 16 -> u16 x = x.
Proof. apply wrapu_small. Qed.

Lemma wrapu_idem w x : wrapu w (wrapu w x) = wrapu w x.
Proof. apply Zmod_mod. Qed.

Lemma wraps_range w x : 0 < w -> in_s w (wraps w x).
Proof.
  intros Hw. unfold in_s, wraps.
  pose proof (Z.mod_pos_bound (x + 2 ^ (w - 1)) (2 ^ w)) as H.
  replace (2 ^ w) with (2 * 2 ^ (w - 1)) in *.
  - specialize (H ltac:(pose proof (pow2_pos (w - 1)); lia)). lia.
  - rewrite <- Z.pow_succ_r by lia. f_equal. lia.
Qed.

Lemma wraps_small w x : 0 < w -> in_s w x -> wraps w x = x.
Proof.
  unfold in_s, wraps. intros Hw Hx.
  replace (2 ^ w) with (2 * 2 ^ (w - 1)).
  - rewrite Z.mod_small by lia. lia.
  - rewrite <- Z.pow_succ_r by lia. f_equal. lia.
Qed.

(** The signed and the unsigned reading of a value agree modulo [2^w]. *)
Lemma wrapu_wraps w x : 0 < w -> wrapu w (wraps w x) = wrapu w x.
Proof.
  intros Hw. unfold wrapu, wraps.
  rewrite Zminus_mod_idemp_l. f_equal. lia.
Qed.

Lemma wrapu_land_ones w x : 0 <= w -> wrapu w x = Z.land x (Z.ones w).
Proof. intros. symmetry. by apply Z.land_ones. Qed.

Lemma wrapu_add_l w x y : wrapu w (wrapu w x + y) = wrapu w (x + y).
Proof. apply Zplus_mod_idemp_l. Qed.

Lemma wrapu_add_r w x y : wrapu w (x + wrapu w y) = wrapu w (x + y).
Proof. apply Zplus_mod_idemp_r. Qed.

(** Joining disjoint bit ranges is addition. *)
Lemma lor_shiftl_add c b n : 0 <= n -> 0 <= b < 2 ^ n -> Z.lor (Z.shiftl c n) b = c * 2 ^ n + b.
Proof.
  intros Hn Hb. rewrite <- Z.shiftl_mul_pow2 by done.
  assert (Hl : Z.land (Z.shiftl c n) b = 0).
  { apply Z.bits_inj'. intros i Hi. rewrite Z.land_spec, Z.bits_0.
    destruct (Z.lt_ge_cases i n); [by rewrite Z.shiftl_spec_low|].
    destruct (Z.eq_dec b 0) as [->|]; [by rewrite Z.bits_0, andb_false_r|].
    rewrite (Z.bits_above_log2 b i), andb_false_r; [done|lia|]. apply Z.log2_lt_pow2; [lia|].
    eapply Z.lt_le_trans; [apply Hb|]. by apply Z.pow_le_mono_r. }
  rewrite <- Z.lxor_lor by done. symmetry. by apply Z.add_nocarry_lxor.
Qed.
End Word.
Export Word.

Create HintDb spines.
Create Rewrite HintDb spines.
#[export] Hint Resolve wrapu_range wraps_range : spines.
#[export] Hint Rewrite wrapu_idem wrapu_add_l wrapu_add_r : spines.

(** ** Generic lemmas *)

(** The least index at which a boolean test succeeds. *)
Lemma least_index (P : nat -> bool) (n : nat) :
  P n = true -> exists m, (m <= n)%nat /\ P m = true /\ forall j, (j < m)%nat -> P j = false.
Proof.
  revert P. induction n as [|n IH]; intros P HP.
  - exists 0%nat. split; [lia|]. split; [done|]. intros; lia.
  - destruct (P 0%nat) eqn:H0.
    + exists 0%nat. split; [lia|]. split; [done|]. intros; lia.
    + destruct (IH (fun i => P (S i)) HP) as (m & Hm & HPm & Hlt).
      exists (S m). split; [lia|]. split; [done|]. intros [|j] Hj; [done|]. apply Hlt. lia.
Qed.

(** [simpl_if]: case analysis on the conditionals of the goal, reflecting the
    integer tests. *)
Ltac simpl_if :=
  repeat match goal with
  | |- context [if (?a =? ?b)%Z then _ else _] => destruct (Z.eqb_spec a b)
  | |- context [if (?a <? ?b)%Z then _ else _] => destruct (Z.ltb_spec a b)
  | |- context [if (?a <=? ?b)%Z then _ else _] => destruct (Z.leb_spec a b)
  | |- context [if (?a =? ?b)%nat then _ else _] => destruct (Nat.eqb_spec a b)
  | |- context [if (?a <? ?b)%nat then _ else _] => destruct (Nat.ltb_spec a b)
  | |- context [if (?a <=? ?b)%nat then _ else _] => destruct (Nat.leb_spec a b)
  end.

(** Replacing one cell of a list, seen through [omap]. *)
Lemma omap_insert_split {A B} (f : A -> option B) (l : list A) (i : nat) (x : A) :
  l !! i = Some x ->
  exists l1 l2, omap f l = l1 ++ option_list (f x) ++ l2 /\
                forall y, omap f (<[i := y]> l) = l1 ++ option_list (f y) ++ l2.
Proof.
  intros Hi. exists (omap f (take i l)), (omap f (drop (S i) l)).
  pose proof (lookup_lt_Some _ _ _ Hi) as Hlt. split.
  - rewrite <- (take_drop_middle l i x Hi) at 1. rewrite omap_app. simpl. by destruct (f x).
  - intros y. rewrite insert_take_drop by done. rewrite omap_app. simpl. by destruct (f y).
Qed.

(** A list read through its indices. *)
Lemma omap_seq_lookup {A B} (f : A -> option B) (l : list A) :
  omap (fun p => l !! p ≫= f) (seq 0 (length l)) = omap f l.
Proof.
  induction l as [|x l IH] using rev_ind; [done|].
  rewrite length_app, seq_app, !omap_app. f_equal.
  - rewrite <- IH. apply list_omap_ext, Forall_Forall2_diag, Forall_forall.
    intros p Hp. apply in_seq in Hp. rewrite lookup_app_l by lia. done.
  - simpl. by rewrite list_lookup_middle.
Qed.

Lemma omap_filter_list {A B} (f : A -> option B) (P : A -> bool) (l : list A) :
  (forall x, x ∈ l -> P x = false -> f x = None) ->
  omap f (filter (fun x => P x = true) l) = omap f l.
Proof.
  induction l as [|x l IH]; intros H; [done|].
  assert (IH' := IH (fun y Hy => H y (list_elem_of_further _ _ _ Hy))).
  rewrite filter_cons. destruct (decide (P x = true)) as [Hx|Hx]; cbn.
  - destruct (f x); [f_equal|]; exact IH'.
  - rewrite (H x (list_elem_of_here _ _)) by (by destruct (P x)). exact IH'.
Qed.

Lemma elem_of_concat {A} (x : A) (ls : list (list A)) : x ∈ concat ls <-> exists l, x ∈ l /\ l ∈ ls.
Proof.
  induction ls as [|l ls IH]; cbn [concat].
  - split; [by intros ?%elem_of_nil|]. intros (l & _ & Hl). by apply elem_of_nil in Hl.
  - rewrite elem_of_app, IH. split.
    + intros [Hx|(l' & Hx & Hl)]; [exists l; split; [done|left]|exists l'; split; [done|by right]].
    + intros (l' & Hx & [->|Hl]%elem_of_cons); [by left|right; by exists l'].
Qed.
