(* ===== verification/StdUtil.v ===== *)
(** * StdUtil: the arithmetic helpers of stdutil/src/stdutil.c

    Powers of two, byte flipping, the two hash-code functions and the
    linear congruential generator.  Sizes are 64-bit, hash codes 32-bit. *)
From stdpp Require Import base list numbers option.
From Stdlib Require Import ZArith Lia.
From S2P Require Import Prelude.
#[local] Open Scope Z_scope.

Module Pow2.

(** [for (ret = 0; x != 0x1; x >>= 1, ++ret);]  64 iterations suffice for a
    64-bit [x]; [None] stands for a loop that has not ended. *)
Fixpoint stdlg_down_loop (fuel : nat) (x ret : Z) : option Z :=
  match fuel with
  | O => None
  | S fuel' =>
      if x =? 1 then Some ret
      else stdlg_down_loop fuel' (Z.shiftr x 1) (u32 (ret + 1))
  end.

Definition stdlg_down (x : Z) : option Z :=
  if x =? 0 then Some (u32 (-1)) else stdlg_down_loop 64 x 0.

Definition stdlg_up (x : Z) : option Z :=
  if x =? 0 then Some (u32 (-1))
  else if x =? 1 then Some 0
  else r ← stdlg_down (u64 (x - 1)); Some (u32 (r + 1)).

(** A 64-bit left shift; a shift count of 64 or more is undefined in C, and
    [None] here. *)
Definition shl64 (v n : Z) : option Z :=
  if n <? 64 then Some (u64 (Z.shiftl v n)) else None.

Definition stdpow2_down (x : Z) : option Z :=
  if x =? 0 then Some 0 else (r ← stdlg_down x; shl64 1 r).

Definition stdpow2_up (x : Z) : option Z :=
  if x =? 0 then Some 0 else (r ← stdlg_up x; shl64 1 r).

Definition stdpow2_cap (x : Z) : option Z :=
  up_pow2 ← stdpow2_up x;
  if up_pow2 <? u64 (x + Z.shiftr x 1) then shl64 up_pow2 1 else Some up_pow2.

(** ** Lemmas *)

Lemma stdlg_down_loop_spec fuel x ret :
  0 < x < 2 ^ Z.of_nat fuel -> 0 <= ret -> ret + Z.of_nat fuel < 2 ^ 32 ->
  stdlg_down_loop fuel x ret = Some (ret + Z.log2 x).
Proof.
  revert x ret. induction fuel as [|n IH]; intros x ret Hx Hr Hb; [simpl in *; lia|].
  rewrite Nat2Z.inj_succ in *. cbn [stdlg_down_loop].
  destruct (Z.eqb_spec x 1) as [->|Hne]; [f_equal; change (Z.log2 1) with 0; lia|].
  assert (Hsh : Z.shiftr x 1 = x / 2) by (rewrite Z.shiftr_div_pow2 by lia; done).
  rewrite Hsh. unfold u32. rewrite wrapu_small by (unfold in_u; lia).
  rewrite Z.pow_succ_r in Hx by lia.
  rewrite IH; try lia.
  - f_equal. rewrite <- Hsh, Z.log2_shiftr by lia.
    assert (1 <= Z.log2 x) by (apply Z.log2_le_pow2; lia). lia.
  - split; [apply Z.div_str_pos; lia | apply Z.div_lt_upper_bound; lia].
Qed.

Lemma stdlg_down_log2 x : 0 < x < 2 ^ 64 -> stdlg_down x = Some (Z.log2 x).
Proof.
  intros Hx. unfold stdlg_down. destruct (Z.eqb_spec x 0); [lia|].
  rewrite stdlg_down_loop_spec; [done|simpl; lia|lia|simpl; lia].
Qed.

Lemma log2_lt_64 x : 0 < x < 2 ^ 64 -> 0 <= Z.log2 x < 64.
Proof.
  intros. split; [apply Z.log2_nonneg|]. apply Z.log2_lt_pow2; lia.
Qed.

Lemma stdlg_up_log2_up x : 0 < x < 2 ^ 64 -> stdlg_up x = Some (Z.log2_up x).
Proof.
  intros Hx. unfold stdlg_up. destruct (Z.eqb_spec x 0); [lia|].
  destruct (Z.eqb_spec x 1) as [->|]; [done|].
  unfold u64. rewrite wrapu_small by (unfold in_u; lia).
  rewrite stdlg_down_log2 by lia. simpl. f_equal.
  rewrite Z.log2_up_eqn, <- Z.sub_1_r by lia. unfold u32.
  pose proof (log2_lt_64 (x - 1) ltac:(lia)).
  rewrite wrapu_small by (unfold in_u; lia). lia.
Qed.

Lemma shl64_pow2 n : 0 <= n < 64 -> shl64 1 n = Some (2 ^ n).
Proof.
  intros. unfold shl64. destruct (Z.ltb_spec n 64); [|lia].
  rewrite Z.shiftl_1_l. unfold u64. rewrite wrapu_small; [done|].
  split; [apply Z.pow_nonneg; lia | apply Z.pow_lt_mono_r; lia].
Qed.

Lemma stdpow2_up_spec x : 0 < x <= 2 ^ 63 -> stdpow2_up x = Some (2 ^ Z.log2_up x).
Proof.
  intros Hx. unfold stdpow2_up. destruct (Z.eqb_spec x 0); [lia|].
  rewrite stdlg_up_log2_up by lia. simpl. apply shl64_pow2.
  split; [apply Z.log2_up_nonneg|].
  assert (Z.log2_up x <= 63); [|lia]. apply Z.log2_up_le_pow2; lia.
Qed.

(** The least power of two at or above [x] lies in [[x, 2x)]. *)
Lemma pow2_log2_up_bounds x : 0 < x -> x <= 2 ^ Z.log2_up x < 2 * x.
Proof.
  intros Hx. destruct (Z.eq_dec x 1) as [->|]; [done|].
  destruct (Z.log2_up_spec x) as [H1 H2]; [lia|]. split; [done|].
  replace (Z.log2_up x) with (Z.succ (Z.pred (Z.log2_up x))) by lia.
  rewrite Z.pow_succ_r; [lia|].
  pose proof (Z.log2_up_pos x). lia.
Qed.

(** The capacity: an exact power of two [2^k] with
    [x + x/2 <= 2^k < 3x], the division rounding down. *)
Lemma stdpow2_cap_pow2 x :
  0 < x <= 2 ^ 61 ->
  exists k, stdpow2_cap x = Some (2 ^ k) /\ 0 <= k <= 62 /\
            x + x / 2 <= 2 ^ k < 3 * x.
Proof.
  intros Hx. unfold stdpow2_cap. rewrite stdpow2_up_spec by lia. simpl.
  pose proof (pow2_log2_up_bounds x ltac:(lia)) as Hb.
  assert (Hk : 0 <= Z.log2_up x <= 61).
  { split; [apply Z.log2_up_nonneg|]. apply Z.log2_up_le_pow2; lia. }
  assert (Hsh : Z.shiftr x 1 = x / 2) by (rewrite Z.shiftr_div_pow2 by lia; done).
  rewrite Hsh. unfold u64.
  assert (Hd : 0 <= x / 2 <= x) by (split; [apply Z.div_pos; lia | apply Z.div_le_upper_bound; lia]).
  rewrite wrapu_small by (unfold in_u; lia).
  pose proof (Z.mul_div_le x 2 ltac:(lia)).
  destruct (Z.ltb_spec (2 ^ Z.log2_up x) (x + x / 2)).
  - exists (Z.succ (Z.log2_up x)). rewrite Z.pow_succ_r by lia.
    split; [|split; lia]. unfold shl64. cbn [Z.ltb Z.compare]. f_equal.
    rewrite Z.shiftl_mul_pow2 by lia. unfold u64.
    rewrite wrapu_small by (unfold in_u; lia). lia.
  - exists (Z.log2_up x). split; [done|]. lia.
Qed.
End Pow2.

Module HashCode.

(** A byte is its value in [[0, 256)]; a plain [char] reads it as signed. *)
Abbreviation byte := Z (only parsing).

(** Multi-byte keys are their bytes in memory order. *)
Definition oaat_step (ret : Z) (c : byte) : Z :=
  let ret := u32 (ret + s8 c) in
  let ret := u32 (ret + u32 (Z.shiftl ret 10)) in
  Z.lxor ret (Z.shiftr ret 6).

Definition stdhcode_oaat_start (tot_len : Z) : Z := u32 tot_len.

Definition stdhcode_oaat_churn (hsh : Z) (buf : list byte) : Z :=
  foldl oaat_step hsh buf.

Definition stdhcode_oaat_stop (hsh : Z) : Z :=
  let ret := u32 (hsh + u32 (Z.shiftl hsh 3)) in
  let ret := Z.lxor ret (Z.shiftr ret 11) in
  u32 (ret + u32 (Z.shiftl ret 15)).

Definition stdhcode_oaat (buf : list byte) : Z :=
  let ret := foldl oaat_step (u32 (Z.of_nat (length buf))) buf in
  let ret := u32 (ret + u32 (Z.shiftl ret 3)) in
  let ret := Z.lxor ret (Z.shiftr ret 11) in
  u32 (ret + u32 (Z.shiftl ret 15)).

Definition sfh_get16bits (b0 b1 : byte) : Z := Z.lor (u32 (Z.shiftl b1 8)) b0.

(** The main loop takes four bytes at a time; the [switch] the last [0..3]. *)
Fixpoint sfh_mix (ret : Z) (buf : list byte) : Z :=
  match buf with
  | b0 :: b1 :: b2 :: b3 :: rest =>
      let ret := u32 (ret + sfh_get16bits b0 b1) in
      let tmp := Z.lxor (u32 (Z.shiftl (sfh_get16bits b2 b3) 11)) ret in
      let ret := Z.lxor (u32 (Z.shiftl ret 16)) tmp in
      sfh_mix (u32 (ret + Z.shiftr ret 11)) rest
  | [b0; b1; b2] =>
      let ret := u32 (ret + sfh_get16bits b0 b1) in
      let ret := Z.lxor ret (u32 (Z.shiftl ret 16)) in
      let ret := Z.lxor ret (u32 (Z.shiftl b2 18)) in
      u32 (ret + Z.shiftr ret 11)
  | [b0; b1] =>
      let ret := u32 (ret + sfh_get16bits b0 b1) in
      let ret := Z.lxor ret (u32 (Z.shiftl ret 11)) in
      u32 (ret + Z.shiftr ret 17)
  | [b0] =>
      let ret := u32 (ret + b0) in
      let ret := Z.lxor ret (u32 (Z.shiftl ret 10)) in
      u32 (ret + Z.shiftr ret 1)
  | [] => ret
  end.

Definition sfh_avalanche (ret : Z) : Z :=
  let ret := Z.lxor ret (u32 (Z.shiftl ret 3)) in
  let ret := u32 (ret + Z.shiftr ret 5) in
  let ret := Z.lxor ret (u32 (Z.shiftl ret 4)) in
  let ret := u32 (ret + Z.shiftr ret 17) in
  let ret := Z.lxor ret (u32 (Z.shiftl ret 25)) in
  u32 (ret + Z.shiftr ret 6).

Definition stdhcode_sfh (buf : list byte) : Z :=
  sfh_avalanche (sfh_mix (u32 (Z.of_nat (length buf))) buf).

Definition stdhcode_sfh_start (tot_len : Z) : Z := u32 tot_len.
Definition stdhcode_sfh_churn (hsh : Z) (buf : list byte) : Z := sfh_mix hsh buf.
Definition stdhcode_sfh_stop (hsh : Z) : Z := sfh_avalanche hsh.

Lemma oaat_churn_app hsh b1 b2 :
  stdhcode_oaat_churn hsh (b1 ++ b2) =
  stdhcode_oaat_churn (stdhcode_oaat_churn hsh b1) b2.
Proof. apply foldl_app. Qed.

Lemma sfh_mix_app_4 hsh b1 b2 n :
  length b1 = (4 * n)%nat -> sfh_mix hsh (b1 ++ b2) = sfh_mix (sfh_mix hsh b1) b2.
Proof.
  revert hsh b1. induction n as [|n IH]; intros hsh b1 Hl.
  - destruct b1; [done | simpl in *; lia].
  - destruct b1 as [|c0 [|c1 [|c2 [|c3 b1]]]]; cbn [length] in Hl; try lia.
    cbn [app sfh_mix]. apply IH. lia.
Qed.

Lemma stdhcode_sfh_range buf : in_u 32 (stdhcode_sfh buf).
Proof. unfold stdhcode_sfh, sfh_avalanche, u32. apply wrapu_range. lia. Qed.
End HashCode.

Module Flip.

(** The in-place byte swaps of [stdflip*], on the bytes at which [io] points.
    [STDSWAP(ptr[i], ptr[j], t)] exchanges two cells. *)
Definition swap {A} (i j : nat) (l : list A) : list A :=
  match l !! i, l !! j with
  | Some x, Some y => <[j := x]> (<[i := y]> l)
  | _, _ => l
  end.

Definition stdflip16 (io : list Z) : list Z := swap 0 1 io.
Definition stdflip32 (io : list Z) : list Z := swap 1 2 (swap 0 3 io).
Definition stdflip64 (io : list Z) : list Z :=
  swap 3 4 (swap 2 5 (swap 1 6 (swap 0 7 io))).

(** [for (--ptr2; ptr1 != pend; ++ptr1, --ptr2) STDSWAP(...)]: [k] iterations
    are left. *)
Fixpoint stdflip_n_loop (k ptr1 ptr2 : nat) (io : list Z) : list Z :=
  match k with
  | O => io
  | S k' => stdflip_n_loop k' (S ptr1) (pred ptr2) (swap ptr1 ptr2 io)
  end.

Definition stdflip_n (io : list Z) (n : nat) : list Z :=
  stdflip_n_loop (Nat.div2 n) 0 (pred n) io.

(** The macros of daemon/arch.h on values.  The operand is promoted to [int]
    (or is unsigned already); the result is masked byte by byte. *)
Definition Flip_int16 (t : Z) : Z :=
  Z.lor (Z.land (Z.shiftr t 8) 255) (Z.land (Z.shiftl t 8) 65280).

Definition Flip_int32 (t : Z) : Z :=
  Z.lor (Z.lor (Z.lor (Z.land (Z.shiftr t 24) 255)
                      (Z.land (Z.shiftr t 8) 65280))
               (Z.land (Z.shiftl t 8) 16711680))
        (Z.land (Z.shiftl t 24) 4278190080).
End Flip.

Module Rand48.

Definition RAND48_SEED_0 := 13070.
Definition RAND48_SEED_1 := 43981.
Definition RAND48_SEED_2 := 4660.
Definition RAND48_MULT_0 := 58989.
Definition RAND48_MULT_1 := 57068.
Definition RAND48_MULT_2 := 5.
Definition RAND48_ADD := 11.

(** The generator's state: three 16-bit limbs, least significant first. *)
Record rand_state := mk_rand { x0 : Z; x1 : Z; x2 : Z }.

Definition stdrand32 (x : rand_state) : Z * rand_state :=
  let acc := u32 (u32 (RAND48_MULT_0 * x0 x) + RAND48_ADD) in
  let temp0 := u16 acc in
  let acc := Z.shiftr acc 16 in
  let acc := u32 (acc + u32 (u32 (RAND48_MULT_0 * x1 x) + u32 (RAND48_MULT_1 * x0 x))) in
  let temp1 := u16 acc in
  let acc := Z.shiftr acc 16 in
  let acc := u32 (acc + u32 (u32 (RAND48_MULT_0 * x2 x) + u32 (RAND48_MULT_1 * x1 x)
                             + u32 (RAND48_MULT_2 * x0 x))) in
  let x' := mk_rand temp0 temp1 (u16 acc) in
  (Z.lor (u32 (Z.shiftl (x2 x') 16)) (x1 x'), x').

Definition stdrand32_dseed (seed : Z) : rand_state :=
  let y2 := u16 (Z.lxor (Z.shiftr seed 16) RAND48_SEED_0) in
  let y1 := u16 (Z.lxor (Z.land seed 65535) RAND48_SEED_1) in
  mk_rand (u16 (Z.lxor (Z.lxor y1 y2) RAND48_SEED_2)) y1 y2.

(** The 48-bit number the limbs denote and the reference recurrence. *)
Definition rand_value (x : rand_state) : Z := x0 x + 2 ^ 16 * x1 x + 2 ^ 32 * x2 x.
Definition rand_ok (x : rand_state) : Prop :=
  in_u 16 (x0 x) /\ in_u 16 (x1 x) /\ in_u 16 (x2 x).
Definition lcg48 (v : Z) : Z := (25214903917 * v + 11) mod 2 ^ 48.

Lemma stdrand32_ok x : rand_ok (snd (stdrand32 x)).
Proof. unfold rand_ok, stdrand32, u16; simpl. auto using wrapu_range with lia. Qed.

(** Splitting the lowest 16-bit limb off a number given in mixed form. *)
Lemma limb_split a u k :
  0 <= k ->
  (a + 2 ^ 16 * u) mod 2 ^ (16 + k) = a mod 2 ^ 16 + 2 ^ 16 * ((a / 2 ^ 16 + u) mod 2 ^ k).
Proof.
  intros Hk. rewrite Z.pow_add_r by lia.
  rewrite Z.rem_mul_r by (try apply Z.pow_nonzero; try apply Z.pow_pos_nonneg; lia).
  rewrite (Z.mul_comm (2 ^ 16) u), Z_mod_plus_full, Z.div_add by lia. done.
Qed.

(** A limb of a 32-bit accumulator, and its carry modulo [2^16], do not see
    the accumulator's wrap-around. *)
Lemma limb_u32 b : u16 (u32 b) = b mod 2 ^ 16.
Proof.
  unfold u16, u32, wrapu. change (2 ^ 32) with (2 ^ 16 * 2 ^ 16).
  rewrite Z.rem_mul_r by lia. rewrite Z.mul_comm, Z_mod_plus_full, Zmod_mod. done.
Qed.

Lemma carry_u32 b v : u16 (Z.shiftr (u32 b) 16 + v) = u16 (b / 2 ^ 16 + v).
Proof.
  unfold u16, u32, wrapu. rewrite Z.shiftr_div_pow2 by lia.
  change (2 ^ 32) with (2 ^ 16 * 2 ^ 16). rewrite Z.rem_mul_r by lia.
  rewrite (Z.mul_comm (2 ^ 16) (_ mod _)), Z.div_add by lia.
  rewrite (Z.div_small (b mod 2 ^ 16)) by (apply Z.mod_pos_bound; lia).
  rewrite Z.add_0_l, Zplus_mod_idemp_l. done.
Qed.

Lemma u32_mult m y : 0 <= m < 2 ^ 16 -> in_u 16 y -> u32 (m * y) = m * y.
Proof. intros. apply wrapu_small. unfold in_u in *. nia. Qed.

Lemma stdrand32_limbs x :
  rand_ok x ->
  let A := RAND48_MULT_0 * x0 x + RAND48_ADD in
  let B := A / 2 ^ 16 + (RAND48_MULT_0 * x1 x + RAND48_MULT_1 * x0 x) in
  let C := B / 2 ^ 16 + (RAND48_MULT_0 * x2 x + RAND48_MULT_1 * x1 x + RAND48_MULT_2 * x0 x) in
  snd (stdrand32 x) = mk_rand (A mod 2 ^ 16) (B mod 2 ^ 16) (C mod 2 ^ 16).
Proof.
  intros (Ha & Hb & Hc) A B C. unfold stdrand32. cbn [snd].
  rewrite !u32_mult by (done || unfold RAND48_MULT_0, RAND48_MULT_1, RAND48_MULT_2; lia).
  fold A. assert (HA : u32 A = A).
  { apply wrapu_small. subst A. unfold in_u, RAND48_MULT_0, RAND48_ADD in *. lia. }
  assert (HB : forall v w, u32 (v + u32 w) = u32 (v + w)).
  { intros. apply wrapu_add_r. }
  rewrite HA, !HB, Z.shiftr_div_pow2 by lia. fold B.
  rewrite !limb_u32, <- Zmod_mod. f_equal; try apply Zmod_mod.
  apply carry_u32.
Qed.

Lemma stdrand32_value x :
  rand_ok x -> rand_value (snd (stdrand32 x)) = lcg48 (rand_value x).
Proof.
  intros Hx. rewrite (stdrand32_limbs x Hx). unfold rand_value, lcg48. cbn [x0 x1 x2].
  set (A := RAND48_MULT_0 * x0 x + RAND48_ADD).
  set (U := RAND48_MULT_0 * x1 x + RAND48_MULT_1 * x0 x).
  set (V := RAND48_MULT_0 * x2 x + RAND48_MULT_1 * x1 x + RAND48_MULT_2 * x0 x).
  replace (25214903917 * _ + 11)
    with (A + 2 ^ 16 * (U + 2 ^ 16 * (V + 2 ^ 16 * (RAND48_MULT_1 * x2 x + RAND48_MULT_2 * x1 x
          + 2 ^ 16 * (RAND48_MULT_2 * x2 x))))).
  2: { subst A U V. unfold RAND48_MULT_0, RAND48_MULT_1, RAND48_MULT_2, RAND48_ADD. ring. }
  change (2 ^ 48) with (2 ^ (16 + 32)). rewrite limb_split, Z.add_assoc by lia.
  change (2 ^ 32) with (2 ^ (16 + 16)) at 2. rewrite limb_split, Z.add_assoc by lia.
  rewrite (Z.mul_comm (2 ^ 16) (_ + _ + 2 ^ 16 * _)), Z_mod_plus_full.
  change (2 ^ 32) with (2 ^ 16 * 2 ^ 16). ring.
Qed.

Lemma stdrand32_output x :
  fst (stdrand32 x) = rand_value (snd (stdrand32 x)) / 2 ^ 16.
Proof.
  pose proof (stdrand32_ok x) as (H0 & H1 & H2). unfold rand_value. unfold stdrand32 in *. cbn [fst snd x0 x1 x2] in *.
  unfold in_u in *. set (a := u16 _) in *. set (b := u16 _) in H1 |- *. set (c := u16 _) in H2 |- *.
  rewrite u32_small by (rewrite Z.shiftl_mul_pow2 by lia; lia).
  rewrite lor_shiftl_add by lia.
  replace (a + 2 ^ 16 * b + 2 ^ 32 * c) with (a + (b + 2 ^ 16 * c) * 2 ^ 16) by ring.
  rewrite Z.div_add, Z.div_small by lia. lia.
Qed.
End Rand48.
