(* ===== verification/StdHash.v ===== *)
(** * StdHash: the open-addressing hash table of stdutil/src/stdhash.c

    Double hashing over a power-of-two table.  A table position is its index;
    [table_end] is the length of the table; [NULL] is the empty table.  An
    erased node stays in the table with hash code 0 ("inactive") so that probe
    sequences crossing it survive. *)
From stdpp Require Import base list numbers option.
From Stdlib Require Import ZArith Lia Znumtheory.
From S2P Require Import Prelude StdUtil.
#[local] Open Scope Z_scope.

Inductive stdcode := STDESUCCESS | STDEINVAL | STDENOMEM | STDEACCES.

Definition STDHASH_MIN_AUTO_ALLOC : Z := 16.
Definition STDHASH_OPTS_NO_AUTO_GROW : Z := 1.
Definition STDHASH_OPTS_NO_AUTO_SHRINK : Z := 2.
Definition STDSIZE_MAX : Z := 2 ^ 64 - 1.

(** Whether the allocations of a call succeed: a table of a given number of
    cells ([calloc]) and a node ([malloc]). *)
Record alloc := mk_alloc { table_ok : Z -> bool; node_ok : bool }.
Definition alloc_all : alloc := mk_alloc (fun _ => true) true.

Section StdHash.
Context {K V : Type}.

(** The key comparison and hash-code functions the table is created with. *)
Context (cmp_fcn : K -> K -> Z) (hcode_fcn : K -> Z).

Record stdhash_node := mk_node { hcode : Z; nkey : K; nval : V }.

Record stdhash := mk_hash {
  table : list (option stdhash_node);
  begin_pos : nat;
  cap_min1 : Z;
  cap_lg : Z;
  num_nodes : Z;
  size : Z;
  opts : Z
}.

Definition table_end (h : stdhash) : nat := length (table h).
Definition cap (h : stdhash) : Z := u64 (cap_min1 h + 1).

Definition inactive (nd : stdhash_node) : bool := hcode nd =? 0.

(** A cell that holds neither a NULL nor an inactive node. *)
Definition live (c : option stdhash_node) : bool :=
  match c with None => false | Some nd => negb (inactive nd) end.

Definition stdhash_low_hcode (key : K) : Z :=
  let ret := u32 (hcode_fcn key) in if ret =? 0 then 1 else ret.

Definition stdhash_low_hash (hc cap_min1 cap_lg : Z) : nat * nat :=
  (Z.to_nat (Z.land hc cap_min1),
   Z.to_nat (Z.lor (Z.shiftr hc (u64 (32 - cap_lg))) 1)).

(** [for (; curr_pos != end_pos && (EMPTY || INACTIVE); ++curr_pos)] over the
    cells [cs] that start at index [i]. *)
Fixpoint skip_dead (cs : list (option stdhash_node)) (i : nat) : nat :=
  match cs with
  | [] => i
  | c :: cs' => if live c then i else skip_dead cs' (S i)
  end.

Definition stdhash_low_next (t : list (option stdhash_node)) (curr : nat) : nat :=
  skip_dead (drop (S curr) t) (S curr).

(** [for (--curr_pos; EMPTY || INACTIVE; --curr_pos)]; [None] when the walk
    leaves the table. *)
Fixpoint stdhash_low_prev (t : list (option stdhash_node)) (curr : nat) : option nat :=
  match curr with
  | O => None
  | S p => match t !! p with
           | Some c => if live c then Some p else stdhash_low_prev t p
           | None => None
           end
  end.

Definition stdhash_low_clear (h : stdhash) : stdhash :=
  if num_nodes h =? 0 then h
  else mk_hash (replicate (table_end h) None) (table_end h) (cap_min1 h) (cap_lg h) 0 0 (opts h).

(** One step along a probe sequence, with wrap around. *)
Definition probe_step (tend h2 pos : nat) : nat :=
  let p := (pos + h2)%nat in if (tend <=? p)%nat then (p - tend)%nat else p.

(** The probe loop of [stdhash_low_find]; [None] is a loop that has not ended
    within the fuel, or a position outside the table. *)
Fixpoint low_find_loop (fuel : nat) (t : list (option stdhash_node)) (find_match : bool)
    (key : K) (hc : Z) (h2 pos : nat) : option nat :=
  match fuel with
  | O => None
  | S fuel' =>
      match t !! pos with
      | None => None
      | Some None => Some pos
      | Some (Some nd) =>
          let stop := if find_match
                      then (hcode nd =? hc) && (cmp_fcn key (nkey nd) =? 0)
                      else inactive nd in
          if stop then Some pos
          else low_find_loop fuel' t find_match key hc h2 (probe_step (length t) h2 pos)
      end
  end.

Definition stdhash_low_find (h : stdhash) (find_match : bool) (key : K) : option nat * Z :=
  let hc := stdhash_low_hcode key in
  let '(h1, h2) := stdhash_low_hash hc (cap_min1 h) (cap_lg h) in
  (low_find_loop (table_end h) (table h) find_match key hc h2 h1, hc).

(** [for (search_pos = table + h1; !EMPTY(search_pos);) ...] *)
Fixpoint find_empty (fuel : nat) (t : list (option stdhash_node)) (h2 pos : nat) : option nat :=
  match fuel with
  | O => None
  | S fuel' =>
      match t !! pos with
      | None => None
      | Some None => Some pos
      | Some (Some _) => find_empty fuel' t h2 (probe_step (length t) h2 pos)
      end
  end.

(** The loop over the old table: inactive nodes are freed, active ones go to
    the first empty position of their probe sequence in the new table. *)
Fixpoint rehash_nodes (cmin1 clg : Z) (old new : list (option stdhash_node))
    : option (list (option stdhash_node)) :=
  match old with
  | [] => Some new
  | None :: old' => rehash_nodes cmin1 clg old' new
  | Some nd :: old' =>
      if inactive nd then rehash_nodes cmin1 clg old' new
      else
        let '(h1, h2) := stdhash_low_hash (hcode nd) cmin1 clg in
        p ← find_empty (length new) new h2 h1;
        rehash_nodes cmin1 clg old' (<[p := Some nd]> new)
  end.

(** [None]: a loop does not end, or an undefined shift; otherwise the return
    code and the table, which is unchanged on failure. *)
Definition stdhash_low_rehash (a : alloc) (h : stdhash) (request_size : Z)
    : option (stdcode * stdhash) :=
  let request_size := Z.max request_size STDHASH_MIN_AUTO_ALLOC in
  pc ← Pow2.stdpow2_cap request_size;
  let good_cap := u64 (Z.shiftl pc 1) in
  if (good_cap <? request_size) || (STDSIZE_MAX <? good_cap) then Some (STDENOMEM, h)
  else
    lg ← Pow2.stdlg_up good_cap;
    let new_cap_min1 := u64 (good_cap - 1) in
    if negb (good_cap =? 0) && negb (table_ok a good_cap) then Some (STDENOMEM, h)
    else
      t ← rehash_nodes new_cap_min1 lg (table h) (replicate (Z.to_nat good_cap) None);
      let b := if negb (size h =? 0) then skip_dead t 0 else length t in
      Some (STDESUCCESS, mk_hash t b new_cap_min1 lg (size h) (size h) (opts h)).

Definition stdhash_high_thresh (h : stdhash) : Z := Z.shiftr (cap h) 1.
Definition stdhash_low_thresh (h : stdhash) : Z := Z.shiftr (cap h) 3.
Definition stdhash_max_size (h : stdhash) : Z := Z.shiftr STDSIZE_MAX 2.

Definition has_opt (h : stdhash) (o : Z) : bool := negb (Z.land (opts h) o =? 0).

(** The growth check at the head of the insertion loop. *)
Definition insert_grow (a : alloc) (h : stdhash) (hthresh : Z) : option (stdcode * stdhash) :=
  if hthresh <=? num_nodes h then
    if has_opt h STDHASH_OPTS_NO_AUTO_GROW then Some (STDEACCES, h)
    else stdhash_low_rehash a h (u64 (size h + 1))
  else Some (STDESUCCESS, h).

(** Setting the node at [pos] to the new key-value pair. *)
Definition insert_at (a : alloc) (h : stdhash) (overwrite : bool) (pos : nat) (hc : Z)
    (key : K) (val : V) : option (stdcode * stdhash) :=
  let set n s :=
    Some (STDESUCCESS,
          mk_hash (<[pos := Some (mk_node hc key val)]> (table h))
                  (if (pos <? begin_pos h)%nat then pos else begin_pos h)
                  (cap_min1 h) (cap_lg h) n s (opts h)) in
  match table h !! pos with
  | None => None
  | Some None => if node_ok a then set (num_nodes h + 1) (size h + 1) else Some (STDENOMEM, h)
  | Some (Some _) => if overwrite then set (num_nodes h) (size h)
                     else set (num_nodes h) (size h + 1)
  end.

(** [stdhash_low_insert] over the input sequence [src]; the position returned
    is [first_ins], or [table_end] when nothing was inserted. *)
Fixpoint stdhash_low_insert (a : alloc) (h : stdhash) (src : list (K * V)) (overwrite : bool)
    (hthresh : Z) (first_ins : option nat) : option (stdcode * stdhash * nat) :=
  let finish c h := Some (c, h, match first_ins with Some p => p | None => table_end h end) in
  match src with
  | [] => finish STDESUCCESS h
  | (key, val) :: src' =>
      '(c, h) ← insert_grow a h hthresh;
      match c with
      | STDESUCCESS =>
          let '(p, hc) := stdhash_low_find h overwrite key in
          pos ← p;
          '(c, h) ← insert_at a h overwrite pos hc key val;
          match c with
          | STDESUCCESS =>
              stdhash_low_insert a h src' overwrite (stdhash_high_thresh h)
                (match first_ins with Some p => Some p | None => Some pos end)
          | c => finish c h
          end
      | c => finish c h
      end
  end.

Definition stdhash_construct (ksize opts : Z) : stdcode * option stdhash :=
  if (ksize =? 0) ||
     negb (Z.land opts (Z.lnot (Z.lor STDHASH_OPTS_NO_AUTO_GROW STDHASH_OPTS_NO_AUTO_SHRINK)) =? 0)
  then (STDEINVAL, None)
  else (STDESUCCESS, Some (mk_hash [] 0 (u64 (-1)) (u64 (-1)) 0 0 opts)).

Definition stdhash_begin (h : stdhash) : nat := begin_pos h.
Definition stdhash_is_end (h : stdhash) (it : nat) : bool := (it =? table_end h)%nat.
Definition stdhash_it_next (h : stdhash) (it : nat) : nat := stdhash_low_next (table h) it.
Definition stdhash_size (h : stdhash) : Z := size h.
Definition stdhash_empty (h : stdhash) : bool := size h =? 0.

(** The key-value pair an iterator refers to. *)
Definition stdhash_it_pair (h : stdhash) (it : nat) : option (K * V) :=
  nd ← mjoin (table h !! it); Some (nkey nd, nval nd).

Definition stdhash_find (h : stdhash) (key : K) : option nat :=
  if negb (size h =? 0) then
    s ← fst (stdhash_low_find h true key);
    c ← table h !! s;
    Some (match c with Some _ => s | None => table_end h end)
  else Some (table_end h).

Definition stdhash_contains (h : stdhash) (key : K) : option bool :=
  it ← stdhash_find h key; Some (negb (stdhash_is_end h it)).

(** The loop of [stdhash_keyed_next], from the node [nd] of the iterator. *)
Fixpoint keyed_next_loop (fuel : nat) (t : list (option stdhash_node)) (nd : stdhash_node)
    (h2 pos : nat) : option nat :=
  match fuel with
  | O => None
  | S fuel' =>
      let pos := probe_step (length t) h2 pos in
      match t !! pos with
      | None => None
      | Some None => Some (length t)
      | Some (Some nd') =>
          if (hcode nd' =? hcode nd) && (cmp_fcn (nkey nd') (nkey nd) =? 0) then Some pos
          else keyed_next_loop fuel' t nd h2 pos
      end
  end.

Definition stdhash_keyed_next (h : stdhash) (it : nat) : option nat :=
  nd ← mjoin (table h !! it);
  keyed_next_loop (table_end h) (table h) nd
    (snd (stdhash_low_hash (hcode nd) (cap_min1 h) (cap_lg h))) it.

Definition stdhash_put (a : alloc) (h : stdhash) (key : K) (val : V) :=
  stdhash_low_insert a h [(key, val)] true (stdhash_high_thresh h) None.
Definition stdhash_insert (a : alloc) (h : stdhash) (key : K) (val : V) :=
  stdhash_low_insert a h [(key, val)] false (stdhash_high_thresh h) None.
Definition stdhash_put_n (a : alloc) (h : stdhash) (kvs : list (K * V)) :=
  stdhash_low_insert a h kvs true (stdhash_high_thresh h) None.
Definition stdhash_insert_n (a : alloc) (h : stdhash) (kvs : list (K * V)) :=
  stdhash_low_insert a h kvs false (stdhash_high_thresh h) None.
Definition stdhash_insert_rep (a : alloc) (h : stdhash) (key : K) (val : V) (num_times : nat) :=
  stdhash_low_insert a h (replicate num_times (key, val)) false (stdhash_high_thresh h) None.

(** The shrink check after a removal. *)
Definition should_shrink (h : stdhash) : bool :=
  negb (has_opt h STDHASH_OPTS_NO_AUTO_SHRINK) &&
  negb (cap h =? STDHASH_MIN_AUTO_ALLOC) && (size h <=? stdhash_low_thresh h).

Definition stdhash_erase (a : alloc) (h : stdhash) (it : nat) : option (stdhash * nat) :=
  nd ← mjoin (table h !! it);
  let t := <[it := Some (mk_node 0 (nkey nd) (nval nd))]> (table h) in
  let nxt := stdhash_low_next t it in
  let h := mk_hash t (if (it =? begin_pos h)%nat then nxt else begin_pos h)
                   (cap_min1 h) (cap_lg h) (num_nodes h) (u64 (size h - 1)) (opts h) in
  if should_shrink h then
    '(c, h') ← stdhash_low_rehash a h (size h);
    match c with
    | STDESUCCESS => Some (h', begin_pos h')
    | _ => Some (h, nxt)
    end
  else Some (h, nxt).

(** [while (!is_end(h, find(h, &search, key))) erase(h, &search);] *)
Fixpoint stdhash_erase_key_loop (fuel : nat) (a : alloc) (h : stdhash) (key : K) : option stdhash :=
  match fuel with
  | O => None
  | S fuel' =>
      it ← stdhash_find h key;
      if stdhash_is_end h it then Some h
      else '(h, _) ← stdhash_erase a h it; stdhash_erase_key_loop fuel' a h key
  end.

Definition stdhash_erase_key (a : alloc) (h : stdhash) (key : K) : option stdhash :=
  stdhash_erase_key_loop (S (Z.to_nat (size h))) a h key.

Definition stdhash_clear (a : alloc) (h : stdhash) : option stdhash :=
  let h := stdhash_low_clear h in
  if should_shrink h then '(_, h') ← stdhash_low_rehash a h (size h); Some h' else Some h.

Definition stdhash_reserve (a : alloc) (h : stdhash) (num_pairs : Z) : option (stdcode * stdhash) :=
  if stdhash_high_thresh h <? num_pairs then stdhash_low_rehash a h num_pairs
  else Some (STDESUCCESS, h).

Definition stdhash_rehash (a : alloc) (h : stdhash) : option (stdcode * stdhash) :=
  stdhash_low_rehash a h (size h).

End StdHash.
