(* ===== verification/StdHashProof.v ===== *)
(** * StdHashProof: correctness of the hash table

    The representation invariant [hash_wf], that every operation keeps it, that
    every probe loop ends, and that the table implements a multimap: its
    contents, in iteration order, are [pairs h]. *)
From stdpp Require Import base list numbers option sets.
From Stdlib Require Import ZArith Lia Znumtheory Zpow_facts.
From S2P Require Import Prelude StdUtil StdHash.
#[local] Open Scope Z_scope.

(** ** Probe sequences *)
Section Probe.

(** The [i]-th position of the probe sequence of hash values [h1], [h2]. *)
Definition probe (n h1 h2 i : nat) : nat := ((h1 + i * h2) mod n)%nat.

Lemma probe_lt n h1 h2 i : n ≠ 0%nat -> (probe n h1 h2 i < n)%nat.
Proof. intros. by apply Nat.mod_upper_bound. Qed.

Lemma probe_0 n h1 h2 : (h1 < n)%nat -> probe n h1 h2 0 = h1.
Proof. intros. unfold probe. rewrite Nat.add_0_r. by apply Nat.mod_small. Qed.

Lemma probe_step_S n h1 h2 i :
  (h2 < n)%nat -> probe_step n h2 (probe n h1 h2 i) = probe n h1 h2 (S i).
Proof.
  intros Hh. assert (n ≠ 0%nat) as Hn by lia. unfold probe_step.
  pose proof (probe_lt n h1 h2 i Hn) as Hp.
  assert (probe n h1 h2 (S i) = ((probe n h1 h2 i + h2) mod n)%nat) as ->.
  { unfold probe. rewrite Nat.Div0.add_mod_idemp_l. f_equal. lia. }
  destruct (Nat.leb_spec n (probe n h1 h2 i + h2)%nat).
  - apply (Nat.mod_unique _ _ 1); lia.
  - symmetry. apply Nat.mod_small. lia.
Qed.

Context (lg : Z) (Hlg : 0 <= lg).
Abbreviation N := (Z.to_nat (2 ^ lg)).

Lemma N_pos : (0 < N)%nat.
Proof. pose proof (pow2_pos lg Hlg). lia. Qed.

Lemma odd_rel_prime h2 : Z.odd h2 = true -> rel_prime h2 (2 ^ lg).
Proof.
  intros Ho. apply rel_prime_Zpower_r; [done|]. apply rel_prime_sym.
  apply prime_rel_prime; [apply prime_2|]. intros [q ->].
  rewrite Z.odd_mul, andb_false_r in Ho. done.
Qed.

Lemma probe_Z h1 h2 i : Z.of_nat (probe N h1 h2 i) =
  (Z.of_nat h1 + Z.of_nat i * Z.of_nat h2) mod 2 ^ lg.
Proof.
  unfold probe. rewrite Nat2Z.inj_mod, Nat2Z.inj_add, Nat2Z.inj_mul, Z2Nat.id; [done|].
  pose proof (pow2_pos lg Hlg). lia.
Qed.

(** The offset is odd, so it is prime to the table size and the sequence
    visits every position of the table ... *)
Lemma probe_surj h1 h2 p :
  Z.odd (Z.of_nat h2) = true -> (p < N)%nat -> exists i, (i < N)%nat /\ probe N h1 h2 i = p.
Proof.
  intros Ho Hp. pose proof (pow2_pos lg Hlg) as Hpos.
  destruct (rel_prime_bezout _ _ (odd_rel_prime _ Ho)) as [u v Huv].
  exists (Z.to_nat (((Z.of_nat p - Z.of_nat h1) * u) mod 2 ^ lg)).
  pose proof (Z.mod_pos_bound ((Z.of_nat p - Z.of_nat h1) * u) (2 ^ lg) Hpos).
  split; [lia|]. apply Nat2Z.inj. rewrite probe_Z, Z2Nat.id by lia.
  rewrite <- Zplus_mod_idemp_r, Zmult_mod_idemp_l, Zplus_mod_idemp_r.
  replace (Z.of_nat h1 + (Z.of_nat p - Z.of_nat h1) * u * Z.of_nat h2)
    with (Z.of_nat p + (- (Z.of_nat p - Z.of_nat h1) * v) * 2 ^ lg) by nia.
  rewrite Z_mod_plus_full. apply Z.mod_small. lia.
Qed.

(** ... and visits none of them twice in one round. *)
Lemma probe_inj h1 h2 i j :
  Z.odd (Z.of_nat h2) = true -> (i < N)%nat -> (j < N)%nat ->
  probe N h1 h2 i = probe N h1 h2 j -> i = j.
Proof.
  intros Ho. pose proof (pow2_pos lg Hlg) as Hpos.
  assert (forall a b, (a <= b)%nat -> (b < N)%nat -> probe N h1 h2 a = probe N h1 h2 b -> a = b) as Hle.
  { intros a b Hab Hb He. apply (f_equal Z.of_nat) in He. rewrite !probe_Z in He.
    assert ((2 ^ lg | (Z.of_nat b - Z.of_nat a) * Z.of_nat h2)) as Hd.
    { apply Z.mod_divide; [lia|].
      replace ((Z.of_nat b - Z.of_nat a) * Z.of_nat h2) with
        (Z.of_nat h1 + Z.of_nat b * Z.of_nat h2 - (Z.of_nat h1 + Z.of_nat a * Z.of_nat h2)) by ring.
      rewrite Zminus_mod, He, Z.sub_diag. by apply Z.mod_0_l, Z.neq_sym, Z.lt_neq. }
    rewrite Z.mul_comm in Hd.
    apply Gauss in Hd; [|apply rel_prime_sym, odd_rel_prime, Ho].
    destruct (Z.eq_dec (Z.of_nat b - Z.of_nat a) 0); [lia|].
    apply Z.divide_pos_le in Hd; lia. }
  intros Hi Hj He. destruct (Nat.le_gt_cases i j); [by apply Hle|].
  symmetry. apply Hle; [lia|done|done].
Qed.
End Probe.

(** ** The representation invariant *)
Section Facts.
Context {K V : Type} (cmp_fcn : K -> K -> Z) (hcode_fcn : K -> Z).

(** The contract on the user's functions stated in stdhash.c, (1) and (3). *)
Class key_contract : Prop := {
  cmp_refl k : cmp_fcn k k = 0;
  cmp_sym k1 k2 : cmp_fcn k1 k2 = 0 -> cmp_fcn k2 k1 = 0;
  cmp_trans k1 k2 k3 : cmp_fcn k1 k2 = 0 -> cmp_fcn k2 k3 = 0 -> cmp_fcn k1 k3 = 0;
  cmp_hcode k1 k2 : cmp_fcn k1 k2 = 0 -> hcode_fcn k1 = hcode_fcn k2
}.

Abbreviation node := (@stdhash_node K V).
Abbreviation cell := (option node).
Abbreviation hash := (@stdhash K V).
Abbreviation low_hcode := (stdhash_low_hcode hcode_fcn).

Definition cell_pair (c : cell) : option (K * V) :=
  match c with
  | Some nd => if inactive nd then None else Some (nkey nd, nval nd)
  | None => None
  end.

(** The contents in iteration order, and the number of nodes. *)
Definition cells_pairs (t : list cell) : list (K * V) := omap cell_pair t.
Definition pairs (h : hash) : list (K * V) := cells_pairs (table h).
Definition occupied (t : list cell) : Z := Z.of_nat (length (omap id t)).

Definition shape (t : list cell) (cmin1 clg : Z) : Prop :=
  1 <= clg <= 32 /\ length t = Z.to_nat (2 ^ clg) /\ cmin1 = 2 ^ clg - 1.

(** The probe sequence of a hash code in table [t]. *)
Definition seq_of (t : list cell) (cmin1 clg hc : Z) (i : nat) : nat :=
  let '(h1, h2) := stdhash_low_hash hc cmin1 clg in probe (length t) h1 h2 i.

(** Position [p] is on the probe sequence of [hc], behind nodes only. *)
Definition reach (t : list cell) (cmin1 clg hc : Z) (p : nat) : Prop :=
  exists i, (i < length t)%nat /\ p = seq_of t cmin1 clg hc i /\
    forall j, (j < i)%nat -> exists nd, t !! seq_of t cmin1 clg hc j = Some (Some nd).

Definition placed (t : list cell) (cmin1 clg : Z) : Prop :=
  forall p nd, t !! p = Some (Some nd) -> inactive nd = false ->
    hcode nd = low_hcode (nkey nd) /\ reach t cmin1 clg (hcode nd) p.

Definition first_live (t : list cell) (b : nat) : Prop :=
  (b <= length t)%nat /\ (forall j c, (j < b)%nat -> t !! j = Some c -> live c = false) /\
  (forall c, t !! b = Some c -> live c = true).

Record hash_wf (h : hash) : Prop := {
  wf_shape : (table h = [] /\ cap_min1 h = 2 ^ 64 - 1) \/ shape (table h) (cap_min1 h) (cap_lg h);
  wf_size : size h = Z.of_nat (length (pairs h));
  wf_num : num_nodes h = occupied (table h);
  wf_load : 2 * num_nodes h <= Z.of_nat (table_end h);
  wf_begin : first_live (table h) (begin_pos h);
  wf_placed : placed (table h) (cap_min1 h) (cap_lg h)
}.

(** ** Hash values *)

Lemma low_hcode_range k : 0 < low_hcode k < 2 ^ 32.
Proof.
  unfold stdhash_low_hcode. pose proof (wrapu_range 32 (hcode_fcn k) ltac:(lia)) as H.
  unfold in_u in H. fold (u32 (hcode_fcn k)) in H. simpl_if; lia.
Qed.

Lemma low_hash_bounds hc cmin1 clg h1 h2 (t : list cell) :
  0 <= hc < 2 ^ 32 -> shape t cmin1 clg -> stdhash_low_hash hc cmin1 clg = (h1, h2) ->
  (h1 < length t)%nat /\ (h2 < length t)%nat /\ Z.odd (Z.of_nat h2) = true.
Proof.
  intros Hhc (Hlg & Hlen & ->) Heq. unfold stdhash_low_hash in Heq. injection Heq as <- <-.
  rewrite Hlen. replace (2 ^ clg - 1) with (Z.ones clg) by (rewrite Z.ones_equiv; lia).
  rewrite Z.land_ones by lia. pose proof (pow2_pos clg ltac:(lia)) as Hpos.
  pose proof (Z.mod_pos_bound hc (2 ^ clg) Hpos).
  unfold u64. rewrite wrapu_small by (unfold in_u; lia).
  set (x := Z.shiftr hc (32 - clg)).
  assert (Hx : 0 <= x < 2 ^ clg).
  { subst x. rewrite Z.shiftr_div_pow2 by lia. split; [apply Z.div_pos; lia|].
    apply Z.div_lt_upper_bound; [lia|]. rewrite <- Z.pow_add_r by lia.
    replace (32 - clg + clg) with 32 by lia. lia. }
  assert (Ho : 0 <= Z.lor x 1) by (apply Z.lor_nonneg; lia).
  split; [lia|]. rewrite Z2Nat.id by done. split.
  - apply Z2Nat.inj_lt; try lia. apply Z.log2_lt_cancel.
    rewrite Z.log2_lor, Z.log2_pow2 by lia. change (Z.log2 1) with 0.
    destruct (Z.eq_dec x 0) as [->|]; [simpl; lia|].
    assert (Z.log2 x < clg) by (apply Z.log2_lt_pow2; lia).
    pose proof (Z.log2_nonneg x). lia.
  - rewrite <- Z.bit0_odd, Z.lor_spec. apply orb_true_r.
Qed.

(** ** Probe loops *)

(** All probe loops of the table: walk until [stop] accepts the cell. *)
Fixpoint probe_loop (stop : cell -> bool) (fuel : nat) (t : list cell) (h2 pos : nat) : option nat :=
  match fuel with
  | O => None
  | S fuel' =>
      c ← t !! pos;
      if stop c then Some pos else probe_loop stop fuel' t h2 (probe_step (length t) h2 pos)
  end.

Definition stop_match (key : K) (hc : Z) (c : cell) : bool :=
  match c with None => true | Some nd => (hcode nd =? hc) && (cmp_fcn key (nkey nd) =? 0) end.
Definition stop_hole (c : cell) : bool :=
  match c with None => true | Some nd => inactive nd end.
Definition stop_empty (c : cell) : bool :=
  match c with None => true | Some _ => false end.

Lemma low_find_loop_probe fuel t fm key hc h2 pos :
  low_find_loop cmp_fcn fuel t fm key hc h2 pos =
  probe_loop (if fm then stop_match key hc else stop_hole) fuel t h2 pos.
Proof.
  revert pos. induction fuel as [|n IH]; intros pos; [done|]. simpl.
  destruct (t !! pos) as [[nd|]|]; simpl; [|by destruct fm|done].
  destruct fm; simpl; by rewrite IH.
Qed.

Lemma find_empty_probe fuel (t : list cell) h2 pos :
  find_empty fuel t h2 pos = probe_loop stop_empty fuel t h2 pos.
Proof.
  revert pos. induction fuel as [|n IH]; intros pos; [done|]. simpl.
  destruct (t !! pos) as [[nd|]|]; simpl; by rewrite ?IH.
Qed.

Lemma keyed_next_probe fuel (t : list cell) nd h2 pos :
  keyed_next_loop cmp_fcn fuel t nd h2 pos =
  (p ← probe_loop (fun c => match c with None => true | Some nd' =>
                      (hcode nd' =? hcode nd) && (cmp_fcn (nkey nd') (nkey nd) =? 0) end)
          fuel t h2 (probe_step (length t) h2 pos);
   c ← t !! p; Some (match c with None => length t | Some _ => p end)).
Proof.
  revert pos. induction fuel as [|n IH]; intros pos; [done|]. simpl.
  destruct (t !! probe_step _ _ _) as [[nd'|]|] eqn:E; simpl; [|by rewrite E|done].
  destruct ((hcode nd' =? hcode nd) && (cmp_fcn (nkey nd') (nkey nd) =? 0)).
  - simpl. by rewrite E.
  - rewrite IH. done.
Qed.

(** The walk up to the first accepted index [m]. *)
Lemma probe_loop_run stop (t : list cell) h1 h2 m i fuel :
  (h2 < length t)%nat -> (i <= m)%nat -> (m - i < fuel)%nat ->
  (forall j, (i <= j < m)%nat -> exists c, t !! probe (length t) h1 h2 j = Some c /\ stop c = false) ->
  (exists c, t !! probe (length t) h1 h2 m = Some c /\ stop c = true) ->
  probe_loop stop fuel t h2 (probe (length t) h1 h2 i) = Some (probe (length t) h1 h2 m).
Proof.
  intros Hh2. revert i. induction fuel as [|n IH]; intros i Hi Hf Hj Hm; [lia|]. simpl.
  destruct (Nat.eq_dec i m) as [->|Hne].
  - destruct Hm as (c & -> & Hc). simpl. by rewrite Hc.
  - destruct (Hj i) as (c & -> & Hc); [lia|]. simpl. rewrite Hc, probe_step_S by done.
    apply IH; [lia|lia| |done]. intros j ?. apply Hj. lia.
Qed.

Lemma seq_of_lt (t : list cell) cmin1 clg hc i : shape t cmin1 clg -> (seq_of t cmin1 clg hc i < length t)%nat.
Proof.
  intros (Hlg & Hlen & _). unfold seq_of. destruct (stdhash_low_hash _ _ _).
  apply probe_lt. rewrite Hlen. pose proof (pow2_pos clg ltac:(lia)). lia.
Qed.

(** A table with an empty cell: the probe loop of any hash code ends, at the
    first index [m] of the sequence that [stop] accepts. *)
Lemma probe_loop_ends stop (t : list cell) cmin1 clg hc h1 h2 e :
  0 <= hc < 2 ^ 32 -> shape t cmin1 clg -> stdhash_low_hash hc cmin1 clg = (h1, h2) ->
  stop None = true -> t !! e = Some None ->
  exists m, (m < length t)%nat /\
    probe_loop stop (length t) t h2 h1 = Some (seq_of t cmin1 clg hc m) /\
    (exists c, t !! seq_of t cmin1 clg hc m = Some c /\ stop c = true) /\
    (forall j, (j < m)%nat -> exists nd, t !! seq_of t cmin1 clg hc j = Some (Some nd) /\ stop (Some nd) = false).
Proof.
  intros Hhc Hsh Heq Hs He. pose proof (low_hash_bounds _ _ _ _ _ _ Hhc Hsh Heq) as (Hh1 & Hh2 & Ho).
  assert (Hseq : forall i, seq_of t cmin1 clg hc i = probe (length t) h1 h2 i)
    by (intros i; unfold seq_of; by rewrite Heq).
  destruct (Hsh) as (Hlg & Hlen & _).
  destruct (probe_surj clg ltac:(lia) h1 h2 e Ho) as (n & Hn & Hpn).
  { rewrite <- Hlen. apply lookup_lt_Some in He. done. }
  rewrite <- Hlen in Hn, Hpn.
  destruct (least_index (fun i => match t !! seq_of t cmin1 clg hc i with Some c => stop c | None => true end) n)
    as (m & Hm & HPm & Hlt).
  { by rewrite Hseq, Hpn, He. }
  assert (Hcell : forall i, exists c, t !! seq_of t cmin1 clg hc i = Some c)
    by (intros i; apply lookup_lt_is_Some_2, seq_of_lt, Hsh).
  exists m. split; [lia|].
  assert (Hstop : exists c, t !! seq_of t cmin1 clg hc m = Some c /\ stop c = true).
  { destruct (Hcell m) as [c Hc]. rewrite Hc in HPm. eauto. }
  assert (Hbefore : forall j, (j < m)%nat -> exists nd, t !! seq_of t cmin1 clg hc j = Some (Some nd) /\ stop (Some nd) = false).
  { intros j Hj. specialize (Hlt j Hj). destruct (Hcell j) as [[nd|] Hc]; rewrite Hc in *; [eauto|congruence]. }
  split; [|by split]. rewrite <- (probe_0 (length t) h1 h2) at 1 by done. rewrite Hseq.
  apply probe_loop_run; try lia; [|by rewrite <- Hseq].
  intros j Hj. rewrite <- Hseq. destruct (Hbefore j) as (nd & ? & ?); [lia|eauto].
Qed.

(** ** Cells, pairs and counts *)

Lemma occupied_nonneg t : 0 <= occupied t.
Proof. unfold occupied. lia. Qed.

Lemma occupied_cons c t : occupied (c :: t) = Z.of_nat (length (option_list c)) + occupied t.
Proof. unfold occupied. destruct c; cbn -[Z.of_nat]; lia. Qed.

Lemma cells_pairs_cons c t : cells_pairs (c :: t) = option_list (cell_pair c) ++ cells_pairs t.
Proof. unfold cells_pairs. cbn. by destruct (cell_pair c). Qed.

Lemma empty_cell_exists t : occupied t < Z.of_nat (length t) -> exists e, t !! e = Some None.
Proof.
  induction t as [|[nd|] t IH]; [done| |by exists 0%nat].
  rewrite occupied_cons. cbn [option_list option_rect length]. intros H.
  destruct IH as [e He]; [lia|]. by exists (S e).
Qed.

Lemma pairs_le_occupied t : Z.of_nat (length (cells_pairs t)) <= occupied t.
Proof.
  induction t as [|[nd|] t IH]; [done| |]; rewrite occupied_cons, cells_pairs_cons, length_app.
  - cbn [cell_pair option_list option_rect length]. destruct (inactive nd); cbn [option_list option_rect length]; lia.
  - cbn [cell_pair option_list option_rect length]. lia.
Qed.

Lemma pairs_elem (t : list cell) k v :
  (k, v) ∈ cells_pairs t <->
  exists p nd, t !! p = Some (Some nd) /\ inactive nd = false /\ nkey nd = k /\ nval nd = v.
Proof.
  unfold cells_pairs. rewrite list_elem_of_omap. split.
  - intros (c & Hc & Hp). apply list_elem_of_lookup in Hc as [p Hp'].
    destruct c as [nd|]; simpl in Hp; [|done]. destruct (inactive nd) eqn:E; [done|].
    injection Hp as <- <-. by exists p, nd.
  - intros (p & nd & Hp & Hi & <- & <-). exists (Some nd).
    split; [by eapply list_elem_of_lookup_2|]. simpl. by rewrite Hi.
Qed.

(** Writing cell [p]: what the contents and the node count become. *)
Lemma cells_insert (t : list cell) p c :
  t !! p = Some c ->
  exists l1 l2, cells_pairs t = l1 ++ option_list (cell_pair c) ++ l2 /\
    forall c', cells_pairs (<[p := c']> t) = l1 ++ option_list (cell_pair c') ++ l2.
Proof. apply omap_insert_split. Qed.

Lemma occupied_insert (t : list cell) p c c' :
  t !! p = Some c ->
  occupied (<[p := c']> t) =
  occupied t - Z.of_nat (length (option_list c)) + Z.of_nat (length (option_list c')).
Proof.
  intros Hp. destruct (omap_insert_split id t p c Hp) as (l1 & l2 & H1 & H2).
  unfold occupied. rewrite H1, H2. unfold id. rewrite !length_app. lia.
Qed.

Lemma skip_dead_spec (t : list cell) i : forall b, skip_dead t i = b ->
  (i <= b <= i + length t)%nat /\
  (forall j c, (i + j < b)%nat -> t !! j = Some c -> live c = false) /\
  (forall c, t !! (b - i)%nat = Some c -> live c = true).
Proof.
  revert i. induction t as [|c t IH]; intros i b <-; simpl.
  - split; [lia|]. split; [done|]. rewrite Nat.sub_diag. done.
  - destruct (live c) eqn:E.
    + split; [lia|]. split; [intros; lia|]. rewrite Nat.sub_diag. simpl. naive_solver.
    + destruct (IH (S i) _ eq_refl) as (H1 & H2 & H3). split; [lia|]. split.
      * intros [|j] c' Hj Hc; simpl in Hc; [naive_solver|]. apply (H2 j); [lia|done].
      * intros c'. replace (skip_dead t (S i) - i)%nat with (S (skip_dead t (S i) - S i)) by lia.
        simpl. apply H3.
Qed.

Lemma skip_dead_first (t : list cell) : first_live t (skip_dead t 0).
Proof.
  destruct (skip_dead_spec t 0 _ eq_refl) as (H1 & H2 & H3). rewrite Nat.sub_0_r in H3.
  split; [lia|]. split; [|done]. intros j c Hj. apply H2. lia.
Qed.

Lemma no_pairs_dead (t : list cell) j c : length (cells_pairs t) = 0%nat -> t !! j = Some c -> live c = false.
Proof.
  intros Hl Hj. destruct c as [nd|]; [|done]. simpl. destruct (inactive nd) eqn:E; [done|].
  assert (Hin : (nkey nd, nval nd) ∈ cells_pairs t) by (apply pairs_elem; eauto 10).
  destruct (cells_pairs t); [set_solver | done].
Qed.

(** ** Placement *)

Lemma seq_of_length (t t' : list cell) cm lg hc i :
  length t = length t' -> seq_of t cm lg hc i = seq_of t' cm lg hc i.
Proof. intros H. unfold seq_of. destruct (stdhash_low_hash _ _ _). by rewrite H. Qed.

Lemma reach_insert (t : list cell) cm lg hc p pos nd' :
  reach t cm lg hc p -> reach (<[pos := Some nd']> t) cm lg hc p.
Proof.
  intros (i & Hi & -> & Hj). exists i. rewrite length_insert.
  assert (Hs : forall n, seq_of (<[pos:=Some nd']> t) cm lg hc n = seq_of t cm lg hc n)
    by (intros n; apply seq_of_length, length_insert).
  rewrite Hs. split; [done|]. split; [done|]. intros j Hlt. rewrite Hs.
  destruct (Hj j Hlt) as [nd Hnd]. rewrite list_lookup_insert.
  case_decide as Hd; [eauto|]. eauto.
Qed.

Lemma placed_insert (t : list cell) cm lg pos nd' :
  placed t cm lg ->
  (inactive nd' = true \/ (hcode nd' = low_hcode (nkey nd') /\ reach t cm lg (hcode nd') pos)) ->
  placed (<[pos := Some nd']> t) cm lg.
Proof.
  intros Hpl Hnd p nd Hp Hact. rewrite list_lookup_insert in Hp. case_decide as Hd.
  - destruct Hd as [-> ?]. simplify_eq. destruct Hnd as [?|[? ?]]; [congruence|].
    split; [done|]. by apply reach_insert.
  - destruct (Hpl p nd Hp Hact) as [? ?]. split; [done|]. by apply reach_insert.
Qed.

Lemma shape_insert (t : list cell) cm lg pos c : shape t cm lg -> shape (<[pos := c]> t) cm lg.
Proof. unfold shape. by rewrite length_insert. Qed.

Lemma hcode_placed_range (t : list cell) cm lg p nd :
  placed t cm lg -> t !! p = Some (Some nd) -> inactive nd = false -> 0 <= hcode nd < 2 ^ 32.
Proof.
  intros Hpl Hp Ha. destruct (Hpl p nd Hp Ha) as [-> _]. pose proof (low_hcode_range (nkey nd)). lia.
Qed.

(** ** Rehashing *)

(** What the loop needs of the old table's nodes. *)
Definition hcodes_ok (t : list cell) : Prop :=
  forall nd, Some nd ∈ t -> inactive nd = false -> hcode nd = low_hcode (nkey nd).

Lemma placed_hcodes t cm lg : placed t cm lg -> hcodes_ok t.
Proof.
  intros Hpl nd Hin Ha. apply list_elem_of_lookup in Hin as [p Hp]. by destruct (Hpl p nd Hp Ha).
Qed.

(** Putting an active node into the first empty cell of its sequence. *)
Lemma find_empty_place (t : list cell) cm lg nd h1 h2 :
  shape t cm lg -> placed t cm lg -> occupied t < Z.of_nat (length t) ->
  hcode nd = low_hcode (nkey nd) -> stdhash_low_hash (hcode nd) cm lg = (h1, h2) ->
  exists p, find_empty (length t) t h2 h1 = Some p /\ t !! p = Some None /\
            placed (<[p := Some nd]> t) cm lg.
Proof.
  intros Hsh Hpl Hocc Hhc Heq. destruct (empty_cell_exists t Hocc) as [e He].
  pose proof (low_hcode_range (nkey nd)).
  destruct (probe_loop_ends stop_empty t cm lg (hcode nd) h1 h2 e) as (m & Hm & Hl & (c & Hc & Hs) & Hb);
    try done; [lia|].
  exists (seq_of t cm lg (hcode nd) m). rewrite find_empty_probe, Hl. split; [done|].
  destruct c; [done|]. split; [done|]. apply placed_insert; [done|]. right. split; [done|].
  exists m. split; [done|]. split; [done|]. intros j Hj. destruct (Hb j Hj) as (nd' & ? & _). eauto.
Qed.

Lemma rehash_nodes_spec cm lg old : forall new,
  shape new cm lg -> placed new cm lg -> hcodes_ok old ->
  occupied new + Z.of_nat (length (cells_pairs old)) < Z.of_nat (length new) ->
  exists t, rehash_nodes cm lg old new = Some t /\ shape t cm lg /\ placed t cm lg /\
    length t = length new /\
    cells_pairs t ≡ₚ cells_pairs old ++ cells_pairs new /\
    occupied t = occupied new + Z.of_nat (length (cells_pairs old)).
Proof.
  induction old as [|c old IH]; intros new Hsh Hpl Hhc Hocc.
  - exists new. do 5 (split; [done|]). cbn [cells_pairs omap list_omap length]. simpl. lia.
  - assert (Hhc' : hcodes_ok old) by (intros nd Hin; apply Hhc; set_solver).
    rewrite cells_pairs_cons in *. destruct c as [nd|]; [|by apply IH]. cbn [rehash_nodes].
    cbn [cell_pair] in *. destruct (inactive nd) eqn:Ha; [by apply IH|].
    cbn [option_list option_rect app length] in *.
    destruct (stdhash_low_hash (hcode nd) cm lg) as [h1 h2] eqn:Heq.
    assert (hcode nd = low_hcode (nkey nd)) as Hk by (apply Hhc; set_solver).
    destruct (find_empty_place new cm lg nd h1 h2) as (p & -> & Hp & Hpl'); try done; [lia|].
    pose proof (occupied_insert new p None (Some nd) Hp) as Ho. cbn [option_list option_rect length] in Ho.
    simpl. destruct (IH (<[p := Some nd]> new)) as (t & Ht & Hsh' & Hpl'' & Hlen & Hperm & Hocc');
      try done; [by apply shape_insert | rewrite length_insert; lia |].
    rewrite length_insert in Hlen. exists t. do 4 (split; [done|]). split; [|simpl; lia].
    rewrite Hperm. destruct (cells_insert new p None Hp) as (l1 & l2 & H1 & H2).
    rewrite H2, H1. simpl. rewrite Ha. simpl. solve_Permutation.
Qed.

Lemma replicate_None_facts n cm lg :
  placed (replicate n None) cm lg /\ cells_pairs (replicate n None) = [] /\ occupied (replicate n None) = 0.
Proof.
  split; [|split].
  - intros p nd Hp. apply lookup_replicate in Hp as [? _]. done.
  - induction n; [done|]. cbn [replicate]. by rewrite cells_pairs_cons.
  - induction n; [done|]. cbn [replicate]. by rewrite occupied_cons.
Qed.

Lemma low_rehash_spec a (h : hash) req :
  hash_wf h -> size h <= req <= 2 ^ 29 ->
  exists c h', stdhash_low_rehash a h req = Some (c, h') /\
    (c = STDENOMEM /\ h' = h /\ (exists n, table_ok a n = false) \/
     c = STDESUCCESS /\ hash_wf h' /\ pairs h' ≡ₚ pairs h /\ num_nodes h' = size h' /\
       size h' = size h /\ opts h' = opts h /\ 64 <= cap h' /\
       2 * Z.max req 16 < cap h' /\ Z.of_nat (table_end h') = cap h').
Proof.
  intros Hwf Hreq. unfold stdhash_low_rehash, STDHASH_MIN_AUTO_ALLOC, STDSIZE_MAX.
  set (r := Z.max req 16). assert (Hr : 16 <= r <= 2 ^ 29) by lia.
  destruct (Pow2.stdpow2_cap_pow2 r ltac:(lia)) as (k & -> & Hk & Hlo & Hhi). simpl.
  assert (Hr2 : r <= 2 * (r / 2) + 1) by (pose proof (Z.mod_pos_bound r 2); pose proof (Z.div_mod r 2); lia).
  assert (Hkle : 6 <= k + 1 <= 32).
  { split; [|assert (k < 31); [|lia]].
    - assert (4 < k); [|lia]. apply (Z.pow_lt_mono_r_iff 2); simpl; lia.
    - apply (Z.pow_lt_mono_r_iff 2); simpl; lia. }
  rewrite Z.shiftl_mul_pow2 by lia. change (2 ^ 1) with 2.
  assert (Hcap : 2 ^ k * 2 = 2 ^ (k + 1)) by (rewrite Z.pow_add_r by lia; lia).
  rewrite Hcap.
  assert (Hlt : 2 ^ (k + 1) <= 2 ^ 32) by (apply Z.pow_le_mono_r; lia).
  assert (Hgt : 64 <= 2 ^ (k + 1)) by (change 64 with (2 ^ 6); apply Z.pow_le_mono_r; lia).
  rewrite !u64_small by lia.
  destruct (Z.ltb_spec (2 ^ (k + 1)) r); [lia|]. destruct (Z.ltb_spec (2 ^ 64 - 1) (2 ^ (k + 1))); [lia|].
  cbn [orb]. rewrite Pow2.stdlg_up_log2_up, Z.log2_up_pow2 by lia. simpl.
  destruct (Z.eqb_spec (2 ^ (k + 1)) 0); [lia|]. cbn [negb andb].
  destruct (table_ok a (2 ^ (k + 1))) eqn:Hok; cbn [negb]; [|exists STDENOMEM, h; eauto 10].
  destruct (replicate_None_facts (Z.to_nat (2 ^ (k + 1))) (2 ^ (k + 1) - 1) (k + 1)) as (R1 & R2 & R3).
  assert (Hsz : Z.of_nat (length (cells_pairs (table h))) <= r) by (pose proof (wf_size h Hwf) as Hs; unfold pairs in Hs; lia).
  destruct (rehash_nodes_spec (2 ^ (k + 1) - 1) (k + 1) (table h) (replicate (Z.to_nat (2 ^ (k + 1))) None))
    as (t & -> & Hsh & Hpl & Hlen & Hperm & Hocc); try done.
  { split; [lia|]. by rewrite length_replicate. }
  { eapply placed_hcodes, wf_placed, Hwf. }
  { rewrite R3, length_replicate. lia. }
  rewrite length_replicate in Hlen. rewrite R2, app_nil_r in Hperm. rewrite R3 in Hocc.
  pose proof (wf_size h Hwf) as Hs. unfold pairs in Hs. simpl. do 2 eexists. split; [done|]. right.
  unfold cap, table_end. cbn [table cap_min1 size num_nodes opts]. rewrite u64_small, Hlen, Z2Nat.id by lia.
  split; [done|]. split; [|split; [exact Hperm|]; repeat split; lia].
  split; cbn [table cap_min1 cap_lg size num_nodes opts begin_pos]; unfold pairs; cbn [table]; try done.
  - by right.
  - by rewrite Hperm.
  - lia.
  - unfold table_end. cbn [table]. rewrite Hlen. lia.
  - destruct (Z.eqb_spec (size h) 0); cbn [negb]; [|apply skip_dead_first]. split; [lia|]. split.
    + intros j c _. apply no_pairs_dead. rewrite Hperm. lia.
    + intros c Hc. apply lookup_lt_Some in Hc. lia.
Qed.

(** ** Lookup *)

Context `{Hkey : !key_contract}.

Lemma low_hcode_cmp k1 k2 : cmp_fcn k1 k2 = 0 -> low_hcode k1 = low_hcode k2.
Proof. intros H. unfold stdhash_low_hcode. by rewrite (cmp_hcode k1 k2 H). Qed.

Lemma wf_room (h : hash) cm lg :
  hash_wf h -> shape (table h) cm lg -> occupied (table h) < Z.of_nat (length (table h)).
Proof.
  intros Hwf (? & Hlen & _). pose proof (wf_load h Hwf). pose proof (wf_num h Hwf).
  unfold table_end in *. pose proof (pow2_pos lg ltac:(lia)). lia.
Qed.

(** The search of [stdhash_low_find] ends, on the first accepted cell of the
    probe sequence of the key. *)
Lemma low_find_ends (h : hash) fm key :
  hash_wf h -> shape (table h) (cap_min1 h) (cap_lg h) ->
  let hc := low_hcode key in
  let sq := seq_of (table h) (cap_min1 h) (cap_lg h) hc in
  let stop := if fm : bool then stop_match key hc else stop_hole in
  exists m, (m < table_end h)%nat /\
    stdhash_low_find cmp_fcn hcode_fcn h fm key = (Some (sq m), hc) /\
    (exists c, table h !! sq m = Some c /\ stop c = true) /\
    (forall j, (j < m)%nat -> exists nd, table h !! sq j = Some (Some nd) /\ stop (Some nd) = false).
Proof.
  intros Hwf Hsh hc sq stop. destruct (empty_cell_exists _ (wf_room h _ _ Hwf Hsh)) as [e He].
  destruct (stdhash_low_hash hc (cap_min1 h) (cap_lg h)) as [h1 h2] eqn:Heq.
  pose proof (low_hcode_range key).
  destruct (probe_loop_ends stop (table h) (cap_min1 h) (cap_lg h) hc h1 h2 e) as (m & Hm & Hl & Hs & Hb); try done.
  - subst hc. lia.
  - by destruct fm.
  - exists m. split; [done|]. split; [|done]. unfold stdhash_low_find. fold hc. rewrite Heq.
    rewrite low_find_loop_probe. unfold table_end. fold stop. by rewrite Hl.
Qed.

Definition key_at (h : hash) (p : nat) (key : K) : Prop :=
  exists nd, table h !! p = Some (Some nd) /\ inactive nd = false /\ cmp_fcn key (nkey nd) = 0.

(** A live node with a matching key is met before the first empty cell. *)
Lemma live_before_empty (h : hash) key m p nd :
  hash_wf h -> table h !! p = Some (Some nd) -> inactive nd = false -> cmp_fcn key (nkey nd) = 0 ->
  table h !! seq_of (table h) (cap_min1 h) (cap_lg h) (low_hcode key) m = Some None ->
  exists i, (i < m)%nat /\ (i < table_end h)%nat /\
            p = seq_of (table h) (cap_min1 h) (cap_lg h) (low_hcode key) i.
Proof.
  intros Hwf Hp Ha Hc Hm. destruct (wf_placed h Hwf p nd Hp Ha) as [Hhc (i & Hi & Hpi & Hbe)].
  rewrite Hhc, <- (low_hcode_cmp key _ Hc) in Hpi, Hbe.
  exists i. split; [|done]. destruct (Nat.lt_trichotomy i m) as [?|[->|Hgt]]; [done| |].
  - congruence.
  - destruct (Hbe m Hgt) as [nd' ?]. congruence.
Qed.

Lemma find_spec (h : hash) key :
  hash_wf h ->
  exists it, stdhash_find cmp_fcn hcode_fcn h key = Some it /\
    ((it < table_end h)%nat /\ key_at h it key \/
     it = table_end h /\ forall k v, (k, v) ∈ pairs h -> cmp_fcn key k <> 0).
Proof.
  intros Hwf. unfold stdhash_find. pose proof (wf_size h Hwf) as Hs.
  destruct (Z.eqb_spec (size h) 0) as [Hz|Hnz]; cbn [negb].
  { exists (table_end h). split; [done|]. right. split; [done|]. intros k v.
    assert (pairs h = []) as -> by (apply nil_length_inv; lia). set_solver. }
  assert (Hsh : shape (table h) (cap_min1 h) (cap_lg h)).
  { destruct (wf_shape h Hwf) as [[Ht _]|]; [|done]. unfold pairs in Hs. rewrite Ht in Hs. done. }
  destruct (low_find_ends h true key Hwf Hsh) as (m & Hm & Hf & (c & Hc & Hst) & Hb).
  rewrite Hf. cbn [fst]. simpl. rewrite Hc. simpl. destruct c as [nd|].
  - eexists. split; [done|]. left. split; [by apply lookup_lt_Some in Hc|]. exists nd.
    split; [done|]. simpl in Hst. apply andb_prop in Hst as [H1 H2].
    apply Z.eqb_eq in H1, H2. split; [|done]. unfold inactive. pose proof (low_hcode_range key).
    apply Z.eqb_neq. lia.
  - exists (table_end h). split; [done|]. right. split; [done|].
    intros k v Hin Hcmp. apply pairs_elem in Hin as (p & nd & Hp & Ha & <- & <-).
    destruct (live_before_empty h key m p nd Hwf Hp Ha Hcmp Hc) as (i & Hi & _ & ->).
    destruct (Hb i Hi) as (nd' & Hnd' & Hno). rewrite Hp in Hnd'. simplify_eq. simpl in Hno.
    destruct (wf_placed h Hwf _ _ Hp Ha) as [Hhc _].
    rewrite Hhc, (low_hcode_cmp key _ Hcmp), Z.eqb_refl, Hcmp in Hno. done.
Qed.

(** ** Insertion *)

Lemma first_live_insert (t : list cell) b pos nd :
  first_live t b -> (pos < length t)%nat -> inactive nd = false ->
  first_live (<[pos := Some nd]> t) (if (pos <? b)%nat then pos else b).
Proof.
  intros (Hb & Hd & Hl) Hpos Ha. unfold first_live. rewrite length_insert.
  assert (Hlive : live (Some nd) = true) by (simpl; by rewrite Ha).
  destruct (Nat.ltb_spec pos b).
  - split; [lia|]. split.
    + intros j c Hj. rewrite list_lookup_insert_ne by lia. apply Hd. lia.
    + intros c. rewrite list_lookup_insert_eq by done. by intros [= <-].
  - split; [done|]. split.
    + intros j c Hj. rewrite list_lookup_insert_ne by lia. by apply Hd.
    + intros c. rewrite list_lookup_insert. case_decide; [by intros [= <-]|]. apply Hl.
Qed.

(** Writing a fresh live node over a cell without one. *)
Lemma insert_at_fresh a (h : hash) ow pos key val c :
  hash_wf h -> shape (table h) (cap_min1 h) (cap_lg h) ->
  2 * (num_nodes h + 1) <= Z.of_nat (table_end h) ->
  table h !! pos = Some c -> live c = false -> (ow = true -> c = None) ->
  reach (table h) (cap_min1 h) (cap_lg h) (low_hcode key) pos ->
  (c = None -> node_ok a = true) ->
  exists h', insert_at a h ow pos (low_hcode key) key val = Some (STDESUCCESS, h') /\
    hash_wf h' /\ pairs h' ≡ₚ (key, val) :: pairs h /\ size h' = size h + 1 /\
    opts h' = opts h /\ table h' !! pos = Some (Some (mk_node (low_hcode key) key val)).
Proof.
  intros Hwf Hsh Hroom Hc Hdead How Hreach Hok.
  set (nd := mk_node (low_hcode key) key val).
  assert (Ha : inactive nd = false) by (apply Z.eqb_neq; simpl; pose proof (low_hcode_range key); lia).
  pose proof (lookup_lt_Some _ _ _ Hc) as Hlt.
  destruct (cells_insert _ _ _ Hc) as (l1 & l2 & H1 & H2). specialize (H2 (Some nd)).
  assert (Hcp : cell_pair c = None) by (destruct c as [nd'|]; simpl in *; [by destruct (inactive nd')|done]).
  rewrite Hcp in H1. simpl in H1. simpl in H2. rewrite Ha in H2. simpl in H2.
  assert (Hgen : forall n, n = num_nodes h + 1 - Z.of_nat (length (option_list c)) ->
    hash_wf (mk_hash (<[pos := Some nd]> (table h)) (if (pos <? begin_pos h)%nat then pos else begin_pos h)
               (cap_min1 h) (cap_lg h) n (size h + 1) (opts h))).
  { intros n Hn. split; unfold pairs; cbn [table begin_pos cap_min1 cap_lg num_nodes size].
    - right. by apply shape_insert.
    - rewrite H2, (wf_size h Hwf). unfold pairs. rewrite H1, !length_app. simpl. lia.
    - rewrite (occupied_insert _ _ _ _ Hc), <- (wf_num h Hwf). cbn [option_list option_rect length]. lia.
    - unfold table_end. cbn [table]. rewrite length_insert. unfold table_end in Hroom. lia.
    - apply first_live_insert; [apply Hwf|done|done].
    - apply placed_insert; [apply Hwf|]. by right. }
  unfold insert_at. fold nd. rewrite Hc.
  destruct c as [nd'|]; [destruct ow; [by specialize (How eq_refl)|]|rewrite (Hok eq_refl)]; eexists;
    (split; [done|]; split; [apply Hgen; simpl; lia|]; split; [|by cbn; rewrite list_lookup_insert_eq]);
    unfold pairs; cbn [table]; rewrite H2, H1; solve_Permutation.
Qed.

Lemma wf_cap (h : hash) : hash_wf h -> cap h = Z.of_nat (table_end h).
Proof.
  intros Hwf. unfold cap, table_end. destruct (wf_shape h Hwf) as [[-> ->]|(? & -> & ->)]; [done|].
  pose proof (pow2_pos (cap_lg h) ltac:(lia)).
  assert (2 ^ cap_lg h <= 2 ^ 32) by (apply Z.pow_le_mono_r; lia).
  rewrite u64_small by lia. lia.
Qed.

Lemma wf_shape_nonempty (h : hash) :
  hash_wf h -> 0 < Z.of_nat (table_end h) -> shape (table h) (cap_min1 h) (cap_lg h).
Proof. intros Hwf Hp. destruct (wf_shape h Hwf) as [[Ht _]|]; [|done]. unfold table_end in Hp. rewrite Ht in Hp. done. Qed.

(** Why an insertion can fail. *)
Definition insert_obstacle (a : alloc) (h : hash) : Prop :=
  (exists n, table_ok a n = false) \/ node_ok a = false \/
  has_opt h STDHASH_OPTS_NO_AUTO_GROW = true.

Lemma insert_grow_spec a (h : hash) :
  hash_wf h -> size h < 2 ^ 29 ->
  exists c h', insert_grow a h (stdhash_high_thresh h) = Some (c, h') /\
    hash_wf h' /\ pairs h' ≡ₚ pairs h /\ size h' = size h /\ opts h' = opts h /\
    (c = STDESUCCESS /\ shape (table h') (cap_min1 h') (cap_lg h') /\
       2 * (num_nodes h' + 1) <= Z.of_nat (table_end h') \/
     c <> STDESUCCESS /\ h' = h /\ insert_obstacle a h).
Proof.
  intros Hwf Hsz. pose proof (wf_size h Hwf) as Hs. pose proof (wf_cap h Hwf) as Hcap.
  unfold insert_grow, stdhash_high_thresh. rewrite Z.shiftr_div_pow2 by lia. change (2 ^ 1) with 2.
  destruct (Z.leb_spec (cap h / 2) (num_nodes h)).
  - destruct (has_opt h STDHASH_OPTS_NO_AUTO_GROW) eqn:Ho.
    { exists STDEACCES, h. unfold insert_obstacle. naive_solver. }
    rewrite u64_small by lia.
    destruct (low_rehash_spec a h (size h + 1) Hwf ltac:(lia)) as (c & h' & -> & [Hf|Hok]).
    + destruct Hf as (-> & -> & Hn). exists STDENOMEM, h. unfold insert_obstacle. naive_solver.
    + destruct Hok as (-> & Hwf' & Hp & Hn & Hs' & Hopt & Hc & Hbig & Htend).
      exists STDESUCCESS, h'. do 5 (split; [done|]). left. split; [done|].
      split; [apply wf_shape_nonempty; [done|lia]|]. lia.
  - exists STDESUCCESS, h. do 5 (split; [done|]). left. split; [done|].
    pose proof (Z.mul_div_le (cap h) 2 ltac:(lia)). pose proof (wf_num h Hwf).
    pose proof (occupied_nonneg (table h)).
    split; [apply wf_shape_nonempty; [done|lia]|]. lia.
Qed.

Lemma insert_node_fails a (h : hash) ow pos hc key val :
  table h !! pos = Some None -> node_ok a = false ->
  insert_at a h ow pos hc key val = Some (STDENOMEM, h).
Proof. intros Hc Hok. unfold insert_at. by rewrite Hc, Hok. Qed.

Lemma reach_of_seq (h : hash) hc m :
  (m < table_end h)%nat ->
  (forall j, (j < m)%nat -> exists nd, table h !! seq_of (table h) (cap_min1 h) (cap_lg h) hc j = Some (Some nd)) ->
  reach (table h) (cap_min1 h) (cap_lg h) hc (seq_of (table h) (cap_min1 h) (cap_lg h) hc m).
Proof. intros. by exists m. Qed.

(** The contents after a successful insertion. *)
Definition inserted (ow : bool) (key : K) (val : V) (l l' : list (K * V)) : Prop :=
  (l' ≡ₚ (key, val) :: l /\ (ow = true -> forall k v, (k, v) ∈ l -> cmp_fcn key k <> 0)) \/
  (ow = true /\ exists k v r, cmp_fcn key k = 0 /\ l ≡ₚ (k, v) :: r /\ l' ≡ₚ (key, val) :: r).

Lemma insert_at_spec a (h : hash) ow key val :
  hash_wf h -> shape (table h) (cap_min1 h) (cap_lg h) ->
  2 * (num_nodes h + 1) <= Z.of_nat (table_end h) ->
  exists pos, stdhash_low_find cmp_fcn hcode_fcn h ow key = (Some pos, low_hcode key) /\
  exists c h', insert_at a h ow pos (low_hcode key) key val = Some (c, h') /\
    hash_wf h' /\ opts h' = opts h /\
    (c = STDESUCCESS /\ inserted ow key val (pairs h) (pairs h') /\ stdhash_it_pair h' pos = Some (key, val) \/
     c <> STDESUCCESS /\ h' = h /\ node_ok a = false).
Proof.
  intros Hwf Hsh Hroom.
  destruct (low_find_ends h ow key Hwf Hsh) as (m & Hm & Hf & (c & Hc & Hst) & Hb).
  eexists. split; [exact Hf|]. set (pos := seq_of _ _ _ _ m) in *.
  assert (Hreach : reach (table h) (cap_min1 h) (cap_lg h) (low_hcode key) pos).
  { apply reach_of_seq; [done|]. intros j Hj. destruct (Hb j Hj) as (nd & ? & _). eauto. }
  assert (Hfresh : live c = false -> (ow = true -> c = None) ->
    (ow = true -> forall k v, (k, v) ∈ pairs h -> cmp_fcn key k <> 0) ->
    exists c0 h', insert_at a h ow pos (low_hcode key) key val = Some (c0, h') /\
    hash_wf h' /\ opts h' = opts h /\
    (c0 = STDESUCCESS /\ inserted ow key val (pairs h) (pairs h') /\ stdhash_it_pair h' pos = Some (key, val) \/
     c0 <> STDESUCCESS /\ h' = h /\ node_ok a = false)).
  { intros Hd How Hno. destruct (decide (c = None /\ node_ok a = false)) as [[-> Hok]|Hn].
    - exists STDENOMEM, h. rewrite (insert_node_fails a h ow pos) by done. naive_solver.
    - destruct (insert_at_fresh a h ow pos key val c) as (h' & He & Hwf' & Hp & Hs & Ho & Ht); try done.
      { intros ->. destruct (node_ok a); [done|]. exfalso. by apply Hn. }
      exists STDESUCCESS, h'. do 3 (split; [done|]). left. split; [done|]. split; [by left|].
      unfold stdhash_it_pair. by rewrite Ht. }
  destruct ow; cycle 1.
  { apply Hfresh; [|done|done]. destruct c as [nd|]; [|done]. simpl in *. by rewrite Hst. }
  destruct c as [nd|].
  2: { apply Hfresh; [done|done|]. intros _ k v Hin Hcmp.
       apply pairs_elem in Hin as (p & nd & Hp & Ha & <- & <-).
       destruct (live_before_empty h key m p nd Hwf Hp Ha Hcmp Hc) as (i & Hi & _ & ->).
       destruct (Hb i Hi) as (nd' & Hnd' & Hno). rewrite Hp in Hnd'. simplify_eq. simpl in Hno.
       destruct (wf_placed h Hwf _ _ Hp Ha) as [Hhc _].
       rewrite Hhc, (low_hcode_cmp key _ Hcmp), Z.eqb_refl, Hcmp in Hno. done. }
  (* overwriting a node with a matching key *)
  clear Hfresh. simpl in Hst. apply andb_prop in Hst as [H1 H2]. apply Z.eqb_eq in H1, H2.
  unfold insert_at. rewrite Hc. do 2 eexists. split; [done|].
  set (nd' := mk_node (low_hcode key) key val).
  pose proof (low_hcode_range key) as Hr.
  assert (Ha : inactive nd = false) by (apply Z.eqb_neq; lia).
  assert (Ha' : inactive nd' = false) by (apply Z.eqb_neq; simpl; lia).
  destruct (cells_insert _ _ _ Hc) as (l1 & l2 & P1 & P2). specialize (P2 (Some nd')).
  simpl in P1, P2. rewrite Ha in P1. rewrite Ha' in P2. simpl in P1, P2.
  split; [|split; [done|]; left; split; [done|]; split].
  - split; unfold pairs; cbn [table begin_pos cap_min1 cap_lg num_nodes size].
    + right. by apply shape_insert.
    + rewrite P2, (wf_size h Hwf). unfold pairs. rewrite P1, !length_app. done.
    + rewrite (occupied_insert _ _ _ _ Hc), <- (wf_num h Hwf). cbn [option_list option_rect length]. lia.
    + unfold table_end. cbn [table]. rewrite length_insert. apply Hwf.
    + apply first_live_insert; [apply Hwf|by eapply lookup_lt_Some|done].
    + apply placed_insert; [apply Hwf|]. by right.
  - right. split; [done|]. exists (nkey nd), (nval nd), (l1 ++ l2). split; [done|].
    unfold pairs. cbn [table]. rewrite P1, P2. split; solve_Permutation.
  - unfold stdhash_it_pair. cbn [table]. rewrite list_lookup_insert_eq by (by eapply lookup_lt_Some). done.
Qed.

(** One insertion: [stdhash_put] ([ow = true]) or [stdhash_insert]. *)
Lemma low_insert_one a (h : hash) ow key val :
  hash_wf h -> size h < 2 ^ 29 ->
  exists c h' it,
    stdhash_low_insert cmp_fcn hcode_fcn a h [(key, val)] ow (stdhash_high_thresh h) None
      = Some (c, h', it) /\
    hash_wf h' /\ opts h' = opts h /\
    (c = STDESUCCESS /\ inserted ow key val (pairs h) (pairs h') /\ stdhash_it_pair h' it = Some (key, val) \/
     c <> STDESUCCESS /\ pairs h' ≡ₚ pairs h /\ it = table_end h' /\ insert_obstacle a h).
Proof.
  intros Hwf Hsz. cbn [stdhash_low_insert].
  destruct (insert_grow_spec a h Hwf Hsz) as (c & h1 & -> & Hwf1 & Hp1 & Hs1 & Ho1 & Hcase).
  cbn [mbind option_bind]. destruct Hcase as [(-> & Hsh & Hroom)|(Hc & -> & Hobs)].
  2: { exists c, h, (table_end h). split; [by destruct c|]. naive_solver. }
  destruct (insert_at_spec a h1 ow key val Hwf1 Hsh Hroom) as (pos & -> & c & h' & Hi & Hwf' & Ho' & Hcase).
  cbn [mbind option_bind]. rewrite Hi. destruct Hcase as [(-> & Hins & Hit)|(Hc & -> & Hn)].
  - exists STDESUCCESS, h', pos. split; [done|]. split; [done|]. split; [congruence|]. left.
    split; [done|]. split; [|done]. destruct Hins as [[Hp Hno]|(-> & k & v & r & Hk & Hl & Hl')].
    + left. rewrite Hp, Hp1. split; [done|]. intros Hw k v Hin. apply (Hno Hw k v). by rewrite Hp1.
    + right. split; [done|]. exists k, v, r. split; [done|]. by rewrite <- Hp1.
  - exists c, h1, (table_end h1). split; [by destruct c|]. split; [done|]. split; [done|]. right.
    unfold insert_obstacle. naive_solver.
Qed.

(** ** Removal *)

Lemma low_next_first (t : list cell) it :
  (it < length t)%nat -> (forall j c, (j <= it)%nat -> t !! j = Some c -> live c = false) ->
  first_live t (stdhash_low_next t it).
Proof.
  intros Hit Hd. unfold stdhash_low_next.
  destruct (skip_dead_spec (drop (S it) t) (S it) _ eq_refl) as (H1 & H2 & H3).
  rewrite length_drop in H1. split; [lia|]. split.
  - intros j c Hj Hc. destruct (Nat.le_gt_cases j it); [by eapply Hd|].
    apply (H2 (j - S it)%nat); [lia|]. rewrite lookup_drop. replace (S it + (j - S it))%nat with j by lia. done.
  - intros c Hc. apply H3. rewrite lookup_drop.
    replace (S it + _)%nat with (skip_dead (drop (S it) t) (S it)) by lia. done.
Qed.

(** The table after the node at [it] is marked inactive. *)
Lemma erase_mark_wf (h : hash) it nd :
  hash_wf h -> table h !! it = Some (Some nd) -> inactive nd = false ->
  let t := <[it := Some (mk_node 0 (nkey nd) (nval nd))]> (table h) in
  let h1 := mk_hash t (if (it =? begin_pos h)%nat then stdhash_low_next t it else begin_pos h)
              (cap_min1 h) (cap_lg h) (num_nodes h) (u64 (size h - 1)) (opts h) in
  hash_wf h1 /\ pairs h ≡ₚ (nkey nd, nval nd) :: pairs h1 /\ size h1 = size h - 1.
Proof.
  intros Hwf Hit Ha t h1. pose proof (lookup_lt_Some _ _ _ Hit) as Hlt.
  destruct (cells_insert _ _ _ Hit) as (l1 & l2 & P1 & P2).
  specialize (P2 (Some (mk_node 0 (nkey nd) (nval nd)))). simpl in P1, P2. rewrite Ha in P1. simpl in P1, P2.
  pose proof (wf_size h Hwf) as Hs. pose proof (wf_num h Hwf) as Hn. pose proof (wf_load h Hwf) as Hl.
  pose proof (pairs_le_occupied (table h)) as Hle. unfold pairs in Hs. unfold table_end in Hl.
  assert (Htb : Z.of_nat (length (table h)) <= 2 ^ 32).
  { destruct (wf_shape h Hwf) as [[-> _]|(? & -> & _)]; [simpl; lia|].
    rewrite Z2Nat.id by (apply Z.pow_nonneg; lia). apply Z.pow_le_mono_r; lia. }
  assert (Hsz : u64 (size h - 1) = size h - 1).
  { apply u64_small. rewrite Hs, P1, length_app in *. simpl in *. lia. }
  split; [|split; [unfold pairs; subst h1 t; cbn [table]; rewrite P1, P2; solve_Permutation | exact Hsz]].
  split; unfold pairs; cbn [table begin_pos cap_min1 cap_lg num_nodes size h1].
  - destruct (wf_shape h Hwf) as [[Ht ?]|]; [|right; by apply shape_insert].
    exfalso. rewrite Ht in Hlt. simpl in Hlt. lia.
  - subst t. rewrite P2, Hsz, Hs, P1, !length_app. simpl. lia.
  - subst t. rewrite (occupied_insert _ _ _ _ Hit), <- Hn. cbn [option_list option_rect length]. lia.
  - unfold table_end. cbn [table h1]. subst t. rewrite length_insert. done.
  - destruct (wf_begin h Hwf) as (Hb & Hd & Hlv).
    assert (Hdead : forall j c, t !! j = Some c -> j <> it -> table h !! j = Some c)
      by (intros j c Hj Hne; subst t; by rewrite list_lookup_insert_ne in Hj).
    assert (Hself : forall c, t !! it = Some c -> live c = false)
      by (intros c; subst t; rewrite list_lookup_insert_eq by done; by intros [= <-]).
    destruct (Nat.eqb_spec it (begin_pos h)) as [->|Hne].
    + apply low_next_first; [by subst t; rewrite length_insert|].
      intros j c Hj Hc. destruct (Nat.eq_dec j (begin_pos h)) as [->|]; [by apply Hself|].
      apply (Hd j); [lia|]. by apply Hdead.
    + split; [by subst t; rewrite length_insert|]. split.
      * intros j c Hj Hc. destruct (Nat.eq_dec j it) as [->|]; [by apply Hself|]. by eapply Hd, Hdead.
      * intros c Hc. apply Hlv, Hdead; congruence.
  - subst t. apply placed_insert; [apply Hwf|]. by left.
Qed.

Lemma erase_spec a (h : hash) it nd :
  hash_wf h -> size h <= 2 ^ 29 -> table h !! it = Some (Some nd) -> inactive nd = false ->
  exists h' it', stdhash_erase a h it = Some (h', it') /\
    hash_wf h' /\ pairs h ≡ₚ (nkey nd, nval nd) :: pairs h' /\ size h' = size h - 1 /\
    opts h' = opts h.
Proof.
  intros Hwf Hsz Hit Ha. unfold stdhash_erase. rewrite Hit. cbn [mjoin option_join mbind option_bind].
  destruct (erase_mark_wf h it nd Hwf Hit Ha) as (Hwf1 & Hp1 & Hs1).
  set (h1 := mk_hash _ _ _ _ _ _ _) in *. destruct (should_shrink h1); [|by do 2 eexists].
  destruct (low_rehash_spec a h1 (size h1) Hwf1 ltac:(lia)) as (c & h' & -> & [Hf|Hok]).
  - destruct Hf as (-> & -> & _). simpl. do 2 eexists. split; [done|]. done.
  - destruct Hok as (-> & Hwf' & Hp & _ & Hs' & Hopt & _). simpl. do 2 eexists. split; [done|].
    split; [done|]. split; [by rewrite Hp|]. split; [lia|]. by rewrite Hopt.
Qed.

(** ** Iteration *)

(** [for (stdhash_begin(h, &it); !stdhash_is_end(h, &it); stdhash_it_next(&it))] *)
Fixpoint iter_from (fuel : nat) (h : hash) (it : nat) : option (list (K * V)) :=
  if stdhash_is_end h it then Some [] else
  match fuel with
  | O => None
  | S fuel' =>
      p ← stdhash_it_pair h it;
      l ← iter_from fuel' h (stdhash_it_next h it);
      Some (p :: l)
  end.

Lemma skip_dead_pairs (t : list cell) i :
  cells_pairs t = cells_pairs (drop (skip_dead t i - i) t).
Proof.
  revert i. induction t as [|c t IH]; intros i; [by rewrite drop_nil|]. cbn [skip_dead].
  destruct (live c) eqn:E; [by rewrite Nat.sub_diag|]. specialize (IH (S i)). cbn beta in IH.
  destruct (skip_dead_spec t (S i) _ eq_refl) as (H1 & _).
  replace (skip_dead t (S i) - i)%nat with (S (skip_dead t (S i) - S i)) by lia. cbn [drop].
  rewrite cells_pairs_cons, <- IH. destruct c as [nd|]; [|done]. simpl in *. by destruct (inactive nd).
Qed.

Lemma iter_from_skip fuel (h : hash) i :
  (length (table h) - i < fuel)%nat -> (i <= length (table h))%nat ->
  iter_from fuel h (skip_dead (drop i (table h)) i) = Some (cells_pairs (drop i (table h))).
Proof.
  revert i. induction fuel as [|n IH]; intros i Hf Hi; [lia|]. cbn [iter_from].
  destruct (skip_dead_spec (drop i (table h)) i _ eq_refl) as (H1 & H2 & H3).
  pose proof (skip_dead_pairs (drop i (table h)) i) as Hp. simpl in Hp.
  set (b := skip_dead (drop i (table h)) i) in *. rewrite length_drop in H1.
  rewrite drop_drop in Hp. rewrite lookup_drop in H3. replace (i + (b - i))%nat with b in * by lia.
  unfold stdhash_is_end, table_end. destruct (Nat.eqb_spec b (length (table h))) as [He|Hne].
  { rewrite Hp, He, drop_all. done. }
  destruct (lookup_lt_is_Some_2 (table h) b ltac:(lia)) as [c Hc]. specialize (H3 c Hc).
  destruct c as [nd|]; [|done]. simpl in H3. unfold stdhash_it_pair. rewrite Hc. simpl.
  unfold stdhash_it_next, stdhash_low_next. rewrite IH by lia. simpl.
  rewrite Hp, (drop_S _ _ _ Hc), cells_pairs_cons. simpl. by destruct (inactive nd).
Qed.

Lemma first_live_unique (t : list cell) b b' : first_live t b -> first_live t b' -> b = b'.
Proof.
  assert (forall x y, first_live t x -> first_live t y -> (x < y)%nat -> False) as Hlt.
  { intros x y (Hx & _ & Hlx) (Hy & Hdy & _) Hxy.
    destruct (lookup_lt_is_Some_2 t x ltac:(lia)) as [c Hc].
    specialize (Hlx c Hc). rewrite (Hdy x c Hxy Hc) in Hlx. done. }
  intros H1 H2. destruct (Nat.lt_trichotomy b b') as [?|[?|?]]; [|done|]; exfalso; eauto.
Qed.

Lemma iterate_pairs (h : hash) :
  hash_wf h -> iter_from (S (table_end h)) h (stdhash_begin h) = Some (pairs h).
Proof.
  intros Hwf. unfold stdhash_begin.
  rewrite (first_live_unique _ _ _ (wf_begin h Hwf) (skip_dead_first (table h))).
  apply (iter_from_skip (S (table_end h)) h 0); unfold table_end; lia.
Qed.

(** ** Keyed iteration *)

(** [for (stdhash_find(h, &it, key); !stdhash_is_end(h, &it); stdhash_keyed_next(h, &it))]:
    the positions visited. *)
Fixpoint keyed_from (fuel : nat) (h : hash) (it : nat) : option (list nat) :=
  if stdhash_is_end h it then Some [] else
  match fuel with
  | O => None
  | S fuel' =>
      it' ← stdhash_keyed_next cmp_fcn h it;
      l ← keyed_from fuel' h it';
      Some (it :: l)
  end.

Definition keyed_all (h : hash) (key : K) : option (list nat) :=
  it ← stdhash_find cmp_fcn hcode_fcn h key; keyed_from (table_end h) h it.

Definition matches (h : hash) (key : K) (p : nat) : bool :=
  match table h !! p with
  | Some (Some nd) => (hcode nd =? low_hcode key) && (cmp_fcn key (nkey nd) =? 0)
  | _ => false
  end.

Section Keyed.
Context (h : hash) (key : K) (m : nat).
Abbreviation sq := (seq_of (table h) (cap_min1 h) (cap_lg h) (low_hcode key)).
Context (Hwf : hash_wf h) (Hsh : shape (table h) (cap_min1 h) (cap_lg h)).
Context (Hm : (m < table_end h)%nat) (Hem : table h !! sq m = Some None).
Context (Hocc : forall j, (j < m)%nat -> exists nd, table h !! sq j = Some (Some nd)).

(** The matching positions of the sequence from index [i] on. *)
Definition later (i : nat) : list nat :=
  filter (fun p => matches h key p = true) (sq <$> seq i (m - i)).

Definition pos_at (n : nat) : nat := if (n <? m)%nat then sq n else table_end h.

Lemma later_step i : (i <= m)%nat ->
  exists n, (i <= n <= m)%nat /\ (forall j, (i <= j < n)%nat -> matches h key (sq j) = false) /\
    ((n < m)%nat -> matches h key (sq n) = true) /\
    later i = (if (n <? m)%nat then sq n :: later (S n) else []).
Proof.
  intros Hi. remember (m - i)%nat as d eqn:Hd. revert i Hi Hd.
  induction d as [|d IH]; intros i Hi Hd.
  { exists m. assert (i = m) as -> by lia. split; [lia|]. split; [intros; lia|]. split; [lia|].
    unfold later. rewrite <- Hd, Nat.ltb_irrefl. done. }
  destruct (matches h key (sq i)) eqn:E.
  - exists i. split; [lia|]. split; [intros; lia|]. split; [done|].
    destruct (Nat.ltb_spec i m); [|lia]. unfold later. rewrite <- Hd. cbn [seq fmap list_fmap].
    rewrite filter_cons_True by done. replace (m - S i)%nat with d by lia. done.
  - destruct (IH (S i)) as (n & Hn & Hb & Hmt & Hl); [lia|lia|]. exists n. split; [lia|].
    split; [intros j Hj; destruct (Nat.eq_dec j i) as [->|]; [done|apply Hb; lia]|]. split; [done|].
    rewrite <- Hl. unfold later. rewrite <- Hd. cbn [seq fmap list_fmap].
    rewrite filter_cons_False by congruence. replace (m - S i)%nat with d by lia. done.
Qed.

Lemma seq_lookup_lt i : (sq i < table_end h)%nat.
Proof. by apply seq_of_lt. Qed.

Lemma sq_probe h1 h2 i : stdhash_low_hash (low_hcode key) (cap_min1 h) (cap_lg h) = (h1, h2) ->
  sq i = probe (length (table h)) h1 h2 i.
Proof. intros He. unfold seq_of. by rewrite He. Qed.

(** Walking the sequence from index [i] up to the next match, or the hole. *)
Lemma probe_later (stop : cell -> bool) i n h1 h2 :
  stdhash_low_hash (low_hcode key) (cap_min1 h) (cap_lg h) = (h1, h2) ->
  stop None = true ->
  (forall p nd, table h !! p = Some (Some nd) -> stop (Some nd) = matches h key p) ->
  (i <= n <= m)%nat -> (forall j, (i <= j < n)%nat -> matches h key (sq j) = false) ->
  ((n < m)%nat -> matches h key (sq n) = true) ->
  (p ← probe_loop stop (table_end h) (table h) h2 (sq i);
   c ← table h !! p; Some (match c with None => length (table h) | Some _ => p end))
  = Some (pos_at n).
Proof.
  intros He Hs0 Hs Hn Hb Hmt. pose proof (low_hcode_range key).
  destruct (low_hash_bounds (low_hcode key) _ _ h1 h2 (table h) ltac:(lia) Hsh He) as (_ & Hh2 & _).
  assert (Hcell : exists c, table h !! sq n = Some c /\ stop c = true /\ (c = None <-> n = m)).
  { destruct (Nat.eq_dec n m) as [->|Hne]; [by exists None|].
    destruct (Hocc n) as [nd Hnd]; [lia|]. exists (Some nd). split; [done|].
    rewrite (Hs _ _ Hnd), Hmt by lia. done. }
  destruct Hcell as (c & Hc & Hst & Hcm).
  rewrite !(sq_probe h1 h2) in * by done.
  rewrite (probe_loop_run stop (table h) h1 h2 n i); cycle 1.
  { done. }
  { lia. }
  { unfold table_end in *. lia. }
  { intros j Hj. destruct (Hocc j) as [nd Hnd]; [lia|]. rewrite (sq_probe h1 h2) in Hnd by done.
    exists (Some nd). split; [done|]. rewrite (Hs _ _ Hnd), <- (sq_probe h1 h2) by done. apply Hb. lia. }
  { eauto. }
  cbn [mbind option_bind]. rewrite Hc. cbn [mbind option_bind]. unfold pos_at.
  destruct c; destruct (Nat.ltb_spec n m); try (rewrite (sq_probe h1 h2) by done); try done; naive_solver lia.
Qed.

Lemma stop_match_matches p nd :
  table h !! p = Some (Some nd) -> stop_match key (low_hcode key) (Some nd) = matches h key p.
Proof. intros Hp. unfold matches. by rewrite Hp. Qed.

Lemma keyed_next_later i n :
  (i < m)%nat -> matches h key (sq i) = true ->
  (S i <= n <= m)%nat -> (forall j, (S i <= j < n)%nat -> matches h key (sq j) = false) ->
  ((n < m)%nat -> matches h key (sq n) = true) ->
  stdhash_keyed_next cmp_fcn h (sq i) = Some (pos_at n).
Proof.
  intros Hi Hmi Hn Hb Hmt. unfold stdhash_keyed_next.
  destruct (Hocc i Hi) as [nd Hnd]. rewrite Hnd. cbn [mjoin option_join mbind option_bind].
  unfold matches in Hmi. rewrite Hnd in Hmi. apply andb_prop in Hmi as [H1 H2].
  apply Z.eqb_eq in H1, H2.
  destruct (stdhash_low_hash (low_hcode key) (cap_min1 h) (cap_lg h)) as [h1 h2] eqn:He.
  rewrite H1, He. cbn [snd]. rewrite keyed_next_probe.
  pose proof (low_hcode_range key).
  destruct (low_hash_bounds (low_hcode key) _ _ h1 h2 (table h) ltac:(lia) Hsh He) as (_ & Hh2 & _).
  rewrite (sq_probe h1 h2), probe_step_S, <- (sq_probe h1 h2) by done.
  apply probe_later with (h1 := h1); try done.
  intros p nd' Hp. unfold matches. rewrite Hp, H1. f_equal. apply eq_bool_prop_intro.
  rewrite !Is_true_true, !Z.eqb_eq. split; intros Hc.
  - eapply cmp_sym, cmp_trans; [exact Hc|]. by apply cmp_sym.
  - eapply cmp_trans; [|exact H2]. by apply cmp_sym.
Qed.

Lemma keyed_from_later fuel i n :
  (m - i <= fuel)%nat -> (i <= n <= m)%nat ->
  ((n < m)%nat -> matches h key (sq n) = true) ->
  keyed_from fuel h (pos_at n) = Some (if (n <? m)%nat then sq n :: later (S n) else []).
Proof.
  revert i n. induction fuel as [|f IH]; intros i n Hf Hn Hmt; cbn [keyed_from];
    unfold pos_at at 1, stdhash_is_end; destruct (Nat.ltb_spec n m);
    try (rewrite Nat.eqb_refl; done); pose proof (seq_lookup_lt n);
    destruct (Nat.eqb_spec (sq n) (table_end h)); try lia.
  unfold pos_at. destruct (Nat.ltb_spec n m); [|lia].
  destruct (later_step (S n)) as (n' & Hn' & Hb' & Hmt' & Hl'); [lia|].
  rewrite (keyed_next_later n n') by (done || lia || auto). cbn [mbind option_bind].
  rewrite (IH (S n) n') by (done || lia). cbn [mbind option_bind]. by rewrite Hl'.
Qed.

Lemma later_NoDup : NoDup (later 0).
Proof.
  apply NoDup_filter, NoDup_fmap_2_strong; [|apply NoDup_seq].
  intros x y Hx Hy Heq. apply elem_of_seq in Hx, Hy.
  destruct (stdhash_low_hash (low_hcode key) (cap_min1 h) (cap_lg h)) as [h1 h2] eqn:He.
  pose proof (low_hcode_range key).
  destruct (low_hash_bounds (low_hcode key) _ _ h1 h2 (table h) ltac:(lia) Hsh He) as (_ & _ & Ho).
  destruct Hsh as (Hlg & Hlen & _). unfold table_end in Hm. rewrite !(sq_probe h1 h2), Hlen in * by done.
  apply (probe_inj (cap_lg h) ltac:(lia) h1 h2); try done; lia.
Qed.

Lemma later_elem p : p ∈ later 0 <-> key_at h p key.
Proof.
  unfold later. rewrite list_elem_of_filter, list_elem_of_fmap. split.
  - intros (Hmt & j & -> & _). unfold matches in Hmt.
    destruct (table h !! sq j) as [[nd|]|] eqn:E; [|done|done]. apply andb_prop in Hmt as [H1 H2].
    apply Z.eqb_eq in H1, H2. exists nd. split; [done|]. split; [|done]. apply Z.eqb_neq.
    pose proof (low_hcode_range key). lia.
  - intros (nd & Hp & Ha & Hc). split.
    + unfold matches. rewrite Hp. destruct (wf_placed h Hwf _ _ Hp Ha) as [-> _].
      by rewrite (low_hcode_cmp key _ Hc), Z.eqb_refl, Hc.
    + destruct (live_before_empty h key m p nd Hwf Hp Ha Hc Hem) as (i & Hi & _ & ->).
      exists i. split; [done|]. apply elem_of_seq. lia.
Qed.

Lemma keyed_all_later : size h <> 0 -> keyed_all h key = Some (later 0).
Proof.
  intros Hnz. unfold keyed_all.
  destruct (later_step 0) as (n & Hn & Hb & Hmt & Hl); [lia|].
  destruct (stdhash_low_hash (low_hcode key) (cap_min1 h) (cap_lg h)) as [h1 h2] eqn:He.
  pose proof (low_hcode_range key).
  destruct (low_hash_bounds (low_hcode key) _ _ h1 h2 (table h) ltac:(lia) Hsh He) as (Hh1 & _ & _).
  assert (Hf : stdhash_find cmp_fcn hcode_fcn h key = Some (pos_at n)).
  { unfold stdhash_find. destruct (Z.eqb_spec (size h) 0); [done|]. cbn [negb].
    unfold stdhash_low_find. rewrite He. cbn [fst]. rewrite low_find_loop_probe.
    rewrite <- (probe_later (stop_match key (low_hcode key)) 0 n h1 h2) by
      (done || intros; by apply stop_match_matches).
    by rewrite (sq_probe h1 h2), probe_0 by done. }
  rewrite Hf. cbn [mbind option_bind].
  rewrite (keyed_from_later (table_end h) 0 n) by (done || lia). by rewrite Hl.
Qed.
End Keyed.

Lemma keyed_from_end fuel (h : hash) : keyed_from fuel h (table_end h) = Some [].
Proof. destruct fuel; cbn [keyed_from]; unfold stdhash_is_end; by rewrite Nat.eqb_refl. Qed.

Lemma keyed_all_spec (h : hash) key :
  hash_wf h -> exists l, keyed_all h key = Some l /\ NoDup l /\ forall p, p ∈ l <-> key_at h p key.
Proof.
  intros Hwf. destruct (Z.eq_dec (size h) 0) as [Hz|Hnz].
  - exists []. unfold keyed_all, stdhash_find. rewrite Hz. cbn [Z.eqb negb mbind option_bind].
    split; [apply keyed_from_end|].
    split; [constructor|]. intros p. split; [set_solver|]. intros (nd & Hp & Ha & _).
    pose proof (wf_size h Hwf) as Hs. unfold pairs in Hs.
    assert (live (Some nd) = false) as Hd by (eapply no_pairs_dead; [|done]; lia). simpl in Hd. by rewrite Ha in Hd.
  - assert (Hsh : shape (table h) (cap_min1 h) (cap_lg h)).
    { destruct (wf_shape h Hwf) as [[Ht _]|]; [|done]. pose proof (wf_size h Hwf) as Hs.
      unfold pairs in Hs. rewrite Ht in Hs. done. }
    destruct (empty_cell_exists _ (wf_room h _ _ Hwf Hsh)) as [e He].
    destruct (stdhash_low_hash (low_hcode key) (cap_min1 h) (cap_lg h)) as [h1 h2] eqn:Heq.
    pose proof (low_hcode_range key).
    destruct (probe_loop_ends stop_empty (table h) (cap_min1 h) (cap_lg h) (low_hcode key) h1 h2 e)
      as (m & Hm & _ & (c & Hc & Hst) & Hb); try done; [lia|].
    destruct c; [done|].
    assert (Hocc : forall j, (j < m)%nat -> exists nd, table h !! seq_of (table h) (cap_min1 h) (cap_lg h) (low_hcode key) j = Some (Some nd))
      by (intros j Hj; destruct (Hb j Hj) as (nd & ? & _); eauto).
    exists (later h key m 0). split; [by apply keyed_all_later|].
    split; [by apply later_NoDup | by apply later_elem].
Qed.

(** ** Removing every pair of a key, clearing, constructing *)

Lemma erase_key_loop_spec fuel a (h : hash) key :
  hash_wf h -> size h <= 2 ^ 29 -> size h < Z.of_nat fuel ->
  exists h' gone, stdhash_erase_key_loop cmp_fcn hcode_fcn fuel a h key = Some h' /\ hash_wf h' /\
    pairs h ≡ₚ gone ++ pairs h' /\ opts h' = opts h /\
    Forall (fun kv => cmp_fcn key kv.1 = 0) gone /\ Forall (fun kv => cmp_fcn key kv.1 <> 0) (pairs h').
Proof.
  revert h. induction fuel as [|n IH]; intros h Hwf Hsz Hf.
  { pose proof (wf_size h Hwf). lia. }
  cbn [stdhash_erase_key_loop].
  destruct (find_spec h key Hwf) as (it & -> & [[Hlt (nd & Hnd & Ha & Hk)]|[-> Hno]]);
    cbn [mbind option_bind]; unfold stdhash_is_end.
  - destruct (Nat.eqb_spec it (table_end h)); [lia|].
    destruct (erase_spec a h it nd Hwf Hsz Hnd Ha) as (h1 & it' & -> & Hwf1 & Hp1 & Hs1 & Ho1).
    cbn [mbind option_bind].
    destruct (IH h1 Hwf1 ltac:(lia) ltac:(lia)) as (h' & gone & -> & Hwf' & Hp & Ho & Hg & Hr).
    exists h', ((nkey nd, nval nd) :: gone). split; [done|]. split; [done|].
    split; [rewrite Hp1, Hp; done|]. split; [congruence|]. split; [by constructor|done].
  - rewrite Nat.eqb_refl. exists h, []. do 5 (split; [done|]). apply Forall_forall.
    intros [k v] Hin. by apply (Hno k v).
Qed.

Lemma erase_key_spec a (h : hash) key :
  hash_wf h -> size h <= 2 ^ 29 ->
  exists h' gone, stdhash_erase_key cmp_fcn hcode_fcn a h key = Some h' /\ hash_wf h' /\
    pairs h ≡ₚ gone ++ pairs h' /\ opts h' = opts h /\
    Forall (fun kv => cmp_fcn key kv.1 = 0) gone /\ Forall (fun kv => cmp_fcn key kv.1 <> 0) (pairs h').
Proof.
  intros Hwf Hsz. apply erase_key_loop_spec; [done|done|]. pose proof (wf_size h Hwf). lia.
Qed.

Lemma low_clear_wf (h : hash) :
  hash_wf h -> hash_wf (stdhash_low_clear h) /\ pairs (stdhash_low_clear h) = [] /\
    size (stdhash_low_clear h) = 0 /\ opts (stdhash_low_clear h) = opts h.
Proof.
  intros Hwf. unfold stdhash_low_clear. pose proof (wf_num h Hwf) as Hn. pose proof (wf_size h Hwf) as Hs.
  destruct (Z.eqb_spec (num_nodes h) 0) as [Hz|Hnz].
  - pose proof (pairs_le_occupied (table h)). unfold pairs in *.
    split; [done|]. split; [apply nil_length_inv; lia|]. split; [lia|done].
  - destruct (replicate_None_facts (table_end h) (cap_min1 h) (cap_lg h)) as (R1 & R2 & R3).
    split; [|done]. split; unfold pairs; cbn [table begin_pos cap_min1 cap_lg num_nodes size].
    + destruct (wf_shape h Hwf) as [[Ht ?]|(? & ? & ?)]; [left|right]; unfold table_end.
      * rewrite Ht. done.
      * split; [done|]. by rewrite length_replicate.
    + by rewrite R2.
    + by rewrite R3.
    + unfold table_end at 1. cbn [table]. lia.
    + split; [by rewrite length_replicate|]. split.
      * intros j c _ Hj. by apply lookup_replicate in Hj as [-> _].
      * intros c Hc. apply lookup_replicate in Hc as [_ ?]. lia.
    + done.
Qed.

Lemma clear_spec a (h : hash) :
  hash_wf h -> exists h', stdhash_clear a h = Some h' /\ hash_wf h' /\ pairs h' = [] /\ opts h' = opts h.
Proof.
  intros Hwf. unfold stdhash_clear. destruct (low_clear_wf h Hwf) as (Hwf1 & Hp1 & Hs1 & Ho1).
  set (h1 := stdhash_low_clear h) in *. destruct (should_shrink h1); [|by exists h1].
  destruct (low_rehash_spec a h1 (size h1) Hwf1 ltac:(lia)) as (c & h' & -> & [(-> & -> & _)|Hok]).
  - by exists h1.
  - destruct Hok as (-> & Hwf' & Hp & _ & _ & Ho & _). exists h'. split; [done|]. split; [done|].
    rewrite Hp1 in Hp. split; [by apply Permutation_nil_r|congruence].
Qed.

Lemma construct_spec ksize o (h : hash) :
  stdhash_construct ksize o = (STDESUCCESS, Some h) -> hash_wf h /\ pairs h = [] /\ opts h = o.
Proof.
  unfold stdhash_construct. destruct (_ || _); [done|]. intros [= <-].
  split; [|done]. split; try done. by left.
Qed.
End Facts.
