(* ===== verification/HashMap.v ===== *)
(** * HashMap: the hash table as a finite map

    The daemon uses [stdhash] with unique keys almost everywhere.  [rep h m]
    says that the table [h] represents the finite map [m]; every operation is
    simulated by the corresponding map operation.  [HashOrder] is the interface
    the daemon's components are written against: some order in which a table
    enumerates the map it represents. *)
From stdpp Require Import base list gmap numbers option sets.
From Stdlib Require Import ZArith Lia.
From S2P Require Import Prelude StdUtil StdHash StdHashProof.
#[local] Open Scope Z_scope.

(** ** The iteration order as an interface *)
Class HashOrder := {
  hash_iter : forall {K} `{Countable K} {V}, gmap K V -> list (K * V);
  hash_iter_perm : forall {K} `{Countable K} {V} (m : gmap K V), hash_iter m ≡ₚ map_to_list m
}.

(** ** Default comparison and hash code of byte-string keys *)
Fixpoint memcmp (l1 l2 : list Z) : Z :=
  match l1, l2 with
  | [], [] => 0
  | x :: l1', y :: l2' => if x <? y then -1 else if y <? x then 1 else memcmp l1' l2'
  | [], _ :: _ => -1
  | _ :: _, [] => 1
  end.

Lemma memcmp_eq l1 l2 : memcmp l1 l2 = 0 <-> l1 = l2.
Proof.
  revert l2. induction l1 as [|x l1 IH]; intros [|y l2]; simpl; try done.
  destruct (Z.ltb_spec x y); [naive_solver lia|]. destruct (Z.ltb_spec y x); [naive_solver lia|].
  assert (x = y) as -> by lia. rewrite IH. naive_solver.
Qed.

(** The bytes of a 32-bit identifier in memory (little endian host). *)
Definition bytes32 (x : Z) : list Z :=
  [x mod 256; (x / 256) mod 256; (x / 65536) mod 256; (x / 16777216) mod 256].

Section Refine.
Context `{Countable K} {V : Type} (cmp_fcn : K -> K -> Z) (hcode_fcn : K -> Z).
Context (Hcmp : forall k1 k2, cmp_fcn k1 k2 = 0 <-> k1 = k2).

Abbreviation hash := (@stdhash K V).

#[local] Instance eq_contract : key_contract cmp_fcn hcode_fcn.
Proof. split; intros *; rewrite ?Hcmp; by intros; subst. Qed.

Definition rep (h : hash) (m : gmap K V) : Prop :=
  hash_wf hcode_fcn h /\ NoDup (pairs h).*1 /\ m = list_to_map (pairs h).

Lemma rep_lookup h m k v : rep h m -> m !! k = Some v <-> (k, v) ∈ pairs h.
Proof. intros (_ & Hnd & ->). symmetry. by apply elem_of_list_to_map. Qed.

Lemma rep_size h m : rep h m -> size h = Z.of_nat (base.size m).
Proof.
  intros (Hwf & Hnd & ->). rewrite (wf_size _ h Hwf), <- length_map_to_list.
  by rewrite map_to_list_to_map.
Qed.

Lemma find_refines h m k :
  rep h m ->
  exists it, stdhash_find cmp_fcn hcode_fcn h k = Some it /\
    (stdhash_is_end h it = true /\ m !! k = None \/
     stdhash_is_end h it = false /\ exists v, stdhash_it_pair h it = Some (k, v) /\ m !! k = Some v).
Proof.
  intros Hrep. destruct (find_spec cmp_fcn hcode_fcn h k (proj1 Hrep)) as (it & Hf & Hcase).
  exists it. split; [done|]. unfold stdhash_is_end. destruct Hcase as [[Hlt (nd & Hnd & Ha & Hk)]|[-> Hno]].
  - right. split; [apply Nat.eqb_neq; lia|]. apply Hcmp in Hk. exists (nval nd).
    unfold stdhash_it_pair. rewrite Hnd. simpl. rewrite Hk. split; [done|].
    apply (rep_lookup h m _ _ Hrep), pairs_elem. subst k. eauto 10.
  - left. rewrite Nat.eqb_refl. split; [done|]. apply eq_None_not_Some. intros [v Hv].
    apply (rep_lookup h m _ _ Hrep) in Hv. apply (Hno k v Hv). by apply Hcmp.
Qed.

Lemma list_to_map_perm (l l' : list (K * V)) :
  NoDup l.*1 -> l ≡ₚ l' -> NoDup l'.*1 /\ list_to_map (M := gmap K V) l = list_to_map l'.
Proof.
  intros Hnd Hp. assert (NoDup l'.*1) by (by rewrite <- Hp).
  split; [done|]. by apply list_to_map_proper.
Qed.

Lemma inserted_map ow k v (l l' : list (K * V)) :
  NoDup l.*1 -> inserted cmp_fcn ow k v l l' -> (ow = false -> k ∉ l.*1) ->
  NoDup l'.*1 /\ list_to_map (M := gmap K V) l' = <[k := v]> (list_to_map l).
Proof.
  intros Hnd [[Hp Hno]|(Hw & k' & v' & r & Hk & Hl & Hl')] Hab.
  - assert (Hn : k ∉ l.*1).
    { destruct ow; [|by apply Hab]. intros Hin. apply list_elem_of_fmap in Hin as ([k2 v2] & -> & Hin).
      apply (Hno eq_refl k2 v2 Hin). by apply Hcmp. }
    symmetry in Hp. destruct (list_to_map_perm _ _ (NoDup_cons_2 _ _ Hn Hnd : NoDup ((k, v) :: l).*1) Hp)
      as [? Heq]. split; [done|]. by rewrite <- Heq.
  - apply Hcmp in Hk as <-.
    destruct (list_to_map_perm _ _ Hnd Hl) as [Hnd1 ->]. cbn in Hnd1. apply NoDup_cons in Hnd1 as [Hk Hr].
    symmetry in Hl'. destruct (list_to_map_perm ((k, v) :: r) l') as [? <-]; [by constructor|done|].
    split; [done|]. simpl. by rewrite insert_insert_eq.
Qed.

(** Allocation succeeds and growth is allowed. *)
Definition unobstructed (a : alloc) (h : hash) : Prop := ~ insert_obstacle a h.

Lemma put_refines a h m k v :
  rep h m -> size h < 2 ^ 29 -> unobstructed a h ->
  exists h' it, stdhash_put cmp_fcn hcode_fcn a h k v = Some (STDESUCCESS, h', it) /\
    rep h' (<[k := v]> m) /\ opts h' = opts h /\ stdhash_it_pair h' it = Some (k, v).
Proof.
  intros (Hwf & Hnd & ->) Hsz Hun.
  destruct (low_insert_one cmp_fcn hcode_fcn a h true k v Hwf Hsz)
    as (c & h' & it & Hi & Hwf' & Ho & [(-> & Hins & Hit)|(_ & _ & _ & Hobs)]); [|done].
  exists h', it. split; [done|].
  destruct (inserted_map true k v _ _ Hnd Hins) as [? ?]; [done|]. done.
Qed.

Lemma insert_refines a h m k v :
  rep h m -> size h < 2 ^ 29 -> unobstructed a h -> m !! k = None ->
  exists h' it, stdhash_insert cmp_fcn hcode_fcn a h k v = Some (STDESUCCESS, h', it) /\
    rep h' (<[k := v]> m) /\ opts h' = opts h /\ stdhash_it_pair h' it = Some (k, v).
Proof.
  intros Hrep Hsz Hun Hk. destruct (Hrep) as (Hwf & Hnd & ->).
  destruct (low_insert_one cmp_fcn hcode_fcn a h false k v Hwf Hsz)
    as (c & h' & it & Hi & Hwf' & Ho & [(-> & Hins & Hit)|(_ & _ & _ & Hobs)]); [|done].
  exists h', it. split; [done|].
  destruct (inserted_map false k v _ _ Hnd Hins) as [? ?]; [|done].
  intros _ Hin. by apply not_elem_of_list_to_map in Hk.
Qed.

Lemma erase_refines a h m it k v :
  rep h m -> size h <= 2 ^ 29 -> m !! k = Some v ->
  stdhash_find cmp_fcn hcode_fcn h k = Some it ->
  exists h' it', stdhash_erase a h it = Some (h', it') /\ rep h' (delete k m) /\
    size h' = size h - 1 /\ opts h' = opts h.
Proof.
  intros Hrep Hsz Hk Hit. destruct (find_spec cmp_fcn hcode_fcn h k (proj1 Hrep)) as (it0 & Hf & Hcase).
  rewrite Hit in Hf. injection Hf as <-.
  destruct Hcase as [[_ (nd & Hnd & Ha & Hc)]|[_ Hno]]; cycle 1.
  { apply (rep_lookup h m _ _ Hrep) in Hk. exfalso. apply (Hno k v Hk). by apply Hcmp. }
  apply Hcmp in Hc. destruct Hrep as (Hwf & Hndup & ->).
  destruct (erase_spec hcode_fcn a h it nd Hwf Hsz Hnd Ha) as (h' & it' & He & Hwf' & Hp & Hs & Ho).
  exists h', it'. split; [done|]. split; [|done]. split; [done|].
  destruct (list_to_map_perm _ _ Hndup Hp) as [Hnd' ->]. cbn in Hnd'. apply NoDup_cons in Hnd' as [Hni ?].
  split; [done|]. rewrite <- Hc in *. simpl. rewrite delete_insert_id; [done|].
  by apply not_elem_of_list_to_map.
Qed.

Lemma iterate_refines h m :
  rep h m -> exists l, iter_from (S (table_end h)) h (stdhash_begin h) = Some l /\ l ≡ₚ map_to_list m.
Proof.
  intros (Hwf & Hnd & ->). exists (pairs h). split; [by eapply iterate_pairs|].
  by rewrite map_to_list_to_map.
Qed.

Lemma erase_key_refines a h m k :
  rep h m -> size h <= 2 ^ 29 ->
  exists h', stdhash_erase_key cmp_fcn hcode_fcn a h k = Some h' /\ rep h' (delete k m) /\ opts h' = opts h.
Proof.
  intros (Hwf & Hnd & ->) Hsz.
  destruct (erase_key_spec cmp_fcn hcode_fcn a h k Hwf Hsz) as (h' & gone & He & Hwf' & Hp & Ho & Hg & Hr).
  exists h'. split; [done|]. split; [|done]. split; [done|].
  destruct (list_to_map_perm _ _ Hnd Hp) as [Hnd' ->]. rewrite fmap_app in Hnd'.
  apply NoDup_app in Hnd' as (_ & _ & Hnd'). split; [done|].
  assert (Hk : (list_to_map (pairs h') : gmap K V) !! k = None).
  { apply not_elem_of_list_to_map. intros Hin. apply list_elem_of_fmap in Hin as ([k' v'] & Hk' & Hin).
    rewrite Forall_forall in Hr. apply Hr in Hin. by apply Hin, Hcmp. }
  clear Hp. induction gone as [|[k' v'] gone IH]; simpl; [by rewrite delete_id|].
  apply Forall_cons in Hg as [Hk' Hg]. apply Hcmp in Hk'. simpl in Hk'. subst k'. rewrite delete_insert_eq. by apply IH.
Qed.

Lemma clear_refines a h m :
  rep h m -> exists h', stdhash_clear a h = Some h' /\ rep h' ∅ /\ opts h' = opts h.
Proof.
  intros (Hwf & _ & _). destruct (clear_spec hcode_fcn a h Hwf) as (h' & He & Hwf' & Hp & Ho).
  exists h'. split; [done|]. split; [|done]. split; [done|]. rewrite Hp. split; [constructor|done].
Qed.

Lemma construct_refines ksize o h :
  stdhash_construct ksize o = (STDESUCCESS, Some h) -> rep h ∅ /\ opts h = o.
Proof.
  intros Hc. destruct (construct_spec hcode_fcn ksize o h Hc) as (Hwf & Hp & Ho).
  split; [|done]. split; [done|]. rewrite Hp. split; [constructor|done].
Qed.

(** ** Simulation of operation sequences *)

Inductive hash_op := Put (k : K) (v : V) | EraseKey (k : K) | Clear.

Definition run_op (a : alloc) (o : hash_op) (h : hash) : option hash :=
  match o with
  | Put k v => '(c, h', _) ← stdhash_put cmp_fcn hcode_fcn a h k v;
               match c with STDESUCCESS => Some h' | _ => None end
  | EraseKey k => stdhash_erase_key cmp_fcn hcode_fcn a h k
  | Clear => stdhash_clear a h
  end.

Definition run_map (o : hash_op) (m : gmap K V) : gmap K V :=
  match o with Put k v => <[k := v]> m | EraseKey k => delete k m | Clear => ∅ end.

Fixpoint run_ops (a : alloc) (os : list hash_op) (h : hash) : option hash :=
  match os with [] => Some h | o :: os' => h' ← run_op a o h; run_ops a os' h' end.

Lemma unobstructed_default h : opts h = 0 -> unobstructed alloc_all h.
Proof.
  intros Ho [[n Hn]|[Hn|Hn]]; [done|done|]. unfold has_opt in Hn. rewrite Ho in Hn. done.
Qed.

Lemma run_op_refines o h m :
  rep h m -> opts h = 0 -> size h < 2 ^ 29 ->
  exists h', run_op alloc_all o h = Some h' /\ rep h' (run_map o m) /\ opts h' = 0 /\ size h' <= size h + 1.
Proof.
  intros Hrep Ho Hsz.
  assert (exists h', run_op alloc_all o h = Some h' /\ rep h' (run_map o m) /\ opts h' = opts h) as (h' & Hr & Hrep' & Ho').
  { destruct o as [k v|k|].
    - destruct (put_refines alloc_all h m k v Hrep Hsz (unobstructed_default h Ho)) as (h' & it & Hp & ? & ? & _).
      exists h'. cbn [run_op]. by rewrite Hp.
    - apply erase_key_refines; [done|lia].
    - by eapply clear_refines. }
  exists h'. split; [done|]. split; [done|]. split; [congruence|].
  rewrite (rep_size _ _ Hrep), (rep_size _ _ Hrep'). destruct o as [k v|k|]; simpl.
  - rewrite map_size_insert. case_match; unfold id; lia.
  - rewrite map_size_delete. case_match; unfold id; lia.
  - rewrite map_size_empty. lia.
Qed.

Lemma run_ops_refines os h m :
  rep h m -> opts h = 0 -> size h + Z.of_nat (length os) <= 2 ^ 29 ->
  exists h', run_ops alloc_all os h = Some h' /\ rep h' (foldl (fun m o => run_map o m) m os).
Proof.
  revert h m. induction os as [|o os IH]; intros h m Hrep Ho Hsz; [by exists h|].
  cbn [length] in Hsz. destruct (run_op_refines o h m Hrep Ho ltac:(lia)) as (h1 & Hr & Hrep1 & Ho1 & Hs1).
  cbn [run_ops foldl]. rewrite Hr. apply IH; [done|done|lia].
Qed.
End Refine.
