(* ===== verification/HashProps.v ===== *)
(** * HashProps: the properties of stdutil's hash table and its helpers

    Each property is stated for any key comparison and hash-code functions that
    keep the contract documented in stdhash.c ([key_contract]); the examples run
    the table on byte-string keys with the default functions. *)
From stdpp Require Import base list gmap numbers option sets.
From Stdlib Require Import ZArith Lia.
From S2P Require Import Prelude StdUtil StdHash StdHashProof HashMap.
#[local] Open Scope Z_scope.

(** ** A concrete table: 32-bit identifiers, memcmp and SuperFastHash *)
Module Ex.
Abbreviation tbl := (@stdhash (list Z) Z).
Definition h0 : tbl := mk_hash [] 0 (u64 (-1)) (u64 (-1)) 0 0 0.
Definition ins (h : tbl) (k v : Z) : tbl :=
  match stdhash_insert memcmp HashCode.stdhcode_sfh alloc_all h (bytes32 k) v with
  | Some (_, h', _) => h'
  | None => h
  end.
(** Key 10 twice, key 11 once. *)
Definition h3 : tbl := ins (ins (ins h0 10 100) 11 110) 10 101.

#[export] Instance memcmp_contract : key_contract memcmp HashCode.stdhcode_sfh.
Proof. split; intros *; rewrite ?memcmp_eq; by intros; subst. Qed.

Lemma h0_wf : hash_wf HashCode.stdhcode_sfh h0.
Proof. by apply (construct_spec _ 4 0). Qed.

Lemma ins_wf h k v :
  hash_wf HashCode.stdhcode_sfh h -> size h < 2 ^ 29 -> hash_wf HashCode.stdhcode_sfh (ins h k v).
Proof.
  intros Hwf Hs. unfold ins, stdhash_insert.
  destruct (low_insert_one memcmp HashCode.stdhcode_sfh alloc_all h false (bytes32 k) v Hwf Hs)
    as (c & h' & it & -> & Hwf' & _). done.
Qed.

Lemma h3_wf : hash_wf HashCode.stdhcode_sfh h3.
Proof. repeat apply ins_wf; try apply h0_wf; vm_compute; reflexivity. Qed.

Lemma h3_pairs : pairs h3 ≡ₚ [(bytes32 10, 100); (bytes32 11, 110); (bytes32 10, 101)].
Proof. vm_compute pairs. solve_Permutation. Qed.
End Ex.

(** ** stdutil.c *)

(** For every request from 1 to 2^61, [stdpow2_cap] returns an exact power
    of two, at least [x + floor(x/2)] and less than [3x]; no shift overflows. *)
Theorem stdpow2_cap_bounds (x : Z) :
  0 < x <= 2 ^ 61 ->
  exists k, Pow2.stdpow2_cap x = Some (2 ^ k) /\ 0 <= k <= 62 /\ x + x / 2 <= 2 ^ k < 3 * x.
Proof. apply Pow2.stdpow2_cap_pow2. Qed.

Lemma stdpow2_cap_bounds_witness :
  exists k, Pow2.stdpow2_cap 43 = Some (2 ^ k) /\ 0 <= k <= 62 /\ 43 + 43 / 2 <= 2 ^ k < 3 * 43.
Proof. apply (stdpow2_cap_bounds 43). split; [reflexivity | discriminate]. Defined.

(** The limb arithmetic of [stdrand32] is the 48-bit linear congruential
    generator: the new state is [(0x5DEECE66D * x + 11) mod 2^48] and the
    result is its upper 32 bits, in spite of the 32-bit accumulator wrapping. *)
Theorem stdrand32_is_lcg48 (x : Rand48.rand_state) :
  Rand48.rand_ok x ->
  let '(r, x') := Rand48.stdrand32 x in
  Rand48.rand_ok x' /\ Rand48.rand_value x' = Rand48.lcg48 (Rand48.rand_value x) /\
  r = Rand48.rand_value x' / 2 ^ 16.
Proof.
  intros Hx. pose proof (Rand48.stdrand32_ok x) as Hok. pose proof (Rand48.stdrand32_value x Hx) as Hv.
  pose proof (Rand48.stdrand32_output x) as Ho.
  destruct (Rand48.stdrand32 x) as [r x']. done.
Qed.

Lemma stdrand32_is_lcg48_witness :
  let x := Rand48.stdrand32_dseed 12345 in
  Rand48.rand_ok x /\ snd (Rand48.stdrand32 x) <> x /\
  let '(r, x') := Rand48.stdrand32 x in
  Rand48.rand_ok x' /\ Rand48.rand_value x' = Rand48.lcg48 (Rand48.rand_value x) /\
  r = Rand48.rand_value x' / 2 ^ 16.
Proof.
  assert (H : Rand48.rand_ok (Rand48.stdrand32_dseed 12345)) by (repeat split; try discriminate; vm_compute; reflexivity).
  split; [exact H|]. split; [discriminate|]. exact (stdrand32_is_lcg48 (Rand48.stdrand32_dseed 12345) H).
Defined.

(** ** stdhash.c *)

Section Props.
Context {K V : Type} (cmp_fcn : K -> K -> Z) (hcode_fcn : K -> Z).

(** A lookup in a well-formed table always ends: it returns an iterator to
    an active pair with a matching key, or the end iterator, and then no pair
    of the table has a matching key. *)
Theorem stdhash_find_correct (h : @stdhash K V) (key : K) :
  key_contract cmp_fcn hcode_fcn -> hash_wf hcode_fcn h ->
  exists it, stdhash_find cmp_fcn hcode_fcn h key = Some it /\
    (stdhash_is_end h it = false /\
       (exists k v, stdhash_it_pair h it = Some (k, v) /\ cmp_fcn key k = 0 /\ (k, v) ∈ pairs h) \/
     stdhash_is_end h it = true /\ forall k v, (k, v) ∈ pairs h -> cmp_fcn key k <> 0).
Proof.
  intros Hk Hwf. destruct (find_spec cmp_fcn hcode_fcn h key Hwf) as (it & Hf & Hc). exists it.
  split; [done|]. unfold stdhash_is_end. destruct Hc as [[Hlt (nd & Hnd & Ha & Hm)]|[-> Hno]].
  - left. split; [apply Nat.eqb_neq; lia|]. exists (nkey nd), (nval nd). unfold stdhash_it_pair.
    rewrite Hnd. split; [done|]. split; [done|]. apply pairs_elem. eauto 10.
  - right. by rewrite Nat.eqb_refl.
Qed.

(** One [stdhash_insert] or [stdhash_put] on a well-formed table of fewer
    than 2^29 pairs ends and leaves a well-formed table.  On success the
    contents gain the pair (for a put, replacing one pair of a matching key if
    there is any) and the iterator refers to it; on failure the contents are
    unchanged, the iterator is the end, and memory ran out or growth is
    disallowed. *)
Theorem stdhash_insert_put_correct (a : alloc) (h : @stdhash K V) (put : bool) (key : K) (val : V) :
  key_contract cmp_fcn hcode_fcn -> hash_wf hcode_fcn h -> size h < 2 ^ 29 ->
  exists c h' it,
    (if put then stdhash_put cmp_fcn hcode_fcn a h key val
     else stdhash_insert cmp_fcn hcode_fcn a h key val) = Some (c, h', it) /\
    hash_wf hcode_fcn h' /\
    (c = STDESUCCESS /\ inserted cmp_fcn put key val (pairs h) (pairs h') /\
       stdhash_it_pair h' it = Some (key, val) \/
     c <> STDESUCCESS /\ pairs h' ≡ₚ pairs h /\ stdhash_is_end h' it = true /\ insert_obstacle a h).
Proof.
  intros Hk Hwf Hs.
  destruct (low_insert_one cmp_fcn hcode_fcn a h put key val Hwf Hs) as (c & h' & it & Hi & Hwf' & _ & Hc).
  exists c, h', it. split; [by destruct put|]. split; [done|].
  destruct Hc as [?|(? & ? & -> & ?)]; [by left|right]. unfold stdhash_is_end. by rewrite Nat.eqb_refl.
Qed.

(** Erasing the pair an iterator refers to removes exactly that pair,
    keeps the table well-formed and its size right, whether or not the table
    shrinks; in a shrunk table the returned iterator is the new beginning. *)
Theorem stdhash_erase_correct (a : alloc) (h : @stdhash K V) (it : nat) (nd : stdhash_node) :
  hash_wf hcode_fcn h -> size h <= 2 ^ 29 ->
  table h !! it = Some (Some nd) -> inactive nd = false ->
  exists h' it', stdhash_erase a h it = Some (h', it') /\ hash_wf hcode_fcn h' /\
    pairs h ≡ₚ (nkey nd, nval nd) :: pairs h' /\ size h' = size h - 1.
Proof.
  intros Hwf Hs Hn Ha. destruct (erase_spec hcode_fcn a h it nd Hwf Hs Hn Ha) as (h' & it' & ? & ? & ? & ? & _).
  by exists h', it'.
Qed.

(** The keyed iteration of a key ([stdhash_find], then [stdhash_keyed_next]
    to the end) ends and visits every active position with a matching key
    exactly once, and nothing else. *)
Theorem stdhash_keyed_iteration (h : @stdhash K V) (key : K) :
  key_contract cmp_fcn hcode_fcn -> hash_wf hcode_fcn h ->
  exists l, keyed_all cmp_fcn hcode_fcn h key = Some l /\ NoDup l /\
            forall p, p ∈ l <-> key_at cmp_fcn h p key.
Proof. intros Hk Hwf. by apply keyed_all_spec. Qed.

(** A successful rehash never leaves a table of fewer than 64 cells, so the
    test of [stdhash_erase] against [STDHASH_MIN_AUTO_ALLOC] (16) holds of every
    table a rehash produced: in a small table each removal rehashes. *)
Theorem stdhash_rehash_min_capacity (a : alloc) (h : @stdhash K V) (req : Z) (h' : @stdhash K V) :
  hash_wf hcode_fcn h -> size h <= req <= 2 ^ 29 ->
  stdhash_low_rehash a h req = Some (STDESUCCESS, h') ->
  pairs h' ≡ₚ pairs h /\ 64 <= cap h' /\
  should_shrink h' = negb (has_opt h' STDHASH_OPTS_NO_AUTO_SHRINK) && (size h' <=? stdhash_low_thresh h').
Proof.
  intros Hwf Hs Hr. destruct (low_rehash_spec hcode_fcn a h req Hwf Hs) as (c & h1 & Hr' & Hc).
  rewrite Hr in Hr'. injection Hr' as <- <-.
  destruct Hc as [(? & _)|(_ & _ & Hp & _ & _ & _ & Hcap & _)]; [done|].
  split; [done|]. split; [done|]. unfold should_shrink, STDHASH_MIN_AUTO_ALLOC.
  destruct (Z.eqb_spec (cap h') 16); [lia|]. cbn [negb]. by rewrite andb_true_r.
Qed.
End Props.

Lemma stdhash_find_correct_witness :
  exists it, stdhash_find memcmp HashCode.stdhcode_sfh Ex.h3 (bytes32 11) = Some it /\
    stdhash_it_pair Ex.h3 it = Some (bytes32 11, 110).
Proof.
  destruct (stdhash_find_correct memcmp HashCode.stdhcode_sfh Ex.h3 (bytes32 11)
              Ex.memcmp_contract Ex.h3_wf) as (it & Hf & _).
  exists it. split; [exact Hf|]. vm_compute in Hf. injection Hf as <-. reflexivity.
Defined.

Lemma stdhash_insert_put_correct_witness :
  exists c h' it, stdhash_insert memcmp HashCode.stdhcode_sfh alloc_all Ex.h3 (bytes32 10) 102 = Some (c, h', it) /\
    c = STDESUCCESS /\ pairs h' ≡ₚ (bytes32 10, 102) :: pairs Ex.h3.
Proof.
  destruct (stdhash_insert_put_correct memcmp HashCode.stdhcode_sfh alloc_all Ex.h3 false (bytes32 10) 102
              Ex.memcmp_contract Ex.h3_wf ltac:(vm_compute; reflexivity)) as (c & h' & it & Hi & _ & Hc).
  exists c, h', it. split; [exact Hi|]. destruct Hc as [(Hc & [[Hp _]|[? _]] & _)|(_ & _ & _ & Ho)].
  - split; [exact Hc|exact Hp].
  - discriminate.
  - exfalso. revert Ho. apply (unobstructed_default Ex.h3). reflexivity.
Defined.

Lemma stdhash_erase_correct_witness :
  exists it nd h' it', table Ex.h3 !! it = Some (Some nd) /\ nval nd = 110 /\
    stdhash_erase alloc_all Ex.h3 it = Some (h', it') /\ size h' = 2.
Proof.
  set (it := default 0%nat (stdhash_find memcmp HashCode.stdhcode_sfh Ex.h3 (bytes32 11))).
  set (nd := mk_node (HashCode.stdhcode_sfh (bytes32 11)) (bytes32 11) 110).
  assert (Hnd : table Ex.h3 !! it = Some (Some nd)) by (vm_compute; reflexivity).
  assert (Hs : size Ex.h3 <= 2 ^ 29) by (vm_compute; discriminate).
  assert (Ha : inactive nd = false) by (vm_compute; reflexivity).
  destruct (stdhash_erase_correct HashCode.stdhcode_sfh alloc_all Ex.h3 it nd Ex.h3_wf Hs Hnd Ha)
    as (h' & it' & He & _ & _ & Hs').
  exists it, nd, h', it'. split; [exact Hnd|]. split; [reflexivity|]. split; [exact He|].
  rewrite Hs'. vm_compute. reflexivity.
Defined.

Lemma stdhash_keyed_iteration_witness :
  exists l, keyed_all memcmp HashCode.stdhcode_sfh Ex.h3 (bytes32 10) = Some l /\ NoDup l /\ length l = 2%nat.
Proof.
  destruct (stdhash_keyed_iteration memcmp HashCode.stdhcode_sfh Ex.h3 (bytes32 10)
              Ex.memcmp_contract Ex.h3_wf) as (l & Hl & Hn & _).
  exists l. split; [exact Hl|]. split; [exact Hn|]. vm_compute in Hl. injection Hl as <-. reflexivity.
Defined.

Lemma stdhash_rehash_min_capacity_witness :
  exists h', stdhash_low_rehash alloc_all Ex.h3 3 = Some (STDESUCCESS, h') /\ 64 <= cap h'.
Proof.
  destruct (stdhash_low_rehash alloc_all Ex.h3 3) as [[c h']|] eqn:E; [|vm_compute in E; discriminate].
  exists h'. destruct c; try (vm_compute in E; discriminate). split; [reflexivity|].
  refine (proj1 (proj2 (stdhash_rehash_min_capacity HashCode.stdhcode_sfh alloc_all Ex.h3 3 h' Ex.h3_wf _ E))).
  vm_compute. split; discriminate.
Defined.

(** ** The table as a finite map *)

Section MapProps.
Context `{Countable K} {V : Type} (cmp_fcn : K -> K -> Z) (hcode_fcn : K -> Z).

(** C37: Refinement: with unique keys, any sequence of puts, removals and clears
    on a freshly constructed table (fewer than 2^29 of them, memory available)
    ends, in a table that represents the finite map the same operations build;
    lookup and iteration of that table then read this map. *)
Theorem stdhash_refines_map (ksize : Z) (h : @stdhash K V) (os : list hash_op) :
  (forall k1 k2, cmp_fcn k1 k2 = 0 <-> k1 = k2) ->
  stdhash_construct ksize 0 = (STDESUCCESS, Some h) -> Z.of_nat (length os) <= 2 ^ 29 ->
  let m := foldl (fun m o => run_map o m) ∅ os in
  exists h', run_ops cmp_fcn hcode_fcn alloc_all os h = Some h' /\
    (forall k, exists it, stdhash_find cmp_fcn hcode_fcn h' k = Some it /\
       stdhash_it_pair h' it = (v ← m !! k; Some (k, v)) /\
       stdhash_is_end h' it = bool_decide (m !! k = None)) /\
    (exists l, iter_from (S (table_end h')) h' (stdhash_begin h') = Some l /\ l ≡ₚ map_to_list m) /\
    stdhash_size h' = Z.of_nat (base.size m).
Proof.
  intros Hcmp Hc Hlen m. destruct (construct_refines hcode_fcn ksize 0 h Hc) as [Hrep Ho].
  pose proof (rep_size _ _ _ Hrep) as Hs. rewrite map_size_empty in Hs.
  destruct (run_ops_refines cmp_fcn hcode_fcn Hcmp os h ∅ Hrep Ho ltac:(lia)) as (h' & Hr & Hrep').
  exists h'. split; [done|]. split; [|split; [by eapply iterate_refines|by eapply rep_size]].
  intros k. destruct (find_refines cmp_fcn hcode_fcn Hcmp h' _ k Hrep') as (it & Hf & Hcase).
  exists it. split; [done|]. fold m in Hcase. destruct Hcase as [[He ->]|(He & v & Hp & ->)].
  - split; [|by rewrite He]. unfold stdhash_is_end in He. apply Nat.eqb_eq in He as ->.
    unfold stdhash_it_pair, table_end. by rewrite lookup_ge_None_2.
  - split; [done|]. by rewrite He.
Qed.
End MapProps.

Lemma stdhash_refines_map_witness :
  exists h', run_ops memcmp HashCode.stdhcode_sfh alloc_all
      [Put (bytes32 5) 1; Put (bytes32 6) 2; EraseKey (bytes32 5); Put (bytes32 6) 3] Ex.h0 = Some h' /\
    stdhash_size h' = 1.
Proof.
  destruct (stdhash_refines_map memcmp HashCode.stdhcode_sfh 4 Ex.h0
    [Put (bytes32 5) 1; Put (bytes32 6) 2; EraseKey (bytes32 5); Put (bytes32 6) 3]
    memcmp_eq eq_refl ltac:(discriminate)) as (h' & Hr & _ & _ & Hs).
  exists h'. split; [exact Hr|]. rewrite Hs. vm_compute. reflexivity.
Defined.
