(* ===== verification/StdCarr.v ===== *)
(** * StdCarr: the circular array of stdutil/src/stdcarr.c

    A block of bytes in which the elements lie one behind the other modulo the
    size of the block, with at least one free element.  A pointer into the block
    is its offset from [base]; without a block ([base] is NULL) every offset is
    0.  The functions move bytes with memcpy and memmove; here these fail
    ([None]) outside of the block and, for memcpy, on overlapping regions, which
    C leaves undefined.  [alloc] says whether malloc succeeds and [junk] is what
    its memory holds; sizes are 64-bit. *)
From stdpp Require Import base list numbers option.
From Stdlib Require Import ZArith Lia.
From S2P Require Import Prelude.
#[local] Open Scope Z_scope.

Definition STDCARR_MIN_AUTO_ALLOC : Z := 16.
Definition STDCARR_OPTS_NO_AUTO_GROW : Z := 1.
Definition STDCARR_OPTS_NO_AUTO_SHRINK : Z := 2.

Inductive stdcode := STDESUCCESS | STDENOMEM | STDEACCES | STDEINVAL.
#[export] Instance stdcode_eq_dec : EqDecision stdcode.
Proof. solve_decision. Defined.

Section carr.
Context {B : Type}.
Variable junk : nat -> B.

(** ** Blocks of memory *)
Definition malloc (n : Z) : list B := junk <$> seq 0 (Z.to_nat n).

Definition splice (m : list B) (dst : Z) (l : list B) : list B :=
  take (Z.to_nat dst) m ++ l ++ drop (Z.to_nat dst + length l) m.

Definition slice (m : list B) (src n : Z) : list B := take (Z.to_nat n) (drop (Z.to_nat src) m).

Definition in_block (m : list B) (p n : Z) : bool := (0 <=? p) && (0 <=? n) && (p + n <=? Z.of_nat (length m)).

(** Reading [n] bytes, writing some. *)
Definition load (m : list B) (src n : Z) : option (list B) :=
  if n =? 0 then Some [] else if in_block m src n then Some (slice m src n) else None.
Definition store (m : list B) (dst : Z) (l : list B) : option (list B) :=
  if bool_decide (l = []) then Some m else if in_block m dst (Z.of_nat (length l)) then Some (splice m dst l) else None.

Definition memmove (m : list B) (dst src n : Z) : option (list B) := l ← load m src n; store m dst l.
Definition memcpy (m : list B) (dst src n : Z) : option (list B) :=
  if (n =? 0) || (dst + n <=? src) || (src + n <=? dst) then memmove m dst src n else None.

(** ** The array *)
Record stdcarr := mk_carr
  { base : option (list B); begin : Z; end_ : Z; cap : Z; size : Z; vsize : Z; opts : Z }.
Definition block (c : stdcarr) : list B := default [] (base c).
Definition endbase (c : stdcarr) : Z := Z.of_nat (length (block c)).

Definition with_block (m : list B) (c : stdcarr) : stdcarr :=
  mk_carr ((fun _ => m) <$> base c) (begin c) (end_ c) (cap c) (size c) (vsize c) (opts c).
Definition with_end (e n : Z) (c : stdcarr) : stdcarr := mk_carr (base c) (begin c) e (cap c) n (vsize c) (opts c).
Definition with_begin (b n : Z) (c : stdcarr) : stdcarr := mk_carr (base c) b (end_ c) (cap c) n (vsize c) (opts c).

(** Copying [b, e) of the array to [dst] in another block. *)
Definition stdcarr_low_copy_to_buf (buf : list B) (dst : Z) (c : stdcarr) (b e : Z) : option (list B * Z) :=
  if b <=? e then
    l ← load (block c) b (e - b); buf ← store buf dst l; Some (buf, dst + (e - b))
  else
    l ← load (block c) b (endbase c - b); buf ← store buf dst l;
    l ← load (block c) 0 e; buf ← store buf (dst + (endbase c - b)) l;
    Some (buf, dst + (endbase c - b) + e).

Definition stdcarr_low_forward (p n : Z) (eb : Z) : Z := if p + n <? eb then p + n else p + n - eb.
Definition stdcarr_low_backward (p n : Z) (eb : Z) : Z := if 0 <=? p - n then p - n else eb - (0 - (p - n)).

(** ** Shifting *)
Definition stdcarr_low_insert_shift_right (c : stdcarr) (it delta new_size : Z) : option stdcarr :=
  let m := block c in
  m ← (if begin c <=? end_ c then
         let diff := end_ c + delta - endbase c in
         if diff <=? 0 then memmove m (it + delta) it (end_ c - it)
         else
           let diff2 := end_ c - it in
           if diff2 <=? diff then memcpy m (diff - diff2) it diff2
           else m ← memcpy m 0 (end_ c - diff) diff; memmove m (it + delta) it (diff2 - diff)
       else
         let diff := end_ c - it in
         if 0 <=? diff then memmove m (it + delta) it diff
         else
           m ← memmove m delta 0 (end_ c);
           let diff := endbase c - it in
           if diff <=? delta then memcpy m (delta - diff) it diff
           else m ← memcpy m 0 (endbase c - delta) delta; memmove m (it + delta) it (diff - delta));
  Some (with_end (stdcarr_low_forward (end_ c) delta (endbase c)) new_size (with_block m c)).

Definition stdcarr_low_insert_shift_left (c : stdcarr) (it delta new_size : Z) : option stdcarr :=
  let m := block c in
  m ← (if begin c <=? end_ c then
         let diff := 0 - (begin c - delta) in
         if diff <=? 0 then memmove m (begin c - delta) (begin c) (it - begin c)
         else
           let diff2 := it - begin c in
           if diff2 <=? diff then memcpy m (endbase c - diff) (begin c) diff2
           else m ← memcpy m (endbase c - diff) (begin c) diff; memmove m 0 (begin c + diff) (diff2 - diff)
       else
         if begin c <=? it then memmove m (begin c - delta) (begin c) (it - begin c)
         else
           m ← memmove m (begin c - delta) (begin c) (endbase c - begin c);
           let diff := it in
           if diff <=? delta then memcpy m (endbase c - delta) 0 diff
           else m ← memcpy m (endbase c - delta) 0 delta; memmove m 0 delta (diff - delta));
  Some (with_begin (stdcarr_low_backward (begin c) delta (endbase c)) new_size (with_block m c)).

Definition stdcarr_low_erase_shift_left (c : stdcarr) (erase_end delta new_size : Z) : option stdcarr :=
  let m := block c in
  let erase_begin := erase_end - delta in
  m ← (let diff := end_ c - erase_end in
       if 0 <=? diff then
         let diff2 := 0 - erase_begin in
         if diff2 <=? 0 then memmove m erase_begin erase_end diff
         else
           let erase_begin := endbase c - diff2 in
           if diff <=? diff2 then memcpy m erase_begin erase_end diff
           else m ← memcpy m erase_begin erase_end diff2; memmove m 0 (erase_end + diff2) (diff - diff2)
       else
         let diff := endbase c - erase_end in
         m ← memmove m erase_begin erase_end diff;
         let erase_begin := erase_begin + diff in
         let diff := end_ c in
         if diff <=? delta then memcpy m erase_begin 0 diff
         else m ← memcpy m erase_begin 0 delta; memmove m 0 delta (diff - delta));
  Some (with_end (stdcarr_low_backward (end_ c) delta (endbase c)) new_size (with_block m c)).

Definition stdcarr_low_erase_shift_right (c : stdcarr) (erase_begin delta new_size : Z) : option stdcarr :=
  let m := block c in
  let erase_end := erase_begin + delta in
  m ← (let diff := erase_begin - begin c in
       if 0 <=? diff then
         let diff2 := erase_end - endbase c in
         if diff2 <=? 0 then memmove m (begin c + delta) (begin c) diff
         else
           let diff3 := diff2 - diff in
           if 0 <=? diff3 then memcpy m diff3 (begin c) diff
           else m ← memcpy m 0 (erase_begin - diff2) diff2; memmove m (begin c + delta) (begin c) (- diff3)
       else
         let diff := erase_begin in
         let erase_end := erase_end - diff in
         m ← memmove m erase_end 0 diff;
         let diff := endbase c - begin c in
         if diff <=? delta then memcpy m (erase_end - diff) (begin c) diff
         else m ← memcpy m 0 (endbase c - delta) delta; memmove m (begin c + delta) (begin c) (diff - delta));
  Some (with_begin (stdcarr_low_forward (begin c) delta (endbase c)) new_size (with_block m c)).

(** ** Capacities *)
Definition stdcarr_high_capacity (c : stdcarr) : Z := if cap c =? 0 then 0 else cap c - 1.
Definition stdcarr_low_capacity (c : stdcarr) : Z := Z.shiftr (cap c) 2.
Definition stdcarr_max_size (c : stdcarr) : Z := (2 ^ 64 - 1) / vsize c.
Definition new_capacity (new_size : Z) : Z := Z.max (u64 (Z.shiftl new_size 1)) STDCARR_MIN_AUTO_ALLOC.

(** A fresh block that holds the array from its first byte on. *)
Definition realloc (c : stdcarr) (m : list B) (new_cap new_size : Z) : stdcarr :=
  mk_carr (Some m) 0 (new_size * vsize c) new_cap new_size (vsize c) (opts c).

Definition stdcarr_low_insert_shift (alloc : bool) (c : stdcarr) (it delta new_size : Z) (shift_right : bool)
    : option (stdcode * stdcarr * Z) :=
  if delta =? 0 then Some (STDESUCCESS, c, it)
  else if new_size <=? stdcarr_high_capacity c then
    if shift_right then
      c ← stdcarr_low_insert_shift_right c it delta new_size; Some (STDESUCCESS, c, it)
    else
      c ← stdcarr_low_insert_shift_left c it delta new_size;
      Some (STDESUCCESS, c, stdcarr_low_backward it delta (endbase c))
  else if Z.land (opts c) STDCARR_OPTS_NO_AUTO_GROW =? 0 then
    let new_cap := new_capacity new_size in
    let asize := u64 (new_cap * vsize c) in
    if alloc then
      let mem := malloc asize in
      match base c with
      | Some _ =>
          '(mem, it') ← stdcarr_low_copy_to_buf mem 0 c (begin c) it;
          '(mem, _) ← stdcarr_low_copy_to_buf mem (it' + delta) c it (end_ c);
          Some (STDESUCCESS, realloc c mem new_cap new_size, it')
      | None => Some (STDESUCCESS, realloc c mem new_cap new_size, 0)
      end
    else Some (STDENOMEM, c, it)
  else Some (STDEACCES, c, it).

Definition stdcarr_low_erase_shift (alloc : bool) (c : stdcarr) (it delta new_size : Z) (shift_right : bool)
    : option (stdcarr * Z) :=
  let in_place :=
    if shift_right then
      c ← stdcarr_low_erase_shift_right c it delta new_size; Some (c, stdcarr_low_forward it delta (endbase c))
    else c ← stdcarr_low_erase_shift_left c it delta new_size; Some (c, it) in
  if delta =? 0 then Some (c, it)
  else if negb (Z.land (opts c) STDCARR_OPTS_NO_AUTO_SHRINK =? 0)
          || (stdcarr_low_capacity c <? new_size) || (cap c =? STDCARR_MIN_AUTO_ALLOC) then in_place
  else
    let new_cap := new_capacity new_size in
    let asize := u64 (new_cap * vsize c) in
    if asize =? 0 then Some (mk_carr None 0 (new_size * vsize c) new_cap new_size (vsize c) (opts c), 0)
    else if alloc then
      let mem := malloc asize in
      let '(tmp, tmp2) := if shift_right then (stdcarr_low_forward it delta (endbase c), it)
                          else (it, stdcarr_low_backward it delta (endbase c)) in
      '(mem, it') ← stdcarr_low_copy_to_buf mem 0 c (begin c) tmp2;
      '(mem, _) ← stdcarr_low_copy_to_buf mem it' c tmp (end_ c);
      Some (realloc c mem new_cap new_size, it')
    else in_place.

(** ** Construction *)
Definition stdcarr_construct (vs op : Z) : stdcode * stdcarr :=
  if (vs =? 0) || negb (Z.land op (Z.lnot (Z.lor STDCARR_OPTS_NO_AUTO_GROW STDCARR_OPTS_NO_AUTO_SHRINK)) =? 0)
  then (STDEINVAL, mk_carr None 0 0 0 0 0 0)
  else (STDESUCCESS, mk_carr None 0 0 0 0 vs op).

Definition stdcarr_copy_construct (alloc : bool) (src : stdcarr) : option (stdcode * stdcarr) :=
  match base src with
  | None => Some (STDESUCCESS, src)
  | Some _ =>
      if alloc then
        '(mem, e) ← stdcarr_low_copy_to_buf (malloc (u64 (vsize src * cap src))) 0 src (begin src) (end_ src);
        Some (STDESUCCESS, mk_carr (Some mem) 0 e (cap src) (size src) (vsize src) (opts src))
      else Some (STDENOMEM, mk_carr None (begin src) (end_ src) (cap src) (size src) 0 (opts src))
  end.

Definition stdcarr_set_opts (c : stdcarr) (op : Z) : stdcode * stdcarr :=
  if negb (Z.land op (Z.lnot (Z.lor STDCARR_OPTS_NO_AUTO_GROW STDCARR_OPTS_NO_AUTO_SHRINK)) =? 0) then (STDEINVAL, c)
  else (STDESUCCESS, mk_carr (base c) (begin c) (end_ c) (cap c) (size c) (vsize c) op).

(** ** Size and capacity *)
Definition stdcarr_size (c : stdcarr) : Z := size c.
Definition stdcarr_empty (c : stdcarr) : bool := size c =? 0.

Definition stdcarr_resize (alloc : bool) (c : stdcarr) (num_elems : Z) : option (stdcode * stdcarr) :=
  if size c <? num_elems then
    '(ret, c, _) ← stdcarr_low_insert_shift alloc c (end_ c) (u64 ((num_elems - size c) * vsize c)) num_elems true;
    Some (ret, c)
  else if num_elems <? size c then
    '(c, _) ← stdcarr_low_erase_shift alloc c (end_ c) (u64 ((size c - num_elems) * vsize c)) num_elems false;
    Some (STDESUCCESS, c)
  else Some (STDESUCCESS, c).

Definition stdcarr_clear (alloc : bool) (c : stdcarr) : option stdcarr := '(_, c) ← stdcarr_resize alloc c 0; Some c.

Definition stdcarr_set_eq (alloc : bool) (dst src : stdcarr) : option (stdcode * stdcarr) :=
  '(ret, dst) ← stdcarr_resize alloc dst (size src);
  if decide (ret = STDESUCCESS) then
    '(mem, e) ← stdcarr_low_copy_to_buf (block dst) 0 src (begin src) (end_ src);
    Some (STDESUCCESS, mk_carr ((fun _ => mem) <$> base dst) 0 e (cap dst) (size dst) (vsize dst) (opts dst))
  else Some (ret, dst).

Definition stdcarr_set_capacity (alloc : bool) (c : stdcarr) (num_elems : Z) : option (stdcode * stdcarr) :=
  if num_elems =? stdcarr_high_capacity c then Some (STDESUCCESS, c)
  else if num_elems =? 0 then Some (STDESUCCESS, mk_carr None 0 0 0 0 (vsize c) (opts c))
  else
    let new_cap := u64 (num_elems + 1) in
    let asize := u64 (new_cap * vsize c) in
    if alloc then
      let c := if num_elems <? size c
               then with_end (stdcarr_low_forward (begin c) (num_elems * vsize c) (endbase c)) num_elems c else c in
      '(mem, _) ← stdcarr_low_copy_to_buf (malloc asize) 0 c (begin c) (end_ c);
      Some (STDESUCCESS, realloc c mem new_cap (size c))
    else Some (STDENOMEM, c).

Definition stdcarr_reserve (alloc : bool) (c : stdcarr) (num_elems : Z) : option (stdcode * stdcarr) :=
  if stdcarr_high_capacity c <? num_elems then stdcarr_set_capacity alloc c num_elems else Some (STDESUCCESS, c).

Definition stdcarr_shrink_fit (alloc : bool) (c : stdcarr) : option (stdcode * stdcarr) :=
  stdcarr_set_capacity alloc c (size c).

(** ** Iterators: [val] is the offset of the element *)
Definition stdcarr_begin (c : stdcarr) : Z := begin c.
Definition stdcarr_end (c : stdcarr) : Z := end_ c.
Definition stdcarr_it_next (c : stdcarr) (it : Z) : Z := stdcarr_low_forward it (vsize c) (endbase c).
Definition stdcarr_it_advance (c : stdcarr) (it num_advance : Z) : Z :=
  stdcarr_low_forward it (u64 (vsize c * num_advance)) (endbase c).
Definition stdcarr_it_prev (c : stdcarr) (it : Z) : Z := stdcarr_low_backward it (vsize c) (endbase c).
Definition stdcarr_it_retreat (c : stdcarr) (it num_retreat : Z) : Z :=
  stdcarr_low_backward it (u64 (vsize c * num_retreat)) (endbase c).
Definition stdcarr_it_offset (c : stdcarr) (it offset : Z) : Z :=
  if 0 <=? offset then stdcarr_it_advance c it offset else stdcarr_it_retreat c it (- offset).
Definition stdcarr_get (c : stdcarr) (elem_num : Z) : Z := stdcarr_it_advance c (stdcarr_begin c) elem_num.
Definition stdcarr_last (c : stdcarr) : Z := stdcarr_it_prev c (stdcarr_end c).
Definition stdcarr_is_begin (c : stdcarr) (it : Z) : bool := it =? begin c.
Definition stdcarr_is_end (c : stdcarr) (it : Z) : bool := it =? end_ c.

(** The bytes of the element an iterator refers to. *)
Definition stdcarr_it_val (c : stdcarr) (it : Z) : option (list B) := load (block c) it (vsize c).

Definition stdcarr_rank (c : stdcarr) (it : Z) : Z :=
  if begin c <=? it then u64 (it - begin c) / vsize c
  else u64 (endbase c - begin c + it) / vsize c.

(** The difference is divided by the unsigned [vsize] and so read as an
    unsigned 64-bit number; the result is signed again. *)
Definition stdcarr_it_cmp (c : stdcarr) (it1 it2 : Z) : Z :=
  let ret := if begin c <=? it1
             then if begin c <=? it2 then it1 - it2 else (it1 - endbase c) + (0 - it2)
             else if it2 <? begin c then it1 - it2 else (endbase c - it2) + it1 in
  wraps 64 (u64 ret / vsize c).

(** ** Insertion *)
Definition STDCARR_INS_SHIFT_RIGHT (c : stdcarr) (ptr : Z) : bool :=
  if begin c <=? ptr then u64 (Z.shiftr (size c) 1 * vsize c) <? ptr - begin c
  else end_ c - ptr <=? u64 (Z.shiftr (size c) 1 * vsize c).

(** Writing bytes at [p], around the end of the block if need be. *)
Definition write_wrapped (c : stdcarr) (p : Z) (vals : list B) : option stdcarr :=
  let delta := Z.of_nat (length vals) in
  let diff := endbase c - p in
  m ← (if delta <=? diff then store (block c) p vals
       else m ← store (block c) p (take (Z.to_nat diff) vals); store m 0 (drop (Z.to_nat diff) vals));
  Some (with_block m c).

(** [vals] are the [num_insert * vsize] bytes behind the pointer [vals]. *)
Definition stdcarr_insert_n (alloc : bool) (c : stdcarr) (it : Z) (vals : list B) (num_insert : Z)
    : option (stdcode * stdcarr * Z) :=
  let delta := u64 (num_insert * vsize c) in
  '(ret, c, it) ← stdcarr_low_insert_shift alloc c it delta (u64 (size c + num_insert)) (STDCARR_INS_SHIFT_RIGHT c it);
  if decide (ret = STDESUCCESS) then c ← write_wrapped c it (take (Z.to_nat delta) vals); Some (STDESUCCESS, c, it)
  else Some (ret, c, it).

Definition stdcarr_insert (alloc : bool) (c : stdcarr) (it : Z) (val : list B) : option (stdcode * stdcarr * Z) :=
  stdcarr_insert_n alloc c it val 1.

(** The loops that write element by element. *)
Fixpoint write_elems (c : stdcarr) (dst_it : Z) (vals : list (list B)) : option stdcarr :=
  match vals with
  | [] => Some c
  | v :: vals =>
      m ← store (block c) dst_it (take (Z.to_nat (vsize c)) v);
      write_elems (with_block m c) (stdcarr_low_forward dst_it (vsize c) (endbase c)) vals
  end.

(** [vals]: the elements the source iterator runs over. *)
Definition stdcarr_insert_seq_n (alloc : bool) (c : stdcarr) (it : Z) (vals : list (list B))
    : option (stdcode * stdcarr * Z) :=
  let num_insert := Z.of_nat (length vals) in
  '(ret, c, it) ← stdcarr_low_insert_shift alloc c it (u64 (num_insert * vsize c)) (u64 (size c + num_insert))
                    (STDCARR_INS_SHIFT_RIGHT c it);
  if decide (ret = STDESUCCESS) then c ← write_elems c it vals; Some (STDESUCCESS, c, it) else Some (ret, c, it).

Definition stdcarr_insert_rep (alloc : bool) (c : stdcarr) (it : Z) (val : list B) (num_times : Z)
    : option (stdcode * stdcarr * Z) :=
  stdcarr_insert_seq_n alloc c it (repeat val (Z.to_nat num_times)).

Definition stdcarr_push_front (alloc : bool) (c : stdcarr) (val : list B) : option (stdcode * stdcarr * Z) :=
  stdcarr_insert alloc c (stdcarr_begin c) val.
Definition stdcarr_push_front_n (alloc : bool) (c : stdcarr) (vals : list B) (n : Z) : option (stdcode * stdcarr * Z) :=
  stdcarr_insert_n alloc c (stdcarr_begin c) vals n.
Definition stdcarr_push_back (alloc : bool) (c : stdcarr) (val : list B) : option (stdcode * stdcarr * Z) :=
  stdcarr_insert alloc c (stdcarr_end c) val.
Definition stdcarr_push_back_n (alloc : bool) (c : stdcarr) (vals : list B) (n : Z) : option (stdcode * stdcarr * Z) :=
  stdcarr_insert_n alloc c (stdcarr_end c) vals n.
Definition stdcarr_push_back_rep (alloc : bool) (c : stdcarr) (val : list B) (n : Z) : option (stdcode * stdcarr * Z) :=
  stdcarr_insert_rep alloc c (stdcarr_end c) val n.

(** ** Erasure *)
Definition STDCARR_ERS_SHIFT_RIGHT (c : stdcarr) (ptr n : Z) : bool :=
  if begin c <=? ptr then ptr - begin c <? u64 (Z.shiftr (u64 (size c - n)) 1 * vsize c)
  else u64 (Z.shiftr (u64 (size c + n)) 1 * vsize c) <=? end_ c - ptr.

Definition stdcarr_erase_n (alloc : bool) (c : stdcarr) (it num_erase : Z) : option (stdcarr * Z) :=
  let delta := u64 (num_erase * vsize c) in
  let shift_right := STDCARR_ERS_SHIFT_RIGHT c it num_erase in
  let it := if shift_right then it else stdcarr_low_forward it delta (endbase c) in
  stdcarr_low_erase_shift alloc c it delta (u64 (size c - num_erase)) shift_right.

Definition stdcarr_erase (alloc : bool) (c : stdcarr) (it : Z) : option (stdcarr * Z) := stdcarr_erase_n alloc c it 1.

Definition stdcarr_erase_seq (alloc : bool) (c : stdcarr) (b e : Z) : option (stdcarr * Z) :=
  stdcarr_erase_n alloc c b (u64 (stdcarr_it_cmp c e b)).

Definition stdcarr_pop_front_n (alloc : bool) (c : stdcarr) (num_pop : Z) : option stdcarr :=
  '(c, _) ← stdcarr_low_erase_shift alloc c (begin c) (u64 (num_pop * vsize c)) (u64 (size c - num_pop)) true; Some c.
Definition stdcarr_pop_front (alloc : bool) (c : stdcarr) : option stdcarr := stdcarr_pop_front_n alloc c 1.
Definition stdcarr_pop_back_n (alloc : bool) (c : stdcarr) (num_pop : Z) : option stdcarr :=
  '(c, _) ← stdcarr_low_erase_shift alloc c (end_ c) (u64 (num_pop * vsize c)) (u64 (size c - num_pop)) false; Some c.
Definition stdcarr_pop_back (alloc : bool) (c : stdcarr) : option stdcarr := stdcarr_pop_back_n alloc c 1.
End carr.
Arguments stdcarr : clear implicits.
