(* ===== verification/StdCarrProof.v ===== *)
(** * StdCarrProof: the circular array implements a sequence

    [legal c l]: the array [c] is well formed and its bytes, read from [begin]
    around the end of the block, are [l].  Moving bytes inside a block is
    described cell by cell ([ld]); each of the four shift functions opens or
    closes a gap without leaving the block and without an overlapping memcpy. *)
From stdpp Require Import base list numbers option.
From Stdlib Require Import ZArith Lia.
From S2P Require Import Prelude StdCarr.
#[local] Open Scope Z_scope.

Section proof.
Context {B : Type}.
Variable junk : nat -> B.
Implicit Types (m l : list B) (c : stdcarr B).

(** ** Cells of a block *)
Definition ld (m : list B) (i : Z) : option B := if 0 <=? i then m !! Z.to_nat i else None.

Notation len m := (Z.of_nat (length m)).

Lemma ld_Some m i : 0 <= i < len m -> is_Some (ld m i).
Proof. intros Hi. unfold ld. rewrite (proj2 (Z.leb_le _ _)) by lia. apply lookup_lt_is_Some. lia. Qed.

Lemma slice_lookup m src n i :
  0 <= src -> 0 <= i < n -> slice m src n !! Z.to_nat i = ld m (src + i).
Proof.
  intros Hs Hi. unfold slice, ld. rewrite (proj2 (Z.leb_le _ _)) by lia.
  rewrite lookup_take_lt by lia. rewrite lookup_drop. f_equal. lia.
Qed.

Lemma slice_length m src n : 0 <= src -> 0 <= n -> src + n <= len m -> len (slice m src n) = n.
Proof. intros. unfold slice. rewrite length_take, length_drop. lia. Qed.

Lemma splice_length m dst l : 0 <= dst -> dst + len l <= len m -> length (splice m dst l) = length m.
Proof. intros. unfold splice. rewrite !length_app, length_take, length_drop. lia. Qed.

Lemma splice_ld m dst l i :
  0 <= dst -> dst + len l <= len m ->
  ld (splice m dst l) i = if (dst <=? i) && (i <? dst + len l) then l !! Z.to_nat (i - dst) else ld m i.
Proof.
  intros Hd Hl. unfold ld, splice. destruct (Z.leb_spec 0 i) as [Hi|Hi].
  2:{ destruct (Z.leb_spec dst i); [lia|done]. }
  destruct (Z.leb_spec dst i) as [H1|H1]; cbn [andb].
  - rewrite lookup_app_r by (rewrite length_take; lia). rewrite length_take.
    destruct (Z.ltb_spec i (dst + len l)) as [H2|H2].
    + rewrite lookup_app_l by lia. f_equal. lia.
    + rewrite lookup_app_r by lia. rewrite lookup_drop. f_equal. lia.
  - rewrite lookup_app_l by (rewrite length_take; lia). rewrite lookup_take_lt by lia. done.
Qed.

Lemma load_ok m src n : 0 <= src -> 0 <= n -> src + n <= len m -> load m src n = Some (slice m src n).
Proof.
  intros H1 H2 H3. unfold load, in_block. destruct (Z.eqb_spec n 0) as [->|]; [done|].
  rewrite !(proj2 (Z.leb_le _ _)) by lia. done.
Qed.

Lemma store_ok m dst l :
  l = [] \/ (0 <= dst /\ dst + len l <= len m) ->
  exists m', store m dst l = Some m' /\ length m' = length m /\
    forall i, ld m' i = if (dst <=? i) && (i <? dst + len l) then l !! Z.to_nat (i - dst) else ld m i.
Proof.
  intros H. unfold store, in_block. case_bool_decide as Hl.
  - exists m. subst l. cbn. split_and!; try done. intros i. rewrite Z.add_0_r.
    destruct (Z.leb_spec dst i), (Z.ltb_spec i dst); (done || lia).
  - destruct H as [|[Hd Hb]]; [done|]. rewrite !(proj2 (Z.leb_le _ _)) by lia. eexists. split; [done|].
    split; [by apply splice_length|]. intros i. by apply splice_ld.
Qed.

Definition moved (m : list B) (dst src n : Z) (m' : list B) : Prop :=
  length m' = length m /\
  forall i, ld m' i = if (dst <=? i) && (i <? dst + n) then ld m (src + (i - dst)) else ld m i.

Lemma memmove_ok m dst src n :
  0 <= n -> n = 0 \/ (0 <= dst /\ dst + n <= len m /\ 0 <= src /\ src + n <= len m) ->
  exists m', memmove m dst src n = Some m' /\ moved m dst src n m'.
Proof.
  intros Hn H. unfold memmove, moved. destruct (Z.eq_dec n 0) as [->|Hn0].
  - exists m. split; [done|]. split; [done|]. intros i. rewrite Z.add_0_r.
    destruct (Z.leb_spec dst i), (Z.ltb_spec i dst); (done || lia).
  - destruct H as [|(Hd & Hd2 & Hs & Hs2)]; [done|]. rewrite load_ok by lia. cbn [mbind option_bind].
    pose proof (slice_length m src n Hs Hn Hs2) as Hl.
    destruct (store_ok m dst (slice m src n)) as (m' & Hm & Hlen & Hld); [right; lia|].
    exists m'. split; [done|]. split; [done|]. intros i. rewrite Hld, Hl.
    destruct (Z.leb_spec dst i), (Z.ltb_spec i (dst + n)); cbn [andb]; try done. apply slice_lookup; lia.
Qed.

Lemma memcpy_ok m dst src n :
  0 <= n ->
  n = 0 \/ (0 <= dst /\ dst + n <= len m /\ 0 <= src /\ src + n <= len m /\ (dst + n <= src \/ src + n <= dst)) ->
  exists m', memcpy m dst src n = Some m' /\ moved m dst src n m'.
Proof.
  intros Hn H. unfold memcpy. replace ((n =? 0) || (dst + n <=? src) || (src + n <=? dst)) with true.
  - apply memmove_ok; lia.
  - symmetry. destruct (Z.eqb_spec n 0), (Z.leb_spec (dst + n) src), (Z.leb_spec (src + n) dst); (done || lia).
Qed.

(** ** Opening and closing gaps *)

(** [p] lies at most twice around the block. *)
Definition wrap (L p : Z) : Z := if p <? L then p else p - L.

Lemma wrap_range L p : 0 <= p < 2 * L -> 0 <= wrap L p < L.
Proof. unfold wrap. destruct (Z.ltb_spec p L); lia. Qed.

Lemma forward_wrap p n L : stdcarr_low_forward p n L = wrap L (p + n).
Proof. done. Qed.

(** From [m] to [m'], [n] bytes move from circular offset [x] to [y]. *)
Definition shifted (m m' : list B) (x y n : Z) : Prop :=
  forall k, 0 <= k < n -> ld m' (wrap (len m) (y + k)) = ld m (wrap (len m) (x + k)).

Ltac step_move :=
  match goal with
  | |- context [memmove ?m ?d ?s ?n] =>
      let m' := fresh "m" in let H := fresh "Hmv" in
      destruct (memmove_ok m d s n) as (m' & -> & H); [lia|lia|]; pose proof (proj1 H); cbn [mbind option_bind]
  | |- context [memcpy ?m ?d ?s ?n] =>
      let m' := fresh "m" in let H := fresh "Hmv" in
      destruct (memcpy_ok m d s n) as (m' & -> & H); [lia|lia|]; pose proof (proj1 H); cbn [mbind option_bind]
  end.

Ltac cases :=
  repeat match goal with
  | |- context [?a <=? ?b] => destruct (Z.leb_spec a b); try lia; cbn [andb]
  | |- context [?a <? ?b] => destruct (Z.ltb_spec a b); try lia; cbn [andb]
  end.

Ltac pointwise :=
  repeat match goal with H : moved _ _ _ _ _ |- _ => destruct H as [? ?] end;
  repeat match goal with H : forall i, ld _ i = _ |- _ => rewrite !H; clear H end;
  cases; try done; f_equal; lia.

Ltac finish_shift :=
  eexists; split; [reflexivity|];
  repeat match goal with H : moved _ _ _ _ _ |- _ => let a := fresh "Hl" in let b := fresh "Hv" in destruct H as [a b] end;
  split; [congruence|];
  unfold shifted, wrap; split; intros k Hk;
  repeat match goal with H : forall i, ld ?m i = _ |- _ => rewrite !H; clear H end;
  cases; try done; f_equal; lia.

(** A block of [L] cells of which [n] are in use from [begin] on. *)
Record shape c (n : Z) : Prop := {
  sh_base : exists m, base c = Some m;
  sh_begin : 0 <= begin c < endbase c;
  sh_n : 0 <= n < endbase c;
  sh_end : end_ c = wrap (endbase c) (begin c + n) }.

Lemma wrap_cases L p : (p < L /\ wrap L p = p) \/ (L <= p /\ wrap L p = p - L).
Proof. unfold wrap. destruct (Z.ltb_spec p L); lia. Qed.

(** The offsets of [begin], [end_] and [it] in the cases of the layout. *)
Ltac open_shape c n r :=
  let Hit := fresh "Hit" in let He' := fresh "He'" in
  unfold endbase in *;
  pose proof (wrap_cases (len (block c)) (begin c + n)) as He'; pose proof (wrap_cases (len (block c)) (begin c + r)) as Hit;
  set (it := wrap (len (block c)) (begin c + r)) in *;
  match goal with H : end_ c = _ |- _ => rewrite <- H in He'; clear H end;
  set (e := end_ c) in *; set (m := block c) in *; set (b := begin c) in *; clearbody m b e it;
  destruct He' as [[? ?]|[? ?]], Hit as [[? ?]|[? ?]]; try lia.

Lemma insert_right_ok c n r delta ns :
  shape c n -> 0 <= r <= n -> 0 < delta -> n + delta < endbase c ->
  exists m', stdcarr_low_insert_shift_right c (wrap (endbase c) (begin c + r)) delta ns =
      Some (with_end (wrap (endbase c) (end_ c + delta)) ns (with_block m' c)) /\
    length m' = length (block c) /\
    shifted (block c) m' (begin c) (begin c) r /\
    shifted (block c) m' (begin c + r) (begin c + r + delta) (n - r).
Proof.
  intros [_ Hb Hn He] Hr Hd Hfit. unfold stdcarr_low_insert_shift_right. rewrite forward_wrap.
  open_shape c n r; cases; repeat step_move; finish_shift.
Qed.

Lemma insert_left_ok c n r delta ns :
  shape c n -> 0 <= r <= n -> 0 < delta -> n + delta < endbase c ->
  exists m', stdcarr_low_insert_shift_left c (wrap (endbase c) (begin c + r)) delta ns =
      Some (with_begin (stdcarr_low_backward (begin c) delta (endbase c)) ns (with_block m' c)) /\
    length m' = length (block c) /\
    shifted (block c) m' (begin c) (stdcarr_low_backward (begin c) delta (endbase c)) r /\
    shifted (block c) m' (begin c + r) (begin c + r) (n - r).
Proof.
  intros [_ Hb Hn He] Hr Hd Hfit. unfold stdcarr_low_insert_shift_left.
  set (b' := stdcarr_low_backward _ _ _). assert (Hb' : (delta <= begin c /\ b' = begin c - delta) \/
    (begin c < delta /\ b' = endbase c + begin c - delta)).
  { subst b'. unfold stdcarr_low_backward. destruct (Z.leb_spec 0 (begin c - delta)); lia. }
  clearbody b'. open_shape c n r; destruct Hb' as [[? ?]|[? ?]]; cases; repeat step_move; finish_shift.
Qed.

Lemma erase_left_ok c n q delta ns :
  shape c n -> 0 < delta <= q -> q <= n ->
  exists m', stdcarr_low_erase_shift_left c (wrap (endbase c) (begin c + q)) delta ns =
      Some (with_end (stdcarr_low_backward (end_ c) delta (endbase c)) ns (with_block m' c)) /\
    length m' = length (block c) /\
    shifted (block c) m' (begin c) (begin c) (q - delta) /\
    shifted (block c) m' (begin c + q) (begin c + q - delta) (n - q).
Proof.
  intros [_ Hb Hn He] Hd Hq. unfold stdcarr_low_erase_shift_left.
  set (e' := stdcarr_low_backward _ _ _). clearbody e'.
  open_shape c n q; cases; repeat step_move; finish_shift.
Qed.

Lemma erase_right_ok c n r delta ns :
  shape c n -> 0 <= r -> 0 < delta -> r + delta <= n ->
  exists m', stdcarr_low_erase_shift_right c (wrap (endbase c) (begin c + r)) delta ns =
      Some (with_begin (wrap (endbase c) (begin c + delta)) ns (with_block m' c)) /\
    length m' = length (block c) /\
    shifted (block c) m' (begin c) (begin c + delta) r /\
    shifted (block c) m' (begin c + r + delta) (begin c + r + delta) (n - r - delta).
Proof.
  intros [_ Hb Hn He] Hr Hd Hfit. unfold stdcarr_low_erase_shift_right. rewrite forward_wrap.
  open_shape c n r; cases; repeat step_move; finish_shift.
Qed.

(** ** Well-formed arrays *)

(** The offset of the byte of rank [r]. *)
Definition at_ c (r : Z) : Z := wrap (endbase c) (begin c + r).

Definition layout m (b : Z) l : Prop := forall k, 0 <= k < len l -> ld m (wrap (len m) (b + k)) = l !! Z.to_nat k.

Record legal c l : Prop := {
  lg_vsize : 0 < vsize c;
  lg_size : 0 <= size c /\ len l = size c * vsize c;
  lg_block : endbase c = cap c * vsize c;
  lg_align : (vsize c | begin c);
  lg_layout : layout (block c) (begin c) l;
  lg_shape : (base c = None /\ begin c = 0 /\ end_ c = 0 /\ size c = 0 /\ cap c = 0) \/ (shape c (len l) /\ size c < cap c) }.

(** The array after its bytes were moved within the block. *)
Definition reshape c m (b e n : Z) : stdcarr B := mk_carr (Some m) b e (cap c) n (vsize c) (opts c).

Lemma with_end_reshape c m e n : (exists m0, base c = Some m0) -> with_end e n (with_block m c) = reshape c m (begin c) e n.
Proof. intros [m0 H]. unfold with_end, with_block, reshape. cbn. by rewrite H. Qed.

Lemma with_begin_reshape c m b n : (exists m0, base c = Some m0) -> with_begin b n (with_block m c) = reshape c m b (end_ c) n.
Proof. intros [m0 H]. unfold with_begin, with_block, reshape. cbn. by rewrite H. Qed.

Lemma with_block_reshape c m : (exists m0, base c = Some m0) -> with_block m c = reshape c m (begin c) (end_ c) (size c).
Proof. intros [m0 H]. unfold with_block, reshape. by rewrite H. Qed.

Lemma at_end c l : legal c l -> end_ c = at_ c (len l).
Proof.
  intros [_ [_ Hl] _ _ _ [(Hb & Hbg & He & Hs & _)|[[] _]]]; [|done].
  unfold at_, endbase, block. rewrite Hb, Hbg, He, Hl, Hs. done.
Qed.

Lemma at_begin c : 0 <= begin c < endbase c -> at_ c 0 = begin c.
Proof. intros H. unfold at_, wrap. rewrite Z.add_0_r. destruct (Z.ltb_spec (begin c) (endbase c)); lia. Qed.

(** Copying a range of ranks to another block. *)
Lemma copy_to_buf_ok buf dst c n r1 r2 :
  shape c n -> 0 <= r1 <= r2 -> r2 <= n -> 0 <= dst -> dst + (r2 - r1) <= len buf ->
  exists buf', stdcarr_low_copy_to_buf buf dst c (at_ c r1) (at_ c r2) = Some (buf', dst + (r2 - r1)) /\
    length buf' = length buf /\
    forall i, ld buf' i = if (dst <=? i) && (i <? dst + (r2 - r1))
                          then ld (block c) (wrap (endbase c) (begin c + r1 + (i - dst))) else ld buf i.
Proof.
  intros [_ Hb Hn _] Hr Hr2 Hd Hfit. unfold stdcarr_low_copy_to_buf, at_, endbase in *.
  pose proof (wrap_cases (len (block c)) (begin c + r1)) as H1. pose proof (wrap_cases (len (block c)) (begin c + r2)) as H2.
  set (p1 := wrap _ (begin c + r1)) in *. set (p2 := wrap _ (begin c + r2)) in *.
  set (m := block c) in *. set (b := begin c) in *. clearbody m b p1 p2.
  destruct (Z.leb_spec p1 p2) as [Hle|Hgt].
  - rewrite load_ok by lia. cbn [mbind option_bind]. pose proof (slice_length m p1 (p2 - p1) ltac:(lia) ltac:(lia) ltac:(lia)) as Hl.
    destruct (store_ok buf dst (slice m p1 (p2 - p1))) as (buf' & -> & Hlen & Hv); [right; lia|]. cbn [mbind option_bind].
    exists buf'. split; [f_equal; f_equal; lia|]. split; [done|]. intros i. rewrite Hv, Hl.
    replace (p2 - p1) with (r2 - r1) by lia. destruct (Z.leb_spec dst i), (Z.ltb_spec i (dst + (r2 - r1))); cbn [andb]; try done.
    rewrite slice_lookup by lia. f_equal. unfold wrap. destruct (Z.ltb_spec (b + r1 + (i - dst)) (len m)); lia.
  - rewrite (load_ok m p1 (len m - p1)) by lia. cbn [mbind option_bind].
    pose proof (slice_length m p1 (len m - p1) ltac:(lia) ltac:(lia) ltac:(lia)) as Hl.
    destruct (store_ok buf dst (slice m p1 (len m - p1))) as (buf1 & -> & Hlen & Hv); [right; lia|]. cbn [mbind option_bind].
    rewrite (load_ok m 0 p2) by lia. cbn [mbind option_bind]. pose proof (slice_length m 0 p2 ltac:(lia) ltac:(lia) ltac:(lia)) as Hl2.
    destruct (store_ok buf1 (dst + (len m - p1)) (slice m 0 p2)) as (buf' & -> & Hlen2 & Hv2); [right; lia|]. cbn [mbind option_bind].
    exists buf'. split; [f_equal; f_equal; lia|]. split; [congruence|]. intros i. rewrite Hv2, Hv, Hl, Hl2.
    unfold wrap. destruct (Z.ltb_spec (b + r1 + (i - dst)) (len m)), (Z.leb_spec dst i), (Z.ltb_spec i (dst + (r2 - r1)));
      cases; cbn [andb]; try done; rewrite slice_lookup by lia; f_equal; lia.
Qed.

Lemma malloc_length n : 0 <= n -> len (malloc junk n) = n.
Proof. intros. unfold malloc. rewrite length_fmap, length_seq. lia. Qed.

(** ** Insertion *)

(** A gap of [delta] bytes at rank [r], which lies at [it]. *)
Record gap c l (r delta it : Z) : Prop := {
  gp_shape : shape c (len l + delta);
  gp_it : it = at_ c r;
  gp_low : forall k, 0 <= k < r -> ld (block c) (at_ c k) = l !! Z.to_nat k;
  gp_high : forall k, r <= k < len l -> ld (block c) (at_ c (k + delta)) = l !! Z.to_nat k }.

(** What an operation keeps of the array besides its elements. *)
Definition sized c (vs op n : Z) : Prop :=
  vsize c = vs /\ opts c = op /\ size c = n /\ endbase c = cap c * vs /\ n < cap c /\ (vs | begin c).

Lemma layout_low m b l k L : layout m b l -> L = len m -> 0 <= k < len l -> ld m (wrap L (b + k)) = l !! Z.to_nat k.
Proof. intros H -> Hk. by apply H. Qed.

Lemma shifted_layout m m' x y n b l o :
  shifted m m' x y n -> layout m b l -> x = b + o -> 0 <= o -> o + n <= len l ->
  forall k, 0 <= k < n -> ld m' (wrap (len m) (y + k)) = l !! Z.to_nat (o + k).
Proof. intros Hs Hl -> Ho Hn k Hk. rewrite (Hs k Hk). replace (b + o + k) with (b + (o + k)) by lia. apply Hl. lia. Qed.

Lemma insert_right_gap c l r n (ns := size c + n) :
  legal c l -> 0 <= r <= len l -> 0 < n -> ns < cap c ->
  exists c', stdcarr_low_insert_shift_right c (at_ c r) (n * vsize c) ns = Some c' /\
    gap c' l r (n * vsize c) (at_ c r) /\ sized c' (vsize c) (opts c) ns.
Proof.
  intros [Hv [Hs Hl] Hbk Hal Hly Hsh] Hr Hn Hfit. destruct Hsh as [(_ & _ & _ & ? & ?)|[Hsh Hcap]]; [lia|].
  assert (Hd : 0 < n * vsize c) by nia. assert (Hroom : len l + n * vsize c < endbase c) by (rewrite Hl, Hbk; nia).
  destruct (insert_right_ok c (len l) r (n * vsize c) ns Hsh Hr Hd Hroom) as (m' & Hrun & Hlen & Hlow & Hhigh).
  eexists. split; [exact Hrun|]. destruct Hsh as [Hb0 Hb Hn0 He]. rewrite (with_end_reshape _ _ _ _ Hb0).
  assert (Heb : len m' = endbase c) by (unfold endbase; congruence). unfold sized, at_, endbase in *. cbn. rewrite Heb. split.
  - split; unfold at_, endbase; cbn; rewrite ?Heb.
    + split; unfold endbase; cbn; rewrite ?Heb; [by eexists|done|lia|]. rewrite He. unfold wrap. cases; lia.
    + done.
    + intros k Hk. apply (shifted_layout (block c) m' (begin c) (begin c) r (begin c) l 0 Hlow Hly); lia.
    + intros k Hk. replace (begin c + (k + n * vsize c)) with (begin c + r + n * vsize c + (k - r)) by lia.
      replace k with (r + (k - r)) at 2 by lia.
      apply (shifted_layout (block c) m' (begin c + r) _ (len l - r) (begin c) l r Hhigh Hly); lia.
  - by split_and!.
Qed.

Lemma backward_cases p n L : (n <= p /\ stdcarr_low_backward p n L = p - n) \/ (p < n /\ stdcarr_low_backward p n L = L + p - n).
Proof. unfold stdcarr_low_backward. destruct (Z.leb_spec 0 (p - n)); lia. Qed.

Lemma insert_left_gap c l r n (ns := size c + n) :
  legal c l -> 0 <= r <= len l -> 0 < n -> ns < cap c ->
  exists c', stdcarr_low_insert_shift_left c (at_ c r) (n * vsize c) ns = Some c' /\
    gap c' l r (n * vsize c) (stdcarr_low_backward (at_ c r) (n * vsize c) (endbase c')) /\ sized c' (vsize c) (opts c) ns.
Proof.
  intros [Hv [Hs Hl] Hbk Hal Hly Hsh] Hr Hn Hfit. destruct Hsh as [(_ & _ & _ & ? & ?)|[Hsh Hcap]]; [lia|].
  assert (Hd : 0 < n * vsize c) by nia. assert (Hroom : len l + n * vsize c < endbase c) by (rewrite Hl, Hbk; nia).
  destruct (insert_left_ok c (len l) r (n * vsize c) ns Hsh Hr Hd Hroom) as (m' & Hrun & Hlen & Hlow & Hhigh).
  eexists. split; [exact Hrun|]. destruct Hsh as [Hb0 Hb Hn0 He]. rewrite (with_begin_reshape _ _ _ _ Hb0).
  assert (Heb : len m' = endbase c) by (unfold endbase; congruence). unfold sized, at_, endbase in *. cbn. rewrite Heb.
  pose proof (backward_cases (begin c) (n * vsize c) (len (block c))) as Hc.
  set (b' := stdcarr_low_backward (begin c) _ _) in *. split.
  - split; unfold at_, endbase; cbn; rewrite ?Heb.
    + split; unfold endbase; cbn; rewrite ?Heb; [by eexists|lia|lia|]. rewrite He. unfold wrap. cases; lia.
    + pose proof (wrap_cases (len (block c)) (begin c + r)) as H1. pose proof (wrap_cases (len (block c)) (b' + r)) as H2.
      pose proof (backward_cases (wrap (len (block c)) (begin c + r)) (n * vsize c) (len (block c))) as H3. lia.
    + intros k Hk. apply (shifted_layout (block c) m' (begin c) b' r (begin c) l 0 Hlow Hly); lia.
    + intros k Hk. replace k with (r + (k - r)) at 2 by lia.
      rewrite <- (shifted_layout (block c) m' (begin c + r) _ (len l - r) (begin c) l r Hhigh Hly (eq_refl _)) by lia.
      f_equal. unfold wrap. cases; lia.
  - split_and!; try done. clear -Hal Hbk Hc. destruct Hc as [[_ ->]|[_ ->]].
    + apply Z.divide_sub_r; [done|]. apply Z.divide_factor_r.
    + apply Z.divide_sub_r; [|apply Z.divide_factor_r]. apply Z.divide_add_r; [rewrite Hbk; apply Z.divide_factor_r|done].
Qed.

(** Room for the sizes the functions compute. *)
Definition fits c (n : Z) : Prop := (2 * (size c + n) + STDCARR_MIN_AUTO_ALLOC) * vsize c < 2 ^ 64.

Lemma new_capacity_ok ns vs :
  0 <= ns -> 0 < vs -> (2 * ns + STDCARR_MIN_AUTO_ALLOC) * vs < 2 ^ 64 ->
  2 * ns <= new_capacity ns /\ STDCARR_MIN_AUTO_ALLOC <= new_capacity ns /\
  u64 (new_capacity ns * vs) = new_capacity ns * vs /\ ns < new_capacity ns.
Proof.
  unfold new_capacity, STDCARR_MIN_AUTO_ALLOC. intros Hn Hv Hf. rewrite Z.shiftl_mul_pow2 by lia.
  assert (H1 : 2 * ns + 16 <= (2 * ns + 16) * vs) by nia. change (2 ^ 1) with 2.
  rewrite (u64_small (ns * 2)) by lia. rewrite u64_small; [lia|]. split; [nia|].
  eapply Z.le_lt_trans; [|exact Hf]. apply Z.mul_le_mono_nonneg_r; lia.
Qed.

Lemma grow_gap c l r n (ns := size c + n) :
  legal c l -> 0 <= r <= len l -> 0 < n -> fits c n ->
  exists c', (match base c with
      | Some _ => '(mem, it') ← stdcarr_low_copy_to_buf (malloc junk (u64 (new_capacity ns * vsize c))) 0 c (begin c) (at_ c r);
                  '(mem, _) ← stdcarr_low_copy_to_buf mem (it' + n * vsize c) c (at_ c r) (end_ c);
                  Some (STDESUCCESS, realloc c mem (new_capacity ns) ns, it')
      | None => Some (STDESUCCESS, realloc c (malloc junk (u64 (new_capacity ns * vsize c))) (new_capacity ns) ns, 0)
      end) = Some (STDESUCCESS, c', r) /\
    gap c' l r (n * vsize c) r /\ sized c' (vsize c) (opts c) ns.
Proof.
  intros Hlg Hr Hn Hf. pose proof (at_end c l Hlg) as Hae. destruct Hlg as [Hv [Hs Hl] Hbk Hal Hly Hsh].
  destruct (new_capacity_ok ns (vsize c)) as (Hc1 & Hc2 & -> & Hc3); [lia|done|exact Hf|].
  set (nc := new_capacity ns) in *. clearbody nc.
  assert (Hm : len (malloc junk (nc * vsize c)) = nc * vsize c) by (apply malloc_length; nia).
  assert (Hroom : len l + n * vsize c < nc * vsize c) by (rewrite Hl; subst ns; nia).
  assert (Hsized : forall m, len m = nc * vsize c -> sized (realloc c m nc ns) (vsize c) (opts c) ns).
  { intros m Hml. unfold sized, endbase. cbn. split_and!; try done. by exists 0. }
  assert (Hat : forall m k, len m = nc * vsize c -> 0 <= k < nc * vsize c -> at_ (realloc c m nc ns) k = k).
  { intros m k Hml Hk. unfold at_, wrap, endbase. change (block (realloc c m nc ns)) with m. change (begin (realloc c m nc ns)) with 0.
    rewrite Hml. destruct (Z.ltb_spec (0 + k) (nc * vsize c)); lia. }
  assert (Hshape : forall m, len m = nc * vsize c -> shape (realloc c m nc ns) (len l + n * vsize c)).
  { intros m Hml. split; unfold endbase; cbn; rewrite ?Hml; [by eexists|lia|lia|]. rewrite Hl. unfold wrap. subst ns. cases; lia. }
  destruct Hsh as [(Hb & Hb0 & He0 & Hs0 & Hcap)|[Hsh Hcap]].
  - rewrite Hb. assert (Hl0 : l = []) by (destruct l; [done|cbn [length] in Hl; lia]). subst l. cbn [length] in *.
    assert (r = 0) by lia. subst r. eexists. split; [done|]. split; [|by apply Hsized]. split; try done; [by apply Hshape| | |].
    + rewrite Hat; lia.
    + intros k Hk. lia.
    + intros k Hk. cbn in Hk. lia.
  - pose proof Hsh as [[m0 Hm0] Hbg Hn0 He]. rewrite Hm0.
    destruct (copy_to_buf_ok (malloc junk (nc * vsize c)) 0 c (len l) 0 r) as (m1 & Hcp & Hl1 & Hv1); [done|lia|lia|lia|lia|].
    rewrite (at_begin c Hbg) in Hcp. rewrite Hcp. cbn [mbind option_bind]. rewrite Hae.
    destruct (copy_to_buf_ok m1 (0 + (r - 0) + n * vsize c) c (len l) r (len l)) as (m2 & -> & Hl2 & Hv2);
      [done|lia|lia|nia|lia|].
    cbn [mbind option_bind]. exists (realloc c m2 nc ns). replace (0 + (r - 0)) with r by lia. split; [done|].
    assert (Hml : len m2 = nc * vsize c) by lia. split; [|by apply Hsized]. split; [by apply Hshape| | |].
    + rewrite Hat; lia.
    + intros k Hk. rewrite Hat by lia. change (block (realloc c m2 nc ns)) with m2. rewrite Hv2, Hv1. cases; try nia.
      replace (begin c + 0 + (k - 0)) with (begin c + k) by lia. apply Hly. lia.
    + intros k Hk. rewrite Hat by lia. change (block (realloc c m2 nc ns)) with m2. rewrite Hv2. cases.
      replace (begin c + r + (k + n * vsize c - (0 + (r - 0) + n * vsize c))) with (begin c + k) by lia. apply Hly. lia.
Qed.

Lemma high_capacity_spec c l ns : legal c l -> 0 < ns -> (ns <=? stdcarr_high_capacity c) = (ns <? cap c).
Proof.
  intros [Hv [Hs Hl] Hbk _ _ Hsh] Hn. unfold stdcarr_high_capacity. destruct (Z.eqb_spec (cap c) 0) as [->|].
  - destruct (Z.leb_spec ns 0), (Z.ltb_spec ns 0); (done || lia).
  - destruct (Z.leb_spec ns (cap c - 1)), (Z.ltb_spec ns (cap c)); (done || lia).
Qed.

(** The error an insertion that needs a larger block ends with. *)
Definition grow_error (alloc : bool) c (e : stdcode) : Prop :=
  (e = STDENOMEM /\ alloc = false /\ Z.land (opts c) STDCARR_OPTS_NO_AUTO_GROW = 0) \/
  (e = STDEACCES /\ Z.land (opts c) STDCARR_OPTS_NO_AUTO_GROW <> 0).

Lemma low_insert_shift_ok alloc c l r n sr :
  legal c l -> 0 <= r <= len l -> 0 < n -> fits c n ->
  (exists c' it, stdcarr_low_insert_shift junk alloc c (at_ c r) (n * vsize c) (size c + n) sr = Some (STDESUCCESS, c', it) /\
     gap c' l r (n * vsize c) it /\ sized c' (vsize c) (opts c) (size c + n)) \/
  (exists e, stdcarr_low_insert_shift junk alloc c (at_ c r) (n * vsize c) (size c + n) sr = Some (e, c, at_ c r) /\
     grow_error alloc c e /\ cap c <= size c + n).
Proof.
  intros Hlg Hr Hn Hf. unfold stdcarr_low_insert_shift. pose proof (lg_vsize c l Hlg). pose proof (lg_size c l Hlg).
  destruct (Z.eqb_spec (n * vsize c) 0); [nia|]. rewrite (high_capacity_spec c l) by (done || lia).
  destruct (Z.ltb_spec (size c + n) (cap c)) as [Hfit|Hgrow].
  - left. destruct sr.
    + destruct (insert_right_gap c l r n Hlg Hr Hn Hfit) as (c' & -> & Hg). cbn [mbind option_bind]. by exists c', (at_ c r).
    + destruct (insert_left_gap c l r n Hlg Hr Hn Hfit) as (c' & -> & Hg). cbn [mbind option_bind]. by eexists c', _.
  - destruct (Z.eqb_spec (Z.land (opts c) STDCARR_OPTS_NO_AUTO_GROW) 0) as [Ho|Ho]; [|right; eexists; split; [done|]; split; [by right|done]].
    destruct alloc; [|right; eexists; split; [done|]; split; [by left|done]].
    left. destruct (grow_gap c l r n Hlg Hr Hn Hf) as (c' & H1 & H2). exists c', r. split; [|done].
    exact H1.
Qed.

(** [v] is written at ranks [r, r + len v), the other cells stay. *)
Definition filled c (r : Z) v c' : Prop :=
  exists m', c' = reshape c m' (begin c) (end_ c) (size c) /\ length m' = length (block c) /\
    (forall k, 0 <= k < len v -> ld m' (at_ c (r + k)) = v !! Z.to_nat k) /\
    (forall k, 0 <= k < endbase c -> k < r \/ r + len v <= k -> ld m' (at_ c k) = ld (block c) (at_ c k)).

Lemma fill_legal c l r v it c' vs op n :
  gap c l r (len v) it -> sized c vs op n -> 0 < vs -> 0 <= n -> len l + len v = n * vs -> 0 <= r <= len l ->
  filled c r v c' -> legal c' (take (Z.to_nat r) l ++ v ++ drop (Z.to_nat r) l) /\ vsize c' = vs /\ opts c' = op.
Proof.
  intros [Hsh -> Hlow Hhigh] (Hvs & Hop & Hsz & Heb & Hcap & Hal) Hv Hn Hlen Hr (m' & -> & Hlm & Hnew & Hold).
  pose proof Hsh as [Hb0 Hb Hnn He].
  assert (Hll : len (take (Z.to_nat r) l ++ v ++ drop (Z.to_nat r) l) = len l + len v)
    by (rewrite !length_app, length_take, length_drop; lia).
  assert (Hem : len m' = endbase c) by (unfold endbase; congruence).
  split; [|done]. split; unfold endbase; cbn; rewrite ?Hvs, ?Hsz, ?Hll, ?Hem; try done; try lia.
  - intros k Hk. rewrite Hll in Hk. rewrite Hem. fold (at_ c k).
    destruct (Z.lt_ge_cases k r) as [H1|H1]; [|destruct (Z.lt_ge_cases k (r + len v)) as [H2|H2]].
    + rewrite Hold by lia. rewrite Hlow by lia. rewrite lookup_app_l by (rewrite length_take; lia). by rewrite lookup_take_lt by lia.
    + replace k with (r + (k - r)) at 1 by lia. rewrite Hnew by lia. rewrite lookup_app_r by (rewrite length_take; lia).
      rewrite length_take, lookup_app_l by lia. f_equal. lia.
    + rewrite Hold by lia. replace k with (k - len v + len v) at 1 by lia. rewrite Hhigh by lia.
      rewrite lookup_app_r by (rewrite length_take; lia). rewrite length_take, lookup_app_r by lia. rewrite lookup_drop. f_equal. lia.
  - right. split; [|lia]. split; unfold endbase; cbn; rewrite ?Hem; [by eexists|done|lia|done].
Qed.

Lemma write_wrapped_ok c n r v :
  shape c n -> 0 <= r -> r + len v <= n ->
  exists c', write_wrapped c (at_ c r) v = Some c' /\ filled c r v c'.
Proof.
  intros [Hb0 Hb Hn _] Hr Hfit. unfold write_wrapped, filled, at_, endbase in *.
  pose proof (wrap_cases (len (block c)) (begin c + r)) as Hp. set (p := wrap _ (begin c + r)) in *. clearbody p.
  destruct (Z.leb_spec (len v) (len (block c) - p)) as [H1|H1].
  - destruct (store_ok (block c) p v) as (m' & -> & Hlen & Hv); [right; lia|]. cbn [mbind option_bind].
    rewrite (with_block_reshape _ _ Hb0). eexists. split; [done|]. exists m'. split_and!; [done|done| |];
      intros k Hk; [|intros Hk2]; rewrite Hv; unfold wrap; cases; try done; try (f_equal; lia).
  - assert (Ht : len (take (Z.to_nat (len (block c) - p)) v) = len (block c) - p) by (rewrite length_take; lia).
    assert (Hd : len (drop (Z.to_nat (len (block c) - p)) v) = len v - (len (block c) - p)) by (rewrite length_drop; lia).
    destruct (store_ok (block c) p (take (Z.to_nat (len (block c) - p)) v)) as (m1 & -> & Hlen1 & Hv1); [right; lia|].
    cbn [mbind option_bind].
    destruct (store_ok m1 0 (drop (Z.to_nat (len (block c) - p)) v)) as (m' & -> & Hlen & Hv); [right; lia|]. cbn [mbind option_bind].
    rewrite (with_block_reshape _ _ Hb0). eexists. split; [done|]. exists m'. rewrite Ht in Hv1. rewrite Hd in Hv.
    split_and!; [done|congruence| |]; intros k Hk; [|intros Hk2]; rewrite Hv, Hv1; unfold wrap; cases; try done; try (f_equal; lia).
    + rewrite lookup_take_lt by lia. f_equal. lia.
    + rewrite lookup_drop. f_equal. lia.
Qed.

Lemma filled_app c r v w c1 c2 :
  0 <= r -> r + len v + len w <= endbase c -> filled c r v c1 -> filled c1 (r + len v) w c2 -> filled c r (v ++ w) c2.
Proof.
  intros Hr Hfit (m1 & -> & Hl1 & Hn1 & Ho1) (m2 & -> & Hl2 & Hn2 & Ho2). cbn in *.
  unfold filled, at_, endbase in *. cbn in *. rewrite Hl1 in *.
  exists m2. split_and!; [done|congruence| |]; rewrite length_app; intros k Hk.
  - destruct (Z.lt_ge_cases k (len v)) as [Hkv|Hkv].
    + rewrite Ho2 by lia. rewrite Hn1 by lia. by rewrite lookup_app_l by lia.
    + replace (r + k) with (r + len v + (k - len v)) by lia. rewrite Hn2 by lia. rewrite lookup_app_r by lia. f_equal. lia.
  - intros Hk2. rewrite Ho2 by lia. apply Ho1; lia.
Qed.

(** Elements of the right size lie within the block. *)
Lemma write_elems_ok c n vs vals (r : Z) :
  shape c n -> vsize c = vs -> 0 < vs -> endbase c = cap c * vs -> (vs | begin c) ->
  Forall (fun v => len v = vs) vals -> 0 <= r -> (vs | r) -> r + len (concat vals) <= n ->
  exists c', write_elems c (at_ c r) vals = Some c' /\ filled c r (concat vals) c'.
Proof.
  intros Hsh Hvs Hv Heb Hal Hvals. revert c r Hsh Hvs Heb Hal. induction Hvals as [|v vals Hlv _ IH]; intros c r Hsh Hvs Heb Hal Hr Hrd Hfit.
  { exists c. split; [done|]. exists (block c). pose proof (sh_base _ _ Hsh) as [m Hm]. split_and!; try done.
    - unfold reshape. destruct c; cbn in *. unfold block. cbn. by rewrite Hm.
    - cbn. intros k Hk. lia. }
  cbn [concat write_elems] in *. rewrite length_app in Hfit. pose proof Hsh as [Hb0 Hb Hn He].
  rewrite (take_ge v) by lia.
  pose proof (wrap_cases (endbase c) (begin c + r)) as Hp. fold (at_ c r) in Hp.
  assert (Hpd : (vs | at_ c r)).
  { destruct Hp as [[_ ->]|[_ ->]]; [by apply Z.divide_add_r|]. rewrite Heb. apply Z.divide_sub_r; [by apply Z.divide_add_r|]. apply Z.divide_factor_r. }
  assert (Hpf : at_ c r + vs <= endbase c).
  { destruct Hpd as [q Hq]. rewrite Heb, Hq in *. assert (q < cap c) by nia. nia. }
  assert (Hw : exists m1, store (block c) (at_ c r) v = Some m1 /\ filled c r v (with_block m1 c)).
  { destruct (store_ok (block c) (at_ c r) v) as (m1 & H1 & Hl1 & Hv1); [right; unfold endbase in *; lia|]. exists m1. split; [done|].
    exists m1. rewrite (with_block_reshape _ _ Hb0). unfold at_, endbase in *. split_and!; [done|done| |]; intros k Hk; [|intros Hk2]; rewrite Hv1;
      unfold wrap in *; cases; try done; try (f_equal; lia). }
  destruct Hw as (m1 & -> & Hf1). cbn [mbind option_bind]. rewrite Hvs.
  assert (Hl1 : length m1 = length (block c)) by (destruct Hf1 as (m' & E & Hl & _); rewrite (with_block_reshape _ _ Hb0) in E; injection E as ->; done).
  assert (Hnext : stdcarr_low_forward (at_ c r) vs (endbase c) = at_ (with_block m1 c) (r + len v)).
  { rewrite (with_block_reshape _ _ Hb0). unfold at_, endbase in *. cbn. rewrite Hl1. unfold stdcarr_low_forward, wrap in *. cases; lia. }
  rewrite Hnext. rewrite (with_block_reshape _ _ Hb0) in *.
  destruct (IH (reshape c m1 (begin c) (end_ c) (size c)) (r + len v)) as (c' & -> & Hf2).
  - unfold endbase in *. split; unfold endbase; cbn; rewrite ?Hl1; [by eexists|done|lia|done].
  - done.
  - unfold endbase in *. cbn. congruence.
  - done.
  - lia.
  - apply Z.divide_add_r; [done|]. rewrite Hlv. reflexivity.
  - lia.
  - exists c'. split; [done|]. eapply filled_app; [lia| |exact Hf1|exact Hf2]. lia.
Qed.

(** ** Erasure *)

(** What is left when [d] bytes at rank [r] are gone. *)
Definition cut l (r d : Z) : list B := take (Z.to_nat r) l ++ drop (Z.to_nat (r + d)) l.

Lemma cut_length l r d : 0 <= r -> 0 <= d -> r + d <= len l -> len (cut l r d) = len l - d.
Proof. intros. unfold cut. rewrite length_app, length_take, length_drop. lia. Qed.

Lemma cut_layout m b l r d :
  0 <= r -> 0 <= d -> r + d <= len l ->
  (forall k, 0 <= k < r -> ld m (wrap (len m) (b + k)) = l !! Z.to_nat k) ->
  (forall k, r <= k < len l - d -> ld m (wrap (len m) (b + k)) = l !! Z.to_nat (k + d)) ->
  layout m b (cut l r d).
Proof.
  intros Hr Hd Hl H1 H2 k Hk. rewrite cut_length in Hk by done. unfold cut. destruct (Z.lt_ge_cases k r).
  - rewrite H1 by lia. rewrite lookup_app_l by (rewrite length_take; lia). by rewrite lookup_take_lt by lia.
  - rewrite H2 by lia. rewrite lookup_app_r by (rewrite length_take; lia). rewrite length_take, lookup_drop. f_equal. lia.
Qed.

Section erase.
Context c l (r n : Z) (Hlg : legal c l) (Hr : 0 <= r) (Hn : 0 < n) (Hfit : r + n * vsize c <= len l).
Notation d := (n * vsize c).
Notation ns := (size c - n).

Lemma erase_facts : shape c (len l) /\ size c < cap c /\ 0 < d /\ 0 <= ns /\ len (cut l r d) = ns * vsize c.
Proof.
  destruct Hlg as [Hv [Hs Hl] _ _ _ Hsh]. assert (0 < d) by nia. rewrite cut_length by lia. rewrite Hl in *.
  assert (n <= size c) by nia. destruct Hsh as [(_ & _ & _ & ? & _)|[? ?]]; [lia|]. split_and!; try done; lia.
Qed.

(** A block of the same size in which the remaining bytes lie from [b] on. *)
Lemma reshape_legal m b e :
  length m = length (block c) -> 0 <= b < endbase c -> (vsize c | b) ->
  e = wrap (endbase c) (b + (len l - d)) -> layout m b (cut l r d) ->
  legal (reshape c m b e ns) (cut l r d).
Proof.
  intros Hlm Hb Hal He Hly. destruct erase_facts as (Hsh & Hcap & Hd & Hns & Hcl). destruct Hlg as [Hv [Hs Hl] Hbk _ _ _].
  unfold endbase in *. split; unfold endbase; cbn; rewrite ?Hlm; try done. right. split; [|lia].
  split; unfold endbase; cbn; rewrite ?Hlm; [by eexists|done| |]; rewrite cut_length by lia; [|done]. destruct Hsh as [_ _ [_ ?] _].
  unfold endbase in *. lia.
Qed.

Lemma erase_left_legal :
  exists c', stdcarr_low_erase_shift_left c (at_ c (r + d)) d ns = Some c' /\
    legal c' (cut l r d) /\ vsize c' = vsize c /\ opts c' = opts c /\ cap c' = cap c /\ at_ c (r + d) = at_ c' (r + d).
Proof.
  destruct erase_facts as (Hsh & Hcap & Hd & Hns & Hcl). pose proof Hlg as [Hv [Hs Hl] Hbk Hal Hly _].
  destruct (erase_left_ok c (len l) (r + d) d ns Hsh) as (m' & Hrun & Hlen & Hlow & Hhigh); [lia|lia|].
  eexists. split; [exact Hrun|]. destruct Hsh as [Hb0 Hb Hn0 He]. rewrite (with_end_reshape _ _ _ _ Hb0).
  split; [|split_and!; try done; unfold at_, endbase; cbn; by rewrite Hlen].
  apply reshape_legal; try done.
  - pose proof (backward_cases (end_ c) d (endbase c)). pose proof (wrap_cases (endbase c) (begin c + len l)).
    pose proof (wrap_cases (endbase c) (begin c + (len l - d))). lia.
  - apply cut_layout; try lia; intros k Hk; rewrite Hlen.
    + apply (shifted_layout (block c) m' (begin c) (begin c) (r + d - d) (begin c) l 0 Hlow Hly); lia.
    + replace (begin c + k) with (begin c + (r + d) - d + (k - r)) by lia. replace (k + d) with (r + d + (k - r)) by lia.
      apply (shifted_layout (block c) m' (begin c + (r + d)) _ (len l - (r + d)) (begin c) l (r + d) Hhigh Hly); lia.
Qed.

Lemma erase_right_legal :
  exists c', stdcarr_low_erase_shift_right c (at_ c r) d ns = Some c' /\
    legal c' (cut l r d) /\ vsize c' = vsize c /\ opts c' = opts c /\ stdcarr_low_forward (at_ c r) d (endbase c') = at_ c' r.
Proof.
  destruct erase_facts as (Hsh & Hcap & Hd & Hns & Hcl). pose proof Hlg as [Hv [Hs Hl] Hbk Hal Hly _].
  destruct (erase_right_ok c (len l) r d ns Hsh) as (m' & Hrun & Hlen & Hlow & Hhigh); [lia|lia|lia|].
  eexists. split; [exact Hrun|]. destruct Hsh as [Hb0 Hb Hn0 He]. rewrite (with_begin_reshape _ _ _ _ Hb0).
  pose proof (wrap_cases (endbase c) (begin c + d)) as Hw.
  split; [|split_and!; try done; unfold at_, endbase in *; cbn; rewrite Hlen; unfold stdcarr_low_forward, wrap in *; cases; lia].
  apply reshape_legal; try done.
  - lia.
  - destruct Hw as [[_ ->]|[_ ->]].
    + apply Z.divide_add_r; [done|apply Z.divide_factor_r].
    + rewrite Hbk. apply Z.divide_sub_r; [apply Z.divide_add_r; [done|]|]; apply Z.divide_factor_r.
  - rewrite He. unfold wrap in *. cases; lia.
  - apply cut_layout; try lia; intros k Hk; rewrite Hlen.
    + transitivity (ld m' (wrap (len (block c)) (begin c + d + k))).
      * f_equal. unfold endbase, wrap in *. cases; lia.
      * apply (shifted_layout (block c) m' (begin c) (begin c + d) r (begin c) l 0 Hlow Hly); lia.
    + replace (k + d) with (r + d + (k - r)) by lia.
      transitivity (ld m' (wrap (len (block c)) (begin c + r + d + (k - r)))).
      * f_equal. unfold endbase, wrap in *. cases; lia.
      * apply (shifted_layout (block c) m' (begin c + r + d) _ (len l - r - d) (begin c) l (r + d) Hhigh Hly); lia.
Qed.

(** The remaining bytes at the front of a fresh block. *)
Lemma realloc_legal m nc l' :
  len m = nc * vsize c -> len l' = ns * vsize c -> ns < nc -> 0 <= ns -> layout m 0 l' -> legal (realloc c m nc ns) l'.
Proof.
  intros Hlm Hl' Hnc Hns0 Hly. pose proof (lg_vsize c l Hlg) as Hv.
  split; unfold endbase; cbn; try done; [by exists 0|]. right. split; [|done].
  split; unfold endbase; cbn; rewrite ?Hlm; [by eexists|nia|nia|]. unfold wrap. rewrite Hl'. cases; nia.
Qed.

Lemma shrink_legal :
  (2 * ns + STDCARR_MIN_AUTO_ALLOC) * vsize c < 2 ^ 64 ->
  exists c', ('(mem, it') ← stdcarr_low_copy_to_buf (malloc junk (u64 (new_capacity ns * vsize c))) 0 c (begin c) (at_ c r);
              '(mem, _) ← stdcarr_low_copy_to_buf mem it' c (at_ c (r + d)) (end_ c);
              Some (realloc c mem (new_capacity ns) ns, it')) = Some (c', r) /\
    legal c' (cut l r d) /\ vsize c' = vsize c /\ opts c' = opts c /\ r = at_ c' r /\ u64 (new_capacity ns * vsize c) <> 0.
Proof.
  intros Hsmall. destruct erase_facts as (Hsh & Hcap & Hd & Hns & Hcl). pose proof (at_end c l Hlg) as Hae.
  pose proof Hlg as [Hv [Hs Hl] Hbk Hal Hly _].
  destruct (new_capacity_ok ns (vsize c)) as (Hc1 & Hc2 & -> & Hc3); [lia|done|exact Hsmall|].
  set (nc := new_capacity ns) in *. clearbody nc. unfold STDCARR_MIN_AUTO_ALLOC in *.
  assert (Hm : len (malloc junk (nc * vsize c)) = nc * vsize c) by (apply malloc_length; nia).
  assert (Hroom : len l - d < nc * vsize c) by (rewrite Hl; nia). pose proof Hsh as [[m0 Hm0] Hbg Hn0 He].
  destruct (copy_to_buf_ok (malloc junk (nc * vsize c)) 0 c (len l) 0 r) as (m1 & Hcp & Hl1 & Hv1); [done|lia|lia|lia|lia|].
  rewrite (at_begin c Hbg) in Hcp. rewrite Hcp. cbn [mbind option_bind]. rewrite Hae.
  destruct (copy_to_buf_ok m1 (0 + (r - 0)) c (len l) (r + d) (len l)) as (m2 & -> & Hl2 & Hv2); [done|lia|lia|lia|lia|].
  cbn [mbind option_bind]. exists (realloc c m2 nc ns). split; [f_equal; f_equal; lia|].
  assert (Hlm : len m2 = nc * vsize c) by lia.
  assert (Hat : r = at_ (realloc c m2 nc ns) r).
  { unfold at_, endbase, wrap. change (block (realloc c m2 nc ns)) with m2. change (begin (realloc c m2 nc ns)) with 0.
    rewrite Hlm. destruct (Z.ltb_spec (0 + r) (nc * vsize c)); lia. }
  split; [|split_and!; [done|done|exact Hat|nia]].
  - apply realloc_legal; try done. apply cut_layout; try lia; intros k Hk.
    + unfold wrap at 1. rewrite Hlm. destruct (Z.ltb_spec (0 + k) (nc * vsize c)); [|lia]. rewrite Hv2, Hv1. cases.
      replace (begin c + 0 + (0 + k - 0)) with (begin c + k) by lia. apply Hly. lia.
    + unfold wrap at 1. rewrite Hlm. destruct (Z.ltb_spec (0 + k) (nc * vsize c)); [|lia]. rewrite Hv2. cases.
      replace (begin c + (r + d) + (0 + k - (0 + (r - 0)))) with (begin c + (k + d)) by lia. apply Hly. lia.
Qed.

(** [it]: the first byte of the erased range when shifting right, the byte
    behind it otherwise.  Afterwards it refers to the byte that followed the
    range, except that a shift to the left within the block leaves it [d]
    bytes too far. *)
Lemma low_erase_shift_ok alloc (sr : bool) :
  (2 * ns + STDCARR_MIN_AUTO_ALLOC) * vsize c < 2 ^ 64 ->
  exists c' it', stdcarr_low_erase_shift junk alloc c (if sr then at_ c r else at_ c (r + d)) d ns sr = Some (c', it') /\
    legal c' (cut l r d) /\ vsize c' = vsize c /\ opts c' = opts c /\
    (it' = at_ c' r \/ (sr = false /\ cap c' = cap c /\ it' = at_ c' (r + d))).
Proof.
  intros Hsmall. destruct erase_facts as (Hsh & Hcap & Hd & Hns & Hcl).
  assert (Hin : exists c' it', (if sr then
      c0 ← stdcarr_low_erase_shift_right c (if sr then at_ c r else at_ c (r + d)) d ns;
      Some (c0, stdcarr_low_forward (if sr then at_ c r else at_ c (r + d)) d (endbase c0))
    else c0 ← stdcarr_low_erase_shift_left c (if sr then at_ c r else at_ c (r + d)) d ns;
         Some (c0, if sr then at_ c r else at_ c (r + d))) = Some (c', it') /\
    legal c' (cut l r d) /\ vsize c' = vsize c /\ opts c' = opts c /\
    (it' = at_ c' r \/ (sr = false /\ cap c' = cap c /\ it' = at_ c' (r + d)))).
  { destruct sr.
    - destruct erase_right_legal as (c' & -> & H1 & H2 & H3 & H4). cbn [mbind option_bind]. rewrite H4. exists c', (at_ c' r).
      split_and!; try done. by left.
    - destruct erase_left_legal as (c' & -> & H1 & H2 & H3 & H4 & H5). cbn [mbind option_bind]. exists c', (at_ c (r + d)).
      split_and!; try done. right. split_and!; done. }
  unfold stdcarr_low_erase_shift. destruct (Z.eqb_spec d 0); [lia|]. destruct (_ || _ || _); [exact Hin|].
  destruct (shrink_legal Hsmall) as (c' & Hrun & H1 & H2 & H3 & H4 & H5). rewrite (proj2 (Z.eqb_neq _ _) H5).
  destruct alloc; [|exact Hin]. exists c', r.
  replace (if sr then (stdcarr_low_forward (if sr then at_ c r else at_ c (r + d)) d (endbase c), if sr then at_ c r else at_ c (r + d))
    else (if sr then at_ c r else at_ c (r + d), stdcarr_low_backward (if sr then at_ c r else at_ c (r + d)) d (endbase c)))
    with (at_ c (r + d), at_ c r).
  - split_and!; try done. by left.
  - destruct Hsh as [_ Hb Hn0 _]. pose proof (wrap_cases (endbase c) (begin c + r)). pose proof (wrap_cases (endbase c) (begin c + (r + d))).
    destruct sr; f_equal; unfold at_.
    + rewrite forward_wrap. pose proof (wrap_cases (endbase c) (wrap (endbase c) (begin c + r) + d)). lia.
    + pose proof (backward_cases (wrap (endbase c) (begin c + (r + d))) d (endbase c)). lia.
Qed.
End erase.

(** ** Sequences of elements *)

(** The array [c] holds the elements [xs]. *)
Definition repr c (xs : list (list B)) : Prop := legal c (concat xs) /\ Forall (fun v => len v = vsize c) xs.

Lemma concat_length (xs : list (list B)) vs : Forall (fun v => len v = vs) xs -> len (concat xs) = len xs * vs.
Proof. induction 1 as [|v xs Hv _ IH]; cbn [concat length]; [lia|]. rewrite length_app. lia. Qed.

Lemma concat_take (xs : list (list B)) vs (i : nat) :
  Forall (fun v => len v = vs) xs -> 0 < vs -> take (i * Z.to_nat vs) (concat xs) = concat (take i xs).
Proof.
  intros H Hv. revert i. induction H as [|v xs Hlv _ IH]; intros [|i]; cbn [concat take]; try done.
  - by rewrite take_nil.
  - cbn [Nat.mul]. rewrite take_app_ge by lia. f_equal. rewrite <- IH. f_equal. lia.
Qed.

Lemma concat_drop (xs : list (list B)) vs (i : nat) :
  Forall (fun v => len v = vs) xs -> 0 < vs -> drop (i * Z.to_nat vs) (concat xs) = concat (drop i xs).
Proof.
  intros H Hv. revert i. induction H as [|v xs Hlv _ IH]; intros [|i]; cbn [concat drop]; try done.
  - by rewrite drop_nil.
  - cbn [Nat.mul]. rewrite drop_app_ge by lia. rewrite <- IH. f_equal. lia.
Qed.

Lemma repr_size c xs : repr c xs -> size c = len xs /\ 0 < vsize c /\ len (concat xs) = len xs * vsize c.
Proof. intros [[Hv [Hs Hl] _ _ _ _] Hf]. rewrite (concat_length _ _ Hf) in *. split_and!; [nia|done|done]. Qed.

Lemma at_inj_0 c xs : repr c xs -> at_ c 0 = begin c.
Proof.
  intros [[_ _ _ _ _ [(Hb & Hb0 & _)|[[_ Hb _ _] _]]] _]; [|by apply at_begin].
  unfold at_, endbase, block. by rewrite Hb, Hb0.
Qed.

(** The result of an insertion of [vals] before the element of rank [i]. *)
Definition inserted c xs (i : nat) vals c' (it' : Z) : Prop :=
  repr c' (take i xs ++ vals ++ drop i xs) /\ vsize c' = vsize c /\ opts c' = opts c /\ it' = at_ c' (Z.of_nat i * vsize c).

Lemma filled_inserted c xs (i : nat) vals c1 it1 c' :
  repr c xs -> (i <= length xs)%nat -> Forall (fun v => len v = vsize c) vals ->
  gap c1 (concat xs) (Z.of_nat i * vsize c) (len vals * vsize c) it1 ->
  sized c1 (vsize c) (opts c) (size c + len vals) -> filled c1 (Z.of_nat i * vsize c) (concat vals) c' ->
  inserted c xs i vals c' it1.
Proof.
  intros Hrep Hi Hvals Hg Hsz Hf. destruct (repr_size _ _ Hrep) as (Hs & Hv & Hl). destruct Hrep as [_ Hxs].
  pose proof (concat_length _ _ Hvals) as Hlv. rewrite <- Hlv in Hg. pose proof (gp_it _ _ _ _ _ Hg) as Hit.
  destruct (fill_legal c1 (concat xs) (Z.of_nat i * vsize c) (concat vals) it1 c' (vsize c) (opts c) (size c + len vals))
    as (Hlg & Hv' & Ho'); try done; [lia|rewrite Hl, Hlv, Hs; lia|split; [nia|rewrite Hl; nia]|].
  replace (Z.to_nat (Z.of_nat i * vsize c)) with (i * Z.to_nat (vsize c))%nat in Hlg by lia.
  rewrite (concat_take xs (vsize c)), (concat_drop xs (vsize c)) in Hlg by done. rewrite <- !concat_app in Hlg.
  split_and!; try done.
  - split; [exact Hlg|]. rewrite Hv'. apply Forall_app. split; [by apply Forall_take|]. apply Forall_app. split; [done|]. by apply Forall_drop.
  - rewrite Hit. destruct Hf as (m' & -> & Hlm & _). unfold at_, endbase. cbn. by rewrite Hlm.
Qed.

(** Both ways of writing the elements of an insertion. *)
Lemma insert_gen alloc c xs (i : nat) vals sr (wr : stdcarr B -> Z -> option (stdcarr B)) :
  repr c xs -> (i <= length xs)%nat -> vals <> [] -> Forall (fun v => len v = vsize c) vals -> fits c (len vals) ->
  (forall c1 it, gap c1 (concat xs) (Z.of_nat i * vsize c) (len vals * vsize c) it ->
     sized c1 (vsize c) (opts c) (size c + len vals) ->
     exists c', wr c1 it = Some c' /\ filled c1 (Z.of_nat i * vsize c) (concat vals) c') ->
  (exists c' it', ('(ret, c1, it) ← stdcarr_low_insert_shift junk alloc c (at_ c (Z.of_nat i * vsize c)) (len vals * vsize c) (size c + len vals) sr;
      if decide (ret = STDESUCCESS) then c2 ← wr c1 it; Some (STDESUCCESS, c2, it) else Some (ret, c1, it)) = Some (STDESUCCESS, c', it') /\
     inserted c xs i vals c' it') \/
  (exists e, ('(ret, c1, it) ← stdcarr_low_insert_shift junk alloc c (at_ c (Z.of_nat i * vsize c)) (len vals * vsize c) (size c + len vals) sr;
      if decide (ret = STDESUCCESS) then c2 ← wr c1 it; Some (STDESUCCESS, c2, it) else Some (ret, c1, it))
      = Some (e, c, at_ c (Z.of_nat i * vsize c)) /\ grow_error alloc c e).
Proof.
  intros Hrep Hi Hne Hvals Hfit Hwr. destruct (repr_size _ _ Hrep) as (Hs & Hv & Hl).
  assert (0 < len vals) by (destruct vals; [done|cbn; lia]).
  destruct (low_insert_shift_ok alloc c (concat xs) (Z.of_nat i * vsize c) (len vals) sr) as [(c1 & it & -> & Hg & Hsz)|(e & -> & He & _)];
    [apply Hrep|split; [nia|rewrite Hl; nia]|done|done| |].
  - left. cbn [mbind option_bind]. rewrite decide_True by done. destruct (Hwr c1 it Hg Hsz) as (c' & -> & Hf). cbn [mbind option_bind].
    exists c', it. split; [done|]. by eapply filled_inserted.
  - right. cbn [mbind option_bind]. exists e. split; [|done]. destruct He as [[-> _]|[-> _]]; done.
Qed.

Lemma low_insert_shift_zero alloc c it ns sr : stdcarr_low_insert_shift junk alloc c it 0 ns sr = Some (STDESUCCESS, c, it).
Proof. done. Qed.

Lemma insert_none c xs (i : nat) : repr c xs -> (i <= length xs)%nat -> inserted c xs i [] c (at_ c (Z.of_nat i * vsize c)).
Proof. intros Hrep Hi. split_and!; try done. cbn. by rewrite take_drop. Qed.

Lemma insert_bounds c xs n : repr c xs -> 0 <= n -> fits c n ->
  u64 (n * vsize c) = n * vsize c /\ u64 (size c + n) = size c + n.
Proof.
  intros Hrep Hn Hf. destruct (repr_size _ _ Hrep) as (Hs & Hv & Hl). unfold fits, STDCARR_MIN_AUTO_ALLOC in *.
  assert (n * vsize c <= (2 * (size c + n) + 16) * vsize c) by (apply Z.mul_le_mono_nonneg_r; lia).
  assert (2 * (size c + n) + 16 <= (2 * (size c + n) + 16) * vsize c) by nia.
  rewrite !u64_small; lia.
Qed.

Lemma insert_n_ok alloc c xs (i : nat) vals :
  repr c xs -> (i <= length xs)%nat -> Forall (fun v => len v = vsize c) vals -> fits c (len vals) ->
  (exists c' it', stdcarr_insert_n junk alloc c (at_ c (Z.of_nat i * vsize c)) (concat vals) (len vals) = Some (STDESUCCESS, c', it') /\
     inserted c xs i vals c' it') \/
  (exists e, stdcarr_insert_n junk alloc c (at_ c (Z.of_nat i * vsize c)) (concat vals) (len vals) =
     Some (e, c, at_ c (Z.of_nat i * vsize c)) /\ grow_error alloc c e).
Proof.
  intros Hrep Hi Hvals Hfit. pose proof (concat_length _ _ Hvals) as Hlv. destruct (repr_size _ _ Hrep) as (Hs & Hv & Hl).
  unfold stdcarr_insert_n. destruct (insert_bounds c xs (len vals) Hrep ltac:(lia) Hfit) as [-> ->].
  rewrite (take_ge (concat vals)) by lia. destruct vals as [|v vals].
  - left. cbn [length concat]. change (Z.of_nat 0 * vsize c) with 0. rewrite low_insert_shift_zero. cbn [mbind option_bind].
    rewrite decide_True by done. unfold write_wrapped. exists c, (at_ c (Z.of_nat i * vsize c)). split; [|by apply insert_none].
    cbn [length]. unfold store. rewrite bool_decide_true by done. rewrite (bool_decide_true (drop _ [] = [])) by (by rewrite drop_nil).
    rewrite (bool_decide_true (take _ [] = [])) by (by rewrite take_nil). cbn [mbind option_bind].
    assert (Hw : with_block (block c) c = c) by (destruct c as [[?|] ? ? ? ? ? ?]; done). destruct (_ <=? _); cbn [mbind option_bind]; by rewrite Hw.
  - apply (insert_gen alloc c xs i (v :: vals) _ (fun c1 it => write_wrapped c1 it (concat (v :: vals)))); try done.
    intros c1 it Hg Hsz. rewrite (gp_it _ _ _ _ _ Hg). apply (write_wrapped_ok c1 (len (concat xs) + len (v :: vals) * vsize c)); [apply Hg|nia|].
    rewrite Hlv, Hl. nia.
Qed.

Lemma insert_seq_n_ok alloc c xs (i : nat) vals :
  repr c xs -> (i <= length xs)%nat -> Forall (fun v => len v = vsize c) vals -> fits c (len vals) ->
  (exists c' it', stdcarr_insert_seq_n junk alloc c (at_ c (Z.of_nat i * vsize c)) vals = Some (STDESUCCESS, c', it') /\
     inserted c xs i vals c' it') \/
  (exists e, stdcarr_insert_seq_n junk alloc c (at_ c (Z.of_nat i * vsize c)) vals =
     Some (e, c, at_ c (Z.of_nat i * vsize c)) /\ grow_error alloc c e).
Proof.
  intros Hrep Hi Hvals Hfit. pose proof (concat_length _ _ Hvals) as Hlv. destruct (repr_size _ _ Hrep) as (Hs & Hv & Hl).
  unfold stdcarr_insert_seq_n. destruct (insert_bounds c xs (len vals) Hrep ltac:(lia) Hfit) as [-> ->]. destruct vals as [|v vals].
  - left. cbn [length]. change (Z.of_nat 0 * vsize c) with 0. rewrite low_insert_shift_zero. cbn [mbind option_bind].
    rewrite decide_True by done. exists c, (at_ c (Z.of_nat i * vsize c)). split; [done|by apply insert_none].
  - apply (insert_gen alloc c xs i (v :: vals) _ (fun c1 it => write_elems c1 it (v :: vals))); try done.
    intros c1 it Hg (H1 & H2 & H3 & H4 & H5 & H6). rewrite (gp_it _ _ _ _ _ Hg).
    apply (write_elems_ok c1 (len (concat xs) + len (v :: vals) * vsize c) (vsize c)); try done;
      [apply Hg|nia|apply Z.divide_factor_r|]. rewrite Hlv, Hl. nia.
Qed.

(** ** Erasure of elements *)
Definition erased (xs : list (list B)) (i n : nat) : list (list B) := take i xs ++ drop (i + n) xs.

Lemma cut_erased xs vs (i n : nat) :
  Forall (fun v => len v = vs) xs -> 0 < vs ->
  cut (concat xs) (Z.of_nat i * vs) (Z.of_nat n * vs) = concat (erased xs i n).
Proof.
  intros Hxs Hv. unfold cut, erased. rewrite concat_app. f_equal.
  - rewrite <- (concat_take xs vs) by done. f_equal. lia.
  - rewrite <- (concat_drop xs vs) by done. f_equal. nia.
Qed.

(** [sr]: whether the bytes in front of the erased ones are shifted. *)
Lemma erase_gen alloc c xs (i n : nat) (sr : bool) :
  repr c xs -> (i + n <= length xs)%nat -> fits c 0 ->
  exists c' it', stdcarr_low_erase_shift junk alloc c
      (if sr then at_ c (Z.of_nat i * vsize c) else at_ c (Z.of_nat (i + n) * vsize c)) (Z.of_nat n * vsize c) (size c - Z.of_nat n) sr =
      Some (c', it') /\
    repr c' (erased xs i n) /\ vsize c' = vsize c /\ opts c' = opts c /\
    (it' = at_ c' (Z.of_nat i * vsize c) \/ (sr = false /\ cap c' = cap c /\ it' = at_ c' (Z.of_nat (i + n) * vsize c))).
Proof.
  intros Hrep Hi Hfit. destruct (repr_size _ _ Hrep) as (Hs & Hv & Hl). destruct n as [|n].
  - exists c. assert (He : erased xs i 0 = xs) by (unfold erased; by rewrite Nat.add_0_r, take_drop). rewrite He, Nat.add_0_r.
    eexists. split; [unfold stdcarr_low_erase_shift; reflexivity|]. split_and!; try done. left. by destruct sr.
  - pose proof Hrep as [Hlg Hxs].
    destruct (low_erase_shift_ok c (concat xs) (Z.of_nat i * vsize c) (Z.of_nat (S n)) Hlg ltac:(nia) ltac:(lia) ltac:(rewrite Hl; nia) alloc sr)
      as (c' & it' & Hrun & Hlg' & Hv' & Ho' & Hit).
    { unfold fits, STDCARR_MIN_AUTO_ALLOC in *. eapply Z.le_lt_trans; [|exact Hfit]. apply Z.mul_le_mono_nonneg_r; lia. }
    replace (Z.of_nat i * vsize c + Z.of_nat (S n) * vsize c) with (Z.of_nat (i + S n) * vsize c) in * by lia.
    exists c', it'. split; [exact Hrun|]. rewrite cut_erased in Hlg' by done. split_and!; try done.
    split; [done|]. rewrite Hv'. apply Forall_app. split; [by apply Forall_take|by apply Forall_drop].
Qed.

Lemma erase_bounds c xs n : repr c xs -> 0 <= n <= size c -> fits c 0 ->
  u64 (n * vsize c) = n * vsize c /\ u64 (size c - n) = size c - n.
Proof.
  intros Hrep Hn Hf. destruct (repr_size _ _ Hrep) as (Hs & Hv & Hl). unfold fits, STDCARR_MIN_AUTO_ALLOC in *.
  assert (n * vsize c <= (2 * (size c + 0) + 16) * vsize c) by (apply Z.mul_le_mono_nonneg_r; lia).
  assert (2 * (size c + 0) + 16 <= (2 * (size c + 0) + 16) * vsize c) by nia.
  rewrite !u64_small; lia.
Qed.

Lemma forward_at c xs (i n : nat) :
  repr c xs -> (i + n <= length xs)%nat ->
  stdcarr_low_forward (at_ c (Z.of_nat i * vsize c)) (Z.of_nat n * vsize c) (endbase c) = at_ c (Z.of_nat (i + n) * vsize c).
Proof.
  intros Hrep Hi. destruct (repr_size _ _ Hrep) as (Hs & Hv & Hl). destruct Hrep as [[_ _ Hbk _ _ Hsh] _].
  rewrite forward_wrap. unfold at_. replace (Z.of_nat (i + n) * vsize c) with (Z.of_nat i * vsize c + Z.of_nat n * vsize c) by lia.
  destruct Hsh as [(Hb & Hb0 & _ & Hs0 & Hc0)|[[_ Hb Hn _] _]].
  - rewrite Hb0, Hbk, Hc0. assert (i = 0%nat /\ n = 0%nat) as [-> ->] by lia. done.
  - assert (Z.of_nat i * vsize c + Z.of_nat n * vsize c <= len (concat xs)) by (rewrite Hl; nia).
    assert (0 <= Z.of_nat i * vsize c) by nia. assert (0 <= Z.of_nat n * vsize c) by nia.
    set (x := Z.of_nat i * vsize c) in *. set (y := Z.of_nat n * vsize c) in *. unfold wrap. cases; lia.
Qed.

Lemma erase_n_ok alloc c xs (i n : nat) :
  repr c xs -> (i + n <= length xs)%nat -> fits c 0 ->
  exists c' it', stdcarr_erase_n junk alloc c (at_ c (Z.of_nat i * vsize c)) (Z.of_nat n) = Some (c', it') /\
    repr c' (erased xs i n) /\ vsize c' = vsize c /\ opts c' = opts c /\
    (it' = at_ c' (Z.of_nat i * vsize c) \/
     (STDCARR_ERS_SHIFT_RIGHT c (at_ c (Z.of_nat i * vsize c)) (Z.of_nat n) = false /\ cap c' = cap c /\
      it' = at_ c' (Z.of_nat (i + n) * vsize c))).
Proof.
  intros Hrep Hi Hfit. destruct (repr_size _ _ Hrep) as (Hs & Hv & Hl). unfold stdcarr_erase_n.
  destruct (erase_bounds c xs (Z.of_nat n) Hrep ltac:(lia) Hfit) as [-> ->]. rewrite (forward_at c xs i n Hrep Hi).
  apply erase_gen; done.
Qed.

Lemma pop_front_n_ok alloc c xs (n : nat) :
  repr c xs -> (n <= length xs)%nat -> fits c 0 ->
  exists c', stdcarr_pop_front_n junk alloc c (Z.of_nat n) = Some c' /\ repr c' (drop n xs) /\ vsize c' = vsize c /\ opts c' = opts c.
Proof.
  intros Hrep Hi Hfit. destruct (repr_size _ _ Hrep) as (Hs & Hv & Hl). unfold stdcarr_pop_front_n.
  destruct (erase_bounds c xs (Z.of_nat n) Hrep ltac:(lia) Hfit) as [-> ->].
  destruct (erase_gen alloc c xs 0 n true Hrep Hi Hfit) as (c' & it' & Hrun & H1 & H2 & H3 & _).
  change (Z.of_nat 0 * vsize c) with 0 in Hrun. rewrite (at_inj_0 c xs Hrep) in Hrun. rewrite Hrun. cbn [mbind option_bind]. by exists c'.
Qed.

Lemma low_end_ok alloc c xs (n : nat) :
  repr c xs -> (n <= length xs)%nat -> fits c 0 ->
  exists c' it', stdcarr_low_erase_shift junk alloc c (end_ c) (u64 (Z.of_nat n * vsize c)) (u64 (size c - Z.of_nat n)) false = Some (c', it') /\
    repr c' (take (length xs - n) xs) /\ vsize c' = vsize c /\ opts c' = opts c.
Proof.
  intros Hrep Hi Hfit. destruct (repr_size _ _ Hrep) as (Hs & Hv & Hl).
  destruct (erase_bounds c xs (Z.of_nat n) Hrep ltac:(lia) Hfit) as [-> ->].
  destruct (erase_gen alloc c xs (length xs - n) n false Hrep ltac:(lia) Hfit) as (c' & it' & Hrun & H1 & H2 & H3 & _).
  replace (length xs - n + n)%nat with (length xs) in Hrun by lia. rewrite <- Hl, <- (at_end c (concat xs)) in Hrun by apply Hrep.
  exists c', it'. split; [exact Hrun|]. split_and!; try done. unfold erased in H1. rewrite (drop_ge xs (_ + _)), app_nil_r in H1 by lia. done.
Qed.

Lemma pop_back_n_ok alloc c xs (n : nat) :
  repr c xs -> (n <= length xs)%nat -> fits c 0 ->
  exists c', stdcarr_pop_back_n junk alloc c (Z.of_nat n) = Some c' /\ repr c' (take (length xs - n) xs) /\ vsize c' = vsize c /\ opts c' = opts c.
Proof.
  intros Hrep Hi Hfit. unfold stdcarr_pop_back_n.
  destruct (low_end_ok alloc c xs n Hrep Hi Hfit) as (c' & it' & -> & H). cbn [mbind option_bind]. by exists c'.
Qed.

(** Shrinking by [stdcarr_resize]. *)
Lemma resize_down_ok alloc c xs (n : nat) :
  repr c xs -> (n <= length xs)%nat -> fits c 0 ->
  exists c', stdcarr_resize junk alloc c (Z.of_nat n) = Some (STDESUCCESS, c') /\ repr c' (take n xs) /\ vsize c' = vsize c /\ opts c' = opts c.
Proof.
  intros Hrep Hi Hfit. destruct (repr_size _ _ Hrep) as (Hs & Hv & Hl). unfold stdcarr_resize.
  destruct (Z.ltb_spec (size c) (Z.of_nat n)); [lia|]. destruct (Z.ltb_spec (Z.of_nat n) (size c)).
  - destruct (low_end_ok alloc c xs (length xs - n) Hrep ltac:(lia) Hfit) as (c' & it' & Hrun & H1).
    replace (Z.of_nat (length xs - n)) with (size c - Z.of_nat n) in Hrun by lia.
    replace (size c - (size c - Z.of_nat n)) with (Z.of_nat n) in Hrun by lia.
    rewrite (u64_small (Z.of_nat n)) in Hrun.
    + rewrite Hrun. cbn [mbind option_bind]. exists c'. split; [done|]. by replace (length xs - (length xs - n))%nat with n in H1 by lia.
    + unfold fits, STDCARR_MIN_AUTO_ALLOC in Hfit. assert (2 * (size c + 0) + 16 <= (2 * (size c + 0) + 16) * vsize c) by nia. lia.
  - exists c. split; [done|]. by rewrite take_ge by lia.
Qed.

(** ** Copies and capacities *)

(** The first [r] bytes copied to the front of a large enough block. *)
Lemma copy_front c xs (n : nat) buf :
  repr c xs -> (n <= length xs)%nat -> Z.of_nat n * vsize c <= len buf -> 0 < len buf ->
  exists m, stdcarr_low_copy_to_buf buf 0 c (begin c) (at_ c (Z.of_nat n * vsize c)) = Some (m, Z.of_nat n * vsize c) /\
    length m = length buf /\ (Z.of_nat n * vsize c < len buf -> layout m 0 (concat (take n xs))).
Proof.
  intros Hrep Hn Hb Hb0. destruct (repr_size _ _ Hrep) as (Hs & Hv & Hl). pose proof Hrep as [[_ _ Hbk _ Hly Hsh] Hxs].
  assert (Hln : len (concat (take n xs)) = Z.of_nat n * vsize c).
  { rewrite (concat_length _ (vsize c)) by (by apply Forall_take). rewrite length_take. nia. }
  destruct Hsh as [(Hb1 & Hb2 & _ & Hs0 & Hc0)|[Hsh Hcap]].
  - assert (n = 0%nat) by lia. subst n. change (Z.of_nat 0 * vsize c) with 0 in *. exists buf. rewrite (at_inj_0 c xs Hrep), Hb2. split; [done|]. split; [done|].
    intros _ k Hk. cbn in Hk. lia.
  - destruct (copy_to_buf_ok buf 0 c (len (concat xs)) 0 (Z.of_nat n * vsize c) Hsh) as (m & Hrun & Hlen & Hv'); [nia|rewrite Hl; nia|lia|lia|].
    rewrite (at_begin c (sh_begin _ _ Hsh)) in Hrun. rewrite Z.sub_0_r in *. exists m. split; [exact Hrun|]. split; [done|].
    intros Hlt k Hk. rewrite Hln in Hk. unfold wrap. rewrite Hlen. destruct (Z.ltb_spec (0 + k) (len buf)); [|lia].
    rewrite Hv'. cases. replace (begin c + 0 + (0 + k - 0)) with (begin c + k) by lia. rewrite Hly by (rewrite Hl; nia).
    rewrite <- (concat_take xs (vsize c)) by done. rewrite lookup_take_lt; [done|nia].
Qed.

Lemma end_at c xs : repr c xs -> end_ c = at_ c (len xs * vsize c).
Proof. intros Hrep. destruct (repr_size _ _ Hrep) as (_ & _ & <-). apply at_end, Hrep. Qed.

(** A block whose front holds [ys]. *)
Lemma front_repr m nc vs op (ys : list (list B)) :
  0 < vs -> len m = nc * vs -> len ys < nc -> Forall (fun v => len v = vs) ys -> layout m 0 (concat ys) ->
  repr (mk_carr (Some m) 0 (len ys * vs) nc (len ys) vs op) ys.
Proof.
  intros Hv Hm Hn Hys Hly. pose proof (concat_length _ _ Hys) as Hl.
  split; [|done]. split; unfold endbase; cbn; try done; [lia|by exists 0|]. right. split; [|done].
  split; unfold endbase; cbn; rewrite ?Hm; [by eexists|nia|nia|]. rewrite Hl. unfold wrap. cases; nia.
Qed.

Lemma set_capacity_ok alloc c xs (n : nat) :
  repr c xs -> (Z.of_nat n + 1) * vsize c < 2 ^ 64 ->
  exists code c', stdcarr_set_capacity junk alloc c (Z.of_nat n) = Some (code, c') /\ vsize c' = vsize c /\ opts c' = opts c /\
    ((code = STDESUCCESS /\ repr c' (take n xs) /\ Z.of_nat n <= stdcarr_high_capacity c') \/
     (code = STDENOMEM /\ alloc = false /\ c' = c)).
Proof.
  intros Hrep Hfit. destruct (repr_size _ _ Hrep) as (Hs & Hv & Hl). unfold stdcarr_set_capacity.
  destruct (Z.eqb_spec (Z.of_nat n) (stdcarr_high_capacity c)) as [He|He].
  { exists STDESUCCESS, c. split_and!; try done. left. split_and!; try done; [|lia]. rewrite take_ge; [done|].
    unfold stdcarr_high_capacity in He. destruct Hrep as [[_ _ _ _ _ [(_ & _ & _ & ? & ?)|[_ ?]]] _]; destruct (Z.eqb_spec (cap c) 0); lia. }
  destruct (Z.eqb_spec (Z.of_nat n) 0) as [Hz|Hz].
  { eexists _, _. split; [done|]. split_and!; try done. left. assert (n = 0%nat) by lia. subst n. split; [done|]. split; [|cbn; lia].
    rewrite take_0. split; [|by constructor]. split; unfold endbase; cbn; try done; [by exists 0| |by left]. intros k Hk. cbn in Hk. lia. }
  assert (Hu : u64 (Z.of_nat n + 1) = Z.of_nat n + 1) by (apply u64_small; nia). rewrite Hu.
  rewrite (u64_small ((Z.of_nat n + 1) * vsize c)) by nia.
  destruct alloc; [|eexists _, _; split; [done|]; split_and!; try done; by right].
  set (buf := malloc junk _). assert (Hbl : len buf = (Z.of_nat n + 1) * vsize c) by (apply malloc_length; nia).
  set (k := if Z.of_nat n <? size c then n else length xs).
  assert (Hk : (k <= length xs)%nat /\ (k <= n)%nat /\ take k xs = take n xs).
  { subst k. destruct (Z.ltb_spec (Z.of_nat n) (size c)); split_and!; try lia; try done. rewrite !take_ge by lia. done. }
  destruct Hk as (Hk1 & Hk2 & Hk3).
  destruct (copy_front c xs k buf Hrep Hk1) as (m & Hcp & Hlm & Hly); [rewrite Hbl; nia|nia|].
  rewrite Hk3 in Hly. specialize (Hly ltac:(rewrite Hbl; nia)).
  assert (Htk : len (take n xs) = Z.of_nat k) by (rewrite <- Hk3, length_take; lia).
  assert (Hrun : (let c0 := if Z.of_nat n <? size c then with_end (stdcarr_low_forward (begin c) (Z.of_nat n * vsize c) (endbase c)) (Z.of_nat n) c else c in
      '(mem, _) ← stdcarr_low_copy_to_buf buf 0 c0 (begin c0) (end_ c0); Some (STDESUCCESS, realloc c0 mem (Z.of_nat n + 1) (size c0))) =
      Some (STDESUCCESS, mk_carr (Some m) 0 (len (take n xs) * vsize c) (Z.of_nat n + 1) (len (take n xs)) (vsize c) (opts c))).
  { rewrite Htk. subst k. destruct (Z.ltb_spec (Z.of_nat n) (size c)); cbn zeta.
    - cbn [begin end_ size with_end]. rewrite forward_wrap. fold (at_ c (Z.of_nat n * vsize c)).
      change (stdcarr_low_copy_to_buf buf 0 (with_end (at_ c (Z.of_nat n * vsize c)) (Z.of_nat n) c)) with (stdcarr_low_copy_to_buf buf 0 c).
      rewrite Hcp. done.
    - rewrite (end_at c xs Hrep), Hcp. cbn [mbind option_bind]. unfold realloc. by rewrite Hs. }
  cbv zeta in Hrun. cbv zeta. rewrite Hrun. eexists _, _. split; [done|]. split_and!; try done. left. split; [done|]. split.
  - apply front_repr; try done; [by rewrite Hlm|lia|apply Forall_take, Hrep].
  - unfold stdcarr_high_capacity. cbn. destruct (Z.eqb_spec (Z.of_nat n + 1) 0); lia.
Qed.

Lemma copy_construct_ok alloc c xs :
  repr c xs -> cap c * vsize c < 2 ^ 64 ->
  exists code c', stdcarr_copy_construct junk alloc c = Some (code, c') /\
    ((code = STDESUCCESS /\ repr c' xs /\ vsize c' = vsize c /\ opts c' = opts c) \/ (code = STDENOMEM /\ alloc = false)).
Proof.
  intros Hrep Hfit. destruct (repr_size _ _ Hrep) as (Hs & Hv & Hl). unfold stdcarr_copy_construct. pose proof Hrep as [Hlg Hxs].
  destruct (lg_shape c _ Hlg) as [(Hb & _)|[Hsh Hcap]].
  { rewrite Hb. exists STDESUCCESS, c. split; [done|]. by left. }
  destruct (sh_base _ _ Hsh) as [m0 ->]. destruct alloc; [|eexists _, _; split; [done|]; by right].
  rewrite Z.mul_comm, (u64_small (cap c * vsize c)) by nia.
  assert (Hbl : len (malloc junk (cap c * vsize c)) = cap c * vsize c) by (apply malloc_length; nia).
  destruct (copy_front c xs (length xs) (malloc junk (cap c * vsize c)) Hrep (le_n _)) as (m & Hcp & Hlm & Hly); [rewrite Hbl; nia|nia|].
  rewrite <- (end_at c xs Hrep) in Hcp. rewrite Hcp. cbn [mbind option_bind]. eexists _, _. split; [done|]. left. split; [done|].
  rewrite (take_ge xs) in Hly by lia. split; [|done]. rewrite Hs. apply front_repr; try done; [by rewrite Hlm|lia|]. apply Hly. rewrite Hbl. nia.
Qed.

(** ** Iterators *)
Lemma get_at c xs (i : nat) : repr c xs -> (i <= length xs)%nat -> fits c 0 -> stdcarr_get c (Z.of_nat i) = at_ c (Z.of_nat i * vsize c).
Proof.
  intros Hrep Hi Hf. destruct (repr_size _ _ Hrep) as (Hs & Hv & Hl).
  unfold stdcarr_get, stdcarr_it_advance, stdcarr_begin. destruct (erase_bounds c xs (Z.of_nat i) Hrep ltac:(lia) Hf) as [Hu _].
  rewrite (Z.mul_comm (vsize c)), Hu. rewrite <- (at_inj_0 c xs Hrep). apply (forward_at c xs 0 i Hrep). lia.
Qed.

Lemma concat_slice (xs : list (list B)) vs (i : nat) v :
  Forall (fun w => len w = vs) xs -> 0 < vs -> xs !! i = Some v ->
  forall k, 0 <= k < vs -> concat xs !! Z.to_nat (Z.of_nat i * vs + k) = v !! Z.to_nat k.
Proof.
  intros Hxs Hv Hi k Hk. assert (Hlv : len v = vs) by (rewrite Forall_lookup in Hxs; by eapply Hxs).
  replace (Z.to_nat (Z.of_nat i * vs + k)) with (i * Z.to_nat vs + Z.to_nat k)%nat by nia.
  rewrite <- lookup_drop, (concat_drop _ vs) by done. erewrite drop_S by exact Hi. cbn [concat]. by rewrite lookup_app_l by lia.
Qed.

Lemma it_val_at c xs (i : nat) v :
  repr c xs -> xs !! i = Some v -> stdcarr_it_val c (at_ c (Z.of_nat i * vsize c)) = Some v.
Proof.
  intros Hrep Hi. destruct (repr_size _ _ Hrep) as (Hs & Hv & Hl). pose proof (lookup_lt_Some _ _ _ Hi) as Hlt.
  destruct Hrep as [[_ _ Hbk Hal Hly Hsh] Hxs]. assert (Hlv : len v = vsize c) by (rewrite Forall_lookup in Hxs; by eapply Hxs).
  destruct Hsh as [(_ & _ & _ & ? & _)|[[_ Hb Hn _] Hcap]]; [lia|].
  pose proof (wrap_cases (endbase c) (begin c + Z.of_nat i * vsize c)) as Hp. fold (at_ c (Z.of_nat i * vsize c)) in Hp.
  assert (Hir : Z.of_nat i * vsize c + vsize c <= len (concat xs)) by (rewrite Hl; nia).
  assert (Hpd : (vsize c | at_ c (Z.of_nat i * vsize c))).
  { assert (Hq : (vsize c | begin c + Z.of_nat i * vsize c)) by (apply Z.divide_add_r; [done|apply Z.divide_factor_r]).
    destruct Hp as [[_ ->]|[_ ->]]; [done|]. rewrite Hbk. apply Z.divide_sub_r; [done|apply Z.divide_factor_r]. }
  assert (Hpf : 0 <= at_ c (Z.of_nat i * vsize c) /\ at_ c (Z.of_nat i * vsize c) + vsize c <= endbase c).
  { assert (0 <= Z.of_nat i * vsize c) by nia. split; [lia|].
    assert (Hlt2 : at_ c (Z.of_nat i * vsize c) < endbase c) by lia. destruct Hpd as [q Hq]. rewrite Hbk, Hq in *.
    assert (q < cap c) by nia. nia. }
  unfold stdcarr_it_val. rewrite load_ok by (unfold endbase in *; lia). f_equal.
  assert (Hsl : len (slice (block c) (at_ c (Z.of_nat i * vsize c)) (vsize c)) = vsize c) by (apply slice_length; unfold endbase in *; lia).
  apply list_eq_same_length with (n := Z.to_nat (vsize c)); [lia|lia|].
  - intros k x y Hk Hx Hy. replace k with (Z.to_nat (Z.of_nat k)) in Hx, Hy by lia. rewrite slice_lookup in Hx by lia.
    rewrite <- (concat_slice xs (vsize c) i v Hxs Hv Hi) in Hy by lia.
    rewrite <- (Hly (Z.of_nat i * vsize c + Z.of_nat k)) in Hy by nia.
    assert (Some x = Some y) as [=]; [|done]. rewrite <- Hx, <- Hy. f_equal. unfold at_, endbase, wrap in *. cases; lia.
Qed.

Lemma rank_at c xs (i : nat) : repr c xs -> (i <= length xs)%nat -> fits c 0 -> stdcarr_rank c (at_ c (Z.of_nat i * vsize c)) = Z.of_nat i.
Proof.
  intros Hrep Hi Hf. destruct (repr_size _ _ Hrep) as (Hs & Hv & Hl). pose proof Hrep as [[_ _ Hbk Hal Hly Hsh] Hxs].
  destruct (erase_bounds c xs (Z.of_nat i) Hrep ltac:(lia) Hf) as [Hu _]. unfold stdcarr_rank.
  assert (Hx : (if begin c <=? at_ c (Z.of_nat i * vsize c) then at_ c (Z.of_nat i * vsize c) - begin c
               else endbase c - begin c + at_ c (Z.of_nat i * vsize c)) = Z.of_nat i * vsize c).
  { destruct Hsh as [(Hb & Hb0 & _ & Hs0 & Hc0)|[[_ Hb Hn _] Hcap]].
    - assert (i = 0%nat) by lia. subst i. change (Z.of_nat 0 * vsize c) with 0. rewrite (at_inj_0 c xs Hrep), Hb0. done.
    - assert (0 <= Z.of_nat i * vsize c <= len (concat xs)) by (rewrite Hl; nia). set (x := Z.of_nat i * vsize c) in *.
      unfold at_, wrap. cases; lia. }
  destruct (begin c <=? at_ c (Z.of_nat i * vsize c)); rewrite Hx, Hu; by apply Z.div_mul; lia.
Qed.
End proof.
