(* ===== verification/CarrProps.v ===== *)
(** * CarrProps: properties of the circular array

    Any sequence of operations on the array acts like the same operations on a
    list, without touching memory outside of the block; what iterators refer
    to, and where their arithmetic goes wrong. *)
From stdpp Require Import base list numbers option.
From Stdlib Require Import ZArith Lia.
From S2P Require Import Prelude StdCarr StdCarrProof.
#[local] Open Scope Z_scope.

Section ops.
Context {B : Type}.
Variable junk : nat -> B.
Notation elem := (list B).

(** The operations of a client; ranks are turned into iterators with
    [stdcarr_get]. *)
Inductive carr_op :=
| OInsert (i : nat) (vals : list elem)
| OInsertSeq (i : nat) (vals : list elem)
| OInsertRep (i : nat) (val : elem) (n : nat)
| OPushFront (val : elem)
| OPushBack (val : elem)
| OErase (i n : nat)
| OPopFront (n : nat)
| OPopBack (n : nat)
| OTruncate (n : nat)
| OSetCapacity (n : nat)
| OReserve (n : nat)
| OShrinkFit.

Definition run_op (alloc : bool) (c : stdcarr B) (op : carr_op) : option (stdcode * stdcarr B) :=
  match op with
  | OInsert i vals => '(e, c, _) ← stdcarr_insert_n junk alloc c (stdcarr_get c (Z.of_nat i)) (concat vals) (Z.of_nat (length vals)); Some (e, c)
  | OInsertSeq i vals => '(e, c, _) ← stdcarr_insert_seq_n junk alloc c (stdcarr_get c (Z.of_nat i)) vals; Some (e, c)
  | OInsertRep i v n => '(e, c, _) ← stdcarr_insert_rep junk alloc c (stdcarr_get c (Z.of_nat i)) v (Z.of_nat n); Some (e, c)
  | OPushFront v => '(e, c, _) ← stdcarr_push_front junk alloc c v; Some (e, c)
  | OPushBack v => '(e, c, _) ← stdcarr_push_back junk alloc c v; Some (e, c)
  | OErase i n => '(c, _) ← stdcarr_erase_n junk alloc c (stdcarr_get c (Z.of_nat i)) (Z.of_nat n); Some (STDESUCCESS, c)
  | OPopFront n => c ← stdcarr_pop_front_n junk alloc c (Z.of_nat n); Some (STDESUCCESS, c)
  | OPopBack n => c ← stdcarr_pop_back_n junk alloc c (Z.of_nat n); Some (STDESUCCESS, c)
  | OTruncate n => stdcarr_resize junk alloc c (Z.of_nat n)
  | OSetCapacity n => stdcarr_set_capacity junk alloc c (Z.of_nat n)
  | OReserve n => stdcarr_reserve junk alloc c (Z.of_nat n)
  | OShrinkFit => stdcarr_shrink_fit junk alloc c
  end.

(** The same operations on a list. *)
Definition list_op (op : carr_op) (xs : list elem) : list elem :=
  match op with
  | OInsert i vals | OInsertSeq i vals => take i xs ++ vals ++ drop i xs
  | OInsertRep i v n => take i xs ++ repeat v n ++ drop i xs
  | OPushFront v => v :: xs
  | OPushBack v => xs ++ [v]
  | OErase i n => take i xs ++ drop (i + n) xs
  | OPopFront n => drop n xs
  | OPopBack n => take (length xs - n) xs
  | OTruncate n | OSetCapacity n => take n xs
  | OReserve _ | OShrinkFit => xs
  end.

(** Ranks lie in the array, elements have its element size, and sizes in bytes
    stay below 2^64. *)
Definition op_ok (op : carr_op) (c : stdcarr B) (xs : list elem) : Prop :=
  fits c 0 /\
  match op with
  | OInsert i vals | OInsertSeq i vals =>
      (i <= length xs)%nat /\ Forall (fun v => Z.of_nat (length v) = vsize c) vals /\ fits c (Z.of_nat (length vals))
  | OInsertRep i v n => (i <= length xs)%nat /\ Z.of_nat (length v) = vsize c /\ fits c (Z.of_nat n)
  | OPushFront v | OPushBack v => Z.of_nat (length v) = vsize c /\ fits c 1
  | OErase i n => (i + n <= length xs)%nat
  | OPopFront n | OPopBack n | OTruncate n => (n <= length xs)%nat
  | OSetCapacity n | OReserve n => (Z.of_nat n + 1) * vsize c < 2 ^ 64
  | OShrinkFit => True
  end.

Definition step_spec (alloc : bool) (op : carr_op) (c : stdcarr B) (xs : list elem) (code : stdcode) (c' : stdcarr B) : Prop :=
  vsize c' = vsize c /\ opts c' = opts c /\
  if decide (code = STDESUCCESS) then repr c' (list_op op xs)
  else c' = c /\ (alloc = false \/ Z.land (opts c) STDCARR_OPTS_NO_AUTO_GROW <> 0).

Lemma step_spec_error alloc op c xs e : grow_error alloc c e -> step_spec alloc op c xs e c.
Proof.
  intros [(-> & -> & _)|(-> & Ho)]; (split; [done|]; split; [done|]); (rewrite decide_False by done); (split; [done|]); [by left|by right].
Qed.

Lemma step_spec_success alloc op c xs c' :
  vsize c' = vsize c -> opts c' = opts c -> repr c' (list_op op xs) -> step_spec alloc op c xs STDESUCCESS c'.
Proof. intros H1 H2 H3. split; [done|]. split; [done|]. by rewrite decide_True by done. Qed.

Lemma set_capacity_step alloc op c xs n :
  repr c xs -> (Z.of_nat n + 1) * vsize c < 2 ^ 64 -> list_op op xs = take n xs ->
  exists code c', stdcarr_set_capacity junk alloc c (Z.of_nat n) = Some (code, c') /\ step_spec alloc op c xs code c'.
Proof.
  intros Hrep Hf Hop. destruct (set_capacity_ok junk alloc c xs n Hrep Hf) as (code & c' & H & Hv & Ho & [(-> & Hr & _)|(-> & -> & ->)]).
  - eexists _, _. split; [exact H|]. apply step_spec_success; try done. by rewrite Hop.
  - eexists _, _. split; [exact H|]. split; [done|]. split; [done|]. rewrite decide_False by done. split; [done|]. by left.
Qed.

Lemma run_op_ok alloc op c xs :
  repr c xs -> op_ok op c xs ->
  exists code c', run_op alloc c op = Some (code, c') /\ step_spec alloc op c xs code c'.
Proof.
  intros Hrep [Hf0 Hop]. destruct (repr_size _ _ Hrep) as (Hs & Hv & Hl).
  assert (Hins : forall i vals (r : option (stdcode * stdcarr B * Z)),
    list_op op xs = take i xs ++ vals ++ drop i xs ->
    (exists c' it', r = Some (STDESUCCESS, c', it') /\ inserted c xs i vals c' it') \/
    (exists e, r = Some (e, c, at_ c (Z.of_nat i * vsize c)) /\ grow_error alloc c e) ->
    exists code c', ('(e, c, _) ← r; Some (e, c)) = Some (code, c') /\ step_spec alloc op c xs code c').
  { intros i vals r Hl' [(c' & it' & -> & Hr & Hv' & Ho' & _)|(e & -> & He)]; cbn [mbind option_bind].
    - eexists _, _. split; [done|]. apply step_spec_success; try done. by rewrite Hl'.
    - eexists _, _. split; [done|]. by apply step_spec_error. }
  destruct op; cbn [run_op].
  - destruct Hop as (Hi & Hvals & Hf). rewrite (get_at c xs) by done. apply (Hins i vals); [done|]. by apply insert_n_ok.
  - destruct Hop as (Hi & Hvals & Hf). rewrite (get_at c xs) by done. apply (Hins i vals); [done|]. by apply insert_seq_n_ok.
  - destruct Hop as (Hi & Hval & Hf). rewrite (get_at c xs) by done. unfold stdcarr_insert_rep. rewrite Nat2Z.id.
    apply (Hins i (repeat val n)); [done|]. apply insert_seq_n_ok; try done; [|by rewrite repeat_length].
    clear -Hval. induction n; cbn; by constructor.
  - destruct Hop as [Hval Hf]. unfold stdcarr_push_front, stdcarr_insert, stdcarr_begin. rewrite <- (at_inj_0 c xs Hrep).
    apply (Hins 0%nat [val]); [done|]. pose proof (insert_n_ok junk alloc c xs 0 [val] Hrep ltac:(lia)) as H. cbn [concat length] in H.
    rewrite app_nil_r in H. apply H; [by constructor|done].
  - destruct Hop as [Hval Hf]. unfold stdcarr_push_back, stdcarr_insert, stdcarr_end. rewrite (end_at c xs Hrep).
    apply (Hins (length xs) [val]).
    + cbn [list_op]. rewrite take_ge, drop_ge by lia. done.
    + pose proof (insert_n_ok junk alloc c xs (length xs) [val] Hrep ltac:(lia)) as H. cbn [concat length] in H.
      rewrite app_nil_r in H. apply H; [by constructor|done].
  - rewrite (get_at c xs) by (done || lia). destruct (erase_n_ok junk alloc c xs i n Hrep Hop Hf0) as (c' & it' & -> & Hr & H1 & H2 & _).
    cbn [mbind option_bind]. eexists _, _. split; [done|]. by apply step_spec_success.
  - destruct (pop_front_n_ok junk alloc c xs n Hrep Hop Hf0) as (c' & -> & Hr & H1 & H2). cbn [mbind option_bind].
    eexists _, _. split; [done|]. by apply step_spec_success.
  - destruct (pop_back_n_ok junk alloc c xs n Hrep Hop Hf0) as (c' & -> & Hr & H1 & H2). cbn [mbind option_bind].
    eexists _, _. split; [done|]. by apply step_spec_success.
  - destruct (resize_down_ok junk alloc c xs n Hrep Hop Hf0) as (c' & -> & Hr & H1 & H2).
    eexists _, _. split; [done|]. by apply step_spec_success.
  - by apply set_capacity_step.
  - unfold stdcarr_reserve. destruct (Z.ltb_spec (stdcarr_high_capacity c) (Z.of_nat n)) as [Hlt|_].
    + apply set_capacity_step; try done. cbn. rewrite take_ge; [done|].
      unfold stdcarr_high_capacity in Hlt. destruct Hrep as [[_ _ _ _ _ [(_ & _ & _ & ? & ?)|[_ ?]]] _]; destruct (Z.eqb_spec (cap c) 0); lia.
    + eexists _, _. split; [done|]. by apply step_spec_success.
  - unfold stdcarr_shrink_fit. rewrite Hs. apply set_capacity_step; [done| |cbn; by rewrite take_ge by lia].
    unfold fits, STDCARR_MIN_AUTO_ALLOC in Hf0. eapply Z.le_lt_trans; [|exact Hf0]. apply Z.mul_le_mono_nonneg_r; lia.
Qed.

(** A sequence of operations, each with the answer of malloc. *)
Fixpoint run (ops : list (bool * carr_op)) (c : stdcarr B) : option (list stdcode * stdcarr B) :=
  match ops with
  | [] => Some ([], c)
  | (alloc, op) :: ops => '(code, c) ← run_op alloc c op; '(codes, c) ← run ops c; Some (code :: codes, c)
  end.

(** On a list an operation that failed does nothing. *)
Fixpoint list_run (ops : list (bool * carr_op)) (codes : list stdcode) (xs : list elem) : list elem :=
  match ops, codes with
  | (_, op) :: ops, code :: codes => list_run ops codes (if decide (code = STDESUCCESS) then list_op op xs else xs)
  | _, _ => xs
  end.

Fixpoint ops_ok (ops : list (bool * carr_op)) (c : stdcarr B) (xs : list elem) : Prop :=
  match ops with
  | [] => True
  | (alloc, op) :: ops =>
      op_ok op c xs /\
      forall code c', run_op alloc c op = Some (code, c') -> ops_ok ops c' (if decide (code = STDESUCCESS) then list_op op xs else xs)
  end.

Lemma run_ok ops c xs :
  repr c xs -> ops_ok ops c xs ->
  exists codes c', run ops c = Some (codes, c') /\ length codes = length ops /\ repr c' (list_run ops codes xs) /\
    (Forall (fun op => op.1 = true) ops -> Z.land (opts c) STDCARR_OPTS_NO_AUTO_GROW = 0 -> Forall (fun code => code = STDESUCCESS) codes).
Proof.
  revert c xs. induction ops as [|[alloc op] ops IH]; intros c xs Hrep Hok; cbn [run].
  { exists [], c. split_and!; try done. }
  destruct Hok as [Hop Hok]. destruct (run_op_ok alloc op c xs Hrep Hop) as (code & c1 & Hrun & Hv & Ho & Hst). rewrite Hrun. cbn [mbind option_bind].
  specialize (Hok _ _ Hrun). destruct (decide (code = STDESUCCESS)) as [->|Hne].
  - destruct (IH c1 _ Hst Hok) as (codes & c2 & -> & Hlen & Hrep2 & Hall). cbn [mbind option_bind].
    exists (STDESUCCESS :: codes), c2. split; [done|]. split; [cbn; congruence|]. split.
    + cbn [list_run]. by rewrite decide_True by done.
    + intros Ha Hg. inversion_clear Ha. constructor; [done|]. apply Hall; [done|congruence].
  - destruct Hst as [-> Hg]. destruct (IH c _ Hrep Hok) as (codes & c2 & -> & Hlen & Hrep2 & Hall). cbn [mbind option_bind].
    exists (code :: codes), c2. split; [done|]. split; [cbn; congruence|]. split.
    + cbn [list_run]. by rewrite decide_False by done.
    + intros Ha Hng. inversion_clear Ha. destruct Hg as [Hg|Hg]; [|done]. cbn in H. congruence.
Qed.

Lemma construct_repr vs op :
  0 < vs -> 0 <= op < 4 -> exists c : stdcarr B, stdcarr_construct vs op = (STDESUCCESS, c) /\ repr c [] /\ vsize c = vs /\ opts c = op.
Proof.
  intros Hv Ho. unfold stdcarr_construct. rewrite (proj2 (Z.eqb_neq _ _)) by lia.
  replace (Z.land op (Z.lnot (Z.lor STDCARR_OPTS_NO_AUTO_GROW STDCARR_OPTS_NO_AUTO_SHRINK))) with 0.
  - eexists. split; [done|]. split; [|done]. split; [|constructor].
    split; unfold endbase; cbn; try done; [by exists 0|intros k Hk; cbn in Hk; lia|by left].
  - assert (op = 0 \/ op = 1 \/ op = 2 \/ op = 3) as [-> | [-> | [-> | ->]]] by lia; reflexivity.
Qed.
End ops.

(** C39: the circular array is a sequence.  Any run of insertions, pushes, pops,
    erasures, truncations and changes of the capacity, with malloc failing at
    will, stays within the allocated block, never copies overlapping regions
    with memcpy, and leaves exactly the elements the same operations leave in a
    list; an operation that reports an error changes nothing, and none does
    when memory is granted and growing is allowed. *)
Theorem stdcarr_refines_list {B} (junk : nat -> B) (vs op : Z) (ops : list (bool * carr_op)) :
  0 < vs -> 0 <= op < 4 -> ops_ok junk ops (stdcarr_construct vs op).2 [] ->
  exists codes c, run junk ops (stdcarr_construct vs op).2 = Some (codes, c) /\ length codes = length ops /\
    repr c (list_run ops codes []) /\ stdcarr_size c = Z.of_nat (length (list_run ops codes [])) /\
    (Forall (fun o => o.1 = true) ops -> Z.land op STDCARR_OPTS_NO_AUTO_GROW = 0 -> Forall (fun code => code = STDESUCCESS) codes).
Proof.
  intros Hv Ho Hok. destruct (construct_repr (B := B) vs op Hv Ho) as (c0 & Hc & Hrep & Hvs & Hop). rewrite Hc in *. cbn [snd] in *.
  destruct (run_ok junk ops c0 [] Hrep Hok) as (codes & c & Hrun & Hlen & Hr & Hall). rewrite Hop in Hall.
  exists codes, c. split_and!; try done. apply (repr_size _ _ Hr).
Qed.

Module ExC.
Definition junk (i : nat) : Z := 0.
Definition ops : list (bool * @carr_op Z) :=
  [(true, OPushBack [1; 1]); (true, OPushFront [2; 2]); (true, OInsert 1 [[3; 3]; [4; 4]]); (true, OErase 0 2); (false, OPopBack 1)].
End ExC.

Lemma stdcarr_refines_list_witness :
  exists codes c, run ExC.junk ExC.ops (stdcarr_construct 2 0).2 = Some (codes, c) /\ repr c [[4; 4]].
Proof.
  destruct (stdcarr_refines_list ExC.junk 2 0 ExC.ops) as (codes & c & Hrun & Hlen & Hr & _); [lia|lia| |].
  - cbn [ops_ok ExC.ops]. repeat (split; [unfold op_ok, fits; vm_compute; repeat (split || constructor); try discriminate
      |intros code c' H; vm_compute in H; injection H as <- <-; cbn [decide]]). exact I.
  - exists codes, c. split; [exact Hrun|]. vm_compute in Hrun. injection Hrun as <- <-. exact Hr.
Defined.

(** ** Iterators *)
Lemma it_diff {B} (c : stdcarr B) xs (i j : nat) :
  repr c xs -> (i <= length xs)%nat -> (j <= length xs)%nat ->
  (if begin c <=? at_ c (Z.of_nat i * vsize c)
   then if begin c <=? at_ c (Z.of_nat j * vsize c) then at_ c (Z.of_nat i * vsize c) - at_ c (Z.of_nat j * vsize c)
        else at_ c (Z.of_nat i * vsize c) - endbase c + (0 - at_ c (Z.of_nat j * vsize c))
   else if at_ c (Z.of_nat j * vsize c) <? begin c then at_ c (Z.of_nat i * vsize c) - at_ c (Z.of_nat j * vsize c)
        else endbase c - at_ c (Z.of_nat j * vsize c) + at_ c (Z.of_nat i * vsize c)) = (Z.of_nat i - Z.of_nat j) * vsize c.
Proof.
  intros Hrep Hi Hj. destruct (repr_size _ _ Hrep) as (Hs & Hv & Hl). pose proof Hrep as [[_ _ Hbk _ _ Hsh] _].
  destruct Hsh as [(Hb & Hb0 & _ & Hs0 & Hc0)|[[_ Hb Hn _] Hcap]].
  - assert (i = 0%nat /\ j = 0%nat) as [-> ->] by lia. change (Z.of_nat 0 * vsize c) with 0. rewrite (at_inj_0 c xs Hrep), Hb0. cbn. lia.
  - assert (0 <= Z.of_nat i * vsize c <= Z.of_nat (length (concat xs))) by (rewrite Hl; nia).
    assert (0 <= Z.of_nat j * vsize c <= Z.of_nat (length (concat xs))) by (rewrite Hl; nia).
    rewrite Z.mul_sub_distr_r. set (x := Z.of_nat i * vsize c) in *. set (y := Z.of_nat j * vsize c) in *. unfold at_.
    pose proof (wrap_cases (endbase c) (begin c + x)). pose proof (wrap_cases (endbase c) (begin c + y)).
    destruct (Z.leb_spec (begin c) (wrap (endbase c) (begin c + x))), (Z.leb_spec (begin c) (wrap (endbase c) (begin c + y))),
      (Z.ltb_spec (wrap (endbase c) (begin c + y)) (begin c)); lia.
Qed.

(** What iterators refer to.  The iterator of rank [i] gives the element of
    rank [i], has rank [i], is the end exactly for the size, and moves by one
    element.  The difference of two iterators is right when the first is not in
    front of the second; otherwise, for elements of more than one byte, it is
    positive, because a negative difference is divided as an unsigned number.
    Erasing in place with a shift to the left leaves the iterator on the element
    [n] behind the one that followed the erased elements. *)
Theorem stdcarr_iterators {B} (junk : nat -> B) (c : stdcarr B) (xs : list (list B)) :
  repr c xs -> fits c 0 ->
  (forall (i : nat), (i < length xs)%nat -> stdcarr_it_val c (stdcarr_get c (Z.of_nat i)) = xs !! i) /\
  (forall (i : nat), (i <= length xs)%nat -> stdcarr_rank c (stdcarr_get c (Z.of_nat i)) = Z.of_nat i /\
     stdcarr_is_end c (stdcarr_get c (Z.of_nat i)) = bool_decide (i = length xs)) /\
  (forall (i : nat), (i < length xs)%nat -> stdcarr_it_next c (stdcarr_get c (Z.of_nat i)) = stdcarr_get c (Z.of_nat (S i))) /\
  (forall (i j : nat), (j <= i <= length xs)%nat ->
     stdcarr_it_cmp c (stdcarr_get c (Z.of_nat i)) (stdcarr_get c (Z.of_nat j)) = Z.of_nat i - Z.of_nat j) /\
  (forall (i j : nat), (i < j <= length xs)%nat -> 2 <= vsize c ->
     0 < stdcarr_it_cmp c (stdcarr_get c (Z.of_nat i)) (stdcarr_get c (Z.of_nat j))) /\
  (forall alloc (i n : nat), (i + n <= length xs)%nat -> (0 < n)%nat -> cap c = STDCARR_MIN_AUTO_ALLOC ->
     STDCARR_ERS_SHIFT_RIGHT c (stdcarr_get c (Z.of_nat i)) (Z.of_nat n) = false ->
     exists c', stdcarr_erase_n junk alloc c (stdcarr_get c (Z.of_nat i)) (Z.of_nat n) =
         Some (c', at_ c' (Z.of_nat (i + n) * vsize c)) /\ repr c' (take i xs ++ drop (i + n) xs)).
Proof.
  intros Hrep Hf. destruct (repr_size _ _ Hrep) as (Hs & Hv & Hl).
  assert (Hget : forall i : nat, (i <= length xs)%nat -> stdcarr_get c (Z.of_nat i) = at_ c (Z.of_nat i * vsize c))
    by (intros; by apply (get_at c xs)).
  assert (Hsmall : Z.of_nat (length xs) * vsize c < 2 ^ 63).
  { unfold fits, STDCARR_MIN_AUTO_ALLOC in Hf. rewrite Hs in Hf. lia. }
  split_and!.
  - intros i Hi. rewrite Hget by lia. destruct (lookup_lt_is_Some_2 xs i Hi) as [v Hxi]. rewrite Hxi. by apply (it_val_at c xs).
  - intros i Hi. rewrite Hget by done. split; [by apply (rank_at c xs)|]. unfold stdcarr_is_end. rewrite (end_at c xs Hrep).
    pose proof (rank_at c xs i Hrep Hi Hf) as H1. pose proof (rank_at c xs (length xs) Hrep ltac:(lia) Hf) as H2.
    case_bool_decide as He; [subst i; apply Z.eqb_refl|]. apply Z.eqb_neq. intros Heq. rewrite Heq in H1. lia.
  - intros i Hi. rewrite !Hget by lia. unfold stdcarr_it_next. pose proof (forward_at c xs i 1 Hrep ltac:(lia)) as H.
    rewrite Z.mul_1_l in H. rewrite H. f_equal. lia.
  - intros i j Hij. rewrite !Hget by lia. unfold stdcarr_it_cmp. rewrite (it_diff c xs i j Hrep) by lia.
    rewrite u64_small by nia. rewrite Z.div_mul by lia. apply wraps_small; [lia|]. unfold in_s. change (2 ^ (64 - 1)) with (2 ^ 63). nia.
  - intros i j Hij Hv2. rewrite !Hget by lia. unfold stdcarr_it_cmp. rewrite (it_diff c xs i j Hrep) by lia.
    assert (Hu : u64 ((Z.of_nat i - Z.of_nat j) * vsize c) = 2 ^ 64 + (Z.of_nat i - Z.of_nat j) * vsize c).
    { unfold u64, wrapu. rewrite <- (Z_mod_plus_full _ 1), Z.mod_small; nia. }
    rewrite Hu. assert (Hd : 0 < (2 ^ 64 + (Z.of_nat i - Z.of_nat j) * vsize c) / vsize c < 2 ^ 63).
    { split; [apply Z.div_str_pos; nia|]. apply Z.div_lt_upper_bound; [lia|]. nia. }
    rewrite wraps_small; [lia|lia|]. unfold in_s. change (2 ^ (64 - 1)) with (2 ^ 63). lia.
  - intros alloc i n Hi Hn Hcap Hsr. rewrite !Hget by lia. rewrite Hget in Hsr by lia.
    destruct (erase_bounds c xs (Z.of_nat n) Hrep ltac:(lia) Hf) as [Hu1 Hu2]. unfold stdcarr_erase_n. rewrite Hu1, Hu2, Hsr.
    rewrite (forward_at c xs i n Hrep Hi). unfold stdcarr_low_erase_shift. destruct (Z.eqb_spec (Z.of_nat n * vsize c) 0); [nia|].
    rewrite Hcap, Z.eqb_refl, orb_true_r. pose proof Hrep as [Hlg Hxs].
    destruct (erase_left_legal c (concat xs) (Z.of_nat i * vsize c) (Z.of_nat n) Hlg ltac:(nia) ltac:(lia) ltac:(rewrite Hl; nia))
      as (c' & Hrun & Hlg' & Hv' & _ & _ & Hat).
    replace (Z.of_nat i * vsize c + Z.of_nat n * vsize c) with (Z.of_nat (i + n) * vsize c) in * by lia.
    rewrite Hrun. cbn [mbind option_bind]. exists c'. split; [by rewrite Hat|].
    rewrite (cut_erased xs (vsize c) i n Hxs Hv) in Hlg'. split; [done|]. rewrite Hv'. apply Forall_app.
    split; [by apply Forall_take|by apply Forall_drop].
Qed.

(** Four elements of two bytes: the difference of the first and the second
    iterator is 2^63 - 1, and erasing the last element leaves the iterator
    behind the end. *)
Lemma stdcarr_iterators_witness :
  exists codes c, run ExC.junk (take 3 ExC.ops) (stdcarr_construct 2 0).2 = Some (codes, c) /\
    0 < stdcarr_it_cmp c (stdcarr_get c (Z.of_nat 0)) (stdcarr_get c (Z.of_nat 1)) /\
    stdcarr_it_cmp c (stdcarr_get c (Z.of_nat 0)) (stdcarr_get c (Z.of_nat 1)) = 2 ^ 63 - 1 /\
    exists c', stdcarr_erase_n ExC.junk true c (stdcarr_get c (Z.of_nat 3)) (Z.of_nat 1) = Some (c', at_ c' (Z.of_nat (3 + 1) * vsize c)).
Proof.
  destruct (construct_repr (B := Z) 2 0 ltac:(lia) ltac:(lia)) as (c0 & Hc0 & Hr0 & _). injection Hc0 as <-.
  destruct (run_ok ExC.junk (take 3 ExC.ops) _ [] Hr0) as (codes & c & Hrun & Hlen & Hr & _).
  - cbn [ops_ok ExC.ops take]. repeat (split; [unfold op_ok, fits; vm_compute; repeat (split || constructor); try discriminate
      |intros code c' H; vm_compute in H; injection H as <- <-; cbn [decide]]). exact I.
  - exists codes, c. split; [exact Hrun|]. vm_compute in Hrun. injection Hrun as <- <-.
    destruct (stdcarr_iterators ExC.junk _ _ Hr) as (_ & _ & _ & _ & H5 & H6); [unfold fits; vm_compute; reflexivity|].
    split; [apply H5; [vm_compute; lia|vm_compute; discriminate]|]. split; [vm_compute; reflexivity|].
    destruct (H6 true 3%nat 1%nat) as (c' & H & _); [vm_compute; lia|lia|reflexivity|vm_compute; reflexivity|]. exists c'. exact H.
Defined.
