(* ===== verification/Events.v ===== *)
(** * Events: the event system of libspread-util/src/events.c

    Time arithmetic on [sp_time], the queue of time events, the selection of
    the next action by the event loop, and the registry of file-descriptor
    events with its [select] masks. *)
From stdpp Require Import base list gmap numbers option sets sorting.
From Stdlib Require Import ZArith Lia.
From S2P Require Import Prelude.
#[local] Open Scope Z_scope.

(** ** Time *)
Module SpTime.

Record sp_time := mk_time { sec : Z; usec : Z }.

#[export] Instance sp_time_eq_dec : EqDecision sp_time.
Proof. solve_decision. Defined.

Definition E_neg_time (t : sp_time) : sp_time := mk_time (- sec t) (- usec t).

Definition E_add_time (t delta_t : sp_time) : sp_time :=
  let s := sec t + sec delta_t in
  let u := usec t + usec delta_t in
  let '(s, u) := if 1000000 <=? u then (s + 1, u - 1000000)
                 else if u <=? -1000000 then (s - 1, u + 1000000)
                 else (s, u) in
  if 0 <? s then (if u <? 0 then mk_time (s - 1) (u + 1000000) else mk_time s u)
  else if s <? 0 then (if 0 <? u then mk_time (s + 1) (u - 1000000) else mk_time s u)
  else mk_time s u.

Definition E_sub_time (t delta_t : sp_time) : sp_time := E_add_time t (E_neg_time delta_t).

Definition E_compare_time (t1 t2 : sp_time) : Z :=
  if sec t2 <? sec t1 then 1
  else if sec t1 <? sec t2 then -1
  else if usec t2 <? usec t1 then 1
  else if usec t1 <? usec t2 then -1
  else 0.

(** The microseconds a time denotes; a time is normal when its microseconds
    are below a second and agree in sign with its seconds. *)
Definition total (t : sp_time) : Z := sec t * 1000000 + usec t.
Definition in_range (t : sp_time) : Prop := -1000000 < usec t < 1000000.
Definition normal (t : sp_time) : Prop :=
  in_range t /\ (0 < sec t -> 0 <= usec t) /\ (sec t < 0 -> usec t <= 0).

Lemma add_time_total t d : total (E_add_time t d) = total t + total d.
Proof. unfold total, E_add_time. simpl_if; simpl; simpl_if; simpl; lia. Qed.

Lemma add_time_normal t d : in_range t -> in_range d -> normal (E_add_time t d).
Proof.
  unfold normal, in_range, E_add_time. intros.
  simpl_if; simpl; simpl_if; simpl; lia.
Qed.

Lemma neg_time_total t : total (E_neg_time t) = - total t.
Proof. unfold total, E_neg_time. simpl. lia. Qed.

Lemma sub_time_total t d : total (E_sub_time t d) = total t - total d.
Proof. unfold E_sub_time. rewrite add_time_total, neg_time_total. lia. Qed.

Lemma sub_time_normal t d : in_range t -> in_range d -> normal (E_sub_time t d).
Proof. intros. apply add_time_normal; [done|]. unfold in_range, E_neg_time in *. simpl. lia. Qed.

Lemma compare_time_total t1 t2 :
  normal t1 -> normal t2 -> E_compare_time t1 t2 = Z.sgn (total t1 - total t2).
Proof.
  unfold normal, in_range, total, E_compare_time. intros.
  assert (Hp : forall x, 0 < x -> 1 = Z.sgn x) by (intros; symmetry; by apply Z.sgn_pos).
  assert (Hn : forall x, x < 0 -> -1 = Z.sgn x) by (intros; symmetry; by apply Z.sgn_neg).
  simpl_if; try (apply Hp; lia); try (apply Hn; lia).
  replace (_ - _) with 0 by lia. done.
Qed.

(** The order [E_compare_time] decides, on any times. *)
Definition time_le (t1 t2 : sp_time) : Prop := E_compare_time t1 t2 <= 0.

Lemma time_le_lex t1 t2 : time_le t1 t2 <-> sec t1 < sec t2 \/ sec t1 = sec t2 /\ usec t1 <= usec t2.
Proof. unfold time_le, E_compare_time. simpl_if; lia. Qed.

Lemma compare_lt_lex t1 t2 :
  E_compare_time t1 t2 < 0 <-> sec t1 < sec t2 \/ sec t1 = sec t2 /\ usec t1 < usec t2.
Proof. unfold E_compare_time. simpl_if; lia. Qed.

#[export] Instance time_le_refl : Reflexive time_le.
Proof. intros t. apply time_le_lex. lia. Qed.

#[export] Instance time_le_trans : Transitive time_le.
Proof. intros a b c. rewrite !time_le_lex. lia. Qed.

Lemma time_lt_le t1 t2 : E_compare_time t1 t2 < 0 -> time_le t1 t2.
Proof. unfold time_le. lia. Qed.

Lemma time_nlt_le t1 t2 : ~ E_compare_time t1 t2 < 0 -> time_le t2 t1.
Proof. rewrite compare_lt_lex, time_le_lex. lia. Qed.
End SpTime.
Export SpTime.

(** ** The queue of time events *)
Section TimeQueue.
(** Handlers (function pointers) and data pointers are compared, never
    inspected. *)
Context {F D : Type} `{EqDecision F, EqDecision D}.

Record time_event := mk_event { ev_t : sp_time; ev_func : F; ev_code : Z; ev_data : D }.

Definition ev_same (func : F) (code : Z) (data : D) (e : time_event) : bool :=
  bool_decide (ev_func e = func) && bool_decide (ev_data e = data) && (ev_code e =? code).

(** The [while] loop of [E_queue]: [t_post] is the rest of the list. *)
Fixpoint E_queue_loop (t_e : time_event) (inserted deleted : bool) (t_post : list time_event)
    : list time_event :=
  match t_post with
  | [] => if inserted then [] else [t_e]
  | p :: post' =>
      if inserted && deleted then t_post
      else if ev_same (ev_func t_e) (ev_code t_e) (ev_data t_e) p
      then E_queue_loop t_e inserted true post'
      else if negb inserted && (E_compare_time (ev_t t_e) (ev_t p) <? 0)
      then t_e :: p :: E_queue_loop t_e true deleted post'
      else p :: E_queue_loop t_e inserted deleted post'
  end.

(** [now] is the reading of the monotonic clock. *)
Definition E_queue (now : sp_time) (func : F) (code : Z) (data : D) (delta_time : sp_time)
    (Time_queue : list time_event) : list time_event :=
  let t_e := mk_event (E_add_time now delta_time) func code data in
  let '(q, deleted) :=
    match Time_queue with
    | x :: q' => if ev_same func code data x then (q', true) else (Time_queue, false)
    | [] => ([], false)
    end in
  match q with
  | [] => [t_e]
  | x :: rest =>
      if E_compare_time (ev_t t_e) (ev_t x) <? 0
      then t_e :: E_queue_loop t_e true deleted q
      else x :: E_queue_loop t_e false deleted rest
  end.

(** Returns 0 and the shorter queue, or -1. *)
Fixpoint E_dequeue (func : F) (code : Z) (data : D) (Time_queue : list time_event)
    : Z * list time_event :=
  match Time_queue with
  | [] => (-1, [])
  | x :: q' =>
      if ev_same func code data x then (0, q')
      else let '(r, q'') := E_dequeue func code data q' in (r, x :: q'')
  end.

Definition E_dequeue_all_time_events (Time_queue : list time_event) : list time_event := [].

Fixpoint E_in_queue (func : F) (code : Z) (data : D) (Time_queue : list time_event) : Z :=
  match Time_queue with
  | [] => 0
  | x :: q' => if ev_same func code data x then 1 else E_in_queue func code data q'
  end.

(** What the loop of [E_handle_events] does with the time events: run the first
    event of the queue, or stop and [select] with a timeout.  [first] is set
    until a round without high or medium priority events. *)
Inductive loop_action := Fire (e : time_event) (rest : list time_event) | Poll (timeout : sp_time).

Definition long_timeout : sp_time := mk_time 10000 0.

Definition E_time_action (first : bool) (now : sp_time) (Time_queue : list time_event) : loop_action :=
  let clamp t := if sec t <? 0 then mk_time 0 0 else t in
  match Time_queue with
  | [] => Poll (clamp long_timeout)
  | x :: q' => if negb first && (0 <=? E_compare_time now (ev_t x)) then Fire x q'
               else Poll (clamp (E_sub_time (ev_t x) now))
  end.

(** ** Invariant: sorted by time, no event registered twice *)

Definition ev_key (e : time_event) : F * Z * D := (ev_func e, ev_code e, ev_data e).
Definition ev_le (e1 e2 : time_event) : Prop := time_le (ev_t e1) (ev_t e2).

Definition queue_ok (q : list time_event) : Prop :=
  StronglySorted ev_le q /\ NoDup (ev_key <$> q).

Definition keep (func : F) (code : Z) (data : D) (q : list time_event) : list time_event :=
  filter (fun e => ev_same func code data e = false) q.

Lemma ev_same_key func code data e : ev_same func code data e = true <-> ev_key e = (func, code, data).
Proof.
  unfold ev_same, ev_key. rewrite !andb_true_iff, !bool_decide_eq_true, Z.eqb_eq.
  split; [intros [[-> ->] ->]; done | by intros [= -> -> ->]].
Qed.

Lemma keep_absent func code data q :
  (func, code, data) ∉ ev_key <$> q -> keep func code data q = q.
Proof.
  induction q as [|e q IH]; intros Hn; [done|]. unfold keep. rewrite filter_cons.
  rewrite fmap_cons, not_elem_of_cons in Hn. destruct Hn as [Hne Hn].
  rewrite decide_True; [f_equal; by apply IH|].
  destruct (ev_same func code data e) eqn:E; [|done]. apply ev_same_key in E. congruence.
Qed.

(** Insertion after every event that is not later: the specification. *)
Fixpoint insert_time (e : time_event) (q : list time_event) : list time_event :=
  match q with
  | [] => [e]
  | x :: q' => if E_compare_time (ev_t e) (ev_t x) <? 0 then e :: q else x :: insert_time e q'
  end.

Lemma queue_loop_done e b q :
  ev_key e ∉ ev_key <$> q -> E_queue_loop e true b q = q.
Proof.
  induction q as [|x q IH]; intros Hn; [done|]. cbn [E_queue_loop].
  rewrite fmap_cons, not_elem_of_cons in Hn. destruct Hn as [Hne Hn].
  destruct b; [done|]. cbn [andb negb]. destruct (ev_same _ _ _ x) eqn:E.
  - apply ev_same_key in E. done.
  - by rewrite IH.
Qed.

Lemma queue_loop_deleting e q :
  NoDup (ev_key <$> q) ->
  E_queue_loop e true false q = keep (ev_func e) (ev_code e) (ev_data e) q.
Proof.
  induction q as [|x q IH]; intros Hnd; [done|]. cbn [E_queue_loop andb negb].
  rewrite fmap_cons, NoDup_cons in Hnd. destruct Hnd as [Hx Hnd]. unfold keep. rewrite filter_cons.
  destruct (ev_same _ _ _ x) eqn:E.
  - rewrite decide_False by congruence. apply ev_same_key in E.
    assert (ev_key e ∉ ev_key <$> q) by (change (ev_key e) with (ev_func e, ev_code e, ev_data e); congruence).
    rewrite queue_loop_done by done. symmetry. apply keep_absent. done.
  - rewrite decide_True by done. f_equal. by apply IH.
Qed.

Lemma queue_loop_inserting e d q :
  NoDup (ev_key <$> q) -> (d = true -> ev_key e ∉ ev_key <$> q) ->
  E_queue_loop e false d q = insert_time e (keep (ev_func e) (ev_code e) (ev_data e) q).
Proof.
  revert d. induction q as [|x q IH]; intros d Hnd Hd; [done|]. cbn [E_queue_loop andb negb].
  rewrite fmap_cons, NoDup_cons in Hnd. destruct Hnd as [Hx Hnd].
  unfold keep. rewrite filter_cons. destruct (ev_same _ _ _ x) eqn:E.
  - rewrite decide_False by congruence. apply ev_same_key in E. fold (keep (ev_func e) (ev_code e) (ev_data e) q).
    apply IH; [done|]. intros _. by rewrite E in Hx.
  - rewrite decide_True by done. cbn [insert_time]. fold (keep (ev_func e) (ev_code e) (ev_data e) q).
    assert (Hd' : d = true -> ev_key e ∉ ev_key <$> q).
    { intros Ht. specialize (Hd Ht). rewrite fmap_cons, not_elem_of_cons in Hd. tauto. }
    destruct (E_compare_time (ev_t e) (ev_t x) <? 0).
    + do 2 f_equal. destruct d; [|by apply queue_loop_deleting].
      rewrite queue_loop_done by auto. symmetry. apply keep_absent. by apply Hd'.
    + f_equal. by apply IH.
Qed.

(** [E_queue] is: drop the similar event, insert by time. *)
Lemma E_queue_insert now func code data delta q :
  NoDup (ev_key <$> q) ->
  E_queue now func code data delta q =
  insert_time (mk_event (E_add_time now delta) func code data) (keep func code data q).
Proof.
  intros Hnd. unfold E_queue. set (e := mk_event _ _ _ _).
  assert (Hgen : forall d q', NoDup (ev_key <$> q') -> (d = true -> ev_key e ∉ ev_key <$> q') ->
    (match q' with x :: _ => ev_same func code data x = false | [] => True end) ->
    match q' with
    | [] => [e]
    | x :: rest => if E_compare_time (ev_t e) (ev_t x) <? 0 then e :: E_queue_loop e true d q'
                   else x :: E_queue_loop e false d rest
    end = insert_time e (keep func code data q')).
  { intros d [|x q'] Hnd' Hd Hx; [done|]. pose proof Hnd' as Hnd2.
    rewrite fmap_cons, NoDup_cons in Hnd'. destruct Hnd' as [Hxn Hnd'].
    unfold keep at 1. rewrite filter_cons, decide_True by done. cbn [insert_time].
    fold (keep func code data q'). destruct (E_compare_time (ev_t e) (ev_t x) <? 0).
    - f_equal. destruct d.
      + rewrite queue_loop_done by auto. f_equal. symmetry. apply keep_absent.
        specialize (Hd eq_refl). rewrite fmap_cons, not_elem_of_cons in Hd. by destruct Hd.
      + rewrite queue_loop_deleting by done. unfold keep. by rewrite filter_cons, decide_True.
    - f_equal. rewrite queue_loop_inserting; [done|done|]. intros Ht. specialize (Hd Ht).
      rewrite fmap_cons, not_elem_of_cons in Hd. tauto. }
  destruct q as [|x q']; [done|]. destruct (ev_same func code data x) eqn:E.
  - rewrite fmap_cons, NoDup_cons in Hnd. destruct Hnd as [Hxn Hnd]. apply ev_same_key in E as Ek.
    unfold keep. rewrite filter_cons, decide_False by congruence. fold (keep func code data q').
    rewrite Ek in Hxn. apply Hgen; [done|done|]. destruct q' as [|y q']; [done|].
    destruct (ev_same func code data y) eqn:Ey; [|done]. apply ev_same_key in Ey.
    rewrite fmap_cons, not_elem_of_cons in Hxn. destruct Hxn as [Hxn _]. congruence.
  - apply (Hgen false (x :: q')); done.
Qed.

(** Insertion by time adds the event, keeps the order, and puts the new event
    behind the events of the same time. *)
Lemma insert_time_perm e q : insert_time e q ≡ₚ e :: q.
Proof.
  induction q as [|x q IH]; [done|]. cbn [insert_time].
  destruct (_ <? 0); [done|]. rewrite IH. constructor.
Qed.

Lemma insert_time_sorted e q : StronglySorted ev_le q -> StronglySorted ev_le (insert_time e q).
Proof.
  induction 1 as [|x q Hs IH Hx]; [repeat constructor|]. cbn [insert_time].
  destruct (Z.ltb_spec (E_compare_time (ev_t e) (ev_t x)) 0) as [Hlt|Hge].
  - constructor; [by constructor|]. constructor; [by apply time_lt_le|].
    eapply Forall_impl; [exact Hx|]. intros y Hy. unfold ev_le in *. etrans; [by apply time_lt_le|done].
  - constructor; [done|]. rewrite insert_time_perm. constructor; [|done].
    apply time_nlt_le. lia.
Qed.

Lemma insert_time_split e q :
  StronglySorted ev_le q ->
  exists q1 q2, q = q1 ++ q2 /\ insert_time e q = q1 ++ e :: q2 /\
    Forall (fun x => ev_le x e) q1 /\ Forall (fun x => E_compare_time (ev_t e) (ev_t x) < 0) q2.
Proof.
  induction 1 as [|x q Hs IH Hx]; [by exists [], []|]. cbn [insert_time].
  destruct (Z.ltb_spec (E_compare_time (ev_t e) (ev_t x)) 0) as [Hlt|Hge].
  - exists [], (x :: q). do 3 (split; [done|]). constructor; [done|].
    eapply Forall_impl; [exact Hx|]. intros y Hy. unfold ev_le in Hy. rewrite time_le_lex in Hy.
    rewrite compare_lt_lex in *. lia.
  - destruct IH as (q1 & q2 & -> & -> & H1 & H2). exists (x :: q1), q2.
    do 2 (split; [done|]). split; [|done]. constructor; [|done]. apply time_nlt_le. lia.
Qed.

Lemma keep_sorted func code data q : StronglySorted ev_le q -> StronglySorted ev_le (keep func code data q).
Proof.
  unfold keep. induction 1 as [|x q Hs IH Hx]; [constructor|]. rewrite filter_cons.
  destruct (decide _); [|done]. constructor; [done|].
  apply Forall_forall. intros y Hy. apply list_elem_of_filter in Hy as [_ Hy]. rewrite Forall_forall in Hx. by apply Hx.
Qed.

Lemma keep_keys func code data q :
  NoDup (ev_key <$> q) ->
  NoDup (ev_key <$> keep func code data q) /\ (func, code, data) ∉ ev_key <$> keep func code data q.
Proof.
  intros Hnd. split.
  - unfold keep. eapply sublist_NoDup; [exact Hnd|]. apply fmap_sublist, sublist_filter.
  - intros (e & He & Hin)%list_elem_of_fmap. unfold keep in Hin.
    apply list_elem_of_filter in Hin as [Hs _]. symmetry in He. apply ev_same_key in He. congruence.
Qed.

Lemma E_queue_ok now func code data delta q :
  queue_ok q -> queue_ok (E_queue now func code data delta q).
Proof.
  intros [Hs Hnd]. rewrite E_queue_insert by done. split; [by apply insert_time_sorted, keep_sorted|].
  rewrite insert_time_perm, fmap_cons. destruct (keep_keys func code data q Hnd).
  by constructor.
Qed.

(** Dequeueing drops the event when there is one. *)
Lemma E_dequeue_keep func code data q :
  NoDup (ev_key <$> q) ->
  E_dequeue func code data q =
  (if decide ((func, code, data) ∈ ev_key <$> q) then 0 else -1, keep func code data q).
Proof.
  induction q as [|x q IH]; intros Hnd; [done|]. cbn [E_dequeue].
  rewrite fmap_cons, NoDup_cons in Hnd. destruct Hnd as [Hx Hnd].
  rewrite fmap_cons. unfold keep. rewrite filter_cons. fold (keep func code data q).
  destruct (ev_same func code data x) eqn:E.
  - apply ev_same_key in E as Ek. rewrite decide_True by (rewrite Ek; left).
    rewrite decide_False by congruence. rewrite keep_absent; [done|]. by rewrite <- Ek.
  - rewrite IH by done. rewrite (decide_True (P := _ = false)) by done. f_equal.
    apply decide_ext. rewrite elem_of_cons. split; [by right|]. intros [Hk|]; [|done].
    symmetry in Hk. apply ev_same_key in Hk. congruence.
Qed.

Lemma E_in_queue_elem func code data q :
  E_in_queue func code data q = if decide ((func, code, data) ∈ ev_key <$> q) then 1 else 0.
Proof.
  induction q as [|x q IH]; [done|]. cbn [E_in_queue]. rewrite fmap_cons.
  destruct (ev_same func code data x) eqn:E.
  - apply ev_same_key in E. rewrite decide_True; [done|]. rewrite E. left.
  - rewrite IH. apply decide_ext. rewrite elem_of_cons. split; [by right|]. intros [Hk|]; [|done].
    symmetry in Hk. apply ev_same_key in Hk. congruence.
Qed.

Lemma keep_ok func code data q : queue_ok q -> queue_ok (keep func code data q).
Proof. intros [Hs Hnd]. split; [by apply keep_sorted|]. by apply keep_keys. Qed.
End TimeQueue.

(** ** The registry of file descriptors *)
Section FdRegistry.
Context {F D : Type}.

Definition NUM_PRIORITY : Z := 3.
Definition NUM_FDTYPES : Z := 3.
Definition FD_SETSIZE : Z := 1024.
Definition MAX_FD_EVENTS : Z := 2000.

Record fd_event := mk_fd_event
  { fe_fd : Z; fe_type : Z; fe_func : F; fe_code : Z; fe_data : D; fe_active : bool }.

(** [fq_events] holds the first [num_fds] entries of the C array. *)
Record fd_queue := mk_fd_queue { num_active_fds : Z; fq_events : list fd_event }.
Definition num_fds (q : fd_queue) : Z := Z.of_nat (length (fq_events q)).

Record fd_state := mk_fd_state
  { Fd_queue : list fd_queue; Fd_mask : list (gset Z); Active_priority : Z }.

Definition E_init : fd_state :=
  mk_fd_state (replicate 3 (mk_fd_queue 0 [])) (replicate 3 ∅) 0.

Definition fd_same (fd fd_type : Z) (e : fd_event) : bool :=
  (fe_fd e =? fd) && (fe_type e =? fd_type).

(** The index at which the scan of [events] stops. *)
Fixpoint fd_scan (fd fd_type : Z) (l : list fd_event) : option nat :=
  match l with
  | [] => None
  | e :: l' => if fd_same fd fd_type e then Some 0%nat else S <$> fd_scan fd fd_type l'
  end.

Definition FD_SET (fd fd_type : Z) (m : list (gset Z)) : list (gset Z) :=
  alter (fun s => {[fd]} ∪ s) (Z.to_nat fd_type) m.
Definition FD_CLR (fd fd_type : Z) (m : list (gset Z)) : list (gset Z) :=
  alter (fun s => s ∖ {[fd]}) (Z.to_nat fd_type) m.

Definition bad_index (i n : Z) : bool := (i <? 0) || (n <=? i).

Definition set_queue (p : Z) (q : fd_queue) (st : fd_state) : fd_state :=
  mk_fd_state (<[Z.to_nat p := q]> (Fd_queue st)) (Fd_mask st) (Active_priority st).
Definition set_mask (m : list (gset Z)) (st : fd_state) : fd_state :=
  mk_fd_state (Fd_queue st) m (Active_priority st).

(** The entry the code leaves when it finds [fd] attached already. *)
Definition fd_replace (func : F) (code : Z) (data : D) (e : fd_event) : fd_event :=
  mk_fd_event (fe_fd e) (fe_type e) func code data true.

Definition E_attach_fd (fd fd_type : Z) (func : F) (code : Z) (data : D) (priority : Z)
    (st : fd_state) : option (Z * fd_state) :=
  if bad_index priority NUM_PRIORITY then Some (-1, st)
  else if bad_index fd_type NUM_FDTYPES then Some (-1, st)
  else if bad_index fd FD_SETSIZE then Some (-1, st)
  else
    q ← Fd_queue st !! Z.to_nat priority;
    match fd_scan fd fd_type (fq_events q) with
    | Some j =>
        e ← fq_events q !! j;
        let n := if fe_active e then num_active_fds q else num_active_fds q + 1 in
        Some (1, set_queue priority
                   (mk_fd_queue n (<[j := fd_replace func code data e]> (fq_events q))) st)
    | None =>
        if num_fds q =? MAX_FD_EVENTS then Some (-1, st)
        else
          let e := mk_fd_event fd fd_type func code data true in
          let st := set_queue priority
                      (mk_fd_queue (num_active_fds q + 1) (fq_events q ++ [e])) st in
          Some (0, if Active_priority st <=? priority
                   then set_mask (FD_SET fd fd_type (Fd_mask st)) st else st)
    end.

(** Entry [j] is overwritten by the last one, and the array shrinks. *)
Definition fd_remove (j : nat) (l : list fd_event) : list fd_event :=
  match last l with
  | Some e => take (length l - 1) (<[j := e]> l)
  | None => l
  end.

(** [None]: an access outside [Fd_queue], which the code does not check. *)
Definition E_detach_fd_priority (fd fd_type priority : Z) (st : fd_state) : option (Z * fd_state) :=
  if bad_index fd_type NUM_FDTYPES then Some (-1, st)
  else if bad_index priority NUM_PRIORITY then None
  else
    q ← Fd_queue st !! Z.to_nat priority;
    match fd_scan fd fd_type (fq_events q) with
    | Some j =>
        e ← fq_events q !! j;
        let n := if fe_active e then num_active_fds q - 1 else num_active_fds q in
        let st := set_queue priority (mk_fd_queue n (fd_remove j (fq_events q))) st in
        Some (0, set_mask (FD_CLR fd fd_type (Fd_mask st)) st)
    | None => Some (-1, st)
    end.

(** A loop over the priorities [i], [i + 1], ..., remembering whether any
    step returned 0. *)
Fixpoint over_priorities (step : Z -> fd_state -> option (Z * fd_state)) (n : nat) (i : Z)
    (found : bool) (st : fd_state) : option (Z * fd_state) :=
  match n with
  | O => Some (if found then 0 else -1, st)
  | S n' =>
      '(r, st) ← step i st;
      over_priorities step n' (i + 1) (found || (r =? 0)) st
  end.

Definition E_detach_fd (fd fd_type : Z) (st : fd_state) : option (Z * fd_state) :=
  if bad_index fd_type NUM_FDTYPES then Some (-1, st)
  else over_priorities (E_detach_fd_priority fd fd_type) 3 0 false st.

Definition fd_set_active (b : bool) (e : fd_event) : fd_event :=
  mk_fd_event (fe_fd e) (fe_type e) (fe_func e) (fe_code e) (fe_data e) b.

(** The [j] loop of [E_deactivate_fd] at priority [i]. *)
Definition deactivate_at (fd fd_type i : Z) (st : fd_state) : option (Z * fd_state) :=
  q ← Fd_queue st !! Z.to_nat i;
  match fd_scan fd fd_type (fq_events q) with
  | Some j =>
      e ← fq_events q !! j;
      let n := if fe_active e then num_active_fds q - 1 else num_active_fds q in
      let st := set_queue i (mk_fd_queue n (<[j := fd_set_active false e]> (fq_events q))) st in
      Some (0, set_mask (FD_CLR fd fd_type (Fd_mask st)) st)
  | None => Some (-1, st)
  end.

Definition E_deactivate_fd (fd fd_type : Z) (st : fd_state) : option (Z * fd_state) :=
  if bad_index fd_type NUM_FDTYPES then Some (-1, st)
  else over_priorities (deactivate_at fd fd_type) 3 0 false st.

(** The [j] loop of [E_activate_fd] at priority [i]. *)
Definition activate_at (fd fd_type i : Z) (st : fd_state) : option (Z * fd_state) :=
  q ← Fd_queue st !! Z.to_nat i;
  match fd_scan fd fd_type (fq_events q) with
  | Some j =>
      e ← fq_events q !! j;
      let n := if fe_active e then num_active_fds q else num_active_fds q + 1 in
      let st := set_queue i (mk_fd_queue n (<[j := fd_set_active true e]> (fq_events q))) st in
      Some (0, if Active_priority st <=? i
               then set_mask (FD_SET fd fd_type (Fd_mask st)) st else st)
  | None => Some (-1, st)
  end.

Definition E_activate_fd (fd fd_type : Z) (st : fd_state) : option (Z * fd_state) :=
  if bad_index fd_type NUM_FDTYPES then Some (-1, st)
  else over_priorities (activate_at fd fd_type) 3 0 false st.

Definition threshold_event (m : list (gset Z)) (e : fd_event) : list (gset Z) :=
  if fe_active e then FD_SET (fe_fd e) (fe_type e) m else m.

Definition E_set_active_threshold (priority : Z) (st : fd_state) : Z * fd_state :=
  if bad_index priority NUM_PRIORITY then (-1, st)
  else if priority =? Active_priority st then (priority, st)
  else
    let qs := drop (Z.to_nat priority) (Fd_queue st) in
    (priority,
     mk_fd_state (Fd_queue st)
       (foldl (fun m q => foldl threshold_event m (fq_events q)) (replicate 3 ∅) qs) priority).

Definition E_num_active (priority : Z) (st : fd_state) : option Z :=
  if bad_index priority NUM_PRIORITY then Some (-1)
  else num_active_fds <$> Fd_queue st !! Z.to_nat priority.

(** ** Invariant of the registry *)
Definition fe_key (e : fd_event) : Z * Z := (fe_fd e, fe_type e).

Definition fe_valid (e : fd_event) : Prop :=
  0 <= fe_fd e < FD_SETSIZE /\ 0 <= fe_type e < NUM_FDTYPES.

Definition active_count (l : list fd_event) : Z :=
  Z.of_nat (length (filter (fun e => fe_active e = true) l)).

Definition events_ok (n : Z) (l : list fd_event) : Prop :=
  n = active_count l /\ NoDup (fe_key <$> l) /\ Forall fe_valid l /\ Z.of_nat (length l) <= MAX_FD_EVENTS.

(** [k] has an active registration at a priority that is not masked out. *)
Definition watched (st : fd_state) (k : Z * Z) : Prop :=
  exists i q e, Active_priority st <= Z.of_nat i /\ Fd_queue st !! i = Some q /\
    e ∈ fq_events q /\ fe_key e = k /\ fe_active e = true.

Definition in_mask (m : list (gset Z)) (k : Z * Z) : Prop :=
  exists s, m !! Z.to_nat (snd k) = Some s /\ fst k ∈ s /\ 0 <= snd k.

Record fd_ok (st : fd_state) : Prop := {
  fdo_queues : length (Fd_queue st) = 3%nat;
  fdo_masks : length (Fd_mask st) = 3%nat;
  fdo_active : 0 <= Active_priority st < NUM_PRIORITY;
  fdo_events : Forall (fun q => events_ok (num_active_fds q) (fq_events q)) (Fd_queue st);
  fdo_mask : forall k, in_mask (Fd_mask st) k -> watched st k }.

#[local] Instance active_count_perm : Proper (Permutation ==> eq) active_count.
Proof. intros l l' Hl. unfold active_count. by rewrite Hl. Qed.

#[local] Instance events_ok_perm n : Proper (Permutation ==> iff) (events_ok n).
Proof. intros l l' Hl. unfold events_ok. by rewrite Hl. Qed.

Lemma active_count_cons e l :
  active_count (e :: l) = (if fe_active e then 1 else 0) + active_count l.
Proof. unfold active_count. rewrite filter_cons. destruct (fe_active e); simpl; lia. Qed.

Lemma fd_same_key fd ty e : fd_same fd ty e = true <-> fe_key e = (fd, ty).
Proof.
  unfold fd_same, fe_key. rewrite andb_true_iff, !Z.eqb_eq.
  split; [intros [-> ->]; done | by intros [= -> ->]].
Qed.

Lemma fd_scan_Some fd ty l j :
  fd_scan fd ty l = Some j -> exists e, l !! j = Some e /\ fe_key e = (fd, ty).
Proof.
  revert j. induction l as [|x l IH]; intros j; cbn [fd_scan]; [done|].
  destruct (fd_same fd ty x) eqn:E.
  - intros [= <-]. exists x. split; [done|]. by apply fd_same_key.
  - destruct (fd_scan fd ty l) as [j'|]; [|done]. intros [= <-]. by apply IH.
Qed.

Lemma fd_scan_None fd ty l : fd_scan fd ty l = None -> (fd, ty) ∉ fe_key <$> l.
Proof.
  induction l as [|x l IH]; cbn [fd_scan]; [intros _; apply not_elem_of_nil|].
  destruct (fd_same fd ty x) eqn:E; [done|]. destruct (fd_scan fd ty l); [done|]. intros _.
  rewrite fmap_cons, not_elem_of_cons. split; [|by apply IH]. intros Hk. symmetry in Hk.
  apply fd_same_key in Hk. congruence.
Qed.

(** Overwriting and removing an entry, up to the order of the array. *)
Lemma insert_perm {A} (l : list A) j x y :
  l !! j = Some x -> <[j := y]> l ≡ₚ y :: delete j l /\ l ≡ₚ x :: delete j l.
Proof.
  intros Hj. split; [|by apply delete_Permutation].
  rewrite insert_take_drop by (by eapply lookup_lt_Some). rewrite delete_take_drop.
  by rewrite Permutation_middle.
Qed.

Lemma fd_remove_perm l j e : l !! j = Some e -> fd_remove j l ≡ₚ delete j l.
Proof.
  intros Hj. unfold fd_remove. destruct l as [|z l' _] using rev_ind; [done|].
  rewrite last_snoc, length_app. simpl. replace (length l' + 1 - 1)%nat with (length l') by lia.
  pose proof (lookup_lt_Some _ _ _ Hj) as Hlt. rewrite length_app in Hlt. simpl in Hlt.
  destruct (decide (j = length l')) as [->|Hne].
  - rewrite insert_app_r_alt, take_app_length by lia.
    rewrite delete_take_drop, take_app_length, drop_ge by (rewrite length_app; simpl; lia).
    by rewrite app_nil_r.
  - rewrite insert_app_l by lia. rewrite take_app_le, take_ge by (rewrite ?length_insert; lia).
    rewrite (proj1 (insert_perm l' j e z ltac:(by rewrite lookup_app_l in Hj by lia))).
    rewrite !delete_take_drop, take_app_le, drop_app_le by lia.
    rewrite (app_assoc (take j l')). rewrite Permutation_cons_append. done.
Qed.

Lemma in_mask_SET fd ty m k : 0 <= ty -> in_mask (FD_SET fd ty m) k -> k = (fd, ty) \/ in_mask m k.
Proof.
  intros Hty (s & Hs & Hin & H0). unfold FD_SET in Hs. destruct k as [f t]; simpl in *.
  destruct (decide (t = ty)) as [->|Hne].
  - rewrite list_lookup_alter_eq in Hs. destruct (m !! Z.to_nat ty) as [s0|] eqn:Em; [|done].
    injection Hs as <-. apply elem_of_union in Hin as [->%elem_of_singleton|Hin]; [by left|].
    right. by exists s0.
  - rewrite list_lookup_alter_ne in Hs by lia. right. by exists s.
Qed.

Lemma in_mask_CLR fd ty m k :
  0 <= ty -> in_mask (FD_CLR fd ty m) k -> k <> (fd, ty) /\ in_mask m k.
Proof.
  intros Hty (s & Hs & Hin & H0). unfold FD_CLR in Hs. destruct k as [f t]; simpl in *.
  destruct (decide (t = ty)) as [->|Hne].
  - rewrite list_lookup_alter_eq in Hs. destruct (m !! Z.to_nat ty) as [s0|] eqn:Em; [|done].
    injection Hs as <-. apply elem_of_difference in Hin as [Hin Hne]. split; [|by exists s0].
    intros [= ->]. set_solver.
  - rewrite list_lookup_alter_ne in Hs by lia. split; [congruence|by exists s].
Qed.

(** Replacing one queue keeps a watched descriptor watched, if the new queue
    has an active entry for it whenever the old one had. *)
Lemma watched_update qs m m' a p q q' k :
  qs !! p = Some q ->
  (forall e, e ∈ fq_events q -> fe_key e = k -> fe_active e = true ->
     exists e', e' ∈ fq_events q' /\ fe_key e' = k /\ fe_active e' = true) ->
  watched (mk_fd_state qs m a) k -> watched (mk_fd_state (<[p := q']> qs) m' a) k.
Proof.
  intros Hp Hq (i & qi & e & Ha & Hi & He & Hk & Hact). simpl in *.
  destruct (decide (i = p)) as [->|Hne].
  - simplify_eq. destruct (Hq e He eq_refl Hact) as (e' & He' & Hk' & Hact').
    exists p, q', e'. split_and!; simpl; try done.
    apply list_lookup_insert_eq. by eapply lookup_lt_Some.
  - exists i, qi, e. split_and!; simpl; try done. by rewrite list_lookup_insert_ne.
Qed.

Lemma update_ok st p q q' m' :
  fd_ok st -> Fd_queue st !! p = Some q -> events_ok (num_active_fds q') (fq_events q') ->
  length m' = 3%nat ->
  (forall k, in_mask m' k -> watched (mk_fd_state (<[p := q']> (Fd_queue st)) m' (Active_priority st)) k) ->
  fd_ok (mk_fd_state (<[p := q']> (Fd_queue st)) m' (Active_priority st)).
Proof.
  intros [] Hp Hq' Hm Hmask. split; simpl; try done.
  - by rewrite length_insert.
  - by apply Forall_insert.
Qed.

(** The steps on a queue that [fd_scan] found an entry in. *)
Lemma scan_events st p q fd ty j :
  fd_ok st -> Fd_queue st !! p = Some q -> fd_scan fd ty (fq_events q) = Some j ->
  exists e rest, fq_events q !! j = Some e /\ fe_key e = (fd, ty) /\
    fq_events q ≡ₚ e :: rest /\ events_ok (num_active_fds q) (e :: rest) /\
    (fd, ty) ∉ fe_key <$> rest /\ (forall e', <[j := e']> (fq_events q) ≡ₚ e' :: rest) /\
    fd_remove j (fq_events q) ≡ₚ rest.
Proof.
  intros Hok Hp Hj. destruct (fd_scan_Some _ _ _ _ Hj) as (e & He & Hk).
  destruct (insert_perm _ j e e He) as [_ Hperm].
  pose proof (Forall_lookup_1 _ _ _ _ (fdo_events _ Hok) Hp) as Hev. cbn beta in Hev.
  rewrite Hperm in Hev.
  exists e, (delete j (fq_events q)). split_and!; try done.
  - destruct Hev as (_ & Hnd & _). rewrite fmap_cons, NoDup_cons, Hk in Hnd. by destruct Hnd.
  - intros e'. apply (insert_perm _ j e e' He).
  - by eapply fd_remove_perm.
Qed.

Lemma events_ok_replace n e e' rest :
  events_ok n (e :: rest) -> fe_key e' = fe_key e ->
  events_ok (n - (if fe_active e then 1 else 0) + (if fe_active e' then 1 else 0)) (e' :: rest).
Proof.
  intros (Hn & Hnd & Hv & Hl) Hk. unfold events_ok. rewrite fmap_cons, Hk. rewrite active_count_cons in *.
  split_and!; [lia|done| |done]. inversion_clear Hv. constructor; [|done].
  unfold fe_valid, fe_key in *. by injection Hk as -> ->.
Qed.

Lemma events_ok_tail n e rest :
  events_ok n (e :: rest) -> events_ok (n - (if fe_active e then 1 else 0)) rest.
Proof.
  intros (Hn & Hnd & Hv & Hl). rewrite active_count_cons in Hn. rewrite fmap_cons, NoDup_cons in Hnd.
  inversion_clear Hv. cbn [length] in Hl. destruct Hnd. unfold events_ok. split_and!; [lia|done|done|lia].
Qed.

Lemma queue_lookup st p : fd_ok st -> 0 <= p < NUM_PRIORITY -> exists q, Fd_queue st !! Z.to_nat p = Some q.
Proof.
  intros Hok Hp. apply lookup_lt_is_Some_2. rewrite (fdo_queues _ Hok). unfold NUM_PRIORITY in Hp. lia.
Qed.

Lemma bad_index_false i n : bad_index i n = false -> 0 <= i < n.
Proof. unfold bad_index. rewrite orb_false_iff, Z.ltb_ge, Z.leb_gt. done. Qed.

(** An operation that always returns and keeps the invariant. *)
Definition ok_step (f : fd_state -> option (Z * fd_state)) : Prop :=
  forall st, fd_ok st -> exists r st', f st = Some (r, st') /\ fd_ok st'.

(** Marking the entry found active (with its mask bit set if [i] is allowed). *)
Lemma activate_ok st i q fd ty j e e' :
  fd_ok st -> Fd_queue st !! Z.to_nat i = Some q -> fd_scan fd ty (fq_events q) = Some j ->
  fq_events q !! j = Some e -> fe_key e' = fe_key e -> fe_active e' = true -> 0 <= i -> 0 <= ty ->
  let q' := mk_fd_queue (if fe_active e then num_active_fds q else num_active_fds q + 1)
              (<[j := e']> (fq_events q)) in
  let st' := set_queue i q' st in
  fd_ok st' /\ (Active_priority st <= i -> fd_ok (set_mask (FD_SET fd ty (Fd_mask st)) st')).
Proof.
  intros Hok Hi Hj He Hk Ha Hi0 Hty q' st'.
  destruct (scan_events _ _ _ _ _ _ Hok Hi Hj) as (e0 & rest & He0 & Hke & Hperm & Hev & Hrest & Hins & _).
  assert (e0 = e) as -> by congruence. specialize (Hins e').
  assert (Hq' : events_ok (num_active_fds q') (fq_events q')).
  { simpl. rewrite Hins. pose proof (events_ok_replace _ _ e' _ Hev Hk) as H. rewrite Ha in H.
    destruct (fe_active e); [by rewrite Z.sub_add in H|by rewrite Z.sub_0_r in H]. }
  assert (Hw : forall m k, watched st k -> watched (mk_fd_state (<[Z.to_nat i := q']> (Fd_queue st)) m
                                               (Active_priority st)) k).
  { intros m k Hwk. destruct st as [qs m0 a]. eapply watched_update; [exact Hi| |exact Hwk].
    intros x Hx Hkx Hax. rewrite Hperm, elem_of_cons in Hx.
    destruct Hx as [->|Hx]; [exists e'|exists x]; simpl; rewrite Hins, elem_of_cons.
    - split; [by left|]. split; [congruence|done].
    - split; [by right|done]. }
  split; [|intros Hle]; (apply (update_ok st (Z.to_nat i) q q'); [done|done|done| |]).
  - apply Hok.
  - intros k Hin. apply Hw. by apply (fdo_mask _ Hok).
  - unfold FD_SET. rewrite length_alter. apply Hok.
  - intros k Hin. apply in_mask_SET in Hin as [->|Hin]; [|apply Hw; by apply (fdo_mask _ Hok)|done].
    exists (Z.to_nat i), q', e'. split_and!; simpl; [lia| | |congruence|done].
    + apply list_lookup_insert_eq. by eapply lookup_lt_Some.
    + rewrite Hins. left.
Qed.

(** Clearing the mask bit of the entry found, whose queue keeps the others. *)
Lemma clear_ok st i q q' fd ty j rest :
  fd_ok st -> Fd_queue st !! Z.to_nat i = Some q -> fd_scan fd ty (fq_events q) = Some j -> 0 <= ty ->
  events_ok (num_active_fds q') (fq_events q') ->
  (exists e, fq_events q ≡ₚ e :: rest /\ fe_key e = (fd, ty)) -> rest ⊆ fq_events q' ->
  fd_ok (set_mask (FD_CLR fd ty (Fd_mask st)) (set_queue i q' st)).
Proof.
  intros Hok Hi Hj Hty Hq' (e & Hperm & Hke) Hsub. apply (update_ok st (Z.to_nat i) q q'); [done|done|done| |].
  - unfold FD_CLR. rewrite length_alter. apply Hok.
  - intros k Hin. apply in_mask_CLR in Hin as [Hne Hin]; [|done]. apply (fdo_mask _ Hok) in Hin.
    destruct st as [qs m0 a]. eapply watched_update; [exact Hi| |exact Hin].
    intros x Hx Hkx Hax. rewrite Hperm, elem_of_cons in Hx. destruct Hx as [->|Hx]; [congruence|].
    exists x. split; [by apply Hsub|done].
Qed.

Lemma E_attach_fd_ok fd ty func code data p : ok_step (E_attach_fd fd ty func code data p).
Proof.
  intros st Hok. unfold E_attach_fd.
  destruct (bad_index p _) eqn:Bp; [by exists (-1), st|]. destruct (bad_index ty _) eqn:Bt; [by exists (-1), st|].
  destruct (bad_index fd _) eqn:Bf; [by exists (-1), st|].
  apply bad_index_false in Bp, Bt, Bf. destruct (queue_lookup st p Hok Bp) as [q Hq].
  rewrite Hq. cbn [mbind option_bind]. destruct (fd_scan fd ty (fq_events q)) as [j|] eqn:Hj.
  - destruct (fd_scan_Some _ _ _ _ Hj) as (e & He & Hk). rewrite He. cbn [mbind option_bind].
    eexists _, _. split; [done|]. eapply activate_ok; try done; lia.
  - destruct (num_fds q =? _) eqn:En; [by exists (-1), st|]. apply Z.eqb_neq in En. unfold num_fds in En.
    eexists _, _. split; [done|]. simpl Active_priority. set (e := mk_fd_event _ _ _ _ _ _).
    set (q' := mk_fd_queue _ _). apply fd_scan_None in Hj.
    pose proof (Forall_lookup_1 _ _ _ _ (fdo_events _ Hok) Hq) as (Hn & Hnd & Hv & Hl).
    assert (Hperm : fq_events q ++ [e] ≡ₚ e :: fq_events q) by (by rewrite Permutation_app_comm).
    assert (Hq' : events_ok (num_active_fds q') (fq_events q')).
    { simpl. rewrite Hperm. unfold events_ok. rewrite active_count_cons, fmap_cons. simpl.
      split_and!; [lia|by constructor|by constructor|lia]. }
    assert (Hw : forall m k, watched st k -> watched (mk_fd_state (<[Z.to_nat p := q']> (Fd_queue st)) m
                                               (Active_priority st)) k).
    { intros m k Hwk. destruct st as [qs m0 a]. eapply watched_update; [exact Hq| |exact Hwk].
      intros x Hx Hkx Hax. exists x. split; [|done]. simpl. apply elem_of_app. by left. }
    destruct (Z.leb_spec (Active_priority st) p); (apply (update_ok st (Z.to_nat p) q q'); [done|done|done| |]).
    + unfold FD_SET. rewrite length_alter. apply Hok.
    + intros k Hin. apply in_mask_SET in Hin as [->|Hin]; [|apply Hw; by apply (fdo_mask _ Hok)|lia].
      exists (Z.to_nat p), q', e. split_and!; simpl; [lia| | |done|done].
      * apply list_lookup_insert_eq. by eapply lookup_lt_Some.
      * apply elem_of_app. right. apply list_elem_of_singleton. done.
    + apply Hok.
    + intros k Hin. apply Hw. by apply (fdo_mask _ Hok).
Qed.

Lemma E_detach_fd_priority_ok fd ty p :
  0 <= p < NUM_PRIORITY -> ok_step (E_detach_fd_priority fd ty p).
Proof.
  intros Hp st Hok. unfold E_detach_fd_priority.
  destruct (bad_index ty _) eqn:Bt; [by exists (-1), st|]. apply bad_index_false in Bt.
  destruct (bad_index p _) eqn:Bp; [unfold bad_index in Bp; apply orb_true_iff in Bp; rewrite Z.ltb_lt, Z.leb_le in Bp; lia|].
  destruct (queue_lookup st p Hok Hp) as [q Hq]. rewrite Hq. cbn [mbind option_bind].
  destruct (fd_scan fd ty (fq_events q)) as [j|] eqn:Hj; [|by exists (-1), st].
  destruct (scan_events _ _ _ _ _ _ Hok Hq Hj) as (e & rest & He & Hke & Hperm & Hev & _ & _ & Hrem).
  rewrite He. cbn [mbind option_bind]. eexists _, _. split; [done|].
  apply (clear_ok st p q _ fd ty j rest); [done|done|done|lia| |by exists e|]; simpl; rewrite Hrem; [|done].
  apply events_ok_tail in Hev. destruct (fe_active e); [done|by rewrite Z.sub_0_r in Hev].
Qed.

Lemma deactivate_at_ok fd ty p :
  0 <= p < NUM_PRIORITY -> 0 <= ty -> ok_step (deactivate_at fd ty p).
Proof.
  intros Hp Hty st Hok. unfold deactivate_at.
  destruct (queue_lookup st p Hok Hp) as [q Hq]. rewrite Hq. cbn [mbind option_bind].
  destruct (fd_scan fd ty (fq_events q)) as [j|] eqn:Hj; [|by exists (-1), st].
  destruct (scan_events _ _ _ _ _ _ Hok Hq Hj) as (e & rest & He & Hke & Hperm & Hev & _ & Hins & _).
  rewrite He. cbn [mbind option_bind]. eexists _, _. split; [done|].
  apply (clear_ok st p q _ fd ty j rest); [done|done|done|lia| |by exists e|]; simpl; rewrite Hins.
  - pose proof (events_ok_replace _ _ (fd_set_active false e) _ Hev eq_refl) as H. simpl in H.
    rewrite Z.add_0_r in H. destruct (fe_active e); [done|by rewrite Z.sub_0_r in H].
  - intros x Hx. by right.
Qed.

Lemma activate_at_ok fd ty p :
  0 <= p < NUM_PRIORITY -> 0 <= ty -> ok_step (activate_at fd ty p).
Proof.
  intros Hp Hty st Hok. unfold activate_at.
  destruct (queue_lookup st p Hok Hp) as [q Hq]. rewrite Hq. cbn [mbind option_bind].
  destruct (fd_scan fd ty (fq_events q)) as [j|] eqn:Hj; [|by exists (-1), st].
  destruct (fd_scan_Some _ _ _ _ Hj) as (e & He & Hk). rewrite He. cbn [mbind option_bind].
  destruct (activate_ok st p q fd ty j e (fd_set_active true e)) as [H1 H2]; try done; [lia|].
  eexists _, _. split; [done|]. simpl Active_priority.
  destruct (Z.leb_spec (Active_priority st) p); [by apply H2|done].
Qed.

Lemma over_priorities_ok step n i found :
  (forall p, i <= p < i + Z.of_nat n -> ok_step (step p)) -> ok_step (over_priorities step n i found).
Proof.
  revert i found. induction n as [|n IH]; intros i found Hs st Hok; cbn [over_priorities].
  - by eexists _, _.
  - destruct (Hs i ltac:(lia) st Hok) as (r & st' & -> & Hok'). cbn [mbind option_bind].
    apply IH; [|done]. intros p Hp. apply Hs. lia.
Qed.

(** The masks rebuilt from the active entries. *)
Lemma threshold_in_mask l m k :
  Forall fe_valid l -> in_mask (foldl threshold_event m l) k ->
  in_mask m k \/ exists e, e ∈ l /\ fe_key e = k /\ fe_active e = true.
Proof.
  revert m. induction l as [|e l IH]; intros m Hv Hin; [by left|]. inversion_clear Hv as [|? ? Hve Hvl].
  cbn [foldl] in Hin. destruct (IH _ Hvl Hin) as [Hm|(x & Hx & Hk)].
  - unfold threshold_event in Hm. destruct (fe_active e) eqn:Ha; [|by left].
    apply in_mask_SET in Hm as [->|Hm]; [|by left|apply Hve]. right. exists e. split; [left|done].
  - right. exists x. split; [by right|done].
Qed.

Lemma threshold_length l m : length (foldl threshold_event m l) = length m.
Proof.
  revert m. induction l as [|e l IH]; intros m; [done|]. cbn [foldl]. rewrite IH.
  unfold threshold_event, FD_SET. destruct (fe_active e); [by rewrite length_alter|done].
Qed.

Lemma thresholds_in_mask qs m k :
  Forall (fun q => Forall fe_valid (fq_events q)) qs ->
  in_mask (foldl (fun m q => foldl threshold_event m (fq_events q)) m qs) k ->
  in_mask m k \/ exists i q e, qs !! i = Some q /\ e ∈ fq_events q /\ fe_key e = k /\ fe_active e = true.
Proof.
  revert m. induction qs as [|q qs IH]; intros m Hv Hin; [by left|]. inversion_clear Hv as [|? ? Hq Hqs].
  cbn [foldl] in Hin. destruct (IH _ Hqs Hin) as [Hm|(i & q0 & e & Hi & He)].
  - destruct (threshold_in_mask _ _ _ Hq Hm) as [|(e & He)]; [by left|]. right. by exists 0%nat, q, e.
  - right. by exists (S i), q0, e.
Qed.

Lemma thresholds_length qs m :
  length (foldl (fun m q => foldl threshold_event m (fq_events q)) m qs) = length m.
Proof.
  revert m. induction qs as [|q qs IH]; intros m; [done|]. cbn [foldl]. by rewrite IH, threshold_length.
Qed.

Lemma E_set_active_threshold_ok p st : fd_ok st -> fd_ok (snd (E_set_active_threshold p st)).
Proof.
  intros Hok. unfold E_set_active_threshold. destruct (bad_index p _) eqn:Bp; [done|].
  apply bad_index_false in Bp. destruct (p =? _); [done|]. simpl snd. pose proof Hok as []. split; simpl; try done.
  - by rewrite thresholds_length.
  - intros k Hin. apply thresholds_in_mask in Hin.
    + destruct Hin as [(s & Hs & Hk & _)|(i & q & e & Hi & He)].
      * apply (lookup_replicate 3) in Hs as [-> _]. set_solver.
      * rewrite lookup_drop in Hi. exists (Z.to_nat p + i)%nat, q, e. simpl. split; [lia|done].
    + apply Forall_drop. eapply Forall_impl; [exact fdo_events0|]. intros q (_ & _ & Hv & _). done.
Qed.

Lemma E_init_ok : fd_ok E_init.
Proof.
  split; simpl; try done.
  - repeat constructor; try done; apply NoDup_nil_2.
  - intros k (s & Hs & Hk & _). apply (lookup_replicate 3) in Hs as [-> _]. set_solver.
Qed.

(** The calls a client makes, and the states they lead to. *)
Inductive fd_call :=
| CAttach (fd fd_type : Z) (func : F) (code : Z) (data : D) (priority : Z)
| CDetach (fd fd_type : Z)
| CDeactivate (fd fd_type : Z)
| CActivate (fd fd_type : Z)
| CThreshold (priority : Z).

Definition fd_exec (c : fd_call) (st : fd_state) : option (Z * fd_state) :=
  match c with
  | CAttach fd ty f co d p => E_attach_fd fd ty f co d p st
  | CDetach fd ty => E_detach_fd fd ty st
  | CDeactivate fd ty => E_deactivate_fd fd ty st
  | CActivate fd ty => E_activate_fd fd ty st
  | CThreshold p => Some (E_set_active_threshold p st)
  end.

Inductive fd_reachable : fd_state -> Prop :=
| fd_start : fd_reachable E_init
| fd_next c st r st' : fd_reachable st -> fd_exec c st = Some (r, st') -> fd_reachable st'.

Lemma fd_exec_ok c : ok_step (fd_exec c).
Proof.
  intros st Hok. destruct c; simpl; [by apply E_attach_fd_ok| | | |].
  1,2,3: unfold E_detach_fd, E_deactivate_fd, E_activate_fd;
    destruct (bad_index _ _) eqn:Bt; [by exists (-1), st|]; apply bad_index_false in Bt;
    apply over_priorities_ok; [|done]; intros p Hp.
  - apply E_detach_fd_priority_ok. unfold NUM_PRIORITY. lia.
  - apply deactivate_at_ok; unfold NUM_PRIORITY; lia.
  - apply activate_at_ok; unfold NUM_PRIORITY; lia.
  - eexists _, _. split; [by rewrite <- surjective_pairing|]. by apply E_set_active_threshold_ok.
Qed.

Lemma fd_reachable_ok st : fd_reachable st -> fd_ok st.
Proof.
  induction 1 as [|c st r st' _ IH Hc]; [apply E_init_ok|].
  destruct (fd_exec_ok c st IH) as (r' & st'' & Hc' & Hok). congruence.
Qed.
End FdRegistry.
