(* ===== verification/EventProps.v ===== *)
(** * EventProps: properties of the event system

    Time arithmetic, the queue of time events, the choice the event loop makes
    between running an event and waiting, and the registry of descriptors. *)
From stdpp Require Import base list gmap numbers option sets sorting.
From Stdlib Require Import ZArith Lia.
From S2P Require Import Prelude Events.
#[local] Open Scope Z_scope.

Module Ex.
(** Handlers and data pointers are numbers in the examples. *)
Definition q0 : list (@time_event nat nat) :=
  E_queue (mk_time 100 0) 1%nat 0 7%nat (mk_time 0 500000) [].
Definition q2 : list (@time_event nat nat) :=
  E_queue (mk_time 100 1) 3%nat 0 7%nat (mk_time 0 499999)
    (E_queue (mk_time 100 1) 2%nat 0 7%nat (mk_time 2 0) q0).

Lemma q2_ok : queue_ok q2.
Proof. apply E_queue_ok, E_queue_ok, E_queue_ok. split; [constructor|apply NoDup_nil_2]. Qed.

(** The state after a list of calls. *)
Fixpoint run (cs : list (@fd_call nat nat)) (st : fd_state) : option fd_state :=
  match cs with
  | [] => Some st
  | c :: cs' => '(_, st') ← fd_exec c st; run cs' st'
  end.

Lemma run_reachable cs st st' : fd_reachable st -> run cs st = Some st' -> fd_reachable st'.
Proof.
  revert st. induction cs as [|c cs IH]; intros st Hst; cbn [run]; [by intros [= <-]|].
  destruct (fd_exec c st) as [[r st1]|] eqn:E; [|done]. cbn [mbind option_bind].
  apply IH. by eapply fd_next.
Qed.

Definition calls : list (@fd_call nat nat) :=
  [CAttach 5 0 1%nat 0 0%nat 2; CAttach 6 1 1%nat 0 0%nat 0; CDeactivate 5 0; CThreshold 1].
Definition reg : @fd_state nat nat := default E_init (run calls E_init).

Lemma reg_reachable : fd_reachable reg.
Proof. apply (run_reachable calls E_init); [apply fd_start|vm_compute; reflexivity]. Qed.
End Ex.

(** On normalised times (microseconds below a second, of the sign of the
    seconds) [E_add_time] and [E_sub_time] compute the sum and the difference
    of the microseconds denoted and normalise again, and [E_compare_time] is
    the sign of the difference. *)
Theorem sp_time_arithmetic (t d : sp_time) :
  normal t -> normal d ->
  (total (E_add_time t d) = total t + total d /\ normal (E_add_time t d)) /\
  (total (E_sub_time t d) = total t - total d /\ normal (E_sub_time t d)) /\
  E_compare_time t d = Z.sgn (total t - total d).
Proof.
  intros Ht Hd. split_and!.
  - apply add_time_total.
  - apply add_time_normal; [apply Ht|apply Hd].
  - apply sub_time_total.
  - apply sub_time_normal; [apply Ht|apply Hd].
  - by apply compare_time_total.
Qed.

Lemma sp_time_arithmetic_witness :
  normal (E_sub_time (mk_time 3 200000) (mk_time 5 900000)) /\
  E_sub_time (mk_time 3 200000) (mk_time 5 900000) = mk_time (-2) (-700000).
Proof.
  split; [|reflexivity].
  apply (sp_time_arithmetic (mk_time 3 200000) (mk_time 5 900000));
    unfold normal, in_range; simpl; lia.
Defined.

Section Queue.
Context {F D : Type} `{EqDecision F, EqDecision D}.
Implicit Types q : list (@time_event F D).

(** [E_queue] on a queue sorted by time without repeated registrations
    replaces the registration of the same handler, code and data: the queue
    becomes the other events with the new one put behind every event that is
    not later and before every later one, so it is sorted again, events of
    equal time keep their order of arrival, and no registration is repeated. *)
Theorem E_queue_correct now func code data delta q :
  queue_ok q ->
  let e := mk_event (E_add_time now delta) func code data in
  exists q1 q2,
    keep func code data q = q1 ++ q2 /\
    E_queue now func code data delta q = q1 ++ e :: q2 /\
    Forall (fun x => E_compare_time (ev_t x) (ev_t e) <= 0) q1 /\
    Forall (fun x => 0 < E_compare_time (ev_t x) (ev_t e)) q2 /\
    queue_ok (E_queue now func code data delta q).
Proof.
  intros Hq e. pose proof Hq as [Hs Hnd].
  destruct (insert_time_split e (keep func code data q)) as (q1 & q2 & Hk & Hi & H1 & H2);
    [by apply keep_sorted|].
  exists q1, q2. split; [done|]. split; [by rewrite E_queue_insert|]. split; [exact H1|].
  split; [|by apply E_queue_ok].
  eapply Forall_impl; [exact H2|]. intros x. cbn beta. rewrite compare_lt_lex.
  unfold E_compare_time. simpl_if; lia.
Qed.

(** [E_dequeue] returns 0 exactly when the handler, code and data are
    registered, removes that registration and nothing else, and keeps the
    queue's invariant; [E_in_queue] tells whether they are registered, so it
    answers 1 after [E_queue] and 0 after [E_dequeue]. *)
Theorem E_dequeue_correct now func code data delta q :
  queue_ok q ->
  E_dequeue func code data q = (E_in_queue func code data q - 1, keep func code data q) /\
  queue_ok (keep func code data q) /\
  E_in_queue func code data (E_queue now func code data delta q) = 1 /\
  E_in_queue func code data (snd (E_dequeue func code data q)) = 0.
Proof.
  intros Hq. pose proof Hq as [Hs Hnd]. split_and!.
  - rewrite E_dequeue_keep, E_in_queue_elem by done. by destruct (decide _).
  - by apply keep_ok.
  - rewrite E_in_queue_elem, E_queue_insert by done. rewrite decide_True; [done|].
    rewrite insert_time_perm, fmap_cons. left.
  - rewrite E_dequeue_keep by done. cbn [snd]. rewrite E_in_queue_elem, decide_False; [done|].
    by apply keep_keys.
Qed.

(** What the event loop does with a sorted queue of normalised times: it
    runs an event only when its time has come and no other event is earlier,
    and when it goes to wait after its first idle round no event is due, and
    waiting for the timeout it computes leads exactly to the time of the first
    event. *)
Theorem E_time_action_correct now first q :
  queue_ok q -> normal now -> Forall (fun e => normal (ev_t e)) q ->
  match E_time_action first now q with
  | Fire e rest => q = e :: rest /\ total (ev_t e) <= total now /\ first = false /\
      Forall (fun x => total (ev_t e) <= total (ev_t x)) rest /\ queue_ok rest
  | Poll timeout => first = false ->
      Forall (fun x => total now < total (ev_t x)) q /\
      match q with [] => timeout = long_timeout | e :: _ => total now + total timeout = total (ev_t e) end
  end.
Proof.
  intros [Hs Hnd] Hnow Hn. unfold E_time_action. destruct q as [|x q]; [by intros|].
  inversion_clear Hs as [|? ? Hs' Hx]. inversion_clear Hn as [|? ? Hnx Hnq].
  assert (Hlt : Forall (fun y => total (ev_t x) <= total (ev_t y)) q).
  { rewrite Forall_forall in Hx, Hnq |- *. intros y Hy. specialize (Hx y Hy). specialize (Hnq y Hy).
    unfold ev_le, time_le in Hx. rewrite compare_time_total in Hx by done. lia. }
  pose proof (compare_time_total now (ev_t x) Hnow Hnx) as Hc.
  destruct (Z.leb_spec 0 (E_compare_time now (ev_t x))) as [Hge|Hlt'];
    destruct first; cbn [negb andb]; try (intros; discriminate).
  - split_and!; [done|lia|done|done|]. rewrite fmap_cons in Hnd. apply NoDup_cons in Hnd as [_ Hnd]. done.
  - intros _. assert (Hd : total now < total (ev_t x)) by lia. split.
    + constructor; [done|]. eapply Forall_impl; [exact Hlt|]. intros y Hy. cbn beta in *. lia.
    + pose proof (sub_time_total (ev_t x) now) as Ht.
      pose proof (sub_time_normal (ev_t x) now (proj1 Hnx) (proj1 Hnow)) as (Hr & Hp & Hm).
      revert Ht Hr Hp Hm. generalize (E_sub_time (ev_t x) now). intros d Ht Hr Hp Hm.
      unfold total, in_range in *. destruct (Z.ltb_spec (sec d) 0); simpl; lia.
Qed.
End Queue.

Lemma E_queue_correct_witness :
  queue_ok Ex.q2 /\
  exists q1 q2, keep 3%nat 0 7%nat Ex.q2 = q1 ++ q2 /\
    E_queue (mk_time 101 0) 3%nat 0 7%nat (mk_time 5 0) Ex.q2 = q1 ++ mk_event (mk_time 106 0) 3%nat 0 7%nat :: q2.
Proof.
  split; [apply Ex.q2_ok|].
  destruct (E_queue_correct (mk_time 101 0) 3%nat 0 7%nat (mk_time 5 0) Ex.q2 Ex.q2_ok)
    as (q1 & q2 & H1 & H2 & _). exists q1, q2. split; [exact H1|exact H2].
Defined.

Lemma E_dequeue_correct_witness :
  E_in_queue 2%nat 0 7%nat Ex.q2 = 1 /\
  E_in_queue 2%nat 0 7%nat (snd (E_dequeue 2%nat 0 7%nat Ex.q2)) = 0.
Proof.
  split; [vm_compute; reflexivity|].
  apply (E_dequeue_correct (mk_time 0 0) 2%nat 0 7%nat (mk_time 0 0) Ex.q2). apply Ex.q2_ok.
Defined.

Lemma E_time_action_correct_witness :
  match E_time_action false (mk_time 100 600000) Ex.q2 with
  | Fire e rest => Ex.q2 = e :: rest /\ total (ev_t e) <= total (mk_time 100 600000)
  | Poll _ => False
  end.
Proof.
  pose proof (E_time_action_correct (mk_time 100 600000) false Ex.q2 Ex.q2_ok) as H.
  specialize (H ltac:(unfold normal, in_range; simpl; lia)).
  specialize (H ltac:(vm_compute; repeat constructor; intros; discriminate)).
  vm_compute in H |- *. destruct H as (H1 & H2 & _). split; [exact H1|exact H2].
Defined.

(** Whatever calls of attach, detach, activate, deactivate and
    set-threshold were made since [E_init], every further call returns, the
    counter behind [E_num_active] is the number of active registrations of the
    priority, no descriptor is registered twice at a priority, and [select]
    is only asked about descriptors that have an active registration at a
    priority the threshold allows. *)
Theorem fd_registry_invariant {F D : Type} (st : @fd_state F D) (p : Z) :
  fd_reachable st -> 0 <= p < NUM_PRIORITY ->
  (forall c, exists r st', fd_exec c st = Some (r, st')) /\
  (exists q, Fd_queue st !! Z.to_nat p = Some q /\
     E_num_active p st = Some (active_count (fq_events q)) /\
     NoDup (fe_key <$> fq_events q) /\ num_fds q <= MAX_FD_EVENTS) /\
  (forall k, in_mask (Fd_mask st) k -> watched st k).
Proof.
  intros Hr Hp. pose proof (fd_reachable_ok st Hr) as Hok. split_and!.
  - intros c. destruct (fd_exec_ok c st Hok) as (r & st' & Hc & _). by exists r, st'.
  - destruct (queue_lookup st p Hok Hp) as [q Hq]. exists q.
    destruct (Forall_lookup_1 _ _ _ _ (fdo_events _ Hok) Hq) as (Hn & Hnd & _ & Hl).
    split_and!; [done| |done|done]. unfold E_num_active. rewrite Hq. simpl. rewrite <- Hn.
    destruct (bad_index p NUM_PRIORITY) eqn:B; [|done]. unfold bad_index in B.
    apply orb_true_iff in B. rewrite Z.ltb_lt, Z.leb_le in B. lia.
  - apply (fdo_mask _ Hok).
Qed.

Lemma fd_registry_invariant_witness :
  fd_reachable Ex.reg /\ E_num_active 0 Ex.reg = Some 1 /\ E_num_active 2 Ex.reg = Some 0 /\
  (exists q, Fd_queue Ex.reg !! 2%nat = Some q /\ E_num_active 2 Ex.reg = Some (active_count (fq_events q))).
Proof.
  split; [apply Ex.reg_reachable|]. do 2 (split; [vm_compute; reflexivity|]).
  destruct (fd_registry_invariant Ex.reg 2 Ex.reg_reachable) as (_ & (q & Hq & Hn & _) & _).
  - unfold NUM_PRIORITY. lia.
  - exists q. split; [exact Hq|exact Hn].
Defined.
