(* ===== verification/NetTypes.v ===== *)
(** * NetTypes: the data the daemon's components share

    Outcomes of fallible code, the replicated state records of state_flood.h,
    link_state.h and multicast.h, addresses (net_types.h), and the wrap-around
    logical timestamps of link_state.c. *)
From stdpp Require Import base list gmap numbers option sets.
From Stdlib Require Import ZArith Lia.
From S2P Require Import Prelude.
#[local] Open Scope Z_scope.

(** ** Outcomes

    [Exit]: the code called [Alarm(EXIT, ...)], which ends the process.
    [Fault]: a NULL or dangling pointer is followed, a failed [assert]. *)
Inductive outcome (A : Type) := Ret (a : A) | Exit | Fault.
Arguments Ret {A} a.
Arguments Exit {A}.
Arguments Fault {A}.

#[export] Instance outcome_ret : MRet outcome := fun A a => Ret a.
#[export] Instance outcome_bind : MBind outcome := fun A B f m =>
  match m with Ret a => f a | Exit => Exit | Fault => Fault end.

(** An optional value, or the given failure. *)
Definition or_else {A} (o : option A) (fail : outcome A) : outcome A :=
  match o with Some a => Ret a | None => fail end.

(** A [for] loop whose body can fail. *)
Fixpoint foldM {A S} (f : S -> A -> outcome S) (s : S) (l : list A) : outcome S :=
  match l with [] => Ret s | x :: l' => s' ← f s x; foldM f s' l' end.

Lemma foldM_app {A S} (f : S -> A -> outcome S) s l1 l2 :
  foldM f s (l1 ++ l2) = (s' ← foldM f s l1; foldM f s' l2).
Proof.
  revert s. induction l1 as [|x l1 IH]; intros s; [done|]. cbn [foldM app].
  unfold mbind, outcome_bind. destruct (f s x); [apply IH|done|done].
Qed.

(** A loop keeps an invariant its body keeps. *)
Lemma foldM_inv {A S} (I : S -> Prop) (f : S -> A -> outcome S) l s s' :
  (forall s x s', x ∈ l -> I s -> f s x = Ret s' -> I s') -> I s -> foldM f s l = Ret s' -> I s'.
Proof.
  revert s. induction l as [|x l IH]; intros s Hf Hs; cbn [foldM]; [by intros [= <-]|].
  unfold mbind, outcome_bind. destruct (f s x) as [s1| |] eqn:E; [|done|done].
  apply IH; [|by eapply Hf; [left| |]]. intros ? y ? Hy. apply Hf. by right.
Qed.

(** ** Addresses *)
Definition Is_mcast_addr (x : Z) : bool :=
  (Z.land x 0xF0000000 =? 0xE0000000) || (Z.land x 0xFFFFFF00 =? 0xFEFF0000).
Definition Is_acast_addr (x : Z) : bool :=
  (Z.land x 0xF0000000 =? 0xF0000000) && negb (Z.land x 0xFFFFFF00 =? 0xFEFF0000).
Definition Is_node_addr (x : Z) : bool := negb (Is_mcast_addr x) && negb (Is_acast_addr x).

(** ** Replicated states

    [Edge] and [Group_State] begin with the members of [State_Data]; [extra]
    holds the members that follow.  The [src], [dst] and [leg] pointers of an
    edge are the identifiers of the objects they point to. *)
Record State_Data {X : Type} := mk_state
  { source_addr : Z; dest_addr : Z;
    timestamp_sec : Z; timestamp_usec : Z;
    my_timestamp_sec : Z; my_timestamp_usec : Z;
    value : Z; age : Z;
    extra : X }.
Arguments State_Data X : clear implicits.
Arguments mk_state {X}.

Record Edge_Extra := mk_edge_extra { base_cost : Z; index : Z; lts : Z; leg : option Z }.
Definition Edge := State_Data Edge_Extra.
Definition cost (e : Edge) : Z := value e.

(** The sessions joined locally; only meaningful for the local node's groups. *)
Definition Group_State := State_Data (gset Z).
Definition ACTIVE_GROUP : Z := 1.
Definition group_active {X} (g : State_Data X) : bool := negb (Z.land (value g) ACTIVE_GROUP =? 0).

Definition MAX_NEIGHBORS : Z := 256.

(** Sizes of a packet's body and of the tail of a reliable packet. *)
Definition sizeof_packet_body : Z := 1452.
Definition sizeof_reliable_tail : Z := 8.
Definition sizeof_udp_header : Z := 28.

(** Sizes of the headers of the dissemination protocols. *)
Definition sizeof_fragment_header : Z := 4.
Definition sizeof_prio_flood_header : Z := 40.
Definition sizeof_rel_flood_header : Z := 24.
Definition sizeof_rel_flood_tail : Z := 4.
Definition sizeof_rel_flood_hbh_ack : Z := 24.
Definition sizeof_sb_header : Z := 8.

(** ** Logical timestamps of link states: 16-bit counters that wrap around *)
Definition LTS_QUARTER_RANGE : Z := Z.shiftr 0xFFFF 2 + 1.
Definition LTS_THREE_QUARTER_RANGE : Z := LTS_QUARTER_RANGE + LTS_QUARTER_RANGE + LTS_QUARTER_RANGE.

Definition Link_State_LTS_inc (Link_State_Update_LTS : Z) : Z := u16 (Link_State_Update_LTS + 1).

Definition Link_State_LTS_cmp (left right : Z) : Z :=
  if left <? right then
    if (left <? LTS_QUARTER_RANGE) && (LTS_THREE_QUARTER_RANGE <=? right) then 1 else -1
  else if negb (left =? right) then
    if (right <? LTS_QUARTER_RANGE) && (LTS_THREE_QUARTER_RANGE <=? left) then -1 else 1
  else 0.

(** The distance from [b] to [a] around the circle of timestamps. *)
Definition lts_ahead (a b : Z) : Z := (a - b) mod 2 ^ 16.
