(* ===== verification/Route.v ===== *)
(** * Route: routing state and the all-pairs route computation of daemon/route.c

    [RR_Init] assigns the indexes, fills the direct edges in and runs the
    Floyd-Warshall loops over the flat matrix [Routes]; the look-ups, the
    multicast forwarding cache and the trace of a route follow.  A node pointer
    is the node's identifier. *)
From stdpp Require Import base list gmap numbers option sets.
From Stdlib Require Import ZArith Lia.
From S2P Require Import Prelude HashMap NetTypes.
#[local] Open Scope Z_scope.

Record Route := mk_route
  { distance : Z; rcost : Z; forwarder : option Z; predecessor : Z }.

#[export] Instance Route_inhabited : Inhabited Route := populate (mk_route 0 0 None 0).

(** [Groups] maps a group and a source to the neighbours to forward to. *)
Record Routing_Regime := mk_regime
  { Num_Nodes : nat; Node_IDs : list Z; Node_Indexes : gmap Z nat;
    Routes : list Route; Groups : gmap Z (gmap Z (gset Z)) }.

(** ** Look-ups *)

(** -1 is [None]. *)
Definition RR_Get_Node_Index (rr : Routing_Regime) (nid : Z) : option nat := Node_Indexes rr !! nid.

(** With [exit_on_failure] set. *)
Definition RR_Get_Node_Index_exit (rr : Routing_Regime) (nid : Z) : outcome nat :=
  or_else (RR_Get_Node_Index rr nid) Exit.

Definition RR_Find_Route (rr : Routing_Regime) (src_id dst_id : Z) : option Route :=
  src_index ← RR_Get_Node_Index rr src_id;
  dst_index ← RR_Get_Node_Index rr dst_id;
  Routes rr !! (src_index * Num_Nodes rr + dst_index)%nat.

Definition RR_Get_Next_Hop (rr : Routing_Regime) (src_id dst_id : Z) : option Z :=
  route ← RR_Find_Route rr src_id dst_id; forwarder route.

(** ** RR_Init *)

(** The loop over [All_Nodes_by_ID]: indexes in increasing order of ids. *)
Fixpoint index_nodes (i : nat) (ids : list Z) (m : gmap Z nat) : gmap Z nat :=
  match ids with [] => m | nid :: ids' => index_nodes (S i) ids' (<[nid := i]> m) end.

Definition init_route (n p : nat) : Route :=
  if (p / n =? p mod n)%nat then mk_route 0 0 None 0 else mk_route (-1) (-1) None 0.

Definition init_routes (n : nat) : list Route := init_route n <$> seq 0 (n * n).

(** The body of the loop over the edges. *)
Definition fill_edge (This : Z) (rr : Routing_Regime) (rts : list Route) (edge : Edge) : outcome (list Route) :=
  if cost edge =? -1 then Ret rts
  else
    src_index ← RR_Get_Node_Index_exit rr (source_addr edge);
    dst_index ← RR_Get_Node_Index_exit rr (dest_addr edge);
    Ret (<[(src_index * Num_Nodes rr + dst_index)%nat :=
             mk_route 1 (Z.abs (cost edge))
               (if source_addr edge =? This then Some (dest_addr edge) else None)
               (source_addr edge)]> rts).

Definition rt (n : nat) (rts : list Route) (i j : nat) : Route := rts !!! (i * n + j)%nat.

(** The body of the innermost loop. *)
Definition fw_cell (n : nat) (ids : list Z) (k i : nat) (rts : list Route) (j : nat) : list Route :=
  if (i =? j)%nat || (j =? k)%nat || (rcost (rt n rts k j) <? 0) then rts
  else
    let i_k_route := rt n rts i k in
    let k_j_route := rt n rts k j in
    let i_j_route := rt n rts i j in
    if (rcost i_j_route <? 0) || (s32 (rcost i_k_route + rcost k_j_route) <? rcost i_j_route)
    then <[(i * n + j)%nat :=
             mk_route (s16 (distance i_k_route + distance k_j_route))
                      (s32 (rcost i_k_route + rcost k_j_route))
                      (match forwarder k_j_route with Some f => Some f | None => forwarder i_k_route end)
                      (ids !!! k)]> rts
    else rts.

Definition fw_row (n : nat) (ids : list Z) (k : nat) (rts : list Route) (i : nat) : list Route :=
  if (i =? k)%nat || (rcost (rt n rts i k) <? 0) then rts
  else foldl (fw_cell n ids k i) rts (seq 0 n).

Definition fw_round (n : nat) (ids : list Z) (rts : list Route) (k : nat) : list Route :=
  foldl (fw_row n ids k) rts (seq 0 n).

Definition floyd_warshall (n : nat) (ids : list Z) (rts : list Route) : list Route :=
  foldl (fw_round n ids) rts (seq 0 n).

(** [ids] are the keys of [All_Nodes_by_ID] in its order, [edges] the edges in
    the order the two nested hash iterations visit them, [This] the local
    node. *)
Definition RR_Init (This : Z) (ids : list Z) (edges : list Edge) : outcome Routing_Regime :=
  let n := length ids in
  let rr := mk_regime n ids (index_nodes 0 ids ∅) (init_routes n) ∅ in
  rts ← foldM (fill_edge This rr) (Routes rr) edges;
  Ret (mk_regime n ids (Node_Indexes rr) (floyd_warshall n ids rts) ∅).

(** ** Multicast forwarding *)

(** The local variables [best_next_hop] and [neighbors] of the loop over the
    members of a group; [true] in the first place: the [break] was reached. *)
Definition mcast_step (rr : Routing_Regime) (My_Address sender mcast_address : Z) (node_cost : Z -> Z)
    (st : bool * option Z * gset Z) (g_state : Group_State) : bool * option Z * gset Z :=
  let '(stop, best_next_hop, neighbors) := st in
  if stop then st
  else if negb (group_active g_state) then st
  else if Is_acast_addr mcast_address && (source_addr g_state =? My_Address) then (true, None, neighbors)
  else
    match RR_Get_Next_Hop rr sender (source_addr g_state) with
    | None => st
    | Some next_hop =>
        if Is_mcast_addr mcast_address then (false, best_next_hop, {[next_hop]} ∪ neighbors)
        else if Is_acast_addr mcast_address then
          match best_next_hop with
          | Some b => if node_cost next_hop <? node_cost b then (false, Some next_hop, neighbors) else st
          | None => (false, Some next_hop, neighbors)
          end
        else st
    end.

(** [members]: the states of the group, in the order the hash visits them, if
    the group is known.  Returns the neighbours and the regime with the
    extended cache; [node_cost] reads the [cost] member of a node. *)
Definition RR_Get_Mcast_Neighbors (My_Address : Z) (node_cost : Z -> Z) (members : option (list Group_State))
    (rr : Routing_Regime) (sender mcast_address : Z) : option (gset Z) * Routing_Regime :=
  match members with
  | None => (None, rr)
  | Some states =>
      let sources := default ∅ (Groups rr !! mcast_address) in
      let with_sources s :=
        mk_regime (Num_Nodes rr) (Node_IDs rr) (Node_Indexes rr) (Routes rr)
                  (<[mcast_address := s]> (Groups rr)) in
      match sources !! sender with
      | Some neighbors => (Some neighbors, with_sources sources)
      | None =>
          let '(_, best_next_hop, neighbors) :=
            foldl (mcast_step rr My_Address sender mcast_address node_cost) (false, None, ∅) states in
          let neighbors :=
            match best_next_hop with
            | Some b => if Is_acast_addr mcast_address then {[b]} ∪ neighbors else neighbors
            | None => neighbors
            end in
          (Some neighbors, with_sources (<[sender := neighbors]> sources))
      end
  end.

Definition RR_Discard_Mcast_Neighbors (rr : Routing_Regime) (mcast_address : Z) : Routing_Regime :=
  mk_regime (Num_Nodes rr) (Node_IDs rr) (Node_Indexes rr) (Routes rr) (delete mcast_address (Groups rr)).

(** ** Traces *)
Definition MAX_COUNT : nat := 64.

(** An entry of [spines_trace]: address, cost and distance. *)
Definition trace_entry : Type := Z * Z * Z.

(** Following a pointer. *)
Definition deref {A} (p : option A) : outcome A := or_else p Fault.

(** [tr]: the entries written so far, at index [i] the next one; a write at
    [MAX_COUNT] is out of the arrays.  [fuel] bounds the depth of the
    recursion. *)
Fixpoint Trace_Route_Rcrsv (fuel : nat) (rr : Routing_Regime) (src_id dst_id : Z)
    (tr : gmap nat trace_entry) (i : nat) : outcome (nat * gmap nat trace_entry) :=
  if (src_id =? dst_id) || (i =? MAX_COUNT)%nat then Ret (i, tr)
  else match fuel with
  | O => Fault
  | S fuel =>
      route ← or_else (RR_Find_Route rr src_id dst_id) Exit;
      if predecessor route =? 0 then Exit
      else
        '(i, tr) ← Trace_Route_Rcrsv fuel rr src_id (predecessor route) tr i;
        if (i <? MAX_COUNT)%nat then
          Trace_Route_Rcrsv fuel rr (predecessor route) dst_id
            (<[i := (predecessor route, rcost route, distance route)]> tr) (S i)
        else Fault
  end.

(** The count and the entries of the answer. *)
Definition Trace_Route (fuel : nat) (rr : Routing_Regime) (src_id dst_id : Z)
    : outcome (nat * gmap nat trace_entry) :=
  let route := RR_Find_Route rr src_id dst_id in
  match route with
  | None =>
      something ← (if negb (src_id =? dst_id)
                   then r ← deref route; Ret (negb (predecessor r =? 0))
                   else Ret false);
      if (something : bool) then Trace_Route_Rcrsv fuel rr src_id dst_id ∅ 0
      else r ← deref route; Ret (1%nat, {[0%nat := (src_id, rcost r, distance r)]})
  | Some _ => Ret (0%nat, ∅)
  end.
