(* ===== verification/RouteProof.v ===== *)
(** * RouteProof: correctness of the all-pairs route computation

    A reference computation on tables of paths ([pstep]) is shown to keep
    shortest simple paths; the matrix of [RR_Init] is shown to follow it cell
    by cell, for every choice of the local node. *)
From stdpp Require Import base list gmap numbers option sets.
From Stdlib Require Import ZArith Lia.
From S2P Require Import Prelude HashMap NetTypes Route.
#[local] Open Scope Z_scope.

(** ** Walks in a weighted graph on [nat] *)
Section Walks.
Context (W : nat -> nat -> option Z).
Context (W_pos : forall i j c, W i j = Some c -> 0 <= c).

(** A walk is its start and the nodes that follow. *)
Fixpoint wcost (i : nat) (l : list nat) : option Z :=
  match l with
  | [] => Some 0
  | x :: l' => a ← W i x; b ← wcost x l'; Some (a + b)
  end.

Definition endp (i : nat) (l : list nat) : nat := default i (last l).

Lemma endp_cons i x l : endp i (x :: l) = endp x l.
Proof. unfold endp. rewrite last_cons. by destruct (last l). Qed.

Lemma endp_app i l1 l2 : endp i (l1 ++ l2) = endp (endp i l1) l2.
Proof. revert i. induction l1 as [|x l1 IH]; intros i; [done|]. simpl app. by rewrite !endp_cons. Qed.

Lemma wcost_app i l1 l2 :
  wcost i (l1 ++ l2) = (a ← wcost i l1; b ← wcost (endp i l1) l2; Some (a + b)).
Proof.
  revert i. induction l1 as [|x l1 IH]; intros i; cbn [app wcost].
  - cbn [mbind option_bind]. change (endp i []) with i. by destruct (wcost i l2).
  - rewrite endp_cons, IH. destruct (W i x); [|done]. cbn [mbind option_bind].
    destruct (wcost x l1); [|done]. cbn [mbind option_bind].
    destruct (wcost (endp x l1) l2); [|done]. cbn [mbind option_bind]. f_equal. lia.
Qed.

Lemma wcost_nonneg i l c : wcost i l = Some c -> 0 <= c.
Proof.
  revert i c. induction l as [|x l IH]; intros i c; cbn [wcost]; [intros [= <-]; lia|].
  destruct (W i x) as [a|] eqn:E; [|done]. cbn [mbind option_bind].
  destruct (wcost x l) as [b|] eqn:E2; [|done]. cbn [mbind option_bind]. intros [= <-].
  apply W_pos in E. apply IH in E2. lia.
Qed.

(** Cutting a walk at a node it visits. *)
Lemma walk_split i l x :
  x ∈ i :: l -> exists l1 l2, l = l1 ++ l2 /\ endp i l1 = x /\ (x ∈ i :: l1).
Proof.
  revert i. induction l as [|y l IH]; intros i Hx.
  - apply list_elem_of_singleton in Hx as ->. exists [], []. split; [done|]. split; [done|left].
  - apply elem_of_cons in Hx as [->|Hx].
    + exists [], (y :: l). split; [done|]. split; [done|left].
    + destruct (IH y Hx) as (l1 & l2 & -> & He & Hin). exists (y :: l1), l2.
      split; [done|]. rewrite endp_cons. split; [done|by right].
Qed.

Lemma endp_elem i l : endp i l ∈ i :: l.
Proof.
  revert i. induction l as [|y l IH]; intros i; [left|]. rewrite endp_cons. right. apply IH.
Qed.

(** The end of a walk is its last node only, when no node repeats. *)
Lemma endp_last i l1 l2 : NoDup (i :: l1 ++ l2) -> l2 <> [] -> endp i (l1 ++ l2) ∉ i :: l1.
Proof.
  intros Hnd Hne Hin. rewrite endp_app in Hin. destruct l2 as [|y l2]; [done|].
  rewrite endp_cons in Hin. pose proof (endp_elem y l2) as Hy.
  change (i :: l1 ++ y :: l2) with ((i :: l1) ++ y :: l2) in Hnd.
  apply NoDup_app in Hnd as (_ & Hd & _). by eapply Hd.
Qed.

(** ** Tables of paths *)
Definition table := nat -> nat -> option (list nat).

(** The cost a table records; 0 on the diagonal. *)
Definition dist (P : table) (i j : nat) : option Z :=
  if decide (i = j) then Some 0 else P i j ≫= wcost i.

(** A recorded cost is at most [c]. *)
Definition dle (o : option Z) (c : Z) : Prop := exists c', o = Some c' /\ c' <= c.

Lemma dle_weaken o c c' : dle o c -> c <= c' -> dle o c'.
Proof. intros (d & -> & Hd) Hc. exists d. split; [done|lia]. Qed.

Definition pstep (k : nat) (P : table) : table := fun i j =>
  if (i =? j)%nat || (j =? k)%nat || (i =? k)%nat then P i j
  else match P i k, P k j with
       | Some p, Some q =>
           match dist P i k, dist P k j with
           | Some a, Some b =>
               match dist P i j with
               | Some c => if a + b <? c then Some (p ++ q) else P i j
               | None => Some (p ++ q)
               end
           | _, _ => P i j
           end
       | _, _ => P i j
       end.

(** What a table holds after the rounds below [k]: simple paths through nodes
    below [k], not longer than edges nor than detours over nodes below [k]. *)
Record tab_ok (n k : nat) (P : table) : Prop := {
  tab_dom : forall i j l, P i j = Some l -> (i < n)%nat /\ (j < n)%nat;
  tab_path : forall i j l, i <> j -> P i j = Some l ->
    endp i l = j /\ is_Some (wcost i l) /\ NoDup (i :: l) /\
    (forall x, x ∈ l -> x <> j -> (x < k)%nat);
  tab_edge : forall i j c, (i < n)%nat -> (j < n)%nat -> i <> j -> W i j = Some c -> dle (dist P i j) c;
  tab_tri : forall i x j a b, (i < n)%nat -> (j < n)%nat -> (x < k)%nat ->
    dist P i x = Some a -> dist P x j = Some b -> dle (dist P i j) (a + b) }.

Lemma dist_diag P i : dist P i i = Some 0.
Proof. unfold dist. by rewrite decide_True. Qed.

Lemma dist_ne P i j : i <> j -> dist P i j = P i j ≫= wcost i.
Proof. intros. unfold dist. by rewrite decide_False. Qed.

Lemma dist_nonneg P i j c : dist P i j = Some c -> 0 <= c.
Proof.
  unfold dist. destruct (decide _); [intros [= <-]; lia|].
  destruct (P i j); cbn [mbind option_bind]; [apply wcost_nonneg|done].
Qed.

Section Inv.
Context {n k : nat} {P : table} (Hok : tab_ok n k P).

(** The detour inequality also holds over the end points. *)
Lemma tab_tri' i x j a b :
  (i < n)%nat -> (j < n)%nat -> (x < k)%nat \/ x = i \/ x = j ->
  dist P i x = Some a -> dist P x j = Some b -> dle (dist P i j) (a + b).
Proof.
  intros Hi Hj [Hx|[->| ->]] Ha Hb.
  - by eapply (tab_tri _ _ _ Hok).
  - rewrite dist_diag in Ha. injection Ha as <-. exists b. split; [done|lia].
  - rewrite dist_diag in Hb. injection Hb as <-. exists a. split; [done|lia].
Qed.

(** Every walk through nodes below [k] costs at least what is recorded. *)
Lemma walk_bound i l c :
  (k <= n)%nat -> (i < n)%nat -> (endp i l < n)%nat -> wcost i l = Some c ->
  (forall x, x ∈ l -> x = endp i l \/ (x < k)%nat) ->
  dle (dist P i (endp i l)) c.
Proof.
  intros Hkn. revert i c. induction l as [|x l IH]; intros i c Hi Hj Hc Hin.
  - change (endp i []) with i. rewrite dist_diag. exists 0. split; [done|].
    injection Hc as <-. lia.
  - rewrite endp_cons in *. cbn [wcost] in Hc.
    destruct (W i x) as [a|] eqn:Ea; [|done]. cbn [mbind option_bind] in Hc.
    destruct (wcost x l) as [b|] eqn:Eb; [|done]. cbn [mbind option_bind] in Hc. injection Hc as <-.
    pose proof (W_pos _ _ _ Ea). pose proof (wcost_nonneg _ _ _ Eb).
    assert (Hx : x = endp x l \/ (x < k)%nat) by (apply Hin; left).
    assert (Hxn : (x < n)%nat) by (destruct Hx as [->|]; lia).
    assert (H1 : dle (dist P i x) a).
    { destruct (decide (i = x)) as [->|Hne]; [rewrite dist_diag; exists 0; done|].
      by eapply (tab_edge _ _ _ Hok). }
    assert (H2 : dle (dist P x (endp x l)) b).
    { apply IH; try done. intros y Hy. apply Hin. by right. }
    destruct H1 as (a' & Ha & Hle1), H2 as (b' & Hb & Hle2).
    eapply dle_weaken; [eapply (tab_tri' i x); try done|lia].
    destruct Hx as [Hx|Hx]; [by right; right|by left].
Qed.

Lemma dist_Some_path i j a :
  i <> j -> dist P i j = Some a ->
  exists p, P i j = Some p /\ wcost i p = Some a /\ endp i p = j /\ NoDup (i :: p) /\
    (forall x, x ∈ p -> x = j \/ (x < k)%nat).
Proof.
  intros Hne Hd. rewrite dist_ne in Hd by done. destruct (P i j) as [p|] eqn:E; [|done].
  cbn [mbind option_bind] in Hd. destruct (tab_path _ _ _ Hok i j p Hne E) as (He & _ & Hnd & Hlt).
  exists p. split_and!; try done. intros x Hx. destruct (decide (x = j)); [by left|right; by apply Hlt].
Qed.

Lemma dist_pstep i j :
  dist (pstep k P) i j =
  match dist P i k, dist P k j with
  | Some a, Some b => match dist P i j with Some c => Some (Z.min c (a + b)) | None => Some (a + b) end
  | _, _ => dist P i j
  end.
Proof.
  destruct (decide (i = j)) as [->|Hij].
  { rewrite !dist_diag. destruct (dist P j k) as [a|] eqn:Ea, (dist P k j) as [b|] eqn:Eb; try done.
    apply dist_nonneg in Ea, Eb. f_equal. lia. }
  destruct (decide (j = k)) as [->|Hjk].
  { rewrite dist_diag. rewrite (dist_ne (pstep k P)) by done. unfold pstep. rewrite Nat.eqb_refl, orb_true_r. simpl.
    rewrite <- dist_ne by done. destruct (dist P i k); [f_equal; lia|done]. }
  destruct (decide (i = k)) as [->|Hik].
  { rewrite dist_diag. rewrite (dist_ne (pstep k P)) by done. unfold pstep. rewrite Nat.eqb_refl, orb_true_r.
    rewrite <- dist_ne by done. destruct (dist P k j); [f_equal; lia|done]. }
  rewrite (dist_ne (pstep k P)) by done. unfold pstep.
  rewrite !(proj2 (Nat.eqb_neq _ _)) by done. cbn [orb].
  destruct (dist P i k) as [a|] eqn:Ea.
  2:{ destruct (P i k), (P k j); by rewrite <- dist_ne. }
  destruct (dist_Some_path i k a Hik Ea) as (p & -> & Hp & He & _).
  destruct (dist P k j) as [b|] eqn:Eb; [|by destruct (P k j); rewrite <- dist_ne].
  destruct (dist_Some_path k j b ltac:(done) Eb) as (q & -> & Hq & _).
  assert (Hpq : wcost i (p ++ q) = Some (a + b)).
  { rewrite wcost_app, Hp, He. cbn [mbind option_bind]. by rewrite Hq. }
  destruct (dist P i j) as [c|] eqn:Ec; [|done].
  destruct (Z.ltb_spec (a + b) c); [rewrite Z.min_r by lia; done|].
  rewrite <- dist_ne by done. rewrite Ec, Z.min_l by lia. done.
Qed.

Lemma dist_pstep_le i j c : dle (dist P i j) c -> dle (dist (pstep k P) i j) c.
Proof.
  intros (c' & Hc & Hle). rewrite dist_pstep, Hc.
  destruct (dist P i k); [|by exists c']. destruct (dist P k j); [|by exists c'].
  eexists. split; [done|]. lia.
Qed.

Lemma dist_pstep_via i j a b :
  dist P i k = Some a -> dist P k j = Some b -> dle (dist (pstep k P) i j) (a + b).
Proof. intros Ha Hb. rewrite dist_pstep, Ha, Hb. destruct (dist P i j); eexists; (split; [done|lia]). Qed.

(** Where a new distance comes from. *)
Lemma dist_pstep_inv i j c :
  dist (pstep k P) i j = Some c ->
  dist P i j = Some c \/ exists a b, dist P i k = Some a /\ dist P k j = Some b /\ c = a + b.
Proof.
  rewrite dist_pstep. destruct (dist P i k) as [a|]; [|by left]. destruct (dist P k j) as [b|]; [|by left].
  destruct (dist P i j) as [c0|]; intros [= <-]; [|by right; exists a, b].
  destruct (Z.min_spec c0 (a + b)) as [[_ ->]|[_ ->]]; [by left|right; by exists a, b].
Qed.

Lemma pstep_tri i x j a b :
  (k < n)%nat -> (i < n)%nat -> (j < n)%nat -> (x < S k)%nat ->
  dist (pstep k P) i x = Some a -> dist (pstep k P) x j = Some b -> dle (dist (pstep k P) i j) (a + b).
Proof.
  intros Hk Hi Hj Hx Ha Hb. destruct (decide (x = k)) as [->|Hne].
  { rewrite dist_pstep in Ha, Hb. rewrite dist_diag in Ha, Hb.
    assert (Ha' : dist P i k = Some a) by (destruct (dist P i k); [injection Ha as <-; f_equal; lia|done]).
    assert (Hb' : dist P k j = Some b) by (destruct (dist P k j); [injection Hb as <-; f_equal; lia|done]).
    by apply dist_pstep_via. }
  assert (Hxk : (x < k)%nat) by lia.
  destruct (dist_pstep_inv _ _ _ Ha) as [Ha'|(a1 & a2 & Ha1 & Ha2 & ->)],
           (dist_pstep_inv _ _ _ Hb) as [Hb'|(b1 & b2 & Hb1 & Hb2 & ->)].
  - apply dist_pstep_le. by eapply (tab_tri _ _ _ Hok).
  - destruct (tab_tri _ _ _ Hok i x k a b1 ltac:(lia) ltac:(lia) Hxk Ha' Hb1) as (c & Hc & Hle).
    eapply dle_weaken; [eapply dist_pstep_via; done|lia].
  - destruct (tab_tri _ _ _ Hok k x j a2 b ltac:(lia) ltac:(lia) Hxk Ha2 Hb') as (c & Hc & Hle).
    eapply dle_weaken; [eapply dist_pstep_via; done|lia].
  - apply dist_nonneg in Ha2, Hb1. eapply dle_weaken; [eapply dist_pstep_via; done|lia].
Qed.

(** The path put together over [k] visits no node twice. *)
Lemma pstep_simple i j p q a b :
  (k < n)%nat -> (i < n)%nat -> (j < n)%nat ->
  (forall x, x ∈ p -> (x < n)%nat) -> (forall x, x ∈ q -> (x < n)%nat) -> i <> j -> i <> k -> j <> k ->
  P i k = Some p -> P k j = Some q -> dist P i k = Some a -> dist P k j = Some b ->
  ~ dle (dist P i j) (a + b) -> NoDup (i :: p ++ q).
Proof.
  intros Hk Hi Hj Hpn Hqn Hij Hik Hjk Hp Hq Ha Hb Hnle.
  destruct (dist_Some_path i k a Hik Ha) as (p' & Hp' & Hpc & Hpe & Hpnd & Hplt).
  destruct (dist_Some_path k j b ltac:(done) Hb) as (q' & Hq' & Hqc & Hqe & Hqnd & Hqlt).
  assert (p' = p) as -> by congruence. assert (q' = q) as -> by congruence. clear Hp' Hq'.
  change (i :: p ++ q) with ((i :: p) ++ q). apply NoDup_app.
  split; [done|]. split; [|by apply NoDup_cons in Hqnd as [_ ?]].
  intros x Hx1 Hx2. apply Hnle.
  assert (Hxk : x <> k) by (intros ->; apply NoDup_cons in Hqnd as [Hn _]; done).
  assert (Hxn : (x < n)%nat) by (by apply Hqn).
  assert (Hxd : (x < k)%nat \/ x = i \/ x = j).
  { destruct (Hqlt x Hx2) as [->|]; [by right; right|by left]. }
  destruct (walk_split i p x Hx1) as (p1 & p2 & -> & Hp1 & _).
  destruct (walk_split k q x (list_elem_of_further _ _ _ Hx2)) as (q1 & q2 & -> & Hq1 & _).
  rewrite wcost_app in Hpc, Hqc. rewrite Hp1 in Hpc. rewrite Hq1 in Hqc.
  destruct (wcost i p1) as [a1|] eqn:Ea1; [|done]. cbn [mbind option_bind] in Hpc.
  destruct (wcost x p2) as [a2|] eqn:Ea2; [|done]. cbn [mbind option_bind] in Hpc. injection Hpc as <-.
  destruct (wcost k q1) as [b1|] eqn:Eb1; [|done]. cbn [mbind option_bind] in Hqc.
  destruct (wcost x q2) as [b2|] eqn:Eb2; [|done]. cbn [mbind option_bind] in Hqc. injection Hqc as <-.
  apply wcost_nonneg in Ea2 as Hpos1, Eb1 as Hpos2.
  assert (H1 : dle (dist P i x) a1).
  { rewrite <- Hp1. apply walk_bound; try done; [lia|by rewrite Hp1|]. intros y Hy. rewrite Hp1.
    destruct (Hplt y) as [->|]; [apply elem_of_app; by left| |by right].
    exfalso. assert (Hk' : endp i (p1 ++ p2) ∉ i :: p1); [|apply Hk'; rewrite Hpe; by right].
    apply endp_last; [done|]. intros ->. rewrite app_nil_r in Hpe. congruence. }
  assert (H2 : dle (dist P x j) b2).
  { assert (Hxe : endp x q2 = j) by (rewrite <- Hq1, <- endp_app; done).
    rewrite <- Hxe. apply walk_bound; try done; [lia|by rewrite Hxe|]. intros y Hy. rewrite Hxe.
    apply Hqlt, elem_of_app. by right. }
  destruct H1 as (a' & Ha' & Hle1), H2 as (b' & Hb' & Hle2).
  eapply dle_weaken; [eapply (tab_tri' i x); done|lia].
Qed.

(** The cases of a cell of the next table. *)
Lemma pstep_inv i j l :
  pstep k P i j = Some l ->
  P i j = Some l \/
  exists p q a b, i <> j /\ i <> k /\ j <> k /\ l = p ++ q /\ P i k = Some p /\ P k j = Some q /\
    dist P i k = Some a /\ dist P k j = Some b /\ ~ dle (dist P i j) (a + b).
Proof.
  unfold pstep. destruct (_ || _ || _) eqn:E; [by left|].
  rewrite !orb_false_iff, !Nat.eqb_neq in E. destruct E as [[Hij Hjk] Hik].
  destruct (P i k) as [p|] eqn:Ep; [|by left]. destruct (P k j) as [q|] eqn:Eq; [|by left].
  destruct (dist P i k) as [a|] eqn:Ea; [|by left]. destruct (dist P k j) as [b|] eqn:Eb; [|by left].
  destruct (dist P i j) as [c|] eqn:Ec.
  - destruct (Z.ltb_spec (a + b) c); [|by left]. intros [= <-]. right. exists p, q, a, b.
    split_and!; try done. intros (c' & [= <-] & Hle). lia.
  - intros [= <-]. right. exists p, q, a, b. split_and!; try done. intros (c' & Hc & _). done.
Qed.

Lemma pstep_path i j l :
  (k < n)%nat -> i <> j -> pstep k P i j = Some l ->
  endp i l = j /\ is_Some (wcost i l) /\ NoDup (i :: l) /\
  (forall x, x ∈ l -> x <> j -> (x < S k)%nat).
Proof.
  intros Hk Hij Hl. destruct (pstep_inv i j l Hl) as [Hold|(p & q & a & b & _ & Hik & Hjk & -> & Hp & Hq & Ha & Hb & Hlt)].
  { destruct (tab_path _ _ _ Hok i j l Hij Hold) as (He & Hc & Hnd & Hin). split_and!; try done.
    intros x Hx Hxj. specialize (Hin x Hx Hxj). lia. }
  destruct (tab_dom _ _ _ Hok _ _ _ Hp) as [Hi _], (tab_dom _ _ _ Hok _ _ _ Hq) as [_ Hj].
  destruct (tab_path _ _ _ Hok i k p Hik Hp) as (Hpe & [cp Hpc] & _ & Hpin).
  destruct (tab_path _ _ _ Hok k j q ltac:(done) Hq) as (Hqe & [cq Hqc] & _ & Hqin).
  split_and!.
  - by rewrite endp_app, Hpe.
  - rewrite wcost_app, Hpc, Hpe. cbn [mbind option_bind]. rewrite Hqc. by eexists.
  - eapply pstep_simple; try done.
    + intros x Hx. destruct (decide (x = k)) as [->|Hne]; [done|]. specialize (Hpin x Hx Hne). lia.
    + intros x Hx. destruct (decide (x = j)) as [->|Hne]; [done|]. specialize (Hqin x Hx Hne). lia.
  - intros x Hx Hxj. apply elem_of_app in Hx as [Hx|Hx].
    + destruct (decide (x = k)) as [->|Hne]; [lia|]. specialize (Hpin x Hx Hne). lia.
    + specialize (Hqin x Hx Hxj). lia.
Qed.

Lemma pstep_ok : (k < n)%nat -> tab_ok n (S k) (pstep k P).
Proof.
  intros Hk. split.
  - intros i j l Hl. destruct (pstep_inv i j l Hl) as [Hold|(p & q & a & b & _ & _ & _ & _ & Hp & Hq & _)].
    + by eapply (tab_dom _ _ _ Hok).
    + split; [by apply (tab_dom _ _ _ Hok i k p)|by apply (tab_dom _ _ _ Hok k j q)].
  - intros i j l Hij Hl. by apply pstep_path.
  - intros i j c Hi Hj Hij Hc. apply dist_pstep_le. by apply (tab_edge _ _ _ Hok).
  - intros i x j a b Hi Hj Hx. by apply pstep_tri.
Qed.
End Inv.

(** The table of the direct edges, and the table after all rounds. *)
Definition edge_table (n : nat) : table := fun i j =>
  if (i <? n)%nat && (j <? n)%nat && negb (i =? j)%nat then
    match W i j with Some _ => Some [j] | None => None end
  else None.

Definition paths (n : nat) : table := foldl (fun P k => pstep k P) (edge_table n) (seq 0 n).

Lemma edge_table_Some n i j l :
  edge_table n i j = Some l -> (i < n)%nat /\ (j < n)%nat /\ i <> j /\ l = [j] /\ is_Some (W i j).
Proof.
  unfold edge_table. destruct (_ && _ && _) eqn:E; [|done].
  rewrite !andb_true_iff, !Nat.ltb_lt, negb_true_iff, Nat.eqb_neq in E.
  destruct (W i j) as [c|]; [|done]. intros [= <-]. destruct E as [[Hi Hj] Hij]. by split_and!.
Qed.

Lemma edge_table_ok n : tab_ok n 0 (edge_table n).
Proof.
  split.
  - intros i j l Hl. apply edge_table_Some in Hl. tauto.
  - intros i j l Hij Hl. apply edge_table_Some in Hl as (_ & _ & _ & -> & [c Hc]).
    split; [done|]. split; [cbn [wcost]; rewrite Hc; by eexists|]. split.
    + apply NoDup_cons. split; [by rewrite list_elem_of_singleton|apply NoDup_singleton].
    + intros x ->%list_elem_of_singleton. done.
  - intros i j c Hi Hj Hij Hc. rewrite dist_ne by done. unfold edge_table.
    rewrite !(proj2 (Nat.ltb_lt _ _)) by done. rewrite (proj2 (Nat.eqb_neq _ _)) by done. cbn [andb negb].
    rewrite Hc. cbn [mbind option_bind wcost]. rewrite Hc. cbn [mbind option_bind].
    eexists. split; [done|lia].
  - intros. lia.
Qed.

Lemma rounds_ok n m : (m <= n)%nat -> tab_ok n m (foldl (fun P k => pstep k P) (edge_table n) (seq 0 m)).
Proof.
  induction m as [|m IH]; intros Hm; [apply edge_table_ok|].
  rewrite seq_S, foldl_app. simpl. apply pstep_ok; [|lia]. apply IH. lia.
Qed.

Lemma paths_ok n : tab_ok n n (paths n).
Proof. by apply rounds_ok. Qed.
End Walks.

(** ** The in-place loops, cell by cell *)
Section Matrix.
Context (n : nat) (ids : list Z).
Implicit Types rts : list Route.

Lemma cell_lt i j : (i < n)%nat -> (j < n)%nat -> (i * n + j < n * n)%nat.
Proof. nia. Qed.

Lemma cell_inj i j a b :
  (j < n)%nat -> (b < n)%nat -> (i * n + j = a * n + b)%nat -> i = a /\ j = b.
Proof. intros Hj Hb H. assert (i = a) by nia. subst. split; [done|lia]. Qed.

Lemma rt_insert rts i j a b r :
  length rts = (n * n)%nat -> (i < n)%nat -> (j < n)%nat -> (a < n)%nat -> (b < n)%nat ->
  rt n (<[(i * n + j)%nat := r]> rts) a b = if decide (a = i /\ b = j) then r else rt n rts a b.
Proof.
  intros Hl Hi Hj Ha Hb. unfold rt. destruct (decide (a = i /\ b = j)) as [[-> ->]|Hne].
  - apply list_lookup_total_insert_eq. rewrite Hl. by apply cell_lt.
  - apply list_lookup_total_insert_ne. intros H. apply Hne.
    destruct (cell_inj i j a b); [done|done|done|]. by subst.
Qed.

(** The value of cell [(i, j)] after round [k], from the cells before it. *)
Definition relaxed (k i j : nat) (ik kj ij : Route) : Route :=
  if (i =? j)%nat || (j =? k)%nat || (rcost kj <? 0) then ij
  else if (rcost ij <? 0) || (s32 (rcost ik + rcost kj) <? rcost ij)
  then mk_route (s16 (distance ik + distance kj)) (s32 (rcost ik + rcost kj))
         (match forwarder kj with Some f => Some f | None => forwarder ik end) (ids !!! k)
  else ij.

Definition relaxed_row (k i j : nat) (ik kj ij : Route) : Route :=
  if (i =? k)%nat || (rcost ik <? 0) then ij else relaxed k i j ik kj ij.

Lemma fw_cell_rt k i j rts a b :
  length rts = (n * n)%nat -> (i < n)%nat -> (j < n)%nat -> (a < n)%nat -> (b < n)%nat ->
  length (fw_cell n ids k i rts j) = (n * n)%nat /\
  rt n (fw_cell n ids k i rts j) a b =
  if decide (a = i /\ b = j) then relaxed k i j (rt n rts i k) (rt n rts k j) (rt n rts i j)
  else rt n rts a b.
Proof.
  intros Hl Hi Hj Ha Hb. unfold fw_cell, relaxed.
  destruct (_ || _ || _); [split; [done|]; destruct (decide _) as [[-> ->]|]; done|].
  destruct (_ || _); [|split; [done|]; destruct (decide _) as [[-> ->]|]; done].
  split; [by rewrite length_insert|]. by rewrite rt_insert.
Qed.

Lemma relaxed_col k i ik kj ij : relaxed k i k ik kj ij = ij.
Proof. unfold relaxed. by rewrite Nat.eqb_refl, orb_true_r. Qed.

Lemma fw_cells_rt k i rts m a b :
  length rts = (n * n)%nat -> (k < n)%nat -> (i < n)%nat -> i <> k -> (m <= n)%nat -> (a < n)%nat -> (b < n)%nat ->
  length (foldl (fw_cell n ids k i) rts (seq 0 m)) = (n * n)%nat /\
  rt n (foldl (fw_cell n ids k i) rts (seq 0 m)) a b =
  if decide (a = i /\ (b < m)%nat) then relaxed k i b (rt n rts i k) (rt n rts k b) (rt n rts i b)
  else rt n rts a b.
Proof.
  intros Hl Hk Hi Hik. revert a b. induction m as [|m IH]; intros a b Hm Ha Hb.
  { split; [done|]. rewrite decide_False; [done|lia]. }
  rewrite seq_S, foldl_app. cbn [foldl Nat.add].
  assert (Hread : forall a b, (a < n)%nat -> (b < n)%nat -> _) by (intros a0 b0; apply IH; lia).
  set (rts' := foldl (fw_cell n ids k i) rts (seq 0 m)) in *.
  destruct (Hread a b Ha Hb) as [Hl' Hab].
  destruct (fw_cell_rt k i m rts' a b Hl' Hi ltac:(lia) Ha Hb) as [Hl2 Heq].
  split; [done|]. rewrite Heq.
  rewrite (proj2 (Hread i k Hi Hk)), (proj2 (Hread k m Hk ltac:(lia))), (proj2 (Hread i m Hi ltac:(lia))).
  rewrite (decide_False (P := k = i /\ _)) by (intros [? _]; congruence).
  rewrite (decide_False (P := i = i /\ (m < m)%nat)) by lia.
  assert (Hik' : (if decide (i = i /\ (k < m)%nat) then relaxed k i k (rt n rts i k) (rt n rts k k) (rt n rts i k)
                  else rt n rts i k) = rt n rts i k) by (clear; case_decide; [apply relaxed_col|done]).
  rewrite Hik', Hab.
  destruct (decide (a = i /\ b = m)) as [[-> ->]|Hne].
  - rewrite decide_True by lia. done.
  - destruct (decide (a = i /\ (b < m)%nat)) as [[-> Hlt]|Hn].
    + rewrite decide_True by lia. done.
    + rewrite decide_False; [done|]. intros [-> Hlt]. destruct (decide (b = m)) as [->|]; [by apply Hne|].
      apply Hn. split; [done|lia].
Qed.

Lemma fw_row_rt k i rts a b :
  length rts = (n * n)%nat -> (k < n)%nat -> (i < n)%nat -> (a < n)%nat -> (b < n)%nat ->
  length (fw_row n ids k rts i) = (n * n)%nat /\
  rt n (fw_row n ids k rts i) a b =
  if decide (a = i) then relaxed_row k i b (rt n rts i k) (rt n rts k b) (rt n rts i b) else rt n rts a b.
Proof.
  intros Hl Hk Hi Ha Hb. unfold fw_row, relaxed_row. destruct (_ || _) eqn:E.
  { split; [done|]. by destruct (decide _) as [->|]. }
  apply orb_false_iff in E as [E%Nat.eqb_neq _].
  destruct (fw_cells_rt k i rts n a b Hl Hk Hi E ltac:(lia) Ha Hb) as [Hl' Heq].
  split; [done|]. rewrite Heq. destruct (decide (a = i)) as [->|Hne].
  - by rewrite decide_True.
  - rewrite decide_False; [done|tauto].
Qed.

Lemma fw_rows_rt k rts m a b :
  length rts = (n * n)%nat -> (k < n)%nat -> (m <= n)%nat -> (a < n)%nat -> (b < n)%nat ->
  length (foldl (fw_row n ids k) rts (seq 0 m)) = (n * n)%nat /\
  rt n (foldl (fw_row n ids k) rts (seq 0 m)) a b =
  if decide (a < m)%nat then relaxed_row k a b (rt n rts a k) (rt n rts k b) (rt n rts a b) else rt n rts a b.
Proof.
  intros Hl Hk. revert a b. induction m as [|m IH]; intros a b Hm Ha Hb; [done|].
  rewrite seq_S, foldl_app. cbn [foldl Nat.add].
  assert (Hread : forall a b, (a < n)%nat -> (b < n)%nat -> _) by (intros a0 b0; apply IH; lia).
  set (rts' := foldl (fw_row n ids k) rts (seq 0 m)) in *.
  destruct (Hread a b Ha Hb) as [Hl' Hab].
  destruct (fw_row_rt k m rts' a b Hl' Hk ltac:(lia) Ha Hb) as [Hl2 Heq].
  split; [done|]. rewrite Heq.
  rewrite (proj2 (Hread m k ltac:(lia) Hk)), (proj2 (Hread k b Hk Hb)), (proj2 (Hread m b ltac:(lia) Hb)).
  rewrite !(decide_False (P := (m < m)%nat)) by lia.
  assert (Hkb : (if decide (k < m)%nat then relaxed_row k k b (rt n rts k k) (rt n rts k b) (rt n rts k b)
                 else rt n rts k b) = rt n rts k b).
  { clear. case_decide; [|done]. unfold relaxed_row. by rewrite Nat.eqb_refl. }
  rewrite Hkb, Hab. destruct (decide (a = m)) as [->|Hne].
  - by rewrite decide_True by lia.
  - destruct (decide (a < m)%nat); [rewrite decide_True by lia|rewrite decide_False by lia]; done.
Qed.

Lemma fw_round_rt k rts a b :
  length rts = (n * n)%nat -> (k < n)%nat -> (a < n)%nat -> (b < n)%nat ->
  length (fw_round n ids rts k) = (n * n)%nat /\
  rt n (fw_round n ids rts k) a b = relaxed_row k a b (rt n rts a k) (rt n rts k b) (rt n rts a b).
Proof.
  intros Hl Hk Ha Hb. destruct (fw_rows_rt k rts n a b Hl Hk ltac:(lia) Ha Hb) as [Hl' Heq].
  split; [done|]. unfold fw_round. by rewrite Heq, decide_True.
Qed.
End Matrix.

(** ** The matrix follows the table of paths *)
Section Match.
Context (W : nat -> nat -> option Z) (n : nat) (ids : list Z) (t : nat).
Context (W_range : forall i j c, W i j = Some c -> 0 <= c <= 32768).
Context (Hn : Z.of_nat n <= 32768).

Let W_pos : forall i j c, W i j = Some c -> 0 <= c.
Proof. intros i j c Hc. apply W_range in Hc. lia. Qed.

(** The node after [t] on a walk. *)
Fixpoint next_hop (i : nat) (l : list nat) : option nat :=
  match l with
  | [] => None
  | x :: l' => if (i =? t)%nat then Some x else next_hop x l'
  end.

Definition cell_ok (i j : nat) (p : option (list nat)) (r : Route) : Prop :=
  match p with
  | None => rcost r = -1 /\ distance r = -1 /\ forwarder r = None /\ predecessor r = 0
  | Some l =>
      wcost W i l = Some (rcost r) /\ distance r = Z.of_nat (length l) /\
      forwarder r = (fun x => ids !!! x) <$> next_hop i l /\
      (exists x, x ∈ i :: l /\ x <> j /\ predecessor r = ids !!! x)
  end.

Definition matrix_ok (P : table) (rts : list Route) : Prop :=
  length rts = (n * n)%nat /\
  forall i j, (i < n)%nat -> (j < n)%nat -> i <> j -> cell_ok i j (P i j) (rt n rts i j).

Lemma wcost_bound i l c : wcost W i l = Some c -> 0 <= c <= 32768 * Z.of_nat (length l).
Proof.
  revert i c. induction l as [|x l IH]; intros i c; cbn [wcost]; [intros [= <-]; simpl; lia|].
  destruct (W i x) as [a|] eqn:E; [|done]. cbn [mbind option_bind].
  destruct (wcost W x l) as [b|] eqn:E2; [|done]. cbn [mbind option_bind]. intros [= <-].
  apply W_range in E. apply IH in E2. cbn [length]. lia.
Qed.

Lemma simple_length i l : NoDup (i :: l) -> (forall x, x ∈ i :: l -> (x < n)%nat) -> (length l < n)%nat.
Proof.
  intros Hnd Hlt. assert (Hsub : (i :: l) ⊆+ seq 0 n).
  { apply NoDup_submseteq; [done|]. intros x Hx. apply elem_of_seq. specialize (Hlt x Hx). lia. }
  apply submseteq_length in Hsub. rewrite length_seq in Hsub. simpl in Hsub. lia.
Qed.

Lemma path_bounds k P i j l :
  tab_ok W n k P -> (k <= n)%nat -> i <> j -> P i j = Some l ->
  (length l < n)%nat /\ exists c, wcost W i l = Some c /\ 0 <= c <= 32768 * 32767.
Proof.
  intros Hok Hk Hij Hl. destruct (tab_path _ _ _ _ Hok i j l Hij Hl) as (He & [c Hc] & Hnd & Hin).
  destruct (tab_dom _ _ _ _ Hok i j l Hl) as [Hi Hj].
  assert (Hlen : (length l < n)%nat).
  { apply (simple_length i); [done|]. intros x Hx. apply elem_of_cons in Hx as [->|Hx]; [done|].
    destruct (decide (x = j)) as [->|Hne]; [done|]. specialize (Hin x Hx Hne). lia. }
  split; [done|]. exists c. split; [done|]. apply wcost_bound in Hc. nia.
Qed.

Lemma next_hop_Some i l x : next_hop i l = Some x -> t ∈ i :: l.
Proof.
  revert i. induction l as [|y l IH]; intros i; cbn [next_hop]; [done|].
  destruct (Nat.eqb_spec i t) as [->|]; [left|]. intros H. right. by apply IH.
Qed.

Lemma next_hop_app i l1 l2 :
  NoDup (i :: l1 ++ l2) ->
  next_hop i (l1 ++ l2) =
  match next_hop (endp i l1) l2 with Some f => Some f | None => next_hop i l1 end.
Proof.
  revert i. induction l1 as [|x l1 IH]; intros i Hnd; cbn [app].
  - change (endp i []) with i. by destruct (next_hop i l2).
  - rewrite endp_cons. cbn [next_hop]. rewrite <- app_comm_cons in Hnd. apply NoDup_cons in Hnd as [Hi Hnd].
    destruct (Nat.eqb_spec i t) as [->|]; [|by apply IH].
    destruct (next_hop (endp x l1) l2) as [f|] eqn:E; [|done]. apply next_hop_Some in E.
    exfalso. apply Hi. rewrite app_comm_cons. apply elem_of_app.
    apply elem_of_cons in E as [->|E]; [left; apply endp_elem|by right].
Qed.

Lemma s32_small x : 0 <= x < 2 ^ 31 -> s32 x = x.
Proof. intros. apply wraps_small; [lia|]. unfold in_s. change (32 - 1) with 31. lia. Qed.

Lemma s16_small x : 0 <= x < 2 ^ 15 -> s16 x = x.
Proof. intros. apply wraps_small; [lia|]. unfold in_s. change (16 - 1) with 15. lia. Qed.

(** A cost of a cell is negative exactly when there is no path. *)
Lemma cell_cost k P i j r :
  tab_ok W n k P -> (k <= n)%nat -> i <> j -> cell_ok i j (P i j) r ->
  match dist W P i j with
  | Some c => rcost r = c /\ 0 <= c <= 32768 * 32767 /\ 0 <= distance r < Z.of_nat n
  | None => rcost r = -1
  end.
Proof.
  intros Hok Hk Hij Hc. rewrite dist_ne by done. destruct (P i j) as [l|] eqn:E; cbn [mbind option_bind].
  - destruct (path_bounds k P i j l Hok Hk Hij E) as (Hl & c & Hw & Hb). destruct Hc as (Hc & Hd & _).
    rewrite Hw in *. injection Hc as ->. split; [done|]. split; [done|]. rewrite Hd. lia.
  - by destruct Hc.
Qed.

Lemma cell_join k P i j p q ik kj :
  tab_ok W n k P -> (k < n)%nat -> i <> j -> i <> k -> k <> j -> P i k = Some p -> P k j = Some q ->
  NoDup (i :: p ++ q) -> cell_ok i k (Some p) ik -> cell_ok k j (Some q) kj ->
  rcost ik + rcost kj < 2 ^ 31 ->
  cell_ok i j (Some (p ++ q))
    (mk_route (s16 (distance ik + distance kj)) (s32 (rcost ik + rcost kj))
       (match forwarder kj with Some f => Some f | None => forwarder ik end) (ids !!! k)).
Proof.
  intros Hok Hk Hij Hik Hkj Hp Hq Hnd (Hpc & Hpd & Hpf & _) (Hqc & Hqd & Hqf & _) Hlt.
  destruct (tab_path _ _ _ _ Hok i k p Hik Hp) as (Hpe & _ & _ & Hpin).
  destruct (tab_path _ _ _ _ Hok k j q Hkj Hq) as (Hqe & _ & _ & Hqin).
  destruct (tab_dom _ _ _ _ Hok _ _ _ Hp) as [Hi _], (tab_dom _ _ _ _ Hok _ _ _ Hq) as [_ Hj].
  pose proof (wcost_bound _ _ _ Hpc). pose proof (wcost_bound _ _ _ Hqc).
  assert (Hlen : (length (p ++ q) < n)%nat).
  { apply (simple_length i); [done|]. intros x Hx. apply elem_of_cons in Hx as [->|Hx]; [done|].
    apply elem_of_app in Hx as [Hx|Hx].
    - destruct (decide (x = k)) as [->|Hne]; [done|]. specialize (Hpin x Hx Hne). lia.
    - destruct (decide (x = j)) as [->|Hne]; [done|]. specialize (Hqin x Hx Hne). lia. }
  rewrite length_app in Hlen. unfold cell_ok. cbn [rcost distance forwarder predecessor].
  split_and!.
  - rewrite wcost_app, Hpc, Hpe. cbn [mbind option_bind]. rewrite Hqc. cbn [mbind option_bind].
    rewrite s32_small by lia. done.
  - rewrite s16_small by lia. rewrite length_app. lia.
  - rewrite next_hop_app by done. rewrite Hpe, Hpf, Hqf.
    destruct (next_hop k q); [done|]. by destruct (next_hop i p).
  - exists k. split_and!; [|done|done]. right. apply elem_of_app. left.
    pose proof (endp_elem i p) as Hin. rewrite Hpe in Hin. apply elem_of_cons in Hin as [->|]; done.
Qed.

Lemma cell_step k P i j ik kj ij :
  tab_ok W n k P -> (k < n)%nat -> (i < n)%nat -> (j < n)%nat -> i <> j ->
  (i <> k -> cell_ok i k (P i k) ik) -> (k <> j -> cell_ok k j (P k j) kj) -> cell_ok i j (P i j) ij ->
  cell_ok i j (pstep W k P i j) (relaxed_row ids k i j ik kj ij).
Proof.
  intros Hok Hk Hi Hj Hij Hik_ok Hkj_ok Hij_ok. unfold pstep, relaxed_row, relaxed.
  rewrite (proj2 (Nat.eqb_neq i j)) by done. cbn [orb].
  destruct (Nat.eqb_spec i k) as [->|Hik]; [by rewrite orb_true_r|]. cbn [orb].
  destruct (Nat.eqb_spec j k) as [->|Hjk]; [cbn [orb]; by destruct (rcost ik <? 0)|]. cbn [orb].
  specialize (Hik_ok Hik). specialize (Hkj_ok (not_eq_sym Hjk)).
  pose proof (cell_cost k P i k ik Hok ltac:(lia) Hik Hik_ok) as Hcik.
  pose proof (cell_cost k P k j kj Hok ltac:(lia) (not_eq_sym Hjk) Hkj_ok) as Hckj.
  pose proof (cell_cost k P i j ij Hok ltac:(lia) Hij Hij_ok) as Hcij.
  destruct (P i k) as [p|] eqn:Ep.
  2:{ rewrite dist_ne, Ep in Hcik by done. simpl in Hcik. rewrite Hcik. done. }
  destruct (dist W P i k) as [a|] eqn:Ea.
  2:{ rewrite Hcik. simpl. by destruct (P k j). }
  destruct Hcik as (Ha & Ha2 & _). rewrite (proj2 (Z.ltb_ge (rcost ik) 0)) by lia.
  destruct (P k j) as [q|] eqn:Eq.
  2:{ rewrite dist_ne, Eq in Hckj by done. simpl in Hckj. rewrite Hckj. done. }
  destruct (dist W P k j) as [b|] eqn:Eb.
  2:{ rewrite Hckj. done. }
  destruct Hckj as (Hb & Hb2 & _). rewrite (proj2 (Z.ltb_ge (rcost kj) 0)) by lia.
  rewrite (s32_small (rcost ik + rcost kj)) by lia. rewrite Ha, Hb.
  assert (Hjoin : ~ dle (dist W P i j) (a + b) ->
    cell_ok i j (Some (p ++ q)) (mk_route (s16 (distance ik + distance kj)) (a + b)
       (match forwarder kj with Some f => Some f | None => forwarder ik end) (ids !!! k))).
  { intros Hnle. replace (a + b) with (s32 (rcost ik + rcost kj)) by (rewrite s32_small; lia).
    apply (cell_join k P i j p q); try done; [|lia].
    eapply (pstep_simple W W_pos Hok i j p q a b); try done.
    - intros x Hx. destruct (decide (x = k)) as [->|Hne]; [done|].
      pose proof (tab_path _ _ _ _ Hok i k p Hik Ep) as (_ & _ & _ & Hin). specialize (Hin x Hx Hne). lia.
    - intros x Hx. destruct (decide (x = j)) as [->|Hne]; [done|].
      pose proof (tab_path _ _ _ _ Hok k j q (not_eq_sym Hjk) Eq) as (_ & _ & _ & Hin). specialize (Hin x Hx Hne). lia. }
  destruct (dist W P i j) as [c|] eqn:Ec.
  - destruct Hcij as (Hc & Hc2 & _). rewrite (proj2 (Z.ltb_ge (rcost ij) 0)) by lia. rewrite Hc. cbn [orb].
    destruct (Z.ltb_spec (a + b) c); [|done]. apply Hjoin. intros (c' & [= <-] & Hle). lia.
  - rewrite Hcij. cbn [orb]. apply Hjoin. intros (c' & Hc & _). done.
Qed.

Lemma matrix_step k P rts :
  tab_ok W n k P -> (k < n)%nat -> matrix_ok P rts -> matrix_ok (pstep W k P) (fw_round n ids rts k).
Proof.
  intros Hok Hk [Hl Hcell]. split.
  - by apply (fw_round_rt n ids k rts k k).
  - intros i j Hi Hj Hij. rewrite (proj2 (fw_round_rt n ids k rts i j Hl Hk Hi Hj)).
    apply cell_step; auto.
Qed.

Lemma floyd_warshall_ok rts :
  matrix_ok (edge_table W n) rts -> matrix_ok (paths W n) (floyd_warshall n ids rts).
Proof.
  intros Hm. unfold paths, floyd_warshall.
  assert (H : forall m, (m <= n)%nat ->
    matrix_ok (foldl (fun P k => pstep W k P) (edge_table W n) (seq 0 m)) (foldl (fw_round n ids) rts (seq 0 m))).
  { induction m as [|m IH]; intros Hm'; [done|]. rewrite seq_S, !foldl_app. cbn [foldl Nat.add].
    apply matrix_step; [|lia|apply IH; lia]. apply rounds_ok; [apply W_pos|lia]. }
  by apply H.
Qed.
End Match.

(** ** From indexes to node identifiers *)

(** The usable edge from [a] to [b]. *)
Fixpoint edge_at (edges : list Edge) (a b : Z) : option Edge :=
  match edges with
  | [] => None
  | e :: edges' =>
      if (source_addr e =? a) && (dest_addr e =? b) && negb (cost e =? -1) then Some e
      else edge_at edges' a b
  end.

Definition edge_weight (edges : list Edge) (a b : Z) : option Z :=
  (fun e => Z.abs (cost e)) <$> edge_at edges a b.

(** The cost of the route that visits [l] after [src]. *)
Fixpoint path_cost (edges : list Edge) (src : Z) (l : list Z) : option Z :=
  match l with
  | [] => Some 0
  | x :: l' => a ← edge_weight edges src x; b ← path_cost edges x l'; Some (a + b)
  end.

Definition edge_key (e : Edge) : Z * Z := (source_addr e, dest_addr e).

(** What the link state guarantees: distinct nodes, edges between them, one
    edge per pair, 16-bit costs. *)
Record valid_topology (ids : list Z) (edges : list Edge) : Prop := {
  vt_ids : NoDup ids;
  vt_edges : NoDup (edge_key <$> edges);
  vt_ends : forall e, e ∈ edges -> source_addr e ∈ ids /\ dest_addr e ∈ ids;
  vt_cost : forall e, e ∈ edges -> in_s 16 (cost e);
  vt_size : Z.of_nat (length ids) <= 32768 }.

Lemma edge_at_elem edges a b e :
  edge_at edges a b = Some e -> e ∈ edges /\ source_addr e = a /\ dest_addr e = b /\ cost e <> -1.
Proof.
  induction edges as [|x edges IH]; cbn [edge_at]; [done|].
  destruct (_ && _ && _) eqn:E.
  - intros [= <-]. rewrite !andb_true_iff, !Z.eqb_eq, negb_true_iff, Z.eqb_neq in E.
    destruct E as [[Ha Hb] Hc]. split_and!; try done. left.
  - intros H. destruct (IH H) as [Hin Hr]. split; [by right|done].
Qed.

Lemma edge_at_Some edges e :
  NoDup (edge_key <$> edges) -> e ∈ edges -> cost e <> -1 ->
  edge_at edges (source_addr e) (dest_addr e) = Some e.
Proof.
  induction edges as [|x edges IH]; intros Hnd Hin Hc; [by apply elem_of_nil in Hin|].
  cbn [edge_at]. rewrite fmap_cons, NoDup_cons in Hnd. destruct Hnd as [Hx Hnd].
  apply elem_of_cons in Hin as [->|Hin].
  - rewrite !Z.eqb_refl, (proj2 (Z.eqb_neq _ _)) by done. done.
  - destruct (_ && _ && _) eqn:E; [|by apply IH]. exfalso. apply Hx.
    rewrite !andb_true_iff, !Z.eqb_eq in E. destruct E as [[Ha Hb] _].
    apply list_elem_of_fmap. exists e. unfold edge_key. by rewrite Ha, Hb.
Qed.

Lemma edge_at_perm edges edges' a b :
  NoDup (edge_key <$> edges) -> edges' ≡ₚ edges -> edge_at edges' a b = edge_at edges a b.
Proof.
  intros Hnd Hp. assert (Hnd' : NoDup (edge_key <$> edges')) by (by rewrite Hp).
  destruct (edge_at edges' a b) as [e|] eqn:E.
  - apply edge_at_elem in E as (Hin & <- & <- & Hc). rewrite Hp in Hin. by rewrite edge_at_Some.
  - destruct (edge_at edges a b) as [e|] eqn:E2; [|done].
    apply edge_at_elem in E2 as (Hin & <- & <- & Hc). rewrite <- Hp in Hin.
    rewrite edge_at_Some in E by done. done.
Qed.

(** The index table of [RR_Init]. *)
Lemma index_nodes_absent s ids m x : x ∉ ids -> index_nodes s ids m !! x = m !! x.
Proof.
  revert s m. induction ids as [|y ids IH]; intros s m Hx; [done|]. cbn [index_nodes].
  rewrite not_elem_of_cons in Hx. destruct Hx as [Hne Hx]. rewrite IH by done. by rewrite lookup_insert_ne.
Qed.

Lemma index_nodes_lookup s ids m p x :
  NoDup ids -> ids !! p = Some x -> index_nodes s ids m !! x = Some (s + p)%nat.
Proof.
  revert s m p. induction ids as [|y ids IH]; intros s m p Hnd Hp; [done|]. cbn [index_nodes].
  apply NoDup_cons in Hnd as [Hy Hnd]. destruct p as [|p].
  - injection Hp as ->. rewrite index_nodes_absent by done. rewrite lookup_insert_eq. f_equal. lia.
  - cbn in Hp. rewrite (IH _ _ p) by done. f_equal. lia.
Qed.

Section Topology.
Context (ids : list Z) (edges : list Edge) (Hvt : valid_topology ids edges).
#[local] Abbreviation n := (length ids).

Definition weight (i j : nat) : option Z :=
  if (i <? n)%nat && (j <? n)%nat then edge_weight edges (ids !!! i) (ids !!! j) else None.

Lemma weight_range i j c : weight i j = Some c -> 0 <= c <= 32768.
Proof.
  unfold weight, edge_weight. destruct (_ && _); [|done].
  destruct (edge_at edges _ _) as [e|] eqn:E; [|done]. cbn. intros [= <-].
  apply edge_at_elem in E as [Hin _]. apply (vt_cost _ _ Hvt) in Hin. unfold in_s in Hin.
  change (16 - 1) with 15 in Hin. lia.
Qed.

Lemma ids_lookup x : x ∈ ids -> exists p, (p < n)%nat /\ ids !! p = Some x /\ ids !!! p = x.
Proof.
  intros [p Hp]%list_elem_of_lookup. exists p. split; [by eapply lookup_lt_Some|]. split; [done|].
  by apply list_lookup_total_correct.
Qed.

Lemma ids_inj p q : (p < n)%nat -> (q < n)%nat -> ids !!! p = ids !!! q -> p = q.
Proof.
  intros Hp Hq H. destruct (lookup_lt_is_Some_2 ids p Hp) as [x Hx], (lookup_lt_is_Some_2 ids q Hq) as [y Hy].
  rewrite (list_lookup_total_correct _ _ _ Hx), (list_lookup_total_correct _ _ _ Hy) in H. subst y.
  by eapply NoDup_lookup; [apply (vt_ids _ _ Hvt)| |].
Qed.

Definition fresh_rr : Routing_Regime := mk_regime n ids (index_nodes 0 ids ∅) (init_routes n) ∅.

Lemma fresh_index p x : ids !! p = Some x -> RR_Get_Node_Index fresh_rr x = Some p.
Proof. intros Hp. unfold RR_Get_Node_Index. simpl. by rewrite (index_nodes_lookup 0 ids ∅ p) by (apply Hvt || done). Qed.

Definition edge_route (This : Z) (e : Edge) : Route :=
  mk_route 1 (Z.abs (cost e)) (if source_addr e =? This then Some (dest_addr e) else None) (source_addr e).

Lemma fill_edges This l rts :
  NoDup (edge_key <$> l) -> (forall e, e ∈ l -> source_addr e ∈ ids /\ dest_addr e ∈ ids) ->
  length rts = (n * n)%nat ->
  exists rts', foldM (fill_edge This fresh_rr) rts l = Ret rts' /\ length rts' = (n * n)%nat /\
    forall i j, (i < n)%nat -> (j < n)%nat ->
      rt n rts' i j = match edge_at l (ids !!! i) (ids !!! j) with
                      | Some e => edge_route This e | None => rt n rts i j end.
Proof.
  revert rts. induction l as [|e l IH]; intros rts Hnd Hends Hlen; [by exists rts|].
  rewrite fmap_cons, NoDup_cons in Hnd. destruct Hnd as [He Hnd]. cbn [foldM].
  assert (Hends' : forall e, e ∈ l -> source_addr e ∈ ids /\ dest_addr e ∈ ids)
    by (intros x Hx; apply Hends; by right).
  destruct (Z.eqb_spec (cost e) (-1)) as [Hc|Hc].
  { replace (fill_edge This fresh_rr rts e) with (@Ret (list Route) rts) by (unfold fill_edge; by rewrite Hc).
    destruct (IH rts Hnd Hends' Hlen) as (rts' & Hf & Hl & Hrt). exists rts'. split; [exact Hf|]. split; [done|].
    intros i j Hi Hj. rewrite (Hrt i j Hi Hj). cbn [edge_at]. rewrite Hc. simpl. by rewrite andb_false_r. }
  destruct (Hends e (list_elem_of_here _ _)) as [Hs Hd].
  destruct (ids_lookup _ Hs) as (s & Hsn & Hs1 & Hs2), (ids_lookup _ Hd) as (d & Hdn & Hd1 & Hd2).
  replace (fill_edge This fresh_rr rts e) with (Ret (<[(s * n + d)%nat := edge_route This e]> rts)).
  2:{ unfold fill_edge, RR_Get_Node_Index_exit. rewrite (proj2 (Z.eqb_neq _ _)) by done.
      by rewrite (fresh_index s _ Hs1), (fresh_index d _ Hd1). }
  destruct (IH (<[(s * n + d)%nat := edge_route This e]> rts) Hnd Hends' ltac:(by rewrite length_insert))
    as (rts' & Hf & Hl & Hrt).
  exists rts'. split_and!; [exact Hf|done|]. intros i j Hi Hj. rewrite (Hrt i j Hi Hj).
  rewrite rt_insert by done. cbn [edge_at]. rewrite (proj2 (Z.eqb_neq (cost e) (-1))), andb_true_r by done.
  destruct (decide (i = s /\ j = d)) as [[-> ->]|Hne].
  - rewrite Hs2, Hd2, !Z.eqb_refl. cbn [andb]. destruct (edge_at l _ _) as [x|] eqn:E; [|done].
    exfalso. apply He. apply edge_at_elem in E as (Hin & Hx1 & Hx2 & _). apply list_elem_of_fmap.
    exists x. unfold edge_key. by rewrite Hx1, Hx2.
  - destruct (Z.eqb_spec (source_addr e) (ids !!! i)) as [H1|]; [|done].
    destruct (Z.eqb_spec (dest_addr e) (ids !!! j)) as [H2|]; [|done].
    exfalso. apply Hne. split; apply ids_inj; congruence.
Qed.

Lemma init_rt i j :
  (i < n)%nat -> (j < n)%nat ->
  rt n (init_routes n) i j = if (i =? j)%nat then mk_route 0 0 None 0 else mk_route (-1) (-1) None 0.
Proof.
  intros Hi Hj. unfold rt, init_routes.
  rewrite (list_lookup_total_correct _ _ (init_route n (i * n + j))).
  2:{ rewrite list_lookup_fmap, lookup_seq_lt by (by apply cell_lt). done. }
  unfold init_route.
  rewrite Nat.div_add_l, Nat.div_small, Nat.add_0_r by lia.
  replace ((i * n + j) mod n)%nat with j; [done|]. rewrite Nat.add_comm, Nat.Div0.mod_add, Nat.mod_small; lia.
Qed.

(** The regime the local node number [t] computes, whatever the order in
    which its hash tables list the edges. *)
Lemma RR_Init_matrix This t edges' :
  edges' ≡ₚ edges -> ids !! t = Some This ->
  exists rr, RR_Init This ids edges' = Ret rr /\
    (forall p x, ids !! p = Some x -> RR_Get_Node_Index rr x = Some p) /\ Num_Nodes rr = n /\
    matrix_ok weight n ids t (paths weight n) (Routes rr).
Proof.
  intros Hp Ht.
  destruct (fill_edges This edges' (init_routes n)) as (rts & Hf & Hl & Hrt).
  { rewrite Hp. apply Hvt. }
  { intros e He. rewrite Hp in He. by apply (vt_ends _ _ Hvt). }
  { unfold init_routes. by rewrite length_fmap, length_seq. }
  unfold RR_Init. fold fresh_rr. cbn [Routes fresh_rr]. rewrite Hf. cbn [mbind outcome_bind].
  eexists. split; [done|]. split; [by apply fresh_index|]. split; [done|]. cbn [Routes].
  apply (floyd_warshall_ok weight n ids t weight_range (vt_size _ _ Hvt)). split; [done|].
  intros i j Hi Hj Hij. rewrite (Hrt i j Hi Hj).
  assert (Hw : weight i j = (fun e => Z.abs (cost e)) <$> edge_at edges (ids !!! i) (ids !!! j)).
  { unfold weight. by rewrite !(proj2 (Nat.ltb_lt _ _)) by done. }
  unfold edge_table. rewrite Hw.
  rewrite !(proj2 (Nat.ltb_lt _ _)) by done. rewrite (proj2 (Nat.eqb_neq i j)) by done. cbn [andb negb].
  rewrite (edge_at_perm edges edges') by (apply Hvt || done).
  destruct (edge_at edges (ids !!! i) (ids !!! j)) as [e|] eqn:E; cbn [fmap option_fmap option_map cell_ok].
  - pose proof E as (Hin & Hsrc & Hdst & Hc)%edge_at_elem. split_and!; cbn [rcost distance forwarder predecessor edge_route].
    + cbn [wcost]. rewrite Hw. cbn. f_equal. lia.
    + done.
    + cbn [next_hop]. rewrite Hsrc, Hdst. destruct (Nat.eqb_spec i t) as [->|Hne].
      * rewrite (list_lookup_total_correct _ _ _ Ht), Z.eqb_refl. done.
      * destruct (Z.eqb_spec (ids !!! i) This) as [HT|]; [|done]. exfalso. apply Hne.
        apply ids_inj; [done|by eapply lookup_lt_Some|]. by rewrite (list_lookup_total_correct _ _ _ Ht).
    + exists i. split; [left|]. split; [done|]. done.
  - rewrite init_rt by done. by rewrite (proj2 (Nat.eqb_neq i j)).
Qed.

(** Paths over identifiers and over indexes. *)
Lemma path_cost_index i l :
  (i < n)%nat -> Forall (fun x => (x < n)%nat) l ->
  path_cost edges (ids !!! i) ((fun x => ids !!! x) <$> l) = wcost weight i l.
Proof.
  intros Hi Hl. revert i Hi. induction Hl as [|x l Hx Hl IH]; intros i Hi; [done|].
  rewrite fmap_cons. cbn [path_cost wcost]. rewrite IH by done.
  replace (weight i x) with (edge_weight edges (ids !!! i) (ids !!! x)); [done|].
  unfold weight. by rewrite !(proj2 (Nat.ltb_lt _ _)) by done.
Qed.

Lemma path_index src l c :
  path_cost edges src l = Some c -> Forall (fun x => x ∈ ids) l.
Proof.
  revert src c. induction l as [|x l IH]; intros src c; [constructor|]. cbn [path_cost].
  unfold edge_weight. destruct (edge_at edges src x) as [e|] eqn:E; [|done]. cbn.
  destruct (path_cost edges x l) as [b|] eqn:E2; [|done]. intros _. constructor; [|by eapply IH].
  apply edge_at_elem in E as (Hin & _ & <- & _). by apply (vt_ends _ _ Hvt).
Qed.

Lemma ids_list l : Forall (fun x => x ∈ ids) l ->
  exists il, Forall (fun x => (x < n)%nat) il /\ l = (fun x => ids !!! x) <$> il.
Proof.
  induction 1 as [|x l Hx _ (il & Hil & ->)]; [by exists []|].
  destruct (ids_lookup x Hx) as (p & Hp & _ & <-). exists (p :: il). split; [by constructor|done].
Qed.

Definition route_end (src : Z) (l : list Z) : Z := default src (last l).

(** The node after [This] on the route that visits [l] after [src]. *)
Fixpoint next_after (This src : Z) (l : list Z) : option Z :=
  match l with
  | [] => None
  | x :: l' => if src =? This then Some x else next_after This x l'
  end.

Lemma next_after_index t i l :
  (t < n)%nat -> (i < n)%nat -> Forall (fun x => (x < n)%nat) l ->
  next_after (ids !!! t) (ids !!! i) ((fun x => ids !!! x) <$> l) = (fun x => ids !!! x) <$> next_hop t i l.
Proof.
  intros Ht Hi Hl. revert i Hi. induction Hl as [|x l Hx Hl IH]; intros i Hi; [done|].
  rewrite fmap_cons. cbn [next_after next_hop]. destruct (Nat.eqb_spec i t) as [->|Hne].
  - by rewrite Z.eqb_refl.
  - rewrite (proj2 (Z.eqb_neq _ _)); [by apply IH|]. intros H. apply Hne. by apply ids_inj.
Qed.

Lemma route_end_index i l : route_end (ids !!! i) ((fun x => ids !!! x) <$> l) = ids !!! (endp i l).
Proof. unfold route_end, endp. rewrite fmap_last. by destruct (last l). Qed.

Lemma find_route_cell rr i j src dst r :
  (forall p x, ids !! p = Some x -> RR_Get_Node_Index rr x = Some p) -> Num_Nodes rr = n ->
  length (Routes rr) = (n * n)%nat -> ids !! i = Some src -> ids !! j = Some dst ->
  rt n (Routes rr) i j = r -> RR_Find_Route rr src dst = Some r.
Proof.
  intros Hidx Hnn Hl Hi Hj <-. unfold RR_Find_Route. rewrite (Hidx _ _ Hi), (Hidx _ _ Hj), Hnn.
  cbn [mbind option_bind]. unfold rt. apply list_lookup_lookup_total_lt. rewrite Hl.
  apply cell_lt; by eapply lookup_lt_Some.
Qed.

(** What every router records about the pair [src], [dst]. *)
Definition recorded (src dst : Z) (Q : Z -> Route -> Prop) : Prop :=
  forall This edges', This ∈ ids -> edges' ≡ₚ edges ->
    exists rr r, RR_Init This ids edges' = Ret rr /\ RR_Find_Route rr src dst = Some r /\ Q This r.

Lemma recorded_cell src dst i j (Q : Z -> Route -> Prop) :
  ids !! i = Some src -> ids !! j = Some dst -> i <> j ->
  (forall t r, (t < n)%nat -> cell_ok weight ids t i j (paths weight n i j) r -> Q (ids !!! t) r) ->
  recorded src dst Q.
Proof.
  intros Hi Hj Hij HQ This edges' HT Hp. destruct (ids_lookup This HT) as (t & Ht & Ht1 & Ht2).
  destruct (RR_Init_matrix This t edges' Hp Ht1) as (rr & Hrr & Hidx & Hnn & Hl & Hcell).
  exists rr, (rt n (Routes rr) i j). split; [done|].
  split; [by eapply find_route_cell|]. rewrite <- Ht2. apply HQ; [done|].
  apply Hcell; [by eapply lookup_lt_Some|by eapply lookup_lt_Some|done].
Qed.

Lemma walk_recorded src l c i :
  path_cost edges src l = Some c -> ids !! i = Some src -> route_end src l ∈ ids ->
  exists j, ids !! j = Some (route_end src l) /\ dle (dist weight (paths weight n) i j) c.
Proof.
  intros Hc Hi He. destruct (ids_list l (path_index src l c Hc)) as (il & Hil & ->).
  pose proof (lookup_lt_Some _ _ _ Hi) as Hin.
  rewrite <- (list_lookup_total_correct _ _ _ Hi) in *. rewrite route_end_index in *.
  rewrite path_cost_index in Hc by done.
  assert (Hen : (endp i il < n)%nat).
  { pose proof (endp_elem i il) as H. apply elem_of_cons in H as [->|H]; [done|].
    rewrite Forall_forall in Hil. by apply Hil. }
  exists (endp i il). split; [by apply list_lookup_lookup_total_lt|].
  apply (walk_bound weight (fun i j c H => proj1 (weight_range i j c H)) (paths_ok weight
    (fun i j c H => proj1 (weight_range i j c H)) n)); try done.
  intros x Hx. right. rewrite Forall_forall in Hil. by apply Hil.
Qed.

(** A pair of nodes is connected by a shortest simple route that every router
    records, or it is not connected and every router records that. *)
Lemma route_dichotomy src dst :
  src ∈ ids -> dst ∈ ids -> src <> dst ->
  (exists l c, route_end src l = dst /\ path_cost edges src l = Some c /\ NoDup (src :: l) /\
     (forall l' c', route_end src l' = dst -> path_cost edges src l' = Some c' -> c <= c') /\
     recorded src dst (fun This r => rcost r = c /\ distance r = Z.of_nat (length l) /\
        forwarder r = next_after This src l /\ predecessor r ∈ src :: l /\ predecessor r <> dst)) \/
  ((forall l, route_end src l = dst -> path_cost edges src l = None) /\
     recorded src dst (fun This r => rcost r = -1 /\ distance r = -1 /\ forwarder r = None /\ predecessor r = 0)).
Proof.
  intros Hsrc Hdst Hne. destruct (ids_lookup src Hsrc) as (i & Hi & Hi1 & Hi2).
  destruct (ids_lookup dst Hdst) as (j & Hj & Hj1 & Hj2).
  assert (Hij : i <> j) by (intros ->; congruence).
  assert (Hbound : forall l' c', route_end src l' = dst -> path_cost edges src l' = Some c' ->
            dle (dist weight (paths weight n) i j) c').
  { intros l' c' He Hc. destruct (walk_recorded src l' c' i Hc Hi1) as (j' & Hj' & Hd); [by rewrite He|].
    rewrite He in Hj'. assert (j' = j) as ->; [|done].
    apply ids_inj; [by eapply lookup_lt_Some|done|]. by rewrite (list_lookup_total_correct _ _ _ Hj'). }
  rewrite dist_ne in Hbound by done.
  pose proof (paths_ok weight (fun i j c H => proj1 (weight_range i j c H)) n) as Hok.
  destruct (paths weight n i j) as [l|] eqn:EP.
  - left. destruct (tab_path _ _ _ _ Hok i j l Hij EP) as (He & [c Hc] & Hnd & Hin).
    assert (Hl : Forall (fun x => (x < n)%nat) l).
    { apply Forall_forall. intros x Hx. destruct (decide (x = j)) as [->|Hxj]; [done|by apply Hin]. }
    exists ((fun x => ids !!! x) <$> l), c. rewrite <- Hi2, path_cost_index, route_end_index, He by done.
    split_and!; [done|done| | |].
    + rewrite <- (fmap_cons (fun x => ids !!! x) i l). apply NoDup_fmap_2_strong; [|done].
      intros x y Hx Hy. rewrite Forall_forall in Hl.
      assert (Hb : forall z, z ∈ i :: l -> (z < n)%nat) by (intros z [->|Hz]%elem_of_cons; [done|by apply Hl]).
      apply ids_inj; by apply Hb.
    + intros l' c' He' Hc'. rewrite Hi2 in *. destruct (Hbound l' c') as (c0 & Hc0 & Hle); [congruence|done|].
      cbn [mbind option_bind] in Hc0. rewrite Hc in Hc0. injection Hc0 as <-. done.
    + rewrite Hi2. eapply recorded_cell; [done|done|done|]. intros t r Ht. rewrite EP.
      intros (Hrc & Hrd & Hrf & x & Hx & Hxj & Hrp). split_and!.
      * rewrite Hc in Hrc. by injection Hrc.
      * by rewrite length_fmap.
      * rewrite Hrf, <- Hi2. by rewrite next_after_index.
      * rewrite Hrp, <- Hi2, <- (fmap_cons (fun x => ids !!! x) i l). apply list_elem_of_fmap. by exists x.
      * rewrite Hrp, <- Hj2. intros H. apply Hxj. apply ids_inj; [|done|done].
        rewrite Forall_forall in Hl. apply elem_of_cons in Hx as [->|Hx]; [done|by apply Hl].
  - right. split.
    + intros l He. destruct (path_cost edges src l) as [c'|] eqn:E; [|done].
      destruct (Hbound l c' He E) as (c0 & Hc0 & _). done.
    + eapply recorded_cell; [done|done|done|]. intros t r Ht. rewrite EP. done.
Qed.
End Topology.

(** ** Forwarding hop by hop *)

(** The nodes a packet visits from [cur] on, when node [t] hands it to
    [hop t]. *)
Fixpoint follow (hop : Z -> option Z) (fuel : nat) (cur dst : Z) : option (list Z) :=
  if cur =? dst then Some []
  else match fuel with
       | O => None
       | S fuel' => x ← hop cur; l ← follow hop fuel' x dst; Some (x :: l)
       end.

Lemma next_after_mid src l1 x l2 :
  NoDup (src :: l1 ++ x :: l2) -> next_after (route_end src l1) src (l1 ++ x :: l2) = Some x.
Proof.
  revert src. induction l1 as [|y l1 IH]; intros src Hnd; cbn [app next_after].
  - change (route_end src []) with src. by rewrite Z.eqb_refl.
  - assert (He : route_end src (y :: l1) = route_end y l1).
    { unfold route_end. rewrite last_cons. by destruct (last l1). }
    rewrite He. cbn [app] in Hnd. apply NoDup_cons in Hnd as [Hs Hnd].
    rewrite (proj2 (Z.eqb_neq _ _)); [by apply IH|]. intros ->. apply Hs.
    rewrite app_comm_cons. apply elem_of_app. left. unfold route_end.
    destruct (last l1) as [z|] eqn:E; [|left]. right. by apply last_Some_elem_of.
Qed.

Lemma follow_route hop src l fuel :
  NoDup (src :: l) -> (forall t, t ∈ src :: l -> hop t = next_after t src l) ->
  (length l <= fuel)%nat -> follow hop fuel src (route_end src l) = Some l.
Proof.
  intros Hnd Hhop. enough (H : forall l2 l1 fuel, l = l1 ++ l2 -> (length l2 <= fuel)%nat ->
    follow hop fuel (route_end src l1) (route_end src l) = Some l2) by (intros; by apply (H l [])).
  clear fuel. induction l2 as [|x l2 IH]; intros l1 fuel Hl Hf.
  - rewrite app_nil_r in Hl. subst l1. destruct fuel; cbn [follow]; by rewrite Z.eqb_refl.
  - destruct fuel as [|fuel]; [simpl in Hf; lia|]. cbn [follow].
    assert (Hx : route_end src (l1 ++ [x]) = x) by (unfold route_end; by rewrite last_snoc).
    rewrite (proj2 (Z.eqb_neq _ _)).
    2:{ intros H. rewrite Hl in H, Hnd. rewrite app_comm_cons in Hnd. apply NoDup_app in Hnd as (_ & Hd & _).
        apply (Hd (route_end src l1)).
        - unfold route_end. destruct (last l1) as [z|] eqn:E; [|left]. right. by apply last_Some_elem_of.
        - rewrite H. unfold route_end. rewrite last_app_cons. apply last_Some_elem_of.
          destruct (last (x :: l2)) eqn:E; [done|]. by apply last_None in E. }
    rewrite Hhop.
    2:{ unfold route_end. destruct (last l1) as [z|] eqn:E; [|left]. right. rewrite Hl. apply elem_of_app. left.
        by apply last_Some_elem_of. }
    rewrite Hl, next_after_mid by (by rewrite <- Hl). cbn [mbind option_bind].
    specialize (IH (l1 ++ [x]) fuel). rewrite Hx, <- Hl in *. rewrite IH; [done| |simpl in Hf; lia].
    by rewrite <- app_assoc.
Qed.

(** ** Multicast and anycast neighbours *)
Section Mcast.
Context (rr : Routing_Regime) (My_Address sender group : Z) (node_cost : Z -> Z).

(** The next hops towards the active members. *)
Definition member_hops (states : list Group_State) : list Z :=
  omap (fun g => if group_active g then RR_Get_Next_Hop rr sender (source_addr g) else None) states.

Definition local_member (states : list Group_State) : bool :=
  existsb (fun g => group_active g && (source_addr g =? My_Address)) states.

Lemma mcast_not_acast : Is_mcast_addr group = true -> Is_acast_addr group = false.
Proof.
  unfold Is_mcast_addr, Is_acast_addr. rewrite orb_true_iff, !Z.eqb_eq.
  intros [-> | ->]; [done|]. by rewrite Z.eqb_refl, andb_false_r.
Qed.

Lemma mcast_fold states best acc :
  Is_mcast_addr group = true ->
  foldl (mcast_step rr My_Address sender group node_cost) (false, best, acc) states =
  (false, best, list_to_set (member_hops states) ∪ acc).
Proof.
  intros Hm. pose proof (mcast_not_acast Hm) as Ha. revert acc.
  induction states as [|g states IH]; intros acc; [cbn; by rewrite union_empty_l_L|].
  unfold member_hops. cbn [foldl omap list_omap]. fold (member_hops states). unfold mcast_step at 2.
  destruct (group_active g); cbn [negb]; [|apply IH]. rewrite Ha. cbn [andb].
  destruct (RR_Get_Next_Hop rr sender (source_addr g)) as [h|]; [|apply IH]. rewrite Hm, IH.
  cbn [list_to_set]. by rewrite (assoc_L (∪)), (comm_L (∪) (list_to_set _) {[h]}).
Qed.

Lemma mcast_fold_stop states best acc :
  foldl (mcast_step rr My_Address sender group node_cost) (true, best, acc) states = (true, best, acc).
Proof. induction states as [|g states IH]; [done|]. cbn [foldl]. exact IH. Qed.

(** The best next hop so far is a cheapest one. *)
Definition best_of (hops : list Z) (best : option Z) : Prop :=
  match best with
  | Some b => b ∈ hops /\ forall h, h ∈ hops -> node_cost b <= node_cost h
  | None => hops = []
  end.

Lemma best_of_step hops best h :
  best_of hops best ->
  best_of (hops ++ [h])
    (match best with Some b => if node_cost h <? node_cost b then Some h else Some b | None => Some h end).
Proof.
  destruct best as [b|]; simpl.
  - intros [Hb Hmin]. destruct (Z.ltb_spec (node_cost h) (node_cost b)); simpl.
    + split; [set_solver|]. intros x [Hx| ->%list_elem_of_singleton]%elem_of_app; [|lia]. specialize (Hmin x Hx). lia.
    + split; [set_solver|]. intros x [Hx| ->%list_elem_of_singleton]%elem_of_app; [by apply Hmin|lia].
  - intros ->. split; [set_solver|]. intros x ->%list_elem_of_singleton. lia.
Qed.

Lemma acast_fold states hops best :
  Is_acast_addr group = true -> best_of hops best ->
  exists stop best', foldl (mcast_step rr My_Address sender group node_cost) (false, best, ∅) states = (stop, best', ∅) /\
    (if local_member states then best' = None else best_of (hops ++ member_hops states) best').
Proof.
  intros Ha. assert (Hm : Is_mcast_addr group = false).
  { destruct (Is_mcast_addr group) eqn:E; [|done]. apply mcast_not_acast in E. congruence. }
  revert hops best. induction states as [|g states IH]; intros hops best Hb.
  { exists false, best. split; [done|]. simpl. by rewrite app_nil_r. }
  cbn [foldl local_member existsb]. fold (local_member states).
  unfold member_hops. cbn [omap list_omap]. fold (member_hops states). unfold mcast_step at 2.
  destruct (group_active g); cbn [negb andb orb]; [|by apply IH].
  rewrite Ha. cbn [andb]. destruct (source_addr g =? My_Address); cbn [orb].
  { rewrite mcast_fold_stop. by exists true, None. }
  destruct (RR_Get_Next_Hop rr sender (source_addr g)) as [h|]; [|by apply IH]. rewrite Hm.
  destruct (IH (hops ++ [h]) _ (best_of_step hops best h Hb)) as (stop & best' & Hf & Hcase).
  exists stop, best'. rewrite <- app_assoc in Hcase. split; [|exact Hcase]. rewrite <- Hf. f_equal.
  destruct best as [b|]; [|done]. by destruct (_ <? _).
Qed.

(** The value [RR_Get_Mcast_Neighbors] computes and caches. *)
Definition computed (states : list Group_State) (nb : gset Z) : Prop :=
  (Is_mcast_addr group = true -> nb = list_to_set (member_hops states)) /\
  (Is_acast_addr group = true ->
     if local_member states then nb = ∅
     else exists best, best_of (member_hops states) best /\ nb = list_to_set (option_list best)).

Lemma mcast_computed states :
  let '(_, best, nb) := foldl (mcast_step rr My_Address sender group node_cost) (false, None, ∅) states in
  computed states (match best with
                   | Some b => if Is_acast_addr group then {[b]} ∪ nb else nb
                   | None => nb end).
Proof.
  destruct (foldl _ _ states) as [[stop best] nb] eqn:E. split.
  - intros Hm. rewrite mcast_fold in E by done. injection E as <- <- <-. set_solver.
  - intros Ha. destruct (acast_fold states [] None Ha eq_refl) as (stop' & best' & Hf & Hcase).
    rewrite E in Hf. injection Hf as -> -> ->. rewrite Ha. simpl in Hcase.
    destruct (local_member states); [by subst|]. exists best'. split; [done|].
    destruct best'; simpl; set_solver.
Qed.
End Mcast.
