(* ===== verification/RouteProps.v ===== *)
(** * RouteProps: properties of the routing component

    Shortest routes, hop-by-hop forwarding over routers that computed their
    tables independently, and what a traceroute answers. *)
From stdpp Require Import base list gmap numbers option sets.
From Stdlib Require Import ZArith Lia.
From S2P Require Import Prelude HashMap NetTypes Route RouteProof.
#[local] Open Scope Z_scope.

(** A square 1, 2, 3, 4 with a problematic (negative cost) edge 1 -> 2, a dead
    edge 1 -> 4 and an isolated node 9. *)
Module Ex.
Definition edge (a b c : Z) : Edge := mk_state a b 0 0 0 0 c 0 (mk_edge_extra c 0 0 None).
Definition ids : list Z := [1; 2; 3; 4; 9].
Definition edges : list Edge :=
  [edge 1 2 (-5); edge 2 1 5; edge 2 3 4; edge 3 2 4; edge 1 3 20; edge 3 4 1; edge 4 3 1; edge 1 4 (-1)].

Lemma topology_ok : valid_topology ids edges.
Proof.
  split.
  - apply (bool_decide_unpack _). vm_compute. exact I.
  - apply (bool_decide_unpack _). vm_compute. exact I.
  - apply Forall_forall. apply (bool_decide_unpack _). vm_compute. exact I.
  - unfold in_s. apply Forall_forall. unfold edges, edge, cost. repeat constructor; simpl; lia.
  - simpl. lia.
Qed.
End Ex.

(** C27: for two nodes of a topology of at most 32768 nodes, every router's
    table has a route entry whose cost is the least cost of all routes over
    the usable edges (the absolute values of the announced costs), reached by
    a route that visits no node twice and whose number of hops is the recorded
    distance, or it records -1 exactly when no route exists; the additions at
    32 and 16 bits never overflow. *)
Theorem route_shortest_path (ids : list Z) (edges : list Edge) (This src dst : Z) :
  valid_topology ids edges -> This ∈ ids -> src ∈ ids -> dst ∈ ids -> src <> dst ->
  exists rr r, RR_Init This ids edges = Ret rr /\ RR_Find_Route rr src dst = Some r /\
    ((exists l, route_end src l = dst /\ path_cost edges src l = Some (rcost r) /\ NoDup (src :: l) /\
        distance r = Z.of_nat (length l) /\
        forall l' c', route_end src l' = dst -> path_cost edges src l' = Some c' -> rcost r <= c') \/
     (rcost r = -1 /\ forwarder r = None /\ forall l, route_end src l = dst -> path_cost edges src l = None)).
Proof.
  intros Hvt HT Hs Hd Hne.
  destruct (route_dichotomy ids edges Hvt src dst Hs Hd Hne) as [(l & c & He & Hc & Hnd & Hmin & Hrec)|[Hno Hrec]].
  - destruct (Hrec This edges HT ltac:(done)) as (rr & r & Hrr & Hr & Hrc & Hrd & _).
    exists rr, r. split; [done|]. split; [done|]. left. exists l. rewrite Hrc. by split_and!.
  - destruct (Hrec This edges HT ltac:(done)) as (rr & r & Hrr & Hr & Hrc & _ & Hf & _).
    exists rr, r. split; [done|]. split; [done|]. right. done.
Qed.

Lemma route_shortest_path_witness :
  valid_topology Ex.ids Ex.edges /\
  exists rr r, RR_Init 1 Ex.ids Ex.edges = Ret rr /\ RR_Find_Route rr 1 4 = Some r /\ rcost r = 10 /\
    forall l' c', route_end 1 l' = 4 -> path_cost Ex.edges 1 l' = Some c' -> rcost r <= c'.
Proof.
  split; [apply Ex.topology_ok|].
  destruct (route_shortest_path Ex.ids Ex.edges 1 1 4 Ex.topology_ok) as (rr & r & Hrr & Hr & Hcase).
  - apply (bool_decide_unpack _). vm_compute. exact I.
  - apply (bool_decide_unpack _). vm_compute. exact I.
  - apply (bool_decide_unpack _). vm_compute. exact I.
  - discriminate.
  - exists rr, r. split; [exact Hrr|]. split; [exact Hr|].
    vm_compute in Hrr. injection Hrr as <-. vm_compute in Hr. injection Hr as <-.
    split; [reflexivity|]. destruct Hcase as [(l & _ & _ & _ & _ & Hmin)|[H _]]; [exact Hmin|discriminate H].
Defined.

(** C1: when every router computes its own table, from hash tables that may
    list the same edges in different orders, and hands a packet for [dst] from
    [src] to the neighbour its own table names, the packet reaches [dst]
    whenever a route exists: it visits no router twice, and the route it takes
    is the shortest one every router records for the pair. *)
Theorem hop_by_hop_delivery (ids : list Z) (edges : list Edge) (local_edges : Z -> list Edge) (src dst : Z) :
  valid_topology ids edges -> (forall t, t ∈ ids -> local_edges t ≡ₚ edges) ->
  src ∈ ids -> dst ∈ ids -> src <> dst ->
  let hop t := match RR_Init t ids (local_edges t) with Ret rr => RR_Get_Next_Hop rr src dst | _ => None end in
  (exists l, route_end src l = dst /\ is_Some (path_cost edges src l)) ->
  exists l c, follow hop (length ids) src dst = Some l /\ NoDup (src :: l) /\
    path_cost edges src l = Some c /\
    forall l' c', route_end src l' = dst -> path_cost edges src l' = Some c' -> c <= c'.
Proof.
  intros Hvt Hloc Hs Hd Hne hop [l0 [Hl0 [c0 Hc0]]].
  destruct (route_dichotomy ids edges Hvt src dst Hs Hd Hne) as [(l & c & He & Hc & Hnd & Hmin & Hrec)|[Hno _]].
  2:{ rewrite (Hno l0 Hl0) in Hc0. done. }
  exists l, c. split_and!; try done.
  assert (Hin : forall t, t ∈ src :: l -> t ∈ ids).
  { intros t [->|Ht]%elem_of_cons; [done|]. pose proof (path_index ids edges Hvt src l c Hc) as Hf.
    rewrite Forall_forall in Hf. by apply Hf. }
  rewrite <- He. apply follow_route; [done| |].
  - intros t Ht. unfold hop. specialize (Hin t Ht).
    destruct (Hrec t (local_edges t) Hin (Hloc t Hin)) as (rr & r & Hrr & Hr & _ & _ & Hf & _).
    rewrite Hrr. unfold RR_Get_Next_Hop. rewrite Hr. exact Hf.
  - assert (Hsub : src :: l ⊆+ ids) by (apply NoDup_submseteq; [done|exact Hin]).
    apply submseteq_length in Hsub. simpl in Hsub. lia.
Qed.

Lemma hop_by_hop_delivery_witness :
  exists l c, follow (fun t => match RR_Init t Ex.ids (reverse Ex.edges) with
                               | Ret rr => RR_Get_Next_Hop rr 1 4 | _ => None end) 5 1 4 = Some l /\
    path_cost Ex.edges 1 l = Some c /\ l = [2; 3; 4] /\ c = 10.
Proof.
  destruct (hop_by_hop_delivery Ex.ids Ex.edges (fun _ => reverse Ex.edges) 1 4 Ex.topology_ok)
    as (l & c & Hf & _ & Hc & _).
  - intros t _. apply reverse_Permutation.
  - apply (bool_decide_unpack _). vm_compute. exact I.
  - apply (bool_decide_unpack _). vm_compute. exact I.
  - discriminate.
  - exists [2; 3; 4]. split; [reflexivity|]. vm_compute. eexists. reflexivity.
  - exists l, c. split; [exact Hf|]. split; [exact Hc|].
    vm_compute in Hf. injection Hf as <-. split; [reflexivity|]. vm_compute in Hc. injection Hc as <-. reflexivity.
Defined.

Module ExG.
Definition rr : Routing_Regime :=
  match RR_Init 1 Ex.ids Ex.edges with Ret rr => rr | _ => mk_regime 0 [] ∅ [] ∅ end.
End ExG.

(** On a pair joined by an edge, whose recorded predecessor is the source
    itself, the recursion only ends when the arrays are full. *)
Lemma Trace_Route_Rcrsv_edge (rr : Routing_Regime) (src dst : Z) (r : Route) n i tr :
  src <> dst -> src <> 0 -> RR_Find_Route rr src dst = Some r -> predecessor r = src ->
  (i + n)%nat = MAX_COUNT ->
  exists tr', Trace_Route_Rcrsv (S n) rr src dst tr i = Ret (MAX_COUNT, tr') /\
    forall k, tr' !! k = if decide (i <= k < MAX_COUNT)%nat then Some (src, rcost r, distance r) else tr !! k.
Proof.
  intros Hne H0 Hr Hp. revert i tr. induction n as [|n IH]; intros i tr Hn.
  - exists tr. replace i with MAX_COUNT by lia. split.
    + cbn [Trace_Route_Rcrsv]. rewrite Nat.eqb_refl, orb_true_r. done.
    + intros k. rewrite decide_False by lia. done.
  - destruct (IH (S i) (<[i := (src, rcost r, distance r)]> tr) ltac:(lia)) as (tr' & Hrun & Htr).
    exists tr'. split.
    + cbn [Trace_Route_Rcrsv]. rewrite (proj2 (Z.eqb_neq src dst)) by done.
      rewrite (proj2 (Nat.eqb_neq i MAX_COUNT)) by lia. cbn [orb].
      rewrite Hr. cbn [or_else mbind outcome_bind]. rewrite Hp, (proj2 (Z.eqb_neq src 0)) by done.
      replace (src =? src) with true by (symmetry; apply Z.eqb_refl). cbn [orb mbind outcome_bind].
      rewrite (proj2 (Nat.ltb_lt i MAX_COUNT)) by lia. exact Hrun.
    + intros k. rewrite Htr. destruct (decide (i = k)) as [<-|Hk].
      * rewrite decide_False, lookup_insert_eq, decide_True by lia. done.
      * rewrite lookup_insert_ne by done. repeat case_decide; done || lia.
Qed.

(** What a traceroute answers.  [Trace_Route] reports no hop at all for
    every pair that has a route entry, and follows a NULL pointer for the
    others; the recursion it guards would, between two nodes joined by an
    edge, fill all 64 entries with the source instead of recording one hop. *)
Theorem trace_route_behaviour (rr : Routing_Regime) (src dst : Z) :
  (forall fuel, Trace_Route fuel rr src dst =
     match RR_Find_Route rr src dst with Some _ => Ret (0%nat, ∅) | None => Fault end) /\
  (forall r, src <> dst -> src <> 0 -> RR_Find_Route rr src dst = Some r -> predecessor r = src ->
     exists tr, Trace_Route_Rcrsv (S MAX_COUNT) rr src dst ∅ 0 = Ret (MAX_COUNT, tr) /\
       forall k, (k < MAX_COUNT)%nat -> tr !! k = Some (src, rcost r, distance r)).
Proof.
  split.
  - intros fuel. unfold Trace_Route. destruct (RR_Find_Route rr src dst); [done|].
    destruct (negb (src =? dst)); done.
  - intros r Hne H0 Hr Hp.
    destruct (Trace_Route_Rcrsv_edge rr src dst r MAX_COUNT 0 ∅) as (tr & Hrun & Htr); try done.
    exists tr. split; [done|]. intros k Hk. rewrite Htr, decide_True by lia. done.
Qed.

Lemma trace_route_behaviour_witness :
  Trace_Route 5 ExG.rr 2 3 = Ret (0%nat, ∅) /\
  exists tr, Trace_Route_Rcrsv (S MAX_COUNT) ExG.rr 2 3 ∅ 0 = Ret (64%nat, tr) /\ tr !! 63%nat = Some (2, 4, 1).
Proof.
  destruct (trace_route_behaviour ExG.rr 2 3) as [H1 H2]. split.
  - rewrite H1. vm_compute. reflexivity.
  - destruct (H2 (mk_route 1 4 None 2)) as (tr & Hrun & Htr); [discriminate|discriminate|vm_compute; reflexivity|reflexivity|].
    exists tr. split; [exact Hrun|]. apply Htr. unfold MAX_COUNT. lia.
Defined.
