(* ===== verification/Daemon.v ===== *)
(** * Daemon: nodes, edges, groups and changed states of one daemon

    The global tables of the daemon as one record, and the operations of
    node.c, link_state.c, multicast.c and state_flood.c that look up, create
    and mark states.  A pointer to a node is its identifier, a pointer to a
    state its pair of keys.  Calls into parts that are not modelled here
    (dissemination graphs, multipath caches) are recorded in [calls].  Kernel
    routing is off ([KR_Flags] = 0), allocation succeeds, and the clock is read
    once per handler ([now]). *)
From stdpp Require Import base list gmap numbers option sets.
From Stdlib Require Import ZArith Lia.
From S2P Require Import Prelude HashMap Events NetTypes Route.
#[local] Open Scope Z_scope.

(** The two flooded protocols, and the handlers the daemon queues. *)
Inductive prot := EdgeP | GroupsP.
#[export] Instance prot_eq_dec : EqDecision prot.
Proof. solve_decision. Defined.

Inductive handler :=
| HSend_State_Updates | HResend_States | HState_Garbage_Collect | HSet_Routes.
#[export] Instance handler_eq_dec : EqDecision handler.
Proof. solve_decision. Defined.

(** [n_edge]: the [edge] pointer (the edge from the local node to this one). *)
Record Node := mk_node { nid : Z; n_edge : bool; neighbor_id : Z; n_cost : Z }.

(** [mask]: the array of 32-bit words, one bit per neighbour. *)
Record Changed_State := mk_changed { cg_src : Z; cg_dst : Z; mask : list Z }.
Definition MASK_WORDS : nat := 8.

Inductive call :=
| DG_Process_Edge_Update (src dst old_cost new_cost : Z)
| MultiPath_Clear_Cache.

(** A message handed to the reliable link layer: link, type, body length and
    contents. *)
Record State_Cell := mk_cell
  { c_dest : Z; c_sec : Z; c_usec : Z; c_value : Z; c_age : Z; c_lts : Z }.
Record State_Packet := mk_packet { sp_source : Z; sp_cells : list State_Cell }.
Record message := mk_msg { m_link : Z; m_type : Z; m_len : Z; m_body : list State_Packet }.

Abbreviation chain X := (gmap Z (gmap Z (State_Data X))).

Record daemon := mk_daemon
  { My_Address : Z;
    Wireless : bool;
    All_Nodes : gmap Z Node;
    All_Nodes_by_ID : list Z;
    All_Edges : chain Edge_Extra;
    Changed_Edges : gmap Z (list Changed_State);
    All_Groups_by_Node : chain (gset Z);
    All_Groups_by_Name : gmap Z (gset Z);
    Changed_Group_States : gmap Z (list Changed_State);
    Link_State_Update_LTS : Z;
    Neighbor_Nodes : list (option Z);
    Control_Links : gmap Z Z;
    Current_Routing : Routing_Regime;
    Schedule_Set_Route : bool;
    Time_queue : list (@time_event handler (option prot));
    calls : list call;
    sent : list message }.

(** ** Field updates *)
Definition with_nodes f g d := mk_daemon
    (My_Address d) (Wireless d) f g (All_Edges d) (Changed_Edges d) (All_Groups_by_Node d)
    (All_Groups_by_Name d) (Changed_Group_States d) (Link_State_Update_LTS d) (Neighbor_Nodes d)
    (Control_Links d) (Current_Routing d) (Schedule_Set_Route d) (Time_queue d) (calls d)
    (sent d).
Definition with_edges f d := mk_daemon
    (My_Address d) (Wireless d) (All_Nodes d) (All_Nodes_by_ID d) f (Changed_Edges d)
    (All_Groups_by_Node d) (All_Groups_by_Name d) (Changed_Group_States d)
    (Link_State_Update_LTS d) (Neighbor_Nodes d) (Control_Links d) (Current_Routing d)
    (Schedule_Set_Route d) (Time_queue d) (calls d) (sent d).
Definition with_changed_edges f d := mk_daemon
    (My_Address d) (Wireless d) (All_Nodes d) (All_Nodes_by_ID d) (All_Edges d) f
    (All_Groups_by_Node d) (All_Groups_by_Name d) (Changed_Group_States d)
    (Link_State_Update_LTS d) (Neighbor_Nodes d) (Control_Links d) (Current_Routing d)
    (Schedule_Set_Route d) (Time_queue d) (calls d) (sent d).
Definition with_groups f d := mk_daemon
    (My_Address d) (Wireless d) (All_Nodes d) (All_Nodes_by_ID d) (All_Edges d)
    (Changed_Edges d) f (All_Groups_by_Name d) (Changed_Group_States d)
    (Link_State_Update_LTS d) (Neighbor_Nodes d) (Control_Links d) (Current_Routing d)
    (Schedule_Set_Route d) (Time_queue d) (calls d) (sent d).
Definition with_group_names f d := mk_daemon
    (My_Address d) (Wireless d) (All_Nodes d) (All_Nodes_by_ID d) (All_Edges d)
    (Changed_Edges d) (All_Groups_by_Node d) f (Changed_Group_States d)
    (Link_State_Update_LTS d) (Neighbor_Nodes d) (Control_Links d) (Current_Routing d)
    (Schedule_Set_Route d) (Time_queue d) (calls d) (sent d).
Definition with_changed_groups f d := mk_daemon
    (My_Address d) (Wireless d) (All_Nodes d) (All_Nodes_by_ID d) (All_Edges d)
    (Changed_Edges d) (All_Groups_by_Node d) (All_Groups_by_Name d) f (Link_State_Update_LTS d)
    (Neighbor_Nodes d) (Control_Links d) (Current_Routing d) (Schedule_Set_Route d)
    (Time_queue d) (calls d) (sent d).
Definition with_lts f d := mk_daemon
    (My_Address d) (Wireless d) (All_Nodes d) (All_Nodes_by_ID d) (All_Edges d)
    (Changed_Edges d) (All_Groups_by_Node d) (All_Groups_by_Name d) (Changed_Group_States d) f
    (Neighbor_Nodes d) (Control_Links d) (Current_Routing d) (Schedule_Set_Route d)
    (Time_queue d) (calls d) (sent d).
Definition with_routing f g d := mk_daemon
    (My_Address d) (Wireless d) (All_Nodes d) (All_Nodes_by_ID d) (All_Edges d)
    (Changed_Edges d) (All_Groups_by_Node d) (All_Groups_by_Name d) (Changed_Group_States d)
    (Link_State_Update_LTS d) (Neighbor_Nodes d) (Control_Links d) f g (Time_queue d) (calls d)
    (sent d).
Definition with_queue f d := mk_daemon
    (My_Address d) (Wireless d) (All_Nodes d) (All_Nodes_by_ID d) (All_Edges d)
    (Changed_Edges d) (All_Groups_by_Node d) (All_Groups_by_Name d) (Changed_Group_States d)
    (Link_State_Update_LTS d) (Neighbor_Nodes d) (Control_Links d) (Current_Routing d)
    (Schedule_Set_Route d) f (calls d) (sent d).
Definition with_calls f d := mk_daemon
    (My_Address d) (Wireless d) (All_Nodes d) (All_Nodes_by_ID d) (All_Edges d)
    (Changed_Edges d) (All_Groups_by_Node d) (All_Groups_by_Name d) (Changed_Group_States d)
    (Link_State_Update_LTS d) (Neighbor_Nodes d) (Control_Links d) (Current_Routing d)
    (Schedule_Set_Route d) (Time_queue d) f (sent d).
Definition with_sent f d := mk_daemon
    (My_Address d) (Wireless d) (All_Nodes d) (All_Nodes_by_ID d) (All_Edges d)
    (Changed_Edges d) (All_Groups_by_Node d) (All_Groups_by_Name d) (Changed_Group_States d)
    (Link_State_Update_LTS d) (Neighbor_Nodes d) (Control_Links d) (Current_Routing d)
    (Schedule_Set_Route d) (Time_queue d) (calls d) f.

Definition queue_handler (now : sp_time) (h : handler) (data : option prot) (delta : sp_time) (d : daemon) : daemon :=
  with_queue (E_queue now h 0 data delta (Time_queue d)) d.

(** ** Nodes *)
Definition Get_Node (d : daemon) (id : Z) : option Node := All_Nodes d !! id.

(** Insertion into the skip list ordered by [Node_ID_cmp]. *)
Fixpoint insert_id (x : Z) (l : list Z) : list Z :=
  match l with
  | [] => [x]
  | y :: l' => if y <? x then y :: insert_id x l' else x :: l
  end.

Definition Create_Node (id : Z) (d : daemon) : outcome daemon :=
  match Get_Node d id with
  | Some _ => Exit
  | None => Ret (with_nodes (<[id := mk_node id false (-1) (-1)]> (All_Nodes d))
                            (insert_id id (All_Nodes_by_ID d)) d)
  end.

(** ** States *)
Definition Find_State {X} (h : chain X) (prim scnd : Z) : option (State_Data X) :=
  h !! prim ≫= (.!! scnd).

Definition put_state {X} (h : chain X) (prim scnd : Z) (s : State_Data X) : chain X :=
  <[prim := <[scnd := s]> (default ∅ (h !! prim))]> h.

Definition Get_Edge (d : daemon) (src dst : Z) : option Edge := Find_State (All_Edges d) src dst.

(** [nd->edge != NULL && nd->edge->cost != -1]; the pointer is followed. *)
Definition Is_Connected_Neighbor2 (d : daemon) (nd : Node) : outcome bool :=
  if n_edge nd then
    edge ← or_else (Get_Edge d (My_Address d) (nid nd)) Fault;
    Ret (negb (cost edge =? -1))
  else Ret false.

Definition Is_Connected_Neighbor (d : daemon) (id : Z) : outcome bool :=
  match Get_Node d id with
  | Some nd => Is_Connected_Neighbor2 d nd
  | None => Ret false
  end.

(** 1: removed, 0: kept, -1: no such node.  Whether some chain has [address]
    as a destination does not depend on the order of the table. *)
Definition Try_Remove_Node (address : Z) (d : daemon) : Z * daemon :=
  if address =? My_Address d then (0, d)
  else match All_Edges d !! address with
  | Some _ => (0, d)
  | None =>
      if existsb (fun '(_, states) => bool_decide (is_Some (states !! address))) (map_to_list (All_Edges d))
      then (0, d)
      else match Get_Node d address with
      | None => (-1, d)
      | Some _ => (1, with_nodes (delete address (All_Nodes d))
                                 (filter (fun x => x <> address) (All_Nodes_by_ID d)) d)
      end
  end.

(** The local node's pointer to the edge it owns towards [dst]. *)
Definition set_node_edge (dst : Z) (d : daemon) : daemon :=
  with_nodes (alter (fun nd => mk_node (nid nd) true (neighbor_id nd) (n_cost nd)) dst (All_Nodes d))
             (All_Nodes_by_ID d) d.

Definition Create_Edge (now : sp_time) (src_id dst_id cost base_cost index : Z) (d : daemon) : outcome daemon :=
  match Get_Node d src_id, Get_Node d dst_id, Get_Edge d src_id dst_id with
  | Some src_nd, Some dst_nd, None =>
      let d := if src_id =? My_Address d then set_node_edge dst_id d else d in
      let '(sec, usec, edge_lts, d) :=
        if src_id =? My_Address d then
          let l := Link_State_LTS_inc (Link_State_Update_LTS d) in
          (s32 (SpTime.sec now), s32 (SpTime.usec now), l, with_lts l d)
        else (0, 0, 0, d) in
      let edge := mk_state src_id dst_id sec usec (s32 (SpTime.sec now)) (s32 (SpTime.usec now))
                           cost 0 (mk_edge_extra base_cost index edge_lts None) in
      Ret (with_edges (put_state (All_Edges d) src_id dst_id edge) d)
  | _, _, _ => Exit
  end.

Definition Create_Group (now : sp_time) (id mcast_address : Z) (d : daemon) : outcome daemon :=
  match Find_State (All_Groups_by_Node d) id mcast_address with
  | Some _ => Exit
  | None =>
      let '(sec, usec) := if My_Address d =? id then (s32 (SpTime.sec now), s32 (SpTime.usec now)) else (0, 0) in
      let g_state := mk_state id mcast_address sec usec (s32 (SpTime.sec now)) (s32 (SpTime.usec now)) 0 0 ∅ in
      let d := with_groups (put_state (All_Groups_by_Node d) id mcast_address g_state) d in
      Ret (with_group_names
             (<[mcast_address := {[id]} ∪ default ∅ (All_Groups_by_Name d !! mcast_address)]>
                (All_Groups_by_Name d)) d)
  end.

(** ** The tables of a protocol *)
Definition extra_of (p : prot) : Type := match p with EdgeP => Edge_Extra | GroupsP => gset Z end.

Definition All_States (p : prot) : daemon -> chain (extra_of p) :=
  match p with EdgeP => All_Edges | GroupsP => All_Groups_by_Node end.
Definition with_states (p : prot) : chain (extra_of p) -> daemon -> daemon :=
  match p with EdgeP => with_edges | GroupsP => with_groups end.
Definition Changed_States (p : prot) : daemon -> gmap Z (list Changed_State) :=
  match p with EdgeP => Changed_Edges | GroupsP => Changed_Group_States end.
Definition with_changed (p : prot) : gmap Z (list Changed_State) -> daemon -> daemon :=
  match p with EdgeP => with_changed_edges | GroupsP => with_changed_groups end.

(** ** Changed states *)

(** A neighbour's bit; [None]: an index outside of the array. *)
Definition mask_set (id : Z) (m : list Z) : option (list Z) :=
  if (0 <=? id) && (id <? MAX_NEIGHBORS)
  then Some (alter (fun w => Z.lor w (Z.shiftl 1 (id mod 32))) (Z.to_nat (id / 32)) m)
  else None.
Definition mask_get (id : Z) (m : list Z) : bool :=
  negb (Z.land (m !!! Z.to_nat (id / 32)) (Z.shiftl 1 (id mod 32)) =? 0).

Fixpoint find_changed (dst : Z) (l : list Changed_State) : option Changed_State :=
  match l with
  | [] => None
  | cg :: l' => if cg_dst cg =? dst then Some cg else find_changed dst l'
  end.

Definition Find_Changed_State (h : gmap Z (list Changed_State)) (src_id dst_id : Z) : option Changed_State :=
  h !! src_id ≫= find_changed dst_id.

(** Overwriting the mask of the entry found, or inserting a new entry. *)
Fixpoint update_changed (src dst : Z) (m : list Z) (l : list Changed_State) : list Changed_State :=
  match l with
  | [] => [mk_changed src dst m]
  | cg :: l' => if cg_dst cg =? dst then mk_changed (cg_src cg) dst m :: l'
                else cg :: update_changed src dst m l'
  end.

Definition put_changed (h : gmap Z (list Changed_State)) (src dst : Z) (m : list Z) : gmap Z (list Changed_State) :=
  <[src := update_changed src dst m (default [] (h !! src))]> h.

Definition Empty_Changed_States : gmap Z (list Changed_State) := ∅.

(** ** Setting members of a state *)
Definition set_my_timestamp {X} (now : sp_time) (s : State_Data X) : State_Data X :=
  mk_state (source_addr s) (dest_addr s) (timestamp_sec s) (timestamp_usec s)
           (s32 (SpTime.sec now)) (s32 (SpTime.usec now)) (value s) (age s) (extra s).
Definition set_timestamp {X} (sec usec : Z) (s : State_Data X) : State_Data X :=
  mk_state (source_addr s) (dest_addr s) sec usec
           (my_timestamp_sec s) (my_timestamp_usec s) (value s) (age s) (extra s).
Definition set_value {X} (v a : Z) (x : X) (s : State_Data X) : State_Data X :=
  mk_state (source_addr s) (dest_addr s) (timestamp_sec s) (timestamp_usec s)
           (my_timestamp_sec s) (my_timestamp_usec s) v a x.

(** [if (++timestamp_usec >= 1000000) { ++timestamp_sec; timestamp_usec = 0; }] *)
Definition bump_timestamp {X} (s : State_Data X) : State_Data X :=
  if 1000000 <=? s32 (timestamp_usec s + 1) then set_timestamp (s32 (timestamp_sec s + 1)) 0 s
  else set_timestamp (timestamp_sec s) (s32 (timestamp_usec s + 1)) s.

#[global] Arguments bump_timestamp : simpl never.

Definition flood_timeout : sp_time := mk_time 0 0.
Definition wireless_timeout : sp_time := mk_time 0 15000.

(** [src], [dst]: the keys of the updated state. *)
Definition Add_to_changed_states (now : sp_time) (p : prot) (sender src dst : Z) (d : daemon) : outcome daemon :=
  nd ← or_else (Get_Node d sender) Exit;
  connected ← (if sender =? My_Address d then Ret true else Is_Connected_Neighbor2 d nd);
  if negb connected then Exit
  else
    s_data ← or_else (Find_State (All_States p d) src dst) Fault;
    let d := with_states p (put_state (All_States p d) src dst (set_my_timestamp now s_data)) d in
    let d := if decide (Changed_States p d = ∅)
             then queue_handler now HSend_State_Updates (Some p)
                    (if Wireless d then wireless_timeout else flood_timeout) d
             else d in
    let d := match p with
             | GroupsP => with_routing (RR_Discard_Mcast_Neighbors (Current_Routing d) dst) (Schedule_Set_Route d) d
             | EdgeP => d
             end in
    m ← (if sender =? My_Address d then Ret (replicate MASK_WORDS 0)
         else or_else (mask_set (neighbor_id nd) (replicate MASK_WORDS 0)) Fault);
    Ret (with_changed p (put_changed (Changed_States p d) src dst m) d).
