(* ===== verification/StateFlood.v ===== *)
(** * StateFlood: flooding of link states and group memberships

    The protocol definitions of link_state.c and multicast.c ([Prot_Def]), the
    generic flooding of state_flood.c written over them (sending a whole state,
    sending updates, processing received cells, refreshing and collecting
    states), the local joins and leaves of multicast.c, and the scheduling of
    the route computation of route.c. *)
From stdpp Require Import base list gmap numbers option sets.
From Stdlib Require Import ZArith Lia.
From S2P Require Import Prelude HashMap Events NetTypes Route Daemon.
#[local] Open Scope Z_scope.

(** The order in which [stdhash_keyed_next] visits the entries of a key. *)
Class KeyedOrder := {
  keyed_iter : forall {A}, list A -> list A;
  keyed_iter_perm : forall {A} (l : list A), keyed_iter l ≡ₚ l
}.

(** ** Protocol definitions *)
Definition LINK_STATE_TYPE : Z := 0x01000000.
Definition GROUP_STATE_TYPE : Z := 0x02000000.
Definition ROUTE_MASK : Z := 0x0f000000.

Definition State_type (p : prot) : Z :=
  match p with EdgeP => LINK_STATE_TYPE | GroupsP => GROUP_STATE_TYPE end.
Definition State_header_size (p : prot) : Z := 8.
Definition sizeof_State_Packet : Z := 8.
Definition sizeof_State_Cell : Z := 16.
Definition Cell_packet_size (p : prot) : Z := match p with EdgeP => 20 | GroupsP => 16 end.
(** Bytes written after the common members of a cell. *)
Definition Set_state_cell_size (p : prot) : Z :=
  match p with EdgeP => Cell_packet_size EdgeP - sizeof_State_Cell | GroupsP => 0 end.

Definition Is_route_change (p : prot) : bool := match p with EdgeP => true | GroupsP => false end.

Definition Is_state_relevant (p : prot) : State_Data (extra_of p) -> bool :=
  match p with
  | EdgeP => fun s => 0 <=? value s
  | GroupsP => fun s => negb (Z.land (value s) ACTIVE_GROUP =? 0)
  end.

Definition Get_Prot_Def (t : Z) : option prot :=
  if Z.land t ROUTE_MASK =? LINK_STATE_TYPE then Some EdgeP
  else if Z.land t ROUTE_MASK =? GROUP_STATE_TYPE then Some GroupsP
  else None.

(** A cell filled in from a state. *)
Definition cell_of (now : sp_time) (p : prot) (s : State_Data (extra_of p)) : State_Cell :=
  mk_cell (dest_addr s) (timestamp_sec s) (timestamp_usec s) (value s)
          (s16 (age s + Z.quot (sec now - my_timestamp_sec s) 10))
          (match p as p return State_Data (extra_of p) -> Z with
           | EdgeP => fun s => lts (extra s) | GroupsP => fun _ => 0 end s).

(** ** Filling and flushing packet bodies *)
(** [pk_out]: messages sent so far; [pk_body], [pk_bytes]: the buffer being
    filled; [pk_cnt]: packets sent. *)
Record packer := mk_packer
  { pk_out : list message; pk_body : list State_Packet; pk_bytes : Z; pk_cnt : Z }.

Definition flush (p : prot) (linkid : Z) (pk : packer) : packer :=
  mk_packer (pk_out pk ++ [mk_msg linkid (State_type p) (u16 (pk_bytes pk)) (pk_body pk)])
            [] 0 (pk_cnt pk + 1).

(** A state packet with no cells yet. *)
Definition start_packet (p : prot) (source : Z) (pk : packer) : packer :=
  mk_packer (pk_out pk) (pk_body pk ++ [mk_packet source []])
            (pk_bytes pk + sizeof_State_Packet) (pk_cnt pk).

(** [++pkt->num_cells] and the cell, in the packet started last. *)
Definition add_cell (p : prot) (cell : State_Cell) (pk : packer) : packer :=
  let body := match last (pk_body pk) with
              | Some sp => take (length (pk_body pk) - 1) (pk_body pk)
                             ++ [mk_packet (sp_source sp) (sp_cells sp ++ [cell])]
              | None => []
              end in
  mk_packer (pk_out pk) body (pk_bytes pk + sizeof_State_Cell + Set_state_cell_size p) (pk_cnt pk).

Definition full_for_packet (p : prot) (pk : packer) : bool :=
  sizeof_packet_body - sizeof_reliable_tail - State_header_size p - Cell_packet_size p <? pk_bytes pk.
Definition full_for_cell (p : prot) (pk : packer) : bool :=
  sizeof_packet_body - sizeof_reliable_tail - Cell_packet_size p <? pk_bytes pk.

Section Flood.
Context `{HO : HashOrder} `{KO : KeyedOrder}.

(** ** Net_Send_State_All *)
Definition send_all_first (now : sp_time) (p : prot) (linkid : Z) (pk : packer)
    (s : State_Data (extra_of p)) : packer :=
  let pk := if full_for_packet p pk then flush p linkid pk else pk in
  add_cell p (cell_of now p s) (start_packet p (source_addr s) pk).

Definition send_all_next (now : sp_time) (p : prot) (linkid : Z) (pk : packer)
    (s : State_Data (extra_of p)) : packer :=
  let pk := if full_for_cell p pk then start_packet p (source_addr s) (flush p linkid pk) else pk in
  add_cell p (cell_of now p s) pk.

Definition send_all_chain (now : sp_time) (p : prot) (linkid : Z) (pk : packer)
    (states : list (State_Data (extra_of p))) : packer :=
  match states with
  | [] => pk
  | s :: rest => foldl (send_all_next now p linkid) (send_all_first now p linkid pk s) rest
  end.

(** The states of a table in the order the nested iterations visit them. *)
Definition chain_lists {X} (h : chain X) : list (list (State_Data X)) :=
  (fun '(_, states) => (hash_iter states).*2) <$> hash_iter h.

Definition final_flush (p : prot) (linkid : Z) (pk : packer) : list message :=
  if pk_bytes pk =? 0 then pk_out pk else pk_out (flush p linkid pk).

Definition Net_Send_State_All (now : sp_time) (p : prot) (lk_id : Z) (d : daemon) : daemon :=
  let pk := foldl (send_all_chain now p lk_id) (mk_packer [] [] 0 0) (chain_lists (All_States p d)) in
  with_sent (sent d ++ final_flush p lk_id pk) d.

(** ** Net_Send_State_Updates *)

(** One change: [first] tells whether it opens a state packet.  [None]: the
    limit of packets to a neighbour is reached, the function returns -1. *)
Definition send_update (now : sp_time) (p : prot) (linkid : Z) (first : bool) (pk : packer)
    (s : State_Data (extra_of p)) : packer + packer :=
  if first then
    let full := full_for_packet p pk in
    let pk := if full then flush p linkid pk else pk in
    if full && (5 <? pk_cnt pk) then inl pk
    else inr (add_cell p (cell_of now p s) (start_packet p (source_addr s) pk))
  else
    let full := full_for_cell p pk in
    let pk := if full then flush p linkid pk else pk in
    if full && (5 <? pk_cnt pk) then inl pk
    else inr (add_cell p (cell_of now p s) (if full then start_packet p (source_addr s) pk else pk)).

(** The changes of one source, in keyed order; entries whose bit is set are
    skipped, the bits of the others are set as they are packed.  The table of
    changes, the packer, and whether the limit was reached. *)
Fixpoint send_source (now : sp_time) (p : prot) (linkid nbr : Z) (states : chain (extra_of p))
    (l : list Changed_State) (first : bool) (changes : gmap Z (list Changed_State)) (pk : packer)
    : outcome (gmap Z (list Changed_State) * packer * bool) :=
  match l with
  | [] => Ret (changes, pk, false)
  | cg :: l' =>
      if mask_get nbr (mask cg) then send_source now p linkid nbr states l' first changes pk
      else
        s_data ← or_else (Find_State states (cg_src cg) (cg_dst cg)) Fault;
        match send_update now p linkid first pk s_data with
        | inl pk => Ret (changes, pk, true)
        | inr pk =>
            m ← or_else (mask_set nbr (mask cg)) Fault;
            send_source now p linkid nbr states l' false (put_changed changes (cg_src cg) (cg_dst cg) m) pk
        end
  end.

(** The loop over the sources of the table of changes. *)
Fixpoint send_sources (now : sp_time) (p : prot) (linkid nbr : Z) (states : chain (extra_of p))
    (srcs : list (Z * list Changed_State)) (changes : gmap Z (list Changed_State)) (pk : packer)
    : outcome (gmap Z (list Changed_State) * packer * bool) :=
  match srcs with
  | [] => Ret (changes, pk, false)
  | (_, bucket) :: srcs' =>
      '(changes, pk, stop) ← send_source now p linkid nbr states (keyed_iter bucket) true changes pk;
      if (stop : bool) then Ret (changes, pk, true)
      else send_sources now p linkid nbr states srcs' changes pk
  end.

(** The control link towards neighbour number [nbr]. *)
Definition neighbor_link (d : daemon) (nbr : Z) : outcome Z :=
  node ← or_else (mjoin (Neighbor_Nodes d !! Z.to_nat nbr)) Fault;
  edge ← or_else (Get_Edge d (My_Address d) node) Fault;
  lg ← or_else (leg (extra edge)) Fault;
  or_else (Control_Links d !! lg) Fault.

Definition Net_Send_State_Updates (now : sp_time) (p : prot) (nbr : Z) (d : daemon) : outcome (Z * daemon) :=
  linkid ← neighbor_link d nbr;
  '(changes, pk, stop) ←
    send_sources now p linkid nbr (All_States p d) (hash_iter (Changed_States p d))
                 (Changed_States p d) (mk_packer [] [] 0 0);
  let d := with_changed p changes d in
  if (stop : bool) then Ret (-1, with_sent (sent d ++ pk_out pk) d)
  else Ret (1, with_sent (sent d ++ final_flush p linkid pk) d).

(** ** Send_State_Updates *)
Fixpoint send_to_neighbors (now : sp_time) (p : prot) (nbrs : list Z) (flag : bool) (d : daemon)
    : outcome (bool * daemon) :=
  match nbrs with
  | [] => Ret (flag, d)
  | i :: nbrs' =>
      match mjoin (Neighbor_Nodes d !! Z.to_nat i) with
      | None => send_to_neighbors now p nbrs' flag d
      | Some node =>
          nd ← or_else (Get_Node d node) Fault;
          connected ← Is_Connected_Neighbor2 d nd;
          if (connected : bool) then
            '(r, d) ← Net_Send_State_Updates now p i d;
            send_to_neighbors now p nbrs' (flag || (r <? 0)) d
          else send_to_neighbors now p nbrs' flag d
      end
  end.

Definition zero_timeout : sp_time := mk_time 0 0.

Definition Send_State_Updates (now : sp_time) (p : prot) (d : daemon) : outcome daemon :=
  '(flag, d) ← send_to_neighbors now p (Z.of_nat <$> seq 0 (length (Neighbor_Nodes d))) false d;
  Ret (if (flag : bool) then queue_handler now HSend_State_Updates (Some p) zero_timeout d
       else with_changed p Empty_Changed_States d).

(** ** Routing *)
Definition Reroute_Timeout : sp_time := mk_time 0 100.

Definition Schedule_Routes (now : sp_time) (d : daemon) : daemon :=
  if Schedule_Set_Route d then d
  else with_routing (Current_Routing d) true (queue_handler now HSet_Routes None Reroute_Timeout d).

(** The edges in the order [RR_Init] visits them. *)
Definition edge_list (d : daemon) : list Edge := concat (chain_lists (All_Edges d)).

Definition Set_Routes (now : sp_time) (d : daemon) : outcome daemon :=
  let d := with_routing (Current_Routing d) false d in
  let d := with_queue (snd (E_dequeue HSet_Routes 0 None (Time_queue d))) d in
  d ← Send_State_Updates now EdgeP d;
  rr ← RR_Init (My_Address d) (All_Nodes_by_ID d) (edge_list d);
  Ret (with_routing rr (Schedule_Set_Route d) d).

(** ** Processing received cells *)

(** The node is created when it is not known yet. *)
Definition ensure_node (id : Z) (d : daemon) : outcome daemon :=
  match Get_Node d id with Some _ => Ret d | None => Create_Node id d end.

Definition USHRT_MAX : Z := 65535.

Definition ensure_edge (now : sp_time) (source dest : Z) (d : daemon) : outcome daemon :=
  match Get_Edge d source dest with
  | Some _ => Ret d
  | None => Create_Edge now source dest (-1) (-1) USHRT_MAX d
  end.

(** Returns whether the cell is to be propagated (the pointer is not NULL). *)
Definition Edge_Process_state_cell (now : sp_time) (source : Z) (edge_cell : State_Cell) (d : daemon)
    : outcome (daemon * bool) :=
  d ← ensure_node source d;
  d ← ensure_node (c_dest edge_cell) d;
  d ← ensure_edge now source (c_dest edge_cell) d;
  let d := if 0 <? Link_State_LTS_cmp (c_lts edge_cell) (Link_State_Update_LTS d)
           then with_lts (c_lts edge_cell) d else d in
  edge ← or_else (Get_Edge d source (c_dest edge_cell)) Fault;
  let edge := set_timestamp (c_sec edge_cell) (c_usec edge_cell) edge in
  if negb (source =? My_Address d) then
    let d := with_calls (calls d ++ [DG_Process_Edge_Update source (c_dest edge_cell) (cost edge) (c_value edge_cell)]) d in
    let x := mk_edge_extra (base_cost (extra edge)) (index (extra edge)) (c_lts edge_cell) (leg (extra edge)) in
    let edge := set_value (c_value edge_cell) (c_age edge_cell) x edge in
    let d := with_edges (put_state (All_Edges d) source (c_dest edge_cell) edge) d in
    Ret (with_calls (calls d ++ [MultiPath_Clear_Cache]) d, true)
  else
    let edge := bump_timestamp edge in
    let l := Link_State_LTS_inc (Link_State_Update_LTS d) in
    let x := mk_edge_extra (base_cost (extra edge)) (index (extra edge)) l (leg (extra edge)) in
    let edge := set_value (value edge) (age edge) x edge in
    let d := with_lts l (with_edges (put_state (All_Edges d) source (c_dest edge_cell) edge) d) in
    d ← Add_to_changed_states now EdgeP (My_Address d) source (c_dest edge_cell) d;
    Ret (d, false).

Definition ensure_group (now : sp_time) (source group : Z) (d : daemon) : outcome daemon :=
  match Find_State (All_Groups_by_Node d) source group with
  | Some _ => Ret d
  | None => Create_Group now source group d
  end.

Definition Groups_Process_state_cell (now : sp_time) (source : Z) (group_cell : State_Cell) (d : daemon)
    : outcome (daemon * bool) :=
  d ← ensure_group now source (c_dest group_cell) d;
  g_state ← or_else (Find_State (All_Groups_by_Node d) source (c_dest group_cell)) Fault;
  let g_state := set_timestamp (c_sec group_cell) (c_usec group_cell) g_state in
  if negb (source =? My_Address d) then
    let g_state := set_value (c_value group_cell) (c_age group_cell) (extra g_state) g_state in
    Ret (with_groups (put_state (All_Groups_by_Node d) source (c_dest group_cell) g_state) d, true)
  else
    let d := with_groups (put_state (All_Groups_by_Node d) source (c_dest group_cell) (bump_timestamp g_state)) d in
    d ← Add_to_changed_states now GroupsP (My_Address d) source (c_dest group_cell) d;
    Ret (d, false).

Definition Process_state_cell (p : prot) : sp_time -> Z -> State_Cell -> daemon -> outcome (daemon * bool) :=
  match p with EdgeP => Edge_Process_state_cell | GroupsP => Groups_Process_state_cell end.

(** Comparison of the stored timestamp with the cell's. *)
Definition older {X} (s : State_Data X) (cell : State_Cell) : bool :=
  (timestamp_sec s <? c_sec cell)
  || (timestamp_sec s =? c_sec cell) && (timestamp_usec s <? c_usec cell).
Definition same_time {X} (s : State_Data X) (cell : State_Cell) : bool :=
  (timestamp_sec s =? c_sec cell) && (timestamp_usec s =? c_usec cell).

(** The body of the loop over the cells of a state packet. *)
Definition process_cell (now : sp_time) (p : prot) (sender source : Z) (st : daemon * bool) (cell : State_Cell)
    : outcome (daemon * bool) :=
  let '(d, changed_route_flag) := st in
  let newer := match Find_State (All_States p d) source (c_dest cell) with
               | None => true | Some s_data => older s_data cell end in
  if newer then
    '(d, propagate) ← Process_state_cell p now source cell d;
    if (propagate : bool) then
      d ← Add_to_changed_states now p sender source (c_dest cell) d;
      Ret (d, true)
    else Ret (d, changed_route_flag)
  else
    match Find_State (All_States p d) source (c_dest cell) with
    | Some s_data =>
        if same_time s_data cell then
          match Find_Changed_State (Changed_States p d) source (c_dest cell) with
          | Some cg_state =>
              sender_nd ← or_else (Get_Node d sender) Fault;
              m ← or_else (mask_set (neighbor_id sender_nd) (mask cg_state)) Fault;
              Ret (with_changed p (put_changed (Changed_States p d) source (c_dest cell) m) d, changed_route_flag)
          | None => Ret (d, changed_route_flag)
          end
        else Ret (d, changed_route_flag)
    | None => Ret (d, changed_route_flag)
    end.

Definition process_packet (now : sp_time) (p : prot) (sender : Z) (st : daemon * bool) (pkt : State_Packet)
    : outcome (daemon * bool) :=
  foldM (process_cell now p sender (sp_source pkt)) st (sp_cells pkt).

(** The part of [Process_state_packet] that follows the acknowledgement. *)
Definition Process_state_body (now : sp_time) (p : prot) (sender : Z) (body : list State_Packet) (d : daemon)
    : outcome daemon :=
  '(d, changed_route_flag) ← foldM (process_packet now p sender) (d, false) body;
  Ret (if (changed_route_flag : bool) && Is_route_change p then Schedule_Routes now d else d).

(** ** Refreshing and collecting states *)
Definition state_resend_time : sp_time := mk_time 30000 0.
Definition resend_call_timeout : sp_time := mk_time 3000 0.
Definition resend_fast_timeout : sp_time := mk_time 1 0.
Definition gb_collect_remove : sp_time := mk_time 90000 0.
Definition gb_collect_timeout : sp_time := mk_time 10000 0.

(** The loop of [Resend_States] over the local node's states: [true] when the
    limit of refreshed states was reached. *)
Fixpoint resend_loop (now : sp_time) (p : prot) (dsts : list Z) (cnt : Z) (d : daemon) : outcome (bool * daemon) :=
  match dsts with
  | [] => Ret (false, d)
  | dst :: dsts' =>
      s_data ← or_else (Find_State (All_States p d) (My_Address d) dst) Fault;
      let diff := E_sub_time now (mk_time (my_timestamp_sec s_data) (my_timestamp_usec s_data)) in
      if (0 <=? E_compare_time diff state_resend_time) && Is_state_relevant p s_data then
        let d := with_states p (put_state (All_States p d) (My_Address d) dst (bump_timestamp s_data)) d in
        d ← Add_to_changed_states now p (My_Address d) (My_Address d) dst d;
        if 500 <? cnt + 1 then Ret (true, d) else resend_loop now p dsts' (cnt + 1) d
      else resend_loop now p dsts' cnt d
  end.

Definition Resend_States (now : sp_time) (p : prot) (d : daemon) : outcome daemon :=
  match All_States p d !! My_Address d with
  | None => Ret (queue_handler now HResend_States (Some p) resend_call_timeout d)
  | Some states =>
      '(fast, d) ← resend_loop now p (hash_iter states).*1 0 d;
      Ret (queue_handler now HResend_States (Some p)
             (if (fast : bool) then resend_fast_timeout else resend_call_timeout) d)
  end.

(** Erasing a state from the table of the second key, for groups. *)
Definition gc_by_dest (p : prot) (src dst : Z) (d : daemon) : outcome daemon :=
  match p with
  | EdgeP => Ret d
  | GroupsP =>
      match All_Groups_by_Name d !! dst with
      | None => Exit
      | Some nodes =>
          if decide (src ∈ nodes) then
            let rest := nodes ∖ {[src]} in
            Ret (with_group_names (if decide (rest = ∅) then delete dst (All_Groups_by_Name d)
                                   else <[dst := rest]> (All_Groups_by_Name d)) d)
          else Exit
      end
  end.

Definition remove_node_or_exit (id : Z) (d : daemon) : outcome daemon :=
  let '(r, d) := Try_Remove_Node id d in if r <? 0 then Exit else Ret d.

Definition expired {X} (now : sp_time) (s : State_Data X) : bool :=
  let state_time := mk_time (my_timestamp_sec s - age s * 10) (my_timestamp_usec s) in
  0 <=? E_compare_time (E_sub_time now state_time) gb_collect_remove.

(** The body of the inner loop, on the state with keys [src], [dst]. *)
Definition gc_state (now : sp_time) (p : prot) (src : Z) (d : daemon) (dst : Z) : outcome daemon :=
  states ← or_else (All_States p d !! src) Fault;
  s_data ← or_else (states !! dst) Fault;
  if expired now s_data then
    let d := with_states p (<[src := delete dst states]> (All_States p d)) d in
    d ← gc_by_dest p (source_addr s_data) (dest_addr s_data) d;
    match p with
    | EdgeP => d ← remove_node_or_exit (source_addr s_data) d; remove_node_or_exit (dest_addr s_data) d
    | GroupsP => Ret d
    end
  else Ret d.

(** The body of the outer loop.  Erasing may restart an iteration at its
    beginning; the entries visited again are the ones kept before, and they
    are kept again, so one pass has the same effect. *)
Definition gc_chain (now : sp_time) (p : prot) (d : daemon) (src : Z) : outcome daemon :=
  states ← or_else (All_States p d !! src) Fault;
  d ← foldM (gc_state now p src) d (hash_iter states).*1;
  states ← or_else (All_States p d !! src) Fault;
  Ret (if (base.size states =? 0)%nat then with_states p (delete src (All_States p d)) d else d).

Definition State_Garbage_Collect (now : sp_time) (p : prot) (d : daemon) : outcome daemon :=
  d ← foldM (gc_chain now p) d (hash_iter (All_States p d)).*1;
  Ret (queue_handler now HState_Garbage_Collect (Some p) gb_collect_timeout d).

(** ** Local joins and leaves *)
Record Session := mk_session { sess_id : Z; udp_ses : bool; joined_groups : gset Z }.

Definition set_group (g : Z) (s : Group_State) (d : daemon) : daemon :=
  with_groups (put_state (All_Groups_by_Node d) (My_Address d) g s) d.

Definition Join_Group (now : sp_time) (mcast_address : Z) (ses : Session) (d : daemon) : outcome (Z * Session * daemon) :=
  if negb (Is_mcast_addr mcast_address) && negb (Is_acast_addr mcast_address) then Ret (-1, ses, d)
  else if negb (udp_ses ses) then Ret (-1, ses, d)
  else if decide (mcast_address ∈ joined_groups ses) then Ret (1, ses, d)
  else
    d ← ensure_group now (My_Address d) mcast_address d;
    g_state ← or_else (Find_State (All_Groups_by_Node d) (My_Address d) mcast_address) Fault;
    '(ret, d) ←
      (if Z.land (value g_state) ACTIVE_GROUP =? 0 then
         let g := bump_timestamp (set_value (Z.lor (value g_state) ACTIVE_GROUP) (age g_state) (extra g_state) g_state) in
         d ← Add_to_changed_states now GroupsP (My_Address d) (My_Address d) mcast_address (set_group mcast_address g d);
         Ret (2, d)
       else Ret (1, d));
    g_state ← or_else (Find_State (All_Groups_by_Node d) (My_Address d) mcast_address) Fault;
    let g := set_value (value g_state) (age g_state) ({[sess_id ses]} ∪ extra g_state) g_state in
    Ret (ret, mk_session (sess_id ses) (udp_ses ses) ({[mcast_address]} ∪ joined_groups ses),
         set_group mcast_address g d).

Definition Leave_Group (now : sp_time) (mcast_address : Z) (ses : Session) (d : daemon) : outcome (Z * Session * daemon) :=
  if negb (Is_mcast_addr mcast_address) && negb (Is_acast_addr mcast_address) then Ret (-1, ses, d)
  else if decide (mcast_address ∈ joined_groups ses) then
    g_state ← or_else (Find_State (All_Groups_by_Node d) (My_Address d) mcast_address) Fault;
    let ses := mk_session (sess_id ses) (udp_ses ses) (joined_groups ses ∖ {[mcast_address]}) in
    if decide (sess_id ses ∈ extra g_state) then
      let sessions := extra g_state ∖ {[sess_id ses]} in
      let g := set_value (value g_state) (age g_state) sessions g_state in
      if decide (sessions = ∅) then
        let g := bump_timestamp (set_value (Z.ldiff (value g) ACTIVE_GROUP) (age g) sessions g) in
        d ← Add_to_changed_states now GroupsP (My_Address d) (My_Address d) mcast_address (set_group mcast_address g d);
        Ret (1, ses, d)
      else Ret (1, ses, set_group mcast_address g d)
    else Exit
  else Ret (1, ses, d).
End Flood.
