(* ===== verification/FloodProof.v ===== *)
(** * FloodProof: lemmas about the daemon's tables and the flooding of states

    Inversion of fallible steps, look-ups after each table operation, and the
    effect of one received cell on the tables. *)
From stdpp Require Import base list gmap numbers option sets sorting.
From Stdlib Require Import ZArith Lia.
From S2P Require Import Prelude HashMap Events NetTypes Route RouteProof Daemon StateFlood.
#[local] Open Scope Z_scope.

(** Inversion of the steps of a function that returned. *)
Lemma bind_Ret {A B} (m : outcome A) (f : A -> outcome B) b :
  m ≫= f = Ret b -> exists a, m = Ret a /\ f a = Ret b.
Proof. destruct m as [a| |]; [by exists a|done|done]. Qed.

Lemma or_else_Ret {A} (o : option A) fail a :
  (forall x, fail <> Ret x) -> or_else o fail = Ret a -> o = Some a.
Proof. destruct o as [x|]; simpl; [by intros _ [= ->]|]. intros Hf H. by destruct (Hf a). Qed.

Ltac inv_ret H :=
  repeat match type of H with
  | (_ ≫= _) = Ret _ =>
      let a := fresh "a" in let Ha := fresh "Ha" in
      apply bind_Ret in H as (a & Ha & H);
      try (apply or_else_Ret in Ha; [|by intros ?])
  end.

(** ** Tables of states *)
Lemma find_put {X} (h : chain X) a b s x y :
  Find_State (put_state h a b s) x y = if decide (x = a /\ y = b) then Some s else Find_State h x y.
Proof.
  unfold Find_State, put_state. destruct (decide (x = a)) as [->|Hx].
  - rewrite lookup_insert_eq. cbn [mbind option_bind]. destruct (decide (y = b)) as [->|Hy].
    + rewrite lookup_insert_eq. by rewrite decide_True.
    + rewrite lookup_insert_ne by done. rewrite decide_False by tauto.
      destruct (h !! a); cbn [default mbind option_bind]; [done|apply lookup_empty].
  - rewrite lookup_insert_ne by done. by rewrite decide_False by tauto.
Qed.

Lemma find_put_eq {X} (h : chain X) a b s : Find_State (put_state h a b s) a b = Some s.
Proof. rewrite find_put. by rewrite decide_True. Qed.

Lemma find_put_ne {X} (h : chain X) a b s x y :
  (x, y) <> (a, b) -> Find_State (put_state h a b s) x y = Find_State h x y.
Proof. intros Hne. rewrite find_put, decide_False; [done|]. intros [-> ->]. done. Qed.

(** The fields other protocols' operations leave alone. *)
Definition other (p : prot) : prot := match p with EdgeP => GroupsP | GroupsP => EdgeP end.

Lemma with_states_get p h d : All_States p (with_states p h d) = h.
Proof. by destruct p. Qed.
Lemma with_states_other p h d : All_States (other p) (with_states p h d) = All_States (other p) d.
Proof. by destruct p. Qed.
Lemma with_changed_states p q h d : All_States p (with_changed q h d) = All_States p d.
Proof. by destruct p, q. Qed.
Lemma with_changed_get p h d : Changed_States p (with_changed p h d) = h.
Proof. by destruct p. Qed.
Lemma with_states_changed p h d : Changed_States p (with_states p h d) = Changed_States p d.
Proof. by destruct p. Qed.
Lemma queue_states p now h o t d : All_States p (queue_handler now h o t d) = All_States p d.
Proof. by destruct p. Qed.

(** [keeps d d']: the topology of nodes, and who we are, did not change. *)
Definition keeps (d d' : daemon) : Prop :=
  My_Address d' = My_Address d /\ All_Nodes d' = All_Nodes d /\ All_Nodes_by_ID d' = All_Nodes_by_ID d /\
  Neighbor_Nodes d' = Neighbor_Nodes d /\ All_Groups_by_Name d' = All_Groups_by_Name d.

#[export] Instance keeps_refl : Reflexive keeps.
Proof. by intros d. Qed.
#[export] Instance keeps_trans : Transitive keeps.
Proof. intros a b c (H1 & H2 & H3 & H4 & H5) (G1 & G2 & G3 & G4 & G5). unfold keeps. by rewrite G1, G2, G3, G4, G5. Qed.

Lemma keeps_with_states p h d : keeps d (with_states p h d).
Proof. by destruct p. Qed.
Lemma keeps_with_changed p h d : keeps d (with_changed p h d).
Proof. by destruct p. Qed.

(** What marking a state as changed does. *)
Lemma add_changed_spec now p sender src dst d d' :
  Add_to_changed_states now p sender src dst d = Ret d' ->
  exists s nd m, Find_State (All_States p d) src dst = Some s /\
    All_States p d' = put_state (All_States p d) src dst (set_my_timestamp now s) /\
    All_States (other p) d' = All_States (other p) d /\ keeps d d' /\
    Changed_States p d' = put_changed (Changed_States p d) src dst m /\
    Changed_States (other p) d' = Changed_States (other p) d /\
    Get_Node d sender = Some nd /\
    (if sender =? My_Address d then m = replicate MASK_WORDS 0
     else mask_set (neighbor_id nd) (replicate MASK_WORDS 0) = Some m /\ Is_Connected_Neighbor2 d nd = Ret true) /\
    sent d' = sent d /\ Link_State_Update_LTS d' = Link_State_Update_LTS d.
Proof.
  intros H. unfold Add_to_changed_states in H. apply bind_Ret in H as (nd & Hnd & H).
  apply or_else_Ret in Hnd; [|done]. apply bind_Ret in H as (c & Hc & H).
  destruct c; [|done]. cbn [negb] in H. apply bind_Ret in H as (s & Hs & H).
  apply or_else_Ret in Hs; [|done]. apply bind_Ret in H as (m & Hm & H). injection H as <-.
  exists s, nd, m. split; [done|].
  assert (Hm' : if sender =? My_Address d then m = replicate MASK_WORDS 0
     else mask_set (neighbor_id nd) (replicate MASK_WORDS 0) = Some m /\ Is_Connected_Neighbor2 d nd = Ret true).
  { destruct p; destruct (decide _) in Hm; cbn in Hm; (destruct (sender =? My_Address d) eqn:E;
      [by injection Hm|split; [by apply or_else_Ret in Hm|done]]). }
  destruct p; destruct (decide _) as [E|E]; cbn in E |- *; split_and!; try done.
Qed.

Lemma put_put {X} (h : chain X) a b s s' : put_state (put_state h a b s) a b s' = put_state h a b s'.
Proof.
  unfold put_state. rewrite lookup_insert_eq. simpl. by rewrite !insert_insert_eq.
Qed.

(** Nodes only appear, and keep the pointer to their edge. *)
Definition grows (d d' : daemon) : Prop :=
  forall x nd, Get_Node d x = Some nd ->
    exists nd', Get_Node d' x = Some nd' /\ neighbor_id nd' = neighbor_id nd /\ nid nd' = nid nd /\
                (n_edge nd = true -> n_edge nd' = true).

#[export] Instance grows_refl : Reflexive grows.
Proof. intros d x nd H. by exists nd. Qed.
#[export] Instance grows_trans : Transitive grows.
Proof.
  intros a b c H1 H2 x nd H. destruct (H1 x nd H) as (nd1 & Hn1 & E1 & F1 & G1).
  destruct (H2 x nd1 Hn1) as (nd2 & Hn2 & E2 & F2 & G2). exists nd2. split_and!; [done|congruence|congruence|tauto].
Qed.

Lemma keeps_grows d d' : keeps d d' -> grows d d'.
Proof. intros (_ & Hn & _) x nd H. exists nd. unfold Get_Node in *. by rewrite Hn. Qed.

Lemma ensure_node_spec id d d' :
  ensure_node id d = Ret d' ->
  (forall p, All_States p d' = All_States p d) /\ (forall p, Changed_States p d' = Changed_States p d) /\
  My_Address d' = My_Address d /\ sent d' = sent d /\ is_Some (Get_Node d' id) /\ grows d d' /\
  Link_State_Update_LTS d' = Link_State_Update_LTS d.
Proof.
  unfold ensure_node, Create_Node. destruct (Get_Node d id) as [nd|] eqn:E.
  - intros [= <-]. by split_and!.
  - intros [= <-]. split_and!; try done; try (by intros []).
    + exists (mk_node id false (-1) (-1)). apply lookup_insert_eq.
    + intros x nd H. exists nd. split; [|done]. unfold Get_Node in *. simpl.
      rewrite lookup_insert_ne; [done|]. congruence.
Qed.

Lemma create_edge_spec now src dst c bc ix d d' :
  Create_Edge now src dst c bc ix d = Ret d' ->
  Get_Edge d src dst = None /\ is_Some (Get_Node d src) /\ is_Some (Get_Node d dst) /\
  exists e, All_Edges d' = put_state (All_Edges d) src dst e /\ source_addr e = src /\ dest_addr e = dst /\
    value e = c /\ All_Groups_by_Node d' = All_Groups_by_Node d /\
    (forall p, Changed_States p d' = Changed_States p d) /\ My_Address d' = My_Address d /\ sent d' = sent d /\ grows d d' /\
    (forall x, is_Some (Get_Node d' x) <-> is_Some (Get_Node d x)) /\
    All_Nodes_by_ID d' = All_Nodes_by_ID d /\ All_Groups_by_Name d' = All_Groups_by_Name d.
Proof.
  unfold Create_Edge. destruct (Get_Node d src) as [ns|] eqn:Es; [|done].
  destruct (Get_Node d dst) as [ndst|] eqn:Ed; [|done]. destruct (Get_Edge d src dst) eqn:Ee; [done|].
  assert (Hg : grows d (set_node_edge dst d) /\
               (forall x, is_Some (Get_Node (set_node_edge dst d) x) <-> is_Some (Get_Node d x))).
  { unfold set_node_edge, Get_Node. simpl. split.
    - intros x nd Hx. unfold Get_Node in *. simpl. destruct (decide (x = dst)) as [->|Hne].
      + rewrite lookup_alter_eq, Hx. by eexists.
      + rewrite lookup_alter_ne by done. by exists nd.
    - intros x. destruct (decide (x = dst)) as [->|Hne].
      + rewrite lookup_alter_eq. by rewrite fmap_is_Some.
      + by rewrite lookup_alter_ne. }
  destruct Hg as [Hg1 Hg2].
  intros H. split; [done|]. split; [by exists ns|]. split; [by exists ndst|].
  destruct (src =? My_Address d) eqn:E.
  - cbn in H. rewrite E in H. injection H as <-. eexists. split; [done|].
    split_and!; try done. by intros [].
  - rewrite E in H. injection H as <-. eexists. split; [done|]. split_and!; try done; [by intros []|].
    apply keeps_grows. done.
Qed.

Definition default_value (p : prot) : Z := match p with EdgeP => -1 | GroupsP => 0 end.

Lemma ensure_edge_spec now src dst d d' :
  ensure_edge now src dst d = Ret d' ->
  exists e, Get_Edge d' src dst = Some e /\
    (forall e', put_state (All_Edges d') src dst e' = put_state (All_Edges d) src dst e') /\
    source_addr e = from_option source_addr src (Get_Edge d src dst) /\
    dest_addr e = from_option dest_addr dst (Get_Edge d src dst) /\
    value e = from_option value (-1) (Get_Edge d src dst) /\
    All_Groups_by_Node d' = All_Groups_by_Node d /\ (forall p, Changed_States p d' = Changed_States p d) /\
    My_Address d' = My_Address d /\ sent d' = sent d /\ grows d d'.
Proof.
  unfold ensure_edge. destruct (Get_Edge d src dst) as [e|] eqn:E.
  - intros [= <-]. exists e. by split_and!.
  - intros H. apply create_edge_spec in H as (_ & _ & _ & e & He & Hs & Hd & Hv & Hgr & Hch & Hm & Hse & Hg & _).
    exists e. unfold Get_Edge. rewrite He, find_put_eq. split_and!; try done.
    intros e'. apply put_put.
Qed.

(** The table of changes. *)
Lemma find_update_changed src dst m l d' :
  find_changed d' (update_changed src dst m l) =
  if decide (d' = dst) then Some (mk_changed (from_option cg_src src (find_changed dst l)) dst m) else find_changed d' l.
Proof.
  induction l as [|cg l IH]; cbn [update_changed find_changed].
  - cbn. destruct (Z.eqb_spec dst d') as [->|Hne]; [by rewrite decide_True|]. by rewrite decide_False by congruence.
  - destruct (Z.eqb_spec (cg_dst cg) dst) as [Hd|Hd]; cbn [find_changed cg_dst].
    + destruct (Z.eqb_spec dst d') as [->|Hne]; [by rewrite decide_True|].
      rewrite (decide_False (P := d' = dst)) by congruence.
      destruct (Z.eqb_spec (cg_dst cg) d'); [congruence|done].
    + rewrite IH. destruct (Z.eqb_spec (cg_dst cg) d') as [<-|]; [|done]. by rewrite decide_False.
Qed.

Lemma find_put_changed h src dst m a b :
  Find_Changed_State (put_changed h src dst m) a b =
  if decide (a = src /\ b = dst)
  then Some (mk_changed (from_option cg_src src (Find_Changed_State h src dst)) dst m)
  else Find_Changed_State h a b.
Proof.
  unfold Find_Changed_State, put_changed. destruct (decide (a = src)) as [->|Hne].
  - rewrite lookup_insert_eq. cbn [mbind option_bind]. rewrite find_update_changed.
    destruct (decide (b = dst)) as [->|Hb].
    + rewrite decide_True by done. by destruct (h !! src).
    + rewrite decide_False by tauto. by destruct (h !! src).
  - rewrite lookup_insert_ne by done. by rewrite decide_False by tauto.
Qed.

(** What is known of the state a newer cell leaves. *)
Definition updated (p : prot) (My source : Z) (cell : State_Cell) (old : option (State_Data (extra_of p)))
    (s' : State_Data (extra_of p)) : Prop :=
  source_addr s' = from_option source_addr source old /\ dest_addr s' = from_option dest_addr (c_dest cell) old /\
  (if source =? My
   then value s' = from_option value (default_value p) old /\
        exists s0 : State_Data (extra_of p), timestamp_sec s0 = c_sec cell /\ timestamp_usec s0 = c_usec cell /\
          timestamp_sec s' = timestamp_sec (bump_timestamp s0) /\
          timestamp_usec s' = timestamp_usec (bump_timestamp s0)
   else timestamp_sec s' = c_sec cell /\ timestamp_usec s' = c_usec cell /\ value s' = c_value cell).

Lemma bump_frame {X} (s : State_Data X) :
  source_addr (bump_timestamp s) = source_addr s /\ dest_addr (bump_timestamp s) = dest_addr s /\
  value (bump_timestamp s) = value s /\ extra (bump_timestamp s) = extra s.
Proof. unfold bump_timestamp. by destruct (_ <=? _). Qed.

Definition cell_effect (p : prot) (source : Z) (cell : State_Cell) (d d' : daemon) (prop : bool) : Prop :=
  exists s', All_States p d' = put_state (All_States p d) source (c_dest cell) s' /\
    updated p (My_Address d) source cell (Find_State (All_States p d) source (c_dest cell)) s' /\
    All_States (other p) d' = All_States (other p) d /\ My_Address d' = My_Address d /\ grows d d' /\
    sent d' = sent d /\ prop = negb (source =? My_Address d) /\
    (source = My_Address d -> exists cg, Find_Changed_State (Changed_States p d') source (c_dest cell) = Some cg /\
                                         mask cg = replicate MASK_WORDS 0).

Lemma edge_process_spec now source cell d d' prop :
  Edge_Process_state_cell now source cell d = Ret (d', prop) -> cell_effect EdgeP source cell d d' prop.
Proof.
  intros H. unfold Edge_Process_state_cell in H.
  apply bind_Ret in H as (d1 & H1 & H). apply bind_Ret in H as (d2 & H2 & H). apply bind_Ret in H as (d3 & H3 & H).
  apply ensure_node_spec in H1 as (Hs1 & Hc1 & Hm1 & Hse1 & _ & Hg1 & _).
  apply ensure_node_spec in H2 as (Hs2 & Hc2 & Hm2 & Hse2 & _ & Hg2 & _).
  apply ensure_edge_spec in H3 as (e & He & Hput & Hsrc & Hdst & Hval & Hgr3 & Hc3 & Hm3 & Hse3 & Hg3).
  assert (HE : All_Edges d2 = All_Edges d) by (pose proof (Hs1 EdgeP); pose proof (Hs2 EdgeP); simpl in *; congruence).
  assert (HG : All_Groups_by_Node d3 = All_Groups_by_Node d)
    by (pose proof (Hs1 GroupsP); pose proof (Hs2 GroupsP); simpl in *; congruence).
  assert (HM : My_Address d3 = My_Address d) by congruence.
  assert (HS : sent d3 = sent d) by congruence.
  assert (HGR : grows d d3) by (etrans; [exact Hg1|]; etrans; [exact Hg2|exact Hg3]).
  unfold Get_Edge in Hsrc, Hdst, Hval. rewrite HE in *.
  set (d4 := if 0 <? _ then with_lts _ d3 else d3) in H.
  assert (H4 : All_Edges d4 = All_Edges d3 /\ All_Groups_by_Node d4 = All_Groups_by_Node d3 /\
               My_Address d4 = My_Address d3 /\ sent d4 = sent d3 /\ grows d3 d4)
    by (subst d4; destruct (0 <? _); split_and!; try done; by apply keeps_grows).
  destruct H4 as (HE4 & HG4 & HM4 & HS4 & Hg4). apply bind_Ret in H as (e4 & He4 & H).
  apply or_else_Ret in He4; [|done]. unfold Get_Edge in He4, He. rewrite HE4 in He4. assert (e4 = e) as -> by congruence.
  destruct (source =? My_Address d4) eqn:Eq; cbn [negb] in H.
  - apply bind_Ret in H as (d5 & H5 & H). injection H as <- <-.
    apply add_changed_spec in H5 as (s & nd & m & Hs & HA & HO & HK & HC & _ & _ & Hm & HS5 & _).
    rewrite Z.eqb_refl in Hm. cbn in Hs. rewrite find_put_eq in Hs. injection Hs as <-. cbn in HA, HO, HS5. destruct HK as (HM5 & HN5 & _). cbn in HM5.
    eexists. split; [cbn; rewrite HA, put_put, HE4; apply Hput|].
    pose proof (bump_frame (set_timestamp (c_sec cell) (c_usec cell) e)) as (Hb1 & Hb2 & Hb3 & _). cbn in Hb1, Hb2, Hb3.
    unfold updated. rewrite <- HM, <- HM4. split_and!.
    + exact (eq_trans Hb1 Hsrc).
    + exact (eq_trans Hb2 Hdst).
    + rewrite Eq. split; [exact (eq_trans Hb3 Hval)|]. by exists (set_timestamp (c_sec cell) (c_usec cell) e).
    + cbn. congruence.
    + done.
    + etrans; [exact HGR|]. etrans; [exact Hg4|]. intros x n Hx. exists n. split; [|done].
      unfold Get_Node in *. rewrite HN5. exact Hx.
    + congruence.
    + by rewrite Eq.
    + intros _. rewrite HC, find_put_changed, decide_True by done. eexists. split; [done|]. exact Hm.
  - injection H as <- <-. eexists. split; [cbn; rewrite HE4; apply Hput|]. unfold updated.
    rewrite <- HM, <- HM4. split_and!; try done.
    + by rewrite Eq.
    + cbn. congruence.
    + etrans; [exact HGR|exact Hg4].
    + cbn. congruence.
    + by rewrite Eq.
    + intros HH. apply Z.eqb_neq in Eq. done.
Qed.

Lemma ensure_group_spec now source group d d1 :
  ensure_group now source group d = Ret d1 ->
  exists g, Find_State (All_Groups_by_Node d1) source group = Some g /\
    (forall g', put_state (All_Groups_by_Node d1) source group g' = put_state (All_Groups_by_Node d) source group g') /\
    source_addr g = from_option source_addr source (Find_State (All_Groups_by_Node d) source group) /\
    dest_addr g = from_option dest_addr group (Find_State (All_Groups_by_Node d) source group) /\
    value g = from_option value 0 (Find_State (All_Groups_by_Node d) source group) /\
    All_Edges d1 = All_Edges d /\ My_Address d1 = My_Address d /\ sent d1 = sent d /\ grows d d1.
Proof.
  unfold ensure_group, Create_Group. destruct (Find_State (All_Groups_by_Node d) source group) as [g|] eqn:E.
  - intros [= <-]. exists g. by split_and!.
  - destruct (My_Address d =? source); intros [= <-]; (eexists; split; [apply find_put_eq|]);
      split_and!; try done; try (intros g'; apply put_put); intros x nd Hx; by exists nd.
Qed.

Lemma group_process_spec now source cell d d' prop :
  Groups_Process_state_cell now source cell d = Ret (d', prop) -> cell_effect GroupsP source cell d d' prop.
Proof.
  intros H. unfold Groups_Process_state_cell in H. apply bind_Ret in H as (d1 & H1 & H).
  pose proof (ensure_group_spec now source (c_dest cell) d d1 H1) as Hen.
  destruct Hen as (g & Hg & Hput & Hsrc & Hdst & Hval & HE & HM & HS & HGR).
  apply bind_Ret in H as (g1 & Hg1 & H). apply or_else_Ret in Hg1; [|done]. assert (g1 = g) as -> by congruence.
  destruct (source =? My_Address d1) eqn:Eq; cbn [negb] in H.
  - apply bind_Ret in H as (d5 & H5 & H). injection H as <- <-.
    apply add_changed_spec in H5 as (s & nd & m & Hs & HA & HO & HK & HC & _ & _ & Hm & HS5 & _).
    rewrite Z.eqb_refl in Hm. cbn in Hs. rewrite find_put_eq in Hs. injection Hs as <-. cbn in HA, HO, HS5. destruct HK as (HM5 & HN5 & _). cbn in HM5.
    eexists. split; [cbn; rewrite HA, put_put; apply Hput|].
    pose proof (bump_frame (set_timestamp (c_sec cell) (c_usec cell) g)) as (Hb1 & Hb2 & Hb3 & _). cbn in Hb1, Hb2, Hb3.
    unfold updated. rewrite <- HM. split_and!.
    + exact (eq_trans Hb1 Hsrc).
    + exact (eq_trans Hb2 Hdst).
    + rewrite Eq. split; [exact (eq_trans Hb3 Hval)|]. by exists (set_timestamp (c_sec cell) (c_usec cell) g).
    + cbn. congruence.
    + done.
    + etrans; [exact HGR|]. intros x n Hx. exists n. split; [|done]. unfold Get_Node in *. rewrite HN5. exact Hx.
    + congruence.
    + by rewrite Eq.
    + intros _. rewrite HC, find_put_changed, decide_True by done. eexists. split; [done|]. exact Hm.
  - injection H as <- <-. eexists. split; [cbn; apply Hput|]. unfold updated.
    rewrite <- HM. split_and!; try done; try (by rewrite Eq). intros HH. apply Z.eqb_neq in Eq. done.
Qed.

(** What a protocol does with a newer cell. *)
Lemma process_state_cell_spec p now source cell d d' prop :
  Process_state_cell p now source cell d = Ret (d', prop) -> cell_effect p source cell d d' prop.
Proof. destruct p; [apply edge_process_spec|apply group_process_spec]. Qed.

(** ** Newer states win *)
Definition ts {X} (s : State_Data X) : sp_time := mk_time (timestamp_sec s) (timestamp_usec s).
Definition cell_time (c : State_Cell) : sp_time := mk_time (c_sec c) (c_usec c).

(** Timestamps whose increment does not overflow an [int]. *)
Definition valid_cell (c : State_Cell) : Prop :=
  - 2 ^ 31 <= c_sec c < 2 ^ 31 - 1 /\ - 2 ^ 31 <= c_usec c < 2 ^ 31 - 1.

Lemma older_compare {X} (s : State_Data X) c : older s c = true <-> E_compare_time (ts s) (cell_time c) < 0.
Proof.
  rewrite compare_lt_lex. unfold older, ts, cell_time. simpl.
  rewrite orb_true_iff, andb_true_iff, !Z.ltb_lt, Z.eqb_eq. done.
Qed.

Lemma s32_id x : - 2 ^ 31 <= x < 2 ^ 31 -> s32 x = x.
Proof. intros. apply wraps_small; [lia|]. unfold in_s. change (32 - 1) with 31. lia. Qed.

Lemma bump_later {X} (s : State_Data X) c :
  valid_cell c -> ts s = cell_time c -> E_compare_time (cell_time c) (ts (bump_timestamp s)) < 0.
Proof.
  unfold valid_cell, cell_time. intros [Hs Hu] [= H1 H2]. rewrite compare_lt_lex.
  unfold bump_timestamp, ts. rewrite H1, H2. rewrite (s32_id (c_usec c + 1)) by lia.
  destruct (Z.leb_spec 1000000 (c_usec c + 1)); simpl; rewrite ?H1, ?H2, ?(s32_id (c_sec c + 1)) by lia; lia.
Qed.

(** [advances p d d']: states of [p] persist, their timestamps never go back,
    and the local node's own values are not touched. *)
Definition advances (p : prot) (d d' : daemon) : Prop :=
  My_Address d' = My_Address d /\
  forall a b s, Find_State (All_States p d) a b = Some s ->
    exists s', Find_State (All_States p d') a b = Some s' /\ time_le (ts s) (ts s') /\
      source_addr s' = source_addr s /\ dest_addr s' = dest_addr s /\ (a = My_Address d -> value s' = value s).

#[export] Instance advances_refl p : Reflexive (advances p).
Proof. intros d. split; [done|]. intros a b s Hs. by exists s. Qed.
#[export] Instance advances_trans p : Transitive (advances p).
Proof.
  intros d1 d2 d3 [HM1 H1] [HM2 H2]. split; [congruence|]. intros a b s Hs.
  destruct (H1 a b s Hs) as (s1 & Hs1 & Ht1 & Ha1 & Hb1 & Hv1).
  destruct (H2 a b s1 Hs1) as (s2 & Hs2 & Ht2 & Ha2 & Hb2 & Hv2).
  exists s2. split_and!; [done|by etrans|congruence|congruence|].
  intros Ha. rewrite <- Hv1 by done. apply Hv2. congruence.
Qed.

(** Replacing one state by a later one. *)
Lemma advances_put p d d' a b s' :
  My_Address d' = My_Address d -> All_States p d' = put_state (All_States p d) a b s' ->
  (forall s, Find_State (All_States p d) a b = Some s ->
     time_le (ts s) (ts s') /\ source_addr s' = source_addr s /\ dest_addr s' = dest_addr s /\
     (a = My_Address d -> value s' = value s)) ->
  advances p d d'.
Proof.
  intros HM HA Hlater. split; [done|]. intros x y s Hs. rewrite HA, find_put.
  destruct (decide (x = a /\ y = b)) as [[-> ->]|Hne].
  - exists s'. split; [done|]. by apply Hlater.
  - exists s. split_and!; done.
Qed.

(** The outcome of a cell: the stored state is at least as new as the cell. *)
Definition covers (p : prot) (d : daemon) (source : Z) (c : State_Cell) : Prop :=
  exists s, Find_State (All_States p d) source (c_dest c) = Some s /\ time_le (cell_time c) (ts s).

Lemma covers_advances p d d' source c : covers p d source c -> advances p d d' -> covers p d' source c.
Proof.
  intros (s & Hs & Hle) [_ Ha]. destruct (Ha _ _ _ Hs) as (s' & Hs' & Hle' & _).
  exists s'. split; [done|by etrans].
Qed.

Lemma updated_later p My source c old s' :
  valid_cell c -> updated p My source c old s' -> time_le (cell_time c) (ts s').
Proof.
  intros Hv (_ & _ & Hc). destruct (source =? My).
  - destruct Hc as (_ & s0 & H1 & H2 & H3 & H4). apply time_lt_le.
    unfold ts. rewrite H3, H4. apply (bump_later s0 c Hv). unfold ts, cell_time. congruence.
  - destruct Hc as (H1 & H2 & _). unfold ts, cell_time. by rewrite H1, H2.
Qed.

Lemma put_changed_states now p sender src dst d d' :
  Add_to_changed_states now p sender src dst d = Ret d' -> advances p d d' /\ grows d d'.
Proof.
  intros H. apply add_changed_spec in H as (s & nd & m & Hs & HA & _ & HK & _).
  split; [|by apply keeps_grows]. eapply advances_put; [apply HK|exact HA|].
  intros s0 Hs0. simplify_eq. done.
Qed.

Lemma process_cell_advances now p sender source d f cell d' f' :
  valid_cell cell -> process_cell now p sender source (d, f) cell = Ret (d', f') ->
  advances p d d' /\ covers p d' source cell.
Proof.
  intros Hv H. unfold process_cell in H.
  destruct (Find_State (All_States p d) source (c_dest cell)) as [s|] eqn:Es.
  2:{ apply bind_Ret in H as ([d1 prop] & H1 & H).
      apply process_state_cell_spec in H1 as (s' & HA & Hu & _ & HM & _). rewrite Es in Hu.
      assert (Had : advances p d d1) by (eapply advances_put; [done|exact HA|]; intros s0 Hs0; congruence).
      assert (Hco : covers p d1 source cell).
      { exists s'. rewrite HA, find_put_eq. split; [done|]. by eapply updated_later. }
      destruct prop; [|injection H as <- <-; done].
      apply bind_Ret in H as (d2 & H2 & H). injection H as <- <-. apply put_changed_states in H2 as [Ha2 _].
      split; [by etrans|by eapply covers_advances]. }
  destruct (older s cell) eqn:Eo.
  - apply bind_Ret in H as ([d1 prop] & H1 & H).
    apply process_state_cell_spec in H1 as (s' & HA & Hu & _ & HM & _ & _ & Hprop). rewrite Es in Hu.
    pose proof (updated_later _ _ _ _ _ _ Hv Hu) as Hlater.
    assert (Had : advances p d d1).
    { eapply advances_put; [done|exact HA|]. intros s0 Hs0. simplify_eq. destruct Hu as (Hs1 & Hs2 & Hc). simpl in Hs1, Hs2.
      split_and!; try done.
      - etrans; [|exact Hlater]. apply time_lt_le. by apply older_compare.
      - intros ->. rewrite Z.eqb_refl in Hc. by destruct Hc. }
    assert (Hco : covers p d1 source cell) by (exists s'; rewrite HA, find_put_eq; done).
    destruct prop; [|injection H as <- <-; done].
    apply bind_Ret in H as (d2 & H2 & H). injection H as <- <-. apply put_changed_states in H2 as [Ha2 _].
    split; [by etrans|by eapply covers_advances].
  - assert (Hnot : time_le (cell_time cell) (ts s)).
    { apply time_nlt_le. rewrite <- older_compare. by rewrite Eo. }
    assert (Hd : All_States p d' = All_States p d /\ My_Address d' = My_Address d).
    { destruct (same_time s cell); [|injection H as <- <-; done].
      destruct (Find_Changed_State _ _ _); [|injection H as <- <-; done].
      apply bind_Ret in H as (nd & _ & H). apply bind_Ret in H as (m & _ & H). injection H as <- <-.
      by destruct p. }
    destruct Hd as [Hd HM]. split.
    + split; [done|]. intros a b s0 Hs0. exists s0. rewrite Hd. by split_and!.
    + exists s. rewrite Hd. done.
Qed.

Lemma process_body_advances now p sender body d d' :
  Forall (fun pkt => Forall valid_cell (sp_cells pkt)) body ->
  Process_state_body now p sender body d = Ret d' ->
  advances p d d' /\
  forall pkt c, pkt ∈ body -> c ∈ sp_cells pkt -> covers p d' (sp_source pkt) c.
Proof.
  intros Hv H. unfold Process_state_body in H. apply bind_Ret in H as ([d1 f] & H1 & H). injection H as <-.
  assert (Hfin : advances p d1 (if f && Is_route_change p then Schedule_Routes now d1 else d1)).
  { destruct (_ && _); [|done]. unfold Schedule_Routes. destruct (Schedule_Set_Route d1); [done|].
    split; [done|]. intros a b s Hs. exists s. destruct p; done. }
  enough (Hmain : advances p d d1 /\ forall pkt c, pkt ∈ body -> c ∈ sp_cells pkt -> covers p d1 (sp_source pkt) c).
  { destruct Hmain as [Ha Hc]. split; [by etrans|]. intros pkt c Hp Hcin. eapply covers_advances; [by apply Hc|done]. }
  clear Hfin. revert H1. generalize false as f0. revert d. induction Hv as [|pkt body Hpk Hbody IH]; intros d f0 H1.
  { injection H1 as <- <-. split; [done|]. intros pkt c Hp. by apply elem_of_nil in Hp. }
  cbn [foldM] in H1. apply bind_Ret in H1 as ([d2 f2] & H2 & H1). destruct (IH d2 f2 H1) as [Ha2 Hc2].
  enough (Hpkt : advances p d d2 /\ forall c, c ∈ sp_cells pkt -> covers p d2 (sp_source pkt) c).
  { destruct Hpkt as [Ha Hc]. split; [by etrans|]. intros pk c [->|Hp]%elem_of_cons Hin; [|by apply Hc2].
    eapply covers_advances; [by apply Hc|done]. }
  clear - Hpk H2. unfold process_packet in H2. revert d f0 H2.
  induction Hpk as [|c cells Hvc _ IH]; intros d f0 H2.
  { injection H2 as <- <-. split; [done|]. intros c Hc. by apply elem_of_nil in Hc. }
  cbn [foldM] in H2. apply bind_Ret in H2 as ([d3 f3] & H3 & H2). destruct (IH d3 f3 H2) as [Ha Hc].
  apply process_cell_advances in H3 as [Ha3 Hc3]; [|done]. split; [by etrans|].
  intros c' [->|Hin]%elem_of_cons; [by eapply covers_advances|by apply Hc].
Qed.

(** ** Masks *)
Definition mask_ok (m : list Z) : Prop := length m = MASK_WORDS /\ Forall (fun w => 0 <= w) m.

Lemma mask_get_testbit id m :
  mask_ok m -> 0 <= id < MAX_NEIGHBORS -> mask_get id m = Z.testbit (m !!! Z.to_nat (id / 32)) (id mod 32).
Proof.
  intros _ Hid. unfold mask_get. pose proof (Z.mod_pos_bound id 32 ltac:(lia)) as Hm.
  set (w := m !!! Z.to_nat (id / 32)). set (k := id mod 32) in *.
  destruct (Z.testbit w k) eqn:E.
  - rewrite (proj2 (Z.eqb_neq _ _)); [done|]. intros H0. apply (f_equal (fun x => Z.testbit x k)) in H0.
    rewrite Z.land_spec, Z.shiftl_spec, Z.sub_diag, E, Z.bits_0 in H0 by lia. done.
  - rewrite (proj2 (Z.eqb_eq _ _)); [done|]. apply Z.bits_inj'. intros i Hi. rewrite Z.land_spec, Z.bits_0.
    destruct (decide (i = k)) as [->|Hne]; [by rewrite E|]. rewrite Z.shiftl_1_l, Z.pow2_bits_false by lia.
    by rewrite andb_false_r.
Qed.

Lemma mask_word_lt id : 0 <= id < MAX_NEIGHBORS -> (Z.to_nat (id / 32) < MASK_WORDS)%nat.
Proof.
  unfold MAX_NEIGHBORS, MASK_WORDS. intros. pose proof (Z.div_lt_upper_bound id 32 8 ltac:(lia) ltac:(lia)).
  pose proof (Z.div_pos id 32 ltac:(lia) ltac:(lia)). lia.
Qed.

Lemma mask_set_spec id m m' :
  mask_ok m -> mask_set id m = Some m' ->
  0 <= id < MAX_NEIGHBORS /\ mask_ok m' /\
  forall j, 0 <= j < MAX_NEIGHBORS -> mask_get j m' = (j =? id) || mask_get j m.
Proof.
  intros Hm. unfold mask_set. destruct (_ && _) eqn:E; [|done]. intros [= <-].
  apply andb_true_iff in E as [E1%Z.leb_le E2%Z.ltb_lt].
  pose proof (Z.mod_pos_bound id 32 ltac:(lia)) as Hk.
  assert (Hok : mask_ok (alter (fun w => Z.lor w (Z.shiftl 1 (id mod 32))) (Z.to_nat (id / 32)) m)).
  { destruct Hm as [Hl Hf]. split; [by rewrite length_alter|].
    apply Forall_alter; [done|]. intros w _ Hw. apply Z.lor_nonneg. split; [done|]. apply Z.shiftl_nonneg. lia. }
  split; [done|]. split; [done|]. intros j Hj. rewrite !mask_get_testbit by done.
  assert (Hlt : (Z.to_nat (id / 32) < length m)%nat) by (rewrite (proj1 Hm); by apply mask_word_lt).
  pose proof (Z.mod_pos_bound j 32 ltac:(lia)) as Hkj.
  destruct (decide (Z.to_nat (j / 32) = Z.to_nat (id / 32))) as [He|Hne].
  - rewrite He, list_lookup_total_alter, decide_True by done. rewrite Z.lor_spec, Z.shiftl_1_l.
    pose proof (Z.div_pos j 32 ltac:(lia) ltac:(lia)). pose proof (Z.div_pos id 32 ltac:(lia) ltac:(lia)).
    pose proof (Z.div_mod j 32 ltac:(lia)). pose proof (Z.div_mod id 32 ltac:(lia)).
    destruct (Z.eqb_spec j id) as [->|Hji].
    + rewrite Z.pow2_bits_true by lia. by rewrite orb_true_r.
    + rewrite Z.pow2_bits_false; [by rewrite orb_false_r|]. lia.
  - rewrite list_lookup_total_alter_ne by done. destruct (Z.eqb_spec j id) as [->|]; done.
Qed.

Lemma mask_zero_ok : mask_ok (replicate MASK_WORDS 0).
Proof. split; [done|]. repeat constructor; lia. Qed.

Lemma mask_zero_get id : 0 <= id < MAX_NEIGHBORS -> mask_get id (replicate MASK_WORDS 0) = false.
Proof.
  intros Hid. rewrite mask_get_testbit by (apply mask_zero_ok || done).
  rewrite lookup_total_replicate_2 by (by apply mask_word_lt). apply Z.bits_0.
Qed.

(** ** Garbage collection *)
Section Collect.
Context `{HO : HashOrder} `{KO : KeyedOrder}.
Context (now : sp_time) (p : prot).

Lemma remove_or_exit_states q id d d' : remove_node_or_exit id d = Ret d' -> All_States q d' = All_States q d.
Proof.
  unfold remove_node_or_exit. destruct (Try_Remove_Node id d) as [r d1] eqn:E. destruct (r <? 0); [done|]. intros [= <-].
  unfold Try_Remove_Node in E. destruct (id =? _); [by injection E as <- <-|]. destruct (All_Edges d !! id); [by injection E as <- <-|].
  destruct (existsb _ _); [by injection E as <- <-|]. destruct (Get_Node d id); injection E as <- <-; by destruct q.
Qed.

Lemma gc_state_effect src d dst d' :
  gc_state now p src d dst = Ret d' ->
  exists states s, All_States p d !! src = Some states /\ states !! dst = Some s /\
    All_States p d' = <[src := if expired now s then delete dst states else states]> (All_States p d).
Proof.
  intros H. unfold gc_state in H. apply bind_Ret in H as (states & Hst & H). apply or_else_Ret in Hst; [|done].
  apply bind_Ret in H as (s & Hs & H). apply or_else_Ret in Hs; [|done]. exists states, s. split; [done|]. split; [done|].
  destruct (expired now s); [|injection H as <-; by rewrite fin_maps.insert_id].
  apply bind_Ret in H as (d1 & H1 & H). destruct p; simpl in H1.
  - injection H1 as <-. apply bind_Ret in H as (d2 & H2 & H).
    apply (remove_or_exit_states EdgeP) in H2. apply (remove_or_exit_states EdgeP) in H. rewrite H, H2. done.
  - injection H as <-. match type of H1 with context [match ?o with _ => _ end] => destruct o end; [|done].
    match type of H1 with context [decide ?P] => destruct (decide P) end; [|done]. by injection H1 as <-.
Qed.

(** What is left of a state after the keys [l] of its chain were visited. *)
Definition survives (visited : bool) (o : option (State_Data (extra_of p))) : option (State_Data (extra_of p)) :=
  s ← o; if visited && expired now s then None else Some s.

Lemma gc_states_effect src l d d' :
  NoDup l -> foldM (gc_state now p src) d l = Ret d' ->
  (forall a b, Find_State (All_States p d') a b =
               survives (bool_decide (a = src /\ b ∈ l)) (Find_State (All_States p d) a b)) /\
  dom (All_States p d') ⊆ dom (All_States p d).
Proof.
  intros Hnd. revert d. induction Hnd as [|x l Hx Hnd IH]; intros d H; cbn [foldM] in H.
  { injection H as <-. split; [|done]. intros a b. rewrite bool_decide_eq_false_2; [by destruct (Find_State _ a b)|].
    intros [_ Hb]. by apply elem_of_nil in Hb. }
  apply bind_Ret in H as (d1 & H1 & H). apply gc_state_effect in H1 as (states & s & Hst & Hs & HA).
  destruct (IH d1 H) as [IHf IHd]. split.
  - intros a b. rewrite IHf, HA. unfold Find_State. destruct (decide (a = src)) as [->|Hne].
    + rewrite lookup_insert_eq, Hst. cbn [mbind option_bind]. destruct (decide (b = x)) as [->|Hbx].
      * rewrite (bool_decide_eq_true_2 (src = src /\ x ∈ x :: l)) by (split; [done|left]).
        rewrite (bool_decide_eq_false_2 (src = src /\ x ∈ l)) by (intros [_ ?]; done). rewrite Hs.
        destruct (expired now s) eqn:Ee.
        -- rewrite lookup_delete_eq. cbn. by rewrite Ee.
        -- rewrite Hs. cbn. by rewrite Ee.
      * assert (Hb : (if expired now s then delete x states else states) !! b = states !! b)
          by (destruct (expired now s); [by rewrite lookup_delete_ne|done]).
        rewrite Hb. f_equal. apply bool_decide_ext. rewrite elem_of_cons. split; [intros [? ?]; split; [done|by right]|].
        intros [_ [|]]; done.
    + rewrite lookup_insert_ne by done. rewrite !bool_decide_eq_false_2 by tauto. done.
  - etrans; [exact IHd|]. rewrite HA, dom_insert. apply union_subseteq. split; [|done].
    apply singleton_subseteq_l. by eapply elem_of_dom_2.
Qed.

Lemma gc_chain_effect src d d' :
  gc_chain now p d src = Ret d' ->
  forall a b, Find_State (All_States p d') a b = survives (bool_decide (a = src)) (Find_State (All_States p d) a b).
Proof.
  intros H a b. unfold gc_chain in H. apply bind_Ret in H as (states & Hst & H). apply or_else_Ret in Hst; [|done].
  apply bind_Ret in H as (d1 & H1 & H). apply bind_Ret in H as (states' & Hst' & H). apply or_else_Ret in Hst'; [|done].
  injection H as <-.
  assert (Hperm : (hash_iter states).*1 ≡ₚ (map_to_list states).*1) by (by rewrite (hash_iter_perm states)).
  apply gc_states_effect in H1 as [H1 _]; [|rewrite Hperm; apply NoDup_fst_map_to_list].
  assert (Hf : Find_State (All_States p d1) a b = survives (bool_decide (a = src)) (Find_State (All_States p d) a b)).
  { rewrite H1. destruct (Find_State (All_States p d) a b) as [s|] eqn:E; [|done]. f_equal.
    apply bool_decide_ext. split; [tauto|]. intros ->. split; [done|]. rewrite Hperm.
    unfold Find_State in E. rewrite Hst in E. cbn in E. apply list_elem_of_fmap. exists (b, s).
    split; [done|]. by apply elem_of_map_to_list. }
  destruct (Nat.eqb_spec (base.size states') 0) as [Hz|]; [|done]. rewrite with_states_get, <- Hf.
  unfold Find_State. destruct (decide (a = src)) as [->|Hne]; [|by rewrite lookup_delete_ne].
  rewrite lookup_delete_eq, Hst'. apply map_size_empty_inv in Hz. subst states'. cbn. by rewrite lookup_empty.
Qed.

Lemma gc_effect d d' :
  State_Garbage_Collect now p d = Ret d' ->
  forall a b, Find_State (All_States p d') a b = survives true (Find_State (All_States p d) a b).
Proof.
  intros H a b. unfold State_Garbage_Collect in H. apply bind_Ret in H as (d1 & H1 & H). injection H as <-.
  rewrite queue_states.
  assert (Hperm : (hash_iter (All_States p d)).*1 ≡ₚ (map_to_list (All_States p d)).*1) by (by rewrite (hash_iter_perm (All_States p d))).
  assert (Hl : NoDup (hash_iter (All_States p d)).*1) by (rewrite Hperm; apply NoDup_fst_map_to_list).
  assert (Hall : forall l d d1, NoDup l -> foldM (gc_chain now p) d l = Ret d1 ->
            Find_State (All_States p d1) a b = survives (bool_decide (a ∈ l)) (Find_State (All_States p d) a b)).
  { clear. intros l d d1 Hnd. revert d. induction Hnd as [|x l Hx Hnd IH]; intros d H; cbn [foldM] in H.
    { injection H as <-. rewrite bool_decide_eq_false_2 by (apply not_elem_of_nil). by destruct (Find_State _ a b). }
    apply bind_Ret in H as (d2 & H2 & H). rewrite (IH d2 H), (gc_chain_effect _ _ _ H2).
    destruct (Find_State (All_States p d) a b) as [s|]; [|done]. cbn [survives mbind option_bind].
    destruct (expired now s) eqn:Ee; rewrite ?andb_false_r, ?andb_true_r; cbn [mbind option_bind].
    - destruct (decide (a = x)) as [->|Hax].
      + rewrite (bool_decide_eq_true_2 (x = x)) by done. cbn. by rewrite bool_decide_eq_true_2 by left.
      + rewrite (bool_decide_eq_false_2 (a = x)) by done. cbn [mbind option_bind]. rewrite Ee, andb_true_r.
        erewrite bool_decide_ext; [done|]. rewrite elem_of_cons. tauto.
    - by rewrite Ee, andb_false_r. }
  rewrite (Hall _ _ _ Hl H1). destruct (Find_State (All_States p d) a b) as [s|] eqn:E; [|done].
  cbn [survives mbind option_bind]. rewrite bool_decide_eq_true_2; [done|]. rewrite Hperm.
  unfold Find_State in E. destruct (All_States p d !! a) as [states|] eqn:Ea; [|done].
  apply list_elem_of_fmap. exists (a, states). split; [done|]. by apply elem_of_map_to_list.
Qed.
End Collect.
