(* ===== verification/FloodSend.v ===== *)
(** * FloodSend: lemmas about the messages that carry states

    The bodies filled by [Net_Send_State_All] and [Net_Send_State_Updates]: their
    size, their contents, and the bits set in the table of changes. *)
From stdpp Require Import base list gmap numbers option sets sorting.
From Stdlib Require Import ZArith Lia.
From S2P Require Import Prelude HashMap Events NetTypes Route Daemon StateFlood FloodProof.
#[local] Open Scope Z_scope.

Definition room : Z := sizeof_packet_body - sizeof_reliable_tail.

Section Pack.
Context (p : prot).

(** The encoded size of a body, and the cells it carries with their sources. *)
Definition packet_size (sp : State_Packet) : Z :=
  sizeof_State_Packet + Z.of_nat (length (sp_cells sp)) * Cell_packet_size p.
Definition body_size (body : list State_Packet) : Z := foldr (fun sp n => packet_size sp + n) 0 body.
Definition contents (body : list State_Packet) : list (Z * State_Cell) :=
  body ≫= fun sp => (fun c => (sp_source sp, c)) <$> sp_cells sp.

(** A message that fits, has the length it announces and no empty packet. *)
Definition msg_ok (m : message) : Prop :=
  m_type m = State_type p /\ m_len m = body_size (m_body m) /\ m_len m <= room /\
  Forall (fun sp => sp_cells sp <> []) (m_body m).

Definition pk_contents (pk : packer) : list (Z * State_Cell) :=
  contents (pk_out pk ≫= m_body) ++ contents (pk_body pk).

Record pk_ok (pk : packer) : Prop := {
  pko_bytes : pk_bytes pk = body_size (pk_body pk);
  pko_room : pk_bytes pk <= room;
  pko_cells : Forall (fun sp => sp_cells sp <> []) (pk_body pk);
  pko_out : Forall msg_ok (pk_out pk);
  pko_cnt : pk_cnt pk = Z.of_nat (length (pk_out pk)) }.

(** The packet being filled belongs to [src]. *)
Definition pk_open (src : Z) (pk : packer) : Prop :=
  exists sp, last (pk_body pk) = Some sp /\ sp_source sp = src.

Lemma body_size_app b1 b2 : body_size (b1 ++ b2) = body_size b1 + body_size b2.
Proof. induction b1 as [|sp b1 IH]; cbn [app body_size foldr]; [done|]. fold (body_size (b1 ++ b2)). fold (body_size b1). lia. Qed.

Lemma body_size_nonneg b : 0 <= body_size b.
Proof.
  induction b as [|sp b IH]; [done|]. cbn [body_size foldr]. fold (body_size b). unfold packet_size, sizeof_State_Packet.
  destruct p; unfold Cell_packet_size; lia.
Qed.

Lemma contents_app b1 b2 : contents (b1 ++ b2) = contents b1 ++ contents b2.
Proof. unfold contents. by rewrite bind_app. Qed.

Lemma flush_ok linkid pk : pk_ok pk -> pk_ok (flush p linkid pk) /\ pk_contents (flush p linkid pk) = pk_contents pk.
Proof.
  intros []. split.
  - split; [done|unfold room, sizeof_packet_body, sizeof_reliable_tail; simpl; lia|constructor| |simpl; rewrite length_app; simpl; lia].
    simpl. apply Forall_app. split; [done|]. constructor; [|constructor]. pose proof (body_size_nonneg (pk_body pk)).
    unfold room, sizeof_packet_body, sizeof_reliable_tail in *.
    assert (u16 (pk_bytes pk) = pk_bytes pk) as Hu by (apply u16_small; lia).
    split_and!; simpl; [done|lia|unfold room, sizeof_packet_body, sizeof_reliable_tail; lia|done].
  - unfold pk_contents. simpl. rewrite bind_app, contents_app, app_nil_r. f_equal. simpl. by rewrite app_nil_r.
Qed.

(** A packet started and given its first cell. *)
Lemma start_add_ok src c pk :
  pk_ok pk -> full_for_packet p pk = false ->
  let pk' := add_cell p c (start_packet p src pk) in
  pk_ok pk' /\ pk_open src pk' /\ pk_contents pk' = pk_contents pk ++ [(src, c)].
Proof.
  intros [] Hfull pk'. apply Z.ltb_ge in Hfull.
  assert (Hb : pk_body pk' = pk_body pk ++ [mk_packet src [c]]).
  { unfold pk', add_cell. simpl. rewrite last_snoc. rewrite length_app. simpl.
    replace (length (pk_body pk) + 1 - 1)%nat with (length (pk_body pk)) by lia. by rewrite take_app_length. }
  assert (Hn : pk_bytes pk' = pk_bytes pk + sizeof_State_Packet + Cell_packet_size p).
  { unfold pk'. simpl. destruct p; unfold Set_state_cell_size, sizeof_State_Cell, Cell_packet_size; lia. }
  split; [split|split].
  - rewrite Hn, Hb, body_size_app, pko_bytes0. cbn. unfold packet_size. simpl. lia.
  - rewrite Hn. unfold room, State_header_size, sizeof_State_Packet in *. lia.
  - rewrite Hb. apply Forall_app. split; [done|]. by constructor.
  - done.
  - done.
  - exists (mk_packet src [c]). by rewrite Hb, last_snoc.
  - unfold pk_contents. rewrite Hb, contents_app. simpl. by rewrite app_assoc.
Qed.

(** A cell added to the packet being filled. *)
Lemma add_cell_ok src c pk :
  pk_ok pk -> pk_open src pk -> full_for_cell p pk = false ->
  pk_ok (add_cell p c pk) /\ pk_open src (add_cell p c pk) /\ pk_contents (add_cell p c pk) = pk_contents pk ++ [(src, c)].
Proof.
  intros [] (sp & Hsp & Hsrc) Hfull. apply Z.ltb_ge in Hfull.
  apply last_Some in Hsp as [b Hbody].
  assert (Hb : pk_body (add_cell p c pk) = b ++ [mk_packet src (sp_cells sp ++ [c])]).
  { unfold add_cell. simpl. rewrite Hbody, last_snoc, length_app. simpl.
    replace (length b + 1 - 1)%nat with (length b) by lia. by rewrite take_app_length, Hsrc. }
  assert (Hn : pk_bytes (add_cell p c pk) = pk_bytes pk + Cell_packet_size p).
  { simpl. destruct p; unfold Set_state_cell_size, sizeof_State_Cell, Cell_packet_size; lia. }
  rewrite Hbody in pko_bytes0, pko_cells0. apply Forall_app in pko_cells0 as [Hc1 Hc2].
  split; [split|split].
  - rewrite Hn, Hb, pko_bytes0, !body_size_app. cbn. unfold packet_size. simpl. rewrite length_app. simpl. lia.
  - rewrite Hn. unfold room in *. lia.
  - rewrite Hb. apply Forall_app. split; [done|]. constructor; [|done]. simpl. by destruct (sp_cells sp).
  - done.
  - done.
  - exists (mk_packet src (sp_cells sp ++ [c])). by rewrite Hb, last_snoc.
  - unfold pk_contents. rewrite Hb, Hbody, !contents_app, <- !app_assoc. f_equal. f_equal.
    unfold contents. simpl. rewrite !app_nil_r, fmap_app, Hsrc. done.
Qed.

Lemma flush_empty linkid pk : full_for_packet p (flush p linkid pk) = false.
Proof. unfold full_for_packet, flush. simpl. by destruct p. Qed.

Lemma final_flush_ok linkid pk :
  pk_ok pk -> Forall msg_ok (final_flush p linkid pk) /\
  contents (final_flush p linkid pk ≫= m_body) = pk_contents pk.
Proof.
  intros Hok. unfold final_flush. destruct (Z.eqb_spec (pk_bytes pk) 0) as [H0|Hne].
  - split; [apply Hok|]. unfold pk_contents. rewrite (pko_bytes _ Hok) in H0.
    destruct (pk_body pk) as [|sp b]; [by rewrite app_nil_r|].
    cbn in H0. fold (body_size b) in H0. pose proof (body_size_nonneg b). unfold packet_size, sizeof_State_Packet in H0.
    destruct p; unfold Cell_packet_size in H0; lia.
  - destruct (flush_ok linkid pk Hok) as [Hok' Hc]. split; [apply Hok'|].
    rewrite <- Hc. unfold pk_contents. simpl. by rewrite app_nil_r.
Qed.

Lemma empty_packer_ok : pk_ok (mk_packer [] [] 0 0).
Proof. split; [done|by vm_compute|constructor|constructor|done]. Qed.
End Pack.

(** States are stored under their own keys. *)
Definition keyed {X} (h : chain X) : Prop :=
  forall a b s, Find_State h a b = Some s -> source_addr s = a /\ dest_addr s = b.

Section All.
Context `{HO : HashOrder} `{KO : KeyedOrder}.
Context (now : sp_time) (p : prot) (linkid : Z).

Definition announced (s : State_Data (extra_of p)) : Z * State_Cell := (source_addr s, cell_of now p s).

Lemma send_all_first_ok pk s :
  pk_ok p pk ->
  let pk' := send_all_first now p linkid pk s in
  pk_ok p pk' /\ pk_open (source_addr s) pk' /\ pk_contents pk' = pk_contents pk ++ [announced s].
Proof.
  intros Hok. unfold send_all_first. destruct (full_for_packet p pk) eqn:E.
  - destruct (flush_ok p linkid pk Hok) as [Hok' <-]. apply start_add_ok; [done|apply flush_empty].
  - by apply start_add_ok.
Qed.

Lemma send_all_next_ok pk s :
  pk_ok p pk -> pk_open (source_addr s) pk ->
  let pk' := send_all_next now p linkid pk s in
  pk_ok p pk' /\ pk_open (source_addr s) pk' /\ pk_contents pk' = pk_contents pk ++ [announced s].
Proof.
  intros Hok Hopen. unfold send_all_next. destruct (full_for_cell p pk) eqn:E; [|by apply add_cell_ok].
  destruct (flush_ok p linkid pk Hok) as [Hok' <-]. apply start_add_ok; [done|apply flush_empty].
Qed.

Lemma send_all_chain_ok pk src states :
  pk_ok p pk -> Forall (fun s => source_addr s = src) states ->
  let pk' := send_all_chain now p linkid pk states in
  pk_ok p pk' /\ pk_contents pk' = pk_contents pk ++ (announced <$> states).
Proof.
  intros Hok Hsrc. destruct states as [|s states]; [simpl; by rewrite app_nil_r|].
  inversion_clear Hsrc as [|? ? Hs Hrest]. cbn [send_all_chain].
  destruct (send_all_first_ok pk s Hok) as (Hok1 & Hop1 & Hc1). rewrite Hs in Hop1.
  enough (H : forall pk0, pk_ok p pk0 -> pk_open src pk0 ->
    pk_ok p (foldl (send_all_next now p linkid) pk0 states) /\
    pk_contents (foldl (send_all_next now p linkid) pk0 states) = pk_contents pk0 ++ (announced <$> states)).
  { destruct (H _ Hok1 Hop1) as [H1 H2]. split; [done|]. rewrite H2, Hc1, fmap_cons. by rewrite <- app_assoc. }
  clear - Hrest. induction Hrest as [|x l Hx _ IH]; intros pk0 Hok0 Hop0; [simpl; by rewrite app_nil_r|].
  rewrite <- Hx in Hop0. destruct (send_all_next_ok pk0 x Hok0 Hop0) as (Hok1 & Hop1 & Hc1). rewrite Hx in Hop1.
  cbn [foldl]. destruct (IH _ Hok1 Hop1) as [H1 H2]. split; [done|]. rewrite H2, Hc1, fmap_cons. by rewrite <- app_assoc.
Qed.

Lemma chain_lists_source {X} (h : chain X) :
  keyed h -> Forall (fun l => exists src, Forall (fun s => source_addr s = src) l) (chain_lists h).
Proof.
  intros Hk. unfold chain_lists. apply Forall_forall. intros l (x & -> & Hx)%list_elem_of_fmap.
  destruct x as [a states]. exists a. rewrite (hash_iter_perm h) in Hx. apply elem_of_map_to_list in Hx.
  apply Forall_forall. intros s ((b & s') & -> & Hs)%list_elem_of_fmap. rewrite (hash_iter_perm states) in Hs.
  apply elem_of_map_to_list in Hs. apply (Hk a b s'). unfold Find_State. by rewrite Hx.
Qed.

(** The states of a table, each once. *)
Lemma chain_lists_elem {X} (h : chain X) s :
  s ∈ concat (chain_lists h) <-> exists a b, Find_State h a b = Some s.
Proof.
  rewrite elem_of_concat. unfold chain_lists. split.
  - intros (l & Hs & ((a & states) & -> & Hx)%list_elem_of_fmap). rewrite (hash_iter_perm h) in Hx.
    apply elem_of_map_to_list in Hx. apply list_elem_of_fmap in Hs as ((b & s') & -> & Hs).
    rewrite (hash_iter_perm states) in Hs. apply elem_of_map_to_list in Hs. exists a, b.
    unfold Find_State. by rewrite Hx.
  - intros (a & b & H). unfold Find_State in H. destruct (h !! a) as [states|] eqn:E; [|done]. cbn in H.
    exists ((hash_iter states).*2). split.
    + apply list_elem_of_fmap. exists (b, s). split; [done|]. rewrite (hash_iter_perm states). by apply elem_of_map_to_list.
    + apply list_elem_of_fmap. exists (a, states). split; [done|]. rewrite (hash_iter_perm h). by apply elem_of_map_to_list.
Qed.

Lemma send_all_fold ls pk :
  pk_ok p pk -> Forall (fun l => exists src, Forall (fun s => source_addr s = src) l) ls ->
  let pk' := foldl (send_all_chain now p linkid) pk ls in
  pk_ok p pk' /\ pk_contents pk' = pk_contents pk ++ (announced <$> concat ls).
Proof.
  intros Hok Hls. revert pk Hok. induction Hls as [|l ls [src Hl] _ IH]; intros pk Hok; [simpl; by rewrite app_nil_r|].
  cbn [foldl concat]. destruct (send_all_chain_ok pk src l Hok Hl) as [Hok1 Hc1].
  destruct (IH _ Hok1) as [Hok2 Hc2]. split; [done|]. rewrite Hc2, Hc1, fmap_app. by rewrite app_assoc.
Qed.

Lemma send_all_messages d :
  keyed (All_States p d) ->
  exists ms, sent (Net_Send_State_All now p linkid d) = sent d ++ ms /\ Forall (msg_ok p) ms /\
    contents (ms ≫= m_body) = announced <$> concat (chain_lists (All_States p d)).
Proof.
  intros Hk. destruct (send_all_fold (chain_lists (All_States p d)) (mk_packer [] [] 0 0)) as [Hok Hc].
  { apply empty_packer_ok. } { by apply chain_lists_source. }
  destruct (final_flush_ok p linkid _ Hok) as [Hm Hct]. eexists. split; [done|]. split; [exact Hm|].
  rewrite Hct, Hc. done.
Qed.
End All.

(** ** Updates to one neighbour *)
Section Updates.
Context `{HO : HashOrder} `{KO : KeyedOrder}.
Context (now : sp_time) (p : prot) (linkid nbr : Z) (states : chain (extra_of p)).
Context (Hnbr : 0 <= nbr < MAX_NEIGHBORS) (Hkeyed : keyed states).

Definition pending (cg : Changed_State) : Prop := mask_get nbr (mask cg) = false.
#[export] Instance pending_dec cg : Decision (pending cg).
Proof. unfold pending. apply _. Defined.

Definition cg_key (cg : Changed_State) : Z * Z := (cg_src cg, cg_dst cg).

(** The entry with the neighbour's bit set. *)
Definition marked_mask (cg : Changed_State) : list Z := default (mask cg) (mask_set nbr (mask cg)).
Definition mark_in (h : gmap Z (list Changed_State)) (cg : Changed_State) : gmap Z (list Changed_State) :=
  put_changed h (cg_src cg) (cg_dst cg) (marked_mask cg).

(** What is sent for an entry. *)
Definition sent_for (cg : Changed_State) (x : Z * State_Cell) : Prop :=
  exists s, Find_State states (cg_src cg) (cg_dst cg) = Some s /\ x = announced now p s.

(** The outcome of a loop over the entries [l]: a prefix of the pending ones
    was packed and marked, all of them unless the limit was reached. *)
Definition sends (l : list Changed_State) (changes : gmap Z (list Changed_State)) (pk : packer)
    (changes' : gmap Z (list Changed_State)) (pk' : packer) (stop : bool) : Prop :=
  exists marked rest cs, filter pending l = marked ++ rest /\ changes' = foldl mark_in changes marked /\
    pk_ok p pk' /\ pk_contents pk' = pk_contents pk ++ cs /\ Forall2 sent_for marked cs /\
    (stop = false -> rest = []) /\ (stop = true -> pk_body pk' = [] /\ rest <> [] /\ 5 < pk_cnt pk').

Lemma sends_nil changes pk : pk_ok p pk -> sends [] changes pk changes pk false.
Proof. intros. exists [], [], []. split_and!; try done. by rewrite app_nil_r. Qed.

Lemma sends_skip cg l changes pk changes' pk' stop :
  mask_get nbr (mask cg) = true -> sends l changes pk changes' pk' stop ->
  sends (cg :: l) changes pk changes' pk' stop.
Proof.
  intros Hm (marked & rest & cs & Hf & H). exists marked, rest, cs. split; [|done].
  rewrite filter_cons, decide_False; [done|]. unfold pending. congruence.
Qed.

Lemma sends_cons cg x l changes pk1 pk2 changes' pk' stop :
  pending cg -> sent_for cg x -> pk_contents pk2 = pk_contents pk1 ++ [x] ->
  sends l (mark_in changes cg) pk2 changes' pk' stop -> sends (cg :: l) changes pk1 changes' pk' stop.
Proof.
  intros Hp Hx Hc (marked & rest & cs & Hf & -> & Hok & Hct & Hs & Hstop & Hempty).
  exists (cg :: marked), rest, (x :: cs). split_and!; try done.
  - rewrite filter_cons, decide_True by done. by rewrite Hf.
  - rewrite Hct, Hc, <- app_assoc. done.
  - by constructor.
Qed.

Lemma sends_stop cg l changes pk pk' :
  pending cg -> pk_ok p pk' -> pk_contents pk' = pk_contents pk -> pk_body pk' = [] /\ 5 < pk_cnt pk' ->
  sends (cg :: l) changes pk changes pk' true.
Proof.
  intros Hp Hok Hc [Hempty Hcnt]. exists [], (filter pending (cg :: l)), []. split_and!; try done; [by rewrite Hc, app_nil_r|].
  intros _. split_and!; [done| |done]. by rewrite filter_cons, decide_True by done.
Qed.

Lemma sends_app l1 l2 ch0 pk0 ch1 pk1 ch2 pk2 stop :
  sends l1 ch0 pk0 ch1 pk1 false -> sends l2 ch1 pk1 ch2 pk2 stop -> sends (l1 ++ l2) ch0 pk0 ch2 pk2 stop.
Proof.
  intros (m1 & r1 & c1 & Hf1 & -> & _ & Hct1 & Hs1 & Hst1 & _) (m2 & r2 & c2 & Hf2 & -> & Hok2 & Hct2 & Hs2 & Hst2 & Hem2).
  exists (m1 ++ m2), r2, (c1 ++ c2). rewrite filter_app, Hf1, Hf2, Hst1, app_nil_r, foldl_app by done.
  split_and!; try done.
  - by rewrite app_assoc.
  - by rewrite Hct2, Hct1, app_assoc.
  - by apply Forall2_app.
Qed.

Lemma sends_app_stop l1 l2 ch0 pk0 ch1 pk1 :
  sends l1 ch0 pk0 ch1 pk1 true -> sends (l1 ++ l2) ch0 pk0 ch1 pk1 true.
Proof.
  intros (m1 & r1 & c1 & Hf1 & H). destruct H as (H1 & H2 & H3 & H4 & _ & H5).
  exists m1, (r1 ++ filter pending l2), c1. split_and!; try done; [by rewrite filter_app, Hf1, app_assoc|].
  intros Hs. destruct (H5 Hs) as (Hb & Hr & Hn). split_and!; [done| |done]. by destruct r1.
Qed.

(** One change is packed, or the limit is reached after a flush. *)
Lemma send_update_ok src first pk s :
  pk_ok p pk -> source_addr s = src -> (first = false -> pk_open src pk) ->
  match send_update now p linkid first pk s with
  | inl pk' => pk_ok p pk' /\ pk_contents pk' = pk_contents pk /\ pk_body pk' = [] /\ 5 < pk_cnt pk'
  | inr pk' => pk_ok p pk' /\ pk_open src pk' /\ pk_contents pk' = pk_contents pk ++ [announced now p s]
  end.
Proof.
  intros Hok <- Hopen. unfold send_update. destruct (flush_ok p linkid pk Hok) as [Hok' Hc'].
  destruct first.
  - destruct (full_for_packet p pk) eqn:E; cbn [andb]; [|by apply start_add_ok].
    destruct (Z.ltb_spec 5 (pk_cnt (flush p linkid pk))); [done|]. rewrite <- Hc'. apply start_add_ok; [done|apply flush_empty].
  - destruct (full_for_cell p pk) eqn:E; cbn [andb]; [|apply add_cell_ok; auto].
    destruct (Z.ltb_spec 5 (pk_cnt (flush p linkid pk))); [done|]. rewrite <- Hc'. apply start_add_ok; [done|apply flush_empty].
Qed.

Lemma send_source_ok src l first changes pk changes' pk' stop :
  pk_ok p pk -> (first = false -> pk_open src pk) -> Forall (fun cg => cg_src cg = src /\ mask_ok (mask cg)) l ->
  send_source now p linkid nbr states l first changes pk = Ret (changes', pk', stop) ->
  sends l changes pk changes' pk' stop.
Proof.
  intros Hok Hopen Hl. revert first changes pk Hok Hopen.
  induction Hl as [|cg l [Hsrc Hmok] _ IH]; intros first changes pk Hok Hopen H; cbn [send_source] in H.
  { injection H as <- <- <-. by apply sends_nil. }
  destruct (mask_get nbr (mask cg)) eqn:Em.
  { apply sends_skip; [done|]. by eapply IH. }
  apply bind_Ret in H as (s & Hs & H). apply or_else_Ret in Hs; [|done].
  pose proof (send_update_ok src first pk s Hok) as Hu.
  assert (Hsa : source_addr s = src) by (rewrite <- Hsrc; by apply (Hkeyed _ _ _ Hs)).
  specialize (Hu Hsa Hopen). destruct (send_update _ _ _ _ _ _) as [pk1|pk1].
  - injection H as <- <- <-. destruct Hu as (? & ? & ?). by apply sends_stop.
  - destruct Hu as (Hok1 & Hop1 & Hc1). apply bind_Ret in H as (m & Hm & H). apply or_else_Ret in Hm; [|done].
    eapply sends_cons; [done|by exists s|exact Hc1|].
    unfold mark_in, marked_mask. rewrite Hm. cbn [default]. eapply IH; [done| |exact H]. done.
Qed.

Definition changed_ok (h : gmap Z (list Changed_State)) : Prop :=
  forall src bucket, h !! src = Some bucket ->
    Forall (fun cg => cg_src cg = src /\ mask_ok (mask cg)) bucket /\ NoDup (cg_dst <$> bucket).

Lemma send_sources_ok srcs changes pk changes' pk' stop :
  pk_ok p pk -> Forall (fun '(src, bucket) => Forall (fun cg => cg_src cg = src /\ mask_ok (mask cg)) bucket) srcs ->
  send_sources now p linkid nbr states srcs changes pk = Ret (changes', pk', stop) ->
  sends (srcs ≫= fun '(_, b) => keyed_iter b) changes pk changes' pk' stop.
Proof.
  intros Hok Hsrcs. revert changes pk Hok. induction Hsrcs as [|[src b] srcs Hb _ IH]; intros changes pk Hok H;
    cbn [send_sources] in H.
  { injection H as <- <- <-. by apply sends_nil. }
  apply bind_Ret in H as ([[ch1 pk1] stop1] & H1 & H).
  assert (Hsd : sends (keyed_iter b) changes pk ch1 pk1 stop1).
  { eapply (send_source_ok src (keyed_iter b) true); [exact Hok|intros; discriminate| |exact H1]. by rewrite keyed_iter_perm. }
  rewrite bind_cons. destruct stop1.
  - injection H as <- <- <-. by apply sends_app_stop.
  - eapply sends_app; [exact Hsd|]. apply IH; [|done]. by destruct Hsd as (? & ? & ? & _ & _ & ? & _).
Qed.

Lemma find_changed_elem bucket b cg :
  NoDup (cg_dst <$> bucket) -> (find_changed b bucket = Some cg <-> cg ∈ bucket /\ cg_dst cg = b).
Proof.
  induction bucket as [|x bucket IH]; intros Hnd; cbn [find_changed].
  { split; [done|]. intros [H _]. by apply elem_of_nil in H. }
  rewrite fmap_cons, NoDup_cons in Hnd. destruct Hnd as [Hx Hnd]. rewrite elem_of_cons.
  destruct (Z.eqb_spec (cg_dst x) b) as [Hb|Hb].
  - split; [intros [= ->]; by split; [left|]|]. intros [[->|Hin] Hcb]; [done|].
    exfalso. apply Hx. rewrite Hb, <- Hcb. apply list_elem_of_fmap. by exists cg.
  - rewrite IH by done. split; [by intros [? ?]; split; [right|]|]. intros [[->|Hin] Hcb]; [done|done].
Qed.

Definition entries (h : gmap Z (list Changed_State)) : list Changed_State :=
  hash_iter h ≫= fun '(_, b) => keyed_iter b.

Lemma entries_perm h : entries h ≡ₚ (map_to_list h ≫= snd).
Proof.
  unfold entries. rewrite (hash_iter_perm h). induction (map_to_list h) as [|[a b] l IH]; [done|].
  rewrite !bind_cons, IH. by rewrite keyed_iter_perm.
Qed.

Lemma entries_elem h cg :
  changed_ok h -> (cg ∈ entries h <-> Find_Changed_State h (cg_src cg) (cg_dst cg) = Some cg).
Proof.
  intros Hok. rewrite entries_perm, list_elem_of_bind. unfold Find_Changed_State. split.
  - intros ([src bucket] & Hin & Hb). apply elem_of_map_to_list in Hb. destruct (Hok _ _ Hb) as [Hf Hnd].
    simpl in Hin. rewrite Forall_forall in Hf. destruct (Hf cg Hin) as [Hs _]. rewrite Hs, Hb. cbn [mbind option_bind].
    by apply find_changed_elem.
  - destruct (h !! cg_src cg) as [bucket|] eqn:E; [|done]. cbn [mbind option_bind]. intros H.
    destruct (Hok _ _ E) as [_ Hnd]. apply find_changed_elem in H as [Hin _]; [|done].
    exists (cg_src cg, bucket). split; [done|]. by apply elem_of_map_to_list.
Qed.

Lemma entries_nodup h : changed_ok h -> NoDup (cg_key <$> entries h).
Proof.
  intros Hok. rewrite entries_perm.
  assert (Hl : forall src b, (src, b) ∈ map_to_list h -> h !! src = Some b) by (intros; by apply elem_of_map_to_list).
  pose proof (NoDup_fst_map_to_list h) as Hnd. revert Hl Hnd.
  induction (map_to_list h) as [|[a b] l IH]; intros Hl Hnd; [apply NoDup_nil_2|].
  rewrite bind_cons, fmap_app. cbn [fmap list_fmap fst snd] in Hnd. apply NoDup_cons in Hnd as [Ha Hnd].
  destruct (Hok a b (Hl a b (list_elem_of_here _ _))) as [Hf Hndb]. apply NoDup_app. split_and!.
  - simpl. assert (Heq : cg_key <$> b = (fun x => (a, x)) <$> (cg_dst <$> b)).
    { rewrite <- list_fmap_compose. apply list_fmap_ext. intros i x Hx. unfold cg_key. simpl.
      rewrite Forall_lookup in Hf. by destruct (Hf i x Hx) as [-> _]. }
    rewrite Heq. apply NoDup_fmap_2; [intros ? ? [=]; done|done].
  - intros k (cg & -> & Hcg)%list_elem_of_fmap (cg' & Hk & Hcg')%list_elem_of_fmap.
    apply list_elem_of_bind in Hcg' as ([a' b'] & Hin & Hab). apply Ha. simpl in Hcg, Hin.
    rewrite Forall_forall in Hf. destruct (Hf cg Hcg) as [Hs _].
    destruct (Hok a' b' (Hl a' b' (list_elem_of_further _ _ _ Hab))) as [Hf' _]. rewrite Forall_forall in Hf'.
    destruct (Hf' cg' Hin) as [Hs' _]. unfold cg_key in Hk. injection Hk as Hk _.
    apply list_elem_of_fmap. exists (a', b'). split; [simpl; congruence|done].
  - apply IH; [|done]. intros src b0 Hin. apply Hl. by right.
Qed.

Lemma mark_fold_other marked h a b :
  (a, b) ∉ cg_key <$> marked -> Find_Changed_State (foldl mark_in h marked) a b = Find_Changed_State h a b.
Proof.
  revert h. induction marked as [|cg marked IH]; intros h Hn; [done|]. rewrite fmap_cons, not_elem_of_cons in Hn.
  destruct Hn as [Hne Hn]. cbn [foldl]. rewrite IH by done. unfold mark_in. rewrite find_put_changed, decide_False; [done|].
  intros [-> ->]. done.
Qed.

Lemma mark_fold_marked marked h cg :
  NoDup (cg_key <$> marked) -> cg ∈ marked ->
  exists cg', Find_Changed_State (foldl mark_in h marked) (cg_src cg) (cg_dst cg) = Some cg' /\ mask cg' = marked_mask cg.
Proof.
  revert h. induction marked as [|x marked IH]; intros h Hnd Hin; [by apply elem_of_nil in Hin|].
  rewrite fmap_cons, NoDup_cons in Hnd. destruct Hnd as [Hx Hnd]. cbn [foldl].
  apply elem_of_cons in Hin as [->|Hin]; [|by apply IH].
  rewrite mark_fold_other by done. unfold mark_in. rewrite find_put_changed, decide_True by done. by eexists.
Qed.

Lemma changed_ok_entry h a b cg :
  changed_ok h -> Find_Changed_State h a b = Some cg -> cg_key cg = (a, b) /\ mask_ok (mask cg).
Proof.
  intros Hok Hcg. unfold Find_Changed_State in Hcg. destruct (h !! a) as [bucket|] eqn:Eb; [|done]. cbn in Hcg.
  destruct (Hok a bucket Eb) as [Hfa Hndb]. apply find_changed_elem in Hcg as [Hin Hdst]; [|done].
  rewrite Forall_forall in Hfa. destruct (Hfa cg Hin) as [Hsrc Hmo]. unfold cg_key. by rewrite Hsrc, Hdst.
Qed.

(** What marking a prefix of the pending entries does to each entry. *)
Lemma marked_entries h marked rest :
  changed_ok h -> filter pending (entries h) = marked ++ rest ->
  forall a b cg, Find_Changed_State h a b = Some cg ->
    exists cg', Find_Changed_State (foldl mark_in h marked) a b = Some cg' /\
      forall j, 0 <= j < MAX_NEIGHBORS ->
        mask_get j (mask cg') = mask_get j (mask cg) || (j =? nbr) && bool_decide ((a, b) ∈ cg_key <$> marked).
Proof.
  intros Hok Hf a b cg Hcg. destruct (changed_ok_entry _ _ _ _ Hok Hcg) as [Hkey Hmo].
  assert (Hnd : NoDup (cg_key <$> marked)).
  { assert (Hn : NoDup (cg_key <$> filter pending (entries h))).
    { eapply sublist_NoDup; [by apply entries_nodup|]. apply fmap_sublist, sublist_filter. }
    rewrite Hf, fmap_app in Hn. by apply NoDup_app in Hn as (? & _). }
  destruct (decide ((a, b) ∈ cg_key <$> marked)) as [Hin|Hout].
  2:{ rewrite bool_decide_eq_false_2 by done. rewrite mark_fold_other by done. exists cg. split; [done|].
      intros j _. by rewrite andb_false_r, orb_false_r. }
  rewrite bool_decide_eq_true_2 by done. apply list_elem_of_fmap in Hin as (cg0 & Hk0 & Hcg0).
  assert (Hen : cg0 ∈ entries h).
  { assert (Hin : cg0 ∈ filter pending (entries h)) by (rewrite Hf; apply elem_of_app; by left).
    apply list_elem_of_filter in Hin. tauto. }
  apply entries_elem in Hen; [|done].
  assert (Hsame : cg0 = cg) by (unfold cg_key in Hk0; injection Hk0 as -> ->; congruence). subst cg0.
  destruct (mark_fold_marked marked h cg Hnd Hcg0) as (cg' & Hc' & Hmask).
  unfold cg_key in Hk0. injection Hk0 as -> ->. exists cg'. split; [done|]. rewrite Hmask. unfold marked_mask.
  destruct (mask_set nbr (mask cg)) as [m|] eqn:Em.
  - apply mask_set_spec in Em as (_ & _ & Hget); [|done]. cbn [default].
    intros j Hj. rewrite Hget, andb_true_r by done. apply orb_comm.
  - unfold mask_set in Em. rewrite (proj2 (Z.leb_le _ _)), (proj2 (Z.ltb_lt _ _)) in Em by lia. done.
Qed.
End Updates.

(** ** Net_Send_State_Updates as a whole *)
Section UpdatesSpec.
Context `{HO : HashOrder} `{KO : KeyedOrder}.

(** The keys of the states a list of messages carries. *)
Definition carried (ms : list message) : list (Z * Z) :=
  (fun x => (x.1, c_dest x.2)) <$> contents (ms ≫= m_body).

Lemma announced_key now p s : (fun x => (x.1, c_dest x.2)) (announced now p s) = (source_addr s, dest_addr s).
Proof. done. Qed.

Lemma sent_for_keys now p (states : chain (extra_of p)) marked cs :
  keyed states -> Forall2 (sent_for now p states) marked cs ->
  (fun x => (x.1, c_dest x.2)) <$> cs = cg_key <$> marked.
Proof.
  intros Hk. induction 1 as [|cg x marked cs (s & Hs & ->) _ IH]; [done|].
  rewrite !fmap_cons, IH. f_equal. rewrite announced_key. by destruct (Hk _ _ _ Hs) as [-> ->].
Qed.

Lemma net_send_updates_spec now p nbr d r d' :
  0 <= nbr < MAX_NEIGHBORS -> keyed (All_States p d) -> changed_ok (Changed_States p d) ->
  Net_Send_State_Updates now p nbr d = Ret (r, d') ->
  exists marked rest ms,
    filter (pending nbr) (entries (Changed_States p d)) = marked ++ rest /\
    Changed_States p d' = foldl (mark_in nbr) (Changed_States p d) marked /\
    sent d' = sent d ++ ms /\ Forall (msg_ok p) ms /\
    Forall2 (sent_for now p (All_States p d)) marked (contents (ms ≫= m_body)) /\
    (r = 1 /\ rest = [] \/ r = -1 /\ rest <> [] /\ (5 < length ms)%nat) /\ All_States p d' = All_States p d.
Proof.
  intros Hnbr Hk Hok H. unfold Net_Send_State_Updates in H. apply bind_Ret in H as (linkid & _ & H).
  apply bind_Ret in H as ([[ch pk] stop] & Hs & H).
  apply (send_sources_ok now p linkid nbr (All_States p d) Hk) in Hs as (marked & rest & cs & Hf & -> & Hpk & Hc & Hsf & Hst & Hem).
  2:{ apply empty_packer_ok. }
  2:{ rewrite (hash_iter_perm (Changed_States p d)). apply Forall_forall. intros [src b] Hin.
      apply elem_of_map_to_list in Hin. by apply (Hok src b). }
  change (pk_contents (mk_packer [] [] 0 0)) with ([] : list (Z * State_Cell)) in Hc. simpl in Hc. subst cs.
  destruct stop.
  - injection H as <- <-. exists marked, rest, (pk_out pk).
    assert (Hct : contents (pk_out pk ≫= m_body) = pk_contents pk) by (unfold pk_contents; by rewrite (proj1 (Hem eq_refl)), app_nil_r).
    split_and!; try done; [by destruct p|by destruct p|apply Hpk|by rewrite Hct| |by destruct p].
    right. destruct (Hem eq_refl) as (_ & Hne & Hcnt). split_and!; [done|done|]. rewrite (pko_cnt p pk Hpk) in Hcnt. lia.
  - injection H as <- <-. destruct (final_flush_ok p linkid pk Hpk) as [Hm Hct].
    exists marked, rest, (final_flush p linkid pk).
    split_and!; try done; [by destruct p|by destruct p|by rewrite Hct|left; split; [done|by apply Hst]|by destruct p].
Qed.
End UpdatesSpec.
