(* ===== verification/DaemonInv.v ===== *)
(** * DaemonInv: the invariant that links the tables of nodes and edges

    Every edge lies between known nodes, tables are keyed consistently and the
    ordered list of nodes agrees with the table of nodes; every handler keeps
    this, so the route computation always finds what it looks up. *)
From stdpp Require Import base list gmap numbers option sets sorting.
From Stdlib Require Import ZArith Lia.
From S2P Require Import Prelude HashMap Events NetTypes Route RouteProof Daemon StateFlood FloodProof FloodSend.
#[local] Open Scope Z_scope.

Record daemon_ok (d : daemon) : Prop := {
  dk_ids : forall x, x ∈ All_Nodes_by_ID d <-> is_Some (Get_Node d x);
  dk_sorted : StronglySorted Z.lt (All_Nodes_by_ID d);
  dk_edges : forall a b e, Find_State (All_Edges d) a b = Some e ->
    source_addr e = a /\ dest_addr e = b /\ is_Some (Get_Node d a) /\ is_Some (Get_Node d b) /\ in_s 16 (value e);
  dk_groups : keyed (All_Groups_by_Node d);
  dk_names : forall a g, is_Some (Find_State (All_Groups_by_Node d) a g) <-> a ∈ default ∅ (All_Groups_by_Name d !! g);
  dk_my : is_Some (Get_Node d (My_Address d)) }.

Lemma insert_id_elem x y l : y ∈ insert_id x l <-> y = x \/ y ∈ l.
Proof.
  induction l as [|z l IH]; cbn [insert_id]; [rewrite list_elem_of_singleton; split; [by left|intros [->|H]; [done|by apply elem_of_nil in H]]|].
  destruct (z <? x); rewrite !elem_of_cons; [rewrite IH|]; tauto.
Qed.

Lemma insert_id_sorted x l :
  x ∉ l -> StronglySorted Z.lt l -> StronglySorted Z.lt (insert_id x l).
Proof.
  induction 2 as [|z l Hs IH Hz]; cbn [insert_id]; [repeat constructor|].
  rewrite not_elem_of_cons in H. destruct H as [Hne Hn].
  destruct (Z.ltb_spec z x).
  - constructor; [by apply IH|]. apply Forall_forall. intros y [->|Hy]%insert_id_elem; [lia|].
    rewrite Forall_forall in Hz. by apply Hz.
  - constructor; [by constructor|]. constructor; [lia|]. eapply Forall_impl; [exact Hz|]. cbn beta. lia.
Qed.

Lemma sorted_nodup l : StronglySorted Z.lt l -> NoDup l.
Proof.
  induction 1 as [|x l _ IH Hx]; [apply NoDup_nil_2|]. apply NoDup_cons. split; [|done].
  intros Hin. rewrite Forall_forall in Hx. specialize (Hx x Hin). lia.
Qed.

(** Updating one state of a protocol. *)
Lemma ok_put p d d' a b s' :
  daemon_ok d -> keeps d d' -> All_States p d' = put_state (All_States p d) a b s' ->
  All_States (other p) d' = All_States (other p) d ->
  source_addr s' = a -> dest_addr s' = b ->
  (p = EdgeP -> is_Some (Get_Node d a) /\ is_Some (Get_Node d b) /\ in_s 16 (value s')) ->
  (p = GroupsP -> is_Some (Find_State (All_Groups_by_Node d) a b)) -> daemon_ok d'.
Proof.
  intros [] (HM & HN & HI & _ & HGN) HA HO Hs Hd Hp Hg. unfold Get_Node in *. split; rewrite ?HI; unfold Get_Node; rewrite ?HN, ?HM; try done.
  - destruct p; simpl in HA, HO.
    + intros x y e. rewrite HA, find_put. destruct (decide _) as [[-> ->]|]; [|by apply dk_edges0].
      intros [= <-]. destruct (Hp eq_refl) as (H1 & H2 & H3). done.
    + rewrite HO. exact dk_edges0.
  - destruct p; simpl in HA, HO; [by rewrite HO|]. intros x y g. rewrite HA, find_put.
    destruct (decide _) as [[-> ->]|]; [|apply dk_groups0]. by intros [= <-].
  - intros x g. rewrite HGN, <- dk_names0. destruct p; simpl in HA, HO; [by rewrite HO|]. rewrite HA, find_put.
    destruct (decide _) as [[-> ->]|]; [|done]. split; [intros _; by apply Hg|by eexists].
Qed.

(** Updates that do not concern nodes and states. *)
Lemma ok_frame d d' :
  daemon_ok d -> keeps d d' -> (forall p, All_States p d' = All_States p d) -> daemon_ok d'.
Proof.
  intros [] (HM & HN & HI & _ & HGN) HA. pose proof (HA EdgeP) as HE. pose proof (HA GroupsP) as HG. simpl in HE, HG.
  unfold Get_Node in *. split; rewrite ?HI, ?HE, ?HG, ?HGN; unfold Get_Node; rewrite ?HN, ?HM; done.
Qed.

Lemma ok_create_node id d d' : daemon_ok d -> Create_Node id d = Ret d' -> daemon_ok d'.
Proof.
  intros [] H. unfold Create_Node in H. destruct (Get_Node d id) eqn:E; [done|]. injection H as <-.
  assert (Hg : forall x, is_Some (<[id := mk_node id false (-1) (-1)]> (All_Nodes d) !! x) <-> x = id \/ is_Some (Get_Node d x)).
  { intros x. unfold Get_Node. rewrite lookup_insert_is_Some. destruct (decide (id = x)) as [->|Hne]; [split; intros; by left|].
    split; [intros [?|[_ ?]]; [done|by right]|intros [->|?]; [done|by right]]. }
  split; unfold Get_Node; simpl.
  - intros x. rewrite insert_id_elem, Hg, dk_ids0. done.
  - apply insert_id_sorted; [|done]. rewrite dk_ids0, E. by intros [? ?].
  - intros a b e He. destruct (dk_edges0 a b e He) as (H1 & H2 & H3 & H4 & H5). rewrite !Hg. tauto.
  - done.
  - done.
  - rewrite Hg. by right.
Qed.

Lemma ok_ensure_node id d d' : daemon_ok d -> ensure_node id d = Ret d' -> daemon_ok d'.
Proof.
  intros Hok. unfold ensure_node. destruct (Get_Node d id); [by intros [= <-]|by apply ok_create_node].
Qed.

Lemma ok_create_edge now src dst c bc ix d d' :
  daemon_ok d -> in_s 16 c -> Create_Edge now src dst c bc ix d = Ret d' -> daemon_ok d'.
Proof.
  intros [] Hc H. apply create_edge_spec in H as (_ & Hsn & Hdn & e & HE & Hs & Hd & Hv & HG & _ & HM & _ & _ & Hnodes & HI & HGN).
  split; rewrite ?HI, ?HG, ?HM, ?HGN; try done.
  - intros x. by rewrite Hnodes.
  - intros a b x. rewrite HE, find_put, !Hnodes. destruct (decide _) as [[-> ->]|]; [|by apply dk_edges0].
    intros [= <-]. by rewrite Hv.
  - by rewrite Hnodes.
Qed.

Lemma ok_ensure_edge now src dst d d' : daemon_ok d -> ensure_edge now src dst d = Ret d' -> daemon_ok d'.
Proof.
  intros Hok. unfold ensure_edge. destruct (Get_Edge d src dst); [by intros [= <-]|].
  apply ok_create_edge; [done|]. unfold in_s. simpl. lia.
Qed.

Lemma ok_create_group now src g d d' : daemon_ok d -> ensure_group now src g d = Ret d' -> daemon_ok d'.
Proof.
  intros []. unfold ensure_group, Create_Group. destruct (Find_State (All_Groups_by_Node d) src g) eqn:E; [by intros [= <-]|].
  assert (Hnames : forall s a b, is_Some (Find_State (put_state (All_Groups_by_Node d) src g s) a b) <->
    a ∈ default ∅ (<[g := {[src]} ∪ default ∅ (All_Groups_by_Name d !! g)]> (All_Groups_by_Name d) !! b)).
  { intros s a b. rewrite find_put. destruct (decide (b = g)) as [->|Hb].
    - rewrite lookup_insert_eq. cbn [default from_option id]. rewrite elem_of_union, elem_of_singleton, <- dk_names0.
      destruct (decide _) as [[-> _]|Hn]; [split; [by left|by eexists]|]. split; [by right|]. intros [->|?]; [by destruct Hn|done].
    - rewrite lookup_insert_ne by done. rewrite decide_False by tauto. apply dk_names0. }
  destruct (My_Address d =? src); intros [= <-]; (split; try done; [|intros a b; apply Hnames]);
    (intros a b s; cbn; rewrite find_put; destruct (decide _) as [[-> ->]|]; [by intros [= <-]|apply dk_groups0]).
Qed.

Lemma ok_add_changed now p sender src dst d d' :
  daemon_ok d -> Add_to_changed_states now p sender src dst d = Ret d' -> daemon_ok d'.
Proof.
  intros Hok H. apply add_changed_spec in H as (s & nd & m & Hs & HA & HO & HK & _).
  destruct p.
  - pose proof (dk_edges d Hok src dst s Hs) as (H1 & H2 & H3 & H4 & H5).
    eapply (ok_put EdgeP); [done|done|exact HA|exact HO|done|done|done|done].
  - pose proof (dk_groups d Hok src dst s Hs) as (H1 & H2).
    eapply (ok_put GroupsP); [done|done|exact HA|exact HO|done|done|done|]. intros _. by exists s.
Qed.

Lemma ok_find_edge d a b e : daemon_ok d -> Find_State (All_Edges d) a b = Some e ->
  source_addr e = a /\ dest_addr e = b /\ is_Some (Get_Node d a) /\ is_Some (Get_Node d b) /\ in_s 16 (value e).
Proof. intros []. by apply dk_edges0. Qed.

Lemma ok_put_edge d a b e s' :
  daemon_ok d -> Find_State (All_Edges d) a b = Some e ->
  source_addr s' = source_addr e -> dest_addr s' = dest_addr e -> in_s 16 (value s') ->
  daemon_ok (with_edges (put_state (All_Edges d) a b s') d).
Proof.
  intros Hok He Hs Hd Hv. destruct (ok_find_edge d a b e Hok He) as (H1 & H2 & H3 & H4 & H5).
  apply (ok_put EdgeP d _ a b s'); [done|done|done|done|exact (eq_trans Hs H1)|exact (eq_trans Hd H2)|done|done].
Qed.

Lemma ok_put_group d a b g s' :
  daemon_ok d -> Find_State (All_Groups_by_Node d) a b = Some g ->
  source_addr s' = source_addr g -> dest_addr s' = dest_addr g ->
  daemon_ok (with_groups (put_state (All_Groups_by_Node d) a b s') d).
Proof.
  intros Hok Hg Hs Hd. destruct (dk_groups d Hok a b g Hg) as [H1 H2].
  apply (ok_put GroupsP d _ a b s'); [done|done|done|done|exact (eq_trans Hs H1)|exact (eq_trans Hd H2)|done|].
  intros _. by exists g.
Qed.

Lemma ok_bump {X} (s : State_Data X) :
  source_addr (bump_timestamp s) = source_addr s /\ dest_addr (bump_timestamp s) = dest_addr s /\
  value (bump_timestamp s) = value s.
Proof. pose proof (bump_frame s). tauto. Qed.

Lemma ok_edge_cell now source cell d d' prop :
  daemon_ok d -> in_s 16 (c_value cell) -> Edge_Process_state_cell now source cell d = Ret (d', prop) -> daemon_ok d'.
Proof.
  intros Hok Hv H. unfold Edge_Process_state_cell in H.
  apply bind_Ret in H as (d1 & H1 & H). apply bind_Ret in H as (d2 & H2 & H). apply bind_Ret in H as (d3 & H3 & H).
  apply ok_ensure_node in H1; [|done]. apply ok_ensure_node in H2; [|done]. apply ok_ensure_edge in H3; [|done].
  set (d4 := if 0 <? _ then with_lts _ d3 else d3) in H.
  assert (H4 : daemon_ok d4) by (subst d4; destruct (0 <? _); [eapply ok_frame; [exact H3|done|by intros []]|done]).
  clearbody d4. apply bind_Ret in H as (e & He & H). apply or_else_Ret in He; [|done]. unfold Get_Edge in He.
  destruct (ok_find_edge _ _ _ _ H4 He) as (_ & _ & _ & _ & Hev).
  destruct (source =? My_Address d4); cbn [negb] in H.
  - apply bind_Ret in H as (d5 & H5 & H). injection H as <- <-. eapply ok_add_changed; [|exact H5].
    eapply ok_frame; [eapply ok_put_edge|done|by intros []]; [exact H4|exact He| | |].
    + apply (ok_bump (set_timestamp (c_sec cell) (c_usec cell) e)).
    + apply (ok_bump (set_timestamp (c_sec cell) (c_usec cell) e)).
    + cbn. pose proof (ok_bump (set_timestamp (c_sec cell) (c_usec cell) e)) as (_ & _ & Hb). by rewrite Hb.
  - injection H as <- <-.
    eapply (ok_frame (with_edges (put_state (All_Edges d4) source (c_dest cell)
      (set_value (c_value cell) (c_age cell)
         (mk_edge_extra (base_cost (extra e)) (index (extra e)) (c_lts cell) (leg (extra e)))
         (set_timestamp (c_sec cell) (c_usec cell) e))) d4)); [|done|by intros []].
    by eapply ok_put_edge.
Qed.

Lemma ok_group_cell now source cell d d' prop :
  daemon_ok d -> Groups_Process_state_cell now source cell d = Ret (d', prop) -> daemon_ok d'.
Proof.
  intros Hok H. unfold Groups_Process_state_cell in H. apply bind_Ret in H as (d1 & H1 & H).
  apply ok_create_group in H1; [|done]. apply bind_Ret in H as (g & Hg & H). apply or_else_Ret in Hg; [|done].
  destruct (source =? My_Address d1); cbn [negb] in H.
  - apply bind_Ret in H as (d5 & H5 & H). injection H as <- <-. eapply ok_add_changed; [|exact H5].
    pose proof (ok_bump (set_timestamp (c_sec cell) (c_usec cell) g)) as (Hb1 & Hb2 & _).
    eapply ok_put_group; [done|exact Hg|exact Hb1|exact Hb2].
  - injection H as <- <-. by eapply ok_put_group.
Qed.

Lemma ok_with_changed p h d : daemon_ok d -> daemon_ok (with_changed p h d).
Proof. intros Hok. eapply ok_frame; [exact Hok|apply keeps_with_changed|]. intros q. apply with_changed_states. Qed.

Lemma ok_process_cell now p sender source d f cell d' f' :
  daemon_ok d -> in_s 16 (c_value cell) -> process_cell now p sender source (d, f) cell = Ret (d', f') -> daemon_ok d'.
Proof.
  intros Hok Hv H. unfold process_cell in H.
  destruct (match Find_State _ _ _ with None => true | Some s => _ end).
  - apply bind_Ret in H as ([d1 prop] & H1 & H).
    assert (Hok1 : daemon_ok d1) by (destruct p; [by eapply ok_edge_cell|by eapply ok_group_cell]).
    destruct prop; [|by injection H as <- <-]. apply bind_Ret in H as (d2 & H2 & H). injection H as <- <-.
    by eapply ok_add_changed.
  - destruct (Find_State _ _ _) as [s|]; [|by injection H as <- <-].
    destruct (same_time s cell); [|by injection H as <- <-].
    destruct (Find_Changed_State _ _ _); [|by injection H as <- <-].
    apply bind_Ret in H as (nd & _ & H). apply bind_Ret in H as (m & _ & H). injection H as <- <-.
    by apply ok_with_changed.
Qed.

Definition small_cells (body : list State_Packet) : Prop :=
  Forall (fun pkt => Forall (fun c => in_s 16 (c_value c)) (sp_cells pkt)) body.

Lemma ok_schedule now d : daemon_ok d -> daemon_ok (Schedule_Routes now d).
Proof.
  intros Hok. unfold Schedule_Routes. destruct (Schedule_Set_Route d); [done|]. eapply ok_frame; [exact Hok|done|by intros []].
Qed.

Lemma ok_process_body now p sender body d d' :
  daemon_ok d -> small_cells body -> Process_state_body now p sender body d = Ret d' -> daemon_ok d'.
Proof.
  intros Hok Hs H. unfold Process_state_body in H. apply bind_Ret in H as ([d1 f] & H1 & H). injection H as <-.
  assert (Hok1 : daemon_ok d1).
  { apply (foldM_inv (fun st => daemon_ok st.1)) in H1; [done| |done].
    intros [d2 f2] pkt [d3 f3] Hin Hok2 H2. unfold process_packet in H2.
    apply (foldM_inv (fun st => daemon_ok st.1)) in H2; [done| |done].
    intros [d4 f4] c [d5 f5] Hc Hok4 H4. eapply ok_process_cell; [exact Hok4| |exact H4].
    unfold small_cells in Hs. rewrite Forall_forall in Hs. specialize (Hs pkt Hin). rewrite Forall_forall in Hs. by apply Hs. }
  destruct (f && _); [by apply ok_schedule|done].
Qed.

Section Handlers.
Context `{HO : HashOrder} `{KO : KeyedOrder}.

Lemma send_updates_frame now p nbr d r d' :
  Net_Send_State_Updates now p nbr d = Ret (r, d') -> keeps d d' /\ forall q, All_States q d' = All_States q d.
Proof.
  intros H. unfold Net_Send_State_Updates in H. apply bind_Ret in H as (linkid & _ & H).
  apply bind_Ret in H as ([[ch pk] stop] & _ & H).
  destruct stop; injection H as <- <-; (split; [by destruct p|intros q; by destruct p, q]).
Qed.

Lemma send_neighbors_frame now p nbrs flag d flag' d' :
  send_to_neighbors now p nbrs flag d = Ret (flag', d') -> keeps d d' /\ forall q, All_States q d' = All_States q d.
Proof.
  revert flag d. induction nbrs as [|i nbrs IH]; intros flag d H; cbn [send_to_neighbors] in H; [by injection H as <- <-|].
  destruct (mjoin (Neighbor_Nodes d !! Z.to_nat i)) as [node|]; [|by eapply IH].
  apply bind_Ret in H as (nd & _ & H). apply bind_Ret in H as (c & _ & H). destruct c; [|by eapply IH].
  apply bind_Ret in H as ([r d1] & H1 & H). apply send_updates_frame in H1 as [HK HA].
  apply IH in H as [HK' HA']. split; [by etrans|]. intros q. by rewrite HA', HA.
Qed.

Lemma send_all_updates_frame now p d d' :
  Send_State_Updates now p d = Ret d' -> keeps d d' /\ forall q, All_States q d' = All_States q d.
Proof.
  intros H. unfold Send_State_Updates in H. apply bind_Ret in H as ([flag d1] & H1 & H).
  apply send_neighbors_frame in H1 as [HK HA]. injection H as <-. destruct flag.
  - split; [done|]. intros []; apply HA.
  - split; [etrans; [exact HK|apply keeps_with_changed]|]. intros q. by rewrite with_changed_states.
Qed.

Lemma ok_send_updates now p d d' : daemon_ok d -> Send_State_Updates now p d = Ret d' -> daemon_ok d'.
Proof. intros Hok H. apply send_all_updates_frame in H as [HK HA]. by eapply ok_frame. Qed.

Lemma ok_set_routes now d d' : daemon_ok d -> Set_Routes now d = Ret d' -> daemon_ok d'.
Proof.
  intros Hok H. unfold Set_Routes in H. apply bind_Ret in H as (d1 & H1 & H). apply bind_Ret in H as (rr & _ & H).
  injection H as <-. apply ok_send_updates in H1; [by eapply ok_frame; [exact H1|done|intros []]|].
  eapply ok_frame; [exact Hok|done|by intros []].
Qed.

Lemma ok_set_group g s0 s d :
  daemon_ok d -> Find_State (All_Groups_by_Node d) (My_Address d) g = Some s0 ->
  source_addr s = source_addr s0 -> dest_addr s = dest_addr s0 -> daemon_ok (set_group g s d).
Proof. intros Hok Hg Hs Hd. by eapply ok_put_group. Qed.

Lemma ok_resend_loop now p dsts cnt d b d' :
  daemon_ok d -> resend_loop now p dsts cnt d = Ret (b, d') -> daemon_ok d'.
Proof.
  revert cnt d. induction dsts as [|dst dsts IH]; intros cnt d Hok H; cbn [resend_loop] in H; [by injection H as <- <-|].
  apply bind_Ret in H as (s & Hs & H). apply or_else_Ret in Hs; [|done].
  destruct (_ && _); [|by eapply IH]. apply bind_Ret in H as (d1 & H1 & H).
  assert (Hok1 : daemon_ok d1).
  { eapply ok_add_changed; [|exact H1]. destruct p.
    - pose proof (ok_bump (X := Edge_Extra) s) as (Hb1 & Hb2 & Hb3). destruct (ok_find_edge _ _ _ _ Hok Hs) as (_ & _ & _ & _ & Hv).
      eapply ok_put_edge; [done|exact Hs|exact Hb1|exact Hb2|]. pose proof Hv as Hv'. by rewrite <- Hb3 in Hv'.
    - pose proof (ok_bump (X := gset Z) s) as (Hb1 & Hb2 & _). eapply ok_put_group; [done|exact Hs|exact Hb1|exact Hb2]. }
  destruct (500 <? cnt + 1); [by injection H as <- <-|by eapply IH].
Qed.

Lemma ok_resend now p d d' : daemon_ok d -> Resend_States now p d = Ret d' -> daemon_ok d'.
Proof.
  intros Hok H. unfold Resend_States in H. destruct (All_States p d !! My_Address d) as [states|].
  - apply bind_Ret in H as ([b d1] & H1 & H). injection H as <-. apply ok_resend_loop in H1; [|done].
    eapply ok_frame; [exact H1|done|by intros []].
  - injection H as <-. eapply ok_frame; [exact Hok|done|by intros []].
Qed.

Lemma ok_join now g ses d r ses' d' :
  daemon_ok d -> Join_Group now g ses d = Ret (r, ses', d') -> daemon_ok d'.
Proof.
  intros Hok H. unfold Join_Group in H. destruct (negb _ && negb _); [by injection H as <- <- <-|].
  destruct (negb (udp_ses ses)); [by injection H as <- <- <-|]. destruct (decide _); [by injection H as <- <- <-|].
  apply bind_Ret in H as (d1 & H1 & H). apply ok_create_group in H1; [|done].
  apply bind_Ret in H as (s & Hs & H). apply or_else_Ret in Hs; [|done].
  apply bind_Ret in H as ([r1 d2] & H2 & H).
  assert (Hok2 : daemon_ok d2).
  { destruct (_ =? 0); [|by injection H2 as <- <-]. apply bind_Ret in H2 as (d3 & H3 & H2). injection H2 as <- <-.
    eapply ok_add_changed; [|exact H3].
    pose proof (ok_bump (set_value (Z.lor (value s) ACTIVE_GROUP) (age s) (extra s) s)) as (Hb1 & Hb2 & _).
    by eapply ok_set_group; [done|exact Hs|exact Hb1|exact Hb2]. }
  apply bind_Ret in H as (s2 & Hs2 & H). apply or_else_Ret in Hs2; [|done]. injection H as <- <- <-.
  by eapply ok_set_group; [done|exact Hs2| |].
Qed.

Lemma ok_leave now g ses d r ses' d' :
  daemon_ok d -> Leave_Group now g ses d = Ret (r, ses', d') -> daemon_ok d'.
Proof.
  intros Hok H. unfold Leave_Group in H. destruct (negb _ && negb _); [by injection H as <- <- <-|].
  destruct (decide (g ∈ joined_groups ses)); [|by injection H as <- <- <-].
  apply bind_Ret in H as (s & Hs & H). apply or_else_Ret in Hs; [|done].
  cbn [sess_id] in H. destruct (decide (sess_id ses ∈ extra s)); [|done].
  destruct (decide _).
  - apply bind_Ret in H as (d3 & H3 & H). injection H as <- <- <-. eapply ok_add_changed; [|exact H3].
    pose proof (ok_bump (set_value (Z.ldiff (value s) ACTIVE_GROUP) (age s) (extra s ∖ {[sess_id ses]})
      (set_value (value s) (age s) (extra s ∖ {[sess_id ses]}) s))) as (Hb1 & Hb2 & _).
    eapply ok_set_group; [done|exact Hs|exact Hb1|exact Hb2].
  - injection H as <- <- <-. by eapply ok_set_group; [done|exact Hs| |].
Qed.

(** Forgetting states. *)
Lemma ok_fewer p h d :
  daemon_ok d -> (forall a b s, Find_State h a b = Some s -> Find_State (All_States p d) a b = Some s) ->
  (p = GroupsP -> forall a b, is_Some (Find_State (All_States p d) a b) -> is_Some (Find_State h a b)) ->
  daemon_ok (with_states p h d).
Proof.
  intros [] Hsub Hsup. destruct p; split; try done.
  - intros a b e He. apply dk_edges0. by apply Hsub.
  - intros a b g Hg. apply dk_groups0. by apply Hsub.
  - intros a g. cbn. rewrite <- dk_names0. split; [intros [s Hs]; exists s; by apply Hsub|by apply (Hsup eq_refl)].
Qed.

Lemma find_delete {X} (h : chain X) src dst states a b s :
  h !! src = Some states -> Find_State (<[src := delete dst states]> h) a b = Some s -> Find_State h a b = Some s.
Proof.
  intros Hs. unfold Find_State. destruct (decide (a = src)) as [->|Hne].
  - rewrite lookup_insert_eq, Hs. cbn [mbind option_bind]. intros [_ H]%lookup_delete_Some. done.
  - by rewrite lookup_insert_ne.
Qed.

Lemma find_delete_chain {X} (h : chain X) src a b s :
  Find_State (delete src h) a b = Some s -> Find_State h a b = Some s.
Proof.
  unfold Find_State. destruct (decide (a = src)) as [->|Hne]; [by rewrite lookup_delete_eq|by rewrite lookup_delete_ne].
Qed.

Lemma StronglySorted_filter {A} (R : A -> A -> Prop) (P : A -> Prop) `{forall x, Decision (P x)} l :
  StronglySorted R l -> StronglySorted R (filter P l).
Proof.
  induction 1 as [|x l Hs IH Hx]; [constructor|]. rewrite filter_cons. destruct (decide (P x)); [|done].
  constructor; [done|]. apply Forall_forall. intros y Hy. apply list_elem_of_filter in Hy as [_ Hy].
  rewrite Forall_forall in Hx. by apply Hx.
Qed.

Lemma ok_try_remove address d r d' : daemon_ok d -> Try_Remove_Node address d = (r, d') -> daemon_ok d'.
Proof.
  intros Hok. unfold Try_Remove_Node. destruct (Z.eqb_spec address (My_Address d)) as [|Hmy]; [by intros [= <- <-]|].
  destruct (All_Edges d !! address) eqn:Es; [by intros [= <- <-]|]. destruct (existsb _ _) eqn:Ex; [by intros [= <- <-]|].
  destruct (Get_Node d address); intros [= <- <-]; [|done]. destruct Hok.
  assert (Hg : forall x, is_Some (delete address (All_Nodes d) !! x) <-> x <> address /\ is_Some (Get_Node d x)).
  { intros x. unfold Get_Node. rewrite lookup_delete_is_Some. split; intros [? ?]; by split. }
  split; unfold Get_Node; simpl.
  - intros x. rewrite Hg, list_elem_of_filter, dk_ids0. done.
  - by apply StronglySorted_filter.
  - intros a b e He. destruct (dk_edges0 a b e He) as (H1 & H2 & H3 & H4 & H5). rewrite !Hg.
    unfold Find_State in He. destruct (All_Edges d !! a) as [states|] eqn:Ea; [|done]. cbn in He.
    split_and!; try done; [congruence|]. intros ->. apply not_true_iff_false in Ex. apply Ex. apply existsb_exists.
    exists (a, states). split; [|apply bool_decide_eq_true_2; by exists e].
    apply list_elem_of_In, elem_of_map_to_list. done.
  - done.
  - done.
  - by rewrite Hg.
Qed.

Lemma ok_remove_or_exit id d d' : daemon_ok d -> remove_node_or_exit id d = Ret d' -> daemon_ok d'.
Proof.
  unfold remove_node_or_exit. destruct (Try_Remove_Node id d) as [r d1] eqn:E. intros Hok. destruct (r <? 0); [done|].
  intros [= <-]. by eapply ok_try_remove.
Qed.

(** Erasing a state of a group from both tables. *)
Lemma gc_by_dest_names src dst d d1 :
  gc_by_dest GroupsP src dst d = Ret d1 ->
  exists names, d1 = with_group_names names d /\
    (forall x g, x ∈ default ∅ (names !! g) <-> (x, g) <> (src, dst) /\ x ∈ default ∅ (All_Groups_by_Name d !! g)) /\
    src ∈ default ∅ (All_Groups_by_Name d !! dst).
Proof.
  unfold gc_by_dest. destruct (All_Groups_by_Name d !! dst) as [nodes|] eqn:En; [|done].
  destruct (decide (src ∈ nodes)) as [Hin|]; [|done]. intros [= <-]. eexists. split; [done|]. split; [|done].
  intros x g. destruct (decide (g = dst)) as [->|Hne].
  - destruct (decide _) as [E|E].
    + rewrite lookup_delete_eq, En. cbn [default from_option id]. split; [set_solver|]. intros [Hx Hxn].
      assert (x ∈ nodes ∖ {[src]}) by (apply elem_of_difference; rewrite elem_of_singleton; split; [done|congruence]). set_solver.
    + rewrite lookup_insert_eq, En. cbn [default from_option id]. rewrite elem_of_difference, elem_of_singleton.
      split; [intros [H1 H2]; split; [congruence|done]|intros [H1 H2]; split; [done|congruence]].
  - assert (Hl : forall A (h1 h2 : gmap Z (gset Z)) (P : {A} + {~ A}), h1 !! g = h2 !! g -> (if P then h1 else h2) !! g = h2 !! g)
      by (intros ? ? ? []; done).
    rewrite Hl by (rewrite lookup_delete_ne, lookup_insert_ne by done; done). rewrite lookup_insert_ne by done.
    split; [intros H; split; [congruence|done]|tauto].
Qed.

Lemma find_delete_iff {X} (h : chain X) src dst states a b :
  h !! src = Some states ->
  Find_State (<[src := delete dst states]> h) a b = if decide ((a, b) = (src, dst)) then None else Find_State h a b.
Proof.
  intros Hs. unfold Find_State. destruct (decide (a = src)) as [->|Hne].
  - rewrite lookup_insert_eq, Hs. cbn [mbind option_bind]. destruct (decide (b = dst)) as [->|Hb].
    + by rewrite lookup_delete_eq, decide_True.
    + by rewrite lookup_delete_ne, decide_False by congruence.
  - rewrite lookup_insert_ne by done. rewrite decide_False by congruence. done.
Qed.

Lemma ok_gc_state now p src d dst d' : daemon_ok d -> gc_state now p src d dst = Ret d' -> daemon_ok d'.
Proof.
  intros Hok H. unfold gc_state in H. apply bind_Ret in H as (states & Hst & H). apply or_else_Ret in Hst; [|done].
  apply bind_Ret in H as (s & Hs & H). apply or_else_Ret in Hs; [|done].
  destruct (expired now s); [|by injection H as <-]. apply bind_Ret in H as (d1 & H1 & H). destruct p.
  - injection H1 as <-. apply bind_Ret in H as (d2 & H2 & H). apply ok_remove_or_exit in H2; [by apply ok_remove_or_exit in H|].
    apply (ok_fewer EdgeP); [done| |done]. intros a b x. by apply find_delete.
  - injection H as <-. apply gc_by_dest_names in H1 as (names & -> & Hn & _).
    assert (Hf : Find_State (All_Groups_by_Node d) src dst = Some s) by (unfold Find_State; simpl in Hst; by rewrite Hst).
    destruct (dk_groups d Hok _ _ _ Hf) as [Hsrc Hdst]. change (extra_of GroupsP) with (gset Z) in *.
    rewrite Hsrc, Hdst in Hn. destruct Hok. simpl in Hst. split; try done.
    + intros a b x. cbn. rewrite (find_delete_iff _ _ _ _ _ _ Hst). destruct (decide _); [done|]. apply dk_groups0.
    + intros a g. cbn. rewrite Hn, (find_delete_iff _ _ _ _ _ _ Hst). cbn. rewrite <- dk_names0.
      destruct (decide _) as [E|E]; [|tauto]. split; [by intros []|by intros [? _]].
Qed.

Lemma ok_gc_chain now p d src d' : daemon_ok d -> gc_chain now p d src = Ret d' -> daemon_ok d'.
Proof.
  intros Hok H. unfold gc_chain in H. apply bind_Ret in H as (states & _ & H).
  apply bind_Ret in H as (d1 & H1 & H). apply bind_Ret in H as (states' & Hst & H). injection H as <-.
  apply or_else_Ret in Hst; [|done].
  apply (foldM_inv daemon_ok) in H1; [|intros ? ? ? _; apply ok_gc_state|done].
  destruct (base.size states' =? 0)%nat eqn:E; [|done]. apply ok_fewer; [done|intros a b s; apply find_delete_chain|].
  intros _ a b. unfold Find_State. destruct (decide (a = src)) as [->|Hne]; [|by rewrite lookup_delete_ne].
  rewrite Hst. apply Nat.eqb_eq, map_size_empty_inv in E. subst states'. cbn. rewrite lookup_empty. by intros [].
Qed.

Lemma ok_gc now p d d' : daemon_ok d -> State_Garbage_Collect now p d = Ret d' -> daemon_ok d'.
Proof.
  intros Hok H. unfold State_Garbage_Collect in H. apply bind_Ret in H as (d1 & H1 & H). injection H as <-.
  apply (foldM_inv daemon_ok) in H1; [eapply ok_frame; [exact H1|done|by intros []]| |done].
  intros d2 src d3 _. apply ok_gc_chain.
Qed.

(** ** The daemon as a transition system *)
Inductive daemon_step : daemon -> daemon -> Prop :=
| SConfigNode id d d' : Create_Node id d = Ret d' -> daemon_step d d'
| SConfigEdge now src dst c bc ix d d' : in_s 16 c -> Create_Edge now src dst c bc ix d = Ret d' -> daemon_step d d'
| SReceive now p sender body d d' :
    small_cells body -> Process_state_body now p sender body d = Ret d' -> daemon_step d d'
| SSendUpdates now p d d' : Send_State_Updates now p d = Ret d' -> daemon_step d d'
| SSetRoutes now d d' : Set_Routes now d = Ret d' -> daemon_step d d'
| SResend now p d d' : Resend_States now p d = Ret d' -> daemon_step d d'
| SCollect now p d d' : State_Garbage_Collect now p d = Ret d' -> daemon_step d d'
| SJoin now g ses d r ses' d' : Join_Group now g ses d = Ret (r, ses', d') -> daemon_step d d'
| SLeave now g ses d r ses' d' : Leave_Group now g ses d = Ret (r, ses', d') -> daemon_step d d'.

Lemma ok_step d d' : daemon_ok d -> daemon_step d d' -> daemon_ok d'.
Proof.
  intros Hok H.
  destruct H; [by eapply ok_create_node|by eapply ok_create_edge|by eapply ok_process_body|by eapply ok_send_updates
    |by eapply ok_set_routes|by eapply ok_resend|by eapply ok_gc|by eapply ok_join|by eapply ok_leave].
Qed.

(** The topology the route computation sees. *)
Lemma edge_list_keys d : daemon_ok d -> NoDup (edge_key <$> edge_list d).
Proof.
  intros Hok. unfold edge_list, chain_lists.
  assert (Hperm : forall h : chain Edge_Extra, concat ((fun '(_, st) => (hash_iter st).*2) <$> hash_iter h) ≡ₚ
                                  concat ((fun x => (map_to_list (snd x)).*2) <$> map_to_list h)).
  { intros h. rewrite (hash_iter_perm h). induction (map_to_list h) as [|[a st] l IH]; [done|].
    rewrite !fmap_cons. cbn [concat]. rewrite IH. by rewrite (hash_iter_perm st). }
  rewrite Hperm. clear Hperm.
  assert (Hl : forall a st, (a, st) ∈ map_to_list (All_Edges d) -> All_Edges d !! a = Some st)
    by (intros; by apply elem_of_map_to_list).
  pose proof (NoDup_fst_map_to_list (All_Edges d)) as Hnd. revert Hl Hnd.
  induction (map_to_list (All_Edges d)) as [|[a st] l IH]; intros Hl Hnd; [apply NoDup_nil_2|].
  rewrite fmap_cons. cbn [concat]. rewrite fmap_app. cbn [fmap list_fmap fst] in Hnd. apply NoDup_cons in Hnd as [Ha Hnd].
  assert (Hkey : forall a st e, (a, st) ∈ (a, st) :: l \/ True -> All_Edges d !! a = Some st -> e ∈ (map_to_list st).*2 ->
            exists b, st !! b = Some e /\ edge_key e = (a, b)).
  { intros a0 st0 e _ Hst ((b & e') & -> & Hb)%list_elem_of_fmap. apply elem_of_map_to_list in Hb. exists b. split; [done|].
    destruct (dk_edges d Hok a0 b e') as (H1 & H2 & _); [unfold Find_State; by rewrite Hst|].
    unfold edge_key. simpl. by rewrite H1, H2. }
  apply NoDup_app. split_and!.
  - assert (Heq : edge_key <$> (map_to_list st).*2 = (fun b => (a, b)) <$> (map_to_list st).*1).
    { rewrite <- !list_fmap_compose. apply list_fmap_ext. intros i [b e] Hi. simpl.
      apply list_elem_of_lookup_2, elem_of_map_to_list in Hi.
      destruct (dk_edges d Hok a b e) as (H1 & H2 & _); [unfold Find_State; by rewrite (Hl a st (list_elem_of_here _ _))|].
      unfold edge_key. by rewrite H1, H2. }
    assert (Hnd2 : NoDup ((fun b => (a, b)) <$> (map_to_list st).*1))
      by (apply NoDup_fmap_2; [intros ? ? [=]; done|apply NoDup_fst_map_to_list]).
    rewrite <- Heq in Hnd2. exact Hnd2.
  - intros k (e & -> & He)%list_elem_of_fmap (e' & Hk & He')%list_elem_of_fmap. cbn [snd] in He.
    destruct (Hkey a st e (or_intror I) (Hl a st (list_elem_of_here _ _)) He) as (b & _ & Hke).
    apply elem_of_concat in He' as (ls & He' & Hls). apply list_elem_of_fmap in Hls as ([a' st'] & -> & Hin).
    destruct (Hkey a' st' e' (or_intror I) (Hl a' st' (list_elem_of_further _ _ _ Hin)) He') as (b' & _ & Hke').
    apply Ha. apply list_elem_of_fmap. exists (a', st'). split; [simpl; congruence|done].
  - apply IH; [|done]. intros a0 st0 Hin. apply Hl. by right.
Qed.

Lemma ok_topology d :
  daemon_ok d -> Z.of_nat (length (All_Nodes_by_ID d)) <= 32768 ->
  valid_topology (All_Nodes_by_ID d) (edge_list d).
Proof.
  intros Hok Hsize.
  assert (He : forall e, e ∈ edge_list d -> source_addr e ∈ All_Nodes_by_ID d /\ dest_addr e ∈ All_Nodes_by_ID d /\ in_s 16 (cost e)).
  { intros e (a & b & He)%chain_lists_elem. destruct (dk_edges d Hok a b e He) as (-> & -> & Ha & Hb & Hv).
    rewrite !(dk_ids d Hok). done. }
  split; [|by apply edge_list_keys| | |done].
  - apply sorted_nodup, Hok.
  - intros e Hin. by destruct (He e Hin) as (? & ? & _).
  - intros e Hin. by destruct (He e Hin) as (_ & _ & ?).
Qed.
End Handlers.
