(* ===== verification/FloodTotal.v ===== *)
(** * FloodTotal: the handlers of the flooding run to their end

    A daemon whose tables are consistent never ends the process and never
    follows a dangling pointer while it processes the flood of a connected
    neighbour, sends updates, or collects expired states; and the cache of
    multicast forwarding follows every change of the groups. *)
From stdpp Require Import base list gmap numbers option sets.
From Stdlib Require Import ZArith Lia.
From S2P Require Import Prelude HashMap Events NetTypes Route RouteProof Daemon StateFlood FloodProof FloodSend DaemonInv.
#[local] Open Scope Z_scope.

(** A neighbour whose link is up: the local node has a usable edge to it, and
    it has a place among the neighbours. *)
Record linked (d : daemon) (id : Z) : Prop := {
  lk_node : exists nd, Get_Node d id = Some nd /\ nid nd = id /\ n_edge nd = true /\
                       0 <= neighbor_id nd < MAX_NEIGHBORS;
  lk_edge : exists e, Get_Edge d (My_Address d) id = Some e /\ cost e <> -1 }.

Lemma mask_set_total id m : 0 <= id < MAX_NEIGHBORS -> is_Some (mask_set id m).
Proof.
  intros H. unfold mask_set. rewrite (proj2 (Z.leb_le _ _)), (proj2 (Z.ltb_lt _ _)) by lia. by eexists.
Qed.

Lemma linked_connected d id nd :
  linked d id -> Get_Node d id = Some nd -> Is_Connected_Neighbor2 d nd = Ret true.
Proof.
  intros [(nd' & Hn & Hid & He & _) (e & Hed & Hc)] H. rewrite H in Hn. injection Hn as <-.
  unfold Is_Connected_Neighbor2. rewrite He, Hid, Hed. cbn [or_else mbind outcome_bind].
  by rewrite (proj2 (Z.eqb_neq _ _)).
Qed.

Lemma bind_total {A B} (m : outcome A) (k : A -> outcome B) :
  (exists a, m = Ret a) -> (forall a, exists b, k a = Ret b) -> exists b, m ≫= k = Ret b.
Proof. intros [a ->] Hk. apply Hk. Qed.

(** The sender of a change is the local node or a connected neighbour. *)
Lemma add_changed_total now p sender src dst d :
  (sender = My_Address d /\ is_Some (Get_Node d sender) \/ linked d sender) ->
  is_Some (Find_State (All_States p d) src dst) ->
  exists d', Add_to_changed_states now p sender src dst d = Ret d'.
Proof.
  intros Hs [s Hst]. unfold Add_to_changed_states.
  assert (Hn : exists nd, Get_Node d sender = Some nd /\
            (if sender =? My_Address d then Ret true else Is_Connected_Neighbor2 d nd) = Ret true /\
            (sender <> My_Address d -> 0 <= neighbor_id nd < MAX_NEIGHBORS)).
  { destruct Hs as [[-> [nd Hnd]]|Hl].
    - exists nd. by rewrite Z.eqb_refl.
    - destruct (lk_node d sender Hl) as (nd & Hnd & _ & _ & Hnb). exists nd. split_and!; [done| |done].
      destruct (sender =? My_Address d); [done|]. by apply linked_connected with sender. }
  destruct Hn as (nd & Hnd & Hc & Hnb). rewrite Hnd. cbn [or_else mbind outcome_bind]. rewrite Hc.
  cbn [mbind outcome_bind negb]. rewrite Hst. cbn [or_else mbind outcome_bind].
  assert (Hm : exists m, (if sender =? My_Address d then Ret (replicate MASK_WORDS 0)
                          else or_else (mask_set (neighbor_id nd) (replicate MASK_WORDS 0)) Fault) = Ret m).
  { destruct (Z.eqb_spec sender (My_Address d)) as [|Hne]; [by eexists|].
    destruct (mask_set_total _ (replicate MASK_WORDS 0) (Hnb Hne)) as [m ->]. by eexists. }
  destruct p; destruct (decide _); (apply bind_total; [exact Hm|by eexists]).
Qed.

Lemma ensure_node_total id d : exists d', ensure_node id d = Ret d'.
Proof. unfold ensure_node, Create_Node. destruct (Get_Node d id) eqn:E; [by eexists|]. rewrite ?E. by eexists. Qed.

Lemma ensure_edge_total now src dst d :
  is_Some (Get_Node d src) -> is_Some (Get_Node d dst) -> exists d', ensure_edge now src dst d = Ret d'.
Proof.
  intros [ns Hs] [nt Ht]. unfold ensure_edge, Create_Edge. destruct (Get_Edge d src dst) eqn:E; [by eexists|].
  rewrite Hs, Ht, ?E. destruct (src =? My_Address d) eqn:Em; cbn; rewrite Em; by eexists.
Qed.

Lemma ensure_group_total now src g d : exists d', ensure_group now src g d = Ret d'.
Proof.
  unfold ensure_group, Create_Group. destruct (Find_State (All_Groups_by_Node d) src g) eqn:E; [by eexists|].
  rewrite ?E. destruct (My_Address d =? src); by eexists.
Qed.

Lemma grows_node d d' x : grows d d' -> is_Some (Get_Node d x) -> is_Some (Get_Node d' x).
Proof. intros Hg [nd Hn]. destruct (Hg x nd Hn) as (nd' & Hn' & _). by exists nd'. Qed.

Lemma process_state_cell_total p now source cell d :
  is_Some (Get_Node d (My_Address d)) -> exists r, Process_state_cell p now source cell d = Ret r.
Proof.
  intros Hmy. destruct p; cbn [Process_state_cell].
  - unfold Edge_Process_state_cell. destruct (ensure_node_total source d) as [d1 H1]. rewrite H1. cbn [mbind outcome_bind].
    destruct (ensure_node_total (c_dest cell) d1) as [d2 H2]. rewrite H2. cbn [mbind outcome_bind].
    apply ensure_node_spec in H1 as (_ & _ & HM1 & _ & Hn1 & Hg1 & _).
    apply ensure_node_spec in H2 as (_ & _ & HM2 & _ & Hn2 & Hg2 & _).
    destruct (ensure_edge_total now source (c_dest cell) d2) as [d3 H3]; [by eapply grows_node|done|].
    rewrite H3. cbn [mbind outcome_bind].
    apply ensure_edge_spec in H3 as (e & He & _ & _ & _ & _ & _ & _ & HM3 & _ & Hg3).
    set (d4 := if 0 <? _ then with_lts _ d3 else d3).
    assert (H4 : Get_Edge d4 source (c_dest cell) = Some e /\ My_Address d4 = My_Address d /\
                 is_Some (Get_Node d4 (My_Address d))).
    { subst d4. destruct (0 <? _); (split_and!; [done|cbn; congruence|]);
        (eapply grows_node; [|exact Hmy]; etrans; [exact Hg1|]; etrans; [exact Hg2|exact Hg3]). }
    clearbody d4. destruct H4 as (He4 & HM4 & Hn4). rewrite He4. cbn [or_else mbind outcome_bind].
    destruct (source =? My_Address d4); cbn [negb]; [|by eexists].
    match goal with |- context [Add_to_changed_states now EdgeP (My_Address ?x) source _ ?x] =>
      destruct (add_changed_total now EdgeP (My_Address x) source (c_dest cell) x) as [d5 H5] end.
    + left. split; [done|]. cbn. by rewrite HM4.
    + cbn. rewrite find_put_eq. by eexists.
    + rewrite H5. by eexists.
  - unfold Groups_Process_state_cell. destruct (ensure_group_total now source (c_dest cell) d) as [d1 H1].
    rewrite H1. cbn [mbind outcome_bind].
    apply ensure_group_spec in H1 as (g & Hg & _ & _ & _ & _ & _ & HM & _ & HG). rewrite Hg. cbn [or_else mbind outcome_bind].
    destruct (source =? My_Address d1); cbn [negb]; [|by eexists].
    match goal with |- context [Add_to_changed_states now GroupsP (My_Address ?x) source _ ?x] =>
      destruct (add_changed_total now GroupsP (My_Address x) source (c_dest cell) x) as [d5 H5] end.
    + left. split; [done|]. eapply (grows_node d1); [by apply keeps_grows|]. cbn. rewrite HM. by eapply grows_node.
    + cbn. rewrite find_put_eq. by eexists.
    + rewrite H5. by eexists.
Qed.

(** What processing a cell needs, and keeps. *)
Definition ready (d : daemon) (sender : Z) : Prop := is_Some (Get_Node d (My_Address d)) /\ linked d sender.

Lemma ready_step p d d' sender a b s' :
  ready d sender -> grows d d' -> My_Address d' = My_Address d ->
  All_States p d' = put_state (All_States p d) a b s' -> All_States (other p) d' = All_States (other p) d ->
  (forall s, a = My_Address d -> Find_State (All_States p d) a b = Some s -> value s' = value s) -> ready d' sender.
Proof.
  intros [Hmy [(nd & Hn & Hid & Hne & Hnb) (e & He & Hc)]] Hg HM HA HO Hval. split; [rewrite HM; by eapply grows_node|].
  destruct (Hg _ _ Hn) as (nd' & Hn' & E1 & E2 & E3). split.
  - exists nd'. rewrite E1, E2. split_and!; [done|done|by apply E3|lia|lia].
  - rewrite HM. unfold Get_Edge in *. destruct p; simpl in HA, HO; [|rewrite HO; by exists e].
    rewrite HA, find_put. destruct (decide _) as [[<- <-]|]; [|by exists e].
    exists s'. split; [done|]. intros Hs. apply Hc. exact (eq_trans (eq_sym (Hval e eq_refl He)) Hs).
Qed.

Lemma ready_frame d d' sender :
  ready d sender -> keeps d d' -> All_Edges d' = All_Edges d -> ready d' sender.
Proof.
  intros [Hmy [Hn He]] (HM & HN & _) HE. unfold ready, Get_Node in *. rewrite HM, HN. split; [done|].
  split; [unfold Get_Node in *; by rewrite HN|]. unfold Get_Edge in *. by rewrite HE, HM.
Qed.

Lemma ready_add_changed now p sender s0 src dst d d' :
  ready d sender -> Add_to_changed_states now p s0 src dst d = Ret d' -> ready d' sender.
Proof.
  intros Hr H. apply add_changed_spec in H as (s & nd & m & Hs & HA & HO & HK & _).
  eapply (ready_step p); [exact Hr|by apply keeps_grows|apply HK|exact HA|exact HO|].
  intros s1 _ Hs1. rewrite Hs in Hs1. injection Hs1 as ->. done.
Qed.

Lemma ready_state_cell p now sender source cell d d' prop :
  ready d sender -> Process_state_cell p now source cell d = Ret (d', prop) -> ready d' sender.
Proof.
  intros Hr H. apply process_state_cell_spec in H as (s' & HA & (_ & _ & Hu) & HO & HM & HG & _).
  eapply (ready_step p); [exact Hr|exact HG|exact HM|exact HA|exact HO|].
  intros s -> Hs. rewrite Z.eqb_refl, Hs in Hu. by destruct Hu.
Qed.

Lemma process_cell_total now p sender source st cell :
  ready st.1 sender -> exists st', process_cell now p sender source st cell = Ret st' /\ ready st'.1 sender.
Proof.
  destruct st as [d f]. cbn [fst]. intros Hr. unfold process_cell.
  destruct (match Find_State (All_States p d) source (c_dest cell) with None => true | Some s => older s cell end).
  - destruct (process_state_cell_total p now source cell d (proj1 Hr)) as [[d1 prop] H1]. rewrite H1. cbn [mbind outcome_bind].
    pose proof (ready_state_cell p now sender source cell d d1 prop Hr H1) as Hr1.
    destruct prop; [|by exists (d1, f)].
    apply process_state_cell_spec in H1 as (s' & HA & _).
    destruct (add_changed_total now p sender source (c_dest cell) d1) as [d2 H2]; [right; apply Hr1| |].
    + rewrite HA, find_put_eq. by eexists.
    + rewrite H2. cbn [mbind outcome_bind]. exists (d2, true). split; [done|]. by eapply ready_add_changed.
  - destruct (Find_State (All_States p d) source (c_dest cell)) as [s|]; [|by exists (d, f)].
    destruct (same_time s cell); [|by exists (d, f)]. destruct (Find_Changed_State _ _ _) as [cg|]; [|by exists (d, f)].
    destruct (lk_node d sender (proj2 Hr)) as (nd & Hnd & _ & _ & Hnb). rewrite Hnd. cbn [or_else mbind outcome_bind].
    destruct (mask_set_total _ (mask cg) Hnb) as [m ->]. cbn [or_else mbind outcome_bind].
    eexists (_, f). split; [done|]. eapply ready_frame; [exact Hr|apply keeps_with_changed|].
    exact (with_changed_states EdgeP p _ d).
Qed.

(** A loop whose body always succeeds under an invariant succeeds. *)
Lemma foldM_total {A S} (I : S -> Prop) (f : S -> A -> outcome S) l s :
  (forall s x, x ∈ l -> I s -> exists s', f s x = Ret s' /\ I s') -> I s -> exists s', foldM f s l = Ret s' /\ I s'.
Proof.
  revert s. induction l as [|x l IH]; intros s Hf Hs; cbn [foldM]; [by exists s|].
  destruct (Hf s x) as (s1 & H1 & Hi); [by left|done|]. rewrite H1. cbn [mbind outcome_bind].
  apply IH; [|done]. intros s2 y Hy. apply Hf. by right.
Qed.

Lemma process_body_total now p sender body d :
  ready d sender -> exists d', Process_state_body now p sender body d = Ret d' /\ ready d' sender.
Proof.
  intros Hr. unfold Process_state_body.
  destruct (foldM_total (fun st => ready st.1 sender) (process_packet now p sender) body (d, false)) as ([d1 f] & H1 & Hr1); [|done|].
  - intros st pkt _ Hst. unfold process_packet. apply foldM_total; [|done]. intros st' c _. apply process_cell_total.
  - rewrite H1. cbn [mbind outcome_bind]. eexists. split; [done|]. cbn [fst] in Hr1. destruct (f && _); [|done].
    unfold Schedule_Routes. destruct (Schedule_Set_Route d1); [done|]. by eapply ready_frame; [exact Hr1| |].
Qed.

(** ** Sending updates *)
Section Send.
Context `{HO : HashOrder} `{KO : KeyedOrder}.

(** Every buffered change is about a stored state. *)
Definition changes_known (p : prot) (d : daemon) : Prop :=
  forall a b, is_Some (Find_Changed_State (Changed_States p d) a b) -> is_Some (Find_State (All_States p d) a b).

Lemma send_source_total now p linkid nbr states l first changes pk :
  0 <= nbr < MAX_NEIGHBORS -> Forall (fun cg => is_Some (Find_State states (cg_src cg) (cg_dst cg))) l ->
  exists r, send_source now p linkid nbr states l first changes pk = Ret r.
Proof.
  intros Hnbr Hl. revert first changes pk. induction Hl as [|cg l [s Hs] _ IH]; intros first changes pk; cbn [send_source]; [by eexists|].
  destruct (mask_get nbr (mask cg)); [apply IH|]. rewrite Hs. cbn [or_else mbind outcome_bind].
  destruct (send_update _ _ _ _ _ _) as [pk1|pk1]; [by eexists|].
  destruct (mask_set_total nbr (mask cg) Hnbr) as [m ->]. cbn [or_else mbind outcome_bind]. apply IH.
Qed.

Lemma send_sources_total now p linkid nbr states srcs changes pk :
  0 <= nbr < MAX_NEIGHBORS ->
  Forall (fun '(_, b) => Forall (fun cg => is_Some (Find_State states (cg_src cg) (cg_dst cg))) b) srcs ->
  exists r, send_sources now p linkid nbr states srcs changes pk = Ret r.
Proof.
  intros Hnbr Hl. revert changes pk. induction Hl as [|[src b] srcs Hb _ IH]; intros changes pk; cbn [send_sources]; [by eexists|].
  destruct (send_source_total now p linkid nbr states (keyed_iter b) true changes pk Hnbr) as [[[ch1 pk1] stop] H1].
  - by rewrite keyed_iter_perm.
  - rewrite H1. cbn [mbind outcome_bind]. destruct stop; [by eexists|apply IH].
Qed.

Lemma net_send_updates_total now p nbr linkid d :
  0 <= nbr < MAX_NEIGHBORS -> neighbor_link d nbr = Ret linkid ->
  changed_ok (Changed_States p d) -> changes_known p d ->
  exists r d', Net_Send_State_Updates now p nbr d = Ret (r, d').
Proof.
  intros Hnbr Hlk Hok Hkn. unfold Net_Send_State_Updates. rewrite Hlk. cbn [mbind outcome_bind].
  destruct (send_sources_total now p linkid nbr (All_States p d) (hash_iter (Changed_States p d)) (Changed_States p d)
    (mk_packer [] [] 0 0) Hnbr) as [[[ch pk] stop] H].
  - rewrite (hash_iter_perm (Changed_States p d)). apply Forall_forall. intros [src b] Hin.
    apply elem_of_map_to_list in Hin. destruct (Hok _ _ Hin) as [Hf Hnd]. apply Forall_forall. intros cg Hcg.
    apply Hkn. rewrite Forall_forall in Hf. destruct (Hf cg Hcg) as [Hsrc _]. exists cg. unfold Find_Changed_State.
    rewrite Hsrc, Hin. cbn [mbind option_bind]. by apply find_changed_elem.
  - rewrite H. cbn [mbind outcome_bind]. destruct stop; by eexists _, _.
Qed.

(** ** Collecting expired states *)
Lemma remove_total id d :
  is_Some (Get_Node d id) -> exists d', remove_node_or_exit id d = Ret d'.
Proof.
  intros [nd Hn]. unfold remove_node_or_exit, Try_Remove_Node. destruct (id =? _); [by eexists|].
  destruct (All_Edges d !! id); [by eexists|]. destruct (existsb _ _); [by eexists|]. rewrite Hn. by eexists.
Qed.

(** The source of a state under removal still has its chain. *)
Lemma remove_source id d states :
  All_Edges d !! id = Some states -> remove_node_or_exit id d = Ret d.
Proof.
  intros H. unfold remove_node_or_exit, Try_Remove_Node. destruct (id =? _); [done|]. by rewrite H.
Qed.

Lemma gc_state_total now p src d dst :
  daemon_ok d -> is_Some (Find_State (All_States p d) src dst) -> exists d', gc_state now p src d dst = Ret d'.
Proof.
  intros Hok [s Hs]. pose proof Hs as Hf. unfold Find_State in Hs. unfold gc_state.
  destruct (All_States p d !! src) as [states|] eqn:Est; [|done]. cbn in Hs. cbn [or_else mbind outcome_bind]. rewrite Hs.
  cbn [or_else mbind outcome_bind]. destruct (expired now s); [|by eexists]. destruct p.
  - cbn [gc_by_dest mbind outcome_bind]. destruct (dk_edges d Hok src dst s Hf) as (H1 & H2 & Hn1 & Hn2 & _).
    change (extra_of EdgeP) with Edge_Extra in *. rewrite H1, H2. erewrite remove_source by (cbn; apply lookup_insert_eq).
    cbn [mbind outcome_bind]. by apply remove_total.
  - destruct (dk_groups d Hok src dst s Hf) as (H1 & H2). change (extra_of GroupsP) with (gset Z) in *.
    rewrite H1, H2. cbn [gc_by_dest]. cbn. assert (Hin : src ∈ default ∅ (All_Groups_by_Name d !! dst)) by (apply (dk_names d Hok); by exists s).
    destruct (All_Groups_by_Name d !! dst) as [nodes|]; [|by apply elem_of_empty in Hin]. cbn in Hin.
    rewrite decide_True by done. cbn. by eexists.
Qed.

Lemma gc_states_total now p src l d :
  daemon_ok d -> NoDup l -> is_Some (All_States p d !! src) ->
  (forall x, x ∈ l -> is_Some (Find_State (All_States p d) src x)) ->
  exists d', foldM (gc_state now p src) d l = Ret d' /\ is_Some (All_States p d' !! src).
Proof.
  intros Hok Hnd. revert d Hok. induction Hnd as [|x l Hx Hnd IH]; intros d Hok Hsrc Hl; cbn [foldM]; [by exists d|].
  destruct (gc_state_total now p src d x Hok (Hl x (list_elem_of_here _ _))) as [d1 H1]. rewrite H1. cbn [mbind outcome_bind].
  pose proof (ok_gc_state now p src d x d1 Hok H1) as Hok1.
  apply gc_state_effect in H1 as (states & s & Hst & Hs & HA).
  apply IH; [done| |]; rewrite HA; [rewrite lookup_insert_eq; by eexists|].
  intros y Hy. destruct (Hl y) as [sy Hsy]; [by right|]. unfold Find_State in *. rewrite lookup_insert_eq. rewrite Hst in Hsy.
  cbn in *. destruct (expired now s); [|by exists sy]. rewrite lookup_delete_ne; [by exists sy|congruence].
Qed.

Lemma gc_chain_total now p d src :
  daemon_ok d -> is_Some (All_States p d !! src) -> exists d', gc_chain now p d src = Ret d'.
Proof.
  intros Hok [states Hst]. unfold gc_chain. rewrite Hst. cbn [or_else mbind outcome_bind].
  assert (Hperm : (hash_iter states).*1 ≡ₚ (map_to_list states).*1) by (by rewrite (hash_iter_perm states)).
  destruct (gc_states_total now p src (hash_iter states).*1 d Hok) as (d1 & H1 & [states' Hst']).
  - rewrite Hperm. apply NoDup_fst_map_to_list.
  - by exists states.
  - intros x. rewrite Hperm. intros ([x' s] & -> & Hin)%list_elem_of_fmap. apply elem_of_map_to_list in Hin.
    unfold Find_State. rewrite Hst. by exists s.
  - rewrite H1. cbn [mbind outcome_bind]. rewrite Hst'. by eexists.
Qed.

Lemma gc_chain_others now p d src d' x :
  gc_chain now p d src = Ret d' -> x <> src -> All_States p d' !! x = All_States p d !! x.
Proof.
  intros H Hne. unfold gc_chain in H. apply bind_Ret in H as (states & _ & H). apply bind_Ret in H as (d1 & H1 & H).
  apply bind_Ret in H as (states' & _ & H). injection H as <-.
  assert (Hx : All_States p d1 !! x = All_States p d !! x).
  { apply (foldM_inv (fun d2 => All_States p d2 !! x = All_States p d !! x)) in H1; [done| |done].
    intros d2 y d3 _ H2 H3. apply gc_state_effect in H3 as (st & s & _ & _ & ->). by rewrite lookup_insert_ne. }
  destruct (_ =? 0)%nat; [|done]. by rewrite with_states_get, lookup_delete_ne.
Qed.

Lemma gc_total now p d : daemon_ok d -> exists d', State_Garbage_Collect now p d = Ret d'.
Proof.
  intros Hok. unfold State_Garbage_Collect.
  assert (Hperm : (hash_iter (All_States p d)).*1 ≡ₚ (map_to_list (All_States p d)).*1) by (by rewrite (hash_iter_perm (All_States p d))).
  assert (Hnd : NoDup (hash_iter (All_States p d)).*1) by (rewrite Hperm; apply NoDup_fst_map_to_list).
  assert (Hin : forall x, x ∈ (hash_iter (All_States p d)).*1 -> is_Some (All_States p d !! x)).
  { intros x. rewrite Hperm. intros ([x' s] & -> & Hin)%list_elem_of_fmap. apply elem_of_map_to_list in Hin. by exists s. }
  clear Hperm. revert Hnd Hin. generalize (hash_iter (All_States p d)).*1 as l. intros l Hnd Hin.
  assert (Hrun : exists d', foldM (gc_chain now p) d l = Ret d').
  { revert d Hok Hin. induction Hnd as [|x l Hx Hnd IH]; intros d Hok Hin; cbn [foldM]; [by eexists|].
    destruct (gc_chain_total now p d x Hok (Hin x (list_elem_of_here _ _))) as [d1 H1]. rewrite H1. cbn [mbind outcome_bind].
    apply IH; [by eapply ok_gc_chain|]. intros y Hy. rewrite (gc_chain_others now p d x d1 y H1); [|congruence].
    apply Hin. by right. }
  destruct Hrun as [d' ->]. by eexists.
Qed.
End Send.

(** ** The cache of multicast forwarding follows the groups

    Every answer in the cache of [Current_Routing] is the one that would be
    computed now: whatever changes an active membership discards the answers
    for its group, and new routes start with an empty cache. *)
Section Mcast.
Context `{HO : HashOrder} `{KO : KeyedOrder}.

(** Whether node [a] is an active member of group [g]. *)
Definition member (d : daemon) (a g : Z) : bool := from_option group_active false (Find_State (All_Groups_by_Node d) a g).

(** The answer for messages of [sender] to [group]. *)
Definition answers (d : daemon) (sender group : Z) (nb : gset Z) : Prop :=
  (Is_mcast_addr group = true -> forall h, h ∈ nb <-> exists a, member d a group = true /\ RR_Get_Next_Hop (Current_Routing d) sender a = Some h) /\
  (Is_acast_addr group = true ->
     if member d (My_Address d) group then nb = ∅
     else (nb = ∅ /\ forall a, member d a group = true -> RR_Get_Next_Hop (Current_Routing d) sender a = None) \/
          exists a h, nb = {[h]} /\ member d a group = true /\ RR_Get_Next_Hop (Current_Routing d) sender a = Some h).

Definition cache_ok (d : daemon) : Prop :=
  forall group sources sender nb, Groups (Current_Routing d) !! group = Some sources -> sources !! sender = Some nb -> answers d sender group nb.

(** Between [d] and [d'] the answers for each group of [P] were dropped, or
    nothing they depend on has changed. *)
Definition follows (P : Z -> Prop) (d d' : daemon) : Prop :=
  forall g, P g -> Groups (Current_Routing d') !! g = None \/
    (My_Address d' = My_Address d /\ Groups (Current_Routing d') !! g = Groups (Current_Routing d) !! g /\
     (forall s a, RR_Get_Next_Hop (Current_Routing d') s a = RR_Get_Next_Hop (Current_Routing d) s a) /\
     forall a, member d' a g = member d a g).
Abbreviation every := (fun _ : Z => True).

#[export] Instance follows_refl P : Reflexive (follows P).
Proof. intros d g _. by right. Qed.
#[export] Instance follows_trans P : Transitive (follows P).
Proof.
  intros d1 d2 d3 H12 H23 g Hg. destruct (H23 g Hg) as [|(M & G & R & A)]; [by left|].
  destruct (H12 g Hg) as [H|(M' & G' & R' & A')]; [left; congruence|right].
  split_and!; [congruence|congruence|intros; by rewrite R|intros; by rewrite A].
Qed.

Lemma follows_cache d d' : follows every d d' -> cache_ok d -> cache_ok d'.
Proof.
  intros Hf Hc g sources s nb Hg Hs. destruct (Hf g I) as [H|(M & G & R & A)]; [congruence|].
  rewrite G in Hg. destruct (Hc g sources s nb Hg Hs) as [H1 H2]. unfold answers. rewrite M. split.
  - intros Hm h. rewrite (H1 Hm). setoid_rewrite A. by setoid_rewrite R.
  - intros Ha. rewrite A. specialize (H2 Ha). destruct (member d (My_Address d) g); [done|].
    destruct H2 as [[H2 H3]|(a & h & H2 & H3 & H4)]; [left|right; exists a, h; by rewrite A, R].
    split; [done|]. intros a. rewrite A, R. apply H3.
Qed.

(** Nothing the cache depends on changed. *)
Definition same_view (d d' : daemon) : Prop :=
  My_Address d' = My_Address d /\ Current_Routing d' = Current_Routing d /\ All_Groups_by_Node d' = All_Groups_by_Node d.
#[export] Instance same_view_refl : Reflexive same_view.
Proof. by intros d. Qed.
#[export] Instance same_view_trans : Transitive same_view.
Proof. intros a b c (H1 & H2 & H3) (G1 & G2 & G3). unfold same_view. by rewrite G1, G2, G3. Qed.

Lemma view_follows P d d' : same_view d d' -> follows P d d'.
Proof. intros (M & R & G) g _. right. unfold member. by rewrite M, R, G. Qed.

Lemma put_member d a g s b k :
  member (with_groups (put_state (All_Groups_by_Node d) a g s) d) b k = if decide (b = a /\ k = g) then group_active s else member d b k.
Proof. unfold member. cbn. rewrite find_put. by destruct (decide _). Qed.

(** A state is replaced: nothing changes for other groups, and nothing for its
    own if the membership is as before. *)
Lemma put_follows d a g s : follows (fun k => k <> g) d (with_groups (put_state (All_Groups_by_Node d) a g s) d).
Proof. intros k Hk. right. split_and!; try done. intros b. rewrite put_member, decide_False; [done|]. by intros [_ ?]. Qed.

Lemma put_same_follows P d a g s : group_active s = member d a g -> follows P d (with_groups (put_state (All_Groups_by_Node d) a g s) d).
Proof. intros Hs k _. right. split_and!; try done. intros b. rewrite put_member. by destruct (decide _) as [[-> ->]|]. Qed.

(** Marking a group state as changed drops the answers for its group. *)
Lemma add_group_follows now sender src g d0 d d' :
  follows (fun k => k <> g) d0 d -> Add_to_changed_states now GroupsP sender src g d = Ret d' -> follows every d0 d'.
Proof.
  intros Hf H. unfold Add_to_changed_states in H. apply bind_Ret in H as (nd & _ & H). apply bind_Ret in H as (c & _ & H).
  destruct c; [|done]. cbn [negb] in H. apply bind_Ret in H as (s & Hs & H). apply or_else_Ret in Hs; [|done].
  apply bind_Ret in H as (m & _ & H). injection H as <-.
  set (d1 := with_states GroupsP (put_state (All_States GroupsP d) src g (set_my_timestamp now s)) d).
  assert (Hv : forall q d2, same_view d1 d2 ->
     follows every d0 (with_changed GroupsP q (with_routing (RR_Discard_Mcast_Neighbors (Current_Routing d2) g) (Schedule_Set_Route d2) d2))).
  { intros q d2 (M & R & G) k _. cbn [Current_Routing with_changed with_routing]. rewrite R. cbn.
    destruct (decide (k = g)) as [->|Hk]; [left; apply lookup_delete_eq|].
    assert (Hd1 : follows (fun k => k <> g) d0 d1) by (etrans; [exact Hf|]; apply put_follows).
    destruct (Hd1 k Hk) as [H|(M' & G' & R' & A')]; [left; by rewrite lookup_delete_ne|right].
    rewrite M. split_and!; [done|by rewrite lookup_delete_ne|done|]. intros a. rewrite <- A'. unfold member. cbn. by rewrite G. }
  apply Hv. fold d1. by destruct (decide _).
Qed.

Lemma add_edge_view now sender src dst d d' : Add_to_changed_states now EdgeP sender src dst d = Ret d' -> same_view d d'.
Proof.
  intros H. unfold Add_to_changed_states in H. apply bind_Ret in H as (nd & _ & H). apply bind_Ret in H as (c & _ & H).
  destruct c; [|done]. cbn [negb] in H. apply bind_Ret in H as (s & _ & H). apply bind_Ret in H as (m & _ & H). injection H as <-.
  by destruct (decide _).
Qed.

Lemma create_node_view id d d' : Create_Node id d = Ret d' -> same_view d d'.
Proof. unfold Create_Node. destruct (Get_Node d id); [done|]. by intros [= <-]. Qed.

Lemma create_edge_view now src dst c bc ix d d' : Create_Edge now src dst c bc ix d = Ret d' -> same_view d d'.
Proof.
  unfold Create_Edge. destruct (Get_Node d src), (Get_Node d dst), (Get_Edge d src dst); try done.
  intros H. destruct (src =? My_Address d) eqn:E; cbn in H; rewrite E in H; by injection H as <-.
Qed.

Lemma edge_cell_view now source cell d d' prop : Edge_Process_state_cell now source cell d = Ret (d', prop) -> same_view d d'.
Proof.
  assert (Hen : forall id d1 d2, ensure_node id d1 = Ret d2 -> same_view d1 d2).
  { intros id d1 d2. unfold ensure_node. destruct (Get_Node d1 id); [by intros [= <-]|apply create_node_view]. }
  intros H. unfold Edge_Process_state_cell in H.
  apply bind_Ret in H as (d1 & H1%Hen & H). apply bind_Ret in H as (d2 & H2%Hen & H). apply bind_Ret in H as (d3 & H3 & H).
  assert (H03 : same_view d d3).
  { etrans; [exact H1|]. etrans; [exact H2|]. unfold ensure_edge in H3.
    destruct (Get_Edge d2 _ _); [by injection H3 as <-|by eapply create_edge_view]. }
  set (d4 := if 0 <? _ then with_lts _ d3 else d3) in H.
  assert (H04 : same_view d d4) by (subst d4; by destruct (0 <? _)). clearbody d4. clear H1 H2 H3 H03.
  apply bind_Ret in H as (e & _ & H). destruct (source =? My_Address d4); cbn [negb] in H; [|by injection H as <- <-].
  apply bind_Ret in H as (d5 & H5%add_edge_view & H). injection H as <- <-. by etrans; [exact H04|].
Qed.

Lemma ensure_group_follows P now source g d d' : ensure_group now source g d = Ret d' -> follows P d d'.
Proof.
  unfold ensure_group. destruct (Find_State _ source g) as [s|] eqn:E; [intros [= <-]; reflexivity|].
  unfold Create_Group. rewrite E. destruct (My_Address d =? source); intros [= <-];
    (match goal with |- follows _ _ (with_group_names ?n ?d1) => transitivity d1 end;
     [apply put_same_follows; unfold member; by rewrite E|by apply view_follows]).
Qed.

Lemma group_cell_follows now source cell d d' prop :
  Groups_Process_state_cell now source cell d = Ret (d', prop) ->
  if prop then follows (fun k => k <> c_dest cell) d d' else follows every d d'.
Proof.
  intros H. unfold Groups_Process_state_cell in H. apply bind_Ret in H as (d1 & H1 & H).
  apply bind_Ret in H as (s & Hs & H). apply or_else_Ret in Hs; [|done].
  destruct (source =? My_Address d1); cbn [negb] in H.
  - apply bind_Ret in H as (d2 & H2 & H). injection H as <- <-.
    eapply add_group_follows; [|exact H2]. etrans; [by eapply ensure_group_follows|apply put_follows].
  - injection H as <- <-. etrans; [by eapply ensure_group_follows|apply put_follows].
Qed.

Lemma process_cell_follows now p sender source d f cell d' f' :
  process_cell now p sender source (d, f) cell = Ret (d', f') -> follows every d d'.
Proof.
  intros H. unfold process_cell in H. destruct (match Find_State _ _ _ with None => true | Some s => _ end).
  - apply bind_Ret in H as ([d1 prop] & H1 & H). destruct p; cbn [Process_state_cell] in H1.
    + apply edge_cell_view in H1. destruct prop; [|injection H as <- <-; by apply view_follows].
      apply bind_Ret in H as (d2 & H2%add_edge_view & H). injection H as <- <-. apply view_follows. by etrans.
    + apply group_cell_follows in H1. destruct prop; [|injection H as <- <-; first [assumption|reflexivity]].
      apply bind_Ret in H as (d2 & H2 & H). injection H as <- <-. by eapply add_group_follows.
  - destruct (Find_State _ _ _) as [s|]; [|injection H as <- <-; first [assumption|reflexivity]].
    destruct (same_time s cell); [|injection H as <- <-; first [assumption|reflexivity]]. destruct (Find_Changed_State _ _ _); [|injection H as <- <-; first [assumption|reflexivity]].
    apply bind_Ret in H as (nd & _ & H). apply bind_Ret in H as (m & _ & H). injection H as <- <-. apply view_follows. by destruct p.
Qed.

Lemma process_body_follows now p sender body d d' : Process_state_body now p sender body d = Ret d' -> follows every d d'.
Proof.
  intros H. unfold Process_state_body in H. apply bind_Ret in H as ([d1 f] & H1 & H). injection H as <-.
  assert (Hf : follows every d d1).
  { apply (foldM_inv (fun st => follows every d st.1)) in H1; [done| |done].
    intros [d2 f2] pkt [d3 f3] _ H2 H3. unfold process_packet in H3.
    apply (foldM_inv (fun st => follows every d st.1)) in H3; [done| |done].
    intros [d4 f4] c [d5 f5] _ H4 H5. etrans; [exact H4|]. by eapply process_cell_follows. }
  etrans; [exact Hf|]. apply view_follows. destruct (f && _); [|done]. unfold Schedule_Routes. by destruct (Schedule_Set_Route d1).
Qed.

Lemma send_updates_view now p d d' : Send_State_Updates now p d = Ret d' -> same_view d d'.
Proof.
  intros H. unfold Send_State_Updates in H. apply bind_Ret in H as ([flag d1] & H1 & H).
  assert (Hv : same_view d d1).
  { clear H. revert H1. generalize false as f. generalize (Z.of_nat <$> seq 0 (length (Neighbor_Nodes d))) as l. intros l. revert d.
    induction l as [|i l IH]; intros d f H; cbn [send_to_neighbors] in H; [injection H as <- <-; first [assumption|reflexivity]|].
    destruct (mjoin (Neighbor_Nodes d !! Z.to_nat i)) as [node|]; [|by eapply IH].
    apply bind_Ret in H as (nd & _ & H). apply bind_Ret in H as (c & _ & H). destruct c; [|by eapply IH].
    apply bind_Ret in H as ([r d2] & H2 & H). apply IH in H. etrans; [|exact H]. unfold Net_Send_State_Updates in H2.
    apply bind_Ret in H2 as (lid & _ & H2). apply bind_Ret in H2 as ([[ch pk] stop] & _ & H2). destruct stop; injection H2 as <- <-; by destruct p. }
  injection H as <-. destruct flag; [done|]. by destruct p.
Qed.

(** New routes come with an empty cache. *)
Lemma set_routes_follows now d d' : Set_Routes now d = Ret d' -> follows every d d'.
Proof.
  intros H. unfold Set_Routes in H. apply bind_Ret in H as (d1 & _ & H). apply bind_Ret in H as (rr & Hrr & H). injection H as <-.
  unfold RR_Init in Hrr. apply bind_Ret in Hrr as (rts & _ & Hrr). injection Hrr as <-. intros g _. left. apply lookup_empty.
Qed.

Lemma resend_follows now p d d' : Resend_States now p d = Ret d' -> follows every d d'.
Proof.
  assert (Hloop : forall dsts cnt d b d', resend_loop now p dsts cnt d = Ret (b, d') -> follows every d d').
  { clear. induction dsts as [|dst dsts IH]; intros cnt d b d' H; cbn [resend_loop] in H; [injection H as <- <-; first [assumption|reflexivity]|].
    apply bind_Ret in H as (s & Hs & H). destruct (_ && _); [|by eapply IH]. apply bind_Ret in H as (d1 & H1 & H).
    assert (Hf : follows every d d1).
    { destruct p; [apply view_follows; apply add_edge_view in H1; by etrans; [|exact H1]|]. eapply add_group_follows; [|exact H1]. apply put_follows. }
    etrans; [exact Hf|]. destruct (500 <? cnt + 1); [injection H as <- <-; first [assumption|reflexivity]|by eapply IH]. }
  intros H. unfold Resend_States in H. destruct (All_States p d !! My_Address d) as [states|]; [|injection H as <-; by apply view_follows].
  apply bind_Ret in H as ([b d1] & H1%Hloop & H). injection H as <-. etrans; [exact H1|by apply view_follows].
Qed.

Lemma join_follows now g ses d r ses' d' : Join_Group now g ses d = Ret (r, ses', d') -> follows every d d'.
Proof.
  intros H. unfold Join_Group in H. destruct (negb _ && negb _); [injection H as <- <- <-; reflexivity|].
  destruct (negb (udp_ses ses)); [injection H as <- <- <-; reflexivity|]. destruct (decide _); [injection H as <- <- <-; reflexivity|].
  apply bind_Ret in H as (d1 & H1 & H). apply bind_Ret in H as (s & Hs & H). apply bind_Ret in H as ([r1 d2] & H2 & H).
  assert (Hf : follows every d d2).
  { destruct (_ =? 0); [|injection H2 as <- <-; by eapply ensure_group_follows]. apply bind_Ret in H2 as (d3 & H3 & H2). injection H2 as <- <-.
    eapply add_group_follows; [|exact H3]. etrans; [by eapply ensure_group_follows|apply put_follows]. }
  apply bind_Ret in H as (s2 & Hs2 & H). apply or_else_Ret in Hs2; [|done]. injection H as <- <- <-.
  etrans; [exact Hf|]. apply put_same_follows. unfold member. by rewrite Hs2.
Qed.

Lemma leave_follows now g ses d r ses' d' : Leave_Group now g ses d = Ret (r, ses', d') -> follows every d d'.
Proof.
  intros H. unfold Leave_Group in H. destruct (negb _ && negb _); [injection H as <- <- <-; reflexivity|].
  destruct (decide (g ∈ joined_groups ses)); [|injection H as <- <- <-; reflexivity].
  apply bind_Ret in H as (s & Hs & H). apply or_else_Ret in Hs; [|done]. cbn [sess_id] in H.
  destruct (decide (sess_id ses ∈ extra s)); [|done]. destruct (decide _).
  - apply bind_Ret in H as (d3 & H3 & H). injection H as <- <- <-. eapply add_group_follows; [|exact H3]. apply put_follows.
  - injection H as <- <- <-. apply put_same_follows. unfold member. by rewrite Hs.
Qed.

(** Collecting changes neither routes nor cache, and of the groups only what
    expired. *)
Definition routing_kept (p : prot) (d d' : daemon) : Prop :=
  Current_Routing d' = Current_Routing d /\ My_Address d' = My_Address d /\ (p = EdgeP -> All_Groups_by_Node d' = All_Groups_by_Node d).

Lemma collect_routing now p d d' : State_Garbage_Collect now p d = Ret d' -> routing_kept p d d'.
Proof.
  assert (Hrm : forall id d1 d2, routing_kept p d d1 -> remove_node_or_exit id d1 = Ret d2 -> routing_kept p d d2).
  { intros id d1 d2 HQ. unfold remove_node_or_exit, Try_Remove_Node. destruct (id =? _); [by intros [= <-]|].
    destruct (All_Edges d1 !! id); [by intros [= <-]|]. destruct (existsb _ _); [by intros [= <-]|]. destruct (Get_Node d1 id); [by intros [= <-]|done]. }
  intros H. unfold State_Garbage_Collect in H. apply bind_Ret in H as (d1 & H1 & H). injection H as <-.
  apply (foldM_inv (routing_kept p d)) in H1; [done| |done]. clear d1 H1. intros d1 src d2 _ HQ H. unfold gc_chain in H.
  apply bind_Ret in H as (st & _ & H). apply bind_Ret in H as (d3 & H3 & H). apply bind_Ret in H as (st' & _ & H). injection H as <-.
  apply (foldM_inv (routing_kept p d)) in H3; [destruct (_ =? 0)%nat; [|done]; destruct p; [exact H3|by destruct H3 as (? & ? & _)]| |done]. clear d3 HQ H3. intros d3 x d4 _ HQ H. unfold gc_state in H.
  apply bind_Ret in H as (s1 & _ & H). apply bind_Ret in H as (s2 & _ & H). destruct (expired now s2); [|by injection H as <-].
  apply bind_Ret in H as (d5 & H5 & H). destruct p.
  - injection H5 as <-. apply bind_Ret in H as (d6 & H6 & H). eapply Hrm; [|exact H]. eapply Hrm; [|exact H6]. done.
  - injection H as <-. apply gc_by_dest_names in H5 as (names & -> & _). by destruct HQ as (? & ? & _).
Qed.

Lemma collect_follows now p d d' :
  State_Garbage_Collect now p d = Ret d' ->
  (forall a g, member d a g = true -> is_Some (Find_State (All_Groups_by_Node d') a g)) -> follows every d d'.
Proof.
  intros H Hkept. destruct (collect_routing now p d d' H) as (R & M & Hg). destruct p; [apply view_follows; split_and!; auto|].
  pose proof (gc_effect now GroupsP d d' H) as He. cbn in He. intros g _. right. rewrite R. split_and!; try done. intros a.
  specialize (Hkept a g). unfold member in *. rewrite He in *. destruct (Find_State (All_Groups_by_Node d) a g) as [s|]; [|done].
  unfold survives in *. cbn in *. destruct (expired now s) eqn:E; cbn in *; [|done].
  destruct (group_active s) eqn:Ea; [|done]. destruct (Hkept eq_refl) as [? ?]. done.
Qed.

(** ** Answering *)

(** The states of a group in the order [order] its table is visited. *)
Definition group_members (d : daemon) (group : Z) (order : list Z) : list Group_State :=
  omap (fun a => Find_State (All_Groups_by_Node d) a group) order.

Lemma fresh_answer d sender group order node_cost nodes :
  daemon_ok d -> All_Groups_by_Name d !! group = Some nodes -> order ≡ₚ elements nodes ->
  let '(_, best, nb) := foldl (mcast_step (Current_Routing d) (My_Address d) sender group node_cost) (false, None, ∅) (group_members d group order) in
  answers d sender group (match best with Some b => if Is_acast_addr group then {[b]} ∪ nb else nb | None => nb end).
Proof.
  intros Hok Hn Hord. pose proof (mcast_computed (Current_Routing d) (My_Address d) sender group node_cost (group_members d group order)) as Hc.
  destruct (foldl _ _ _) as [[stop best] nb]. set (ans := match best with Some b => _ | None => _ end) in *. clearbody ans. clear stop best nb.
  assert (Hel : forall g, g ∈ group_members d group order <-> exists a, Find_State (All_Groups_by_Node d) a group = Some g).
  { intros g. unfold group_members. rewrite list_elem_of_omap. split; [intros (a & _ & Ha); by exists a|]. intros [a Ha]. exists a. split; [|done].
    rewrite Hord. apply elem_of_elements. assert (Hin : a ∈ default ∅ (All_Groups_by_Name d !! group)) by (apply (dk_names d Hok); by exists g).
    by rewrite Hn in Hin. }
  assert (Hm : forall a, member d a group = true <-> exists g, g ∈ group_members d group order /\ group_active g = true /\ source_addr g = a).
  { intros a. unfold member. split.
    - destruct (Find_State _ a group) as [g|] eqn:E; [|done]. intros Ha. exists g. rewrite Hel. split_and!; [by exists a|done|apply (dk_groups d Hok _ _ _ E)].
    - intros (g & [a' Hg]%Hel & Ha & <-). destruct (dk_groups d Hok _ _ _ Hg) as [-> _]. by rewrite Hg. }
  assert (Hhops : forall h, h ∈ member_hops (Current_Routing d) sender (group_members d group order) <->
            exists a, member d a group = true /\ RR_Get_Next_Hop (Current_Routing d) sender a = Some h).
  { intros h. unfold member_hops. rewrite list_elem_of_omap. split.
    - intros (g & Hg & Hh). destruct (group_active g) eqn:Ea; [|done]. exists (source_addr g). split; [|done]. apply Hm. by exists g.
    - intros (a & (g & Hg & Ha & <-)%Hm & Hh). exists g. by rewrite Ha. }
  destruct Hc as [H1 H2]. split.
  - intros Hmc h. rewrite (H1 Hmc), elem_of_list_to_set. apply Hhops.
  - intros Ha. specialize (H2 Ha).
    assert (Hl : local_member (My_Address d) (group_members d group order) = member d (My_Address d) group).
    { apply eq_true_iff_eq. rewrite Hm. unfold local_member. rewrite existsb_exists. split.
      - intros (g & Hg%list_elem_of_In & [Hga Hgs%Z.eqb_eq]%andb_true_iff). by exists g.
      - intros (g & Hg & Hga & Hgs). exists g. split; [by apply list_elem_of_In|]. apply andb_true_iff. split; [done|by apply Z.eqb_eq]. }
    rewrite Hl in H2. destruct (member d (My_Address d) group); [done|]. destruct H2 as (best & Hb & ->). destruct best as [b|]; cbn.
    + destruct Hb as [(a & Hma & Hh)%Hhops _]. right. exists a, b. split; [by rewrite union_empty_r_L|done].
    + left. split; [done|]. intros a Hma. destruct (RR_Get_Next_Hop _ sender a) as [h|] eqn:Eh; [|done]. exfalso.
      assert (Hin : h ∈ member_hops (Current_Routing d) sender (group_members d group order)) by (apply Hhops; by exists a).
      cbn in Hb. rewrite Hb in Hin. by apply elem_of_nil in Hin.
Qed.

(** The daemon with its lookups: any step of the flooding that forgets no
    active membership, and any lookup. *)
Inductive cache_step : daemon -> daemon -> Prop :=
| CStep d d' : daemon_step d d' -> (forall a g, member d a g = true -> is_Some (Find_State (All_Groups_by_Node d') a g)) -> cache_step d d'
| CLookup d sender group nodes order node_cost nb rr :
    All_Groups_by_Name d !! group = Some nodes -> order ≡ₚ elements nodes ->
    RR_Get_Mcast_Neighbors (My_Address d) node_cost (Some (group_members d group order)) (Current_Routing d) sender group = (nb, rr) ->
    cache_step d (with_routing rr (Schedule_Set_Route d) d).

Lemma lookup_answers d sender group nodes order node_cost :
  daemon_ok d -> cache_ok d -> All_Groups_by_Name d !! group = Some nodes -> order ≡ₚ elements nodes ->
  exists nb sources, RR_Get_Mcast_Neighbors (My_Address d) node_cost (Some (group_members d group order)) (Current_Routing d) sender group =
    (Some nb, mk_regime (Num_Nodes (Current_Routing d)) (Node_IDs (Current_Routing d)) (Node_Indexes (Current_Routing d)) (Routes (Current_Routing d))
                (<[group := sources]> (Groups (Current_Routing d)))) /\
    answers d sender group nb /\ sources !! sender = Some nb /\
    (forall s nb', sources !! s = Some nb' -> answers d s group nb').
Proof.
  intros Hok Hc Hn Hord. unfold RR_Get_Mcast_Neighbors. set (src := default ∅ (Groups (Current_Routing d) !! group)).
  assert (Hsrc : forall s nb', src !! s = Some nb' -> answers d s group nb').
  { intros s nb' Hs. subst src. destruct (Groups (Current_Routing d) !! group) as [so|] eqn:E; cbn in Hs; [by eapply Hc|by rewrite lookup_empty in Hs]. }
  destruct (src !! sender) as [nb|] eqn:E; [exists nb, src; split_and!; auto|].
  pose proof (fresh_answer d sender group order node_cost nodes Hok Hn Hord) as Hf. destruct (foldl _ _ _) as [[stop best] nb].
  eexists _, _. split; [done|]. split; [exact Hf|]. split; [apply lookup_insert_eq|].
  intros s nb'. rewrite lookup_insert_Some. intros [[<- <-]|[_ Hs]]; [exact Hf|by apply Hsrc].
Qed.

Lemma cache_step_ok d d' : daemon_ok d /\ cache_ok d -> cache_step d d' -> daemon_ok d' /\ cache_ok d'.
Proof.
  intros [Hok Hc] Hst. destruct Hst as [d d' Hst Hkept|d sender group nodes order node_cost nb rr Hn Hord H].
  - split; [by eapply ok_step|]. eapply follows_cache; [|exact Hc].
    destruct Hst; [by eapply view_follows, create_node_view|by eapply view_follows, create_edge_view|by eapply process_body_follows
      |by eapply view_follows, send_updates_view|by eapply set_routes_follows|by eapply resend_follows|by eapply collect_follows
      |by eapply join_follows|by eapply leave_follows].
  - split; [eapply ok_frame; [exact Hok|done|by intros []]|].
    destruct (lookup_answers d sender group nodes order node_cost Hok Hc Hn Hord) as (nb' & src & H' & _ & _ & Hall).
    rewrite H in H'. injection H' as -> ->. intros g sources s x. cbn. rewrite lookup_insert_Some. intros [[<- <-]|[_ Hg]] Hs.
    + apply (Hall s x Hs).
    + apply (Hc g sources s x Hg Hs).
Qed.
End Mcast.
