(* ===== verification/FloodProps.v ===== *)
(** * FloodProps: properties of the flooding of states

    Newer states win, the local node stays the authority on its own states,
    nothing pending is lost or sent twice, messages fit their packets, and the
    tables stay fit for the route computation. *)
From stdpp Require Import base list gmap numbers option sets sorting relations.
From Stdlib Require Import ZArith Lia.
From S2P Require Import Prelude HashMap Events NetTypes Route RouteProof Daemon StateFlood FloodProof FloodSend DaemonInv FloodTotal.
#[local] Open Scope Z_scope.

(** ** An example daemon: node 1 with neighbours 2 and 3 *)
Module ExF.
#[export] Instance order : HashOrder :=
  {| hash_iter := fun K _ _ V m => map_to_list m; hash_iter_perm := fun K _ _ V m => reflexivity _ |}.
#[export] Instance korder : KeyedOrder :=
  {| keyed_iter := fun A l => l; keyed_iter_perm := fun A l => reflexivity _ |}.

Definition edge (a b c s : Z) (lg : option Z) : Edge := mk_state a b s 0 s 0 c 0 (mk_edge_extra c 0 0 lg).

Definition nodes : gmap Z Node :=
  list_to_map [(1, mk_node 1 false (-1) (-1)); (2, mk_node 2 true 0 (-1)); (3, mk_node 3 true 1 (-1))].
Definition edges : chain Edge_Extra :=
  list_to_map [(1, list_to_map [(2, edge 1 2 5 100 (Some 70)); (3, edge 1 3 7 100 (Some 71))]);
               (2, list_to_map [(3, edge 2 3 4 90 None)])].
Definition d0 : daemon :=
  mk_daemon 1 false nodes [1; 2; 3] edges ∅ ∅ ∅ ∅ 10 [Some 2; Some 3]
    (list_to_map [(70, 700); (71, 710)]) (mk_regime 0 [] ∅ [] ∅) false [] [] [].

Definition now : sp_time := mk_time 120 0.
Definition cell (dst s v : Z) : State_Cell := mk_cell dst s 0 v 0 11.
(** Node 2 reports a newer cost of its edge to 3, a stale and a false report. *)
Definition body : list State_Packet :=
  [mk_packet 2 [cell 3 110 9; cell 3 80 1]; mk_packet 1 [cell 2 500 77]].
Definition d1 : daemon := match Process_state_body now EdgeP 2 body d0 with Ret d => d | _ => d0 end.

(** Every state of a small table satisfies [P]. *)
Lemma edges_all (P : Z -> Z -> Edge -> Prop) :
  P 1 2 (edge 1 2 5 100 (Some 70)) -> P 1 3 (edge 1 3 7 100 (Some 71)) -> P 2 3 (edge 2 3 4 90 None) ->
  forall a b e, Find_State edges a b = Some e -> P a b e.
Proof.
  intros H1 H2 H3 a b e H. unfold Find_State in H. destruct (edges !! a) as [st|] eqn:Ea; [|done]. cbn in H.
  apply elem_of_list_to_map_2 in Ea. rewrite !elem_of_cons, elem_of_nil in Ea.
  destruct Ea as [Ea|[Ea|[]]]; injection Ea as -> ->;
    repeat (apply lookup_insert_Some in H as [[<- <-]|[_ H]]; [done|]); by rewrite lookup_empty in H.
Qed.

Lemma node_is x : is_Some (Get_Node d0 x) <-> x = 1 \/ x = 2 \/ x = 3.
Proof.
  unfold Get_Node. simpl. split.
  - intros [nd Hnd]. apply elem_of_list_to_map_2 in Hnd. rewrite !elem_of_cons, elem_of_nil in Hnd.
    destruct_or? Hnd; simplify_eq; tauto.
  - intros [->|[->| ->]]; by eexists.
Qed.

Lemma d0_ok : daemon_ok d0.
Proof.
  split.
  - intros x. rewrite node_is. simpl. rewrite !elem_of_cons, elem_of_nil. tauto.
  - repeat constructor.
  - apply edges_all; rewrite !node_is; simpl; unfold in_s; (split_and!; [done|done|tauto|tauto|lia|lia]).
  - intros a b s H. unfold Find_State in H. simpl in H. by rewrite lookup_empty in H.
  - intros a g. unfold Find_State. simpl. rewrite !lookup_empty. simpl. split; [by intros []|by intros []%elem_of_empty].
  - rewrite node_is. by left.
Qed.

(** Both neighbours are connected. *)
Lemma d0_ready : ready d0 2.
Proof.
  split; [by eexists|]. split.
  - exists (mk_node 2 true 0 (-1)). unfold MAX_NEIGHBORS. simpl. split_and!; done || lia.
  - exists (edge 1 2 5 100 (Some 70)). done.
Qed.
End ExF.

Section Props.
Context `{HO : HashOrder} `{KO : KeyedOrder}.

(** C28: the flood of a connected neighbour is always processed to its end,
    whatever the packets contain: the process does not end and no pointer
    dangles.  No state is lost or replaced by an older one; afterwards every
    cell of the packets is covered by a state at least as new; and the values
    of the local node's own states are not changed by what others say. *)
Theorem flood_never_goes_back (now : sp_time) (p : prot) (sender : Z) (body : list State_Packet) (d : daemon) :
  ready d sender -> Forall (fun pkt => Forall valid_cell (sp_cells pkt)) body ->
  exists d', Process_state_body now p sender body d = Ret d' /\
  (forall a b s, Find_State (All_States p d) a b = Some s ->
     exists s', Find_State (All_States p d') a b = Some s' /\ E_compare_time (ts s) (ts s') <= 0 /\
       (a = My_Address d -> value s' = value s)) /\
  (forall pkt c, pkt ∈ body -> c ∈ sp_cells pkt ->
     exists s, Find_State (All_States p d') (sp_source pkt) (c_dest c) = Some s /\
       E_compare_time (cell_time c) (ts s) <= 0).
Proof.
  intros Hr Hv. destruct (process_body_total now p sender body d Hr) as (d' & H & _). exists d'. split; [done|].
  destruct (process_body_advances now p sender body d d' Hv H) as [[_ Ha] Hc]. split.
  - intros a b s Hs. destruct (Ha a b s Hs) as (s' & Hs' & Hle & _ & _ & Hval). exists s'. by split_and!.
  - intros pkt c Hp Hin. destruct (Hc pkt c Hp Hin) as (s & Hs & Hle). by exists s.
Qed.

(** C2: what one cell received from a connected neighbour does; it is always
    processed to the end.  A cell that is not newer than the stored
    state changes no state and no pending change, except that a cell with
    exactly the stored timestamp sets the sender's bit (and no other) in the
    mask of a buffered change of that state, so it is not sent back.  A newer cell about somebody else's state replaces
    value and timestamp, and the change is buffered for every neighbour except
    the one who sent it.  A newer cell about one of the local node's own
    states keeps the local value, gets a timestamp strictly newer than the
    cell's, and is buffered for every neighbour, the sender included. *)
Theorem flood_cell_outcome (now : sp_time) (p : prot) (sender source : Z) (d : daemon) (f : bool) (cell : State_Cell) :
  ready d sender -> valid_cell cell -> sender <> My_Address d ->
  exists d' f', process_cell now p sender source (d, f) cell = Ret (d', f') /\
  let old := Find_State (All_States p d) source (c_dest cell) in
  let new := Find_State (All_States p d') source (c_dest cell) in
  if from_option (fun s => older s cell) true old then
    exists s' cg, new = Some s' /\ Find_Changed_State (Changed_States p d') source (c_dest cell) = Some cg /\
      (if source =? My_Address d
       then value s' = from_option value (default_value p) old /\ E_compare_time (cell_time cell) (ts s') < 0 /\
            forall j, 0 <= j < MAX_NEIGHBORS -> mask_get j (mask cg) = false
       else value s' = c_value cell /\ ts s' = cell_time cell /\
            exists nd, Get_Node d' sender = Some nd /\
              forall j, 0 <= j < MAX_NEIGHBORS -> mask_get j (mask cg) = (j =? neighbor_id nd))
  else new = old /\ f' = f /\
    match Find_Changed_State (Changed_States p d) source (c_dest cell) with
    | Some cg =>
        if from_option (fun s => same_time s cell) false old
        then exists nd cg', Get_Node d sender = Some nd /\
          Find_Changed_State (Changed_States p d') source (c_dest cell) = Some cg' /\
          (mask_ok (mask cg) ->
           forall j, 0 <= j < MAX_NEIGHBORS -> mask_get j (mask cg') = (j =? neighbor_id nd) || mask_get j (mask cg))
        else d' = d
    | None => d' = d
    end.
Proof.
  intros Hr Hv Hsnd. destruct (process_cell_total now p sender source (d, f) cell Hr) as ([d' f'] & H & _).
  exists d', f'. split; [done|]. intros old new. unfold process_cell in H. fold old in H.
  destruct (from_option (fun s => older s cell) true old) eqn:Enew.
  2:{ subst old new. destruct (Find_State (All_States p d) source (c_dest cell)) as [s|] eqn:Eo; [|done].
      simpl in Enew. rewrite Enew in H. cbn [from_option]. rewrite <- Eo.
      destruct (Find_Changed_State (Changed_States p d) source (c_dest cell)) as [cg|] eqn:Ec;
        destruct (same_time s cell); try (by injection H as <- <-).
      apply bind_Ret in H as (nd & Hnd & H). apply or_else_Ret in Hnd; [|done].
      apply bind_Ret in H as (m & Hm & H). apply or_else_Ret in Hm; [|done]. injection H as <- <-.
      split; [by destruct p|]. split; [done|]. exists nd, (mk_changed (cg_src cg) (c_dest cell) m).
      split; [done|]. rewrite with_changed_get, find_put_changed, decide_True, Ec by done. split; [done|].
      intros Hok j Hj. apply mask_set_spec in Hm as (_ & _ & Hget); [|done]. by apply Hget. }
  assert (Hn : (match old with None => true | Some s_data => older s_data cell end) = true) by (by destruct old).
  rewrite Hn in H. clear Hn. apply bind_Ret in H as ([d1 prop] & H1 & H).
  apply process_state_cell_spec in H1 as (s' & HA & (_ & _ & Hc) & _ & HM & _ & _ & -> & Hown). fold old in Hc.
  destruct (Z.eqb_spec source (My_Address d)) as [Hme|Hme]; cbn [negb] in H.
  - injection H as <- <-. destruct (Hown Hme) as (cg & Hcg & Hmask). exists s', cg. subst new. rewrite HA, find_put_eq.
    split_and!; try done; [by destruct Hc| |].
    + destruct Hc as (_ & s0 & H1 & H2 & H3 & H4). unfold ts. rewrite H3, H4. apply (bump_later s0 cell Hv).
      unfold ts, cell_time. congruence.
    + intros j Hj. rewrite Hmask. by apply mask_zero_get.
  - apply bind_Ret in H as (d2 & H2 & H). injection H as <- <-.
    apply add_changed_spec in H2 as (s1 & nd & m & Hs1 & HA2 & _ & HK & HC & _ & Hnd & Hm & _).
    rewrite HA, find_put_eq in Hs1. injection Hs1 as <-. destruct Hc as (Ht1 & Ht2 & Hval).
    rewrite HM, (proj2 (Z.eqb_neq _ _)) in Hm by done. destruct Hm as [Hm _].
    eexists _, _. subst new. rewrite HA2, find_put_eq. split; [done|].
    rewrite HC, find_put_changed, decide_True by done. split; [done|]. cbn [mask]. split; [exact Hval|].
    split; [unfold ts, cell_time; cbn; by rewrite Ht1, Ht2|]. exists nd. split.
    + destruct HK as (_ & HN & _). unfold Get_Node in *. by rewrite HN.
    + intros j Hj. apply mask_set_spec in Hm as (_ & _ & Hget); [|apply mask_zero_ok].
      rewrite Hget by done. by rewrite mask_zero_get, orb_false_r.
Qed.

(** [Net_Send_State_All] announces every state of the table exactly as it
    is stored, in messages that fit a packet with room for the reliable tail,
    whose length is the size of their contents, and that have no empty state
    packet. *)
Theorem send_all_complete (now : sp_time) (p : prot) (linkid : Z) (d : daemon) :
  keyed (All_States p d) ->
  exists ms, sent (Net_Send_State_All now p linkid d) = sent d ++ ms /\ Forall (msg_ok p) ms /\
    contents (ms ≫= m_body) = announced now p <$> concat (chain_lists (All_States p d)) /\
    (forall a b s, Find_State (All_States p d) a b = Some s -> (a, cell_of now p s) ∈ contents (ms ≫= m_body)).
Proof.
  intros Hk. destruct (send_all_messages now p linkid d Hk) as (ms & Hs & Hm & Hc).
  exists ms. split_and!; try done. intros a b s Hf. rewrite Hc. apply list_elem_of_fmap. exists s.
  split; [|apply chain_lists_elem; by exists a, b]. unfold announced. by destruct (Hk _ _ _ Hf) as [-> _].
Qed.


(** C26: after a node has received the messages in which a neighbour announced
    its whole table, it knows every state the neighbour knows, at least as
    new. *)
Theorem full_state_sync (now nowB : sp_time) (p : prot) (linkid sender : Z) (dA dB : daemon) :
  keyed (All_States p dA) ->
  (forall a b s, Find_State (All_States p dA) a b = Some s -> valid_cell (cell_of now p s)) ->
  sent dA = [] -> ready dB sender ->
  exists dB',
  foldM (fun d m => Process_state_body nowB p sender (m_body m) d) dB (sent (Net_Send_State_All now p linkid dA)) = Ret dB' /\
  forall a b s, Find_State (All_States p dA) a b = Some s ->
    exists s', Find_State (All_States p dB') a b = Some s' /\ E_compare_time (ts s) (ts s') <= 0.
Proof.
  intros Hk Hval Hsent Hr.
  destruct (foldM_total (fun d => ready d sender) (fun d m => Process_state_body nowB p sender (m_body m) d)
    (sent (Net_Send_State_All now p linkid dA)) dB) as (dB' & H & _);
    [intros d m _ Hd; by apply process_body_total|done|].
  exists dB'. split; [done|]. clear Hr. intros a b s Hs. destruct (send_all_messages now p linkid dA Hk) as (ms & Hms & _ & Hc).
  rewrite Hms, Hsent in H. cbn [app] in H.
  assert (Hin : (a, cell_of now p s) ∈ contents (ms ≫= m_body)).
  { rewrite Hc. apply list_elem_of_fmap. exists s. split; [|apply chain_lists_elem; by exists a, b].
    unfold announced. by destruct (Hk _ _ _ Hs) as [-> _]. }
  assert (Hcells : Forall (fun m => Forall (fun pkt => Forall valid_cell (sp_cells pkt)) (m_body m)) ms).
  { apply Forall_forall. intros m Hm. apply Forall_forall. intros pkt Hp. apply Forall_forall. intros c Hcin.
    assert (Hx : (sp_source pkt, c) ∈ contents (ms ≫= m_body)).
    { unfold contents. apply list_elem_of_bind. exists pkt. split; [apply list_elem_of_fmap; by exists c|].
      apply list_elem_of_bind. by exists m. }
    rewrite Hc in Hx. apply list_elem_of_fmap in Hx as (s0 & Hx & Hs0). injection Hx as _ ->.
    apply chain_lists_elem in Hs0 as (a0 & b0 & Hs0). by apply (Hval a0 b0). }
  assert (Hcov : covers p dB' a (cell_of now p s)).
  { clear Hms Hc Hval Hsent Hs. unfold contents in Hin. apply list_elem_of_bind in Hin as (pkt & Hcp & Hpk).
    apply list_elem_of_bind in Hpk as (m & Hpm & Hm). apply list_elem_of_fmap in Hcp as (c & Hcp & Hcin).
    injection Hcp as -> ->. revert dB H. induction ms as [|m0 ms IH]; intros dB H; [by apply elem_of_nil in Hm|].
    inversion_clear Hcells as [|? ? Hv0 Hvs]. cbn [foldM] in H. apply bind_Ret in H as (d1 & H1 & H).
    apply elem_of_cons in Hm as [->|Hm]; [|by eapply IH].
    apply process_body_advances in H1 as [_ Hc1]; [|done]. specialize (Hc1 pkt c Hpm Hcin).
    clear IH Hpm Hcin Hv0. revert d1 Hc1 H. induction Hvs as [|m1 ms Hv1 _ IH]; intros d1 Hc1 H; [by injection H as <-|].
    cbn [foldM] in H. apply bind_Ret in H as (d2 & H2 & H). apply process_body_advances in H2 as [Ha2 _]; [|done].
    eapply IH; [|exact H]. by eapply covers_advances. }
  destruct Hcov as (s' & Hs' & Hle). cbn [c_dest cell_of] in Hs'. exists s'. split; [|exact Hle].
  destruct (Hk _ _ _ Hs) as [_ Hd]. by rewrite Hd in Hs'.
Qed.
End Props.

Section Props2.
Context `{HO : HashOrder} `{KO : KeyedOrder}.

(** Garbage collection of consistent tables runs to its end; it removes exactly the states whose age, from the local
    time of their last update, has reached 90000 seconds, and leaves every
    other state as it is. *)
Theorem garbage_collect_exact (now : sp_time) (p : prot) (d : daemon) :
  daemon_ok d ->
  exists d', State_Garbage_Collect now p d = Ret d' /\
    forall a b, Find_State (All_States p d') a b =
      (s ← Find_State (All_States p d) a b; if expired now s then None else Some s).
Proof.
  intros Hok. destruct (gc_total now p d Hok) as [d' H]. exists d'. split; [done|].
  intros a b. rewrite (gc_effect now p d d' H). by destruct (Find_State _ a b).
Qed.

(** C29: from consistent tables, however often and in whatever order the
    daemon creates configured nodes and edges, processes floods, sends
    updates, recomputes routes, refreshes and collects states and joins and
    leaves groups (the steps of [daemon_step]; legs and the costs they report
    are the subject of the hello theorems): the ordered list of nodes is
    strictly sorted and lists exactly the nodes of the table, every edge is
    stored under its own ends, joins known nodes and has a 16-bit cost, there
    is at most one edge per pair, and, with at most 32768 nodes, [RR_Init]
    succeeds and never ends the process. *)
Theorem daemon_topology_invariant (d0 d : daemon) :
  daemon_ok d0 -> rtc daemon_step d0 d -> Z.of_nat (length (All_Nodes_by_ID d)) <= 32768 ->
  StronglySorted Z.lt (All_Nodes_by_ID d) /\
  (forall x, x ∈ All_Nodes_by_ID d <-> is_Some (Get_Node d x)) /\
  (forall a b e, Get_Edge d a b = Some e ->
     source_addr e = a /\ dest_addr e = b /\ is_Some (Get_Node d a) /\ is_Some (Get_Node d b) /\ in_s 16 (cost e)) /\
  valid_topology (All_Nodes_by_ID d) (edge_list d) /\
  exists rr, RR_Init (My_Address d) (All_Nodes_by_ID d) (edge_list d) = Ret rr.
Proof.
  intros Hok Hsteps Hsize.
  assert (Hd : daemon_ok d).
  { clear Hsize. induction Hsteps as [|d1 d2 d3 H12 _ IH]; [done|]. apply IH. by eapply ok_step; [exact Hok|exact H12]. }
  pose proof (ok_topology d Hd Hsize) as Hvt.
  split; [apply dk_sorted, Hd|]. split; [apply dk_ids, Hd|]. split; [apply dk_edges, Hd|]. split; [done|].
  assert (Hmy : My_Address d ∈ All_Nodes_by_ID d) by (rewrite (dk_ids d Hd); exact (dk_my d Hd)).
  destruct (ids_lookup (All_Nodes_by_ID d) (My_Address d) Hmy) as (t & _ & Ht & _).
  destruct (RR_Init_matrix _ _ Hvt (My_Address d) t (edge_list d) ltac:(done) Ht) as (rr & Hrr & _). by exists rr.
Qed.

(** C36: the neighbours a multicast message is sent to.  From consistent tables
    with an empty cache, after any steps of the flooding (floods received and
    sent, routes recomputed, joins and leaves, collections that forget no
    active membership) and any lookups in between, [RR_Get_Mcast_Neighbors]
    answers for a known multicast group exactly the next hops towards the
    nodes that are active members now, from the cache or not; for an anycast
    group nobody if the local node is an active member, else the next hop
    towards one active member that can be reached, or nobody if there is none. *)
Theorem mcast_neighbors_correct (d0 d : daemon) (sender group : Z) (nodes : gset Z) (order : list Z) (node_cost : Z -> Z) :
  daemon_ok d0 -> Groups (Current_Routing d0) = ∅ -> rtc cache_step d0 d ->
  All_Groups_by_Name d !! group = Some nodes -> order ≡ₚ elements nodes ->
  let hop a := RR_Get_Next_Hop (Current_Routing d) sender a in
  exists nb rr,
    RR_Get_Mcast_Neighbors (My_Address d) node_cost (Some (group_members d group order)) (Current_Routing d) sender group = (Some nb, rr) /\
    (Is_mcast_addr group = true -> forall h, h ∈ nb <-> exists a, member d a group = true /\ hop a = Some h) /\
    (Is_acast_addr group = true ->
       if member d (My_Address d) group then nb = ∅
       else (nb = ∅ /\ forall a, member d a group = true -> hop a = None) \/
            exists a h, nb = {[h]} /\ member d a group = true /\ hop a = Some h) /\
    (Groups rr !! group ≫= (.!! sender)) = Some nb.
Proof.
  intros Hok He Hst Hn Hord hop.
  assert (Hd : daemon_ok d /\ cache_ok d).
  { apply (rtc_ind_r (fun d => daemon_ok d /\ cache_ok d)) with (x := d0) in Hst; [done| |].
    - split; [done|]. intros g sources s nb Hg. by rewrite He, lookup_empty in Hg.
    - intros d1 d2 _ Hs IH. by eapply cache_step_ok. }
  destruct Hd as [Hd Hc]. destruct (lookup_answers d sender group nodes order node_cost Hd Hc Hn Hord) as (nb & src & Hrun & [H1 H2] & Hin & _).
  eexists nb, _. split; [exact Hrun|]. split; [exact H1|]. split; [exact H2|]. cbn. by rewrite lookup_insert_eq.
Qed.
End Props2.

(** Logical link-state timestamps compare like a clock that wraps around:
    a timestamp at most a quarter of the range ahead of another one compares
    higher, also across the wrap, so an increment always yields a higher
    timestamp; comparison is antisymmetric. *)
Theorem lts_wraparound_order (a b : Z) :
  in_u 16 a -> in_u 16 b ->
  (0 < lts_ahead a b <= 2 ^ 14 -> Link_State_LTS_cmp a b = 1) /\
  Link_State_LTS_cmp b a = - Link_State_LTS_cmp a b /\
  Link_State_LTS_cmp (Link_State_LTS_inc a) a = 1.
Proof.
  unfold in_u, lts_ahead. intros Ha Hb.
  assert (Hahead : forall x y, 0 <= x < 2 ^ 16 -> 0 <= y < 2 ^ 16 -> 0 < (x - y) mod 2 ^ 16 <= 2 ^ 14 -> Link_State_LTS_cmp x y = 1).
  { intros x y Hx Hy Hxy. unfold Link_State_LTS_cmp, LTS_THREE_QUARTER_RANGE, LTS_QUARTER_RANGE.
    change (Z.shiftr 0xFFFF 2 + 1) with 16384. destruct (Z.ltb_spec x y) as [Hlt|Hge].
    - replace ((x - y) mod 2 ^ 16) with (x - y + 2 ^ 16) in Hxy.
      + rewrite (proj2 (Z.ltb_lt x 16384)), (proj2 (Z.leb_le _ y)) by lia. done.
      + apply Z.mod_unique_pos with (-1); lia.
    - rewrite Z.mod_small in Hxy by lia. rewrite (proj2 (Z.eqb_neq x y)) by lia. cbn [negb].
      destruct (Z.ltb_spec y 16384), (Z.leb_spec (16384 + 16384 + 16384) x); cbn [andb]; lia. }
  split_and!.
  - by apply Hahead.
  - unfold Link_State_LTS_cmp. destruct (Z.ltb_spec b a), (Z.ltb_spec a b); try lia.
    + rewrite (proj2 (Z.eqb_neq a b)) by lia. cbn [negb].
      by destruct ((b <? LTS_QUARTER_RANGE) && (LTS_THREE_QUARTER_RANGE <=? a)).
    + rewrite (proj2 (Z.eqb_neq b a)) by lia. cbn [negb].
      by destruct ((a <? LTS_QUARTER_RANGE) && (LTS_THREE_QUARTER_RANGE <=? b)).
    + assert (a = b) as -> by lia. by rewrite Z.eqb_refl.
  - apply Hahead; [apply wrapu_range; lia|done|]. unfold Link_State_LTS_inc, u16, wrapu.
    rewrite Zminus_mod_idemp_l. replace (a + 1 - a) with 1 by lia. rewrite Z.mod_small; lia.
Qed.

(** ** Witnesses *)
#[local] Existing Instance ExF.order.
#[local] Existing Instance ExF.korder.

Lemma flood_never_goes_back_witness :
  exists d', Process_state_body ExF.now EdgeP 2 ExF.body ExF.d0 = Ret d' /\
    (exists s', Find_State (All_States EdgeP d') 1 2 = Some s' /\ value s' = 5).
Proof.
  destruct (flood_never_goes_back ExF.now EdgeP 2 ExF.body ExF.d0 ExF.d0_ready) as (d' & Hd & H & _).
  - repeat constructor; vm_compute; intros; discriminate.
  - exists d'. split; [exact Hd|].
    destruct (H 1 2 (ExF.edge 1 2 5 100 (Some 70)) ltac:(vm_compute; reflexivity)) as (s' & Hs' & _ & Hv).
    exists s'. split; [exact Hs'|]. apply Hv. reflexivity.
Defined.

Lemma flood_cell_outcome_witness :
  exists d' f', process_cell ExF.now EdgeP 2 1 (ExF.d0, false) (ExF.cell 2 500 77) = Ret (d', f') /\
    exists s' cg, Find_State (All_States EdgeP d') 1 2 = Some s' /\ value s' = 5 /\
      Find_Changed_State (Changed_States EdgeP d') 1 2 = Some cg.
Proof.
  destruct (flood_cell_outcome ExF.now EdgeP 2 1 ExF.d0 false (ExF.cell 2 500 77) ExF.d0_ready) as (d' & f' & Hd & H).
  - vm_compute. repeat split; intros; discriminate.
  - vm_compute. discriminate.
  - exists d', f'. split; [exact Hd|]. cbv zeta in H. destruct H as (s' & cg & Hs & Hcg & Hv & _). exists s', cg.
    split; [exact Hs|]. split; [exact Hv|exact Hcg].
Defined.

Lemma send_all_complete_witness :
  exists ms, sent (Net_Send_State_All ExF.now EdgeP 700 ExF.d0) = ms /\ Forall (msg_ok EdgeP) ms /\ length ms = 1%nat.
Proof.
  destruct (send_all_complete ExF.now EdgeP 700 ExF.d0) as (ms & Hs & Hm & _).
  - intros a b s H. split; apply (dk_edges ExF.d0 ExF.d0_ok a b s H).
  - exists ms. split; [exact Hs|]. split; [exact Hm|]. vm_compute in Hs. subst ms. reflexivity.
Defined.





Lemma full_state_sync_witness :
  exists dB', foldM (fun d m => Process_state_body ExF.now EdgeP 2 (m_body m) d) ExF.d0
                (sent (Net_Send_State_All ExF.now EdgeP 700 ExF.d0)) = Ret dB' /\
    exists s', Find_State (All_States EdgeP dB') 2 3 = Some s' /\ E_compare_time (mk_time 90 0) (ts s') <= 0.
Proof.
  destruct (full_state_sync ExF.now ExF.now EdgeP 700 2 ExF.d0 ExF.d0) as (dB' & H & Hall).
  - intros a b s0 H. split; apply (dk_edges ExF.d0 ExF.d0_ok a b s0 H).
  - apply ExF.edges_all; vm_compute; repeat split; intros; discriminate.
  - reflexivity.
  - exact ExF.d0_ready.
  - exists dB'. split; [exact H|]. apply (Hall 2 3 (ExF.edge 2 3 4 90 None)). vm_compute. reflexivity.
Defined.

Lemma garbage_collect_exact_witness :
  exists d', State_Garbage_Collect (mk_time 90095 0) EdgeP ExF.d0 = Ret d' /\
    Find_State (All_States EdgeP d') 2 3 = None /\ is_Some (Find_State (All_States EdgeP d') 1 2).
Proof.
  destruct (garbage_collect_exact (mk_time 90095 0) EdgeP ExF.d0 ExF.d0_ok) as (d' & H & Hall).
  exists d'. split; [exact H|]. rewrite !Hall. split; vm_compute; [reflexivity|eexists; reflexivity].
Defined.

Lemma daemon_topology_invariant_witness :
  exists rr, RR_Init 1 (All_Nodes_by_ID ExF.d1) (edge_list ExF.d1) = Ret rr.
Proof.
  destruct (daemon_topology_invariant ExF.d0 ExF.d1 ExF.d0_ok) as (_ & _ & _ & _ & rr & Hrr).
  - eapply rtc_once, (SReceive ExF.now EdgeP 2 ExF.body); [|vm_compute; reflexivity].
    unfold small_cells, in_s. repeat constructor; vm_compute; intros; discriminate.
  - vm_compute. discriminate.
  - exists rr. exact Hrr.
Defined.

(** Node 3 joins group 0xE0000001; a message of node 1 to the group is asked for
    twice. *)
Module ExM.
Definition grp : Z := 0xE0000001.
Definition ret (o : outcome daemon) : daemon := match o with Ret d => d | _ => ExF.d0 end.
Definition d1 : daemon := ret (Set_Routes ExF.now ExF.d0).
Definition d2 : daemon := ret (Process_state_body ExF.now GroupsP 2 [mk_packet 3 [ExF.cell grp 110 1]] d1).
Definition ask (d : daemon) : option (gset Z) * Routing_Regime :=
  RR_Get_Mcast_Neighbors 1 (fun _ => -1) (Some (group_members d grp [3])) (Current_Routing d) 1 grp.
Definition d3 : daemon := with_routing (snd (ask d2)) (Schedule_Set_Route d2) d2.

Lemma cache_run : rtc cache_step ExF.d0 d3.
Proof.
  assert (H0 : All_Groups_by_Node ExF.d0 = ∅) by (vm_compute; reflexivity).
  assert (H1 : All_Groups_by_Node d1 = ∅) by (vm_compute; reflexivity).
  eapply rtc_l; [apply (CStep ExF.d0 d1)|].
  - apply (SSetRoutes ExF.now). vm_compute. reflexivity.
  - intros a g H. unfold member, Find_State in H. rewrite H0, lookup_empty in H. discriminate.
  - eapply rtc_l; [apply (CStep d1 d2)|].
    + apply (SReceive ExF.now GroupsP 2 [mk_packet 3 [ExF.cell grp 110 1]]); [|vm_compute; reflexivity].
      unfold small_cells, in_s. repeat constructor; vm_compute; intros; discriminate.
    + intros a g H. unfold member, Find_State in H. rewrite H1, lookup_empty in H. discriminate.
    + eapply rtc_l; [|apply rtc_refl].
      apply (CLookup d2 1 grp {[3]} [3] (fun _ => -1) (fst (ask d2)) (snd (ask d2))); [vm_compute; reflexivity|vm_compute; reflexivity|].
      change (My_Address d2) with 1. unfold ask. by destruct (RR_Get_Mcast_Neighbors _ _ _ _ _ _).
Qed.
End ExM.

Lemma mcast_neighbors_correct_witness :
  exists nb rr, ExM.ask ExM.d3 = (Some nb, rr) /\ elements nb = [3].
Proof.
  assert (Hc : Groups (Current_Routing ExF.d0) = ∅) by (vm_compute; reflexivity).
  assert (Hn : All_Groups_by_Name ExM.d3 !! ExM.grp = Some {[3]}) by (vm_compute; reflexivity).
  assert (Ho : [3] ≡ₚ elements ({[3]} : gset Z)) by (vm_compute; reflexivity).
  destruct (mcast_neighbors_correct ExF.d0 ExM.d3 1 ExM.grp {[3]} [3] (fun _ => -1) ExF.d0_ok Hc ExM.cache_run Hn Ho) as (nb & rr & H & _).
  exists nb, rr. split; [exact H|]. vm_compute in H. injection H as <- _. vm_compute. reflexivity.
Defined.

(** When the membership of node 3 has expired and is collected, the answer for
    the group stays in the cache: a message would still be sent towards it. *)
Example mcast_collected_member :
  let d := ExM.ret (State_Garbage_Collect (mk_time 100000 0) GroupsP ExM.d3) in
  member d 3 ExM.grp = false /\
  (elements <$> (Groups (Current_Routing d) !! ExM.grp ≫= (.!! 1))) = Some [3].
Proof. vm_compute. done. Qed.

Lemma lts_wraparound_order_witness : Link_State_LTS_cmp 3 65530 = 1 /\ Link_State_LTS_cmp (Link_State_LTS_inc 65535) 65535 = 1.
Proof.
  split.
  - destruct (lts_wraparound_order 3 65530) as [H _]; [unfold in_u; lia|unfold in_u; lia|].
    apply H. vm_compute. split; [reflexivity|discriminate].
  - destruct (lts_wraparound_order 65535 65535) as (_ & _ & H); [unfold in_u; lia|unfold in_u; lia|]. exact H.
Defined.
