(* ===== verification/MultiPath.v ===== *)
(** * MultiPath: node-disjoint paths (daemon/multipath.c)

    [Init_MultiPath] splits every node of the configuration into an inbound and
    an outbound node and builds the flow network; [MultiPath_Compute] finds up to
    [k] node-disjoint paths of least cost by successive shortest augmenting paths
    (Bellman-Ford on the residual network) and returns them as a bitmask of
    links; [MultiPath_Stamp_Bitmask] caches the masks per destination and number
    of paths.  Nodes are the 16-bit identifiers of the configuration.  Every flow
    edge has capacity 1; a pointer to one is the edge itself, [fe_id] telling
    them apart (a real edge has an even number, its residual twin the next).
    The arrays [incoming] and [outgoing] of the flow nodes are not read by these
    functions.  Allocation succeeds. *)
From stdpp Require Import base list gmap numbers option.
From Stdlib Require Import ZArith Lia.
From S2P Require Import Prelude NetTypes.
#[local] Open Scope Z_scope.

Definition MULTIPATH_MAX_K : Z := 5.
Definition DG_K_FLAG : Z := MULTIPATH_MAX_K + 1.
Definition USHRT_MAX : Z := 65535.

(** ** The flow network *)
Inductive fnode := Inbound (i : Z) | Outbound (i : Z).
#[export] Instance fnode_eq_dec : EqDecision fnode.
Proof. solve_decision. Defined.
#[export] Instance fnode_countable : Countable fnode.
Proof.
  refine (inj_countable' (fun n => match n with Inbound i => inl i | Outbound i => inr i end)
                         (fun x => match x with inl i => Inbound i | inr i => Outbound i end) _).
  by intros [].
Defined.

(** [fe_edge]: source and destination of the link the edge stands for, [None]
    between the two halves of a node. *)
Record Flow_Edge := mk_fe
  { fe_id : nat; fe_edge : option (Z * Z); start : fnode; end_ : fnode; index : Z; residual : bool }.
#[export] Instance Flow_Edge_eq_dec : EqDecision Flow_Edge.
Proof. solve_decision. Defined.

(** The number of the twin. *)
Definition twin_id (n : nat) : nat := if Nat.even n then S n else Nat.pred n.
(** A real edge and its residual twin are put in front of the list. *)
Definition add_pair (edge : option (Z * Z)) (a b : fnode) (idx : Z) (es : list Flow_Edge) : list Flow_Edge :=
  let real := mk_fe (length es) edge a b idx false in
  let resid := mk_fe (S (length es)) edge b a USHRT_MAX true in
  resid :: real :: es.

Definition add_node (es : list Flow_Edge) (i : Z) : list Flow_Edge := add_pair None (Inbound i) (Outbound i) USHRT_MAX es.

(** [link]: source, destination and index, as in [Sorted_Edges]. *)
Definition add_link (directed : bool) (es : list Flow_Edge) (link : Z * Z * Z) : list Flow_Edge :=
  let '(s, d, idx) := link in
  let es := add_pair (Some (s, d)) (Outbound s) (Inbound d) idx es in
  if directed then es else add_pair (Some (d, s)) (Outbound d) (Inbound s) idx es.

(** [Flow_Edge_Head.next]: [nodes] are the identifiers of the configured nodes
    in increasing order. *)
Definition Init_MultiPath (directed : bool) (nodes : list Z) (links : list (Z * Z * Z)) : list Flow_Edge :=
  foldl (add_link directed) (foldl add_node [] nodes) links.

(** ** Shortest augmenting paths *)

(** Current and base cost of the edge from one node to another. *)
Definition edge_table : Type := Z -> Z -> Z * Z.

(** The cost of a flow edge; [None] if the link is down. *)
Definition fe_cost (edges : edge_table) (use_base_cost require_reverse : bool) (e : Flow_Edge) : option Z :=
  cost ← match fe_edge e with
         | None => Some 0
         | Some (s, d) =>
             if use_base_cost then
               let c1 := (edges s d).2 in let c2 := (edges d s).2 in
               Some (if require_reverse then if c2 <? c1 then c1 else c2 else c1)
             else
               let c1 := (edges s d).1 in let c2 := (edges d s).1 in
               if (c1 =? -1) || require_reverse && (c2 =? -1) then None
               else
                 let c1 := s16 (Z.abs c1) in let c2 := s16 (Z.abs c2) in
                 Some (if require_reverse then if c2 <? c1 then c1 else c2 else c1)
         end;
  Some (if residual e then s16 (- cost) else cost).

Record bf_state := mk_bf
  { distance : gmap fnode Z; previous_edge : gmap fnode Flow_Edge; progress : bool }.

(** Every distance is [USHRT_MAX] at first. *)
Definition dist (b : bf_state) (v : fnode) : Z := default USHRT_MAX (distance b !! v).

Section compute.
Context (es : list Flow_Edge) (cost : Flow_Edge -> option Z).
(** Which flow nodes exist: the others are NULL pointers. *)
Context (node_exists : fnode -> bool).

(** [flow]: the flow of each edge; an edge is full at 1. *)
Definition relax (flow : gmap nat Z) (b : bf_state) (e : Flow_Edge) : bf_state :=
  match cost e with
  | None => b
  | Some c =>
      if (flow !!! fe_id e <? 1) && (dist b (start e) + c <? dist b (end_ e)) then
        mk_bf (<[end_ e := u16 (dist b (start e) + c)]> (distance b)) (<[end_ e := e]> (previous_edge b)) true
      else b
  end.

Definition round (flow : gmap nat Z) (b : bf_state) : bf_state :=
  foldl (relax flow) (mk_bf (distance b) (previous_edge b) false) es.

(** At most [n] rounds, until one makes no progress. *)
Fixpoint bellman_ford (n : nat) (flow : gmap nat Z) (b : bf_state) : bf_state :=
  match n with
  | O => b
  | S n => let b := round flow b in if progress b then bellman_ford n flow b else b
  end.

Definition initial_flow : gmap nat Z :=
  foldr (fun e f => <[fe_id e := if residual e then 1 else 0]> f) ∅ es.

Definition initial_bf (src : fnode) : bf_state := mk_bf {[ src := 0 ]} ∅ false.

(** The walk back from the destination; [fuel] bounds its length.  The bag is a
    list; erasing an edge that is not in it is not defined. *)
Fixpoint augment (fuel : nat) (prev : gmap fnode Flow_Edge) (src t : fnode) (flow : gmap nat Z) (bag : list Flow_Edge)
    : outcome (gmap nat Z * list Flow_Edge) :=
  if decide (t = src) then Ret (flow, bag)
  else match fuel with
  | O => Fault
  | S fuel =>
      e ← or_else (prev !! t) Fault;
      bag ← (if residual e then
               if decide (twin_id (fe_id e) ∈ fe_id <$> bag) then Ret (filter (fun x => fe_id x <> twin_id (fe_id e)) bag)
               else Fault
             else Ret (e :: bag));
      augment fuel prev src (start e) (<[twin_id (fe_id e) := 0]> (<[fe_id e := 1]> flow)) bag
  end.

(** The Ford-Fulkerson loop; [paths]: how many were found. *)
Fixpoint ford_fulkerson (k : nat) (num_nodes : nat) (src dst : fnode) (paths : nat) (flow : gmap nat Z) (bag : list Flow_Edge)
    : outcome (nat * list Flow_Edge) :=
  match k with
  | O => Ret (paths, bag)
  | S k =>
      if negb (node_exists src) then Fault else
      let b := bellman_ford (num_nodes * 2 + 1) flow (initial_bf src) in
      if progress b then Exit
      else if negb (node_exists dst) then Fault
      else if dist b dst =? USHRT_MAX then Ret (paths, bag)
      else
        '(flow, bag) ← augment (S (length es)) (previous_edge b) src dst flow bag;
        ford_fulkerson k num_nodes src dst (S paths) flow bag
  end.
End compute.

(** ** Bitmasks: lists of bytes *)
Definition empty_mask (size : nat) : list Z := repeat 0 size.

Definition mask_bit (i : Z) : Z := Z.shiftr 0x80 (i mod 8).

Definition set_index (mask : list Z) (i : Z) : outcome (list Z) :=
  b ← or_else (mask !! Z.to_nat (i / 8)) Fault;
  Ret (<[Z.to_nat (i / 8) := Z.lor b (mask_bit i)]> mask).

(** The links of the bag. *)
Definition bag_mask (size : nat) (bag : list Flow_Edge) : outcome (list Z) :=
  foldr (fun e r => m ← r; if decide (fe_edge e = None) then Ret m else set_index m (index e)) (Ret (empty_mask size)) bag.

Definition node_id (v : fnode) : Z := match v with Inbound i | Outbound i => i end.

(** The configuration: [MultiPath_Bitmask_Size], [Num_Nodes], the identifiers of
    the configured nodes, [Flow_Edge_Head.next] and [My_ID]. *)
Record mp_conf := mk_mp { mp_size : nat; mp_num_nodes : nat; mp_nodes : list Z; mp_edges : list Flow_Edge; mp_My_ID : Z }.

Definition MultiPath_Compute (mp : mp_conf) (edges : edge_table) (dest_id : Z) (k : nat)
    (use_base_cost require_reverse : bool) : outcome (nat * list Z) :=
  let '(mk_mp size num_nodes nodes es My_ID) := mp in
  if dest_id =? My_ID then Ret (k, empty_mask size)
  else
    '(n, bag) ← ford_fulkerson es (fe_cost edges use_base_cost require_reverse)
                  (fun v => bool_decide (node_id v ∈ nodes)) k num_nodes (Outbound My_ID) (Inbound dest_id)
                  0 (initial_flow es) [];
    mask ← bag_mask size bag;
    Ret (n, mask).

(** The loops over 64-bit words cover the whole words of a mask. *)
Definition words (size : nat) (mask : list Z) : list Z := take (size / 8 * 8) mask.

Definition MultiPath_Neighbor_On_Path (size : nat) (mask ngbr_mask : list Z) : bool :=
  negb (forallb (Z.eqb 0) (zip_with Z.land (words size mask) (words size ngbr_mask))).

Definition MultiPath_Is_Superset (size : nat) (old_mask new_mask : list Z) : bool :=
  let tmp1 := zip_with Z.lxor (words size old_mask) (words size new_mask) in
  let tmp2 := zip_with Z.land (words size old_mask) tmp1 in
  negb (forallb (Z.eqb 0) tmp1) && forallb (Z.eqb 0) tmp2.

Definition or_words (size : nat) (mask other : list Z) : list Z :=
  zip_with Z.lor (words size mask) (words size other) ++ drop (size / 8 * 8) mask.

Definition MultiPath_Create_Superset (size : nat) (old_mask new_mask : list Z) : list Z := or_words size old_mask new_mask.

Definition MultiPath_Is_Equal (size : nat) (old_mask new_mask : list Z) : bool :=
  bool_decide (words size old_mask = words size new_mask).

(** The mask of the link to a neighbour. *)
Definition neighbor_mask (size : nat) (i : Z) : outcome (list Z) :=
  if decide (Z.to_nat (i / 8) < size)%nat then Ret (<[Z.to_nat (i / 8) := mask_bit i]> (empty_mask size)) else Fault.

(** ** The cache *)
Notation mp_cache := (gmap (Z * Z) (list Z)).

Definition MultiPath_Clear_Cache (c : mp_cache) : mp_cache := ∅.

(** The answer for every larger number of paths, too, when fewer were found. *)
Definition spread (dest_id k : Z) (found : nat) (mask : list Z) (c : mp_cache) : mp_cache :=
  foldr (fun i c => if (i =? k) || (i <? Z.of_nat found) then c else <[(dest_id, i) := mask]> c) c (seqZ 0 (MULTIPATH_MAX_K + 1)).

Definition DG_NONE_GRAPH : Z := 0.
Definition DG_K2_GRAPH : Z := 1.
Definition DG_SRC_GRAPH : Z := 2.
Definition DG_DST_GRAPH : Z := 3.
Definition DG_SRC_DST_GRAPH : Z := 4.

(** What is read of a destination's dissemination graphs; [bitmasks] gives
    [None] for a NULL pointer. *)
Record DG_Dst := mk_dg { bitmasks : Z -> option (list Z); current_graph_type : Z }.

(** The cached mask for a destination and a number of paths, computed first when
    there is none.  [more]: fewer paths than asked for are the answer for the
    other numbers, too. *)
Definition cached_mask (more : bool) (mp : mp_conf) (edges : edge_table) (dest_id k : Z) (c : mp_cache)
    : outcome (list Z * mp_cache) :=
  match c !! (dest_id, k) with
  | Some mask => Ret (mask, c)
  | None =>
      '(ret, mask) ← MultiPath_Compute mp edges dest_id (Z.to_nat k) false false;
      let c := <[(dest_id, k) := mask]> c in
      let c := if more && (0 <? Z.of_nat ret) && (Z.of_nat ret <? k) then spread dest_id k ret mask c else c in
      Ret (mask, c)
  end.

(** [None]: rejected.  [dg]: [DG_Destinations]. *)
Definition MultiPath_Stamp_Bitmask (MAX_NODES : Z) (dg : Z -> DG_Dst) (mp : mp_conf) (edges : edge_table)
    (dest_id k : Z) (c : mp_cache) : outcome (option (list Z) * mp_cache) :=
  if (dest_id =? 0) && (0 <? k) || (MAX_NODES <? dest_id) then Ret (None, c)
  else
    let k := if (MULTIPATH_MAX_K <? k) && negb (k =? DG_K_FLAG) then MULTIPATH_MAX_K else k in
    let paths k := '(mask, c) ← cached_mask true mp edges dest_id k c; Ret (Some mask, c) in
    if k =? 0 then Ret (Some (repeat 255 (mp_size mp)), c)
    else if k =? DG_K_FLAG then
      let graph := current_graph_type (dg dest_id) in
      if (graph =? DG_SRC_GRAPH) || (graph =? DG_DST_GRAPH) then
        mask ← or_else (bitmasks (dg dest_id) graph) Fault; Ret (Some mask, c)
      else if (graph =? DG_K2_GRAPH) || (graph =? DG_SRC_DST_GRAPH) then
        '(mask, c) ← cached_mask false mp edges dest_id 2 c;
        if graph =? DG_SRC_DST_GRAPH then
          dg_mask ← or_else (bitmasks (dg dest_id) DG_SRC_DST_GRAPH) Fault; Ret (Some (or_words (mp_size mp) mask dg_mask), c)
        else Ret (Some mask, c)
      else paths 2
    else paths k.
