(* ===== verification/MultiPathProof.v ===== *)
(** * MultiPathProof: shortest augmenting paths and unit flows

    Walks over the available flow edges, the Bellman-Ford rounds of
    [MultiPath_Compute] under a feasible potential, the walk back that augments
    the flow, and the decomposition of a unit flow into paths. *)
From stdpp Require Import base list gmap numbers option sets.
From Stdlib Require Import ZArith Lia ListDec.
From S2P Require Import Prelude NetTypes MultiPath.
#[local] Open Scope Z_scope.

(** ** Walks *)
Section walks.
(** The arcs, with their costs. *)
Context (arc : Flow_Edge -> Z -> Prop).

Fixpoint walk (u : fnode) (w : list Flow_Edge) (v : fnode) (c : Z) : Prop :=
  match w with
  | [] => u = v /\ c = 0
  | e :: w => start e = u /\ exists c1, arc e c1 /\ walk (end_ e) w v (c - c1)
  end.

Lemma walk_app u w1 w2 v c :
  walk u (w1 ++ w2) v c <-> exists x c1, walk u w1 x c1 /\ walk x w2 v (c - c1).
Proof.
  revert u c. induction w1 as [|e w1 IH]; intros u c; cbn [walk app].
  - split; [intros H; exists u, 0; rewrite Z.sub_0_r; done|]. intros (x & c1 & [-> ->] & H). by rewrite Z.sub_0_r in H.
  - split.
    + intros (Hs & c1 & Ha & (x & c2 & H1 & H2)%IH). exists x, (c1 + c2). split.
      * split; [done|]. exists c1. split; [done|]. by replace (c1 + c2 - c1) with c2 by lia.
      * by replace (c - (c1 + c2)) with (c - c1 - c2) by lia.
    + intros (x & c2 & (Hs & c1 & Ha & H1) & H2). split; [done|]. exists c1. split; [done|]. apply IH.
      exists x, (c2 - c1). split; [done|]. by replace (c - c1 - (c2 - c1)) with (c - c2) by lia.
Qed.

(** A walk cut at one of its nodes. *)
Lemma walk_cut u w v c l1 a l2 :
  walk u w v c -> u :: (end_ <$> w) = l1 ++ a :: l2 ->
  exists w1 w2 c1, w = w1 ++ w2 /\ length w1 = length l1 /\ end_ <$> w2 = l2 /\ walk u w1 a c1 /\ walk a w2 v (c - c1).
Proof.
  revert u w c. induction l1 as [|x l1 IH]; intros u w c Hw Heq.
  - injection Heq as -> <-. exists [], w, 0. rewrite Z.sub_0_r. done.
  - injection Heq as -> Heq. destruct w as [|e w]; [by destruct l1|]. destruct Hw as (Hs & c1 & Ha & Hw).
    destruct (IH (end_ e) w _ Hw Heq) as (w1 & w2 & c2 & -> & Hl & H2 & Hw1 & Hw2).
    exists (e :: w1), w2, (c1 + c2). split; [done|]. split; [cbn; lia|]. split; [done|]. split.
    + split; [done|]. exists c1. split; [done|]. by replace (c1 + c2 - c1) with c2 by lia.
    + by replace (c - (c1 + c2)) with (c - c1 - c2) by lia.
Qed.

(** Potentials bound the cost of walks. *)
Definition feasible (π : fnode -> Z) : Prop := forall e c, arc e c -> π (end_ e) <= π (start e) + c.

Lemma walk_feasible π u w v c : feasible π -> walk u w v c -> π v <= π u + c.
Proof.
  intros Hπ. revert u c. induction w as [|e w IH]; intros u c; cbn [walk]; [intros [-> ->]; lia|].
  intros (<- & c1 & Ha & Hw). specialize (IH _ _ Hw). specialize (Hπ _ _ Ha). lia.
Qed.

(** Cycles cost nothing less than 0, so a walk can be made short. *)
Lemma walk_shorten π (V : list fnode) u w v c :
  feasible π -> (forall e c, arc e c -> start e ∈ V /\ end_ e ∈ V) -> V <> [] -> walk u w v c ->
  exists w' c', walk u w' v c' /\ (length w' < length V)%nat /\ c' <= c.
Proof.
  intros Hπ HV HVne. remember (length w) as n eqn:Hn. revert w c Hn. induction (lt_wf n) as [n _ IH]. intros w c -> Hw.
  destruct (decide (length w < length V)%nat) as [Hlt|Hge]; [by exists w, c|].
  assert (Hsub : forall x, x ∈ u :: (end_ <$> w) -> x ∈ V).
  { assert (Hends : forall u c, walk u w v c -> forall x, x ∈ end_ <$> w -> x ∈ V).
    { clear -HV. induction w as [|e w IHw]; intros u c Hw x Hx; [by apply elem_of_nil in Hx|].
      destruct Hw as (_ & c1 & Ha & Hw). apply elem_of_cons in Hx as [->|Hx]; [by apply (HV _ _ Ha)|by eapply IHw]. }
    intros x [->|Hx]%elem_of_cons; [|by eapply Hends]. destruct w as [|e w]; [cbn in Hge; destruct V; [done|cbn in Hge; lia]|].
    destruct Hw as (<- & c1 & Ha & _). by apply (HV _ _ Ha). }
  destruct (decide (NoDup (u :: (end_ <$> w)))) as [Hnd|Hnd].
  { assert (Hle : (length (u :: (end_ <$> w)) <= length V)%nat) by by apply submseteq_length, NoDup_submseteq.
    cbn in Hle. rewrite length_fmap in Hle. lia. }
  rewrite NoDup_ListNoDup in Hnd. apply not_NoDup in Hnd as (a & l1 & l2 & l3 & Heq);
    [|intros x y; destruct (decide (x = y)); [by left|by right]].
  destruct (walk_cut _ _ _ _ _ _ _ Hw Heq) as (w1 & w2 & c1 & Hw12 & Hl1 & H2 & Hw1 & Hw2).
  destruct (walk_cut a w2 v (c - c1) (a :: l2) a l3 Hw2) as (w3 & w4 & c3 & Hw34 & Hl3 & H4 & Hw3 & Hw4); [by rewrite H2|].
  pose proof (walk_feasible π _ _ _ _ Hπ Hw3) as Hcyc.
  destruct (IH (length (w1 ++ w4))) with (w := w1 ++ w4) (c := c - c3) as (w' & c' & H' & Hlen' & Hc').
  - subst w w2. rewrite !length_app. cbn in Hl3. lia.
  - done.
  - apply walk_app. exists a, c1. split; [done|]. by replace (c - c3 - c1) with (c - c1 - c3) by lia.
  - exists w', c'. split; [done|]. split; [done|]. lia.
Qed.
End walks.

(** ** Bellman-Ford *)
Section bellman_ford.
Context (es : list Flow_Edge) (cost : Flow_Edge -> option Z) (flow : gmap nat Z) (s : fnode).

(** The edges that are up and not full. *)
Definition arc (e : Flow_Edge) (c : Z) : Prop := e ∈ es /\ flow !!! fe_id e < 1 /\ cost e = Some c.

Definition init (v : fnode) : Z := if decide (v = s) then 0 else USHRT_MAX.

Context (π : fnode -> Z) (Hπ : feasible arc π) (Hπ0 : forall v, 0 <= π v <= init v).

(** Distances are costs of walks, never below the potential; the previous edge
    of a node explains its distance; among explanations that are exact some rank
    decreases, so they do not form a cycle. *)
Record bf_inv (b : bf_state) : Prop := {
  bi_range : forall v, π v <= dist b v <= init v;
  bi_walk : forall v, exists u w c, walk arc u w v c /\ dist b v = init u + c;
  bi_prev : forall v, match previous_edge b !! v with
                      | None => dist b v = init v
                      | Some e => end_ e = v /\ dist b v < init v /\ exists c, arc e c /\ dist b (start e) + c <= dist b v
                      end;
  bi_rank : exists (τ : fnode -> nat) (n : nat), (forall v, (τ v < n)%nat) /\
              forall v e c, previous_edge b !! v = Some e -> arc e c -> dist b v = dist b (start e) + c -> (τ (start e) < τ v)%nat }.

Lemma init_le v : init v <= USHRT_MAX.
Proof. unfold init. by destruct (decide _). Qed.

Lemma bf_inv_progress b p : bf_inv b -> bf_inv (mk_bf (distance b) (previous_edge b) p).
Proof. intros []. by split. Qed.

Lemma initial_bf_inv : bf_inv (initial_bf s).
Proof.
  assert (Hd : forall v, dist (initial_bf s) v = init v).
  { intros v. unfold dist, initial_bf, init. cbn. destruct (decide (v = s)) as [->|Hne]; [by rewrite lookup_singleton_eq|].
    by rewrite lookup_singleton_ne. }
  split.
  - intros v. rewrite Hd. destruct (Hπ0 v). lia.
  - intros v. exists v, [], 0. split; [done|]. rewrite Hd. lia.
  - intros v. cbn. by rewrite Hd.
  - exists (fun _ => 0%nat), 1%nat. split; [lia|]. done.
Qed.

Lemma dist_insert b v x p v' pr : dist (mk_bf (<[v := x]> (distance b)) p pr) v' = if decide (v' = v) then x else dist b v'.
Proof. unfold dist. cbn. destruct (decide (v' = v)) as [->|Hne]; [by rewrite lookup_insert_eq|by rewrite lookup_insert_ne]. Qed.

(** One relaxation either does nothing, the edge being satisfied, or lowers the
    distance of its end. *)
Lemma relax_cases b e :
  bf_inv b -> e ∈ es ->
  (relax cost flow b e = b /\ forall c, arc e c -> dist b (end_ e) <= dist b (start e) + c) \/
  (exists c, arc e c /\ dist b (start e) + c < dist b (end_ e) /\
     relax cost flow b e = mk_bf (<[end_ e := dist b (start e) + c]> (distance b)) (<[end_ e := e]> (previous_edge b)) true).
Proof.
  intros Hb He. unfold relax. destruct (cost e) as [c|] eqn:Hc; [|left; split; [done|intros c (_ & _ & Hc'); congruence]].
  destruct (Z.ltb_spec (flow !!! fe_id e) 1) as [Hf|Hf]; cbn [andb].
  2: { left. split; [done|]. intros c' (_ & Hf' & _). lia. }
  destruct (Z.ltb_spec (dist b (start e) + c) (dist b (end_ e))) as [Hlt|Hge].
  2: { left. split; [done|]. intros c' (_ & _ & Hc'). replace c' with c by congruence. done. }
  right. exists c. split; [done|]. split; [done|]. rewrite u16_small; [done|].
  assert (Ha : arc e c) by done. specialize (Hπ _ _ Ha). destruct (bi_range _ Hb (start e)), (bi_range _ Hb (end_ e)), (Hπ0 (end_ e)).
  pose proof (init_le (end_ e)). unfold USHRT_MAX in *. lia.
Qed.

Lemma relax_inv b e : bf_inv b -> e ∈ es -> bf_inv (relax cost flow b e).
Proof.
  intros Hb He. destruct (relax_cases b e Hb He) as [[-> _]|(c & Ha & Hlt & ->)]; [done|].
  pose proof Hb as [Hr Hw Hp (τ & n & Hτ & Hrank)]. pose proof (Hr (start e)) as Hrs. pose proof (Hr (end_ e)) as Hre. pose proof (Hπ _ _ Ha) as Hfe.
  assert (Hse : start e <> end_ e) by (intros Heq; rewrite Heq in *; lia). split.
  - intros v. rewrite dist_insert. destruct (decide (v = end_ e)) as [->|]; [lia|apply Hr].
  - intros v. rewrite dist_insert. destruct (decide (v = end_ e)) as [->|]; [|apply Hw].
    destruct (Hw (start e)) as (u & w & c0 & Hw0 & Hd). exists u, (w ++ [e]), (c0 + c). split; [|lia].
    apply walk_app. exists (start e), c0. split; [done|]. split; [done|]. exists c. split; [done|]. cbn. split; [done|lia].
  - intros v. cbn [previous_edge]. rewrite !dist_insert. destruct (decide (v = end_ e)) as [->|Hv].
    + rewrite lookup_insert_eq. split; [done|]. split; [lia|]. exists c. split; [done|]. rewrite dist_insert, decide_False by done. lia.
    + rewrite lookup_insert_ne by done. specialize (Hp v). destruct (previous_edge b !! v) as [e'|]; [|done].
      destruct Hp as (H1 & H2 & c' & H3 & H4). split; [done|]. split; [done|]. exists c'. split; [done|].
      rewrite dist_insert. destruct (decide (start e' = end_ e)) as [Heq|]; [rewrite <- Heq in Hlt; lia|lia].
  - exists (fun v => if decide (v = end_ e) then n else τ v), (S n). split.
    + intros v. destruct (decide _); [lia|]. specialize (Hτ v). lia.
    + intros v e' c' Hpv Ha' Hd. cbn [previous_edge] in Hpv. rewrite !dist_insert in Hd. destruct (decide (v = end_ e)) as [->|Hv].
      * rewrite lookup_insert_eq in Hpv. injection Hpv as <-. rewrite decide_False by done. apply Hτ.
      * rewrite lookup_insert_ne in Hpv by done. specialize (Hp v). rewrite Hpv in Hp. destruct Hp as (_ & _ & c'' & (_ & _ & Hc'') & Hle).
        replace c'' with c' in Hle by (destruct Ha' as (_ & _ & ?); congruence).
        destruct (decide (start e' = end_ e)) as [Heq|Hne]; [rewrite Heq in Hle; lia|]. by eapply Hrank.
Qed.

(** Over a list of edges. *)
Lemma relax_list_inv l b :
  bf_inv b -> (forall e, e ∈ l -> e ∈ es) ->
  let b' := foldl (relax cost flow) b l in
  bf_inv b' /\ (forall v, dist b' v <= dist b v) /\
  (forall e c, e ∈ l -> arc e c -> dist b' (end_ e) <= dist b (start e) + c) /\
  (progress b = true -> progress b' = true) /\
  (progress b' = false -> distance b' = distance b /\ previous_edge b' = previous_edge b) /\
  (progress b' = true -> progress b = true \/ exists v, dist b' v < dist b v).
Proof.
  revert b. induction l as [|e l IH]; intros b Hb Hl; cbn [foldl].
  { split; [done|]. split; [lia|]. split; [by intros e c He%elem_of_nil|]. split; [done|]. split; [done|by left]. }
  assert (He : e ∈ es) by (apply Hl; left).
  destruct (IH (relax cost flow b e) (relax_inv b e Hb He)) as (H1 & H2 & H3 & H4 & H5 & H6); [intros; apply Hl; by right|].
  set (b' := foldl (relax cost flow) (relax cost flow b e) l) in *.
  assert (Hmono : forall v, dist (relax cost flow b e) v <= dist b v).
  { intros v. destruct (relax_cases b e Hb He) as [[-> _]|(c & Ha & Hlt & ->)]; [lia|].
    rewrite dist_insert. destruct (decide _) as [->|]; lia. }
  split; [done|]. split; [intros v; etrans; [apply H2|apply Hmono]|]. split; [|split; [|split]].
  - intros e' c [->|Hin]%elem_of_cons Ha.
    + etrans; [apply H2|]. destruct (relax_cases b e Hb He) as [[-> Hle]|(c' & Ha' & Hlt & ->)]; [by apply Hle|].
      rewrite dist_insert, decide_True by done. destruct Ha as (_ & _ & Hc), Ha' as (_ & _ & Hc'). replace c' with c by congruence. lia.
    + specialize (H3 _ _ Hin Ha). specialize (Hmono (start e')). lia.
  - intros Hp. apply H4. unfold relax. by repeat case_match.
  - intros Hp. destruct (H5 Hp) as [-> ->]. destruct (relax_cases b e Hb He) as [[-> _]|(c' & Ha' & Hlt & Heq)]; [done|].
    rewrite Heq in H4. specialize (H4 eq_refl). congruence.
  - intros Hp. destruct (H6 Hp) as [Hp'|(v & Hv)].
    + destruct (relax_cases b e Hb He) as [[Heq _]|(c' & Ha' & Hlt & Heq)]; [rewrite Heq in Hp'; by left|].
      right. exists (end_ e). specialize (H2 (end_ e)). rewrite Heq, dist_insert, decide_True in H2 by done. lia.
    + right. exists v. specialize (Hmono v). lia.
Qed.

Lemma round_inv b :
  bf_inv b ->
  bf_inv (round es cost flow b) /\
  (forall e c, arc e c -> dist (round es cost flow b) (end_ e) <= dist b (start e) + c) /\
  (forall v, dist (round es cost flow b) v <= dist b v) /\
  (progress (round es cost flow b) = false -> feasible arc (dist (round es cost flow b))) /\
  (progress (round es cost flow b) = true -> exists v, dist (round es cost flow b) v < dist b v).
Proof.
  intros Hb. pose proof (relax_list_inv es _ (bf_inv_progress b false Hb)) as H. unfold round. cbn zeta in H.
  set (b' := foldl (relax cost flow) (mk_bf (distance b) (previous_edge b) false) es) in *.
  destruct H as (H1 & H2 & H3 & _ & H5 & H6); [done|]. split; [done|].
  assert (H3' : forall e c, arc e c -> dist b' (end_ e) <= dist b (start e) + c).
  { intros e c Ha. apply (H3 e c); [apply Ha|done]. }
  split; [done|]. split; [exact H2|]. split.
  - intros Hp e c Ha. specialize (H3' e c Ha). destruct (H5 Hp) as [Hd _]. unfold dist in *. cbn [distance] in Hd. by rewrite Hd in *.
  - intros Hp. destruct (H6 Hp) as [?|?]; [done|done].
Qed.

(** After [i] rounds every walk of at most [i] edges is accounted for. *)
Definition covers (i : nat) (b : bf_state) : Prop :=
  forall u w v c, walk arc u w v c -> (length w <= i)%nat -> dist b v <= init u + c.

Context (V : list fnode) (HV : forall e c, arc e c -> start e ∈ V /\ end_ e ∈ V) (HVne : V <> []).

Lemma covers_all b i u w v c : covers i b -> (length V <= S i)%nat -> walk arc u w v c -> dist b v <= init u + c.
Proof.
  intros Hc Hi Hw. destruct (walk_shorten arc π V u w v c Hπ HV HVne Hw) as (w' & c' & Hw' & Hl & Hle).
  specialize (Hc _ _ _ _ Hw'). lia.
Qed.

Lemma covers_round b i : bf_inv b -> covers i b -> covers (S i) (round es cost flow b).
Proof.
  intros Hb Hc u w v c Hw Hl. destruct (round_inv b Hb) as (_ & Hround & Hmono & _).
  destruct w as [|e0 w0 _] using rev_ind.
  - specialize (Hc u [] v c Hw). cbn in Hc. specialize (Hmono v). lia.
  - apply walk_app in Hw as (x & c1 & Hw1 & (Hs & c2 & Ha & Hend & Hc2)). cbn in Hend, Hc2. subst x v.
    rewrite length_app in Hl. cbn in Hl. specialize (Hc _ _ _ _ Hw1 ltac:(lia)). specialize (Hround _ _ Ha). lia.
Qed.

Lemma bellman_ford_converges n i b :
  bf_inv b -> covers i b -> (0 < n)%nat -> (length V <= i + n)%nat ->
  let b' := bellman_ford es cost n flow b in
  bf_inv b' /\ progress b' = false /\ feasible arc (dist b') /\ (forall u w v c, walk arc u w v c -> dist b' v <= init u + c).
Proof.
  revert i b. induction n as [|n IH]; intros i b Hb Hc Hn Hlen; [lia|]. cbn [bellman_ford].
  destruct (round_inv b Hb) as (Hb' & Hround & Hmono & Hfe & Hpr). pose proof (covers_round b i Hb Hc) as Hc'.
  destruct (progress (round es cost flow b)) eqn:Hp.
  - destruct n as [|n].
    + exfalso. destruct (Hpr eq_refl) as (v & Hv). destruct (bi_walk _ Hb' v) as (u & w & c & Hw & Hd).
      pose proof (covers_all b i u w v c Hc ltac:(lia) Hw). lia.
    + apply (IH (S i)); [done|done|lia|lia].
  - specialize (Hfe eq_refl). cbn zeta. split; [done|]. split; [done|]. split; [done|]. intros u w v c Hw.
    pose proof (walk_feasible arc _ _ _ _ _ Hfe Hw). pose proof (bi_range _ Hb' u). lia.
Qed.

(** The edges followed back from a node: a walk without repetition from a node
    without a previous edge, every edge of it exact. *)
Lemma previous_chain b v :
  bf_inv b -> feasible arc (dist b) ->
  exists r w, walk arc r w v (dist b v - dist b r) /\ previous_edge b !! r = None /\
    Forall (fun e => previous_edge b !! end_ e = Some e /\ forall c, arc e c -> dist b (end_ e) = dist b (start e) + c) w /\
    NoDup (r :: (end_ <$> w)).
Proof.
  intros Hb Hfe. destruct (bi_rank _ Hb) as (τ & n & Hτ & Hrank).
  assert (Hmain : exists r w, walk arc r w v (dist b v - dist b r) /\ previous_edge b !! r = None /\
    Forall (fun e => previous_edge b !! end_ e = Some e /\ forall c, arc e c -> dist b (end_ e) = dist b (start e) + c) w /\
    NoDup (r :: (end_ <$> w)) /\ forall x, x ∈ r :: (end_ <$> w) -> (τ x <= τ v)%nat).
  2: { destruct Hmain as (r & w & H1 & H2 & H3 & H4 & _). by exists r, w. }
  remember (τ v) as m eqn:Hm. revert v Hm. induction (lt_wf m) as [m _ IH]. intros v ->.
  pose proof (bi_prev _ Hb v) as Hp. destruct (previous_edge b !! v) as [e|] eqn:He.
  - destruct Hp as (Hend & _ & c & Ha & Hle). pose proof (Hfe _ _ Ha) as Hle'. rewrite Hend in Hle'.
    assert (Heq : dist b v = dist b (start e) + c) by lia. pose proof (Hrank v e c He Ha Heq) as Hlt.
    destruct (IH _ Hlt (start e) eq_refl) as (r & w & H1 & H2 & H3 & H4 & H5).
    exists r, (w ++ [e]). split_and!.
    + apply walk_app. exists (start e), (dist b (start e) - dist b r). split; [done|]. cbn. split; [done|]. exists c. split; [done|]. split; [done|lia].
    + done.
    + apply Forall_app. split; [done|]. constructor; [|done]. rewrite Hend. split; [done|]. intros c' (_ & _ & Hc').
      destruct Ha as (_ & _ & Hc). replace c' with c by congruence. done.
    + rewrite fmap_app. cbn. rewrite app_comm_cons. apply NoDup_app. split; [done|]. split; [|apply NoDup_singleton].
      intros x Hx ->%list_elem_of_singleton. specialize (H5 _ Hx). rewrite Hend in H5. lia.
    + intros x. rewrite fmap_app. cbn. rewrite app_comm_cons, elem_of_app, list_elem_of_singleton. intros [Hx| ->]; [|by rewrite Hend].
      specialize (H5 _ Hx). lia.
  - exists v, []. cbn. split_and!; [done|lia|done|done|apply NoDup_singleton|]. by intros x ->%list_elem_of_singleton.
Qed.
End bellman_ford.

(** ** Unit flows as lists of edges *)
Fixpoint route (u : fnode) (w : list Flow_Edge) (v : fnode) : Prop :=
  match w with [] => u = v | e :: w => start e = u /\ route (end_ e) w v end.

Lemma route_app u w1 w2 v : route u (w1 ++ w2) v <-> exists x, route u w1 x /\ route x w2 v.
Proof.
  revert u. induction w1 as [|e w1 IH]; intros u; cbn.
  - split; [intros H; by exists u|]. by intros (x & -> & H).
  - rewrite IH. split; [intros (H & x & H1 & H2); by exists x|intros (x & (H & H1) & H2)]. split; [done|]. by exists x.
Qed.

Lemma walk_route arc u w v c : walk arc u w v c -> route u w v.
Proof. revert u c. induction w as [|e w IH]; intros u c; cbn; [by intros [-> _]|]. intros (? & c1 & _ & ?). eauto. Qed.

Definition same (u v : fnode) : Z := if decide (u = v) then 1 else 0.

(** What leaves a node minus what enters it. *)
Fixpoint excess (F : list Flow_Edge) (v : fnode) : Z :=
  match F with [] => 0 | e :: F => same (start e) v - same (end_ e) v + excess F v end.

Lemma excess_app F F' v : excess (F ++ F') v = excess F v + excess F' v.
Proof. induction F as [|e F IH]; cbn; [done|]. rewrite IH. lia. Qed.

#[export] Instance excess_proper : Proper ((≡ₚ) ==> eq ==> eq) excess.
Proof. intros F F' HF v ? <-. induction HF; cbn; lia. Qed.

Lemma excess_route u w v x : route u w v -> excess w x = same u x - same v x.
Proof.
  revert u. induction w as [|e w IH]; intros u; cbn [route excess]; [intros ->; lia|]. intros [<- Hw]. rewrite (IH _ Hw). lia.
Qed.

Lemma same_bounds u v : 0 <= same u v <= 1.
Proof. unfold same. destruct (decide _); lia. Qed.
Lemma same_refl v : same v v = 1.
Proof. unfold same. by rewrite decide_True. Qed.
Lemma same_ne u v : u <> v -> same u v = 0.
Proof. intros. unfold same. by rewrite decide_False. Qed.

Lemma excess_positive F v : 0 < excess F v -> exists e, e ∈ F /\ start e = v.
Proof.
  induction F as [|e F IH]; cbn [excess]; [lia|]. intros H. destruct (decide (start e = v)) as [Hs|Hs]; [exists e; split; [left|done]|].
  rewrite (same_ne (start e) v) in H by done. pose proof (same_bounds (end_ e) v). destruct IH as (e' & He & Hs'); [lia|]. exists e'. split; [by right|done].
Qed.

Section decompose.
(** A measure that decreases along every edge: there are no cycles. *)
Context (μ : fnode -> nat).
Definition descending (F : list Flow_Edge) : Prop := forall e, e ∈ F -> (μ (end_ e) < μ (start e))%nat.

Lemma extract_route F v t (g : fnode -> Z) :
  descending F -> (forall x, x <> t -> 0 <= g x) -> (forall x, excess F x = same v x - same t x + g x) ->
  exists w F', F ≡ₚ w ++ F' /\ route v w t /\ forall x, excess F' x = g x.
Proof.
  remember (μ v) as m eqn:Hm. revert F v Hm. induction (lt_wf m) as [m _ IH]. intros F v -> Hμ Hg HF.
  destruct (decide (v = t)) as [->|Hvt].
  - exists [], F. split; [done|]. split; [done|]. intros x. rewrite HF. lia.
  - destruct (excess_positive F v) as (e & He & Hs).
    { rewrite HF, same_refl, same_ne by done. specialize (Hg v Hvt). lia. }
    apply elem_of_Permutation in He as [F1 HF1].
    destruct (IH (μ (end_ e))) with (F := F1) (v := end_ e) as (w & F' & HF' & Hw & Hg').
    + rewrite <- Hs. apply Hμ. rewrite HF1. left.
    + done.
    + intros e' He'. apply Hμ. rewrite HF1. by right.
    + done.
    + intros x. specialize (HF x). rewrite HF1 in HF. cbn in HF. rewrite Hs in HF. lia.
    + exists (e :: w), F'. split; [by rewrite HF1, HF'|]. done.
Qed.

Lemma route_descends u w v : descending w -> route u w v -> (μ v <= μ u)%nat.
Proof.
  revert u. induction w as [|e w IH]; intros u Hμ; cbn; [by intros ->|]. intros [<- Hw].
  pose proof (Hμ e ltac:(left)). pose proof (IH (end_ e) ltac:(intros ? ?; apply Hμ; by right) Hw). lia.
Qed.

Lemma no_excess_no_flow F : descending F -> (forall x, excess F x = 0) -> F = [].
Proof.
  destruct F as [|e F]; [done|]. intros Hμ HF. exfalso.
  destruct (extract_route F (end_ e) (start e) (fun _ => 0)) as (w & F' & HF' & Hw & _).
  - intros e' He'. apply Hμ. by right.
  - done.
  - intros x. specialize (HF x). cbn in HF. lia.
  - pose proof (Hμ e ltac:(left)). pose proof (route_descends _ w _ ltac:(intros e' He'; apply Hμ; rewrite HF'; right; apply elem_of_app; by left) Hw).
    lia.
Qed.

(** A flow of value [r] is made of [r] routes. *)
Lemma decompose_flow F s t (r : nat) :
  s <> t -> descending F -> (forall x, excess F x = Z.of_nat r * (same s x - same t x)) ->
  exists ws, length ws = r /\ F ≡ₚ concat ws /\ Forall (fun w => route s w t) ws.
Proof.
  intros Hst. revert F. induction r as [|r IH]; intros F Hμ HF.
  - exists []. split; [done|]. split; [|done]. by rewrite (no_excess_no_flow F).
  - destruct (extract_route F s t (fun x => Z.of_nat r * (same s x - same t x))) as (w & F' & HF' & Hw & Hg); [done| | |].
    + intros x Hx. rewrite (same_ne t x) by done. pose proof (same_bounds s x). lia.
    + intros x. rewrite HF. lia.
    + destruct (IH F') as (ws & Hl & HFw & Hall); [|done|].
      { intros e He. apply Hμ. rewrite HF'. apply elem_of_app. by right. }
      exists (w :: ws). split; [cbn; lia|]. split; [by rewrite HF', HFw|by constructor].
Qed.
End decompose.

(** ** The flow and the bag *)
Lemma twin_id_twin n : twin_id (twin_id n) = n.
Proof.
  unfold twin_id. destruct (Nat.even n) eqn:H.
  - by rewrite Nat.even_succ, <- Nat.negb_even, H.
  - destruct n as [|n]; [done|]. rewrite Nat.even_succ, <- Nat.negb_even in H. cbn. destruct (Nat.even n); done.
Qed.

Lemma twin_id_inj n m : twin_id n = twin_id m -> n = m.
Proof. intros H. by rewrite <- (twin_id_twin n), H, twin_id_twin. Qed.

Definition is_inbound (v : fnode) : bool := match v with Inbound _ => true | Outbound _ => false end.

(** A flow network: numbers tell edges apart, every edge has its twin, and the
    real edges of cost [c] lead from inbound to outbound nodes for [0 <= c] and
    from outbound to inbound nodes for [1 <= c]. *)
Record network (es : list Flow_Edge) (cost : Flow_Edge -> option Z) : Prop := {
  nw_id : forall e e', e ∈ es -> e' ∈ es -> fe_id e = fe_id e' -> e = e';
  nw_twin : forall e, e ∈ es -> exists e', e' ∈ es /\ fe_id e' = twin_id (fe_id e) /\ start e' = end_ e /\ end_ e' = start e /\
              residual e' = negb (residual e) /\ cost e' = Z.opp <$> cost e;
  nw_real : forall e c, e ∈ es -> residual e = false -> cost e = Some c ->
              is_inbound (end_ e) = negb (is_inbound (start e)) /\ (if is_inbound (start e) then 0 else 1) <= c }.

Section flow.
Context (es : list Flow_Edge) (cost : Flow_Edge -> option Z) (Hnet : network es cost).

(** The edges of the bag are the full real edges. *)
Record flow_ok (flow : gmap nat Z) (F : list Flow_Edge) : Prop := {
  fo_nodup : NoDup F;
  fo_real : forall e, e ∈ F -> e ∈ es /\ residual e = false /\ is_Some (cost e);
  fo_flow : forall e, e ∈ es -> residual e = false ->
              flow !!! fe_id e = (if decide (e ∈ F) then 1 else 0) /\ flow !!! twin_id (fe_id e) = (if decide (e ∈ F) then 0 else 1) }.

Lemma initial_flow_lookup l e :
  (forall e e', e ∈ l -> e' ∈ l -> fe_id e = fe_id e' -> e = e') -> e ∈ l -> initial_flow l !!! fe_id e = if residual e then 1 else 0.
Proof.
  induction l as [|e' l IH]; intros Hid He; [by apply elem_of_nil in He|]. unfold initial_flow. cbn [foldr].
  destruct (decide (fe_id e = fe_id e')) as [Heq|Hne].
  - rewrite Heq, lookup_total_insert_eq. by rewrite (Hid e e' He ltac:(left) Heq).
  - rewrite lookup_total_insert_ne by done. apply elem_of_cons in He as [->|He]; [done|]. apply IH; [|done].
    intros e1 e2 H1 H2. apply Hid; by right.
Qed.

Lemma initial_flow_ok : flow_ok (initial_flow es) [].
Proof.
  split; [constructor|by intros e ?%elem_of_nil|]. intros e He Hr.
  destruct (nw_twin _ _ Hnet e He) as (e' & He' & Hid & _ & _ & Hr' & _). rewrite Hr in Hr'. cbn in Hr'. rewrite <- Hid.
  rewrite !initial_flow_lookup by (done || apply (nw_id _ _ Hnet)). rewrite Hr, Hr'. destruct (decide _) as [Hin|]; [by apply elem_of_nil in Hin|done].
Qed.

(** An available residual edge belongs to an edge of the bag; an edge of the bag
    gives an available residual edge. *)
Lemma residual_arc flow F e c :
  flow_ok flow F -> arc es cost flow e c -> residual e = true ->
  exists e0, e0 ∈ F /\ fe_id e0 = twin_id (fe_id e) /\ start e0 = end_ e /\ end_ e0 = start e /\ cost e0 = Some (- c).
Proof.
  intros Hok (He & Hfl & Hc) Hr. destruct (nw_twin _ _ Hnet e He) as (e0 & He0 & Hid & Hs & Ht & Hr0 & Hc0). rewrite Hr in Hr0. rewrite Hc in Hc0.
  exists e0. split; [|done]. destruct (fo_flow _ _ Hok e0 He0 Hr0) as [_ Hfl0]. rewrite Hid, twin_id_twin in Hfl0.
  destruct (decide (e0 ∈ F)); [done|]. lia.
Qed.

Lemma bag_arc flow F e0 :
  flow_ok flow F -> e0 ∈ F ->
  exists e c, arc es cost flow e c /\ residual e = true /\ start e = end_ e0 /\ end_ e = start e0 /\ cost e0 = Some (- c).
Proof.
  intros Hok He0. destruct (fo_real _ _ Hok e0 He0) as (Hes & Hr0 & c0 & Hc0).
  destruct (nw_twin _ _ Hnet e0 Hes) as (e & He & Hid & Hs & Ht & Hr & Hc). rewrite Hr0 in Hr. rewrite Hc0 in Hc.
  exists e, (- c0). split_and!; try done; [|by rewrite Z.opp_involutive]. split; [done|]. split; [|done]. rewrite Hid. destruct (fo_flow _ _ Hok e0 Hes Hr0) as [_ ->].
  rewrite decide_True by done. lia.
Qed.

Lemma real_arc flow F e c : flow_ok flow F -> arc es cost flow e c -> residual e = false -> e ∉ F.
Proof. intros Hok (He & Hfl & _) Hr Hin. destruct (fo_flow _ _ Hok e He Hr) as [Hf _]. rewrite decide_True in Hf by done. lia. Qed.

(** Under a feasible potential the bag has no cycle. *)
Definition level (π : fnode -> Z) (v : fnode) : nat := Z.to_nat (2 * (USHRT_MAX - π v) + if is_inbound v then 1 else 0).

Lemma bag_descending flow F π :
  flow_ok flow F -> feasible (arc es cost flow) π -> (forall v, 0 <= π v <= USHRT_MAX) -> descending (level π) F.
Proof.
  intros Hok Hπ Hπ0 e He. destruct (bag_arc _ _ _ Hok He) as (e' & c & Ha & _ & Hs & Ht & Hc). specialize (Hπ _ _ Ha). rewrite Hs, Ht in Hπ.
  destruct (fo_real _ _ Hok e He) as (Hes & Hr & _). destruct (nw_real _ _ Hnet e _ Hes Hr Hc) as [Hio Hle].
  unfold level. rewrite Hio. pose proof (Hπ0 (start e)). pose proof (Hπ0 (end_ e)). destruct (is_inbound (start e)); cbn [negb]; lia.
Qed.

(** Along the edges of the bag in the other direction nothing is paid. *)
Lemma walk_back flow F u w t :
  flow_ok flow F -> (forall e, e ∈ w -> e ∈ F) -> route u w t -> exists w' c, walk (arc es cost flow) t w' u c /\ c <= 0.
Proof.
  intros Hok. revert u. induction w as [|e w IH]; intros u Hw; cbn; [intros ->; by exists [], 0|].
  intros [<- Hr]. destruct (IH (end_ e)) as (w' & c & Hw' & Hc); [intros; apply Hw; by right|done|].
  destruct (bag_arc _ _ e Hok) as (e' & c' & Ha & _ & Hs & Ht & Hc'); [apply Hw; left|].
  destruct (fo_real _ _ Hok e) as (Hes & Hre & _); [apply Hw; left|]. destruct (nw_real _ _ Hnet e _ Hes Hre Hc') as [_ Hle].
  exists (w' ++ [e']), (c + c'). split; [|destruct (is_inbound (start e)); lia]. apply walk_app. exists (end_ e), c. split; [done|].
  cbn. split; [done|]. exists c'. split; [done|]. split; [done|lia].
Qed.

(** ** Augmenting *)
Lemma filter_out (F : list Flow_Edge) e :
  NoDup F -> (forall e', e' ∈ F -> fe_id e' = fe_id e -> e' = e) -> e ∈ F -> F ≡ₚ e :: filter (fun x => fe_id x <> fe_id e) F.
Proof.
  intros Hnd Hid He. apply NoDup_Permutation; [done|apply NoDup_cons; split|].
  - rewrite list_elem_of_filter. tauto.
  - by apply NoDup_filter.
  - intros x. rewrite elem_of_cons, list_elem_of_filter. destruct (decide (x = e)) as [->|Hne]; [tauto|]. split; [|by intros [?|[??]]].
    intros Hx. right. split; [|done]. intros Heq. by apply Hne, Hid.
Qed.

Definition push (flow : gmap nat Z) (e : Flow_Edge) : gmap nat Z := <[twin_id (fe_id e) := 0]> (<[fe_id e := 1]> flow).
Definition rebag (F : list Flow_Edge) (e : Flow_Edge) : list Flow_Edge :=
  if residual e then filter (fun x => fe_id x <> twin_id (fe_id e)) F else e :: F.

Lemma twin_id_ne e : e ∈ es -> twin_id (fe_id e) <> fe_id e.
Proof.
  intros He Heq. destruct (nw_twin _ _ Hnet e He) as (e' & He' & Hid & _ & _ & Hr & _). rewrite Heq in Hid.
  rewrite (nw_id _ _ Hnet e' e He' He Hid) in Hr. by destruct (residual e).
Qed.

Lemma push_lookup flow e n :
  e ∈ es -> push flow e !!! n = if decide (n = twin_id (fe_id e)) then 0 else if decide (n = fe_id e) then 1 else flow !!! n.
Proof.
  intros He. unfold push. destruct (decide (n = twin_id (fe_id e))) as [->|H1]; [by rewrite lookup_total_insert_eq|].
  rewrite lookup_total_insert_ne by done. destruct (decide (n = fe_id e)) as [->|H2]; [by rewrite lookup_total_insert_eq|by rewrite lookup_total_insert_ne].
Qed.

(** The real edge of a pair. *)
Lemma push_real flow F e e0 :
  flow_ok flow F -> e ∈ es -> e0 ∈ es -> residual e0 = false -> residual e = true -> fe_id e0 = twin_id (fe_id e) ->
  forall F', NoDup F' -> (forall x, x ∈ F' <-> x ∈ F /\ x <> e0) -> flow_ok (push flow e) F'.
Proof.
  intros Hok He He0 Hr0 Hr Hid F' Hnd HF'. split; [done|intros x [Hx _]%HF'; by apply (fo_real _ _ Hok)|]. intros x Hx Hrx.
  destruct (fo_flow _ _ Hok x Hx Hrx) as [H1 H2]. rewrite !push_lookup by done.
  assert (Hxe : fe_id x <> fe_id e) by (intros Heq; rewrite (nw_id _ _ Hnet x e Hx He Heq) in Hrx; congruence).
  assert (Hxe' : twin_id (fe_id x) <> twin_id (fe_id e)) by (intros Heq%twin_id_inj; done).
  rewrite (decide_False (P := fe_id x = fe_id e)), (decide_False (P := twin_id (fe_id x) = twin_id (fe_id e))) by done.
  destruct (decide (x = e0)) as [->|Hne].
  - rewrite decide_True by done. rewrite (decide_True (P := twin_id (fe_id e0) = fe_id e)) by (by rewrite Hid, twin_id_twin).
    rewrite !(decide_False (P := e0 ∈ F')) by (rewrite HF'; tauto). done.
  - rewrite (decide_False (P := fe_id x = twin_id _)) by (rewrite <- Hid; intros Heq; apply Hne; by apply (nw_id _ _ Hnet)).
    rewrite (decide_False (P := twin_id (fe_id x) = _))
      by (intros Heq; apply Hne, (nw_id _ _ Hnet); [done|done|]; by rewrite Hid, <- Heq, twin_id_twin).
    rewrite H1, H2. destruct (decide (x ∈ F)), (decide (x ∈ F')); try done; rewrite HF' in *; tauto.
Qed.

Lemma push_ok flow F e c :
  flow_ok flow F -> arc es cost flow e c ->
  flow_ok (push flow e) (rebag F e) /\ (forall v, excess (rebag F e) v = excess F v + same (start e) v - same (end_ e) v) /\
  (residual e = true -> twin_id (fe_id e) ∈ fe_id <$> F).
Proof.
  intros Hok Ha. pose proof Ha as (He & Hfl & Hc). unfold rebag. destruct (residual e) eqn:Hr.
  - destruct (residual_arc _ _ _ _ Hok Ha Hr) as (e0 & He0 & Hid & Hs & Ht & Hc0). destruct (fo_real _ _ Hok e0 He0) as (Hes0 & Hr0 & _).
    assert (HF : F ≡ₚ e0 :: filter (fun x => fe_id x <> fe_id e0) F).
    { apply filter_out; [apply Hok| |done]. intros e' He' Heq. by apply (nw_id _ _ Hnet); [apply (fo_real _ _ Hok)| |]. }
    rewrite <- Hid. split_and!.
    + apply (push_real flow F e e0); try done; [apply NoDup_filter, Hok|]. intros x. rewrite list_elem_of_filter. split.
      { intros [Hne Hx]. split; [done|by intros ->]. }
      intros [Hx Hne]. split; [|done]. intros Heq. apply Hne, (nw_id _ _ Hnet); [by apply (fo_real _ _ Hok)|done|done].
    + intros v. rewrite HF at 2. cbn [excess]. rewrite Hs, Ht. lia.
    + intros _. by apply list_elem_of_fmap_2.
  - pose proof (real_arc _ _ _ _ Hok Ha Hr) as Hnin. split_and!; [|intros v; cbn; lia|done].
    split; [by apply NoDup_cons; split; [|apply Hok]| |].
    + intros x [->|Hx]%elem_of_cons; [split; [done|]; split; [done|]; rewrite Hc; by eexists|by apply (fo_real _ _ Hok)].
    + intros x Hx Hrx. destruct (fo_flow _ _ Hok x Hx Hrx) as [H1 H2]. rewrite !push_lookup by done.
      destruct (nw_twin _ _ Hnet e He) as (e' & He' & Hid' & _ & _ & Hr' & _). rewrite Hr in Hr'.
      assert (Hxt : fe_id x <> twin_id (fe_id e)).
      { rewrite <- Hid'. intros Heq. rewrite (nw_id _ _ Hnet x e' Hx He' Heq) in Hrx. cbn in Hr'. congruence. }
      rewrite (decide_False (P := fe_id x = twin_id _)) by done.
      rewrite (decide_False (P := twin_id (fe_id x) = fe_id e)) by (intros Heq; apply Hxt; by rewrite <- Heq, twin_id_twin).
      destruct (decide (x = e)) as [->|Hne].
      * rewrite !decide_True by (done || left). done.
      * rewrite (decide_False (P := fe_id x = _)) by (intros Heq; apply Hne; by apply (nw_id _ _ Hnet)).
        rewrite (decide_False (P := twin_id _ = _)) by (intros Heq%twin_id_inj; apply Hne; by apply (nw_id _ _ Hnet)).
        rewrite H1, H2. destruct (decide (x ∈ F)), (decide (x ∈ e :: F)) as [Hin|Hin]; try done; rewrite elem_of_cons in Hin; tauto.
Qed.
End flow.
