(* ===== verification/MultiPathFlow.v ===== *)
(** * MultiPathFlow: the Ford-Fulkerson loop

    Each round finds a cheapest augmenting path, keeps a feasible potential and
    adds one to the value of the flow; the loop ends with a flow of least cost,
    and with a flow of greatest value when it ends early. *)
From stdpp Require Import base list gmap numbers option sets.
From Stdlib Require Import ZArith Lia.
From S2P Require Import Prelude NetTypes MultiPath MultiPathProof.
#[local] Open Scope Z_scope.

Section loop.
Context (es : list Flow_Edge) (cost : Flow_Edge -> option Z) (Hnet : network es cost).
Context (s : fnode).

(** The walk back over a simple path of available edges. *)
Lemma augment_ok prev w : forall x c fuel flow F,
  walk (arc es cost flow) s w x c -> NoDup (s :: (end_ <$> w)) -> Forall (fun e => prev !! end_ e = Some e) w ->
  flow_ok es cost flow F -> (length w <= fuel)%nat ->
  exists flow' F', augment fuel prev s x flow F = Ret (flow', F') /\ flow_ok es cost flow' F' /\
    (forall v, excess F' v = excess F v + same s v - same x v) /\
    (forall e, e ∈ es -> flow' !!! fe_id e < 1 -> flow !!! fe_id e < 1 \/ exists e', e' ∈ w /\ fe_id e = twin_id (fe_id e')).
Proof.
  induction w as [|e w IH] using rev_ind; intros x c fuel flow F Hw Hnd Hprev Hok Hfuel.
  - destruct Hw as [-> _]. exists flow, F. split; [by destruct fuel; cbn; rewrite decide_True|]. split; [done|]. split; [intros; lia|]. intros; by left.
  - apply walk_app in Hw as (u & c1 & Hw & (<- & c2 & Ha & Hend & _)). cbn in Hend. subst x.
    rewrite length_app in Hfuel. cbn in Hfuel. destruct fuel as [|fuel]; [lia|].
    apply Forall_app in Hprev as [Hprev Hpe]. inversion_clear Hpe as [|? ? Hpe' _].
    rewrite fmap_app in Hnd. cbn [fmap list_fmap] in Hnd. rewrite app_comm_cons in Hnd. apply NoDup_app in Hnd as (Hnd & Hdis & _).
    assert (Hne : forall v, v ∈ s :: (end_ <$> w) -> v <> end_ e) by (intros v Hv ->; apply (Hdis _ Hv); left).
    destruct (push_ok es cost Hnet _ _ _ _ Hok Ha) as (Hok' & Hex & Hin). pose proof Ha as (He & _).
    destruct (IH (start e) c1 fuel (push flow e) (rebag F e)) as (flow' & F' & Haug & Hok'' & Hex' & Hav); try done; [|lia|].
    + (* the other edges stay available *)
      assert (Hsub : forall v, v ∈ s :: (end_ <$> w) -> v <> end_ e) by done. clear -Hw Hsub He Hnet. revert c1 Hw.
      generalize s as s0, Hsub. clear s Hsub. induction w as [|e' w IHw]; intros s0 Hsub c1 Hw; [done|].
      destruct Hw as (Hs & c' & (He' & Hf' & Hc') & Hw). split; [done|]. exists c'. split.
      * split; [done|]. split; [|done]. rewrite (push_lookup es) by done.
        assert (fe_id e' <> fe_id e).
        { intros Heq. apply (Hsub (end_ e')); [right; left|]. by rewrite (nw_id _ _ Hnet e' e He' He Heq). }
        destruct (decide (fe_id e' = twin_id (fe_id e))) as [_|_]; [lia|]. rewrite decide_False by done. done.
      * apply IHw; [|done]. intros v Hv. apply Hsub. by right.
    + exists flow', F'. split; [|split; [done|]; split].
      * cbn [augment]. rewrite decide_False by (intros Heq; apply (Hne s); [left|done]). rewrite Hpe'. cbn [or_else mbind outcome_bind].
        unfold rebag in Haug. destruct (residual e); [rewrite (decide_True (P := _ ∈ _)) by auto|]; exact Haug.
      * intros v. rewrite Hex', Hex. lia.
      * intros e' He' Hf'. destruct (Hav e' He' Hf') as [Hp|(e1 & H1 & H2)]; [|right; exists e1; split; [apply elem_of_app; by left|done]].
        rewrite (push_lookup es) in Hp by done. destruct (decide (fe_id e' = twin_id (fe_id e))) as [Heq|_].
        { right. exists e. split; [apply elem_of_app; right; left|done]. }
        destruct (decide _); [lia|by left].
Qed.

Context (t : fnode) (Hst : s <> t).
Context (V : list fnode) (HV : forall e, e ∈ es -> start e ∈ V /\ end_ e ∈ V) (HVne : V <> []).

(** A flow of [r] units with a feasible potential. *)
Record min_cost_flow (r : nat) (flow : gmap nat Z) (F : list Flow_Edge) (π : fnode -> Z) : Prop := {
  mf_ok : flow_ok es cost flow F;
  mf_excess : forall v, excess F v = Z.of_nat r * (same s v - same t v);
  mf_feasible : feasible (arc es cost flow) π;
  mf_range : forall v, 0 <= π v <= init s v }.

Lemma initial_min_cost_flow : min_cost_flow 0 (initial_flow es) [] (fun _ => 0).
Proof.
  split; [by apply initial_flow_ok|done| |intros v; unfold init, USHRT_MAX; destruct (decide _); lia].
  intros e c (He & Hf & Hc). rewrite (initial_flow_lookup es e (nw_id _ _ Hnet) He) in Hf.
  destruct (residual e) eqn:Hr; [lia|]. pose proof (nw_real _ _ Hnet e c He Hr Hc) as [_ H]. destruct (is_inbound (start e)); lia.
Qed.

Lemma mf_bounds r flow F π : min_cost_flow r flow F π -> forall v, 0 <= π v <= USHRT_MAX.
Proof. intros Hm v. destruct (mf_range _ _ _ _ Hm v). pose proof (init_le s v). lia. Qed.

Lemma mf_routes r flow F π :
  min_cost_flow r flow F π -> exists ws, length ws = r /\ F ≡ₚ concat ws /\ Forall (fun w => route s w t) ws /\ descending (level π) F.
Proof.
  intros Hm. pose proof (bag_descending es cost Hnet _ _ _ (mf_ok _ _ _ _ Hm) (mf_feasible _ _ _ _ Hm) (mf_bounds _ _ _ _ Hm)) as Hd.
  destruct (decompose_flow (level π) F s t r Hst Hd (mf_excess _ _ _ _ Hm)) as (ws & H1 & H2 & H3). by exists ws.
Qed.

(** What the flow reaches, the destination reaches for nothing. *)
Lemma back_from_t r flow F π e :
  min_cost_flow r flow F π -> e ∈ F -> exists w c, walk (arc es cost flow) t w (end_ e) c /\ c <= 0.
Proof.
  intros Hm He. destruct (mf_routes _ _ _ _ Hm) as (ws & _ & HF & Hall & _). assert (Hin : e ∈ concat ws) by by rewrite <- HF.
  apply elem_of_concat in Hin as (w & Hew & Hw). rewrite Forall_forall in Hall. pose proof (Hall w Hw) as Hr.
  apply list_elem_of_split in Hew as (w1 & w2 & ->). apply route_app in Hr as (x & _ & (_ & Hr)).
  apply (walk_back es cost Hnet flow F (end_ e) w2 t); [apply Hm| |done]. intros e' He'. rewrite HF. apply elem_of_concat.
  exists (w1 ++ e :: w2). split; [apply elem_of_app; right; by right|done].
Qed.

(** The walk back from a destination that was reached starts at the source. *)
Lemma chain_from_source r flow F π b w x :
  min_cost_flow r flow F π -> bf_inv es cost flow s π b -> feasible (arc es cost flow) (dist b) -> dist b t <> USHRT_MAX ->
  walk (arc es cost flow) x w t (dist b t - dist b x) -> previous_edge b !! x = None ->
  Forall (fun e => previous_edge b !! end_ e = Some e /\ forall c, arc es cost flow e c -> dist b (end_ e) = dist b (start e) + c) w ->
  x = s.
Proof.
  intros Hm Hb Hfe Hdt Hw Hnone Hall. destruct (decide (x = s)) as [|Hne]; [done|exfalso].
  pose proof (bi_prev _ _ _ _ _ _ Hb x) as Hp. rewrite Hnone in Hp. unfold init in Hp. rewrite decide_False in Hp by done.
  assert (Ht : dist b t < USHRT_MAX).
  { pose proof (bi_range _ _ _ _ _ _ Hb t). pose proof (init_le s t). lia. }
  assert (Hres : forall e c, e ∈ w -> arc es cost flow e c -> residual e = true -> dist b (start e) < USHRT_MAX).
  { intros e c He Ha Hr. destruct (residual_arc es cost Hnet _ _ _ _ (mf_ok _ _ _ _ Hm) Ha Hr) as (e0 & He0 & _ & _ & Hend & _).
    destruct (back_from_t _ _ _ _ _ Hm He0) as (w' & c' & Hw' & Hc'). rewrite Hend in Hw'.
    pose proof (walk_feasible _ _ _ _ _ _ Hfe Hw'). lia. }
  cut (USHRT_MAX <= dist b t); [lia|]. clear Ht Hdt Hnone Hne.
  assert (Hx : USHRT_MAX <= dist b x) by lia. clear Hp. revert Hx Hw. generalize (dist b t - dist b x) as c. revert x.
  induction w as [|e w IH]; intros x c Hx Hw; cbn in Hw; [destruct Hw as [-> _]; done|].
  destruct Hw as (<- & c1 & Ha & Hw). inversion_clear Hall as [|? ? [_ Hex] Hall'].
  apply (IH Hall') with (x := end_ e) (c := c - c1); [| |done].
  - intros e' c' He'. apply Hres. by right.
  - rewrite (Hex _ Ha). destruct (residual e) eqn:Hr; [specialize (Hres e c1 ltac:(left) Ha Hr); lia|].
    destruct Ha as (He & _ & Hc). pose proof (nw_real _ _ Hnet e c1 He Hr Hc) as [_ H]. destruct (is_inbound (start e)); lia.
Qed.

(** One round: no path is left, or a cheapest one is added to the flow. *)
Lemma flow_round r flow F π num_nodes :
  min_cost_flow r flow F π -> (length V <= num_nodes * 2 + 1)%nat ->
  let b := bellman_ford es cost (num_nodes * 2 + 1) flow (initial_bf s) in
  progress b = false /\
  (dist b t = USHRT_MAX -> forall w c, walk (arc es cost flow) s w t c -> USHRT_MAX <= c) /\
  (dist b t <> USHRT_MAX -> exists flow' F', augment (S (length es)) (previous_edge b) s t flow F = Ret (flow', F') /\
     min_cost_flow (S r) flow' F' (dist b)).
Proof.
  intros Hm Hlen. pose proof Hm as [Hok Hex Hπ Hπ0].
  assert (HV' : forall e c, arc es cost flow e c -> start e ∈ V /\ end_ e ∈ V) by (intros e c (He & _); by apply HV).
  destruct (bellman_ford_converges es cost flow s π Hπ Hπ0 V HV' HVne (num_nodes * 2 + 1) 0 (initial_bf s)) as (Hb & Hp & Hfe & Hall).
  { by apply initial_bf_inv. }
  { intros u w v c Hw Hl. destruct w; [|cbn in Hl; lia]. destruct Hw as [-> ->]. pose proof (bi_range _ _ _ _ _ _ (initial_bf_inv es cost flow s π Hπ0) v). lia. }
  { lia. }
  { lia. }
  set (b := bellman_ford es cost (num_nodes * 2 + 1) flow (initial_bf s)) in *. split; [done|]. split.
  - intros Hd w c Hw. specialize (Hall _ _ _ _ Hw). unfold init in Hall. rewrite decide_True in Hall by done. lia.
  - intros Hd. destruct (previous_chain es cost flow s π b t Hb Hfe) as (x & w & Hw & Hnone & Hchain & Hnd).
    pose proof (chain_from_source _ _ _ _ _ _ _ Hm Hb Hfe Hd Hw Hnone Hchain) as ->.
    assert (Hin : forall e, e ∈ w -> e ∈ es).
    { assert (Hgen : forall u v c, walk (arc es cost flow) u w v c -> forall e, e ∈ w -> e ∈ es).
      { clear. induction w as [|e w IH]; intros u v c Hw e' He'; [by apply elem_of_nil in He'|]. destruct Hw as (_ & c1 & (He & _) & Hw).
        apply elem_of_cons in He' as [->|He']; [done|by eapply IH]. }
      by eapply Hgen. }
    destruct (augment_ok (previous_edge b) w t _ (S (length es)) flow F Hw Hnd) as (flow' & F' & Haug & Hok' & Hex' & Hav).
    + eapply Forall_impl; [exact Hchain|]. by intros e [? _].
    + done.
    + apply NoDup_cons in Hnd as [_ Hnd]. apply NoDup_fmap_1 in Hnd.
      assert (length w <= length es)%nat by by apply submseteq_length, NoDup_submseteq. lia.
    + exists flow', F'. split; [done|]. split; [done| | |].
      * intros v. rewrite Hex', Hex. lia.
      * intros e c (He & Hf & Hc). destruct (Hav e He Hf) as [Hold|(e' & He' & Hid)]; [by apply Hfe|].
        rewrite Forall_forall in Hchain. destruct (Hchain e' He') as [_ Htight].
        destruct (nw_twin _ _ Hnet e' (Hin e' He')) as (e1 & He1 & Hid1 & Hs1 & Ht1 & _ & Hc1).
        assert (e1 = e) as -> by (apply (nw_id _ _ Hnet); [done|done|congruence]). rewrite Hs1, Ht1. rewrite Hc in Hc1.
        destruct (cost e') as [c'|] eqn:Hce; [|done]. injection Hc1 as ->.
        rewrite (Htight c'); [lia|]. split; [by apply Hin|]. split; [|done].
        apply list_elem_of_split in He' as (w1 & w2 & ->). apply walk_app in Hw as (y & c2 & _ & (_ & c3 & (_ & Hfl & _) & _)). done.
      * intros v. destruct (bi_range _ _ _ _ _ _ Hb v), (Hπ0 v). lia.
Qed.

Context (node_exists : fnode -> bool) (Hs : node_exists s = true) (Ht : node_exists t = true).

Lemma ford_fulkerson_ok k num_nodes : forall r flow F π,
  min_cost_flow r flow F π -> (length V <= num_nodes * 2 + 1)%nat ->
  exists n flow' F' π', ford_fulkerson es cost node_exists k num_nodes s t r flow F = Ret (n, F') /\ (r <= n <= r + k)%nat /\
    min_cost_flow n flow' F' π' /\
    ((n < r + k)%nat -> forall w c, walk (arc es cost flow') s w t c -> USHRT_MAX <= c).
Proof.
  induction k as [|k IH]; intros r flow F π Hm Hlen; cbn [ford_fulkerson].
  { exists r, flow, F, π. split; [done|]. split; [lia|]. split; [done|]. intros; lia. }
  rewrite Hs, Ht. cbn [negb]. destruct (flow_round r flow F π num_nodes Hm Hlen) as (-> & Hend & Hmore).
  destruct (Z.eqb_spec (dist (bellman_ford es cost (num_nodes * 2 + 1) flow (initial_bf s)) t) USHRT_MAX) as [Heq|Hne].
  - exists r, flow, F, π. split; [done|]. split; [lia|]. split; [done|]. intros _. by apply Hend.
  - destruct (Hmore Hne) as (flow' & F' & -> & Hm'). cbn [mbind outcome_bind].
    destruct (IH (S r) flow' F' _ Hm' Hlen) as (n & flow'' & F'' & π' & -> & Hn & Hm'' & Hlast).
    exists n, flow'', F'', π'. split; [done|]. split; [lia|]. split; [done|]. intros Hlt. apply Hlast. lia.
Qed.

(** ** Least cost and greatest value *)
Definition sum (f : Flow_Edge -> Z) (l : list Flow_Edge) : Z := foldr (fun e x => f e + x) 0 l.
#[local] Instance sum_proper f : Proper ((≡ₚ) ==> eq) (sum f).
Proof. intros l l' Hl. unfold sum. induction Hl; cbn [foldr]; lia. Qed.
Lemma sum_app f l l' : sum f (l ++ l') = sum f l + sum f l'.
Proof. induction l as [|e l IH]; cbn; [done|]. unfold sum in *. lia. Qed.
Lemma sum_nonneg f l : (forall e, e ∈ l -> 0 <= f e) -> 0 <= sum f l.
Proof.
  induction l as [|e l IH]; intros H; cbn; [done|]. pose proof (H e ltac:(left)).
  pose proof (IH ltac:(intros; apply H; by right)). unfold sum in *. lia.
Qed.
Lemma sum_opp f l : sum (fun e => - f e) l = - sum f l.
Proof. induction l as [|e l IH]; cbn; [done|]. unfold sum in *. lia. Qed.

Lemma filter_split {A} (P : A -> Prop) `{forall x, Decision (P x)} (l : list A) : l ≡ₚ filter P l ++ filter (fun x => ~ P x) l.
Proof.
  induction l as [|x l IH]; [done|]. rewrite !filter_cons. destruct (decide (P x)) as [HP|HP].
  - rewrite (decide_False (P := ~ P x)) by tauto. cbn. by rewrite <- IH.
  - rewrite (decide_True (P := ~ P x)) by done. by rewrite <- Permutation_middle, <- IH.
Qed.

(** A weight that is at most 0 on [F] and at least 0 elsewhere is least on [F]. *)
Lemma sum_exchange f F G :
  NoDup F -> NoDup G -> (forall e, e ∈ F -> f e <= 0) -> (forall e, e ∈ G -> e ∉ F -> 0 <= f e) -> sum f F <= sum f G.
Proof.
  intros HF HG Hneg Hpos. rewrite (filter_split (fun e => e ∈ G) F), (filter_split (fun e => e ∈ F) G), !sum_app.
  assert (Hperm : filter (fun e => e ∈ G) F ≡ₚ filter (fun e => e ∈ F) G).
  { apply NoDup_Permutation; [by apply NoDup_filter|by apply NoDup_filter|]. intros x. rewrite !list_elem_of_filter. tauto. }
  rewrite Hperm. assert (0 <= sum (fun e => - f e) (filter (fun x => x ∉ G) F)).
  { apply sum_nonneg. intros e [_ He]%list_elem_of_filter. specialize (Hneg e He). lia. }
  assert (0 <= sum f (filter (fun x => x ∉ F) G)) by (apply sum_nonneg; intros e [? ?]%list_elem_of_filter; by apply Hpos).
  rewrite sum_opp in *. lia.
Qed.

(** Differences of a potential add up along routes. *)
Lemma sum_route (p : fnode -> Z) u w v : route u w v -> sum (fun e => p (start e) - p (end_ e)) w = p u - p v.
Proof. revert u. induction w as [|e w IH]; intros u; cbn; [intros ->; lia|]. intros [<- Hw]. specialize (IH _ Hw). unfold sum in IH. lia. Qed.

Lemma sum_routes (p : fnode -> Z) ws :
  Forall (fun w => route s w t) ws -> sum (fun e => p (start e) - p (end_ e)) (concat ws) = Z.of_nat (length ws) * (p s - p t).
Proof. induction 1 as [|w ws Hw _ IH]; [done|]. cbn [concat length]. rewrite sum_app, IH, (sum_route p s w t Hw). lia. Qed.

Definition weight (e : Flow_Edge) : Z := default 0 (cost e).

Lemma sum_plus f g l : sum (fun e => f e + g e) l = sum f l + sum g l.
Proof. induction l as [|e l IH]; cbn; [done|]. unfold sum in *. lia. Qed.

(** Another family of edge-disjoint routes over real edges that are up. *)
Definition routes_ok (ws : list (list Flow_Edge)) : Prop :=
  NoDup (concat ws) /\ Forall (fun w => route s w t) ws /\
  forall e, e ∈ concat ws -> e ∈ es /\ residual e = false /\ is_Some (cost e).

Lemma flow_least_cost r flow F π ws :
  min_cost_flow r flow F π -> routes_ok ws -> length ws = r -> sum weight F <= sum weight (concat ws).
Proof.
  intros Hm (Hnd & Hroute & Hreal) Hlen. pose proof Hm as [Hok _ Hπ _]. destruct (mf_routes _ _ _ _ Hm) as (vs & Hl & HF & Hvs & _).
  pose proof (sum_exchange (fun e => weight e + (π (start e) - π (end_ e))) F (concat ws)) as Hx. rewrite !sum_plus in Hx.
  rewrite (sum_routes π ws Hroute) in Hx.
  assert (HsF : sum (fun e => π (start e) - π (end_ e)) F = Z.of_nat r * (π s - π t)) by (by rewrite HF, (sum_routes π vs Hvs), Hl).
  rewrite HsF in Hx. rewrite Hlen in Hx.
  enough (sum weight F + Z.of_nat r * (π s - π t) <= sum weight (concat ws) + Z.of_nat r * (π s - π t)) by lia.
  apply Hx; [apply Hok|done| |].
  - intros e He. destruct (bag_arc es cost Hnet _ _ _ Hok He) as (e' & c & Ha & _ & Hs' & Ht' & Hc). specialize (Hπ _ _ Ha).
    rewrite Hs', Ht' in Hπ. unfold weight. rewrite Hc. cbn. lia.
  - intros e He Hnin. destruct (Hreal e He) as (Hes & Hr & c & Hc). unfold weight. rewrite Hc. cbn.
    assert (Ha : arc es cost flow e c).
    { split; [done|]. split; [|done]. destruct (fo_flow _ _ _ _ Hok e Hes Hr) as [-> _]. rewrite decide_False by done. lia. }
    specialize (Hπ _ _ Ha). lia.
Qed.

(** For finitely many nodes a predicate is decided, up to double negation. *)
Lemma finite_choice (P : fnode -> Prop) (l : list fnode) : ~ ~ exists l' : list fnode, forall v, v ∈ l -> (v ∈ l' <-> P v).
Proof.
  induction l as [|x l IH]; intros Hno.
  { apply Hno. exists []. by intros v ?%elem_of_nil. }
  apply IH. intros (l' & Hl'). assert (Hnn : ~ ~ (P x \/ ~ P x)) by tauto. apply Hnn. intros Hx. apply Hno.
  destruct (decide (x ∈ l)) as [Hin|Hnin].
  { exists l'. intros v [->|Hv]%elem_of_cons; by apply Hl'. }
  destruct Hx as [Hx|Hx].
  - exists (x :: l'). intros v Hv. rewrite elem_of_cons. destruct (decide (v = x)) as [->|Hne]; [tauto|]. apply elem_of_cons in Hv as [->|Hv]; [done|].
    rewrite (Hl' v Hv). tauto.
  - exists (filter (fun v => v <> x) l'). intros v Hv. rewrite list_elem_of_filter. destruct (decide (v = x)) as [->|Hne]; [tauto|].
    apply elem_of_cons in Hv as [->|Hv]; [done|]. rewrite (Hl' v Hv). tauto.
Qed.

(** If the destination is out of reach, no family has more routes. *)
Lemma flow_greatest r flow F π ws :
  min_cost_flow r flow F π -> (forall w c, ~ walk (arc es cost flow) s w t c) -> s ∈ V -> t ∈ V -> routes_ok ws -> (length ws <= r)%nat.
Proof.
  intros Hm Hno HsV HtV (Hnd & Hroute & Hreal). pose proof Hm as [Hok _ _ _]. destruct (mf_routes _ _ _ _ Hm) as (vs & Hl & HF & Hvs & _).
  destruct (decide (length ws <= r)%nat) as [|Hgt]; [done|exfalso].
  apply (finite_choice (fun v => exists w c, walk (arc es cost flow) s w v c) V). intros (S & HS).
  set (p v := if decide (v ∈ S) then -1 else 0).
  assert (Hsp : p s = -1) by (unfold p; rewrite decide_True; [done|]; apply HS; [done|]; by exists [], 0).
  assert (Htp : p t = 0).
  { unfold p. rewrite decide_False; [done|]. rewrite (HS t HtV). intros (w & c & Hw). by eapply Hno. }
  assert (Hstep : forall e c, arc es cost flow e c -> start e ∈ S -> end_ e ∈ S).
  { intros e c Ha Hin. destruct (HV e) as [Hv1 Hv2]; [apply Ha|]. apply (HS _ Hv2). apply (HS _ Hv1) in Hin as (w & c' & Hw).
    exists (w ++ [e]), (c' + c). apply walk_app. exists (start e), c'. split; [done|]. split; [done|]. exists c. split; [done|]. split; [done|lia]. }
  pose proof (sum_exchange (fun e => p (start e) - p (end_ e)) F (concat ws)) as Hx.
  assert (HsF : sum (fun e => p (start e) - p (end_ e)) F = Z.of_nat (length vs) * (p s - p t)) by (by rewrite HF, (sum_routes p vs Hvs)).
  rewrite HsF, (sum_routes p ws Hroute), Hsp, Htp in Hx.
  enough (Z.of_nat (length vs) * (-1 - 0) <= Z.of_nat (length ws) * (-1 - 0)) by lia. apply Hx; [apply Hok|done| |].
  - intros e He. destruct (bag_arc es cost Hnet _ _ _ Hok He) as (e' & c & Ha & _ & Hs' & Ht' & _).
    specialize (Hstep _ _ Ha). rewrite Hs', Ht' in Hstep. unfold p. destruct (decide (start e ∈ S)), (decide (end_ e ∈ S)); try lia. tauto.
  - intros e He Hnin. destruct (Hreal e He) as (Hes & Hr & c & Hc).
    assert (Ha : arc es cost flow e c).
    { split; [done|]. split; [|done]. destruct (fo_flow _ _ _ _ Hok e Hes Hr) as [-> _]. rewrite decide_False by done. lia. }
    specialize (Hstep _ _ Ha). unfold p. destruct (decide (start e ∈ S)), (decide (end_ e ∈ S)); try lia. tauto.
Qed.
End loop.
