(* ===== verification/MultiPathNet.v ===== *)
(** * MultiPathNet: the network of [Init_MultiPath] and paths of nodes

    The flow edges come in pairs, one for each node and one or two for each
    link; routes over real edges are paths of the overlay and the other way
    round. *)
From stdpp Require Import base list gmap numbers option sets.
From Stdlib Require Import ZArith Lia.
From S2P Require Import Prelude NetTypes MultiPath MultiPathProof MultiPathFlow.
#[local] Open Scope Z_scope.

(** ** The pairs of edges *)
Definition pair_of : Type := option (Z * Z) * fnode * fnode * Z.
Definition add (es : list Flow_Edge) (p : pair_of) : list Flow_Edge := let '(edge, a, b, idx) := p in add_pair edge a b idx es.

Definition node_pair (i : Z) : pair_of := (None, Inbound i, Outbound i, USHRT_MAX).
Definition link_pair (l : Z * Z * Z) : pair_of := let '(a, b, i) := l in (Some (a, b), Outbound a, Inbound b, i).

(** The links one can use, in both directions unless they are directed. *)
Definition arcs (directed : bool) (links : list (Z * Z * Z)) : list (Z * Z * Z) :=
  l ← links; let '(a, b, i) := l in (a, b, i) :: if directed then [] else [(b, a, i)].

Lemma Init_MultiPath_pairs directed nodes links :
  Init_MultiPath directed nodes links = foldl add [] ((node_pair <$> nodes) ++ (link_pair <$> arcs directed links)).
Proof.
  unfold Init_MultiPath. rewrite foldl_app.
  assert (Hn : forall es, foldl add es (node_pair <$> nodes) = foldl add_node es nodes) by (induction nodes; intros es; cbn; auto).
  rewrite Hn. clear Hn. generalize (foldl add_node [] nodes) as es. induction links as [|[[a b] i] links IH]; intros es; [done|].
  cbn [foldl]. rewrite IH. unfold arcs. cbn [mbind list_bind]. rewrite fmap_app, foldl_app. f_equal. by destruct directed.
Qed.

(** The real and the residual edge of pair number [j]. *)
Definition real_edge (j : nat) (p : pair_of) : Flow_Edge := let '(edge, a, b, idx) := p in mk_fe (2 * j) edge a b idx false.
Definition resid_edge (j : nat) (p : pair_of) : Flow_Edge := let '(edge, a, b, idx) := p in mk_fe (2 * j + 1) edge b a USHRT_MAX true.

Lemma foldl_add_spec ps :
  length (foldl add [] ps) = (2 * length ps)%nat /\
  forall e, e ∈ foldl add [] ps <-> exists j p, ps !! j = Some p /\ (e = real_edge j p \/ e = resid_edge j p).
Proof.
  induction ps as [|p ps [IHl IH]] using rev_ind.
  { split; [done|]. intros e. cbn. split; [by intros ?%elem_of_nil|]. by intros (j & p & ? & _). }
  rewrite foldl_app. cbn [foldl]. split.
  { rewrite length_app. destruct p as [[[edge a] b] idx]. cbn. rewrite IHl. cbn. lia. }
  intros e. assert (Hadd : e ∈ add (foldl add [] ps) p <-> e = resid_edge (length ps) p \/ e = real_edge (length ps) p \/ e ∈ foldl add [] ps).
  { destruct p as [[[edge a] b] idx]. cbn [add]. unfold add_pair. rewrite !elem_of_cons, IHl. cbn [resid_edge real_edge].
    by replace (2 * length ps + 1)%nat with (S (2 * length ps)) by lia. }
  rewrite Hadd, IH. split.
  - intros [->|[->|(j & q & Hj & He)]].
    + exists (length ps), p. split; [by rewrite list_lookup_middle|by right].
    + exists (length ps), p. split; [by rewrite list_lookup_middle|by left].
    + exists j, q. split; [by apply lookup_app_l_Some|done].
  - intros (j & q & Hj & He). apply lookup_app_Some in Hj as [Hj|[Hge Hj]]; [right; right; by exists j, q|].
    apply list_lookup_singleton_Some in Hj as [Hj <-]. replace j with (length ps) in He by lia. tauto.
Qed.

Lemma edge_of_id e j p (q : pair_of) k :
  (e = real_edge j p \/ e = resid_edge j p) -> (fe_id e = fe_id (real_edge k q) -> j = k /\ residual e = false) /\
  (fe_id e = fe_id (resid_edge k q) -> j = k /\ residual e = true).
Proof. destruct p as [[[? ?] ?] ?], q as [[[? ?] ?] ?]. intros [-> | ->]; cbn; split; intros; split; try done; lia. Qed.

Lemma twin_id_double j : twin_id (2 * j) = (2 * j + 1)%nat /\ twin_id (2 * j + 1) = (2 * j)%nat.
Proof.
  unfold twin_id. rewrite Nat.even_add, Nat.even_mul. cbn. split; lia.
Qed.

(** ** The network is well formed *)
Section net.
Context (directed : bool) (nodes : list Z) (links : list (Z * Z * Z)).
Context (edges : edge_table) (use_base_cost require_reverse : bool).
Let es := Init_MultiPath directed nodes links.
Let cost := fe_cost edges use_base_cost require_reverse.

(** The cost of a link, [None] if it is down. *)
Definition link_cost (a b : Z) : option Z := cost (mk_fe 0 (Some (a, b)) (Outbound a) (Inbound b) 0 false).

(** Links join different configured nodes, at most one for each pair and
    direction; costs are positive. *)
Record topology_ok : Prop := {
  to_nodes : NoDup nodes;
  to_links : forall a b i, (a, b, i) ∈ arcs directed links -> a ∈ nodes /\ b ∈ nodes /\ a <> b;
  to_keys : NoDup (fst <$> arcs directed links);
  to_costs : forall a b i c, (a, b, i) ∈ arcs directed links -> link_cost a b = Some c -> 1 <= c < 2 ^ 15 }.
Context (Hto : topology_ok).

Lemma edges_spec e : e ∈ es <-> exists j p, (e = real_edge j p \/ e = resid_edge j p) /\
  ((node_pair <$> nodes) ++ (link_pair <$> arcs directed links)) !! j = Some p.
Proof.
  unfold es. rewrite Init_MultiPath_pairs. rewrite (proj2 (foldl_add_spec _)). split; intros (j & p & H1 & H2); by exists j, p.
Qed.

(** What a pair stands for. *)
Lemma pair_cases j p :
  ((node_pair <$> nodes) ++ (link_pair <$> arcs directed links)) !! j = Some p ->
  (exists i, i ∈ nodes /\ p = node_pair i) \/ (exists l, l ∈ arcs directed links /\ p = link_pair l).
Proof.
  intros H. apply list_elem_of_lookup_2, elem_of_app in H as [H|H]; apply list_elem_of_fmap_1 in H as (x & -> & Hx); [left|right]; by exists x.
Qed.

Lemma real_cost_range j p c :
  ((node_pair <$> nodes) ++ (link_pair <$> arcs directed links)) !! j = Some p -> cost (real_edge j p) = Some c ->
  (if is_inbound (start (real_edge j p)) then 0 else 1) <= c < 2 ^ 15.
Proof.
  intros Hj Hc. destruct (pair_cases j p Hj) as [(i & _ & ->)|([[a b] i] & Hl & ->)].
  - cbn in Hc. injection Hc as <-. cbn. lia.
  - cbn [is_inbound start real_edge link_pair]. by eapply to_costs.
Qed.

Lemma resid_cost j p :
  ((node_pair <$> nodes) ++ (link_pair <$> arcs directed links)) !! j = Some p ->
  cost (resid_edge j p) = Z.opp <$> cost (real_edge j p).
Proof.
  intros Hj. pose proof (real_cost_range j p) as Hr. destruct p as [[[edge a] b] idx]. unfold cost, fe_cost in *. cbn [fe_edge resid_edge real_edge residual] in *.
  match goal with |- (?x ≫= _) = _ => destruct x as [c|] eqn:Hx end; cbn in *; [|done]. f_equal.
  specialize (Hr _ Hj eq_refl). apply wraps_small; [lia|]. unfold in_s. destruct (is_inbound a); lia.
Qed.

Lemma network_ok : network es cost.
Proof.
  split.
  - intros e e' (j & p & He & Hj)%edges_spec (k & q & He' & Hk)%edges_spec Hid.
    destruct (edge_of_id e j p q k He) as [H1 H2]. destruct He' as [->| ->].
    + destruct (H1 Hid) as [-> Hr]. replace q with p in * by congruence. destruct He as [->| ->]; [done|]. by destruct p as [[[? ?] ?] ?].
    + destruct (H2 Hid) as [-> Hr]. replace q with p in * by congruence. destruct He as [->| ->]; [|done]. by destruct p as [[[? ?] ?] ?].
  - intros e (j & p & [->| ->] & Hj)%edges_spec; pose proof (resid_cost j p Hj) as Hc; pose proof (twin_id_double j) as [Ht1 Ht2].
    + exists (resid_edge j p). split; [apply edges_spec; exists j, p; tauto|]. destruct p as [[[edge a] b] idx]. cbn [fe_id real_edge resid_edge start end_ residual] in *. done.
    + exists (real_edge j p). split; [apply edges_spec; exists j, p; tauto|].
      assert (Hc' : cost (real_edge j p) = Z.opp <$> cost (resid_edge j p)).
      { rewrite Hc. destruct (cost (real_edge j p)) as [c|]; cbn; [|done]. by rewrite Z.opp_involutive. }
      destruct p as [[[edge a] b] idx]. cbn [fe_id real_edge resid_edge start end_ residual] in *. done.
  - intros e c (j & p & [->| ->] & Hj)%edges_spec Hr Hc; [|by destruct p as [[[? ?] ?] ?]].
    pose proof (real_cost_range j p c Hj Hc). destruct (pair_cases j p Hj) as [(i & _ & ->)|([[a b] i] & _ & ->)]; cbn in *; (split; [done|lia]).
Qed.

Definition flow_nodes : list fnode := (Inbound <$> nodes) ++ (Outbound <$> nodes).

Lemma flow_nodes_spec v : v ∈ flow_nodes <-> node_id v ∈ nodes.
Proof.
  unfold flow_nodes. rewrite elem_of_app, !list_elem_of_fmap. destruct v as [i|i]; cbn; split.
  - intros [(x & [= ->] & Hx)|(x & Hx & _)]; done.
  - intros Hi. left. by exists i.
  - intros [(x & Hx & _)|(x & [= ->] & Hx)]; done.
  - intros Hi. right. by exists i.
Qed.

Lemma edges_nodes e : e ∈ es -> start e ∈ flow_nodes /\ end_ e ∈ flow_nodes.
Proof.
  intros (j & p & He & Hj)%edges_spec. rewrite !flow_nodes_spec. destruct (pair_cases j p Hj) as [(i & Hi & ->)|([[a b] i] & Hl & ->)].
  - by destruct He as [->| ->].
  - destruct (to_links Hto a b i Hl) as (Ha & Hb & _). by destruct He as [->| ->].
Qed.

(** ** Edges and what they stand for *)
Definition link_up (a b : Z) : Prop := (exists i, (a, b, i) ∈ arcs directed links) /\ is_Some (link_cost a b).

(** The node whose halves an edge joins. *)
Definition crossed (e : Flow_Edge) : option Z := match fe_edge e with None => Some (node_id (start e)) | Some _ => None end.

Lemma real_spec e :
  e ∈ es -> residual e = false ->
  (exists i, i ∈ nodes /\ fe_edge e = None /\ start e = Inbound i /\ end_ e = Outbound i) \/
  (exists a b i, (a, b, i) ∈ arcs directed links /\ fe_edge e = Some (a, b) /\ start e = Outbound a /\ end_ e = Inbound b /\ index e = i /\
     cost e = link_cost a b).
Proof.
  intros (j & p & [->| ->] & Hj)%edges_spec Hr; [|by destruct p as [[[? ?] ?] ?]].
  destruct (pair_cases j p Hj) as [(i & Hi & ->)|([[a b] i] & Hl & ->)]; [left; by exists i|right; by exists a, b, i].
Qed.

Lemma keys_nodup : NoDup ((fun p : pair_of => (p.1.1.1, p.1.1.2)) <$> (node_pair <$> nodes) ++ (link_pair <$> arcs directed links)).
Proof.
  rewrite fmap_app, <- !list_fmap_compose. apply NoDup_app. split_and!.
  - apply (NoDup_fmap_2_strong _); [|apply Hto]. intros x y _ _ H. cbn in H. congruence.
  - intros k Hk Hk'. apply list_elem_of_fmap_1 in Hk as (x & -> & _), Hk' as ([[a b] i] & Heq & _). done.
  - pose proof (to_keys Hto) as Hk. revert Hk. generalize (arcs directed links) as l. clear. intros l. induction l as [|[[a b] i] l IH]; [constructor|].
    cbn. rewrite !NoDup_cons. intros [Hn Hnd]. split; [|by apply IH]. intros Hin. apply Hn.
    apply list_elem_of_fmap_1 in Hin as ([[a' b'] i'] & Heq & Hin). cbn in Heq. injection Heq as -> ->. change (a', b') with (fst (a', b', i')).
    by apply list_elem_of_fmap_2.
Qed.

(** A real edge is known by its link or the node it crosses. *)
Lemma real_unique e e' :
  e ∈ es -> e' ∈ es -> residual e = false -> residual e' = false -> fe_edge e = fe_edge e' -> crossed e = crossed e' -> e = e'.
Proof.
  intros (j & p & He & Hj)%edges_spec (k & q & He' & Hk)%edges_spec Hr Hr' Hedge Hcr.
  destruct He as [->| ->]; [|by destruct p as [[[? ?] ?] ?]]. destruct He' as [->| ->]; [|by destruct q as [[[? ?] ?] ?]].
  assert (Hkey : (p.1.1.1, p.1.1.2) = (q.1.1.1, q.1.1.2)).
  { destruct (pair_cases j p Hj) as [(i & _ & ->)|([[a b] i] & _ & ->)], (pair_cases k q Hk) as [(i' & _ & ->)|([[a' b'] i'] & _ & ->)]; cbn in *; congruence. }
  assert (j = k) as ->; [|by replace q with p by congruence].
  eapply (NoDup_lookup _ _ _ _ keys_nodup); [|rewrite list_lookup_fmap, Hk; cbn; reflexivity]. rewrite list_lookup_fmap, Hj. cbn. by rewrite Hkey.
Qed.

(** ** Paths of nodes: [q] are the nodes between [a] and [b] *)
Definition hops (a : Z) (q : list Z) (b : Z) : list (Z * Z) := zip (a :: q) (q ++ [b]).

Definition real_up (e : Flow_Edge) : Prop := e ∈ es /\ residual e = false /\ is_Some (cost e).

Lemma route_path w a b :
  (forall e, e ∈ w -> real_up e) -> route (Outbound a) w (Inbound b) ->
  exists q, omap fe_edge w = hops a q b /\ omap crossed w = q /\ forall h, h ∈ hops a q b -> link_up h.1 h.2.
Proof.
  remember (length w) as n eqn:Hn. revert w a Hn. induction (lt_wf n) as [n _ IH]. intros w a -> Hw Hr.
  destruct w as [|e w]; [done|]. destruct Hr as [Hs Hr]. destruct (Hw e ltac:(left)) as (He & Hre & Hup).
  destruct (real_spec e He Hre) as [(i & _ & _ & Hs' & _)|(a' & d & i & Hl & Hed & Hs' & Hend & _ & Hce)]; [congruence|].
  assert (a' = a) as -> by congruence. rewrite Hend in Hr. rewrite Hce in Hup.
  assert (Hcr : crossed e = None) by (unfold crossed; by rewrite Hed).
  destruct w as [|e2 w].
  - injection Hr as ->. exists []. cbn. rewrite Hed, Hcr. cbn. split; [done|]. split; [done|]. intros h ->%list_elem_of_singleton. cbn. split; [by exists i|done].
  - destruct Hr as [Hs2 Hr]. destruct (Hw e2 ltac:(right; left)) as (He2 & Hre2 & _).
    destruct (real_spec e2 He2 Hre2) as [(i2 & _ & Hed2 & Hs2' & Hend2)|(? & ? & ? & _ & _ & ? & _)]; [|congruence].
    assert (i2 = d) as -> by congruence. rewrite Hend2 in Hr.
    destruct (IH (length w) ltac:(cbn; lia) w d eq_refl) as (q & H1 & H2 & H3); [intros; apply Hw; right; by right|done|].
    exists (d :: q). cbn [omap list_omap]. unfold omap in H1, H2. cbn. rewrite Hed, Hed2, Hcr. unfold crossed at 1. rewrite Hed2, Hs2'. cbn [node_id].
    split; [unfold hops in *; cbn; by f_equal|]. split; [by f_equal|]. intros h [->|Hh]%elem_of_cons; [|by apply H3]. cbn. split; [by exists i|done].
Qed.

Lemma real_of_arc a b i : (a, b, i) ∈ arcs directed links -> exists e, e ∈ es /\ residual e = false /\ fe_edge e = Some (a, b) /\
  start e = Outbound a /\ end_ e = Inbound b /\ cost e = link_cost a b /\ index e = i.
Proof.
  intros Hl. assert (Hp : link_pair (a, b, i) ∈ (node_pair <$> nodes) ++ (link_pair <$> arcs directed links)).
  { apply elem_of_app. right. by apply list_elem_of_fmap_2. }
  apply list_elem_of_lookup in Hp as [j Hj]. exists (real_edge j (link_pair (a, b, i))). split; [|done]. apply edges_spec. exists j, (link_pair (a, b, i)). tauto.
Qed.

Lemma real_of_node i : i ∈ nodes -> exists e, e ∈ es /\ residual e = false /\ fe_edge e = None /\ start e = Inbound i /\ end_ e = Outbound i /\ cost e = Some 0.
Proof.
  intros Hi. assert (Hp : node_pair i ∈ (node_pair <$> nodes) ++ (link_pair <$> arcs directed links)).
  { apply elem_of_app. left. by apply list_elem_of_fmap_2. }
  apply list_elem_of_lookup in Hp as [j Hj]. exists (real_edge j (node_pair i)). split; [|done]. apply edges_spec. exists j, (node_pair i). tauto.
Qed.

Lemma path_route q a b :
  (forall h, h ∈ hops a q b -> link_up h.1 h.2) ->
  exists w, route (Outbound a) w (Inbound b) /\ omap fe_edge w = hops a q b /\ omap crossed w = q /\ forall e, e ∈ w -> real_up e.
Proof.
  revert a. induction q as [|d q IH]; intros a Hup.
  - destruct (Hup (a, b) ltac:(left)) as [(i & Hl) Hc]. destruct (real_of_arc a b i Hl) as (e & He & Hr & Hed & Hs & Hend & Hce & _).
    exists [e]. cbn. unfold crossed. rewrite Hed. cbn. split_and!; try done. intros e' ->%list_elem_of_singleton. split; [done|]. split; [done|]. cbn in Hc. by rewrite Hce.
  - destruct (Hup (a, d) ltac:(left)) as [(i & Hl) Hc]. destruct (real_of_arc a d i Hl) as (e & He & Hr & Hed & Hs & Hend & Hce & _).
    destruct (to_links Hto a d i Hl) as (_ & Hd & _). destruct (real_of_node d Hd) as (e2 & He2 & Hr2 & Hed2 & Hs2 & Hend2 & Hc2).
    destruct (IH d) as (w & Hw & H1 & H2 & H3); [intros h Hh; apply Hup; by right|].
    assert (Hcr : crossed e = None) by (unfold crossed; by rewrite Hed).
    assert (Hcr2 : crossed e2 = Some d) by (unfold crossed; rewrite Hed2, Hs2; done).
    exists (e :: e2 :: w). split_and!.
    + cbn. rewrite Hend, Hs2, Hend2. done.
    + cbn. rewrite Hed, Hed2. unfold hops. cbn. f_equal. exact H1.
    + cbn. rewrite Hcr, Hcr2. f_equal. exact H2.
    + intros e' [->|[->|He']%elem_of_cons]%elem_of_cons; [| |by apply H3].
      * split; [done|]. split; [done|]. cbn in Hc. by rewrite Hce.
      * split; [done|]. split; [done|]. rewrite Hc2. by eexists.
Qed.

(** The cost of links. *)
Definition hops_cost (hs : list (Z * Z)) : Z := foldr (fun h x => default 0 (link_cost h.1 h.2) + x) 0 hs.

Lemma route_cost w : (forall e, e ∈ w -> real_up e) -> sum (weight cost) w = hops_cost (omap fe_edge w).
Proof.
  induction w as [|e w IH]; intros Hw; [done|]. specialize (IH ltac:(intros; apply Hw; by right)).
  destruct (Hw e ltac:(left)) as (He & Hr & Hup). unfold sum, hops_cost, omap in *. cbn [foldr list_omap].
  destruct (real_spec e He Hr) as [(i & _ & Hed & _)|(a & b & i & _ & Hed & _ & _ & _ & Hce)]; rewrite Hed.
  - rewrite IH. unfold weight, cost, fe_cost. rewrite Hed. cbn. destruct (residual e); done.
  - cbn [foldr]. rewrite IH. unfold weight. rewrite Hce. done.
Qed.
End net.

(** ** Lists without duplicates *)
Lemma NoDup_omap {A B} (f : A -> option B) (l : list A) :
  NoDup l -> (forall x y k, x ∈ l -> y ∈ l -> f x = Some k -> f y = Some k -> x = y) -> NoDup (omap f l).
Proof.
  induction l as [|x l IH]; intros Hnd Hinj; [constructor|]. apply NoDup_cons in Hnd as [Hx Hnd]. unfold omap in *. cbn.
  specialize (IH Hnd ltac:(intros y z k Hy Hz; apply Hinj; by right)). destruct (f x) as [k|] eqn:Hfx; [|done]. apply NoDup_cons. split; [|done].
  intros (y & Hy & Hfy)%list_elem_of_omap. rewrite (Hinj x y k) in Hx; [done|left|by right|done|done].
Qed.

Lemma NoDup_concat_fmap {A B} (f : A -> list B) (l : list A) : (forall x, x ∈ l -> f x <> []) -> NoDup (concat (f <$> l)) -> NoDup l.
Proof.
  induction l as [|x l IH]; intros Hne Hnd; [constructor|]. cbn in Hnd. apply NoDup_app in Hnd as (_ & Hdis & Hnd).
  apply NoDup_cons. split; [|apply IH; [intros; apply Hne; by right|done]]. intros Hx. destruct (f x) as [|y r] eqn:Hfx; [by apply (Hne x ltac:(left))|].
  apply (Hdis y); [left|]. apply elem_of_concat. exists (f x). split; [rewrite Hfx; left|by apply list_elem_of_fmap_2].
Qed.

Lemma omap_concat {A B} (f : A -> option B) (ls : list (list A)) : omap f (concat ls) = concat ((fun l : list A => omap f l) <$> ls).
Proof. induction ls as [|l ls IH]; [done|]. cbn. by rewrite omap_app, IH. Qed.

(** The hops of disjoint paths are different. *)
Lemma hops_source a q b h : h ∈ hops a q b -> h.1 ∈ a :: q /\ h.2 ∈ q ++ [b].
Proof. destruct h as [x y]. intros H. unfold hops in H. apply elem_of_zip_l in H as H1. apply elem_of_zip_r in H as H2. done. Qed.

Lemma hops_direct a q b : a ∉ q -> b ∉ q -> (a, b) ∈ hops a q b -> q = [].
Proof.
  destruct q as [|d q]; [done|]. intros Ha Hb. change (hops a (d :: q) b) with ((a, d) :: hops d q b). intros [[= ->]|H]%elem_of_cons.
  - exfalso. apply Hb. left.
  - apply elem_of_zip_l in H. done.
Qed.

Lemma hops_nodup a q b : NoDup (a :: q) -> NoDup (hops a q b).
Proof.
  intros Hnd. apply (NoDup_fmap_1 fst). unfold hops. rewrite fst_zip; [done|]. rewrite length_app. cbn. lia.
Qed.

Lemma all_hops_nodup a b qs :
  NoDup qs -> NoDup (concat qs) -> a ∉ concat qs -> b ∉ concat qs -> NoDup (concat ((fun q => hops a q b) <$> qs)).
Proof.
  induction qs as [|q qs IH]; intros Hq Hc Ha Hb; [constructor|]. apply NoDup_cons in Hq as [Hq Hqs]. cbn in Hc, Ha, Hb.
  apply NoDup_app in Hc as (Hcq & Hdis & Hc). rewrite elem_of_app in Ha, Hb. cbn. apply NoDup_app. split_and!.
  - apply hops_nodup, NoDup_cons. split; [tauto|done].
  - intros [x y] Hin (l & Hl & (q' & -> & Hq')%list_elem_of_fmap_1)%elem_of_concat.
    assert (Hsub : forall z, z ∈ q' -> z ∈ concat qs) by (intros z Hz; apply elem_of_concat; by exists q').
    destruct (hops_source _ _ _ _ Hin) as [H1 H2], (hops_source _ _ _ _ Hl) as [H1' H2']. cbn in *.
    rewrite elem_of_cons in H1, H1'. rewrite elem_of_app, list_elem_of_singleton in H2, H2'.
    destruct H1 as [->|H1].
    + destruct H2 as [H2| ->].
      * destruct H2' as [H2'| ->]; [apply (Hdis y); auto|tauto].
      * assert (q = []) as -> by (apply (hops_direct a q b); tauto). assert (q' = []) as -> by (apply (hops_direct a q' b); [intros ?%Hsub; tauto|intros ?%Hsub; tauto|done]). done.
    + destruct H1' as [->|H1']; [tauto|]. apply (Hdis x); auto.
  - apply IH; tauto.
Qed.
