(* ===== verification/MultiPathProps.v ===== *)
(** * MultiPathProps: properties of the disjoint paths

    [MultiPath_Compute] finds node-disjoint paths, as many as asked for when
    there are, of least total cost, and marks exactly their links; the cache
    changes nothing; the operations on masks are those of sets of links. *)
From stdpp Require Import base list gmap numbers option sets.
From Stdlib Require Import ZArith Lia.
From S2P Require Import Prelude NetTypes MultiPath MultiPathProof MultiPathFlow MultiPathNet.
#[local] Open Scope Z_scope.

(** ** Masks as sets of links *)
Definition has_link (mask : list Z) (i : Z) : bool := Z.testbit (default 0 (mask !! Z.to_nat (i / 8))) (7 - i mod 8).

Lemma mask_bit_testbit i j : 0 <= j -> Z.testbit (mask_bit i) j = (j =? 7 - i mod 8).
Proof.
  intros Hj. pose proof (Z.mod_pos_bound i 8). unfold mask_bit. rewrite Z.shiftr_spec by done. change 128 with (2 ^ 7).
  rewrite Z.pow2_bits_eqb by lia. destruct (Z.eqb_spec 7 (j + i mod 8)), (Z.eqb_spec j (7 - i mod 8)); lia.
Qed.

Lemma empty_mask_has size i : has_link (empty_mask size) i = false.
Proof.
  unfold has_link, empty_mask. destruct (repeat 0 size !! Z.to_nat (i / 8)) as [x|] eqn:Hx; [|apply Z.bits_0].
  apply list_elem_of_lookup_2, list_elem_of_In, repeat_spec in Hx as ->. apply Z.bits_0.
Qed.

Lemma set_index_ok size mask i :
  length mask = size -> 0 <= i < 8 * Z.of_nat size ->
  exists m, set_index mask i = Ret m /\ length m = size /\ forall j, 0 <= j -> has_link m j = has_link mask j || (j =? i).
Proof.
  intros Hl Hi. unfold set_index. assert (Hlt : (Z.to_nat (i / 8) < length mask)%nat).
  { rewrite Hl. assert (i / 8 < Z.of_nat size) by (apply Z.div_lt_upper_bound; lia). lia. }
  destruct (lookup_lt_is_Some_2 mask _ Hlt) as [x Hx]. rewrite Hx. cbn [or_else mbind outcome_bind]. eexists. split; [done|].
  split; [by rewrite length_insert|]. intros j Hj. unfold has_link. pose proof (Z.mod_pos_bound i 8). pose proof (Z.mod_pos_bound j 8).
  pose proof (Z.div_mod i 8). pose proof (Z.div_mod j 8). pose proof (Z.div_pos j 8). pose proof (Z.div_pos i 8).
  destruct (decide (Z.to_nat (j / 8) = Z.to_nat (i / 8))) as [Heq|Hne].
  - rewrite Heq. rewrite list_lookup_insert_eq, Hx by done. cbn [from_option id]. rewrite Z.lor_spec, mask_bit_testbit by lia. f_equal. destruct (Z.eqb_spec (7 - j mod 8) (7 - i mod 8)), (Z.eqb_spec j i); lia.
  - rewrite list_lookup_insert_ne by done. destruct (Z.eqb_spec j i) as [->|]; [done|]. by rewrite orb_false_r.
Qed.

Lemma bag_mask_ok size bag :
  (forall e, e ∈ bag -> fe_edge e <> None -> 0 <= index e < 8 * Z.of_nat size) ->
  exists mask, bag_mask size bag = Ret mask /\ length mask = size /\
    forall j, 0 <= j -> has_link mask j = true <-> exists e, e ∈ bag /\ fe_edge e <> None /\ index e = j.
Proof.
  induction bag as [|e bag IH]; intros Hi.
  - exists (empty_mask size). split; [done|]. split; [apply repeat_length|]. intros j Hj. rewrite empty_mask_has. split; [done|].
    by intros (e & ?%elem_of_nil & _).
  - destruct IH as (mask & Hm & Hl & Hb); [intros; apply Hi; [by right|done]|]. unfold bag_mask in *. cbn [foldr]. rewrite Hm. cbn [mbind outcome_bind].
    destruct (decide (fe_edge e = None)) as [Hn|Hn].
    + exists mask. split; [done|]. split; [done|]. intros j Hj. rewrite (Hb j Hj). split; intros (e' & He' & Hne & Hx).
      * exists e'. split; [by right|done].
      * apply elem_of_cons in He' as [->|He']; [done|]. by exists e'.
    + destruct (set_index_ok size mask (index e) Hl) as (m & -> & Hlm & Hbm); [apply Hi; [left|done]|]. exists m. split; [done|]. split; [done|].
      intros j Hj. rewrite (Hbm j Hj), orb_true_iff, (Hb j Hj), Z.eqb_eq. split.
      * intros [(e' & He' & Hne & Hx)| ->]; [exists e'; split; [by right|done]|exists e; split; [left|done]].
      * intros (e' & [->|He']%elem_of_cons & Hne & Hx); [by right|left; by exists e'].
Qed.

(** ** Disjoint paths *)
Section paths.
Context (directed : bool) (nodes : list Z) (links : list (Z * Z * Z)).
Context (edges : edge_table) (use_base_cost require_reverse : bool).
Let es := Init_MultiPath directed nodes links.
Let cost := fe_cost edges use_base_cost require_reverse.

(** Paths from [a] to [b] over links that are up, given by the nodes between
    them, no two of which are the same. *)
Record disjoint_paths (a b : Z) (qs : list (list Z)) : Prop := {
  dp_different : NoDup qs;
  dp_disjoint : NoDup (concat qs);
  dp_ends : a ∉ concat qs /\ b ∉ concat qs;
  dp_links : forall q h, q ∈ qs -> h ∈ hops a q b -> link_up directed links edges use_base_cost require_reverse h.1 h.2 }.

Definition paths_cost (a b : Z) (qs : list (list Z)) : Z :=
  hops_cost edges use_base_cost require_reverse (concat ((fun q => hops a q b) <$> qs)).

(** The links the paths use. *)
Definition on_paths (a b : Z) (qs : list (list Z)) (i : Z) : Prop :=
  exists q x y, q ∈ qs /\ (x, y) ∈ hops a q b /\ (x, y, i) ∈ arcs directed links.

Context (Hto : topology_ok directed nodes links edges use_base_cost require_reverse).
Notation real_up := (real_up directed nodes links edges use_base_cost require_reverse).

Lemma NoDup_by_keys l : (forall e, e ∈ l -> real_up e) -> NoDup (omap fe_edge l) -> NoDup (omap crossed l) -> NoDup l.
Proof.
  induction l as [|e l IH]; intros Hl H1 H2; [constructor|]. unfold omap in *. cbn in H1, H2. apply NoDup_cons. split.
  - intros Hin. unfold crossed in H2 at 1. destruct (fe_edge e) as [h|] eqn:He.
    + apply NoDup_cons in H1 as [H1 _]. apply H1. apply list_elem_of_omap. by exists e.
    + apply NoDup_cons in H2 as [H2 _]. apply H2. apply list_elem_of_omap. exists e. split; [done|]. unfold crossed. by rewrite He.
  - apply IH; [intros; apply Hl; by right| |].
    + destruct (fe_edge e); [by apply NoDup_cons in H1 as [_ ?]|done].
    + destruct (crossed e); [by apply NoDup_cons in H2 as [_ ?]|done].
Qed.

(** Disjoint paths as routes of the flow network. *)
Lemma paths_routes a b qs :
  disjoint_paths a b qs ->
  exists ws, length ws = length qs /\ routes_ok es cost (Outbound a) (Inbound b) ws /\ sum (weight cost) (concat ws) = paths_cost a b qs.
Proof.
  intros [Hd Hc [Ha Hb] Hl].
  assert (Hws : exists ws, Forall2 (fun w q => route (Outbound a) w (Inbound b) /\ omap fe_edge w = hops a q b /\ omap crossed w = q /\
      forall e, e ∈ w -> real_up e) ws qs).
  { clear -Hto Hl. induction qs as [|q qs IH]; [by exists []|]. destruct IH as [ws Hws]; [intros q' h Hq'; apply Hl; by right|].
    destruct (path_route directed nodes links edges use_base_cost require_reverse Hto q a b) as (w & Hw); [intros h; apply Hl; left|].
    exists (w :: ws). by constructor. }
  destruct Hws as [ws Hws]. pose proof (Forall2_length _ _ _ Hws) as Hlen.
  assert (Hall : Forall (fun w => route (Outbound a) w (Inbound b)) ws /\ concat ((fun w : list Flow_Edge => omap fe_edge w) <$> ws) = concat ((fun q => hops a q b) <$> qs) /\
    concat ((fun w : list Flow_Edge => omap crossed w) <$> ws) = concat qs /\ forall e, e ∈ concat ws -> real_up e).
  { clear -Hws. induction Hws as [|w q ws qs (Hr & H1 & H2 & H3) _ (IH1 & IH2 & IH3 & IH4)].
    - split_and!; try done. by intros e ?%elem_of_nil.
    - split; [by constructor|]. split; [cbn; by rewrite H1, IH2|]. split; [cbn; by rewrite H2, IH3|]. intros e [He|He]%elem_of_app; auto. }
  destruct Hall as (Hr & H1 & H2 & H3). exists ws. split; [done|]. rewrite <- omap_concat in H1. rewrite <- omap_concat in H2. split.
  - split; [|split; [done|]].
    + apply NoDup_by_keys; [done|rewrite H1; by apply all_hops_nodup|by rewrite H2].
    + intros e He. by apply H3.
  - unfold paths_cost. rewrite <- H1. apply (route_cost directed nodes links edges use_base_cost require_reverse). done.
Qed.

(** A flow as disjoint paths. *)
Lemma flow_paths r flow F π a b :
  a <> b -> min_cost_flow es cost (Outbound a) (Inbound b) r flow F π ->
  exists qs, length qs = r /\ disjoint_paths a b qs /\ sum (weight cost) F = paths_cost a b qs /\
    forall i, (exists e, e ∈ F /\ fe_edge e <> None /\ index e = i) <-> on_paths a b qs i.
Proof.
  intros Hab Hm. pose proof (network_ok _ _ _ _ _ _ Hto) as Hnet.
  destruct (mf_routes es cost Hnet (Outbound a) (Inbound b) ltac:(done) _ _ _ _ Hm) as (ws & Hlen & HF & Hws & Hdesc).
  assert (Hreal : forall e, e ∈ concat ws -> real_up e) by (intros e He; rewrite <- HF in He; by apply (fo_real _ _ _ _ (mf_ok _ _ _ _ _ _ _ _ Hm))).
  assert (Hnd : NoDup (concat ws)) by (rewrite <- HF; apply (mf_ok _ _ _ _ _ _ _ _ Hm)).
  assert (Hpath : forall w, w ∈ ws -> omap fe_edge w = hops a (omap crossed w) b /\
    forall h, h ∈ hops a (omap crossed w) b -> link_up directed links edges use_base_cost require_reverse h.1 h.2).
  { intros w Hw. rewrite Forall_forall in Hws. destruct (route_path directed nodes links edges use_base_cost require_reverse w a b) as (q & H1 & -> & H3).
    - intros e He. apply Hreal, elem_of_concat. by exists w.
    - by apply Hws.
    - done. }
  assert (Hunique : forall e e', e ∈ concat ws -> e' ∈ concat ws -> fe_edge e = fe_edge e' -> crossed e = crossed e' -> e = e').
  { intros e e' He He'. destruct (Hreal e He) as (? & ? & _), (Hreal e' He') as (? & ? & _). by apply (real_unique _ _ _ _ _ _ Hto). }
  set (qs := (fun w : list Flow_Edge => omap crossed w) <$> ws).
  assert (Hhops : concat ((fun q => hops a q b) <$> qs) = omap fe_edge (concat ws)).
  { rewrite omap_concat. unfold qs. rewrite <- list_fmap_compose. f_equal. apply list_fmap_ext. intros j w Hw.
    symmetry. by apply Hpath, list_elem_of_lookup_2 with j. }
  assert (Hqs : concat qs = omap crossed (concat ws)) by (by rewrite omap_concat).
  assert (Hcross : forall i, i ∈ concat qs -> exists w w1 e w2, w ∈ ws /\ w = w1 ++ e :: w2 /\ start e = Inbound i /\ end_ e = Outbound i /\ route (Outbound a) w1 (Inbound i) /\ route (Outbound i) w2 (Inbound b)).
  { intros i Hi. rewrite Hqs in Hi. apply list_elem_of_omap in Hi as (e & He & Hc). pose proof He as (w & Hew & Hw)%elem_of_concat.
    destruct (Hreal e He) as (Hes & Hr & _). rewrite Forall_forall in Hws. pose proof (Hws w Hw) as Hrt.
    apply list_elem_of_split in Hew as (w1 & w2 & ->). exists (w1 ++ e :: w2), w1, e, w2.
    destruct (real_spec directed nodes links edges use_base_cost require_reverse e Hes Hr) as [(i' & _ & Hed & Hs & Hend)|(x & y & i' & _ & Hed & _)];
      unfold crossed in Hc; rewrite Hed in Hc; [|done]. rewrite Hs in Hc. injection Hc as ->.
    apply route_app in Hrt as (x & H1 & (H2 & H3)). rewrite Hend in H3. rewrite Hs in H2. subst x. done. }
  assert (Hsub : forall w w', w ∈ ws -> w' ⊆ w -> descending (level π) w').
  { intros w w' Hw Hsub e He. apply Hdesc. rewrite HF. apply elem_of_concat. exists w. split; [by apply Hsub|done]. }
  exists qs. split; [unfold qs; by rewrite length_fmap|]. split; [|split].
  - split.
    + apply (NoDup_concat_fmap (fun q => hops a q b)); [intros q _; by destruct q|]. rewrite Hhops. apply NoDup_omap; [done|].
      intros e e' h He He' H1 H2. apply Hunique; try done; [congruence|]. unfold crossed. by rewrite H1, H2.
    + rewrite Hqs. apply NoDup_omap; [done|]. intros e e' i He He' H1 H2. apply Hunique; try done; [|congruence].
      unfold crossed in *. by destruct (fe_edge e), (fe_edge e').
    + split; intros (w & w1 & e & w2 & Hw & -> & Hs & Hend & H1 & H2)%Hcross;
        pose proof (Hsub _ [e] Hw ltac:(intros x ->%list_elem_of_singleton; apply elem_of_app; right; left) e ltac:(left)) as Hlt; rewrite Hs, Hend in Hlt.
      * pose proof (route_descends (level π) _ w1 _ (Hsub _ w1 Hw ltac:(intros x Hx; apply elem_of_app; by left)) H1). lia.
      * pose proof (route_descends (level π) _ w2 _ (Hsub _ w2 Hw ltac:(intros x Hx; apply elem_of_app; right; by right)) H2). lia.
    + intros q h Hq Hh. apply list_elem_of_fmap_1 in Hq as (w & -> & Hw). by apply (Hpath w Hw).
  - unfold paths_cost. rewrite Hhops, <- (route_cost directed nodes links edges use_base_cost require_reverse) by done. apply sum_proper; exact HF.
  - intros i. unfold on_paths. split.
    + intros (e & He & Hne & <-). rewrite HF in He. pose proof He as (w & Hew & Hw)%elem_of_concat. destruct (Hreal e He) as (Hes & Hr & _).
      destruct (real_spec directed nodes links edges use_base_cost require_reverse e Hes Hr) as [(i' & _ & Hed & _)|(x & y & i' & Hl & Hed & _ & _ & Hix & _)]; [done|].
      exists (omap crossed w), x, y. split; [apply list_elem_of_fmap_2; done|]. destruct (Hpath w Hw) as [Hh _]. rewrite <- Hh, Hix. split; [|done].
      apply list_elem_of_omap. by exists e.
    + intros (q & x & y & Hq & Hh & Hl). apply list_elem_of_fmap_1 in Hq as (w & -> & Hw). destruct (Hpath w Hw) as [Heq _]. rewrite <- Heq in Hh.
      apply list_elem_of_omap in Hh as (e & He & Hed). assert (Hec : e ∈ concat ws) by (apply elem_of_concat; by exists w). destruct (Hreal e Hec) as (Hes & Hr & _).
      exists e. split; [by rewrite HF|]. split; [congruence|]. destruct (real_of_arc directed nodes links edges use_base_cost require_reverse x y i Hl) as (e' & He' & Hr' & Hed' & _ & _ & _ & Hix).
      rewrite <- Hix. f_equal. apply (real_unique _ _ _ _ _ _ Hto); try done; [congruence|]. unfold crossed. by rewrite Hed, Hed'.
Qed.

(** No link costs more than [C], and a path over all flow nodes stays below the
    16-bit infinity. *)
Definition costs_below (C : Z) : Prop :=
  0 <= C /\ 2 * Z.of_nat (length nodes) * C < USHRT_MAX /\
  forall a b i c, (a, b, i) ∈ arcs directed links -> link_cost edges use_base_cost require_reverse a b = Some c -> c <= C.

Lemma walk_cost_bound flow C u w v c : costs_below C -> walk (arc es cost flow) u w v c -> c <= Z.of_nat (length w) * C.
Proof.
  intros (HC & _ & Hle). pose proof (network_ok _ _ _ _ _ _ Hto) as Hnet.
  assert (Hreal : forall e c, e ∈ es -> residual e = false -> cost e = Some c -> 0 <= c <= C).
  { intros e c' He Hr Hc. destruct (nw_real _ _ Hnet e c' He Hr Hc) as [_ Hge]. split; [destruct (is_inbound (start e)); lia|].
    destruct (real_spec directed nodes links edges use_base_cost require_reverse e He Hr) as [(i & _ & Hed & _)|(x & y & i & Hl & _ & _ & _ & _ & Hce)].
    - unfold cost, fe_cost in Hc. rewrite Hed, Hr in Hc. cbn in Hc. injection Hc as <-. done.
    - eapply Hle; [exact Hl|]. by rewrite <- Hce. }
  revert u c. induction w as [|e w IH]; intros u c Hw; [destruct Hw as [_ ->]; cbn; lia|]. destruct Hw as (_ & c1 & (He & _ & Hc1) & Hw).
  specialize (IH _ _ Hw). assert (c1 <= C); [|cbn [length]; lia]. destruct (residual e) eqn:Hr; [|by apply (Hreal e)].
  destruct (nw_twin _ _ Hnet e He) as (e' & He' & _ & _ & _ & Hr' & Hc'). rewrite Hr in Hr'.
  change (cost e' = Z.opp <$> cost e) in Hc'. rewrite Hc1 in Hc'. specialize (Hreal e' _ He' Hr' Hc'). lia.
Qed.

Lemma compute_ok size a b k :
  a ∈ nodes -> b ∈ nodes -> a <> b -> (forall x y i, (x, y, i) ∈ arcs directed links -> 0 <= i < 8 * Z.of_nat size) ->
  exists n mask qs, MultiPath_Compute (mk_mp size (length nodes) nodes es a) edges b k use_base_cost require_reverse = Ret (n, mask) /\
    (n <= k)%nat /\ length qs = n /\ disjoint_paths a b qs /\ length mask = size /\
    (forall i, 0 <= i -> has_link mask i = true <-> on_paths a b qs i) /\
    (forall qs', disjoint_paths a b qs' -> length qs' = n -> paths_cost a b qs <= paths_cost a b qs') /\
    (forall qs' C, disjoint_paths a b qs' -> (n < k)%nat -> costs_below C -> (length qs' <= n)%nat).
Proof.
  intros Ha Hb Hab Hidx. pose proof (network_ok _ _ _ _ _ _ Hto) as Hnet. unfold MultiPath_Compute. destruct (Z.eqb_spec b a) as [->|_]; [done|].
  assert (Hlen : length (flow_nodes nodes) = (2 * length nodes)%nat) by (unfold flow_nodes; rewrite length_app, !length_fmap; lia).
  assert (HaV : Outbound a ∈ flow_nodes nodes) by by apply flow_nodes_spec.
  assert (HbV : Inbound b ∈ flow_nodes nodes) by by apply flow_nodes_spec.
  pose proof (edges_nodes _ _ _ _ _ _ Hto) as HV.
  assert (HVne : flow_nodes nodes <> []) by (intros Heq; rewrite Heq in HaV; by apply elem_of_nil in HaV).
  destruct (ford_fulkerson_ok es cost Hnet (Outbound a) (Inbound b) ltac:(done) (flow_nodes nodes) HV HVne
              (fun v => bool_decide (node_id v ∈ nodes)) (bool_decide_eq_true_2 _ Ha) (bool_decide_eq_true_2 _ Hb) k (length nodes) 0 _ _ _
              (initial_min_cost_flow es cost Hnet _ _)) as (n & flow & F & π & Hff & Hn & Hm & Hlast); [lia|].
  unfold es in Hff |- *. unfold cost in Hff. rewrite Hff. cbn [mbind outcome_bind].
  destruct (flow_paths n flow F π a b Hab Hm) as (qs & Hl & Hdp & Hcost & Hon).
  destruct (bag_mask_ok size F) as (mask & -> & Hlm & Hbits).
  { intros e He Hne. destruct (proj1 (Hon (index e))) as (q & x & y & _ & _ & Hl'); [by exists e|]. by eapply Hidx. }
  cbn [mbind outcome_bind]. exists n, mask, qs. split_and!; try done; [lia| | |].
  - intros i Hi. rewrite Hbits by done. apply Hon.
  - intros qs' Hdp' Hl'. destruct (paths_routes a b qs' Hdp') as (ws & Hlw & Hrok & <-). rewrite <- Hcost.
    apply (flow_least_cost es cost Hnet (Outbound a) (Inbound b) ltac:(done) n flow F π ws Hm Hrok). congruence.
  - intros qs' C Hdp' Hlt HC. destruct (paths_routes a b qs' Hdp') as (ws & Hlw & Hrok & _). rewrite <- Hlw.
    apply (flow_greatest es cost Hnet (Outbound a) (Inbound b) ltac:(done) (flow_nodes nodes) HV n flow F π ws Hm); try done.
    intros w c Hw. destruct (walk_shorten _ π (flow_nodes nodes) _ _ _ _ (mf_feasible _ _ _ _ _ _ _ _ Hm) (fun e c H => HV e (proj1 H)) HVne Hw)
      as (w' & c' & Hw' & Hlw' & _). specialize (Hlast ltac:(lia) _ _ Hw'). pose proof (walk_cost_bound flow C _ _ _ _ HC Hw').
    destruct HC as (HC0 & HC1 & _). assert (Z.of_nat (length w') * C <= 2 * Z.of_nat (length nodes) * C) by (apply Z.mul_le_mono_nonneg_r; lia). lia.
Qed.
End paths.

(** C19: disjoint paths.  On a configured topology with positive costs
    [MultiPath_Compute] ends without following a NULL pointer and without
    reporting a negative cycle; it answers the number of paths and a mask that
    marks exactly the links of that many paths from this node to the
    destination, over links that are up, which have no node in common but their
    ends. *)
Theorem multipath_disjoint directed nodes links edges use_base_cost require_reverse size My_ID dest_id k :
  topology_ok directed nodes links edges use_base_cost require_reverse ->
  My_ID ∈ nodes -> dest_id ∈ nodes -> My_ID <> dest_id ->
  (forall x y i, (x, y, i) ∈ arcs directed links -> 0 <= i < 8 * Z.of_nat size) ->
  exists n mask qs,
    MultiPath_Compute (mk_mp size (length nodes) nodes (Init_MultiPath directed nodes links) My_ID) edges dest_id k use_base_cost require_reverse
      = Ret (n, mask) /\
    (n <= k)%nat /\ length qs = n /\ disjoint_paths directed links edges use_base_cost require_reverse My_ID dest_id qs /\
    length mask = size /\ forall i, 0 <= i -> has_link mask i = true <-> on_paths directed links My_ID dest_id qs i.
Proof.
  intros Hto Ha Hb Hab Hidx. destruct (compute_ok _ _ _ _ _ _ Hto size My_ID dest_id k Ha Hb Hab Hidx) as (n & mask & qs & H & Hn & Hl & Hd & Hlm & Hon & _).
  by exists n, mask, qs.
Qed.

(** C20: the paths are the best ones.  No other family of as many disjoint paths
    has a smaller total cost; when fewer paths than asked for are found, and no
    path can cost as much as the 16-bit infinity, there are no more. *)
Theorem multipath_optimal directed nodes links edges use_base_cost require_reverse size My_ID dest_id k n mask :
  topology_ok directed nodes links edges use_base_cost require_reverse ->
  My_ID ∈ nodes -> dest_id ∈ nodes -> My_ID <> dest_id ->
  (forall x y i, (x, y, i) ∈ arcs directed links -> 0 <= i < 8 * Z.of_nat size) ->
  MultiPath_Compute (mk_mp size (length nodes) nodes (Init_MultiPath directed nodes links) My_ID) edges dest_id k use_base_cost require_reverse
    = Ret (n, mask) ->
  exists qs, length qs = n /\ disjoint_paths directed links edges use_base_cost require_reverse My_ID dest_id qs /\
    (forall i, 0 <= i -> has_link mask i = true <-> on_paths directed links My_ID dest_id qs i) /\
    forall qs', disjoint_paths directed links edges use_base_cost require_reverse My_ID dest_id qs' ->
      (length qs' = n -> paths_cost edges use_base_cost require_reverse My_ID dest_id qs
                         <= paths_cost edges use_base_cost require_reverse My_ID dest_id qs') /\
      (forall C, (n < k)%nat -> costs_below directed nodes links edges use_base_cost require_reverse C -> (length qs' <= n)%nat).
Proof.
  intros Hto Ha Hb Hab Hidx Hrun.
  destruct (compute_ok _ _ _ _ _ _ Hto size My_ID dest_id k Ha Hb Hab Hidx) as (n' & mask' & qs & H & Hn & Hl & Hd & Hlm & Hon & Hmin & Hmax).
  rewrite Hrun in H. injection H as <- <-. exists qs. split; [done|]. split; [done|]. split; [done|]. intros qs' Hd'. split; [by apply Hmin|].
  intros C Hlt HC. by apply (Hmax qs' C).
Qed.

Module ExM.
(** The cheapest path 1-2-3-4 shares a node with every other one: the second
    round sends flow back over 2-3. *)
Definition nodes : list Z := [1; 2; 3; 4].
Definition links : list (Z * Z * Z) := [(1, 2, 0); (1, 3, 1); (2, 3, 2); (2, 4, 3); (3, 4, 4)].
Definition edges : edge_table := fun a b => if (a + b =? 4) || (a + b =? 6) then (30, 30) else (10, 10).
Definition mp : mp_conf := mk_mp 8 4 nodes (Init_MultiPath false nodes links) 1.

Lemma topology : topology_ok false nodes links edges false false.
Proof.
  assert (Harcs : arcs false links = [(1, 2, 0); (2, 1, 0); (1, 3, 1); (3, 1, 1); (2, 3, 2); (3, 2, 2); (2, 4, 3); (4, 2, 3); (3, 4, 4); (4, 3, 4)]) by done.
  split; rewrite ?Harcs.
  - apply (bool_decide_unpack _). vm_compute. exact I.
  - intros a b i H. unfold nodes. repeat (apply elem_of_cons in H as [[= -> -> ->]|H]; [set_solver by lia|]). by apply elem_of_nil in H.
  - apply (bool_decide_unpack _). vm_compute. exact I.
  - intros a b i c H Hc. repeat (apply elem_of_cons in H as [[= -> -> ->]|H]; [vm_compute in Hc; injection Hc as <-; lia|]). by apply elem_of_nil in H.
Qed.

Lemma indexes x y i : (x, y, i) ∈ arcs false links -> 0 <= i < 8 * Z.of_nat 8.
Proof.
  intros H. vm_compute in H. repeat (apply elem_of_cons in H as [[= -> -> ->]|H]; [lia|]). by apply elem_of_nil in H.
Qed.
End ExM.

(** Two paths that avoid the link between 2 and 3: links 0, 1, 3 and 4. *)
Lemma multipath_disjoint_witness :
  exists n mask qs, MultiPath_Compute ExM.mp ExM.edges 4 2 false false = Ret (n, mask) /\ n = 2%nat /\ mask = [216; 0; 0; 0; 0; 0; 0; 0] /\
    disjoint_paths false ExM.links ExM.edges false false 1 4 qs /\ length qs = 2%nat.
Proof.
  destruct (multipath_disjoint false ExM.nodes ExM.links ExM.edges false false 8 1 4 2 ExM.topology) as (n & mask & qs & H & _ & Hl & Hd & _);
    [unfold ExM.nodes; set_solver|unfold ExM.nodes; set_solver|lia|apply ExM.indexes|].
  exists n, mask, qs. split; [exact H|]. vm_compute in H. injection H as <- <-. done.
Defined.

(** A third path does not exist. *)
Lemma multipath_optimal_witness :
  MultiPath_Compute ExM.mp ExM.edges 4 3 false false = Ret (2%nat, [216; 0; 0; 0; 0; 0; 0; 0]) /\
  forall qs', disjoint_paths false ExM.links ExM.edges false false 1 4 qs' -> (length qs' <= 2)%nat.
Proof.
  split; [vm_compute; reflexivity|]. intros qs' Hd. destruct (multipath_optimal false ExM.nodes ExM.links ExM.edges false false 8 1 4 3 2 [216; 0; 0; 0; 0; 0; 0; 0] ExM.topology)
    as (qs & _ & _ & _ & Hbest); [unfold ExM.nodes; set_solver|unfold ExM.nodes; set_solver|lia|apply ExM.indexes|vm_compute; reflexivity|].
  destruct (Hbest qs' Hd) as [_ Hmax]. apply (Hmax 30); [lia|]. split; [lia|]. split; [vm_compute; reflexivity|].
  intros a b i c H Hc. vm_compute in H. repeat (apply elem_of_cons in H as [[= -> -> ->]|H]; [vm_compute in Hc; injection Hc as <-; lia|]).
  by apply elem_of_nil in H.
Defined.

(** ** The cache *)
Lemma ford_fulkerson_count es cost ex num_nodes s t k : forall r flow F n F',
  ford_fulkerson es cost ex k num_nodes s t r flow F = Ret (n, F') -> (r <= n)%nat.
Proof.
  induction k as [|k IH]; intros r flow F n F'; cbn [ford_fulkerson]; [intros [= -> _]; lia|].
  destruct (negb (ex s)); [done|]. destruct (progress _); [done|]. destruct (negb (ex t)); [done|].
  destruct (_ =? _); [intros [= -> _]; lia|]. destruct (augment _ _ _ _ _ _) as [[flow' F1]| |]; cbn [mbind outcome_bind]; [|done|done].
  intros H%IH. lia.
Qed.

(** When fewer paths were found than asked for, any number that is not smaller
    gives the same answer. *)
Lemma ford_fulkerson_prefix es cost ex num_nodes s t k : forall r flow F n F',
  ford_fulkerson es cost ex k num_nodes s t r flow F = Ret (n, F') -> (n < r + k)%nat ->
  forall k', (n <= r + k')%nat -> ford_fulkerson es cost ex k' num_nodes s t r flow F = Ret (n, F').
Proof.
  induction k as [|k IH]; intros r flow F n F' H Hn k' Hk'; cbn [ford_fulkerson] in H; [injection H as <- <-; lia|].
  destruct (negb (ex s)) eqn:Hes; [done|]. destruct (progress _) eqn:Hp; [done|]. destruct (negb (ex t)) eqn:Het; [done|].
  destruct (_ =? _) eqn:Hd.
  - injection H as <- <-. destruct k' as [|k']; cbn [ford_fulkerson]; [done|]. by rewrite Hes, Hp, Het, Hd.
  - destruct (augment _ _ _ _ _ _) as [[flow' F1]| |] eqn:Haug; cbn [mbind outcome_bind] in H; [|done|done].
    pose proof (ford_fulkerson_count _ _ _ _ _ _ _ _ _ _ _ _ H). destruct k' as [|k']; [lia|]. cbn [ford_fulkerson].
    rewrite Hes, Hp, Het, Hd, Haug. cbn [mbind outcome_bind]. apply (IH _ _ _ _ _ H); lia.
Qed.

Lemma compute_prefix mp edges d k u r n mask :
  MultiPath_Compute mp edges d k u r = Ret (n, mask) -> (n < k)%nat ->
  forall k', (n <= k')%nat -> MultiPath_Compute mp edges d k' u r = Ret (n, mask).
Proof.
  destruct mp as [size nn nodes es My_ID]. unfold MultiPath_Compute. destruct (Z.eqb_spec d My_ID); [intros [= <- <-]; lia|].
  intros H Hn k' Hk'. destruct (ford_fulkerson _ _ _ k _ _ _ _ _ _) as [[n1 F]| |] eqn:Hff; cbn [mbind outcome_bind] in H; [|done|done].
  destruct (bag_mask size F) as [m| |] eqn:Hm; cbn [mbind outcome_bind] in H; [|done|done]. injection H as -> ->.
  rewrite (ford_fulkerson_prefix _ _ _ _ _ _ _ _ _ _ _ _ Hff ltac:(lia) k' ltac:(lia)). cbn [mbind outcome_bind]. by rewrite Hm.
Qed.

(** Every mask in the cache is the one that would be computed. *)
Definition cache_ok (mp : mp_conf) (edges : edge_table) (c : mp_cache) : Prop :=
  forall d k mask, c !! (d, k) = Some mask -> exists n, MultiPath_Compute mp edges d (Z.to_nat k) false false = Ret (n, mask).

Lemma cache_ok_insert mp edges c d k n mask :
  cache_ok mp edges c -> MultiPath_Compute mp edges d (Z.to_nat k) false false = Ret (n, mask) -> cache_ok mp edges (<[(d, k) := mask]> c).
Proof.
  intros Hc Hm d' k' mask'. destruct (decide ((d', k') = (d, k))) as [[= -> ->]|Hne].
  - rewrite lookup_insert_eq. intros [= <-]. by exists n.
  - rewrite lookup_insert_ne by done. apply Hc.
Qed.

Lemma spread_ok mp edges d k n mask c :
  (n < Z.to_nat k)%nat -> MultiPath_Compute mp edges d (Z.to_nat k) false false = Ret (n, mask) -> cache_ok mp edges c ->
  cache_ok mp edges (spread d k n mask c).
Proof.
  intros Hn Hm Hc. unfold spread. generalize (seqZ 0 (MULTIPATH_MAX_K + 1)) as l. induction l as [|i l IH]; [done|]. cbn [foldr].
  destruct (_ || _) eqn:Hi; [done|]. apply orb_false_iff in Hi as [_ Hi%Z.ltb_ge]. apply (cache_ok_insert _ _ _ _ _ n); [done|].
  apply (compute_prefix _ _ _ _ _ _ _ _ Hm Hn). lia.
Qed.

Lemma cached_mask_ok more mp edges d k c :
  cache_ok mp edges c ->
  match cached_mask more mp edges d k c with
  | Ret (mask, c') => (exists n, MultiPath_Compute mp edges d (Z.to_nat k) false false = Ret (n, mask)) /\ cache_ok mp edges c' /\ c' !! (d, k) = Some mask
  | _ => forall n mask, MultiPath_Compute mp edges d (Z.to_nat k) false false <> Ret (n, mask)
  end.
Proof.
  intros Hc. unfold cached_mask. destruct (c !! (d, k)) as [mask|] eqn:Hl; [split; [by apply Hc|done]|].
  destruct (MultiPath_Compute _ _ _ _ _ _) as [[n mask]| |] eqn:Hm; cbn [mbind outcome_bind]; [|done|done].
  split; [by exists n|]. pose proof (cache_ok_insert _ _ _ _ _ _ _ Hc Hm) as Hc'. destruct (_ && _) eqn:Hsp; [|by rewrite lookup_insert_eq].
  apply andb_true_iff in Hsp as [_ Hlt%Z.ltb_lt]. split; [apply spread_ok; [lia|done|done]|].
  unfold spread. generalize (seqZ 0 (MULTIPATH_MAX_K + 1)) as l. induction l as [|i l IH]; cbn [foldr]; [by rewrite lookup_insert_eq|].
  destruct (Z.eqb_spec i k) as [->|Hne]; [done|]. cbn [orb]. destruct (i <? _); [done|]. rewrite lookup_insert_ne; [done|congruence].
Qed.

(** The mask a message gets: all links for flooding, the disjoint paths, or the
    dissemination graph the destination needs at present. *)
Definition stamped (mp : mp_conf) (edges : edge_table) (g : DG_Dst) (d k : Z) (mask : list Z) : Prop :=
  let paths k mask := exists n, MultiPath_Compute mp edges d (Z.to_nat k) false false = Ret (n, mask) in
  if decide (k = 0) then mask = repeat 255 (mp_size mp)
  else if decide (k = DG_K_FLAG) then
    if decide (current_graph_type g = DG_SRC_GRAPH \/ current_graph_type g = DG_DST_GRAPH) then bitmasks g (current_graph_type g) = Some mask
    else if decide (current_graph_type g = DG_SRC_DST_GRAPH) then
      exists m m', paths 2 m /\ bitmasks g DG_SRC_DST_GRAPH = Some m' /\ mask = or_words (mp_size mp) m m'
    else paths 2 mask
  else paths (Z.min k MULTIPATH_MAX_K) mask.

(** The mask a message gets ([stamped]), and the cache after it. *)
Lemma stamp_ok MAX_NODES dg mp edges d k c :
  cache_ok mp edges c -> 0 <= k ->
  (forall k', exists n mask, MultiPath_Compute mp edges d k' false false = Ret (n, mask)) ->
  (forall g, In g [DG_SRC_GRAPH; DG_DST_GRAPH; DG_SRC_DST_GRAPH] -> is_Some (bitmasks (dg d) g)) ->
  cache_ok mp edges (MultiPath_Clear_Cache c) /\
  (d = 0 /\ 0 < k \/ MAX_NODES < d -> MultiPath_Stamp_Bitmask MAX_NODES dg mp edges d k c = Ret (None, c)) /\
  (~ (d = 0 /\ 0 < k \/ MAX_NODES < d) ->
     exists mask c', MultiPath_Stamp_Bitmask MAX_NODES dg mp edges d k c = Ret (Some mask, c') /\
       stamped mp edges (dg d) d k mask /\ cache_ok mp edges c').
Proof.
  intros Hc Hk Hcomp Hdg. split; [by intros ? ? ? ?|]. unfold MultiPath_Stamp_Bitmask. split.
  { intros Hbad. replace (_ || _) with true; [done|]. symmetry. apply orb_true_iff.
    destruct Hbad as [[-> Hpos]|Hgt]; [left; apply andb_true_iff; split; [done|by apply Z.ltb_lt]|right; by apply Z.ltb_lt]. }
  intros Hgood. replace (_ || _) with false.
  2: { symmetry. apply orb_false_iff. split; [|apply Z.ltb_ge; lia]. apply andb_false_iff.
       destruct (Z.eqb_spec d 0); [right; apply Z.ltb_ge; lia|by left]. }
  assert (Hpaths : forall more k, exists mask c' n, cached_mask more mp edges d k c = Ret (mask, c') /\
    MultiPath_Compute mp edges d (Z.to_nat k) false false = Ret (n, mask) /\ cache_ok mp edges c').
  { intros more k'. pose proof (cached_mask_ok more mp edges d k' c Hc) as Hm. destruct (Hcomp (Z.to_nat k')) as (n & mask & Hr).
    destruct (cached_mask more mp edges d k' c) as [[m c']| |]; [|by eapply Hm in Hr|by eapply Hm in Hr].
    destruct Hm as ([n' Hn'] & Hc' & _). by exists m, c', n'. }
  unfold stamped. destruct (Z.eqb_spec k DG_K_FLAG) as [->|Hflag].
  - change (_ && negb true) with false. cbn iota. change (DG_K_FLAG =? 0) with false. cbn iota. rewrite Z.eqb_refl.
    destruct (decide (DG_K_FLAG = 0)) as [?|_]; [done|]. destruct (decide (DG_K_FLAG = DG_K_FLAG)) as [_|?]; [|done].
    set (g := current_graph_type (dg d)) in *. destruct (decide (g = DG_SRC_GRAPH \/ g = DG_DST_GRAPH)) as [Hg|Hg].
    + replace (_ || _) with true by (symmetry; apply orb_true_iff; rewrite !Z.eqb_eq; done).
      destruct (Hdg g) as [m Hm]; [cbn; intuition|]. rewrite Hm. cbn [or_else mbind outcome_bind]. by exists m, c.
    + replace ((g =? DG_SRC_GRAPH) || (g =? DG_DST_GRAPH)) with false
        by (symmetry; apply orb_false_iff; rewrite !Z.eqb_neq; tauto).
      destruct (decide (g = DG_SRC_DST_GRAPH)) as [Hsd|Hsd].
      * rewrite (proj2 (Z.eqb_eq _ _) Hsd), orb_true_r. destruct (Hpaths false 2) as (m & c' & n & -> & Hn & Hc'). cbn [mbind outcome_bind].
        destruct (Hdg DG_SRC_DST_GRAPH) as [m' Hm']; [cbn; intuition|]. rewrite Hm'. cbn [or_else mbind outcome_bind].
        eexists _, c'. split; [done|]. split; [|done]. exists m, m'. split; [by exists n|done].
      * rewrite (proj2 (Z.eqb_neq _ _) Hsd), orb_false_r. destruct (g =? DG_K2_GRAPH).
        -- destruct (Hpaths false 2) as (m & c' & n & -> & Hn & Hc'). cbn [mbind outcome_bind]. exists m, c'. split; [done|]. split; [by exists n|done].
        -- destruct (Hpaths true 2) as (m & c' & n & -> & Hn & Hc'). cbn [mbind outcome_bind]. exists m, c'. split; [done|]. split; [by exists n|done].
  - cbn [negb]. rewrite andb_true_r. destruct (decide (k = 0)) as [->|Hk0]; [by exists (repeat 255 (mp_size mp)), c|].
    destruct (decide (k = DG_K_FLAG)) as [?|_]; [done|]. replace (if MULTIPATH_MAX_K <? k then MULTIPATH_MAX_K else k) with (Z.min k MULTIPATH_MAX_K)
      by (destruct (Z.ltb_spec MULTIPATH_MAX_K k); lia).
    unfold DG_K_FLAG, MULTIPATH_MAX_K in *. rewrite (proj2 (Z.eqb_neq (Z.min k 5) 0)), (proj2 (Z.eqb_neq (Z.min k 5) (5 + 1))) by lia.
    destruct (Hpaths true (Z.min k 5)) as (m & c' & n & -> & Hn & Hc'). cbn [mbind outcome_bind]. exists m, c'. split; [done|]. split; [by exists n|done].
Qed.

(** Stamping.  A message to a configured destination gets the mask of its
    mode: the cache, which [MultiPath_Clear_Cache] empties when costs change,
    only ever holds what would be computed, also in the entries filled in for
    other numbers of paths.  A destination that is not valid is rejected. *)
Theorem multipath_stamp_correct MAX_NODES dg mp edges d k c :
  cache_ok mp edges c -> 0 <= k ->
  (forall k', exists n mask, MultiPath_Compute mp edges d k' false false = Ret (n, mask)) ->
  (forall g, In g [DG_SRC_GRAPH; DG_DST_GRAPH; DG_SRC_DST_GRAPH] -> is_Some (bitmasks (dg d) g)) ->
  cache_ok mp edges (MultiPath_Clear_Cache c) /\
  (d = 0 /\ 0 < k \/ MAX_NODES < d -> MultiPath_Stamp_Bitmask MAX_NODES dg mp edges d k c = Ret (None, c)) /\
  (~ (d = 0 /\ 0 < k \/ MAX_NODES < d) ->
     exists mask c', MultiPath_Stamp_Bitmask MAX_NODES dg mp edges d k c = Ret (Some mask, c') /\
       stamped mp edges (dg d) d k mask /\ cache_ok mp edges c').
Proof. apply stamp_ok. Qed.

(** Asking for five paths of the example caches the two that exist for 2, 3 and
    4, too. *)
Lemma multipath_stamp_correct_witness :
  exists mask c', MultiPath_Stamp_Bitmask 50 (fun _ => mk_dg (fun _ => Some [0]) 0) ExM.mp ExM.edges 4 5 ∅ = Ret (Some mask, c') /\
    (exists n, MultiPath_Compute ExM.mp ExM.edges 4 5 false false = Ret (n, mask)) /\ c' !! (4, 3) = Some mask.
Proof.
  destruct (multipath_stamp_correct 50 (fun _ => mk_dg (fun _ => Some [0]) 0) ExM.mp ExM.edges 4 5 ∅) as (_ & _ & H).
  - intros d k mask H. by rewrite lookup_empty in H.
  - lia.
  - intros k. destruct (compute_ok _ _ _ _ _ _ ExM.topology 8 1 4 k) as (n & mask & _ & H & _);
      [unfold ExM.nodes; set_solver|unfold ExM.nodes; set_solver|lia|apply ExM.indexes|]. by exists n, mask.
  - by intros.
  - destruct H as (mask & c' & H & Hst & _); [lia|]. exists mask, c'. split; [exact H|]. split; [exact Hst|].
    vm_compute in H. injection H as <- <-. vm_compute. reflexivity.
Defined.

(** ** Operations on masks *)
Definition is_mask (size : nat) (m : list Z) : Prop := length m = size /\ Forall (fun b => 0 <= b < 256) m.

Lemma words_all size m : (size mod 8 = 0)%nat -> length m = size -> words size m = m.
Proof.
  intros H8 Hl. unfold words. apply take_ge. rewrite Hl. pose proof (Nat.div_mod size 8). lia.
Qed.

Lemma byte_high x j : 0 <= x < 256 -> 8 <= j -> Z.testbit x j = false.
Proof.
  intros Hx Hj. destruct (Z.eq_dec x 0) as [->|Hne]; [apply Z.bits_0|]. apply Z.bits_above_log2; [lia|].
  assert (Z.log2 x < 8) by (apply Z.log2_lt_pow2; lia). lia.
Qed.

(** The link [8 n + j]. *)
Lemma has_link_at m (n : nat) j : 0 <= j < 8 -> has_link m (8 * Z.of_nat n + j) = Z.testbit (default 0 (m !! n)) (7 - j).
Proof.
  intros Hj. unfold has_link. rewrite (Z.mul_comm 8), Z.div_add_l, Z.div_small, Z.add_0_r by lia. rewrite Nat2Z.id.
  rewrite Z.add_comm, Z.mod_add, Z.mod_small by lia. done.
Qed.

Lemma mask_ext size m m' : is_mask size m -> is_mask size m' -> (forall i, 0 <= i < 8 * Z.of_nat size -> has_link m i = has_link m' i) -> m = m'.
Proof.
  intros [Hl Hb] [Hl' Hb'] Hext. apply list_eq_same_length with (n := size); [done|done|]. intros n x y Hn Hx Hy.
  pose proof (Forall_lookup_1 _ _ _ _ Hb Hx). pose proof (Forall_lookup_1 _ _ _ _ Hb' Hy). apply Z.bits_inj'. intros j Hj.
  destruct (Z.ltb_spec j 8) as [Hlt|Hge]; [|by rewrite !byte_high].
  specialize (Hext (8 * Z.of_nat n + (7 - j)) ltac:(lia)). rewrite !has_link_at in Hext by lia. rewrite Hx, Hy in Hext. cbn in Hext.
  by replace (7 - (7 - j)) with j in Hext by lia.
Qed.

Section zips.
Context (f : Z -> Z -> Z) (g : bool -> bool -> bool) (Hf : forall x y j, Z.testbit (f x y) j = g (Z.testbit x j) (Z.testbit y j)).
Context (Hg : g false false = false) (Hpos : forall x y, 0 <= x -> 0 <= y -> 0 <= f x y).

Lemma f_byte x y : 0 <= x < 256 -> 0 <= y < 256 -> 0 <= f x y < 256.
Proof.
  intros Hx Hy. pose proof (Hpos x y ltac:(lia) ltac:(lia)). split; [done|]. destruct (Z.ltb_spec (f x y) 256) as [|Hge]; [done|exfalso].
  assert (Hlog : 8 <= Z.log2 (f x y)) by (apply Z.log2_le_pow2; lia). pose proof (Z.bit_log2 (f x y) ltac:(lia)) as Hbit.
  rewrite Hf, !byte_high, Hg in Hbit by lia. done.
Qed.

Lemma zip_mask size m m' : is_mask size m -> is_mask size m' -> is_mask size (zip_with f m m').
Proof.
  intros [Hl Hb] [Hl' Hb']. split; [rewrite length_zip_with; lia|]. rewrite Forall_lookup in *. intros i x Hx.
  apply lookup_zip_with_Some in Hx as (x1 & x2 & -> & H1 & H2). apply f_byte; eauto.
Qed.

Lemma zip_has size m m' i :
  is_mask size m -> is_mask size m' -> 0 <= i < 8 * Z.of_nat size -> has_link (zip_with f m m') i = g (has_link m i) (has_link m' i).
Proof.
  intros [Hl _] [Hl' _] Hi. unfold has_link. pose proof (Z.mod_pos_bound i 8). assert (i / 8 < Z.of_nat size) by (apply Z.div_lt_upper_bound; lia).
  destruct (lookup_lt_is_Some_2 m (Z.to_nat (i / 8)) ltac:(lia)) as [x Hx]. destruct (lookup_lt_is_Some_2 m' (Z.to_nat (i / 8)) ltac:(lia)) as [y Hy].
  rewrite lookup_zip_with, Hx, Hy. cbn. apply Hf.
Qed.
End zips.

Lemma all_zero size m : is_mask size m -> forallb (Z.eqb 0) m = true <-> forall i, 0 <= i < 8 * Z.of_nat size -> has_link m i = false.
Proof.
  intros Hm. split.
  - intros H i _. unfold has_link. destruct (m !! Z.to_nat (i / 8)) as [x|] eqn:Hx; [|apply Z.bits_0]. rewrite forallb_forall in H.
    apply list_elem_of_lookup_2, list_elem_of_In, H, Z.eqb_eq in Hx. subst x. apply Z.bits_0.
  - intros H. assert (m = empty_mask size) as ->.
    { apply (mask_ext size); [done| |intros i Hi; by rewrite H, empty_mask_has]. split; [apply repeat_length|]. apply Forall_forall.
      intros x Hx%list_elem_of_In%repeat_spec. subst x. lia. }
    clear. unfold empty_mask. by induction size.
Qed.

Definition and_mask := zip_mask Z.land andb Z.land_spec eq_refl (fun x y Hx _ => proj2 (Z.land_nonneg x y) (or_introl Hx)).
Definition xor_mask := zip_mask Z.lxor xorb Z.lxor_spec eq_refl (fun x y Hx Hy => proj2 (Z.lxor_nonneg x y) (conj (fun _ => Hy) (fun _ => Hx))).
Definition or_mask := zip_mask Z.lor orb Z.lor_spec eq_refl (fun x y Hx Hy => proj2 (Z.lor_nonneg x y) (conj Hx Hy)).
Definition and_has := zip_has Z.land andb Z.land_spec.
Definition xor_has := zip_has Z.lxor xorb Z.lxor_spec.
Definition or_has := zip_has Z.lor orb Z.lor_spec.

(** The link [i] is in the set. *)
Definition in_mask (size : nat) (m : list Z) (i : Z) : Prop := 0 <= i < 8 * Z.of_nat size /\ has_link m i = true.

Section masks.
Context (size : nat) (H8 : (size mod 8 = 0)%nat).

Lemma equal_masks old new :
  is_mask size old -> is_mask size new ->
  MultiPath_Is_Equal size old new = true <-> forall i, in_mask size old i <-> in_mask size new i.
Proof.
  intros Ho Hn. unfold MultiPath_Is_Equal. rewrite !words_all by (done || apply Ho || apply Hn). rewrite bool_decide_eq_true.
  split; [by intros ->|]. intros H. apply (mask_ext size); [done|done|]. intros i Hi. specialize (H i). unfold in_mask in H.
  destruct (has_link old i), (has_link new i); intuition congruence.
Qed.

Lemma superset_masks old new :
  is_mask size old -> is_mask size new ->
  MultiPath_Is_Superset size old new = true <->
  (forall i, in_mask size old i -> in_mask size new i) /\ exists i, in_mask size new i /\ ~ in_mask size old i.
Proof.
  intros Ho Hn. unfold MultiPath_Is_Superset. rewrite !words_all by (done || apply Ho || apply Hn).
  pose proof (xor_mask size old new Ho Hn) as Hx. pose proof (and_mask size old _ Ho Hx) as Ha.
  rewrite andb_true_iff, negb_true_iff, <- not_true_iff_false, !(all_zero size) by done.
  assert (Hxor : forall i, 0 <= i < 8 * Z.of_nat size -> has_link (zip_with Z.lxor old new) i = xorb (has_link old i) (has_link new i))
    by (intros; by apply (xor_has size)).
  assert (Hland : forall i, 0 <= i < 8 * Z.of_nat size ->
    has_link (zip_with Z.land old (zip_with Z.lxor old new)) i = has_link old i && negb (has_link new i)).
  { intros i Hi. rewrite (and_has size), Hxor by done. by destruct (has_link old i), (has_link new i). }
  split.
  - intros [H1 H2]. assert (Hsub : forall i, in_mask size old i -> in_mask size new i).
    { intros i [Hi Ho']. split; [done|]. specialize (H2 i Hi). rewrite Hland, Ho' in H2 by done. by destruct (has_link new i). }
    split; [done|]. destruct (decide (Exists (fun i => has_link new i = true /\ has_link old i = false) (seqZ 0 (8 * Z.of_nat size)))) as [Hex|Hex].
    + apply Exists_exists in Hex as (i & Hi%elem_of_seqZ & Hni & Hoi). exists i. split; [split; [lia|done]|]. intros [_ ?]. congruence.
    + exfalso. apply H1. intros i Hi. rewrite Hxor by done. destruct (has_link old i) eqn:Hoi, (has_link new i) eqn:Hni; try done.
      * destruct (Hsub i) as [_ ?]; [done|congruence].
      * exfalso. apply Hex, Exists_exists. exists i. split; [apply elem_of_seqZ; lia|done].
  - intros [Hsub (i & [Hi Hni] & Hoi)]. split.
    + intros H. specialize (H i Hi). rewrite Hxor, Hni in H by done. destruct (has_link old i) eqn:Ho'; [|done]. by apply Hoi.
    + intros j Hj. rewrite Hland by done. destruct (has_link old j) eqn:Hoj; [|done]. destruct (Hsub j) as [_ ->]; done.
Qed.

Lemma union_masks old new :
  is_mask size old -> is_mask size new ->
  is_mask size (MultiPath_Create_Superset size old new) /\
  forall i, in_mask size (MultiPath_Create_Superset size old new) i <-> in_mask size old i \/ in_mask size new i.
Proof.
  intros Ho Hn. unfold MultiPath_Create_Superset, or_words. pose proof Ho as [Hlo _]. pose proof Hn as [Hln _].
  rewrite !words_all, drop_ge, app_nil_r by (done || (pose proof (Nat.div_mod size 8); lia)). split; [by apply or_mask|]. intros i. unfold in_mask.
  destruct (decide (0 <= i < 8 * Z.of_nat size)) as [Hi|Hi]; [|tauto]. rewrite (or_has size) by done. rewrite orb_true_iff. tauto.
Qed.

Lemma neighbor_mask_ok i :
  0 <= i < 8 * Z.of_nat size ->
  exists ngbr, neighbor_mask size i = Ret ngbr /\ is_mask size ngbr /\ forall j, 0 <= j -> has_link ngbr j = (j =? i).
Proof.
  intros Hi. unfold neighbor_mask. assert (i / 8 < Z.of_nat size) by (apply Z.div_lt_upper_bound; lia). rewrite decide_True by lia.
  eexists. split; [done|]. split.
  - split; [rewrite length_insert; apply repeat_length|]. apply Forall_insert.
    + apply Forall_forall. intros x Hx'%list_elem_of_In%repeat_spec. subst x. lia.
    + pose proof (Z.mod_pos_bound i 8 ltac:(lia)) as Hm. unfold mask_bit. rewrite Z.shiftr_div_pow2 by lia.
      assert (i mod 8 = 0 \/ i mod 8 = 1 \/ i mod 8 = 2 \/ i mod 8 = 3 \/ i mod 8 = 4 \/ i mod 8 = 5 \/ i mod 8 = 6 \/ i mod 8 = 7)
        as [-> | [-> | [-> | [-> | [-> | [-> | [-> | ->]]]]]]] by lia; split; vm_compute; (discriminate || reflexivity).
  - intros j Hj. destruct (set_index_ok size (empty_mask size) i (repeat_length _ _) Hi) as (m & Hm & _ & Hb).
    unfold set_index in Hm. assert (He : empty_mask size !! Z.to_nat (i / 8) = Some 0).
    { destruct (lookup_lt_is_Some_2 (empty_mask size) (Z.to_nat (i / 8))) as [x Hx]; [unfold empty_mask; rewrite repeat_length; lia|].
      rewrite Hx. apply list_elem_of_lookup_2, list_elem_of_In, repeat_spec in Hx as ->. done. }
    rewrite He in Hm. cbn in Hm. injection Hm as <-. specialize (Hb j Hj). rewrite empty_mask_has in Hb. exact Hb.
Qed.

Lemma neighbor_on_path old ngbr i :
  is_mask size old -> is_mask size ngbr -> 0 <= i < 8 * Z.of_nat size -> (forall j, 0 <= j -> has_link ngbr j = (j =? i)) ->
  MultiPath_Neighbor_On_Path size old ngbr = has_link old i.
Proof.
  intros Ho Hng Hi Hhas. unfold MultiPath_Neighbor_On_Path. rewrite !words_all by (done || apply Ho || apply Hng).
  apply eq_true_iff_eq. rewrite negb_true_iff, <- not_true_iff_false, (all_zero size) by (by apply and_mask). split.
  - intros H. destruct (has_link old i) eqn:Hoi; [done|]. exfalso. apply H. intros j Hj. rewrite (and_has size), Hhas by (done || lia).
    destruct (Z.eqb_spec j i) as [->|]; [by rewrite Hoi|by rewrite andb_false_r].
  - intros Hoi H. specialize (H i Hi). rewrite (and_has size), Hhas, Hoi, Z.eqb_refl in H by (done || lia). done.
Qed.
End masks.

(** Masks are sets of links.  For masks of whole 64-bit words,
    [MultiPath_Is_Equal] is equality of the sets, [MultiPath_Is_Superset] tells
    whether the new set is a proper superset of the old one,
    [MultiPath_Create_Superset] is the union, and a neighbour is on a path when
    its link is in the set. *)
Theorem multipath_masks_are_sets size old new :
  (size mod 8 = 0)%nat -> is_mask size old -> is_mask size new ->
  (MultiPath_Is_Equal size old new = true <-> forall i, in_mask size old i <-> in_mask size new i) /\
  (MultiPath_Is_Superset size old new = true <->
     (forall i, in_mask size old i -> in_mask size new i) /\ exists i, in_mask size new i /\ ~ in_mask size old i) /\
  is_mask size (MultiPath_Create_Superset size old new) /\
  (forall i, in_mask size (MultiPath_Create_Superset size old new) i <-> in_mask size old i \/ in_mask size new i) /\
  (forall i, 0 <= i < 8 * Z.of_nat size ->
     exists ngbr, neighbor_mask size i = Ret ngbr /\ MultiPath_Neighbor_On_Path size old ngbr = has_link old i).
Proof.
  intros H8 Ho Hn. destruct (union_masks size H8 old new Ho Hn) as [Hu1 Hu2].
  split; [by apply equal_masks|]. split; [by apply superset_masks|]. split; [done|]. split; [done|].
  intros i Hi. destruct (neighbor_mask_ok size H8 i Hi) as (ngbr & Hng & Hm & Hhas). exists ngbr. split; [done|]. by apply neighbor_on_path.
Qed.

Lemma multipath_masks_are_sets_witness :
  MultiPath_Is_Superset 8 [128; 0; 0; 0; 0; 0; 0; 0] [192; 0; 0; 0; 0; 0; 0; 0] = true /\
  forall i, in_mask 8 [128; 0; 0; 0; 0; 0; 0; 0] i -> in_mask 8 [192; 0; 0; 0; 0; 0; 0; 0] i.
Proof.
  split; [vm_compute; reflexivity|].
  destruct (multipath_masks_are_sets 8 [128; 0; 0; 0; 0; 0; 0; 0] [192; 0; 0; 0; 0; 0; 0; 0]) as (_ & Hs & _);
    [reflexivity|split; [reflexivity|repeat constructor; lia]|split; [reflexivity|repeat constructor; lia]|].
  apply Hs. vm_compute. reflexivity.
Defined.
