(* ===== verification/RealTime.v ===== *)
(** * RealTime: the real-time link protocol (daemon/realtime_udp.c)

    One end of a real-time link.  The sender keeps the packets of the last 100 ms
    in a history of [MAX_HISTORY] cells and resends those the other end misses,
    spending tokens it gets for new packets; the receiver remembers which
    sequence numbers it got, hands every packet on at once and asks once for
    those it skipped.  The fields are those of [Realtime_Data] (link.h); the
    arrays of cells are maps from the index, with the initial cell where nothing
    was written; the packets given to [Link_Send] are collected in [wire], where
    [false] for its result means that nothing was sent.  A packet body is the
    message with its dissemination header; the sequence number, which the code
    writes behind the message before every transmission, is a field of the
    packet.  Both ends have the same byte order.  Sequence numbers are 64-bit. *)
From stdpp Require Import base list gmap numbers option.
From Stdlib Require Import ZArith Lia.
From S2P Require Import Prelude Events NetTypes.
#[local] Open Scope Z_scope.

Definition MAX_HISTORY : Z := 1000.
Definition HISTORY_TIME : Z := 100000.
Definition MAX_BUCKET : Z := 500.
Definition RT_RETRANSM_TOK : Z := 2.
Definition sizeof_rt_seq : Z := 8.
Definition BUFF_EMPTY : Z := 2.
Definition BUFF_DROP : Z := 5.

Record History_Cell := mk_hcell { h_buff : option (list Z); h_time : sp_time }.
Record History_Recv_Cell := mk_hrcell { r_recvd : bool; r_time : sp_time }.
Definition empty_hcell : History_Cell := mk_hcell None (mk_time 0 0).
Definition empty_hrcell : History_Recv_Cell := mk_hrcell false (mk_time 0 0).

(** A data packet with its sequence number, or the numbers asked for. *)
Inductive rt_packet := RT_Data (seq : Z) (data : list Z) | RT_Nack (seqs : list Z).

Record Realtime_Data := mk_rt
  { head : Z; tail : Z; window : gmap Z History_Cell;
    recv_head : Z; recv_tail : Z; recv_window : gmap Z History_Recv_Cell;
    nack_buff : list Z; retransm_buff : option (list Z); bucket : Z;
    nack_queued : bool; retransm_queued : bool; wire : list rt_packet }.

(** [Create_Link] for a real-time link. *)
Definition new_rt : Realtime_Data := mk_rt 0 0 ∅ 0 0 ∅ [] None 0 false false [].

Definition hcell (l : Realtime_Data) (i : Z) : History_Cell := default empty_hcell (window l !! (i mod MAX_HISTORY)).
Definition rcell (l : Realtime_Data) (i : Z) : History_Recv_Cell := default empty_hrcell (recv_window l !! (i mod MAX_HISTORY)).

Definition set_hist (h t : Z) (w : gmap Z History_Cell) (l : Realtime_Data) : Realtime_Data :=
  mk_rt h t w (recv_head l) (recv_tail l) (recv_window l) (nack_buff l) (retransm_buff l) (bucket l) (nack_queued l) (retransm_queued l) (wire l).
Definition set_recv (h t : Z) (w : gmap Z History_Recv_Cell) (l : Realtime_Data) : Realtime_Data :=
  mk_rt (head l) (tail l) (window l) h t w (nack_buff l) (retransm_buff l) (bucket l) (nack_queued l) (retransm_queued l) (wire l).
Definition set_nacks (n : list Z) (q : bool) (l : Realtime_Data) : Realtime_Data :=
  mk_rt (head l) (tail l) (window l) (recv_head l) (recv_tail l) (recv_window l) n (retransm_buff l) (bucket l) q (retransm_queued l) (wire l).
Definition set_retransm (r : option (list Z)) (q : bool) (l : Realtime_Data) : Realtime_Data :=
  mk_rt (head l) (tail l) (window l) (recv_head l) (recv_tail l) (recv_window l) (nack_buff l) r (bucket l) (nack_queued l) q (wire l).
Definition set_bucket (b : Z) (l : Realtime_Data) : Realtime_Data :=
  mk_rt (head l) (tail l) (window l) (recv_head l) (recv_tail l) (recv_window l) (nack_buff l) (retransm_buff l) b (nack_queued l) (retransm_queued l) (wire l).
Definition emit (sent : bool) (p : rt_packet) (l : Realtime_Data) : Realtime_Data :=
  mk_rt (head l) (tail l) (window l) (recv_head l) (recv_tail l) (recv_window l) (nack_buff l) (retransm_buff l) (bucket l) (nack_queued l)
    (retransm_queued l) (if sent then wire l ++ [p] else wire l).

(** The age of a cell in microseconds, a 32-bit number. *)
Definition cell_age (now t : sp_time) : Z := s32 ((usec now - usec t) + 1000000 * (sec now - sec t)).

(** ** The history *)

(** The oldest packet is dropped; [dec_ref_cnt] follows its pointer. *)
Definition drop_tail (l : Realtime_Data) : outcome Realtime_Data :=
  _ ← or_else (h_buff (hcell l (tail l))) Fault;
  Ret (set_hist (head l) (u64 (tail l + 1)) (<[tail l mod MAX_HISTORY := mk_hcell None (h_time (hcell l (tail l)))]> (window l)) l).

Fixpoint clean_loop (n : nat) (now : sp_time) (l : Realtime_Data) : outcome Realtime_Data :=
  match n with
  | O => Ret l
  | S n =>
      if (tail l <? head l) && (HISTORY_TIME <? cell_age now (h_time (hcell l (tail l))))
      then l ← drop_tail l; clean_loop n now l
      else Ret l
  end.

Definition Clean_RT_history (now : sp_time) (l : Realtime_Data) : outcome Realtime_Data :=
  clean_loop (Z.to_nat (head l - tail l)) now l.

(** ** Sending *)

(** The node a packet goes to: this one, one without a real-time link, or the
    other end of this link. *)
Inductive hop := This_Node | No_Link | Neighbor.

(** [sent]: whether [Link_Send] succeeds.  A packet to this node is handed to the
    local sessions ([true]). *)
Definition Forward_RT_UDP_Data (now : sp_time) (sent : bool) (next_hop : hop) (data : list Z) (l : Realtime_Data)
    : outcome (Z * bool * Realtime_Data) :=
  match next_hop with
  | This_Node => Ret (BUFF_EMPTY, true, l)
  | No_Link => Ret (BUFF_DROP, false, l)
  | Neighbor =>
      l ← Clean_RT_history now l;
      l ← (if MAX_HISTORY <=? u64 (head l - tail l)
           then if u64 (head l - tail l) =? MAX_HISTORY then drop_tail l else Fault
           else Ret l);
      let seq := head l in
      let l := set_hist (u64 (seq + 1)) (tail l) (<[seq mod MAX_HISTORY := mk_hcell (Some data) now]> (window l)) l in
      let l := set_bucket (if bucket l <? MAX_BUCKET then bucket l + 1 else bucket l) l in
      Ret (if sent then BUFF_EMPTY else BUFF_DROP, false, emit sent (RT_Data seq data) l)
  end.

Definition Send_RT_Nack (sent : bool) (l : Realtime_Data) : Realtime_Data :=
  let nacks := nack_buff l in
  emit sent (RT_Nack nacks) (set_nacks [] false l).

(** The packets asked for, in order, until the tokens run out or one cannot be
    sent; [sent]: the result of [Link_Send] for each of them. *)
Fixpoint resend_loop (sent : Z -> bool) (seqs : list Z) (l : Realtime_Data) : outcome Realtime_Data :=
  match seqs with
  | [] => Ret l
  | seq :: seqs =>
      if head l <=? seq then resend_loop sent seqs l
      else if tail l <=? seq then
        if bucket l <? RT_RETRANSM_TOK then Ret l
        else
          let l := set_bucket (bucket l - RT_RETRANSM_TOK) l in
          data ← or_else (h_buff (hcell l seq)) Fault;
          let l := emit (sent seq) (RT_Data seq data) l in
          if sent seq then resend_loop sent seqs l else Ret l
      else resend_loop sent seqs l
  end.

Definition Send_RT_Retransm (now : sp_time) (sent : Z -> bool) (l : Realtime_Data) : outcome Realtime_Data :=
  match retransm_buff l with
  | None => Ret l
  | Some seqs =>
      l ← Clean_RT_history now l;
      l ← resend_loop sent seqs l;
      Ret (set_retransm None false l)
  end.

Definition Process_RT_nack_packet (seqs : list Z) (l : Realtime_Data) : Realtime_Data := set_retransm (Some seqs) true l.

(** ** Receiving *)

(** The first number from [i] on that was received, or [recv_head]. *)
Fixpoint first_received (n : nat) (i : Z) (l : Realtime_Data) : Z :=
  match n with
  | O => i
  | S n => if negb (r_recvd (rcell l i)) && (i <? recv_head l) then first_received n (i + 1) l else i
  end.

Definition clear_cell (i : Z) (w : gmap Z History_Recv_Cell) : gmap Z History_Recv_Cell :=
  <[i mod MAX_HISTORY := mk_hrcell false (r_time (default empty_hrcell (w !! (i mod MAX_HISTORY))))]> w.

(** The tail moves past packets received long ago. *)
Fixpoint advance_old (n : nat) (now : sp_time) (l : Realtime_Data) : Realtime_Data :=
  match n with
  | O => l
  | S n =>
      if recv_tail l <? recv_head l then
        let i := first_received (Z.to_nat (recv_head l - recv_tail l)) (recv_tail l) l in
        if i =? recv_head l then l
        else if cell_age now (r_time (rcell l i)) <=? HISTORY_TIME then l
        else advance_old n now (set_recv (recv_head l) (i + 1) (clear_cell i (recv_window l)) l)
      else l
  end.

(** Room for [seq] in the window. *)
Fixpoint make_room (n : nat) (seq : Z) (l : Realtime_Data) : Realtime_Data :=
  match n with
  | O => l
  | S n =>
      if MAX_HISTORY <=? seq - recv_tail l
      then make_room n seq (set_recv (recv_head l) (recv_tail l + 1) (clear_cell (recv_tail l) (recv_window l)) l)
      else l
  end.

(** The skipped numbers from [i] on are asked for while the packet has room. *)
Fixpoint add_lost (n : nat) (i : Z) (l : Realtime_Data) : Realtime_Data :=
  match n with
  | O => l
  | S n =>
      let l := set_recv (recv_head l) (recv_tail l) (clear_cell i (recv_window l)) l in
      let num := Z.of_nat (length (nack_buff l)) in
      let l := if num * sizeof_rt_seq + 2 * sizeof_rt_seq <? sizeof_packet_body - sizeof_udp_header
               then set_nacks (nack_buff l ++ [i]) (nack_queued l) l else l in
      add_lost n (i + 1) l
  end.

(** The result is the packet handed to [Deliver_and_Forward_Data], if any. *)
Definition Process_RT_UDP_data_packet (now : sp_time) (seq_no : Z) (data : list Z) (l : Realtime_Data)
    : option (list Z) * Realtime_Data :=
  if Z.of_nat (length data) + sizeof_rt_seq <? sizeof_udp_header then (None, l)
  else if seq_no <? recv_tail l then (None, l)
  else if (seq_no <? recv_head l) && r_recvd (rcell l seq_no) then (None, l)
  else
    let l := advance_old (Z.to_nat (recv_head l - recv_tail l)) now l in
    let l := if recv_head l <=? seq_no then
               let l := make_room (Z.to_nat (seq_no - recv_tail l)) seq_no l in
               let l := add_lost (Z.to_nat (seq_no - recv_head l)) (recv_head l) l in
               let l := if bool_decide (nack_buff l = []) then l else set_nacks (nack_buff l) true l in
               set_recv (u64 (seq_no + 1)) (recv_tail l) (recv_window l) l
             else l in
    (Some data, set_recv (recv_head l) (recv_tail l) (<[seq_no mod MAX_HISTORY := mk_hrcell true now]> (recv_window l)) l).
