(* ===== verification/RealTimeProof.v ===== *)
(** * RealTimeProof: the two windows of a real-time link

    The history of the sender holds what was sent under each of its numbers; the
    window of the receiver tells which of its numbers were handed on. *)
From stdpp Require Import base list gmap numbers option sets.
From Stdlib Require Import ZArith Lia.
From S2P Require Import Prelude Events NetTypes RealTime.
#[local] Open Scope Z_scope.

Lemma mod_history_ne i j : i < j < i + MAX_HISTORY -> i mod MAX_HISTORY <> j mod MAX_HISTORY.
Proof.
  unfold MAX_HISTORY. intros Hij Heq. pose proof (Z.div_mod i 1000). pose proof (Z.div_mod j 1000). lia.
Qed.

(** ** The sender *)

(** [log]: the bodies of all packets sent so far, by sequence number. *)
Record sender_ok (log : list (list Z)) (l : Realtime_Data) : Prop := {
  so_head : head l = Z.of_nat (length log);
  so_order : 0 <= tail l <= head l;
  so_size : head l - tail l <= MAX_HISTORY;
  so_width : head l < 2 ^ 64;
  so_cells : forall i, tail l <= i < head l -> h_buff (hcell l i) = log !! Z.to_nat i }.

(** What is on the wire was sent under its number. *)
Definition wire_ok (log : list (list Z)) (l : Realtime_Data) : Prop :=
  forall seq data, RT_Data seq data ∈ wire l -> 0 <= seq /\ log !! Z.to_nat seq = Some data.

(** The number of data packets given to the network. *)
Fixpoint data_count (ps : list rt_packet) : Z :=
  match ps with [] => 0 | RT_Data _ _ :: ps => 1 + data_count ps | RT_Nack _ :: ps => data_count ps end.

Definition budget_ok (log : list (list Z)) (l : Realtime_Data) : Prop :=
  0 <= bucket l <= MAX_BUCKET /\ 2 * data_count (wire l) + bucket l <= 3 * Z.of_nat (length log).

(** Steps that change neither what the receiver keeps nor the wire. *)
Record recv_same (l l' : Realtime_Data) : Prop := {
  rs_head : recv_head l' = recv_head l; rs_tail : recv_tail l' = recv_tail l;
  rs_window : recv_window l' = recv_window l; rs_nacks : nack_buff l' = nack_buff l }.
Record send_same (l l' : Realtime_Data) : Prop := {
  ss_head : head l' = head l; ss_tail : tail l' = tail l; ss_window : window l' = window l;
  ss_bucket : bucket l' = bucket l; ss_wire : wire l' = wire l }.

Lemma drop_tail_ok log l :
  sender_ok log l -> tail l < head l ->
  exists l', drop_tail l = Ret l' /\ sender_ok log l' /\ recv_same l l' /\ head l' = head l /\ tail l' = tail l + 1 /\
    bucket l' = bucket l /\ wire l' = wire l /\ retransm_buff l' = retransm_buff l.
Proof.
  intros [Hh Ho Hs Hw Hc] Hlt. unfold drop_tail. rewrite (Hc (tail l)) by lia.
  destruct (lookup_lt_is_Some_2 log (Z.to_nat (tail l))) as [x Hx]; [lia|]. rewrite Hx. cbn [or_else mbind outcome_bind].
  rewrite u64_small by lia. eexists. split; [done|]. split_and!; try done. split; cbn; try done; try lia. intros i Hi.
  unfold hcell. cbn. rewrite lookup_insert_ne; [apply Hc; lia|]. apply mod_history_ne. lia.
Qed.

Lemma clean_loop_ok log now n l :
  sender_ok log l ->
  exists l', clean_loop n now l = Ret l' /\ sender_ok log l' /\ recv_same l l' /\ head l' = head l /\ tail l <= tail l' /\
    bucket l' = bucket l /\ wire l' = wire l /\ retransm_buff l' = retransm_buff l.
Proof.
  revert l. induction n as [|n IH]; intros l Hok; cbn [clean_loop].
  { exists l. split_and!; try done; lia. }
  destruct (Z.ltb_spec (tail l) (head l)) as [Hlt|_]; cbn [andb]; [|exists l; split_and!; try done; lia].
  destruct (_ <? _); [|exists l; split_and!; try done; lia].
  destruct (drop_tail_ok log l Hok Hlt) as (l1 & -> & Hok1 & [] & H1 & H2 & H3 & H4 & H5). cbn [mbind outcome_bind].
  destruct (IH l1 Hok1) as (l2 & -> & Hok2 & [] & H6 & H7 & H8 & H9 & H10). exists l2. split_and!; try done; try congruence; [split; congruence|lia].
Qed.

(** The packets that are recent stay in the history. *)
Lemma clean_loop_keeps log now i n l l' :
  sender_ok log l -> clean_loop n now l = Ret l' -> tail l <= i < head l ->
  cell_age now (h_time (hcell l i)) <= HISTORY_TIME -> tail l' <= i /\ hcell l' i = hcell l i.
Proof.
  revert l. induction n as [|n IH]; intros l Hok Hrun Hi Hage; cbn [clean_loop] in Hrun.
  { injection Hrun as <-. split; [lia|done]. }
  destruct (Z.ltb_spec (tail l) (head l)) as [Hlt|_]; cbn [andb] in Hrun; [|injection Hrun as <-; split; [lia|done]].
  destruct (Z.ltb_spec HISTORY_TIME (cell_age now (h_time (hcell l (tail l))))) as [Hold|_]; [|injection Hrun as <-; split; [lia|done]].
  destruct (drop_tail_ok log l Hok Hlt) as (l1 & Hd & Hok1 & _ & H1 & H2 & _). rewrite Hd in Hrun. cbn [mbind outcome_bind] in Hrun.
  assert (Hne : i <> tail l) by (intros ->; lia).
  assert (Hcell : hcell l1 i = hcell l i).
  { unfold drop_tail in Hd. destruct (h_buff (hcell l (tail l))); [|done]. cbn in Hd. injection Hd as <-. unfold hcell. cbn.
    rewrite lookup_insert_ne; [done|]. apply mod_history_ne. destruct Hok. lia. }
  destruct (IH l1 Hok1 Hrun) as [H3 H4]; [lia|by rewrite Hcell|]. split; [done|congruence].
Qed.

Lemma data_count_app ps qs : data_count (ps ++ qs) = data_count ps + data_count qs.
Proof. induction ps as [|[] ps IH]; cbn; lia. Qed.

Lemma forward_ok log now sent data l :
  sender_ok log l -> wire_ok log l -> budget_ok log l -> Z.of_nat (length log) + 1 < 2 ^ 64 ->
  exists r l', Forward_RT_UDP_Data now sent Neighbor data l = Ret (r, false, l') /\
    sender_ok (log ++ [data]) l' /\ wire_ok (log ++ [data]) l' /\ budget_ok (log ++ [data]) l' /\ recv_same l l' /\
    wire l' = (if sent then wire l ++ [RT_Data (Z.of_nat (length log)) data] else wire l).
Proof.
  intros Hok Hw Hb Hlen. unfold Forward_RT_UDP_Data, Clean_RT_history.
  destruct (clean_loop_ok log now (Z.to_nat (head l - tail l)) l Hok) as (l1 & -> & Hok1 & Hr1 & H1 & H2 & H3 & H4 & H5). cbn [mbind outcome_bind].
  assert (Hroom : exists l2, (if MAX_HISTORY <=? u64 (head l1 - tail l1) then if u64 (head l1 - tail l1) =? MAX_HISTORY then drop_tail l1 else Fault else Ret l1)
    = Ret l2 /\ sender_ok log l2 /\ recv_same l l2 /\ head l2 = head l /\ head l2 - tail l2 < MAX_HISTORY /\ bucket l2 = bucket l /\ wire l2 = wire l).
  { pose proof Hok1 as [Hh Ho Hs Hwd _]. rewrite u64_small by lia. destruct (Z.leb_spec MAX_HISTORY (head l1 - tail l1)) as [Hfull|Hroom].
    - rewrite (proj2 (Z.eqb_eq _ _)) by lia. destruct (drop_tail_ok log l1 Hok1) as (l2 & -> & Hok2 & Hr2 & H6 & H7 & H8 & H9 & _); [unfold MAX_HISTORY in *; lia|].
      exists l2. destruct Hr1, Hr2. split_and!; try done; try congruence; [split; congruence|lia].
    - exists l1. split_and!; try done; lia. }
  destruct Hroom as (l2 & -> & Hok2 & Hr2 & H6 & H7 & H8 & H9). cbn [mbind outcome_bind]. pose proof Hok2 as [Hh Ho Hs Hwd Hc].
  eexists _, _. split; [done|]. split_and!.
  - split; cbn; rewrite ?u64_small, ?length_app by lia; cbn; try lia. intros i Hi. unfold hcell. cbn. destruct (decide (i = head l2)) as [->|Hne].
    + rewrite lookup_insert_eq. cbn. rewrite Hh, Nat2Z.id. by rewrite list_lookup_middle.
    + rewrite lookup_insert_ne; [|apply not_eq_sym, mod_history_ne; lia]. rewrite lookup_app_l by lia. apply Hc. lia.
  - intros seq d Hin. cbn in Hin. rewrite H9 in Hin.
    assert (Hin' : RT_Data seq d ∈ wire l \/ (seq = head l2 /\ d = data)).
    { destruct sent; [apply elem_of_app in Hin as [Hin|[= -> ->]%list_elem_of_singleton]; tauto|by left]. }
    destruct Hin' as [Hin'|[-> ->]].
    + destruct (Hw seq d Hin') as [Hs0 Hl]. split; [done|]. by apply lookup_app_l_Some.
    + split; [lia|]. rewrite Hh, Nat2Z.id. by rewrite list_lookup_middle.
  - destruct Hb as [Hb1 Hb2]. unfold budget_ok. cbn. rewrite H8, H9, length_app. cbn.
    assert (Hc' : data_count (if sent then wire l ++ [RT_Data (head l2) data] else wire l) <= data_count (wire l) + 1).
    { destruct sent; [rewrite data_count_app; cbn; lia|lia]. }
    destruct (Z.ltb_spec (bucket l) MAX_BUCKET); unfold MAX_BUCKET in *; lia.
  - destruct Hr2. by split.
  - cbn. rewrite H9, Hh. by destruct sent.
Qed.

Lemma resend_loop_ok log sent seqs l :
  sender_ok log l -> wire_ok log l -> budget_ok log l -> (forall i, i ∈ seqs -> 0 <= i) ->
  exists l', resend_loop sent seqs l = Ret l' /\ sender_ok log l' /\ wire_ok log l' /\ budget_ok log l' /\ recv_same l l' /\
    retransm_buff l' = retransm_buff l.
Proof.
  revert l. induction seqs as [|seq seqs IH]; intros l Hok Hw Hb Hpos; cbn [resend_loop].
  { exists l. by split_and!. }
  assert (Hpos' : forall i, i ∈ seqs -> 0 <= i) by (intros; apply Hpos; by right).
  destruct (Z.leb_spec (head l) seq) as [_|Hlt]; [by apply IH|]. destruct (Z.leb_spec (tail l) seq) as [Hge|_]; [|by apply IH].
  destruct (Z.ltb_spec (bucket l) RT_RETRANSM_TOK) as [_|Htok]; [exists l; by split_and!|].
  pose proof Hok as [Hh Ho Hs Hwd Hc]. set (l1 := set_bucket (bucket l - RT_RETRANSM_TOK) l).
  assert (Hcell : h_buff (hcell l1 seq) = log !! Z.to_nat seq) by (apply Hc; lia).
  rewrite Hcell. destruct (lookup_lt_is_Some_2 log (Z.to_nat seq)) as [x Hx]; [lia|]. rewrite Hx. cbn [or_else mbind outcome_bind].
  assert (Hok1 : sender_ok log (emit (sent seq) (RT_Data seq x) l1)) by by split.
  assert (Hw1 : wire_ok log (emit (sent seq) (RT_Data seq x) l1)).
  { intros i d Hin. cbn in Hin. destruct (sent seq); [|by apply Hw]. apply elem_of_app in Hin as [Hin|Hin%list_elem_of_singleton]; [by apply Hw|].
    injection Hin as -> ->. split; [lia|done]. }
  assert (Hb1 : budget_ok log (emit (sent seq) (RT_Data seq x) l1)).
  { destruct Hb as [Hb1 Hb2]. unfold budget_ok. cbn. unfold RT_RETRANSM_TOK in *. destruct (sent seq); [rewrite data_count_app; cbn|]; lia. }
  destruct (sent seq).
  - destruct (IH _ Hok1 Hw1 Hb1 Hpos') as (l2 & -> & H1 & H2 & H3 & [] & H5). exists l2. by split_and!.
  - eexists. by split_and!.
Qed.

Lemma retransm_ok log now sent l :
  sender_ok log l -> wire_ok log l -> budget_ok log l -> (forall seqs i, retransm_buff l = Some seqs -> i ∈ seqs -> 0 <= i) ->
  exists l', Send_RT_Retransm now sent l = Ret l' /\ sender_ok log l' /\ wire_ok log l' /\ budget_ok log l' /\ recv_same l l' /\
    retransm_buff l' = None.
Proof.
  intros Hok Hw Hb Hpos. unfold Send_RT_Retransm. destruct (retransm_buff l) as [seqs|] eqn:Hr; [|exists l; by split_and!].
  unfold Clean_RT_history. destruct (clean_loop_ok log now (Z.to_nat (head l - tail l)) l Hok) as (l1 & -> & Hok1 & [] & H1 & H2 & H3 & H4 & H5).
  cbn [mbind outcome_bind]. destruct (resend_loop_ok log sent seqs l1 Hok1) as (l2 & -> & Hok2 & Hw2 & Hb2 & [] & H6).
  - intros seq d. rewrite H4. apply Hw.
  - unfold budget_ok. rewrite H3, H4. done.
  - intros i. by apply Hpos.
  - cbn [mbind outcome_bind]. eexists. split; [done|]. split_and!; try done; [by destruct Hok2; split|split; cbn; congruence].
Qed.

(** ** The receiver *)

(** [del]: the numbers handed on so far. *)
Record receiver_ok (del : list Z) (l : Realtime_Data) : Prop := {
  ro_order : 0 <= recv_tail l <= recv_head l;
  ro_size : recv_head l - recv_tail l <= MAX_HISTORY;
  ro_width : recv_head l < 2 ^ 64;
  ro_cells : forall i, recv_tail l <= i < recv_head l -> r_recvd (rcell l i) = true <-> i ∈ del;
  ro_del : forall i, i ∈ del -> 0 <= i < recv_head l;
  ro_nodup : NoDup del }.

Lemma rcell_clear l h t i j :
  rcell (set_recv h t (clear_cell i (recv_window l)) l) j = if decide (j mod MAX_HISTORY = i mod MAX_HISTORY) then mk_hrcell false (r_time (rcell l i)) else rcell l j.
Proof.
  unfold rcell, clear_cell. cbn. destruct (decide _) as [->|Hne]; [by rewrite lookup_insert_eq|by rewrite lookup_insert_ne].
Qed.

Lemma first_received_spec n i l :
  (Z.to_nat (recv_head l - i) <= n)%nat -> i <= recv_head l ->
  let j := first_received n i l in i <= j <= recv_head l /\ (j < recv_head l -> r_recvd (rcell l j) = true) /\
    forall k, i <= k < j -> r_recvd (rcell l k) = false.
Proof.
  revert i. induction n as [|n IH]; intros i Hn Hi; cbn [first_received]; [split; [lia|]; split; [lia|lia]|].
  destruct (r_recvd (rcell l i)) eqn:Hr; cbn [negb andb].
  - split; [lia|]. split; [done|lia].
  - destruct (Z.ltb_spec i (recv_head l)) as [Hlt|Hge]; [|split; [lia|]; split; [lia|lia]].
    destruct (IH (i + 1) ltac:(lia) ltac:(lia)) as (H1 & H2 & H3). cbn zeta. split; [lia|]. split; [done|]. intros k Hk.
    destruct (decide (k = i)) as [->|]; [done|]. apply H3. lia.
Qed.

(** The receiver's part of a step: the sender's is the same. *)
Record moved (l l' : Realtime_Data) : Prop := {
  mv_send : send_same l l'; mv_retransm : retransm_buff l' = retransm_buff l }.

Lemma moved_refl l : moved l l.
Proof. by split. Qed.
Lemma moved_trans l l' l'' : moved l l' -> moved l' l'' -> moved l l''.
Proof. intros [[] ?] [[] ?]. split; [split|]; congruence. Qed.

(** A tail that moves up leaves the cells above it. *)
Lemma advance_old_ok n now l :
  0 <= recv_tail l <= recv_head l -> recv_head l - recv_tail l <= MAX_HISTORY ->
  let l' := advance_old n now l in
  moved l l' /\ recv_head l' = recv_head l /\ recv_tail l <= recv_tail l' <= recv_head l /\ nack_buff l' = nack_buff l /\
  (forall i, recv_tail l' <= i < recv_head l -> rcell l' i = rcell l i) /\
  (forall i, recv_tail l <= i < recv_tail l' -> exists j, i <= j < recv_tail l' /\ r_recvd (rcell l j) = true /\ HISTORY_TIME < cell_age now (r_time (rcell l j))).
Proof.
  revert l. induction n as [|n IH]; intros l Ho Hs; cbn [advance_old].
  { split; [apply moved_refl|]. split_and!; try done; try lia; intros; lia. }
  destruct (Z.ltb_spec (recv_tail l) (recv_head l)) as [Hlt|_]; [|split; [apply moved_refl|]; split_and!; try done; try lia; intros; lia].
  destruct (first_received_spec (Z.to_nat (recv_head l - recv_tail l)) (recv_tail l) l ltac:(lia) ltac:(lia)) as (H1 & H2 & H3).
  set (j := first_received _ _ l) in *. destruct (Z.eqb_spec j (recv_head l)) as [_|Hne]; [split; [apply moved_refl|]; split_and!; try done; try lia; intros; lia|].
  destruct (Z.leb_spec (cell_age now (r_time (rcell l j))) HISTORY_TIME) as [_|Hold]; [split; [apply moved_refl|]; split_and!; try done; try lia; intros; lia|].
  specialize (H2 ltac:(lia)).
  destruct (IH (set_recv (recv_head l) (j + 1) (clear_cell j (recv_window l)) l)) as (Hm & H4 & H5 & H6 & H7 & H8); cbn [recv_tail recv_head set_recv] in *; [lia|lia|].
  set (l' := advance_old n now _) in *. assert (Hsame : forall i, j + 1 <= i < recv_head l -> rcell (set_recv (recv_head l) (j + 1) (clear_cell j (recv_window l)) l) i = rcell l i).
  { intros i Hi. rewrite rcell_clear, decide_False; [done|]. apply not_eq_sym, mod_history_ne. lia. }
  split; [eapply moved_trans; [|exact Hm]; by split|]. split_and!; try done; try lia.
  - intros i Hi. rewrite H7 by lia. apply Hsame. lia.
  - intros i Hi. destruct (decide (i <= j)) as [Hle|Hgt]; [exists j; split; [lia|done]|].
    destruct (H8 i ltac:(lia)) as (k & Hk & Hr & Ha). rewrite Hsame in Hr, Ha by lia. exists k. split; [lia|done].
Qed.

Lemma make_room_ok n seq l :
  recv_tail l <= seq -> (Z.to_nat (seq - recv_tail l) <= n)%nat -> recv_head l - recv_tail l <= MAX_HISTORY -> recv_head l <= seq ->
  let l' := make_room n seq l in
  moved l l' /\ recv_head l' = recv_head l /\ recv_tail l <= recv_tail l' <= seq /\ seq - recv_tail l' < MAX_HISTORY /\ nack_buff l' = nack_buff l /\
  (recv_tail l' = recv_tail l \/ recv_tail l' = seq - MAX_HISTORY + 1) /\
  (forall i, recv_tail l' <= i < recv_head l -> rcell l' i = rcell l i).
Proof.
  revert l. induction n as [|n IH]; intros l Ho Hn Hs Hh; cbn [make_room].
  { split; [apply moved_refl|]. unfold MAX_HISTORY. split_and!; try done; try lia; by left. }
  destruct (Z.leb_spec MAX_HISTORY (seq - recv_tail l)) as [Hfar|Hnear]; [|split; [apply moved_refl|]; split_and!; try done; try lia; by left].
  destruct (IH (set_recv (recv_head l) (recv_tail l + 1) (clear_cell (recv_tail l) (recv_window l)) l)) as (Hm & H4 & H5 & H6 & H7 & H8 & H9);
    cbn [recv_tail recv_head set_recv] in *; [unfold MAX_HISTORY in *; lia|lia|lia|lia|].
  split; [eapply moved_trans; [|exact Hm]; by split|]. split_and!; try done; try lia.
  intros i Hi. rewrite H9 by lia. rewrite rcell_clear, decide_False; [done|]. apply not_eq_sym, mod_history_ne. lia.
Qed.

(** Room in the packet of negative acknowledgements. *)
Definition nacks_fit (l : Realtime_Data) : Prop := Z.of_nat (length (nack_buff l)) * sizeof_rt_seq + sizeof_rt_seq < sizeof_packet_body - sizeof_udp_header.

Lemma add_lost_ok n i l :
  (forall k, i <= k < i + Z.of_nat n -> recv_tail l <= k -> i + Z.of_nat n - recv_tail l <= MAX_HISTORY) -> recv_head l <= i -> nacks_fit l ->
  let l' := add_lost n i l in
  moved l l' /\ recv_head l' = recv_head l /\ recv_tail l' = recv_tail l /\ nacks_fit l' /\
  (exists m, (m <= n)%nat /\ nack_buff l' = nack_buff l ++ seqZ i (Z.of_nat m) /\
     (m = n \/ sizeof_packet_body - sizeof_udp_header <= Z.of_nat (length (nack_buff l')) * sizeof_rt_seq + 2 * sizeof_rt_seq)) /\
  (forall k, recv_tail l <= k < i + Z.of_nat n -> (k < i -> i + Z.of_nat n - MAX_HISTORY <= k) ->
     r_recvd (rcell l' k) = if decide (i <= k) then false else r_recvd (rcell l k)).
Proof.
  revert i l. induction n as [|n IH]; intros i l Hw Hh Hfit; cbn [add_lost].
  { split; [apply moved_refl|]. split_and!; try done.
    - exists 0%nat. split; [done|]. rewrite app_nil_r. split; [done|by left].
    - intros k Hk _. rewrite decide_False by lia. done. }
  set (l0 := set_recv (recv_head l) (recv_tail l) (clear_cell i (recv_window l)) l).
  set (l1 := if _ <? _ then set_nacks (nack_buff l0 ++ [i]) (nack_queued l0) l0 else l0).
  assert (H1 : moved l l1 /\ recv_head l1 = recv_head l /\ recv_tail l1 = recv_tail l /\ recv_window l1 = recv_window l0 /\ nacks_fit l1 /\
    (nack_buff l1 = nack_buff l ++ [i] \/ (l1 = l0 /\ sizeof_packet_body - sizeof_udp_header <= Z.of_nat (length (nack_buff l)) * sizeof_rt_seq + 2 * sizeof_rt_seq))).
  { unfold l1. destruct (Z.ltb_spec (Z.of_nat (length (nack_buff l0)) * sizeof_rt_seq + 2 * sizeof_rt_seq) (sizeof_packet_body - sizeof_udp_header)) as [Hroom|Hfull].
    - split; [by split|]. split_and!; try done; [|by left]. unfold nacks_fit. cbn. rewrite length_app. cbn [length]. cbn in Hroom. unfold sizeof_rt_seq in *. lia.
    - split; [by split|]. split_and!; try done. right. done. }
  destruct H1 as (Hm1 & Hh1 & Ht1 & Hw1 & Hf1 & Hn1).
  destruct (IH (i + 1) l1) as (Hm2 & Hh2 & Ht2 & Hf2 & (m & Hm & Hnb & Hend) & Hc2); [| |done|].
  { rewrite Ht1. intros k Hk Hkt. specialize (Hw k). lia. }
  { lia. }
  cbn zeta. split; [by eapply moved_trans|]. split; [congruence|]. split; [congruence|]. split; [done|]. split.
  - destruct Hn1 as [Hn1|[Heq Hfull]].
    + exists (S m). split; [lia|]. rewrite Hnb, Hn1, <- app_assoc. split.
      * f_equal. replace (Z.of_nat (S m)) with (Z.succ (Z.of_nat m)) by lia. rewrite (seqZ_cons i) by lia. cbn. f_equal. f_equal; lia.
      * destruct Hend as [->|Hend]; [by left|]. right. by rewrite Hnb, Hn1, <- app_assoc in Hend.
    + exists 0%nat. split; [lia|]. cbn [Z.of_nat seqZ]. assert (Hm0 : m = 0%nat).
      { destruct m as [|m]; [done|]. exfalso. unfold nacks_fit in Hf2. rewrite Hnb, Heq in Hf2. cbn [nack_buff set_recv l0] in Hf2.
        rewrite length_app, length_seqZ in Hf2. unfold sizeof_rt_seq in *. lia. }
      subst m. assert (Hnil : nack_buff (add_lost n (i + 1) l1) = nack_buff l) by (rewrite Hnb, Heq; apply app_nil_r).
      rewrite Hnil. split; [symmetry; apply app_nil_r|by right].
  - intros k Hk Hkw. destruct (decide (k = i)) as [->|Hne].
    + rewrite decide_True by lia. rewrite Hc2; [|lia|intros _; specialize (Hw i); lia]. rewrite decide_False by lia.
      assert (Hci : rcell l1 i = rcell l0 i) by (unfold rcell; by rewrite Hw1). rewrite Hci. unfold l0. rewrite rcell_clear, decide_True by done. done.
    + rewrite Hc2; [|lia|intros; lia]. destruct (decide (i + 1 <= k)) as [Hgt|Hlt]; [by rewrite decide_True by lia|]. rewrite decide_False by lia.
      assert (Hck : rcell l1 k = rcell l0 k) by (unfold rcell; by rewrite Hw1). rewrite Hck. unfold l0. rewrite rcell_clear, decide_False; [done|].
      apply mod_history_ne. lia.
Qed.

(** A number below the tail after it moved up, whose cell is marked all the
    same, lies a whole window below the numbers to come. *)
Lemma mark_cell l seq now i :
  rcell (set_recv (recv_head l) (recv_tail l) (<[seq mod MAX_HISTORY := mk_hrcell true now]> (recv_window l)) l) i =
  if decide (i mod MAX_HISTORY = seq mod MAX_HISTORY) then mk_hrcell true now else rcell l i.
Proof. unfold rcell. cbn. destruct (decide _) as [->|Hne]; [by rewrite lookup_insert_eq|by rewrite lookup_insert_ne]. Qed.

(** The window after a number above its head. *)
Lemma extend_ok del seq l :
  receiver_ok del l -> nacks_fit l -> recv_head l <= seq -> seq + 1 < 2 ^ 64 ->
  let l1 := make_room (Z.to_nat (seq - recv_tail l)) seq l in
  let l2 := add_lost (Z.to_nat (seq - recv_head l1)) (recv_head l1) l1 in
  moved l l2 /\ nacks_fit l2 /\ recv_tail l <= recv_tail l2 <= seq /\ seq - recv_tail l2 < MAX_HISTORY /\
  (recv_tail l2 = recv_tail l \/ recv_tail l2 = seq - MAX_HISTORY + 1) /\
  (exists m, nack_buff l2 = nack_buff l ++ seqZ (recv_head l) (Z.of_nat m) /\ Z.of_nat m <= seq - recv_head l /\
     (Z.of_nat m = seq - recv_head l \/
      sizeof_packet_body - sizeof_udp_header <= Z.of_nat (length (nack_buff l2)) * sizeof_rt_seq + 2 * sizeof_rt_seq)) /\
  forall i, recv_tail l2 <= i < seq -> r_recvd (rcell l2 i) = true <-> i ∈ del.
Proof.
  intros [Ho Hs Hwd Hc Hd Hnd] Hfit Hge Hw. cbn zeta.
  destruct (make_room_ok (Z.to_nat (seq - recv_tail l)) seq l) as (Hm1 & H1 & H2 & H3 & H4 & H5 & H6); [lia|lia|done|done|].
  set (l1 := make_room _ seq l) in *. rewrite H1.
  destruct (add_lost_ok (Z.to_nat (seq - recv_head l)) (recv_head l) l1) as (Hm2 & H7 & H8 & H9 & (m & Hm & H10 & H11) & H12).
  { intros k Hk Hkt. lia. }
  { lia. }
  { unfold nacks_fit. by rewrite H4. }
  set (l2 := add_lost _ (recv_head l) l1) in *. split; [by eapply moved_trans|]. split; [done|]. split; [lia|]. split; [lia|]. split; [rewrite H8; done|]. split.
  - exists m. rewrite H10, H4. split; [done|]. split; [lia|]. destruct H11 as [->|H11]; [left; lia|right; by rewrite H10, H4 in H11].
  - intros i Hi. rewrite H12 by lia. destruct (decide (recv_head l <= i)) as [Hhi|Hlo].
    + split; [done|]. intros Hin%Hd. lia.
    + rewrite H6 by lia. apply Hc. lia.
Qed.

Lemma process_ok del now seq data l :
  receiver_ok del l -> nacks_fit l -> 0 <= seq -> seq + 1 < 2 ^ 64 ->
  let r := Process_RT_UDP_data_packet now seq data l in
  moved l r.2 /\ nacks_fit r.2 /\ recv_tail l <= recv_tail r.2 /\
  (forall i, i ∈ nack_buff r.2 -> i ∈ nack_buff l \/ recv_head l <= i < seq) /\
  match r.1 with
  | Some d => d = data /\ seq ∉ del /\ receiver_ok (del ++ [seq]) r.2
  | None => r.2 = l /\ (Z.of_nat (length data) + sizeof_rt_seq < sizeof_udp_header \/ seq < recv_tail l \/ seq ∈ del)
  end.
Proof.
  intros Hok Hfit H0 Hw. pose proof Hok as [Ho Hs Hwd Hc Hd Hnd]. unfold Process_RT_UDP_data_packet. cbn zeta.
  assert (Hstay : forall P, P -> moved l l /\ nacks_fit l /\ recv_tail l <= recv_tail l /\ (forall i, i ∈ nack_buff l -> i ∈ nack_buff l \/ recv_head l <= i < seq) /\ l = l /\ P).
  { intros P HP. split; [apply moved_refl|]. split_and!; try done; try lia. intros; by left. }
  destruct (Z.ltb_spec (Z.of_nat (length data) + sizeof_rt_seq) sizeof_udp_header); [apply Hstay; by left|].
  destruct (Z.ltb_spec seq (recv_tail l)) as [|Htail]; [apply Hstay; right; by left|].
  destruct ((seq <? recv_head l) && r_recvd (rcell l seq)) eqn:Hdup.
  { apply andb_true_iff in Hdup as [Hlt%Z.ltb_lt Hr]. apply Hstay. right. right. apply (Hc seq); [lia|done]. }
  assert (Hnew : seq ∉ del).
  { intros Hin. pose proof (Hd seq Hin) as Hlt. apply andb_false_iff in Hdup as [Hge%Z.ltb_ge|Hr]; [lia|]. apply (Hc seq) in Hin; [congruence|lia]. }
  destruct (advance_old_ok (Z.to_nat (recv_head l - recv_tail l)) now l Ho Hs) as (Hm1 & H1 & H2 & H3 & H4 & _).
  set (l1 := advance_old _ now l) in *.
  assert (Hok1 : receiver_ok del l1).
  { split; try done; try lia; rewrite ?H1; try done. intros i Hi. rewrite H4 by lia. apply Hc. lia. }
  assert (Hf1 : nacks_fit l1) by (unfold nacks_fit; by rewrite H3).
  assert (Hdel : forall i, i ∈ del ++ [seq] -> 0 <= i) by (intros i [Hi|Hi%list_elem_of_singleton]%elem_of_app; [by apply Hd in Hi as []|by subst]).
  assert (Hnd' : NoDup (del ++ [seq])) by (apply NoDup_app; split; [done|]; split; [|apply NoDup_singleton]; by intros x Hx ->%list_elem_of_singleton).
  destruct (Z.leb_spec (recv_head l1) seq) as [Hge|Hlt].
  - destruct (extend_ok del seq l1 Hok1 Hf1 Hge Hw) as (Hm2 & Hf2 & H5 & H6 & H6' & (m & H7 & H8 & _) & H9). cbn zeta in *.
    set (l2 := add_lost _ _ _) in *. set (l3 := if bool_decide (nack_buff l2 = []) then l2 else set_nacks (nack_buff l2) true l2).
    assert (H10 : moved l2 l3 /\ recv_tail l3 = recv_tail l2 /\ recv_window l3 = recv_window l2 /\ nack_buff l3 = nack_buff l2) by (unfold l3; by case_bool_decide).
    destruct H10 as (Hm3 & H10 & H11 & H12). cbn [fst snd]. split; [by eapply moved_trans; [eapply moved_trans|destruct Hm3 as [[] ?]]|].
    split; [unfold nacks_fit; cbn; by rewrite H12|]. split; [cbn; lia|]. split.
    + intros i. cbn. rewrite H12, H7, H3, elem_of_app. intros [?|Hi%elem_of_seqZ]; [by left|right]. lia.
    + split; [done|]. split; [done|]. split; cbn; rewrite ?u64_small by lia; rewrite ?H10; try lia; try done.
      * intros i Hi. rewrite elem_of_app, list_elem_of_singleton. unfold rcell. cbn. rewrite H11. destruct (decide (i = seq)) as [->|Hne].
        -- rewrite lookup_insert_eq. cbn. tauto.
        -- rewrite lookup_insert_ne by (apply not_eq_sym, mod_history_ne; lia). rewrite <- (H9 i) by lia. unfold rcell. tauto.
      * intros i Hi. pose proof (Hdel i Hi). apply elem_of_app in Hi as [Hi|Hi%list_elem_of_singleton]; [apply Hd in Hi; lia|lia].
  - cbn [fst snd]. split; [by destruct Hm1 as [[] ?]|]. split; [done|]. split; [cbn; lia|]. split; [intros i; cbn; rewrite H3; by left|].
    split; [done|]. split; [done|]. split; cbn; try lia; try done.
    + intros i Hi. rewrite mark_cell, elem_of_app, list_elem_of_singleton. destruct (decide (i = seq)) as [->|Hne]; [rewrite decide_True by done; tauto|].
      rewrite decide_False.
      * rewrite (ro_cells _ _ Hok1 i Hi). tauto.
      * destruct (decide (i < seq)); [apply mod_history_ne; lia|apply not_eq_sym, mod_history_ne; lia].
    + intros i Hi. pose proof (Hdel i Hi). apply elem_of_app in Hi as [Hi|Hi%list_elem_of_singleton]; [apply Hd in Hi; lia|lia].
Qed.
