(* ===== verification/RealTimeProps.v ===== *)
(** * RealTimeProps: two ends of a real-time link

    Over a network that loses, repeats and reorders packets each packet is handed
    on at most once and as it was sent, at most every second packet is a
    retransmission, and packets lost once are recovered while they are recent. *)
From stdpp Require Import base list gmap numbers option sets relations.
From Stdlib Require Import ZArith Lia.
From S2P Require Import Prelude Events NetTypes RealTime RealTimeProof.
#[local] Open Scope Z_scope.

(** One end: its link, the packets it was given to send, and those it handed on,
    with their sequence numbers. *)
Record rt_end := mk_rt_end { e_link : Realtime_Data; e_log : list (list Z); e_del : list (Z * list Z) }.
Definition new_end : rt_end := mk_rt_end new_rt [] [].

(** What one end may do; [inbox]: the packets the other end sent so far. *)
Inductive rt_step (inbox : list rt_packet) : rt_end -> rt_end -> Prop :=
| RForward now sent data e r l' :
    Z.of_nat (length (e_log e)) + 1 < 2 ^ 64 ->
    Forward_RT_UDP_Data now sent Neighbor data (e_link e) = Ret (r, false, l') ->
    rt_step inbox e (mk_rt_end l' (e_log e ++ [data]) (e_del e))
| RClean now e l' : Clean_RT_history now (e_link e) = Ret l' -> rt_step inbox e (mk_rt_end l' (e_log e) (e_del e))
| RNack sent e : rt_step inbox e (mk_rt_end (Send_RT_Nack sent (e_link e)) (e_log e) (e_del e))
| RRetransm now sent e l' : Send_RT_Retransm now sent (e_link e) = Ret l' -> rt_step inbox e (mk_rt_end l' (e_log e) (e_del e))
| RReceive now seq data e m l' :
    RT_Data seq data ∈ inbox -> Process_RT_UDP_data_packet now seq data (e_link e) = (m, l') ->
    rt_step inbox e (mk_rt_end l' (e_log e) (match m with Some d => e_del e ++ [(seq, d)] | None => e_del e end))
| RReceiveNack seqs e :
    RT_Nack seqs ∈ inbox -> rt_step inbox e (mk_rt_end (Process_RT_nack_packet seqs (e_link e)) (e_log e) (e_del e)).

Inductive rt_sys_step : rt_end * rt_end -> rt_end * rt_end -> Prop :=
| RStepA a a' b : rt_step (wire (e_link b)) a a' -> rt_sys_step (a, b) (a', b)
| RStepB a b b' : rt_step (wire (e_link a)) b b' -> rt_sys_step (a, b) (a, b').

Definition rt_reachable : rt_end * rt_end -> Prop := rtc rt_sys_step (new_end, new_end).

(** ** The invariant *)
Record rt_end_ok (e : rt_end) : Prop := {
  ek_sender : sender_ok (e_log e) (e_link e);
  ek_wire : wire_ok (e_log e) (e_link e);
  ek_budget : budget_ok (e_log e) (e_link e);
  ek_recv : receiver_ok (e_del e).*1 (e_link e);
  ek_fit : nacks_fit (e_link e);
  ek_nacks : forall i, i ∈ nack_buff (e_link e) -> 0 <= i;
  ek_asked : forall seqs i, RT_Nack seqs ∈ wire (e_link e) \/ retransm_buff (e_link e) = Some seqs -> i ∈ seqs -> 0 <= i }.

Record rt_sys_ok (a b : rt_end) : Prop := {
  rk_a : rt_end_ok a; rk_b : rt_end_ok b;
  rk_ab : forall i d, (i, d) ∈ e_del b -> e_log a !! Z.to_nat i = Some d;
  rk_ba : forall i d, (i, d) ∈ e_del a -> e_log b !! Z.to_nat i = Some d }.

Lemma rt_sys_sym a b : rt_sys_ok a b -> rt_sys_ok b a.
Proof. by intros []. Qed.

Lemma rt_receiver_same del l l' : receiver_ok del l -> recv_same l l' -> receiver_ok del l'.
Proof. intros [] [H1 H2 H3 H4]. split; unfold rcell in *; rewrite ?H1, ?H2, ?H3; done. Qed.

Lemma rt_sender_same log l l' : sender_ok log l -> send_same l l' -> sender_ok log l'.
Proof. intros [] [H1 H2 H3 H4 H5]. split; unfold hcell in *; rewrite ?H1, ?H2, ?H3; done. Qed.

(** A step of the sending half. *)
Lemma rt_sends e log' l' :
  rt_end_ok e -> sender_ok log' l' -> wire_ok log' l' -> budget_ok log' l' -> recv_same (e_link e) l' ->
  (forall seqs, RT_Nack seqs ∈ wire l' \/ retransm_buff l' = Some seqs ->
     RT_Nack seqs ∈ wire (e_link e) \/ retransm_buff (e_link e) = Some seqs) ->
  rt_end_ok (mk_rt_end l' log' (e_del e)).
Proof.
  intros [] Hs Hw Hb Hr Ha. split; cbn; try done; [by eapply rt_receiver_same| | |].
  - unfold nacks_fit. by rewrite (rs_nacks _ _ Hr).
  - by rewrite (rs_nacks _ _ Hr).
  - intros seqs i Hx. apply (ek_asked0 seqs i), Ha, Hx.
Qed.

Lemma rt_new_end_ok : rt_end_ok new_end.
Proof.
  split; cbn.
  - split; cbn; try done; intros; lia.
  - by intros seq data ?%elem_of_nil.
  - done.
  - split; cbn; try done; [intros; lia|by intros i ?%elem_of_nil|constructor].
  - reflexivity.
  - by intros i ?%elem_of_nil.
  - by intros seqs i [?%elem_of_nil|?].
Qed.

Lemma resend_wire sent : forall seqs l l' p,
  resend_loop sent seqs l = Ret l' -> p ∈ wire l' -> p ∈ wire l \/ exists i d, p = RT_Data i d.
Proof.
  induction seqs as [|seq seqs IH]; intros l l' p; cbn [resend_loop]; [intros [= <-]; by left|].
  destruct (head l <=? seq); [by apply IH|]. destruct (tail l <=? seq); [|by apply IH]. destruct (bucket l <? _); [intros [= <-]; by left|].
  destruct (h_buff _) as [d|]; [|done]. cbn [or_else mbind outcome_bind].
  assert (Hemit : forall b l0, p ∈ wire (emit b (RT_Data seq d) l0) -> p ∈ wire l0 \/ exists i d, p = RT_Data i d).
  { intros [] l0; cbn; [|by left]. intros [?| ->%list_elem_of_singleton]%elem_of_app; [by left|right; by eexists _, _]. }
  destruct (sent seq).
  - intros Hrun Hin. destruct (IH _ _ _ Hrun Hin) as [Hin'|?]; [|by right]. by apply (Hemit true) in Hin'.
  - intros [= <-] Hin. by apply (Hemit false) in Hin.
Qed.

Lemma rt_step_ok a a' b : rt_sys_ok a b -> rt_step (wire (e_link b)) a a' -> rt_sys_ok a' b.
Proof.
  intros [Ha Hb Hab Hba] Hstep. pose proof Ha as [Hs Hw Hbd Hr Hf Hn Hq]. destruct Hstep.
  - destruct (forward_ok (e_log e) now sent data (e_link e)) as (r' & l1 & Hrun & H1 & H2 & H3 & H4 & H5); try done.
    rewrite Hrun in H0. injection H0 as <- <-. split; cbn; [|done| |done].
    + apply rt_sends; try done. rewrite H5. intros seqs [Hin|Hin].
      * left. destruct sent; [|done]. by apply elem_of_app in Hin as [?|?%list_elem_of_singleton].
      * right. rewrite <- Hin. clear -Hrun Hs. unfold Forward_RT_UDP_Data, Clean_RT_history in Hrun.
        destruct (clean_loop_ok (e_log e) now (Z.to_nat (head (e_link e) - tail (e_link e))) _ Hs) as (l2 & Hc & Hok2 & _ & H1 & H2 & _ & _ & H3).
        rewrite Hc in Hrun. cbn [mbind outcome_bind] in Hrun. destruct (MAX_HISTORY <=? _) eqn:Hle.
        -- destruct (_ =? _) eqn:Heq; [|done]. apply Z.eqb_eq in Heq. pose proof Hok2 as [? ? ? ? _].
           destruct (drop_tail_ok (e_log e) l2 Hok2) as (l3 & Hd & _ & _ & _ & _ & _ & _ & H4).
           { destruct (Z.ltb_spec (tail l2) (head l2)); [done|]. replace (head l2 - tail l2) with 0 in Heq by lia. done. }
           rewrite Hd in Hrun. cbn [mbind outcome_bind] in Hrun. injection Hrun as _ <-. cbn. congruence.
        -- cbn [mbind outcome_bind] in Hrun. injection Hrun as _ <-. cbn. congruence.
    + intros i d Hd. apply lookup_app_l_Some, Hab, Hd.
  - unfold Clean_RT_history in H. destruct (clean_loop_ok (e_log e) now (Z.to_nat (head (e_link e) - tail (e_link e))) _ Hs) as (l2 & Hc & Hok2 & Hr2 & H1 & H2 & H3 & H4 & H5).
    rewrite Hc in H. injection H as <-. split; cbn; [|done|done|done]. apply rt_sends; try done.
    + intros seq d. rewrite H4. apply Hw.
    + unfold budget_ok. rewrite H3, H4. apply Hbd.
    + intros seqs. rewrite H4, H5. done.
  - split; cbn; [|done|done|done]. unfold Send_RT_Nack. split; cbn.
    + destruct Hs. by split.
    + intros seq d Hin. destruct sent; cbn in Hin; [|by apply Hw]. apply elem_of_app in Hin as [Hin|Hin%list_elem_of_singleton]; [by apply Hw|done].
    + destruct Hbd as [? ?]. split; cbn; [done|]. destruct sent; [rewrite data_count_app; cbn|]; lia.
    + destruct Hr. by split.
    + reflexivity.
    + by intros i ?%elem_of_nil.
    + intros seqs i [Hin|Hin] Hi; [|by apply (Hq seqs); [right|]]. destruct sent; cbn in Hin; [|by apply (Hq seqs); [left|]].
      apply elem_of_app in Hin as [Hin|[= ->]%list_elem_of_singleton]; [by apply (Hq seqs); [left|]|by apply Hn].
  - destruct (retransm_ok (e_log e) now sent (e_link e)) as (l2 & Hrun & H1 & H2 & H3 & H4 & H5); try done; [intros seqs i Hx; by apply (Hq seqs); right|].
    rewrite Hrun in H. injection H as <-. split; cbn; [|done|done|done]. apply rt_sends; try done. rewrite H5. intros seqs [Hin|?]; [|done].
    unfold Send_RT_Retransm in Hrun. destruct (retransm_buff (e_link e)) as [qs|]; [|injection Hrun as <-; by left].
    unfold Clean_RT_history in Hrun. destruct (clean_loop_ok (e_log e) now (Z.to_nat (head (e_link e) - tail (e_link e))) _ Hs) as (l3 & Hc & _ & _ & _ & _ & _ & H6 & _).
    rewrite Hc in Hrun. cbn [mbind outcome_bind] in Hrun. destruct (resend_loop sent qs l3) as [l4| |] eqn:Hre; cbn [mbind outcome_bind] in Hrun; [|done|done].
    injection Hrun as <-. cbn in Hin. destruct (resend_wire _ _ _ _ _ Hre Hin) as [Hin'|(? & ? & ?)]; [|done]. rewrite H6 in Hin'. by left.
  - destruct (ek_wire b Hb seq data H) as [Hpos Hlog]. pose proof (ek_sender b Hb) as [Hh _ _ Hwd _]. pose proof (lookup_lt_Some _ _ _ Hlog).
    pose proof (process_ok (e_del e).*1 now seq data (e_link e) Hr Hf Hpos ltac:(lia)) as Hp. rewrite H0 in Hp. cbn in Hp. destruct Hp as (Hm & Hf' & _ & Hnk & Hp).
    assert (Hother : forall del', receiver_ok (del' : list (Z * list Z)).*1 l' -> rt_end_ok (mk_rt_end l' (e_log e) del')).
    { intros del' Hr'. destruct Hm as [Hm Hrt]. split; cbn; try done.
      - by eapply rt_sender_same.
      - intros s d. rewrite (ss_wire _ _ Hm). apply Hw.
      - unfold budget_ok. by rewrite (ss_bucket _ _ Hm), (ss_wire _ _ Hm).
      - intros i [Hi|Hi]%Hnk; [by apply Hn|]. pose proof (ro_order _ _ Hr). lia.
      - intros seqs i. rewrite (ss_wire _ _ Hm), Hrt. apply Hq. }
    destruct m as [d|].
    + destruct Hp as (-> & Hnew & Hr'). split; cbn; [apply Hother; by rewrite fmap_app|done|done|].
      intros i d [Hi|[= -> ->]%list_elem_of_singleton]%elem_of_app; [by apply Hba|done].
    + destruct Hp as [-> _]. split; cbn; [by apply Hother|done|done|done].
  - split; cbn; [|done|done|done]. split; cbn; try done; [by destruct Hs; split|by destruct Hr; split|].
    intros qs i [Hin|[= ->]] Hi; [by apply (Hq qs); [left|]|]. by apply (ek_asked b Hb qs); [left|].
Qed.

Lemma rt_reachable_ok s : rt_reachable s -> rt_sys_ok s.1 s.2.
Proof.
  intros H. assert (H0 : rt_sys_ok new_end new_end).
  { split; [apply rt_new_end_ok|apply rt_new_end_ok| |]; by intros i d ?%elem_of_nil. }
  unfold rt_reachable in H. apply (rtc_ind_r (fun s => rt_sys_ok s.1 s.2)) in H; [done|done|].
  intros s1 s2 _ Hst IH. destruct Hst as [a a' b Hst|a b b' Hst]; cbn in *.
  - by eapply rt_step_ok.
  - apply rt_sys_sym. eapply rt_step_ok; [by apply rt_sys_sym|exact Hst].
Qed.

(** C21: a real-time link between two daemons over a network that loses, repeats
    and reorders packets.  In every reachable state each number was handed on at
    most once, with the packet that was sent under it, and no function of the
    link follows a NULL pointer or fails its assertion. *)
Theorem rt_link_at_most_once a b :
  rt_reachable (a, b) ->
  NoDup (e_del b).*1 /\ (forall i d, (i, d) ∈ e_del b -> e_log a !! Z.to_nat i = Some d) /\
  (forall now sent data, Z.of_nat (length (e_log a)) + 1 < 2 ^ 64 ->
     exists r l', Forward_RT_UDP_Data now sent Neighbor data (e_link a) = Ret (r, false, l')) /\
  (forall now, exists l', Clean_RT_history now (e_link a) = Ret l') /\
  (forall now sent, exists l', Send_RT_Retransm now sent (e_link a) = Ret l').
Proof.
  intros H. destruct (rt_reachable_ok _ H) as [[Hs Hw Hb _ _ _ Hq] [_ _ _ Hr _ _ _] Hab _]. cbn [fst snd] in *. split; [apply Hr|]. split; [done|]. split_and!.
  - intros now sent data Hlen. destruct (forward_ok _ now sent data _ Hs Hw Hb Hlen) as (r & l' & Hrun & _). by exists r, l'.
  - intros now. unfold Clean_RT_history.
    destruct (clean_loop_ok _ now (Z.to_nat (head (e_link a) - tail (e_link a))) _ Hs) as (l' & Hrun & _). by exists l'.
  - intros now sent. destruct (retransm_ok _ now sent _ Hs Hw Hb) as (l' & Hrun & _); [intros seqs i Hx; by apply (Hq seqs); right|]. by exists l'.
Qed.

(** The retransmission budget.  In every reachable state an end has given the
    network at most three data packets for every two it was asked to send, so
    at most a third of its traffic is retransmissions, and it has never saved up
    tokens for more than 250 of them. *)
Theorem rt_retransmission_budget a b :
  rt_reachable (a, b) ->
  2 * data_count (wire (e_link a)) <= 3 * Z.of_nat (length (e_log a)) /\ 0 <= bucket (e_link a) <= MAX_BUCKET.
Proof.
  intros H. destruct (rt_reachable_ok _ H) as [[_ _ [Hb1 Hb2] _ _ _ _] _ _ _]. cbn [fst snd] in *. split; [lia|done].
Qed.

(** ** Recovery of a loss *)
Lemma resend_all log seqs : forall l,
  sender_ok log l -> (forall i, i ∈ seqs -> tail l <= i < head l) -> RT_RETRANSM_TOK * Z.of_nat (length seqs) <= bucket l ->
  exists l', resend_loop (fun _ => true) seqs l = Ret l' /\
    wire l' = wire l ++ ((fun i => RT_Data i (default [] (log !! Z.to_nat i))) <$> seqs).
Proof.
  induction seqs as [|seq seqs IH]; intros l Hok Hin Htok; cbn [resend_loop fmap list_fmap].
  { exists l. by rewrite app_nil_r. }
  pose proof (Hin seq ltac:(left)) as Hseq. destruct (Z.leb_spec (head l) seq); [lia|]. destruct (Z.leb_spec (tail l) seq); [|lia].
  cbn [length] in Htok. unfold RT_RETRANSM_TOK in *. destruct (Z.ltb_spec (bucket l) 2); [lia|].
  pose proof Hok as [Hh Ho Hs Hwd Hc]. assert (Hcell : h_buff (hcell (set_bucket (bucket l - 2) l) seq) = log !! Z.to_nat seq) by (apply Hc; lia).
  rewrite Hcell. destruct (lookup_lt_is_Some_2 log (Z.to_nat seq)) as [x Hx]; [lia|]. rewrite Hx. cbn [or_else mbind outcome_bind].
  destruct (IH (emit true (RT_Data seq x) (set_bucket (bucket l - 2) l))) as (l' & -> & Hw); [by split| |cbn; lia|].
  { intros i Hi. cbn. apply Hin. by right. }
  exists l'. split; [done|]. rewrite Hw. cbn. rewrite <- app_assoc. done.
Qed.

(** A packet that skips some numbers, when nothing was asked for yet. *)
Lemma process_skips del now s data l :
  receiver_ok del l -> nack_buff l = [] -> sizeof_udp_header <= Z.of_nat (length data) + sizeof_rt_seq ->
  recv_head l < s -> s - recv_head l <= 176 -> s + 1 < 2 ^ 64 ->
  exists l', Process_RT_UDP_data_packet now s data l = (Some data, l') /\
    nack_buff l' = seqZ (recv_head l) (s - recv_head l) /\ wire l' = wire l /\ receiver_ok (del ++ [s]) l'.
Proof.
  intros Hr Hnone Hlen Hgap Hfew Hs. pose proof (ro_order _ _ Hr). assert (Hf : nacks_fit l) by (unfold nacks_fit; by rewrite Hnone).
  pose proof (process_ok del now s data l Hr Hf ltac:(lia) Hs) as Hp. unfold Process_RT_UDP_data_packet in *. cbn zeta in Hp.
  destruct (Z.ltb_spec (Z.of_nat (length data) + sizeof_rt_seq) sizeof_udp_header) as [|_]; [lia|]. destruct (Z.ltb_spec s (recv_tail l)) as [|_]; [lia|].
  destruct (Z.ltb_spec s (recv_head l)) as [|_]; [lia|]. cbn [andb fst snd] in Hp. cbn [andb].
  destruct (advance_old_ok (Z.to_nat (recv_head l - recv_tail l)) now l (ro_order _ _ Hr) (ro_size _ _ Hr)) as (Hm1 & H1 & H2 & H3 & H4 & _).
  set (l1 := advance_old _ now l) in *. destruct (Z.leb_spec (recv_head l1) s) as [_|]; [|lia].
  assert (Hok1 : receiver_ok del l1).
  { destruct Hr. split; try done; try lia; rewrite ?H1; try done. intros i Hi. rewrite H4 by lia. apply ro_cells. lia. }
  destruct (extend_ok del s l1 Hok1) as (Hm2 & Hf2 & H5 & H6 & _ & (m & H7 & H8 & H9) & _); [unfold nacks_fit; by rewrite H3|lia|lia|].
  cbn zeta in *. set (l2 := add_lost _ _ _) in *.
  assert (Hm : Z.of_nat m = s - recv_head l).
  { rewrite H1 in *. destruct H9 as [->|H9]; [done|]. rewrite H7, H3, Hnone, app_nil_l, length_seqZ in H9.
    unfold sizeof_packet_body, sizeof_udp_header, sizeof_rt_seq in H9. lia. }
  assert (Hnb : nack_buff l2 = seqZ (recv_head l) (s - recv_head l)) by (rewrite H7, H3, Hnone, H1, Hm; done).
  destruct Hp as (Hm' & _ & _ & _ & (_ & _ & Hr')).
  rewrite bool_decide_eq_false_2 in * by (rewrite Hnb; intros Hx; apply (f_equal length) in Hx; rewrite length_seqZ in Hx; cbn [length] in Hx; lia).
  eexists. split; [done|]. split; [exact Hnb|]. split; [by destruct Hm' as [[] _]|exact Hr'].
Qed.

(** Receiving a request does not matter to the history. *)
Lemma clean_loop_request req q now n : forall l l',
  clean_loop n now l = Ret l' -> clean_loop n now (set_retransm req q l) = Ret (set_retransm req q l').
Proof.
  induction n as [|n IH]; intros l l'; cbn [clean_loop]; [by intros [= ->]|].
  cbn [head tail set_retransm]. change (hcell (set_retransm req q l) (tail l)) with (hcell l (tail l)). destruct (_ && _); [|by intros [= ->]].
  unfold drop_tail. cbn [tail set_retransm]. change (hcell (set_retransm req q l) (tail l)) with (hcell l (tail l)).
  destruct (h_buff _) as [d|]; cbn [or_else mbind outcome_bind]; [|done]. intros Hcl. rewrite <- (IH _ _ Hcl). done.
Qed.

(** C22: recovery of a gap of at most 176 packets.  When packet [s] arrives, no
    request is pending, and [h] to [s - 1] with [s - h <= 176] were skipped, the
    negative acknowledgement asks for exactly those; the other end, if it still
    has them as recent packets and has the tokens, resends exactly those as they
    were sent; and each of them that arrives before its number leaves the window
    of the receiver is handed on.  (Of a longer gap the request has no room for the
    last packets, and they are never asked for.) *)
Theorem rt_loss_recovered a b now data now' now'' s :
  rt_reachable (a, b) -> nack_buff (e_link b) = [] ->
  RT_Data s data ∈ wire (e_link a) -> sizeof_udp_header <= Z.of_nat (length data) + sizeof_rt_seq ->
  recv_head (e_link b) < s -> s - recv_head (e_link b) <= 176 ->
  (forall i, recv_head (e_link b) <= i < s -> tail (e_link a) <= i /\ cell_age now' (h_time (hcell (e_link a) i)) <= HISTORY_TIME) ->
  RT_RETRANSM_TOK * (s - recv_head (e_link b)) <= bucket (e_link a) ->
  exists b1 a2, Process_RT_UDP_data_packet now s data (e_link b) = (Some data, b1) /\
    let lost := seqZ (recv_head (e_link b)) (s - recv_head (e_link b)) in
    let b2 := Send_RT_Nack true b1 in
    wire b2 = wire (e_link b) ++ [RT_Nack lost] /\
    Send_RT_Retransm now' (fun _ => true) (Process_RT_nack_packet lost (e_link a)) = Ret a2 /\
    wire a2 = wire (e_link a) ++ ((fun i => RT_Data i (default [] (e_log a !! Z.to_nat i))) <$> lost) /\
    forall i, i ∈ lost -> recv_tail b2 <= i -> sizeof_udp_header <= Z.of_nat (length (default [] (e_log a !! Z.to_nat i))) + sizeof_rt_seq ->
      (Process_RT_UDP_data_packet now'' i (default [] (e_log a !! Z.to_nat i)) b2).1 = e_log a !! Z.to_nat i.
Proof.
  intros H Hnone Hs Hlen Hgap Hfew Hrecent Htok.
  destruct (rt_reachable_ok _ H) as [[Hsnd Hw _ _ _ _ _] [_ _ _ Hr _ _ _] _ _]. cbn [fst snd] in *.
  destruct (Hw s data Hs) as [Hs0 Hlog]. pose proof (lookup_lt_Some _ _ _ Hlog) as Hslt. pose proof Hsnd as [Hh Ho _ Hwd _]. pose proof (ro_order _ _ Hr).
  destruct (process_skips (e_del b).*1 now s data (e_link b) Hr Hnone Hlen Hgap Hfew ltac:(lia)) as (b1 & Hp & Hnb & Hwire & Hr').
  destruct (clean_loop_ok (e_log a) now' (Z.to_nat (head (e_link a) - tail (e_link a))) (e_link a) Hsnd) as (a1 & Hcl & Hsnd1 & _ & Ha1 & Ha2 & Ha3 & Ha4 & _).
  set (lost := seqZ (recv_head (e_link b)) (s - recv_head (e_link b))) in *.
  destruct (resend_all (e_log a) lost (set_retransm (Some lost) true a1)) as (a3 & Hre & Hwa).
  { destruct Hsnd1. by split. }
  { intros i Hi%elem_of_seqZ. cbn. destruct (Hrecent i ltac:(lia)) as [Hti Hage].
    destruct (clean_loop_keeps _ _ i _ _ _ Hsnd Hcl ltac:(lia) Hage) as [? _]. lia. }
  { cbn. rewrite Ha3. unfold lost. rewrite length_seqZ. lia. }
  exists b1, (set_retransm None false a3). split; [done|]. cbn zeta. split_and!.
  - unfold Send_RT_Nack. cbn. by rewrite Hnb, Hwire.
  - unfold Send_RT_Retransm, Clean_RT_history, Process_RT_nack_packet. cbn [retransm_buff head tail set_retransm].
    rewrite (clean_loop_request _ _ _ _ _ _ Hcl). cbn [mbind outcome_bind]. rewrite Hre. done.
  - cbn. rewrite Hwa. cbn. by rewrite Ha4.
  - intros i Hi%elem_of_seqZ Hti Hli. destruct (lookup_lt_is_Some_2 (e_log a) (Z.to_nat i)) as [x Hx]; [lia|]. rewrite Hx in *. cbn [from_option id] in *.
    assert (Hr2 : receiver_ok ((e_del b).*1 ++ [s]) (Send_RT_Nack true b1)) by (destruct Hr'; by split).
    destruct (process_ok _ now'' i x _ Hr2 ltac:(reflexivity) ltac:(lia) ltac:(lia)) as (_ & _ & _ & _ & Hpi).
    destruct (Process_RT_UDP_data_packet now'' i x (Send_RT_Nack true b1)).1 as [d|]; [by destruct Hpi as [-> _]|].
    exfalso. destruct Hpi as [_ [Hsmall|[Hlt|Hin]]]; [lia|lia|].
    apply elem_of_app in Hin as [Hin|Hin%list_elem_of_singleton]; [|lia]. apply (ro_del _ _ Hr) in Hin. lia.
Qed.

Module ExR.
Definition t0 : sp_time := mk_time 10 0.
Definition body (i : Z) : list Z := repeat i 24.
Definition fwd (e : rt_end) (i : Z) : rt_end :=
  match Forward_RT_UDP_Data t0 true Neighbor (body i) (e_link e) with
  | Ret (_, _, l) => mk_rt_end l (e_log e ++ [body i]) (e_del e) | _ => e end.
Definition a1 : rt_end := Eval vm_compute in fwd new_end 1.
Definition a2 : rt_end := Eval vm_compute in fwd a1 2.
Definition a3 : rt_end := Eval vm_compute in fwd a2 3.
Definition a4 : rt_end := Eval vm_compute in fwd a3 4.
(** The first packet arrives, the next two are lost. *)
Definition b1 : rt_end := Eval vm_compute in
  mk_rt_end (Process_RT_UDP_data_packet t0 0 (body 1) new_rt).2 [] [(0, body 1)].

Lemma rt_ex_reachable : rt_reachable (a4, b1).
Proof.
  unfold rt_reachable. eapply rtc_l; [apply RStepA, (RForward _ t0 true (body 1) new_end 2 (e_link a1)); [cbn; lia|vm_compute; reflexivity]|].
  eapply rtc_l; [apply RStepA, (RForward _ t0 true (body 2) a1 2 (e_link a2)); [cbn; lia|vm_compute; reflexivity]|].
  eapply rtc_l; [apply RStepA, (RForward _ t0 true (body 3) a2 2 (e_link a3)); [cbn; lia|vm_compute; reflexivity]|].
  eapply rtc_l; [apply RStepA, (RForward _ t0 true (body 4) a3 2 (e_link a4)); [cbn; lia|vm_compute; reflexivity]|].
  apply rtc_once, RStepB. apply (RReceive _ t0 0 (body 1) new_end (Some (body 1)) (e_link b1)); [left|vm_compute; reflexivity].
Qed.
End ExR.

Lemma rt_link_at_most_once_witness : NoDup (e_del ExR.b1).*1 /\ e_del ExR.b1 = [(0, ExR.body 1)].
Proof. split; [apply (rt_link_at_most_once ExR.a4 ExR.b1 ExR.rt_ex_reachable)|reflexivity]. Defined.

Lemma rt_retransmission_budget_witness : 2 * data_count (wire (e_link ExR.a4)) <= 12.
Proof. exact (proj1 (rt_retransmission_budget ExR.a4 ExR.b1 ExR.rt_ex_reachable)). Defined.

(** Packet 3 arrives: 1 and 2 are asked for and resent. *)
Lemma rt_loss_recovered_witness :
  exists b1 a2, Process_RT_UDP_data_packet ExR.t0 3 (ExR.body 4) (e_link ExR.b1) = (Some (ExR.body 4), b1) /\
    wire a2 = wire (e_link ExR.a4) ++ [RT_Data 1 (ExR.body 2); RT_Data 2 (ExR.body 3)].
Proof.
  destruct (rt_loss_recovered ExR.a4 ExR.b1 ExR.t0 (ExR.body 4) ExR.t0 ExR.t0 3) as (b & a & Hp & _ & _ & Hw & _).
  - exact ExR.rt_ex_reachable.
  - reflexivity.
  - vm_compute. do 3 right. left.
  - vm_compute. discriminate.
  - vm_compute. reflexivity.
  - vm_compute. discriminate.
  - intros i Hi. change (recv_head (e_link ExR.b1)) with 1 in Hi. assert (i = 1 \/ i = 2) as [-> | ->] by lia; vm_compute; split; discriminate.
  - vm_compute. discriminate.
  - exists b, a. split; [exact Hp|exact Hw].
Defined.
