(* ===== verification/ITFrag.v ===== *)
(** * ITFrag: fragments on the intrusion-tolerant link

    [Pack_Fragments_Into_Packets_IT] cuts the message a link is given into
    packets as far as its window has room, and [Build_Message_From_Fragments_IT]
    puts the message together again at the other end (daemon/intrusion_tol_udp.c);
    [Calculate_Packets_In_Message] (daemon/protocol.c) predicts the number of
    packets.  A message is the list of its elements without the packet header at
    index 0.  The data of a packet is a list of bytes: each fragment is followed
    by its [fragment_header], on a little-endian machine.  [link_size] is
    [Link_Header_Size(INTRUSION_TOL_LINK)], which depends on the ciphers of the
    configuration.  Allocation succeeds. *)
From stdpp Require Import base list gmap numbers option.
From Stdlib Require Import ZArith Lia.
From S2P Require Import Prelude Events NetTypes.
#[local] Open Scope Z_scope.

Definition MAX_SCATTER_ELEMENTS : Z := 100.
(** The size of a [sys_scatter] where the system does not define it. *)
Definition SPU_ARCH_SCATTER_SIZE : Z := 1024.
Definition MAX_PACKET_SIZE : Z := 1472.
Definition MAX_SEND_ON_LINK : Z := 500.

Definition len (f : list Z) : Z := Z.of_nat (length f).

(** [frag_length], [frag_idx], [frag_total] as bytes. *)
Definition fragment_header (l idx total : Z) : list Z := [l mod 256; l / 256; idx; total].

(** ** Sending *)

(** [IT_Buffer_Cell]; [c_pkt]: the elements after the packet header, fragments
    each with its header; [c_live]: there is a packet and it was not released. *)
Record out_cell := mk_cell
  { c_live : bool; c_pkt : list (list Z); c_len : Z; c_time : sp_time; c_resent : bool; c_nacked : bool }.
Definition no_cell : out_cell := mk_cell false [] 0 (mk_time 0 0) false false.

(** The outbound part of [Int_Tol_Data] that packing reads and writes; [rnd] and
    [rnd2] stand for the calls of [rand] for a sequence number. *)
Record it_out := mk_out
  { out_head_seq : Z; out_tail_seq : Z; outgoing : gmap Z out_cell;
    out_nonce : gmap Z Z; out_nonce_digest : gmap Z Z;
    out_message : option (list (list Z)); out_frag_idx : Z; out_frag_total : Z;
    unique_packets : Z; loss_event : bool }.

(** The inner loop: fragments from [idx] on while they fit; [data_len] is the
    length so far.  The fragments left bound the loop: C tests the 8-bit index
    only, which agrees with it below 255 fragments (a message has at most 99). *)
Fixpoint fill_packet (link_size total : Z) (rest : list (list Z)) (idx data_len : Z) (els : list (list Z)) : list (list Z) * Z * Z :=
  match rest with
  | [] => (els, data_len, idx)
  | f :: rest =>
      if (idx <=? total) && (data_len + len f + link_size + sizeof_fragment_header <=? MAX_PACKET_SIZE)
      then fill_packet link_size total rest (u8 (idx + 1)) (u16 (u16 (data_len + len f) + sizeof_fragment_header))
             (els ++ [f; fragment_header (len f) idx total])
      else (els, data_len, idx)
  end.

(** One packet is put at the head of the window. *)
Definition pack_one (link_size trigger : Z) (rnd rnd2 : Z -> Z) (msg : list (list Z)) (o : it_out) : it_out :=
  let '(els, data_len, idx) := fill_packet link_size (out_frag_total o) (drop (Z.to_nat (out_frag_idx o - 1)) msg) (out_frag_idx o) 0 [] in
  let seq := out_head_seq o in
  let index := seq mod MAX_SEND_ON_LINK in
  let nonce := Z.lor (u64 (Z.shiftl (rnd seq) 32)) (rnd2 seq) in
  let digest := Z.lxor nonce (default 0 (out_nonce_digest o !! (u64 (seq - 1) mod MAX_SEND_ON_LINK))) in
  let unique := u32 (unique_packets o + 1) in
  let cell := mk_cell true els data_len (c_time (default no_cell (outgoing o !! index))) false false in
  mk_out (u64 (seq + 1)) (out_tail_seq o) (<[index := cell]> (outgoing o))
    (<[index := nonce]> (out_nonce o)) (<[index := digest]> (out_nonce_digest o))
    (if out_frag_total o <? idx then None else Some msg) idx (out_frag_total o)
    unique (loss_event o || (trigger <=? unique)).

(** At most [n] packets; the window bounds their number. *)
Fixpoint pack_loop (link_size trigger : Z) (rnd rnd2 : Z -> Z) (n : nat) (o : it_out) : it_out :=
  match n with
  | O => o
  | S n =>
      match out_message o with
      | Some msg =>
          if u64 (out_head_seq o - out_tail_seq o) <? MAX_SEND_ON_LINK
          then pack_loop link_size trigger rnd rnd2 n (pack_one link_size trigger rnd rnd2 msg o) else o
      | None => o
      end
  end.

Definition BUFF_OK : Z := 3.
Definition BUFF_DROP : Z := 5.

(** [mode] is [Conf_IT_Link.Intrusion_Tolerance_Mode], [control] whether the leg
    has a control link, [None] a link without [Int_Tol_Data]. *)
Definition Pack_Fragments_Into_Packets_IT (link_size trigger mode : Z) (rnd rnd2 : Z -> Z) (control : bool)
    (itdata : option it_out) : Z * option it_out :=
  if (mode =? 0) && negb control then (BUFF_DROP, itdata)
  else
    match itdata with
    | None => (BUFF_DROP, None)
    | Some o => (BUFF_OK, Some (pack_loop link_size trigger rnd rnd2 (Z.to_nat MAX_SEND_ON_LINK) o))
    end.

(** The number of packets and the space left in the last one. *)
Definition Calculate_Packets_In_Message (link_size : Z) (msg : list (list Z)) : Z * Z :=
  let '(packets, curr_pkt_len) :=
    foldl (fun '(packets, curr) f =>
             if MAX_PACKET_SIZE - link_size <? curr + len f + sizeof_fragment_header
             then (u16 (packets + 1), u16 (len f + sizeof_fragment_header))
             else (packets, u16 (curr + (len f + sizeof_fragment_header)))) (1, 0) msg in
  (packets, u16 (MAX_PACKET_SIZE - link_size - curr_pkt_len)).

(** ** Receiving *)

(** The message under construction: whether its packet header was set up, its
    elements behind that, the next fragment expected, the number of fragments (0
    for a new message), and whether its elements are still referenced. *)
Record it_in := mk_in { has_header : bool; elems : list (list Z); frag_idx : Z; frag_total : Z; live : bool }.
Definition fresh_in : it_in := mk_in false [] 1 0 true.
Definition num_elements (m : it_in) : Z := (if has_header m then 1 else 0) + Z.of_nat (length (elems m)).

(** A byte of the packet, or of the memory in front of it ([before], nearest
    byte first). *)
Definition byte_at (before buff : list Z) (pos : Z) : outcome Z :=
  or_else (if 0 <=? pos then buff !! Z.to_nat pos else before !! Z.to_nat (-1 - pos)) Fault.

Definition read_header (before buff : list Z) (pos : Z) : outcome (Z * Z * Z) :=
  b0 ← byte_at before buff pos; b1 ← byte_at before buff (pos + 1);
  idx ← byte_at before buff (pos + 2); total ← byte_at before buff (pos + 3);
  Ret (b0 + 256 * b1, idx, total).

(** Where the fragments lie: position of the header and length, by index. *)
Record scan := mk_scan { s_total : Z; s_array_idx : Z; s_max : Z; s_addr : gmap Z (Z * Z) }.

(** The packet from its end to its start; [inl]: the error returned with the
    total as it is by then. *)
Fixpoint scan_packet (n : nat) (before buff : list Z) (processed : Z) (s : scan) : outcome (Z * Z + scan) :=
  match n with
  | O => Fault
  | S n =>
      if processed <? len buff then
        let pos := len buff - processed - sizeof_fragment_header in
        '(frag_length, idx, total) ← read_header before buff pos;
        if (total =? 0) || (MAX_SCATTER_ELEMENTS - 1 <? total) then Ret (inl (-1, s_total s))
        else
          let t := if s_total s =? 0 then total else s_total s in
          if negb (t =? total) then Ret (inl (-2, t))
          else if (idx =? 0) || (t <? idx) then Ret (inl (-3, t))
          else
            let '(array_idx, mx) := if s_array_idx s =? 0 then (idx, idx) else (s_array_idx s, s_max s) in
            if negb (idx =? array_idx) then Ret (inl (-4, t))
            else
              let s := mk_scan t (u8 (array_idx - 1)) mx (<[idx := (pos, frag_length)]> (s_addr s)) in
              let processed := processed + (sizeof_fragment_header + frag_length) in
              if len buff <? processed then Ret (inl (-5, t))
              else scan_packet n before buff processed s
      else Ret (inr s)
  end.

(** The fragments in increasing order; [None]: one that is not expected. *)
Fixpoint append_frags (n : nat) (buff : list Z) (s : scan) (a : Z) (m : it_in) : outcome (option it_in) :=
  match n with
  | O => Ret (Some m)
  | S n =>
      if negb (a =? frag_idx m) then Ret None
      else
        '(pos, l) ← or_else (s_addr s !! a) Fault;
        if num_elements m <? SPU_ARCH_SCATTER_SIZE then
          append_frags n buff s (u8 (a + 1))
            (mk_in (has_header m) (elems m ++ [take (Z.to_nat l) (drop (Z.to_nat (pos - l)) buff)]) (u8 (frag_idx m + 1)) (frag_total m) (live m))
        else Fault
  end.

(** The return value and the message afterwards.  A fragment that is not
    expected gives up the references of all elements, the packet header among
    them, but leaves them in the message; giving them up a second time fails the
    assertion of [dec_ref_cnt] on a freed buffer. *)
Definition Build_Message_From_Fragments_IT (before buff : list Z) (m : it_in) : outcome (Z * it_in) :=
  r ← scan_packet (S (length buff)) before buff 0 (mk_scan (frag_total m) 0 0 ∅);
  match r with
  | inl (e, t) => Ret (e, mk_in (has_header m) (elems m) (frag_idx m) t (live m))
  | inr s =>
      let m := mk_in true (elems m) (frag_idx m) (s_total s) (live m) in
      r ← append_frags (Z.to_nat (s_max s - s_array_idx s)) buff s (u8 (s_array_idx s + 1)) m;
      match r with
      | None => if live m then Ret (-6, mk_in true (elems m) (frag_idx m) (frag_total m) false) else Fault
      | Some m =>
          if num_elements m =? frag_idx m then Ret (if frag_idx m =? frag_total m + 1 then 1 else 0, m)
          else Fault
      end
  end.
