(* ===== verification/ITFragProof.v ===== *)
(** * ITFragProof: how a message is cut into packets and put together

    [groups] is the greedy division of a message into packets; [todo] the packets
    a link still has to make of its message.  Each run of
    [Pack_Fragments_Into_Packets_IT] puts the next packets of [todo] into the
    window; [Build_Message_From_Fragments_IT] appends the fragments of a packet
    to the message. *)
From stdpp Require Import base list gmap numbers option.
From Stdlib Require Import ZArith Lia.
From S2P Require Import Prelude Events NetTypes ITFrag.
#[local] Open Scope Z_scope.

Lemma len_nonneg f : 0 <= len f.
Proof. unfold len. lia. Qed.

Lemma len_app f g : len (f ++ g) = len f + len g.
Proof. unfold len. rewrite length_app. lia. Qed.

Lemma u8_small x : 0 <= x < 2 ^ 8 -> u8 x = x.
Proof. apply wrapu_small. Qed.

(** ** The division of a message *)
Section Groups.
Context (ls : Z).

Definition fits (cl : Z) (f : list Z) : bool := cl + len f + ls + sizeof_fragment_header <=? MAX_PACKET_SIZE.

(** The fragments of the packet being filled, [cl] bytes long so far, and the rest. *)
Fixpoint take_group (cl : Z) (fs : list (list Z)) : list (list Z) * list (list Z) :=
  match fs with
  | [] => ([], [])
  | f :: r =>
      if fits cl f then (f :: (take_group (cl + len f + sizeof_fragment_header) r).1, (take_group (cl + len f + sizeof_fragment_header) r).2)
      else ([], fs)
  end.

Fixpoint groups_from (cur : list (list Z)) (cl : Z) (fs : list (list Z)) : list (list (list Z)) :=
  match fs with
  | [] => [cur]
  | f :: r =>
      if fits cl f then groups_from (cur ++ [f]) (cl + len f + sizeof_fragment_header) r
      else cur :: groups_from [f] (len f + sizeof_fragment_header) r
  end.

Definition groups (msg : list (list Z)) : list (list (list Z)) := groups_from [] 0 msg.

(** Each fragment fits into a packet of its own. *)
Definition all_fit (msg : list (list Z)) : Prop := Forall (fun f => fits 0 f = true) msg.

Lemma take_group_app cl fs : (take_group cl fs).1 ++ (take_group cl fs).2 = fs.
Proof.
  revert cl. induction fs as [|f r IH]; intros cl; [done|]. cbn. destruct (fits cl f); [|done]. cbn. by rewrite IH.
Qed.

Lemma groups_from_take cur cl fs :
  all_fit fs ->
  groups_from cur cl fs =
    (cur ++ (take_group cl fs).1) :: match (take_group cl fs).2 with [] => [] | r => groups r end.
Proof.
  revert cur cl. induction fs as [|f r IH]; intros cur cl Hfit; [cbn; by rewrite app_nil_r|].
  inversion_clear Hfit as [|? ? Hf Hr]. cbn. destruct (fits cl f).
  - rewrite IH by done. cbn. by rewrite <- app_assoc.
  - cbn. rewrite app_nil_r. unfold groups. cbn. by rewrite Hf.
Qed.

Lemma concat_groups_from cur cl fs : concat (groups_from cur cl fs) = cur ++ fs.
Proof.
  revert cur cl. induction fs as [|f r IH]; intros cur cl; cbn; [done|].
  destruct (fits cl f); cbn; rewrite IH; [by rewrite <- app_assoc|done].
Qed.

Lemma concat_groups msg : concat (groups msg) = msg.
Proof. apply concat_groups_from. Qed.

Lemma groups_from_nonempty cur cl fs : cur <> [] -> Forall (fun g => g <> []) (groups_from cur cl fs).
Proof.
  revert cur cl. induction fs as [|f r IH]; intros cur cl Hc; cbn; [by repeat constructor|].
  destruct (fits cl f); [apply IH; by destruct cur|]. constructor; [done|by apply IH].
Qed.

Lemma groups_nonempty msg : all_fit msg -> msg <> [] -> Forall (fun g => g <> []) (groups msg).
Proof.
  destruct msg as [|f r]; [done|]. intros Hfit _. inversion_clear Hfit as [|? ? Hf Hr]. unfold groups. cbn. rewrite Hf. by apply groups_from_nonempty.
Qed.

(** No more packets than fragments. *)
Lemma groups_from_length cur cl fs : (length (groups_from cur cl fs) <= S (length fs))%nat.
Proof.
  revert cur cl. induction fs as [|f r IH]; intros cur cl; cbn; [lia|].
  destruct (fits cl f); cbn; [etrans; [apply IH|lia]|]. apply le_n_S, IH.
Qed.

(** The bytes of a packet stay within its size. *)
Fixpoint group_len (g : list (list Z)) : Z :=
  match g with [] => 0 | f :: g => len f + sizeof_fragment_header + group_len g end.

Lemma group_len_nonneg g : 0 <= group_len g.
Proof. induction g as [|f g IH]; cbn; [lia|]. unfold sizeof_fragment_header. pose proof (len_nonneg f). lia. Qed.

Lemma group_len_app g h : group_len (g ++ h) = group_len g + group_len h.
Proof. induction g as [|f g IH]; cbn; [lia|]. lia. Qed.

Lemma take_group_len cl fs :
  cl + ls <= MAX_PACKET_SIZE -> cl + group_len (take_group cl fs).1 + ls <= MAX_PACKET_SIZE.
Proof.
  revert cl. induction fs as [|f r IH]; intros cl Hcl; cbn; [lia|]. unfold fits. destruct (Z.leb_spec (cl + len f + ls + sizeof_fragment_header) MAX_PACKET_SIZE); cbn; [|lia].
  specialize (IH (cl + len f + sizeof_fragment_header)). lia.
Qed.

End Groups.

(** ** Packing *)

(** The elements of the packet of a group whose first fragment has index [i]. *)
Fixpoint frag_els (total i : Z) (g : list (list Z)) : list (list Z) :=
  match g with [] => [] | f :: g => f :: fragment_header (len f) i total :: frag_els total (i + 1) g end.

Fixpoint packets_of (total i : Z) (gs : list (list (list Z))) : list (list (list Z)) :=
  match gs with [] => [] | g :: gs => frag_els total i g :: packets_of total (i + Z.of_nat (length g)) gs end.

Lemma frag_els_len total i g : len (concat (frag_els total i g)) = group_len g.
Proof.
  revert i. induction g as [|f g IH]; intros i; [done|]. cbn [frag_els concat group_len]. rewrite !len_app, IH.
  unfold fragment_header, sizeof_fragment_header. unfold len at 2. cbn [length]. lia.
Qed.

Lemma length_packets_of total i gs : length (packets_of total i gs) = length gs.
Proof. revert i. induction gs as [|g gs IH]; intros i; cbn; [done|]. by rewrite IH. Qed.

(** The inner loop takes the next group. *)
Lemma fill_packet_take ls total rest idx cl els :
  0 <= ls -> 0 <= cl -> cl + ls <= MAX_PACKET_SIZE -> 0 <= idx -> idx + Z.of_nat (length rest) = total + 1 -> total < 255 ->
  let g := (take_group ls cl rest).1 in
  fill_packet ls total rest idx cl els = (els ++ frag_els total idx g, cl + group_len g, idx + Z.of_nat (length g)).
Proof.
  intros Hls. revert idx cl els. induction rest as [|f r IH]; intros idx cl els Hcl Hsz Hi Htot H255; cbn zeta.
  - cbn. rewrite app_nil_r. f_equal; [f_equal|]; lia.
  - cbn [fill_packet take_group]. unfold fits. cbn [length] in Htot. rewrite (proj2 (Z.leb_le idx total)) by lia. cbn [andb].
    destruct (Z.leb_spec (cl + len f + ls + sizeof_fragment_header) MAX_PACKET_SIZE) as [Hle|]; cbn [fst snd].
    + pose proof (len_nonneg f). unfold MAX_PACKET_SIZE, sizeof_fragment_header in *.
      rewrite u8_small, !u16_small by (rewrite ?u16_small; lia). rewrite IH by lia. cbn [frag_els group_len length].
      rewrite <- app_assoc. unfold sizeof_fragment_header. f_equal; [f_equal|]; lia || done.
    + cbn. rewrite app_nil_r. f_equal; [f_equal|]; lia.
Qed.

Section Packing.
Context (ls trigger : Z) (rnd rnd2 : Z -> Z) (Hls : 0 <= ls <= MAX_PACKET_SIZE).

(** The window and the message of a link as packing leaves them: at most 99
    fragments, each of which fits, and sequence numbers that do not wrap. *)
Record out_ok (o : it_out) : Prop := {
  oo_tail : 1 <= out_tail_seq o <= out_head_seq o;
  oo_room : out_head_seq o <= out_tail_seq o + MAX_SEND_ON_LINK;
  oo_msg : forall msg, out_message o = Some msg ->
    out_frag_total o = Z.of_nat (length msg) /\ out_frag_total o < MAX_SCATTER_ELEMENTS /\
    1 <= out_frag_idx o <= out_frag_total o + 1 /\ all_fit ls msg }.

(** The packets still to be made of the message. *)
Definition todo (o : it_out) : list (list (list Z)) :=
  match out_message o with
  | None => []
  | Some msg => packets_of (out_frag_total o) (out_frag_idx o) (groups ls (drop (Z.to_nat (out_frag_idx o - 1)) msg))
  end.

Lemma todo_nil o : todo o = [] <-> out_message o = None.
Proof.
  unfold todo. destruct (out_message o) as [msg|]; [|done]. split; [|done]. intros H%(f_equal length).
  rewrite length_packets_of in H. unfold groups in H. exfalso. revert H. generalize (@nil (list Z)) 0.
  induction (drop _ msg) as [|f r IH]; intros cur cl; cbn; [done|]. destruct (fits ls cl f); [apply IH|done].
Qed.

Lemma all_fit_drop n msg : all_fit ls msg -> all_fit ls (drop n msg).
Proof. apply Forall_drop. Qed.

(** One packet: the first one of [todo], at the head of the window. *)
Lemma pack_one_spec msg o :
  out_ok o -> out_message o = Some msg -> out_head_seq o < out_tail_seq o + MAX_SEND_ON_LINK -> out_head_seq o + 1 < 2 ^ 64 ->
  let o' := pack_one ls trigger rnd rnd2 msg o in
  exists cell, outgoing o' = <[out_head_seq o mod MAX_SEND_ON_LINK := cell]> (outgoing o) /\
    todo o = c_pkt cell :: todo o' /\ c_live cell = true /\ c_len cell = len (concat (c_pkt cell)) /\
    out_ok o' /\ out_head_seq o' = out_head_seq o + 1 /\ out_tail_seq o' = out_tail_seq o /\
    exists nonce, out_nonce o' = <[out_head_seq o mod MAX_SEND_ON_LINK := nonce]> (out_nonce o) /\
      out_nonce_digest o' = <[out_head_seq o mod MAX_SEND_ON_LINK :=
        Z.lxor nonce (default 0 (out_nonce_digest o !! ((out_head_seq o - 1) mod MAX_SEND_ON_LINK)))]> (out_nonce_digest o).
Proof.
  intros [Ht Hr Hm] Hmsg Hroom H64. specialize (Hm _ Hmsg) as (Htot & H99 & Hidx & Hfit). unfold pack_one.
  unfold MAX_SCATTER_ELEMENTS in *. set (i := out_frag_idx o) in *. set (rest := drop (Z.to_nat (i - 1)) msg).
  assert (Hlen : i + Z.of_nat (length rest) = out_frag_total o + 1) by (unfold rest; rewrite length_drop; lia).
  rewrite fill_packet_take by lia. rewrite app_nil_l.
  set (g := (take_group ls 0 rest).1). cbn zeta. set (r := (take_group ls 0 rest).2).
  assert (Hsplit : g ++ r = rest) by apply take_group_app.
  assert (Hlg : Z.of_nat (length g) + Z.of_nat (length r) = Z.of_nat (length rest)) by (rewrite <- Hsplit, length_app; lia).
  assert (Hrest : drop (Z.to_nat (i + Z.of_nat (length g) - 1)) msg = r).
  { replace (Z.to_nat (i + Z.of_nat (length g) - 1)) with (Z.to_nat (i - 1) + length g)%nat by lia.
    rewrite <- drop_drop. fold rest. rewrite <- Hsplit. apply drop_app_length. }
  eexists. split; [reflexivity|]. cbn [c_pkt c_len]. rewrite frag_els_len. split.
  - unfold todo at 1. rewrite Hmsg. fold i rest. unfold groups. rewrite groups_from_take by apply all_fit_drop, Hfit.
    fold g r. cbn [app packets_of]. f_equal. unfold todo. cbn [out_message out_frag_total out_frag_idx].
    destruct (Z.ltb_spec (out_frag_total o) (i + Z.of_nat (length g))) as [Hlt|Hge].
    + assert (r = []) as -> by (apply nil_length_inv; lia). done.
    + rewrite Hrest. destruct r as [|f r]; [cbn in Hlg; lia|]. done.
  - split; [done|]. split; [lia|]. split; [|split; [cbn; rewrite u64_small by lia; lia|split; [done|]]].
    2: { eexists. split; [reflexivity|]. cbn. by rewrite (u64_small (out_head_seq o - 1)) by lia. }
    repeat split; try done; cbn.
    all: rewrite ?u64_small by lia; try lia.
    all: cbn [out_message] in *; match goal with H : (if ?b then None else Some _) = Some _ |- _ => destruct b; [done|injection H as <-] end; done.
Qed.

(** The seq numbers of the window that hold the packets [ps] from [from] on. *)
Definition holds (o : it_out) (from : Z) (ps : list (list (list Z))) : Prop :=
  forall j p, ps !! j = Some p ->
    exists cell, outgoing o !! ((from + Z.of_nat j) mod MAX_SEND_ON_LINK) = Some cell /\ c_pkt cell = p /\ c_len cell = len (concat p).

(** A run of the loop: the next packets of [todo], until the message is done or
    the window is full; the cells in use before are left alone. *)
Lemma pack_loop_spec n o :
  out_ok o -> out_tail_seq o + MAX_SEND_ON_LINK < 2 ^ 64 -> out_tail_seq o + MAX_SEND_ON_LINK - out_head_seq o <= Z.of_nat n ->
  let o' := pack_loop ls trigger rnd rnd2 n o in
  exists ps, todo o = ps ++ todo o' /\ holds o' (out_head_seq o) ps /\ out_ok o' /\
    out_head_seq o' = out_head_seq o + Z.of_nat (length ps) /\ out_tail_seq o' = out_tail_seq o /\
    (forall q, out_tail_seq o <= q < out_head_seq o ->
       outgoing o' !! (q mod MAX_SEND_ON_LINK) = outgoing o !! (q mod MAX_SEND_ON_LINK)) /\
    (out_message o' = None \/ out_head_seq o' = out_tail_seq o' + MAX_SEND_ON_LINK).
Proof.
  assert (Hstop : forall o, out_ok o -> (out_message o = None \/ out_head_seq o = out_tail_seq o + MAX_SEND_ON_LINK) ->
    exists ps, todo o = ps ++ todo o /\ holds o (out_head_seq o) ps /\ out_ok o /\
      out_head_seq o = out_head_seq o + Z.of_nat (length ps) /\ out_tail_seq o = out_tail_seq o /\
      (forall q, out_tail_seq o <= q < out_head_seq o ->
         outgoing o !! (q mod MAX_SEND_ON_LINK) = outgoing o !! (q mod MAX_SEND_ON_LINK)) /\
      (out_message o = None \/ out_head_seq o = out_tail_seq o + MAX_SEND_ON_LINK)).
  { intros o' ? ?. exists []. cbn [length app]. split_and!; try done; lia. }
  revert o. induction n as [|n IH]; intros o Hok H64 Hn; pose proof (oo_tail _ Hok) as Ht; pose proof (oo_room _ Hok) as Hr.
  { cbn zeta; cbn [pack_loop]. apply Hstop; [done|]. right. lia. }
  cbn [pack_loop]. destruct (out_message o) as [msg|] eqn:Hmsg; [|by apply Hstop; auto].
  unfold MAX_SEND_ON_LINK in *.
  rewrite u64_small by lia. destruct (Z.ltb_spec (out_head_seq o - out_tail_seq o) 500) as [Hlt|Hge]; [|apply Hstop; [done|right; lia]].
  destruct (pack_one_spec msg o) as (cell & Hout & Htodo & _ & Hlen & Hok1 & Hhead & Htail & _); try done; try (unfold MAX_SEND_ON_LINK; lia).
  set (o1 := pack_one ls trigger rnd rnd2 msg o) in *. unfold MAX_SEND_ON_LINK in Hout.
  destruct (IH o1) as (ps & Htd & Hh & Hok' & Hhd & Htl & Hsame & Hend); try done; try lia.
  exists (c_pkt cell :: ps). rewrite Htodo, Htd. cbn [length].
  assert (Hfirst : outgoing (pack_loop ls trigger rnd rnd2 n o1) !! (out_head_seq o mod 500) = Some cell).
  { rewrite Hsame by lia. rewrite Hout. apply lookup_insert_eq. }
  split_and!; try done; try lia.
  - intros [|j] p Hp; cbn in Hp.
    + simplify_eq. exists cell. rewrite Z.add_0_r. done.
    + destruct (Hh j p Hp) as (c & Hc & Hcp). exists c. rewrite <- Hc. split; [|done]. f_equal. unfold MAX_SEND_ON_LINK. f_equal. lia.
  - intros q Hq. rewrite Hsame by lia. rewrite Hout. apply lookup_insert_ne. intros He.
    assert (out_head_seq o - q = 500 * (out_head_seq o / 500 - q / 500)) by
      (pose proof (Z.div_mod (out_head_seq o) 500); pose proof (Z.div_mod q 500); lia). lia.
Qed.
End Packing.
