(* ===== verification/ITBuildProof.v ===== *)
(** * ITBuildProof: putting a message together from its packets

    [Build_Message_From_Fragments_IT] on the bytes of a packet as packing makes
    them, and on arbitrary bytes. *)
From stdpp Require Import base list gmap numbers option.
From Stdlib Require Import ZArith Lia.
From S2P Require Import Prelude Events NetTypes ITFrag ITFragProof.
#[local] Open Scope Z_scope.

Definition packet_bytes (total i : Z) (g : list (list Z)) : list Z := concat (frag_els total i g).

Lemma frag_els_app total i g h :
  frag_els total i (g ++ h) = frag_els total i g ++ frag_els total (i + Z.of_nat (length g)) h.
Proof.
  revert i. induction g as [|f g IH]; intros i; cbn [app frag_els length]; [by rewrite Z.add_0_r|].
  rewrite IH. do 4 f_equal. lia.
Qed.

Lemma packet_bytes_snoc total i g f :
  packet_bytes total i (g ++ [f]) =
    packet_bytes total i g ++ f ++ fragment_header (len f) (i + Z.of_nat (length g)) total.
Proof. unfold packet_bytes. rewrite frag_els_app, concat_app. cbn [frag_els concat]. by rewrite app_nil_r. Qed.

(** ** Reading a header *)
Lemma byte_at_mid before pre h suf k b :
  h !! k = Some b -> byte_at before (pre ++ h ++ suf) (len pre + Z.of_nat k) = Ret b.
Proof.
  intros Hb. unfold byte_at, len. rewrite (proj2 (Z.leb_le _ _)) by lia.
  replace (Z.to_nat _) with (length pre + k)%nat by lia. rewrite lookup_app_r by lia.
  replace (length pre + k - length pre)%nat with k by lia. by rewrite (lookup_app_l_Some _ _ _ _ Hb).
Qed.

Lemma read_header_at before pre l idx total suf :
  read_header before (pre ++ fragment_header l idx total ++ suf) (len pre) = Ret (l, idx, total).
Proof.
  assert (H : forall k b pos, fragment_header l idx total !! k = Some b -> pos = len pre + Z.of_nat k ->
    byte_at before (pre ++ fragment_header l idx total ++ suf) pos = Ret b) by (intros k b pos Hb ->; by apply byte_at_mid).
  unfold read_header. rewrite (H 0%nat (l mod 256) (len pre)), (H 1%nat (l / 256) (len pre + 1)), (H 2%nat idx (len pre + 2)),
    (H 3%nat total (len pre + 3)) by (reflexivity || lia).
  cbn [mbind outcome_bind].
  do 3 f_equal. rewrite Z.add_comm. symmetry. by apply Z.div_mod.
Qed.

(** ** Scanning a packet of [Pack_Fragments_Into_Packets_IT] *)

(** The fragments [g], from index [a] on, are where the scan found them. *)
Definition found (buff : list Z) (addr : gmap Z (Z * Z)) (a : Z) (g : list (list Z)) : Prop :=
  forall j f, g !! j = Some f -> exists pos, addr !! (a + Z.of_nat j) = Some (pos, len f) /\
    take (Z.to_nat (len f)) (drop (Z.to_nat (pos - len f)) buff) = f.

Lemma scan_group before total i g : forall n sfx t a mx addr,
  1 <= i -> i + Z.of_nat (length g) <= total + 1 -> total < MAX_SCATTER_ELEMENTS ->
  (length g < n)%nat -> t = 0 \/ t = total -> (a = i + Z.of_nat (length g) - 1 \/ (a = 0 /\ g <> [])) ->
  let buff := packet_bytes total i g ++ sfx in
  exists addr',
    scan_packet n before buff (len sfx) (mk_scan t a mx addr) =
      Ret (inr (mk_scan (if g then t else total) (i - 1) (if a =? 0 then if g then mx else i + Z.of_nat (length g) - 1 else mx) addr')) /\
    found buff addr' i g /\ forall k, i + Z.of_nat (length g) <= k -> addr' !! k = addr !! k.
Proof.
  induction g as [|f g IH] using rev_ind; intros n sfx t a mx addr Hi Htot H99 Hn Ht Ha buff.
  - exists addr. destruct n as [|n]; [cbn in Hn; lia|]. cbn [scan_packet]. unfold buff. cbn [packet_bytes frag_els concat app].
    rewrite Z.ltb_irrefl. destruct Ha as [->|[_ ?]]; [|done]. cbn [length]. split; [|split; [by intros ??|done]].
    do 3 f_equal; [lia|]. by destruct (_ =? 0).
  - destruct n as [|n]; [lia|]. rewrite length_app in *. cbn [length] in *. unfold MAX_SCATTER_ELEMENTS in *.
    set (idx := i + Z.of_nat (length g)) in *. set (pre := packet_bytes total i g ++ f).
    assert (Hbuff : buff = pre ++ fragment_header (len f) idx total ++ sfx).
    { unfold buff, pre. rewrite packet_bytes_snoc, <- !app_assoc. done. }
    assert (Hbuff2 : buff = packet_bytes total i g ++ f ++ fragment_header (len f) idx total ++ sfx)
      by (rewrite Hbuff; unfold pre; by rewrite <- !app_assoc).
    clearbody buff. assert (Hread : read_header before buff (len pre) = Ret (len f, idx, total)) by (rewrite Hbuff; apply read_header_at).
    assert (Hlen : len buff = len pre + (sizeof_fragment_header + len sfx)) by (rewrite Hbuff, !len_app; done).
    pose proof (len_nonneg pre) as Hp. pose proof (len_nonneg (packet_bytes total i g)) as Hb.
    assert (Hpre : len pre = len (packet_bytes total i g) + len f) by apply len_app.
    cbn [scan_packet]. unfold sizeof_fragment_header in *. rewrite (proj2 (Z.ltb_lt _ _)) by lia.
    replace (len buff - len sfx - 4) with (len pre) by lia. rewrite Hread. cbn [mbind outcome_bind].
    cbn [s_total s_array_idx s_max s_addr].
    rewrite (proj2 (Z.eqb_neq total 0)) by lia. rewrite (proj2 (Z.ltb_ge (MAX_SCATTER_ELEMENTS - 1) total)) by (unfold MAX_SCATTER_ELEMENTS; lia).
    cbn [orb]. replace (if t =? 0 then total else t) with total by (destruct Ht as [->| ->]; [done|by destruct (total =? 0)]).
    rewrite Z.eqb_refl. cbn [negb]. rewrite (proj2 (Z.eqb_neq idx 0)) by lia. rewrite (proj2 (Z.ltb_ge total idx)) by lia. cbn [orb].
    assert (Hpair : exists mx', (if a =? 0 then (idx, idx) else (a, mx)) = (idx, mx') /\ mx' = if a =? 0 then idx else mx).
    { destruct (Z.eqb_spec a 0); eexists; split; try done. destruct Ha as [->|[? _]]; [|lia]. f_equal. lia. }
    destruct Hpair as (mx' & -> & Hmx). rewrite Z.eqb_refl. cbn [negb].
    rewrite (proj2 (Z.ltb_ge (len buff) _)) by lia. rewrite u8_small by lia.
    replace (len sfx + (4 + len f)) with (len (f ++ fragment_header (len f) idx total ++ sfx)) by (rewrite !len_app; change (len (fragment_header _ _ _)) with 4; lia).
    rewrite Hbuff2.
    destruct (IH n (f ++ fragment_header (len f) idx total ++ sfx) total (idx - 1) mx' (<[idx := (len pre, len f)]> addr))
      as (addr' & -> & Hfound & Hrest); try done; try lia; try (by right).
    rewrite <- Hbuff2 in *.
    exists addr'. split; [|split].
    + do 3 f_equal.
      * by destruct g.
      * transitivity mx'; [destruct (Z.eqb_spec (idx - 1) 0); [destruct g|]; [done| |done]|].
        -- cbn [length] in *. lia.
        -- rewrite Hmx. destruct (a =? 0); [|done]. destruct (g ++ [f]) eqn:E; [by destruct g|]. unfold idx. lia.
    + intros j f' Hj. apply lookup_app_Some in Hj as [Hj|[Hge Hj]]; [by apply Hfound|].
      destruct (j - length g)%nat as [|?] eqn:Ej; [|done]. cbn in Hj. simplify_eq. replace (i + Z.of_nat j) with idx by lia.
      exists (len pre). rewrite Hrest, lookup_insert_eq by lia. split; [done|]. rewrite Hbuff2.
      replace (len pre - len f') with (len (packet_bytes total i g)) by lia. unfold len. rewrite !Nat2Z.id, drop_app_length.
      apply take_app_length.
    + intros k Hk. rewrite Hrest by lia. apply lookup_insert_ne. lia.
Qed.

Lemma found_tail buff addr a f g : found buff addr a (f :: g) -> found buff addr (a + 1) g.
Proof.
  intros H j h Hj. destruct (H (S j) h Hj) as (pos & Hp & Ht). exists pos. split; [|done]. rewrite <- Hp. f_equal. lia.
Qed.

Lemma append_found buff s g : forall a m,
  found buff (s_addr s) a g -> frag_idx m = a -> num_elements m = a -> 0 <= a -> a + Z.of_nat (length g) <= MAX_SCATTER_ELEMENTS ->
  append_frags (length g) buff s a m =
    Ret (Some (mk_in (has_header m) (elems m ++ g) (a + Z.of_nat (length g)) (frag_total m) (live m))).
Proof.
  induction g as [|f g IH]; intros a m Hf Hidx Hnum Ha Hmax.
  - cbn [append_frags length]. rewrite app_nil_r, Z.add_0_r, <- Hidx. by destruct m.
  - cbn [append_frags length] in *. unfold MAX_SCATTER_ELEMENTS in *. rewrite Hidx, Z.eqb_refl. cbn [negb].
    destruct (Hf 0%nat f eq_refl) as (pos & Hp & Hbytes). rewrite Z.add_0_r in Hp. rewrite Hp. cbn [or_else mbind outcome_bind].
    rewrite (proj2 (Z.ltb_lt _ _)) by (unfold SPU_ARCH_SCATTER_SIZE; lia). rewrite Hbytes, !u8_small by lia.
    rewrite IH; cbn [has_header elems frag_idx frag_total live]; try done; try lia.
    + rewrite <- app_assoc. cbn [app]. do 3 f_equal. lia.
    + by apply found_tail in Hf.
    + unfold num_elements in *. cbn [has_header elems]. rewrite length_app. cbn [length]. lia.
Qed.

Lemma group_len_ge g : 4 * Z.of_nat (length g) <= group_len g.
Proof.
  induction g as [|f g IH]; cbn [length group_len]; [lia|]. unfold sizeof_fragment_header. pose proof (len_nonneg f). lia.
Qed.

(** The scan of a whole packet. *)
Lemma scan_of_packet before total i g t :
  1 <= i -> i + Z.of_nat (length g) <= total + 1 -> total < MAX_SCATTER_ELEMENTS -> (t = total \/ t = 0 /\ g <> []) ->
  exists s, scan_packet (S (length (packet_bytes total i g))) before (packet_bytes total i g) 0 (mk_scan t 0 0 ∅) = Ret (inr s) /\
    s_total s = total /\ found (packet_bytes total i g) (s_addr s) i g /\
    Z.to_nat (s_max s - s_array_idx s) = length g /\ (g <> [] -> s_array_idx s = i - 1).
Proof.
  intros Hi Htot H99 Ht. destruct g as [|f g'] eqn:Eg.
  - eexists. split; [done|]. destruct Ht as [Ht|[_ ?]]; [|done]. split; [done|]. split; [by intros ??|]. split; done.
  - rewrite <- Eg in *. assert (g <> []) by (by rewrite Eg).
    destruct (scan_group before total i g (S (length (packet_bytes total i g))) [] t 0 0 ∅) as (addr & Hs & Hf & _); try done.
    { pose proof (group_len_ge g). pose proof (frag_els_len total i g) as Hl. unfold len in Hl. fold (packet_bytes total i g) in Hl. lia. }
    { destruct Ht as [|[? _]]; auto. } { by right. }
    rewrite app_nil_r in *. change (len []) with 0 in Hs. rewrite Hs. eexists. split; [done|]. cbn [s_total s_addr s_max s_array_idx].
    rewrite Eg in *. repeat split; try done. rewrite Z.eqb_refl. lia.
Qed.

(** A packet of the message appends its fragments. *)
Lemma build_packet before total i g m :
  1 <= i -> i + Z.of_nat (length g) <= total + 1 -> total < MAX_SCATTER_ELEMENTS ->
  frag_idx m = i -> Z.of_nat (length (elems m)) = i - 1 -> (frag_total m = total \/ frag_total m = 0 /\ g <> []) ->
  Build_Message_From_Fragments_IT before (packet_bytes total i g) m =
    Ret (if i + Z.of_nat (length g) =? total + 1 then 1 else 0,
         mk_in true (elems m ++ g) (i + Z.of_nat (length g)) total (live m)).
Proof.
  intros Hi Htot H99 Hidx Hel Ht. unfold Build_Message_From_Fragments_IT.
  pose proof (scan_of_packet before total i g (frag_total m) Hi Htot H99 Ht) as Hscan.
  destruct Hscan as (s & -> & Hst & Hf & Hn & Ha). cbn [mbind outcome_bind]. rewrite Hn, Hst.
  set (m1 := mk_in true (elems m) (frag_idx m) total (live m)).
  assert (Hm1 : num_elements m1 = i) by (unfold num_elements; cbn [m1 has_header elems]; lia).
  unfold MAX_SCATTER_ELEMENTS in *.
  assert (Happ : append_frags (length g) (packet_bytes total i g) s (u8 (s_array_idx s + 1)) m1 =
                 Ret (Some (mk_in true (elems m ++ g) (i + Z.of_nat (length g)) total (live m)))).
  { destruct (decide (g = [])) as [->|Hg]; [cbn [length append_frags]; rewrite app_nil_r, Z.add_0_r; unfold m1; by rewrite Hidx|].
    rewrite (Ha Hg), u8_small by lia. replace (i - 1 + 1) with i by lia. by rewrite append_found by (done || unfold MAX_SCATTER_ELEMENTS; lia). }
  rewrite Happ. cbn [mbind outcome_bind frag_idx frag_total].
  rewrite (proj2 (Z.eqb_eq (num_elements _) _)); [done|]. unfold num_elements. cbn [has_header elems frag_idx]. rewrite length_app. lia.
Qed.

(** A packet with other fragments than those expected is refused. *)
Lemma build_unexpected before total i g m :
  1 <= i -> i + Z.of_nat (length g) <= total + 1 -> total < MAX_SCATTER_ELEMENTS ->
  frag_idx m <> i -> g <> [] -> frag_total m = total \/ frag_total m = 0 -> live m = true ->
  Build_Message_From_Fragments_IT before (packet_bytes total i g) m =
    Ret (-6, mk_in true (elems m) (frag_idx m) total false).
Proof.
  intros Hi Htot H99 Hidx Hg Ht Hlive. unfold Build_Message_From_Fragments_IT.
  destruct (scan_of_packet before total i g (frag_total m) Hi Htot H99 ltac:(naive_solver)) as (s & -> & Hst & _ & Hn & Ha).
  cbn [mbind outcome_bind]. rewrite Hn, Hst, (Ha Hg). unfold MAX_SCATTER_ELEMENTS in *. destruct g as [|f g]; [done|]. cbn [length append_frags] in *.
  rewrite u8_small by lia. cbn [frag_idx]. rewrite (proj2 (Z.eqb_neq _ _)) by lia. cbn [negb mbind outcome_bind live]. by rewrite Hlive.
Qed.

(** ** All packets of a message *)
Fixpoint build_all (before : list Z) (pkts : list (list Z)) (m : it_in) : outcome (list Z * it_in) :=
  match pkts with
  | [] => Ret ([], m)
  | p :: pkts =>
      '(r, m) ← Build_Message_From_Fragments_IT before p m;
      '(rs, m) ← build_all before pkts m;
      Ret (r :: rs, m)
  end.

Lemma build_groups before total gs : forall i m,
  1 <= i -> i + Z.of_nat (length (concat gs)) = total + 1 -> total < MAX_SCATTER_ELEMENTS ->
  frag_idx m = i -> Z.of_nat (length (elems m)) = i - 1 -> (frag_total m = total \/ frag_total m = 0) ->
  Forall (fun g => g <> []) gs -> gs <> [] ->
  build_all before (map (@concat Z) (packets_of total i gs)) m =
    Ret (replicate (length gs - 1) 0 ++ [1], mk_in true (elems m ++ concat gs) (total + 1) total (live m)).
Proof.
  induction gs as [|g gs IH]; intros i m Hi Htot H99 Hidx Hel Ht Hne Hgs; [done|].
  inversion_clear Hne as [|? ? Hg Hrest]. cbn [packets_of concat] in *. cbn [map build_all].
  rewrite length_app in Htot.
  change (concat (frag_els total i g)) with (packet_bytes total i g).
  rewrite build_packet by (done || lia || naive_solver). cbn [mbind outcome_bind].
  destruct gs as [|g2 gs].
  - cbn [length concat packets_of map build_all mbind outcome_bind] in *. rewrite app_nil_r in *.
    rewrite (proj2 (Z.eqb_eq _ _)) by (cbn in Htot; lia). cbn. do 3 f_equal. cbn in Htot; lia.
  - assert (g2 <> []) as Hg2 by (by inversion_clear Hrest). assert (0 < length (concat (g2 :: gs)))%nat.
    { cbn. rewrite length_app. destruct g2; [done|cbn; lia]. }
    rewrite (proj2 (Z.eqb_neq _ _)) by lia.
    rewrite IH; cbn [frag_idx elems frag_total live]; try done; try lia.
    + cbn [mbind outcome_bind length]. rewrite <- app_assoc. do 2 f_equal.
      replace (S (S (length gs)) - 1)%nat with (S (S (length gs) - 1)) by lia. done.
    + rewrite length_app. lia.
Qed.

(** ** Arbitrary bytes *)
Definition bytes (l : list Z) : Prop := Forall (fun b => 0 <= b < 256) l.

(** The message under construction. *)
Record in_ok (m : it_in) : Prop := {
  io_idx : frag_idx m = 1 + Z.of_nat (length (elems m));
  io_total : Z.of_nat (length (elems m)) <= frag_total m < MAX_SCATTER_ELEMENTS;
  io_header : has_header m = false -> elems m = [] }.

Lemma byte_at_total before buff pos :
  bytes before -> bytes buff -> - Z.of_nat (length before) <= pos < len buff -> exists b, byte_at before buff pos = Ret b /\ 0 <= b < 256.
Proof.
  intros Hbe Hbu Hpos. unfold byte_at, len in *. destruct (Z.leb_spec 0 pos).
  - destruct (lookup_lt_is_Some_2 buff (Z.to_nat pos)) as [b Hb]; [lia|]. rewrite Hb. exists b. split; [done|]. by eapply Forall_lookup_1 in Hbu.
  - destruct (lookup_lt_is_Some_2 before (Z.to_nat (-1 - pos))) as [b Hb]; [lia|]. rewrite Hb. exists b. split; [done|]. by eapply Forall_lookup_1 in Hbe.
Qed.

Lemma read_header_total before buff pos :
  bytes before -> bytes buff -> - Z.of_nat (length before) <= pos -> pos + 4 <= len buff ->
  exists l idx total, read_header before buff pos = Ret (l, idx, total) /\ 0 <= l /\ 0 <= idx < 256 /\ 0 <= total < 256.
Proof.
  intros Hbe Hbu Hlo Hhi. unfold read_header.
  destruct (byte_at_total before buff pos) as (b0 & -> & ?); try done; [lia|].
  destruct (byte_at_total before buff (pos + 1)) as (b1 & -> & ?); try done; [lia|].
  destruct (byte_at_total before buff (pos + 2)) as (b2 & -> & ?); try done; [lia|].
  destruct (byte_at_total before buff (pos + 3)) as (b3 & -> & ?); try done; [lia|].
  cbn [mbind outcome_bind]. eexists _, _, _. split; [done|]. lia.
Qed.

(** What the scan keeps: the fragments from behind [s_array_idx] to [s_max] are
    recorded. *)
Record scan_ok (t0 : Z) (s : scan) : Prop := {
  so_total : 0 <= s_total s < MAX_SCATTER_ELEMENTS;
  so_old : t0 <> 0 -> s_total s = t0;
  so_max : 0 <= s_array_idx s <= s_max s /\ s_max s <= s_total s;
  so_addr : forall k, s_array_idx s < k <= s_max s -> is_Some (s_addr s !! k) }.

Lemma scan_total before buff t0 n : forall processed s,
  bytes before -> bytes buff -> (3 <= length before)%nat -> 0 <= processed <= len buff -> len buff - processed < Z.of_nat n -> scan_ok t0 s ->
  exists r, scan_packet n before buff processed s = Ret r /\
    match r with
    | inl (e, t) => -5 <= e <= -1 /\ 0 <= t < MAX_SCATTER_ELEMENTS /\ (t0 <> 0 -> t = t0)
    | inr s' => scan_ok t0 s'
    end.
Proof.
  induction n as [|n IH]; intros processed s Hbe Hbu H3 Hp Hn Hs; [lia|]. cbn [scan_packet].
  destruct (Z.ltb_spec processed (len buff)) as [Hlt|]; [|by eexists; split]. unfold sizeof_fragment_header.
  destruct (read_header_total before buff (len buff - processed - 4)) as (l & idx & total & Hr & Hl & Hi & Ht); try done; try lia.
  rewrite Hr. cbn [mbind outcome_bind]. destruct Hs as [Ht0 Hold Hmax Haddr].
  destruct (Z.eqb_spec total 0); cbn [orb]; [eexists; split; [done|]; split_and!; (lia || done)|].
  destruct (Z.ltb_spec (MAX_SCATTER_ELEMENTS - 1) total); [eexists; split; [done|]; split_and!; (lia || done)|].
  set (t := if s_total s =? 0 then total else s_total s).
  assert (Htr : 0 <= t < MAX_SCATTER_ELEMENTS /\ (t0 <> 0 -> t = t0) /\ s_total s <= t).
  { unfold t. destruct (Z.eqb_spec (s_total s) 0); split_and!; try lia; try done; intros Hn0; rewrite <- Hold in Hn0 by done; lia. }
  destruct Htr as (Htr & Htold & Htle).
  destruct (Z.eqb_spec t total); cbn [negb]; [|eexists; split; [done|]; split_and!; (lia || done)].
  destruct (Z.eqb_spec idx 0); cbn [orb]; [eexists; split; [done|]; split_and!; (lia || done)|].
  destruct (Z.ltb_spec t idx); [eexists; split; [done|]; split_and!; (lia || done)|].
  assert (Hpair : exists a mx, (if s_array_idx s =? 0 then (idx, idx) else (s_array_idx s, s_max s)) = (a, mx) /\ 1 <= a <= mx /\ mx <= t /\
            (forall k, a < k <= mx -> is_Some (s_addr s !! k))).
  { destruct (Z.eqb_spec (s_array_idx s) 0); eexists _, _; (split; [done|]); split_and!; lia || done. }
  destruct Hpair as (a & mx & -> & Ha & Hmx & Hk).
  destruct (Z.eqb_spec idx a) as [->|]; cbn [negb]; [|eexists; split; [done|]; split_and!; (lia || done)].
  destruct (Z.ltb_spec (len buff) (processed + (4 + l))); [eexists; split; [done|]; split_and!; (lia || done)|].
  apply IH; try done; try lia. unfold MAX_SCATTER_ELEMENTS in *. split; cbn [s_total s_array_idx s_max s_addr]; rewrite ?u8_small by lia; try done; try lia.
  intros k Hk2. destruct (decide (k = a)) as [->|]; [rewrite lookup_insert_eq; by eexists|].
  rewrite lookup_insert_ne by done. apply Hk. lia.
Qed.

(** The message with its references given up: appending does not look at them. *)
Definition released (m : it_in) : it_in := mk_in (has_header m) (elems m) (frag_idx m) (frag_total m) false.

Lemma append_released buff s n : forall a m,
  append_frags n buff s a (released m) = (r ← append_frags n buff s a m; Ret (option_map released r)).
Proof.
  induction n as [|n IH]; intros a m; cbn [append_frags]; [done|]. cbn [released frag_idx]. destruct (negb _); [done|].
  destruct (s_addr s !! a) as [[pos l]|]; [|done]. cbn [or_else mbind outcome_bind]. fold (released m).
  change (num_elements (released m)) with (num_elements m). destruct (_ <? _); [|done]. by rewrite <- IH.
Qed.

Lemma append_total buff s n : forall a m,
  (forall k, a <= k < a + Z.of_nat n -> is_Some (s_addr s !! k)) -> 0 <= a -> a + Z.of_nat n <= MAX_SCATTER_ELEMENTS ->
  num_elements m = frag_idx m ->
  (append_frags n buff s a m = Ret None /\ (0 < n)%nat) \/
  (exists g, append_frags n buff s a m =
     Ret (Some (mk_in (has_header m) (elems m ++ g) (frag_idx m + Z.of_nat n) (frag_total m) (live m))) /\ length g = n /\
     ((0 < n)%nat -> frag_idx m = a)).
Proof.
  induction n as [|n IH]; intros a m Hk Ha Hmax Hnum; cbn [append_frags].
  { right. exists []. rewrite app_nil_r, Z.add_0_r. split; [by destruct m|]. split; [done|lia]. }
  destruct (Z.eqb_spec a (frag_idx m)) as [He|]; cbn [negb]; [|left; split; [done|lia]].
  destruct (Hk a) as [[pos l] Hp]; [lia|]. rewrite Hp. cbn [or_else mbind outcome_bind]. unfold MAX_SCATTER_ELEMENTS in *.
  rewrite (proj2 (Z.ltb_lt _ _)) by (unfold SPU_ARCH_SCATTER_SIZE; lia). rewrite !u8_small by lia.
  set (m1 := mk_in _ _ _ _ _).
  destruct (IH (a + 1) m1) as [[Hn ?]|(g & Hg & Hlen & _)].
  - intros k Hk2. apply Hk. lia.
  - lia.
  - lia.
  - unfold num_elements in *. cbn [m1 has_header elems frag_idx]. rewrite length_app. cbn [length]. lia.
  - left. split; [done|lia].
  - right. exists (take (Z.to_nat l) (drop (Z.to_nat (pos - l)) buff) :: g). rewrite Hg. cbn [m1 has_header elems frag_idx frag_total live].
    rewrite <- app_assoc. cbn [app length]. split; [|split; [by rewrite Hlen|done]]. do 3 f_equal. lia.
Qed.
