(* ===== verification/ITFragProps.v ===== *)
(** * ITFragProps: the properties of fragments on the intrusion-tolerant link *)
From stdpp Require Import base list gmap numbers option.
From Stdlib Require Import ZArith Lia.
From S2P Require Import Prelude Events NetTypes ITFrag ITFragProof ITBuildProof.
#[local] Open Scope Z_scope.

(** A link that was given [msg] while its window had no packet in it. *)
Definition ready (seq : Z) (msg : list (list Z)) : it_out :=
  mk_out seq seq ∅ ∅ ∅ (Some msg) 1 (Z.of_nat (length msg)) 0 false.

(** The packets of a link from sequence number [from] on. *)
Definition window_from (o : it_out) (from : Z) : list (list Z) :=
  map (fun j => concat (c_pkt (default no_cell (outgoing o !! ((from + Z.of_nat j) mod MAX_SEND_ON_LINK)))))
    (seq 0 (Z.to_nat (out_head_seq o - from))).

(** The neighbour acknowledges [n] packets. *)
Definition ack_packets (n : nat) (o : it_out) : it_out :=
  mk_out (out_head_seq o) (Z.min (out_head_seq o) (out_tail_seq o + Z.of_nat n)) (outgoing o) (out_nonce o) (out_nonce_digest o)
    (out_message o) (out_frag_idx o) (out_frag_total o) (unique_packets o) (loss_event o).

(** Packing, and acknowledgements in between: the packets made, in order. *)
Fixpoint send_run (ls trigger : Z) (rnd rnd2 : Z -> Z) (acks : list nat) (o : it_out) : list (list Z) * it_out :=
  match acks with
  | [] => ([], o)
  | a :: acks =>
      match Pack_Fragments_Into_Packets_IT ls trigger 1 rnd rnd2 true (Some o) with
      | (_, Some o1) =>
          let '(ps, o2) := send_run ls trigger rnd rnd2 acks (ack_packets a o1) in (window_from o1 (out_head_seq o) ++ ps, o2)
      | (_, None) => ([], o)
      end
  end.

Section Send.
Context (ls trigger : Z) (rnd rnd2 : Z -> Z) (Hls : 0 <= ls <= MAX_PACKET_SIZE).

Lemma holds_window o from ps :
  holds o from ps -> out_head_seq o = from + Z.of_nat (length ps) -> window_from o from = map (@concat Z) ps.
Proof.
  intros Hh Hhead. unfold window_from. unfold holds in *. replace (Z.to_nat _) with (length ps) by lia. apply list_eq. intros j.
  rewrite !list_lookup_fmap. destruct (ps !! j) as [p|] eqn:Hp.
  - rewrite lookup_seq_lt by by eapply lookup_lt_Some. destruct (Hh j p Hp) as (c & Hc & <- & _). cbn. by rewrite Hc.
  - rewrite lookup_seq_ge by by apply lookup_ge_None. done.
Qed.

Lemma ack_packets_ok n o : out_ok ls o -> out_ok ls (ack_packets n o).
Proof. intros [Ht Hr Hm]. split; cbn; [lia|lia|done]. Qed.

(** What was made and what is left is what there was to make. *)
Lemma send_run_todo acks : forall o,
  out_ok ls o -> out_tail_seq o + MAX_SEND_ON_LINK * Z.of_nat (length acks + 1) < 2 ^ 64 ->
  let '(ps, o') := send_run ls trigger rnd rnd2 acks o in
  map (@concat Z) (todo ls o) = ps ++ map (@concat Z) (todo ls o').
Proof.
  induction acks as [|a acks IH]; intros o Hok H64; cbn [send_run]; [done|].
  unfold Pack_Fragments_Into_Packets_IT. cbn [Z.eqb andb]. cbn [length] in H64. unfold MAX_SEND_ON_LINK in *.
  destruct (pack_loop_spec ls trigger rnd rnd2 Hls (Z.to_nat 500) o) as (ps & Htodo & Hh & Hok1 & Hhead & Htail & _ & Hend);
    [done|unfold MAX_SEND_ON_LINK; lia|pose proof (oo_tail _ _ Hok); unfold MAX_SEND_ON_LINK; lia|].
  set (o1 := pack_loop _ _ _ _ _ o) in *.
  specialize (IH (ack_packets a o1) (ack_packets_ok _ _ Hok1)).
  destruct (send_run ls trigger rnd rnd2 acks (ack_packets a o1)) as [ps2 o2].
  rewrite Htodo, map_app, (holds_window _ _ _ Hh Hhead), <- app_assoc. f_equal. apply IH.
  pose proof (oo_room _ _ Hok1). cbn. unfold MAX_SEND_ON_LINK in *. lia.
Qed.

(** A round with room in the window makes a packet if there is one to make. *)
Lemma send_run_finish acks : forall o,
  out_ok ls o -> out_tail_seq o + MAX_SEND_ON_LINK * Z.of_nat (length acks + 1) < 2 ^ 64 -> Forall (fun a => (1 <= a)%nat) acks ->
  (length (todo ls o) + (if (out_head_seq o <? out_tail_seq o + MAX_SEND_ON_LINK)%Z then 0 else 1) <= length acks)%nat ->
  out_message (send_run ls trigger rnd rnd2 acks o).2 = None.
Proof.
  induction acks as [|a acks IH]; intros o Hok H64 Hacks Hlen; cbn [send_run].
  { cbn in *. apply (todo_nil ls). apply nil_length_inv. lia. }
  inversion_clear Hacks as [|? ? Ha Hacks']. unfold Pack_Fragments_Into_Packets_IT. cbn [Z.eqb andb]. cbn [length] in *. unfold MAX_SEND_ON_LINK in *.
  pose proof (oo_room _ _ Hok) as Hroom. pose proof (oo_tail _ _ Hok) as Htl. unfold MAX_SEND_ON_LINK in *.
  destruct (pack_loop_spec ls trigger rnd rnd2 Hls (Z.to_nat 500) o) as (ps & Htodo & Hh & Hok1 & Hhead & Htail & _ & Hend);
    [done|unfold MAX_SEND_ON_LINK; lia|unfold MAX_SEND_ON_LINK; lia|].
  set (o1 := pack_loop _ _ _ _ _ o) in *. pose proof (oo_room _ _ Hok1). unfold MAX_SEND_ON_LINK in *.
  specialize (IH (ack_packets a o1) (ack_packets_ok _ _ Hok1)).
  destruct (send_run ls trigger rnd rnd2 acks (ack_packets a o1)) as [ps2 o2]. cbn [snd] in *. apply IH; [cbn; lia|done|].
  change (todo ls (ack_packets a o1)) with (todo ls o1). cbn [ack_packets out_head_seq out_tail_seq].
  rewrite (proj2 (Z.ltb_lt _ _)) by (unfold MAX_SEND_ON_LINK; lia). rewrite Htodo, length_app in Hlen.
  destruct Hend as [Hnone|Hfull]; [apply (todo_nil ls) in Hnone; rewrite Hnone; cbn [length]; lia|].
  destruct (Z.ltb_spec (out_head_seq o) (out_tail_seq o + 500)); lia.
Qed.

Lemma ready_ok seq msg :
  1 <= seq -> all_fit ls msg -> Z.of_nat (length msg) < MAX_SCATTER_ELEMENTS -> out_ok ls (ready seq msg).
Proof. intros. split; cbn; [lia|unfold MAX_SEND_ON_LINK; lia|]. intros ? [= <-]. split_and!; try done; lia. Qed.
End Send.

(** The packets of a message build the message. *)
Lemma build_message ls before msg :
  all_fit ls msg -> Z.of_nat (length msg) < MAX_SCATTER_ELEMENTS ->
  let ps := map (@concat Z) (packets_of (Z.of_nat (length msg)) 1 (groups ls msg)) in
  build_all before ps fresh_in =
    Ret (replicate (length ps - 1) 0 ++ [1], mk_in true msg (Z.of_nat (length msg) + 1) (Z.of_nat (length msg)) true).
Proof.
  intros Hfit H99. cbn zeta. rewrite length_map, length_packets_of. destruct (decide (msg = [])) as [->|Hne]; [done|].
  rewrite build_groups; cbn [fresh_in elems frag_idx frag_total live app]; try done; try lia.
  - by rewrite concat_groups.
  - rewrite concat_groups. lia.
  - by apply groups_nonempty.
  - intros Hg. apply Hne. rewrite <- (concat_groups ls msg), Hg. done.
Qed.

(** C23: cutting a message into packets and putting it together again is the
    identity.  However full the window is when the link is given the message,
    and however the neighbour's acknowledgements fall between the runs of
    [Pack_Fragments_Into_Packets_IT], as long as each run is followed by at
    least one and there are more runs than packets: the message is packed
    completely, and [Build_Message_From_Fragments_IT], given the bytes of the
    packets in order, answers 0 until the last, then 1, with exactly the
    fragments of the message. *)
Theorem it_fragment_roundtrip ls trigger rnd rnd2 before o msg acks :
  0 <= ls <= MAX_PACKET_SIZE -> out_ok ls o -> out_message o = Some msg -> out_frag_idx o = 1 ->
  out_tail_seq o + MAX_SEND_ON_LINK * Z.of_nat (length acks + 1) < 2 ^ 64 ->
  Forall (fun a => (1 <= a)%nat) acks -> (length (groups ls msg) < length acks)%nat ->
  let '(ps, o') := send_run ls trigger rnd rnd2 acks o in
  out_message o' = None /\
  build_all before ps fresh_in =
    Ret (replicate (length ps - 1) 0 ++ [1], mk_in true msg (Z.of_nat (length msg) + 1) (Z.of_nat (length msg)) true).
Proof.
  intros Hls Hok Hmsg Hidx H64 Hacks Hlen. destruct (oo_msg _ _ Hok _ Hmsg) as (Htot & H99 & _ & Hfit).
  assert (Htodo : todo ls o = packets_of (Z.of_nat (length msg)) 1 (groups ls msg)).
  { unfold todo. by rewrite Hmsg, Hidx, Htot. }
  pose proof (send_run_finish ls trigger rnd rnd2 Hls acks o Hok H64 Hacks) as Hfin.
  pose proof (send_run_todo ls trigger rnd rnd2 Hls acks o Hok H64) as Hps.
  destruct (send_run ls trigger rnd rnd2 acks o) as [ps o']. cbn [snd] in Hfin.
  assert (out_message o' = None) as Hnone.
  { apply Hfin. rewrite Htodo, length_packets_of. destruct (_ <? _); lia. }
  split; [done|]. apply (todo_nil ls) in Hnone. rewrite Hnone, app_nil_r, Htodo in Hps. rewrite <- Hps. apply build_message; [done|]. lia.
Qed.

(** ** The number of packets *)
Lemma calculate_from ls fs : forall cur packets,
  0 <= ls <= MAX_PACKET_SIZE -> all_fit ls fs -> 0 <= packets -> packets + Z.of_nat (length fs) < 2 ^ 16 -> group_len cur + ls <= MAX_PACKET_SIZE ->
  exists g, list.last (groups_from ls cur (group_len cur) fs) = Some g /\ group_len g + ls <= MAX_PACKET_SIZE /\
  foldl (fun '(packets, curr) f =>
             if MAX_PACKET_SIZE - ls <? curr + len f + sizeof_fragment_header
             then (u16 (packets + 1), u16 (len f + sizeof_fragment_header))
             else (packets, u16 (curr + (len f + sizeof_fragment_header)))) (packets, group_len cur) fs =
    (packets + Z.of_nat (length (groups_from ls cur (group_len cur) fs)) - 1, group_len g).
Proof.
  induction fs as [|f fs IH]; intros cur packets Hls Hfit H0 H16 Hcur; cbn [groups_from foldl].
  { exists cur. split; [done|]. split; [done|]. cbn [length]. f_equal. lia. }
  inversion_clear Hfit as [|? ? Hf Hfit']. unfold fits in *. cbn [length] in H16. apply Z.leb_le in Hf.
  pose proof (len_nonneg f) as Hlf. pose proof (group_len_nonneg cur). unfold MAX_PACKET_SIZE, sizeof_fragment_header in *.
  destruct (Z.leb_spec (group_len cur + len f + ls + 4) 1472); [rewrite (proj2 (Z.ltb_ge _ _)) by lia|rewrite (proj2 (Z.ltb_lt _ _)) by lia].
  - rewrite u16_small by lia. specialize (IH (cur ++ [f]) packets Hls Hfit').
    rewrite group_len_app in IH. cbn [group_len] in IH. unfold sizeof_fragment_header in IH.
    replace (group_len cur + (len f + 4 + 0)) with (group_len cur + len f + 4) in IH by lia.
    rewrite Z.add_assoc. apply IH; lia.
  - rewrite !u16_small by lia. specialize (IH [f] (packets + 1) Hls Hfit').
    cbn [group_len] in IH. unfold sizeof_fragment_header in IH. replace (len f + 4 + 0) with (len f + 4) in IH by lia.
    destruct IH as (g & Hlast & Hg & Hfold); try lia. exists g. split; [|split; [done|]].
    + destruct (groups_from ls [f] (len f + 4) fs); done.
    + rewrite Hfold. cbn [length]. f_equal. lia.
Qed.

Lemma last_packets_of total gs : forall i, exists k, list.last (packets_of total i gs) = frag_els total k <$> list.last gs.
Proof.
  induction gs as [|g gs IH]; intros i; [by exists i|]. cbn [packets_of]. destruct gs as [|g2 gs]; [by exists i|].
  destruct (IH (i + Z.of_nat (length g))) as [k Hk]. exists k. rewrite last_cons. cbn [packets_of] in *. rewrite Hk. rewrite (last_cons g).
  destruct (list.last (g2 :: gs)) eqn:E; [done|]. by apply last_None in E.
Qed.

(** [Calculate_Packets_In_Message] predicts what packing does: on a link
    whose window is empty, [Pack_Fragments_Into_Packets_IT] makes exactly that
    many packets of the message and is done with it, and the space the function
    reports is what the last packet leaves free. *)
Theorem it_packet_count ls trigger rnd rnd2 seq msg :
  0 <= ls <= MAX_PACKET_SIZE -> all_fit ls msg -> Z.of_nat (length msg) < MAX_SCATTER_ELEMENTS -> 1 <= seq -> seq + MAX_SEND_ON_LINK < 2 ^ 64 ->
  let '(packets, space) := Calculate_Packets_In_Message ls msg in
  exists o' cell,
    Pack_Fragments_Into_Packets_IT ls trigger 1 rnd rnd2 true (Some (ready seq msg)) = (BUFF_OK, Some o') /\
    out_message o' = None /\ out_head_seq o' = seq + packets /\
    outgoing o' !! ((out_head_seq o' - 1) mod MAX_SEND_ON_LINK) = Some cell /\ c_len cell + space + ls = MAX_PACKET_SIZE.
Proof.
  intros Hls Hfit H99 Hseq H64. unfold Calculate_Packets_In_Message, MAX_SCATTER_ELEMENTS in *.
  destruct (calculate_from ls msg [] 1) as (g & Hlast & Hg & Hfold); try done; try lia; [cbn; lia|]. cbn [group_len] in *. rewrite Hfold.
  fold (groups ls msg) in *. pose proof (groups_from_length ls [] 0 msg) as Hcount. fold (groups ls msg) in Hcount.
  destruct (pack_loop_spec ls trigger rnd rnd2 Hls (Z.to_nat MAX_SEND_ON_LINK) (ready seq msg))
    as (ps & Htodo & Hh & Hok1 & Hhead & Htail & _ & Hend); [by apply ready_ok|cbn; lia|cbn; lia|].
  unfold Pack_Fragments_Into_Packets_IT. cbn [Z.eqb andb]. set (o1 := pack_loop _ _ _ _ _ _) in *. cbn [ready out_head_seq out_tail_seq] in *.
  assert (Hready : todo ls (ready seq msg) = packets_of (Z.of_nat (length msg)) 1 (groups ls msg)) by done.
  assert (length (groups ls msg) = length ps + length (todo ls o1))%nat as Hsum.
  { rewrite <- length_app, <- Htodo, Hready. by rewrite length_packets_of. }
  assert (out_message o1 = None) as Hnone.
  { destruct Hend as [?|Hfull]; [done|]. unfold MAX_SEND_ON_LINK in Hfull. lia. }
  apply (todo_nil ls) in Hnone as Hnil. rewrite Hnil, app_nil_r, Hready in Htodo. rewrite Hnil in Hsum. cbn [length] in Hsum.
  destruct (last_packets_of (Z.of_nat (length msg)) (groups ls msg) 1) as [k Hk]. rewrite Hlast, Htodo, last_lookup in Hk. cbn in Hk.
  destruct (Hh _ _ Hk) as (cell & Hc & Hcp & Hcl). exists o1, cell. pose proof (group_len_nonneg g). unfold MAX_PACKET_SIZE in *.
  split; [done|]. split; [done|]. split; [lia|]. split.
  - rewrite <- Hc. do 2 f_equal. apply lookup_lt_Some in Hk. lia.
  - rewrite Hcl, frag_els_len, u16_small by lia. lia.
Qed.

(** ** Termination *)
Lemma pack_distance h t : u64 (h - t) < MAX_SEND_ON_LINK -> u64 (u64 (h + 1) - t) = u64 (h - t) + 1.
Proof.
  unfold u64, wrapu, MAX_SEND_ON_LINK. intros Hd. rewrite Zminus_mod_idemp_l. replace (h + 1 - t) with (h - t + 1) by lia.
  rewrite <- (Zplus_mod_idemp_l (h - t)). pose proof (Z.mod_pos_bound (h - t) (2 ^ 64)). apply Z.mod_small. lia.
Qed.

Lemma pack_loop_stop ls trigger rnd rnd2 n : forall o k,
  MAX_SEND_ON_LINK <= u64 (out_head_seq o - out_tail_seq o) + Z.of_nat n ->
  let o' := pack_loop ls trigger rnd rnd2 n o in
  pack_loop ls trigger rnd rnd2 (n + k) o = o' /\
  (out_message o' = None \/ MAX_SEND_ON_LINK <= u64 (out_head_seq o' - out_tail_seq o')).
Proof.
  induction n as [|n IH]; intros o k Hn; cbn [pack_loop Nat.add].
  - rewrite Z.add_0_r in Hn. split; [|by right]. destruct k; cbn [pack_loop]; [done|]. destruct (out_message o); [|done].
    by rewrite (proj2 (Z.ltb_ge _ _)).
  - destruct (out_message o) as [msg|] eqn:E; [|by auto]. destruct (Z.ltb_spec (u64 (out_head_seq o - out_tail_seq o)) MAX_SEND_ON_LINK); [|by auto].
    apply IH. unfold pack_one. destruct (fill_packet _ _ _ _ _ _) as [[els dl] i]. cbn [out_head_seq out_tail_seq]. rewrite pack_distance by done. lia.
Qed.

(** C35: packing stops.  Whatever the message and the sequence numbers, even if a
    fragment is too long for a packet, at most [MAX_SEND_ON_LINK] packets are
    made: a loop that may go on longer leaves the same state, and in it the
    message is done or the window is full. *)
Theorem it_pack_terminates ls trigger rnd rnd2 o n :
  (Z.to_nat MAX_SEND_ON_LINK <= n)%nat ->
  exists o', Pack_Fragments_Into_Packets_IT ls trigger 1 rnd rnd2 true (Some o) = (BUFF_OK, Some o') /\
    pack_loop ls trigger rnd rnd2 n o = o' /\
    (out_message o' = None \/ MAX_SEND_ON_LINK <= u64 (out_head_seq o' - out_tail_seq o')).
Proof.
  intros Hn. eexists. split; [reflexivity|]. replace n with (Z.to_nat MAX_SEND_ON_LINK + (n - Z.to_nat MAX_SEND_ON_LINK))%nat by lia.
  apply pack_loop_stop. pose proof (wrapu_range 64 (out_head_seq o - out_tail_seq o)) as Hr. unfold in_u in Hr.
  change (u64 ?x) with (wrapu 64 x). unfold MAX_SEND_ON_LINK. lia.
Qed.

(** ** Any packet *)

(** C24: whatever bytes a packet holds, [Build_Message_From_Fragments_IT] returns
    on a message whose buffers are held: it reads nothing but the packet and at most three bytes in front of it,
    writes only within the elements of the message and does not fail its
    assertion, and the message stays well formed: it never has more than
    [MAX_SCATTER_ELEMENTS] elements with its header.  A packet
    that is taken appends fragments, and the answer is 1 exactly when the
    message then has all of its fragments; one that is refused changes no
    element.  The buffers are still held afterwards exactly when the answer is not
    -6.  On a message whose buffers an earlier -6 gave up, the answers are the
    same, except that a second -6 releases them again and fails. *)
Theorem it_build_total before buff m :
  bytes before -> bytes buff -> (3 <= length before)%nat -> in_ok m -> live m = true ->
  exists r m', Build_Message_From_Fragments_IT before buff m = Ret (r, m') /\ in_ok m' /\ -6 <= r <= 1 /\ live m' = negb (r =? -6) /\
    (0 <= r -> (exists g, elems m' = elems m ++ g) /\ (r = 1 <-> Z.of_nat (length (elems m')) = frag_total m')) /\
    (r < 0 -> elems m' = elems m) /\
    Build_Message_From_Fragments_IT before buff (released m) = if r =? -6 then Fault else Ret (r, released m').
Proof.
  intros Hbe Hbu H3 [Hidx Htot Hh] Hlive. unfold Build_Message_From_Fragments_IT. cbn [released frag_total has_header elems frag_idx live].
  destruct (scan_total before buff (frag_total m) (S (length buff)) 0 (mk_scan (frag_total m) 0 0 ∅)) as (r & -> & Hr); try done.
  { pose proof (len_nonneg buff). lia. } { unfold len. lia. }
  { split; cbn [s_total s_array_idx s_max s_addr]; try done; try lia. }
  cbn [mbind outcome_bind]. destruct r as [[e t]|s].
  { destruct Hr as (He & Ht & Hold). eexists e, _. split; [done|]. rewrite (proj2 (Z.eqb_neq e (-6))) by lia. split; [|split_and!; lia || done].
    split; cbn [frag_idx elems frag_total has_header]; [done| |done]. destruct (decide (frag_total m = 0)); [lia|rewrite Hold by done; lia]. }
  destruct Hr as [Ht Hold Hmax Haddr]. set (m1 := mk_in true (elems m) (frag_idx m) (s_total s) (live m)).
  change (mk_in true (elems m) (frag_idx m) (s_total s) false) with (released m1). rewrite append_released.
  unfold MAX_SCATTER_ELEMENTS in *.
  assert (Hle : Z.of_nat (length (elems m)) <= s_total s).
  { destruct (decide (frag_total m = 0)); [lia|rewrite Hold by done; lia]. }
  destruct (append_total buff s (Z.to_nat (s_max s - s_array_idx s)) (u8 (s_array_idx s + 1)) m1) as [[-> ?]|(g & -> & Hlen & Hfirst)].
  - rewrite u8_small by lia. intros k Hk. apply Haddr. lia.
  - rewrite u8_small by lia. lia.
  - rewrite u8_small by lia. unfold MAX_SCATTER_ELEMENTS. lia.
  - unfold num_elements. cbn [m1 has_header elems frag_idx]. lia.
  - cbn [mbind outcome_bind option_map m1 live]. rewrite Hlive. eexists (-6), _. split; [done|]. split; [|split_and!; lia || done].
    split; cbn [released m1 frag_idx elems frag_total has_header]; [done|unfold MAX_SCATTER_ELEMENTS; lia|done].
  - cbn [mbind outcome_bind option_map m1 has_header elems frag_idx frag_total live released]. rewrite u8_small in Hfirst by lia. cbn [m1 frag_idx] in Hfirst.
    assert (Hnew : Z.of_nat (length (elems m ++ g)) <= s_total s).
    { rewrite length_app. destruct g as [|f g]; [cbn; lia|]. specialize (Hfirst ltac:(cbn in Hlen; lia)). lia. }
    rewrite (proj2 (Z.eqb_eq (num_elements _) _)) by (unfold num_elements; cbn [has_header elems]; rewrite length_app; lia).
    rewrite (proj2 (Z.eqb_eq (num_elements _) _)) by (unfold num_elements; cbn [released has_header elems]; rewrite length_app; lia).
    eexists _, _. split; [done|]. rewrite (proj2 (Z.eqb_neq _ (-6))) by (destruct (_ =? _); lia).
    split; [|split; [destruct (_ =? _); lia|split; [done|split; [|split; [|done]]]]].
    + split; cbn [frag_idx elems frag_total has_header]; [rewrite length_app; lia|unfold MAX_SCATTER_ELEMENTS; lia|done].
    + intros _. cbn [frag_total elems live]. split; [by exists g|].
      rewrite length_app. destruct (Z.eqb_spec (frag_idx m + Z.of_nat (Z.to_nat (s_max s - s_array_idx s))) (s_total s + 1)); lia.
    + destruct (_ =? _); lia.
Qed.

(** A refused packet loses the message but not the link.  With part of a
    message received, a packet whose fragments are not the expected ones is
    answered -6 and drops the references of all elements received so far, but the
    count of elements and the expected index stay; when the expected packets
    follow, the message is reported complete with the dropped elements in it. *)
Theorem it_released_elements_delivered before total i g j h m :
  1 <= i -> i + Z.of_nat (length g) = total + 1 -> 1 <= j -> j + Z.of_nat (length h) <= total + 1 -> total < MAX_SCATTER_ELEMENTS ->
  h <> [] -> j <> i -> frag_idx m = i -> Z.of_nat (length (elems m)) = i - 1 -> frag_total m = total -> live m = true ->
  exists m1 m2,
    Build_Message_From_Fragments_IT before (packet_bytes total j h) m = Ret (-6, m1) /\ live m1 = false /\
    Build_Message_From_Fragments_IT before (packet_bytes total i g) m1 = Ret (1, m2) /\
    elems m2 = elems m ++ g /\ live m2 = false.
Proof.
  intros Hi Hg Hj Hh H99 Hne Hji Hidx Hel Ht Hlive. eexists _, _. split; [apply build_unexpected; (done || lia || by left)|]. split; [done|].
  rewrite build_packet; cbn [elems frag_idx frag_total live]; try done; try lia.
  rewrite (proj2 (Z.eqb_eq _ _)) by lia. done.
Qed.

(** ** Witnesses *)
Module FragEx.
(** Three fragments of 700, 700 and 10 bytes: the first packet takes two of them
    with a link header of 60 bytes. *)
Definition msg : list (list Z) := [replicate 700 1; replicate 700 2; replicate 10 3].
Definition busy : it_out := mk_out 501 1 ∅ ∅ ∅ (Some msg) 1 3 0 false.

Lemma msg_fits : all_fit 60 msg.
Proof. repeat constructor. Qed.

Lemma busy_ok : out_ok 60 busy.
Proof. split; cbn; [lia|unfold MAX_SEND_ON_LINK; lia|]. intros ? [= <-]. split_and!; try done; apply msg_fits. Qed.
End FragEx.

Lemma it_fragment_roundtrip_witness :
  let '(ps, o') := send_run 60 1000 (fun q => q) (fun q => q) [1; 2; 1]%nat FragEx.busy in
  out_message o' = None /\
  build_all [] ps fresh_in = Ret (replicate (length ps - 1) 0 ++ [1], mk_in true FragEx.msg (Z.of_nat (length FragEx.msg) + 1) (Z.of_nat (length FragEx.msg)) true).
Proof.
  apply (it_fragment_roundtrip 60 1000 (fun q => q) (fun q => q) [] FragEx.busy FragEx.msg [1; 2; 1]%nat).
  - unfold MAX_PACKET_SIZE. lia.
  - apply FragEx.busy_ok.
  - reflexivity.
  - reflexivity.
  - cbn. unfold MAX_SEND_ON_LINK. lia.
  - repeat constructor.
  - vm_compute. lia.
Defined.

Lemma it_packet_count_witness :
  Calculate_Packets_In_Message 60 FragEx.msg = (2, 1398) /\
  let '(packets, space) := Calculate_Packets_In_Message 60 FragEx.msg in
  exists o' cell,
    Pack_Fragments_Into_Packets_IT 60 1000 1 (fun q => q) (fun q => q) true (Some (ready 1 FragEx.msg)) = (BUFF_OK, Some o') /\
    out_message o' = None /\ out_head_seq o' = 1 + packets /\
    outgoing o' !! ((out_head_seq o' - 1) mod MAX_SEND_ON_LINK) = Some cell /\ c_len cell + space + 60 = MAX_PACKET_SIZE.
Proof.
  split; [vm_compute; reflexivity|]. apply (it_packet_count 60 1000 (fun q => q) (fun q => q) 1 FragEx.msg).
  - unfold MAX_PACKET_SIZE. lia.
  - apply FragEx.msg_fits.
  - cbn. unfold MAX_SCATTER_ELEMENTS. lia.
  - lia.
  - unfold MAX_SEND_ON_LINK. lia.
Defined.

Lemma it_pack_terminates_witness :
  exists o', Pack_Fragments_Into_Packets_IT 1400 1000 1 (fun q => q) (fun q => q) true (Some FragEx.busy) = (BUFF_OK, Some o') /\
    pack_loop 1400 1000 (fun q => q) (fun q => q) 600 FragEx.busy = o' /\
    (out_message o' = None \/ MAX_SEND_ON_LINK <= u64 (out_head_seq o' - out_tail_seq o')).
Proof. apply (it_pack_terminates 1400 1000 (fun q => q) (fun q => q) FragEx.busy 600). unfold MAX_SEND_ON_LINK. lia. Defined.

Lemma it_build_total_witness :
  exists r m', Build_Message_From_Fragments_IT [0; 0; 0] [1; 1; 1] fresh_in = Ret (r, m') /\ in_ok m' /\ -6 <= r <= 1 /\ live m' = negb (r =? -6) /\
    (0 <= r -> (exists g, elems m' = elems fresh_in ++ g) /\ (r = 1 <-> Z.of_nat (length (elems m')) = frag_total m')) /\
    (r < 0 -> elems m' = elems fresh_in) /\
    Build_Message_From_Fragments_IT [0; 0; 0] [1; 1; 1] (released fresh_in) = if r =? -6 then Fault else Ret (r, released m').
Proof.
  apply (it_build_total [0; 0; 0] [1; 1; 1] fresh_in).
  - repeat constructor; lia.
  - repeat constructor; lia.
  - cbn. lia.
  - split; cbn; [lia|unfold MAX_SCATTER_ELEMENTS; lia|done].
  - reflexivity.
Defined.

Lemma it_released_elements_delivered_witness :
  exists m1 m2,
    Build_Message_From_Fragments_IT [] (packet_bytes 2 1 [[7]]) (mk_in true [[7]] 2 2 true) = Ret (-6, m1) /\ live m1 = false /\
    Build_Message_From_Fragments_IT [] (packet_bytes 2 2 [[8]]) m1 = Ret (1, m2) /\ elems m2 = [[7]] ++ [[8]] /\ live m2 = false.
Proof.
  apply (it_released_elements_delivered [] 2 2 [[8]] 1 [[7]] (mk_in true [[7]] 2 2 true)); cbn; (done || lia || unfold MAX_SCATTER_ELEMENTS; lia).
Defined.
