(* ===== verification/CFloat.v ===== *)
(** * CFloat: the floating-point arithmetic the C code uses

    Single and double precision numbers of the IEEE 754 standard, rounded to
    nearest even, as the executable operations of the Standard Library's
    [SpecFloat], with the conversions C inserts between integers and floating
    numbers. *)
From Stdlib Require Import ZArith Lia Bool.
From Stdlib Require Import SpecFloat.
#[local] Open Scope Z_scope.

(** Truncation towards zero, as in a C cast; 0 where the cast is undefined. *)
Definition SFtrunc (x : spec_float) : Z :=
  match x with
  | S754_finite s m e =>
      let a := if 0 <=? e then Zpos m * 2 ^ e else Zpos m / 2 ^ (- e) in
      if s then - a else a
  | _ => 0
  end.

Definition SFgeb (x y : spec_float) : bool :=
  match SFcompare x y with Some Eq | Some Gt => true | _ => false end.

(** ** [float] *)
Module F32.
Definition prec : Z := 24.
Definition emax : Z := 128.
Definition of_Z (n : Z) : spec_float := binary_normalize prec emax n 0 false.
Definition add : spec_float -> spec_float -> spec_float := SFadd prec emax.
Definition sub : spec_float -> spec_float -> spec_float := SFsub prec emax.
Definition mul : spec_float -> spec_float -> spec_float := SFmul prec emax.
Definition div : spec_float -> spec_float -> spec_float := SFdiv prec emax.
Definition lt : spec_float -> spec_float -> bool := SFltb.
Definition ge : spec_float -> spec_float -> bool := SFgeb.
Definition eq : spec_float -> spec_float -> bool := SFeqb.
End F32.

(** ** [double] *)
Module F64.
Definition prec : Z := 53.
Definition emax : Z := 1024.
Definition of_Z (n : Z) : spec_float := binary_normalize prec emax n 0 false.
Definition add : spec_float -> spec_float -> spec_float := SFadd prec emax.
Definition mul : spec_float -> spec_float -> spec_float := SFmul prec emax.
Definition div : spec_float -> spec_float -> spec_float := SFdiv prec emax.
End F64.

(** ** Small integers are exact

    An integer of at most 24 bits converts without rounding, so comparing two
    of them as [float]s is comparing them. *)
Lemma digits_shift k p : digits2_pos (Pos.iter xO p k) = (digits2_pos p + k)%positive.
Proof.
  induction k as [|k IH] using Pos.peano_ind; [cbn [Pos.iter digits2_pos]; lia|].
  rewrite Pos.iter_succ. cbn [digits2_pos]. rewrite IH. lia.
Qed.

Lemma shift_pos_value k p : Zpos (Pos.iter xO p k) = Zpos p * 2 ^ Zpos k.
Proof.
  induction k as [|k IH] using Pos.peano_ind; [cbn; lia|].
  rewrite Pos.iter_succ, Pos2Z.inj_xO, IH, Pos2Z.inj_succ, Z.pow_succ_r by lia. lia.
Qed.

Lemma digits_bounds p : 2 ^ (Zpos (digits2_pos p) - 1) <= Zpos p < 2 ^ Zpos (digits2_pos p).
Proof.
  induction p as [p IH|p IH|]; cbn [digits2_pos]; [| |cbn; lia];
    rewrite Pos2Z.inj_succ;
    replace (Z.succ (Zpos (digits2_pos p)) - 1) with (Z.succ (Zpos (digits2_pos p) - 1)) by lia;
    rewrite !Z.pow_succ_r by lia; lia.
Qed.

(** The mantissa and exponent of an exact integer. *)
Lemma round_exact m e :
  digits2_pos m = 24%positive -> -149 <= e <= 104 ->
  binary_round_aux F32.prec F32.emax false (Zpos m) e loc_Exact = S754_finite false m e.
Proof.
  intros Hd He. unfold binary_round_aux, shr_fexp, fexp, F32.prec, F32.emax, emin. cbn [Zdigits2 Z.sub].
  rewrite Hd. replace (Z.max (24 + e - 24) (3 - 128 - 24) - e) with 0 by lia.
  cbn [shr shr_record_of_loc loc_of_shr_record round_nearest_even shr_m shr_r shr_s Zdigits2].
  rewrite Hd. replace (Z.max (24 + e - 24) (3 - 128 - 24) - e) with 0 by lia.
  cbn [shr shr_m]. replace (e <=? 128 - 24) with true by (symmetry; apply Z.leb_le; lia). reflexivity.
Qed.

Lemma of_Z_exact p :
  (digits2_pos p <= 24)%positive ->
  exists m, F32.of_Z (Zpos p) = S754_finite false m (Zpos (digits2_pos p) - 24) /\
            Zpos m = Zpos p * 2 ^ (24 - Zpos (digits2_pos p)).
Proof.
  intros Hd. unfold F32.of_Z, binary_normalize, binary_round, shl_align, fexp.
  unfold emin. replace (Z.max _ _ - 0) with (Zpos (digits2_pos p) - 24) by (unfold F32.prec, F32.emax; lia).
  replace (Z.max _ _) with (Zpos (digits2_pos p) - 24) by (unfold F32.prec, F32.emax; lia).
  destruct (Zpos (digits2_pos p) - 24) as [|q|q] eqn:E; [|lia|].
  - exists p. rewrite round_exact; [|lia|lia]. split; [reflexivity|].
    replace (24 - Zpos (digits2_pos p)) with 0 by lia. lia.
  - exists (Pos.iter xO p q). rewrite round_exact; [|rewrite digits_shift; lia|lia]. split; [reflexivity|].
    rewrite shift_pos_value. f_equal. f_equal. lia.
Qed.

Lemma F32_compare_exact a b :
  0 <= a < 2 ^ 24 -> 0 <= b < 2 ^ 24 -> SFcompare (F32.of_Z a) (F32.of_Z b) = Some (a ?= b).
Proof.
  assert (Hdig : forall p, Zpos p < 2 ^ 24 -> (digits2_pos p <= 24)%positive).
  { intros p Hp. destruct (digits_bounds p) as [Hl _]. destruct (Pos.leb_spec (digits2_pos p) 24); [assumption|].
    assert (2 ^ 24 <= 2 ^ (Zpos (digits2_pos p) - 1)) by (apply Z.pow_le_mono_r; lia). lia. }
  intros Ha Hb. destruct a as [|p|p]; [| |lia]; destruct b as [|q|q]; try lia.
  - reflexivity.
  - destruct (of_Z_exact q) as (m & Hm & _); [apply Hdig; lia|]. rewrite Hm. reflexivity.
  - destruct (of_Z_exact p) as (m & Hm & _); [apply Hdig; lia|]. rewrite Hm. reflexivity.
  - destruct (of_Z_exact p) as (m & Hm & Vm); [apply Hdig; lia|]. destruct (of_Z_exact q) as (n & Hn & Vn); [apply Hdig; lia|].
    rewrite Hm, Hn. cbn [SFcompare]. destruct (digits_bounds p) as [Lp Up]. destruct (digits_bounds q) as [Lq Uq].
    destruct (Z.compare_spec (Zpos (digits2_pos p) - 24) (Zpos (digits2_pos q) - 24)) as [He|He|He].
    + f_equal. change (Pos.compare_cont Eq m n) with (Zpos m ?= Zpos n).
      rewrite Vm, Vn. replace (Zpos (digits2_pos q)) with (Zpos (digits2_pos p)) by lia.
      symmetry. apply Zmult_compare_compat_r. apply Z.lt_gt, Z.pow_pos_nonneg; [lia|]. specialize (Hdig p). lia.
    + f_equal. symmetry. apply Z.compare_lt_iff.
      assert (2 ^ Zpos (digits2_pos p) <= 2 ^ (Zpos (digits2_pos q) - 1)) by (apply Z.pow_le_mono_r; lia). lia.
    + f_equal. symmetry. apply Z.compare_gt_iff.
      assert (2 ^ Zpos (digits2_pos q) <= 2 ^ (Zpos (digits2_pos p) - 1)) by (apply Z.pow_le_mono_r; lia). lia.
Qed.

Lemma F32_lt_exact a b : 0 <= a < 2 ^ 24 -> 0 <= b < 2 ^ 24 -> F32.lt (F32.of_Z a) (F32.of_Z b) = (a <? b).
Proof. intros Ha Hb. unfold F32.lt, SFltb. rewrite F32_compare_exact by assumption. unfold Z.ltb. destruct (a ?= b); reflexivity. Qed.

Lemma F32_ge_exact a b : 0 <= a < 2 ^ 24 -> 0 <= b < 2 ^ 24 -> F32.ge (F32.of_Z a) (F32.of_Z b) = (b <=? a).
Proof.
  intros Ha Hb. unfold F32.ge, SFgeb. rewrite F32_compare_exact by assumption.
  unfold Z.leb. rewrite (Z.compare_antisym a b). destruct (a ?= b); reflexivity.
Qed.

(** ** Rounding never adds more than one part in 2^52 *)
Lemma shr_1_half r : 0 <= shr_m r -> shr_m (shr_1 r) = shr_m r / 2.
Proof.
  destruct r as [[|[p|p|]|p] a b]; cbn [shr_m shr_1]; intros H; try reflexivity; [| |lia].
  - rewrite Pos2Z.inj_xI. rewrite Z.add_comm, Z.mul_comm, Z.div_add by lia. reflexivity.
  - rewrite Pos2Z.inj_xO, Z.mul_comm, Z.div_mul by lia. reflexivity.
Qed.

Lemma shr_iter p : forall r, 0 <= shr_m r -> shr_m (iter_pos shr_1 p r) = shr_m r / 2 ^ Zpos p.
Proof.
  assert (Hhalf : forall a k, 0 <= a -> 0 <= a / 2 ^ Zpos k) by (intros; apply Z.div_pos; lia).
  induction p as [p IH|p IH|]; intros r Hr; cbn [iter_pos].
  - assert (H1 : 0 <= shr_m (shr_1 r)) by (rewrite shr_1_half by assumption; apply Z.div_pos; lia).
    assert (H2 : 0 <= shr_m (iter_pos shr_1 p (shr_1 r))) by (rewrite IH by assumption; auto).
    assert (Hpow : 2 ^ Zpos p~1 = 2 * 2 ^ Zpos p * 2 ^ Zpos p).
    { replace (Zpos p~1) with (1 + Zpos p + Zpos p) by lia. rewrite !Z.pow_add_r by lia. reflexivity. }
    rewrite IH, IH, shr_1_half by assumption. rewrite Hpow, !Z.div_div by lia. f_equal. lia.
  - assert (H2 : 0 <= shr_m (iter_pos shr_1 p r)) by (rewrite IH by assumption; auto).
    assert (Hpow : 2 ^ Zpos p~0 = 2 ^ Zpos p * 2 ^ Zpos p).
    { replace (Zpos p~0) with (Zpos p + Zpos p) by lia. rewrite Z.pow_add_r by lia. reflexivity. }
    rewrite IH, IH by assumption. rewrite Hpow, Z.div_div by lia. reflexivity.
  - rewrite shr_1_half by assumption. reflexivity.
Qed.

Lemma shr_value r e n r' e' :
  0 <= shr_m r -> shr r e n = (r', e') -> shr_m r' = shr_m r / 2 ^ Z.max 0 n /\ e' = e + Z.max 0 n.
Proof.
  intros Hr. destruct n as [|p|p]; cbn [shr]; intros [= <- <-].
  - rewrite Z.div_1_r. split; [reflexivity|lia].
  - rewrite shr_iter by assumption. split; reflexivity.
  - change (Z.max 0 (Zneg p)) with 0. rewrite Z.div_1_r. split; [reflexivity|lia].
Qed.

Lemma shr_record_m m l : shr_m (shr_record_of_loc m l) = m.
Proof. destruct l as [|[]]; reflexivity. Qed.

Lemma round_nearest_le m l : m <= round_nearest_even m l <= m + 1.
Proof. destruct l as [|[]]; cbn; try destruct (Z.even m); lia. Qed.

Lemma Zdigits_bounds m : 0 < m -> 2 ^ (Zdigits2 m - 1) <= m < 2 ^ Zdigits2 m.
Proof. intros H. destruct m as [|p|p]; try lia. apply digits_bounds. Qed.

(** Rounding a number with at least [p] significant bits, in the range of normal
    numbers: the result has [p] bits and differs by less than one part in
    2^(p-1); it is infinite only beyond the largest exponent. *)
Section Rounding.
Context (p em : Z) (Hp : 2 <= p).
#[local] Notation half := (2 ^ (p - 1)).

Lemma digits_of m k : 0 < k -> 2 ^ (k - 1) <= Zpos m < 2 ^ k -> Zpos (digits2_pos m) = k.
Proof.
  intros Hk [Hl Hu]. destruct (digits_bounds m) as [Ml Mu]. set (d := Zpos (digits2_pos m)) in *.
  destruct (Z.lt_trichotomy d k) as [Hlt|[|Hgt]]; [|assumption|]; exfalso.
  - assert (2 ^ d <= 2 ^ (k - 1)) by (apply Z.pow_le_mono_r; lia). lia.
  - assert (2 ^ k <= 2 ^ (d - 1)) by (apply Z.pow_le_mono_r; lia). lia.
Qed.

Lemma Zdigits_of m k : 0 < k -> 2 ^ (k - 1) <= m < 2 ^ k -> Zdigits2 m = k.
Proof. intros Hk Hm. destruct m as [|q|q]; [|now apply digits_of|]; assert (0 < 2 ^ (k - 1)) by lia; lia. Qed.

Lemma round_aux_normal mx ex l :
  0 < mx -> p <= Zdigits2 mx -> emin p em <= Zdigits2 mx + ex - p ->
  match binary_round_aux p em false mx ex l with
  | S754_finite s m e => s = false /\ Zpos (digits2_pos m) = p /\ ex <= e /\
      mx * (half - 1) <= Zpos m * 2 ^ (e - ex) * half <= mx * (half + 1)
  | S754_infinity s => s = false /\ em <= Zdigits2 mx + ex
  | _ => False
  end.
Proof.
  intros Hm Hd He. unfold binary_round_aux, shr_fexp.
  destruct (shr (shr_record_of_loc mx l) _ _) as [r1 e1] eqn:E1. apply shr_value in E1; [|rewrite shr_record_m; lia].
  rewrite shr_record_m in E1. destruct E1 as [Hr1 He1]. destruct (Zdigits_bounds mx Hm) as [Hlow Hhigh]. set (d := Zdigits2 mx) in *.
  replace (Z.max 0 (fexp p em (d + ex) - ex)) with (d - p) in * by (unfold fexp; lia).
  pose proof (round_nearest_le (shr_m r1) (loc_of_shr_record r1)) as Hrd. set (r := round_nearest_even _ _) in *.
  set (P := 2 ^ (d - p)) in *. assert (HP : 0 < P) by (apply Z.pow_pos_nonneg; lia). assert (HH : 0 < half) by lia.
  assert (Hlo : 2 ^ (d - 1) = half * P) by (unfold P; rewrite <- Z.pow_add_r by lia; f_equal; lia).
  assert (Hhi : 2 ^ d = 2 * half * P) by (replace d with (1 + (d - 1)) at 1 by lia; rewrite Z.pow_add_r, Hlo by lia; lia).
  set (q := mx / P) in *. assert (Hq : q * P <= mx < (q + 1) * P) by (pose proof (Z.div_mod mx P); pose proof (Z.mod_pos_bound mx P); unfold q; nia).
  assert (Hq1 : half <= q < 2 * half) by nia. rewrite Hr1 in Hrd. clearbody r q. clear Hr1 r1.
  assert (Hpow : 2 ^ p = 2 * half) by (replace p with (1 + (p - 1)) at 1 by lia; rewrite Z.pow_add_r by lia; lia).
  destruct (shr (shr_record_of_loc r loc_Exact) _ _) as [r2 e2] eqn:E2. apply shr_value in E2; [|rewrite shr_record_m; lia].
  rewrite shr_record_m in E2. destruct E2 as [Hr2 He2].
  assert (Hk : exists k, 0 <= k <= 1 /\ shr_m r2 * 2 ^ k = r /\ half <= shr_m r2 < 2 * half /\ e2 = e1 + k).
  { destruct (Z.eq_dec r (2 * half)) as [Hbig|Hsmall].
    - assert (Hdr : Zdigits2 r = p + 1) by (apply Zdigits_of; [lia|]; replace (p + 1 - 1) with p by lia; rewrite Z.pow_add_r by lia; lia).
      exists 1. rewrite Hdr in Hr2, He2. replace (Z.max 0 _) with 1 in * by (unfold fexp; lia). rewrite Hr2, Hbig. change (2 ^ 1) with 2.
      rewrite (Z.mul_comm 2 half), Z.div_mul by lia. lia.
    - assert (Hdr : Zdigits2 r = p) by (apply Zdigits_of; lia). exists 0. rewrite Hdr in Hr2, He2. replace (Z.max 0 _) with 0 in * by (unfold fexp; lia).
      change (2 ^ 0) with 1 in *. rewrite Z.div_1_r in Hr2. lia. }
  destruct Hk as (k & Hk & Hrk & Hb & He2'). destruct (shr_m r2) as [|m|m]; try lia. destruct (Z.leb_spec e2 (em - p)); [|lia].
  split; [reflexivity|]. split; [apply digits_of; lia|]. split; [lia|]. replace (e2 - ex) with (k + (d - p)) by lia.
  rewrite Z.pow_add_r by lia. fold P. rewrite Z.mul_assoc, Hrk. split; nia.
Qed.

(** The result below the normal numbers has the least exponent. *)
Lemma round_aux_subnormal mx ex l :
  0 < mx -> ex <= emin p em -> Zdigits2 mx + ex - p < emin p em ->
  match binary_round_aux p em false mx ex l with S754_finite _ _ e => e = emin p em | _ => True end.
Proof.
  intros Hm Hx Hsub. unfold binary_round_aux, shr_fexp.
  destruct (shr (shr_record_of_loc mx l) _ _) as [r1 e1] eqn:E1. apply shr_value in E1; [|rewrite shr_record_m; lia].
  rewrite shr_record_m in E1. destruct E1 as [Hr1 He1]. destruct (Zdigits_bounds mx Hm) as [_ Hhigh]. set (d := Zdigits2 mx) in *.
  replace (Z.max 0 (fexp p em (d + ex) - ex)) with (emin p em - ex) in * by (unfold fexp; lia).
  pose proof (round_nearest_le (shr_m r1) (loc_of_shr_record r1)) as Hrd. set (r := round_nearest_even _ _) in *.
  assert (Hq : shr_m r1 < half).
  { rewrite Hr1. apply Z.div_lt_upper_bound; [lia|]. rewrite <- Z.pow_add_r by lia. eapply Z.lt_le_trans; [exact Hhigh|]. apply Z.pow_le_mono_r; lia. }
  assert (H0 : 0 <= shr_m r1) by (rewrite Hr1; apply Z.div_pos; lia).
  assert (Hdr : Zdigits2 r <= p).
  { destruct (Z.eq_dec r 0) as [->|]; [cbn; lia|]. destruct (Zdigits_bounds r ltac:(lia)) as [Hl _]. destruct (Z.le_gt_cases (Zdigits2 r) p) as [|Hgt]; [assumption|].
    assert (2 ^ p <= 2 ^ (Zdigits2 r - 1)) by (apply Z.pow_le_mono_r; lia). assert (half < 2 ^ p) by (apply Z.pow_lt_mono_r; lia). lia. }
  clearbody r. destruct (shr (shr_record_of_loc r loc_Exact) _ _) as [r2 e2] eqn:E2. apply shr_value in E2; [|rewrite shr_record_m; lia]. destruct E2 as [_ He2].
  destruct (shr_m r2) as [|m|m]; try exact I. destruct (_ <=? _); [|exact I]. rewrite He2. unfold fexp. lia.
Qed.

(** What is rounded, after it is shifted to the left. *)
Lemma shl_align_spec m e e' mz ez : shl_align m e e' = (mz, ez) -> ez = Z.min e e' /\ Zpos mz = Zpos m * 2 ^ (e - ez) /\ Zpos (digits2_pos mz) = Zpos (digits2_pos m) + (e - ez).
Proof.
  unfold shl_align. destruct (e' - e) as [|q|q] eqn:E; intros [= <- <-]; rewrite ?Z.sub_diag.
  1, 2: split; [lia|]; split; [cbn; lia|lia].
  split; [lia|]. replace (e - e') with (Zpos q) by lia. split; [apply shift_pos_value|rewrite digits_shift; lia].
Qed.

Lemma scale_shift m e ez K : ez <= e -> 0 <= ez + K -> m * 2 ^ (e - ez) * 2 ^ (ez + K) = m * 2 ^ (e + K).
Proof. intros H1 H2. rewrite <- Z.mul_assoc, <- Z.pow_add_r by lia. do 2 f_equal. lia. Qed.

Lemma normalize_normal m e z K :
  emin p em <= Zpos (digits2_pos m) + e - p -> p <= e + K ->
  match binary_normalize p em (Zpos m) e z with
  | S754_finite s m' e' => s = false /\ Zpos (digits2_pos m') = p /\ e - p < e' /\
      Zpos m * 2 ^ (e + K) * (half - 1) <= Zpos m' * 2 ^ (e' + K) * half <= Zpos m * 2 ^ (e + K) * (half + 1)
  | S754_infinity s => s = false /\ em <= Zpos (digits2_pos m) + e
  | _ => False
  end.
Proof.
  intros He HK. cbn [binary_normalize]. unfold binary_round. destruct (shl_align _ _ _) as [mz ez] eqn:Es. apply shl_align_spec in Es as (Hez & Hmz & Hdz).
  set (d := Zpos (digits2_pos m)) in *. assert (Hfe : fexp p em (d + e) = d + e - p) by (unfold fexp; lia). rewrite Hfe in Hez. assert (1 <= d) by lia.
  pose proof (round_aux_normal (Zpos mz) ez loc_Exact ltac:(lia)) as Hr. change (Zdigits2 (Zpos mz)) with (Zpos (digits2_pos mz)) in Hr. rewrite Hdz in Hr.
  specialize (Hr ltac:(lia) ltac:(lia)). destruct (binary_round_aux _ _ _ _ _ _) as [|s| |s m' e']; try exact Hr; [destruct Hr; split; [assumption|lia]|].
  destruct Hr as (-> & Hd & Hle & Hlo & Hhi). split; [reflexivity|]. split; [assumption|]. split; [lia|]. rewrite <- (scale_shift (Zpos m') e' ez K) by lia. rewrite <- (scale_shift (Zpos m) e ez K), <- Hmz by lia.
  set (Q := 2 ^ (ez + K)). assert (0 <= Q) by (unfold Q; lia). split; nia.
Qed.

Lemma normalize_canonical m e z s m' e' : binary_normalize p em (Zpos m) e z = S754_finite s m' e' -> emin p em < e' -> s = false /\ Zpos (digits2_pos m') = p.
Proof.
  intros Hn He'. destruct (Z.le_gt_cases (emin p em) (Zpos (digits2_pos m) + e - p)) as [Hnorm|Hsub].
  - pose proof (normalize_normal m e z (p - e) Hnorm ltac:(lia)) as Hr. rewrite Hn in Hr. now destruct Hr as (-> & ? & _).
  - exfalso. cbn [binary_normalize] in Hn. unfold binary_round in Hn. destruct (shl_align _ _ _) as [mz ez] eqn:Es. apply shl_align_spec in Es as (Hez & Hmz & Hdz).
    assert (Hfe : fexp p em (Zpos (digits2_pos m) + e) = emin p em) by (unfold fexp; lia). rewrite Hfe in Hez.
    pose proof (round_aux_subnormal (Zpos mz) ez loc_Exact ltac:(lia)) as Hr. change (Zdigits2 (Zpos mz)) with (Zpos (digits2_pos mz)) in Hr. rewrite Hdz in Hr.
    specialize (Hr ltac:(lia) ltac:(lia)). rewrite Hn in Hr. lia.
Qed.

(** The sum of two positive numbers. *)
Lemma add_pos m1 e1 m2 e2 : exists m, SFadd p em (S754_finite false m1 e1) (S754_finite false m2 e2) = binary_normalize p em (Zpos m) (Z.min e1 e2) false /\
  forall K, 0 <= Z.min e1 e2 + K -> Zpos m * 2 ^ (Z.min e1 e2 + K) = Zpos m1 * 2 ^ (e1 + K) + Zpos m2 * 2 ^ (e2 + K).
Proof.
  cbn [SFadd cond_Zopp]. set (ez := Z.min e1 e2). destruct (shl_align m1 e1 ez) as [a za] eqn:Ea. destruct (shl_align m2 e2 ez) as [b zb] eqn:Eb.
  apply shl_align_spec in Ea as (Hza & Ha & _). apply shl_align_spec in Eb as (Hzb & Hb & _). replace za with ez in * by lia. replace zb with ez in * by lia.
  exists (a + b)%positive. split; [reflexivity|]. intros K HK. rewrite Pos2Z.inj_add, Ha, Hb, Z.mul_add_distr_r, !scale_shift by lia. reflexivity.
Qed.
End Rounding.

(** A number with at least 53 significant bits, rounded to a [double]. *)
Lemma F64_round_above mx ex l :
  2 ^ 52 <= mx -> -1074 <= ex ->
  match binary_round_aux F64.prec F64.emax false mx ex l with
  | S754_finite s m e => s = false /\ ex <= e /\ Zpos m * 2 ^ (e - ex) * 2 ^ 52 <= mx * (2 ^ 52 + 1)
  | _ => True
  end.
Proof.
  intros Hm He. assert (Hd : 53 <= Zdigits2 mx).
  { destruct (Zdigits_bounds mx ltac:(lia)) as [_ Hh]. destruct (Z.le_gt_cases 53 (Zdigits2 mx)) as [|Hlt]; [assumption|]. exfalso. assert (2 ^ Zdigits2 mx <= 2 ^ 52) by (apply Z.pow_le_mono_r; lia). lia. }
  pose proof (round_aux_normal 53 1024 ltac:(lia) mx ex l ltac:(lia) Hd ltac:(unfold emin; lia)) as Hr. change (53 - 1) with 52 in Hr. unfold F64.prec, F64.emax.
  destruct (binary_round_aux _ _ _ _ _ _); try exact I. destruct Hr as (-> & _ & ? & _ & ?). auto.
Qed.

(** Integers of at most 53 bits are [double]s. *)
Lemma F64_of_Z_exact p :
  Zpos p < 2 ^ 53 ->
  exists m e, F64.of_Z (Zpos p) = S754_finite false m e /\ -52 <= e <= 0 /\ Zpos m = Zpos p * 2 ^ (- e) /\
    digits2_pos m = 53%positive.
Proof.
  intros Hp. destruct (digits_bounds p) as [Hl _].
  assert (Hd : Zpos (digits2_pos p) <= 53).
  { destruct (Z.le_gt_cases (Zpos (digits2_pos p)) 53) as [|Hlt]; [assumption|]. exfalso.
    assert (2 ^ 53 <= 2 ^ (Zpos (digits2_pos p) - 1)) by (apply Z.pow_le_mono_r; lia). lia. }
  unfold F64.of_Z, binary_normalize, binary_round, shl_align, fexp, emin.
  replace (Z.max _ _ - 0) with (Zpos (digits2_pos p) - 53) by (unfold F64.prec, F64.emax; lia).
  replace (Z.max _ _) with (Zpos (digits2_pos p) - 53) by (unfold F64.prec, F64.emax; lia).
  assert (Hround : forall m e, digits2_pos m = 53%positive -> -52 <= e <= 0 ->
    binary_round_aux F64.prec F64.emax false (Zpos m) e loc_Exact = S754_finite false m e).
  { intros m e Hm He. unfold binary_round_aux, shr_fexp, fexp, F64.prec, F64.emax, emin. cbn [Zdigits2 Z.sub].
    rewrite Hm. replace (Z.max (53 + e - 53) (3 - 1024 - 53) - e) with 0 by lia.
    cbn [shr shr_record_of_loc loc_of_shr_record round_nearest_even shr_m shr_r shr_s Zdigits2].
    rewrite Hm. replace (Z.max (53 + e - 53) (3 - 1024 - 53) - e) with 0 by lia.
    cbn [shr shr_m]. replace (e <=? 1024 - 53) with true by (symmetry; apply Z.leb_le; lia). reflexivity. }
  destruct (Zpos (digits2_pos p) - 53) as [|q|q] eqn:E; [|lia|].
  - exists p, 0. rewrite Hround by lia. split; [reflexivity|]. split; [lia|]. split; [cbn; lia|lia].
  - exists (Pos.iter xO p q), (Zneg q). assert (Hds : digits2_pos (Pos.iter xO p q) = 53%positive) by (rewrite digits_shift; lia).
    rewrite Hround by lia. split; [reflexivity|]. split; [lia|]. split; [apply shift_pos_value|exact Hds].
Qed.

Lemma SFtrunc_le m e K : 0 <= e + K -> 0 <= K -> SFtrunc (S754_finite false m e) * 2 ^ K <= Zpos m * 2 ^ (e + K).
Proof.
  intros HeK HK. cbn [SFtrunc]. destruct (Z.leb_spec 0 e) as [He|He].
  - rewrite Z.pow_add_r by lia. lia.
  - replace K with (- e + (e + K)) at 1 by lia. rewrite Z.pow_add_r by lia.
    assert (H : Zpos m / 2 ^ (- e) * 2 ^ (- e) <= Zpos m) by (rewrite Z.mul_comm; apply Z.mul_div_le; lia).
    assert (0 <= 2 ^ (e + K)) by lia. nia.
Qed.

Lemma SFtrunc_ge m e K c : 0 <= e + K -> 0 <= K -> c * 2 ^ K <= Zpos m * 2 ^ (e + K) -> c <= SFtrunc (S754_finite false m e).
Proof.
  intros HeK HK Hc. cbn [SFtrunc]. destruct (Z.leb_spec 0 e) as [He|He].
  - rewrite Z.pow_add_r in Hc by lia. assert (0 < 2 ^ K) by lia. nia.
  - apply Z.div_le_lower_bound; [lia|]. replace K with (- e + (e + K)) in Hc at 1 by lia. rewrite Z.pow_add_r in Hc by lia. assert (0 < 2 ^ (e + K)) by lia. nia.
Qed.

(** Comparing positive numbers compares their exponents first. *)
Lemma SFltb_pos m1 e1 m2 e2 :
  SFltb (S754_finite false m1 e1) (S754_finite false m2 e2) = (e1 <? e2) || (e1 =? e2) && (Zpos m1 <? Zpos m2).
Proof.
  unfold SFltb. cbn [SFcompare]. destruct (Z.compare_spec e1 e2) as [->|Hlt|Hgt].
  - rewrite Z.ltb_irrefl, Z.eqb_refl. cbn [orb andb]. reflexivity.
  - now rewrite (proj2 (Z.ltb_lt e1 e2)).
  - now rewrite (proj2 (Z.ltb_ge e1 e2)), (proj2 (Z.eqb_neq e1 e2)) by lia.
Qed.
