(* ===== verification/ReliableLink.v ===== *)
(** * ReliableLink: the reliable link layer of daemon/reliable_datagram.c

    One end of a reliable link: the congestion window of packets sent and not
    yet acknowledged, the buffer in front of it, the receiving window with its
    holes, cumulative and negative acknowledgements, retransmission timeouts
    and congestion control.  The fields are those of [Reliable_Data] (link.h)
    with the few globals the functions use; the packets handed to [Link_Send]
    are collected in [wire].  An array of [MAX_WINDOW] cells is a map from the
    index, with the initial cell where nothing was written.  [now] is the clock
    read at the start of a function and [rnd] the value of [rand() % 10].
    Allocation succeeds; lengths are those of a packet body (below 2^15). *)
From Stdlib Require Import SpecFloat.
From stdpp Require Import base list gmap numbers option sets.
From Stdlib Require Import ZArith Lia.
From S2P Require Import Prelude CFloat Events NetTypes.
#[local] Open Scope Z_scope.

Definition MAX_WINDOW : Z := 20000.
Definition MAX_CG_WINDOW : Z := 20000.
Definition MAX_BUFF_LINK : Z := 10000.
Definition DEAD_LINK_CNT : Z := 10.
Definition PACK_MAX_SEQ : Z := 30000.

(** ** Packet types *)
Definition RELIABLE_TYPE : Z := 0x40000000.
Definition ECN_DATA_T1 : Z := 0x00000100.
Definition ECN_DATA_T2 : Z := 0x00000200.
Definition ECN_DATA_T3 : Z := 0x00000300.
Definition ECN_DATA_MASK : Z := 0x00000300.
Definition LINK_ACK_TYPE : Z := 0x00000001.
Definition UDP_DATA_TYPE : Z := 0x00000002.
Definition REL_UDP_DATA_TYPE : Z := 0x00000003.
Definition DATA_MASK : Z := 0x0000007f.
Definition Is_link_ack (t : Z) : bool := Z.land t DATA_MASK =? LINK_ACK_TYPE.

(** ** Cells and packets *)

(** [bc_buff]: the bytes of the message, [None] for a NULL pointer. *)
Record Buffer_Cell := mk_bcell
  { bc_seq : Z; bc_buff : option (list Z); bc_type : Z; bc_len : Z; bc_time : sp_time; bc_resent : bool }.
Definition empty_bcell : Buffer_Cell := mk_bcell 0 None 0 0 (mk_time 0 0) false.

Inductive cell_flag := EMPTY_CELL | RECVD_CELL | NACK_CELL.
#[export] Instance cell_flag_eq_dec : EqDecision cell_flag.
Proof. solve_decision. Defined.

Record Recv_Cell := mk_rcell { rc_flag : cell_flag; nack_sent : sp_time }.
Definition empty_rcell : Recv_Cell := mk_rcell EMPTY_CELL (mk_time 0 0).

(** A packet on the wire: header type, length and loss sequence number, the
    message, and the reliable tail with the negative acknowledgements. *)
Record packet := mk_packet
  { p_type : Z; p_len : Z; p_loss_seq : Z; p_data : list Z;
    p_seq : Z; p_ack : Z; p_nacks : list Z }.

Inductive link_handler :=
| HSend_Ack | HReliable_timeout | HSend_Nack_Retransm | HTry_to_Send | HSend_Hello_Request.
#[export] Instance link_handler_eq_dec : EqDecision link_handler.
Proof. solve_decision. Defined.

Inductive session_call := Block_All_Sessions | Resume_All_Sessions.

(** Command-line options, and the sizes that follow from the configuration. *)
Record link_conf := mk_conf
  { Wireless_link : bool; Fast_Retransmit : bool; Stream_Fairness : bool; TCP_Fairness : bool;
    Minimum_Window : Z; network_flag : bool;
    MultiPath_Bitmask_Size : Z; Prio_Signature_Len : Z; Rel_Signature_Len : Z }.

Record link := mk_link
  { link_id : Z;
    connected : bool;
    seq_no : Z;
    msg_buff : list Buffer_Cell;
    window_size : spec_float;
    max_window : Z;
    ssthresh : Z;
    window : gmap Z Buffer_Cell;
    win_head : Z;
    win_tail : Z;
    recv_window : gmap Z Recv_Cell;
    recv_head : Z;
    recv_tail : Z;
    nack_buff : list Z;
    scheduled_ack : bool;
    scheduled_timeout : bool;
    timeout_multiply : Z;
    rtt : Z;
    cong_flag : bool;
    my_seqs : Z;
    lk_queue : list (@time_event link_handler unit);
    Link_Sessions_Blocked_On : Z;
    session_calls : list session_call;
    wire : list packet }.

(** ** Field updates *)
Definition with_seq_no (v : Z) (l : link) : link := mk_link
    (link_id l) (connected l) v (msg_buff l) (window_size l) (max_window l) (ssthresh l) (window l)
    (win_head l) (win_tail l) (recv_window l) (recv_head l) (recv_tail l) (nack_buff l) (scheduled_ack
    l) (scheduled_timeout l) (timeout_multiply l) (rtt l) (cong_flag l) (my_seqs l) (lk_queue l)
    (Link_Sessions_Blocked_On l) (session_calls l) (wire l).
Definition with_msg_buff (v : list Buffer_Cell) (l : link) : link := mk_link
    (link_id l) (connected l) (seq_no l) v (window_size l) (max_window l) (ssthresh l) (window l)
    (win_head l) (win_tail l) (recv_window l) (recv_head l) (recv_tail l) (nack_buff l) (scheduled_ack
    l) (scheduled_timeout l) (timeout_multiply l) (rtt l) (cong_flag l) (my_seqs l) (lk_queue l)
    (Link_Sessions_Blocked_On l) (session_calls l) (wire l).
Definition with_window_size (v : spec_float) (l : link) : link := mk_link
    (link_id l) (connected l) (seq_no l) (msg_buff l) v (max_window l) (ssthresh l) (window l) (win_head
    l) (win_tail l) (recv_window l) (recv_head l) (recv_tail l) (nack_buff l) (scheduled_ack l)
    (scheduled_timeout l) (timeout_multiply l) (rtt l) (cong_flag l) (my_seqs l) (lk_queue l)
    (Link_Sessions_Blocked_On l) (session_calls l) (wire l).
Definition with_ssthresh (v : Z) (l : link) : link := mk_link
    (link_id l) (connected l) (seq_no l) (msg_buff l) (window_size l) (max_window l) v (window l)
    (win_head l) (win_tail l) (recv_window l) (recv_head l) (recv_tail l) (nack_buff l) (scheduled_ack
    l) (scheduled_timeout l) (timeout_multiply l) (rtt l) (cong_flag l) (my_seqs l) (lk_queue l)
    (Link_Sessions_Blocked_On l) (session_calls l) (wire l).
Definition with_window (v : gmap Z Buffer_Cell) (l : link) : link := mk_link
    (link_id l) (connected l) (seq_no l) (msg_buff l) (window_size l) (max_window l) (ssthresh l) v
    (win_head l) (win_tail l) (recv_window l) (recv_head l) (recv_tail l) (nack_buff l) (scheduled_ack
    l) (scheduled_timeout l) (timeout_multiply l) (rtt l) (cong_flag l) (my_seqs l) (lk_queue l)
    (Link_Sessions_Blocked_On l) (session_calls l) (wire l).
Definition with_head (v : Z) (l : link) : link := mk_link
    (link_id l) (connected l) (seq_no l) (msg_buff l) (window_size l) (max_window l) (ssthresh l)
    (window l) v (win_tail l) (recv_window l) (recv_head l) (recv_tail l) (nack_buff l) (scheduled_ack
    l) (scheduled_timeout l) (timeout_multiply l) (rtt l) (cong_flag l) (my_seqs l) (lk_queue l)
    (Link_Sessions_Blocked_On l) (session_calls l) (wire l).
Definition with_tail (v : Z) (l : link) : link := mk_link
    (link_id l) (connected l) (seq_no l) (msg_buff l) (window_size l) (max_window l) (ssthresh l)
    (window l) (win_head l) v (recv_window l) (recv_head l) (recv_tail l) (nack_buff l) (scheduled_ack
    l) (scheduled_timeout l) (timeout_multiply l) (rtt l) (cong_flag l) (my_seqs l) (lk_queue l)
    (Link_Sessions_Blocked_On l) (session_calls l) (wire l).
Definition with_recv_window (v : gmap Z Recv_Cell) (l : link) : link := mk_link
    (link_id l) (connected l) (seq_no l) (msg_buff l) (window_size l) (max_window l) (ssthresh l)
    (window l) (win_head l) (win_tail l) v (recv_head l) (recv_tail l) (nack_buff l) (scheduled_ack l)
    (scheduled_timeout l) (timeout_multiply l) (rtt l) (cong_flag l) (my_seqs l) (lk_queue l)
    (Link_Sessions_Blocked_On l) (session_calls l) (wire l).
Definition with_recv_head (v : Z) (l : link) : link := mk_link
    (link_id l) (connected l) (seq_no l) (msg_buff l) (window_size l) (max_window l) (ssthresh l)
    (window l) (win_head l) (win_tail l) (recv_window l) v (recv_tail l) (nack_buff l) (scheduled_ack l)
    (scheduled_timeout l) (timeout_multiply l) (rtt l) (cong_flag l) (my_seqs l) (lk_queue l)
    (Link_Sessions_Blocked_On l) (session_calls l) (wire l).
Definition with_recv_tail (v : Z) (l : link) : link := mk_link
    (link_id l) (connected l) (seq_no l) (msg_buff l) (window_size l) (max_window l) (ssthresh l)
    (window l) (win_head l) (win_tail l) (recv_window l) (recv_head l) v (nack_buff l) (scheduled_ack l)
    (scheduled_timeout l) (timeout_multiply l) (rtt l) (cong_flag l) (my_seqs l) (lk_queue l)
    (Link_Sessions_Blocked_On l) (session_calls l) (wire l).
Definition with_nack_buff (v : list Z) (l : link) : link := mk_link
    (link_id l) (connected l) (seq_no l) (msg_buff l) (window_size l) (max_window l) (ssthresh l)
    (window l) (win_head l) (win_tail l) (recv_window l) (recv_head l) (recv_tail l) v (scheduled_ack l)
    (scheduled_timeout l) (timeout_multiply l) (rtt l) (cong_flag l) (my_seqs l) (lk_queue l)
    (Link_Sessions_Blocked_On l) (session_calls l) (wire l).
Definition with_scheduled_ack (v : bool) (l : link) : link := mk_link
    (link_id l) (connected l) (seq_no l) (msg_buff l) (window_size l) (max_window l) (ssthresh l)
    (window l) (win_head l) (win_tail l) (recv_window l) (recv_head l) (recv_tail l) (nack_buff l) v
    (scheduled_timeout l) (timeout_multiply l) (rtt l) (cong_flag l) (my_seqs l) (lk_queue l)
    (Link_Sessions_Blocked_On l) (session_calls l) (wire l).
Definition with_scheduled_timeout (v : bool) (l : link) : link := mk_link
    (link_id l) (connected l) (seq_no l) (msg_buff l) (window_size l) (max_window l) (ssthresh l)
    (window l) (win_head l) (win_tail l) (recv_window l) (recv_head l) (recv_tail l) (nack_buff l)
    (scheduled_ack l) v (timeout_multiply l) (rtt l) (cong_flag l) (my_seqs l) (lk_queue l)
    (Link_Sessions_Blocked_On l) (session_calls l) (wire l).
Definition with_timeout_multiply (v : Z) (l : link) : link := mk_link
    (link_id l) (connected l) (seq_no l) (msg_buff l) (window_size l) (max_window l) (ssthresh l)
    (window l) (win_head l) (win_tail l) (recv_window l) (recv_head l) (recv_tail l) (nack_buff l)
    (scheduled_ack l) (scheduled_timeout l) v (rtt l) (cong_flag l) (my_seqs l) (lk_queue l)
    (Link_Sessions_Blocked_On l) (session_calls l) (wire l).
Definition with_rtt (v : Z) (l : link) : link := mk_link
    (link_id l) (connected l) (seq_no l) (msg_buff l) (window_size l) (max_window l) (ssthresh l)
    (window l) (win_head l) (win_tail l) (recv_window l) (recv_head l) (recv_tail l) (nack_buff l)
    (scheduled_ack l) (scheduled_timeout l) (timeout_multiply l) v (cong_flag l) (my_seqs l) (lk_queue
    l) (Link_Sessions_Blocked_On l) (session_calls l) (wire l).
Definition with_cong_flag (v : bool) (l : link) : link := mk_link
    (link_id l) (connected l) (seq_no l) (msg_buff l) (window_size l) (max_window l) (ssthresh l)
    (window l) (win_head l) (win_tail l) (recv_window l) (recv_head l) (recv_tail l) (nack_buff l)
    (scheduled_ack l) (scheduled_timeout l) (timeout_multiply l) (rtt l) v (my_seqs l) (lk_queue l)
    (Link_Sessions_Blocked_On l) (session_calls l) (wire l).
Definition with_my_seqs (v : Z) (l : link) : link := mk_link
    (link_id l) (connected l) (seq_no l) (msg_buff l) (window_size l) (max_window l) (ssthresh l)
    (window l) (win_head l) (win_tail l) (recv_window l) (recv_head l) (recv_tail l) (nack_buff l)
    (scheduled_ack l) (scheduled_timeout l) (timeout_multiply l) (rtt l) (cong_flag l) v (lk_queue l)
    (Link_Sessions_Blocked_On l) (session_calls l) (wire l).
Definition with_lk_queue (v : list (@time_event link_handler unit)) (l : link) : link := mk_link
    (link_id l) (connected l) (seq_no l) (msg_buff l) (window_size l) (max_window l) (ssthresh l)
    (window l) (win_head l) (win_tail l) (recv_window l) (recv_head l) (recv_tail l) (nack_buff l)
    (scheduled_ack l) (scheduled_timeout l) (timeout_multiply l) (rtt l) (cong_flag l) (my_seqs l) v
    (Link_Sessions_Blocked_On l) (session_calls l) (wire l).
Definition with_blocked (v : Z) (l : link) : link := mk_link
    (link_id l) (connected l) (seq_no l) (msg_buff l) (window_size l) (max_window l) (ssthresh l)
    (window l) (win_head l) (win_tail l) (recv_window l) (recv_head l) (recv_tail l) (nack_buff l)
    (scheduled_ack l) (scheduled_timeout l) (timeout_multiply l) (rtt l) (cong_flag l) (my_seqs l)
    (lk_queue l) v (session_calls l) (wire l).
Definition with_session_calls (v : list session_call) (l : link) : link := mk_link
    (link_id l) (connected l) (seq_no l) (msg_buff l) (window_size l) (max_window l) (ssthresh l)
    (window l) (win_head l) (win_tail l) (recv_window l) (recv_head l) (recv_tail l) (nack_buff l)
    (scheduled_ack l) (scheduled_timeout l) (timeout_multiply l) (rtt l) (cong_flag l) (my_seqs l)
    (lk_queue l) (Link_Sessions_Blocked_On l) v (wire l).
Definition with_wire (v : list packet) (l : link) : link := mk_link
    (link_id l) (connected l) (seq_no l) (msg_buff l) (window_size l) (max_window l) (ssthresh l)
    (window l) (win_head l) (win_tail l) (recv_window l) (recv_head l) (recv_tail l) (nack_buff l)
    (scheduled_ack l) (scheduled_timeout l) (timeout_multiply l) (rtt l) (cong_flag l) (my_seqs l)
    (lk_queue l) (Link_Sessions_Blocked_On l) (session_calls l) v.

(** ** The initial state ([Create_Link]) *)
Definition new_link (cfg : link_conf) (id : Z) : link :=
  mk_link id false 0 []
    (if TCP_Fairness cfg then F32.of_Z (Minimum_Window cfg) else F32.of_Z MAX_CG_WINDOW)
    MAX_CG_WINDOW MAX_CG_WINDOW ∅ 0 0 ∅ 0 0 [] false false 1 0 true PACK_MAX_SEQ [] (-1) [] [].

Definition wcell (w : gmap Z Buffer_Cell) (i : Z) : Buffer_Cell := default empty_bcell (w !! (i mod MAX_WINDOW)).
Definition rcell (w : gmap Z Recv_Cell) (i : Z) : Recv_Cell := default empty_rcell (w !! (i mod MAX_WINDOW)).
Definition set_wcell (i : Z) (c : Buffer_Cell) (w : gmap Z Buffer_Cell) : gmap Z Buffer_Cell := <[i mod MAX_WINDOW := c]> w.
Definition set_rcell (i : Z) (c : Recv_Cell) (w : gmap Z Recv_Cell) : gmap Z Recv_Cell := <[i mod MAX_WINDOW := c]> w.

(** ** The event queue *)
Definition queue_link (now : sp_time) (h : link_handler) (delta : sp_time) (l : link) : link :=
  with_lk_queue (E_queue now h (link_id l) tt delta (lk_queue l)) l.
Definition dequeue_link (h : link_handler) (l : link) : link :=
  with_lk_queue (snd (E_dequeue h (link_id l) tt (lk_queue l))) l.

(** ** Timeouts *)
Definition zero_time : sp_time := mk_time 0 0.
Definition rtt_time (r : Z) : sp_time :=
  mk_time (Z.quot (s32 (r * 2)) 1000000) (Z.rem (s32 (r * 2)) 1000000).

Definition wireless_floor (cfg : link_conf) (rnd : Z) (t : sp_time) : sp_time :=
  if Wireless_link cfg && (sec t =? 0) && (usec t <? 30000) then mk_time (sec t) (20000 + 5000 * rnd) else t.

Definition base_timeout (cfg : link_conf) (rnd r : Z) : sp_time :=
  let t := rtt_time r in
  let t := if (sec t =? 0) && (usec t =? 0) then mk_time 1 (usec t) else t in
  let t := if (sec t =? 0) && (usec t <? 2000) then mk_time (sec t) 2000 else t in
  wireless_floor cfg rnd t.

(** The order of the two corrections in [Process_Ack]. *)
Definition base_timeout_ack (cfg : link_conf) (rnd r : Z) : sp_time :=
  let t := rtt_time r in
  let t := if (sec t =? 0) && (usec t <? 2000) then mk_time (sec t) 2000
           else if (sec t =? 0) && (usec t =? 0) then mk_time 1 (usec t) else t in
  wireless_floor cfg rnd t.

Definition scale_timeout (multiply : Z) (t : sp_time) : sp_time :=
  let s := sec t * multiply in
  let u := usec t * multiply in
  let s := s + Z.quot u 1000000 in
  let u := Z.rem u 1000000 in
  if DEAD_LINK_CNT - 1 <? s then mk_time (DEAD_LINK_CNT - 1) u else mk_time s u.

(** The end of [Reliable_Send_Msg] and [Send_Much]. *)
Definition restart_timeout (cfg : link_conf) (now : sp_time) (rnd : Z) (l : link) : link :=
  let l := if scheduled_timeout l then dequeue_link HReliable_timeout l else l in
  with_scheduled_timeout true
    (queue_link now HReliable_timeout (scale_timeout (timeout_multiply l) (base_timeout cfg rnd (rtt l))) l).

Definition cancel_ack (l : link) : link :=
  if scheduled_ack l then dequeue_link HSend_Ack (with_scheduled_ack false l) else l.

(** ** Negative acknowledgements *)

(** A hole that was reported long enough ago is reported again. *)
Definition renack (now : sp_time) (r i : Z) (st : gmap Z Recv_Cell * list Z) : gmap Z Recv_Cell * list Z :=
  let '(rw, nacks) := st in
  let tmp_time := if r =? 0 then mk_time 1 0 else rtt_time r in
  let sum_time := E_add_time (nack_sent (rcell rw i)) tmp_time in
  if (sec sum_time <? sec now) || (sec sum_time =? sec now) && (usec sum_time <? usec now)
  then (set_rcell i (mk_rcell (rc_flag (rcell rw i)) now) rw, nacks ++ [i])
  else st.

(** [again]: [Send_Much] and [Send_Nack_Retransm] look at the cell a second
    time where the other functions have an [else]. *)
Definition nack_cell (cfg : link_conf) (again : bool) (now : sp_time) (r rhead i : Z)
    (st : gmap Z Recv_Cell * list Z) : gmap Z Recv_Cell * list Z :=
  let '(rw, nacks) := st in
  match rc_flag (rcell rw i) with
  | EMPTY_CELL =>
      if (3 <? rhead - i) || (1 <? rhead - i) && Fast_Retransmit cfg then
        let st := (set_rcell i (mk_rcell NACK_CELL now) rw, nacks ++ [i]) in
        if again then renack now r i st else st
      else st
  | NACK_CELL => renack now r i st
  | RECVD_CELL => st
  end.

Definition ack_len (nacks : list Z) : Z := sizeof_reliable_tail + 4 * Z.of_nat (length nacks).

(** The loop from [recv_tail] to [recv_head]; [n]: the iterations left. *)
Fixpoint nack_loop (cfg : link_conf) (again : bool) (now : sp_time) (r rhead data_len : Z) (n : nat) (i : Z)
    (st : gmap Z Recv_Cell * list Z) : gmap Z Recv_Cell * list Z :=
  match n with
  | O => st
  | S n =>
      if sizeof_packet_body - 4 <? ack_len (snd st) + data_len then st
      else nack_loop cfg again now r rhead data_len n (i + 1) (nack_cell cfg again now r rhead i st)
  end.

Definition add_nacks (cfg : link_conf) (again : bool) (now : sp_time) (data_len : Z) (l : link) : link * list Z :=
  let '(rw, nacks) :=
    nack_loop cfg again now (rtt l) (recv_head l) data_len (Z.to_nat (recv_head l - recv_tail l)) (recv_tail l)
              (recv_window l, []) in
  (with_recv_window rw l, nacks).

(** ** Sending one packet *)
Definition Set_Loss_SeqNo (l : link) : link :=
  let s := s16 (my_seqs l + 1) in with_my_seqs (if PACK_MAX_SEQ <=? s then 0 else s) l.

(** The header is prepared, then the packet goes to [Link_Send] if [go]. *)
Definition transmit (go : bool) (type data_len seq : Z) (data : list Z) (nacks : list Z) (l : link) : link :=
  let l := Set_Loss_SeqNo l in
  if go then with_wire (wire l ++ [mk_packet type data_len (my_seqs l) data seq (recv_tail l) nacks]) l else l.

(** A message enters the window and leaves on the wire. *)
Definition put_in_window (now : sp_time) (seq pack_type data_len : Z) (buff : list Z) (l : link) : link :=
  with_head (u32 (seq + 1))
    (with_window (set_wcell seq (mk_bcell seq (Some buff) pack_type data_len now false) (window l)) l).

(** ** Send_Much *)
Definition ecn (buff_size pack_type : Z) : Z :=
  if (Z.quot MAX_BUFF_LINK 4 <? buff_size) && (buff_size <=? Z.quot MAX_BUFF_LINK 2) then
    if Z.land pack_type ECN_DATA_MASK =? 0 then Z.lor pack_type ECN_DATA_T1 else pack_type
  else if (Z.quot MAX_BUFF_LINK 2 <? buff_size) && (buff_size <=? MAX_BUFF_LINK) then
    if Z.land pack_type ECN_DATA_MASK <? ECN_DATA_T2 then
      Z.lor (if Z.land pack_type ECN_DATA_MASK =? ECN_DATA_T1 then Z.lxor pack_type ECN_DATA_T1 else pack_type) ECN_DATA_T2
    else pack_type
  else if MAX_BUFF_LINK <? buff_size then Z.lor pack_type ECN_DATA_T3
  else pack_type.

(** [head - tail >= window_size] and [head - tail < window_size]. *)
Definition window_full (l : link) : bool := F32.ge (F32.of_Z (u32 (win_head l - win_tail l))) (window_size l).
Definition window_room (l : link) : bool := F32.lt (F32.of_Z (u32 (win_head l - win_tail l))) (window_size l).

(** The [while] loop; [queue] is the content of [msg_buff]. *)
Fixpoint send_much_loop (cfg : link_conf) (now : sp_time) (buff_size : Z) (queue : list Buffer_Cell) (l : link)
    : outcome link :=
  match queue with
  | [] => Ret l
  | c :: queue' =>
      if window_room l then
        let l := with_msg_buff queue' l in
        let pack_type := ecn buff_size (bc_type c) in
        if bc_seq c <? win_head l then Exit
        else
          send_buff ← or_else (bc_buff c) Fault;
          let l := put_in_window now (bc_seq c) pack_type (bc_len c) send_buff l in
          let '(l, nacks) := add_nacks cfg true now (bc_len c) l in
          let l := transmit true (Z.lor RELIABLE_TYPE pack_type) (bc_len c) (bc_seq c) send_buff nacks l in
          send_much_loop cfg now buff_size queue' l
      else Ret l
  end.

Definition resume_sessions (l : link) : link :=
  if (Link_Sessions_Blocked_On l =? link_id l) && (Z.of_nat (length (msg_buff l)) <? Z.quot MAX_BUFF_LINK 4)
  then with_blocked (-1) (with_session_calls (session_calls l ++ [Resume_All_Sessions]) l)
  else l.

Definition Send_Much (cfg : link_conf) (now : sp_time) (rnd : Z) (l : link) : outcome link :=
  if negb (connected l) then Ret l
  else if window_full l then Ret l
  else if bool_decide (msg_buff l = []) then Ret l
  else
    let buff_size := Z.of_nat (length (msg_buff l)) in
    l ← send_much_loop cfg now buff_size (msg_buff l) (cancel_ack l);
    Ret (restart_timeout cfg now rnd (resume_sessions l)).

Definition Try_to_Send : link_conf -> sp_time -> Z -> link -> outcome link := Send_Much.

(** ** Reliable_Send_Msg *)
Definition block_sessions (l : link) : link :=
  if (MAX_BUFF_LINK <? Z.of_nat (length (msg_buff l))) && (Link_Sessions_Blocked_On l =? -1)
  then with_session_calls (session_calls l ++ [Block_All_Sessions]) (with_blocked (link_id l) l)
  else l.

(** [true]: the packet was handed to the network (or would have been, with the
    network off); [false]: it waits in the buffer and 0 is returned. *)
Definition Reliable_Send_Msg (cfg : link_conf) (now : sp_time) (rnd : Z) (buff : list Z) (buff_len pack_type : Z)
    (l : link) : outcome (bool * link) :=
  let seq := seq_no l in
  let l := with_seq_no (u32 (seq + 1)) l in
  l ← (if connected l then Send_Much cfg now rnd l else Ret l);
  if window_full l || negb (bool_decide (msg_buff l = [])) || negb (connected l) then
    let buf_cell := mk_bcell seq (Some buff) pack_type buff_len (mk_time 0 0) false in
    Ret (false, block_sessions (with_msg_buff (msg_buff l ++ [buf_cell]) l))
  else if seq <? win_head l then Exit
  else
    let l := put_in_window now seq pack_type buff_len buff l in
    let l := cancel_ack l in
    let '(l, nacks) := add_nacks cfg false now buff_len l in
    let l := transmit (network_flag cfg) (Z.lor RELIABLE_TYPE pack_type) buff_len seq buff nacks l in
    Ret (true, restart_timeout cfg now rnd l).

(** ** Send_Ack *)
Definition Send_Ack (cfg : link_conf) (now : sp_time) (l : link) : outcome link :=
  if negb (connected l) then Exit
  else
    let l := with_scheduled_ack false l in
    let '(l, nacks) := add_nacks cfg false now 0 l in
    Ret (transmit (network_flag cfg) LINK_ACK_TYPE 0 0 [] nacks l).

(** ** Congestion control *)

(** The first [2 * sizeof(int32) + 2 * sizeof(int16u)] bytes name the stream. *)
Definition STREAM_BYTES : nat := 12.
Definition is_udp_type (t : Z) : bool :=
  negb (Z.land t UDP_DATA_TYPE =? 0) || negb (Z.land t REL_UDP_DATA_TYPE =? 0).

(** The loop that counts the packets of a stream in the window, from [cur_seq]
    on; [n]: the iterations left up to [head]. *)
Fixpoint count_stream (l : link) (stream : list Z) (n : nat) (cur_seq : Z) (acc : spec_float) : outcome spec_float :=
  match n with
  | O => Ret acc
  | S n =>
      if F32.lt (F32.of_Z cur_seq) (F32.add (F32.of_Z (win_tail l)) (window_size l)) then
        b ← or_else (bc_buff (wcell (window l) cur_seq)) Fault;
        count_stream l stream n (cur_seq + 1)
          (if bool_decide (take STREAM_BYTES b = stream) then F32.add acc (F32.of_Z 1) else acc)
      else Ret acc
  end.

(** The part of the window the stream of packet [seq] is taken to own. *)
Definition stream_window (cfg : link_conf) (l : link) (seq : Z) : outcome spec_float :=
  let c := wcell (window l) seq in
  if Stream_Fairness cfg && is_udp_type (bc_type c) then
    b ← or_else (bc_buff c) Fault;
    sw ← count_stream l (take STREAM_BYTES b) (Z.to_nat (win_head l - win_tail l)) (win_tail l) (F32.of_Z 0);
    Ret (if F32.eq sw (F32.of_Z 0) then F32.of_Z 1 else sw)
  else Ret (window_size l).

Definition at_least_minimum (cfg : link_conf) (w : spec_float) : spec_float :=
  if F32.lt w (F32.of_Z (Minimum_Window cfg)) then F32.of_Z (Minimum_Window cfg) else w.

(** [ssthresh] after a loss. *)
Definition loss_ssthresh (cfg : link_conf) (sw : spec_float) (l : link) : link :=
  let s := u32 (SFtrunc (F32.sub (window_size l) (F32.div sw (F32.of_Z 2)))) in
  with_ssthresh (if s <? u32 (Minimum_Window cfg) then u32 (Minimum_Window cfg) else s) l.

Definition timeout_congestion (cfg : link_conf) (sw : spec_float) (l : link) : link :=
  if TCP_Fairness cfg then
    let l := loss_ssthresh cfg sw l in
    with_window_size (at_least_minimum cfg (F32.add (F32.sub (window_size l) sw) (F32.of_Z 1))) l
  else l.

Definition nack_congestion (cfg : link_conf) (sw : spec_float) (l : link) : link :=
  if TCP_Fairness cfg then
    if cong_flag l then
      let l := loss_ssthresh cfg sw l in
      with_window_size (at_least_minimum cfg (F32.sub (window_size l) (F32.div sw (F32.of_Z 2)))) l
    else with_cong_flag true l
  else l.

(** Slow start and congestion avoidance. *)
Definition grow_window (cfg : link_conf) (sw : spec_float) (l : link) : link :=
  if TCP_Fairness cfg && negb (bool_decide (msg_buff l = [])) then
    let w := if F32.lt (window_size l) (F32.of_Z (ssthresh l)) then F32.add (window_size l) (F32.of_Z 1)
             else F32.add (window_size l) (F32.div (F32.of_Z 1) sw) in
    with_window_size (if F32.lt (F32.of_Z (max_window l)) w then F32.of_Z (max_window l) else w) l
  else l.

(** ** Retransmissions *)

(** Sending the packet of a window cell once more. *)
Definition resend (cfg : link_conf) (again : bool) (now : sp_time) (seq : Z) (l : link) : outcome link :=
  let c := wcell (window l) seq in
  send_buff ← or_else (bc_buff c) Fault;
  let l := with_window (set_wcell seq (mk_bcell (bc_seq c) (bc_buff c) (bc_type c) (bc_len c) (bc_time c) true) (window l)) l in
  let '(l, nacks) := add_nacks cfg again now (bc_len c) l in
  Ret (transmit (network_flag cfg) (Z.lor RELIABLE_TYPE (bc_type c)) (bc_len c) (bc_seq c) send_buff nacks l).

Fixpoint resend_window (cfg : link_conf) (now : sp_time) (n : nat) (cur_seq : Z) (l : link) : outcome link :=
  match n with
  | O => Ret l
  | S n => l ← resend cfg false now cur_seq l; resend_window cfg now n (cur_seq + 1) l
  end.

Definition Reliable_timeout (cfg : link_conf) (now : sp_time) (rnd : Z) (l : link) : outcome link :=
  if negb (connected l) then Exit
  else if win_head l =? win_tail l then Ret (with_scheduled_timeout false l)
  else
    sw ← stream_window cfg l (win_tail l);
    let l := cancel_ack (timeout_congestion cfg sw l) in
    l ← resend_window cfg now (Z.to_nat (win_head l - win_tail l)) (win_tail l) l;
    let t := base_timeout cfg rnd (rtt l) in
    let m := s16 (timeout_multiply l * 2) in
    let l := with_timeout_multiply (if 100 <? m then 100 else m) l in
    Ret (queue_link now HReliable_timeout (scale_timeout (timeout_multiply l) t) l).

(** The loop over the requested sequence numbers. *)
Fixpoint answer_nacks (cfg : link_conf) (now : sp_time) (nacks : list Z) (l : link) : outcome link :=
  match nacks with
  | [] => Ret l
  | nack_seq :: nacks' =>
      match bc_buff (wcell (window l) nack_seq) with
      | None => answer_nacks cfg now nacks' l
      | Some _ => l ← resend cfg true now nack_seq l; answer_nacks cfg now nacks' l
      end
  end.

Definition Send_Nack_Retransm (cfg : link_conf) (now : sp_time) (l : link) : outcome link :=
  if negb (connected l) then Exit
  else match nack_buff l with
  | [] => Ret l
  | nack_seq :: _ =>
      if win_head l =? win_tail l then Ret (with_scheduled_timeout false l)
      else
        sw ← stream_window cfg l nack_seq;
        let l := cancel_ack (nack_congestion cfg sw l) in
        l ← answer_nacks cfg now (nack_buff l) l;
        Ret (with_nack_buff [] l)
  end.

(** ** Process_Ack *)

(** Negative acknowledgements are kept as far as the buffer reaches. *)
Definition keep_nacks (now : sp_time) (nacks : list Z) (l : link) : link :=
  if sizeof_reliable_tail <? ack_len nacks then
    let nack_len := 4 * Z.of_nat (length (nack_buff l)) in
    let to_copy := if sizeof_packet_body <? nack_len + ack_len nacks - sizeof_reliable_tail
                   then sizeof_packet_body - nack_len
                   else ack_len nacks - sizeof_reliable_tail in
    queue_link now HSend_Nack_Retransm zero_time
      (with_nack_buff (nack_buff l ++ take (Z.to_nat (Z.quot to_copy 4)) nacks) l)
  else l.

Definition update_rtt (now : sp_time) (cum_ack : Z) (l : link) : link :=
  let c := wcell (window l) (u32 (cum_ack - 1)) in
  if (cum_ack mod 10 =? 0) && bool_decide (is_Some (bc_buff c)) && negb (bc_resent c) then
    let diff := E_sub_time now (bc_time c) in
    let rtt_estimate := u32 (sec diff * 1000000 + usec diff) in
    with_rtt
      (if rtt l =? 0 then s32 rtt_estimate
       else SFtrunc (F64.add (F64.mul (F64.div (F64.of_Z 1) (F64.of_Z 5)) (F64.of_Z rtt_estimate))
                             (F64.mul (F64.div (F64.of_Z 4) (F64.of_Z 5)) (F64.of_Z (rtt l))))) l
  else l.

(** The loop that frees the acknowledged cells; [i] is [tail] throughout. *)
Fixpoint ack_loop (cfg : link_conf) (n : nat) (i : Z) (l : link) : outcome link :=
  match n with
  | O => Ret l
  | S n =>
      let c := wcell (window l) i in
      match bc_buff c with
      | None => Exit
      | Some _ =>
          let l := with_window (set_wcell i (mk_bcell (bc_seq c) None 0 0 (bc_time c) (bc_resent c)) (window l)) l in
          sw ← stream_window cfg l (win_tail l);
          let l := with_tail (u32 (win_tail l + 1)) l in
          ack_loop cfg n (i + 1) (grow_window cfg sw l)
      end
  end.

Definition process_cumulative (cfg : link_conf) (now : sp_time) (cum_ack : Z) (l : link) : outcome link :=
  if win_tail l <? cum_ack then
    let l := update_rtt now cum_ack l in
    l ← ack_loop cfg (Z.to_nat (cum_ack - win_tail l)) (win_tail l) l;
    Ret (if bool_decide (msg_buff l = []) then l else queue_link now HTry_to_Send zero_time l)
  else Ret l.

(** [timeout_multiply *= (float)(7.0/8.0)], at least 1. *)
Definition relax_multiply (l : link) : link :=
  let m := s16 (SFtrunc (F32.mul (F32.of_Z (timeout_multiply l)) (F32.div (F32.of_Z 7) (F32.of_Z 8)))) in
  with_timeout_multiply (if m <? 1 then 1 else m) l.

Definition reset_timeout (cfg : link_conf) (now : sp_time) (rnd : Z) (l : link) : link :=
  let l := relax_multiply l in
  let l := if scheduled_timeout l then with_scheduled_timeout false (dequeue_link HReliable_timeout l) else l in
  if win_tail l <? win_head l then
    with_scheduled_timeout true
      (queue_link now HReliable_timeout (scale_timeout (timeout_multiply l) (base_timeout_ack cfg rnd (rtt l))) l)
  else l.

(** [recv_tail] moves over what was received; [n]: the iterations left. *)
Fixpoint advance_tail (n : nat) (l : link) : link :=
  match n with
  | O => l
  | S n =>
      let c := rcell (recv_window l) (recv_tail l) in
      if decide (rc_flag c = RECVD_CELL) then
        advance_tail n
          (with_recv_tail (u32 (recv_tail l + 1))
             (with_recv_window (set_rcell (recv_tail l) (mk_rcell EMPTY_CELL (nack_sent c)) (recv_window l)) l))
      else l
  end.

Definition receive_seq (seq : Z) (l : link) : Z * link :=
  let c := rcell (recv_window l) seq in
  if bool_decide (rc_flag c = RECVD_CELL) || (seq <? recv_tail l) then (0, l)
  else
    let l := if recv_head l <=? seq then with_recv_head (u32 (seq + 1)) l else l in
    let l := with_recv_window (set_rcell seq (mk_rcell RECVD_CELL (nack_sent c)) (recv_window l)) l in
    (1, advance_tail (Z.to_nat (recv_head l - recv_tail l)) l).

(** The value returned: 1 fresh data, 0 known data or a foreign
    acknowledgement, -1 no data.  [type] is in the local byte order. *)
Definition Process_Ack (cfg : link_conf) (now : sp_time) (rnd : Z) (type : Z) (pkt : packet) (l : link)
    : outcome (Z * link) :=
  let l := keep_nacks now (p_nacks pkt) l in
  if win_head l <? p_ack pkt then Ret (0, l)
  else
    l ← process_cumulative cfg now (p_ack pkt) l;
    let l := reset_timeout cfg now rnd l in
    if Is_link_ack type then Ret (-1, l) else Ret (receive_seq (p_seq pkt) l).

(** ** The callers *)
Definition Process_ack_packet (cfg : link_conf) (now : sp_time) (rnd : Z) (pkt : packet) (l : link) : outcome link :=
  if connected l then '(_, l) ← Process_Ack cfg now rnd (p_type pkt) pkt l; Ret l else Ret l.

Definition short_timeout : sp_time := mk_time 0 10000.

(** ** Dissemination headers *)
Definition MIN_WEIGHT_ROUTING : Z := 0x00000000.
Definition IT_PRIORITY_ROUTING : Z := 0x00000100.
Definition IT_RELIABLE_ROUTING : Z := 0x00000200.
Definition SOURCE_BASED_ROUTING : Z := 0x00000300.
Definition ROUTING_BITS_SHIFT : Z := 8.

Definition Dissemination_Header_Size (cfg : link_conf) (dissemination : Z) : outcome Z :=
  if dissemination =? MIN_WEIGHT_ROUTING then Ret 0
  else if dissemination =? IT_PRIORITY_ROUTING then
    Ret (u16 (sizeof_prio_flood_header + MultiPath_Bitmask_Size cfg + Prio_Signature_Len cfg + sizeof_fragment_header))
  else if dissemination =? IT_RELIABLE_ROUTING then
    Ret (u16 (sizeof_rel_flood_header + MultiPath_Bitmask_Size cfg + Rel_Signature_Len cfg + sizeof_fragment_header
              + sizeof_rel_flood_tail + sizeof_rel_flood_hbh_ack + sizeof_fragment_header))
  else if dissemination =? SOURCE_BASED_ROUTING then Ret (u16 (sizeof_sb_header + MultiPath_Bitmask_Size cfg))
  else Exit.

(** The bytes behind the packet header: the message, the reliable tail and the
    negative acknowledgements, on a little-endian host. *)
Definition le32 (z : Z) : list Z := [z mod 256; z / 256 mod 256; z / 65536 mod 256; z / 16777216 mod 256].
Definition packet_bytes (pkt : packet) : list Z := p_data pkt ++ (p_seq pkt :: p_ack pkt :: p_nacks pkt) ≫= le32.

(** Byte 25 of the header of a message, wherever it lies in the packet. *)
Definition routing_offset : nat := 25.
Definition hdr_routing (pkt : packet) : option Z := packet_bytes pkt !! routing_offset.

(** What is left of the tail when [dh] bytes of it are taken for a dissemination
    header.  The subtraction is one of 16 bits: below zero it wraps around, and
    the negative acknowledgements are then read from behind the packet. *)
Definition tail_behind (dh : Z) (pkt : packet) : outcome packet :=
  let al := u16 (ack_len (p_nacks pkt) - dh) in
  if ack_len (p_nacks pkt) <? al then Fault
  else Ret (mk_packet (p_type pkt) (p_len pkt) (p_loss_seq pkt) (p_data pkt) (p_seq pkt) (p_ack pkt)
              (take (Z.to_nat ((al - sizeof_reliable_tail) / 4)) (p_nacks pkt))).

(** [Process_rel_udp_data_packet] up to the delivery; the message delivered, if
    any.  A packet that cannot hold the header of a message is dropped. *)
Definition too_small (pkt : packet) : bool := p_len pkt + ack_len (p_nacks pkt) <? sizeof_udp_header.

Definition Process_rel_udp_data_packet (cfg : link_conf) (now : sp_time) (rnd : Z) (pkt : packet) (l : link)
    : outcome (option (list Z) * link) :=
  if too_small pkt then Ret (None, l)
  else
    routing ← or_else (hdr_routing pkt) Fault;
    dh ← Dissemination_Header_Size cfg (Z.shiftl routing ROUTING_BITS_SHIFT);
    if negb (connected l) then Ret (None, l)
    else
      pkt ← tail_behind dh pkt;
      '(flag, l) ← Process_Ack cfg now rnd (p_type pkt) pkt l;
      if flag =? -1 then Ret (None, l)
      else
        let l := if scheduled_ack l then queue_link now HSend_Ack zero_time l
                 else queue_link now HSend_Ack short_timeout (with_scheduled_ack true l) in
        if flag =? 0 then Ret (None, l) else Ret (Some (p_data pkt), l).

(** The acknowledgement part of [Process_state_packet] (state_flood.c): [true]
    when the states of the packet are to be processed. *)
Definition Process_state_packet_ack (cfg : link_conf) (now : sp_time) (rnd : Z) (pkt : packet) (l : link)
    : outcome (bool * link) :=
  if connected l then
    '(flag, l) ← Process_Ack cfg now rnd (p_type pkt) pkt l;
    if flag =? -1 then Ret (false, l)
    else
      let l := if E_in_queue HSend_Ack (link_id l) tt (lk_queue l) =? 0
               then queue_link now HSend_Ack (mk_time 0 5000) (with_scheduled_ack true l) else l in
      Ret (negb (flag =? 0), l)
  else Ret (false, queue_link now HSend_Hello_Request zero_time l).
