(* ===== verification/ReliableProof.v ===== *)
(** * ReliableProof: one end of a reliable link

    The invariant of the sending side (the window and the buffer in front of it
    hold exactly the messages that are not acknowledged, in order), the
    invariant of the receiving side (a message is marked as received exactly
    when it was handed on), and what each function does to both. *)
From Stdlib Require Import SpecFloat.
From stdpp Require Import base list gmap numbers option sets.
From Stdlib Require Import ZArith Lia.
From S2P Require Import Prelude CFloat Events NetTypes FloodProof ReliableLink.
#[local] Open Scope Z_scope.

(** ** Cells of the circular arrays *)
Lemma mod_window_inj i j : i mod MAX_WINDOW = j mod MAX_WINDOW -> - MAX_WINDOW < i - j < MAX_WINDOW -> i = j.
Proof.
  unfold MAX_WINDOW. intros H Hd. pose proof (Z.div_mod i 20000 ltac:(lia)). pose proof (Z.div_mod j 20000 ltac:(lia)).
  assert (i - j = 20000 * (i / 20000 - j / 20000)) by lia. assert (i / 20000 - j / 20000 = 0) by lia. lia.
Qed.

Lemma wcell_set_eq i c w : wcell (set_wcell i c w) i = c.
Proof. unfold wcell, set_wcell. by rewrite lookup_insert_eq. Qed.

Lemma wcell_set_ne i j c w : - MAX_WINDOW < i - j < MAX_WINDOW -> i <> j -> wcell (set_wcell i c w) j = wcell w j.
Proof.
  intros Hd Hne. unfold wcell, set_wcell. rewrite lookup_insert_ne; [done|].
  intros E. apply Hne. by apply mod_window_inj.
Qed.

Lemma rcell_set i j c w :
  rcell (set_rcell i c w) j = if decide (i mod MAX_WINDOW = j mod MAX_WINDOW) then c else rcell w j.
Proof.
  unfold rcell, set_rcell. destruct (decide _) as [->|Hne]; [by rewrite lookup_insert_eq|].
  by rewrite lookup_insert_ne.
Qed.

Definition received (rw : gmap Z Recv_Cell) (i : Z) : Prop := rc_flag (rcell rw i) = RECVD_CELL.

(** ** Negative acknowledgements do not change what was received *)
Lemma renack_received now r i st rw' nacks' :
  renack now r i st = (rw', nacks') -> forall j, received rw' j <-> received (fst st) j.
Proof.
  destruct st as [rw nacks]. unfold renack. destruct (_ || _); intros [= <- <-] j; [|done].
  cbn [fst]. unfold received. rewrite rcell_set. destruct (decide _) as [E|]; [|done]. cbn [rc_flag].
  unfold rcell. by rewrite E.
Qed.

Lemma nack_cell_received cfg again now r rhead i st rw' nacks' :
  nack_cell cfg again now r rhead i st = (rw', nacks') -> forall j, received rw' j <-> received (fst st) j.
Proof.
  destruct st as [rw nacks]. unfold nack_cell. cbn [fst].
  destruct (rc_flag (rcell rw i)) eqn:Ef; [|by intros [= <- <-]|by intros H j; rewrite (renack_received _ _ _ _ _ _ H)].
  destruct (_ || _); [|by intros [= <- <-]].
  assert (Hset : forall j, received (set_rcell i (mk_rcell NACK_CELL now) rw) j <-> received rw j).
  { intros j. unfold received. rewrite rcell_set. destruct (decide _) as [E|]; [|done]. cbn [rc_flag].
    assert (Hj : rcell rw j = rcell rw i) by (unfold rcell; by rewrite E). rewrite Hj, Ef. done. }
  destruct again; [|by intros [= <- <-]]. intros H j. rewrite (renack_received _ _ _ _ _ _ H j). apply Hset.
Qed.

Lemma nack_loop_received cfg again now r rhead len n i st rw' nacks' :
  nack_loop cfg again now r rhead len n i st = (rw', nacks') -> forall j, received rw' j <-> received (fst st) j.
Proof.
  revert i st. induction n as [|n IH]; intros i st; cbn [nack_loop]; [by intros -> j|].
  destruct (_ <? _); [by intros -> j|]. intros H j. rewrite (IH _ _ H j).
  destruct (nack_cell cfg again now r rhead i st) as [rw1 n1] eqn:E. by rewrite (nack_cell_received _ _ _ _ _ _ _ _ _ E).
Qed.

Lemma add_nacks_spec cfg again now len l l' nacks :
  add_nacks cfg again now len l = (l', nacks) ->
  exists rw, l' = with_recv_window rw l /\ forall j, received rw j <-> received (recv_window l) j.
Proof.
  unfold add_nacks. destruct (nack_loop _ _ _ _ _ _ _ _ _) as [rw n] eqn:E. intros [= <- <-].
  exists rw. split; [done|]. apply (nack_loop_received _ _ _ _ _ _ _ _ _ _ _ E).
Qed.

(** ** The packet always fits the body of a packet *)
Lemma ack_len_app nacks n : ack_len (nacks ++ [n]) = ack_len nacks + 4.
Proof. unfold ack_len. rewrite length_app. cbn [length]. lia. Qed.

(** A round trip time below 2^30 microseconds makes no time go back. *)
Lemma rtt_time_ok r : 0 <= r < 2 ^ 30 -> in_range (rtt_time r) /\ 0 <= total (rtt_time r).
Proof.
  intros Hr. unfold rtt_time, in_range, total. rewrite s32_id by lia. cbn [sec usec].
  pose proof (Z.rem_bound_pos (r * 2) 1000000 ltac:(lia) ltac:(lia)).
  pose proof (Z.quot_pos (r * 2) 1000000 ltac:(lia) ltac:(lia)). lia.
Qed.

Lemma renack_fresh now r i rw nacks :
  normal now -> 0 <= r < 2 ^ 30 -> nack_sent (rcell rw i) = now -> renack now r i (rw, nacks) = (rw, nacks).
Proof.
  intros Hn Hr Hs. unfold renack. rewrite Hs.
  set (t := if r =? 0 then _ else _).
  assert (Ht : in_range t /\ 0 <= total t).
  { subst t. destruct (Z.eqb_spec r 0); [unfold in_range, total; cbn; lia|by apply rtt_time_ok]. }
  destruct Ht as [Ht1 Ht2].
  pose proof (compare_time_total (E_add_time now t) now (add_time_normal now t (proj1 Hn) Ht1) Hn) as Hc.
  rewrite add_time_total in Hc.
  destruct (_ || _) eqn:E; [|done]. exfalso.
  assert (Hlt : E_compare_time (E_add_time now t) now < 0).
  { apply compare_lt_lex. rewrite orb_true_iff, andb_true_iff, !Z.ltb_lt, Z.eqb_eq in E. tauto. }
  pose proof (Z.sgn_spec (total now + total t - total now)). lia.
Qed.

Lemma renack_len now r i st : ack_len (snd (renack now r i st)) <= ack_len (snd st) + 4.
Proof. destruct st as [rw nacks]. unfold renack. destruct (_ || _); cbn [snd]; rewrite ?ack_len_app; lia. Qed.

Lemma nack_cell_len cfg again now r rhead i st :
  normal now -> 0 <= r < 2 ^ 30 ->
  ack_len (snd (nack_cell cfg again now r rhead i st)) <= ack_len (snd st) + 4.
Proof.
  intros Hn Hr. destruct st as [rw nacks]. unfold nack_cell. destruct (rc_flag _); [|cbn; lia|apply renack_len].
  destruct (_ || _); [|cbn; lia]. destruct again; [|cbn [snd]; rewrite ack_len_app; lia].
  rewrite renack_fresh; [cbn [snd]; rewrite ack_len_app; lia|done|done|].
  rewrite rcell_set. by rewrite decide_True.
Qed.

Lemma nack_loop_fits cfg again now r rhead len n i st :
  normal now -> 0 <= r < 2 ^ 30 -> ack_len (snd st) + len <= sizeof_packet_body ->
  ack_len (snd (nack_loop cfg again now r rhead len n i st)) + len <= sizeof_packet_body.
Proof.
  intros Hn Hr. revert i st. induction n as [|n IH]; intros i st H; cbn [nack_loop]; [done|].
  destruct (Z.ltb_spec (sizeof_packet_body - 4) (ack_len (snd st) + len)); [done|].
  apply IH. pose proof (nack_cell_len cfg again now r rhead i st Hn Hr). lia.
Qed.

Lemma add_nacks_fits cfg again now len l :
  normal now -> 0 <= rtt l < 2 ^ 30 -> sizeof_reliable_tail + len <= sizeof_packet_body ->
  ack_len (snd (add_nacks cfg again now len l)) + len <= sizeof_packet_body.
Proof.
  intros Hn Hr Hl. unfold add_nacks.
  pose proof (nack_loop_fits cfg again now (rtt l) (recv_head l) len (Z.to_nat (recv_head l - recv_tail l)) (recv_tail l)
    (recv_window l, []) Hn Hr) as H.
  destruct (nack_loop _ _ _ _ _ _ _ _ _) as [rw nacks]. cbn [snd] in *. apply H. exact Hl.
Qed.

(** ** The sending side *)

(** What was handed to [Reliable_Send_Msg], in order: message and length. *)
Notation messages := (list (list Z * Z)).

(** A type that is not the type of a bare acknowledgement. *)
Definition data_type (t : Z) : Prop := Is_link_ack (Z.lor RELIABLE_TYPE t) = false.

(** A cell that holds message number [i]. *)
Definition holds (sub : messages) (i : Z) (c : Buffer_Cell) : Prop :=
  bc_seq c = i /\ data_type (bc_type c) /\
  exists data, bc_buff c = Some data /\ sub !! Z.to_nat i = Some (data, bc_len c).

Record sender_ok (sub : messages) (l : link) : Prop := {
  so_seq : Z.of_nat (length sub) < 2 ^ 32;
  so_order : 0 <= win_tail l <= win_head l /\ win_head l <= Z.of_nat (length sub);
  so_size : win_head l - win_tail l <= MAX_WINDOW;
  so_window : forall i, win_tail l <= i < win_head l -> holds sub i (wcell (window l) i);
  so_cells : forall i, match bc_buff (wcell (window l) i) with
              | None => bc_type (wcell (window l) i) = 0
              | Some _ => exists j, win_tail l <= j < win_head l /\ j mod MAX_WINDOW = i mod MAX_WINDOW
              end;
  so_buffer : Z.of_nat (length (msg_buff l)) = Z.of_nat (length sub) - win_head l /\
              forall k c, msg_buff l !! k = Some c -> holds sub (win_head l + Z.of_nat k) c;
  so_limit : window_size l = F32.of_Z MAX_CG_WINDOW }.

(** A packet as this end may have sent it. *)
Definition packet_ok (sub : messages) (l : link) (p : packet) : Prop :=
  0 <= p_ack p <= recv_tail l /\
  (Is_link_ack (p_type p) = false -> 0 <= p_seq p < win_head l /\ sub !! Z.to_nat (p_seq p) = Some (p_data p, p_len p)).

Definition wire_ok (sub : messages) (l : link) : Prop := 0 <= recv_tail l /\ Forall (packet_ok sub l) (wire l).

(** The receiving side is the same, up to negative acknowledgements. *)
Record recv_same (l l' : link) : Prop := {
  rs_head : recv_head l' = recv_head l;
  rs_tail : recv_tail l' = recv_tail l;
  rs_cells : forall j, received (recv_window l') j <-> received (recv_window l) j }.

#[export] Instance recv_same_refl : Reflexive recv_same.
Proof. by intros l; split. Qed.
#[export] Instance recv_same_trans : Transitive recv_same.
Proof. intros a b c [H1 H2 H3] [G1 G2 G3]. split; [congruence|congruence|]. intros j. by rewrite G3. Qed.

(** Nothing but the queue of events, counters and the receiving side's
    negative acknowledgements changed. *)
Record send_same (l l' : link) : Prop := {
  ss_conn : connected l' = connected l;
  ss_buff : msg_buff l' = msg_buff l;
  ss_size : window_size l' = window_size l;
  ss_window : window l' = window l;
  ss_head : win_head l' = win_head l;
  ss_tail : win_tail l' = win_tail l }.

#[export] Instance send_same_refl : Reflexive send_same.
Proof. by intros l; split. Qed.
#[export] Instance send_same_trans : Transitive send_same.
Proof. intros a b c [] []. split; congruence. Qed.

Lemma sender_same sub l l' : sender_ok sub l -> send_same l l' -> sender_ok sub l'.
Proof. intros [] []. split; rewrite ?ss_head0, ?ss_tail0, ?ss_window0, ?ss_buff0, ?ss_size0; done. Qed.

Lemma window_full_spec sub l : sender_ok sub l -> window_full l = (win_head l - win_tail l =? MAX_WINDOW).
Proof.
  intros []. unfold window_full. rewrite so_limit0.
  assert (Hu : u32 (win_head l - win_tail l) = win_head l - win_tail l) by (apply u32_small; unfold MAX_WINDOW in *; lia).
  rewrite Hu, F32_ge_exact by (unfold MAX_WINDOW, MAX_CG_WINDOW in *; lia).
  unfold MAX_WINDOW, MAX_CG_WINDOW in *. destruct (Z.leb_spec 20000 (win_head l - win_tail l)), (Z.eqb_spec (win_head l - win_tail l) 20000); lia.
Qed.

Lemma window_room_spec sub l : sender_ok sub l -> window_room l = negb (window_full l).
Proof.
  intros Hok. rewrite (window_full_spec sub l Hok). destruct Hok. unfold window_room. rewrite so_limit0.
  assert (Hu : u32 (win_head l - win_tail l) = win_head l - win_tail l) by (apply u32_small; unfold MAX_WINDOW in *; lia).
  rewrite Hu, F32_lt_exact by (unfold MAX_WINDOW, MAX_CG_WINDOW in *; lia).
  unfold MAX_WINDOW, MAX_CG_WINDOW in *. destruct (Z.ltb_spec (win_head l - win_tail l) 20000), (Z.eqb_spec (win_head l - win_tail l) 20000); lia || done.
Qed.

(** ** Frames of the small steps *)
Lemma Forall_weaken {A} (P Q : A -> Prop) l : Forall P l -> (forall x, P x -> Q x) -> Forall Q l.
Proof. intros H HPQ. induction H; constructor; auto. Qed.

Lemma packet_ok_mono sub sub' l l' p :
  packet_ok sub l p -> sub `prefix_of` sub' -> recv_tail l <= recv_tail l' -> win_head l <= win_head l' ->
  packet_ok sub' l' p.
Proof.
  intros [H1 H2] Hs Ht Hh. split; [lia|]. intros Ha. destruct (H2 Ha) as [H3 H4]. split; [lia|].
  by eapply prefix_lookup_Some.
Qed.

Lemma wire_ok_mono sub sub' l l' :
  wire_ok sub l -> wire l' = wire l -> sub `prefix_of` sub' -> recv_tail l <= recv_tail l' -> win_head l <= win_head l' ->
  wire_ok sub' l'.
Proof.
  intros [H0 H] Hw Hs Ht Hh. split; [lia|]. rewrite Hw. eapply Forall_weaken; [exact H|]. intros p Hp. by eapply packet_ok_mono.
Qed.

(** Steps that leave the wire, the sending side and what was received alone. *)
Record quiet (l l' : link) : Prop := {
  qt_send : send_same l l'; qt_recv : recv_same l l'; qt_wire : wire l' = wire l; qt_seq : seq_no l' = seq_no l; qt_rtt : rtt l' = rtt l }.

#[export] Instance quiet_refl : Reflexive quiet.
Proof. by intros l; split. Qed.
#[export] Instance quiet_trans : Transitive quiet.
Proof. intros a b c [] []. split; [by etrans|by etrans|congruence..]. Qed.

Lemma quiet_cancel_ack l : quiet l (cancel_ack l).
Proof. unfold cancel_ack. by destruct (scheduled_ack l). Qed.

Lemma quiet_restart cfg now rnd l : quiet l (restart_timeout cfg now rnd l).
Proof. unfold restart_timeout. by destruct (scheduled_timeout l). Qed.

Lemma quiet_resume l : quiet l (resume_sessions l).
Proof. unfold resume_sessions. by destruct (_ && _). Qed.

Lemma quiet_block l : quiet l (block_sessions l).
Proof. unfold block_sessions. by destruct (_ && _). Qed.

Lemma quiet_queue now h t l : quiet l (queue_link now h t l).
Proof. done. Qed.

Lemma quiet_add_nacks cfg again now len l l' nacks : add_nacks cfg again now len l = (l', nacks) -> quiet l l'.
Proof. intros H. apply add_nacks_spec in H as (rw & -> & Hrw). by split. Qed.

Lemma quiet_set_loss l : quiet l (Set_Loss_SeqNo l).
Proof. done. Qed.

Lemma quiet_sender sub l l' : sender_ok sub l -> quiet l l' -> sender_ok sub l'.
Proof. intros H []. by eapply sender_same. Qed.

Lemma quiet_wire sub l l' : wire_ok sub l -> quiet l l' -> wire_ok sub l'.
Proof.
  intros H [[] [] Hw _ _]. eapply wire_ok_mono; [exact H|exact Hw|done|lia|lia].
Qed.

(** What sending functions do: more packets on the wire, a larger window. *)
Record sends_more (sub : messages) (l l' : link) : Prop := {
  sm_sender : sender_ok sub l';
  sm_wire : wire_ok sub l';
  sm_recv : recv_same l l';
  sm_conn : connected l' = connected l;
  sm_seq : seq_no l' = seq_no l;
  sm_tail : win_tail l' = win_tail l;
  sm_head : win_head l <= win_head l';
  sm_rtt : rtt l' = rtt l;
  sm_prefix : wire l `prefix_of` wire l' }.

Lemma sends_more_quiet sub l l' : sender_ok sub l -> wire_ok sub l -> quiet l l' -> sends_more sub l l'.
Proof.
  intros H1 H2 Hq. pose proof (quiet_sender sub l l' H1 Hq). pose proof (quiet_wire sub l l' H2 Hq).
  destruct Hq as [[] ? Hw ? ?]. split; try done; [lia|by rewrite Hw].
Qed.

Lemma sends_more_trans sub l1 l2 l3 : sends_more sub l1 l2 -> sends_more sub l2 l3 -> sends_more sub l1 l3.
Proof. intros [] []. split; try done; [by etrans|congruence|congruence|congruence|lia|congruence|by etrans]. Qed.

(** A packet goes out. *)
Lemma transmit_spec go type len seq data nacks sub l :
  sender_ok sub l -> wire_ok sub l ->
  (go = true -> packet_ok sub l (mk_packet type len 0 data seq (recv_tail l) nacks)) ->
  let l' := transmit go type len seq data nacks l in
  sends_more sub l l' /\ (go = true -> exists p, wire l' = wire l ++ [p] /\ p_type p = type /\ p_seq p = seq /\ p_data p = data /\ p_ack p = recv_tail l).
Proof.
  intros Hs Hw Hp. unfold transmit. destruct go; cbn zeta.
  - split.
    + split; try done.
      * by eapply sender_same.
      * split; [apply Hw|]. cbn. apply Forall_app. split; [eapply Forall_weaken; [apply Hw|]; intros p Hpo; by eapply packet_ok_mono|].
        constructor; [|constructor]. destruct (Hp eq_refl) as [H1 H2]. by split.
      * cbn. by apply prefix_app_r.
    + intros _. by eexists.
  - split; [|done]. by apply sends_more_quiet.
Qed.

(** ** A message enters the window *)
Lemma u32_seq x : 0 <= x < 2 ^ 32 -> u32 x = x.
Proof. apply u32_small. Qed.

Lemma holds_mono sub sub' i c : holds sub i c -> sub `prefix_of` sub' -> holds sub' i c.
Proof. intros (H1 & H2 & d & H3 & H4) Hp. split_and!; [done|done|]. exists d. split; [done|]. by eapply prefix_lookup_Some. Qed.

(** [l] is a sending side whose next message, number [head], is neither in the
    window nor in the buffer any more. *)
Record sender_gap (sub : messages) (data : list Z) (len : Z) (l : link) : Prop := {
  sg_seq : Z.of_nat (length sub) < 2 ^ 32;
  sg_order : 0 <= win_tail l <= win_head l /\ win_head l < Z.of_nat (length sub);
  sg_size : win_head l - win_tail l < MAX_WINDOW;
  sg_window : forall i, win_tail l <= i < win_head l -> holds sub i (wcell (window l) i);
  sg_cells : forall i, match bc_buff (wcell (window l) i) with
              | None => bc_type (wcell (window l) i) = 0
              | Some _ => exists j, win_tail l <= j < win_head l /\ j mod MAX_WINDOW = i mod MAX_WINDOW
              end;
  sg_buffer : Z.of_nat (length (msg_buff l)) = Z.of_nat (length sub) - win_head l - 1 /\
              forall k c, msg_buff l !! k = Some c -> holds sub (win_head l + 1 + Z.of_nat k) c;
  sg_limit : window_size l = F32.of_Z MAX_CG_WINDOW;
  sg_next : sub !! Z.to_nat (win_head l) = Some (data, len) }.

Lemma put_in_window_ok sub data len now type l :
  sender_gap sub data len l -> wire_ok sub l -> data_type type ->
  let l' := put_in_window now (win_head l) type len data l in
  sender_ok sub l' /\ wire_ok sub l' /\ recv_same l l' /\ win_head l' = win_head l + 1 /\ win_tail l' = win_tail l.
Proof.
  intros [] Hw Ht. cbn zeta.
  assert (Hh : u32 (win_head l + 1) = win_head l + 1) by (apply u32_seq; lia).
  split_and!; try done.
  - split; cbn; rewrite ?Hh; try done; [lia|lia| | |].
    + intros i Hi. destruct (decide (i = win_head l)) as [->|Hne].
      * rewrite wcell_set_eq. split_and!; [done|done|]. by exists data.
      * rewrite wcell_set_ne; [apply sg_window0; lia|unfold MAX_WINDOW in *; lia|done].
    + intros i. specialize (sg_cells0 i). unfold wcell, set_wcell in *.
      destruct (decide (win_head l mod MAX_WINDOW = i mod MAX_WINDOW)) as [E|E].
      * rewrite E, lookup_insert_eq. cbn. exists (win_head l). split; [lia|done].
      * rewrite lookup_insert_ne by done. destruct (bc_buff _); [|done]. destruct sg_cells0 as (j & Hj & Hm). exists j. split; [lia|done].
    + split; [lia|]. apply sg_buffer0.
  - eapply wire_ok_mono; [exact Hw|done|done|done|]. cbn. lia.
Qed.

(** The congestion marks do not touch the kind of a packet. *)
Lemma land_lor_disjoint t a m : Z.land a m = 0 -> Z.land (Z.lor t a) m = Z.land t m.
Proof. intros H. by rewrite Z.land_lor_distr_l, H, Z.lor_0_r. Qed.

Lemma land_lxor_disjoint t a m : Z.land a m = 0 -> Z.land (Z.lxor t a) m = Z.land t m.
Proof.
  intros H. apply Z.bits_inj'. intros n Hn. apply (f_equal (fun x => Z.testbit x n)) in H.
  rewrite Z.land_spec, Z.bits_0 in H. rewrite !Z.land_spec, Z.lxor_spec.
  destruct (Z.testbit t n), (Z.testbit a n), (Z.testbit m n); done.
Qed.

Lemma data_type_land t t' : Z.land t' DATA_MASK = Z.land t DATA_MASK -> data_type t -> data_type t'.
Proof. unfold data_type, Is_link_ack. intros H. by rewrite !Z.land_lor_distr_l, H. Qed.

Lemma ecn_land n t : Z.land (ecn n t) DATA_MASK = Z.land t DATA_MASK.
Proof.
  unfold ecn. repeat (match goal with |- context [if ?b then _ else _] => destruct b end);
    rewrite ?land_lor_disjoint, ?land_lxor_disjoint by done; done.
Qed.

Lemma ecn_data n t : data_type t -> data_type (ecn n t).
Proof. apply data_type_land, ecn_land. Qed.

(** A message of the buffer moves to the window. *)
Lemma sender_pop sub l c q data :
  sender_ok sub l -> msg_buff l = c :: q -> window_room l = true -> bc_buff c = Some data ->
  bc_seq c = win_head l /\ data_type (bc_type c) /\ sender_gap sub data (bc_len c) (with_msg_buff q l).
Proof.
  intros Hok Hq Hroom Hd. rewrite (window_room_spec sub l Hok), (window_full_spec sub l Hok) in Hroom.
  apply negb_true_iff, Z.eqb_neq in Hroom. destruct Hok.
  destruct so_buffer0 as [Hlen Hcells]. rewrite Hq in Hlen, Hcells. cbn [length] in Hlen.
  destruct (Hcells 0%nat c eq_refl) as (Hseq & Ht & d & Hd' & Hsub). rewrite Hd in Hd'. injection Hd' as <-.
  rewrite Z.add_0_r in Hseq, Hsub. split; [done|]. split; [done|].
  split; cbn; try done; [lia|lia|]. split; [lia|]. intros k c' Hk.
  replace (win_head l + 1 + Z.of_nat k) with (win_head l + Z.of_nat (S k)) by lia. by apply Hcells.
Qed.

Lemma holds_buff sub i c : holds sub i c -> exists data, bc_buff c = Some data.
Proof. intros (_ & _ & d & Hd & _). by exists d. Qed.

Lemma send_much_loop_ok cfg now bs sub queue l :
  sender_ok sub l -> wire_ok sub l -> msg_buff l = queue ->
  exists l', send_much_loop cfg now bs queue l = Ret l' /\ sends_more sub l l' /\
    (msg_buff l' = [] \/ window_full l' = true).
Proof.
  revert l. induction queue as [|c q IH]; intros l Hs Hw Hq; cbn [send_much_loop].
  { exists l. split; [done|]. split; [by apply sends_more_quiet|by left]. }
  destruct (window_room l) eqn:Er.
  2:{ exists l. split; [done|]. split; [by apply sends_more_quiet|]. right. rewrite (window_room_spec sub l Hs) in Er.
      by apply negb_false_iff in Er. }
  destruct (holds_buff sub (win_head l + Z.of_nat 0) c) as [data Hd]; [apply (so_buffer sub l Hs); by rewrite Hq|].
  destruct (sender_pop sub l c q data Hs Hq Er Hd) as (Hseq & Ht & Hg). cbn [win_head with_msg_buff].
  rewrite Hseq, Z.ltb_irrefl, Hd. cbn [or_else mbind outcome_bind].
  assert (Hw1 : wire_ok sub (with_msg_buff q l)) by (eapply wire_ok_mono; [exact Hw|done..]).
  destruct (put_in_window_ok sub data (bc_len c) now (ecn bs (bc_type c)) (with_msg_buff q l) Hg Hw1 (ecn_data bs _ Ht))
    as (Hs2 & Hw2 & Hr2 & Hh2 & Ht2).
  cbn [win_head with_msg_buff] in *. set (l2 := put_in_window _ _ _ _ _ _) in *.
  assert (Hb2 : msg_buff l2 = q /\ connected l2 = connected l /\ seq_no l2 = seq_no l /\ rtt l2 = rtt l /\ wire l2 = wire l) by done.
  clearbody l2. destruct (add_nacks cfg true now (bc_len c) l2) as [l3 nacks] eqn:En. apply quiet_add_nacks in En as Hq3.
  pose proof (quiet_sender sub l2 l3 Hs2 Hq3) as Hs3. pose proof (quiet_wire sub l2 l3 Hw2 Hq3) as Hw3.
  destruct (transmit_spec true (Z.lor RELIABLE_TYPE (ecn bs (bc_type c))) (bc_len c) (win_head l) data nacks sub l3 Hs3 Hw3)
    as [Hm _].
  { intros _. split; [cbn; destruct Hw3; lia|]. intros _. cbn. rewrite (ss_head _ _ (qt_send _ _ Hq3)), Hh2.
    split; [destruct (sg_order _ _ _ _ Hg); cbn in *; lia|]. apply (sg_next _ _ _ _ Hg). }
  set (l4 := transmit _ _ _ _ _ _ _) in *.
  assert (Hb4 : msg_buff l4 = q) by (subst l4; cbn; rewrite (ss_buff _ _ (qt_send _ _ Hq3)); tauto).
  clearbody l4. destruct (IH l4 (sm_sender _ _ _ Hm) (sm_wire _ _ _ Hm) Hb4) as (l' & Hrun & Hm' & Hend).
  exists l'. split; [exact Hrun|]. split; [|exact Hend]. destruct Hb2 as (_ & Hc2 & Hsq2 & Hrt2 & Hwi2).
  eapply sends_more_trans; [|exact Hm']. eapply sends_more_trans; [|exact Hm].
  split; [exact Hs3|exact Hw3| | | | | | |]; destruct Hq3 as [[] [] Hw3' Hsq3 Hrtt3]; destruct Hr2; cbn in *.
  - split; [congruence|congruence|]. intros j. by rewrite rs_cells0, rs_cells1.
  - congruence.
  - congruence.
  - congruence.
  - lia.
  - congruence.
  - rewrite Hw3', Hwi2. done.
Qed.

Lemma Send_Much_ok cfg now rnd sub l :
  sender_ok sub l -> wire_ok sub l ->
  exists l', Send_Much cfg now rnd l = Ret l' /\ sends_more sub l l' /\
    (connected l = true -> msg_buff l' = [] \/ window_full l' = true).
Proof.
  intros Hs Hw. unfold Send_Much. destruct (connected l) eqn:Ec; cbn [negb].
  2:{ exists l. split; [done|]. split; [by apply sends_more_quiet|done]. }
  destruct (window_full l) eqn:Ef.
  { exists l. split; [done|]. split; [by apply sends_more_quiet|by right]. }
  destruct (bool_decide (msg_buff l = [])) eqn:Eb.
  { exists l. split; [done|]. split; [by apply sends_more_quiet|]. left. by apply bool_decide_eq_true in Eb. }
  pose proof (quiet_cancel_ack l) as Hq.
  destruct (send_much_loop_ok cfg now (Z.of_nat (length (msg_buff l))) sub (msg_buff l) (cancel_ack l)) as (l1 & Hrun & Hm & Hend).
  - by eapply quiet_sender.
  - by eapply quiet_wire.
  - apply (ss_buff _ _ (qt_send _ _ Hq)).
  - rewrite Hrun. cbn [mbind outcome_bind]. eexists. split; [done|].
    assert (Hq1 : quiet l1 (restart_timeout cfg now rnd (resume_sessions l1)))
      by (etrans; [apply quiet_resume|apply quiet_restart]).
    split.
    + eapply sends_more_trans; [by apply sends_more_quiet; [..|exact Hq]|]. eapply sends_more_trans; [exact Hm|].
      apply sends_more_quiet; [apply Hm|apply Hm|done].
    + intros _. destruct Hq1 as [[] _ _ _ _]. unfold window_full in *. rewrite ss_buff0, ss_head0, ss_tail0, ss_size0. done.
Qed.

(** What a new message does: [sub'] is everything submitted so far. *)
Record submits (sub sub' : messages) (l l' : link) : Prop := {
  sb_sender : sender_ok sub' l';
  sb_wire : wire_ok sub' l';
  sb_seq : seq_no l' = Z.of_nat (length sub');
  sb_recv : recv_same l l';
  sb_conn : connected l' = connected l;
  sb_tail : win_tail l' = win_tail l;
  sb_head : win_head l <= win_head l';
  sb_prefix : wire l `prefix_of` wire l' }.

Lemma sender_buffered sub buff len type l :
  sender_ok sub l -> data_type type -> Z.of_nat (length sub) + 1 < 2 ^ 32 ->
  sender_ok (sub ++ [(buff, len)])
    (with_msg_buff (msg_buff l ++ [mk_bcell (Z.of_nat (length sub)) (Some buff) type len (mk_time 0 0) false]) l).
Proof.
  intros [] Ht Hlen. assert (Hp : sub `prefix_of` sub ++ [(buff, len)]) by (by apply prefix_app_r).
  split; cbn; rewrite ?length_app; cbn [length]; try done; [lia|lia| |].
  - intros i Hi. by eapply holds_mono; [apply so_window0|].
  - destruct so_buffer0 as [Hl Hc]. split; [lia|]. intros k c Hk. apply lookup_app_Some in Hk as [Hk|[Hge Hk]].
    + by eapply holds_mono; [apply Hc|].
    + apply list_lookup_singleton_Some in Hk as [Hk <-].
      assert (Hi : win_head l + Z.of_nat k = Z.of_nat (length sub)) by lia. rewrite Hi.
      split_and!; [done|done|]. exists buff. split; [done|]. rewrite Nat2Z.id, lookup_app_r, Nat.sub_diag by lia. done.
Qed.

Lemma sender_direct sub buff len l :
  sender_ok sub l -> msg_buff l = [] -> window_full l = false -> Z.of_nat (length sub) + 1 < 2 ^ 32 ->
  win_head l = Z.of_nat (length sub) /\ sender_gap (sub ++ [(buff, len)]) buff len l.
Proof.
  intros Hok Hb Hf Hlen. rewrite (window_full_spec sub l Hok) in Hf. apply Z.eqb_neq in Hf. destruct Hok.
  destruct so_buffer0 as [Hl Hc]. rewrite Hb in Hl. cbn [length] in Hl. assert (Hh : win_head l = Z.of_nat (length sub)) by lia.
  assert (Hp : sub `prefix_of` sub ++ [(buff, len)]) by (by apply prefix_app_r). split; [done|].
  split; rewrite ?length_app; cbn [length]; try done; [lia|lia|lia| | |].
  - intros i Hi. by eapply holds_mono; [apply so_window0|].
  - rewrite Hb. split; [cbn; lia|]. intros k c Hk. by rewrite lookup_nil in Hk.
  - rewrite Hh, Nat2Z.id, lookup_app_r, Nat.sub_diag by lia. done.
Qed.

Lemma Reliable_Send_Msg_ok cfg now rnd buff len type sub l :
  sender_ok sub l -> wire_ok sub l -> seq_no l = Z.of_nat (length sub) ->
  data_type type -> Z.of_nat (length sub) + 1 < 2 ^ 32 ->
  exists sent l', Reliable_Send_Msg cfg now rnd buff len type l = Ret (sent, l') /\
    submits sub (sub ++ [(buff, len)]) l l' /\
    (connected l = true -> msg_buff l' = [] \/ window_full l' = true).
Proof.
  intros Hs Hw Hseq Ht Hlen. unfold Reliable_Send_Msg.
  set (l1 := with_seq_no _ l).
  assert (Hs1 : sender_ok sub l1) by (by eapply sender_same).
  assert (Hw1 : wire_ok sub l1) by (by eapply wire_ok_mono; [exact Hw|done..]).
  assert (H2 : exists l2, (if connected l1 then Send_Much cfg now rnd l1 else Ret l1) = Ret l2 /\ sends_more sub l1 l2 /\
            (connected l1 = true -> msg_buff l2 = [] \/ window_full l2 = true)).
  { destruct (connected l1) eqn:Ec.
    - destruct (Send_Much_ok cfg now rnd sub l1 Hs1 Hw1) as (l2 & H2 & Hm & He). rewrite Ec in He. by exists l2.
    - exists l1. split; [done|]. split; [by apply sends_more_quiet|done]. }
  destruct H2 as (l2 & -> & Hm & He). cbn [mbind outcome_bind]. rewrite Hseq.
  assert (Hl1 : recv_same l l1 /\ connected l1 = connected l /\ win_tail l1 = win_tail l /\ win_head l1 = win_head l /\
                wire l1 = wire l /\ seq_no l1 = Z.of_nat (length sub) + 1).
  { split_and!; try done. subst l1. cbn. rewrite Hseq. apply u32_seq. lia. }
  clearbody l1. destruct Hl1 as (Hr1 & Hc1 & Ht1 & Hh1 & Hwi1 & Hsq1).
  destruct Hm as [Hs2 Hw2 Hr2 Hc2 Hsq2 Ht2 Hh2 _ Hp2]. rewrite Hwi1 in Hp2.
  assert (Hp : sub `prefix_of` sub ++ [(buff, len)]) by (by apply prefix_app_r).
  destruct (window_full l2 || negb (bool_decide (msg_buff l2 = [])) || negb (connected l2)) eqn:E.
  - eexists _, _. split; [done|]. set (l3 := with_msg_buff _ l2).
    pose proof (sender_buffered sub buff len type l2 Hs2 Ht Hlen) as Hs3. fold l3 in Hs3.
    assert (Hq : quiet l3 (block_sessions l3)) by apply quiet_block.
    assert (Hw3 : wire_ok (sub ++ [(buff, len)]) l3) by (by eapply wire_ok_mono; [exact Hw2|done..]).
    split.
    + split.
      * by eapply quiet_sender.
      * by eapply quiet_wire.
      * rewrite (qt_seq _ _ Hq), length_app. cbn. lia.
      * etrans; [exact Hr1|]. etrans; [exact Hr2|]. transitivity l3; [done|]. apply (qt_recv _ _ Hq).
      * rewrite (ss_conn _ _ (qt_send _ _ Hq)). cbn. congruence.
      * rewrite (ss_tail _ _ (qt_send _ _ Hq)). cbn. congruence.
      * rewrite (ss_head _ _ (qt_send _ _ Hq)). cbn. lia.
      * rewrite (qt_wire _ _ Hq). exact Hp2.
    + intros Hc. right. unfold window_full. destruct (qt_send _ _ Hq). rewrite ss_head0, ss_tail0, ss_size0. cbn.
      rewrite Hc2, Hc1, Hc, orb_false_r in E. rewrite Hc1 in He. destruct (He Hc) as [Hb|Hf]; [|exact Hf].
      rewrite bool_decide_eq_true_2, orb_false_r in E by done. exact E.
  - apply orb_false_iff in E as [E Ec]. apply orb_false_iff in E as [Ef Eb].
    apply negb_false_iff, bool_decide_eq_true in Eb. apply negb_false_iff in Ec.
    destruct (sender_direct sub buff len l2 Hs2 Eb Ef Hlen) as [Hh Hg].
    rewrite Hh, Z.ltb_irrefl. rewrite <- Hh.
    assert (Hw2' : wire_ok (sub ++ [(buff, len)]) l2) by (by eapply wire_ok_mono; [exact Hw2|done..]).
    destruct (put_in_window_ok _ buff len now type l2 Hg Hw2' Ht) as (Hs3 & Hw3 & Hr3 & Hh3 & Ht3).
    set (l3 := put_in_window _ _ _ _ _ _) in *.
    assert (Hk3 : connected l3 = connected l2 /\ seq_no l3 = seq_no l2 /\ wire l3 = wire l2 /\ msg_buff l3 = msg_buff l2) by done.
    clearbody l3. destruct Hk3 as (Hc3 & Hsq3 & Hwi3 & Hb3). pose proof (quiet_cancel_ack l3) as Hq4.
    destruct (add_nacks cfg false now len (cancel_ack l3)) as [l5 nacks] eqn:En. apply quiet_add_nacks in En as Hq5.
    assert (Hq35 : quiet l3 l5) by (by etrans). clear Hq4 Hq5 En.
    pose proof (quiet_sender _ _ _ Hs3 Hq35) as Hs5. pose proof (quiet_wire _ _ _ Hw3 Hq35) as Hw5.
    destruct (transmit_spec (network_flag cfg) (Z.lor RELIABLE_TYPE type) len (win_head l2) buff nacks _ l5 Hs5 Hw5) as [Hm6 _].
    { intros _. split; [cbn; destruct Hw5; lia|]. intros _. cbn. rewrite (ss_head _ _ (qt_send _ _ Hq35)), Hh3.
      split; [destruct (sg_order _ _ _ _ Hg); lia|]. apply (sg_next _ _ _ _ Hg). }
    assert (Hb6 : forall go t a b c, msg_buff (transmit go t a b c nacks l5) = msg_buff l5) by (by intros []).
    specialize (Hb6 (network_flag cfg) (Z.lor RELIABLE_TYPE type) len (win_head l2) buff).
    set (l6 := transmit _ _ _ _ _ _ _) in *. clearbody l6. pose proof (quiet_restart cfg now rnd l6) as Hq7.
    set (l7 := restart_timeout cfg now rnd l6) in *. clearbody l7.
    eexists _, _. split; [done|]. destruct Hm6 as [Hs6 Hw6 Hr6 Hc6 Hsq6 Ht6 Hh6 _ Hp6].
    destruct Hq35 as [[] Hr35 Hwi35 Hsq35 _]. split.
    + split.
      * by eapply quiet_sender.
      * by eapply quiet_wire.
      * rewrite (qt_seq _ _ Hq7), length_app. cbn. lia.
      * etrans; [exact Hr1|]. etrans; [exact Hr2|]. etrans; [exact Hr3|]. etrans; [exact Hr35|].
        etrans; [exact Hr6|]. apply (qt_recv _ _ Hq7).
      * rewrite (ss_conn _ _ (qt_send _ _ Hq7)). congruence.
      * rewrite (ss_tail _ _ (qt_send _ _ Hq7)). congruence.
      * rewrite (ss_head _ _ (qt_send _ _ Hq7)). lia.
      * rewrite (qt_wire _ _ Hq7). rewrite Hwi35, Hwi3 in Hp6. by etrans.
    + intros _. left. rewrite (ss_buff _ _ (qt_send _ _ Hq7)), Hb6. congruence.
Qed.

(** ** Retransmissions *)
Lemma wcell_set i j c w :
  wcell (set_wcell i c w) j = if decide (i mod MAX_WINDOW = j mod MAX_WINDOW) then c else wcell w j.
Proof.
  unfold wcell, set_wcell. destruct (decide _) as [->|Hne]; [by rewrite lookup_insert_eq|].
  by rewrite lookup_insert_ne.
Qed.

Lemma wcell_mod w i j : i mod MAX_WINDOW = j mod MAX_WINDOW -> wcell w i = wcell w j.
Proof. unfold wcell. by intros ->. Qed.

(** A cell that is not empty holds a message of the window. *)
Lemma cell_live sub l i data :
  sender_ok sub l -> bc_buff (wcell (window l) i) = Some data ->
  exists j, win_tail l <= j < win_head l /\ holds sub j (wcell (window l) i).
Proof.
  intros Hok Hd. pose proof (so_cells sub l Hok i) as Hc. rewrite Hd in Hc. destruct Hc as (j & Hj & Hm).
  exists j. split; [done|]. rewrite <- (wcell_mod (window l) j i Hm). by apply Hok.
Qed.

(** Rewriting a cell with its own message. *)
Lemma sender_touch sub l i t b :
  let c := wcell (window l) i in
  sender_ok sub l -> sender_ok sub (with_window (set_wcell i (mk_bcell (bc_seq c) (bc_buff c) (bc_type c) (bc_len c) t b) (window l)) l).
Proof.
  intros c []. split; cbn; try done.
  - intros j Hj. rewrite wcell_set. destruct (decide _) as [E|]; [|by apply so_window0].
    pose proof (so_window0 j Hj) as H. rewrite <- (wcell_mod (window l) i j E) in H. exact H.
  - intros j. specialize (so_cells0 j). rewrite wcell_set. destruct (decide _) as [E|]; [|done].
    rewrite <- (wcell_mod (window l) i j E) in so_cells0. exact so_cells0.
Qed.

(** What retransmitting does: the window stays, packets go out. *)
Record repeats (sub : messages) (l l' : link) : Prop := {
  rp_more : sends_more sub l l';
  rp_head : win_head l' = win_head l;
  rp_buff : msg_buff l' = msg_buff l;
  rp_cells : forall i, bc_buff (wcell (window l') i) = bc_buff (wcell (window l) i) }.

Lemma repeats_quiet sub l l' : sender_ok sub l -> wire_ok sub l -> quiet l l' -> repeats sub l l'.
Proof.
  intros Hs Hw Hq. split; [by apply sends_more_quiet|..]; destruct Hq as [[] _ _ _ _]; [done|done|]. intros i. by rewrite ss_window0.
Qed.

Lemma repeats_trans sub l1 l2 l3 : repeats sub l1 l2 -> repeats sub l2 l3 -> repeats sub l1 l3.
Proof.
  intros [] []. split; [by eapply sends_more_trans|congruence|congruence|]. intros i. by rewrite rp_cells1.
Qed.

(** A packet with message [i] as it was submitted and the current
    acknowledgement. *)
Definition copy_of (sub : messages) (ack i : Z) (p : packet) : Prop :=
  p_seq p = i /\ Is_link_ack (p_type p) = false /\ p_ack p = ack /\ sub !! Z.to_nat i = Some (p_data p, p_len p).

Lemma resend_ok cfg again now i sub l data :
  sender_ok sub l -> wire_ok sub l -> bc_buff (wcell (window l) i) = Some data ->
  exists l', resend cfg again now i l = Ret l' /\ repeats sub l l' /\
    (network_flag cfg = true -> exists p, wire l' = wire l ++ [p] /\ copy_of sub (recv_tail l) (bc_seq (wcell (window l) i)) p).
Proof.
  intros Hs Hw Hd. unfold resend. set (c := wcell (window l) i) in *. rewrite Hd. cbn [or_else mbind outcome_bind].
  destruct (cell_live sub l i data Hs Hd) as (j & Hj & Hseq & Ht & d & Hd' & Hsub). fold c in Hseq, Ht, Hd', Hsub.
  rewrite Hd in Hd'. injection Hd' as <-.
  pose proof (sender_touch sub l i (bc_time c) true Hs) as Hs1. cbn zeta in Hs1. fold c in Hs1. rewrite Hd in Hs1.
  set (l1 := with_window _ l) in *.
  assert (Hw1 : wire_ok sub l1) by (by eapply wire_ok_mono; [exact Hw|done..]).
  assert (Hl1 : recv_same l l1 /\ connected l1 = connected l /\ seq_no l1 = seq_no l /\ win_tail l1 = win_tail l /\
                win_head l1 = win_head l /\ rtt l1 = rtt l /\ wire l1 = wire l /\ msg_buff l1 = msg_buff l /\
                forall k, bc_buff (wcell (window l1) k) = bc_buff (wcell (window l) k)).
  { split_and!; try done. intros k. subst l1. cbn. rewrite wcell_set. destruct (decide _) as [E|]; [|done].
    cbn. rewrite <- Hd. unfold c. by rewrite (wcell_mod _ i k E). }
  clearbody l1. destruct Hl1 as (Hr1 & Hc1 & Hsq1 & Ht1 & Hh1 & Hrt1 & Hwi1 & Hb1 & Hce1).
  destruct (add_nacks cfg again now (bc_len c) l1) as [l2 nacks] eqn:En. apply quiet_add_nacks in En as Hq.
  pose proof (quiet_sender _ _ _ Hs1 Hq) as Hs2. pose proof (quiet_wire _ _ _ Hw1 Hq) as Hw2.
  assert (Hrt2 : recv_tail l2 = recv_tail l) by (rewrite (rs_tail _ _ (qt_recv _ _ Hq)); apply Hr1).
  assert (Hpk : packet_ok sub l2 (mk_packet (Z.lor RELIABLE_TYPE (bc_type c)) (bc_len c) 0 data (bc_seq c) (recv_tail l2) nacks)).
  { split; [cbn; destruct Hw2; lia|]. intros _. cbn. rewrite (ss_head _ _ (qt_send _ _ Hq)), Hh1, Hseq.
    split; [pose proof (so_order _ _ Hs); lia|done]. }
  destruct (transmit_spec (network_flag cfg) _ _ _ _ _ _ l2 Hs2 Hw2 (fun _ => Hpk)) as [Hm Hwire].
  assert (Hb3 : forall go t a b e, msg_buff (transmit go t a b e nacks l2) = msg_buff l2 /\ window (transmit go t a b e nacks l2) = window l2 /\
            win_head (transmit go t a b e nacks l2) = win_head l2) by (by intros []).
  destruct (Hb3 (network_flag cfg) (Z.lor RELIABLE_TYPE (bc_type c)) (bc_len c) (bc_seq c) data) as (Hb3a & Hb3b & Hb3c).
  set (l3 := transmit _ _ _ _ _ _ _) in *. clearbody l3. clear Hb3. exists l3. split; [done|]. destruct Hq as [[] Hr2 Hwi2 Hsq2 Hrtt2].
  split.
  - split; [|congruence|congruence|].
    + destruct Hm. split; try done; [etrans; [exact Hr1|]; by etrans|congruence|congruence|congruence|lia|congruence|].
      rewrite <- Hwi1, <- Hwi2. done.
    + intros k. rewrite Hb3b, ss_window0. apply Hce1.
  - intros Hn. destruct (Hwire Hn) as (p & Hadd & Hpt & Hps & Hpd & Hpa). exists p. rewrite Hseq in *.
    assert (Hin : p ∈ wire l3) by (rewrite Hadd; apply elem_of_app; right; by left).
    split; [rewrite Hadd; congruence|]. split_and!; [done|by rewrite Hpt|congruence|].
    destruct (sm_wire _ _ _ Hm) as [_ Hall]. rewrite Forall_forall in Hall. destruct (Hall p Hin) as [_ Hp].
    rewrite <- Hps. apply Hp. by rewrite Hpt.
Qed.

Lemma resend_window_ok cfg now sub n i l :
  sender_ok sub l -> wire_ok sub l -> win_tail l <= i -> i + Z.of_nat n <= win_head l ->
  exists l', resend_window cfg now n i l = Ret l' /\ repeats sub l l' /\
    (network_flag cfg = true -> exists ms, wire l' = wire l ++ ms /\
       Forall2 (copy_of sub (recv_tail l)) (seqZ i (Z.of_nat n)) ms).
Proof.
  revert i l. induction n as [|n IH]; intros i l Hs Hw Hi Hn; cbn [resend_window].
  { exists l. split; [done|]. split; [by apply repeats_quiet|]. intros _. exists []. split; [by rewrite app_nil_r|constructor]. }
  destruct (so_window sub l Hs i ltac:(lia)) as (Hseq & _ & data & Hd & _).
  destruct (resend_ok cfg false now i sub l data Hs Hw Hd) as (l1 & -> & Hr & Hwire). cbn [mbind outcome_bind].
  rewrite Hseq in Hwire.
  destruct (IH (i + 1) l1) as (l2 & Hrun & Hr2 & Hwire2).
  - apply Hr.
  - apply Hr.
  - rewrite (sm_tail _ _ _ (rp_more _ _ _ Hr)). lia.
  - rewrite (rp_head _ _ _ Hr). lia.
  - exists l2. split; [done|]. split; [by eapply repeats_trans|]. intros Hnf.
    destruct (Hwire Hnf) as (p & Hp & Hcp). destruct (Hwire2 Hnf) as (ms & Hms & Hall). exists (p :: ms).
    split; [by rewrite Hms, Hp, <- app_assoc|]. rewrite seqZ_cons by lia. constructor; [done|].
    replace (Z.pred (Z.of_nat (S n))) with (Z.of_nat n) by lia. rewrite (rs_tail _ _ (sm_recv _ _ _ (rp_more _ _ _ Hr))) in Hall. done.
Qed.

Lemma answer_nacks_ok cfg now sub nacks l :
  sender_ok sub l -> wire_ok sub l -> exists l', answer_nacks cfg now nacks l = Ret l' /\ repeats sub l l'.
Proof.
  revert l. induction nacks as [|i nacks IH]; intros l Hs Hw; cbn [answer_nacks].
  { exists l. split; [done|]. by apply repeats_quiet. }
  destruct (bc_buff (wcell (window l) i)) as [data|] eqn:Hd; [|by apply IH].
  destruct (resend_ok cfg true now i sub l data Hs Hw Hd) as (l1 & -> & Hr & _). cbn [mbind outcome_bind].
  destruct (IH l1) as (l2 & Hrun & Hr2); [apply Hr|apply Hr|]. exists l2. split; [done|]. by eapply repeats_trans.
Qed.

(** Counting the packets of a stream only looks at messages of the window. *)
Lemma count_stream_total sub l stream n i acc :
  sender_ok sub l -> win_tail l <= i -> i + Z.of_nat n <= win_head l -> exists sw, count_stream l stream n i acc = Ret sw.
Proof.
  intros Hs. revert i acc. induction n as [|n IH]; intros i acc Hi Hn; cbn [count_stream]; [by eexists|].
  destruct (F32.lt _ _); [|by eexists]. destruct (so_window sub l Hs i ltac:(lia)) as (_ & _ & data & -> & _).
  cbn [or_else mbind outcome_bind]. apply IH; lia.
Qed.

Lemma stream_window_total cfg sub l i : sender_ok sub l -> exists sw, stream_window cfg l i = Ret sw.
Proof.
  intros Hs. unfold stream_window. destruct (Stream_Fairness cfg && _) eqn:E; [|by eexists].
  apply andb_true_iff in E as [_ E]. pose proof (so_cells sub l Hs i) as Hc.
  destruct (bc_buff (wcell (window l) i)) as [data|]; [|by rewrite Hc in E].
  cbn [or_else mbind outcome_bind].
  destruct (count_stream_total sub l (take STREAM_BYTES data) (Z.to_nat (win_head l - win_tail l)) (win_tail l) (F32.of_Z 0) Hs) as [sw ->];
    [lia|pose proof (so_order sub l Hs); lia|]. by eexists.
Qed.

Section Steps.
Context (cfg : link_conf).

(** Congestion control is off, as by default. *)
Hypothesis no_tcp : TCP_Fairness cfg = false.

Lemma Reliable_timeout_ok now rnd sub l :
  sender_ok sub l -> wire_ok sub l -> connected l = true ->
  exists l', Reliable_timeout cfg now rnd l = Ret l' /\ repeats sub l l' /\
    (network_flag cfg = true -> exists ms, wire l' = wire l ++ ms /\
       Forall2 (copy_of sub (recv_tail l)) (seqZ (win_tail l) (win_head l - win_tail l)) ms).
Proof.
  intros Hs Hw Hc. unfold Reliable_timeout. rewrite Hc. cbn [negb].
  destruct (Z.eqb_spec (win_head l) (win_tail l)) as [He|Hne].
  { eexists. split; [done|]. split; [by apply repeats_quiet|]. intros _. exists [].
    rewrite He, Z.sub_diag. split; [by rewrite app_nil_r|constructor]. }
  destruct (stream_window_total cfg sub l (win_tail l) Hs) as [sw ->]. cbn [mbind outcome_bind].
  unfold timeout_congestion. rewrite no_tcp. pose proof (quiet_cancel_ack l) as Hq. set (l1 := cancel_ack l) in *. clearbody l1.
  pose proof (quiet_sender _ _ _ Hs Hq) as Hs1. pose proof (quiet_wire _ _ _ Hw Hq) as Hw1.
  destruct (resend_window_ok cfg now sub (Z.to_nat (win_head l1 - win_tail l1)) (win_tail l1) l1 Hs1 Hw1) as (l2 & -> & Hr & Hwire);
    [lia|pose proof (so_order sub l1 Hs1); lia|].
  cbn [mbind outcome_bind]. eexists. split; [done|]. split.
  - eapply repeats_trans; [by apply repeats_quiet; [..|exact Hq]|]. eapply repeats_trans; [exact Hr|].
    by apply repeats_quiet; [apply Hr|apply Hr|].
  - intros Hn. destruct (Hwire Hn) as (ms & Hms & Hall). exists ms. destruct Hq as [[] [] Hwq _ _].
    rewrite rs_tail0, ss_tail0, ss_head0, Z2Nat.id in Hall by (pose proof (so_order sub l Hs); lia).
    split; [|done]. cbn. rewrite Hms. congruence.
Qed.

Lemma Send_Nack_Retransm_ok now sub l :
  sender_ok sub l -> wire_ok sub l -> connected l = true ->
  exists l', Send_Nack_Retransm cfg now l = Ret l' /\ repeats sub l l'.
Proof.
  intros Hs Hw Hc. unfold Send_Nack_Retransm. rewrite Hc. cbn [negb].
  destruct (nack_buff l) as [|i nacks] eqn:En; [exists l; split; [done|by apply repeats_quiet]|].
  destruct (_ =? _); [eexists; split; [done|by apply repeats_quiet]|].
  destruct (stream_window_total cfg sub l i Hs) as [sw ->]. cbn [mbind outcome_bind].
  unfold nack_congestion. rewrite no_tcp. pose proof (quiet_cancel_ack l) as Hq. set (l1 := cancel_ack l) in *. clearbody l1.
  pose proof (quiet_sender _ _ _ Hs Hq) as Hs1. pose proof (quiet_wire _ _ _ Hw Hq) as Hw1.
  destruct (answer_nacks_ok cfg now sub (nack_buff l1) l1 Hs1 Hw1) as (l2 & -> & Hr). cbn [mbind outcome_bind].
  eexists. split; [done|]. eapply repeats_trans; [by apply repeats_quiet; [..|exact Hq]|].
  eapply repeats_trans; [exact Hr|]. by apply repeats_quiet; [apply Hr|apply Hr|].
Qed.

(** A bare acknowledgement. *)
Lemma Send_Ack_ok now sub l :
  sender_ok sub l -> wire_ok sub l -> connected l = true ->
  exists l', Send_Ack cfg now l = Ret l' /\ repeats sub l l' /\
    (network_flag cfg = true -> exists p, wire l' = wire l ++ [p] /\ Is_link_ack (p_type p) = true /\ p_ack p = recv_tail l).
Proof.
  intros Hs Hw Hc. unfold Send_Ack. rewrite Hc. cbn [negb]. set (l0 := with_scheduled_ack false l).
  assert (Hq0 : quiet l l0) by done. destruct (add_nacks cfg false now 0 l0) as [l1 nacks] eqn:En.
  apply quiet_add_nacks in En as Hq1. assert (Hq : quiet l l1) by (by etrans).
  pose proof (quiet_sender _ _ _ Hs Hq) as Hs1. pose proof (quiet_wire _ _ _ Hw Hq) as Hw1.
  destruct (transmit_spec (network_flag cfg) LINK_ACK_TYPE 0 0 [] nacks sub l1 Hs1 Hw1) as [Hm Hwire].
  { intros _. split; [cbn; destruct Hw1; lia|done]. }
  assert (Hf : win_head (transmit (network_flag cfg) LINK_ACK_TYPE 0 0 [] nacks l1) = win_head l1 /\
               msg_buff (transmit (network_flag cfg) LINK_ACK_TYPE 0 0 [] nacks l1) = msg_buff l1 /\
               window (transmit (network_flag cfg) LINK_ACK_TYPE 0 0 [] nacks l1) = window l1)
    by (unfold transmit; by destruct (network_flag cfg)).
  set (l2 := transmit _ _ _ _ _ _ _) in *. clearbody l2. eexists. split; [done|]. split.
  - eapply repeats_trans; [by apply repeats_quiet; [..|exact Hq]|]. destruct Hf as (H1 & H2 & H3).
    split; [done|done|done|]. intros i. by rewrite H3.
  - intros Hn. destruct (Hwire Hn) as (p & Hin & Ht & _ & _ & Ha). exists p. split; [rewrite Hin; by rewrite (qt_wire _ _ Hq)|]. rewrite Ht. split; [done|].
    rewrite Ha. apply (rs_tail _ _ (qt_recv _ _ Hq)).
Qed.
End Steps.

(** ** Acknowledgements free the window *)
Record acks (sub : messages) (n : Z) (l l' : link) : Prop := {
  ak_sender : sender_ok sub l';
  ak_tail : win_tail l' = win_tail l + n;
  ak_head : win_head l' = win_head l;
  ak_buff : msg_buff l' = msg_buff l;
  ak_conn : connected l' = connected l;
  ak_seq : seq_no l' = seq_no l;
  ak_wire : wire l' = wire l;
  ak_recv : recv_same l l' }.

Lemma acks_quiet sub l l' : sender_ok sub l -> quiet l l' -> acks sub 0 l l'.
Proof. intros Hs Hq. pose proof (quiet_sender _ _ _ Hs Hq). destruct Hq as [[] ? ? ? ?]. split; try done. lia. Qed.

Lemma acks_trans sub n m l1 l2 l3 : acks sub n l1 l2 -> acks sub m l2 l3 -> acks sub (n + m) l1 l3.
Proof. intros [] []. split; [done|lia|congruence|congruence|congruence|congruence|congruence|by etrans]. Qed.

Lemma sender_free sub l :
  sender_ok sub l -> win_tail l < win_head l ->
  let c := wcell (window l) (win_tail l) in
  sender_ok sub (with_tail (win_tail l + 1)
    (with_window (set_wcell (win_tail l) (mk_bcell (bc_seq c) None 0 0 (bc_time c) (bc_resent c)) (window l)) l)).
Proof.
  intros [] Hlt c. split; cbn; try done; [lia|lia| |].
  - intros i Hi. rewrite wcell_set_ne by (unfold MAX_WINDOW in *; lia). apply so_window0. lia.
  - intros i. specialize (so_cells0 i). rewrite wcell_set. destruct (decide _) as [E|E]; [done|].
    destruct (bc_buff (wcell (window l) i)); [|done]. destruct so_cells0 as (j & Hj & Hm). exists j. split; [|done].
    assert (j <> win_tail l) by congruence. lia.
Qed.

Lemma ack_loop_ok cfg sub n l :
  TCP_Fairness cfg = false -> sender_ok sub l -> Z.of_nat n <= win_head l - win_tail l ->
  exists l', ack_loop cfg n (win_tail l) l = Ret l' /\ acks sub (Z.of_nat n) l l'.
Proof.
  intros Htcp. revert l. induction n as [|n IH]; intros l Hs Hn; cbn [ack_loop].
  { exists l. split; [done|]. by apply acks_quiet. }
  destruct (so_window sub l Hs (win_tail l) ltac:(lia)) as (_ & _ & data & Hd & _). rewrite Hd.
  set (c := wcell (window l) (win_tail l)) in *. set (l1 := with_window _ l).
  assert (Hsw : stream_window cfg l1 (win_tail l1) = Ret (window_size l1)).
  { unfold stream_window. cbn. rewrite wcell_set_eq. cbn. by rewrite andb_false_r. }
  rewrite Hsw. cbn [mbind outcome_bind]. unfold grow_window. rewrite Htcp. cbn [andb].
  assert (Hu : u32 (win_tail l1 + 1) = win_tail l + 1) by (cbn; pose proof (so_order _ _ Hs); pose proof (so_seq _ _ Hs); apply u32_seq; lia).
  rewrite Hu. pose proof (sender_free sub l Hs ltac:(lia)) as Hs2. cbn zeta in Hs2. fold c in Hs2.
  destruct (IH (with_tail (win_tail l + 1) l1)) as (l' & Hrun & Ha); [exact Hs2|cbn; lia|].
  exists l'. split; [exact Hrun|]. replace (Z.of_nat (S n)) with (1 + Z.of_nat n) by lia. eapply acks_trans; [|exact Ha].
  by split.
Qed.

Lemma reset_timeout_quiet cfg now rnd l : quiet l (reset_timeout cfg now rnd l).
Proof.
  unfold reset_timeout. set (l1 := relax_multiply l). assert (Hq : quiet l l1) by done. clearbody l1.
  etrans; [exact Hq|]. destruct (scheduled_timeout l1); destruct (_ <? _); done.
Qed.

Lemma keep_nacks_quiet now nacks l : quiet l (keep_nacks now nacks l).
Proof. unfold keep_nacks. by destruct (_ <? _). Qed.

Lemma update_rtt_same now a l : send_same l (update_rtt now a l) /\ recv_same l (update_rtt now a l) /\
  wire (update_rtt now a l) = wire l /\ seq_no (update_rtt now a l) = seq_no l.
Proof. unfold update_rtt. by destruct (_ && _). Qed.

(** The cumulative acknowledgement [a] takes everything below it from the
    window. *)
Lemma process_cumulative_ok cfg now a sub l :
  TCP_Fairness cfg = false -> sender_ok sub l -> a <= win_head l ->
  exists l', process_cumulative cfg now a l = Ret l' /\ acks sub (Z.max 0 (a - win_tail l)) l l'.
Proof.
  intros Htcp Hs Ha. unfold process_cumulative. destruct (Z.ltb_spec (win_tail l) a) as [Hlt|Hge].
  - destruct (update_rtt_same now a l) as (H1 & H2 & H3 & H4). set (l1 := update_rtt now a l) in *. clearbody l1.
    pose proof (sender_same _ _ _ Hs H1) as Hs1. pose proof (ss_tail _ _ H1) as Ht. pose proof (ss_head _ _ H1) as Hh.
    destruct (ack_loop_ok cfg sub (Z.to_nat (a - win_tail l1)) l1 Htcp Hs1 ltac:(lia)) as (l2 & -> & Hak).
    cbn [mbind outcome_bind]. eexists. split; [done|].
    replace (Z.max 0 (a - win_tail l)) with (Z.of_nat (Z.to_nat (a - win_tail l1)) + 0) by lia.
    eapply acks_trans; [|by destruct (bool_decide _); apply acks_quiet; [apply Hak| |apply Hak|]].
    replace (Z.of_nat _) with (0 + Z.of_nat (Z.to_nat (a - win_tail l1))) by lia.
    eapply acks_trans; [|exact Hak]. destruct H1. split; try done. lia.
  - exists l. split; [done|]. rewrite Z.max_l by lia. by apply acks_quiet.
Qed.

(** ** The receiving side *)

(** [del]: the sequence numbers handed on, in the order of arrival. *)
Record receiver_ok (del : list Z) (l : link) : Prop := {
  ro_order : 0 <= recv_tail l <= recv_head l;
  ro_span : recv_head l <= recv_tail l + MAX_WINDOW /\ recv_head l < 2 ^ 32;
  ro_cells : forall i, recv_tail l <= i < recv_tail l + MAX_WINDOW -> (received (recv_window l) i <-> i ∈ del);
  ro_done : forall i, 0 <= i < recv_tail l -> i ∈ del;
  ro_range : forall i, i ∈ del -> 0 <= i < recv_head l;
  ro_nodup : NoDup del;
  ro_hole : recv_tail l ∉ del }.

(** The same while the tail is moving. *)
Record receiver_moving (del : list Z) (l : link) : Prop := {
  rm_order : 0 <= recv_tail l <= recv_head l;
  rm_span : recv_head l <= recv_tail l + MAX_WINDOW /\ recv_head l < 2 ^ 32;
  rm_cells : forall i, recv_tail l <= i < recv_tail l + MAX_WINDOW -> (received (recv_window l) i <-> i ∈ del);
  rm_done : forall i, 0 <= i < recv_tail l -> i ∈ del;
  rm_range : forall i, i ∈ del -> 0 <= i < recv_head l;
  rm_nodup : NoDup del }.

(** Only the receiving side changed. *)
Record receives (l l' : link) : Prop := {
  rv_send : send_same l l'; rv_seq : seq_no l' = seq_no l; rv_wire : wire l' = wire l;
  rv_tail : recv_tail l <= recv_tail l'; rv_sched : scheduled_ack l' = scheduled_ack l }.

Lemma advance_tail_ok del n l :
  receiver_moving del l -> recv_head l - recv_tail l <= Z.of_nat n ->
  receiver_ok del (advance_tail n l) /\ receives l (advance_tail n l) /\ recv_head (advance_tail n l) = recv_head l.
Proof.
  revert l. induction n as [|n IH]; intros l [] Hn; cbn [advance_tail].
  { split; [|done]. split; try done. intros Hin. apply rm_range0 in Hin. lia. }
  destruct (decide (rc_flag _ = RECVD_CELL)) as [Hr|Hr].
  - assert (Hin : recv_tail l ∈ del) by (apply rm_cells0; [unfold MAX_WINDOW; lia|exact Hr]).
    pose proof (rm_range0 _ Hin) as Hlt. assert (Hu : u32 (recv_tail l + 1) = recv_tail l + 1) by (apply u32_seq; lia). rewrite Hu.
    set (l1 := with_recv_tail _ _). assert (Hm : receiver_moving del l1).
    { split; cbn; try done; [lia|lia| |].
      - intros i Hi. unfold received. rewrite rcell_set. destruct (decide _) as [E|E].
        + cbn. split; [done|]. intros Hd. apply rm_range0 in Hd. apply mod_window_inj in E; unfold MAX_WINDOW in *; lia.
        + destruct (decide (i = recv_tail l + MAX_WINDOW)) as [->|Hne].
          * exfalso. apply E. unfold MAX_WINDOW. replace (recv_tail l + 20000) with (recv_tail l + 1 * 20000) by lia. by rewrite Z_mod_plus_full.
          * apply rm_cells0. lia.
      - intros i Hi. destruct (decide (i = recv_tail l)) as [->|]; [done|]. apply rm_done0. lia. }
    destruct (IH l1 Hm) as (H1 & [] & H3); [subst l1; cbn; lia|].
    split; [done|]. split; [|exact H3]. split; try done; [by etrans; [|exact rv_send0]|]. subst l1. cbn in rv_tail0. lia.
  - split; [|done]. split; try done. intros Hin. apply Hr. apply rm_cells0; [unfold MAX_WINDOW; lia|done].
Qed.

(** A data packet is accepted exactly when its number was not accepted
    before. *)
Lemma receive_seq_ok del seq l :
  receiver_ok del l -> 0 <= seq < recv_tail l + MAX_WINDOW -> seq + 1 < 2 ^ 32 ->
  let del' := if decide (seq ∈ del) then del else del ++ [seq] in
  exists l', receive_seq seq l = ((if decide (seq ∈ del) then 0 else 1), l') /\ receiver_ok del' l' /\
    receives l l' /\ recv_head l' = (if decide (seq ∈ del) then recv_head l else Z.max (recv_head l) (seq + 1)).
Proof.
  intros Hok Hseq Hmax del'. unfold receive_seq.
  assert (Hdup : bool_decide (rc_flag (rcell (recv_window l) seq) = RECVD_CELL) || (seq <? recv_tail l) = bool_decide (seq ∈ del)).
  { destruct Hok. destruct (Z.ltb_spec seq (recv_tail l)) as [Hlt|Hge].
    - rewrite orb_true_r. symmetry. apply bool_decide_eq_true_2, ro_done0. lia.
    - rewrite orb_false_r. apply bool_decide_ext. apply ro_cells0. lia. }
  rewrite Hdup. subst del'. destruct (decide (seq ∈ del)) as [Hin|Hout].
  { rewrite bool_decide_eq_true_2 by done. exists l. split_and!; [done|done|by split|done]. }
  rewrite bool_decide_eq_false_2 by done.
  assert (Hge : recv_tail l <= seq). { destruct Hok. destruct (Z.le_gt_cases (recv_tail l) seq); [done|]. exfalso. apply Hout, ro_done0. lia. }
  assert (Hu : u32 (seq + 1) = seq + 1) by (apply u32_seq; lia). rewrite Hu.
  set (l1 := if recv_head l <=? seq then with_recv_head (seq + 1) l else l).
  assert (H1 : recv_head l1 = Z.max (recv_head l) (seq + 1) /\ recv_tail l1 = recv_tail l /\ recv_window l1 = recv_window l /\ receives l l1).
  { subst l1. destruct (Z.leb_spec (recv_head l) seq); cbn; (split_and!; [lia|done|done|by split]). }
  clearbody l1. destruct H1 as (Hh1 & Ht1 & Hw1 & Hv1).
  set (l2 := with_recv_window _ l1).
  assert (Hm : receiver_moving (del ++ [seq]) l2).
  { destruct Hok. split; cbn; rewrite ?Hh1, ?Ht1, ?Hw1; [lia|lia| | | |].
    - intros i Hi. unfold received. rewrite rcell_set, elem_of_app, list_elem_of_singleton. destruct (decide _) as [E|E].
      + apply mod_window_inj in E; [|unfold MAX_WINDOW in *; lia]. subst i. cbn. tauto.
      + assert (seq <> i) by congruence. rewrite <- ro_cells0 by lia. unfold received. split; [by left|]. intros [?|?]; [done|congruence].
    - intros i Hi. apply elem_of_app. left. by apply ro_done0.
    - intros i [Hi| ->%list_elem_of_singleton]%elem_of_app; [apply ro_range0 in Hi; lia|lia].
    - apply NoDup_app. split_and!; [done| |apply NoDup_singleton]. intros x Hx ->%list_elem_of_singleton. done. }
  destruct (advance_tail_ok _ (Z.to_nat (recv_head l2 - recv_tail l2)) l2 Hm) as (H1 & H2 & H3); [lia|].
  eexists. split; [done|]. split; [exact H1|]. split.
  - destruct Hv1, H2. cbn in *. split; [|congruence|congruence|lia|congruence]. etrans; [exact rv_send0|]. etrans; [|exact rv_send1]. done.
  - rewrite H3. exact Hh1.
Qed.

Lemma receiver_same del l l' : receiver_ok del l -> recv_same l l' -> receiver_ok del l'.
Proof.
  intros [] []. split; rewrite ?rs_head0, ?rs_tail0; try done. intros i Hi. rewrite rs_cells0. by apply ro_cells0.
Qed.

(** What a received packet does to both sides. *)
Record processes (sub : messages) (del : list Z) (pkt : packet) (l l' : link) : Prop := {
  pc_sender : sender_ok sub l';
  pc_wire : wire_ok sub l';
  pc_recv : receiver_ok del l';
  pc_same : wire l' = wire l /\ connected l' = connected l /\ seq_no l' = seq_no l /\ msg_buff l' = msg_buff l;
  pc_head : win_head l' = win_head l;
  pc_tail : win_tail l' = Z.max (win_tail l) (p_ack pkt);
  pc_grow : recv_tail l <= recv_tail l' }.

Lemma Process_Ack_ok cfg now rnd sub del pkt l :
  TCP_Fairness cfg = false -> sender_ok sub l -> wire_ok sub l -> receiver_ok del l ->
  0 <= p_ack pkt <= win_head l ->
  (Is_link_ack (p_type pkt) = false -> 0 <= p_seq pkt < recv_tail l + MAX_WINDOW /\ p_seq pkt + 1 < 2 ^ 32) ->
  let fresh := negb (Is_link_ack (p_type pkt)) && negb (bool_decide (p_seq pkt ∈ del)) in
  exists l', Process_Ack cfg now rnd (p_type pkt) pkt l =
      Ret ((if Is_link_ack (p_type pkt) then -1 else if fresh then 1 else 0), l') /\
    processes sub (if fresh then del ++ [p_seq pkt] else del) pkt l l' /\
    recv_head l' = (if fresh then Z.max (recv_head l) (p_seq pkt + 1) else recv_head l).
Proof.
  intros Htcp Hs Hw Hr Hack Hdata fresh. unfold Process_Ack.
  pose proof (keep_nacks_quiet now (p_nacks pkt) l) as Hq. set (l1 := keep_nacks _ _ _) in *. clearbody l1.
  pose proof (quiet_sender _ _ _ Hs Hq) as Hs1. pose proof (ss_head _ _ (qt_send _ _ Hq)) as Hh1.
  pose proof (ss_tail _ _ (qt_send _ _ Hq)) as Ht1.
  rewrite (proj2 (Z.ltb_ge _ _)) by lia.
  destruct (process_cumulative_ok cfg now (p_ack pkt) sub l1 Htcp Hs1 ltac:(lia)) as (l2 & -> & Hak). cbn [mbind outcome_bind].
  pose proof (reset_timeout_quiet cfg now rnd l2) as Hq3. set (l3 := reset_timeout _ _ _ _) in *. clearbody l3.
  destruct Hak as [Hs2 Ht2 Hh2 Hb2 Hc2 Hsq2 Hw2 Hr2].
  pose proof (quiet_sender _ _ _ Hs2 Hq3) as Hs3.
  assert (Hrs : recv_same l l3) by (etrans; [apply (qt_recv _ _ Hq)|]; etrans; [exact Hr2|apply (qt_recv _ _ Hq3)]).
  pose proof (receiver_same _ _ _ Hr Hrs) as Hr3.
  assert (Hf : wire l3 = wire l /\ connected l3 = connected l /\ seq_no l3 = seq_no l /\ msg_buff l3 = msg_buff l /\
               win_head l3 = win_head l /\ win_tail l3 = Z.max (win_tail l) (p_ack pkt)).
  { destruct Hq as [[] _ Hqw Hqs _], Hq3 as [[] _ Hqw3 Hqs3 _]. split_and!; try congruence. lia. }
  destruct Hf as (Hfw & Hfc & Hfs & Hfb & Hfh & Hft). pose proof (rs_tail _ _ Hrs) as Hrt.
  subst fresh. destruct (Is_link_ack (p_type pkt)) eqn:Ea; cbn [negb andb].
  - exists l3. split; [done|]. split; [|apply Hrs]. split; try done; [|lia].
    eapply wire_ok_mono; [exact Hw|done|done|lia|lia].
  - destruct (Hdata eq_refl) as [Hseq Hmax].
    destruct (receive_seq_ok del (p_seq pkt) l3 Hr3) as (l4 & Hrun & Hr4 & Hv & Hh4); [lia|done|].
    exists l4. rewrite Hrun. destruct Hv as [Hss Hvs Hvw Hvt _].
    pose proof Hss as [Hv1 Hv2 Hv3 Hv4 Hv5 Hv6].
    destruct (decide (p_seq pkt ∈ del)) as [Hin|Hin];
      [rewrite (bool_decide_eq_true_2 _ Hin)|rewrite (bool_decide_eq_false_2 _ Hin)]; cbn [negb]; (split; [reflexivity|]);
      (split; [|rewrite Hh4, (rs_head _ _ Hrs); done]);
      (split; [by eapply sender_same| |exact Hr4|split_and!; congruence|congruence|congruence|lia]);
      (eapply wire_ok_mono; [exact Hw|congruence|done|lia|lia]).
Qed.
