(* ===== verification/ReliableSys.v ===== *)
(** * ReliableSys: two ends of a reliable link over a lossy network

    The two daemons of a link run the functions of [ReliableLink]; the network
    between them may lose, repeat and reorder packets: an end may receive, at
    any time and any number of times, any packet the other end ever sent. *)
From Stdlib Require Import SpecFloat.
From stdpp Require Import base list gmap numbers option sets relations.
From Stdlib Require Import ZArith Lia.
From S2P Require Import Prelude CFloat Events NetTypes FloodProof ReliableLink ReliableProof.
#[local] Open Scope Z_scope.

(** One end: its link, the messages it was given to send, and the messages it
    handed on, each with its sequence number. *)
Record endpoint := mk_end { e_link : link; e_sub : messages; e_del : list (Z * list Z) }.

Definition new_end (cfg : link_conf) (id : Z) : endpoint := mk_end (new_link cfg id) [] [].

(** What one end may do; [inbox]: the packets the other end sent so far. *)
Inductive end_step (cfg : link_conf) (inbox : list packet) : endpoint -> endpoint -> Prop :=
| StConnect e l' :
    l' = mk_link (link_id (e_link e)) true (seq_no (e_link e)) (msg_buff (e_link e)) (window_size (e_link e))
           (max_window (e_link e)) (ssthresh (e_link e)) (window (e_link e)) (win_head (e_link e)) (win_tail (e_link e))
           (recv_window (e_link e)) (recv_head (e_link e)) (recv_tail (e_link e)) (nack_buff (e_link e))
           (scheduled_ack (e_link e)) (scheduled_timeout (e_link e)) (timeout_multiply (e_link e)) (rtt (e_link e))
           (cong_flag (e_link e)) (my_seqs (e_link e)) (lk_queue (e_link e)) (Link_Sessions_Blocked_On (e_link e))
           (session_calls (e_link e)) (wire (e_link e)) ->
    end_step cfg inbox e (mk_end l' (e_sub e) (e_del e))
| StSubmit now rnd buff len type e b l' :
    data_type type -> Z.of_nat (length (e_sub e)) + 1 < 2 ^ 32 ->
    Reliable_Send_Msg cfg now rnd buff len type (e_link e) = Ret (b, l') ->
    end_step cfg inbox e (mk_end l' (e_sub e ++ [(buff, len)]) (e_del e))
| StTry now rnd e l' :
    Try_to_Send cfg now rnd (e_link e) = Ret l' -> end_step cfg inbox e (mk_end l' (e_sub e) (e_del e))
| StTimeout now rnd e l' :
    Reliable_timeout cfg now rnd (e_link e) = Ret l' -> end_step cfg inbox e (mk_end l' (e_sub e) (e_del e))
| StNack now e l' :
    Send_Nack_Retransm cfg now (e_link e) = Ret l' -> end_step cfg inbox e (mk_end l' (e_sub e) (e_del e))
| StAck now e l' :
    Send_Ack cfg now (e_link e) = Ret l' -> end_step cfg inbox e (mk_end l' (e_sub e) (e_del e))
| StReceive now rnd pkt e m l' :
    pkt ∈ inbox -> Process_rel_udp_data_packet cfg now rnd pkt (e_link e) = Ret (m, l') ->
    end_step cfg inbox e
      (mk_end l' (e_sub e) (match m with Some data => e_del e ++ [(p_seq pkt, data)] | None => e_del e end))
| StReceiveAck now rnd pkt e l' :
    pkt ∈ inbox -> Is_link_ack (p_type pkt) = true ->
    Process_ack_packet cfg now rnd pkt (e_link e) = Ret l' ->
    end_step cfg inbox e (mk_end l' (e_sub e) (e_del e)).

(** The two ends take turns in any order. *)
Inductive sys_step (cfgA cfgB : link_conf) : endpoint * endpoint -> endpoint * endpoint -> Prop :=
| StepA a a' b : end_step cfgA (wire (e_link b)) a a' -> sys_step cfgA cfgB (a, b) (a', b)
| StepB a b b' : end_step cfgB (wire (e_link a)) b b' -> sys_step cfgA cfgB (a, b) (a, b').

Definition sys_reachable (cfgA cfgB : link_conf) (idA idB : Z) (s : endpoint * endpoint) : Prop :=
  rtc (sys_step cfgA cfgB) (new_end cfgA idA, new_end cfgB idB) s.

(** ** The invariant *)
Record end_ok (e : endpoint) : Prop := {
  eo_sender : sender_ok (e_sub e) (e_link e);
  eo_wire : wire_ok (e_sub e) (e_link e);
  eo_seq : seq_no (e_link e) = Z.of_nat (length (e_sub e));
  eo_recv : receiver_ok (e_del e).*1 (e_link e) }.

(** From [a] to [b]: the sender's window lies within what the receiver can
    place, nothing was received that was not sent, and what was handed on is
    what was submitted. *)
Record flow_ok (a b : endpoint) : Prop := {
  fo_tail : win_tail (e_link a) <= recv_tail (e_link b);
  fo_head : recv_head (e_link b) <= win_head (e_link a);
  fo_data : forall i data, (i, data) ∈ e_del b -> exists len, e_sub a !! Z.to_nat i = Some (data, len) }.

Record sys_ok (a b : endpoint) : Prop := {
  sk_a : end_ok a; sk_b : end_ok b; sk_ab : flow_ok a b; sk_ba : flow_ok b a }.

(** The packets of the other end are fit to be processed. *)
Lemma inbox_ok a b pkt :
  sys_ok a b -> pkt ∈ wire (e_link b) ->
  0 <= p_ack pkt <= win_head (e_link a) /\ p_ack pkt <= recv_tail (e_link b) /\
  (Is_link_ack (p_type pkt) = false ->
     0 <= p_seq pkt < recv_tail (e_link a) + MAX_WINDOW /\ p_seq pkt + 1 < 2 ^ 32 /\ p_seq pkt < win_head (e_link b) /\
     e_sub b !! Z.to_nat (p_seq pkt) = Some (p_data pkt, p_len pkt)).
Proof.
  intros [Ha Hb [Hab1 Hab2 _] [Hba1 Hba2 _]] Hin. destruct (eo_wire b Hb) as [_ Hw]. rewrite Forall_forall in Hw.
  destruct (Hw pkt Hin) as [Hack Hdata]. pose proof (ro_order _ _ (eo_recv b Hb)). split; [lia|]. split; [lia|].
  intros Hd. destruct (Hdata Hd) as [Hseq Hsub]. pose proof (so_size _ _ (eo_sender b Hb)). pose proof (so_order _ _ (eo_sender b Hb)).
  pose proof (so_seq _ _ (eo_sender b Hb)).
  split_and!; lia || done.
Qed.

(** A step that only sends. *)
Lemma sys_sends a b l' sub' :
  sys_ok a b -> sender_ok sub' l' -> wire_ok sub' l' -> seq_no l' = Z.of_nat (length sub') ->
  recv_same (e_link a) l' -> win_tail l' = win_tail (e_link a) -> win_head (e_link a) <= win_head l' ->
  e_sub a `prefix_of` sub' -> sys_ok (mk_end l' sub' (e_del a)) b.
Proof.
  intros [Ha Hb [Hab1 Hab2 Hab3] [Hba1 Hba2 Hba3]] Hs Hw Hsq Hr Ht Hh Hp. destruct Hr as [Hr1 Hr2 Hr3].
  split; [|done| |]; cbn.
  - split; cbn; try done. eapply receiver_same; [apply Ha|]. by split.
  - split; cbn; [lia|lia|]. intros i data Hin. destruct (Hab3 i data Hin) as [len Hl]. exists len. by eapply prefix_lookup_Some.
  - split; cbn; [lia|lia|done].
Qed.

Lemma sys_repeats a b l' : sys_ok a b -> repeats (e_sub a) (e_link a) l' -> sys_ok (mk_end l' (e_sub a) (e_del a)) b.
Proof.
  intros Hok [[] Hh _ _]. apply sys_sends; try done. rewrite sm_seq. apply (eo_seq a (sk_a a b Hok)).
Qed.

Lemma sys_more a b l' : sys_ok a b -> sends_more (e_sub a) (e_link a) l' -> sys_ok (mk_end l' (e_sub a) (e_del a)) b.
Proof. intros Hok []. apply sys_sends; try done. rewrite sm_seq. apply (eo_seq a (sk_a a b Hok)). Qed.

(** A step that processes a packet of the other end; [m] is what is handed
    on. *)
Lemma sys_processes a b pkt l' (fresh : bool) :
  sys_ok a b -> pkt ∈ wire (e_link b) -> (fresh = true -> Is_link_ack (p_type pkt) = false) ->
  processes (e_sub a) (if fresh then (e_del a).*1 ++ [p_seq pkt] else (e_del a).*1) pkt (e_link a) l' ->
  recv_head l' = (if fresh then Z.max (recv_head (e_link a)) (p_seq pkt + 1) else recv_head (e_link a)) ->
  sys_ok (mk_end l' (e_sub a) (if fresh then e_del a ++ [(p_seq pkt, p_data pkt)] else e_del a)) b.
Proof.
  intros Hok Hin Hfr [Hs Hw Hr (_ & _ & Hsq & _) Hh Ht Hg] Hrh.
  destruct (inbox_ok a b pkt Hok Hin) as (_ & Hack & Hdata).
  destruct Hok as [Ha Hb [Hab1 Hab2 Hab3] [Hba1 Hba2 Hba3]]. split; [|done| |].
  - split; cbn; try done; [rewrite Hsq; apply Ha|]. destruct fresh; [rewrite fmap_app|]; exact Hr.
  - split; cbn; [lia|lia|done].
  - destruct fresh.
    + destruct (Hdata (Hfr eq_refl)) as (_ & _ & Hlt & Hsub). split; cbn; [lia|lia|].
      intros i data [Hi|Hi%list_elem_of_singleton]%elem_of_app; [by apply Hba3|]. injection Hi as -> ->. by eexists.
    + split; cbn; [lia|lia|done].
Qed.

Lemma sys_quiet a b l' del : sys_ok (mk_end a del.1 del.2) b -> quiet a l' -> sys_ok (mk_end l' del.1 del.2) b.
Proof.
  intros Hok Hq. pose proof (sk_a _ _ Hok) as [Hs Hw Hsq Hr]. cbn in *.
  apply (sys_sends (mk_end a del.1 del.2) b l' del.1); cbn; try done.
  - by eapply quiet_sender.
  - by eapply quiet_wire.
  - rewrite (qt_seq _ _ Hq). done.
  - apply (qt_recv _ _ Hq).
  - apply (ss_tail _ _ (qt_send _ _ Hq)).
  - rewrite (ss_head _ _ (qt_send _ _ Hq)). lia.
Qed.

(** Taking a dissemination header off the tail only shortens the negative
    acknowledgements. *)
Lemma tail_behind_same dh pkt pkt' :
  tail_behind dh pkt = Ret pkt' -> exists nacks,
    pkt' = mk_packet (p_type pkt) (p_len pkt) (p_loss_seq pkt) (p_data pkt) (p_seq pkt) (p_ack pkt) nacks.
Proof. unfold tail_behind. destruct (_ <? _); [done|]. intros [= <-]. by eexists. Qed.

(** Without a dissemination header the tail is all there. *)
Lemma tail_behind_none pkt : exists pkt', tail_behind 0 pkt = Ret pkt'.
Proof.
  unfold tail_behind. assert (Hp : 0 <= ack_len (p_nacks pkt)) by (unfold ack_len, sizeof_reliable_tail; lia).
  rewrite Z.sub_0_r, (proj2 (Z.ltb_ge _ _)); [by eexists|]. unfold u16, wrapu. apply Z.mod_le; lia.
Qed.

Lemma process_data_ok cfg now rnd a b pkt nacks :
  TCP_Fairness cfg = false -> sys_ok a b -> pkt ∈ wire (e_link b) ->
  let pkt' := mk_packet (p_type pkt) (p_len pkt) (p_loss_seq pkt) (p_data pkt) (p_seq pkt) (p_ack pkt) nacks in
  let fresh := negb (Is_link_ack (p_type pkt)) && negb (bool_decide (p_seq pkt ∈ (e_del a).*1)) in
  exists l', Process_Ack cfg now rnd (p_type pkt) pkt' (e_link a) =
      Ret ((if Is_link_ack (p_type pkt) then -1 else if fresh then 1 else 0), l') /\
    sys_ok (mk_end l' (e_sub a) (if fresh then e_del a ++ [(p_seq pkt, p_data pkt)] else e_del a)) b /\
    connected l' = connected (e_link a) /\ wire l' = wire (e_link a).
Proof.
  intros Htcp Hok Hin pkt' fresh. destruct (inbox_ok a b pkt Hok Hin) as (Hack & _ & Hdata).
  destruct (Process_Ack_ok cfg now rnd (e_sub a) (e_del a).*1 pkt' (e_link a) Htcp) as (l1 & Hrun & Hp & Hh);
    [apply Hok..|done|intros Hd; destruct (Hdata Hd) as (? & ? & _); done|].
  exists l1. split; [exact Hrun|].
  assert (Hfr : fresh = true -> Is_link_ack (p_type pkt) = false) by (subst fresh; destruct (Is_link_ack _); done).
  assert (Hp0 : processes (e_sub a) (if fresh then (e_del a).*1 ++ [p_seq pkt] else (e_del a).*1) pkt (e_link a) l1)
    by (by destruct Hp; split).
  split; [by apply (sys_processes a b pkt l1 fresh)|]. by destruct Hp0 as [_ _ _ (Hw & Hcn & _) _ _ _].
Qed.

(** What a data packet of the other end does when processing it returns, and
    that it returns without a dissemination header. *)
Lemma receive_ok cfg now rnd a b pkt :
  TCP_Fairness cfg = false -> sys_ok a b -> pkt ∈ wire (e_link b) -> connected (e_link a) = true ->
  let fresh := negb (too_small pkt) && (negb (Is_link_ack (p_type pkt)) && negb (bool_decide (p_seq pkt ∈ (e_del a).*1))) in
  (forall m l', Process_rel_udp_data_packet cfg now rnd pkt (e_link a) = Ret (m, l') ->
    m = (if fresh then Some (p_data pkt) else None) /\
    sys_ok (mk_end l' (e_sub a) (if fresh then e_del a ++ [(p_seq pkt, p_data pkt)] else e_del a)) b /\
    connected l' = true /\ wire l' = wire (e_link a)) /\
  (too_small pkt = true \/ hdr_routing pkt = Some MIN_WEIGHT_ROUTING ->
    exists m l', Process_rel_udp_data_packet cfg now rnd pkt (e_link a) = Ret (m, l')).
Proof.
  intros Htcp Hok Hin Hc. unfold Process_rel_udp_data_packet. destruct (too_small pkt); cbn [negb andb].
  { split; [|by eexists _, _]. intros m l' [= <- <-]. split; [done|]. split; [by destruct a|done]. }
  set (fresh := negb _ && negb _). rewrite Hc. cbn [negb].
  assert (Hrun : forall pkt', (exists dh, tail_behind dh pkt = Ret pkt') -> exists l1,
    Process_Ack cfg now rnd (p_type pkt') pkt' (e_link a) = Ret ((if Is_link_ack (p_type pkt) then -1 else if fresh then 1 else 0), l1) /\
    p_data pkt' = p_data pkt /\ sys_ok (mk_end l1 (e_sub a) (if fresh then e_del a ++ [(p_seq pkt, p_data pkt)] else e_del a)) b /\
    connected l1 = connected (e_link a) /\ wire l1 = wire (e_link a)).
  { intros pkt' [dh Hdh]. apply tail_behind_same in Hdh as [nacks ->].
    destruct (process_data_ok cfg now rnd a b pkt nacks Htcp Hok Hin) as (l1 & H1 & H2 & H3). by exists l1. }
  split.
  - intros m l' H. apply bind_Ret in H as (r & _ & H). apply bind_Ret in H as (dh & _ & H). apply bind_Ret in H as (pkt' & Hdh & H).
    destruct (Hrun pkt') as (l1 & H1 & Hd1 & Hok1 & Hcn & Hw); [by exists dh|]. rewrite H1, Hd1 in H. cbn [mbind outcome_bind] in H.
    destruct (Is_link_ack (p_type pkt)) eqn:Ea.
    + cbn in H. injection H as <- <-. assert (fresh = false) as Hf by (subst fresh; done). rewrite Hf in *. split_and!; congruence || done.
    + revert H. set (l2 := if scheduled_ack l1 then _ else _). assert (Hq : quiet l1 l2) by (subst l2; by destruct (scheduled_ack l1)).
      clearbody l2. intros H. destruct (qt_send _ _ Hq).
      assert (H2 : m = (if fresh then Some (p_data pkt) else None) /\ l' = l2) by (destruct fresh; by injection H as <- <-).
      destruct H2 as [-> ->]. split; [done|]. split; [by eapply (sys_quiet l1 b l2 (_, _))|].
      split; [congruence|rewrite (qt_wire _ _ Hq); congruence].
  - intros [|Hrt]; [done|]. rewrite Hrt. cbn [or_else mbind outcome_bind]. change (Dissemination_Header_Size cfg _) with (Ret 0).
    cbn [mbind outcome_bind]. destruct (tail_behind_none pkt) as [pkt' Hpk]. rewrite Hpk. cbn [mbind outcome_bind].
    destruct (Hrun pkt') as (l1 & -> & _); [by exists 0|]. cbn [mbind outcome_bind].
    destruct (_ =? -1); [by eexists _, _|]. destruct (_ =? 0); by eexists _, _.
Qed.

Lemma receive_ack_ok cfg now rnd a b pkt :
  TCP_Fairness cfg = false -> sys_ok a b -> pkt ∈ wire (e_link b) -> Is_link_ack (p_type pkt) = true ->
  connected (e_link a) = true ->
  exists l', Process_ack_packet cfg now rnd pkt (e_link a) = Ret l' /\ sys_ok (mk_end l' (e_sub a) (e_del a)) b /\
    win_tail l' = Z.max (win_tail (e_link a)) (p_ack pkt) /\ win_head l' = win_head (e_link a).
Proof.
  intros Htcp Hok Hin Ha Hc. destruct (inbox_ok a b pkt Hok Hin) as (Hack & _ & _).
  destruct (Process_Ack_ok cfg now rnd (e_sub a) (e_del a).*1 pkt (e_link a) Htcp) as (l1 & Hrun & Hp & Hh);
    [apply Hok..|done|by rewrite Ha|].
  rewrite Ha in Hrun, Hp, Hh. cbn [negb andb] in *. unfold Process_ack_packet. rewrite Hc, Hrun. cbn [mbind outcome_bind].
  exists l1. split; [done|]. split; [by apply (sys_processes a b pkt l1 false)|]. by destruct Hp.
Qed.

Lemma end_step_ok cfg a a' b :
  TCP_Fairness cfg = false -> sys_ok a b -> end_step cfg (wire (e_link b)) a a' -> sys_ok a' b.
Proof.
  intros Htcp Hok Hst. pose proof (sk_a a b Hok) as [Hs Hw Hsq Hr]. destruct Hst as
    [e l' ->|now rnd buff len type e bb l' Ht Hlen H|now rnd e l' H|now rnd e l' H|now e l' H|now e l' H|now rnd pkt e m l' Hin H|now rnd pkt e l' Hin Ha H].
  - apply sys_sends; try done. by destruct Hs; split.
  - destruct (Reliable_Send_Msg_ok cfg now rnd buff len type _ _ Hs Hw Hsq Ht Hlen) as (bb' & l2 & H2 & [] & _).
    rewrite H2 in H. injection H as -> ->. apply sys_sends; try done. by apply prefix_app_r.
  - destruct (Send_Much_ok cfg now rnd _ _ Hs Hw) as (l2 & H2 & Hm & _). unfold Try_to_Send in H. rewrite H2 in H. injection H as ->.
    by apply sys_more.
  - assert (Hc : connected (e_link e) = true) by (unfold Reliable_timeout in H; by destruct (connected (e_link e))).
    destruct (Reliable_timeout_ok cfg Htcp now rnd _ _ Hs Hw Hc) as (l2 & H2 & Hm & _). rewrite H2 in H. injection H as ->. by apply sys_repeats.
  - assert (Hc : connected (e_link e) = true) by (unfold Send_Nack_Retransm in H; by destruct (connected (e_link e))).
    destruct (Send_Nack_Retransm_ok cfg Htcp now _ _ Hs Hw Hc) as (l2 & H2 & Hm). rewrite H2 in H. injection H as ->. by apply sys_repeats.
  - assert (Hc : connected (e_link e) = true) by (unfold Send_Ack in H; by destruct (connected (e_link e))).
    destruct (Send_Ack_ok cfg now _ _ Hs Hw Hc) as (l2 & H2 & Hm & _). rewrite H2 in H. injection H as ->. by apply sys_repeats.
  - destruct (connected (e_link e)) eqn:Hc.
    + destruct (receive_ok cfg now rnd e b pkt Htcp Hok Hin Hc) as [H2 _]. destruct (H2 _ _ H) as (-> & Hok2 & _).
      by destruct (negb _ && _).
    + unfold Process_rel_udp_data_packet in H. destruct (too_small pkt); [injection H as <- <-; by destruct e|].
      apply bind_Ret in H as (r & _ & H). apply bind_Ret in H as (dh & _ & H). rewrite Hc in H. injection H as <- <-. by destruct e.
  - destruct (connected (e_link e)) eqn:Hc.
    + destruct (receive_ack_ok cfg now rnd e b pkt Htcp Hok Hin Ha Hc) as (l2 & H2 & Hok2 & _). rewrite H2 in H. by injection H as <-.
    + unfold Process_ack_packet in H. rewrite Hc in H. injection H as <-. by destruct e.
Qed.

Lemma sys_ok_sym a b : sys_ok a b -> sys_ok b a.
Proof. by intros []. Qed.

Lemma new_end_ok cfg id : TCP_Fairness cfg = false -> end_ok (new_end cfg id).
Proof.
  intros Htcp. split; cbn; [|split; [done|constructor]|done|].
  - split; cbn; try done; try (intros; lia). by rewrite Htcp.
  - split; cbn; try done; try (intros; lia).
    + intros i _. unfold received, rcell. rewrite lookup_empty, elem_of_nil. done.
    + intros i Hi. by apply elem_of_nil in Hi.
    + apply NoDup_nil_2.
    + apply not_elem_of_nil.
Qed.

Lemma reachable_ok cfgA cfgB idA idB s :
  TCP_Fairness cfgA = false -> TCP_Fairness cfgB = false -> sys_reachable cfgA cfgB idA idB s -> sys_ok s.1 s.2.
Proof.
  intros HA HB Hr.
  assert (H0 : sys_ok (new_end cfgA idA) (new_end cfgB idB)).
  { split; [by apply new_end_ok|by apply new_end_ok| |]; (split; cbn; [lia|lia|]; intros i data Hin; by apply elem_of_nil in Hin). }
  unfold sys_reachable in Hr. apply (rtc_ind_r (fun s => sys_ok s.1 s.2)) in Hr; [done|done|].
  intros s1 s2 _ Hst IH. destruct Hst as [a a' b Hst|a b b' Hst]; cbn in *.
  - eapply end_step_ok; [exact HA|exact IH|exact Hst].
  - apply sys_ok_sym. eapply end_step_ok; [exact HB|by apply sys_ok_sym|exact Hst].
Qed.
