(* ===== verification/ReliableProps.v ===== *)
(** * ReliableProps: properties of the reliable link layer

    Exactly-once delivery over a network that loses, repeats and reorders
    packets, absence of failures, progress of a retransmission round, the
    bounds of the packets, and what happens when the 32-bit sequence numbers
    wrap around. *)
From Stdlib Require Import SpecFloat.
From stdpp Require Import base list gmap numbers option sets relations.
From Stdlib Require Import ZArith Lia.
From S2P Require Import Prelude CFloat Events NetTypes FloodProof ReliableLink ReliableProof ReliableSys.
#[local] Open Scope Z_scope.

(** ** A small run: two messages, the first packet is lost *)
Module ExL.
Definition cfg : link_conf := mk_conf false false false false 1 true 32 128 128.
Definition now : sp_time := mk_time 50 0.
Definition on (l : link) : link :=
  mk_link (link_id l) true (seq_no l) (msg_buff l) (window_size l) (max_window l) (ssthresh l) (window l) (win_head l)
    (win_tail l) (recv_window l) (recv_head l) (recv_tail l) (nack_buff l) (scheduled_ack l) (scheduled_timeout l)
    (timeout_multiply l) (rtt l) (cong_flag l) (my_seqs l) (lk_queue l) (Link_Sessions_Blocked_On l) (session_calls l) (wire l).
Definition ret {A} (d : A) (o : outcome A) : A := match o with Ret a => a | _ => d end.
(** Messages of 28 bytes with a zero, minimum-weight routing, at byte 25. *)
Definition m7 : list Z := repeat 7 25 ++ [0; 7; 7].
Definition m8 : list Z := repeat 8 25 ++ [0; 8; 8].
Definition a0 : link := on (new_link cfg 4).
Definition b0 : link := on (new_link cfg 5).
Definition a1 : link := snd (ret (false, a0) (Reliable_Send_Msg cfg now 0 m7 28 REL_UDP_DATA_TYPE a0)).
Definition a2 : link := snd (ret (false, a1) (Reliable_Send_Msg cfg now 0 m8 28 REL_UDP_DATA_TYPE a1)).
Definition p1 : packet := default (mk_packet 0 0 0 [] 0 0 []) (wire a2 !! 1%nat).
Definition b1 : link := snd (ret (None, b0) (Process_rel_udp_data_packet cfg now 0 p1 b0)).
Definition ea : endpoint := mk_end a2 [(m7, 28); (m8, 28)] [].
Definition eb : endpoint := mk_end b1 [] [(1, m8)].
(** One message before the wrap-around of the sequence numbers. *)
Definition last : link := with_seq_no (2 ^ 32 - 1) (with_head (2 ^ 32 - 1) (with_tail (2 ^ 32 - 1) a0)).

Lemma reachable : sys_reachable cfg cfg 4 5 (ea, eb).
Proof.
  unfold sys_reachable.
  eapply rtc_l; [apply StepA, StConnect; reflexivity|].
  eapply rtc_l; [apply StepB, StConnect; reflexivity|]. cbn [e_link e_sub e_del new_end].
  eapply rtc_l; [apply StepA, (StSubmit cfg _ now 0 m7 28 REL_UDP_DATA_TYPE _ true a1);
    [vm_compute; reflexivity|vm_compute; reflexivity|vm_compute; reflexivity]|].
  eapply rtc_l; [apply StepA, (StSubmit cfg _ now 0 m8 28 REL_UDP_DATA_TYPE _ true a2);
    [vm_compute; reflexivity|vm_compute; reflexivity|vm_compute; reflexivity]|].
  eapply rtc_l; [apply StepB, (StReceive cfg _ now 0 p1 _ (Some m8) b1); [|vm_compute; reflexivity]|].
  - apply list_elem_of_lookup. exists 1%nat. vm_compute. reflexivity.
  - apply rtc_refl.
Qed.
End ExL.

(** C3: over a network that loses, repeats and reorders packets, whatever the
    two ends do (fewer than 2^32 messages in each direction), each end hands on every message at most once, hands on only
    messages the other end submitted, and every message whose acknowledgement
    arrived was handed on. *)
Theorem reliable_link_exactly_once (cfgA cfgB : link_conf) (idA idB : Z) (a b : endpoint) :
  TCP_Fairness cfgA = false -> TCP_Fairness cfgB = false -> sys_reachable cfgA cfgB idA idB (a, b) ->
  NoDup (e_del b).*1 /\
  (forall i data, (i, data) ∈ e_del b -> exists len, e_sub a !! Z.to_nat i = Some (data, len)) /\
  (forall i, 0 <= i < win_tail (e_link a) ->
     exists data len, (i, data) ∈ e_del b /\ e_sub a !! Z.to_nat i = Some (data, len)) /\
  (forall i, 0 <= i < recv_tail (e_link b) -> i ∈ (e_del b).*1).
Proof.
  intros HA HB Hr. destruct (reachable_ok _ _ _ _ _ HA HB Hr) as [Ha Hb [Ht Hh Hd] _]. cbn in *.
  destruct (eo_recv b Hb). split_and!; [done|done| |done].
  intros i Hi. assert (Hin : i ∈ (e_del b).*1) by (apply ro_done; lia).
  apply list_elem_of_fmap in Hin as ([i' data] & -> & Hin). cbn in *. destruct (Hd _ _ Hin) as [len Hl].
  by exists data, len.
Qed.

Lemma reliable_link_exactly_once_witness :
  NoDup (e_del ExL.eb).*1 /\ exists len, e_sub ExL.ea !! 1%nat = Some (ExL.m8, len).
Proof.
  destruct (reliable_link_exactly_once ExL.cfg ExL.cfg 4 5 ExL.ea ExL.eb eq_refl eq_refl ExL.reachable) as (H1 & H2 & _).
  split; [exact H1|]. apply (H2 1 ExL.m8). left.
Defined.

(** A message whose header names the minimum-weight routing. *)
Definition plain (m : list Z * Z) : Prop := m.1 !! routing_offset = Some MIN_WEIGHT_ROUTING.

Lemma plain_routing a b pkt :
  sys_ok a b -> pkt ∈ wire (e_link b) -> Is_link_ack (p_type pkt) = false -> Forall plain (e_sub b) ->
  hdr_routing pkt = Some MIN_WEIGHT_ROUTING.
Proof.
  intros Hok Hin Ha Hp. destruct (inbox_ok a b pkt Hok Hin) as (_ & _ & Hsub). destruct (Hsub Ha) as (_ & _ & _ & Hm).
  rewrite Forall_lookup in Hp. specialize (Hp _ _ Hm). unfold hdr_routing, packet_bytes. by apply lookup_app_l_Some.
Qed.

(** C30: on a connected link (without TCP fairness), in every reachable state
    of the two ends, each of these returns: submitting a message (fewer than
    2^32 in all), trying to send, retransmitting after a timeout or a negative
    acknowledgement, sending an acknowledgement, the processing of the
    acknowledgement of any packet the other end ever sent, and the whole
    processing of any data packet of the other end, provided the messages
    submitted there name the minimum-weight routing.  (A packet large enough
    to be looked at whose header names none of the four routings does end the
    process, whatever the state.)  After a submission a message waits in the
    buffer only if the window is full. *)
Theorem reliable_link_never_fails (cfgA cfgB : link_conf) (idA idB : Z) (a b : endpoint) (now : sp_time) (rnd : Z) :
  TCP_Fairness cfgA = false -> TCP_Fairness cfgB = false -> sys_reachable cfgA cfgB idA idB (a, b) ->
  connected (e_link a) = true ->
  (forall buff len type, data_type type -> Z.of_nat (length (e_sub a)) + 1 < 2 ^ 32 ->
     exists sent l', Reliable_Send_Msg cfgA now rnd buff len type (e_link a) = Ret (sent, l') /\
       (msg_buff l' = [] \/ win_head l' - win_tail l' = MAX_WINDOW)) /\
  (exists l', Try_to_Send cfgA now rnd (e_link a) = Ret l') /\
  (exists l', Reliable_timeout cfgA now rnd (e_link a) = Ret l') /\
  (exists l', Send_Nack_Retransm cfgA now (e_link a) = Ret l') /\
  (exists l', Send_Ack cfgA now (e_link a) = Ret l') /\
  (forall pkt, pkt ∈ wire (e_link b) -> exists r, Process_Ack cfgA now rnd (p_type pkt) pkt (e_link a) = Ret r) /\
  (Forall plain (e_sub b) -> forall pkt, pkt ∈ wire (e_link b) -> Is_link_ack (p_type pkt) = false ->
     exists r, Process_rel_udp_data_packet cfgA now rnd pkt (e_link a) = Ret r) /\
  (forall pkt r, too_small pkt = false -> hdr_routing pkt = Some r -> 3 < r ->
     Process_rel_udp_data_packet cfgA now rnd pkt (e_link a) = Exit).
Proof.
  intros HA HB Hr Hc. pose proof (reachable_ok _ _ _ _ _ HA HB Hr) as Hok. cbn in Hok.
  destruct (sk_a a b Hok) as [Hs Hw Hsq Hrc]. split_and!.
  - intros buff len type Ht Hl. destruct (Reliable_Send_Msg_ok cfgA now rnd buff len type _ _ Hs Hw Hsq Ht Hl) as (sent & l' & H & Hsb & He).
    exists sent, l'. split; [done|]. destruct (He Hc) as [|Hf]; [by left|]. right.
    rewrite (window_full_spec _ _ (sb_sender _ _ _ _ Hsb)) in Hf. by apply Z.eqb_eq in Hf.
  - destruct (Send_Much_ok cfgA now rnd _ _ Hs Hw) as (l' & H & _). by exists l'.
  - destruct (Reliable_timeout_ok cfgA HA now rnd _ _ Hs Hw Hc) as (l' & H & _). by exists l'.
  - destruct (Send_Nack_Retransm_ok cfgA HA now _ _ Hs Hw Hc) as (l' & H & _). by exists l'.
  - destruct (Send_Ack_ok cfgA now _ _ Hs Hw Hc) as (l' & H & _). by exists l'.
  - intros pkt Hin. destruct (inbox_ok a b pkt Hok Hin) as (Hack & _ & Hdata).
    destruct (Process_Ack_ok cfgA now rnd (e_sub a) (e_del a).*1 pkt (e_link a) HA Hs Hw Hrc Hack) as (l' & H & _); [|by eexists].
    intros Hd. destruct (Hdata Hd) as (? & ? & _). done.
  - intros Hp pkt Hin Ha. destruct (receive_ok cfgA now rnd a b pkt HA Hok Hin Hc) as [_ H].
    destruct H as (m & l' & ->); [right; by eapply plain_routing|]. by eexists.
  - intros pkt r Hs0 Hr0 Hr3. unfold Process_rel_udp_data_packet. rewrite Hs0, Hr0. cbn [or_else mbind outcome_bind].
    unfold Dissemination_Header_Size, MIN_WEIGHT_ROUTING, IT_PRIORITY_ROUTING, IT_RELIABLE_ROUTING, SOURCE_BASED_ROUTING, ROUTING_BITS_SHIFT.
    rewrite Z.shiftl_mul_pow2 by lia. by rewrite !(proj2 (Z.eqb_neq _ _)) by lia.
Qed.

Lemma reliable_link_never_fails_witness : exists l', Reliable_timeout ExL.cfg ExL.now 0 (e_link ExL.ea) = Ret l'.
Proof.
  destruct (reliable_link_never_fails ExL.cfg ExL.cfg 4 5 ExL.ea ExL.eb ExL.now 0 eq_refl eq_refl ExL.reachable) as (_ & _ & H & _).
  - vm_compute. reflexivity.
  - exact H.
Defined.

(** Processing a list of packets of the other end. *)
Definition deliver (cfg : link_conf) (now : sp_time) (rnd : Z) (b : endpoint) (pkt : packet) : outcome endpoint :=
  '(m, l') ← Process_rel_udp_data_packet cfg now rnd pkt (e_link b);
  Ret (mk_end l' (e_sub b) (match m with Some data => e_del b ++ [(p_seq pkt, data)] | None => e_del b end)).

Lemma deliver_ok cfg now rnd a b pkt :
  TCP_Fairness cfg = false -> sys_ok a b -> pkt ∈ wire (e_link a) -> connected (e_link b) = true ->
  hdr_routing pkt = Some MIN_WEIGHT_ROUTING ->
  exists b', deliver cfg now rnd b pkt = Ret b' /\ sys_ok a b' /\ connected (e_link b') = true /\
    wire (e_link b') = wire (e_link b) /\ (e_del b).*1 ⊆ (e_del b').*1 /\
    (too_small pkt = false -> Is_link_ack (p_type pkt) = false -> p_seq pkt ∈ (e_del b').*1).
Proof.
  intros Htcp Hok Hin Hc Hrt. unfold deliver.
  destruct (receive_ok cfg now rnd b a pkt Htcp (sys_ok_sym _ _ Hok) Hin Hc) as [Hall Hex].
  destruct Hex as (m & l' & Hrun); [by right|]. destruct (Hall m l' Hrun) as (-> & Hok' & Hc' & Hw). rewrite Hrun. clear Hall Hrun.
  cbn [mbind outcome_bind]. eexists. split; [done|]. destruct (too_small pkt) eqn:Es; cbn [negb andb] in *.
  { split_and!; try done. by apply sys_ok_sym. }
  destruct (Is_link_ack (p_type pkt)) eqn:Ea; cbn [negb andb] in *.
  { split_and!; try done. by apply sys_ok_sym. }
  destruct (bool_decide (p_seq pkt ∈ (e_del b).*1)) eqn:Ed; cbn [negb] in *.
  - apply bool_decide_eq_true in Ed. split_and!; try done. by apply sys_ok_sym.
  - split_and!; try done; [by apply sys_ok_sym|cbn; rewrite fmap_app; set_solver|].
    intros _ _. cbn. rewrite fmap_app. apply elem_of_app. right. left.
Qed.

Lemma deliver_all_ok cfg now rnd a b ps :
  TCP_Fairness cfg = false -> sys_ok a b ->
  Forall (fun p => p ∈ wire (e_link a) /\ hdr_routing p = Some MIN_WEIGHT_ROUTING) ps -> connected (e_link b) = true ->
  exists b', foldM (deliver cfg now rnd) b ps = Ret b' /\ sys_ok a b' /\ connected (e_link b') = true /\
    wire (e_link b') = wire (e_link b) /\ (e_del b).*1 ⊆ (e_del b').*1 /\
    (forall p, p ∈ ps -> too_small p = false -> Is_link_ack (p_type p) = false -> p_seq p ∈ (e_del b').*1).
Proof.
  intros Htcp Hok Hps. revert b Hok. induction Hps as [|p ps [Hp Hrt] _ IH]; intros b Hok Hc; cbn [foldM].
  { exists b. split_and!; try done. intros p Hp. by apply elem_of_nil in Hp. }
  destruct (deliver_ok cfg now rnd a b p Htcp Hok Hp Hc Hrt) as (b1 & -> & Hok1 & Hc1 & Hw1 & Hd1 & Hin1). cbn [mbind outcome_bind].
  destruct (IH b1 Hok1 Hc1) as (b2 & Hrun & Hok2 & Hc2 & Hw2 & Hd2 & Hin2). exists b2. split_and!; try done; [congruence|by etrans|].
  intros q [->|Hq]%elem_of_cons Hsm Ha; [by apply Hd2, Hin1|by apply Hin2].
Qed.

(** C4: a retransmission round makes progress.  A timeout appends to what was
    sent exactly one packet for each message of the window, in order, with the
    sequence number and the bytes the message was submitted with; when the
    other end receives these new packets, in any order and possibly
    repeatedly, the acknowledgement it then appends empties the window.
    (Messages are at least as long as the header of a message, shorter ones
    are dropped on arrival, and name the minimum-weight routing.) *)
Theorem timeout_round_completes (cfgA cfgB : link_conf) (idA idB : Z) (a b : endpoint) (now nowB nowA' : sp_time) (rnd rndB : Z) :
  TCP_Fairness cfgA = false -> TCP_Fairness cfgB = false -> sys_reachable cfgA cfgB idA idB (a, b) ->
  connected (e_link a) = true -> connected (e_link b) = true -> network_flag cfgA = true -> network_flag cfgB = true ->
  Forall (fun m => sizeof_udp_header <= m.2 /\ plain m) (e_sub a) ->
  exists l1 ms, Reliable_timeout cfgA now rnd (e_link a) = Ret l1 /\ wire l1 = wire (e_link a) ++ ms /\
    Forall2 (fun i p => p_seq p = i /\ Is_link_ack (p_type p) = false /\ e_sub a !! Z.to_nat i = Some (p_data p, p_len p))
      (seqZ (win_tail (e_link a)) (win_head (e_link a) - win_tail (e_link a))) ms /\
    forall ps, (forall p, p ∈ ps <-> p ∈ ms) ->
      exists b2 l3 p l2, foldM (deliver cfgB nowB rndB) b ps = Ret b2 /\
        Send_Ack cfgB nowB (e_link b2) = Ret l3 /\ wire l3 = wire (e_link b2) ++ [p] /\ Is_link_ack (p_type p) = true /\
        Process_ack_packet cfgA nowA' rnd p l1 = Ret l2 /\ win_tail l2 = win_head l2 /\ win_head l2 = win_head (e_link a).
Proof.
  intros HA HB Hr Hca Hcb Hna Hnb Hmsgs. pose proof (reachable_ok _ _ _ _ _ HA HB Hr) as Hok. cbn in Hok.
  destruct (sk_a a b Hok) as [Hs Hw _ _].
  destruct (Reliable_timeout_ok cfgA HA now rnd _ _ Hs Hw Hca) as (l1 & H1 & Hrp & Hwire).
  destruct (Hwire Hna) as (ms & Hms & Hcopy). exists l1, ms. split; [done|]. split; [done|]. split.
  { eapply Forall2_impl; [exact Hcopy|]. intros i p (? & ? & _ & ?). done. }
  intros ps Hps. pose proof (sys_repeats a b l1 Hok Hrp) as Hok1. set (a1 := mk_end l1 (e_sub a) (e_del a)) in *.
  assert (Hnew : forall p, p ∈ ms -> p ∈ wire l1 /\ Is_link_ack (p_type p) = false).
  { intros p Hp. split; [rewrite Hms; apply elem_of_app; by right|].
    apply list_elem_of_lookup in Hp as [k Hk]. destruct (Forall2_lookup_r _ _ _ _ _ Hcopy Hk) as (i & _ & _ & Hpa & _). done. }
  assert (Hplain : Forall plain (e_sub a1)) by (eapply Forall_impl; [exact Hmsgs|]; by intros m [_ Hm]).
  destruct (deliver_all_ok cfgB nowB rndB a1 b ps HB Hok1) as (b2 & Hrun & Hok2 & Hc2 & _ & Hd2 & Hin2); [|done|].
  { apply Forall_forall. intros p Hp%Hps. destruct (Hnew p Hp) as [Hpw Hpa]. split; [done|].
    by apply (plain_routing b a1 p (sys_ok_sym _ _ Hok1)). }
  destruct (sk_b a1 b2 Hok2) as [Hs2 Hw2 _ Hr2].
  destruct (Send_Ack_ok cfgB nowB _ _ Hs2 Hw2 Hc2) as (l3 & H3 & Hrp3 & Hack). destruct (Hack Hnb) as (p & Hadd & Hpa & Hpk).
  assert (Hpin : p ∈ wire l3) by (rewrite Hadd; apply elem_of_app; right; by left).
  pose proof (sys_ok_sym _ _ (sys_repeats b2 a1 l3 (sys_ok_sym _ _ Hok2) Hrp3)) as Hok3.
  pose proof (rp_head _ _ _ Hrp) as Hh1. pose proof (sm_tail _ _ _ (rp_more _ _ _ Hrp)) as Ht1.
  pose proof (sm_conn _ _ _ (rp_more _ _ _ Hrp)) as Hc1.
  assert (Hgot : win_head (e_link a) <= recv_tail (e_link b2)).
  { destruct (Z.le_gt_cases (win_head (e_link a)) (recv_tail (e_link b2))) as [|Hlt]; [done|]. exfalso.
    apply (ro_hole _ _ Hr2). pose proof (fo_tail _ _ (sk_ab _ _ Hok2)) as Hf. cbn in Hf.
    assert (Hin : recv_tail (e_link b2) ∈ seqZ (win_tail (e_link a)) (win_head (e_link a) - win_tail (e_link a)))
      by (apply elem_of_seqZ; lia).
    apply list_elem_of_lookup in Hin as [k Hk]. destruct (Forall2_lookup_l _ _ _ _ _ Hcopy Hk) as (q & Hq & Hqs & Hqa & _ & Hm).
    rewrite <- Hqs. apply Hin2; [apply Hps; by eapply list_elem_of_lookup_2| |done]. rewrite Forall_lookup in Hmsgs. destruct (Hmsgs _ _ Hm) as [Hlong _].
    cbn in Hlong. unfold too_small, ack_len, sizeof_reliable_tail. apply Z.ltb_ge. lia. }
  destruct (receive_ack_ok cfgA nowA' rnd a1 (mk_end l3 (e_sub b2) (e_del b2)) p HA Hok3 Hpin Hpa) as (l2 & H2 & Hok4 & Ht2 & Hh2);
    [cbn; congruence|].
  exists b2, l3, p, l2. split_and!; try done; cbn in *; [|congruence].
  destruct (inbox_ok _ _ p Hok3 Hpin) as (Hp1 & _). cbn in Hp1. pose proof (so_order _ _ Hs). lia.
Qed.

Lemma timeout_round_completes_witness :
  exists l1 ms, Reliable_timeout ExL.cfg ExL.now 0 (e_link ExL.ea) = Ret l1 /\ wire l1 = wire (e_link ExL.ea) ++ ms /\
    length ms = 2%nat /\
    forall ps, (forall p, p ∈ ps <-> p ∈ ms) -> exists b2, foldM (deliver ExL.cfg ExL.now 0) ExL.eb ps = Ret b2.
Proof.
  assert (Ha : connected (e_link ExL.ea) = true) by (vm_compute; reflexivity).
  assert (Hb : connected (e_link ExL.eb) = true) by (vm_compute; reflexivity).
  assert (Hl : Forall (fun m => sizeof_udp_header <= m.2 /\ plain m) (e_sub ExL.ea))
    by (repeat (apply Forall_cons; split; [split; [cbn; unfold sizeof_udp_header; lia|reflexivity]|]); constructor).
  assert (Hn : length (seqZ (win_tail (e_link ExL.ea)) (win_head (e_link ExL.ea) - win_tail (e_link ExL.ea))) = 2%nat)
    by (vm_compute; reflexivity).
  destruct (timeout_round_completes ExL.cfg ExL.cfg 4 5 ExL.ea ExL.eb ExL.now ExL.now ExL.now 0 0
    eq_refl eq_refl ExL.reachable Ha Hb eq_refl eq_refl Hl) as (l1 & ms & H1 & Hms & Hcopy & H).
  exists l1, ms. split; [exact H1|]. split; [exact Hms|]. split; [rewrite <- Hn; symmetry; eapply Forall2_length; exact Hcopy|].
  intros ps Hps. destruct (H ps Hps) as (b2 & _ & _ & _ & G1 & _). exists b2. exact G1.
Defined.

(** ** Packets fit the body of a packet *)
Definition cell_fits (c : Buffer_Cell) : Prop := sizeof_reliable_tail + bc_len c <= sizeof_packet_body.
Definition packet_fits (p : packet) : Prop := ack_len (p_nacks p) + p_len p <= sizeof_packet_body.
Definition fields_fit (r : Z) (w : gmap Z Buffer_Cell) (b : list Buffer_Cell) (ps : list packet) : Prop :=
  0 <= r < 2 ^ 30 /\ (forall i, cell_fits (wcell w i)) /\ Forall cell_fits b /\ Forall packet_fits ps.

(** The round trip time is sane and everything in the window, in the buffer
    and on the wire fits. *)
Definition link_fits (l : link) : Prop := fields_fit (rtt l) (window l) (msg_buff l) (wire l).

Ltac fits_fields := split; [assumption|]; split; [try assumption|]; split; try assumption.

Lemma restart_fits cfg now rnd l : link_fits l -> link_fits (restart_timeout cfg now rnd l).
Proof. intros H. unfold restart_timeout. destruct (scheduled_timeout l); exact H. Qed.

Lemma cancel_fits l : link_fits l -> link_fits (cancel_ack l).
Proof. intros H. unfold cancel_ack. destruct (scheduled_ack l); exact H. Qed.

Lemma set_cell_fits seq c l :
  cell_fits c -> link_fits l -> link_fits (with_window (set_wcell seq c (window l)) l).
Proof.
  intros Hc (Hr & Hw & Hb & Hp). split; [exact Hr|]. split; [|by split]. intros i. cbn [window with_window].
  rewrite wcell_set. case_decide; [exact Hc|apply Hw].
Qed.

(** The tail with the negative acknowledgements is appended and the packet
    goes out. *)
Lemma emit_fits cfg again now go type len seq data l l' nacks :
  normal now -> sizeof_reliable_tail + len <= sizeof_packet_body -> link_fits l ->
  add_nacks cfg again now len l = (l', nacks) -> link_fits (transmit go type len seq data nacks l').
Proof.
  intros Hn Hl Hf Ha. pose proof (add_nacks_fits cfg again now len l Hn (proj1 Hf) Hl) as H. rewrite Ha in H. cbn [snd] in H.
  destruct (add_nacks_spec _ _ _ _ _ _ _ Ha) as (rw & -> & _). destruct Hf as (Hr & Hw & Hb & Hp).
  unfold transmit. destruct go; [|fits_fields]. fits_fields. cbn. apply Forall_app. split; [done|].
  by apply Forall_singleton.
Qed.

Lemma send_much_loop_fits cfg now bs q l l' :
  normal now -> Forall cell_fits q -> link_fits l -> send_much_loop cfg now bs q l = Ret l' -> link_fits l'.
Proof.
  intros Hn Hq. revert l. induction Hq as [|c q Hc Hq IH]; intros l Hf; cbn [send_much_loop]; [by intros [= <-]|].
  destruct (window_room l); [|by intros [= <-]]. destruct (_ <? _); [done|].
  destruct (bc_buff c) as [b|]; [|done]. cbn [or_else mbind outcome_bind].
  destruct (add_nacks _ _ _ _ _) as [l1 nacks] eqn:Ha. apply IH. eapply emit_fits; [done|exact Hc| |exact Ha].
  apply (set_cell_fits (bc_seq c) (mk_bcell (bc_seq c) (Some b) (ecn bs (bc_type c)) (bc_len c) now false) (with_msg_buff q l));
    [exact Hc|].
  destruct Hf as (Hr & Hw & _ & Hp). fits_fields.
Qed.

Lemma Send_Much_fits cfg now rnd l l' :
  normal now -> link_fits l -> Send_Much cfg now rnd l = Ret l' -> link_fits l'.
Proof.
  intros Hn Hf. unfold Send_Much. destruct (negb _); [by intros [= <-]|]. destruct (window_full l); [by intros [= <-]|].
  case_bool_decide; [by intros [= <-]|].
  destruct (send_much_loop _ _ _ _ _) as [l1| |] eqn:E; try done. cbn [mbind outcome_bind]. intros [= <-]. apply restart_fits.
  apply send_much_loop_fits in E; [|done|apply Hf|by apply cancel_fits]. unfold resume_sessions. destruct (_ && _); exact E.
Qed.

Lemma resend_fits cfg again now seq l l' :
  normal now -> link_fits l -> resend cfg again now seq l = Ret l' -> link_fits l'.
Proof.
  intros Hn Hf. unfold resend. destruct (bc_buff _) as [b|]; [|done]. cbn [or_else mbind outcome_bind].
  destruct (add_nacks _ _ _ _ _) as [l1 nacks] eqn:Ha. intros [= <-].
  eapply emit_fits; [done| | |exact Ha]; [apply Hf|]. apply set_cell_fits; [|exact Hf]. exact (proj1 (proj2 Hf) seq).
Qed.

Lemma resend_window_fits cfg now n i l l' :
  normal now -> link_fits l -> resend_window cfg now n i l = Ret l' -> link_fits l'.
Proof.
  intros Hn. revert i l. induction n as [|n IH]; intros i l Hf; cbn [resend_window]; [by intros [= <-]|].
  destruct (resend cfg false now i l) as [l1| |] eqn:E; try done. cbn [mbind outcome_bind]. apply IH. by eapply resend_fits.
Qed.

Lemma answer_nacks_fits cfg now ns l l' :
  normal now -> link_fits l -> answer_nacks cfg now ns l = Ret l' -> link_fits l'.
Proof.
  intros Hn. revert l. induction ns as [|s ns IH]; intros l Hf; cbn [answer_nacks]; [by intros [= <-]|].
  destruct (bc_buff _); [|by apply IH].
  destruct (resend cfg true now s l) as [l1| |] eqn:E; try done. cbn [mbind outcome_bind]. apply IH. by eapply resend_fits.
Qed.

Lemma timeout_congestion_fits cfg sw l : link_fits l -> link_fits (timeout_congestion cfg sw l).
Proof. intros H. unfold timeout_congestion. destruct (TCP_Fairness cfg); exact H. Qed.

Lemma nack_congestion_fits cfg sw l : link_fits l -> link_fits (nack_congestion cfg sw l).
Proof. intros H. unfold nack_congestion. destruct (TCP_Fairness cfg), (cong_flag l); exact H. Qed.

(** The functions that send never build a packet larger than the body of a
    packet: however many holes the receiving window has, a message, the
    reliable tail and the negative acknowledgements behind it stay within it,
    as long as the round trip time is between 0 and 2^30 microseconds and the
    messages leave room for the tail. *)
Theorem reliable_packet_fits (cfg : link_conf) (now : sp_time) (rnd : Z) (l : link) :
  normal now -> link_fits l ->
  (forall buff len type r, sizeof_reliable_tail + len <= sizeof_packet_body ->
     Reliable_Send_Msg cfg now rnd buff len type l = Ret r -> link_fits (snd r)) /\
  (forall l', Send_Much cfg now rnd l = Ret l' -> link_fits l') /\
  (forall l', Send_Ack cfg now l = Ret l' -> link_fits l') /\
  (forall l', Reliable_timeout cfg now rnd l = Ret l' -> link_fits l') /\
  (forall l', Send_Nack_Retransm cfg now l = Ret l' -> link_fits l').
Proof.
  intros Hn Hf. split_and!.
  - intros buff len type r Hl. unfold Reliable_Send_Msg. set (l0 := with_seq_no _ l).
    assert (H0 : link_fits l0) by exact Hf. clearbody l0.
    destruct (if connected l0 then Send_Much cfg now rnd l0 else Ret l0) as [l1| |] eqn:E; try done. cbn [mbind outcome_bind].
    assert (H1 : link_fits l1).
    { destruct (connected l0); [by eapply Send_Much_fits|by injection E as <-]. }
    destruct (window_full l1 || _ || _).
    + intros [= <-]. cbn [snd]. unfold block_sessions.
      assert (H2 : link_fits (with_msg_buff (msg_buff l1 ++ [mk_bcell (seq_no l) (Some buff) type len (mk_time 0 0) false]) l1)).
      { destruct H1 as (Hr & Hw & Hb & Hp). fits_fields. cbn. apply Forall_app. split; [done|]. by apply Forall_singleton. }
      destruct (_ && _); exact H2.
    + destruct (_ <? _); [done|]. destruct (add_nacks _ _ _ _ _) as [l2 nacks] eqn:Ha. intros [= <-]. cbn [snd].
      apply restart_fits. eapply emit_fits; [done|exact Hl| |exact Ha]. apply cancel_fits.
      apply (set_cell_fits (seq_no l) (mk_bcell (seq_no l) (Some buff) type len now false) l1); [exact Hl|exact H1].
  - intros l'. by apply Send_Much_fits.
  - intros l'. unfold Send_Ack. destruct (negb _); [done|]. destruct (add_nacks _ _ _ _ _) as [l2 nacks] eqn:Ha. intros [= <-].
    eapply emit_fits; [done| | |exact Ha]; [unfold sizeof_reliable_tail, sizeof_packet_body; lia|exact Hf].
  - intros l'. unfold Reliable_timeout. destruct (negb _); [done|]. destruct (_ =? _); [by intros [= <-]|].
    destruct (stream_window cfg l (win_tail l)) as [sw| |]; try done. cbn [mbind outcome_bind].
    destruct (resend_window _ _ _ _ _) as [l2| |] eqn:E; try done. intros [= <-].
    apply (resend_window_fits _ _ _ _ _ _ Hn (cancel_fits _ (timeout_congestion_fits cfg sw l Hf)) E).
  - intros l'. unfold Send_Nack_Retransm. destruct (negb _); [done|]. destruct (nack_buff l) as [|s ns] eqn:En; [by intros [= <-]|].
    destruct (_ =? _); [by intros [= <-]|]. destruct (stream_window cfg l s) as [sw| |]; try done. cbn [mbind outcome_bind].
    destruct (answer_nacks _ _ _ _) as [l2| |] eqn:E; try done. intros [= <-].
    exact (answer_nacks_fits _ _ _ _ _ Hn (cancel_fits _ (nack_congestion_fits cfg sw l Hf)) E).
Qed.

Lemma reliable_packet_fits_witness : link_fits (ExL.ret ExL.b0 (Send_Ack ExL.cfg ExL.now ExL.b0)).
Proof.
  destruct (reliable_packet_fits ExL.cfg ExL.now 0 ExL.b0) as (_ & _ & H & _).
  - unfold normal, in_range; cbn; lia.
  - split_and!; [cbn; lia|cbn; lia| |constructor|constructor].
    intros i. unfold wcell. cbn [window ExL.b0 ExL.on new_link]. rewrite lookup_empty. unfold cell_fits. vm_compute. discriminate.
  - apply H. vm_compute. reflexivity.
Defined.

(** The clock of [E_get_time] is set back between sending and the acknowledgement. *)
Module ExNack.
Definition before : sp_time := mk_time 51 0.
Definition after : sp_time := mk_time 50 0.
(** Ten packets were sent at [before]; 400 packets of the other end are missing. *)
Definition waiting : link :=
  with_recv_head 400
    (with_msg_buff [mk_bcell 10 (Some (repeat 0 16)) 0 16 (mk_time 0 0) false]
      (with_seq_no 11
         (foldr (fun i l => put_in_window before (Z.of_nat i) 0 16 (repeat 0 16) l) ExL.a0 (rev (seq 0 10))))).
Definition pkt : packet := mk_packet LINK_ACK_TYPE 0 0 [] 0 10 [].
Definition acked : link := ExL.ret ExL.a0 (Process_ack_packet ExL.cfg after 0 pkt waiting).
Definition sent : link := ExL.ret ExL.a0 (Send_Much ExL.cfg after 0 acked).
End ExNack.

(** The bound on the round trip time is needed.  Ten packets are sent, the
    clock is set back by a second, the acknowledgement arrives: [Process_Ack]
    stores a negative round trip time.  [Send_Much], which looks at a hole it
    has just reported a second time, then reports every hole twice and builds a
    packet that is four bytes longer than the body of a packet. *)
Theorem negative_rtt_overflows :
  rtt ExNack.acked = -1000000 /\
  exists p, wire ExNack.sent = [p] /\ p_len p = 16 /\ ack_len (p_nacks p) + p_len p = sizeof_packet_body + 4.
Proof.
  split; [vm_compute; reflexivity|]. eexists. split; [vm_compute; reflexivity|]. split; vm_compute; reflexivity.
Qed.

(** ** Sequence numbers that wrap around *)

(** A window whose head has wrapped around 2^32. *)
Lemma process_cumulative_wrapped cfg now cum l :
  cum <= win_head l < win_tail l -> process_cumulative cfg now cum l = Ret l.
Proof. intros H. unfold process_cumulative. by rewrite (proj2 (Z.ltb_ge _ _)) by lia. Qed.

Lemma keep_nacks_tail now ns l : win_tail (keep_nacks now ns l) = win_tail l /\ win_head (keep_nacks now ns l) = win_head l.
Proof. unfold keep_nacks. by destruct (_ <? _). Qed.

Lemma reset_timeout_tail cfg now rnd l :
  win_tail (reset_timeout cfg now rnd l) = win_tail l /\ win_head (reset_timeout cfg now rnd l) = win_head l.
Proof. unfold reset_timeout. by destruct (scheduled_timeout (relax_multiply l)), (_ <? _). Qed.

Lemma advance_tail_sender n l :
  win_tail (advance_tail n l) = win_tail l /\ win_head (advance_tail n l) = win_head l.
Proof.
  revert l. induction n as [|n IH]; intros l; cbn [advance_tail]; [done|]. destruct (decide _); [|done].
  by destruct (IH (with_recv_tail (u32 (recv_tail l + 1))
    (with_recv_window (set_rcell (recv_tail l) (mk_rcell EMPTY_CELL (nack_sent (rcell (recv_window l) (recv_tail l)))) (recv_window l)) l))).
Qed.

Lemma receive_seq_sender seq l :
  win_tail (snd (receive_seq seq l)) = win_tail l /\ win_head (snd (receive_seq seq l)) = win_head l.
Proof.
  unfold receive_seq. destruct (_ || _); [done|]. cbn [snd].
  set (l1 := if recv_head l <=? seq then _ else l).
  destruct (advance_tail_sender (Z.to_nat (recv_head l1 - recv_tail l1))
    (with_recv_window (set_rcell seq (mk_rcell RECVD_CELL (nack_sent (rcell (recv_window l) seq))) (recv_window l1)) l1)) as [H1 H2].
  split; [etransitivity; [exact H1|]|etransitivity; [exact H2|]]; subst l1; by destruct (_ <=? _).
Qed.

(** A link does not survive the wrap-around of its 32-bit sequence numbers.
    Sending message 2^32 - 1 makes [head] 0 while [tail] stays where it is;
    from then on no packet of the other end, whatever it acknowledges, moves
    [tail]: the window never empties again, and a timeout retransmits
    nothing. *)
Theorem seq_wrap_stalls (cfg : link_conf) (now : sp_time) (rnd : Z) :
  (forall buff len type l, seq_no l = 2 ^ 32 - 1 -> connected l = true -> msg_buff l = [] -> window_full l = false ->
     win_head l <= 2 ^ 32 - 1 ->
     exists l', Reliable_Send_Msg cfg now rnd buff len type l = Ret (true, l') /\ win_head l' = 0 /\ win_tail l' = win_tail l) /\
  (forall pkt l, win_head l < win_tail l ->
     exists flag l', Process_Ack cfg now rnd (p_type pkt) pkt l = Ret (flag, l') /\
       win_tail l' = win_tail l /\ win_head l' = win_head l) /\
  (forall l l', win_head l < win_tail l -> Reliable_timeout cfg now rnd l = Ret l' -> wire l' = wire l).
Proof.
  split_and!.
  - intros buff len type l Hs Hc Hb Hf Hh. unfold Reliable_Send_Msg. cbn [connected with_seq_no]. rewrite Hc.
    unfold Send_Much. cbn [connected with_seq_no]. rewrite Hc. cbn [negb].
    change (window_full (with_seq_no (u32 (seq_no l + 1)) l)) with (window_full l). rewrite Hf. cbn [msg_buff with_seq_no].
    rewrite Hb. cbn [bool_decide decide_rel]. rewrite bool_decide_true by done. cbn [mbind outcome_bind msg_buff with_seq_no connected win_head].
    change (window_full (with_seq_no (u32 (seq_no l + 1)) l)) with (window_full l). rewrite Hf, Hb, Hc, bool_decide_true by done.
    cbn [orb negb]. rewrite (proj2 (Z.ltb_ge _ _)) by lia. destruct (add_nacks _ _ _ _ _) as [l2 nacks] eqn:Ha.
    destruct (add_nacks_spec _ _ _ _ _ _ _ Ha) as (rw & -> & _). eexists. split; [reflexivity|].
    unfold restart_timeout, transmit, cancel_ack, Set_Loss_SeqNo. rewrite Hs.
    destruct (network_flag cfg); cbn [scheduled_timeout with_wire with_my_seqs with_recv_window];
      destruct (scheduled_ack _), (scheduled_timeout _); split; reflexivity.
  - intros pkt l Hw. unfold Process_Ack. destruct (keep_nacks_tail now (p_nacks pkt) l) as [Ht Hh].
    set (l1 := keep_nacks now (p_nacks pkt) l) in *. clearbody l1. destruct (Z.ltb_spec (win_head l1) (p_ack pkt)); [by exists 0, l1|].
    rewrite process_cumulative_wrapped by lia. cbn [mbind outcome_bind].
    destruct (reset_timeout_tail cfg now rnd l1) as [Ht2 Hh2]. set (l2 := reset_timeout cfg now rnd l1) in *. clearbody l2.
    destruct (Is_link_ack _); [exists (-1), l2; split_and!; congruence|].
    destruct (receive_seq_sender (p_seq pkt) l2) as [Ht3 Hh3]. destruct (receive_seq (p_seq pkt) l2) as [flag l3].
    exists flag, l3. cbn [snd] in *. split_and!; congruence.
  - intros l l' Hw. unfold Reliable_timeout. destruct (negb _); [done|]. destruct (_ =? _); [by intros [= <-]|].
    destruct (stream_window cfg l (win_tail l)) as [sw| |]; try done. cbn [mbind outcome_bind].
    assert (H : wire (cancel_ack (timeout_congestion cfg sw l)) = wire l /\
                win_head (cancel_ack (timeout_congestion cfg sw l)) - win_tail (cancel_ack (timeout_congestion cfg sw l)) < 0).
    { unfold cancel_ack, timeout_congestion. destruct (TCP_Fairness cfg), (scheduled_ack _); cbn; split; (done || lia). }
    destruct H as [H1 H2].
    replace (Z.to_nat (win_head (cancel_ack (timeout_congestion cfg sw l)) - win_tail (cancel_ack (timeout_congestion cfg sw l)))) with 0%nat by lia.
    cbn [resend_window mbind outcome_bind]. intros [= <-]. exact H1.
Qed.

(** The last message before the wrap-around, and any acknowledgement after it. *)
Lemma seq_wrap_stalls_witness :
  exists l', Reliable_Send_Msg ExL.cfg ExL.now 0 [7] 1 REL_UDP_DATA_TYPE ExL.last = Ret (true, l') /\
    forall pkt, exists flag l2, Process_Ack ExL.cfg ExL.now 0 (p_type pkt) pkt l' = Ret (flag, l2) /\ win_tail l2 = 2 ^ 32 - 1.
Proof.
  destruct (seq_wrap_stalls ExL.cfg ExL.now 0) as (H1 & H2 & _).
  destruct (H1 [7] 1 REL_UDP_DATA_TYPE ExL.last eq_refl eq_refl eq_refl ltac:(vm_compute; reflexivity) ltac:(vm_compute; discriminate))
    as (l' & H & Hh & Ht).
  exists l'. split; [exact H|]. intros pkt. destruct (H2 pkt l') as (flag & l2 & G1 & G2 & _).
  - rewrite Hh, Ht. vm_compute. reflexivity.
  - exists flag, l2. split; [exact G1|]. rewrite G2, Ht. reflexivity.
Defined.
