(* ===== verification/ITLink.v ===== *)
(** * ITLink: the window of the intrusion-tolerant link (daemon/intrusion_tol_udp.c)

    One end of an intrusion-tolerant link: the window of packets made by
    [Pack_Fragments_Into_Packets_IT], each with a random nonce; acknowledgements
    that must show the digest of the nonces they acknowledge; negative
    acknowledgements, retransmissions and timeouts; the receiving window, from
    which messages are built in order; and the sharing of the link among the
    dissemination protocols that have messages for it.  The state is
    [Int_Tol_Data] (link.h) in groups of fields, with the globals [Burst_Count]
    and [Burst_Timeout] of link.c.  Pings, key exchange and the estimation of
    round trip times and losses are left out: the timeouts are fields.  A packet
    is its data and the fields of its [intru_tol_pkt_tail] with the negative
    acknowledgements behind it; encryption and the network are [sent], whether
    [IT_Link_Send] succeeded.  What the dissemination protocols answer when they
    are called is a list of answers; a message handed to
    [Deliver_and_Forward_Data] is added to [delivered]. *)
From Stdlib Require Import SpecFloat.
From stdpp Require Import base list gmap numbers option sets.
From Stdlib Require Import ZArith Lia.
From S2P Require Import Prelude CFloat Events NetTypes ITFrag.
#[local] Open Scope Z_scope.

Definition LINK_START_SEQ : Z := 1.
Definition BUFF_EMPTY : Z := 2.
Definition BUFF_FULL : Z := 4.
Definition MAX_PKTS_PER_MESSAGE : Z := 45.
Definition MAX_MESSAGE_SIZE : Z := MAX_PACKET_SIZE * MAX_PKTS_PER_MESSAGE.
Definition BUCKET_CAP : Z := 200000 + MAX_PACKET_SIZE.
Definition sizeof_packet_header : Z := 20.
Definition sizeof_intru_tol_pkt_tail : Z := 48.
Definition sizeof_nack : Z := 8.

(** [Conf_IT_Link], the sizes of the ciphers, and the timeouts. *)
Record it_conf := mk_itconf
  { Ordered_Delivery : Z; TCP_Fairness : Z; Session_Blocking : Z; Intrusion_Tolerance_Mode : Z; Msg_Per_SAA : Z;
    Send_Batch_Size : Z; Loss_Calc_Pkt_Trigger : Z; Cipher_Blk_Len : Z; HMAC_Key_Len : Z; Minimum_Window : Z;
    it_ack_timeout : sp_time; it_bucket_to : sp_time; flow_control_timeout : sp_time }.

(** [Link_Header_Size(INTRUSION_TOL_LINK)]. *)
Definition Link_Header_Size (cfg : it_conf) : Z :=
  u16 (sizeof_packet_header + sizeof_intru_tol_pkt_tail + sizeof_nack + Cipher_Blk_Len cfg + Cipher_Blk_Len cfg + HMAC_Key_Len cfg).

(** What a handler finds outside: the time, the random numbers, whether the
    network is on and there is a control link, whether a packet could be sent,
    and the memory in front of a received packet. *)
Record it_env := mk_env
  { now : sp_time; rnd : Z -> Z; rnd2 : Z -> Z; network_flag : bool; control : bool; sent : Z -> bool; e_before : list Z }.

Record it_packet := mk_pkt
  { p_data : list Z; p_link_seq : Z; p_seq_nonce : Z; p_aru : Z; p_aru_nonce : Z; p_incarnation : Z; p_aru_incarnation : Z;
    p_nacks : list Z }.
Definition p_ack_len (p : it_packet) : Z := sizeof_intru_tol_pkt_tail + sizeof_nack * Z.of_nat (length (p_nacks p)).

Inductive it_handler := Ack_IT | Reliable_IT | Retransm_IT | Fill_Bucket.
#[export] Instance it_handler_eq_dec : EqDecision it_handler.
Proof. solve_decision. Defined.

(** [IT_Recv_Cell]. *)
Inductive it_flag := EMPTY_CELL | RECVD_CELL | NACK_CELL.
#[export] Instance it_flag_eq_dec : EqDecision it_flag.
Proof. solve_decision. Defined.
Record in_cell := mk_incell { i_flags : it_flag; i_expire : sp_time; i_pkt : list Z }.
Definition no_incell : in_cell := mk_incell EMPTY_CELL (mk_time 0 0) [].

(** ** The state *)
Record it_snd := mk_snd
  { tcp_head_seq : Z; cwnd : spec_float; ssthresh : Z; loss_detected : bool; loss_detected_aru : Z; retransmissions : Z;
    Burst_Count : Z; Burst_Timeout : sp_time }.
Record it_rcv := mk_rcv
  { incoming : gmap Z in_cell; in_nonce : gmap Z Z; aru_nonce_digest : Z; in_head_seq : Z; in_tail_seq : Z;
    incoming_msg_count : Z; in_message : it_in }.
Record it_dis := mk_dis
  { bucket : Z; needed_tokens : bool; dissem_queue : list Z; in_dissem_queue : gset Z; processed : gset Z;
    answers : list (list (list (list Z)) * Z); last_filled : sp_time }.
Record it_const := mk_const
  { link_id : Z; my_incarnation : Z; ngbr_incarnation : Z;
    it_nack_timeout : sp_time; it_initial_nack_timeout : sp_time; it_reliable_timeout : sp_time }.
Inductive it_call := Block_All_Sessions | Resume_All_Sessions.
Record it_log := mk_log { wire : list it_packet; delivered : list (list (list Z)); taken : list (list (list Z)); calls : list it_call }.
Record it_link := mk_it
  { l_const : it_const; l_out : it_out; l_snd : it_snd; l_rcv : it_rcv; l_dis : it_dis;
    l_queue : list (@time_event it_handler unit); l_log : it_log }.

Definition with_out (v : it_out) (l : it_link) : it_link := mk_it (l_const l) v (l_snd l) (l_rcv l) (l_dis l) (l_queue l) (l_log l).
Definition with_snd (v : it_snd) (l : it_link) : it_link := mk_it (l_const l) (l_out l) v (l_rcv l) (l_dis l) (l_queue l) (l_log l).
Definition with_rcv (v : it_rcv) (l : it_link) : it_link := mk_it (l_const l) (l_out l) (l_snd l) v (l_dis l) (l_queue l) (l_log l).
Definition with_dis (v : it_dis) (l : it_link) : it_link := mk_it (l_const l) (l_out l) (l_snd l) (l_rcv l) v (l_queue l) (l_log l).
Definition with_queue (v : list (@time_event it_handler unit)) (l : it_link) : it_link :=
  mk_it (l_const l) (l_out l) (l_snd l) (l_rcv l) (l_dis l) v (l_log l).
Definition with_log (v : it_log) (l : it_link) : it_link := mk_it (l_const l) (l_out l) (l_snd l) (l_rcv l) (l_dis l) (l_queue l) v.

(** The part of [Create_Link] for an intrusion-tolerant link. *)
Definition new_it (cfg : it_conf) (c : it_const) (start : sp_time) : it_link :=
  mk_it c (mk_out LINK_START_SEQ LINK_START_SEQ ∅ ∅ ∅ None 0 0 0 false)
    (mk_snd LINK_START_SEQ (F32.of_Z (if TCP_Fairness cfg =? 1 then Minimum_Window cfg else MAX_SEND_ON_LINK)) MAX_SEND_ON_LINK false 0 0 0 start)
    (mk_rcv ∅ ∅ 0 LINK_START_SEQ LINK_START_SEQ (u32 (Msg_Per_SAA cfg - 1)) fresh_in)
    (mk_dis 0 false [] ∅ ∅ [] start) (E_queue start Fill_Bucket (link_id c) tt (it_bucket_to cfg) []) (mk_log [] [] [] []).

Definition queue_it (e : it_env) (h : it_handler) (delta : sp_time) (l : it_link) : it_link :=
  with_queue (E_queue (now e) h (link_id (l_const l)) tt delta (l_queue l)) l.
Definition in_queue (h : it_handler) (l : it_link) : bool := negb (E_in_queue h (link_id (l_const l)) tt (l_queue l) =? 0).
Definition zero_timeout : sp_time := mk_time 0 0.

Definition emit (p : it_packet) (l : it_link) : it_link :=
  with_log (mk_log (wire (l_log l) ++ [p]) (delivered (l_log l)) (taken (l_log l)) (calls (l_log l))) l.
Definition deliver (m : list (list Z)) (l : it_link) : it_link :=
  with_log (mk_log (wire (l_log l)) (delivered (l_log l) ++ [m]) (taken (l_log l)) (calls (l_log l))) l.
Definition take_message (m : list (list Z)) (l : it_link) : it_link :=
  with_log (mk_log (wire (l_log l)) (delivered (l_log l)) (taken (l_log l) ++ [m]) (calls (l_log l))) l.
Definition call (c : it_call) (l : it_link) : it_link :=
  with_log (mk_log (wire (l_log l)) (delivered (l_log l)) (taken (l_log l)) (calls (l_log l) ++ [c])) l.

(** A change to one cell of an array. *)
Definition upd_cell (f : out_cell -> out_cell) (i : Z) (o : it_out) : it_out :=
  mk_out (out_head_seq o) (out_tail_seq o)
    (<[i mod MAX_SEND_ON_LINK := f (default no_cell (outgoing o !! (i mod MAX_SEND_ON_LINK)))]> (outgoing o))
    (out_nonce o) (out_nonce_digest o) (out_message o) (out_frag_idx o) (out_frag_total o) (unique_packets o) (loss_event o).
Definition set_time (t : sp_time) (c : out_cell) : out_cell := mk_cell (c_live c) (c_pkt c) (c_len c) t (c_resent c) (c_nacked c).
Definition icell (r : it_rcv) (i : Z) : in_cell := default no_incell (incoming r !! (i mod MAX_SEND_ON_LINK)).
Definition set_icell (i : Z) (c : in_cell) (r : it_rcv) : it_rcv :=
  mk_rcv (<[i mod MAX_SEND_ON_LINK := c]> (incoming r)) (in_nonce r) (aru_nonce_digest r) (in_head_seq r) (in_tail_seq r)
    (incoming_msg_count r) (in_message r).

(** ** Sending *)

(** The loop of [Add_IT_Nacks]; [n] is the number of cells between tail and head. *)
Fixpoint nacks_loop (n : nat) (t nack_timeout : sp_time) (avail i ack_len : Z) (nacks : list Z) (r : it_rcv) : list Z * it_rcv :=
  match n with
  | O => (nacks, r)
  | S n =>
      if avail <? ack_len + sizeof_nack then (nacks, r)
      else
        let c := icell r i in
        if bool_decide (i_flags c = NACK_CELL) && (E_compare_time (i_expire c) t <=? 0)
        then nacks_loop n t nack_timeout avail (i + 1) (ack_len + sizeof_nack) (nacks ++ [i])
               (set_icell i (mk_incell (i_flags c) (E_add_time t nack_timeout) (i_pkt c)) r)
        else nacks_loop n t nack_timeout avail (i + 1) ack_len nacks r
  end.

Definition Add_IT_Nacks (cfg : it_conf) (e : it_env) (buff_len : Z) (l : it_link) : outcome (list Z * it_link) :=
  let total_size_avail := sizeof_packet_body - buff_len - 2 * Cipher_Blk_Len cfg - HMAC_Key_Len cfg in
  if total_size_avail - sizeof_intru_tol_pkt_tail <? sizeof_nack then Exit
  else
    let r := l_rcv l in
    let '(nacks, r) := nacks_loop (Z.to_nat (in_head_seq r - in_tail_seq r)) (now e) (it_nack_timeout (l_const l)) total_size_avail
                         (in_tail_seq r) sizeof_intru_tol_pkt_tail [] r in
    Ret (nacks, with_rcv r l).

Definition no_link (cfg : it_conf) (e : it_env) : bool := (Intrusion_Tolerance_Mode cfg =? 0) && negb (control e).

Definition set_count (n : Z) (r : it_rcv) : it_rcv :=
  mk_rcv (incoming r) (in_nonce r) (aru_nonce_digest r) (in_head_seq r) (in_tail_seq r) n (in_message r).

(** The tail of a packet with the acknowledgement of this end. *)
Definition make_packet (data : list Z) (seq nonce : Z) (nacks : list Z) (l : it_link) : it_packet :=
  mk_pkt data seq nonce (u64 (in_tail_seq (l_rcv l) - 1)) (aru_nonce_digest (l_rcv l))
    (my_incarnation (l_const l)) (ngbr_incarnation (l_const l)) nacks.

Definition Send_IT_Data_Msg (cfg : it_conf) (e : it_env) (seq : Z) (l : it_link) : outcome (Z * it_link) :=
  if negb (network_flag e) || no_link cfg e then Ret (BUFF_DROP, l)
  else
    let o := l_out l in
    let c := default no_cell (outgoing o !! (seq mod MAX_SEND_ON_LINK)) in
    if negb (c_live c) then Fault
    else
      let nonce := default 0 (out_nonce o !! (seq mod MAX_SEND_ON_LINK)) in
      '(nacks, l1) ← Add_IT_Nacks cfg e (c_len c) l;
      if negb (sent e seq) then Ret (BUFF_DROP, l1)
      else
        let l2 := emit (make_packet (concat (c_pkt c)) seq nonce nacks l) l1 in
        let l3 := if sizeof_intru_tol_pkt_tail <? sizeof_intru_tol_pkt_tail + sizeof_nack * Z.of_nat (length nacks)
                  then queue_it e Ack_IT (it_ack_timeout cfg) (with_rcv (set_count 0 (l_rcv l2)) l2) else l2 in
        Ret (BUFF_EMPTY, queue_it e Reliable_IT (it_reliable_timeout (l_const l)) l3).

Definition Send_IT_Ack (cfg : it_conf) (e : it_env) (l : it_link) : outcome (Z * it_link) :=
  if negb (network_flag e) || no_link cfg e then Ret (BUFF_DROP, l)
  else
    '(nacks, l1) ← Add_IT_Nacks cfg e 0 l;
    if negb (sent e 0) then Ret (BUFF_DROP, l1) else Ret (BUFF_EMPTY, emit (make_packet [] 0 0 nacks l) l1).

Definition set_tcp_head (v : Z) (s : it_snd) : it_snd :=
  mk_snd v (cwnd s) (ssthresh s) (loss_detected s) (loss_detected_aru s) (retransmissions s) (Burst_Count s) (Burst_Timeout s).

(** The packets of the window that the congestion window lets out, from
    [tcp_head_seq] to [j]; [stop]: until one is dropped. *)
Fixpoint send_window (cfg : it_conf) (e : it_env) (stop : bool) (n : nat) (j ret : Z) (l : it_link) : outcome it_link :=
  match n with
  | O => Ret l
  | S n =>
      let i := tcp_head_seq (l_snd l) in
      if (i <? j) && negb (stop && (ret =? BUFF_DROP)) then
        let o := upd_cell (set_time (E_add_time (now e) (it_initial_nack_timeout (l_const l)))) i (l_out l) in
        '(ret, l) ← Send_IT_Data_Msg cfg e i (with_out o (with_snd (set_tcp_head (u64 (i + 1)) (l_snd l)) l));
        send_window cfg e stop n j ret l
      else Ret l
  end.

Definition window_end (l : it_link) : Z :=
  Z.min (out_head_seq (l_out l)) (u64 (out_tail_seq (l_out l) + u64 (SFtrunc (cwnd (l_snd l))))).

Definition Full_Link_IT (cfg : it_conf) (e : it_env) (l : it_link) : bool :=
  no_link cfg e || negb (u64 (out_head_seq (l_out l) - out_tail_seq (l_out l)) <? MAX_SEND_ON_LINK).

Definition pack (cfg : it_conf) (e : it_env) (l : it_link) : Z * it_link :=
  match Pack_Fragments_Into_Packets_IT (Link_Header_Size cfg) (Loss_Calc_Pkt_Trigger cfg) (Intrusion_Tolerance_Mode cfg) (rnd e) (rnd2 e)
          (control e) (Some (l_out l)) with
  | (r, Some o) => (r, with_out o l)
  | (r, None) => (r, l)
  end.

Definition set_message (m : option (list (list Z))) (idx total : Z) (o : it_out) : it_out :=
  mk_out (out_head_seq o) (out_tail_seq o) (outgoing o) (out_nonce o) (out_nonce_digest o) m idx total (unique_packets o) (loss_event o).

(** [header_ok]: element 0 of the scatter has the size of a packet header; the
    link exists (the code uses it even when [Get_Best_Link] finds none). *)
Definition Forward_Intru_Tol_Data (cfg : it_conf) (e : it_env) (header_ok : bool) (msg : list (list Z)) (l : it_link) : outcome (Z * it_link) :=
  let ret := if Full_Link_IT cfg e l then BUFF_FULL else BUFF_OK in
  let msg_size := foldl (fun n f => u16 (n + len f)) 0 msg in
  if no_link cfg e || bool_decide (is_Some (out_message (l_out l))) ||
     (MAX_MESSAGE_SIZE <? msg_size + MAX_PKTS_PER_MESSAGE * (Link_Header_Size cfg + sizeof_fragment_header)) || negb header_ok
  then Ret (BUFF_DROP, l)
  else
    let l := take_message msg (with_out (set_message (Some msg) 1 (u8 (Z.of_nat (length msg))) (l_out l)) l) in
    let '(r, l) := pack cfg e l in
    if r =? BUFF_DROP then Ret (BUFF_DROP, with_out (set_message None (out_frag_idx (l_out l)) (out_frag_total (l_out l)) (l_out l)) l)
    else
      let l := if (Session_Blocking cfg =? 1) && (MAX_SEND_ON_LINK <=? u64 (out_head_seq (l_out l) - out_tail_seq (l_out l)))
               then call Block_All_Sessions l else l in
      let j := window_end l in
      l ← send_window cfg e true (Z.to_nat (j - tcp_head_seq (l_snd l))) j ret l;
      Ret (BUFF_OK, l).

(** ** The dissemination protocols *)

(** The messages of one answer, as far as the link takes them. *)
Definition forward_all (cfg : it_conf) (e : it_env) (msgs : list (list (list Z))) (l : it_link) : outcome it_link :=
  foldM (fun l m => '(_, l) ← Forward_Intru_Tol_Data cfg e true m l; Ret l) l msgs.

Definition next_answer (d : it_dis) : list (list (list Z)) * Z := match answers d with [] => ([], 0) | a :: _ => a end.

(** The loop over the queue of protocols, in turn; [n] bounds the answers and the
    protocols left. *)
Fixpoint assign_loop (cfg : it_conf) (e : it_env) (n : nat) (l : it_link) : outcome it_link :=
  match n with
  | O => Ret l
  | S n =>
      let d := l_dis l in
      match dissem_queue d with
      | [] => Ret l
      | dissem :: queue =>
          if Full_Link_IT cfg e l || negb (0 <? bucket d) then Ret l
          else
            let '(msgs, ret) := next_answer d in
            l ← forward_all cfg e msgs (with_dis (mk_dis (bucket d) (needed_tokens d) (dissem_queue d) (in_dissem_queue d) (processed d) (tl (answers d)) (last_filled d)) l);
            let d := l_dis l in
            let queue := if ret =? 0 then queue else queue ++ [dissem] in
            let waiting := if ret =? 0 then in_dissem_queue d ∖ {[dissem]} else in_dissem_queue d in
            assign_loop cfg e n (with_dis (mk_dis (bucket d - ret) (needed_tokens d) queue waiting ({[dissem]} ∪ processed d) (answers d) (last_filled d)) l)
      end
  end.

Definition Assign_Resources_IT (cfg : it_conf) (e : it_env) (l : it_link) : outcome it_link :=
  if no_link cfg e then Ret l
  else if needed_tokens (l_dis l) && (bucket (l_dis l) <? MAX_PACKET_SIZE) then Ret l
  else
    let d := l_dis l in
    l ← assign_loop cfg e (length (answers d) + length (dissem_queue d))
          (with_dis (mk_dis (bucket d) false (dissem_queue d) (in_dissem_queue d) (processed d) (answers d) (last_filled d)) l);
    let d := l_dis l in
    let needed := needed_tokens d || (negb (Full_Link_IT cfg e l) && bool_decide (dissem_queue d <> [])) in
    let fill := (bucket d <? BUCKET_CAP) && negb (in_queue Fill_Bucket l) in
    let l := with_dis (mk_dis (bucket d) needed (dissem_queue d) (in_dissem_queue d) (processed d) (answers d) (if fill then now e else last_filled d)) l in
    Ret (if fill then queue_it e Fill_Bucket (it_bucket_to cfg) l else l).

(** [RATE_LIMIT_KBPS / 8000.0] bytes for a microsecond, in double precision. *)
Definition RATE_LIMIT_KBPS : Z := 250000.
Definition to_add (delta : sp_time) : Z :=
  u32 (SFtrunc (F64.mul (F64.div (F64.of_Z RATE_LIMIT_KBPS) (F64.of_Z 8000)) (F64.of_Z (sec delta * 1000000 + usec delta)))).

Definition Fill_Bucket_IT (cfg : it_conf) (e : it_env) (l : it_link) : outcome it_link :=
  let d := l_dis l in
  if BUCKET_CAP <? bucket d then Exit
  else if bucket d =? BUCKET_CAP then Ret l
  else
    let b := Z.min BUCKET_CAP (bucket d + to_add (E_sub_time (now e) (last_filled d))) in
    let l := queue_it e Fill_Bucket (it_bucket_to cfg)
               (with_dis (mk_dis b (needed_tokens d) (dissem_queue d) (in_dissem_queue d) (processed d) (answers d) (now e)) l) in
    if needed_tokens d && (0 <? b) then Assign_Resources_IT cfg e l else Ret l.

(** [RESERVED_ROUTING_BITS >> ROUTING_BITS_SHIFT], the size of [in_dissem_queue]
    and of [processed]. *)
Definition ROUTINGS : Z := 15.

Definition Request_Resources_IT (cfg : it_conf) (e : it_env) (dissem : Z) (l : it_link) : outcome (Z * it_link) :=
  if (dissem <? 0) || (ROUTINGS <? dissem) || no_link cfg e then Ret (0, l)
  else if ROUTINGS <=? dissem then Fault
  else
    let d := l_dis l in
    let l := if bool_decide (dissem ∈ in_dissem_queue d) then l
             else with_dis (mk_dis (bucket d) (needed_tokens d) (dissem_queue d ++ [dissem]) ({[dissem]} ∪ in_dissem_queue d) (processed d) (answers d) (last_filled d)) l in
    if Full_Link_IT cfg e l then Ret (0, l)
    else
      let d := l_dis l in
      l ← Assign_Resources_IT cfg e (with_dis (mk_dis (bucket d) (needed_tokens d) (dissem_queue d) (in_dissem_queue d) (processed d ∖ {[dissem]}) (answers d) (last_filled d)) l);
      Ret (if bool_decide (dissem ∈ processed (l_dis l)) then 1 else 0, l).

(** ** Retransmissions and timeouts *)
Definition set_burst (count : Z) (timeout : sp_time) (s : it_snd) : it_snd :=
  mk_snd (tcp_head_seq s) (cwnd s) (ssthresh s) (loss_detected s) (loss_detected_aru s) (retransmissions s) count timeout.

(** The loop of [Handle_IT_Retransm] from [i] on, and where it stopped. *)
Fixpoint retransm_loop (cfg : it_conf) (e : it_env) (n : nat) (i : Z) (l : it_link) : outcome (Z * it_link) :=
  match n with
  | O => Ret (i, l)
  | S n =>
      if (i <? tcp_head_seq (l_snd l)) && (Burst_Count (l_snd l) <? Send_Batch_Size cfg) then
        let c := default no_cell (outgoing (l_out l) !! (i mod MAX_SEND_ON_LINK)) in
        if c_nacked c && (E_compare_time (c_time c) (now e) <=? 0) then
          let o := upd_cell (fun c => mk_cell (c_live c) (c_pkt c) (c_len c) (E_add_time (now e) (it_nack_timeout (l_const l))) true false) i (l_out l) in
          '(_, l) ← Send_IT_Data_Msg cfg e i (with_out o l);
          let s := l_snd l in
          retransm_loop cfg e n (i + 1)
            (with_snd (mk_snd (tcp_head_seq s) (cwnd s) (ssthresh s) (loss_detected s) (loss_detected_aru s) (u32 (retransmissions s + 1))
                         (Burst_Count s + 1) (Burst_Timeout s)) l)
        else retransm_loop cfg e n (i + 1) l
      else Ret (i, l)
  end.

Definition Handle_IT_Retransm (cfg : it_conf) (e : it_env) (l : it_link) : outcome it_link :=
  let again l := queue_it e Retransm_IT (E_add_time (E_sub_time (Burst_Timeout (l_snd l)) (now e)) zero_timeout) l in
  let s := l_snd l in
  let l := if E_compare_time (Burst_Timeout s) (now e) <=? 0
           then with_snd (set_burst 0 (E_add_time (now e) (flow_control_timeout cfg)) s) l
           else if Send_Batch_Size cfg <=? Burst_Count s then again l else l in
  let tail := out_tail_seq (l_out l) in
  '(i, l) ← retransm_loop cfg e (Z.to_nat (tcp_head_seq (l_snd l) - tail)) tail l;
  Ret (if i <? tcp_head_seq (l_snd l) then again l else l).

Definition Reliable_IT_Timeout (cfg : it_conf) (e : it_env) (l : it_link) : outcome it_link :=
  let s := tcp_head_seq (l_snd l) in
  if out_tail_seq (l_out l) <? s then
    let o := upd_cell (fun c => mk_cell (c_live c) (c_pkt c) (c_len c) (E_add_time (now e) (it_nack_timeout (l_const l))) true (c_nacked c)) (s - 1) (l_out l) in
    '(_, l) ← Send_IT_Data_Msg cfg e (s - 1) (with_out o l);
    Ret (queue_it e Reliable_IT (it_reliable_timeout (l_const l)) l)
  else Ret l.

Definition Ack_IT_Timeout (cfg : it_conf) (e : it_env) (l : it_link) : outcome it_link :=
  if incoming_msg_count (l_rcv l) =? 0 then Ret (with_rcv (set_count (u32 (Msg_Per_SAA cfg - 1)) (l_rcv l)) l)
  else
    '(_, l) ← Send_IT_Ack cfg e l;
    Ret (queue_it e Ack_IT (it_ack_timeout cfg) (with_rcv (set_count 0 (l_rcv l)) l)).

(** ** Receiving *)

(** [cwnd / 2.0 + 3.0] and the new threshold after a loss was repaired. *)
Definition halve (w : spec_float) : spec_float := F64.div w (F64.of_Z 2).
Definition to_float (x : spec_float) : spec_float :=
  match x with S754_finite s m x => binary_normalize F32.prec F32.emax (if s then Zneg m else Zpos m) x s | _ => x end.
Definition set_cwnd (w : spec_float) (th : Z) (lost : bool) (s : it_snd) : it_snd :=
  mk_snd (tcp_head_seq s) w th lost (loss_detected_aru s) (retransmissions s) (Burst_Count s) (Burst_Timeout s).

Definition loss_resolved (cfg : it_conf) (aru : Z) (s : it_snd) : it_snd :=
  if (TCP_Fairness cfg =? 1) && loss_detected s && (loss_detected_aru s <? aru) then
    let th := u16 (SFtrunc (halve (cwnd s))) in
    if th <? 2 then set_cwnd (to_float (F64.add (F64.of_Z 2) (F64.of_Z 3))) 2 false s
    else set_cwnd (to_float (F64.add (halve (cwnd s)) (F64.of_Z 3))) th false s
  else s.

Definition grow (cfg : it_conf) (s : it_snd) : it_snd :=
  if TCP_Fairness cfg =? 1 then
    if F32.ge (F32.of_Z (ssthresh s)) (cwnd s) then set_cwnd (F32.add (cwnd s) (F32.of_Z 1)) (ssthresh s) (loss_detected s) s
    else set_cwnd (F32.add (cwnd s) (to_float (F64.div (F64.of_Z 1) (cwnd s)))) (ssthresh s) (loss_detected s) s
  else s.

Definition cap_cwnd (cfg : it_conf) (s : it_snd) : it_snd :=
  if (TCP_Fairness cfg =? 1) && F32.lt (F32.of_Z MAX_SEND_ON_LINK) (cwnd s)
  then set_cwnd (F32.of_Z MAX_SEND_ON_LINK) (ssthresh s) (loss_detected s) s else s.

Definition release (c : out_cell) : out_cell := mk_cell false (c_pkt c) (c_len c) (c_time c) (c_resent c) (c_nacked c).

(** The packets from the tail on are released, [n] of them. *)
Fixpoint release_loop (cfg : it_conf) (n : nat) (i : Z) (l : it_link) : it_link :=
  match n with
  | O => l
  | S n => release_loop cfg n (i + 1) (with_out (upd_cell release i (l_out l)) (with_snd (grow cfg (l_snd l)) l))
  end.

Definition set_out_tail (t : Z) (o : it_out) : it_out :=
  mk_out (out_head_seq o) t (outgoing o) (out_nonce o) (out_nonce_digest o) (out_message o) (out_frag_idx o) (out_frag_total o)
    (unique_packets o) (loss_event o).

(** (1) The acknowledgement; [None]: its digest is wrong. *)
Definition process_aru (cfg : it_conf) (e : it_env) (p : it_packet) (l : it_link) : outcome (option it_link) :=
  let o := l_out l in
  if (out_tail_seq o <=? p_aru p) && (p_aru p <? tcp_head_seq (l_snd l)) then
    if negb (p_aru_nonce p =? default 0 (out_nonce_digest o !! (p_aru p mod MAX_SEND_ON_LINK))) then Ret None
    else
      let l := release_loop cfg (Z.to_nat (p_aru p + 1 - out_tail_seq o)) (out_tail_seq o)
                 (with_snd (loss_resolved cfg (p_aru p) (l_snd l)) l) in
      let l := with_out (set_out_tail (u64 (p_aru p + 1)) (l_out l)) (with_snd (cap_cwnd cfg (l_snd l)) l) in
      let j := window_end l in
      l ← send_window cfg e false (Z.to_nat (j - tcp_head_seq (l_snd l))) j 0 l;
      let '(r, l) := pack cfg e l in
      let l := if r =? BUFF_DROP then with_out (set_message None 0 0 (l_out l)) l else l in
      l ← Assign_Resources_IT cfg e l;
      Ret (Some (if (Session_Blocking cfg =? 1) && (u64 (out_head_seq (l_out l) - out_tail_seq (l_out l)) <? MAX_SEND_ON_LINK)
                 then call Resume_All_Sessions l else l))
  else Ret (Some l).

Definition mark_nack (l : it_link) (nack_seq : Z) : it_link :=
  if (out_tail_seq (l_out l) <=? nack_seq) && (nack_seq <? tcp_head_seq (l_snd l))
  then with_out (upd_cell (fun c => mk_cell (c_live c) (c_pkt c) (c_len c) (c_time c) (c_resent c) true) nack_seq (l_out l)) l else l.

(** (2) The negative acknowledgements; [None]: too many. *)
Definition process_nacks (cfg : it_conf) (e : it_env) (p : it_packet) (l : it_link) : outcome (option it_link) :=
  if sizeof_intru_tol_pkt_tail <? p_ack_len p then
    if sizeof_packet_body <? p_ack_len p - sizeof_intru_tol_pkt_tail then Ret None
    else
      let l := foldl mark_nack l (p_nacks p) in
      let s := l_snd l in
      let l := if (TCP_Fairness cfg =? 1) && negb (loss_detected s)
               then with_snd (mk_snd (tcp_head_seq s) (cwnd s) (ssthresh s) true (p_aru p) (retransmissions s) (Burst_Count s) (Burst_Timeout s)) l
               else l in
      l ← (if in_queue Retransm_IT l then Ret l else Handle_IT_Retransm cfg e l); Ret (Some l)
  else Ret (Some l).

(** The cells skipped up to [seq] are marked, [n] of them. *)
Fixpoint mark_gap (n : nat) (expire : sp_time) (i : Z) (r : it_rcv) : it_rcv :=
  match n with O => r | S n => mark_gap n expire (i + 1) (set_icell i (mk_incell NACK_CELL expire (i_pkt (icell r i))) r) end.

Definition set_in_head (h : Z) (r : it_rcv) : it_rcv :=
  mk_rcv (incoming r) (in_nonce r) (aru_nonce_digest r) h (in_tail_seq r) (incoming_msg_count r) (in_message r).

Definition store (e : it_env) (initial : sp_time) (p : it_packet) (r : it_rcv) : it_rcv :=
  let seq := p_link_seq p in
  let r := set_icell seq (mk_incell RECVD_CELL (i_expire (icell r seq)) (p_data p)) r in
  let r := mk_rcv (incoming r) (<[seq mod MAX_SEND_ON_LINK := p_seq_nonce p]> (in_nonce r)) (aru_nonce_digest r) (in_head_seq r) (in_tail_seq r)
             (incoming_msg_count r) (in_message r) in
  if in_head_seq r <=? seq
  then set_in_head (u64 (seq + 1)) (mark_gap (Z.to_nat (seq - in_head_seq r)) (E_add_time (now e) initial) (in_head_seq r) r)
  else r.

(** The number of fragments in the last fragment header of a packet. *)
Definition last_total (e : it_env) (buff : list Z) : outcome Z := byte_at (e_before e) buff (len buff - 1).

Definition set_in_message (m : it_in) (r : it_rcv) : it_rcv :=
  mk_rcv (incoming r) (in_nonce r) (aru_nonce_digest r) (in_head_seq r) (in_tail_seq r) (incoming_msg_count r) m.

(** A message that is one packet, delivered at once. *)
Definition deliver_unordered (cfg : it_conf) (e : it_env) (buff : list Z) (l : it_link) : outcome it_link :=
  if Ordered_Delivery cfg =? 0 then
    total ← last_total e buff;
    if total =? 1 then
      '(ret, m) ← Build_Message_From_Fragments_IT (e_before e) buff fresh_in;
      if ret <? 0 then Ret l else if ret =? 0 then Exit else Ret (deliver (elems m) l)
    else Ret l
  else Ret l.

(** Whether the packet at the tail still has to be put into a message. *)
Definition in_order (cfg : it_conf) (e : it_env) (buff : list Z) : outcome bool :=
  if Ordered_Delivery cfg =? 1 then Ret true else total ← last_total e buff; Ret (1 <? total).

(** The packet at the tail goes to the message under construction; delivering one
    whose buffers were given up is a use of freed memory. *)
Definition deliver_tail (cfg : it_conf) (e : it_env) (buff : list Z) (l : it_link) : outcome it_link :=
  ordered ← in_order cfg e buff;
  if (ordered : bool) then
    '(ret, m) ← Build_Message_From_Fragments_IT (e_before e) buff (in_message (l_rcv l));
    if ret =? 1 then
      if live m then Ret (with_rcv (set_in_message fresh_in (l_rcv l)) (deliver (elems m) l)) else Fault
    else Ret (with_rcv (set_in_message m (l_rcv l)) l)
  else Ret l.

(** The tail moves over the packets received. *)
Fixpoint advance (cfg : it_conf) (e : it_env) (n : nat) (l : it_link) : outcome it_link :=
  match n with
  | O => Fault
  | S n =>
      let r := l_rcv l in
      let i := in_tail_seq r in
      let c := icell r i in
      if bool_decide (i_flags c = RECVD_CELL) then
        let digest := Z.lxor (aru_nonce_digest r) (default 0 (in_nonce r !! (i mod MAX_SEND_ON_LINK))) in
        let r := mk_rcv (incoming r) (<[i mod MAX_SEND_ON_LINK := 0]> (in_nonce r)) digest (in_head_seq r) (u64 (i + 1)) (incoming_msg_count r) (in_message r) in
        l ← deliver_tail cfg e (i_pkt c) (with_rcv r l);
        advance cfg e n (with_rcv (set_icell i (mk_incell EMPTY_CELL (i_expire (icell (l_rcv l) i)) []) (l_rcv l)) l)
      else Ret l
  end.

(** (3) The data. *)
Definition process_data (cfg : it_conf) (e : it_env) (p : it_packet) (l : it_link) : outcome (Z * it_link) :=
  if 0 <? p_link_seq p then
    let n := u32 (incoming_msg_count (l_rcv l) + 1) in
    let l := with_rcv (set_count n (l_rcv l)) l in
    let l := if Msg_Per_SAA cfg <=? n then queue_it e Ack_IT zero_timeout l else l in
    let r := l_rcv l in
    if p_link_seq p <? in_tail_seq r then Ret (1, l)
    else if u64 (in_tail_seq r + MAX_SEND_ON_LINK) <=? p_link_seq p then Ret (1, l)
    else if bool_decide (i_flags (icell r (p_link_seq p)) = RECVD_CELL) then Ret (1, l)
    else
      l ← deliver_unordered cfg e (p_data p) (with_rcv (store e (it_initial_nack_timeout (l_const l)) p r) l);
      l ← advance cfg e (S (Z.to_nat MAX_SEND_ON_LINK)) l;
      Ret (0, l)
  else Ret (0, l).

Definition Process_IT_Ack (cfg : it_conf) (e : it_env) (p : it_packet) (l : it_link) : outcome (Z * it_link) :=
  r ← process_aru cfg e p l;
  match r with
  | None => Ret (1, l)
  | Some l =>
      r ← process_nacks cfg e p l;
      match r with None => Ret (1, l) | Some l => process_data cfg e p l end
  end.

(** A data packet or an acknowledgement of the neighbour; without data the tail
    of an acknowledgement is at the start of its buffer. *)
Definition Process_intru_tol_packet (cfg : it_conf) (e : it_env) (p : it_packet) (l : it_link) : outcome it_link :=
  if negb (p_incarnation p =? ngbr_incarnation (l_const l)) then Ret l
  else if negb (p_aru_incarnation p =? my_incarnation (l_const l)) then Ret l
  else r ← Process_IT_Ack cfg e p l; Ret (snd r).
