(* ===== verification/ITLinkProof.v ===== *)
(** * ITLinkProof: the invariant of one end of an intrusion-tolerant link

    [stream] is the sequence of packets a list of messages is cut into; packet
    number [q] of a link is its element [q - 1].  The window holds the packets
    from its tail to its head, each with its nonce; the digest of a packet is the
    exclusive or of all nonces up to it. *)
From Stdlib Require Import SpecFloat.
From stdpp Require Import base list gmap numbers option sets.
From Stdlib Require Import ZArith Lia.
From S2P Require Import Prelude CFloat Events NetTypes ITFrag ITFragProof ITBuildProof ITLink.
#[local] Open Scope Z_scope.

(** ** The packets of a list of messages *)
Section Stream.
Context (ls : Z).

Definition msg_packets (m : list (list Z)) : list (list (list Z)) := packets_of (Z.of_nat (length m)) 1 (groups ls m).
Definition stream (msgs : list (list (list Z))) : list (list (list Z)) := concat (map msg_packets msgs).

(** A message the link can carry. *)
Definition msg_ok (m : list (list Z)) : Prop := Z.of_nat (length m) < MAX_SCATTER_ELEMENTS /\ all_fit ls m.

Lemma stream_app a b : stream (a ++ b) = stream a ++ stream b.
Proof. unfold stream. by rewrite map_app, concat_app. Qed.

Lemma stream_cons m msgs : stream (m :: msgs) = msg_packets m ++ stream msgs.
Proof. done. Qed.

Lemma stream_snoc msgs m : stream (msgs ++ [m]) = stream msgs ++ msg_packets m.
Proof. rewrite stream_app. unfold stream at 2. cbn. by rewrite app_nil_r. Qed.

Lemma groups_from_fit cur cl fs :
  cl = group_len cur -> group_len cur + ls <= MAX_PACKET_SIZE -> all_fit ls fs ->
  Forall (fun g => group_len g + ls <= MAX_PACKET_SIZE) (groups_from ls cur cl fs).
Proof.
  revert cur cl. induction fs as [|f r IH]; intros cur cl -> Hc Hfit; cbn; [by repeat constructor|].
  inversion_clear Hfit as [|? ? Hf Hr]. unfold fits in *. apply Z.leb_le in Hf. pose proof (len_nonneg f). unfold sizeof_fragment_header in *.
  destruct (Z.leb_spec (group_len cur + len f + ls + 4) MAX_PACKET_SIZE).
  - apply IH; [|rewrite group_len_app; cbn; unfold sizeof_fragment_header; lia|done]. rewrite group_len_app. cbn. unfold sizeof_fragment_header. lia.
  - constructor; [done|]. apply IH; [|cbn; unfold sizeof_fragment_header; lia|done]. cbn. unfold sizeof_fragment_header. lia.
Qed.

Lemma packets_of_fit total gs : forall i,
  Forall (fun g => group_len g + ls <= MAX_PACKET_SIZE) gs -> Forall (fun p => len (concat p) + ls <= MAX_PACKET_SIZE) (packets_of total i gs).
Proof.
  induction gs as [|g gs IH]; intros i H; cbn; [constructor|]. inversion_clear H. constructor; [by rewrite frag_els_len|by apply IH].
Qed.

(** Every packet leaves room for the headers of the link. *)
Lemma stream_fit msgs :
  0 <= ls <= MAX_PACKET_SIZE -> Forall msg_ok msgs -> Forall (fun p => len (concat p) + ls <= MAX_PACKET_SIZE) (stream msgs).
Proof.
  intros Hls. induction 1 as [|m msgs [_ Hfit] _ IH]; [constructor|]. rewrite stream_cons. apply Forall_app. split; [|done].
  apply packets_of_fit, groups_from_fit; [done|cbn; lia|done].
Qed.

(** ** Building the messages of a stream *)

(** After [k] packets of the stream of [msgs]: the messages complete so far and
    the one under construction. *)
Inductive rx_state (msgs : list (list (list Z))) : nat -> list (list (list Z)) -> it_in -> Prop :=
| RxBetween del rest : msgs = del ++ rest -> rx_state msgs (length (stream del)) del fresh_in
| RxWithin del msg rest gs1 gs2 :
    msgs = del ++ msg :: rest -> groups ls msg = gs1 ++ gs2 -> gs1 <> [] -> gs2 <> [] ->
    rx_state msgs (length (stream del) + length gs1) del
      (mk_in true (concat gs1) (Z.of_nat (length (concat gs1)) + 1) (Z.of_nat (length msg)) true).

Lemma rx_state_prefix msgs k del m : rx_state msgs k del m -> del `prefix_of` msgs.
Proof. intros [? rest Hm|? msg rest ?? Hm]; [by exists rest|by exists (msg :: rest)]. Qed.

Lemma rx_state_extend msgs more k del m : rx_state msgs k del m -> rx_state (msgs ++ more) k del m.
Proof.
  intros [? rest Hm|? msg rest gs1 gs2 Hm]; [apply RxBetween with (rest ++ more)|apply RxWithin with (rest ++ more) gs2; try done];
    rewrite Hm, <- app_assoc; done.
Qed.

Lemma packets_of_app total i a b :
  packets_of total i (a ++ b) = packets_of total i a ++ packets_of total (i + Z.of_nat (length (concat a))) b.
Proof.
  revert i. induction a as [|g a IH]; intros i; cbn [app packets_of concat length]; [by rewrite Z.add_0_r|].
  rewrite IH, length_app. do 3 f_equal. lia.
Qed.

(** The next packet, from within a message or at its start. *)
Lemma rx_build before msg gs1 gs2 el m :
  msg_ok msg -> groups ls msg = gs1 ++ gs2 -> msg_packets msg !! length gs1 = Some el ->
  elems m = concat gs1 -> frag_idx m = Z.of_nat (length (concat gs1)) + 1 -> live m = true ->
  (frag_total m = Z.of_nat (length msg) \/ frag_total m = 0) ->
  exists g gs2', gs2 = g :: gs2' /\
    Build_Message_From_Fragments_IT before (concat el) m =
      Ret (if gs2' then 1 else 0, mk_in true (concat (gs1 ++ [g])) (Z.of_nat (length (concat (gs1 ++ [g]))) + 1) (Z.of_nat (length msg)) true).
Proof.
  intros [H99 Hfit] Hg Hel Hm Hidx Hlive Ht. unfold msg_packets in Hel. rewrite Hg, packets_of_app in Hel.
  rewrite lookup_app_r in Hel by by rewrite length_packets_of. rewrite length_packets_of, Nat.sub_diag in Hel.
  destruct gs2 as [|g gs2']; [done|]. cbn in Hel. injection Hel as <-. exists g, gs2'. split; [done|].
  assert (Hc : concat gs1 ++ g ++ concat gs2' = msg) by (rewrite <- (concat_groups ls msg), Hg, concat_app; done).
  assert (Hl : (length (concat gs1) + length g + length (concat gs2') = length msg)%nat) by (rewrite <- Hc, !length_app; lia).
  set (i := 1 + Z.of_nat (length (concat gs1))).
  change (concat (frag_els (Z.of_nat (length msg)) i g)) with (packet_bytes (Z.of_nat (length msg)) i g).
  assert (Hne : msg <> [] -> Forall (fun g => g <> []) (gs1 ++ g :: gs2')) by (intros; rewrite <- Hg; by apply groups_nonempty).
  rewrite build_packet; [|lia..| | |].
  - rewrite Hm, Hlive, concat_app. cbn [concat]. rewrite app_nil_r, length_app. do 2 f_equal; [|f_equal; lia].
    destruct gs2' as [|g2 gs2'']; cbn [concat length] in Hl; [rewrite (proj2 (Z.eqb_eq _ _)) by lia; done|].
    rewrite (proj2 (Z.eqb_neq _ _)); [done|]. destruct (decide (msg = [])) as [->|Hnil].
    { destruct gs1; cbn in Hg; [|by destruct gs1]. done. }
    specialize (Hne Hnil). apply Forall_app in Hne as [_ Hne]. inversion_clear Hne as [|? ? _ Hne2]. inversion_clear Hne2 as [|? ? Hg2 _].
    destruct g2; [done|]. rewrite length_app in Hl. cbn in Hl. lia.
  - lia.
  - rewrite Hm. lia.
  - destruct Ht as [Ht|Ht]; [by left|]. destruct (decide (msg = [])) as [->|Hnil]; [left; done|]. right. split; [done|].
    specialize (Hne Hnil). apply Forall_app in Hne as [_ Hne]. by inversion_clear Hne.
Qed.

Lemma groups_not_nil m : groups ls m <> [].
Proof.
  unfold groups. generalize (@nil (list Z)) 0. induction m as [|f r IH]; intros cur cl; cbn; [done|]. destruct (fits ls cl f); [apply IH|done].
Qed.

(** One more packet of the stream. *)
Lemma rx_step before msgs k del m el :
  Forall msg_ok msgs -> rx_state msgs k del m -> stream msgs !! k = Some el ->
  exists r m', Build_Message_From_Fragments_IT before (concat el) m = Ret (r, m') /\
    ((r = 1 /\ live m' = true /\ rx_state msgs (S k) (del ++ [elems m']) fresh_in) \/ (r = 0 /\ rx_state msgs (S k) del m')).
Proof.
  intros Hok Hrx Hel.
  assert (Hpos : exists msg rest gs1 gs2, msgs = del ++ msg :: rest /\ groups ls msg = gs1 ++ gs2 /\ gs2 <> [] /\
    k = (length (stream del) + length gs1)%nat /\ elems m = concat gs1 /\ frag_idx m = Z.of_nat (length (concat gs1)) + 1 /\ live m = true /\
    (frag_total m = Z.of_nat (length msg) \/ frag_total m = 0)).
  { destruct Hrx as [del' rest Hm|del' msg rest gs1 gs2 Hm Hg ? ?].
    - destruct rest as [|msg rest]; [rewrite app_nil_r in Hm; subst; by rewrite lookup_ge_None_2 in Hel|].
      exists msg, rest, [], (groups ls msg). cbn [length concat app fresh_in elems frag_idx live frag_total].
      split_and!; try done; [apply groups_not_nil|..]; (lia || by right).
    - exists msg, rest, gs1, gs2. cbn [elems frag_idx live frag_total]. split_and!; (done || by left). }
  destruct Hpos as (msg & rest & gs1 & gs2 & Hm & Hg & Hgs2 & -> & Hme & Hmi & Hml & Hmt). clear Hrx.
  assert (Hmo : msg_ok msg) by (rewrite Hm in Hok; apply Forall_app in Hok as [_ Hok']; by inversion_clear Hok').
  assert (Hel' : msg_packets msg !! length gs1 = Some el).
  { rewrite Hm, stream_app, stream_cons, lookup_app_r in Hel by lia. replace (length (stream del) + length gs1 - length (stream del))%nat with (length gs1) in Hel by lia.
    rewrite lookup_app_l in Hel; [done|]. unfold msg_packets. rewrite length_packets_of, Hg, length_app. destruct gs2; [done|cbn; lia]. }
  destruct (rx_build before msg gs1 gs2 el m) as (g & gs2' & -> & Hb); try done. rewrite Hb. eexists _, _. split; [done|].
  destruct gs2' as [|g2 gs2'].
  - left. split; [done|]. split; [done|]. cbn [elems]. replace (concat (gs1 ++ [g])) with msg by (by rewrite <- (concat_groups ls msg), Hg).
    replace (S _) with (length (stream (del ++ [msg]))).
    { apply RxBetween with rest. by rewrite <- app_assoc. }
    rewrite stream_snoc, length_app. unfold msg_packets. rewrite length_packets_of, Hg, length_app. cbn. lia.
  - right. split; [done|]. replace (S _) with (length (stream del) + length (gs1 ++ [g]))%nat by (rewrite length_app; cbn; lia).
    apply RxWithin with rest (g2 :: gs2'); try done; [by rewrite <- app_assoc|by destruct gs1].
Qed.
End Stream.

(** ** The sending side *)
Lemma it_window_inj p q : - MAX_SEND_ON_LINK < p - q < MAX_SEND_ON_LINK -> p mod MAX_SEND_ON_LINK = q mod MAX_SEND_ON_LINK -> p = q.
Proof.
  unfold MAX_SEND_ON_LINK. intros Hd He. pose proof (Z.div_mod p 500). pose proof (Z.div_mod q 500).
  assert (p - q = 500 * (p / 500 - q / 500)) by lia. lia.
Qed.

(** The digest of the nonces of packets 1 to [k]. *)
Fixpoint dig (nn : Z -> Z) (k : nat) : Z := match k with O => 0 | S k => Z.lxor (nn (Z.of_nat (S k))) (dig nn k) end.

Lemma dig_agree nn nn' k : (forall q, 1 <= q <= Z.of_nat k -> nn q = nn' q) -> dig nn k = dig nn' k.
Proof.
  induction k as [|k IH]; intros H; [done|]. cbn [dig]. rewrite (H (Z.of_nat (S k))) by lia. f_equal. apply IH. intros q Hq. apply H. lia.
Qed.

Definition ocell (o : it_out) (q : Z) : out_cell := default no_cell (outgoing o !! (q mod MAX_SEND_ON_LINK)).
Definition ononce (o : it_out) (q : Z) : Z := default 0 (out_nonce o !! (q mod MAX_SEND_ON_LINK)).
Definition odigest (o : it_out) (q : Z) : Z := default 0 (out_nonce_digest o !! (q mod MAX_SEND_ON_LINK)).

(** The window over the stream [S]; [nn] are the nonces given so far. *)
Record out_inv (ls : Z) (nn : Z -> Z) (S : list (list (list Z))) (o : it_out) : Prop := {
  oi_ok : out_ok ls o;
  oi_todo : todo ls o = drop (Z.to_nat (out_head_seq o - 1)) S;
  oi_len : out_head_seq o - 1 <= Z.of_nat (length S);
  oi_cell : forall q, out_tail_seq o <= q < out_head_seq o ->
    c_live (ocell o q) = true /\ S !! Z.to_nat (q - 1) = Some (c_pkt (ocell o q)) /\ c_len (ocell o q) = len (concat (c_pkt (ocell o q)));
  oi_nonce : forall q, out_tail_seq o <= q < out_head_seq o -> ononce o q = nn q;
  oi_digest : forall q, out_tail_seq o <= q < out_head_seq o \/ q = out_head_seq o - 1 -> odigest o q = dig nn (Z.to_nat q) }.

(** Nonces given once are not changed. *)
Definition extends (h : Z) (nn nn' : Z -> Z) : Prop := forall q, q < h -> nn' q = nn q.

Section PackInv.
Context (ls trigger : Z) (rnd rnd2 : Z -> Z) (Hls : 0 <= ls <= MAX_PACKET_SIZE).

Lemma pack_one_inv nn S o msg :
  out_inv ls nn S o -> out_message o = Some msg -> out_head_seq o < out_tail_seq o + MAX_SEND_ON_LINK -> out_head_seq o + 1 < 2 ^ 64 ->
  let o' := pack_one ls trigger rnd rnd2 msg o in
  exists nn', extends (out_head_seq o) nn nn' /\ out_inv ls nn' S o' /\ out_head_seq o' = out_head_seq o + 1 /\ out_tail_seq o' = out_tail_seq o.
Proof.
  intros [Hok Htodo Hlen Hcell Hnon Hdig] Hmsg Hroom H64 o'.
  destruct (pack_one_spec ls trigger rnd rnd2 Hls msg o Hok Hmsg Hroom H64) as (cell & Hout & Htd & Hlive & Hcl & Hok' & Hh & Ht & nonce & Hn & Hd).
  fold o' in Hout, Htd, Hok', Hh, Ht, Hn, Hd. pose proof (oo_tail _ _ Hok) as Hwf.
  assert (Hnext : S !! Z.to_nat (out_head_seq o - 1) = Some (c_pkt cell)).
  { rewrite <- (Nat.add_0_r (Z.to_nat _)), <- lookup_drop, <- Htodo, Htd. done. }
  exists (fun q => if q =? out_head_seq o then nonce else nn q). split; [|split; [|done]].
  { intros q Hq. by rewrite (proj2 (Z.eqb_neq _ _)) by lia. }
  assert (Hne : forall q, out_tail_seq o <= q < out_head_seq o -> out_head_seq o mod MAX_SEND_ON_LINK <> q mod MAX_SEND_ON_LINK).
  { intros q Hq He%it_window_inj; lia. }
  split; rewrite ?Hh, ?Ht.
  - done.
  - replace (Z.to_nat (out_head_seq o + 1 - 1)) with (Z.to_nat (out_head_seq o - 1) + 1)%nat by lia.
    rewrite <- drop_drop, <- Htodo, Htd. done.
  - apply lookup_lt_Some in Hnext. lia.
  - intros q Hq. unfold ocell. rewrite Hout. destruct (decide (q = out_head_seq o)) as [->|].
    + rewrite lookup_insert_eq. done.
    + rewrite lookup_insert_ne by (apply Hne; lia). apply Hcell. lia.
  - intros q Hq. unfold ononce. rewrite Hn. destruct (Z.eqb_spec q (out_head_seq o)) as [->|].
    + by rewrite lookup_insert_eq.
    + rewrite lookup_insert_ne by (apply Hne; lia). apply Hnon. lia.
  - intros q Hq. unfold odigest. rewrite Hd. destruct (decide (q = out_head_seq o)) as [->|].
    + rewrite lookup_insert_eq. cbn [default from_option id]. replace (Z.to_nat (out_head_seq o)) with (Datatypes.S (Z.to_nat (out_head_seq o - 1))) by lia.
      cbn [dig]. rewrite (proj2 (Z.eqb_eq _ _)) by lia. f_equal. etrans; [apply (Hdig (out_head_seq o - 1)); lia|].
      apply dig_agree. intros k Hk. by rewrite (proj2 (Z.eqb_neq _ _)) by lia.
    + rewrite lookup_insert_ne by (apply Hne; lia). etrans; [apply (Hdig q); lia|].
      apply dig_agree. intros k Hk. by rewrite (proj2 (Z.eqb_neq _ _)) by lia.
Qed.

Lemma pack_loop_inv n : forall nn S o,
  out_inv ls nn S o -> Z.of_nat (length S) + 1 < 2 ^ 64 ->
  let o' := pack_loop ls trigger rnd rnd2 n o in
  exists nn', extends (out_head_seq o) nn nn' /\ out_inv ls nn' S o' /\ out_head_seq o <= out_head_seq o' /\ out_tail_seq o' = out_tail_seq o.
Proof.
  assert (Hstop : forall nn S o, out_inv ls nn S o -> exists nn', extends (out_head_seq o) nn nn' /\ out_inv ls nn' S o /\
    out_head_seq o <= out_head_seq o /\ out_tail_seq o = out_tail_seq o) by (intros nn S o H; exists nn; by split_and!).
  induction n as [|n IH]; intros nn S o Hinv H64; cbn [pack_loop]; [by apply Hstop|].
  destruct (out_message o) as [msg|] eqn:Hmsg; [|by apply Hstop].
  pose proof (oo_tail _ _ (oi_ok _ _ _ _ Hinv)) as Ht. pose proof (oi_len _ _ _ _ Hinv) as Hl.
  assert (out_head_seq o + 1 < 2 ^ 64).
  { destruct (Z.eq_dec (out_head_seq o - 1) (Z.of_nat (length S))) as [He|]; [|lia]. exfalso.
    pose proof (oi_todo _ _ _ _ Hinv) as Hd. rewrite drop_ge in Hd by lia. apply todo_nil in Hd. congruence. }
  rewrite u64_small by lia. destruct (Z.ltb_spec (out_head_seq o - out_tail_seq o) MAX_SEND_ON_LINK) as [Hlt|]; [|by apply Hstop].
  destruct (pack_one_inv nn S o msg Hinv Hmsg) as (nn1 & He1 & Hinv1 & Hh1 & Ht1); [lia|lia|].
  destruct (IH nn1 S (pack_one ls trigger rnd rnd2 msg o) Hinv1 H64) as (nn2 & He2 & Hinv2 & Hh2 & Ht2).
  exists nn2. split_and!; [|done|lia|lia]. intros q Hq. rewrite He2 by lia. apply He1. lia.
Qed.
End PackInv.

(** ** What sending leaves unchanged *)

(** Up to time stamps and marks of the cells. *)
Record out_sim (o o' : it_out) : Prop := {
  os_head : out_head_seq o' = out_head_seq o; os_tail : out_tail_seq o' = out_tail_seq o;
  os_nonce : out_nonce o' = out_nonce o; os_digest : out_nonce_digest o' = out_nonce_digest o;
  os_msg : out_message o' = out_message o; os_idx : out_frag_idx o' = out_frag_idx o; os_total : out_frag_total o' = out_frag_total o;
  os_cell : forall q, c_live (ocell o' q) = c_live (ocell o q) /\ c_pkt (ocell o' q) = c_pkt (ocell o q) /\ c_len (ocell o' q) = c_len (ocell o q) }.

Record rcv_sim (r r' : it_rcv) : Prop := {
  rs_nonce : in_nonce r' = in_nonce r; rs_digest : aru_nonce_digest r' = aru_nonce_digest r;
  rs_head : in_head_seq r' = in_head_seq r; rs_tail : in_tail_seq r' = in_tail_seq r; rs_msg : in_message r' = in_message r;
  rs_cell : forall q, i_flags (icell r' q) = i_flags (icell r q) /\ i_pkt (icell r' q) = i_pkt (icell r q) }.

Record quiet (l l' : it_link) : Prop := {
  qu_const : l_const l' = l_const l; qu_out : out_sim (l_out l) (l_out l'); qu_tcp : tcp_head_seq (l_snd l) <= tcp_head_seq (l_snd l');
  qu_rcv : rcv_sim (l_rcv l) (l_rcv l'); qu_dis : l_dis l' = l_dis l;
  qu_taken : taken (l_log l') = taken (l_log l); qu_del : delivered (l_log l') = delivered (l_log l) }.

#[export] Instance out_sim_preorder : PreOrder out_sim.
Proof.
  split; [intros o; by constructor|]. intros a b c [] []. constructor; try congruence.
  intros q. destruct (os_cell0 q) as (?&?&?), (os_cell1 q) as (?&?&?). split_and!; congruence.
Qed.

#[export] Instance rcv_sim_preorder : PreOrder rcv_sim.
Proof.
  split; [intros o; by constructor|]. intros a b c [] []. constructor; try congruence.
  intros q. destruct (rs_cell0 q), (rs_cell1 q). split; congruence.
Qed.

#[export] Instance quiet_preorder : PreOrder quiet.
Proof.
  split; [intros l; constructor; try done; lia|]. intros a b c [] []. constructor; try congruence; [by etrans|lia|by etrans].
Qed.

Lemma upd_cell_sim f i o :
  (forall c, c_live (f c) = c_live c /\ c_pkt (f c) = c_pkt c /\ c_len (f c) = c_len c) -> out_sim o (upd_cell f i o).
Proof.
  intros Hf. constructor; try done. intros q. unfold ocell, upd_cell. cbn [outgoing].
  destruct (decide (i mod MAX_SEND_ON_LINK = q mod MAX_SEND_ON_LINK)) as [->|]; [rewrite lookup_insert_eq; apply Hf|by rewrite lookup_insert_ne].
Qed.

Lemma icell_set i q c r : icell (set_icell i c r) q = if decide (i mod MAX_SEND_ON_LINK = q mod MAX_SEND_ON_LINK) then c else icell r q.
Proof.
  unfold icell, set_icell. cbn [incoming]. case_decide as H; [rewrite H; by rewrite lookup_insert_eq|by rewrite lookup_insert_ne].
Qed.

Lemma icell_mod i q r : i mod MAX_SEND_ON_LINK = q mod MAX_SEND_ON_LINK -> icell r i = icell r q.
Proof. unfold icell. by intros ->. Qed.

Lemma set_icell_sim i c r : i_flags c = i_flags (icell r i) -> i_pkt c = i_pkt (icell r i) -> rcv_sim r (set_icell i c r).
Proof.
  intros Hf Hp. constructor; try done. intros q. rewrite icell_set. case_decide as H; [|done]. by rewrite <- (icell_mod _ _ _ H).
Qed.

Lemma out_inv_sim ls nn S o o' : out_sim o o' -> out_inv ls nn S o -> out_inv ls nn S o'.
Proof.
  intros [Hh Ht Hn Hd Hm Hi Hto Hc] [Hok Htd Hl Hcell Hnon Hdig]. split.
  - destruct Hok as [A B C]. split; rewrite ?Hh, ?Ht, ?Hm, ?Hi, ?Hto; done.
  - unfold todo in *. by rewrite Hm, Hto, Hi, Hh.
  - by rewrite Hh.
  - intros q Hq. rewrite Hh, Ht in Hq. destruct (Hc q) as (-> & -> & ->). by apply Hcell.
  - intros q Hq. rewrite Hh, Ht in Hq. unfold ononce. rewrite Hn. by apply Hnon.
  - intros q Hq. rewrite Hh, Ht in Hq. unfold odigest. rewrite Hd. by apply Hdig.
Qed.

(** ** The invariant of one end *)
Section EndInv.
Context (cfg : it_conf).

(** The headers of the configuration fit into a packet, with one negative
    acknowledgement. *)
Record conf_ok : Prop := {
  co_cipher : 0 <= Cipher_Blk_Len cfg; co_hmac : 0 <= HMAC_Key_Len cfg;
  co_fit : 2 * Cipher_Blk_Len cfg + HMAC_Key_Len cfg <= 1396;
  co_ordered : Ordered_Delivery cfg = 1 }.
Context (Hcfg : conf_ok).

#[local] Notation ls := (Link_Header_Size cfg).

Lemma link_size : ls = 76 + 2 * Cipher_Blk_Len cfg + HMAC_Key_Len cfg.
Proof.
  destruct Hcfg. unfold Link_Header_Size, sizeof_packet_header, sizeof_intru_tol_pkt_tail, sizeof_nack. rewrite u16_small; lia.
Qed.

Lemma link_size_range : 0 <= ls <= MAX_PACKET_SIZE.
Proof. rewrite link_size. destruct Hcfg. unfold MAX_PACKET_SIZE. lia. Qed.

(** What the receiving side knows of the stream of the other end's messages. *)
Record rcv_inv (nnp : Z -> Z) (msgs : list (list (list Z))) (r : it_rcv) (del : list (list (list Z))) : Prop := {
  ri_tail : 1 <= in_tail_seq r <= in_head_seq r; ri_room : in_head_seq r <= in_tail_seq r + MAX_SEND_ON_LINK;
  ri_head : in_head_seq r - 1 <= Z.of_nat (length (stream ls msgs));
  ri_cell : forall q, in_tail_seq r <= q < in_tail_seq r + MAX_SEND_ON_LINK -> i_flags (icell r q) = RECVD_CELL ->
    q < in_head_seq r /\ default 0 (in_nonce r !! (q mod MAX_SEND_ON_LINK)) = nnp q /\
    exists el, stream ls msgs !! Z.to_nat (q - 1) = Some el /\ i_pkt (icell r q) = concat el;
  ri_digest : aru_nonce_digest r = dig nnp (Z.to_nat (in_tail_seq r - 1));
  ri_rx : rx_state ls msgs (Z.to_nat (in_tail_seq r - 1)) del (in_message r) }.

(** A packet on the wire. *)
Record pkt_ok (nn nnp : Z -> Z) (msgs : list (list (list Z))) (tcp_head in_tail : Z) (p : it_packet) : Prop := {
  po_seq : 0 <= p_link_seq p < tcp_head;
  po_data : 0 < p_link_seq p -> p_seq_nonce p = nn (p_link_seq p) /\
    exists el, stream ls msgs !! Z.to_nat (p_link_seq p - 1) = Some el /\ p_data p = concat el;
  po_aru : 0 <= p_aru p < in_tail;
  po_digest : p_aru_nonce p = dig nnp (Z.to_nat (p_aru p));
  po_nacks : p_ack_len p <= sizeof_packet_body }.

Definition offered (l : it_link) : list (list (list Z)) := concat (map fst (answers (l_dis l))).

Record end_inv (nn nnp : Z -> Z) (msgs : list (list (list Z))) (l : it_link) : Prop := {
  ei_out : out_inv ls nn (stream ls (taken (l_log l))) (l_out l);
  ei_tcp : out_tail_seq (l_out l) <= tcp_head_seq (l_snd l) <= out_head_seq (l_out l);
  ei_taken : Forall (msg_ok ls) (taken (l_log l));
  ei_offered : Forall (msg_ok ls) (offered l);
  ei_rcv : rcv_inv nnp msgs (l_rcv l) (delivered (l_log l));
  ei_wire : Forall (pkt_ok nn nnp (taken (l_log l)) (tcp_head_seq (l_snd l)) (in_tail_seq (l_rcv l))) (wire (l_log l)) }.

Lemma rcv_inv_sim nnp msgs r r' del : rcv_sim r r' -> rcv_inv nnp msgs r del -> rcv_inv nnp msgs r' del.
Proof.
  intros [Hn Hd Hh Ht Hm Hc] [A B C D E F]. split; rewrite ?Hn, ?Hd, ?Hh, ?Ht, ?Hm; try done.
  intros q Hq. destruct (Hc q) as [-> ->]. by apply D.
Qed.

Lemma nacks_loop_sim n t to avail i a nacks r :
  a = sizeof_intru_tol_pkt_tail + sizeof_nack * Z.of_nat (length nacks) -> a <= avail ->
  let '(nacks', r') := nacks_loop n t to avail i a nacks r in
  rcv_sim r r' /\ sizeof_intru_tol_pkt_tail + sizeof_nack * Z.of_nat (length nacks') <= avail.
Proof.
  revert i a nacks r. induction n as [|n IH]; intros i a nacks r Ha Hav; cbn [nacks_loop]; [by subst|].
  destruct (Z.ltb_spec avail (a + sizeof_nack)); [by subst|]. destruct (_ && _); [|by apply IH].
  specialize (IH (i + 1) (a + sizeof_nack) (nacks ++ [i]) (set_icell i (mk_incell (i_flags (icell r i)) (E_add_time t to) (i_pkt (icell r i))) r)).
  destruct (nacks_loop _ _ _ _ _ _ _ _) as [? r']. destruct IH as [IH1 IH2]; [rewrite length_app; cbn [length]; unfold sizeof_nack in *; lia|lia|].
  split; [|done]. etrans; [|exact IH1]. by apply set_icell_sim.
Qed.

(** A packet of the stream leaves room for a negative acknowledgement. *)
Lemma add_nacks_ret e bl l :
  0 <= bl -> bl + ls <= MAX_PACKET_SIZE ->
  exists nacks r', Add_IT_Nacks cfg e bl l = Ret (nacks, with_rcv r' l) /\ rcv_sim (l_rcv l) r' /\
    sizeof_intru_tol_pkt_tail + sizeof_nack * Z.of_nat (length nacks) <= sizeof_packet_body.
Proof.
  intros H0 Hbl. rewrite link_size in Hbl. destruct Hcfg as [? ? _ _]. unfold Add_IT_Nacks, MAX_PACKET_SIZE in *.
  rewrite (proj2 (Z.ltb_ge _ _)) by (unfold sizeof_packet_body, sizeof_intru_tol_pkt_tail, sizeof_nack; lia).
  match goal with |- context [nacks_loop ?n ?t ?to ?av ?i ?a ?ns ?r] => pose proof (nacks_loop_sim n t to av i a ns r) as H; destruct (nacks_loop n t to av i a ns r) as [nacks r'] end.
  destruct H as [Hs Hn]; [done|unfold sizeof_packet_body, sizeof_intru_tol_pkt_tail; lia|]. exists nacks, r'. split_and!; try done. unfold sizeof_packet_body in *. lia.
Qed.

Lemma pkt_ok_mono nn nnp msgs t it t' it' p : t <= t' -> it <= it' -> pkt_ok nn nnp msgs t it p -> pkt_ok nn nnp msgs t' it' p.
Proof. intros Ht Hi [A B C D]. split; try done; lia. Qed.

Lemma end_inv_quiet nn nnp msgs l l' ps :
  end_inv nn nnp msgs l -> quiet l l' -> tcp_head_seq (l_snd l') <= out_head_seq (l_out l) -> wire (l_log l') = wire (l_log l) ++ ps ->
  Forall (pkt_ok nn nnp (taken (l_log l)) (tcp_head_seq (l_snd l')) (in_tail_seq (l_rcv l))) ps -> end_inv nn nnp msgs l'.
Proof.
  intros [A B C D E F] [Hc Ho Ht Hr Hd Htk Hdl] Hle Hw Hps. split; unfold offered in *; rewrite ?Htk, ?Hdl, ?Hd; try done.
  - by eapply out_inv_sim.
  - rewrite (os_head _ _ Ho), (os_tail _ _ Ho). lia.
  - by eapply rcv_inv_sim.
  - rewrite Hw, (rs_tail _ _ Hr). apply Forall_app. split; [|done]. eapply Forall_impl; [exact F|]. intros p. by apply pkt_ok_mono.
Qed.

(** The packets this end makes carry its acknowledgement. *)
Lemma make_packet_ok nn nnp msgs l data seq nonce nacks t :
  end_inv nn nnp msgs l -> in_tail_seq (l_rcv l) < 2 ^ 64 -> 0 <= seq < t ->
  (0 < seq -> nonce = nn seq /\ exists el, stream ls (taken (l_log l)) !! Z.to_nat (seq - 1) = Some el /\ data = concat el) ->
  sizeof_intru_tol_pkt_tail + sizeof_nack * Z.of_nat (length nacks) <= sizeof_packet_body ->
  pkt_ok nn nnp (taken (l_log l)) t (in_tail_seq (l_rcv l)) (make_packet data seq nonce nacks l).
Proof.
  intros [A B C D E F] H64 Hs Hd Hnk. destruct E as [E1 E2 E3 E4 E5 E6]. split; cbn [make_packet p_link_seq p_seq_nonce p_data p_aru p_aru_nonce]; try done.
  - rewrite u64_small by lia. lia.
  - by rewrite u64_small by lia.
Qed.

Definition env_ok (e : it_env) : Prop := no_link cfg e = false.

Lemma send_data_inv nn nnp msgs e seq l :
  env_ok e -> end_inv nn nnp msgs l -> in_tail_seq (l_rcv l) < 2 ^ 64 -> out_tail_seq (l_out l) <= seq < tcp_head_seq (l_snd l) ->
  exists r l', Send_IT_Data_Msg cfg e seq l = Ret (r, l') /\ end_inv nn nnp msgs l' /\ quiet l l' /\ l_out l' = l_out l /\ l_snd l' = l_snd l.
Proof.
  intros He Hinv H64 Hseq. unfold Send_IT_Data_Msg. rewrite He, orb_false_r.
  destruct (negb (network_flag e)); [by eexists _, l; split_and!|].
  pose proof (ei_tcp _ _ _ _ Hinv) as Htcp. pose proof (ei_out _ _ _ _ Hinv) as Ho.
  destruct (oi_cell _ _ _ _ Ho seq ltac:(lia)) as (Hlive & Hel & Hlen). fold (ocell (l_out l) seq). rewrite Hlive. cbn [negb].
  assert (Hfit : len (concat (c_pkt (ocell (l_out l) seq))) + ls <= MAX_PACKET_SIZE).
  { pose proof (stream_fit ls (taken (l_log l)) link_size_range (ei_taken _ _ _ _ Hinv)) as Hf. by eapply Forall_lookup_1 in Hf. }
  pose proof (len_nonneg (concat (c_pkt (ocell (l_out l) seq)))).
  destruct (add_nacks_ret e (c_len (ocell (l_out l) seq)) l) as (nacks & r' & -> & Hsim & Hnk); [lia|lia|]. cbn [mbind outcome_bind].
  assert (Hq : quiet l (with_rcv r' l)) by (constructor; try done).
  destruct (negb (sent e seq)).
  { eexists _, _. split; [done|]. split_and!; try done. eapply end_inv_quiet with (ps := []); try done; [cbn; lia|by rewrite app_nil_r]. }
  eexists _, _. split; [done|]. set (p := make_packet _ seq _ nacks l).
  assert (Hp : pkt_ok nn nnp (taken (l_log l)) (tcp_head_seq (l_snd l)) (in_tail_seq (l_rcv l)) p).
  { apply make_packet_ok with msgs; try done; [pose proof (oo_tail _ _ (oi_ok _ _ _ _ Ho)); lia|]. intros _.
    split; [apply (oi_nonce _ _ _ _ Ho); lia|]. by eexists. }
  assert (Hq2 : forall l2, l2 = emit p (with_rcv r' l) \/ l2 = queue_it e Ack_IT (it_ack_timeout cfg) (with_rcv (set_count 0 (l_rcv (emit p (with_rcv r' l)))) (emit p (with_rcv r' l))) ->
    quiet l (queue_it e Reliable_IT (it_reliable_timeout (l_const l)) l2) /\ wire (l_log (queue_it e Reliable_IT (it_reliable_timeout (l_const l)) l2)) = wire (l_log l) ++ [p] /\
    l_out (queue_it e Reliable_IT (it_reliable_timeout (l_const l)) l2) = l_out l /\ l_snd (queue_it e Reliable_IT (it_reliable_timeout (l_const l)) l2) = l_snd l).
  { intros l2 [->| ->]; (split; [|done]); constructor; try done; cbn. etrans; [exact Hsim|]. by constructor. }
  match goal with |- context [queue_it e Reliable_IT _ ?x] => destruct (Hq2 x) as (Hq3 & Hw & Ho3 & Hs3) end.
  { destruct (_ <? _); auto. }
  split_and!; try done. eapply end_inv_quiet with (ps := [p]); try done; [rewrite Hs3; lia|]. rewrite Hs3. by apply Forall_singleton.
Qed.

Lemma end_inv_local nn nnp msgs l l' :
  end_inv nn nnp msgs l -> quiet l l' -> tcp_head_seq (l_snd l') <= out_head_seq (l_out l) -> wire (l_log l') = wire (l_log l) -> end_inv nn nnp msgs l'.
Proof. intros Hi Hq Ht Hw. eapply end_inv_quiet with (ps := []); try done. by rewrite app_nil_r. Qed.

Lemma send_ack_inv nn nnp msgs e l :
  env_ok e -> end_inv nn nnp msgs l -> in_tail_seq (l_rcv l) < 2 ^ 64 ->
  exists r l', Send_IT_Ack cfg e l = Ret (r, l') /\ end_inv nn nnp msgs l' /\ quiet l l'.
Proof.
  intros He Hinv H64. unfold Send_IT_Ack. rewrite He, orb_false_r. destruct (negb (network_flag e)); [by eexists _, l; split_and!|].
  pose proof (ei_tcp _ _ _ _ Hinv) as Htcp. pose proof (oo_tail _ _ (oi_ok _ _ _ _ (ei_out _ _ _ _ Hinv))) as Ht.
  destruct (add_nacks_ret e 0 l) as (nacks & r' & -> & Hsim & Hnk); [lia|pose proof link_size_range; lia|]. cbn [mbind outcome_bind].
  destruct (negb (sent e 0)); eexists _, _; (split; [done|]).
  - assert (quiet l (with_rcv r' l)) by (constructor; try done). split; [|done]. eapply end_inv_local; try done. cbn; lia.
  - assert (Hq : quiet l (emit (make_packet [] 0 0 nacks l) (with_rcv r' l))) by (constructor; try done).
    split; [|done]. eapply end_inv_quiet with (ps := [make_packet [] 0 0 nacks l]); try done; [cbn; lia|].
    apply Forall_singleton. apply make_packet_ok with msgs; try done; cbn; lia.
Qed.

Lemma set_time_sim t i o : out_sim o (upd_cell (set_time t) i o).
Proof. by apply upd_cell_sim. Qed.

Lemma send_window_inv nn nnp msgs e stop n : forall j ret l,
  env_ok e -> end_inv nn nnp msgs l -> in_tail_seq (l_rcv l) < 2 ^ 64 -> j <= out_head_seq (l_out l) -> out_head_seq (l_out l) < 2 ^ 64 ->
  exists l', send_window cfg e stop n j ret l = Ret l' /\ end_inv nn nnp msgs l' /\ quiet l l'.
Proof.
  induction n as [|n IH]; intros j ret l He Hinv H64 Hj Hh; cbn [send_window]; [by exists l|].
  destruct (Z.ltb_spec (tcp_head_seq (l_snd l)) j) as [Hlt|]; cbn [andb]; [|by exists l].
  destruct (negb _); [|by exists l].
  pose proof (ei_tcp _ _ _ _ Hinv) as Htcp. pose proof (oo_tail _ _ (oi_ok _ _ _ _ (ei_out _ _ _ _ Hinv))) as Ht.
  set (l1 := with_out _ _). assert (Hq1 : quiet l l1).
  { constructor; try done; [apply set_time_sim|]. cbn. rewrite u64_small by lia. lia. }
  assert (Hinv1 : end_inv nn nnp msgs l1).
  { eapply end_inv_local; try done. cbn. rewrite u64_small by lia. lia. }
  destruct (send_data_inv nn nnp msgs e (tcp_head_seq (l_snd l)) l1) as (r & l2 & -> & Hinv2 & Hq2 & Ho2 & Hs2); try done.
  { cbn. rewrite u64_small by lia. lia. }
  cbn [mbind outcome_bind].
  destruct (IH j r l2) as (l3 & -> & Hinv3 & Hq3); try done.
  { by rewrite (rs_tail _ _ (qu_rcv _ _ Hq2)). } { by rewrite Ho2. } { by rewrite Ho2. }
  exists l3. split_and!; try done. by do 2 (etrans; [done|]).
Qed.

Lemma retransm_loop_inv nn nnp msgs e n : forall i l,
  env_ok e -> end_inv nn nnp msgs l -> in_tail_seq (l_rcv l) < 2 ^ 64 -> out_tail_seq (l_out l) <= i ->
  exists r l', retransm_loop cfg e n i l = Ret (r, l') /\ end_inv nn nnp msgs l' /\ quiet l l'.
Proof.
  induction n as [|n IH]; intros i l He Hinv H64 Hi; cbn [retransm_loop]; [by eexists _, l|].
  destruct (Z.ltb_spec i (tcp_head_seq (l_snd l))) as [Hlt|]; cbn [andb]; [|by eexists _, l].
  destruct (_ <? _); [|by eexists _, l]. destruct (_ && _); [|apply IH; try done; lia].
  pose proof (ei_tcp _ _ _ _ Hinv) as Htcp.
  set (l1 := with_out _ l). assert (Hq1 : quiet l l1) by (constructor; try done; by apply upd_cell_sim).
  assert (Hinv1 : end_inv nn nnp msgs l1) by (eapply end_inv_local; try done; cbn; lia).
  destruct (send_data_inv nn nnp msgs e i l1) as (r & l2 & -> & Hinv2 & Hq2 & Ho2 & Hs2); try done. cbn [mbind outcome_bind].
  set (l3 := with_snd _ l2). assert (Hq3 : quiet l2 l3) by (constructor; try done; cbn; lia).
  assert (Hinv3 : end_inv nn nnp msgs l3).
  { eapply end_inv_local; try done. cbn. rewrite Hs2, Ho2. cbn. lia. }
  destruct (IH (i + 1) l3) as (r' & l4 & -> & Hinv4 & Hq4); try done.
  { cbn. by rewrite (rs_tail _ _ (qu_rcv _ _ Hq2)). } { cbn. rewrite Ho2. cbn. lia. }
  eexists _, l4. split_and!; try done. by do 3 (etrans; [done|]).
Qed.

Lemma queue_quiet e h d l : quiet l (queue_it e h d l).
Proof. by constructor. Qed.

Lemma handle_retransm_inv nn nnp msgs e l :
  env_ok e -> end_inv nn nnp msgs l -> in_tail_seq (l_rcv l) < 2 ^ 64 ->
  exists l', Handle_IT_Retransm cfg e l = Ret l' /\ end_inv nn nnp msgs l' /\ quiet l l'.
Proof.
  intros He Hinv H64. unfold Handle_IT_Retransm. cbv zeta.
  match goal with |- context [retransm_loop cfg e _ _ ?x] => set (l1 := x) end.
  pose proof (ei_tcp _ _ _ _ Hinv) as Htcp.
  assert (Hq1 : quiet l l1 /\ l_out l1 = l_out l /\ wire (l_log l1) = wire (l_log l) /\ tcp_head_seq (l_snd l1) = tcp_head_seq (l_snd l) /\ l_rcv l1 = l_rcv l).
  { unfold l1. destruct (_ <=? 0); [|destruct (_ <=? _)]; (split; [|done]); [constructor; try done; cbn; lia|apply queue_quiet|done]. }
  destruct Hq1 as (Hq1 & Ho1 & Hw1 & Ht1 & Hr1).
  assert (Hinv1 : end_inv nn nnp msgs l1) by (eapply end_inv_local; try done; lia).
  destruct (retransm_loop_inv nn nnp msgs e (Z.to_nat (tcp_head_seq (l_snd l1) - out_tail_seq (l_out l1))) (out_tail_seq (l_out l1)) l1)
    as (r & l2 & -> & Hinv2 & Hq2); try done; [by rewrite Hr1|]. cbn [mbind outcome_bind].
  eexists. split; [done|]. destruct (_ <? _); [|split; [done|by etrans]].
  split; [|by etrans; [exact Hq1|etrans; [exact Hq2|apply queue_quiet]]].
  eapply end_inv_local; [exact Hinv2|apply queue_quiet|apply (ei_tcp _ _ _ _ Hinv2)|done].
Qed.

Lemma reliable_timeout_inv nn nnp msgs e l :
  env_ok e -> end_inv nn nnp msgs l -> in_tail_seq (l_rcv l) < 2 ^ 64 ->
  exists l', Reliable_IT_Timeout cfg e l = Ret l' /\ end_inv nn nnp msgs l' /\ quiet l l'.
Proof.
  intros He Hinv H64. unfold Reliable_IT_Timeout. pose proof (ei_tcp _ _ _ _ Hinv) as Htcp.
  destruct (Z.ltb_spec (out_tail_seq (l_out l)) (tcp_head_seq (l_snd l))) as [Hlt|]; [|by exists l].
  set (l1 := with_out _ l). assert (Hq1 : quiet l l1) by (constructor; try done; by apply upd_cell_sim).
  assert (Hinv1 : end_inv nn nnp msgs l1) by (eapply end_inv_local; try done; cbn; lia).
  destruct (send_data_inv nn nnp msgs e (tcp_head_seq (l_snd l) - 1) l1) as (r & l2 & -> & Hinv2 & Hq2 & Ho2 & Hs2); try done; [cbn; lia|].
  cbn [mbind outcome_bind]. eexists. split; [done|]. split; [|by etrans; [exact Hq1|etrans; [exact Hq2|apply queue_quiet]]].
  eapply end_inv_local; [exact Hinv2|apply queue_quiet|apply (ei_tcp _ _ _ _ Hinv2)|done].
Qed.

Lemma set_count_sim n r : rcv_sim r (set_count n r).
Proof. by constructor. Qed.

Lemma ack_timeout_inv nn nnp msgs e l :
  env_ok e -> end_inv nn nnp msgs l -> in_tail_seq (l_rcv l) < 2 ^ 64 ->
  exists l', Ack_IT_Timeout cfg e l = Ret l' /\ end_inv nn nnp msgs l' /\ quiet l l'.
Proof.
  intros He Hinv H64. unfold Ack_IT_Timeout. pose proof (ei_tcp _ _ _ _ Hinv) as Htcp.
  assert (Hset : forall n l, quiet l (with_rcv (set_count n (l_rcv l)) l)) by (intros; constructor; try done; cbn; lia).
  destruct (_ =? 0); [eexists; split; [done|]; split; [eapply end_inv_local; try done; cbn; lia|done]|].
  destruct (send_ack_inv nn nnp msgs e l) as (r & l2 & -> & Hinv2 & Hq2); try done. cbn [mbind outcome_bind].
  eexists. split; [done|]. assert (Hq3 : quiet l2 (queue_it e Ack_IT (it_ack_timeout cfg) (with_rcv (set_count 0 (l_rcv l2)) l2))) by (etrans; [apply Hset|apply queue_quiet]).
  split; [|by etrans]. eapply end_inv_local; try done. apply (ei_tcp _ _ _ _ Hinv2).
Qed.

Lemma mark_nacks_quiet ns : forall l,
  let l' := foldl mark_nack l ns in quiet l l' /\ wire (l_log l') = wire (l_log l) /\ l_snd l' = l_snd l /\ l_rcv l' = l_rcv l.
Proof.
  induction ns as [|n ns IH]; intros l; cbn [foldl]; [by split_and!|]. destruct (IH (mark_nack l n)) as (Hq & Hw & Hs & Hr).
  assert (H : quiet l (mark_nack l n) /\ wire (l_log (mark_nack l n)) = wire (l_log l) /\ l_snd (mark_nack l n) = l_snd l /\ l_rcv (mark_nack l n) = l_rcv l).
  { unfold mark_nack. destruct (_ && _); [|by split_and!]. split_and!; try done. constructor; try done. by apply upd_cell_sim. }
  destruct H as (Hq0 & Hw0 & Hs0 & Hr0). split_and!; [by etrans|congruence..].
Qed.

Lemma process_nacks_inv nn nnp msgs e p l :
  env_ok e -> end_inv nn nnp msgs l -> in_tail_seq (l_rcv l) < 2 ^ 64 ->
  exists r, process_nacks cfg e p l = Ret r /\ (p_ack_len p <= sizeof_packet_body -> r <> None) /\
    forall l', r = Some l' -> end_inv nn nnp msgs l' /\ quiet l l'.
Proof.
  intros He Hinv H64. unfold process_nacks. destruct (_ <? _); [|eexists; split; [done|]; split; [done|]; intros l' [= <-]; done].
  destruct (Z.ltb_spec sizeof_packet_body (p_ack_len p - sizeof_intru_tol_pkt_tail)); [eexists; split; [done|]; split; [unfold sizeof_intru_tol_pkt_tail in *; lia|done]|]. destruct (mark_nacks_quiet (p_nacks p) l) as (Hq & Hw & Hs & Hr). set (l1 := foldl _ _ _) in *.
  pose proof (ei_tcp _ _ _ _ Hinv) as Htcp. match goal with |- context [in_queue Retransm_IT ?x] => set (l2 := x) end.
  assert (Hq2 : quiet l l2 /\ wire (l_log l2) = wire (l_log l) /\ tcp_head_seq (l_snd l2) = tcp_head_seq (l_snd l) /\ l_rcv l2 = l_rcv l).
  { unfold l2. destruct (_ && _); [|by rewrite Hs]. cbn. rewrite Hs. split_and!; try done. etrans; [exact Hq|]. constructor; try done. cbn. rewrite Hs. lia. }
  destruct Hq2 as (Hq2 & Hw2 & Ht2 & Hr2). assert (Hinv2 : end_inv nn nnp msgs l2) by (eapply end_inv_local; try done; lia).
  destruct (in_queue Retransm_IT l2); cbn [mbind outcome_bind]; [eexists; split; [done|]; split; [done|]; by intros l' [= <-]|].
  destruct (handle_retransm_inv nn nnp msgs e l2) as (l3 & -> & Hinv3 & Hq3); try done; [by rewrite Hr2|]. cbn [mbind outcome_bind].
  eexists. split; [done|]. split; [done|]. intros l' [= <-]. split; [done|by etrans].
Qed.

(** ** Taking messages *)
Record evolves (nn nn' : Z -> Z) (l l' : it_link) : Prop := {
  ev_const : l_const l' = l_const l; ev_rcv : rcv_sim (l_rcv l) (l_rcv l'); ev_tail : out_tail_seq (l_out l') = out_tail_seq (l_out l);
  ev_head : out_head_seq (l_out l) <= out_head_seq (l_out l'); ev_tcp : tcp_head_seq (l_snd l) <= tcp_head_seq (l_snd l');
  ev_taken : taken (l_log l) `prefix_of` taken (l_log l'); ev_del : delivered (l_log l') = delivered (l_log l);
  ev_nn : extends (out_head_seq (l_out l)) nn nn' }.

Lemma quiet_evolves nn l l' : quiet l l' -> evolves nn nn l l'.
Proof.
  intros [Hc Ho Ht Hr Hd Htk Hdl]. split; try done; [apply Ho|rewrite (os_head _ _ Ho); lia|by rewrite Htk].
Qed.

Lemma evolves_refl nn l : evolves nn nn l l.
Proof. by apply quiet_evolves. Qed.

Lemma evolves_trans nn1 nn2 nn3 a b c : evolves nn1 nn2 a b -> evolves nn2 nn3 b c -> evolves nn1 nn3 a c.
Proof.
  intros [] []. split; try congruence; try lia; [by etrans|by etrans|]. intros q Hq. rewrite ev_nn1 by lia. by apply ev_nn0.
Qed.

(** The number of packets of the messages taken and offered. *)
Definition load (l : it_link) : nat := length (stream ls (taken (l_log l))) + length (stream ls (offered l)).

Lemma quiet_load l l' : quiet l l' -> load l' = load l.
Proof. intros [Hc Ho Ht Hr Hd Htk Hdl]. unfold load, offered. by rewrite Htk, Hd. Qed.

Lemma head_load nn nnp msgs l : end_inv nn nnp msgs l -> out_head_seq (l_out l) <= Z.of_nat (load l) + 1.
Proof. intros Hinv. pose proof (oi_len _ _ _ _ (ei_out _ _ _ _ Hinv)). unfold load. lia. Qed.

Lemma pkt_ok_evolve nn nn' nnp msgs more h t it p :
  extends h nn nn' -> t <= h -> pkt_ok nn nnp msgs t it p -> pkt_ok nn' nnp (msgs ++ more) t it p.
Proof.
  intros Hn Ht [A B C D]. split; try done. intros Hpos. destruct (B Hpos) as (Hno & el & Hel & Hd). split.
  - rewrite Hno. symmetry. apply Hn. lia.
  - exists el. split; [|done]. rewrite stream_app. by apply lookup_app_l_Some.
Qed.

(** A window that is done with its messages takes the next one. *)
Lemma take_message_inv nn S m o :
  out_inv ls nn S o -> out_message o = None -> msg_ok ls m ->
  out_inv ls nn (S ++ msg_packets ls m) (set_message (Some m) 1 (u8 (Z.of_nat (length m))) o).
Proof.
  intros [Hok Htd Hl Hc Hn Hd] Hnone [H99 Hfit]. unfold MAX_SCATTER_ELEMENTS in *. rewrite u8_small by lia.
  assert (Hend : Z.to_nat (out_head_seq o - 1) = length S).
  { apply (todo_nil ls) in Hnone. rewrite Hnone in Htd. symmetry in Htd. apply (f_equal length) in Htd. rewrite length_drop in Htd. cbn in Htd. lia. }
  split; cbn [set_message out_head_seq out_tail_seq].
  - destruct Hok as [A B C]. split; cbn; try done. intros msg [= <-]. split_and!; try done; unfold MAX_SCATTER_ELEMENTS; lia.
  - unfold todo. cbn. change (Z.to_nat (1 - 1)) with 0%nat. rewrite drop_0, Hend, drop_app_length. done.
  - rewrite length_app. lia.
  - intros q Hq. destruct (Hc q Hq) as (A & B & C). split_and!; try done. by apply lookup_app_l_Some.
  - done.
  - done.
Qed.

Lemma forward_inv nn nnp msgs e hok m l :
  env_ok e -> end_inv nn nnp msgs l -> in_tail_seq (l_rcv l) < 2 ^ 64 -> msg_ok ls m ->
  Z.of_nat (load l + length (msg_packets ls m)) + 2 < 2 ^ 64 ->
  exists r l' nn', Forward_Intru_Tol_Data cfg e hok m l = Ret (r, l') /\ end_inv nn' nnp msgs l' /\ evolves nn nn' l l' /\
    l_dis l' = l_dis l /\ (load l' <= load l + length (msg_packets ls m))%nat.
Proof.
  intros He Hinv H64 Hm Hload. unfold Forward_Intru_Tol_Data. rewrite He. cbn [orb].
  case_bool_decide as Hnone; cbn [orb]; [eexists _, l, nn; split; [done|]; split_and!; try done; try apply evolves_refl; lia|].
  destruct (_ <? _); cbn [orb]; [eexists _, l, nn; split; [done|]; split_and!; try done; try apply evolves_refl; lia|].
  destruct (negb hok); [eexists _, l, nn; split; [done|]; split_and!; try done; try apply evolves_refl; lia|].
  apply eq_None_not_Some in Hnone. pose proof (head_load _ _ _ _ Hinv) as Hhl.
  set (l1 := take_message m _). set (S := stream ls (taken (l_log l1))).
  assert (HS : S = stream ls (taken (l_log l)) ++ msg_packets ls m) by (unfold S, l1; cbn; apply stream_snoc).
  assert (Hout1 : out_inv ls nn S (l_out l1)) by (rewrite HS; apply take_message_inv; [apply Hinv|done|done]).
  unfold pack, Pack_Fragments_Into_Packets_IT. change ((Intrusion_Tolerance_Mode cfg =? 0) && negb (control e)) with (no_link cfg e). rewrite He.
  destruct (pack_loop_inv ls (Loss_Calc_Pkt_Trigger cfg) (rnd e) (rnd2 e) link_size_range (Z.to_nat MAX_SEND_ON_LINK) nn S (l_out l1) Hout1)
    as (nn2 & Hext & Hout2 & Hh2 & Ht2).
  { rewrite HS, length_app. unfold load in Hload. lia. }
  set (o2 := pack_loop _ _ _ _ _ _) in *. cbn [Z.eqb BUFF_OK BUFF_DROP].
  set (l2 := with_out o2 l1).
  assert (Hinv2 : end_inv nn2 nnp msgs l2).
  { destruct Hinv as [A B C D E F]. split; cbn [l2 l1 with_out take_message with_log l_out l_snd l_rcv l_dis l_log taken delivered wire]; try done.
    - rewrite Ht2. cbn in Hh2 |- *. lia.
    - apply Forall_app. split; [done|by apply Forall_singleton].
    - eapply Forall_impl; [exact F|]. intros p. apply pkt_ok_evolve with (out_head_seq (l_out l)); [done|lia]. }
  assert (Hev2 : evolves nn nn2 l l2).
  { split; try done. by exists [m]. }
  assert (Hload2 : (load l2 = load l + length (msg_packets ls m))%nat).
  { unfold load, offered. cbn [l2 l1 with_out take_message with_log l_dis l_log taken]. rewrite stream_snoc, length_app. lia. }
  match goal with |- context [window_end ?x] => set (l3 := x) end.
  assert (Hq3 : quiet l2 l3 /\ wire (l_log l3) = wire (l_log l2) /\ l_out l3 = o2 /\ l_snd l3 = l_snd l2 /\ l_rcv l3 = l_rcv l).
  { unfold l3. destruct (_ && _); by split_and!. }
  destruct Hq3 as (Hq3 & Hw3 & Ho3 & Hs3 & Hr3).
  assert (Hinv3 : end_inv nn2 nnp msgs l3) by (eapply end_inv_local; try done; rewrite Hs3; apply (ei_tcp _ _ _ _ Hinv2)).
  pose proof (head_load _ _ _ _ Hinv2) as Hhl2. rewrite Hload2 in Hhl2. cbn in Hhl2.
  match goal with |- context [send_window cfg e true ?n ?j ?ret l3] =>
    destruct (send_window_inv nn2 nnp msgs e true n j ret l3) as (l4 & -> & Hinv4 & Hq4) end; try done.
  { by rewrite Hr3. } { unfold window_end. lia. } { rewrite Ho3. lia. }
  cbn [mbind outcome_bind]. eexists _, l4, nn2. split; [done|]. split; [done|]. split; [|split].
  - eapply evolves_trans; [exact Hev2|]. apply quiet_evolves. by etrans.
  - by rewrite (qu_dis _ _ Hq4), (qu_dis _ _ Hq3).
  - rewrite (quiet_load _ _ Hq4), (quiet_load _ _ Hq3), Hload2. lia.
Qed.

Lemma evolves_in_tail nn nn' l l' : evolves nn nn' l l' -> in_tail_seq (l_rcv l') = in_tail_seq (l_rcv l).
Proof. intros H. apply (ev_rcv _ _ _ _ H). Qed.

Lemma forward_all_inv nnp msgs e ms : forall nn l,
  env_ok e -> end_inv nn nnp msgs l -> in_tail_seq (l_rcv l) < 2 ^ 64 -> Forall (msg_ok ls) ms ->
  Z.of_nat (load l + length (stream ls ms)) + 2 < 2 ^ 64 ->
  exists l' nn', forward_all cfg e ms l = Ret l' /\ end_inv nn' nnp msgs l' /\ evolves nn nn' l l' /\
    l_dis l' = l_dis l /\ (load l' <= load l + length (stream ls ms))%nat.
Proof.
  unfold forward_all. induction ms as [|m ms IH]; intros nn l He Hinv H64 Hok Hload; cbn [foldM].
  { exists l, nn. split_and!; try done; try apply evolves_refl; lia. }
  inversion_clear Hok as [|? ? Hm Hms]. rewrite stream_cons, length_app in Hload |- *.
  destruct (forward_inv nn nnp msgs e true m l) as (r & l1 & nn1 & -> & Hinv1 & Hev1 & Hd1 & Hl1); try done; [lia|]. cbn [mbind outcome_bind].
  destruct (IH nn1 l1) as (l2 & nn2 & -> & Hinv2 & Hev2 & Hd2 & Hl2); try done; [by rewrite (evolves_in_tail _ _ _ _ Hev1)|lia|].
  exists l2, nn2. split_and!; try done; [by eapply evolves_trans|congruence|lia].
Qed.

Lemma with_dis_inv nn nnp msgs d l :
  end_inv nn nnp msgs l -> Forall (msg_ok ls) (concat (map fst (answers d))) -> end_inv nn nnp msgs (with_dis d l) /\ evolves nn nn l (with_dis d l).
Proof. intros [A B C D E F] Hd. split; [by split|]. by split. Qed.

(** The bucket never holds more than its capacity. *)
Definition dis_ok (d : it_dis) : Prop := bucket d <= BUCKET_CAP /\ Forall (fun a => 0 <= snd a) (answers d).

Lemma assign_loop_inv nnp msgs e n : forall nn l,
  env_ok e -> end_inv nn nnp msgs l -> in_tail_seq (l_rcv l) < 2 ^ 64 -> Z.of_nat (load l) + 2 < 2 ^ 64 ->
  exists l' nn', assign_loop cfg e n l = Ret l' /\ end_inv nn' nnp msgs l' /\ evolves nn nn' l l' /\ (load l' <= load l)%nat /\
    (dis_ok (l_dis l) -> dis_ok (l_dis l')).
Proof.
  induction n as [|n IH]; intros nn l He Hinv H64 Hload; cbn [assign_loop].
  { exists l, nn. by split_and!. }
  destruct (dissem_queue (l_dis l)) as [|dissem queue] eqn:Hq; [exists l, nn; by split_and!|].
  destruct (_ || _); [exists l, nn; by split_and!|].
  destruct (next_answer (l_dis l)) as [ms ret] eqn:Hans. set (l1 := with_dis _ l).
  assert (Hoff : offered l = ms ++ offered l1).
  { unfold next_answer in Hans. unfold offered, l1. cbn. destruct (answers (l_dis l)); cbn; [by simplify_eq|]. by subst. }
  pose proof (ei_offered _ _ _ _ Hinv) as Hofo. rewrite Hoff in Hofo. apply Forall_app in Hofo as [Hms Hof1].
  destruct (with_dis_inv nn nnp msgs (l_dis l1) l Hinv Hof1) as [Hinv1 Hev1]. change (with_dis (l_dis l1) l) with l1 in *.
  assert (Hl1 : (load l1 + length (stream ls ms) = load l)%nat).
  { unfold load. change (taken (l_log l1)) with (taken (l_log l)). rewrite Hoff, stream_app, length_app. lia. }
  destruct (forward_all_inv nnp msgs e ms nn l1) as (l2 & nn2 & -> & Hinv2 & Hev2 & Hd2 & Hl2); try done; [lia|]. cbn [mbind outcome_bind].
  set (l3 := with_dis _ l2).
  assert (Hof3 : Forall (msg_ok ls) (concat (map fst (answers (l_dis l3))))) by apply (ei_offered _ _ _ _ Hinv2).
  destruct (with_dis_inv nn2 nnp msgs (l_dis l3) l2 Hinv2 Hof3) as [Hinv3 Hev3]. change (with_dis (l_dis l3) l2) with l3 in *.
  assert (Hl3 : load l3 = load l2) by done.
  assert (Hdis3 : dis_ok (l_dis l) -> dis_ok (l_dis l3)).
  { unfold dis_ok. cbn [l3 with_dis l_dis bucket answers]. rewrite Hd2. cbn [l1 with_dis l_dis bucket answers]. intros [Hb Ha].
    unfold next_answer in Hans. destruct (answers (l_dis l)) as [|[ms' ret'] ans]; cbn [tl] in *; simplify_eq; [by split; [lia|]|].
    inversion_clear Ha. cbn in *. split; [lia|done]. }
  destruct (IH nn2 l3) as (l4 & nn4 & -> & Hinv4 & Hev4 & Hl4 & Hdis4); try done.
  { by rewrite (evolves_in_tail _ _ _ _ Hev3), (evolves_in_tail _ _ _ _ Hev2). } { lia. }
  exists l4, nn4. split_and!; try done; [|lia|by auto]. eapply evolves_trans; [exact Hev1|]. eapply evolves_trans; [exact Hev2|]. by eapply evolves_trans.
Qed.

Lemma assign_inv nn nnp msgs e l :
  env_ok e -> end_inv nn nnp msgs l -> in_tail_seq (l_rcv l) < 2 ^ 64 -> Z.of_nat (load l) + 2 < 2 ^ 64 ->
  exists l' nn', Assign_Resources_IT cfg e l = Ret l' /\ end_inv nn' nnp msgs l' /\ evolves nn nn' l l' /\ (load l' <= load l)%nat /\
    (dis_ok (l_dis l) -> dis_ok (l_dis l')).
Proof.
  intros He Hinv H64 Hload. unfold Assign_Resources_IT. rewrite He.
  destruct (_ && _); [exists l, nn; by split_and!|]. cbv zeta. set (l1 := with_dis _ l).
  destruct (with_dis_inv nn nnp msgs (l_dis l1) l Hinv (ei_offered _ _ _ _ Hinv)) as [Hinv1 Hev1]. change (with_dis (l_dis l1) l) with l1 in *.
  match goal with |- context [assign_loop cfg e ?n l1] => destruct (assign_loop_inv nnp msgs e n nn l1) as (l2 & nn2 & -> & Hinv2 & Hev2 & Hl2 & Hdis2) end; try done.
  cbn [mbind outcome_bind]. match goal with |- context [queue_it e Fill_Bucket _ ?x] => set (l3 := x) end.
  destruct (with_dis_inv nn2 nnp msgs (l_dis l3) l2 Hinv2 (ei_offered _ _ _ _ Hinv2)) as [Hinv3 Hev3]. change (with_dis (l_dis l3) l2) with l3 in *.
  assert (Hev : evolves nn nn2 l l3) by (eapply evolves_trans; [exact Hev1|by eapply evolves_trans]).
  assert (Hl3 : (load l3 <= load l)%nat) by exact Hl2.
  eexists _, nn2. split; [done|]. 
  destruct ((bucket (l_dis l2) <? BUCKET_CAP) && negb (in_queue Fill_Bucket l2)); [|split; [exact Hinv3|split; [exact Hev|split; [exact Hl3|exact Hdis2]]]].
  split_and!; [|eapply evolves_trans; [exact Hev|apply quiet_evolves, queue_quiet]|done|exact Hdis2].
  eapply end_inv_local; [exact Hinv3|apply queue_quiet|apply (ei_tcp _ _ _ _ Hinv3)|done].
Qed.

Lemma request_inv nn nnp msgs e d l :
  env_ok e -> end_inv nn nnp msgs l -> in_tail_seq (l_rcv l) < 2 ^ 64 -> Z.of_nat (load l) + 2 < 2 ^ 64 -> d <> ROUTINGS ->
  exists r l' nn', Request_Resources_IT cfg e d l = Ret (r, l') /\ end_inv nn' nnp msgs l' /\ evolves nn nn' l l' /\ (load l' <= load l)%nat /\
    (dis_ok (l_dis l) -> dis_ok (l_dis l')).
Proof.
  intros He Hinv H64 Hload Hd. unfold Request_Resources_IT. rewrite He, orb_false_r.
  assert (Hrefl : forall r : Z, exists r' l' nn', Ret (r, l) = Ret (r', l') /\ end_inv nn' nnp msgs l' /\ evolves nn nn' l l' /\ (load l' <= load l)%nat /\
    (dis_ok (l_dis l) -> dis_ok (l_dis l'))) by (intros r; exists r, l, nn; by split_and!).
  destruct (Z.ltb_spec d 0); cbn [orb]; [apply Hrefl|]. destruct (Z.ltb_spec ROUTINGS d); [apply Hrefl|]. rewrite (proj2 (Z.leb_gt _ _)) by lia. cbv zeta.
  match goal with |- context [Full_Link_IT cfg e ?x] => set (l1 := x) end.
  assert (Hl1 : exists d1, l1 = with_dis d1 l /\ answers d1 = answers (l_dis l) /\ bucket d1 = bucket (l_dis l)).
  { unfold l1. case_bool_decide; [by exists (l_dis l); destruct l|by eexists]. }
  destruct Hl1 as (d1 & Hl1 & Ha1 & Hb1). rewrite Hl1. clear l1 Hl1. set (l1 := with_dis d1 l).
  assert (Hof : forall d', answers d' = answers (l_dis l) -> Forall (msg_ok ls) (concat (map fst (answers d')))) by (intros d' ->; apply (ei_offered _ _ _ _ Hinv)).
  destruct (with_dis_inv nn nnp msgs d1 l Hinv (Hof _ Ha1)) as [Hinv1 Hev1]. fold l1 in Hinv1, Hev1.
  assert (Hl1 : load l1 = load l) by (unfold load, offered; cbn; by rewrite Ha1).
  assert (Hdis1 : dis_ok (l_dis l) -> dis_ok (l_dis l1)) by (unfold dis_ok; cbn; by rewrite Ha1, Hb1).
  destruct (Full_Link_IT cfg e l1); [eexists _, l1, nn; split_and!; try done; lia|].
  set (l2 := with_dis _ l1). destruct (with_dis_inv nn nnp msgs (l_dis l2) l1 Hinv1 (Hof _ Ha1)) as [Hinv2 Hev2]. change (with_dis (l_dis l2) l1) with l2 in *.
  assert (Hl2 : load l2 = load l1) by done.
  destruct (assign_inv nn nnp msgs e l2) as (l3 & nn3 & -> & Hinv3 & Hev3 & Hl3 & Hdis3); try done; [lia|]. cbn [mbind outcome_bind].
  eexists _, l3, nn3. split; [done|]. split_and!; try done; [|lia|by auto]. eapply evolves_trans; [exact Hev1|by eapply evolves_trans].
Qed.

Lemma fill_inv nn nnp msgs e l :
  env_ok e -> end_inv nn nnp msgs l -> in_tail_seq (l_rcv l) < 2 ^ 64 -> Z.of_nat (load l) + 2 < 2 ^ 64 -> dis_ok (l_dis l) ->
  exists l' nn', Fill_Bucket_IT cfg e l = Ret l' /\ end_inv nn' nnp msgs l' /\ evolves nn nn' l l' /\ (load l' <= load l)%nat /\ dis_ok (l_dis l').
Proof.
  intros He Hinv H64 Hload Hdis. unfold Fill_Bucket_IT. rewrite (proj2 (Z.ltb_ge _ _)) by apply Hdis.
  destruct (_ =? _); [exists l, nn; by split_and!|]. cbv zeta. set (l1 := with_dis _ l).
  destruct (with_dis_inv nn nnp msgs (l_dis l1) l Hinv (ei_offered _ _ _ _ Hinv)) as [Hinv1 Hev1]. change (with_dis (l_dis l1) l) with l1 in *.
  set (l2 := queue_it _ _ _ l1). assert (Hq : quiet l1 l2) by apply queue_quiet.
  assert (Hinv2 : end_inv nn nnp msgs l2) by (eapply end_inv_local; [exact Hinv1|exact Hq|apply (ei_tcp _ _ _ _ Hinv1)|done]).
  assert (Hev2 : evolves nn nn l l2) by (eapply evolves_trans; [exact Hev1|by apply quiet_evolves]).
  assert (Hdis2 : dis_ok (l_dis l2)).
  { destruct Hdis. split; cbn; [lia|done]. }
  destruct (_ && _); [|exists l2, nn; by split_and!].
  destruct (assign_inv nn nnp msgs e l2) as (l3 & nn3 & -> & Hinv3 & Hev3 & Hl3 & Hdis3); try done.
  exists l3, nn3. split_and!; try done; [by eapply evolves_trans|by auto].
Qed.

(** ** Acknowledgements *)
Lemma grow_tcp s : tcp_head_seq (grow cfg s) = tcp_head_seq s.
Proof. unfold grow. by destruct (_ =? 1); [destruct (F32.ge _ _)|]. Qed.

Lemma cap_cwnd_tcp s : tcp_head_seq (cap_cwnd cfg s) = tcp_head_seq s.
Proof. unfold cap_cwnd. by destruct (_ && _). Qed.

Lemma loss_resolved_tcp a s : tcp_head_seq (loss_resolved cfg a s) = tcp_head_seq s.
Proof. unfold loss_resolved. destruct (_ && _); [|done]. by destruct (_ <? _). Qed.

Lemma release_loop_spec n : forall i l,
  let l' := release_loop cfg n i l in
  l_const l' = l_const l /\ l_rcv l' = l_rcv l /\ l_dis l' = l_dis l /\ l_log l' = l_log l /\ tcp_head_seq (l_snd l') = tcp_head_seq (l_snd l) /\
  out_head_seq (l_out l') = out_head_seq (l_out l) /\ out_nonce (l_out l') = out_nonce (l_out l) /\
  out_nonce_digest (l_out l') = out_nonce_digest (l_out l) /\ out_message (l_out l') = out_message (l_out l) /\
  out_frag_idx (l_out l') = out_frag_idx (l_out l) /\ out_frag_total (l_out l') = out_frag_total (l_out l) /\
  (forall q, (forall k, i <= k < i + Z.of_nat n -> k mod MAX_SEND_ON_LINK <> q mod MAX_SEND_ON_LINK) -> ocell (l_out l') q = ocell (l_out l) q).
Proof.
  induction n as [|n IH]; intros i l; cbn [release_loop]; [by split_and!|].
  destruct (IH (i + 1) (with_out (upd_cell release i (l_out l)) (with_snd (grow cfg (l_snd l)) l)))
    as (? & ? & ? & ? & Htcp & ? & ? & ? & ? & ? & ? & Hc).
  split_and!; try done.
  - etrans; [exact Htcp|apply grow_tcp].
  - intros q Hq. rewrite Hc by (intros k Hk; apply Hq; lia). unfold ocell. cbn. rewrite lookup_insert_ne by (apply Hq; lia). done.
Qed.

(** The window after an acknowledgement of everything up to [aru]. *)
Lemma release_inv nn S o aru f :
  out_inv ls nn S o -> out_tail_seq o <= aru < out_head_seq o -> out_head_seq f = out_head_seq o ->
  out_nonce f = out_nonce o -> out_nonce_digest f = out_nonce_digest o -> out_message f = out_message o ->
  out_frag_idx f = out_frag_idx o -> out_frag_total f = out_frag_total o ->
  (forall q, (forall k, out_tail_seq o <= k < aru + 1 -> k mod MAX_SEND_ON_LINK <> q mod MAX_SEND_ON_LINK) -> ocell f q = ocell o q) ->
  out_inv ls nn S (set_out_tail (aru + 1) f).
Proof.
  intros [Hok Htd Hl Hc Hn Hd] Haru Hh Hno Hdi Hm Hi Ht Hcell. destruct Hok as [A B C].
  split; cbn [set_out_tail out_head_seq out_tail_seq]; rewrite ?Hh.
  - split; cbn; rewrite ?Hh, ?Hm, ?Hi, ?Ht; try done; lia.
  - unfold todo in *. cbn. by rewrite Hm, Hi, Ht.
  - done.
  - intros q Hq. change (ocell (set_out_tail (aru + 1) f) q) with (ocell f q). rewrite Hcell; [apply Hc; lia|].
    intros k Hk He%it_window_inj; lia.
  - intros q Hq. unfold ononce. cbn. rewrite Hno. apply Hn. lia.
  - intros q Hq. unfold odigest. cbn. rewrite Hdi. apply Hd. lia.
Qed.

(** [process_aru] for any packet: one that is in the window moves the tail exactly
    when its digest is that of the nonces. *)
Lemma process_aru_inv nn nnp msgs e p l :
  env_ok e -> end_inv nn nnp msgs l -> in_tail_seq (l_rcv l) < 2 ^ 64 -> Z.of_nat (load l) + 2 < 2 ^ 64 ->
  let valid := (out_tail_seq (l_out l) <=? p_aru p) && (p_aru p <? tcp_head_seq (l_snd l)) in
  exists r, process_aru cfg e p l = Ret r /\
    match r with
    | None => valid = true /\ p_aru_nonce p <> dig nn (Z.to_nat (p_aru p))
    | Some l' =>
        (valid = true -> p_aru_nonce p = dig nn (Z.to_nat (p_aru p))) /\ (load l' <= load l)%nat /\ (dis_ok (l_dis l) -> dis_ok (l_dis l')) /\
        exists nn', end_inv nn' nnp msgs l' /\
          evolves nn nn' (with_out (set_out_tail (if valid then p_aru p + 1 else out_tail_seq (l_out l)) (l_out l)) l) l'
    end.
Proof.
  intros He Hinv H64 Hload valid. unfold process_aru. fold valid. pose proof (ei_tcp _ _ _ _ Hinv) as Htcp. pose proof (ei_out _ _ _ _ Hinv) as Ho.
  destruct valid eqn:Hv.
  2: { eexists. split; [done|]. split; [done|]. split; [done|]. split; [done|]. exists nn. split; [done|]. by split. }
  unfold valid in Hv. apply andb_true_iff in Hv as [Hlo%Z.leb_le Hhi%Z.ltb_lt].
  assert (Hdig : default 0 (out_nonce_digest (l_out l) !! (p_aru p mod MAX_SEND_ON_LINK)) = dig nn (Z.to_nat (p_aru p)))
    by (apply (oi_digest _ _ _ _ Ho); lia).
  rewrite Hdig. destruct (Z.eqb_spec (p_aru_nonce p) (dig nn (Z.to_nat (p_aru p)))) as [Heq|Hne]; cbn [negb]; [|by eexists; split].
  pose proof (oo_tail _ _ (oi_ok _ _ _ _ Ho)) as Ht1. pose proof (head_load _ _ _ _ Hinv) as Hhl.
  match goal with |- context [release_loop cfg ?n ?i ?x] => pose proof (release_loop_spec n i x) as Hrel; set (l1 := release_loop cfg n i x) in * end.
  cbn [with_snd l_const l_rcv l_dis l_log l_out l_snd] in Hrel. destruct Hrel as (Hc1 & Hr1 & Hd1 & Hlog1 & Ht & Hh & Hno & Hdi & Hm & Hi & Hto & Hcell).
  rewrite u64_small by lia. rewrite Z2Nat.id in Hcell by lia.
  set (l2 := with_out (set_out_tail (p_aru p + 1) (l_out l1)) _).
  assert (Htcp1 : tcp_head_seq (l_snd l2) = tcp_head_seq (l_snd l)).
  { etrans; [apply cap_cwnd_tcp|]. rewrite Ht. apply loss_resolved_tcp. }
  assert (Hinv2 : end_inv nn nnp msgs l2).
  { destruct Hinv as [A B C D E F]. split; unfold offered in *; cbn [l2 with_out with_snd l_const l_rcv l_dis l_log l_out]; rewrite ?Hr1, ?Hd1, ?Hlog1; try done.
    - apply release_inv with (l_out l); try done; [lia|]. intros q Hq. apply Hcell. intros k Hk. apply Hq. lia.
    - rewrite Htcp1. cbn. rewrite Hh. lia.
    - by rewrite Htcp1. }
  set (l0 := with_out (set_out_tail (p_aru p + 1) (l_out l)) l).
  assert (Hev2 : evolves nn nn l0 l2).
  { split; try done; cbn [l0 l2 with_out with_snd l_const l_rcv l_dis l_log l_out set_out_tail out_tail_seq out_head_seq].
    - by rewrite Hr1.
    - lia.
    - etrans; [|by apply Z.eq_le_incl, eq_sym, Htcp1]. done.
    - by rewrite Hlog1.
    - by rewrite Hlog1. }
  assert (Hload2 : load l2 = load l) by (unfold load, offered; cbn; by rewrite Hlog1, Hd1).
  match goal with |- context [send_window cfg e false ?n ?j ?ret l2] =>
    destruct (send_window_inv nn nnp msgs e false n j ret l2) as (l3 & -> & Hinv3 & Hq3) end; try done.
  { cbn. by rewrite Hr1. } { unfold window_end. lia. } { cbn. lia. }
  cbn [mbind outcome_bind]. unfold pack, Pack_Fragments_Into_Packets_IT.
  change ((Intrusion_Tolerance_Mode cfg =? 0) && negb (control e)) with (no_link cfg e). rewrite He.
  pose proof (quiet_load _ _ Hq3) as Hload3.
  destruct (pack_loop_inv ls (Loss_Calc_Pkt_Trigger cfg) (rnd e) (rnd2 e) link_size_range (Z.to_nat MAX_SEND_ON_LINK) nn
              (stream ls (taken (l_log l3))) (l_out l3) (ei_out _ _ _ _ Hinv3)) as (nn4 & Hext & Hout4 & Hh4 & Ht4).
  { unfold load in *. lia. }
  set (o4 := pack_loop _ _ _ _ _ _) in *. cbn [Z.eqb BUFF_OK BUFF_DROP Pos.eqb]. set (l4 := with_out o4 l3).
  assert (Hinv4 : end_inv nn4 nnp msgs l4).
  { destruct Hinv3 as [A B C D E F]. split; try done; [cbn; rewrite Ht4; lia|]. eapply Forall_impl; [exact F|]. intros pk Hpk.
    rewrite <- (app_nil_r (taken (l_log l4))). apply pkt_ok_evolve with nn (out_head_seq (l_out l3)); [done|cbn; lia|done]. }
  assert (Hev4 : evolves nn nn4 l3 l4) by (by split).
  assert (Hload4 : load l4 = load l3) by done.
  assert (Ht4' : in_tail_seq (l_rcv l4) = in_tail_seq (l_rcv l)).
  { cbn. rewrite (rs_tail _ _ (qu_rcv _ _ Hq3)). cbn. by rewrite Hr1. }
  destruct (assign_inv nn4 nnp msgs e l4) as (l5 & nn5 & -> & Hinv5 & Hev5 & Hload5 & Hdis5); try done; [by rewrite Ht4'|lia|]. cbn [mbind outcome_bind].
  eexists. split; [done|]. cbn beta iota. split; [done|].
  assert (Hev : evolves nn nn5 l0 l5).
  { eapply evolves_trans; [exact Hev2|]. eapply evolves_trans; [apply quiet_evolves; exact Hq3|]. by eapply evolves_trans. }
  assert (Hdis : dis_ok (l_dis l) -> dis_ok (l_dis l5)).
  { intros H. apply Hdis5. change (l_dis l4) with (l_dis l3). rewrite (qu_dis _ _ Hq3). change (l_dis l2) with (l_dis l1). by rewrite Hd1. }
  destruct ((Session_Blocking cfg =? 1) && _); [|split; [lia|split; [done|by exists nn5]]].
  assert (Hq6 : quiet l5 (call Resume_All_Sessions l5)) by (by constructor). split; [rewrite (quiet_load _ _ Hq6); lia|]. split; [done|]. exists nn5.
  split; [|eapply evolves_trans; [exact Hev|by apply quiet_evolves]].
  eapply end_inv_local; [exact Hinv5|exact Hq6|apply (ei_tcp _ _ _ _ Hinv5)|done].
Qed.
End EndInv.
