(* ===== verification/ITLinkRecv.v ===== *)
(** * ITLinkRecv: receiving on an intrusion-tolerant link

    [process_data] on a packet of the other end's stream: the receiving window
    keeps holding packets of that stream, and the messages delivered are those of
    the stream in order. *)
From Stdlib Require Import SpecFloat.
From stdpp Require Import base list gmap numbers option sets.
From Stdlib Require Import ZArith Lia.
From S2P Require Import Prelude CFloat Events NetTypes ITFrag ITFragProof ITBuildProof ITLink ITLinkProof.
#[local] Open Scope Z_scope.

Lemma mark_gap_spec n x : forall i r,
  let r' := mark_gap n x i r in
  in_nonce r' = in_nonce r /\ aru_nonce_digest r' = aru_nonce_digest r /\ in_head_seq r' = in_head_seq r /\ in_tail_seq r' = in_tail_seq r /\
  in_message r' = in_message r /\ incoming_msg_count r' = incoming_msg_count r /\
  (forall q, i_flags (icell r' q) = RECVD_CELL -> icell r' q = icell r q).
Proof.
  induction n as [|n IH]; intros i r; cbn [mark_gap]; [by split_and!|].
  destruct (IH (i + 1) (set_icell i (mk_incell NACK_CELL x (i_pkt (icell r i))) r)) as (? & ? & ? & ? & ? & ? & Hc).
  split_and!; try done. intros q Hq. rewrite Hc in * by done. rewrite icell_set in *. case_decide; [done|done].
Qed.

Definition tail_open (r : it_rcv) : Prop := i_flags (icell r (in_tail_seq r)) <> RECVD_CELL.

Lemma tail_open_sim r r' : rcv_sim r r' -> tail_open r -> tail_open r'.
Proof. intros Hs. unfold tail_open. rewrite (rs_tail _ _ Hs). by destruct (rs_cell _ _ Hs (in_tail_seq r)) as [-> _]. Qed.

(** The packet at the tail is stored without marking a gap. *)
Lemma store_tail e x p r :
  in_tail_seq r <= in_head_seq r -> p_link_seq p = in_tail_seq r -> in_tail_seq (store e x p r) = in_tail_seq r /\
  i_flags (icell (store e x p r) (in_tail_seq r)) = RECVD_CELL.
Proof.
  intros Hle Hp. unfold store. cbn [in_head_seq set_icell]. rewrite Hp. destruct (Z.leb_spec (in_head_seq r) (in_tail_seq r)).
  - replace (Z.to_nat (in_tail_seq r - in_head_seq r)) with O by lia. split; [done|]. cbn [mark_gap]. unfold icell at 1. cbn [set_in_head incoming set_icell].
    by rewrite lookup_insert_eq.
  - split; [done|]. unfold icell at 1. cbn [incoming set_icell]. by rewrite lookup_insert_eq.
Qed.

Section Receive.
Context (cfg : it_conf) (Hcfg : conf_ok cfg).
#[local] Notation ls := (Link_Header_Size cfg).

(** The receiving side with the messages delivered, without the rest. *)
Lemma store_inv nnp msgs e x p r del el :
  rcv_inv cfg nnp msgs r del -> in_tail_seq r <= p_link_seq p < in_tail_seq r + MAX_SEND_ON_LINK ->
  Z.of_nat (length (stream ls msgs)) + 2 < 2 ^ 64 ->
  p_seq_nonce p = nnp (p_link_seq p) -> stream ls msgs !! Z.to_nat (p_link_seq p - 1) = Some el -> p_data p = concat el ->
  let r' := store e x p r in
  rcv_inv cfg nnp msgs r' del /\ in_tail_seq r' = in_tail_seq r /\ in_head_seq r' = Z.max (in_head_seq r) (p_link_seq p + 1).
Proof.
  intros [A B C D E F] Hseq H64 Hn Hel Hd r'. set (seq := p_link_seq p) in *. pose proof (lookup_lt_Some _ _ _ Hel) as Hlt.
  set (r1 := mk_rcv (incoming (set_icell seq (mk_incell RECVD_CELL (i_expire (icell r seq)) (p_data p)) r))
               (<[seq mod MAX_SEND_ON_LINK := p_seq_nonce p]> (in_nonce r)) (aru_nonce_digest r) (in_head_seq r) (in_tail_seq r)
               (incoming_msg_count r) (in_message r)).
  set (h := Z.max (in_head_seq r) (seq + 1)).
  assert (Hr1 : forall q, in_tail_seq r <= q < in_tail_seq r + MAX_SEND_ON_LINK -> i_flags (icell r1 q) = RECVD_CELL ->
    q < h /\ default 0 (in_nonce r1 !! (q mod MAX_SEND_ON_LINK)) = nnp q /\
    exists el, stream ls msgs !! Z.to_nat (q - 1) = Some el /\ i_pkt (icell r1 q) = concat el).
  { intros q Hq. change (icell r1 q) with (icell (set_icell seq (mk_incell RECVD_CELL (i_expire (icell r seq)) (p_data p)) r) q).
    rewrite icell_set. cbn [r1 in_nonce]. case_decide as He.
    - apply it_window_inj in He as <-; [|lia]. intros _. rewrite lookup_insert_eq. split_and!; [lia|done|]. by exists el.
    - intros Hf. rewrite lookup_insert_ne by done. destruct (D q Hq Hf) as (? & ? & ?). split_and!; [lia|done|done]. }
  assert (Hr' : in_tail_seq r' = in_tail_seq r /\ in_head_seq r' = h /\ in_nonce r' = in_nonce r1 /\ aru_nonce_digest r' = aru_nonce_digest r /\
    in_message r' = in_message r /\ forall q, i_flags (icell r' q) = RECVD_CELL -> icell r' q = icell r1 q).
  { unfold r', store. fold seq r1. cbn [in_head_seq set_icell].
    change (mk_rcv _ _ _ _ _ _ _) with r1. destruct (Z.leb_spec (in_head_seq r) seq) as [Hle|Hgt].
    - destruct (mark_gap_spec (Z.to_nat (seq - in_head_seq r)) (E_add_time (now e) x) (in_head_seq r) r1) as (? & ? & ? & ? & ? & ? & Hc).
      split_and!; try done. cbn [set_in_head in_head_seq]. rewrite u64_small by lia. unfold h. lia.
    - split_and!; try done. cbn. unfold h. lia. }
  destruct Hr' as (Ht & Hh & Hno & Hdi & Hm & Hc). split; [|done].
  split; rewrite ?Ht, ?Hh, ?Hno, ?Hdi, ?Hm; try done; try lia.
  intros q Hq Hf. rewrite Hc in Hf |- * by done. by apply Hr1.
Qed.

(** One step of the tail. *)
Lemma advance_inv nnp msgs e n : forall l,
  rcv_inv cfg nnp msgs (l_rcv l) (delivered (l_log l)) -> Forall (msg_ok ls) msgs -> Z.of_nat (length (stream ls msgs)) + 2 < 2 ^ 64 ->
  in_head_seq (l_rcv l) - in_tail_seq (l_rcv l) < Z.of_nat n ->
  exists l', advance cfg e n l = Ret l' /\ rcv_inv cfg nnp msgs (l_rcv l') (delivered (l_log l')) /\
    in_tail_seq (l_rcv l) <= in_tail_seq (l_rcv l') /\ in_head_seq (l_rcv l') = in_head_seq (l_rcv l) /\
    l_const l' = l_const l /\ l_out l' = l_out l /\ l_snd l' = l_snd l /\ l_dis l' = l_dis l /\
    wire (l_log l') = wire (l_log l) /\ taken (l_log l') = taken (l_log l) /\
    tail_open (l_rcv l') /\ (~ tail_open (l_rcv l) -> in_tail_seq (l_rcv l) < in_tail_seq (l_rcv l')).
Proof.
  induction n as [|n IH]; intros l Hinv Hok H64 Hn; [pose proof (ri_tail _ _ _ _ _ Hinv); lia|]. cbn [advance].
  case_bool_decide as Hf; [|exists l; split; [done|]; split_and!; try done; lia].
  destruct Hinv as [A B C D E F]. set (i := in_tail_seq (l_rcv l)) in *.
  destruct (D i ltac:(unfold MAX_SEND_ON_LINK; lia) Hf) as (Hi & Hno & el & Hel & Hpk). pose proof (lookup_lt_Some _ _ _ Hel) as Hlt.
  rewrite Hno, Hpk, u64_small by lia. set (r1 := mk_rcv _ _ _ _ _ _ _).
  assert (Hdt : exists l2 m, deliver_tail cfg e (concat el) (with_rcv r1 l) = Ret l2 /\ l_rcv l2 = set_in_message m r1 /\
    rx_state ls msgs (Z.to_nat i) (delivered (l_log l2)) m /\
    l_const l2 = l_const l /\ l_out l2 = l_out l /\ l_snd l2 = l_snd l /\ l_dis l2 = l_dis l /\
    wire (l_log l2) = wire (l_log l) /\ taken (l_log l2) = taken (l_log l)).
  { unfold deliver_tail, in_order. rewrite (co_ordered _ Hcfg). cbn [Z.eqb Pos.eqb mbind outcome_bind].
    change (in_message (l_rcv (with_rcv r1 l))) with (in_message (l_rcv l)).
    destruct (rx_step ls (e_before e) msgs _ _ _ el Hok F Hel) as (ret & m' & -> & Hret). cbn [mbind outcome_bind].
    replace (Z.to_nat i) with (S (Z.to_nat (i - 1))) by lia.
    destruct Hret as [(-> & -> & Hrx)|[-> Hrx]]; cbn [Z.eqb Pos.eqb]; eexists _, _; (split; [done|]); by split_and!. }
  destruct Hdt as (l2 & m & -> & Hr2 & Hrx & Hc2 & Ho2 & Hs2 & Hd2 & Hw2 & Htk2). cbn [mbind outcome_bind]. rewrite Hr2.
  match goal with |- context [advance cfg e n ?x] => set (l3 := x) end.
  assert (Hr3 : in_tail_seq (l_rcv l3) = i + 1 /\ in_head_seq (l_rcv l3) = in_head_seq (l_rcv l) /\
    aru_nonce_digest (l_rcv l3) = Z.lxor (aru_nonce_digest (l_rcv l)) (nnp i) /\ in_message (l_rcv l3) = m /\
    in_nonce (l_rcv l3) = <[i mod MAX_SEND_ON_LINK := 0]> (in_nonce (l_rcv l)) /\ delivered (l_log l3) = delivered (l_log l2)) by done.
  assert (Hc3 : forall q, i mod MAX_SEND_ON_LINK <> q mod MAX_SEND_ON_LINK -> icell (l_rcv l3) q = icell (l_rcv l) q).
  { intros q Hq. cbn [l3 with_rcv l_rcv]. rewrite icell_set. by rewrite decide_False. }
  assert (Hc3' : forall q, i mod MAX_SEND_ON_LINK = q mod MAX_SEND_ON_LINK -> i_flags (icell (l_rcv l3) q) = EMPTY_CELL).
  { intros q Hq. cbn [l3 with_rcv l_rcv]. rewrite icell_set. by rewrite decide_True. }
  assert (Hl3 : l_const l3 = l_const l /\ l_out l3 = l_out l /\ l_snd l3 = l_snd l /\ l_dis l3 = l_dis l /\
    wire (l_log l3) = wire (l_log l) /\ taken (l_log l3) = taken (l_log l)) by (by split_and!).
  destruct Hl3 as (? & ? & ? & ? & ? & ?). destruct Hr3 as (Ht3 & Hh3 & Hd3 & Hm3 & Hn3 & Hdl3).
  destruct (IH l3) as (l4 & -> & Hinv4 & Ht4 & Hh4 & ? & ? & ? & ? & ? & ? & Hlast & _); try done; [|lia|].
  - split; rewrite ?Ht3, ?Hh3, ?Hd3, ?Hm3, ?Hn3, ?Hdl3; try lia.
    + intros q Hq Hfl. destruct (decide (i mod MAX_SEND_ON_LINK = q mod MAX_SEND_ON_LINK)) as [He|Hne]; [by rewrite Hc3' in Hfl|].
      rewrite Hc3 in Hfl |- * by done. rewrite lookup_insert_ne by done. apply D; [|done].
      assert (q <> i + MAX_SEND_ON_LINK); [|lia]. intros ->. apply Hne. unfold MAX_SEND_ON_LINK.
      replace (i + 500) with (i + 1 * 500) by lia. by rewrite Z_mod_plus_full.
    + replace (Z.to_nat (i + 1 - 1)) with (S (Z.to_nat (i - 1))) by lia. cbn [dig]. rewrite E, Z.lxor_comm. do 2 f_equal. lia.
    + by replace (i + 1 - 1) with i by lia.
  - exists l4. split; [done|]. split_and!; try done; try congruence; lia.
Qed.

(** A packet of the other end's stream. *)
Lemma process_data_inv nn nnp msgs e p l :
  end_inv cfg nn nnp msgs l -> Forall (msg_ok ls) msgs -> Z.of_nat (length (stream ls msgs)) + MAX_SEND_ON_LINK + 2 < 2 ^ 64 ->
  p_link_seq p < in_tail_seq (l_rcv l) + MAX_SEND_ON_LINK ->
  (0 < p_link_seq p -> p_seq_nonce p = nnp (p_link_seq p) /\
     exists el, stream ls msgs !! Z.to_nat (p_link_seq p - 1) = Some el /\ p_data p = concat el) ->
  exists r l', process_data cfg e p l = Ret (r, l') /\ end_inv cfg nn nnp msgs l' /\
    in_tail_seq (l_rcv l) <= in_tail_seq (l_rcv l') /\ in_head_seq (l_rcv l') <= Z.max (in_head_seq (l_rcv l)) (p_link_seq p + 1) /\
    l_const l' = l_const l /\ l_out l' = l_out l /\ l_snd l' = l_snd l /\ l_dis l' = l_dis l /\ taken (l_log l') = taken (l_log l) /\
    (tail_open (l_rcv l) -> tail_open (l_rcv l') /\ (p_link_seq p = in_tail_seq (l_rcv l) -> 0 < p_link_seq p -> in_tail_seq (l_rcv l) < in_tail_seq (l_rcv l'))).
Proof.
  intros Hinv Hok H64 Hwin Hgen. unfold process_data.
  destruct (Z.ltb_spec 0 (p_link_seq p)) as [Hpos|]; [|eexists _, l; split; [done|]; split_and!; done || lia || (intros; split; [done|lia])].
  destruct (Hgen Hpos) as (Hno & el & Hel & Hd). cbv zeta.
  set (l1 := with_rcv (set_count _ (l_rcv l)) l).
  match goal with |- context [in_tail_seq (l_rcv ?x)] => set (l2 := x) end.
  assert (Hl2 : rcv_sim (l_rcv l) (l_rcv l2) /\ l_const l2 = l_const l /\ l_out l2 = l_out l /\ l_snd l2 = l_snd l /\ l_dis l2 = l_dis l /\ l_log l2 = l_log l).
  { unfold l2. destruct (_ <=? _); split_and!; try done; by constructor. }
  destruct Hl2 as (Hr2 & Hc2 & Ho2 & Hs2 & Hd2 & Hlog2). pose proof (rcv_inv_sim cfg _ _ _ _ _ Hr2 (ei_rcv _ _ _ _ _ Hinv)) as Hrinv.
  assert (Hinv2 : end_inv cfg nn nnp msgs l2).
  { destruct Hinv as [A B C D E F]. split; unfold offered in *; rewrite ?Ho2, ?Hs2, ?Hd2, ?Hlog2, ?(rs_tail _ _ Hr2); try done. }
  pose proof (rs_tail _ _ Hr2) as Ht2. pose proof (rs_head _ _ Hr2) as Hh2.
  assert (Hstop : (tail_open (l_rcv l) -> p_link_seq p <> in_tail_seq (l_rcv l)) -> exists r l', Ret (1, l2) = Ret (r, l') /\ end_inv cfg nn nnp msgs l' /\
    in_tail_seq (l_rcv l) <= in_tail_seq (l_rcv l') /\ in_head_seq (l_rcv l') <= Z.max (in_head_seq (l_rcv l)) (p_link_seq p + 1) /\
    l_const l' = l_const l /\ l_out l' = l_out l /\ l_snd l' = l_snd l /\ l_dis l' = l_dis l /\ taken (l_log l') = taken (l_log l) /\
    (tail_open (l_rcv l) -> tail_open (l_rcv l') /\ (p_link_seq p = in_tail_seq (l_rcv l) -> 0 < p_link_seq p -> in_tail_seq (l_rcv l) < in_tail_seq (l_rcv l')))).
  { intros Hne. eexists _, l2. split; [done|]. rewrite Hlog2. split_and!; try done; try lia.
    intros Hop. split; [by eapply tail_open_sim|]. intros Heq. by destruct (Hne Hop). }
  pose proof (lookup_lt_Some _ _ _ Hel) as Hlt. pose proof (ri_tail _ _ _ _ _ Hrinv) as Htl. pose proof (ri_head _ _ _ _ _ Hrinv) as Hhd.
  destruct (Z.ltb_spec (p_link_seq p) (in_tail_seq (l_rcv l2))) as [|Hge]; [apply Hstop; lia|].
  rewrite u64_small by (unfold MAX_SEND_ON_LINK in *; lia). rewrite (proj2 (Z.leb_gt _ _)) by lia.
  case_bool_decide as Hdup; [apply Hstop; intros Hop%(tail_open_sim _ _ Hr2) Heq; apply Hop; by rewrite Ht2, <- Heq|].
  unfold deliver_unordered. rewrite (co_ordered _ Hcfg). cbn [Z.eqb mbind outcome_bind].
  destruct (store_inv nnp msgs e (it_initial_nack_timeout (l_const l2)) p (l_rcv l2) (delivered (l_log l)) el) as (Hst & Htst & Hhst); try done; [lia|unfold MAX_SEND_ON_LINK in *; lia|].
  set (l3 := with_rcv (store _ _ _ _) l2).
  destruct (advance_inv nnp msgs e (S (Z.to_nat MAX_SEND_ON_LINK)) l3) as (l4 & -> & Hinv4 & Ht4 & Hh4 & ? & ? & ? & ? & Hw4 & Htk4 & Hop4 & Hadv); try done.
  { cbn [l3 with_rcv l_rcv l_log]. by rewrite Hlog2. } { unfold MAX_SEND_ON_LINK in *. lia. } { pose proof (ri_room _ _ _ _ _ Hst). cbn [l3 with_rcv l_rcv]. lia. }
  cbn in Ht4, Hh4. cbn [mbind outcome_bind]. eexists _, l4. split; [done|].
  assert (Hlog : wire (l_log l4) = wire (l_log l) /\ taken (l_log l4) = taken (l_log l)) by (rewrite Hw4, Htk4; cbn; by rewrite Hlog2).
  assert (Hsame : l_const l4 = l_const l /\ l_out l4 = l_out l /\ l_snd l4 = l_snd l /\ l_dis l4 = l_dis l) by (split_and!; etrans; eassumption || done).
  destruct Hlog as [Hw Htk]. destruct Hsame as (Hc & Ho & Hs & Hds).
  split; [|split_and!; try done; try lia].
  2:{ intros _. split; [done|]. intros Heq _. rewrite <- Ht2 in *.
      destruct (store_tail e (it_initial_nack_timeout (l_const l2)) p (l_rcv l2) (proj2 Htl) Heq) as [Hst1 Hst2].
      enough (in_tail_seq (l_rcv l3) < in_tail_seq (l_rcv l4)) by (cbn in *; lia). apply Hadv. unfold tail_open. cbn [l3 with_rcv l_rcv]. rewrite Hst1, Hst2. auto. }
  destruct Hinv as [A B C D E F]. split; unfold offered in *; rewrite ?Ho, ?Hs, ?Hds, ?Hw, ?Htk; try done.
  eapply Forall_impl; [exact F|]. intros pk. apply pkt_ok_mono; lia.
Qed.
End Receive.
