(* ===== verification/ITLinkSys.v ===== *)
(** * ITLinkSys: two ends of an intrusion-tolerant link over a lossy network

    Two daemons with the same configuration run the handlers of [ITLink]; the
    network may lose, repeat and reorder packets, and sending may fail.  The
    events of the two ends, the messages offered by the dissemination protocols
    and what other links do to the shared counters come in any order. *)
From Stdlib Require Import SpecFloat.
From stdpp Require Import base list gmap numbers option sets relations.
From Stdlib Require Import ZArith Lia.
From S2P Require Import Prelude CFloat Events NetTypes ITFrag ITFragProof ITBuildProof ITLink ITLinkProof ITLinkRecv.
#[local] Open Scope Z_scope.

Definition offer (a : list (list (list Z)) * Z) (l : it_link) : it_link :=
  let d := l_dis l in
  with_dis (mk_dis (bucket d) (needed_tokens d) (dissem_queue d) (in_dissem_queue d) (processed d) (answers d ++ [a]) (last_filled d)) l.

Section Sys.
Context (cfg : it_conf).
#[local] Notation ls := (Link_Header_Size cfg).

(** Room for the sequence numbers of [n] more packets. *)
Definition seq_room (l : it_link) (n : nat) : Prop := Z.of_nat (load cfg l + n) + 600 < 2 ^ 64.

(** What one end may do; [inbox]: the packets the other end ever sent. *)
Inductive it_step (inbox : list it_packet) : it_link -> it_link -> Prop :=
| ItForward e hok m l r l' :
    env_ok cfg e -> msg_ok ls m -> seq_room l (length (msg_packets ls m)) ->
    Forward_Intru_Tol_Data cfg e hok m l = Ret (r, l') -> it_step inbox l l'
| ItOffer ms ret l : Forall (msg_ok ls) ms -> 0 <= ret -> seq_room l (length (stream ls ms)) -> it_step inbox l (offer (ms, ret) l)
| ItRequest e d l r l' : env_ok cfg e -> Request_Resources_IT cfg e d l = Ret (r, l') -> it_step inbox l l'
| ItFill e l l' : env_ok cfg e -> Fill_Bucket_IT cfg e l = Ret l' -> it_step inbox l l'
| ItReliable e l l' : env_ok cfg e -> Reliable_IT_Timeout cfg e l = Ret l' -> it_step inbox l l'
| ItAck e l l' : env_ok cfg e -> Ack_IT_Timeout cfg e l = Ret l' -> it_step inbox l l'
| ItRetransm e l l' : env_ok cfg e -> Handle_IT_Retransm cfg e l = Ret l' -> it_step inbox l l'
| ItReceive e p l l' : env_ok cfg e -> p ∈ inbox -> Process_intru_tol_packet cfg e p l = Ret l' -> it_step inbox l l'
| ItBurst c t l : it_step inbox l (with_snd (set_burst c t (l_snd l)) l)
| ItQueue q l : it_step inbox l (with_queue q l).

Inductive it_sys_step : it_link * it_link -> it_link * it_link -> Prop :=
| ItA a a' b : it_step (wire (l_log b)) a a' -> it_sys_step (a, b) (a', b)
| ItB a b b' : it_step (wire (l_log a)) b b' -> it_sys_step (a, b) (a, b').

Definition it_reachable (ca cb : it_const) (ta tb : sp_time) (s : it_link * it_link) : Prop :=
  rtc it_sys_step (new_it cfg ca ta, new_it cfg cb tb) s.

(** ** The invariant *)
Record it_flow (a b : it_link) : Prop := {
  if_tail : out_tail_seq (l_out a) <= in_tail_seq (l_rcv b);
  if_head : in_head_seq (l_rcv b) <= tcp_head_seq (l_snd a) }.

Record it_sys_inv (na nb : Z -> Z) (a b : it_link) : Prop := {
  is_a : end_inv cfg na nb (taken (l_log b)) a; is_b : end_inv cfg nb na (taken (l_log a)) b;
  is_ab : it_flow a b; is_ba : it_flow b a; is_la : seq_room a 0; is_lb : seq_room b 0;
  is_da : dis_ok (l_dis a); is_db : dis_ok (l_dis b);
  is_oa : tail_open (l_rcv a); is_ob : tail_open (l_rcv b) }.

Lemma it_sys_inv_sym na nb a b : it_sys_inv na nb a b -> it_sys_inv nb na b a.
Proof. intros []. by split. Qed.

(** What the other end knows stays true when this end goes on. *)
Lemma rcv_inv_peer nnp nnp' msgs more r del h :
  extends h nnp nnp' -> in_head_seq r <= h -> rcv_inv cfg nnp msgs r del -> rcv_inv cfg nnp' (msgs ++ more) r del.
Proof.
  intros Hn Hh [A B C D E F]. split; try done.
  - rewrite stream_app, length_app. lia.
  - intros q Hq Hf. destruct (D q Hq Hf) as (D1 & D2 & el & D3 & D4). split_and!; [done|rewrite D2; symmetry; apply Hn; lia|].
    exists el. split; [|done]. rewrite stream_app. by apply lookup_app_l_Some.
  - rewrite E. apply dig_agree. intros q Hq. symmetry. apply Hn. lia.
  - by apply rx_state_extend.
Qed.

Lemma end_inv_peer nn nnp nnp' msgs more l h :
  extends h nnp nnp' -> in_head_seq (l_rcv l) <= h -> end_inv cfg nn nnp msgs l -> end_inv cfg nn nnp' (msgs ++ more) l.
Proof.
  intros Hn Hh [A B C D E F]. split; try done; [by eapply rcv_inv_peer|].
  pose proof (ri_tail _ _ _ _ _ E) as Ht. eapply Forall_impl; [exact F|]. intros p [P1 P2 P3 P4 P5]. split; try done.
  rewrite P4. apply dig_agree. intros q Hq. symmetry. apply Hn. lia.
Qed.

Lemma in_tail_small na nb a b : it_sys_inv na nb a b -> in_tail_seq (l_rcv a) < 2 ^ 64.
Proof.
  intros [A B F1 F2 L1 L2 _ _ _ _]. pose proof (ri_tail _ _ _ _ _ (ei_rcv _ _ _ _ _ A)). pose proof (if_head _ _ F2).
  pose proof (ei_tcp _ _ _ _ _ B). pose proof (head_load _ _ _ _ _ B). unfold seq_room in *. lia.
Qed.

(** This end went on without receiving. *)
Lemma sys_evolve na na' nb a a' b :
  it_sys_inv na nb a b -> end_inv cfg na' nb (taken (l_log b)) a' -> evolves na na' a a' -> seq_room a' 0 -> dis_ok (l_dis a') -> it_sys_inv na' nb a' b.
Proof.
  intros [A B [F1 F2] [F3 F4] L1 L2 D1 D2 O1 O2] A' [Hc Hr Ht Hh Htc [more Hm] Hd Hn] L' D'. pose proof (ei_tcp _ _ _ _ _ A) as Htcp. split; try done.
  - rewrite Hm. eapply end_inv_peer; [exact Hn| |done]. lia.
  - split; [by rewrite Ht|lia].
  - split; [by rewrite (rs_tail _ _ Hr)|by rewrite (rs_head _ _ Hr)].
  - by eapply tail_open_sim.
Qed.

Lemma it_sys_quiet na nb a a' b :
  it_sys_inv na nb a b -> end_inv cfg na nb (taken (l_log b)) a' -> quiet a a' -> it_sys_inv na nb a' b.
Proof.
  intros Hs A' Hq. eapply sys_evolve; [done|done|by apply quiet_evolves| |].
  - unfold seq_room. rewrite (quiet_load _ _ _ Hq). apply Hs.
  - rewrite (qu_dis _ _ Hq). apply Hs.
Qed.

Lemma seq_room_le l l' : (load cfg l' <= load cfg l)%nat -> seq_room l 0 -> seq_room l' 0.
Proof. unfold seq_room. lia. Qed.

Context (Hcfg : conf_ok cfg).

Lemma seq_room_load l : seq_room l 0 -> Z.of_nat (load cfg l) + 2 < 2 ^ 64.
Proof. unfold seq_room. lia. Qed.

(** A packet of the other end is processed; its acknowledgement is accepted. *)
Lemma receive_inv na nb a b e p :
  it_sys_inv na nb a b -> env_ok cfg e -> p ∈ wire (l_log b) ->
  exists a' na', Process_intru_tol_packet cfg e p a = Ret a' /\ it_sys_inv na' nb a' b /\
    (p_incarnation p = ngbr_incarnation (l_const a) -> p_aru_incarnation p = my_incarnation (l_const a) ->
     (p_link_seq p = in_tail_seq (l_rcv a) -> in_tail_seq (l_rcv a) < in_tail_seq (l_rcv a')) /\
     p_aru p < out_tail_seq (l_out a')).
Proof.
  intros Hs He Hp. unfold Process_intru_tol_packet.
  destruct (Z.eqb_spec (p_incarnation p) (ngbr_incarnation (l_const a))); cbn [negb]; [|by exists a, na].
  destruct (Z.eqb_spec (p_aru_incarnation p) (my_incarnation (l_const a))); cbn [negb]; [|by exists a, na].
  pose proof (in_tail_small _ _ _ _ Hs) as H64. destruct Hs as [A B [F1 F2] [F3 F4] L1 L2 D1 D2 O1 O2].
  pose proof (ei_wire _ _ _ _ _ B) as Hw. rewrite Forall_forall in Hw. specialize (Hw p Hp). destruct Hw as [P1 P2 P3 P4 P5].
  unfold Process_IT_Ack.
  destruct (process_aru_inv cfg Hcfg na nb (taken (l_log b)) e p a He A H64 (seq_room_load _ L1)) as (r & -> & Hr). cbn [mbind outcome_bind].
  destruct r as [a1|]; [|destruct Hr as [_ Hr]; congruence]. destruct Hr as (_ & Hload1 & Hdis1 & na1 & A1 & Hev1).
  set (a0 := with_out _ a) in Hev1.
  assert (S1 : it_sys_inv na1 nb a1 b).
  { destruct Hev1 as [Hc Hr Ht Hh Htc [more Hm] Hd Hn]. pose proof (ei_tcp _ _ _ _ _ A) as Htcp.
    split; try done; [| | |by eapply seq_room_le|by auto|by eapply tail_open_sim].
    - rewrite Hm. eapply end_inv_peer; [exact Hn| |exact B]. cbn. lia.
    - split; [rewrite Ht; cbn; destruct (_ && _); lia|]. cbn in Htc. lia.
    - split; [by rewrite (rs_tail _ _ Hr)|by rewrite (rs_head _ _ Hr)]. }
  assert (H641 : in_tail_seq (l_rcv a1) < 2 ^ 64) by (by eapply in_tail_small).
  destruct (process_nacks_inv cfg Hcfg na1 nb (taken (l_log b)) e p a1 He A1 H641) as (r & -> & Hnone & Hr). cbn [mbind outcome_bind].
  destruct r as [a2|]; [|by exfalso; apply Hnone]. destruct (Hr _ eq_refl) as [A2 Hq2]. pose proof (it_sys_quiet _ _ _ _ _ S1 A2 Hq2) as S2.
  destruct S2 as [_ B2 [F5 F6] [F7 F8] L5 L6 D5 D6 O5 O6].
  pose proof (oo_room _ _ (oi_ok _ _ _ _ (ei_out _ _ _ _ _ B))) as Hroom. pose proof (ei_tcp _ _ _ _ _ B) as Htcpb.
  pose proof (ei_taken _ _ _ _ _ B) as Hmb.
  destruct (process_data_inv cfg Hcfg na1 nb (taken (l_log b)) e p a2 A2 Hmb) as (r & a3 & -> & A3 & Ht3 & Hh3 & Hc3 & Ho3 & Hs3 & Hd3 & Htk3 & Hop3).
  { unfold seq_room, load, MAX_SEND_ON_LINK in *. lia. } { lia. } { done. }
  cbn [mbind outcome_bind snd]. exists a3, na1. split; [done|]. destruct (Hop3 O5) as [O7 Hprog].
  split; [|intros _ _; split].
  1: split; rewrite ?Htk3, ?Hd3; try done.
  - split; rewrite ?Ho3, ?Hs3; done.
  - split; lia.
  - unfold seq_room, load, offered in *. rewrite Htk3, Hd3. done.
  - intros Hp3. pose proof (rs_tail _ _ (ev_rcv _ _ _ _ Hev1)) as Ht1. pose proof (rs_tail _ _ (qu_rcv _ _ Hq2)) as Ht2. cbn in Ht1.
    pose proof (ri_tail _ _ _ _ _ (ei_rcv _ _ _ _ _ A)). lia.
  - rewrite Ho3, (os_tail _ _ (qu_out _ _ Hq2)), (ev_tail _ _ _ _ Hev1). cbn.
    pose proof (ri_tail _ _ _ _ _ (ei_rcv _ _ _ _ _ B)). destruct (Z.leb_spec (out_tail_seq (l_out a)) (p_aru p)); cbn [andb]; [|lia].
    destruct (Z.ltb_spec (p_aru p) (tcp_head_seq (l_snd a))); lia.
Qed.

(** ** Every step keeps it *)
Lemma it_step_inv na nb a b a' :
  it_sys_inv na nb a b -> it_step (wire (l_log b)) a a' -> exists na', it_sys_inv na' nb a' b.
Proof.
  intros Hs Hstep. pose proof (in_tail_small _ _ _ _ Hs) as H64. pose proof (is_a _ _ _ _ Hs) as A. pose proof (seq_room_load _ (is_la _ _ _ _ Hs)) as Hl.
  destruct Hstep as [e hok m l r l' He Hm Hroom Hf|ms ret l Hms Hret Hroom|e d l r l' He Hf|e l l' He Hf|e l l' He Hf|e l l' He Hf|e l l' He Hf|e p l l' He Hp Hf|c t l|q l].
  - destruct (forward_inv cfg Hcfg na nb (taken (l_log b)) e hok m l) as (r' & l1 & na1 & Heq & A1 & Hev & Hd & Hload); try done; [unfold seq_room in *; lia|].
    rewrite Heq in Hf. simplify_eq. exists na1. eapply sys_evolve; try done; [unfold seq_room in *; lia|]. rewrite Hd. apply Hs.
  - exists na. destruct (with_dis_inv cfg na nb (taken (l_log b)) (l_dis (offer (ms, ret) l)) l A) as [A1 Hev].
    { cbn. rewrite map_app, concat_app. cbn. rewrite app_nil_r. apply Forall_app. split; [apply (ei_offered _ _ _ _ _ A)|done]. }
    change (with_dis (l_dis (offer (ms, ret) l)) l) with (offer (ms, ret) l) in *. eapply sys_evolve; try done.
    + unfold seq_room, load, offered in *. cbn [offer with_dis l_dis l_log answers]. rewrite map_app, concat_app. cbn [map fst concat].
      rewrite app_nil_r, stream_app, length_app. lia.
    + destruct (is_da _ _ _ _ Hs) as [Hb Ha]. split; [done|]. cbn. apply Forall_app. split; [done|by apply Forall_singleton].
  - destruct (decide (d = ROUTINGS)) as [->|Hd].
    { unfold Request_Resources_IT in Hf. rewrite He in Hf. cbn in Hf. done. }
    destruct (request_inv cfg Hcfg na nb (taken (l_log b)) e d l) as (r' & l1 & na1 & Heq & A1 & Hev & Hload & Hdis); try done.
    rewrite Heq in Hf. simplify_eq. exists na1. eapply sys_evolve; try done; [eapply seq_room_le; [done|apply Hs]|apply Hdis, Hs].
  - destruct (fill_inv cfg Hcfg na nb (taken (l_log b)) e l) as (l1 & na1 & Heq & A1 & Hev & Hload & Hdis); try done; [apply Hs|].
    rewrite Heq in Hf. simplify_eq. exists na1. eapply sys_evolve; try done. eapply seq_room_le; [done|apply Hs].
  - destruct (reliable_timeout_inv cfg Hcfg na nb (taken (l_log b)) e l) as (l1 & Heq & A1 & Hq); try done. rewrite Heq in Hf. simplify_eq.
    exists na. by eapply it_sys_quiet.
  - destruct (ack_timeout_inv cfg Hcfg na nb (taken (l_log b)) e l) as (l1 & Heq & A1 & Hq); try done. rewrite Heq in Hf. simplify_eq.
    exists na. by eapply it_sys_quiet.
  - destruct (handle_retransm_inv cfg Hcfg na nb (taken (l_log b)) e l) as (l1 & Heq & A1 & Hq); try done. rewrite Heq in Hf. simplify_eq.
    exists na. by eapply it_sys_quiet.
  - destruct (receive_inv na nb l b e p) as (l1 & na1 & Heq & S1 & _); try done. rewrite Heq in Hf. simplify_eq. by exists na1.
  - exists na. assert (Hq : quiet l (with_snd (set_burst c t (l_snd l)) l)) by (by constructor).
    eapply it_sys_quiet; try done. eapply end_inv_local; try done. apply (ei_tcp _ _ _ _ _ A).
  - exists na. assert (Hq : quiet l (with_queue q l)) by (by constructor).
    eapply it_sys_quiet; try done. eapply end_inv_local; try done. apply (ei_tcp _ _ _ _ _ A).
Qed.

Lemma new_it_inv c t msgs nn nnp : end_inv cfg nn nnp msgs (new_it cfg c t).
Proof.
  split; cbn [new_it l_out l_snd l_rcv l_log l_dis taken delivered wire]; [|cbn; lia|constructor|constructor| |constructor].
  - split; cbn; try done; try lia. intros q [?|Hq]; [lia|]. unfold LINK_START_SEQ in Hq. by subst.
  - split; try done; cbn; unfold LINK_START_SEQ; try lia.
    change (Z.to_nat (1 - 1)) with (length (stream ls [])). by apply RxBetween with msgs.
Qed.

Lemma it_reachable_inv ca cb ta tb s : it_reachable ca cb ta tb s -> exists na nb, it_sys_inv na nb s.1 s.2.
Proof.
  unfold it_reachable. intros Hr. remember (new_it cfg ca ta, new_it cfg cb tb) as s0 eqn:E0. assert (Hinit : exists na nb, it_sys_inv na nb s0.1 s0.2).
  { subst. exists (fun _ => 0), (fun _ => 0). split; cbn [fst snd]; try apply new_it_inv; try (split; cbn; lia); try (unfold seq_room, load, offered; cbn; lia); try (split; [cbn; unfold BUCKET_CAP, MAX_PACKET_SIZE; lia|constructor]); unfold tail_open, icell; cbn; by rewrite lookup_empty. }
  clear E0. induction Hr as [s|s1 s2 s3 Hstep _ IH]; [done|]. apply IH. destruct Hinit as (na & nb & Hi).
  destruct Hstep as [a a' b Hst|a b b' Hst]; cbn in *.
  - destruct (it_step_inv _ _ _ _ _ Hi Hst) as [na' ?]. by exists na', nb.
  - destruct (it_step_inv _ _ _ _ _ (it_sys_inv_sym _ _ _ _ Hi) Hst) as [nb' ?%it_sys_inv_sym]. by exists na, nb'.
Qed.
End Sys.
