(* ===== verification/ITLinkProps.v ===== *)
(** * ITLinkProps: what the intrusion-tolerant link promises

    The theorems about two ends of a link: messages are delivered whole, once and
    in order; no handler fails; the tail of either window moves when a packet gets
    through; acknowledgements need the nonces of what they acknowledge. *)
From Stdlib Require Import SpecFloat.
From stdpp Require Import base list gmap numbers option sets relations.
From Stdlib Require Import ZArith Lia.
From S2P Require Import Prelude CFloat Events NetTypes ITFrag ITFragProof ITBuildProof ITLink ITLinkProof ITLinkRecv ITLinkSys.
#[local] Open Scope Z_scope.

(** ** An example run *)
Module ExIT.
Definition cfg : it_conf := mk_itconf 1 1 0 1 3 10 1000 16 32 2 (mk_time 0 10000) (mk_time 0 1000) (mk_time 0 500).
Definition env (t : Z) : it_env := mk_env (mk_time t 0) (fun x => x * 7 + 1) (fun x => x * 11) true true (fun _ => true) [].
Definition short : sp_time := mk_time 0 100.
Definition ca : it_const := mk_const 1 5 6 short short short.
Definition cb : it_const := mk_const 2 6 5 short short short.
Definition a0 : it_link := new_it cfg ca (mk_time 0 0).
Definition b0 : it_link := new_it cfg cb (mk_time 0 0).
Definition msg : list (list Z) := [replicate 700 1; replicate 700 2; [3]].
Definition get (d : it_link) (r : outcome it_link) : it_link := match r with Ret l => l | _ => d end.
Definition get2 (d : it_link) (r : outcome (Z * it_link)) : it_link := match r with Ret (_, l) => l | _ => d end.

(** [a] forwards a message of two packets; [b] receives the second one only. *)
Definition a1 : it_link := get2 a0 (Forward_Intru_Tol_Data cfg (env 1) true msg a0).
Definition pk (i : nat) : it_packet := default (mk_pkt [] 0 0 0 0 0 0 []) (wire (l_log a1) !! i).
Definition b1 : it_link := get b0 (Process_intru_tol_packet cfg (env 2) (pk 1) b0).
Definition b2 : it_link := get b1 (Process_intru_tol_packet cfg (env 3) (pk 0) b1).

Lemma conf : conf_ok cfg.
Proof. split; vm_compute; congruence. Qed.

Lemma it_msg_fits : msg_ok (Link_Header_Size cfg) msg.
Proof. split; [vm_compute; reflexivity|]. repeat constructor. Qed.

Lemma reachable1 : it_reachable cfg ca cb (mk_time 0 0) (mk_time 0 0) (a1, b1).
Proof.
  unfold it_reachable. fold a0 b0. eapply rtc_l; [apply ItA, (ItForward cfg _ (env 1) true msg a0 BUFF_OK a1)|].
  - reflexivity.
  - apply it_msg_fits.
  - vm_compute. reflexivity.
  - vm_compute. reflexivity.
  - apply rtc_once, ItB, (ItReceive cfg _ (env 2) (pk 1)); [reflexivity| |vm_compute; reflexivity].
    apply list_elem_of_lookup. exists 1%nat. vm_compute. reflexivity.
Qed.

Lemma reachable2 : it_reachable cfg ca cb (mk_time 0 0) (mk_time 0 0) (a1, b2).
Proof.
  eapply rtc_r; [exact reachable1|]. apply ItB, (ItReceive cfg _ (env 3) (pk 0)); [reflexivity| |vm_compute; reflexivity].
  apply list_elem_of_lookup. exists 0%nat. vm_compute. reflexivity.
Qed.
End ExIT.

Section Props.
Context (cfg : it_conf).
#[local] Notation ls := (Link_Header_Size cfg).

(** ** Helpers *)

(** All packets of the stream were put together: so were all messages. *)
Lemma rx_state_complete msgs del m : rx_state ls msgs (length (stream ls msgs)) del m -> del = msgs.
Proof.
  assert (Hpk : forall x, msg_packets ls x <> []).
  { intros x Hx. apply (groups_not_nil ls x). unfold msg_packets in Hx. by destruct (groups ls x). }
  intros H. remember (length (stream ls msgs)) as k eqn:Hk. destruct H as [del rest Hm|del msg rest gs1 gs2 Hm Hg Hn1 Hn2].
  - subst. destruct rest as [|x rest]; [by rewrite app_nil_r|]. exfalso. rewrite stream_app, stream_cons, !length_app in Hk.
    specialize (Hpk x). destruct (msg_packets ls x); [done|]. cbn in Hk. lia.
  - exfalso. subst msgs. rewrite stream_app, stream_cons, !length_app in Hk. unfold msg_packets in Hk. rewrite length_packets_of, Hg, length_app in Hk.
    destruct gs2; [done|]. cbn in Hk. lia.
Qed.

Lemma send_data_emits e seq l :
  conf_ok cfg -> env_ok cfg e -> network_flag e = true -> sent e seq = true -> c_live (ocell (l_out l) seq) = true ->
  0 <= c_len (ocell (l_out l) seq) -> c_len (ocell (l_out l) seq) + ls <= MAX_PACKET_SIZE ->
  exists nacks l', Send_IT_Data_Msg cfg e seq l = Ret (BUFF_EMPTY, l') /\
    wire (l_log l') = wire (l_log l) ++ [make_packet (concat (c_pkt (ocell (l_out l) seq))) seq (ononce (l_out l) seq) nacks l].
Proof.
  intros Hcfg He Hnet Hsent Hlive Hlo Hhi. unfold Send_IT_Data_Msg. rewrite He, Hnet. cbn [negb orb].
  fold (ocell (l_out l) seq) (ononce (l_out l) seq). rewrite Hlive. cbn [negb].
  destruct (add_nacks_ret cfg Hcfg e _ l Hlo Hhi) as (nacks & r' & -> & _). cbn [mbind outcome_bind]. rewrite Hsent. cbn [negb].
  exists nacks. eexists. split; [done|]. by destruct (_ <? _).
Qed.

Lemma send_ack_emits e l :
  conf_ok cfg -> env_ok cfg e -> network_flag e = true -> sent e 0 = true ->
  exists nacks l', Send_IT_Ack cfg e l = Ret (BUFF_EMPTY, l') /\ wire (l_log l') = wire (l_log l) ++ [make_packet [] 0 0 nacks l].
Proof.
  intros Hcfg He Hnet Hsent. unfold Send_IT_Ack. rewrite He, Hnet. cbn [negb orb]. pose proof (link_size_range cfg Hcfg).
  destruct (add_nacks_ret cfg Hcfg e 0 l) as (nacks & r' & -> & _); [lia|lia|]. cbn [mbind outcome_bind]. rewrite Hsent. cbn [negb].
  exists nacks. by eexists.
Qed.
End Props.

(** ** The theorems *)

(** C12: over a network that loses, repeats and reorders packets, each end of an
    intrusion-tolerant link hands up exactly the messages the other end took, in
    the order it took them, fragment by fragment, without gaps or repetitions. *)
Theorem it_link_fifo (cfg : it_conf) (ca cb : it_const) (ta tb : sp_time) (a b : it_link) :
  conf_ok cfg -> it_reachable cfg ca cb ta tb (a, b) ->
  delivered (l_log b) `prefix_of` taken (l_log a) /\ delivered (l_log a) `prefix_of` taken (l_log b).
Proof.
  intros Hcfg Hr. destruct (it_reachable_inv cfg Hcfg _ _ _ _ _ Hr) as (na & nb & Hs). cbn [fst snd] in Hs.
  split; eapply rx_state_prefix, ri_rx, ei_rcv; [apply (is_b _ _ _ _ _ Hs)|apply (is_a _ _ _ _ _ Hs)].
Qed.

Lemma it_link_fifo_witness :
  delivered (l_log ExIT.b2) = [ExIT.msg] /\ delivered (l_log ExIT.b2) `prefix_of` taken (l_log ExIT.a1).
Proof.
  split; [vm_compute; reflexivity|]. exact (proj1 (it_link_fifo ExIT.cfg _ _ _ _ _ _ ExIT.conf ExIT.reachable2)).
Defined.

(** C31: for a configuration with ordered delivery whose headers fit a packet, no
    handler of an intrusion-tolerant link ends the process or leaves its buffers,
    whatever happened before, as long as the leg has the link to send on
    ([env_ok]) and sequence numbers are left: taking a message of at most 99
    fragments that fit a packet, serving a dissemination protocol whose number is
    not [ROUTINGS], filling the bucket, the three timeouts and processing any
    packet the other end ever sent.  The number [ROUTINGS] passes the test of
    [Request_Resources_IT] and indexes beyond the table. *)
Theorem it_link_never_fails (cfg : it_conf) (ca cb : it_const) (ta tb : sp_time) (a b : it_link) (e : it_env) :
  conf_ok cfg -> it_reachable cfg ca cb ta tb (a, b) -> env_ok cfg e ->
  (forall hok m, msg_ok (Link_Header_Size cfg) m -> seq_room cfg a (length (msg_packets (Link_Header_Size cfg) m)) ->
     exists r, Forward_Intru_Tol_Data cfg e hok m a = Ret r) /\
  (forall d, d <> ROUTINGS -> exists r, Request_Resources_IT cfg e d a = Ret r) /\ Request_Resources_IT cfg e ROUTINGS a = Fault /\
  (exists l, Fill_Bucket_IT cfg e a = Ret l) /\ (exists l, Reliable_IT_Timeout cfg e a = Ret l) /\
  (exists l, Ack_IT_Timeout cfg e a = Ret l) /\ (exists l, Handle_IT_Retransm cfg e a = Ret l) /\
  (forall p, p ∈ wire (l_log b) -> exists l, Process_intru_tol_packet cfg e p a = Ret l).
Proof.
  intros Hcfg Hr He. destruct (it_reachable_inv cfg Hcfg _ _ _ _ _ Hr) as (na & nb & Hs). cbn [fst snd] in Hs.
  pose proof (in_tail_small _ _ _ _ _ Hs) as H64. pose proof (is_a _ _ _ _ _ Hs) as A. pose proof (seq_room_load _ _ (is_la _ _ _ _ _ Hs)) as Hl.
  split_and!.
  - intros hok m Hm Hroom. destruct (forward_inv cfg Hcfg na nb (taken (l_log b)) e hok m a) as (r & l & _ & H & _); try done; [unfold seq_room in *; lia|]. by eexists.
  - intros d Hd. destruct (request_inv cfg Hcfg na nb (taken (l_log b)) e d a) as (r & l & _ & H & _); try done. by eexists.
  - unfold Request_Resources_IT. by rewrite He.
  - destruct (fill_inv cfg Hcfg na nb (taken (l_log b)) e a) as (l & _ & H & _); try done; [apply Hs|]. by exists l.
  - destruct (reliable_timeout_inv cfg Hcfg na nb (taken (l_log b)) e a) as (l & H & _); try done. by exists l.
  - destruct (ack_timeout_inv cfg Hcfg na nb (taken (l_log b)) e a) as (l & H & _); try done. by exists l.
  - destruct (handle_retransm_inv cfg Hcfg na nb (taken (l_log b)) e a) as (l & H & _); try done. by exists l.
  - intros p Hp. destruct (receive_inv cfg Hcfg na nb a b e p) as (l & _ & H & _); try done. by exists l.
Qed.

Lemma it_link_never_fails_witness :
  in_tail_seq (l_rcv ExIT.b1) < in_head_seq (l_rcv ExIT.b1) /\ exists l, Reliable_IT_Timeout ExIT.cfg (ExIT.env 9) ExIT.a1 = Ret l.
Proof.
  split; [vm_compute; reflexivity|].
  destruct (it_link_never_fails ExIT.cfg _ _ _ _ _ _ (ExIT.env 9) ExIT.conf ExIT.reachable1 eq_refl) as (_ & _ & _ & _ & H & _). exact H.
Defined.

(** C13: the link makes progress whatever was lost before.  The packet the other
    end waits for is still in the window; sent again and received, it moves the
    tail of the receiving window, so that the same packet is never missing again.
    An acknowledgement received moves the tail of the window to the tail of the
    receiving window.  When all packets were received and no message is half
    packed, all messages taken were delivered. *)
Theorem it_link_progress (cfg : it_conf) (ca cb : it_const) (ta tb : sp_time) (a b : it_link) (e e' : it_env) :
  conf_ok cfg -> it_reachable cfg ca cb ta tb (a, b) -> env_ok cfg e -> env_ok cfg e' ->
  network_flag e = true -> (forall q, sent e q = true) ->
  ngbr_incarnation (l_const a) = my_incarnation (l_const b) -> ngbr_incarnation (l_const b) = my_incarnation (l_const a) ->
  (in_tail_seq (l_rcv b) < tcp_head_seq (l_snd a) ->
     exists a' p b', Send_IT_Data_Msg cfg e (in_tail_seq (l_rcv b)) a = Ret (BUFF_EMPTY, a') /\ wire (l_log a') = wire (l_log a) ++ [p] /\
       Process_intru_tol_packet cfg e' p b = Ret b' /\ in_tail_seq (l_rcv b) < in_tail_seq (l_rcv b')) /\
  (exists b' p a', Send_IT_Ack cfg e b = Ret (BUFF_EMPTY, b') /\ wire (l_log b') = wire (l_log b) ++ [p] /\
     Process_intru_tol_packet cfg e' p a = Ret a' /\ in_tail_seq (l_rcv b) <= out_tail_seq (l_out a')) /\
  (in_tail_seq (l_rcv b) = out_head_seq (l_out a) -> out_message (l_out a) = None -> delivered (l_log b) = taken (l_log a)).
Proof.
  intros Hcfg Hr He He' Hnet Hsent Hia Hib. destruct (it_reachable_inv cfg Hcfg _ _ _ _ _ Hr) as (na & nb & Hs). cbn [fst snd] in Hs.
  pose proof (in_tail_small _ _ _ _ _ Hs) as H64a. pose proof (in_tail_small _ _ _ _ _ (it_sys_inv_sym _ _ _ _ _ Hs)) as H64b.
  pose proof (is_a _ _ _ _ _ Hs) as A. pose proof (is_b _ _ _ _ _ Hs) as B. pose proof (ei_out _ _ _ _ _ A) as Ho. pose proof (ei_tcp _ _ _ _ _ A) as Htcp.
  destruct (is_ab _ _ _ _ _ Hs) as [F1 F2]. pose proof (ri_tail _ _ _ _ _ (ei_rcv _ _ _ _ _ B)) as Ht.
  split_and!.
  - intros Hlt. destruct (oi_cell _ _ _ _ Ho (in_tail_seq (l_rcv b)) ltac:(lia)) as (Hlive & Hel & Hlen).
    pose proof (stream_fit _ _ (link_size_range cfg Hcfg) (ei_taken _ _ _ _ _ A)) as Hfit. rewrite Forall_forall in Hfit.
    specialize (Hfit _ (list_elem_of_lookup_2 _ _ _ Hel)). cbn in Hfit. rewrite <- Hlen in Hfit.
    destruct (send_data_emits cfg e (in_tail_seq (l_rcv b)) a) as (nacks & a' & Hsend & Hw); try done; [rewrite Hlen; apply len_nonneg|].
    destruct (send_data_inv cfg Hcfg na nb (taken (l_log b)) e (in_tail_seq (l_rcv b)) a) as (r & a1 & Hsend1 & A1 & Hq & _); [done|done|done|lia|].
    rewrite Hsend in Hsend1. simplify_eq. pose proof (it_sys_quiet _ _ _ _ _ _ Hs A1 Hq) as S1.
    match type of Hw with _ = _ ++ [?x] => set (p := x) in Hw end.
    destruct (receive_inv cfg Hcfg nb na b a1 e' p) as (b' & nb' & Hproc & _ & Hadv); [by apply it_sys_inv_sym|done|rewrite Hw; set_solver|].
    exists a1, p, b'. split_and!; try done. by apply Hadv.
  - destruct (send_ack_emits cfg e b) as (nacks & b' & Hsend & Hw); try done.
    destruct (send_ack_inv cfg Hcfg nb na (taken (l_log a)) e b) as (r & b1 & Hsend1 & B1 & Hq); try done.
    rewrite Hsend in Hsend1. simplify_eq. pose proof (it_sys_quiet _ _ _ _ _ _ (it_sys_inv_sym _ _ _ _ _ Hs) B1 Hq) as S1%it_sys_inv_sym.
    match type of Hw with _ = _ ++ [?x] => set (p := x) in Hw end.
    destruct (receive_inv cfg Hcfg na nb a b1 e' p) as (a' & na' & Hproc & _ & Hadv); [done|done|rewrite Hw; set_solver|].
    exists b1, p, a'. split_and!; try done. destruct Hadv as [_ Hadv]; [done|done|]. cbn in Hadv. rewrite u64_small in Hadv; lia.
  - intros Hall Hnone. apply (rx_state_complete cfg _ _ (in_message (l_rcv b))).
    pose proof (ri_rx _ _ _ _ _ (ei_rcv _ _ _ _ _ B)) as Hrx. replace (Z.to_nat (in_tail_seq (l_rcv b) - 1)) with (length (stream (Link_Header_Size cfg) (taken (l_log a)))) in Hrx; [done|].
    pose proof (oi_todo _ _ _ _ Ho) as Htodo. pose proof (oi_len _ _ _ _ Ho). unfold todo in Htodo. rewrite Hnone in Htodo.
    apply (f_equal length) in Htodo. rewrite length_drop in Htodo. cbn in Htodo. lia.
Qed.

Lemma it_link_progress_witness :
  in_tail_seq (l_rcv ExIT.b1) < tcp_head_seq (l_snd ExIT.a1) /\ delivered (l_log ExIT.b2) = taken (l_log ExIT.a1).
Proof.
  split; [vm_compute; reflexivity|].
  apply (it_link_progress ExIT.cfg _ _ _ _ _ _ (ExIT.env 9) (ExIT.env 9) ExIT.conf ExIT.reachable2); try reflexivity; vm_compute; reflexivity.
Defined.

(** C14: the window moves only for who saw the data.  An acknowledgement, from
    whomever, of packets in the window is refused without any effect unless it
    carries the exclusive or of the nonces of all packets up to the one it
    acknowledges, each of which travels only in its own packet; with it, the
    packets are released. *)
Theorem it_ack_needs_nonces (cfg : it_conf) (ca cb : it_const) (ta tb : sp_time) (a b : it_link) :
  conf_ok cfg -> it_reachable cfg ca cb ta tb (a, b) ->
  exists nonce : Z -> Z,
    (forall p, p ∈ wire (l_log a) -> 0 < p_link_seq p -> p_seq_nonce p = nonce (p_link_seq p)) /\
    (forall q, out_tail_seq (l_out a) <= q < out_head_seq (l_out a) -> ononce (l_out a) q = nonce q) /\
    forall e p, env_ok cfg e -> out_tail_seq (l_out a) <= p_aru p < tcp_head_seq (l_snd a) ->
      (p_aru_nonce p <> dig nonce (Z.to_nat (p_aru p)) -> Process_IT_Ack cfg e p a = Ret (1, a)) /\
      (p_aru_nonce p = dig nonce (Z.to_nat (p_aru p)) -> p_link_seq p = 0 -> p_nacks p = [] ->
         exists a', Process_IT_Ack cfg e p a = Ret (0, a') /\ out_tail_seq (l_out a') = p_aru p + 1).
Proof.
  intros Hcfg Hr. destruct (it_reachable_inv cfg Hcfg _ _ _ _ _ Hr) as (na & nb & Hs). cbn [fst snd] in Hs.
  pose proof (in_tail_small _ _ _ _ _ Hs) as H64. pose proof (is_a _ _ _ _ _ Hs) as A. exists na. split_and!.
  - intros p Hp Hpos. pose proof (ei_wire _ _ _ _ _ A) as Hw. rewrite Forall_forall in Hw. by apply (po_data _ _ _ _ _ _ _ (Hw p Hp)).
  - apply (oi_nonce _ _ _ _ (ei_out _ _ _ _ _ A)).
  - intros e p He Hwin. unfold Process_IT_Ack.
    destruct (process_aru_inv cfg Hcfg na nb (taken (l_log b)) e p a He A H64 (seq_room_load _ _ (is_la _ _ _ _ _ Hs))) as (r & -> & Hres). cbn [mbind outcome_bind].
    rewrite (proj2 (Z.leb_le _ _)), (proj2 (Z.ltb_lt _ _)) in Hres by lia. cbn [andb] in Hres.
    destruct r as [a1|].
    + destruct Hres as (Heq & _ & _ & na1 & _ & Hev). split; [intros Hne; by destruct Hne; apply Heq|]. intros _ Hz Hn.
      unfold process_nacks, p_ack_len. rewrite Hn. cbn [length Z.of_nat]. rewrite Z.mul_0_r, Z.add_0_r, Z.ltb_irrefl. cbn [mbind outcome_bind].
      unfold process_data. rewrite Hz, Z.ltb_irrefl. exists a1. split; [done|]. by rewrite (ev_tail _ _ _ _ Hev).
    + destruct Hres as [_ Hne]. by split.
Qed.

Lemma it_ack_needs_nonces_witness :
  exists nonce : Z -> Z, (forall p, p ∈ wire (l_log ExIT.a1) -> 0 < p_link_seq p -> p_seq_nonce p = nonce (p_link_seq p)) /\
    forall x, x <> dig nonce 2 -> Process_IT_Ack ExIT.cfg (ExIT.env 4) (mk_pkt [] 0 0 2 x 6 5 []) ExIT.a1 = Ret (1, ExIT.a1).
Proof.
  destruct (it_ack_needs_nonces ExIT.cfg _ _ _ _ _ _ ExIT.conf ExIT.reachable1) as (nonce & H1 & _ & H2).
  exists nonce. split; [exact H1|]. intros x Hx. apply (H2 (ExIT.env 4) (mk_pkt [] 0 0 2 x 6 5 []) eq_refl); [|exact Hx].
  split; vm_compute; congruence.
Defined.
