(* ===== verification/PrioFlood.v ===== *)
(** * PrioFlood: priority flooding (daemon/priority_flood.c)

    Messages of an intrusion-tolerant network are flooded by priority: a daemon
    remembers every message until it expires ([Belly]), keeps for each neighbour
    and each source the messages that neighbour still needs in queues by priority,
    and lets the sources take turns ([urgent], then [norm]); when a neighbour's
    queues hold too much, the source that uses most loses its oldest message of
    least priority.  A pointer to an entry of a belly is its source and key; a
    [Prio_PQ_Node] is the key in its list, its timestamp being the expiry of the
    entry, which never changes.  The lists linked by pointers are lists.  What the
    links below do is given: how often a request lets this protocol send and
    what each send is answered.  The signature check of OpenSSL is a boolean, path
    stamping (a debugging aid) is off, and the counters of
    [Priority_Print_Statistics] are left out.  Allocation succeeds. *)
From stdpp Require Import base list gmap numbers option sets.
From Stdlib Require Import ZArith Lia.
From S2P Require Import Prelude HashMap Events NetTypes MultiPath ITFrag.
#[local] Open Scope Z_scope.

Definition MAX_PRIORITY : Z := 10.
Definition MAX_NODES : Z := 50.
Definition NO_ROUTE : Z := 1.
Definition BUFF_EMPTY : Z := 2.
Definition sizeof_packet_header : Z := 20.

(** The configuration and what was computed from it at the start. *)
Record prio_conf := mk_pconf
  { My_Address : Z; Degree : Z; Neighbor_Addrs : Z -> Z; Node_Lookup : Z -> option Z; Link_Size : Z -> Z; Max_Mess_Stored : Z;
    Crypto : Z; Prio_Signature_Len : Z; Bitmask_Size : nat; Neighbor_Mask : Z -> list Z; prio_garb_coll_timeout : sp_time }.

(** ** Data *)
Inductive prio_flag := NEED_MSG | RECV_MSG | ON_LINK_MSG | DROPPED_MSG | EXPIRED_MSG | NOT_IN_MASK.
#[export] Instance prio_flag_eq_dec : EqDecision prio_flag.
Proof. solve_decision. Defined.

Definition prio_key : Type := (Z * Z)%type.

(** [Prio_Neighbor_Status]; [has_node]: the pointer to the node is not NULL. *)
Record ngbr_status := mk_ns { flag : prio_flag; has_node : bool }.

(** [Prio_Flood_Value]. *)
Record prio_val := mk_val
  { arrival : sp_time; expire : sp_time; origin_time : sp_time; seq_num : Z; priority : Z; need_count : Z; degree : Z;
    msg_scat : option (list (list Z)); msg_len : Z; link_mode : Z; ns : option (gmap Z ngbr_status) }.

(** [Prio_Link_Data]. *)
Record prio_link := mk_plink
  { total_msg : Z; msg_counts : gmap Z Z; in_send_queue : gset Z; max_pqs : gmap Z Z; min_pqs : gmap Z Z;
    pq : gmap (Z * Z) (list prio_key); norm : list (Z * Z); urgent : list (Z * Z); sent_messages : Z }.

Inductive prio_handler := Garbage_Collect.
#[export] Instance prio_handler_eq_dec : EqDecision prio_handler.
Proof. solve_decision. Defined.

(** [forwarded]: neighbour, source and key of what the links accepted. *)
Record prio := mk_prio
  { Belly : gmap Z (gmap prio_key prio_val); Node_Incarnation : gmap Z Z; Edge_Data : gmap Z prio_link; Seq_No : Z;
    total_dropped : Z; p_queue : list (@time_event prio_handler unit); forwarded : list (Z * Z * prio_key) }.

Definition belly (st : prio) (s : Z) : gmap prio_key prio_val := default ∅ (Belly st !! s).
Definition entry (st : prio) (s : Z) (k : prio_key) : option prio_val := belly st s !! k.
Definition msg_count (pl : prio_link) (s : Z) : Z := default 0 (msg_counts pl !! s).
Definition max_pq (pl : prio_link) (s : Z) : Z := default 0 (max_pqs pl !! s).
Definition min_pq (pl : prio_link) (s : Z) : Z := default (MAX_PRIORITY + 1) (min_pqs pl !! s).
Definition level (pl : prio_link) (s j : Z) : list prio_key := default [] (pq pl !! (s, j)).

Definition set_belly (b : gmap Z (gmap prio_key prio_val)) (st : prio) : prio :=
  mk_prio b (Node_Incarnation st) (Edge_Data st) (Seq_No st) (total_dropped st) (p_queue st) (forwarded st).
Definition set_entry (s : Z) (k : prio_key) (v : prio_val) (st : prio) : prio := set_belly (<[s := <[k := v]> (belly st s)]> (Belly st)) st.
Definition set_link (i : Z) (pl : prio_link) (st : prio) : prio :=
  mk_prio (Belly st) (Node_Incarnation st) (<[i := pl]> (Edge_Data st)) (Seq_No st) (total_dropped st) (p_queue st) (forwarded st).
Definition set_status (n : Z) (m : option (gmap Z ngbr_status)) (v : prio_val) : prio_val :=
  mk_val (arrival v) (expire v) (origin_time v) (seq_num v) (priority v) n (degree v) (msg_scat v) (msg_len v) (link_mode v) m.
Definition set_queues (nq uq : list (Z * Z)) (pl : prio_link) : prio_link :=
  mk_plink (total_msg pl) (msg_counts pl) (in_send_queue pl) (max_pqs pl) (min_pqs pl) (pq pl) nq uq (sent_messages pl).

(** The message is needed by nobody: its data and statuses are given back. *)
Definition discard (v : prio_val) : prio_val :=
  if need_count v =? 0
  then mk_val (arrival v) (expire v) (origin_time v) (seq_num v) (priority v) (need_count v) (degree v) None 0 (link_mode v) None
  else v.

(** [Init_Priority_Flooding]. *)
Definition fresh_link : prio_link := mk_plink 0 ∅ ∅ ∅ ∅ ∅ [] [] 0.
Definition Init_Priority_Flooding (cfg : prio_conf) (My_ID : Z) (now : sp_time) : prio :=
  mk_prio ∅ (<[My_ID := sec now]> ∅) (list_to_map (map (fun i => (i, fresh_link)) (seqZ 0 (Degree cfg + 1)))) 1 0
    (E_queue now Garbage_Collect 0 tt (prio_garb_coll_timeout cfg) []) [].

Definition Fill_Packet_Header_Best_Effort_Flood (My_ID : Z) (st : prio) : Z * Z * prio :=
  (default 0 (Node_Incarnation st !! My_ID), Seq_No st,
   mk_prio (Belly st) (Node_Incarnation st) (Edge_Data st) (u64 (Seq_No st + 1)) (total_dropped st) (p_queue st) (forwarded st)).

(** ** Cleaning up *)

(** The greatest level from [j] down, and the least from [j] up, with a message. *)
Fixpoint scan_down (n : nat) (pl : prio_link) (s j : Z) : Z :=
  match n with O => j | S n => if (1 <=? j) && bool_decide (level pl s j = []) then scan_down n pl s (j - 1) else j end.
Fixpoint scan_up (n : nat) (pl : prio_link) (s j : Z) : Z :=
  match n with O => j | S n => if (j <=? MAX_PRIORITY) && bool_decide (level pl s j = []) then scan_up n pl s (j + 1) else j end.

Definition set_range (s mx mn : Z) (pl : prio_link) : prio_link :=
  mk_plink (total_msg pl) (msg_counts pl) (in_send_queue pl) (<[s := mx]> (max_pqs pl)) (<[s := mn]> (min_pqs pl)) (pq pl) (norm pl) (urgent pl)
    (sent_messages pl).

(** The node of message [k] of source [s] leaves the queue of its level. *)
Definition unlink (s : Z) (k : prio_key) (lvl packets : Z) (pl : prio_link) : outcome prio_link :=
  let l := level pl s lvl in
  if bool_decide (k ∈ l) then
    let pl := mk_plink (u32 (total_msg pl - packets)) (<[s := u32 (msg_count pl s - packets)]> (msg_counts pl)) (in_send_queue pl) (max_pqs pl)
                (min_pqs pl) (<[(s, lvl) := filter (fun x => x <> k) l]> (pq pl)) (norm pl) (urgent pl) (sent_messages pl) in
    if bool_decide (list.last l = Some k) then
      if 0 <? msg_count pl s
      then Ret (set_range s (scan_down (Z.to_nat (max_pq pl s)) pl s (max_pq pl s))
                  (scan_up (Z.to_nat (MAX_PRIORITY + 1 - min_pq pl s)) pl s (min_pq pl s)) pl)
      else if msg_count pl s =? 0 then Ret (set_range s 0 (MAX_PRIORITY + 1) pl)
      else Exit
    else Ret pl
  else Fault.

(** The body of the loop over the neighbours. *)
Definition cleanup_one (s : Z) (k : prio_key) (packets : Z) (f : prio_flag) (st : prio) (i : Z) : outcome prio :=
  v ← or_else (entry st s k) Fault;
  if need_count v =? 0 then Ret st
  else
    statuses ← or_else (ns v) Fault;
    status ← or_else (statuses !! i) Fault;
    if has_node status then
      pl ← or_else (Edge_Data st !! i) Fault;
      pl ← unlink s k (priority v) packets pl;
      Ret (set_entry s k (set_status (u32 (need_count v - 1)) (Some (<[i := mk_ns f false]> statuses)) v) (set_link i pl st))
    else Ret st.

Definition packets_of_msg (cfg : prio_conf) (mode : Z) (m : list (list Z)) : Z := fst (Calculate_Packets_In_Message (Link_Size cfg mode) m).

Definition Cleanup_prio_flood_ds (cfg : prio_conf) (ngbr_index s : Z) (k : prio_key) (f : prio_flag) (st : prio) : outcome prio :=
  v ← or_else (entry st s k) Fault;
  if need_count v =? 0 then Ret st
  else
    m ← or_else (msg_scat v) Fault;
    st ← foldM (cleanup_one s k (packets_of_msg cfg (link_mode v) m) f) st
           (if bool_decide (f = EXPIRED_MSG) then seqZ 1 (Degree cfg) else [ngbr_index]);
    v ← or_else (entry st s k) Fault;
    Ret (set_entry s k (discard v) st).

(** ** Sending *)
Definition expired (now : sp_time) (v : prio_val) : bool := E_compare_time (expire v) now <=? 0.

(** The entry of the fair queue at the turn gets penalty [p]. *)
Definition set_penalty (p : Z) (pl : prio_link) : prio_link :=
  match urgent pl, norm pl with
  | (s, _) :: rest, _ => set_queues (norm pl) ((s, p) :: rest) pl
  | [], (s, _) :: rest => set_queues ((s, p) :: rest) [] pl
  | [], [] => pl
  end.
(** It goes to the back of the normal queue with penalty [p]. *)
Definition to_back (p : Z) (pl : prio_link) : prio_link :=
  match urgent pl, norm pl with
  | (s, _) :: rest, _ => set_queues (norm pl ++ [(s, p)]) rest pl
  | [], (s, _) :: rest => set_queues (rest ++ [(s, p)]) [] pl
  | [], [] => pl
  end.
(** It leaves the queues. *)
Definition leave (s : Z) (pl : prio_link) : prio_link :=
  mk_plink (total_msg pl) (msg_counts pl) (in_send_queue pl ∖ {[s]}) (max_pqs pl) (min_pqs pl) (pq pl) (tail (norm pl)) (urgent pl) (sent_messages pl).

Definition count_sent (pl : prio_link) : prio_link :=
  mk_plink (total_msg pl) (msg_counts pl) (in_send_queue pl) (max_pqs pl) (min_pqs pl) (pq pl) (norm pl) (urgent pl) (u64 (sent_messages pl + 1)).
Definition log_forward (i s : Z) (k : prio_key) (st : prio) : prio :=
  mk_prio (Belly st) (Node_Incarnation st) (Edge_Data st) (Seq_No st) (total_dropped st) (p_queue st) (forwarded st ++ [(i, s, k)]).

(** The turn of source [s]: its oldest message of greatest priority is dropped
    if it has expired ([inl]), or handed to the link, which answers [fwd]
    ([inr], with the bytes sent).  The penalty of the entry is 0 here, so
    putting it back to what it was makes it 1. *)
Definition send_turn (cfg : prio_conf) (now : sp_time) (mode fwd i s : Z) (pl : prio_link) (st : prio) : outcome (prio + Z * prio) :=
  match level pl s (max_pq pl s) with
  | [] => Exit
  | k :: _ =>
      v ← or_else (entry st s k) Fault;
      if expired now v then
        st ← Cleanup_prio_flood_ds cfg i s k EXPIRED_MSG st;
        pl ← or_else (Edge_Data st !! i) Fault;
        Ret (inl (set_link i (set_penalty 1 pl) st))
      else
        m ← or_else (msg_scat v) Fault;
        let pl := count_sent pl in
        if (fwd =? BUFF_EMPTY) || (fwd =? BUFF_OK) then
          let st := log_forward i s k (set_link i (to_back (packets_of_msg cfg mode m) pl) st) in
          st ← Cleanup_prio_flood_ds cfg i s k ON_LINK_MSG st;
          Ret (inr (msg_len v, st))
        else Ret (inr (0, set_link i (set_penalty 1 pl) st))
  end.

(** The loop of [Priority_Flood_Send_One]. *)
Fixpoint send_loop (cfg : prio_conf) (now : sp_time) (mode fwd i : Z) (n : nat) (st : prio) : outcome (Z * prio) :=
  match n with
  | O => Fault
  | S n =>
      pl ← or_else (Edge_Data st !! i) Fault;
      let turn s :=
        r ← send_turn cfg now mode fwd i s pl st;
        match r with inl st => send_loop cfg now mode fwd i n st | inr r => Ret r end in
      match urgent pl, norm pl with
      | (s, p) :: _, _ =>
          let p := u16 (p - 1) in
          if (0 <? p) || (msg_count pl s =? 0) then send_loop cfg now mode fwd i n (set_link i (to_back p pl) st) else turn s
      | [], (s, p) :: _ =>
          let p := u16 (p - 1) in
          if 0 <? p then send_loop cfg now mode fwd i n (set_link i (to_back p pl) st)
          else if msg_count pl s =? 0 then send_loop cfg now mode fwd i n (set_link i (leave s pl) st)
          else turn s
      | [], [] => Ret (0, st)
      end
  end.

(** Enough turns for the loop: one for every message queued, and for an entry of
    the fair queues as many as its penalty allows, which wraps around below 0. *)
Fixpoint sumZ {A} (f : A -> Z) (l : list A) : Z := match l with [] => 0 | x :: l => f x + sumZ f l end.
Definition messages (pl : prio_link) : Z := sumZ (fun s => sumZ (fun j => Z.of_nat (length (level pl s j))) (seqZ 1 MAX_PRIORITY)) (seqZ 1 MAX_NODES).
Definition norm_turns (p : Z) : Z := if p =? 0 then 65536 else p.
Definition turns (pl : prio_link) : Z :=
  messages pl + sumZ (fun _ => 65538) (urgent pl) + sumZ (fun e => norm_turns (snd e)) (norm pl).

(** The neighbour's index, 0 if the address is none of theirs. *)
Definition ngbr_index (cfg : prio_conf) (addr : Z) : Z := default 0 (list_find (fun i => Neighbor_Addrs cfg i = addr) (seqZ 1 (Degree cfg)) ≫= fun x => Some (snd x)).

Definition send_to (cfg : prio_conf) (now : sp_time) (mode fwd i : Z) (st : prio) : outcome (Z * prio) :=
  pl ← or_else (Edge_Data st !! i) Fault; send_loop cfg now mode fwd i (S (Z.to_nat (turns pl))) st.

Definition Priority_Flood_Send_One (cfg : prio_conf) (now : sp_time) (mode fwd nid : Z) (st : prio) : outcome (Z * prio) :=
  let i := ngbr_index cfg nid in if (1 <=? i) && (i <=? Degree cfg) then send_to cfg now mode fwd i st else Exit.

(** ** Receiving *)

(** A message with the fields of its [udp_header], of its [prio_flood_header] and
    the mask behind it, the length of element 0 and the other elements. *)
Record prio_msg := mk_pmsg
  { h_source : Z; h_dest : Z; h_len : Z; f_incarnation : Z; f_seq_num : Z; f_priority : Z; f_origin : sp_time; f_expire : sp_time;
    f_mask : list Z; m_hdr_len : Z; m_elems : list (list Z) }.

(** What the handler finds outside: the time when it starts and when it sends,
    the neighbours in [All_Nodes], the outcome of the signature check, and the
    requests to each neighbour's link: what each send is answered, and the
    result of the request. *)
Record prio_env := mk_penv { now : sp_time; later : sp_time; known : Z -> bool; signature_ok : bool; requests : Z -> list (list Z * Z) }.

Fixpoint request_loop (cfg : prio_conf) (e : prio_env) (mode i : Z) (reqs : list (list Z * Z)) (st : prio) : outcome prio :=
  match reqs with
  | [] => Ret st
  | (fwds, ret) :: reqs =>
      pl ← or_else (Edge_Data st !! i) Fault;
      match norm pl, urgent pl with
      | [], [] => Ret st
      | _, _ =>
          st ← foldM (fun st fwd => '(_, st) ← send_to cfg (later e) mode fwd i st; Ret st) st fwds;
          if ret =? 0 then Ret st else request_loop cfg e mode i reqs st
      end
  end.

(** The neighbour does not get the message: status [f]. *)
Definition no_send (s : Z) (k : prio_key) (f : prio_flag) (i : Z) (st : prio) : outcome prio :=
  v ← or_else (entry st s k) Fault;
  statuses ← or_else (ns v) Fault;
  Ret (set_entry s k (discard (set_status (u32 (need_count v - 1)) (Some (<[i := mk_ns f false]> statuses)) v)) st).

(** The message is put into the queues towards the neighbour. *)
Definition enqueue (cfg : prio_conf) (mode s : Z) (k : prio_key) (lvl i : Z) (st : prio) : outcome prio :=
  v ← or_else (entry st s k) Fault;
  statuses ← or_else (ns v) Fault;
  m ← or_else (msg_scat v) Fault;
  pl ← or_else (Edge_Data st !! i) Fault;
  let packets := packets_of_msg cfg mode m in
  let fair := bool_decide (s ∈ in_send_queue pl) in
  let pl := mk_plink (u32 (total_msg pl + packets)) (<[s := u32 (msg_count pl s + packets)]> (msg_counts pl)) ({[s]} ∪ in_send_queue pl)
              (<[s := Z.max (max_pq pl s) lvl]> (max_pqs pl)) (<[s := Z.min (min_pq pl s) lvl]> (min_pqs pl))
              (<[(s, lvl) := level pl s lvl ++ [k]]> (pq pl)) (norm pl) (if fair then urgent pl else urgent pl ++ [(s, 1)]) (sent_messages pl) in
  Ret (set_entry s k (set_status (need_count v) (Some (<[i := mk_ns NEED_MSG true]> statuses)) v) (set_link i pl st)).

(** The source that uses most, the first of them; 0 if there is none. *)
Definition hog (pl : prio_link) : Z :=
  fst (foldl (fun '(hog_index, max_usage) i =>
                if (0 <? msg_count pl i) && (max_usage <? msg_count pl i) then (i, msg_count pl i) else (hog_index, max_usage)) (0, 0) (seqZ 1 MAX_NODES)).

Definition evict (cfg : prio_conf) (i : Z) (st : prio) (ret : Z) : outcome (prio * Z) :=
  pl ← or_else (Edge_Data st !! i) Fault;
  if Max_Mess_Stored cfg <? total_msg pl then
    match level pl (hog pl) (min_pq pl (hog pl)) with
    | [] => Fault
    | k :: _ =>
        st ← Cleanup_prio_flood_ds cfg i (hog pl) k DROPPED_MSG st;
        Ret (mk_prio (Belly st) (Node_Incarnation st) (Edge_Data st) (Seq_No st) (u64 (total_dropped st + 1)) (p_queue st) (forwarded st), BUFF_DROP)
    end
  else Ret (st, ret).

(** A new message and one neighbour. *)
Definition offer_to (cfg : prio_conf) (e : prio_env) (mode : Z) (msg : prio_msg) (last_hop s : Z) (k : prio_key) (r : prio * Z) (i : Z) : outcome (prio * Z) :=
  let '(st, ret) := r in
  let addr := Neighbor_Addrs cfg i in
  if (addr =? last_hop) || (addr =? h_source msg) then st ← no_send s k RECV_MSG i st; Ret (st, ret)
  else if negb (MultiPath_Neighbor_On_Path (Bitmask_Size cfg) (f_mask msg) (Neighbor_Mask cfg i)) then st ← no_send s k NOT_IN_MASK i st; Ret (st, ret)
  else if h_dest msg =? My_Address cfg then st ← no_send s k DROPPED_MSG i st; Ret (st, ret)
  else
    st ← enqueue cfg mode s k (f_priority msg) i st;
    st ← (if known e i then request_loop cfg e mode i (requests e i) st else Ret st);
    evict cfg i st ret.

Definition msg_size (msg : prio_msg) : Z := m_hdr_len msg + sumZ len (m_elems msg).
Definition new_val (cfg : prio_conf) (e : prio_env) (mode : Z) (msg : prio_msg) : prio_val :=
  mk_val (now e) (f_expire msg) (f_origin msg) (f_seq_num msg) (f_priority msg) (Degree cfg) (Degree cfg) (Some (m_elems msg)) (msg_size msg) mode (Some ∅).

(** (1a) A new message. *)
Definition new_message (cfg : prio_conf) (e : prio_env) (mode : Z) (msg : prio_msg) (last_hop s : Z) (k : prio_key) (st : prio) : outcome (Z * prio) :=
  if expired (now e) (new_val cfg e mode msg) then Ret (NO_ROUTE, st)
  else if (f_priority msg =? 0) || (MAX_PRIORITY <? f_priority msg) then Ret (NO_ROUTE, st)
  else
    '(st, ret) ← foldM (offer_to cfg e mode msg last_hop s k) (set_entry s k (new_val cfg e mode msg) st, BUFF_OK) (seqZ 1 (Degree cfg));
    Ret (ret, st).

(** (1b) A duplicate, from neighbour [last] or from this daemon itself. *)
Definition duplicate (cfg : prio_conf) (src_link : option Z) (last s : Z) (k : prio_key) (v : prio_val) (st : prio) : outcome (Z * prio) :=
  match src_link with
  | None => Ret (NO_ROUTE, st)
  | Some _ =>
      if need_count v =? 0 then Ret (NO_ROUTE, st)
      else
        statuses ← or_else (ns v) Fault;
        status ← or_else (statuses !! last) Fault;
        match flag status with
        | RECV_MSG | DROPPED_MSG | EXPIRED_MSG | ON_LINK_MSG => Ret (NO_ROUTE, st)
        | NEED_MSG => st ← Cleanup_prio_flood_ds cfg last s k RECV_MSG st; Ret (NO_ROUTE, st)
        | NOT_IN_MASK => Exit
        end
  end.

(** [src_link]: the address at the other end of the link the message came over. *)
Definition Priority_Flood_Disseminate (cfg : prio_conf) (e : prio_env) (src_link : option Z) (mode : Z) (msg : prio_msg) (st : prio) : outcome (Z * prio) :=
  let last_hop := default (My_Address cfg) src_link in
  let last := match src_link with Some a => ngbr_index cfg a | None => 0 end in
  if match src_link with Some a => bool_decide (Node_Lookup cfg a = None) || (last =? 0) | None => false end then Ret (NO_ROUTE, st)
  else if negb (msg_size msg =? sizeof_packet_header + sizeof_udp_header + h_len msg + sizeof_prio_flood_header + Z.of_nat (Bitmask_Size cfg)
                                + Prio_Signature_Len cfg) then Ret (NO_ROUTE, st)
  else
    match Node_Lookup cfg (h_source msg) with
    | None => Ret (NO_ROUTE, st)
    | Some s =>
        if (Crypto cfg =? 1) && negb (signature_ok e) then Ret (NO_ROUTE, st)
        else
          let inc := default 0 (Node_Incarnation st !! s) in
          if f_incarnation msg <? inc then Ret (NO_ROUTE, st)
          else
            let st := mk_prio (Belly st) (<[s := Z.max inc (f_incarnation msg)]> (Node_Incarnation st)) (Edge_Data st) (Seq_No st) (total_dropped st)
                        (p_queue st) (forwarded st) in
            let k := (f_incarnation msg, f_seq_num msg) in
            match entry st s k with
            | None => new_message cfg e mode msg last_hop s k st
            | Some v => duplicate cfg src_link last s k v st
            end
    end.

(** ** Garbage collection *)
Section Collect.
Context `{HO : HashOrder}.

Definition collect_one (cfg : prio_conf) (t : sp_time) (s : Z) (st : prio) (k : prio_key) : outcome prio :=
  v ← or_else (entry st s k) Fault;
  if expired t v then
    st ← Cleanup_prio_flood_ds cfg 0 s k EXPIRED_MSG st;
    Ret (set_belly (<[s := delete k (belly st s)]> (Belly st)) st)
  else Ret st.

Definition Priority_Garbage_Collect (cfg : prio_conf) (t : sp_time) (st : prio) : outcome prio :=
  st ← foldM (fun st s => foldM (collect_one cfg t s) st (hash_iter (belly st s)).*1) st (seqZ 1 MAX_NODES);
  Ret (mk_prio (Belly st) (Node_Incarnation st) (Edge_Data st) (Seq_No st) (total_dropped st)
         (E_queue t Garbage_Collect 0 tt (prio_garb_coll_timeout cfg) (p_queue st)) (forwarded st)).
End Collect.
