(* ===== verification/PrioProof.v ===== *)
(** * PrioProof: the queues of priority flooding

    The invariant of the queues towards a neighbour ([link_ok]): the counts are
    those of the messages queued, the range of priorities is exact, and every
    source with a message is in one of the fair queues, once.  What taking a
    message out of its queue and putting one in does to it. *)
From stdpp Require Import base list gmap numbers option sets.
From Stdlib Require Import ZArith Lia.
From S2P Require Import Prelude HashMap Events NetTypes MultiPath ITFrag PrioFlood.
#[local] Open Scope Z_scope.

(** ** Sums *)
Lemma sumZ_ext {A} (f g : A -> Z) l : (forall x, x ∈ l -> f x = g x) -> sumZ f l = sumZ g l.
Proof. induction l as [|x l IH]; intros H; cbn; [done|]. rewrite H by left. rewrite IH; [done|]. intros y Hy. apply H. by right. Qed.

Lemma sumZ_le {A} (f g : A -> Z) l : (forall x, x ∈ l -> f x <= g x) -> sumZ f l <= sumZ g l.
Proof.
  induction l as [|x l IH]; intros H; cbn; [lia|]. pose proof (H x ltac:(left)). assert (sumZ f l <= sumZ g l) by (apply IH; intros y Hy; apply H; by right). lia.
Qed.

Lemma sumZ_lt {A} (f g : A -> Z) l x : (forall y, y ∈ l -> f y <= g y) -> x ∈ l -> f x < g x -> sumZ f l < sumZ g l.
Proof.
  intros H Hx Hlt. induction l as [|y l IH]; [by apply not_elem_of_nil in Hx|]. cbn.
  assert (Hle : sumZ f l <= sumZ g l) by (apply sumZ_le; intros z Hz; apply H; by right). pose proof (H y ltac:(left)).
  apply elem_of_cons in Hx as [->|Hx]; [lia|]. assert (sumZ f l < sumZ g l); [|lia]. apply IH; [|done]. intros z Hz. apply H. by right.
Qed.

Lemma sumZ_scale {A} (c : Z) (f : A -> Z) l : sumZ (fun x => c * f x) l = c * sumZ f l.
Proof. induction l as [|x l IH]; cbn; [lia|]. rewrite IH. lia. Qed.

Lemma sumZ_zero {A} (l : list A) : sumZ (fun _ => 0) l = 0.
Proof. induction l; cbn; [done|]. lia. Qed.

Lemma sumZ_nonneg {A} (f : A -> Z) l : (forall x, x ∈ l -> 0 <= f x) -> 0 <= sumZ f l.
Proof. intros H. rewrite <- (sumZ_zero l). by apply sumZ_le. Qed.

Lemma sumZ_app {A} (f : A -> Z) l1 l2 : sumZ f (l1 ++ l2) = sumZ f l1 + sumZ f l2.
Proof. induction l1 as [|x l1 IH]; cbn; [done|]. rewrite IH. lia. Qed.

Lemma sumZ_ge {A} (f : A -> Z) l x : (forall y, y ∈ l -> 0 <= f y) -> x ∈ l -> f x <= sumZ f l.
Proof.
  intros H Hx. apply list_elem_of_split in Hx as (l1 & l2 & ->). rewrite sumZ_app. cbn.
  assert (0 <= sumZ f l1) by (apply sumZ_nonneg; intros y Hy; apply H; set_solver).
  assert (0 <= sumZ f l2) by (apply sumZ_nonneg; intros y Hy; apply H; set_solver). lia.
Qed.

(** A sum whose terms change in one place. *)
Lemma sumZ_update {A} `{EqDecision A} (f g : A -> Z) l x :
  NoDup l -> x ∈ l -> (forall y, y <> x -> g y = f y) -> sumZ g l = sumZ f l - f x + g x.
Proof.
  intros Hnd Hx H. apply list_elem_of_split in Hx as (l1 & l2 & ->). apply NoDup_app in Hnd as (_ & Hd & Hnd2). apply NoDup_cons in Hnd2 as [Hn2 _].
  rewrite !sumZ_app. cbn. rewrite (sumZ_ext g f l1), (sumZ_ext g f l2); [lia| |].
  - intros y Hy. apply H. by intros ->.
  - intros y Hy. apply H. intros ->. apply (Hd x Hy). left.
Qed.

Lemma sumZ_same {A} (f g : A -> Z) l x : ~ x ∈ l -> (forall y, y <> x -> g y = f y) -> sumZ g l = sumZ f l.
Proof. intros Hx H. apply sumZ_ext. intros y Hy. apply H. by intros ->. Qed.

Lemma sumZ_filter_ne {A} `{EqDecision A} (f : A -> Z) l x : NoDup l -> x ∈ l -> sumZ f (filter (fun y => y <> x) l) = sumZ f l - f x.
Proof.
  intros Hnd Hx. apply list_elem_of_split in Hx as (l1 & l2 & ->). apply NoDup_app in Hnd as (Hn1 & Hd & Hnd2). apply NoDup_cons in Hnd2 as [Hn2 _].
  rewrite filter_app, filter_cons. rewrite decide_False by auto.
  assert (Hid : forall l : list A, ~ x ∈ l -> filter (fun y => y <> x) l = l).
  { intros l Hl. induction l as [|y l IH]; [done|]. rewrite filter_cons, decide_True by (intros ->; apply Hl; left). f_equal. apply IH. intros Hin. apply Hl. by right. }
  rewrite !Hid; [rewrite !sumZ_app; cbn; lia|done|]. intros Hin. apply (Hd x Hin). left.
Qed.

Lemma sumZ_const {A} (c : Z) (l : list A) : sumZ (fun _ => c) l = c * Z.of_nat (length l).
Proof. induction l as [|x l IH]; cbn; [lia|]. rewrite IH. lia. Qed.

Lemma seqZ_elem i n m : i ∈ seqZ n m <-> n <= i < n + m.
Proof. apply elem_of_seqZ. Qed.

(** ** The invariant *)
Section Link.
Context (W : Z -> prio_key -> Z).

Definition weight (pl : prio_link) (s : Z) : Z := sumZ (fun j => sumZ (W s) (level pl s j)) (seqZ 1 MAX_PRIORITY).

Record max_ok (pl : prio_link) (s : Z) : Prop := {
  mx_range : 0 <= max_pq pl s <= MAX_PRIORITY; mx_above : forall j, max_pq pl s < j -> level pl s j = [];
  mx_some : 1 <= max_pq pl s -> level pl s (max_pq pl s) <> [] }.
Record min_ok (pl : prio_link) (s : Z) : Prop := {
  mn_range : 1 <= min_pq pl s <= MAX_PRIORITY + 1; mn_below : forall j, j < min_pq pl s -> level pl s j = [];
  mn_some : min_pq pl s <= MAX_PRIORITY -> level pl s (min_pq pl s) <> [] }.

Record levels_ok (pl : prio_link) : Prop := {
  lv_nodup : forall s j, NoDup (level pl s j);
  lv_dom : forall s j k, k ∈ level pl s j -> 1 <= s <= MAX_NODES /\ 1 <= j <= MAX_PRIORITY;
  lv_weight : forall s j k, k ∈ level pl s j -> 1 <= W s k <= 100 }.

Record fair_ok (pl : prio_link) : Prop := {
  fq_nodup : NoDup (urgent pl ++ norm pl).*1; fq_elem : forall s, s ∈ in_send_queue pl <-> s ∈ (urgent pl ++ norm pl).*1;
  fq_all : forall s, 0 < msg_count pl s -> s ∈ in_send_queue pl;
  fq_urgent : Forall (fun e => snd e = 1) (urgent pl); fq_norm : Forall (fun e => 0 <= snd e < 65536) (norm pl) }.

Record link_ok (n : Z) (pl : prio_link) : Prop := {
  lk_levels : levels_ok pl; lk_count : forall s, msg_count pl s = weight pl s;
  lk_total : total_msg pl = sumZ (weight pl) (seqZ 1 MAX_NODES);
  lk_max : forall s, max_ok pl s; lk_min : forall s, min_ok pl s; lk_fair : fair_ok pl; lk_room : messages pl <= n }.

Definition size_of (pl : prio_link) (s : Z) : Z := sumZ (fun j => Z.of_nat (length (level pl s j))) (seqZ 1 MAX_PRIORITY).

Lemma weight_size pl s : levels_ok pl -> size_of pl s <= weight pl s <= 100 * size_of pl s.
Proof.
  intros [_ _ Hw]. unfold size_of, weight. rewrite <- sumZ_scale. split; apply sumZ_le; intros j _.
  - replace (Z.of_nat _) with (sumZ (fun _ => 1) (level pl s j)) by (rewrite sumZ_const; lia). apply sumZ_le. intros k Hk. by apply (Hw s j).
  - rewrite <- sumZ_const. apply sumZ_le. intros k Hk. by apply (Hw s j).
Qed.

Lemma size_nonneg pl s : 0 <= size_of pl s.
Proof. apply sumZ_nonneg. intros; lia. Qed.

Lemma size_messages pl s : 1 <= s <= MAX_NODES -> size_of pl s <= messages pl.
Proof. intros Hs. apply (sumZ_ge (size_of pl)); [intros; apply size_nonneg|]. apply seqZ_elem. lia. Qed.

Lemma weight_pos pl s j k : levels_ok pl -> k ∈ level pl s j -> 0 < weight pl s.
Proof.
  intros Hl Hk. pose proof (weight_size pl s Hl) as [Hw _]. destruct (lv_dom _ Hl _ _ _ Hk) as [_ Hj].
  assert (Z.of_nat (length (level pl s j)) <= size_of pl s).
  { apply (sumZ_ge (fun j => Z.of_nat (length (level pl s j)))); [intros; lia|]. apply seqZ_elem. unfold MAX_PRIORITY in *. lia. }
  destruct (level pl s j); [by apply not_elem_of_nil in Hk|]. cbn in *. lia.
Qed.

Lemma weight_zero pl s : levels_ok pl -> (forall j, level pl s j = []) -> weight pl s = 0.
Proof. intros Hl H. unfold weight. rewrite (sumZ_ext _ (fun _ => 0)); [apply sumZ_zero|]. intros j _. by rewrite H. Qed.

Lemma total_bound pl : levels_ok pl -> messages pl <= sumZ (weight pl) (seqZ 1 MAX_NODES) <= 100 * messages pl.
Proof. intros Hl. unfold messages. rewrite <- sumZ_scale. split; apply sumZ_le; intros s _; apply (weight_size pl s Hl). Qed.

Lemma weight_bound pl s n : levels_ok pl -> messages pl <= n -> 1 <= s <= MAX_NODES -> 0 <= weight pl s <= 100 * n.
Proof. intros Hl Hn Hs. pose proof (weight_size pl s Hl). pose proof (size_messages pl s Hs). pose proof (size_nonneg pl s). lia. Qed.

(** One level changes. *)
Definition level_change (pl pl' : prio_link) (s j : Z) (l : list prio_key) : Prop :=
  level pl' s j = l /\ forall s' j', (s', j') <> (s, j) -> level pl' s' j' = level pl s' j'.

Section Change.
Context (pl pl' : prio_link) (s j : Z) (l : list prio_key) (Hs : 1 <= s <= MAX_NODES) (Hj : 1 <= j <= MAX_PRIORITY) (Hc : level_change pl pl' s j l).

Lemma change_level f s' :
  sumZ (fun j => sumZ f (level pl' s' j)) (seqZ 1 MAX_PRIORITY) =
  sumZ (fun j => sumZ f (level pl s' j)) (seqZ 1 MAX_PRIORITY) + if decide (s' = s) then sumZ f l - sumZ f (level pl s j) else 0.
Proof.
  destruct Hc as [Hl Ho]. case_decide as Heq; [subst s'|].
  - rewrite (sumZ_update (fun j => sumZ f (level pl s j)) _ _ j); [rewrite Hl; lia|apply NoDup_seqZ|apply seqZ_elem; lia|].
    intros j' Hne. rewrite Ho; [done|congruence].
  - rewrite Z.add_0_r. apply sumZ_ext. intros j' _. rewrite Ho; [done|congruence].
Qed.

Lemma change_weight s' : weight pl' s' = weight pl s' + if decide (s' = s) then sumZ (W s) l - sumZ (W s) (level pl s j) else 0.
Proof.
  unfold weight. rewrite change_level. case_decide; [subst|]; done.
Qed.

Lemma change_total :
  sumZ (weight pl') (seqZ 1 MAX_NODES) = sumZ (weight pl) (seqZ 1 MAX_NODES) + (sumZ (W s) l - sumZ (W s) (level pl s j)).
Proof.
  rewrite (sumZ_update (weight pl) _ _ s); [|apply NoDup_seqZ|apply seqZ_elem; lia|intros s' Hne; rewrite change_weight, decide_False by done; lia].
  rewrite change_weight, decide_True by done. lia.
Qed.

Lemma change_messages : messages pl' = messages pl + (Z.of_nat (length l) - Z.of_nat (length (level pl s j))).
Proof.
  unfold messages. assert (Hsz : forall s', size_of pl' s' = size_of pl s' + if decide (s' = s) then Z.of_nat (length l) - Z.of_nat (length (level pl s j)) else 0).
  { assert (Hone : forall p s', sumZ (fun j => sumZ (fun _ => 1) (level p s' j)) (seqZ 1 MAX_PRIORITY) = size_of p s').
    { intros p s'. apply sumZ_ext. intros j' _. rewrite sumZ_const. lia. }
    intros s'. pose proof (change_level (fun _ => 1) s') as H. rewrite !Hone, !sumZ_const in H. rewrite H. case_decide; lia. }
  change (sumZ (size_of pl') (seqZ 1 MAX_NODES) = sumZ (size_of pl) (seqZ 1 MAX_NODES) + (Z.of_nat (length l) - Z.of_nat (length (level pl s j)))).
  rewrite (sumZ_update (size_of pl) _ _ s); [|apply NoDup_seqZ|apply seqZ_elem; lia|intros s' Hne; rewrite Hsz, decide_False by done; lia].
  rewrite Hsz, decide_True by done. lia.
Qed.
End Change.

(** The scans stop at the first level with a message. *)
Lemma scan_down_spec n pl s : forall j, 0 <= j <= Z.of_nat n -> let r := scan_down n pl s j in
  0 <= r <= j /\ (forall i, r < i <= j -> level pl s i = []) /\ (1 <= r -> level pl s r <> []).
Proof.
  induction n as [|n IH]; intros j Hj; cbn [scan_down]; [split_and!; [lia|lia|intros; lia|lia]|].
  destruct (Z.leb_spec 1 j); cbn [andb]; [|split_and!; [lia|lia|intros; lia|lia]].
  case_bool_decide as Hl; [|split_and!; [lia|lia|intros; lia|done]].
  destruct (IH (j - 1) ltac:(lia)) as (H1 & H2 & H3). cbv zeta. split_and!; [lia|lia| |done].
  intros i Hi. destruct (decide (i = j)) as [->|]; [done|]. apply H2. lia.
Qed.

Lemma scan_up_spec n pl s : forall j, MAX_PRIORITY + 1 - Z.of_nat n <= j <= MAX_PRIORITY + 1 -> let r := scan_up n pl s j in
  j <= r <= MAX_PRIORITY + 1 /\ (forall i, j <= i < r -> level pl s i = []) /\ (r <= MAX_PRIORITY -> level pl s r <> []).
Proof.
  induction n as [|n IH]; intros j Hj; cbn [scan_up]; [split_and!; [lia|lia|intros; lia|lia]|].
  destruct (Z.leb_spec j MAX_PRIORITY); cbn [andb]; [|split_and!; [lia|lia|intros; lia|lia]].
  case_bool_decide as Hl; [|split_and!; [lia|lia|intros; lia|done]].
  destruct (IH (j + 1) ltac:(lia)) as (H1 & H2 & H3). cbv zeta. split_and!; [lia|lia| |done].
  intros i Hi. destruct (decide (i = j)) as [->|]; [done|]. apply H2. lia.
Qed.

(** A message leaves its queue. *)
Record unlinked (s : Z) (k : prio_key) (j : Z) (pl pl' : prio_link) : Prop := {
  un_change : level_change pl pl' s j (filter (fun x => x <> k) (level pl s j));
  un_queues : norm pl' = norm pl /\ urgent pl' = urgent pl /\ in_send_queue pl' = in_send_queue pl /\ sent_messages pl' = sent_messages pl }.

Lemma levels_sub pl pl' : levels_ok pl -> (forall s j, sublist (level pl' s j) (level pl s j)) -> levels_ok pl'.
Proof.
  intros [A B C] H. split.
  - intros s j. by eapply sublist_NoDup.
  - intros s j k Hk. apply (B s j k). by eapply elem_of_sublist.
  - intros s j k Hk. apply (C s j k). by eapply elem_of_sublist.
Qed.

Lemma change_sub pl pl' s j l : level_change pl pl' s j l -> sublist l (level pl s j) -> forall s' j', sublist (level pl' s' j') (level pl s' j').
Proof. intros [Hl Ho] Hsub s' j'. destruct (decide ((s', j') = (s, j))) as [[= -> ->]|]; [by rewrite Hl|by rewrite Ho]. Qed.

Lemma level_set s j l s' j' a b c d e nq uq x pl :
  level (mk_plink a b c d e (<[(s, j) := l]> (pq pl)) nq uq x) s' j' = if decide ((s, j) = (s', j')) then l else level pl s' j'.
Proof. unfold level. cbn. case_decide as H; [rewrite H; by rewrite lookup_insert_eq|by rewrite lookup_insert_ne]. Qed.

Lemma level_set_change s j l a b c d e nq uq x pl : level_change pl (mk_plink a b c d e (<[(s, j) := l]> (pq pl)) nq uq x) s j l.
Proof. split; [by rewrite level_set, decide_True|]. intros s' j' Hne. rewrite level_set, decide_False; [done|congruence]. Qed.

Lemma max_ok_le pl pl' s :
  (forall j, sublist (level pl' s j) (level pl s j)) -> max_ok pl s -> 0 <= max_pq pl' s <= max_pq pl s ->
  (forall i, max_pq pl' s < i <= max_pq pl s -> level pl' s i = []) -> (1 <= max_pq pl' s -> level pl' s (max_pq pl' s) <> []) -> max_ok pl' s.
Proof.
  intros Hsub [A B C] Hle Hmid Hsome. split; [lia| |done]. intros j Hj. destruct (decide (j <= max_pq pl s)); [apply Hmid; lia|].
  apply sublist_nil_r. rewrite <- (B j) by lia. apply Hsub.
Qed.

Lemma min_ok_le pl pl' s :
  (forall j, sublist (level pl' s j) (level pl s j)) -> min_ok pl s -> min_pq pl s <= min_pq pl' s <= MAX_PRIORITY + 1 ->
  (forall i, min_pq pl s <= i < min_pq pl' s -> level pl' s i = []) -> (min_pq pl' s <= MAX_PRIORITY -> level pl' s (min_pq pl' s) <> []) -> min_ok pl' s.
Proof.
  intros Hsub [A B C] Hle Hmid Hsome. split; [lia| |done]. intros j Hj. destruct (decide (min_pq pl s <= j)); [apply Hmid; lia|].
  apply sublist_nil_r. rewrite <- (B j) by lia. apply Hsub.
Qed.

Lemma fair_ok_le pl pl' :
  fair_ok pl -> norm pl' = norm pl -> urgent pl' = urgent pl -> in_send_queue pl' = in_send_queue pl ->
  (forall s, 0 < msg_count pl' s -> 0 < msg_count pl s) -> fair_ok pl'.
Proof. intros [A B C D E] Hn Hu Hq Hc. split; rewrite ?Hn, ?Hu, ?Hq; try done. intros s Hs. by apply C, Hc. Qed.

Lemma range_max s mx mn pl s' : max_pq (set_range s mx mn pl) s' = if decide (s = s') then mx else max_pq pl s'.
Proof. unfold max_pq, set_range. cbn. case_decide; [subst; by rewrite lookup_insert_eq|by rewrite lookup_insert_ne]. Qed.
Lemma range_min s mx mn pl s' : min_pq (set_range s mx mn pl) s' = if decide (s = s') then mn else min_pq pl s'.
Proof. unfold min_pq, set_range. cbn. case_decide; [subst; by rewrite lookup_insert_eq|by rewrite lookup_insert_ne]. Qed.

Lemma not_last_stays (l : list prio_key) k : k ∈ l -> list.last l <> Some k -> filter (fun x => x <> k) l <> [].
Proof.
  intros Hk Hlast Hf. destruct (list.last l) as [x|] eqn:Ex; [|apply last_None in Ex; subst; by apply not_elem_of_nil in Hk].
  assert (Hx : x ∈ filter (fun x => x <> k) l); [|rewrite Hf in Hx; by apply not_elem_of_nil in Hx].
  apply list_elem_of_filter. split; [congruence|]. apply last_Some in Ex as [l' ->]. set_solver.
Qed.

(** All of the invariant but the range of source [s], after a message left. *)
Record part_ok (n : Z) (s : Z) (pl pl' : prio_link) : Prop := {
  pt_levels : levels_ok pl'; pt_count : forall s, msg_count pl' s = weight pl' s; pt_total : total_msg pl' = sumZ (weight pl') (seqZ 1 MAX_NODES);
  pt_max : forall s', s' <> s -> max_ok pl' s'; pt_min : forall s', s' <> s -> min_ok pl' s'; pt_fair : fair_ok pl'; pt_room : messages pl' <= n }.

Lemma part_link n s pl pl' mx mn :
  part_ok n s pl pl' -> max_ok (set_range s mx mn pl') s -> min_ok (set_range s mx mn pl') s -> link_ok n (set_range s mx mn pl').
Proof.
  intros [A B C D E F G] Hmx Hmn. split; [by destruct A|exact B|exact C| | |by destruct F|exact G].
  - intros s'. destruct (decide (s' = s)) as [->|Hne]; [done|]. destruct (D s' Hne) as [D1 D2 D3].
    split; rewrite range_max, decide_False by done; done.
  - intros s'. destruct (decide (s' = s)) as [->|Hne]; [done|]. destruct (E s' Hne) as [D1 D2 D3].
    split; rewrite range_min, decide_False by done; done.
Qed.

Lemma unlink_part n pl s k j a :
  link_ok n pl -> 100 * n < 2 ^ 32 -> k ∈ level pl s j ->
  let pl1 := mk_plink (u32 (total_msg pl - W s k)) (<[s := u32 (msg_count pl s - W s k)]> (msg_counts pl)) (in_send_queue pl) (max_pqs pl)
               (min_pqs pl) (<[(s, j) := filter (fun x => x <> k) (level pl s j)]> (pq pl)) (norm pl) (urgent pl) a in
  part_ok n s pl pl1 /\ (forall s' j', sublist (level pl1 s' j') (level pl s' j')).
Proof.
  intros [Hlv Hcnt Htot Hmx Hmn Hfq Hroom] Hn Hk pl1.
  assert (Hch : level_change pl pl1 s j (filter (fun x => x <> k) (level pl s j))) by apply level_set_change.
  destruct (lv_dom _ Hlv _ _ _ Hk) as [Hs Hj]. pose proof (lv_nodup _ Hlv s j) as Hnd. pose proof (lv_weight _ Hlv _ _ _ Hk) as HW.
  pose proof (change_sub _ _ _ _ _ Hch (sublist_filter _ _)) as Hsub. pose proof (levels_sub _ _ Hlv Hsub) as Hlv1.
  pose proof (change_weight pl pl1 s j _ Hj Hch) as Hw. pose proof (change_total pl pl1 s j _ Hs Hj Hch) as Ht.
  pose proof (change_messages pl pl1 s j _ Hs Hj Hch) as Hm. rewrite (sumZ_filter_ne (W s) _ _ Hnd Hk) in Ht.
  assert (Hlen : Z.of_nat (length (filter (fun x => x <> k) (level pl s j))) <= Z.of_nat (length (level pl s j))) by (pose proof (sublist_length _ _ (sublist_filter (fun x => x <> k) (level pl s j))); lia).
  assert (Hcount : forall s', msg_count pl1 s' = weight pl1 s').
  { intros s'. rewrite Hw. unfold msg_count, pl1. cbn. destruct (decide (s' = s)) as [->|Hne].
    - rewrite lookup_insert_eq. cbn. rewrite (sumZ_filter_ne (W s) _ _ Hnd Hk), Hcnt.
      pose proof (weight_bound pl1 s n Hlv1 ltac:(lia) Hs) as Hb. rewrite Hw, decide_True, (sumZ_filter_ne (W s) _ _ Hnd Hk) in Hb by done. rewrite u32_small; lia.
    - rewrite lookup_insert_ne by done. rewrite Z.add_0_r. apply Hcnt. }
  split; [|done]. split; try done.
  - cbn. pose proof (total_bound pl1 Hlv1). rewrite Htot, u32_small; lia.
  - intros s' Hne. destruct (Hmx s') as [D1 D2 D3]. assert (Hl : forall i, level pl1 s' i = level pl s' i) by (intros i; apply Hch; congruence).
    split; [done|intros i Hi; rewrite Hl; by apply D2|intros Hi; rewrite Hl; by apply D3].
  - intros s' Hne. destruct (Hmn s') as [D1 D2 D3]. assert (Hl : forall i, level pl1 s' i = level pl s' i) by (intros i; apply Hch; congruence).
    split; [done|intros i Hi; rewrite Hl; by apply D2|intros Hi; rewrite Hl; by apply D3].
  - eapply fair_ok_le; try done. intros s' Hp. rewrite Hcount, Hw in Hp. rewrite Hcnt. case_decide; [|lia]. subst s'. rewrite (sumZ_filter_ne (W s) _ _ Hnd Hk) in Hp. lia.
  - lia.
Qed.

Lemma unlink_ok n pl s k j :
  link_ok n pl -> 100 * n < 2 ^ 32 -> k ∈ level pl s j ->
  exists pl', unlink s k j (W s k) pl = Ret pl' /\ link_ok n pl' /\ unlinked s k j pl pl'.
Proof.
  intros Hok Hn Hk. unfold unlink. rewrite bool_decide_eq_true_2 by done. cbv zeta.
  destruct (unlink_part n pl s k j (sent_messages pl) Hok Hn Hk) as [Hp Hsub].
  set (pl1 := mk_plink _ _ _ _ _ _ _ _ _) in *.
  assert (Hch : level_change pl pl1 s j (filter (fun x => x <> k) (level pl s j))) by apply level_set_change.
  pose proof (lk_max _ _ Hok s) as Hmx. pose proof (lk_min _ _ Hok s) as Hmn.
  case_bool_decide as Hlast.
  - destruct (Z.ltb_spec 0 (msg_count pl1 s)) as [Hpos|Hle].
    + eexists. split; [done|]. split; [|by split].
      destruct (scan_down_spec (Z.to_nat (max_pq pl1 s)) pl1 s (max_pq pl1 s)) as (D1 & D2 & D3); [pose proof (mx_range _ _ Hmx); change (max_pq pl1 s) with (max_pq pl s); lia|].
      destruct (scan_up_spec (Z.to_nat (MAX_PRIORITY + 1 - min_pq pl1 s)) pl1 s (min_pq pl1 s)) as (U1 & U2 & U3); [pose proof (mn_range _ _ Hmn); change (min_pq pl1 s) with (min_pq pl s); lia|].
      apply (part_link n s pl pl1 _ _ Hp).
      * apply (max_ok_le pl); [apply Hsub|done|..]; rewrite range_max, decide_True by done; done.
      * apply (min_ok_le pl); [apply Hsub|done|..]; rewrite range_min, decide_True by done; done.
    + assert (Hz : msg_count pl1 s = 0).
      { rewrite (pt_count _ _ _ _ Hp) in *. pose proof (weight_size pl1 s (pt_levels _ _ _ _ Hp)). pose proof (size_nonneg pl1 s). lia. }
      rewrite Hz. cbn [Z.eqb]. eexists. split; [done|]. split; [|by split].
      assert (Hemp : forall i, level pl1 s i = []).
      { intros i. destruct (level pl1 s i) as [|x l] eqn:E; [done|]. assert (Hx : x ∈ level pl1 s i) by (rewrite E; left).
        pose proof (weight_pos _ _ _ _ (pt_levels _ _ _ _ Hp) Hx). rewrite <- (pt_count _ _ _ _ Hp) in *. lia. }
      apply (part_link n s pl pl1 _ _ Hp); split; rewrite ?range_max, ?range_min, ?decide_True by done; unfold MAX_PRIORITY; try lia; intros; apply Hemp.
  - exists pl1. split; [done|]. split; [|by split].
    pose proof (not_last_stays _ _ Hk Hlast) as Hne. destruct Hch as [Hl Ho]. rewrite <- Hl in Hne.
    assert (Hst : forall i, level pl s i <> [] -> level pl1 s i <> []).
    { intros i Hi. destruct (decide (i = j)) as [->|]; [done|]. rewrite Ho; [done|congruence]. }
    destruct Hp as [A B C D E F G]. split; try done; intros s'; (destruct (decide (s' = s)) as [->|]; [|auto]).
    + apply (max_ok_le pl); [apply Hsub|done|pose proof (mx_range _ _ Hmx); change (max_pq pl1 s) with (max_pq pl s); lia|intros i; change (max_pq pl1 s) with (max_pq pl s); lia|].
      intros Hge. apply Hst. by apply (mx_some _ _ Hmx).
    + apply (min_ok_le pl); [apply Hsub|done|pose proof (mn_range _ _ Hmn); change (min_pq pl1 s) with (min_pq pl s); lia|intros i; change (min_pq pl1 s) with (min_pq pl s); lia|].
      intros Hge. apply Hst. by apply (mn_some _ _ Hmn).
Qed.

(** A message enters its queue. *)
Definition push (s : Z) (k : prio_key) (j : Z) (pl : prio_link) : prio_link :=
  mk_plink (u32 (total_msg pl + W s k)) (<[s := u32 (msg_count pl s + W s k)]> (msg_counts pl)) ({[s]} ∪ in_send_queue pl)
    (<[s := Z.max (max_pq pl s) j]> (max_pqs pl)) (<[s := Z.min (min_pq pl s) j]> (min_pqs pl))
    (<[(s, j) := level pl s j ++ [k]]> (pq pl)) (norm pl) (if bool_decide (s ∈ in_send_queue pl) then urgent pl else urgent pl ++ [(s, 1)]) (sent_messages pl).

Lemma push_max s k j pl s' : max_pq (push s k j pl) s' = if decide (s = s') then Z.max (max_pq pl s) j else max_pq pl s'.
Proof. unfold max_pq at 1, push. cbn [max_pqs]. case_decide; [subst; by rewrite lookup_insert_eq|by rewrite lookup_insert_ne]. Qed.
Lemma push_min s k j pl s' : min_pq (push s k j pl) s' = if decide (s = s') then Z.min (min_pq pl s) j else min_pq pl s'.
Proof. unfold min_pq at 1, push. cbn [min_pqs]. case_decide; [subst; by rewrite lookup_insert_eq|by rewrite lookup_insert_ne]. Qed.

Lemma push_fair s k j pl : fair_ok pl -> fair_ok (push s k j pl).
Proof.
  intros [A B C D E]. assert (Hin : forall s', 0 < msg_count (push s k j pl) s' -> s' = s \/ 0 < msg_count pl s').
  { intros s'. unfold msg_count, push. cbn. destruct (decide (s' = s)); [by left|]. rewrite lookup_insert_ne by done. by right. }
  assert (Hall : forall s', 0 < msg_count (push s k j pl) s' -> s' ∈ in_send_queue (push s k j pl)).
  { intros s' [->|Hp%C]%Hin; cbn; set_solver. }
  unfold push in *. case_bool_decide as Hs; split; try done; cbn [urgent norm in_send_queue] in *.
  - intros s'. rewrite <- B. set_solver.
  - rewrite <- app_assoc, fmap_app. cbn. rewrite fmap_app in *. rewrite B, elem_of_app in Hs. apply NoDup_app in A as (A1 & A2 & A3).
    apply NoDup_app. split; [done|]. split; [|apply NoDup_cons; split; [tauto|done]]. intros x Hx [->|Hx']%elem_of_cons; [tauto|by apply (A2 x)].
  - intros s'. rewrite elem_of_union, B, <- app_assoc, !fmap_app. cbn. rewrite !elem_of_app, elem_of_cons. set_solver.
  - apply Forall_app. split; [done|]. by constructor.
Qed.

Lemma push_link_ok n pl s k j :
  link_ok n pl -> 100 * (n + 1) < 2 ^ 32 -> 1 <= s <= MAX_NODES -> 1 <= j <= MAX_PRIORITY -> ~ k ∈ level pl s j -> 1 <= W s k <= 100 ->
  link_ok (n + 1) (push s k j pl).
Proof.
  intros [Hlv Hcnt Htot Hmx Hmn Hfq Hroom] Hn Hs Hj Hk HW.
  assert (Hch : level_change pl (push s k j pl) s j (level pl s j ++ [k])) by apply level_set_change.
  assert (Hlv1 : levels_ok (push s k j pl)).
  { destruct Hch as [Hl Ho]. destruct Hlv as [A B C].
    assert (Hcase : forall s' j' x, x ∈ level (push s k j pl) s' j' -> x ∈ level pl s' j' \/ (s' = s /\ j' = j /\ x = k)).
    { intros s' j' x. destruct (decide ((s', j') = (s, j))) as [[= -> ->]|Hne]; [rewrite Hl|rewrite Ho by done; auto].
      rewrite elem_of_app, list_elem_of_singleton. tauto. }
    split.
    - intros s' j'. destruct (decide ((s', j') = (s, j))) as [[= -> ->]|Hne]; [rewrite Hl|by rewrite Ho].
      apply NoDup_app. split; [done|]. split; [|apply NoDup_singleton]. intros x Hx ->%list_elem_of_singleton. done.
    - intros s' j' x [?|(-> & -> & ->)]%Hcase; [by eapply B|done].
    - intros s' j' x [?|(-> & -> & ->)]%Hcase; [by eapply C|done]. }
  pose proof (change_weight _ _ s j _ Hj Hch) as Hw. pose proof (change_total _ _ s j _ Hs Hj Hch) as Ht.
  pose proof (change_messages _ _ s j _ Hs Hj Hch) as Hm. rewrite sumZ_app in Ht. cbn [sumZ] in Ht. rewrite length_app in Hm. cbn [length] in Hm.
  pose proof (weight_bound _ s (n + 1) Hlv1 ltac:(lia) Hs) as Hb. rewrite Hw, decide_True, sumZ_app in Hb by done. cbn [sumZ] in Hb.
  pose proof (total_bound _ Hlv1) as Htb.
  split; try done; [| | | |by apply push_fair|lia].
  - intros s'. rewrite Hw. unfold msg_count at 1, push. cbn [msg_counts]. destruct (decide (s' = s)) as [->|Hne].
    + rewrite lookup_insert_eq. unfold default, id. rewrite sumZ_app, Hcnt. cbn [sumZ]. rewrite u32_small; lia.
    + rewrite lookup_insert_ne by done. rewrite Z.add_0_r. apply Hcnt.
  - cbn [push total_msg]. rewrite Htot, u32_small; lia.
  - intros s'. destruct (Hmx s') as [D1 D2 D3]. destruct Hch as [Hl Ho].
    destruct (decide (s = s')) as [<-|Hne]; split; rewrite push_max, ?decide_True, ?decide_False by done;
      [lia| | |done|intros i Hi; rewrite Ho by congruence; by apply D2|rewrite Ho by congruence; done].
    + intros i Hi. rewrite Ho by (intros [= ->]; lia). apply D2. lia.
    + intros Hge. destruct (decide (Z.max (max_pq pl s) j = j)) as [->|]; [rewrite Hl; by destruct (level pl s j)|]. rewrite Ho by congruence.
      replace (Z.max (max_pq pl s) j) with (max_pq pl s) by lia. apply D3. lia.
  - intros s'. destruct (Hmn s') as [D1 D2 D3]. destruct Hch as [Hl Ho].
    destruct (decide (s = s')) as [<-|Hne]; split; rewrite push_min, ?decide_True, ?decide_False by done;
      [lia| | |done|intros i Hi; rewrite Ho by congruence; by apply D2|rewrite Ho by congruence; done].
    + intros i Hi. rewrite Ho by (intros [= ->]; lia). apply D2. lia.
    + intros Hge. destruct (decide (Z.min (min_pq pl s) j = j)) as [->|]; [rewrite Hl; by destruct (level pl s j)|]. rewrite Ho by congruence.
      replace (Z.min (min_pq pl s) j) with (min_pq pl s) by lia. apply D3. lia.
Qed.

(** ** Turns *)
Lemma link_ok_fair n pl nq uq sq x :
  link_ok n pl -> fair_ok (mk_plink (total_msg pl) (msg_counts pl) sq (max_pqs pl) (min_pqs pl) (pq pl) nq uq x) ->
  link_ok n (mk_plink (total_msg pl) (msg_counts pl) sq (max_pqs pl) (min_pqs pl) (pq pl) nq uq x).
Proof. intros [[] B C D E F G] Hf. split; try done; [intros s; by destruct (D s)|intros s; by destruct (E s)]. Qed.

Lemma count_sent_ok n pl : link_ok n pl -> link_ok n (count_sent pl).
Proof. intros Hok. apply link_ok_fair; [done|]. by destruct (lk_fair _ _ Hok). Qed.

(** The head of the fair queues goes to the back. *)
Lemma to_back_ok n pl p : link_ok n pl -> 0 <= p < 65536 -> link_ok n (to_back p pl).
Proof.
  intros Hok Hp. destruct (lk_fair _ _ Hok) as [A B C D E]. unfold to_back.
  destruct (urgent pl) as [|[s q] u] eqn:Eu; [destruct (norm pl) as [|[s q] r] eqn:En; [done|]|]; apply link_ok_fair; try done.
  - assert (Hperm : (r ++ [(s, p)]).*1 ≡ₚ ((s, q) :: r).*1) by (rewrite fmap_app; cbn; by rewrite Permutation_app_comm).
    inversion_clear E. split; cbn [urgent norm in_send_queue msg_counts app]; try done; [by rewrite Hperm|intros x; rewrite B, <- Hperm; done|].
    apply Forall_app. split; [done|by constructor].
  - assert (Hperm : (u ++ norm pl ++ [(s, p)]).*1 ≡ₚ (((s, q) :: u) ++ norm pl).*1).
    { rewrite !fmap_app. cbn. rewrite app_assoc, Permutation_app_comm. done. }
    inversion_clear D. split; cbn [urgent norm in_send_queue msg_counts]; try done; [by rewrite Hperm|intros x; rewrite B, <- Hperm; done|].
    apply Forall_app. split; [done|by constructor].
Qed.

Lemma set_penalty_ok n pl : link_ok n pl -> link_ok n (set_penalty 1 pl).
Proof.
  intros Hok. destruct (lk_fair _ _ Hok) as [A B C D E]. unfold set_penalty.
  destruct (urgent pl) as [|[s q] u] eqn:Eu; [destruct (norm pl) as [|[s q] r] eqn:En; [done|]|]; apply link_ok_fair; try done.
  - inversion_clear E. split; cbn [urgent norm in_send_queue msg_counts] in *; try done. by constructor; [cbn; lia|].
  - inversion_clear D. split; cbn [urgent norm in_send_queue msg_counts] in *; try done. by constructor.
Qed.

Lemma leave_ok n pl s p r : link_ok n pl -> urgent pl = [] -> norm pl = (s, p) :: r -> msg_count pl s = 0 -> link_ok n (leave s pl).
Proof.
  intros Hok Hu Hn Hc. destruct (lk_fair _ _ Hok) as [A B C D E]. unfold leave. rewrite Hu, Hn in *. cbn [tail app fmap list_fmap] in *.
  apply NoDup_cons in A as [A1 A2]. inversion_clear E. apply link_ok_fair; [done|].
  split; cbn [urgent norm in_send_queue msg_counts app] in *; try done.
  - intros x. rewrite elem_of_difference, B, elem_of_singleton, elem_of_cons. split; [tauto|]. intros Hx. split; [by right|]. by intros ->.
  - intros x Hx. apply elem_of_difference. split; [by apply C|]. intros ->%elem_of_singleton. change (0 < msg_count pl s) in Hx. lia.
Qed.

Lemma messages_nonneg pl : 0 <= messages pl.
Proof. apply sumZ_nonneg. intros. apply sumZ_nonneg. intros. lia. Qed.

Lemma norm_turns_pos p : 0 <= p -> 0 < norm_turns p.
Proof. unfold norm_turns. destruct (Z.eqb_spec p 0); lia. Qed.

Lemma turns_nonneg n pl : link_ok n pl -> 0 <= turns pl.
Proof.
  intros Hok. pose proof (messages_nonneg pl). destruct (lk_fair _ _ Hok) as [_ _ _ _ E]. unfold turns. rewrite sumZ_const.
  assert (0 <= sumZ (fun e => norm_turns (snd e)) (norm pl)); [|lia]. apply sumZ_nonneg. intros e He.
  rewrite Forall_forall in E. pose proof (norm_turns_pos (snd e) (proj1 (E e He))). lia.
Qed.

(** Moving on costs at least one turn. *)
Lemma to_back_turns_urgent pl s u : urgent pl = (s, 1) :: u -> turns (to_back (u16 (1 - 1)) pl) < turns pl.
Proof.
  intros Hu. unfold turns, to_back. rewrite Hu. cbn [set_queues urgent norm]. change (messages (set_queues _ _ pl)) with (messages pl).
  rewrite sumZ_app, !sumZ_const. cbn [sumZ length snd]. change (norm_turns (u16 (1 - 1))) with 65536. lia.
Qed.

Lemma to_back_turns_norm pl s p r :
  urgent pl = [] -> norm pl = (s, p) :: r -> 0 <= p < 65536 -> 0 < u16 (p - 1) -> turns (to_back (u16 (p - 1)) pl) < turns pl.
Proof.
  intros Hu Hn Hp Hpos. unfold turns, to_back. rewrite Hu, Hn. cbn [set_queues urgent norm]. change (messages (set_queues _ _ pl)) with (messages pl).
  rewrite sumZ_app. cbn [sumZ snd]. unfold norm_turns. destruct (Z.eqb_spec p 0) as [->|]; [change (u16 (0 - 1)) with 65535; cbn; lia|].
  rewrite u16_small in * by lia. destruct (Z.eqb_spec (p - 1) 0); lia.
Qed.

Lemma leave_turns pl s r : urgent pl = [] -> norm pl = (s, 1) :: r -> turns (leave s pl) < turns pl.
Proof.
  intros Hu Hn. unfold turns, leave. cbn [urgent norm]. rewrite Hu, Hn. cbn [tail sumZ snd].
  change (messages (mk_plink _ _ _ _ _ _ _ _ _)) with (messages pl). unfold norm_turns at 2. cbn. lia.
Qed.
End Link.
