(* ===== verification/PrioState.v ===== *)
(** * PrioState: the state of priority flooding

    The invariant of bellies and queues together ([prio_ok]): a message is in the
    queue towards a neighbour exactly while its status there is [NEED_MSG], and
    [need_count] is the number of neighbours not settled.  [evolve] says what may
    happen to a state when messages leave the queues. *)
From stdpp Require Import base list gmap numbers option sets.
From Stdlib Require Import ZArith Lia.
From S2P Require Import Prelude HashMap Events NetTypes MultiPath ITFrag PrioFlood PrioProof.
#[local] Open Scope Z_scope.

Definition pending (m : gmap Z ngbr_status) (i : Z) : Z := match m !! i with Some x => if has_node x then 1 else 0 | None => 1 end.
Definition info (st : prio) (s : Z) (k : prio_key) : option (sp_time * (Z * Z)) := (fun v => (expire v, (priority v, link_mode v))) <$> entry st s k.

Lemma entry_set s k v st s' k' : entry (set_entry s k v st) s' k' = if decide ((s, k) = (s', k')) then Some v else entry st s' k'.
Proof.
  unfold entry, set_entry, set_belly, belly. cbn. destruct (decide (s = s')) as [<-|Hs].
  - rewrite lookup_insert_eq. cbn. case_decide as H; [simplify_eq; by rewrite lookup_insert_eq|]. rewrite lookup_insert_ne; [done|]. congruence.
  - rewrite lookup_insert_ne by done. rewrite decide_False by congruence. done.
Qed.

Lemma info_set s k v v' st : entry st s k = Some v -> expire v' = expire v -> priority v' = priority v -> link_mode v' = link_mode v -> forall s' k', info (set_entry s k v' st) s' k' = info st s' k'.
Proof. intros Hv He Hp Hl s' k'. unfold info. rewrite entry_set. case_decide as H; [|done]. simplify_eq. rewrite Hv. cbn. by rewrite He, Hp, Hl. Qed.

(** Messages satisfying [P] may have left the queues, and nothing else changed
    in them. *)
Record link_evolve (P : Z -> prio_key -> Prop) (pl pl' : prio_link) : Prop := {
  le_norm : norm pl' = norm pl; le_urgent : urgent pl' = urgent pl; le_sub : forall s j, sublist (level pl' s j) (level pl s j);
  le_left : forall s j k, k ∈ level pl s j -> ~ k ∈ level pl' s j -> P s k }.

Record evolve (P : Z -> prio_key -> Prop) (st st' : prio) : Prop := {
  ev_links : forall i pl, Edge_Data st !! i = Some pl -> exists pl', Edge_Data st' !! i = Some pl' /\ link_evolve P pl pl';
  ev_info : forall s k, info st' s k = info st s k; ev_forwarded : forwarded st' = forwarded st }.

#[export] Instance link_evolve_preorder P : PreOrder (link_evolve P).
Proof.
  split; [by split|]. intros a b c [A1 A2 A3 A4] [B1 B2 B3 B4]. split; [congruence|congruence|intros s j; etrans; [apply B3|apply A3]|].
  intros s j k Hk Hn. destruct (decide (k ∈ level b s j)); eauto.
Qed.

#[export] Instance evolve_preorder P : PreOrder (evolve P).
Proof.
  split.
  - intros st. split; try done. intros i pl H. by exists pl.
  - intros a b c [A B C] [A' B' C']. split; [|congruence..].
    intros i pl H. destruct (A i pl H) as (pl1 & H1 & E1). destruct (A' i pl1 H1) as (pl2 & H2 & E2). exists pl2. split; [done|]. by etrans.
Qed.

Lemma evolve_weaken (P Q : Z -> prio_key -> Prop) st st' : (forall s k, P s k -> Q s k) -> evolve P st st' -> evolve Q st st'.
Proof.
  intros HPQ [A B C]. split; try done. intros i pl H. destruct (A i pl H) as (pl' & H' & [D E F G]). exists pl'. split; [done|]. split; try done.
  intros s j k Hk Hn. by eapply HPQ, G.
Qed.

(** ** The invariant *)
Section State.
Context (cfg : prio_conf) (W : Z -> prio_key -> Z).

(** [d]: the neighbours whose status is set. *)
Definition live_ok (d s : Z) (k : prio_key) (v : prio_val) (m : gmap Z ngbr_status) (sc : list (list Z)) : Prop :=
  ns v = Some m /\ msg_scat v = Some sc /\ packets_of_msg cfg (link_mode v) sc = W s k /\ 1 <= W s k <= 100 /\
  (forall i, is_Some (m !! i) <-> 1 <= i <= d) /\ (forall i x, m !! i = Some x -> (has_node x = true <-> flag x = NEED_MSG)) /\
  need_count v = sumZ (pending m) (seqZ 1 (Degree cfg)).

Record val_ok (d s : Z) (k : prio_key) (v : prio_val) : Prop := {
  vo_src : 1 <= s <= MAX_NODES; vo_prio : 1 <= priority v <= MAX_PRIORITY;
  vo_front : 0 <= d <= Degree cfg; vo_done : ns v = None -> d = Degree cfg;
  vo_state : (need_count v = 0 /\ ns v = None) \/ exists m sc, live_ok d s k v m sc }.

Definition wanted (st : prio) (i s j : Z) (k : prio_key) : Prop :=
  exists v m, entry st s k = Some v /\ priority v = j /\ ns v = Some m /\ m !! i = Some (mk_ns NEED_MSG true).

Record prio_ok (fr : Z -> prio_key -> Z) (B : Z -> Z) (st : prio) : Prop := {
  po_links : forall i, 1 <= i <= Degree cfg -> exists pl, Edge_Data st !! i = Some pl /\ link_ok W (B i) pl;
  po_vals : forall s k v, entry st s k = Some v -> val_ok (fr s k) s k v;
  po_queued : forall i pl, 1 <= i <= Degree cfg -> Edge_Data st !! i = Some pl -> forall s j k, k ∈ level pl s j <-> wanted st i s j k }.

Context (Hdeg : 0 <= Degree cfg < 2 ^ 16).

Definition gone (st : prio) (i s : Z) (k : prio_key) : Prop := forall pl j, Edge_Data st !! i = Some pl -> ~ k ∈ level pl s j.

Lemma pending_range m i : 0 <= pending m i <= 1.
Proof. unfold pending. destruct (m !! i) as [x|]; [destruct (has_node x)|]; lia. Qed.

Lemma pending_sum m : 0 <= sumZ (pending m) (seqZ 1 (Degree cfg)) < 2 ^ 16.
Proof.
  split; [apply sumZ_nonneg; intros; apply pending_range|].
  assert (sumZ (pending m) (seqZ 1 (Degree cfg)) <= sumZ (fun _ => 1) (seqZ 1 (Degree cfg))) by (apply sumZ_le; intros; apply pending_range).
  rewrite sumZ_const, length_seqZ in *. lia.
Qed.

Lemma need_zero m i : sumZ (pending m) (seqZ 1 (Degree cfg)) = 0 -> 1 <= i <= Degree cfg -> pending m i = 0.
Proof.
  intros Hz Hi. pose proof (pending_range m i). assert (pending m i <= 0); [|lia]. rewrite <- Hz. apply (sumZ_ge (pending m)); [intros; apply pending_range|].
  apply seqZ_elem. lia.
Qed.

(** A message needed by nobody is in no queue. *)
Lemma settled_gone fr B st s k v i :
  prio_ok fr B st -> entry st s k = Some v -> need_count v = 0 -> 1 <= i <= Degree cfg -> gone st i s k.
Proof.
  intros Hok Hv Hn Hi pl j Hpl Hk. apply (po_queued _ _ _ Hok i pl Hi Hpl) in Hk as (v' & m & Hv' & _ & Hm & Hx). rewrite Hv in Hv'. simplify_eq.
  destruct (vo_state _ _ _ _ (po_vals _ _ _ Hok _ _ _ Hv)) as [[_ Hno]|(m' & sc & Hm' & _ & _ & _ & _ & _ & Hsum)]; [congruence|].
  rewrite Hm in Hm'. simplify_eq. pose proof (need_zero m' i ltac:(lia) Hi) as Hp. unfold pending in Hp. rewrite Hx in Hp. done.
Qed.

(** The status of one neighbour is settled, its queue with it. *)
Lemma settle_ok fr B st s k v m i pl pl' f :
  prio_ok fr B st -> entry st s k = Some v -> ns v = Some m -> 1 <= i <= Degree cfg -> Edge_Data st !! i = Some pl -> m !! i = Some (mk_ns NEED_MSG true) ->
  f <> NEED_MSG -> link_ok W (B i) pl' -> unlinked s k (priority v) pl pl' ->
  let v' := set_status (u32 (need_count v - 1)) (Some (<[i := mk_ns f false]> m)) v in
  let st' := set_entry s k v' (set_link i pl' st) in
  prio_ok fr B st' /\ evolve (fun s' k' => s' = s /\ k' = k) st st' /\ gone st' i s k.
Proof.
  intros Hok Hv Hm Hi Hpl Hx Hf Hlk [[Hl Ho] (Hq1 & Hq2 & Hq3 & _)] v' st'.
  assert (Hent : forall s' k', entry st' s' k' = if decide ((s, k) = (s', k')) then Some v' else entry st s' k') by (intros; unfold st'; by rewrite entry_set).
  assert (Hlev : forall s' j k', k' ∈ level pl' s' j <-> k' ∈ level pl s' j /\ ~ (s' = s /\ k' = k)).
  { intros s' j k'. destruct (decide ((s', j) = (s, priority v))) as [[= -> ->]|Hne].
    - rewrite Hl, list_elem_of_filter. tauto.
    - rewrite Ho by done. split; [|tauto]. intros Hk. split; [done|]. intros [-> ->].
      apply (po_queued _ _ _ Hok i pl Hi Hpl) in Hk as (v1 & m1 & Hv1 & Hp1 & _). rewrite Hv in Hv1. simplify_eq. }
  assert (Hgone : gone st' i s k).
  { intros pl1 j Hpl1. cbn in Hpl1. rewrite lookup_insert_eq in Hpl1. simplify_eq. rewrite Hlev. tauto. }
  split; [|split; [|done]]; split.
  - intros i' Hi'. cbn. destruct (decide (i' = i)) as [->|Hne]; [rewrite lookup_insert_eq; by exists pl'|]. rewrite lookup_insert_ne by done. by apply (po_links _ _ _ Hok).
  - intros s' k' w. rewrite Hent. case_decide as Hd; [|apply (po_vals _ _ _ Hok)]. intros [= <-]. simplify_eq.
    destruct (po_vals _ _ _ Hok _ _ _ Hv) as [A1 A2 A4 A5 A3]. split; try done. right.
    destruct A3 as [[_ Hno]|(m' & sc & Hm' & Hsc & Hw1 & Hw2 & Hdom & Hfl & Hsum)]; [congruence|]. rewrite Hm in Hm'. simplify_eq.
    exists (<[i := mk_ns f false]> m'), sc. do 4 (split; [done|]). split_and!.
    + intros i'. destruct (decide (i' = i)) as [->|]; [rewrite lookup_insert_eq; split; [intros _; apply Hdom; by eexists|by eexists]|by rewrite lookup_insert_ne].
    + intros i' x. destruct (decide (i' = i)) as [->|]; [rewrite lookup_insert_eq; by intros [= <-]|rewrite lookup_insert_ne by done; apply Hfl].
    + cbn [v' set_status need_count]. rewrite (sumZ_update (pending m') _ _ i); [|apply NoDup_seqZ|apply seqZ_elem; lia|].
      2:{ intros y Hy. unfold pending. by rewrite lookup_insert_ne. }
      pose proof (pending_sum m'). assert (Hge : pending m' i <= sumZ (pending m') (seqZ 1 (Degree cfg))) by (apply (sumZ_ge (pending m')); [intros; apply pending_range|apply seqZ_elem; lia]).
      unfold pending at 2 3. rewrite lookup_insert_eq, Hx. cbn. unfold pending in Hge at 1. rewrite Hx in Hge. cbn in Hge. rewrite u32_small; lia.
  - intros i' pl1 Hi' Hpl1 s' j k'. unfold wanted. cbn in Hpl1. destruct (decide (i' = i)) as [->|Hne].
    + rewrite lookup_insert_eq in Hpl1. injection Hpl1 as <-. rewrite Hlev, (po_queued _ _ _ Hok i pl Hi Hpl s' j k'). unfold wanted. split.
      * intros [(v1 & m1 & H1) Hn]. exists v1, m1. rewrite Hent, decide_False; [done|]. intros [= -> ->]. auto.
      * intros (v1 & m1 & H1 & H2 & H3 & H4). rewrite Hent in H1. case_decide as Hd; [simplify_eq; cbn in H3; simplify_eq; by rewrite lookup_insert_eq in H4|].
        split; [by exists v1, m1|]. intros [-> ->]. done.
    + rewrite lookup_insert_ne in Hpl1 by done. rewrite (po_queued _ _ _ Hok i' pl1 Hi' Hpl1 s' j k'). unfold wanted. setoid_rewrite Hent. case_decide as Hd; [|done].
      simplify_eq. split.
      * intros (v1 & m1 & H1 & H2 & H3 & H4). assert (v1 = v) as -> by congruence. assert (m1 = m) as -> by congruence. exists v', (<[i := mk_ns f false]> m). split_and!; try done. by rewrite lookup_insert_ne.
      * intros (v1 & m1 & H1 & H2 & H3 & H4). assert (v1 = v') as -> by congruence. cbn in H3. injection H3 as <-. rewrite lookup_insert_ne in H4 by done. by exists v, m.
  - intros i' pl1 Hpl1. cbn. destruct (decide (i' = i)) as [->|Hne]; [|exists pl1; rewrite lookup_insert_ne by done; done].
    exists pl'. rewrite lookup_insert_eq. rewrite Hpl in Hpl1. simplify_eq. split; [done|]. split; try done.
    + intros s' j. destruct (decide ((s', j) = (s, priority v))) as [[= -> ->]|]; [rewrite Hl; apply sublist_filter|by rewrite Ho].
    + intros s' j k' Hk Hnk. rewrite Hlev in Hnk. destruct (decide (s' = s)), (decide (k' = k)); tauto.
  - intros s' k'. unfold st'. by rewrite (info_set s k v).
  - done.
Qed.

Definition only (s : Z) (k : prio_key) : Z -> prio_key -> Prop := fun s' k' => s' = s /\ k' = k.

Lemma evolve_gone P st st' i s k : evolve P st st' -> gone st i s k -> is_Some (Edge_Data st !! i) -> gone st' i s k.
Proof.
  intros [A _ _] Hg [pl Hpl] pl1 j Hpl1 Hk. destruct (A i pl Hpl) as (pl' & Hpl' & [_ _ Hsub _]). simplify_eq. apply (Hg pl j Hpl). by eapply elem_of_sublist.
Qed.

Lemma info_entry st st' s k v : (forall s k, info st' s k = info st s k) -> entry st s k = Some v -> exists v', entry st' s k = Some v' /\ expire v' = expire v /\ priority v' = priority v /\ link_mode v' = link_mode v.
Proof. intros H Hv. specialize (H s k). unfold info in H. rewrite Hv in H. destruct (entry st' s k) as [v'|]; [|done]. cbn in H. exists v'. split; [done|]. split_and!; congruence. Qed.

Section Cleanup.
Context (fr : Z -> prio_key -> Z) (B : Z -> Z) (Hroom : forall i, 1 <= i <= Degree cfg -> 100 * B i < 2 ^ 32).

Lemma cleanup_one_ok st s k v f i :
  prio_ok fr B st -> entry st s k = Some v -> 1 <= i <= Degree cfg -> i <= fr s k -> f <> NEED_MSG ->
  exists st', cleanup_one s k (W s k) f st i = Ret st' /\ prio_ok fr B st' /\ evolve (only s k) st st' /\ gone st' i s k.
Proof.
  intros Hok Hv Hi Hfr Hf. unfold cleanup_one. rewrite Hv. cbn [or_else mbind outcome_bind].
  destruct (Z.eqb_spec (need_count v) 0) as [Hz|Hnz]; [exists st; split_and!; try done; by eapply settled_gone|].
  destruct (vo_state _ _ _ _ (po_vals _ _ _ Hok _ _ _ Hv)) as [[Hz _]|(m & sc & Hm & Hsc & Hw1 & Hw2 & Hdom & Hfl & Hsum)]; [done|].
  rewrite Hm. cbn [or_else mbind outcome_bind]. destruct (proj2 (Hdom i) ltac:(lia)) as [x Hx]. rewrite Hx. cbn [or_else mbind outcome_bind].
  destruct (po_links _ _ _ Hok i Hi) as (pl & Hpl & Hlk). pose proof (po_queued _ _ _ Hok i pl Hi Hpl) as Hq.
  destruct (has_node x) eqn:Hn.
  - rewrite Hpl. cbn [or_else mbind outcome_bind]. pose proof (proj1 (Hfl i x Hx) Hn) as Hflag. assert (x = mk_ns NEED_MSG true) as -> by (destruct x; cbn in *; congruence).
    assert (Hk : k ∈ level pl s (priority v)) by (apply Hq; by exists v, m).
    destruct (unlink_ok W (B i) pl s k (priority v) Hlk (Hroom i Hi) Hk) as (pl' & -> & Hlk' & Hun). cbn [mbind outcome_bind].
    eexists. split; [done|]. by apply (settle_ok fr B st s k v m i pl pl' f).
  - exists st. split_and!; try done. intros pl1 j Hpl1 Hk. simplify_eq. apply Hq in Hk as (v1 & m1 & H1 & _ & H3 & H4).
    assert (v1 = v) as -> by congruence. assert (m1 = m) as -> by congruence. rewrite Hx in H4. by simplify_eq.
Qed.

Lemma cleanup_loop_ok s k f l : forall st v,
  prio_ok fr B st -> entry st s k = Some v -> (forall i, i ∈ l -> 1 <= i <= Degree cfg /\ i <= fr s k) -> f <> NEED_MSG ->
  exists st', foldM (cleanup_one s k (W s k) f) st l = Ret st' /\ prio_ok fr B st' /\ evolve (only s k) st st' /\ forall i, i ∈ l -> gone st' i s k.
Proof.
  induction l as [|i l IH]; intros st v Hok Hv Hl Hf; cbn [foldM]; [exists st; split_and!; try done; by intros i Hi%not_elem_of_nil|].
  destruct (Hl i ltac:(left)) as [Hi Hfr]. destruct (cleanup_one_ok st s k v f i) as (st1 & -> & Hok1 & Hev1 & Hg1); try done. cbn [mbind outcome_bind].
  destruct (info_entry _ _ _ _ _ (ev_info _ _ _ Hev1) Hv) as (v1 & Hv1 & _).
  destruct (IH st1 v1) as (st2 & -> & Hok2 & Hev2 & Hg2); try done; [intros i' Hi'; apply Hl; by right|].
  exists st2. split_and!; try done; [by etrans|]. intros i' [->|Hi']%elem_of_cons; [|by apply Hg2].
  eapply evolve_gone; [exact Hev2|done|]. destruct (po_links _ _ _ Hok1 i Hi) as (pl & -> & _). by eexists.
Qed.

Lemma discard_ok st s k v :
  prio_ok fr B st -> entry st s k = Some v -> prio_ok fr B (set_entry s k (discard v) st) /\ evolve (only s k) st (set_entry s k (discard v) st).
Proof.
  intros Hok Hv. assert (Hp : priority (discard v) = priority v /\ expire (discard v) = expire v /\ link_mode (discard v) = link_mode v) by (unfold discard; by destruct (_ =? _)). destruct Hp as (Hp & He & Hlm).
  split.
  - split.
    + apply (po_links _ _ _ Hok).
    + intros s' k' w. rewrite entry_set. case_decide as Hd; [|apply (po_vals _ _ _ Hok)]. intros [= <-]. simplify_eq.
      destruct (po_vals _ _ _ Hok _ _ _ Hv) as [A1 A2 A4 A5 A3]. split; [done|by rewrite Hp|done| |].
      2:{ unfold discard. destruct (Z.eqb_spec (need_count v) 0); [by left|done]. }
      unfold discard. destruct (Z.eqb_spec (need_count v) 0) as [Hz|]; [intros _|done].
      destruct A3 as [[_ Hno]|(m & sc & _ & _ & _ & _ & Hdom & _ & Hsum)]; [by apply A5|].
      destruct (decide (fr s' k' = Degree cfg)) as [|Hne]; [done|]. exfalso. pose proof (need_zero m (Degree cfg) ltac:(lia) ltac:(lia)) as Hpd. unfold pending in Hpd.
      destruct (m !! Degree cfg) eqn:Em; [|done]. assert (Hs : is_Some (m !! Degree cfg)) by (by eexists). apply Hdom in Hs. lia.
    + intros i pl Hi Hpl s' j k'. rewrite (po_queued _ _ _ Hok i pl Hi Hpl s' j k'). unfold wanted. setoid_rewrite entry_set. case_decide as Hd; [|done]. simplify_eq.
      unfold discard. destruct (Z.eqb_spec (need_count v) 0) as [Hz|Hnz]; [|rewrite Hv; done]. split.
      * intros Hw. exfalso. apply (settled_gone fr B st s' k' v i Hok Hv Hz Hi pl j Hpl). apply (po_queued _ _ _ Hok i pl Hi Hpl). exact Hw.
      * intros (v1 & m1 & H1 & _ & H3 & _). by simplify_eq.
  - split; [intros i pl Hpl; exists pl; done|by apply (info_set s k v)|done].
Qed.

Lemma cleanup_ok st s k v f i :
  prio_ok fr B st -> entry st s k = Some v -> f <> NEED_MSG -> (f = EXPIRED_MSG -> fr s k = Degree cfg) ->
  (f <> EXPIRED_MSG -> 1 <= i <= Degree cfg /\ i <= fr s k) ->
  exists st', Cleanup_prio_flood_ds cfg i s k f st = Ret st' /\ prio_ok fr B st' /\ evolve (only s k) st st' /\
    forall i', (if decide (f = EXPIRED_MSG) then 1 <= i' <= Degree cfg else i' = i) -> gone st' i' s k.
Proof.
  intros Hok Hv Hf He Hne. unfold Cleanup_prio_flood_ds. rewrite Hv. cbn [or_else mbind outcome_bind].
  assert (Hrange : forall i', (if decide (f = EXPIRED_MSG) then 1 <= i' <= Degree cfg else i' = i) -> 1 <= i' <= Degree cfg /\ i' <= fr s k).
  { intros i'. case_decide as Hd; [intros; rewrite He by done; lia|]. intros ->. by apply Hne. }
  destruct (Z.eqb_spec (need_count v) 0) as [Hz|Hnz]; [exists st; split_and!; try done; intros i' Hi'; eapply settled_gone; try done; by apply Hrange|].
  destruct (vo_state _ _ _ _ (po_vals _ _ _ Hok _ _ _ Hv)) as [[Hz _]|(m & sc & Hm & Hsc & Hw1 & Hw2 & Hdom & Hfl & Hsum)]; [done|].
  rewrite Hsc. cbn [or_else mbind outcome_bind]. rewrite Hw1. set (l := if bool_decide _ then _ else _).
  assert (Hl : forall i', i' ∈ l <-> (if decide (f = EXPIRED_MSG) then 1 <= i' <= Degree cfg else i' = i)).
  { intros i'. unfold l. case_bool_decide; case_decide; try done; [rewrite seqZ_elem; lia|apply list_elem_of_singleton]. }
  destruct (cleanup_loop_ok s k f l st v) as (st1 & -> & Hok1 & Hev1 & Hg1); try done; [intros i' Hi'%Hl; by apply Hrange|]. cbn [mbind outcome_bind].
  destruct (info_entry _ _ _ _ _ (ev_info _ _ _ Hev1) Hv) as (v1 & Hv1 & _). rewrite Hv1. cbn [or_else mbind outcome_bind].
  destruct (discard_ok st1 s k v1 Hok1 Hv1) as [Hok2 Hev2]. eexists. split; [done|]. split_and!; try done; [by etrans|].
  intros i' Hi'%Hl. eapply evolve_gone; [exact Hev2|by apply Hg1|]. destruct (po_links _ _ _ Hok1 i') as (pl & -> & _); [by apply Hrange, Hl|by eexists].
Qed.
End Cleanup.
End State.
