(* ===== verification/PrioSend.v ===== *)
(** * PrioSend: sending in priority flooding

    [Priority_Flood_Send_One] ends, and hands the link at most one message: the
    oldest one of greatest priority of the source at the turn. *)
From stdpp Require Import base list gmap numbers option sets.
From Stdlib Require Import ZArith Lia.
From S2P Require Import Prelude HashMap Events NetTypes MultiPath ITFrag PrioFlood PrioProof PrioState.
#[local] Open Scope Z_scope.

(** Messages satisfying [P] (neighbour, source, key) may have left the queues;
    the fair queues may have changed. *)
Record drain (P : Z -> Z -> prio_key -> Prop) (st st' : prio) : Prop := {
  dr_links : forall i pl, Edge_Data st !! i = Some pl -> exists pl', Edge_Data st' !! i = Some pl' /\
    (forall s j, sublist (level pl' s j) (level pl s j)) /\ forall s j k, k ∈ level pl s j -> ~ k ∈ level pl' s j -> P i s k;
  dr_info : forall s k, info st' s k = info st s k }.

#[export] Instance drain_preorder P : PreOrder (drain P).
Proof.
  split; [intros st; split; [|done]; intros i pl H; by exists pl|].
  intros a b c [A1 A2] [B1 B2]. split; [|intros; by rewrite B2].
  intros i pl H. destruct (A1 i pl H) as (pl1 & H1 & S1 & L1). destruct (B1 i pl1 H1) as (pl2 & H2 & S2 & L2). exists pl2. split; [done|].
  split; [intros; etrans; [apply S2|apply S1]|]. intros s j k Hk Hn. destruct (decide (k ∈ level pl1 s j)); eauto.
Qed.

Lemma drain_weaken (P Q : Z -> Z -> prio_key -> Prop) st st' : (forall i s k, P i s k -> Q i s k) -> drain P st st' -> drain Q st st'.
Proof. intros H [A B]. split; [|done]. intros i pl Hpl. destruct (A i pl Hpl) as (pl' & ? & ? & ?). exists pl'. split_and!; try done. intros. eapply H; eauto. Qed.

Lemma evolve_drain P (Q : Z -> Z -> prio_key -> Prop) st st' : (forall i s k, P s k -> Q i s k) -> evolve P st st' -> drain Q st st'.
Proof. intros H [A B _]. split; [|done]. intros i pl Hpl. destruct (A i pl Hpl) as (pl' & ? & [_ _ ? ?]). exists pl'. split_and!; try done. intros. eapply H; eauto. Qed.

Definition old (t : sp_time) (st : prio) (s : Z) (k : prio_key) : Prop := exists x, info st s k = Some x /\ (E_compare_time (fst x) t <=? 0) = true.

Lemma old_info t st st' s k : (forall s k, info st' s k = info st s k) -> old t st' s k <-> old t st s k.
Proof. intros H. unfold old. by rewrite H. Qed.

Lemma packets_u16 ls m : 0 <= fst (Calculate_Packets_In_Message ls m) < 65536.
Proof.
  unfold Calculate_Packets_In_Message. match goal with |- context [foldl ?f (1, 0) m] => set (g := f) end.
  assert (H : forall l a b, 0 <= a < 65536 -> 0 <= fst (foldl g (a, b) l) < 65536).
  { induction l as [|x l IH]; intros a b Ha; [done|]. cbn [foldl]. destruct (g (a, b) x) as [a' b'] eqn:Eg. apply IH. unfold g in Eg.
    destruct (_ <? _); simplify_eq; [|done]. exact (wrapu_range 16 (a + 1) ltac:(lia)). }
  specialize (H m 1 0 ltac:(lia)). destruct (foldl g (1, 0) m). done.
Qed.

Lemma packets_range ls m : (length m <= 99)%nat -> 1 <= fst (Calculate_Packets_In_Message ls m) <= 100.
Proof.
  intros Hm. unfold Calculate_Packets_In_Message. match goal with |- context [foldl ?f (1, 0) m] => set (g := f) end.
  assert (H : forall l a b, 1 <= a -> a + Z.of_nat (length l) <= 100 -> 1 <= fst (foldl g (a, b) l) <= 100).
  { induction l as [|x l IH]; intros a b Ha Hl; cbn [length] in Hl; [cbn; lia|]. cbn [foldl]. destruct (g (a, b) x) as [a' b'] eqn:Eg. unfold g in Eg.
    apply IH; destruct (_ <? _); simplify_eq; rewrite ?u16_small; lia. }
  specialize (H m 1 0 ltac:(lia) ltac:(lia)). destruct (foldl g (1, 0) m). done.
Qed.

Lemma sublist_same {A} (l1 l2 : list A) : sublist l1 l2 -> length l1 = length l2 -> l1 = l2.
Proof. induction 1 as [|x l1 l2 _ IH|x l1 l2 Hs _]; cbn; intros H; [done|f_equal; apply IH; lia|]. pose proof (sublist_length _ _ Hs). lia. Qed.

Lemma messages_lt pl pl' s j k :
  (forall s j, sublist (level pl' s j) (level pl s j)) -> k ∈ level pl s j -> ~ k ∈ level pl' s j -> 1 <= s <= MAX_NODES -> 1 <= j <= MAX_PRIORITY ->
  messages pl' < messages pl.
Proof.
  intros Hsub Hk Hn Hs Hj.
  assert (Hle : forall s j, Z.of_nat (length (level pl' s j)) <= Z.of_nat (length (level pl s j))) by (intros s' j'; pose proof (sublist_length _ _ (Hsub s' j')); lia).
  unfold messages. apply (sumZ_lt _ _ _ s); [intros s' _; apply sumZ_le; intros; apply Hle|apply seqZ_elem; lia|].
  apply (sumZ_lt _ _ _ j); [intros; apply Hle|apply seqZ_elem; unfold MAX_PRIORITY in *; lia|].
  assert (length (level pl' s j) <> length (level pl s j)); [|specialize (Hle s j); lia].
  intros Heq. apply Hn. rewrite (sublist_same _ _ (Hsub s j) Heq). done.
Qed.

Section Send.
Context (cfg : prio_conf) (W : Z -> prio_key -> Z) (Hdeg : 0 <= Degree cfg < 2 ^ 16).
Context (fr : Z -> prio_key -> Z) (B : Z -> Z) (Hroom : forall i, 1 <= i <= Degree cfg -> 100 * B i < 2 ^ 32).
#[local] Notation ok := (prio_ok cfg W fr B).

Lemma set_link_ok st i pl pl' :
  ok st -> 1 <= i <= Degree cfg -> Edge_Data st !! i = Some pl -> link_ok W (B i) pl' -> pq pl' = pq pl ->
  ok (set_link i pl' st) /\ forall P, drain P st (set_link i pl' st).
Proof.
  intros Hok Hi Hpl Hlk Hpq. assert (Hlev : forall s j, level pl' s j = level pl s j) by (intros; unfold level; by rewrite Hpq). split.
  - split; [|apply (po_vals _ _ _ _ _ Hok)|].
    + intros i' Hi'. cbn. destruct (decide (i' = i)) as [->|]; [rewrite lookup_insert_eq; by exists pl'|]. rewrite lookup_insert_ne by done. by apply (po_links _ _ _ _ _ Hok).
    + intros i' pl1 Hi' Hpl1 s j k. cbn in Hpl1. destruct (decide (i' = i)) as [->|].
      * rewrite lookup_insert_eq in Hpl1. injection Hpl1 as <-. rewrite Hlev. apply (po_queued _ _ _ _ _ Hok i pl Hi Hpl).
      * rewrite lookup_insert_ne in Hpl1 by done. apply (po_queued _ _ _ _ _ Hok i' pl1 Hi' Hpl1).
  - intros P. split; [|done]. intros i' pl1 Hpl1. cbn. destruct (decide (i' = i)) as [->|].
    + rewrite lookup_insert_eq. exists pl'. simplify_eq. split; [done|]. split; [intros; by rewrite Hlev|]. intros s j k Hk Hn. by rewrite Hlev in Hn.
    + rewrite lookup_insert_ne by done. exists pl1. split; [done|]. split; [done|]. intros. done.
Qed.

Lemma queued_entry st i pl s j k :
  ok st -> 1 <= i <= Degree cfg -> Edge_Data st !! i = Some pl -> k ∈ level pl s j ->
  exists v m sc, entry st s k = Some v /\ priority v = j /\ live_ok cfg W (fr s k) s k v m sc /\ i <= fr s k.
Proof.
  intros Hok Hi Hpl Hk. apply (po_queued _ _ _ _ _ Hok i pl Hi Hpl) in Hk as (v & m & Hv & Hp & Hm & Hx).
  destruct (vo_state _ _ _ _ _ _ (po_vals _ _ _ _ _ Hok _ _ _ Hv)) as [[_ Hno]|(m' & sc & Hl)]; [congruence|].
  exists v, m', sc. split_and!; try done. destruct Hl as (Hm' & _ & _ & _ & Hdom & _). rewrite Hm in Hm'. simplify_eq. apply Hdom. by eexists.
Qed.

(** A message that is not done being offered has not expired. *)
Definition offered_ok (t : sp_time) (st : prio) : Prop := forall s k, old t st s k -> fr s k = Degree cfg.

Definition next_up (t : sp_time) (st : prio) (i s : Z) (k : prio_key) : Prop :=
  exists pl rest, Edge_Data st !! i = Some pl /\ level pl s (max_pq pl s) = k :: rest /\ max_ok pl s /\ ~ old t st s k.

(** What sending does: it drops expired messages, and forwards at most one. *)
Definition sends (t : sp_time) (i : Z) (st st' : prio) : Prop :=
  (forwarded st' = forwarded st /\ drain (fun _ => old t st) st st') \/
  exists st1 s k, drain (fun _ => old t st) st st1 /\ next_up t st1 i s k /\ forwarded st' = forwarded st ++ [(i, s, k)] /\
    drain (fun _ => only s k) st1 st' /\ gone st' i s k.

Lemma sends_after t i st st1 st' :
  drain (fun _ => old t st) st st1 -> forwarded st1 = forwarded st -> sends t i st1 st' -> sends t i st st'.
Proof.
  intros Hd Hf Hs. assert (Hw : forall a b, drain (fun _ => old t st1) a b -> drain (fun _ => old t st) a b).
  { intros a b. apply drain_weaken. intros _ s k. apply (old_info t st st1 s k (dr_info _ _ _ Hd)). }
  destruct Hs as [[H1 H2]|(st2 & s & k & H1 & H2 & H3 & H4 & H5)].
  - left. split; [congruence|]. etrans; [done|by apply Hw].
  - right. exists st2, s, k. split_and!; try done; [etrans; [done|by apply Hw]|congruence].
Qed.

Lemma expired_old t st s k v : entry st s k = Some v -> expired t v = true <-> old t st s k.
Proof.
  intros Hv. unfold old, info. rewrite Hv. cbn. split; [intros H; by exists (expire v, (priority v, link_mode v))|]. by intros (x & [= <-] & H).
Qed.

Lemma log_forward_ok i s k st : ok st -> ok (log_forward i s k st).
Proof. intros [A1 A2 A3]. split; [exact A1|exact A2|exact A3]. Qed.

(** The turn of a source with a message. *)
Lemma send_turn_ok t mode fwd i s st pl :
  ok st -> offered_ok t st -> 1 <= i <= Degree cfg -> Edge_Data st !! i = Some pl -> 0 < msg_count pl s ->
  exists r, send_turn cfg t mode fwd i s pl st = Ret r /\
    match r with
    | inl st' => ok st' /\ drain (fun _ => old t st) st st' /\ forwarded st' = forwarded st /\
        exists pl', Edge_Data st' !! i = Some pl' /\ messages pl' < messages pl /\
          norm pl' = norm (set_penalty 1 pl) /\ urgent pl' = urgent (set_penalty 1 pl)
    | inr (_, st') => ok st' /\ sends t i st st'
    end.
Proof.
  intros Hok Hoff Hi Hpl Hc. destruct (po_links _ _ _ _ _ Hok i Hi) as (pl0 & Hpl0 & Hlk). rewrite Hpl in Hpl0. injection Hpl0 as <-.
  pose proof (lk_max _ _ _ Hlk s) as Hmx. unfold send_turn.
  destruct (level pl s (max_pq pl s)) as [|k rest] eqn:El.
  { exfalso. assert (Hz : weight W pl s = 0); [|rewrite (lk_count _ _ _ Hlk) in Hc; lia]. apply weight_zero; [apply Hlk|]. intros j.
    pose proof (mx_range _ _ Hmx). destruct (decide (1 <= max_pq pl s)); [by destruct (mx_some _ _ Hmx)|].
    destruct (decide (max_pq pl s < j)); [by apply (mx_above _ _ Hmx)|]. destruct (level pl s j) as [|x l] eqn:E; [done|].
    destruct (lv_dom _ _ (lk_levels _ _ _ Hlk) s j x); [rewrite E; left|lia]. }
  assert (Hk : k ∈ level pl s (max_pq pl s)) by (rewrite El; left).
  destruct (queued_entry st i pl s _ k Hok Hi Hpl Hk) as (v & m & sc & Hv & Hp & (Hm & Hsc & _) & Hfr). rewrite Hv. cbn [or_else mbind outcome_bind].
  destruct (expired t v) eqn:He.
  - apply (expired_old t st s k v Hv) in He.
    destruct (cleanup_ok cfg W Hdeg fr B Hroom st s k v EXPIRED_MSG i) as (st1 & -> & Hok1 & Hev & Hg); try done; [intros _; by apply Hoff|]. cbn [mbind outcome_bind].
    destruct (ev_links _ _ _ Hev i pl Hpl) as (pl1 & Hpl1 & [Hn Hu Hsub _]). rewrite Hpl1. cbn [or_else mbind outcome_bind].
    eexists. split; [done|]. cbn. destruct (po_links _ _ _ _ _ Hok1 i Hi) as (pl1' & Hpl1' & Hlk1). rewrite Hpl1 in Hpl1'. injection Hpl1' as <-.
    destruct (set_link_ok st1 i pl1 (set_penalty 1 pl1)) as [Hok2 Hd2]; try done; [by apply set_penalty_ok|unfold set_penalty; by destruct (urgent pl1) as [|[]], (norm pl1) as [|[]]|].
    split; [done|]. split; [etrans; [|apply Hd2]; eapply evolve_drain; [|exact Hev]; intros _ s' k' [-> ->]; done|]. split; [apply (ev_forwarded _ _ _ Hev)|].
    exists (set_penalty 1 pl1). rewrite lookup_insert_eq. split; [done|].
    destruct (lv_dom _ _ (lk_levels _ _ _ Hlk) _ _ _ Hk). pose proof (Hg i ltac:(rewrite decide_True by done; done) pl1 (max_pq pl s) Hpl1) as Hgone.
    pose proof (messages_lt pl pl1 s _ k Hsub Hk Hgone ltac:(done) ltac:(done)) as Hlt.
    unfold set_penalty. rewrite Hn, Hu. destruct (urgent pl) as [|[]] eqn:Eu; [destruct (norm pl) as [|[]] eqn:En|]; (split_and!; [exact Hlt|cbn; congruence|cbn; congruence]).
  - rewrite Hsc. cbn [or_else mbind outcome_bind]. destruct (_ || _).
    + set (pk := packets_of_msg cfg mode sc). assert (Hpk : 0 <= pk < 65536) by apply packets_u16.
      assert (Hpq : pq (to_back pk (count_sent pl)) = pq pl) by (unfold to_back; cbn; by destruct (urgent pl) as [|[]], (norm pl) as [|[]]).
      destruct (set_link_ok st i pl (to_back pk (count_sent pl))) as [Hok1 Hd1]; try done; [apply to_back_ok; [by apply count_sent_ok|done]|].
      apply (log_forward_ok i s k) in Hok1. set (st1 := log_forward i s k _) in *.
      destruct (cleanup_ok cfg W Hdeg fr B Hroom st1 s k v ON_LINK_MSG i) as (st2 & -> & Hok2 & Hev & Hg); try done. cbn [mbind outcome_bind].
      eexists. split; [done|]. cbn. split; [done|]. right. exists st, s, k. split; [done|].
      split; [exists pl, rest; split_and!; try done; intros Ho%(expired_old t st s k v Hv); congruence|].
      split; [rewrite (ev_forwarded _ _ _ Hev); done|]. split; [|by apply Hg].
      etrans; [|eapply evolve_drain; [|exact Hev]; done]. destruct (Hd1 (fun _ => only s k)) as [D1 D2]. split; [exact D1|exact D2].
    + assert (Hpq : pq (set_penalty 1 (count_sent pl)) = pq pl) by (unfold set_penalty; cbn; by destruct (urgent pl) as [|[]], (norm pl) as [|[]]).
      destruct (set_link_ok st i pl (set_penalty 1 (count_sent pl))) as [Hok1 Hd1]; try done; [apply set_penalty_ok; by apply count_sent_ok|].
      eexists. split; [done|]. cbn. split; [done|]. left. split; [done|]. apply Hd1.
Qed.

Lemma offered_drain t st st' P : offered_ok t st -> drain P st st' -> offered_ok t st'.
Proof. intros H [_ Hi] s k Ho. apply H. by apply (old_info t st st' s k Hi). Qed.

Lemma set_penalty_turns pl pl' :
  norm pl' = norm (set_penalty 1 pl) -> urgent pl' = urgent (set_penalty 1 pl) ->
  (forall s p r, urgent pl = [] -> norm pl = (s, p) :: r -> p = 1) -> turns pl' - messages pl' = turns pl - messages pl.
Proof.
  intros Hn Hu Hp. unfold turns. rewrite Hn, Hu. unfold set_penalty.
  destruct (urgent pl) as [|[s p] u] eqn:Eu; [destruct (norm pl) as [|[s p] r] eqn:En|]; cbn [set_queues norm urgent]; rewrite ?Eu, ?En; [lia| |].
  - rewrite (Hp s p r eq_refl eq_refl). cbn [sumZ snd]. lia.
  - rewrite !sumZ_const. cbn [length]. lia.
Qed.

(** The loop ends before its turns are used up. *)
Lemma send_loop_ok t mode fwd i n : forall st pl,
  ok st -> offered_ok t st -> 1 <= i <= Degree cfg -> Edge_Data st !! i = Some pl -> turns pl < Z.of_nat n ->
  exists b st', send_loop cfg t mode fwd i n st = Ret (b, st') /\ ok st' /\ sends t i st st'.
Proof.
  induction n as [|n IH]; intros st pl Hok Hoff Hi Hpl Hn; destruct (po_links _ _ _ _ _ Hok i Hi) as (pl0 & Hpl0 & Hlk); rewrite Hpl in Hpl0; injection Hpl0 as <-.
  { pose proof (turns_nonneg W (B i) pl Hlk). lia. }
  assert (Hback : forall p, 0 <= p < 65536 -> turns (to_back p pl) < turns pl -> exists b st', send_loop cfg t mode fwd i n (set_link i (to_back p pl) st) = Ret (b, st') /\ ok st' /\ sends t i st st').
  { intros p Hp Hlt. assert (Hpq : pq (to_back p pl) = pq pl) by (unfold to_back; by destruct (urgent pl) as [|[]], (norm pl) as [|[]]).
    destruct (set_link_ok st i pl (to_back p pl)) as [Hok1 Hd1]; try done; [by apply to_back_ok|].
    destruct (IH (set_link i (to_back p pl) st) (to_back p pl)) as (b & st' & He & Hok' & Hs); try done; [by cbn; rewrite lookup_insert_eq|lia|].
    exists b, st'. split_and!; try done. eapply sends_after; [apply Hd1|done|done]. }
  assert (Hturn : forall s p r, ((urgent pl = (s, p) :: r) \/ (urgent pl = [] /\ norm pl = (s, p) :: r)) -> 0 <= p < 65536 -> 0 < msg_count pl s -> u16 (p - 1) <= 0 ->
    exists b st', (r ← send_turn cfg t mode fwd i s pl st; match r with inl st => send_loop cfg t mode fwd i n st | inr r => Ret r end) = Ret (b, st') /\ ok st' /\ sends t i st st').
  { intros s p r Hhead Hp Hc Hz. destruct (send_turn_ok t mode fwd i s st pl) as (x & -> & Hx); try done. cbn [mbind outcome_bind]. destruct x as [st1|[b st1]]; [|by exists b, st1].
    destruct Hx as (Hok1 & Hd1 & Hf1 & pl1 & Hpl1 & Hm1 & Hn1 & Hu1).
    assert (Ht : turns pl1 - messages pl1 = turns pl - messages pl).
    { apply set_penalty_turns; try done. intros s' p' r' Hu' Hn'. destruct Hhead as [Hh|[_ Hh]]; [congruence|]. rewrite Hh in Hn'. injection Hn' as <- <- <-.
      destruct (decide (p = 0)) as [->|]; [done|]. rewrite u16_small in Hz by lia. lia. }
    destruct (IH st1 pl1) as (b & st' & He & Hok' & Hs); try done; [by eapply offered_drain|lia|].
    exists b, st'. split_and!; try done. by eapply sends_after. }
  cbn [send_loop]. rewrite Hpl. cbn [or_else mbind outcome_bind]. pose proof (lk_fair _ _ _ Hlk) as [_ _ _ Hur Hno].
  pose proof (fun s => lk_count _ _ _ Hlk s) as Hcnt. assert (Hcpos : forall s, msg_count pl s <> 0 -> 0 < msg_count pl s).
  { intros s. rewrite Hcnt. pose proof (weight_size W pl s (lk_levels _ _ _ Hlk)). pose proof (size_nonneg pl s). lia. }
  destruct (urgent pl) as [|[s p] u] eqn:Eu; [destruct (norm pl) as [|[s p] r] eqn:En|].
  - exists 0, st. split_and!; try done. left. by split.
  - inversion_clear Hno as [|? ? Hp _]. cbn in Hp. destruct (Z.ltb_spec 0 (u16 (p - 1))) as [Hpos|Hz].
    { apply Hback; [apply (wrapu_range 16 (p - 1)); lia|by eapply to_back_turns_norm]. }
    assert (p = 1) as ->. { destruct (decide (p = 0)) as [->|]; [done|]. rewrite u16_small in Hz by lia. lia. }
    destruct (Z.eqb_spec (msg_count pl s) 0) as [Hc|Hc]; [|apply (Hturn s 1 r); auto].
    pose proof (leave_turns pl s r Eu En). destruct (set_link_ok st i pl (leave s pl)) as [Hok1 Hd1]; try done; [by eapply leave_ok|].
    destruct (IH (set_link i (leave s pl) st) (leave s pl)) as (b & st' & He & Hok' & Hs); try done; [by cbn; rewrite lookup_insert_eq|lia|].
    exists b, st'. split_and!; try done. eapply sends_after; [apply Hd1|done|done].
  - inversion_clear Hur as [|? ? Hp _]. cbn in Hp. subst p. destruct (Z.ltb_spec 0 (u16 (1 - 1))) as [Hpos|Hz]; [done|]. cbn [orb].
    destruct (Z.eqb_spec (msg_count pl s) 0) as [Hc|Hc]; [|apply (Hturn s 1 u); auto; lia].
    apply Hback; [apply (wrapu_range 16 (1 - 1)); lia|by eapply to_back_turns_urgent].
Qed.

Lemma send_to_ok t mode fwd i st :
  ok st -> offered_ok t st -> 1 <= i <= Degree cfg ->
  exists b st', send_to cfg t mode fwd i st = Ret (b, st') /\ ok st' /\ sends t i st st'.
Proof.
  intros Hok Hoff Hi. destruct (po_links _ _ _ _ _ Hok i Hi) as (pl & Hpl & Hlk). unfold send_to. rewrite Hpl. cbn [or_else mbind outcome_bind].
  apply (send_loop_ok t mode fwd i _ st pl); try done. pose proof (turns_nonneg W (B i) pl Hlk). lia.
Qed.
End Send.
