(* ===== verification/PrioDissem.v ===== *)
(** * PrioDissem: messages offered to the neighbours

    [Priority_Flood_Disseminate] and [Priority_Garbage_Collect] return and keep the
    invariant.  While a new message is offered to the neighbours one after the
    other, the frontier [upto] says how far it is. *)
From stdpp Require Import base list gmap numbers option sets.
From Stdlib Require Import ZArith Lia.
From S2P Require Import Prelude HashMap Events NetTypes MultiPath ITFrag PrioFlood PrioProof PrioState PrioSend.
#[local] Open Scope Z_scope.

Lemma set_entry_twice s k v w st : set_entry s k w (set_entry s k v st) = set_entry s k w st.
Proof. unfold set_entry, set_belly, belly. cbn. rewrite lookup_insert_eq. cbn. by rewrite !insert_insert_eq. Qed.

Record pconf_ok (cfg : prio_conf) : Prop := {
  pc_degree : 0 <= Degree cfg < 2 ^ 16; pc_max : 0 <= Max_Mess_Stored cfg; pc_room : 100 * (Max_Mess_Stored cfg + 1) < 2 ^ 32;
  pc_lookup : forall a s, Node_Lookup cfg a = Some s -> 1 <= s <= MAX_NODES }.

Section Offer.
Context (cfg : prio_conf) (Hcfg : pconf_ok cfg).
#[local] Notation deg := (Degree cfg).
#[local] Notation cap := (Max_Mess_Stored cfg).

Definition upto (s : Z) (k : prio_key) (d : Z) : Z -> prio_key -> Z := fun s' k' => if decide ((s', k') = (s, k)) then d else deg.
Definition room (i n : Z) : Z -> Z := fun i' => if decide (i' = i) then n else cap.

Lemma room_bound i n : n <= cap + 1 -> forall i', 1 <= i' <= deg -> 100 * room i n i' < 2 ^ 32.
Proof. intros Hn i' _. pose proof (pc_room _ Hcfg). unfold room. case_decide; lia. Qed.

(** What was handed to the links since [mark] messages were: no message twice to
    the same neighbour. *)
Context (mark : nat).
Definition since (st : prio) : list (Z * Z * prio_key) := drop mark (forwarded st).
Record fwd_ok (fr : Z -> prio_key -> Z) (st : prio) : Prop := {
  fw_mark : (mark <= length (forwarded st))%nat; fw_nodup : NoDup (since st);
  fw_gone : forall i s k, (i, s, k) ∈ since st -> 1 <= i <= deg /\ i <= fr s k /\ gone st i s k }.

Section Fixed.
Context (W : Z -> prio_key -> Z).

Lemma drain_gone fr B P st st' i s k : prio_ok cfg W fr B st -> drain P st st' -> 1 <= i <= deg -> gone st i s k -> gone st' i s k.
Proof.
  intros Hok [A _] Hi Hg pl1 j Hpl1 Hk. destruct (po_links _ _ _ _ _ Hok i Hi) as (pl & Hpl & _). destruct (A i pl Hpl) as (pl' & Hpl' & Hsub & _).
  rewrite Hpl1 in Hpl'. injection Hpl' as <-. apply (Hg pl j Hpl). by eapply elem_of_sublist.
Qed.

Lemma fwd_ok_keep fr st st' :
  fwd_ok fr st -> forwarded st' = forwarded st -> (forall i s k, 1 <= i <= deg -> gone st i s k -> gone st' i s k) -> fwd_ok fr st'.
Proof. intros [A0 A G] Hf Hg. unfold since in *. split; unfold since; rewrite Hf; [done|done|]. intros i s k Hin. destruct (G i s k Hin) as (H1 & H2 & H3). split_and!; try lia. by apply Hg. Qed.

(** The messages forwarded in between were in the bellies. *)
Definition from_belly (st st' : prio) : Prop :=
  (forall s k, info st' s k = info st s k) /\ forall x, x ∈ forwarded st' -> x ∈ forwarded st \/ is_Some (info st x.1.2 x.2).

Lemma from_belly_refl st : from_belly st st.
Proof. split; auto. Qed.

Lemma from_belly_trans a b c : from_belly a b -> from_belly b c -> from_belly a c.
Proof. intros [A1 A2] [B1 B2]. split; [intros; by rewrite B1|]. intros x [Hx|Hx]%B2; [by apply A2|]. rewrite A1 in Hx. by right. Qed.

Lemma from_belly_same st st' : (forall s k, info st' s k = info st s k) -> forwarded st' = forwarded st -> from_belly st st'.
Proof. intros H Hf. split; [done|]. rewrite Hf. auto. Qed.

Lemma sends_fwd fr B t i st st' :
  prio_ok cfg W fr B st -> 1 <= i <= deg -> fwd_ok fr st -> sends t i st st' -> fwd_ok fr st' /\ from_belly st st'.
Proof.
  intros Hok Hi Hfw Hs. destruct Hs as [[Hf Hd]|(st1 & s & k & Hd1 & (pl1 & rest & Hpl1 & Hl1 & _) & Hf & Hd2 & Hg)].
  - split; [|apply from_belly_same; [apply Hd|done]]. apply (fwd_ok_keep fr st); try done. intros. by eapply drain_gone.
  - destruct (po_links _ _ _ _ _ Hok i Hi) as (pl & Hpl & _). destruct (dr_links _ _ _ Hd1 i pl Hpl) as (pl1' & Hpl1' & Hsub & _). rewrite Hpl1 in Hpl1'. injection Hpl1' as <-.
    assert (Hk : k ∈ level pl s (max_pq pl1 s)). { eapply elem_of_sublist; [|apply Hsub]. rewrite Hl1. left. }
    destruct (queued_entry cfg W fr B st i pl s _ k Hok Hi Hpl Hk) as (v & m & sc & Hv & _ & _ & Hfr).
    assert (Hkeep : forall i' s' k', 1 <= i' <= deg -> gone st i' s' k' -> gone st' i' s' k').
    { intros i' s' k' Hi' Hg' pl2 j Hpl2 Hk2. destruct (po_links _ _ _ _ _ Hok i' Hi') as (pl' & Hpl' & _).
      destruct (dr_links _ _ _ Hd1 i' pl' Hpl') as (pa & Ha & Sa & _). destruct (dr_links _ _ _ Hd2 i' pa Ha) as (pb & Hb & Sb & _). rewrite Hpl2 in Hb. injection Hb as <-.
      apply (Hg' pl' j Hpl'). eapply elem_of_sublist; [exact Hk2|]. etrans; [apply Sb|apply Sa]. }
    split; [|split].
    + destruct Hfw as [A0 A G]. unfold since in *. split; unfold since; rewrite Hf, ?drop_app_le by done.
      * rewrite length_app. lia.
      * apply NoDup_app. split; [done|]. split; [|apply NoDup_singleton]. intros x Hx ->%list_elem_of_singleton. destruct (G _ _ _ Hx) as (_ & _ & Hg0). by apply (Hg0 pl (max_pq pl1 s) Hpl).
      * intros i' s' k' [Hx|[= -> -> ->]%list_elem_of_singleton]%elem_of_app; [|done]. destruct (G _ _ _ Hx) as (H1 & H2 & H3). split_and!; try lia. by apply Hkeep.
    + intros s' k'. by rewrite (dr_info _ _ _ Hd2), (dr_info _ _ _ Hd1).
    + rewrite Hf. intros x [Hx| ->%list_elem_of_singleton]%elem_of_app; [by left|right]. change (is_Some (info st s k)). unfold info. rewrite Hv. by eexists.
Qed.

Lemma prio_ok_ext fr fr' B B' st : (forall s k, fr s k = fr' s k) -> (forall i, 1 <= i <= deg -> B i = B' i) -> prio_ok cfg W fr B st -> prio_ok cfg W fr' B' st.
Proof.
  intros Hf HB [A1 A2 A3]. split; [|intros s k v Hv; rewrite <- Hf; by apply A2|done].
  intros i Hi. destruct (A1 i Hi) as (pl & Hpl & Hlk). exists pl. split; [done|]. by rewrite <- HB.
Qed.

(** One more status of the message. *)
Lemma status_live d s k v m sc x :
  0 <= d < deg -> (has_node x = true <-> flag x = NEED_MSG) -> live_ok cfg W d s k v m sc ->
  live_ok cfg W (d + 1) s k (set_status (if has_node x then need_count v else u32 (need_count v - 1)) (Some (<[d + 1 := x]> m)) v) (<[d + 1 := x]> m) sc.
Proof.
  intros Hd Hx (Hm & Hsc & Hw & Hwr & Hdom & Hfl & Hsum). do 4 (split; [done|]). pose proof (pc_degree _ Hcfg) as Hdeg.
  assert (Hnone : m !! (d + 1) = None). { destruct (m !! (d + 1)) eqn:E; [|done]. assert (Hs : is_Some (m !! (d + 1))) by (by eexists). apply Hdom in Hs. lia. }
  split; [|split].
  - intros i. destruct (decide (i = d + 1)) as [->|]; [rewrite lookup_insert_eq; split; [lia|by eexists]|]. rewrite lookup_insert_ne by done. rewrite Hdom. lia.
  - intros i y. destruct (decide (i = d + 1)) as [->|]; [rewrite lookup_insert_eq; by intros [= <-]|rewrite lookup_insert_ne by done; apply Hfl].
  - cbn [set_status need_count]. rewrite (sumZ_update (pending m) _ _ (d + 1)); [|apply NoDup_seqZ|apply seqZ_elem; lia|].
    2:{ intros y Hy. unfold pending. by rewrite lookup_insert_ne. }
    pose proof (pending_sum cfg Hdeg m). assert (Hge : pending m (d + 1) <= sumZ (pending m) (seqZ 1 deg)) by (apply (sumZ_ge (pending m)); [intros; apply pending_range|apply seqZ_elem; lia]).
    unfold pending at 2 3. unfold pending in Hge at 1. rewrite lookup_insert_eq, Hnone in *. destruct (has_node x); [lia|]. rewrite u32_small; lia.
Qed.

(** The message under way, not offered to all neighbours yet. *)
Lemma offering_live s k d B st v : prio_ok cfg W (upto s k d) B st -> entry st s k = Some v -> 0 <= d < deg -> exists m sc, live_ok cfg W d s k v m sc.
Proof.
  intros Hok Hv Hd. destruct (po_vals _ _ _ _ _ Hok _ _ _ Hv) as [_ _ _ Hdone Hst]. unfold upto in *. rewrite decide_True in * by done.
  destruct Hst as [[Hz Hno]|Hl]; [|done]. apply Hdone in Hno. lia.
Qed.

(** The others are settled before and after. *)
Lemma upto_other s k d d' s' k' : (s, k) <> (s', k') -> upto s k d s' k' = upto s k d' s' k'.
Proof. intros H. unfold upto. rewrite !decide_False by congruence. done. Qed.

Lemma upto_same s k d : upto s k d s k = d.
Proof. unfold upto. by rewrite decide_True. Qed.

Lemma no_send_ok s k d B st v f :
  prio_ok cfg W (upto s k d) B st -> (forall i, 1 <= i <= deg -> 100 * B i < 2 ^ 32) -> entry st s k = Some v -> 0 <= d < deg -> f <> NEED_MSG ->
  exists st', no_send s k f (d + 1) st = Ret st' /\ prio_ok cfg W (upto s k (d + 1)) B st' /\ (forall s k, info st' s k = info st s k) /\
    forwarded st' = forwarded st /\ Edge_Data st' = Edge_Data st.
Proof.
  intros Hok HB Hv Hd Hf. destruct (offering_live _ _ _ _ _ _ Hok Hv Hd) as (m & sc & Hl). unfold no_send. rewrite Hv. cbn [or_else mbind outcome_bind].
  pose proof (status_live d s k v m sc (mk_ns f false) Hd ltac:(by split) Hl) as Hl'. destruct Hl as (Hm & Hsc & _ & _ & Hdom & _). rewrite Hm. cbn [or_else mbind outcome_bind has_node] in *.
  set (v' := set_status _ _ v) in *. destruct (po_vals _ _ _ _ _ Hok _ _ _ Hv) as [A1 A2 A4 A5 A3].
  assert (Hnone : m !! (d + 1) = None). { destruct (m !! (d + 1)) eqn:E; [|done]. assert (Hs : is_Some (m !! (d + 1))) by (by eexists). apply Hdom in Hs. lia. }
  assert (Hok1 : prio_ok cfg W (upto s k (d + 1)) B (set_entry s k v' st)).
  { split; [apply (po_links _ _ _ _ _ Hok)| |].
    - intros s' k' w. rewrite entry_set. case_decide as He; [|rewrite <- (upto_other s k d) by done; apply (po_vals _ _ _ _ _ Hok)].
      intros [= <-]. injection He as <- <-. rewrite upto_same. split; try done; [lia|]. right. by exists (<[d + 1 := mk_ns f false]> m), sc.
    - intros i pl Hi Hpl s' j k'. rewrite (po_queued _ _ _ _ _ Hok i pl Hi Hpl s' j k'). unfold wanted. setoid_rewrite entry_set. case_decide as He; [|done]. injection He as <- <-. split.
      + intros (v1 & m1 & H1 & H2 & H3 & H4). assert (v1 = v) as -> by congruence. assert (m1 = m) as -> by congruence.
        exists v', (<[d + 1 := mk_ns f false]> m). split_and!; try done. rewrite lookup_insert_ne; [done|]. intros <-. congruence.
      + intros (v1 & m1 & H1 & H2 & H3 & H4). assert (v1 = v') as -> by congruence. injection H3 as <-. exists v, m. split_and!; try done.
        destruct (decide (d + 1 = i)) as [<-|]; [by rewrite lookup_insert_eq in H4; simplify_eq|by rewrite lookup_insert_ne in H4]. }
  assert (Hv' : entry (set_entry s k v' st) s k = Some v') by (by rewrite entry_set, decide_True).
  destruct (discard_ok cfg W (upto s k (d + 1)) B _ s k v' Hok1 Hv') as [Hok2 Hev]. rewrite set_entry_twice in *.
  eexists. split; [done|]. split_and!; try done. intros s' k'. rewrite (ev_info _ _ _ Hev). by apply (info_set s k v).
Qed.

Lemma enqueue_ok s k d n st v mode sc0 :
  prio_ok cfg W (upto s k d) (fun _ => n) st -> 100 * (n + 1) < 2 ^ 32 -> entry st s k = Some v -> 0 <= d < deg -> msg_scat v = Some sc0 -> packets_of_msg cfg mode sc0 = W s k ->
  exists st', enqueue cfg mode s k (priority v) (d + 1) st = Ret st' /\
    prio_ok cfg W (upto s k (d + 1)) (fun i => if decide (i = d + 1) then n + 1 else n) st' /\ (forall s k, info st' s k = info st s k) /\
    forwarded st' = forwarded st /\ forall i' s' k', 1 <= i' <= deg -> (i' = d + 1 -> (s', k') <> (s, k)) -> gone st i' s' k' -> gone st' i' s' k'.
Proof.
  intros Hok Hn Hv Hd Hsc0 Hpk. destruct (offering_live _ _ _ _ _ _ Hok Hv Hd) as (m & sc & Hl). unfold enqueue. rewrite Hv. cbn [or_else mbind outcome_bind].
  pose proof (status_live d s k v m sc (mk_ns NEED_MSG true) Hd ltac:(by split) Hl) as Hl'. destruct Hl as (Hm & Hsc & _ & HW & Hdom & _). rewrite Hm, Hsc0. cbn [or_else mbind outcome_bind has_node] in *.
  destruct (po_links _ _ _ _ _ Hok (d + 1) ltac:(lia)) as (pl & Hpl & Hlk). rewrite Hpl. cbn [or_else mbind outcome_bind]. rewrite Hpk.
  change (mk_plink _ _ _ _ _ _ _ _ _) with (push W s k (priority v) pl). set (v' := set_status _ _ v) in *.
  destruct (po_vals _ _ _ _ _ Hok _ _ _ Hv) as [A1 A2 A4 A5 A3].
  assert (Hnone : m !! (d + 1) = None). { destruct (m !! (d + 1)) eqn:E; [|done]. assert (Hs : is_Some (m !! (d + 1))) by (by eexists). apply Hdom in Hs. lia. }
  assert (Hnk : forall j, ~ k ∈ level pl s j).
  { intros j Hk. apply (po_queued _ _ _ _ _ Hok (d + 1) pl ltac:(lia) Hpl) in Hk as (v1 & m1 & H1 & _ & H3 & H4). assert (v1 = v) as -> by congruence. congruence. }
  pose proof (push_link_ok W n pl s k (priority v) Hlk Hn A1 A2 (Hnk _) HW) as Hlk'.
  assert (Hlev : forall s' j k', k' ∈ level (push W s k (priority v) pl) s' j <-> k' ∈ level pl s' j \/ (s' = s /\ j = priority v /\ k' = k)).
  { intros s' j k'. unfold push. rewrite level_set. case_decide as He; [injection He as <- <-; rewrite elem_of_app, list_elem_of_singleton; tauto|].
    split; [auto|]. intros [|(-> & -> & _)]; done. }
  eexists. split; [done|]. split; [|split; [intros s' k'; rewrite (info_set s k v); done|split; [done|]]].
  2:{ intros i' s' k' Hi' Hne Hg pl1 j Hpl1 Hk. cbn in Hpl1. destruct (decide (i' = d + 1)) as [->|Hne'].
      - rewrite lookup_insert_eq in Hpl1. injection Hpl1 as <-. apply Hlev in Hk as [Hk|(-> & _ & ->)]; [by apply (Hg pl j)|by apply Hne].
      - rewrite lookup_insert_ne in Hpl1 by done. by apply (Hg pl1 j). }
  split.
  - intros i Hi. cbn. case_decide as He; [subst; rewrite lookup_insert_eq; by exists (push W s k (priority v) pl)|rewrite lookup_insert_ne by done; by apply (po_links _ _ _ _ _ Hok)].
  - intros s' k' w. rewrite entry_set. case_decide as He; [|rewrite <- (upto_other s k d) by done; apply (po_vals _ _ _ _ _ Hok)].
    intros [= <-]. injection He as <- <-. rewrite upto_same. split; try done; [lia|]. right. by exists (<[d + 1 := mk_ns NEED_MSG true]> m), sc.
  - intros i pl1 Hi Hpl1 s' j k'. cbn in Hpl1. unfold wanted. setoid_rewrite entry_set. destruct (decide (i = d + 1)) as [->|Hne].
    + rewrite lookup_insert_eq in Hpl1. injection Hpl1 as <-. rewrite Hlev, (po_queued _ _ _ _ _ Hok _ pl Hi Hpl s' j k'). unfold wanted. case_decide as He.
      * injection He as <- <-. split.
        -- intros [(v1 & m1 & H1 & _ & H3 & H4)|(_ & -> & _)]; [assert (v1 = v) as -> by congruence; congruence|].
           exists v', (<[d + 1 := mk_ns NEED_MSG true]> m). split_and!; try done. by rewrite lookup_insert_eq.
        -- intros (v1 & m1 & H1 & H2 & _). right. assert (v1 = v') as -> by congruence. done.
      * split; [intros [Hw|(-> & _ & ->)]; done|auto].
    + rewrite lookup_insert_ne in Hpl1 by done. rewrite (po_queued _ _ _ _ _ Hok i pl1 Hi Hpl1 s' j k'). unfold wanted. case_decide as He; [|done]. injection He as <- <-. split.
      * intros (v1 & m1 & H1 & H2 & H3 & H4). assert (v1 = v) as -> by congruence. assert (m1 = m) as -> by congruence.
        exists v', (<[d + 1 := mk_ns NEED_MSG true]> m). split_and!; try done. by rewrite lookup_insert_ne.
      * intros (v1 & m1 & H1 & H2 & H3 & H4). assert (v1 = v') as -> by congruence. injection H3 as <-. rewrite lookup_insert_ne in H4 by done. by exists v, m.
Qed.

Lemma prio_ok_room fr B B' st :
  prio_ok cfg W fr B st -> (forall i pl, 1 <= i <= deg -> Edge_Data st !! i = Some pl -> messages pl <= B' i) -> prio_ok cfg W fr B' st.
Proof.
  intros [A1 A2 A3] H. split; try done. intros i Hi. destruct (A1 i Hi) as (pl & Hpl & [L1 L2 L3 L4 L5 L6 L7]). exists pl. split; [done|]. split; try done. by apply (H i).
Qed.

Lemma offered_info fr t st st' : offered_ok cfg fr t st -> (forall s k, info st' s k = info st s k) -> offered_ok cfg fr t st'.
Proof. intros H Hi s k Ho. apply H. by apply (old_info t st st' s k Hi). Qed.

Lemma send_all_inv fr B e mode i fwds : forall st,
  (forall i, 1 <= i <= deg -> 100 * B i < 2 ^ 32) -> prio_ok cfg W fr B st -> fwd_ok fr st -> offered_ok cfg fr (later e) st -> 1 <= i <= deg ->
  exists st', foldM (fun st fwd => '(_, st) ← send_to cfg (later e) mode fwd i st; Ret st) st fwds = Ret st' /\
    prio_ok cfg W fr B st' /\ fwd_ok fr st' /\ from_belly st st'.
Proof.
  induction fwds as [|fwd fwds IH]; intros st HB Hok Hfw Hoff Hi; cbn [foldM]; [exists st; split_and!; try done; apply from_belly_refl|].
  destruct (send_to_ok cfg W (pc_degree _ Hcfg) fr B HB (later e) mode fwd i st Hok Hoff Hi) as (b & st1 & -> & Hok1 & Hs). cbn [mbind outcome_bind].
  destruct (sends_fwd fr B _ i st st1 Hok Hi Hfw Hs) as [Hfw1 Hb1].
  destruct (IH st1) as (st2 & -> & Hok2 & Hfw2 & Hb2); try done; [eapply offered_info; [done|apply Hb1]|].
  exists st2. split_and!; try done. by eapply from_belly_trans.
Qed.

Lemma request_loop_inv fr B e mode i reqs : forall st,
  (forall i, 1 <= i <= deg -> 100 * B i < 2 ^ 32) -> prio_ok cfg W fr B st -> fwd_ok fr st -> offered_ok cfg fr (later e) st -> 1 <= i <= deg ->
  exists st', request_loop cfg e mode i reqs st = Ret st' /\ prio_ok cfg W fr B st' /\ fwd_ok fr st' /\ from_belly st st'.
Proof.
  induction reqs as [|[fwds ret] reqs IH]; intros st HB Hok Hfw Hoff Hi; cbn [request_loop]; [exists st; split_and!; try done; apply from_belly_refl|].
  destruct (po_links _ _ _ _ _ Hok i Hi) as (pl & Hpl & _). rewrite Hpl. cbn [or_else mbind outcome_bind].
  assert (Hgo : exists st', (st0 ← foldM (fun st fwd => '(_, st) ← send_to cfg (later e) mode fwd i st; Ret st) st fwds; if ret =? 0 then Ret st0 else request_loop cfg e mode i reqs st0) = Ret st' /\
    prio_ok cfg W fr B st' /\ fwd_ok fr st' /\ from_belly st st').
  { destruct (send_all_inv fr B e mode i fwds st) as (st1 & -> & Hok1 & Hfw1 & Hb1); try done. cbn [mbind outcome_bind].
    destruct (ret =? 0); [by exists st1|]. destruct (IH st1) as (st2 & -> & Hok2 & Hfw2 & Hb2); try done; [eapply offered_info; [done|apply Hb1]|].
    exists st2. split_and!; try done. by eapply from_belly_trans. }
  destruct (norm pl), (urgent pl); try exact Hgo. exists st. split_and!; try done. apply from_belly_refl.
Qed.

(** The source that uses most. *)
Lemma hog_loop (f : Z -> Z) l :
  let r := foldl (fun '(h, m) i => if (0 <? f i) && (m <? f i) then (i, f i) else (h, m)) (0, 0) l in
  (snd r = 0 /\ forall x, x ∈ l -> f x <= 0) \/ (fst r ∈ l /\ snd r = f (fst r) /\ 0 < snd r /\ forall x, x ∈ l -> f x <= snd r).
Proof.
  induction l as [|x l IH] using rev_ind; [left; split; [done|]; by intros x Hx%not_elem_of_nil|]. cbv zeta in *. rewrite foldl_snoc.
  destruct (foldl _ _ l) as [h m]. cbn [fst snd] in IH.
  assert (Hall : forall y, y ∈ l ++ [x] -> y ∈ l \/ y = x) by (intros y; rewrite elem_of_app, list_elem_of_singleton; done).
  destruct (Z.ltb_spec 0 (f x)) as [Hx|Hx], (Z.ltb_spec m (f x)) as [Hm|Hm]; cbn [andb fst snd].
  - right. split_and!; try done; [set_solver|]. intros y [Hy| ->]%Hall; [|lia]. destruct IH as [[-> IH]|(_ & _ & _ & IH)]; specialize (IH y Hy); lia.
  - destruct IH as [[-> IH]|(H1 & H2 & H3 & IH)]; [lia|]. right. split_and!; try done; [set_solver|]. intros y [Hy| ->]%Hall; [auto|lia].
  - destruct IH as [[-> IH]|(H1 & H2 & H3 & IH)]; [lia|]. lia.
  - destruct IH as [[-> IH]|(H1 & H2 & H3 & IH)]; [left; split; [done|]; intros y [Hy| ->]%Hall; [auto|lia]|].
    right. split_and!; try done; [set_solver|]. intros y [Hy| ->]%Hall; [auto|lia].
Qed.

Lemma hog_spec n pl : link_ok W n pl -> 0 < total_msg pl ->
  0 < msg_count pl (hog pl) /\ forall s, 1 <= s <= MAX_NODES -> msg_count pl s <= msg_count pl (hog pl).
Proof.
  intros Hlk Ht. destruct (hog_loop (msg_count pl) (seqZ 1 MAX_NODES)) as [[_ Hz]|(Hin & Hm & Hpos & Hmax)]; fold (hog pl) in *.
  - exfalso. rewrite (lk_total _ _ _ Hlk) in Ht. assert (sumZ (weight W pl) (seqZ 1 MAX_NODES) <= 0); [|lia].
    rewrite <- (sumZ_zero (seqZ 1 MAX_NODES)). apply sumZ_le. intros s Hs. rewrite <- (lk_count _ _ _ Hlk). by apply Hz.
  - rewrite Hm in *. split; [done|]. intros s Hs. apply Hmax. apply seqZ_elem. lia.
Qed.

(** The level the victim is taken from. *)
Lemma min_level n pl s : link_ok W n pl -> 0 < msg_count pl s -> level pl s (min_pq pl s) <> [].
Proof.
  intros Hlk Hc. destruct (lk_min _ _ _ Hlk s) as [A1 A2 A3]. apply A3. destruct (decide (min_pq pl s <= MAX_PRIORITY)) as [|Hgt]; [done|]. exfalso.
  rewrite (lk_count _ _ _ Hlk) in Hc. rewrite weight_zero in Hc; [lia|apply Hlk|]. intros j. destruct (decide (j < min_pq pl s)); [by apply A2|].
  destruct (level pl s j) as [|x l] eqn:E; [done|]. destruct (lv_dom _ _ (lk_levels _ _ _ Hlk) s j x); [rewrite E; left|lia].
Qed.

Lemma evict_inv fr i st ret :
  prio_ok cfg W fr (fun i' => if decide (i' = i) then cap + 1 else cap) st -> fwd_ok fr st -> 1 <= i <= deg ->
  exists st' ret', evict cfg i st ret = Ret (st', ret') /\ prio_ok cfg W fr (fun _ => cap) st' /\ fwd_ok fr st' /\ from_belly st st' /\ (ret' = ret \/ ret' = BUFF_DROP).
Proof.
  intros Hok Hfw Hi. unfold evict. destruct (po_links _ _ _ _ _ Hok i Hi) as (pl & Hpl & Hlk). rewrite Hpl. cbn [or_else mbind outcome_bind].
  rewrite decide_True in Hlk by done. pose proof (pc_max _ Hcfg) as Hcap.
  assert (Hother : forall st1 i' pl', prio_ok cfg W fr (fun i' => if decide (i' = i) then cap + 1 else cap) st1 -> 1 <= i' <= deg -> i' <> i -> Edge_Data st1 !! i' = Some pl' -> messages pl' <= cap).
  { intros st1 i' pl' Hok1 Hi' Hne Hpl'. destruct (po_links _ _ _ _ _ Hok1 i' Hi') as (pl2 & Hpl2 & [_ _ _ _ _ _ Hr]). rewrite decide_False in Hr by done. congruence. }
  destruct (Z.ltb_spec cap (total_msg pl)) as [Hfull|Hfits].
  - destruct (hog_spec _ pl Hlk ltac:(lia)) as [Hc _]. set (h := hog pl) in *. pose proof (min_level _ pl h Hlk Hc) as Hne.
    destruct (level pl h (min_pq pl h)) as [|k rest] eqn:El; [done|]. assert (Hk : k ∈ level pl h (min_pq pl h)) by (rewrite El; left).
    destruct (queued_entry cfg W fr _ st i pl h _ k Hok Hi Hpl Hk) as (v & m & sc & Hv & _ & _ & Hfr).
    destruct (cleanup_ok cfg W (pc_degree _ Hcfg) fr (fun i' => if decide (i' = i) then cap + 1 else cap)) with (st := st) (s := h) (k := k) (v := v) (f := DROPPED_MSG) (i := i) as (st1 & -> & Hok1 & Hev & Hg); try done.
    { intros i' _. pose proof (pc_room _ Hcfg). case_decide; lia. }
    cbn [mbind outcome_bind]. eexists _, _. split; [done|].
    destruct (ev_links _ _ _ Hev i pl Hpl) as (pl1 & Hpl1 & [_ _ Hsub _]). destruct (lv_dom _ _ (lk_levels _ _ _ Hlk) _ _ _ Hk) as [Hs Hj].
    pose proof (messages_lt pl pl1 h _ k Hsub Hk (Hg i ltac:(rewrite decide_False by done; done) pl1 _ Hpl1) Hs Hj) as Hlt. pose proof (lk_room _ _ _ Hlk) as Hr.
    assert (Hok2 : prio_ok cfg W fr (fun _ => cap) st1).
    { eapply prio_ok_room; [exact Hok1|]. intros i' pl' Hi' Hpl'. destruct (decide (i' = i)) as [->|Hne']; [|by eapply Hother]. assert (pl' = pl1) as -> by congruence. lia. }
    split; [by destruct Hok2|]. split; [|split; [|by right]].
    + apply (fwd_ok_keep fr st); [done|apply (ev_forwarded _ _ _ Hev)|]. intros i' s' k' Hi' Hg'. change (gone st1 i' s' k'). eapply evolve_gone; [exact Hev|done|].
      destruct (po_links _ _ _ _ _ Hok i' Hi') as (pl' & -> & _). by eexists.
    + apply from_belly_same; [intros; apply (ev_info _ _ _ Hev)|apply (ev_forwarded _ _ _ Hev)].
  - exists st, ret. split; [done|]. split; [|split; [done|split; [apply from_belly_refl|by left]]]. eapply prio_ok_room; [exact Hok|].
    intros i' pl' Hi' Hpl'. destruct (decide (i' = i)) as [->|Hne']; [|by eapply Hother]. assert (pl' = pl) as -> by congruence.
    pose proof (total_bound W pl (lk_levels _ _ _ Hlk)). rewrite <- (lk_total _ _ _ Hlk) in *. lia.
Qed.

Lemma fwd_ok_further s k d st : fwd_ok (upto s k d) st -> fwd_ok (upto s k (d + 1)) st.
Proof.
  intros [A0 A G]. split; try done. intros i s' k' Hin. destruct (G i s' k' Hin) as (H1 & H2 & H3). split_and!; try lia; [|done]. unfold upto in *. case_decide; lia.
Qed.

(** The message under way, with what stays of it. *)
Definition under_way (msg : prio_msg) (mode s : Z) (k : prio_key) (st : prio) : Prop :=
  info st s k = Some (f_expire msg, (f_priority msg, mode)).

Lemma under_way_offered msg mode s k d t st :
  under_way msg mode s k st -> (E_compare_time (f_expire msg) t <=? 0) = false -> offered_ok cfg (upto s k d) t st.
Proof.
  intros Hu Ht s' k' (x & Hx & Ho). unfold upto. case_decide as He; [|done]. injection He as -> ->. unfold under_way in Hu. rewrite Hu in Hx. injection Hx as <-. cbn in Ho. congruence.
Qed.

Section Message.
Context (e : prio_env) (mode : Z) (msg : prio_msg) (last_hop s : Z) (k : prio_key).
Context (Hlive : (E_compare_time (f_expire msg) (later e) <=? 0) = false).

Lemma offer_to_inv d st ret :
  prio_ok cfg W (upto s k d) (fun _ => cap) st -> fwd_ok (upto s k d) st -> under_way msg mode s k st -> 0 <= d < deg ->
  exists st' ret', offer_to cfg e mode msg last_hop s k (st, ret) (d + 1) = Ret (st', ret') /\
    prio_ok cfg W (upto s k (d + 1)) (fun _ => cap) st' /\ fwd_ok (upto s k (d + 1)) st' /\ from_belly st st' /\ (ret' = ret \/ ret' = BUFF_DROP).
Proof.
  intros Hok Hfw Hu Hd. pose proof (pc_room _ Hcfg) as Hrm. unfold under_way, info in Hu. destruct (entry st s k) as [v|] eqn:Hv; [|done]. cbn in Hu. injection Hu as He Hp Hlm.
  assert (Hno : forall f, f <> NEED_MSG -> exists st' ret', (st0 ← no_send s k f (d + 1) st; Ret (st0, ret)) = Ret (st', ret') /\
    prio_ok cfg W (upto s k (d + 1)) (fun _ => cap) st' /\ fwd_ok (upto s k (d + 1)) st' /\ from_belly st st' /\ (ret' = ret \/ ret' = BUFF_DROP)).
  { intros f Hf. destruct (no_send_ok s k d (fun _ => cap) st v f) as (st1 & -> & Hok1 & Hi1 & Hf1 & He1); try done; [lia|]. cbn [mbind outcome_bind].
    exists st1, ret. split_and!; try done; [|by apply from_belly_same|by left]. apply (fwd_ok_keep _ st); [by apply fwd_ok_further|done|].
    intros i' s' k' _ Hg pl j. rewrite He1. apply Hg. }
  unfold offer_to. destruct (_ || _); [by apply Hno|]. destruct (negb _); [by apply Hno|]. destruct (_ =? _); [by apply Hno|].
  destruct (offering_live _ _ _ _ _ _ Hok Hv Hd) as (m & sc & Hl). pose proof Hl as (_ & Hsc & Hpk & _). rewrite Hlm in Hpk.
  destruct (enqueue_ok s k d cap st v mode sc) as (st1 & Heq & Hok1 & Hi1 & Hf1 & Hg1); try done. rewrite Hp in Heq. rewrite Heq. cbn [mbind outcome_bind].
  assert (Hfw1 : fwd_ok (upto s k (d + 1)) st1).
  { destruct Hfw as [A0 A G]. unfold since in *. split; unfold since; rewrite Hf1; [done|done|]. intros i' s' k' Hin. destruct (G i' s' k' Hin) as (H1 & H2 & H3). split; [done|].
    assert (Hne : i' = d + 1 -> (s', k') <> (s, k)). { intros -> [= -> ->]. rewrite upto_same in H2. lia. }
    split; [unfold upto in *; case_decide; lia|]. by apply Hg1. }
  assert (Hu1 : under_way msg mode s k st1). { unfold under_way. rewrite Hi1. unfold info. rewrite Hv. cbn. by rewrite He, Hp, Hlm. }
  assert (Hreq : exists st2, (if known e (d + 1) then request_loop cfg e mode (d + 1) (requests e (d + 1)) st1 else Ret st1) = Ret st2 /\
    prio_ok cfg W (upto s k (d + 1)) (fun i => if decide (i = d + 1) then cap + 1 else cap) st2 /\ fwd_ok (upto s k (d + 1)) st2 /\ from_belly st1 st2).
  { destruct (known e (d + 1)); [|exists st1; split_and!; try done; apply from_belly_refl].
    apply request_loop_inv; try done; [intros i' _; case_decide; lia|by eapply under_way_offered|lia]. }
  destruct Hreq as (st2 & -> & Hok2 & Hfw2 & Hb2). cbn [mbind outcome_bind].
  destruct (evict_inv (upto s k (d + 1)) (d + 1) st2 ret Hok2 Hfw2) as (st3 & ret' & -> & Hok3 & Hfw3 & Hb3 & Hr); [lia|].
  exists st3, ret'. split_and!; try done. eapply from_belly_trans; [by apply from_belly_same|]. by eapply from_belly_trans.
Qed.

Lemma offer_all_inv n : forall d st ret,
  deg = d + Z.of_nat n -> 0 <= d -> prio_ok cfg W (upto s k d) (fun _ => cap) st -> fwd_ok (upto s k d) st -> under_way msg mode s k st ->
  (ret = BUFF_OK \/ ret = BUFF_DROP) ->
  exists st' ret', foldM (offer_to cfg e mode msg last_hop s k) (st, ret) (seqZ (d + 1) (Z.of_nat n)) = Ret (st', ret') /\
    prio_ok cfg W (upto s k deg) (fun _ => cap) st' /\ fwd_ok (upto s k deg) st' /\ from_belly st st' /\ (ret' = BUFF_OK \/ ret' = BUFF_DROP).
Proof.
  induction n as [|n IH]; intros d st ret Hn Hd Hok Hfw Hu Hr.
  { replace d with deg in * by lia. exists st, ret. split_and!; try done. apply from_belly_refl. }
  rewrite seqZ_cons by lia. cbn [foldM]. destruct (offer_to_inv d st ret Hok Hfw Hu ltac:(lia)) as (st1 & ret1 & -> & Hok1 & Hfw1 & Hb1 & Hr1). cbn [mbind outcome_bind].
  replace (Z.pred (Z.of_nat (S n))) with (Z.of_nat n) by lia. replace (Z.succ (d + 1)) with (d + 1 + 1) by lia.
  destruct (IH (d + 1) st1 ret1) as (st2 & ret2 & -> & Hok2 & Hfw2 & Hb2 & Hr2); try done; [lia|lia|unfold under_way; by rewrite (proj1 Hb1)|by destruct Hr1 as [->| ->]; auto|].
  exists st2, ret2. split_and!; try done. by eapply from_belly_trans.
Qed.
End Message.
End Fixed.

(** ** The operations *)
Definition prio_inv (st : prio) : Prop := exists W, prio_ok cfg W (fun _ _ => deg) (fun _ => cap) st /\ fwd_ok (fun _ _ => deg) st.

Lemma prio_ok_W W W' fr B st : (forall s k, is_Some (entry st s k) -> W' s k = W s k) -> prio_ok cfg W fr B st -> prio_ok cfg W' fr B st.
Proof.
  intros HW [A1 A2 A3]. split; [|intros s k v Hv|done].
  - intros i Hi. destruct (A1 i Hi) as (pl & Hpl & [[L1 L2 L3] Lc Lt Lm Ln Lf Lr]). exists pl. split; [done|].
    assert (Heq : forall s j k, k ∈ level pl s j -> W' s k = W s k). { intros s j k Hk. apply (A3 i pl Hi Hpl) in Hk as (v & m & Hv & _). apply HW. by eexists. }
    assert (Hwt : forall s, weight W' pl s = weight W pl s). { intros s. apply sumZ_ext. intros j _. apply sumZ_ext. intros k Hk. by eapply Heq. }
    split; try done; [split; try done; intros s j k Hk; rewrite (Heq s j k Hk); by eapply L3|intros s; by rewrite Hwt|]. rewrite Lt. apply sumZ_ext. intros s _. by rewrite Hwt.
  - destruct (A2 s k v Hv) as [B1 B2 B3 B4 B5]. split; try done. destruct B5 as [?|(m & sc & Hm & Hsc & Hp & Hw & Hrest)]; [by left|right].
    exists m, sc. unfold live_ok. rewrite HW by (by eexists). done.
Qed.

Lemma insert_new W e mode msg s k st :
  prio_ok cfg W (fun _ _ => deg) (fun _ => cap) st -> entry st s k = None -> 1 <= s <= MAX_NODES -> 1 <= f_priority msg <= MAX_PRIORITY ->
  packets_of_msg cfg mode (m_elems msg) = W s k -> 1 <= W s k <= 100 -> prio_ok cfg W (upto s k 0) (fun _ => cap) (set_entry s k (new_val cfg e mode msg) st).
Proof.
  intros Hok Hno Hs Hp Hpk HW. pose proof (pc_degree _ Hcfg) as Hdeg. split; [apply (po_links _ _ _ _ _ Hok)| |].
  - intros s' k' v. rewrite entry_set. case_decide as He.
    + intros [= <-]. injection He as <- <-. rewrite upto_same. split; try done; [lia|]. right. exists ∅, (m_elems msg). do 4 (split; [done|]). split_and!.
      * intros i. rewrite lookup_empty. split; [by intros []|lia].
      * intros i x. by rewrite lookup_empty.
      * cbn [new_val need_count]. rewrite (sumZ_ext _ (fun _ => 1)); [|intros i _; unfold pending; by rewrite lookup_empty]. rewrite sumZ_const, length_seqZ. lia.
    + intros Hv. unfold upto. rewrite decide_False by congruence. by apply (po_vals _ _ _ _ _ Hok).
  - intros i pl Hi Hpl s' j k'. rewrite (po_queued _ _ _ _ _ Hok i pl Hi Hpl s' j k'). unfold wanted. setoid_rewrite entry_set. case_decide as He; [|done].
    injection He as <- <-. split; [intros (v & m & Hv & _); congruence|]. intros (v & m & Hv & _ & Hm & Hx). injection Hv as <-. injection Hm as <-. by rewrite lookup_empty in Hx.
Qed.

Definition key_of (msg : prio_msg) : prio_key := (f_incarnation msg, f_seq_num msg).

(** A message does not expire while it is handled. *)
Definition steady (e : prio_env) (msg : prio_msg) : Prop :=
  (E_compare_time (f_expire msg) (now e) <=? 0) = true \/ (E_compare_time (f_expire msg) (later e) <=? 0) = false.

(** The message [msg] of source [s] was new and is remembered now. *)
Record accepts (e : prio_env) (mode : Z) (msg : prio_msg) (s : Z) (st st' : prio) : Prop := {
  ac_source : Node_Lookup cfg (h_source msg) = Some s; ac_new : entry st s (key_of msg) = None; ac_live : (E_compare_time (f_expire msg) (now e) <=? 0) = false;
  ac_info : forall s' k', info st' s' k' = if decide ((s', k') = (s, key_of msg)) then Some (f_expire msg, (f_priority msg, mode)) else info st s' k';
  ac_forwarded : forall x, x ∈ forwarded st' -> x ∈ forwarded st \/ is_Some (info st' x.1.2 x.2) }.

Definition msg_fits (msg : prio_msg) : Prop := (length (m_elems msg) <= 99)%nat /\ 0 <= f_priority msg.

Lemma new_message_inv e mode msg last_hop s st :
  prio_inv st -> entry st s (key_of msg) = None -> Node_Lookup cfg (h_source msg) = Some s -> msg_fits msg ->
  steady e msg -> ((E_compare_time (f_expire msg) (now e) <=? 0) = false -> forall i, ~ (i, s, key_of msg) ∈ since st) ->
  exists r st', new_message cfg e mode msg last_hop s (key_of msg) st = Ret (r, st') /\ prio_inv st' /\
    ((r = NO_ROUTE /\ st' = st) \/ ((r = BUFF_OK \/ r = BUFF_DROP) /\ accepts e mode msg s st st')).
Proof.
  intros (W0 & Hok0 & Hfw) Hno Hsrc [Hlen Hp0] Hsteady Hfresh0. unfold new_message.
  assert (Hstop : exists r st', Ret (NO_ROUTE, st) = Ret (r, st') /\ prio_inv st' /\ ((r = NO_ROUTE /\ st' = st) \/ ((r = BUFF_OK \/ r = BUFF_DROP) /\ accepts e mode msg s st st'))).
  { exists NO_ROUTE, st. split; [done|]. split; [by exists W0|]. by left. }
  destruct (expired (now e) _) eqn:Hexp; [exact Hstop|]. pose proof (Hfresh0 Hexp) as Hfresh. assert (Hlater : (E_compare_time (f_expire msg) (later e) <=? 0) = false) by (destruct Hsteady as [Hs|Hs]; [|exact Hs]; unfold expired in Hexp; cbn in Hexp; congruence).
  destruct (_ || _) eqn:Hpr; [exact Hstop|]. apply orb_false_elim in Hpr as [Hp1%Z.eqb_neq Hp2%Z.ltb_ge].
  set (k := key_of msg) in *. set (W := fun s' k' => if decide ((s', k') = (s, k)) then packets_of_msg cfg mode (m_elems msg) else W0 s' k').
  assert (HWk : W s k = packets_of_msg cfg mode (m_elems msg)) by (unfold W; by rewrite decide_True).
  assert (Hok : prio_ok cfg W (fun _ _ => deg) (fun _ => cap) st).
  { eapply prio_ok_W; [|exact Hok0]. intros s' k' [v Hv]. unfold W. rewrite decide_False; [done|]. intros [= -> ->]. congruence. }
  pose proof (packets_range (Link_Size cfg mode) (m_elems msg) Hlen) as Hpk. change (1 <= packets_of_msg cfg mode (m_elems msg) <= 100) in Hpk.
  set (st0 := set_entry s k (new_val cfg e mode msg) st).
  assert (Hok1 : prio_ok cfg W (upto s k 0) (fun _ => cap) st0).
  { apply insert_new; try done; [by eapply pc_lookup|lia|by rewrite HWk]. }
  assert (Hfw1 : fwd_ok (upto s k 0) st0).
  { destruct Hfw as [A0 A G]. split; try done. intros i s' k' Hin. destruct (G i s' k' Hin) as (H1 & H2 & H3). split_and!; try done; try lia. unfold upto. case_decide as He; [|lia]. injection He as -> ->. by destruct (Hfresh i). }
  assert (Hu : under_way msg mode s k st0). { unfold under_way, info, st0. rewrite entry_set, decide_True by done. done. }
  pose proof (pc_degree _ Hcfg) as Hdeg.
  destruct (offer_all_inv W e mode msg last_hop s k Hlater (Z.to_nat deg) 0 st0 BUFF_OK) as (st1 & ret & Hrun & Hok2 & Hfw2 & Hb & Hr); try done; [lia|by left|].
  rewrite Z2Nat.id in Hrun by lia. change (0 + 1) with 1 in Hrun. rewrite Hrun. cbn [mbind outcome_bind].
  exists ret, st1. split; [done|]. split.
  - exists W. split; [eapply prio_ok_ext; [| |exact Hok2]; [|done]; intros s' k'; unfold upto; by case_decide|].
    destruct Hfw2 as [A0 A G]. split; try done. intros i s' k' Hin. destruct (G i s' k' Hin) as (H1 & H2 & H3). split_and!; try done; lia.
  - right. split; [done|]. destruct Hb as [Hi Hf].
    assert (Hinfo : forall s' k', info st1 s' k' = if decide ((s', k') = (s, k)) then Some (f_expire msg, (f_priority msg, mode)) else info st s' k').
    { intros s' k'. rewrite Hi. unfold info, st0. rewrite entry_set. destruct (decide ((s, k) = (s', k'))) as [He|], (decide ((s', k') = (s, k))); try congruence; done. }
    split; try done. intros x Hx. destruct (Hf x Hx) as [?|?]; [by left|right]. by rewrite Hi.
Qed.

Lemma room_cap : forall i, 1 <= i <= deg -> 100 * cap < 2 ^ 32.
Proof. intros _ _. pose proof (pc_room _ Hcfg). lia. Qed.

Lemma evolve_inv W P st st' :
  fwd_ok (fun _ _ => deg) st -> prio_ok cfg W (fun _ _ => deg) (fun _ => cap) st -> prio_ok cfg W (fun _ _ => deg) (fun _ => cap) st' -> evolve P st st' ->
  prio_inv st' /\ from_belly st st'.
Proof.
  intros Hfw Hok Hok' Hev. split; [|apply from_belly_same; apply Hev]. exists W. split; [done|]. eapply fwd_ok_keep; [exact Hfw|apply Hev|].
  intros i s k Hi Hg. eapply evolve_gone; [exact Hev|done|]. destruct (po_links _ _ _ _ _ Hok i Hi) as (pl & -> & _). by eexists.
Qed.

Lemma ngbr_index_range a : ngbr_index cfg a <> 0 -> 1 <= ngbr_index cfg a <= deg.
Proof.
  unfold ngbr_index. destruct (list_find _ _) as [[j i]|] eqn:E; cbn; [|done]. intros _. apply list_find_Some in E as (Hj & _ & _).
  assert (Hin : i ∈ seqZ 1 deg) by (by eapply list_elem_of_lookup_2). apply seqZ_elem in Hin. lia.
Qed.

(** The neighbour the message comes from was among those it was meant for. *)
Definition on_mask (src_link : option Z) (msg : prio_msg) (st : prio) : Prop :=
  forall a s v m x, src_link = Some a -> Node_Lookup cfg (h_source msg) = Some s -> entry st s (key_of msg) = Some v -> ns v = Some m ->
    m !! ngbr_index cfg a = Some x -> flag x <> NOT_IN_MASK.

Lemma duplicate_inv src_link msg s v st :
  prio_inv st -> entry st s (key_of msg) = Some v -> Node_Lookup cfg (h_source msg) = Some s -> on_mask src_link msg st ->
  (forall a, src_link = Some a -> ngbr_index cfg a <> 0) ->
  exists st', duplicate cfg src_link (match src_link with Some a => ngbr_index cfg a | None => 0 end) s (key_of msg) v st = Ret (NO_ROUTE, st') /\ prio_inv st' /\ from_belly st st'.
Proof.
  intros Hinv Hv Hsrc Hmask Hidx. pose proof Hinv as (W & Hok & Hfw). unfold duplicate.
  assert (Hstop : exists st', Ret (NO_ROUTE, st) = Ret (NO_ROUTE, st') /\ prio_inv st' /\ from_belly st st') by (exists st; split_and!; try done; apply from_belly_refl).
  destruct src_link as [a|]; [|exact Hstop]. destruct (Z.eqb_spec (need_count v) 0) as [Hz|Hnz]; [exact Hstop|].
  pose proof (ngbr_index_range a (Hidx a eq_refl)) as Hi. set (i := ngbr_index cfg a) in *.
  destruct (vo_state _ _ _ _ _ _ (po_vals _ _ _ _ _ Hok _ _ _ Hv)) as [[? _]|(m & sc & Hm & _ & _ & _ & Hdom & _)]; [done|]. rewrite Hm. cbn [or_else mbind outcome_bind].
  destruct (proj2 (Hdom i) Hi) as [x Hx]. rewrite Hx. cbn [or_else mbind outcome_bind]. specialize (Hmask a s v m x eq_refl Hsrc Hv Hm Hx).
  destruct (flag x); try exact Hstop; [|done].
  destruct (cleanup_ok cfg W (pc_degree _ Hcfg) (fun _ _ => deg) (fun _ => cap) room_cap st s (key_of msg) v RECV_MSG i) as (st1 & -> & Hok1 & Hev & _); try done; [lia|].
  cbn [mbind outcome_bind]. exists st1. split; [done|]. by eapply evolve_inv.
Qed.

Lemma prio_inv_frame st st' : Belly st' = Belly st -> Edge_Data st' = Edge_Data st -> forwarded st' = forwarded st -> prio_inv st -> prio_inv st'.
Proof.
  destruct st, st'. cbn. intros -> -> -> (W & [A1 A2 A3] & [F0 F1 F2]). exists W. split; split; [exact A1|exact A2|exact A3|exact F0|exact F1|exact F2].
Qed.

Definition result (e : prio_env) (mode : Z) (msg : prio_msg) (st : prio) (r : Z) (st' : prio) : Prop :=
  (r = NO_ROUTE /\ from_belly st st') \/ ((r = BUFF_OK \/ r = BUFF_DROP) /\ exists s, accepts e mode msg s st st').

(** The message is looked up under its key. *)
Lemma looked_up_inv e src_link mode msg st st1 last_hop s :
  prio_inv st -> Belly st1 = Belly st -> Edge_Data st1 = Edge_Data st -> forwarded st1 = forwarded st ->
  msg_fits msg -> steady e msg -> on_mask src_link msg st -> Node_Lookup cfg (h_source msg) = Some s ->
  (entry st s (key_of msg) = None -> (E_compare_time (f_expire msg) (now e) <=? 0) = false -> forall i, ~ (i, s, key_of msg) ∈ since st) -> (forall a, src_link = Some a -> ngbr_index cfg a <> 0) ->
  exists r st', (match entry st1 s (key_of msg) with
                 | None => new_message cfg e mode msg last_hop s (key_of msg) st1
                 | Some v => duplicate cfg src_link (match src_link with Some a => ngbr_index cfg a | None => 0 end) s (key_of msg) v st1
                 end) = Ret (r, st') /\ prio_inv st' /\ result e mode msg st r st'.
Proof.
  intros Hinv HB HE HF Hfit Hlater Hmask Hsrc Hfresh Hidx. pose proof (prio_inv_frame st st1 HB HE HF Hinv) as Hinv1.
  assert (Hent : entry st1 = entry st) by (unfold entry, belly; by rewrite HB). assert (Hinfo : forall s k, info st1 s k = info st s k) by (intros; unfold info; by rewrite Hent).
  assert (Hb1 : from_belly st st1) by (by apply from_belly_same). rewrite Hent. destruct (entry st s (key_of msg)) as [v|] eqn:Hv.
  - destruct (duplicate_inv src_link msg s v st1) as (st2 & -> & Hinv2 & Hb); try done; [by rewrite Hent|unfold on_mask; by rewrite Hent|].
    exists NO_ROUTE, st2. split_and!; try done. left. split; [done|]. by eapply from_belly_trans.
  - destruct (new_message_inv e mode msg last_hop s st1) as (r & st2 & -> & Hinv2 & Hres); try done; [by rewrite Hent|unfold since; rewrite HF; by apply Hfresh|].
    exists r, st2. split_and!; try done. destruct Hres as [[-> ->]|[Hr [A1 A2 A3 A4 A5]]]; [by left|right]. split; [done|]. exists s. split; try done.
    + intros s' k'. by rewrite A4, Hinfo.
    + intros x Hx. rewrite <- HF. by apply A5.
Qed.

Lemma disseminate_inv e src_link mode msg st :
  prio_inv st -> msg_fits msg -> steady e msg -> on_mask src_link msg st ->
  (forall s i, Node_Lookup cfg (h_source msg) = Some s -> entry st s (key_of msg) = None -> (E_compare_time (f_expire msg) (now e) <=? 0) = false -> ~ (i, s, key_of msg) ∈ since st) ->
  exists r st', Priority_Flood_Disseminate cfg e src_link mode msg st = Ret (r, st') /\ prio_inv st' /\
    result e mode msg st r st'.
Proof.
  intros Hinv Hfit Hlater Hmask Hfresh. unfold Priority_Flood_Disseminate.
  assert (Hstop : exists r st', Ret (NO_ROUTE, st) = Ret (r, st') /\ prio_inv st' /\ result e mode msg st r st').
  { exists NO_ROUTE, st. split_and!; try done. left. split; [done|apply from_belly_refl]. }
  destruct (match src_link with Some a => _ | None => false end) eqn:Hg; [exact Hstop|].
  assert (Hidx : forall a, src_link = Some a -> ngbr_index cfg a <> 0).
  { intros a ->. apply orb_false_elim in Hg as [_ Hg]. by apply Z.eqb_neq. }
  destruct (negb _); [exact Hstop|]. destruct (Node_Lookup cfg (h_source msg)) as [s|] eqn:Hsrc; [|exact Hstop]. destruct (_ && _); [exact Hstop|]. destruct (_ <? _); [exact Hstop|].
  eapply looked_up_inv; try done. intros Hno Hx i. by apply (Hfresh s).
Qed.

Lemma send_one_inv t mode fwd nid st :
  prio_inv st -> ngbr_index cfg nid <> 0 ->
  exists b st', Priority_Flood_Send_One cfg t mode fwd nid st = Ret (b, st') /\ prio_inv st' /\ sends t (ngbr_index cfg nid) st st' /\ from_belly st st'.
Proof.
  intros (W & Hok & Hfw) Hi%ngbr_index_range. unfold Priority_Flood_Send_One. rewrite (proj2 (Z.leb_le _ _)), (proj2 (Z.leb_le _ _)) by lia. cbn [andb].
  destruct (send_to_ok cfg W (pc_degree _ Hcfg) (fun _ _ => deg) (fun _ => cap) room_cap t mode fwd (ngbr_index cfg nid) st Hok) as (b & st' & -> & Hok' & Hs); [by intros s k _|done|].
  destruct (sends_fwd W _ _ _ _ _ _ Hok Hi Hfw Hs) as [Hfw' Hb]. exists b, st'. split_and!; try done. by exists W.
Qed.

(** ** Garbage collection *)
Section Collect.
Context `{HO : HashOrder}.

Lemma entry_delete s k st s' k' :
  entry (set_belly (<[s := delete k (belly st s)]> (Belly st)) st) s' k' = if decide ((s, k) = (s', k')) then None else entry st s' k'.
Proof.
  unfold entry, set_belly, belly at 1. cbn [Belly]. destruct (decide (s = s')) as [<-|Hs].
  - rewrite lookup_insert_eq. cbn. case_decide as H; [injection H as <-; by rewrite lookup_delete_eq|]. rewrite lookup_delete_ne; [done|]. congruence.
  - rewrite lookup_insert_ne by done. rewrite decide_False by congruence. done.
Qed.

(** An expired message is forgotten, everything else is kept. *)
Lemma collect_one_inv t s k st v :
  prio_inv st -> entry st s k = Some v ->
  exists st', collect_one cfg t s st k = Ret st' /\ prio_inv st' /\ forwarded st' = forwarded st /\
    forall s' k', info st' s' k' = if decide ((s', k') = (s, k) /\ expired t v = true) then None else info st s' k'.
Proof.
  intros (W & Hok & Hfw) Hv. unfold collect_one. rewrite Hv. cbn [or_else mbind outcome_bind]. destruct (expired t v) eqn:He.
  2:{ exists st. split; [done|]. split; [by exists W|]. split; [done|]. intros s' k'. rewrite decide_False; [done|]. by intros [_ ?]. }
  destruct (cleanup_ok cfg W (pc_degree _ Hcfg) (fun _ _ => deg) (fun _ => cap) room_cap st s k v EXPIRED_MSG 0) as (st1 & -> & Hok1 & Hev & Hg); try done. cbn [mbind outcome_bind].
  set (st2 := set_belly _ st1). assert (Hent : forall s' k', entry st2 s' k' = if decide ((s, k) = (s', k')) then None else entry st1 s' k') by (intros; unfold st2; by rewrite entry_delete).
  exists st2. split; [done|]. split; [|split; [apply (ev_forwarded _ _ _ Hev)|]].
  - exists W. split.
    + split; [apply (po_links _ _ _ _ _ Hok1)| |].
      * intros s' k' v'. rewrite Hent. destruct (decide ((s, k) = (s', k'))); [discriminate|]. apply (po_vals _ _ _ _ _ Hok1).
      * intros i pl Hi Hpl s' j k'. rewrite (po_queued _ _ _ _ _ Hok1 i pl Hi Hpl s' j k'). unfold wanted. setoid_rewrite Hent. destruct (decide ((s, k) = (s', k'))) as [Hd|Hd]; [|done]. injection Hd as <- <-.
        split; [|by intros (? & ? & ? & _)]. intros Hw. exfalso. apply (Hg i ltac:(by rewrite decide_True) pl j Hpl). by apply (po_queued _ _ _ _ _ Hok1 i pl Hi Hpl).
    + apply (fwd_ok_keep _ st); [done|apply (ev_forwarded _ _ _ Hev)|]. intros i s' k' Hi Hgo. change (gone st1 i s' k'). eapply evolve_gone; [exact Hev|done|].
      destruct (po_links _ _ _ _ _ Hok i Hi) as (pl & -> & _). by eexists.
  - intros s' k'. unfold info at 1. rewrite Hent. destruct (decide ((s, k) = (s', k'))) as [Hd|Hd].
    + injection Hd as <- <-. by rewrite decide_True.
    + rewrite decide_False; [|intros [[= -> ->] _]; done]. apply (ev_info _ _ _ Hev).
Qed.

Lemma collect_source_inv t s ks : forall st,
  prio_inv st -> NoDup ks -> (forall k, k ∈ ks -> is_Some (entry st s k)) ->
  exists st', foldM (collect_one cfg t s) st ks = Ret st' /\ prio_inv st' /\ forwarded st' = forwarded st /\
    (forall s' k', ~ (s' = s /\ k' ∈ ks) -> info st' s' k' = info st s' k') /\
    (forall k', k' ∈ ks -> (old t st s k' -> info st' s k' = None) /\ (~ old t st s k' -> info st' s k' = info st s k')).
Proof.
  induction ks as [|k ks IH]; intros st Hinv Hnd Hks; cbn [foldM].
  { exists st. split_and!; try done. by intros k' Hk%not_elem_of_nil. }
  apply NoDup_cons in Hnd as [Hk Hnd]. destruct (Hks k ltac:(left)) as [v Hv].
  destruct (collect_one_inv t s k st v Hinv Hv) as (st1 & -> & Hinv1 & Hf1 & Hi1). cbn [mbind outcome_bind].
  assert (Hother : forall s' k', (s', k') <> (s, k) -> info st1 s' k' = info st s' k') by (intros s' k' Hne; rewrite Hi1, decide_False; [done|tauto]).
  destruct (IH st1) as (st2 & -> & Hinv2 & Hf2 & Hi2 & Ho2); try done.
  { intros k' Hk'. assert (Hne : (s, k') <> (s, k)) by (intros [= ->]; done). specialize (Hother s k' Hne). destruct (Hks k' ltac:(by right)) as [v' Hv'].
    unfold info in Hother. rewrite Hv' in Hother. destruct (entry st1 s k'); [by eexists|done]. }
  exists st2. split_and!; try done; [congruence| |].
  - intros s' k' Hn. rewrite Hi2 by (intros [-> Hin]; apply Hn; split; [done|by right]). apply Hother. intros [= -> ->]. apply Hn. split; [done|left].
  - intros k' [->|Hin]%elem_of_cons.
    + rewrite Hi2 by (intros [_ Hin]; done). rewrite Hi1. rewrite <- (expired_old t st s k v Hv). split; intros Ho; [by rewrite decide_True|rewrite decide_False; [done|tauto]].
    + assert (Hne : (s, k') <> (s, k)) by (intros [= ->]; done). destruct (Ho2 k' Hin) as [P1 P2]. unfold old in *. rewrite (Hother s k' Hne) in P1, P2. done.
Qed.

(** The messages that have expired, and no others, are forgotten. *)
Lemma collect_inv t st :
  prio_inv st -> exists st', Priority_Garbage_Collect cfg t st = Ret st' /\ prio_inv st' /\ forwarded st' = forwarded st /\
    (forall s k, old t st s k -> info st' s k = None) /\ (forall s k, ~ old t st s k -> info st' s k = info st s k).
Proof.
  intros Hinv. unfold Priority_Garbage_Collect.
  assert (Hrun : forall l st, prio_inv st -> exists st', foldM (fun st s => foldM (collect_one cfg t s) st (hash_iter (belly st s)).*1) st l = Ret st' /\ prio_inv st' /\
    forwarded st' = forwarded st /\ (forall s k, s ∈ l -> old t st s k -> info st' s k = None) /\ (forall s k, ~ (s ∈ l /\ old t st s k) -> info st' s k = info st s k)).
  { induction l as [|s l IH]; intros st0 Hinv0; cbn [foldM]; [exists st0; split_and!; try done; by intros s k Hs%not_elem_of_nil|].
    assert (Hperm : (hash_iter (belly st0 s)).*1 ≡ₚ (map_to_list (belly st0 s)).*1) by (by rewrite hash_iter_perm).
    assert (Hin : forall k, k ∈ (hash_iter (belly st0 s)).*1 <-> is_Some (entry st0 s k)).
    { intros k. rewrite Hperm, list_elem_of_fmap. unfold entry. split; [intros ([k' v] & -> & Hv%elem_of_map_to_list); by eexists|intros [v Hv]; exists (k, v); split; [done|by apply elem_of_map_to_list]]. }
    destruct (collect_source_inv t s (hash_iter (belly st0 s)).*1 st0 Hinv0) as (st1 & -> & Hinv1 & Hf1 & Hi1 & Ho1); [rewrite Hperm; apply NoDup_fst_map_to_list|intros k; apply Hin|].
    cbn [mbind outcome_bind]. destruct (IH st1 Hinv1) as (st2 & -> & Hinv2 & Hf2 & Hg2 & Hk2).
    assert (Hs : forall k, (old t st0 s k -> info st1 s k = None) /\ (~ old t st0 s k -> info st1 s k = info st0 s k)).
    { intros k. destruct (decide (k ∈ (hash_iter (belly st0 s)).*1)) as [Hk|Hk]; [by apply Ho1|]. split; [|intros _; apply Hi1; tauto].
      intros (x & Hx & _). exfalso. apply Hk, Hin. unfold info in Hx. destruct (entry st0 s k); [by eexists|done]. }
    assert (Hother : forall s' k, s' <> s -> info st1 s' k = info st0 s' k) by (intros s' k Hne; apply Hi1; tauto).
    assert (Hold : forall s' k, old t st1 s' k -> old t st0 s' k).
    { intros s' k (x & Hx & Ht). destruct (decide (s' = s)) as [->|Hne]; [|rewrite Hother in Hx by done; by exists x]. destruct (Hs k) as [H1 H2].
      assert (Hd : old t st0 s k \/ ~ old t st0 s k). { unfold old. destruct (info st0 s k) as [y|]; [|right; by intros (? & ? & _)]. destruct (E_compare_time (fst y) t <=? 0) eqn:E; [left; by exists y|right; intros (z & [= <-] & ?); congruence]. }
      destruct Hd as [Hd|Hd]; [by apply H1 in Hd; congruence|]. rewrite H2 in Hx by done. by exists x. }
    assert (Hnone : forall s' k, info st1 s' k = None -> info st2 s' k = None).
    { intros s' k Hn. rewrite Hk2; [done|]. intros [_ (x & Hx & _)]. congruence. }
    exists st2. split_and!; try done; [congruence| |].
    - intros s' k Hin' Ho. destruct (decide (s' = s)) as [->|Hne]; [by apply Hnone, Hs|]. apply elem_of_cons in Hin' as [|Hin']; [done|].
      apply (Hg2 s' k Hin'). unfold old in *. by rewrite Hother.
    - intros s' k Hno. rewrite Hk2.
      + destruct (decide (s' = s)) as [->|Hne]; [|by apply Hother]. apply Hs. intros Ho. apply Hno. split; [left|done].
      + intros [Hin' Ho]. apply Hno. split; [by right|by apply Hold]. }
  destruct (Hrun (seqZ 1 MAX_NODES) st Hinv) as (st1 & -> & Hinv1 & Hf1 & Hg1 & Hk1). cbn [mbind outcome_bind]. eexists. split; [done|].
  split; [by eapply prio_inv_frame; [| | |exact Hinv1]|]. split; [done|]. split; [|intros s k Hno; change (info st1 s k = info st s k); apply Hk1; tauto].
  intros s k Ho. change (info st1 s k = None). apply Hg1; [|done]. destruct Ho as (x & Hx & _). unfold info in Hx. destruct (entry st s k) as [v|] eqn:Hv; [|done].
  destruct Hinv as (W & Hok & _). pose proof (vo_src _ _ _ _ _ _ (po_vals _ _ _ _ _ Hok _ _ _ Hv)). apply seqZ_elem. lia.
Qed.
End Collect.

Lemma init_inv My_ID t : mark = O -> prio_inv (Init_Priority_Flooding cfg My_ID t).
Proof.
  intros Hmark. exists (fun _ _ => 1). split.
  - assert (Hlv : forall s j, level fresh_link s j = []) by (intros; unfold level; cbn; by rewrite lookup_empty).
    assert (Hent : forall s k, entry (Init_Priority_Flooding cfg My_ID t) s k = None) by (intros; unfold entry, belly; cbn; by rewrite !lookup_empty).
    assert (Hlk : forall i, 1 <= i <= deg -> Edge_Data (Init_Priority_Flooding cfg My_ID t) !! i = Some fresh_link).
    { intros i Hi. cbn [Init_Priority_Flooding Edge_Data]. apply elem_of_list_to_map_1'.
      - intros y Hy. apply list_elem_of_fmap in Hy as (j & Hj & _). congruence.
      - apply list_elem_of_fmap. exists i. split; [done|]. apply seqZ_elem. lia. }
    split.
    + intros i Hi. exists fresh_link. split; [by apply Hlk|]. pose proof (pc_max _ Hcfg) as Hcap. split.
      * split; intros s j; rewrite Hlv; [constructor|by intros k Hk%not_elem_of_nil..].
      * intros s. unfold msg_count, weight. cbn [fresh_link msg_counts]. rewrite lookup_empty. rewrite (sumZ_ext _ (fun _ => 0)); [by rewrite sumZ_zero|]. intros j _. by rewrite Hlv.
      * cbn [fresh_link total_msg]. rewrite (sumZ_ext _ (fun _ => 0)); [by rewrite sumZ_zero|]. intros s _. unfold weight. rewrite (sumZ_ext _ (fun _ => 0)); [by rewrite sumZ_zero|]. intros j _. by rewrite Hlv.
      * intros s. unfold max_pq. split; unfold max_pq; cbn [fresh_link max_pqs]; rewrite ?lookup_empty; cbn; unfold MAX_PRIORITY; [lia|intros; apply Hlv|lia].
      * intros s. unfold min_pq. split; unfold min_pq; cbn [fresh_link min_pqs]; rewrite ?lookup_empty; cbn; unfold MAX_PRIORITY; [lia|intros; apply Hlv|lia].
      * split; cbn; try constructor; try set_solver. intros s. unfold msg_count. cbn. rewrite lookup_empty. cbn. lia.
      * unfold messages. rewrite (sumZ_ext _ (fun _ => 0)); [by rewrite sumZ_zero|]. intros s _. rewrite (sumZ_ext _ (fun _ => 0)); [by rewrite sumZ_zero|]. intros j _. by rewrite Hlv.
    + intros s k v. by rewrite Hent.
    + intros i pl Hi Hpl s j k. rewrite Hlk in Hpl by done. injection Hpl as <-. rewrite Hlv. split; [by intros Hk%not_elem_of_nil|]. intros (v & m & Hv & _). by rewrite Hent in Hv.
  - split; [cbn; lia|unfold since; cbn; rewrite drop_nil; constructor|]. intros i s k. unfold since. cbn. rewrite drop_nil. by intros Hk%not_elem_of_nil.
Qed.
End Offer.
