(* ===== verification/PrioSys.v ===== *)
(** * PrioSys: a daemon that floods by priority, over any run

    The handlers of priority flooding in any order: messages from the neighbours
    and from this daemon's own clients, sends asked for by the links, garbage
    collection and new sequence numbers, with a clock that does not run back.
    Messages are signed, so one source and key stand for one expiry ([X]). *)
From stdpp Require Import base list gmap numbers option sets.
From Stdlib Require Import ZArith Lia.
From S2P Require Import Prelude HashMap Events NetTypes MultiPath ITFrag PrioFlood PrioProof PrioState PrioSend PrioDissem.
#[local] Open Scope Z_scope.

(** ** The link takes a message when it can *)
Definition accepting (fwd : Z) : bool := (fwd =? BUFF_EMPTY) || (fwd =? BUFF_OK).

Lemma cleanup_one_forwarded s k p f st i st' : cleanup_one s k p f st i = Ret st' -> forwarded st' = forwarded st.
Proof.
  unfold cleanup_one. destruct (entry st s k) as [v|]; [|done]. cbn [or_else mbind outcome_bind]. destruct (_ =? 0); [by intros [= <-]|].
  destruct (ns v) as [m|]; [|done]. cbn [or_else mbind outcome_bind]. destruct (m !! i) as [x|]; [|done]. cbn [or_else mbind outcome_bind].
  destruct (has_node x); [|by intros [= <-]]. destruct (Edge_Data st !! i) as [pl|]; [|done]. cbn [or_else mbind outcome_bind].
  destruct (unlink _ _ _ _ _) as [pl'| |]; try done. cbn [mbind outcome_bind]. by intros [= <-].
Qed.

Lemma cleanup_forwarded cfg i s k f st st' : Cleanup_prio_flood_ds cfg i s k f st = Ret st' -> forwarded st' = forwarded st.
Proof.
  unfold Cleanup_prio_flood_ds. destruct (entry st s k) as [v|]; [|done]. cbn [or_else mbind outcome_bind]. destruct (_ =? 0); [by intros [= <-]|].
  destruct (msg_scat v) as [m|]; [|done]. cbn [or_else mbind outcome_bind]. generalize (packets_of_msg cfg (link_mode v) m) as p. intros p.
  assert (Hf : forall l st st', foldM (cleanup_one s k p f) st l = Ret st' -> forwarded st' = forwarded st).
  { induction l as [|x l IH]; intros a b; cbn [foldM]; [by intros [= <-]|]. destruct (cleanup_one s k p f a x) as [a'| |] eqn:E; try done. cbn [mbind outcome_bind].
    intros Hl%IH. rewrite Hl. by eapply cleanup_one_forwarded. }
  destruct (foldM _ _ _) as [st1| |] eqn:E; try done. cbn [mbind outcome_bind]. apply Hf in E.
  destruct (entry st1 s k) as [v1|]; [|done]. cbn [or_else mbind outcome_bind]. by intros [= <-].
Qed.

(** A source at its turn has its message accepted, or dropped as expired. *)
Lemma send_turn_forwards cfg t mode fwd i s pl st r :
  accepting fwd = true -> send_turn cfg t mode fwd i s pl st = Ret r ->
  match r with inl st' => forwarded st' = forwarded st | inr (_, st') => exists k, forwarded st' = forwarded st ++ [(i, s, k)] end.
Proof.
  intros Hacc. unfold send_turn. destruct (level pl s (max_pq pl s)) as [|k l]; [done|]. destruct (entry st s k) as [v|]; [|done]. cbn [or_else mbind outcome_bind].
  destruct (expired t v).
  - destruct (Cleanup_prio_flood_ds _ _ _ _ _ _) as [st1| |] eqn:E; try done. cbn [mbind outcome_bind]. apply cleanup_forwarded in E.
    destruct (Edge_Data st1 !! i); [|done]. cbn [or_else mbind outcome_bind]. by intros [= <-].
  - destruct (msg_scat v) as [m|]; [|done]. cbn [or_else mbind outcome_bind]. unfold accepting in Hacc. rewrite Hacc.
    destruct (Cleanup_prio_flood_ds _ _ _ _ _ _) as [st1| |] eqn:E; try done. cbn [mbind outcome_bind]. apply cleanup_forwarded in E. intros [= <-]. exists k. done.
Qed.

Lemma send_loop_forwards cfg t mode fwd i n : forall st b st',
  accepting fwd = true -> send_loop cfg t mode fwd i n st = Ret (b, st') ->
  (exists s k, forwarded st' = forwarded st ++ [(i, s, k)]) \/
  (forwarded st' = forwarded st /\ exists pl, Edge_Data st' !! i = Some pl /\ urgent pl = [] /\ norm pl = []).
Proof.
  induction n as [|n IH]; intros st b st' Hacc; [done|]. cbn [send_loop]. destruct (Edge_Data st !! i) as [pl|] eqn:Hpl; [|done]. cbn [or_else mbind outcome_bind].
  assert (Hturn : forall s, (r ← send_turn cfg t mode fwd i s pl st; match r with inl st => send_loop cfg t mode fwd i n st | inr r => Ret r end) = Ret (b, st') ->
    (exists s k, forwarded st' = forwarded st ++ [(i, s, k)]) \/ (forwarded st' = forwarded st /\ exists pl, Edge_Data st' !! i = Some pl /\ urgent pl = [] /\ norm pl = [])).
  { intros s. destruct (send_turn _ _ _ _ _ _ _ _) as [r| |] eqn:E; try done. cbn [mbind outcome_bind]. apply send_turn_forwards in E; [|done].
    destruct r as [st1|[b1 st1]]; [|intros [= <- <-]; destruct E as [k E]; left; by exists s, k]. intros H%IH; [|done]. by rewrite <- E. }
  destruct (urgent pl) as [|[s p] u] eqn:Eu.
  - destruct (norm pl) as [|[s p] r] eqn:En; [intros [= <- <-]; right; split; [done|]; by exists pl|].
    destruct (_ <? _); [by intros H%IH|]. destruct (_ =? 0); [by intros H%IH|apply Hturn].
  - destruct (_ || _); [by intros H%IH|apply Hturn].
Qed.

(** Nothing is queued for a neighbour nobody of the fair queues waits for. *)
Lemma fair_empty W n pl : link_ok W n pl -> urgent pl = [] -> norm pl = [] -> forall s j, level pl s j = [].
Proof.
  intros Hlk Hu Hn s j. destruct (level pl s j) as [|k l] eqn:E; [done|]. exfalso. assert (Hk : k ∈ level pl s j) by (rewrite E; left).
  pose proof (weight_pos _ _ _ _ _ (lk_levels _ _ _ Hlk) Hk) as Hw. rewrite <- (lk_count _ _ _ Hlk s) in Hw.
  pose proof (fq_all _ (lk_fair _ _ _ Hlk) s Hw) as Hin. rewrite (fq_elem _ (lk_fair _ _ _ Hlk) s), Hu, Hn in Hin. by apply not_elem_of_nil in Hin.
Qed.

(** ** Runs *)
Section System.
Context `{HO : HashOrder} (cfg : prio_conf) (My_ID : Z) (X : Z -> prio_key -> sp_time).

Record prio_sys := mk_psys { clock : sp_time; mem : prio; accepted : list (Z * prio_key) }.

(** A message the handler may see in state [st]. *)
Record admissible (e : prio_env) (src_link : option Z) (msg : prio_msg) (st : prio) : Prop := {
  ad_fits : msg_fits msg; ad_steady : steady e msg; ad_mask : on_mask cfg src_link msg st; ad_time : time_le (now e) (later e);
  ad_signed : forall s, Node_Lookup cfg (h_source msg) = Some s -> f_expire msg = X s (key_of msg) }.

Definition accept_log (r : Z) (msg : prio_msg) : list (Z * prio_key) :=
  match Node_Lookup cfg (h_source msg) with Some s => if r =? NO_ROUTE then [] else [(s, key_of msg)] | None => [] end.

Inductive prio_step : prio_sys -> prio_sys -> Prop :=
| step_receive e src_link mode msg y r st : time_le (clock y) (now e) -> admissible e src_link msg (mem y) ->
    Priority_Flood_Disseminate cfg e src_link mode msg (mem y) = Ret (r, st) -> prio_step y (mk_psys (later e) st (accepted y ++ accept_log r msg))
| step_send t mode fwd nid y b st : time_le (clock y) t -> ngbr_index cfg nid <> 0 ->
    Priority_Flood_Send_One cfg t mode fwd nid (mem y) = Ret (b, st) -> prio_step y (mk_psys t st (accepted y))
| step_collect t y st : time_le (clock y) t -> Priority_Garbage_Collect cfg t (mem y) = Ret st -> prio_step y (mk_psys t st (accepted y))
| step_originate y inc n st : Fill_Packet_Header_Best_Effort_Flood My_ID (mem y) = (inc, n, st) -> prio_step y (mk_psys (clock y) st (accepted y)).

Definition prio_init (t : sp_time) : prio_sys := mk_psys t (Init_Priority_Flooding cfg My_ID t) [].
Definition prio_reachable (y : prio_sys) : Prop := exists t, rtc prio_step (prio_init t) y.

Record sys_inv (y : prio_sys) : Prop := {
  si_inv : prio_inv cfg 0 (mem y); si_nodup : NoDup (accepted y);
  si_known : forall s k x, info (mem y) s k = Some x -> (s, k) ∈ accepted y /\ fst x = X s k;
  si_kept : forall s k, (s, k) ∈ accepted y -> is_Some (info (mem y) s k) \/ time_le (X s k) (clock y);
  si_forwarded : forall x, x ∈ forwarded (mem y) -> (x.1.2, x.2) ∈ accepted y }.

Context (Hcfg : pconf_ok cfg).

Lemma leb_time t u : (E_compare_time t u <=? 0) = true <-> time_le t u.
Proof. unfold time_le. apply Z.leb_le. Qed.

(** A key that was accepted and is not remembered any more has expired. *)
Lemma forgotten_expired y e msg s :
  sys_inv y -> time_le (clock y) (now e) -> f_expire msg = X s (key_of msg) -> entry (mem y) s (key_of msg) = None ->
  (E_compare_time (f_expire msg) (now e) <=? 0) = false -> ~ (s, key_of msg) ∈ accepted y.
Proof.
  intros Hy Ht HX Hno Hlive Hin. destruct (si_kept y Hy _ _ Hin) as [[x Hx]|Hold]; [unfold info in Hx; by rewrite Hno in Hx|].
  apply not_true_iff_false in Hlive. apply Hlive, leb_time. rewrite HX. by etrans.
Qed.

Lemma fresh_key y e src_link msg s i :
  sys_inv y -> time_le (clock y) (now e) -> admissible e src_link msg (mem y) -> Node_Lookup cfg (h_source msg) = Some s ->
  entry (mem y) s (key_of msg) = None -> (E_compare_time (f_expire msg) (now e) <=? 0) = false -> ~ (i, s, key_of msg) ∈ since 0 (mem y).
Proof.
  intros Hy Ht Ha Hs Hno Hlive Hin. unfold since in Hin. rewrite drop_0 in Hin. apply (si_forwarded y Hy) in Hin. cbn in Hin.
  by apply (forgotten_expired y e msg s) in Hin; [|try done..|]; try apply (ad_signed _ _ _ _ Ha s Hs).
Qed.

Lemma from_belly_sys y st t :
  sys_inv y -> prio_inv cfg 0 st -> from_belly (mem y) st -> time_le (clock y) t -> sys_inv (mk_psys t st (accepted y)).
Proof.
  intros Hy Hinv [Hi Hf] Ht. split; try done; cbn [mem accepted clock].
  - apply (si_nodup y Hy).
  - intros s k x. rewrite Hi. apply (si_known y Hy).
  - intros s k Hin. rewrite Hi. destruct (si_kept y Hy s k Hin) as [?|?]; [by left|right]. by etrans.
  - intros x [Hx|[z Hz]]%Hf; [by apply (si_forwarded y Hy)|by apply (si_known y Hy) in Hz as [? _]].
Qed.

Lemma accepts_sys y e src_link mode msg s st :
  sys_inv y -> time_le (clock y) (now e) -> admissible e src_link msg (mem y) -> prio_inv cfg 0 st -> accepts cfg e mode msg s (mem y) st ->
  sys_inv (mk_psys (later e) st (accepted y ++ [(s, key_of msg)])).
Proof.
  intros Hy Ht Ha Hinv [A1 A2 A3 A4 A5]. pose proof (ad_signed _ _ _ _ Ha s A1) as HX.
  assert (Hk : forall s' k' x, info st s' k' = Some x -> (s', k') ∈ accepted y ++ [(s, key_of msg)] /\ fst x = X s' k').
  { intros s' k' x. rewrite A4. case_decide as Hd; [injection Hd as -> ->; intros [= <-]; split; [|done]; apply elem_of_app; right; left|].
    intros [? ?]%(si_known y Hy). split; [apply elem_of_app; by left|done]. }
  split; cbn [mem accepted clock]; try done.
  - apply NoDup_app. split; [apply (si_nodup y Hy)|]. split; [|apply NoDup_singleton].
    intros x Hx Hin%list_elem_of_singleton. subst x. by apply (forgotten_expired y e msg s) in Hx.
  - intros s' k' [Hin|[= -> ->]%list_elem_of_singleton]%elem_of_app.
    + rewrite A4. case_decide; [left; by eexists|]. destruct (si_kept y Hy s' k' Hin) as [?|?]; [by left|right]. etrans; [done|]. etrans; [exact Ht|apply (ad_time _ _ _ _ Ha)].
    + left. rewrite A4, decide_True by done. by eexists.
  - intros x [Hx|[z Hz]]%A5; [apply elem_of_app; left; by apply (si_forwarded y Hy)|by apply Hk in Hz as [? _]].
Qed.

Lemma receive_sys y e src_link mode msg :
  sys_inv y -> time_le (clock y) (now e) -> admissible e src_link msg (mem y) ->
  exists r st, Priority_Flood_Disseminate cfg e src_link mode msg (mem y) = Ret (r, st) /\ sys_inv (mk_psys (later e) st (accepted y ++ accept_log r msg)).
Proof.
  intros Hy Ht Ha. destruct (disseminate_inv cfg Hcfg 0 e src_link mode msg (mem y)) as (r & st & Hd & Hinv & Hres).
  - apply (si_inv y Hy).
  - apply (ad_fits _ _ _ _ Ha).
  - apply (ad_steady _ _ _ _ Ha).
  - apply (ad_mask _ _ _ _ Ha).
  - intros s i Hs Hno Hx. by eapply fresh_key.
  - exists r, st. split; [done|]. unfold accept_log. destruct Hres as [[-> Hb]|[Hr (s & Hacc)]].
    + replace (match _ with Some s => _ | None => [] end) with (@nil (Z * prio_key)) by (by destruct (Node_Lookup _ _)). rewrite app_nil_r.
      eapply from_belly_sys; try done. etrans; [exact Ht|apply (ad_time _ _ _ _ Ha)].
    + rewrite (ac_source _ _ _ _ _ _ _ Hacc). replace (r =? NO_ROUTE) with false by (destruct Hr as [-> | ->]; done). by eapply accepts_sys.
Qed.

Lemma send_sys y t mode fwd nid :
  sys_inv y -> time_le (clock y) t -> ngbr_index cfg nid <> 0 ->
  exists b st, Priority_Flood_Send_One cfg t mode fwd nid (mem y) = Ret (b, st) /\ sys_inv (mk_psys t st (accepted y)) /\ sends t (ngbr_index cfg nid) (mem y) st.
Proof.
  intros Hy Ht Hn. destruct (send_one_inv cfg Hcfg 0 t mode fwd nid (mem y) (si_inv y Hy) Hn) as (b & st & He & Hinv & Hs & Hb).
  exists b, st. split_and!; try done. by apply from_belly_sys.
Qed.

Lemma collect_sys y t :
  sys_inv y -> time_le (clock y) t ->
  exists st, Priority_Garbage_Collect cfg t (mem y) = Ret st /\ sys_inv (mk_psys t st (accepted y)) /\
    forall s k, info st s k = None <-> info (mem y) s k = None \/ time_le (X s k) t /\ is_Some (info (mem y) s k).
Proof.
  intros Hy Ht. destruct (collect_inv cfg Hcfg 0 t (mem y) (si_inv y Hy)) as (st & He & Hinv & Hf & Hold & Hnew). exists st.
  assert (Hdec : forall s k, old t (mem y) s k <-> is_Some (info (mem y) s k) /\ time_le (X s k) t).
  { intros s k. unfold old. split; [intros (x & Hx & Ht')|intros [[x Hx] Ht']; exists x]; pose proof (proj2 (si_known y Hy s k x Hx)) as HX.
    - split; [by eexists|]. rewrite <- HX. by apply leb_time.
    - split; [done|]. apply leb_time. by rewrite HX. }
  assert (Hcase : forall s k, old t (mem y) s k \/ ~ old t (mem y) s k).
  { intros s k. rewrite Hdec. destruct (info (mem y) s k); [|right; intros [[? ?] _]; done]. destruct (E_compare_time (X s k) t <=? 0) eqn:E; [left|right; intros [_ H%leb_time]; congruence].
    split; [by eexists|by apply leb_time]. }
  split_and!; try done.
  - split; cbn [mem accepted clock]; try done.
    + apply (si_nodup y Hy).
    + intros s k x. destruct (Hcase s k) as [Ho|Ho]; [by rewrite Hold|rewrite Hnew by done; apply (si_known y Hy)].
    + intros s k Hin. destruct (Hcase s k) as [Ho|Ho]; [right; by apply Hdec in Ho as [_ ?]|]. rewrite Hnew by done. destruct (si_kept y Hy s k Hin) as [?|?]; [by left|right; by etrans].
    + rewrite Hf. apply (si_forwarded y Hy).
  - intros s k. destruct (Hcase s k) as [Ho|Ho].
    + rewrite (Hold _ _ Ho). apply Hdec in Ho as [? ?]. split; [by right|done].
    + rewrite (Hnew _ _ Ho). split; [by left|]. intros [?|[? ?]]; [done|]. exfalso. apply Ho, Hdec. done.
Qed.

Lemma init_sys t : sys_inv (prio_init t).
Proof.
  assert (Hno : forall s k, info (mem (prio_init t)) s k = None) by (intros; unfold info, entry, belly; cbn; by rewrite !lookup_empty).
  split; cbn [prio_init mem accepted clock].
  - by apply init_inv.
  - constructor.
  - intros s k x Hx. change (info (mem (prio_init t)) s k = Some x) in Hx. by rewrite Hno in Hx.
  - by intros s k Hin%not_elem_of_nil.
  - by intros x Hin%not_elem_of_nil.
Qed.

Lemma step_sys y y' : prio_step y y' -> sys_inv y -> sys_inv y'.
Proof.
  destruct 1 as [e src_link mode msg y r st Ht Ha He|t mode fwd nid y b st Ht Hn He|t y st Ht He|y inc n st He]; intros Hy.
  - destruct (receive_sys y e src_link mode msg Hy Ht Ha) as (r' & st' & He' & Hy'). rewrite He in He'. by injection He' as <- <-.
  - destruct (send_sys y t mode fwd nid Hy Ht Hn) as (b' & st' & He' & Hy' & _). rewrite He in He'. by injection He' as <- <-.
  - destruct (collect_sys y t Hy Ht) as (st' & He' & Hy' & _). rewrite He in He'. by injection He' as <-.
  - injection He as <- <- <-. apply from_belly_sys; [done| |by apply from_belly_same|reflexivity].
    eapply prio_inv_frame; [| | |apply (si_inv y Hy)]; done.
Qed.

Lemma reachable_sys y : prio_reachable y -> sys_inv y.
Proof. intros [t H]. pattern y. eapply rtc_ind_r; [| |exact H]; [apply init_sys|]. intros a b _ Hs Ha. by eapply step_sys. Qed.
End System.
