(* ===== verification/PrioProps.v ===== *)
(** * PrioProps: what priority flooding promises

    The theorems about a daemon that floods by priority, over any run of its
    handlers: none fails; a message is accepted once and handed to each neighbour
    at most once; the link that asks gets the oldest message of greatest priority
    of the source at the turn, and gets one whenever there is one; the queues stay
    within their limit, at the cost of the source that uses most. *)
From stdpp Require Import base list gmap numbers option sets relations.
From Stdlib Require Import ZArith Lia.
From S2P Require Import Prelude HashMap Events NetTypes MultiPath ITFrag PrioFlood PrioProof PrioState PrioSend PrioDissem PrioSys.
#[local] Open Scope Z_scope.

(** ** An example: node 10 between the neighbours 11 and 12, and source 13 *)
Module ExP.
#[export] Instance order : HashOrder := {| hash_iter := fun _ _ _ _ m => map_to_list m; hash_iter_perm := fun _ _ _ _ m => Permutation_refl (map_to_list m) |}.

Definition cfg : prio_conf :=
  mk_pconf 10 2 (fun i => 10 + i) (fun a => if (10 <=? a) && (a <=? 13) then Some (a - 9) else None) (fun _ => 1000) 1 0 0 8
    (fun i => [2 ^ i; 0; 0; 0; 0; 0; 0; 0]) (mk_time 10 0).
Definition expiry (s : Z) (k : prio_key) : sp_time := mk_time (if snd k =? 9 then 3 else 100) 0.
Definition msg (src n prio m : Z) : prio_msg :=
  mk_pmsg src 99 4 1 n prio (mk_time 0 0) (mk_time (if n =? 9 then 3 else 100) 0) [m; 0; 0; 0; 0; 0; 0; 0] 20 [[1; 2; 3; 4]; replicate 76 0].
Definition env (t : Z) (reqs : list (list Z * Z)) : prio_env := mk_penv (mk_time t 0) (mk_time t 1) (fun _ => true) true (fun i => if i =? 2 then reqs else []).
Definition get (d : prio) (r : outcome (Z * prio)) : prio := match r with Ret (_, st) => st | _ => d end.

Definition st0 : prio := Init_Priority_Flooding cfg 1 (mk_time 0 0).
(** Source 13 has a message, then one of higher priority, over neighbour 11. *)
Definition st1 : prio := get st0 (Priority_Flood_Disseminate cfg (env 1 []) (Some 11) 0 (msg 13 1 2 6) st0).
Definition st2 : prio := get st1 (Priority_Flood_Send_One cfg (mk_time 2 0) 0 BUFF_OK 12 st1).
Definition st3 : prio := get st1 (Priority_Flood_Disseminate cfg (env 2 []) (Some 11) 0 (msg 13 2 5 6) st1).

Lemma prio_conf_ok : pconf_ok cfg.
Proof.
  split; try (vm_compute; intuition congruence). intros a s. cbn. destruct ((10 <=? a) && (a <=? 13)) eqn:E; [|done].
  intros [= <-]. apply andb_true_iff in E as [?%Z.leb_le ?%Z.leb_le]. unfold MAX_NODES. lia.
Qed.

Lemma admissible1 : admissible cfg expiry (env 1 []) (Some 11) (msg 13 1 2 6) st0.
Proof.
  split; [split; cbn; lia|right; reflexivity| |vm_compute; congruence|by intros s _].
  intros a s v m x _ _ Hv. vm_compute in Hv. done.
Qed.

Lemma admissible2 : admissible cfg expiry (env 2 []) (Some 11) (msg 13 2 5 6) st1.
Proof.
  split; [split; cbn; lia|right; reflexivity| |vm_compute; congruence|by intros s _].
  intros a s v m x _ [= <-] Hv. vm_compute in Hv. done.
Qed.

Lemma prio_reachable1 : prio_reachable cfg 1 expiry (mk_psys (mk_time 1 1) st1 [(4, (1, 1))]).
Proof.
  exists (mk_time 0 0). apply rtc_once. apply (step_receive cfg 1 expiry (env 1 []) (Some 11) 0 (msg 13 1 2 6) (prio_init cfg 1 (mk_time 0 0)) BUFF_OK st1).
  - vm_compute. congruence.
  - apply admissible1.
  - vm_compute. reflexivity.
Qed.

Lemma prio_reachable2 : prio_reachable cfg 1 expiry (mk_psys (mk_time 2 0) st2 [(4, (1, 1))]).
Proof.
  destruct prio_reachable1 as [t H]. exists t. eapply rtc_r; [exact H|].
  apply (step_send cfg 1 expiry (mk_time 2 0) 0 BUFF_OK 12 (mk_psys (mk_time 1 1) st1 [(4, (1, 1))]) 100 st2); vm_compute; congruence.
Qed.
End ExP.

Section Props.
Context `{HO : HashOrder} (cfg : prio_conf) (Hcfg : pconf_ok cfg) (My_ID : Z) (X : Z -> prio_key -> sp_time).
#[local] Notation reachable := (prio_reachable cfg My_ID X).

Lemma reachable_link y i : reachable y -> 1 <= i <= Degree cfg ->
  exists W pl, prio_ok cfg W (fun _ _ => Degree cfg) (fun _ => Max_Mess_Stored cfg) (mem y) /\ Edge_Data (mem y) !! i = Some pl /\ link_ok W (Max_Mess_Stored cfg) pl.
Proof.
  intros Hy Hi. destruct (si_inv _ _ _ (reachable_sys cfg My_ID X Hcfg y Hy)) as (W & Hok & _).
  destruct (po_links _ _ _ _ _ Hok i Hi) as (pl & Hpl & Hlk). by exists W, pl.
Qed.

(** C15: Whatever sequence of handlers ran before, every message is accepted at most
    once (a duplicate never is), nothing but accepted messages is handed to the
    links, and no message is handed twice to the link of one neighbour, not
    even when it comes back after it was forgotten. *)
Theorem prio_at_most_once y : reachable y ->
  NoDup (accepted y) /\ NoDup (forwarded (mem y)) /\ (forall i s k, (i, s, k) ∈ forwarded (mem y) -> 1 <= i <= Degree cfg /\ (s, k) ∈ accepted y).
Proof.
  intros Hy%(reachable_sys cfg My_ID X Hcfg). destruct (si_inv _ _ _ Hy) as (W & _ & Hfw). split; [apply (si_nodup _ _ _ Hy)|].
  split; [exact (fw_nodup _ _ _ _ Hfw)|]. intros i s k Hin. split; [by apply (fw_gone _ _ _ _ Hfw i s k)|].
  exact (si_forwarded _ _ _ Hy _ Hin).
Qed.

(** C32: From every reachable state, every handler returns on admissible input: no
    NULL pointer, no uninitialised status, no Alarm(EXIT), no endless loop; the
    state after it is reachable again.  Admissible is a message with at most 99
    elements and a priority that is not negative, that does not expire while it is
    handled, whose expiration time is the one signed for its source and number,
    and that, when it is a duplicate, does not come from a neighbour outside its
    mask; the clock does not go back, and sending is asked for by a neighbour.
    ([prio_duplicate_exits] and [prio_expiry_while_offered] show that the
    conditions on duplicates and on expiration are needed.) *)
Theorem prio_never_fails y : reachable y ->
  (forall e src_link mode msg, time_le (clock y) (now e) -> admissible cfg X e src_link msg (mem y) ->
    exists r st, Priority_Flood_Disseminate cfg e src_link mode msg (mem y) = Ret (r, st) /\ reachable (mk_psys (later e) st (accepted y ++ accept_log cfg r msg))) /\
  (forall t mode fwd nid, time_le (clock y) t -> ngbr_index cfg nid <> 0 ->
    exists b st, Priority_Flood_Send_One cfg t mode fwd nid (mem y) = Ret (b, st) /\ reachable (mk_psys t st (accepted y))) /\
  (forall t, time_le (clock y) t -> exists st, Priority_Garbage_Collect cfg t (mem y) = Ret st /\ reachable (mk_psys t st (accepted y))).
Proof.
  intros Hr. pose proof (reachable_sys cfg My_ID X Hcfg y Hr) as Hy. destruct Hr as [t0 Hr].
  assert (Hstep : forall y', prio_step cfg My_ID X y y' -> reachable y') by (intros y' Hs; exists t0; by eapply rtc_r).
  split_and!.
  - intros e src_link mode msg Ht Ha. destruct (receive_sys cfg X Hcfg y e src_link mode msg Hy Ht Ha) as (r & st & He & _). exists r, st. split; [done|]. apply Hstep. by eapply step_receive.
  - intros t mode fwd nid Ht Hn. destruct (send_sys cfg X Hcfg y t mode fwd nid Hy Ht Hn) as (b & st & He & _). exists b, st. split; [done|]. apply Hstep. by eapply step_send.
  - intros t Ht. destruct (collect_sys cfg X Hcfg y t Hy Ht) as (st & He & _). exists st. split; [done|]. apply Hstep. by eapply step_collect.
Qed.

(** C16: [Priority_Flood_Send_One] ends and drops nothing but expired messages; it
    hands the link either nothing, or exactly one message: the oldest one of the
    greatest priority its source has in the queue, not expired, which leaves this
    neighbour's queue. *)
Theorem prio_send_order y t mode fwd nid : reachable y -> time_le (clock y) t -> ngbr_index cfg nid <> 0 ->
  let i := ngbr_index cfg nid in
  exists b st, Priority_Flood_Send_One cfg t mode fwd nid (mem y) = Ret (b, st) /\
    ((forwarded st = forwarded (mem y) /\ drain (fun _ => old t (mem y)) (mem y) st) \/
     exists st1 pl s k rest, drain (fun _ => old t (mem y)) (mem y) st1 /\ Edge_Data st1 !! i = Some pl /\ level pl s (max_pq pl s) = k :: rest /\
       (forall j, max_pq pl s < j -> level pl s j = []) /\ ~ old t st1 s k /\
       forwarded st = forwarded (mem y) ++ [(i, s, k)] /\ drain (fun _ => only s k) st1 st /\ gone st i s k).
Proof.
  intros Hr Ht Hn i. destruct (send_sys cfg X Hcfg y t mode fwd nid (reachable_sys cfg My_ID X Hcfg y Hr) Ht Hn) as (b & st & He & _ & Hs).
  exists b, st. split; [done|]. destruct Hs as [Hs|(st1 & s & k & Hd & (pl & rest & Hpl & Hlv & Hmx & Ho) & Hf & Hd2 & Hg)]; [by left|right].
  exists st1, pl, s, k, rest. split_and!; try done. apply (mx_above _ _ Hmx).
Qed.

(** C17: When a link asks for a message and takes it, and a message that has not
    expired is queued for its neighbour, one message is handed over: no priority,
    no penalty and no expired message in front stops the queue. *)
Theorem prio_send_live y t mode fwd nid pl s j k : reachable y -> time_le (clock y) t -> ngbr_index cfg nid <> 0 -> accepting fwd = true ->
  Edge_Data (mem y) !! ngbr_index cfg nid = Some pl -> k ∈ level pl s j -> ~ old t (mem y) s k ->
  exists b st s' k', Priority_Flood_Send_One cfg t mode fwd nid (mem y) = Ret (b, st) /\ forwarded st = forwarded (mem y) ++ [(ngbr_index cfg nid, s', k')].
Proof.
  intros Hr Ht Hn Hacc Hpl Hk Hlive. pose proof (ngbr_index_range cfg nid Hn) as Hi.
  destruct (send_sys cfg X Hcfg y t mode fwd nid (reachable_sys cfg My_ID X Hcfg y Hr) Ht Hn) as (b & st & He & Hy' & Hs).
  pose proof He as He'. unfold Priority_Flood_Send_One in He'. rewrite (proj2 (Z.leb_le _ _)), (proj2 (Z.leb_le _ _)) in He' by lia. cbn [andb] in He'.
  unfold send_to in He'. rewrite Hpl in He'. cbn [or_else mbind outcome_bind] in He'.
  apply send_loop_forwards in He'; [|done]. destruct He' as [(s' & k' & Hf)|(Hf & pl' & Hpl' & Hu & Hno)]; [by exists b, st, s', k'|]. exfalso.
  destruct Hs as [[_ Hd]|(st1 & s' & k' & _ & _ & Hf' & _)].
  - destruct (dr_links _ _ _ Hd _ _ Hpl) as (pl1 & Hpl1 & _ & Hleft). assert (pl1 = pl') as -> by congruence. apply Hlive, (Hleft s j k Hk).
    destruct (si_inv _ _ _ Hy') as (W & Hok & _). destruct (po_links _ _ _ _ _ Hok _ Hi) as (pl2 & Hpl2 & Hlk). cbn in Hpl2. assert (pl2 = pl') as -> by congruence.
    rewrite (fair_empty _ _ _ Hlk Hu Hno s j). apply not_elem_of_nil.
  - rewrite Hf in Hf'. apply (f_equal length) in Hf'. rewrite length_app in Hf'. cbn in Hf'. lia.
Qed.

(** The packets a stored message takes on its link, as [Calculate_Packets_In_Message]
    counts them. *)
Definition stored_packets (st : prio) (s : Z) (k : prio_key) : Z :=
  match entry st s k with
  | Some v => match msg_scat v with
              | Some sc => fst (Calculate_Packets_In_Message (Link_Size cfg (link_mode v)) sc)
              | None => 0
              end
  | None => 0
  end.

Lemma stored_packets_weight W fr B st i pl s j k :
  prio_ok cfg W fr B st -> 1 <= i <= Degree cfg -> Edge_Data st !! i = Some pl -> k ∈ level pl s j -> stored_packets st s k = W s k.
Proof.
  intros Hok Hi Hpl Hk. apply (po_queued _ _ _ _ _ Hok i pl Hi Hpl) in Hk as (v & m & Hv & _ & Hm & _). unfold stored_packets. rewrite Hv.
  destruct (vo_state _ _ _ _ _ _ (po_vals _ _ _ _ _ Hok _ _ _ Hv)) as [[_ Hno]|(m' & sc & _ & Hsc & Hpk & _)]; [congruence|]. by rewrite Hsc.
Qed.

(** C18: in every reachable state the queues towards a neighbour hold exactly the
    messages whose status there is [NEED_MSG], at the level of their priority and
    never twice; they hold at most [Max_Mess_Stored] messages.  The count of a
    source is the sum of the packets of its queued messages, each as
    [Calculate_Packets_In_Message] gives it for the stored elements and the link
    size of its mode; the total is the sum over the sources and does not wrap.
    Every source with a message waits in a fair queue. *)
Theorem prio_queues_consistent y i : reachable y -> 1 <= i <= Degree cfg ->
  exists pl, Edge_Data (mem y) !! i = Some pl /\
    (forall s j k, k ∈ level pl s j <-> exists v m, entry (mem y) s k = Some v /\ priority v = j /\ ns v = Some m /\ m !! i = Some (mk_ns NEED_MSG true)) /\
    (forall s j, NoDup (level pl s j)) /\ messages pl <= Max_Mess_Stored cfg /\
    (forall s, msg_count pl s = sumZ (fun j => sumZ (stored_packets (mem y) s) (level pl s j)) (seqZ 1 MAX_PRIORITY)) /\
    total_msg pl = sumZ (msg_count pl) (seqZ 1 MAX_NODES) /\ messages pl <= total_msg pl <= 100 * Max_Mess_Stored cfg /\
    (forall s, 0 < msg_count pl s -> s ∈ (urgent pl ++ norm pl).*1) /\ (forall s j, level pl s j <> [] -> 0 < msg_count pl s).
Proof.
  intros Hr Hi. destruct (reachable_link y i Hr Hi) as (W & pl & Hok & Hpl & Hlk). exists pl. split; [done|].
  pose proof (total_bound W pl (lk_levels _ _ _ Hlk)) as Htot. pose proof (lk_room _ _ _ Hlk) as Hroom. pose proof (lk_total _ _ _ Hlk) as Ht.
  split_and!.
  - intros s j k. apply (po_queued _ _ _ _ _ Hok i pl Hi Hpl).
  - apply (lv_nodup _ _ (lk_levels _ _ _ Hlk)).
  - done.
  - intros s. rewrite (lk_count _ _ _ Hlk). apply sumZ_ext. intros j _. apply sumZ_ext. intros k Hk.
    symmetry. by apply (stored_packets_weight W _ _ _ i pl s j k Hok).
  - rewrite Ht. apply sumZ_ext. intros s _. symmetry. apply (lk_count _ _ _ Hlk).
  - rewrite Ht. lia.
  - rewrite Ht. lia.
  - intros s Hs. apply (fq_elem _ (lk_fair _ _ _ Hlk)). by apply (fq_all _ (lk_fair _ _ _ Hlk)).
  - intros s j Hne. rewrite (lk_count _ _ _ Hlk). destruct (level pl s j) as [|k l] eqn:E; [done|]. apply (weight_pos W pl s j k (lk_levels _ _ _ Hlk)). rewrite E. left.
Qed.

(** When the queues of a neighbour exceed the limit, [evict] takes the message
    from a source that uses no less than any other, from its least level that
    holds one, the oldest there; that message and no other leaves the queues, and
    the answer is [BUFF_DROP]. *)
Theorem prio_evict_victim W fr B st i pl ret :
  prio_ok cfg W fr B st -> (forall i', 1 <= i' <= Degree cfg -> 100 * B i' < 2 ^ 32) -> 1 <= i <= Degree cfg -> Edge_Data st !! i = Some pl -> Max_Mess_Stored cfg < total_msg pl ->
  exists k rest st', level pl (hog pl) (min_pq pl (hog pl)) = k :: rest /\ (forall s, 1 <= s <= MAX_NODES -> msg_count pl s <= msg_count pl (hog pl)) /\
    (forall j, j < min_pq pl (hog pl) -> level pl (hog pl) j = []) /\
    evict cfg i st ret = Ret (st', BUFF_DROP) /\ prio_ok cfg W fr B st' /\ evolve (only (hog pl) k) st st' /\ gone st' i (hog pl) k.
Proof.
  intros Hok Hroom Hi Hpl Hfull. pose proof (pc_max _ Hcfg) as Hcap. destruct (po_links _ _ _ _ _ Hok i Hi) as (pl' & Hpl' & Hlk). assert (pl' = pl) as -> by congruence.
  destruct (hog_spec cfg Hcfg W _ pl Hlk ltac:(lia)) as [Hc Hmost]. pose proof (min_level W _ pl (hog pl) Hlk Hc) as Hne.
  destruct (level pl (hog pl) (min_pq pl (hog pl))) as [|k rest] eqn:El; [done|]. assert (Hk : k ∈ level pl (hog pl) (min_pq pl (hog pl))) by (rewrite El; left).
  destruct (queued_entry cfg W fr _ st i pl _ _ k Hok Hi Hpl Hk) as (v & m & sc & Hv & _ & _ & Hfr).
  destruct (cleanup_ok cfg W (pc_degree _ Hcfg) fr B Hroom st (hog pl) k v DROPPED_MSG i) as (st1 & Hcl & Hok1 & Hev & Hg); try done.
  eexists k, rest, _. split; [reflexivity|]. split; [exact Hmost|]. split; [apply (mn_below _ _ (lk_min _ _ _ Hlk _))|]. split.
  - unfold evict. rewrite Hpl. cbn [or_else mbind outcome_bind]. rewrite (proj2 (Z.ltb_lt _ _) Hfull), El, Hcl. cbn [mbind outcome_bind]. reflexivity.
  - split_and!.
    + destruct Hok1 as [A1 A2 A3]. split; [exact A1|exact A2|exact A3].
    + destruct Hev as [A1 A2 A3]. split; [exact A1|exact A2|exact A3].
    + apply (Hg i). by rewrite decide_False.
Qed.

(** [Priority_Garbage_Collect] forgets exactly the messages that have expired. *)
Theorem prio_collect_exact y t : reachable y -> time_le (clock y) t ->
  exists st, Priority_Garbage_Collect cfg t (mem y) = Ret st /\
    forall s k, is_Some (entry st s k) <-> is_Some (entry (mem y) s k) /\ ~ time_le (X s k) t.
Proof.
  intros Hr Ht. destruct (collect_sys cfg X Hcfg y t (reachable_sys cfg My_ID X Hcfg y Hr) Ht) as (st & He & _ & Hiff). exists st. split; [done|].
  intros s k. specialize (Hiff s k). unfold info in Hiff. rewrite fmap_None, fmap_is_Some in Hiff. rewrite !fmap_None in Hiff.
  rewrite <- !not_eq_None_Some. rewrite Hiff. destruct (entry (mem y) s k); [|naive_solver]. split; [intros H; split; [done|]; intros Hle; apply H; right; split; [done|by eexists]|].
  intros [_ Hle] [?|[? _]]; done.
Qed.

(** A duplicate from a neighbour that is not on the mask of the message ends the
    daemon, as long as some other neighbour still needs the message: a single
    neighbour can stop this daemon by sending back what it was not meant to get. *)
Theorem prio_duplicate_exits e a mode msg s v m st :
  Node_Lookup cfg a <> None -> ngbr_index cfg a <> 0 ->
  msg_size msg = sizeof_packet_header + sizeof_udp_header + h_len msg + sizeof_prio_flood_header + Z.of_nat (Bitmask_Size cfg) + Prio_Signature_Len cfg ->
  Node_Lookup cfg (h_source msg) = Some s -> signature_ok e = true -> default 0 (Node_Incarnation st !! s) <= f_incarnation msg ->
  entry st s (key_of msg) = Some v -> need_count v <> 0 -> ns v = Some m -> m !! ngbr_index cfg a = Some (mk_ns NOT_IN_MASK false) ->
  Priority_Flood_Disseminate cfg e (Some a) mode msg st = Exit.
Proof.
  intros Ha Hi Hsize Hs Hsig Hinc Hv Hneed Hm Hx. unfold Priority_Flood_Disseminate. rewrite bool_decide_eq_false_2 by done. rewrite (proj2 (Z.eqb_neq _ _) Hi). cbn [orb].
  rewrite Hsize, Z.eqb_refl, Hs, Hsig. cbn [negb]. rewrite andb_false_r. rewrite (proj2 (Z.ltb_ge _ _) Hinc). fold (key_of msg).
  match goal with |- context [entry ?st' s (key_of msg)] => change (entry st' s (key_of msg)) with (entry st s (key_of msg)) end.
  rewrite Hv. unfold duplicate. rewrite (proj2 (Z.eqb_neq _ _) Hneed), Hm. cbn [or_else mbind outcome_bind]. rewrite Hx. done.
Qed.
End Props.

(** ** The theorems at the example *)
#[local] Existing Instance ExP.order.
Lemma prio_at_most_once_witness : forwarded ExP.st2 = [(2, 4, (1, 1))] /\ NoDup (forwarded ExP.st2).
Proof. split; [vm_compute; reflexivity|]. apply (prio_at_most_once ExP.cfg ExP.prio_conf_ok 1 ExP.expiry _ ExP.prio_reachable2). Defined.

Lemma prio_never_fails_witness : exists r st, Priority_Flood_Disseminate ExP.cfg (ExP.env 2 []) (Some 11) 0 (ExP.msg 13 2 5 6) ExP.st1 = Ret (r, st) /\
  prio_reachable ExP.cfg 1 ExP.expiry (mk_psys (mk_time 2 1) st ([(4, (1, 1))] ++ accept_log ExP.cfg r (ExP.msg 13 2 5 6))).
Proof.
  apply (proj1 (prio_never_fails ExP.cfg ExP.prio_conf_ok 1 ExP.expiry _ ExP.prio_reachable1) (ExP.env 2 []) (Some 11) 0 (ExP.msg 13 2 5 6)); [vm_compute; congruence|apply ExP.admissible2].
Defined.

Lemma prio_send_order_witness : exists b st, Priority_Flood_Send_One ExP.cfg (mk_time 2 0) 0 BUFF_OK 12 ExP.st1 = Ret (b, st) /\ b = 100.
Proof.
  destruct (prio_send_order ExP.cfg ExP.prio_conf_ok 1 ExP.expiry _ (mk_time 2 0) 0 BUFF_OK 12 ExP.prio_reachable1) as (b & st & H & _); [vm_compute; congruence|vm_compute; congruence|].
  exists b, st. split; [exact H|]. vm_compute in H. by injection H as <- _.
Defined.

Lemma prio_send_live_witness : exists b st s k, Priority_Flood_Send_One ExP.cfg (mk_time 2 0) 0 BUFF_OK 12 ExP.st1 = Ret (b, st) /\ forwarded st = [(2, s, k)].
Proof.
  assert (Hpl : exists pl, Edge_Data ExP.st1 !! 2 = Some pl /\ (1, 1) ∈ level pl 4 2) by (eexists; split; [vm_compute; reflexivity|apply (bool_decide_unpack _); vm_compute; exact I]).
  destruct Hpl as (pl & Hpl & Hk).
  apply (prio_send_live ExP.cfg ExP.prio_conf_ok 1 ExP.expiry _ (mk_time 2 0) 0 BUFF_OK 12 pl 4 2 (1, 1) ExP.prio_reachable1); try done; try (vm_compute; congruence).
  intros (x & Hx & Hold). vm_compute in Hx. injection Hx as <-. vm_compute in Hold. discriminate.
Defined.

Lemma prio_queues_consistent_witness : exists pl, Edge_Data ExP.st1 !! 2 = Some pl /\ total_msg pl = 1 /\ messages pl <= 1.
Proof.
  destruct (prio_queues_consistent ExP.cfg ExP.prio_conf_ok 1 ExP.expiry _ 2 ExP.prio_reachable1 ltac:(vm_compute; intuition congruence)) as (pl & Hpl & _ & _ & Hm & _).
  exists pl. split; [exact Hpl|]. split; [|exact Hm]. vm_compute in Hpl. by injection Hpl as <-.
Defined.

(** The same daemon with room for no message. *)
Lemma prio_evict_victim_witness : exists k rest pl, Edge_Data ExP.st1 !! 2 = Some pl /\ level pl (hog pl) (min_pq pl (hog pl)) = k :: rest /\ k = (1, 1) /\
  exists st, evict (mk_pconf 10 2 (Neighbor_Addrs ExP.cfg) (Node_Lookup ExP.cfg) (Link_Size ExP.cfg) 0 0 0 8 (Neighbor_Mask ExP.cfg) (mk_time 10 0)) 2 ExP.st1 BUFF_OK = Ret (st, BUFF_DROP).
Proof.
  set (cfg0 := mk_pconf _ _ _ _ _ _ _ _ _ _ _).
  assert (Hcfg0 : pconf_ok cfg0) by (destruct ExP.prio_conf_ok as [? _ _ ?]; split; try done; vm_compute; congruence).
  destruct (reachable_link ExP.cfg ExP.prio_conf_ok 1 ExP.expiry _ 2 ExP.prio_reachable1) as (W & pl & Hok & Hpl & _); [vm_compute; intuition congruence|]. cbn [mem] in *.
  destruct (prio_evict_victim cfg0 Hcfg0 W (fun _ _ => 2) (fun _ => 1) ExP.st1 2 pl BUFF_OK) as (k & rest & st' & Hl & _ & _ & He & _).
  - destruct Hok as [A1 A2 A3]. split; [exact A1| |exact A3]. intros s k v Hv. destruct (A2 s k v Hv) as [B1 B2 B3 B4 B5]. split; done.
  - intros; lia.
  - vm_compute. intuition congruence.
  - done.
  - vm_compute in Hpl. injection Hpl as <-. vm_compute. reflexivity.
  - exists k, rest, pl. split; [exact Hpl|]. split; [exact Hl|]. split; [|by exists st']. vm_compute in Hpl. injection Hpl as <-. vm_compute in Hl. congruence.
Defined.

Lemma prio_collect_exact_witness : exists st, Priority_Garbage_Collect ExP.cfg (mk_time 100 0) ExP.st1 = Ret st /\ ~ is_Some (entry st 4 (1, 1)).
Proof.
  destruct (prio_collect_exact ExP.cfg ExP.prio_conf_ok 1 ExP.expiry _ (mk_time 100 0) ExP.prio_reachable1) as (st & He & Hiff); [vm_compute; congruence|].
  exists st. split; [exact He|]. intros Hs. apply Hiff in Hs as [_ H]. apply H. vm_compute. congruence.
Defined.

(** A message of source 13 through neighbour 11 for neighbour 12 only comes back from 11. *)
Lemma prio_duplicate_exits_witness : Priority_Flood_Disseminate ExP.cfg (ExP.env 2 []) (Some 11) 0 (ExP.msg 13 1 2 4)
  (ExP.get ExP.st0 (Priority_Flood_Disseminate ExP.cfg (ExP.env 1 []) None 0 (ExP.msg 13 1 2 4) ExP.st0)) = Exit.
Proof.
  set (st := ExP.get _ _).
  assert (H : exists v m, entry st 4 (1, 1) = Some v /\ need_count v <> 0 /\ ns v = Some m /\ m !! 1 = Some (mk_ns NOT_IN_MASK false)).
  { eexists _, _. split; [vm_compute; reflexivity|]. split; [cbn; congruence|]. split; [reflexivity|vm_compute; reflexivity]. }
  destruct H as (v & m & Hv & Hn & Hm & Hx).
  apply (prio_duplicate_exits ExP.cfg (ExP.env 2 []) 11 0 (ExP.msg 13 1 2 4) 4 v m); try done; vm_compute; congruence.
Defined.

(** ** Two more behaviours at the example *)

(** The same daemon with room for ten packets. *)
Definition roomy : prio_conf :=
  mk_pconf 10 2 (Neighbor_Addrs ExP.cfg) (Node_Lookup ExP.cfg) (Link_Size ExP.cfg) 10 0 0 8 (Neighbor_Mask ExP.cfg) (mk_time 10 0).
Definition offer (src n : Z) (from : option Z) (t : Z) (st : prio) : prio :=
  ExP.get st (Priority_Flood_Disseminate roomy (ExP.env t []) from 0 (ExP.msg src n 5 6) st).
Definition sendone (t : Z) (st : prio) : prio := ExP.get st (Priority_Flood_Send_One roomy (mk_time t 0) 0 BUFF_OK 12 st).

(** Source 13 loses its only message to neighbour 12, which has it already, while
    it waits in the urgent queue: it goes on with penalty 0, which becomes 65535
    when the next message of source 10 is sent, and source 13, which has a
    message again, is passed over 65535 times as long as source 10 has some. *)
Example prio_penalty_wraps :
  let st := sendone 5 (offer 13 2 None 4 (offer 10 3 None 4 (offer 10 2 None 4 (sendone 3 (offer 13 1 (Some 12) 2 (offer 10 1 None 1 (offer 13 1 (Some 11) 1 ExP.st0))))))) in
  (norm <$> Edge_Data st !! 2) = Some [(4, 65535); (1, 1)] /\ forwarded st = [(2, 1, (1, 1)); (2, 1, (1, 2))] /\
  ((fun pl => level pl 4 5) <$> Edge_Data st !! 2) = Some [(1, 2)].
Proof. vm_compute. done. Qed.

(** A message that expires while it is offered to the neighbours: the link of
    the first one asks for it when it has just expired, and the clean-up reads the
    status of the second one, which is not set yet. *)
Example prio_expiry_while_offered :
  Priority_Flood_Disseminate roomy (mk_penv (mk_time 2 0) (mk_time 3 0) (fun _ => true) true (fun _ => [([BUFF_OK], 0)])) None 0 (ExP.msg 13 9 5 6) ExP.st0 = Fault.
Proof. vm_compute. done. Qed.
