(* ===== verification/Leg.v ===== *)
(** * Leg: what one network leg sends and loses (daemon/link.c)

    All links to a neighbour share a leg.  [Link_Send] limits the rate of the leg
    with a leaky bucket in front of a queue ([Leg_Try_Send_Buffered],
    [Fill_Leg_Bucket]); [Check_Link_Loss] estimates the loss rate of the leg from
    gaps in the sequence numbers of the packets that arrive.  What goes to the
    socket is collected in [dl_sent]; [DL_send] answers [dl_ret].  Cost accounting
    (an option of the command line) is off, and allocation succeeds. *)
From Stdlib Require Import SpecFloat.
From stdpp Require Import base list gmap numbers option sets.
From Stdlib Require Import ZArith Lia.
From S2P Require Import Prelude CFloat Events NetTypes ITFrag ReliableLink.
#[local] Open Scope Z_scope.

(** ** The leaky bucket *)
Definition LEG_BUCKET_FILL_USEC : Z := 500.

(** [Leg_Rate_Limit_kbps / 8000.0] bytes for each of [usec] microseconds. *)
Definition allowance (kbps usec : Z) : spec_float := F64.mul (F64.div (F64.of_Z kbps) (F64.of_Z 8000)) (F64.of_Z usec).

Definition Leg_Bucket_Cap (kbps : Z) : Z :=
  if 0 <=? kbps then s32 (SFtrunc (F64.add (allowance kbps LEG_BUCKET_FILL_USEC) (F64.of_Z MAX_PACKET_SIZE))) else -1.
Definition Leg_Max_Buffered (kbps : Z) : Z := Leg_Bucket_Cap kbps.

Record Leg_Buf_Cell := mk_lcell { lb_type : Z; lb_scat : list (list Z) }.
Definition total_bytes (scat : list (list Z)) : Z := Z.of_nat (length (concat scat)).
Definition cell_bytes (c : Leg_Buf_Cell) : Z := total_bytes (lb_scat c).

Record leg_bucket := mk_bucket
  { bucket_bytes : Z; bucket_last_filled : sp_time; bucket_buf : list Leg_Buf_Cell; dl_sent : list Leg_Buf_Cell }.

Definition new_bucket (kbps : Z) (now : sp_time) : leg_bucket := mk_bucket (Leg_Bucket_Cap kbps) now [] [].

Fixpoint try_send (bytes : Z) (buf out : list Leg_Buf_Cell) : Z * list Leg_Buf_Cell * list Leg_Buf_Cell :=
  match buf with
  | [] => (bytes, [], out)
  | c :: rest => if bytes <? cell_bytes c then (bytes, buf, out) else try_send (wraps 64 (bytes - cell_bytes c)) rest (out ++ [c])
  end.

Definition Leg_Try_Send_Buffered (b : leg_bucket) : leg_bucket :=
  let '(bytes, buf, out) := try_send (bucket_bytes b) (bucket_buf b) (dl_sent b) in mk_bucket bytes (bucket_last_filled b) buf out.

Definition Link_Send (kbps dl_ret lt : Z) (scat : list (list Z)) (b : leg_bucket) : outcome (Z * leg_bucket) :=
  let c := mk_lcell lt scat in
  if (0 <=? kbps) && (Leg_Max_Buffered kbps <=? Z.of_nat (length (bucket_buf b))) then Ret (0, b)
  else if (kbps <? 0) || (bool_decide (bucket_buf b = []) && (total_bytes scat <=? bucket_bytes b)) then
    Ret (dl_ret, mk_bucket (wraps 64 (bucket_bytes b - total_bytes scat)) (bucket_last_filled b) (bucket_buf b) (dl_sent b ++ [c]))
  else if existsb (fun x => MAX_PACKET_SIZE <? len x) scat then Exit
  else Ret (0, Leg_Try_Send_Buffered (mk_bucket (bucket_bytes b) (bucket_last_filled b) (bucket_buf b ++ [c]) (dl_sent b))).

Definition bytes_to_add (kbps : Z) (delta : sp_time) : Z := u32 (SFtrunc (allowance kbps (sec delta * 1000000 + usec delta))).

(** The event queues itself again whatever it finds. *)
Definition Fill_Leg_Bucket (kbps : Z) (now : sp_time) (b : leg_bucket) : outcome leg_bucket :=
  if Leg_Bucket_Cap kbps <? bucket_bytes b then Exit
  else if bucket_bytes b =? Leg_Bucket_Cap kbps then Ret b
  else
    let bytes := wraps 64 (bucket_bytes b + bytes_to_add kbps (E_sub_time now (bucket_last_filled b))) in
    let b := mk_bucket (Z.min bytes (Leg_Bucket_Cap kbps)) now (bucket_buf b) (dl_sent b) in
    if negb (bool_decide (bucket_buf b = [])) && (0 <? bucket_bytes b) then Ret (Leg_Try_Send_Buffered b) else Ret b.

(** ** Loss *)
Definition LOSS_RATE_SCALE : Z := 1000000.
Definition INTRUSION_TOL_LINK : Z := 6.
Definition CONTROL_LINK : Z := 0.

(** [loss_rate], [recvd_seqs], [my_seqs] of [Loss_Data]; the other members are
    only initialised. *)
Record Loss_Data := mk_loss { loss_rate : spec_float; recvd_seqs : gmap Z Z; loss_my_seqs : gmap Z Z }.

Definition recvd_seq (l : Loss_Data) (link_type : Z) : Z := default 0 (recvd_seqs l !! link_type).
Definition set_recvd_seq (link_type seq : Z) (l : Loss_Data) : Loss_Data :=
  mk_loss (loss_rate l) (<[link_type := seq]> (recvd_seqs l)) (loss_my_seqs l).

Definition LOSS_DECAY_FACTOR : spec_float := F64.div (F64.of_Z 99) (F64.of_Z 100).
(** [1.0 - LOSS_DECAY_FACTOR]. *)
Definition LOSS_STEP : spec_float := SFsub F64.prec F64.emax (F64.of_Z 1) LOSS_DECAY_FACTOR.
Definition received (r : spec_float) : spec_float := F64.mul r LOSS_DECAY_FACTOR.
Definition missed (r : spec_float) : spec_float := F64.add (F64.mul r LOSS_DECAY_FACTOR) LOSS_STEP.

(** The loop over the missing numbers from [i] on: the rate after it; [None]
    if it has not ended after [n] steps. *)
Fixpoint gap_loop (n : nat) (i seq_no : Z) (r : spec_float) : option spec_float :=
  if i =? seq_no then Some r
  else match n with O => None | S n => gap_loop n (u16 ((i + 1) mod PACK_MAX_SEQ)) seq_no (missed r) end.

(** As many steps as there are numbers, and one for a start out of their range. *)
Definition gap_fuel : nat := Z.to_nat (PACK_MAX_SEQ + 1).

(** C's remainder has the sign of the dividend. *)
Definition first_missing (head : Z) : Z := u16 (Z.rem (head + 1) PACK_MAX_SEQ).

(** An old number: less than half of the numbers behind the last one. *)
Definition reordered (head seq_no : Z) : bool :=
  ((seq_no <=? head) && (head - seq_no <? PACK_MAX_SEQ - head + seq_no)) ||
  ((head <? seq_no) && (PACK_MAX_SEQ - seq_no + head <? seq_no - head)).

(** [None]: the loop does not end. *)
Definition Check_Link_Loss (seq_no link_type : Z) (l : Loss_Data) : option Loss_Data :=
  let head := recvd_seq l link_type in
  if seq_no =? 0xffff then Some l
  else if link_type =? INTRUSION_TOL_LINK then Some l
  else if head =? PACK_MAX_SEQ + 1 then Some (set_recvd_seq link_type (s16 seq_no) l)
  else if reordered head seq_no then Some l
  else
    r ← gap_loop gap_fuel (first_missing head) seq_no (loss_rate l);
    Some (set_recvd_seq link_type (s16 seq_no) (mk_loss (received r) (recvd_seqs l) (loss_my_seqs l))).

Definition Compute_Loss_Rate (l : Loss_Data) : Z := s32 (SFtrunc (F64.mul (F64.of_Z LOSS_RATE_SCALE) (loss_rate l))).

(** The number of the next packet of a link. *)
Definition Next_Loss_SeqNo (link_type : Z) (l : Loss_Data) : Z * Loss_Data :=
  let s := s16 (default 0 (loss_my_seqs l !! link_type) + 1) in
  let s := if PACK_MAX_SEQ <=? s then 0 else s in
  (u16 s, mk_loss (loss_rate l) (recvd_seqs l) (<[link_type := s]> (loss_my_seqs l))).

Definition Relative_Position (base seq : Z) : Z :=
  if base <=? seq then if seq - base <? PACK_MAX_SEQ / 2 then seq - base else seq - base - PACK_MAX_SEQ
  else if PACK_MAX_SEQ / 2 <? base - seq then seq + PACK_MAX_SEQ - base else seq - base.
