(* ===== verification/LegProps.v ===== *)
(** * LegProps: what a network leg promises

    The rate limiter sends packets in order, loses none it took, and stays within
    its rate; losses are counted exactly as long as the numbers are valid. *)
From Stdlib Require Import SpecFloat.
From stdpp Require Import base list gmap numbers option sets relations.
From Stdlib Require Import ZArith Lia.
From S2P Require Import Prelude CFloat Events NetTypes ITFrag ReliableLink Leg.
#[local] Open Scope Z_scope.

(** ** What a filling adds, against the rate *)
(** The quotient of a [double] by 8000, rounded. *)
Lemma div_8000_le p m1 e1 :
  F64.of_Z (Zpos p) = S754_finite false m1 e1 -> -52 <= e1 <= 0 -> digits2_pos m1 = 53%positive ->
  match F64.div (S754_finite false m1 e1) (F64.of_Z 8000) with
  | S754_finite s m e => s = false /\ e1 - 13 <= e /\ Zpos m * 2 ^ (e - (e1 - 13)) * 2 ^ 52 * (8000 * 2 ^ 40) <= Zpos m1 * 2 ^ 53 * (2 ^ 52 + 1)
  | _ => True
  end.
Proof.
  intros _ He Hd. change (F64.of_Z 8000) with (S754_finite false 8796093022208000 (-40)).
  unfold F64.div, SFdiv, SFdiv_core_binary. cbn [Zdigits2 xorb]. rewrite Hd. change (digits2_pos 8796093022208000) with 53%positive.
  assert (Hmin : Z.min (fexp F64.prec F64.emax (53 + e1 - (53 + -40))) (e1 - -40) = e1 - 13) by (unfold fexp, emin, F64.prec, F64.emax; lia).
  rewrite Hmin. replace (e1 - -40 - (e1 - 13)) with 53 by lia. cbn beta iota. rewrite Z.shiftl_mul_pow2 by lia.
  destruct (digits_bounds m1) as [Hlow _]. rewrite Hd in Hlow.
  pose proof (Z_div_mod (Zpos m1 * 2 ^ 53) 8796093022208000 ltac:(lia)) as Hdiv.
  destruct (Z.div_eucl (Zpos m1 * 2 ^ 53) 8796093022208000) as [q r]. destruct Hdiv as [Hq Hr].
  assert (Hq52 : 2 ^ 52 <= q) by lia.
  pose proof (F64_round_above q (e1 - 13) (new_location 8796093022208000 r) Hq52 ltac:(lia)) as Hround.
  destruct (binary_round_aux _ _ _ _ _ _) as [| | |s m e]; try exact I. destruct Hround as (-> & Hle & Hb). split; [done|]. split; [done|].
  set (P := 2 ^ (e - (e1 - 13))) in *. clearbody P. lia.
Qed.

(** The allowance is the rate times the time, up to one part in 2^51. *)
Lemma allowance_le kbps usec : 0 <= kbps < 2 ^ 31 -> 0 <= usec < 2 ^ 53 ->
  0 <= SFtrunc (allowance kbps usec) /\ SFtrunc (allowance kbps usec) * 8000 * 2 ^ 104 <= kbps * usec * (2 ^ 52 + 1) ^ 2.
Proof.
  intros Hk Hu. unfold allowance. destruct kbps as [|p|p]; [|..|lia].
  { change (F64.div (F64.of_Z 0) (F64.of_Z 8000)) with (S754_zero false). unfold F64.mul, SFmul. destruct (F64.of_Z usec); cbn; lia. }
  destruct (F64_of_Z_exact p ltac:(lia)) as (m1 & e1 & H1 & He1 & Hm1 & Hd1). pose proof (div_8000_le p m1 e1 H1 He1 Hd1) as Hdiv. rewrite H1.
  destruct usec as [|u|u]; [|..|lia].
  { change (F64.of_Z 0) with (S754_zero false). destruct (F64.div _ _) as [s|s| |s m e]; unfold F64.mul; cbn; lia. }
  destruct (F64_of_Z_exact u ltac:(lia)) as (m4 & e4 & H4 & He4 & Hm4 & Hd4). rewrite H4.
  destruct (F64.div _ _) as [s|s| |s m3 e3]; try (unfold F64.mul; cbn; lia). destruct Hdiv as (-> & He3 & Hdiv).
  unfold F64.mul, SFmul. cbn [xorb]. destruct (digits_bounds m4) as [Hlow _]. rewrite Hd4 in Hlow.
  assert (Hbig : 2 ^ 52 <= Zpos (m3 * m4)) by (rewrite Pos2Z.inj_mul, <- (Z.mul_1_l (2 ^ 52)); apply Z.mul_le_mono_nonneg; lia).
  pose proof (F64_round_above (Zpos (m3 * m4)) (e3 + e4) loc_Exact Hbig ltac:(lia)) as Hmul.
  destruct (binary_round_aux _ _ _ _ _ _) as [s|s| |s m5 e5]; try (cbn; lia). destruct Hmul as (-> & He5 & Hmul).
  split; [cbn [SFtrunc]; destruct (Z.leb_spec 0 e5); [apply Z.mul_nonneg_nonneg; [lia|apply Z.pow_nonneg; lia]|apply Z.div_pos; [lia|apply Z.pow_pos_nonneg; lia]]|].
  pose proof (SFtrunc_le m5 e5 200 ltac:(lia) ltac:(lia)) as Ht. set (T := SFtrunc _) in *. clearbody T.
  replace (e5 + 200) with (e5 - (e3 + e4) + (e3 - (e1 - 13)) + (e1 + 52) + (e4 + 52) + 83) in Ht by lia.
  rewrite !Z.pow_add_r in Ht by lia. rewrite Pos2Z.inj_mul in Hmul.
  assert (G1 : Zpos m1 * 2 ^ (e1 + 52) = Zpos p * 2 ^ 52) by (rewrite Hm1, <- Z.mul_assoc, <- Z.pow_add_r by lia; do 2 f_equal; lia).
  assert (G4 : Zpos m4 * 2 ^ (e4 + 52) = Zpos u * 2 ^ 52) by (rewrite Hm4, <- Z.mul_assoc, <- Z.pow_add_r by lia; do 2 f_equal; lia).
  assert (Hpos : 0 < 2 ^ (e5 - (e3 + e4)) /\ 0 < 2 ^ (e3 - (e1 - 13)) /\ 0 < 2 ^ (e1 + 52) /\ 0 < 2 ^ (e4 + 52)) by (split_and!; lia).
  set (A := 2 ^ (e5 - (e3 + e4))) in *. set (B := 2 ^ (e3 - (e1 - 13))) in *. set (C := 2 ^ (e1 + 52)) in *. set (D := 2 ^ (e4 + 52)) in *.
  clearbody A B C D. destruct Hpos as (HA & HB & HC & HD).
  apply (Z.mul_le_mono_nonneg_r _ _ (B * C * D)) in Hmul; [|nia]. apply (Z.mul_le_mono_nonneg_r _ _ (Zpos m4 * (C * D))) in Hdiv; [|nia].
  assert (G : Zpos m1 * C * (Zpos m4 * D) = Zpos p * 2 ^ 52 * (Zpos u * 2 ^ 52)) by (by rewrite G1, G4).
  clear - Ht Hmul Hdiv G. set (X := Zpos m3 * (Zpos m4 * (B * (C * D)))).
  assert (E1 : Zpos m5 * (A * B * C * D * 2 ^ 83) = Zpos m5 * A * (B * C * D) * 2 ^ 83) by ring.
  assert (E2 : Zpos m3 * Zpos m4 * (2 ^ 52 + 1) * (B * C * D) = X * (2 ^ 52 + 1)) by (unfold X; ring).
  assert (E3 : Zpos m3 * B * 2 ^ 52 * (8000 * 2 ^ 40) * (Zpos m4 * (C * D)) = X * (2 ^ 52 * (8000 * 2 ^ 40))) by (unfold X; ring).
  assert (E4 : Zpos m1 * 2 ^ 53 * (2 ^ 52 + 1) * (Zpos m4 * (C * D)) = Zpos m1 * C * (Zpos m4 * D) * (2 ^ 53 * (2 ^ 52 + 1))) by ring.
  assert (E5 : Zpos m5 * A * 2 ^ 52 * (B * C * D) = Zpos m5 * A * (B * C * D) * 2 ^ 52) by ring.
  rewrite E1 in Ht. rewrite E2, E5 in Hmul. rewrite E3, E4, G in Hdiv.
  set (Y := Zpos m5 * A * (B * C * D)) in *. clearbody X Y. clear E1 E2 E3 E4 E5 G.
  set (V := Zpos p * Zpos u). replace (Zpos p * 2 ^ 52 * (Zpos u * 2 ^ 52)) with (V * 2 ^ 104) in Hdiv by (unfold V; ring). clearbody V. lia.
Qed.

Lemma bytes_to_add_le kbps d : 0 <= kbps < 2 ^ 31 -> 0 <= total d < 2 ^ 53 ->
  0 <= bytes_to_add kbps d /\ bytes_to_add kbps d * 8000 * 2 ^ 104 <= kbps * total d * (2 ^ 52 + 1) ^ 2.
Proof.
  intros Hk Hd. destruct (allowance_le kbps (total d) Hk Hd) as [H0 Hle]. unfold bytes_to_add. fold (total d).
  assert (H : 0 <= u32 (SFtrunc (allowance kbps (total d))) <= SFtrunc (allowance kbps (total d))).
  { unfold u32, wrapu. split; [apply Z.mod_pos_bound; lia|apply Z.mod_le; lia]. }
  lia.
Qed.

(** ** The rate limiter over any run *)
Definition bytes_of (l : list Leg_Buf_Cell) : Z := total_bytes (concat (lb_scat <$> l)).

Lemma bytes_of_app l c : bytes_of (l ++ [c]) = bytes_of l + cell_bytes c.
Proof.
  unfold bytes_of, cell_bytes, total_bytes. rewrite fmap_app. cbn [fmap list_fmap]. rewrite concat_app. cbn [concat]. rewrite app_nil_r, concat_app, length_app. lia.
Qed.

Lemma cell_bytes_nonneg c : 0 <= cell_bytes c.
Proof. unfold cell_bytes, total_bytes. lia. Qed.

Fixpoint added (kbps : Z) (deltas : list sp_time) : Z :=
  match deltas with [] => 0 | d :: deltas => bytes_to_add kbps d + added kbps deltas end.
Fixpoint elapsed (deltas : list sp_time) : Z := match deltas with [] => 0 | d :: deltas => total d + elapsed deltas end.

(** [taken]: the packets that were not refused; [fills]: the times between the
    fillings that counted. *)
Record leg_run := mk_run { lr_bucket : leg_bucket; taken : list Leg_Buf_Cell; fills : list sp_time }.

Definition refused (kbps : Z) (b : leg_bucket) : bool := (0 <=? kbps) && (Leg_Max_Buffered kbps <=? Z.of_nat (length (bucket_buf b))).

Inductive leg_step (kbps : Z) : leg_run -> leg_run -> Prop :=
| LSend y lt scat dl_ret r b : total_bytes scat <= MAX_PACKET_SIZE -> Link_Send kbps dl_ret lt scat (lr_bucket y) = Ret (r, b) ->
    leg_step kbps y (mk_run b (taken y ++ if refused kbps (lr_bucket y) then [] else [mk_lcell lt scat]) (fills y))
| LFill y now b : Fill_Leg_Bucket kbps now (lr_bucket y) = Ret b ->
    leg_step kbps y (mk_run b (taken y) (if bucket_bytes (lr_bucket y) =? Leg_Bucket_Cap kbps then fills y
                                         else E_sub_time now (bucket_last_filled (lr_bucket y)) :: fills y)).

Definition leg_reachable (kbps : Z) (t0 : sp_time) (y : leg_run) : Prop := rtc (leg_step kbps) (mk_run (new_bucket kbps t0) [] []) y.

Section Rate.
Context (kbps : Z) (Hon : 0 <= kbps) (Hcap : MAX_PACKET_SIZE <= Leg_Bucket_Cap kbps).

Lemma cap_range : 1472 <= Leg_Bucket_Cap kbps < 2 ^ 31.
Proof.
  split; [exact Hcap|]. unfold Leg_Bucket_Cap. rewrite (proj2 (Z.leb_le _ _) Hon). pose proof (wraps_range 32 (SFtrunc (F64.add (allowance kbps LEG_BUCKET_FILL_USEC) (F64.of_Z MAX_PACKET_SIZE))) ltac:(lia)) as H.
  unfold in_s in H. unfold s32. lia.
Qed.

Lemma wrap64 x : 0 <= x < 2 ^ 34 -> wraps 64 x = x.
Proof. intros. apply wraps_small; [lia|]. unfold in_s. lia. Qed.

(** What waits, waits because it does not fit yet. *)
Definition blocked (bytes : Z) (buf : list Leg_Buf_Cell) : Prop := match buf with [] => True | c :: _ => bytes < cell_bytes c end.

Record bucket_ok (b : leg_bucket) : Prop := {
  bk_range : 0 <= bucket_bytes b <= Leg_Bucket_Cap kbps; bk_blocked : blocked (bucket_bytes b) (bucket_buf b);
  bk_small : Forall (fun c => cell_bytes c <= MAX_PACKET_SIZE) (bucket_buf b);
  bk_room : Z.of_nat (length (bucket_buf b)) <= Leg_Max_Buffered kbps }.

Lemma try_send_spec buf : forall bytes out, 0 <= bytes <= Leg_Bucket_Cap kbps ->
  exists bytes' buf' sent', try_send bytes buf out = (bytes', buf', out ++ sent') /\ buf = sent' ++ buf' /\ 0 <= bytes' <= bytes /\ blocked bytes' buf' /\
    bytes_of (out ++ sent') + bytes' = bytes_of out + bytes.
Proof.
  pose proof cap_range as Hr. induction buf as [|c buf IH]; intros bytes out Hb; cbn [try_send].
  { exists bytes, [], []. rewrite app_nil_r. split_and!; try done; lia. }
  destruct (Z.ltb_spec bytes (cell_bytes c)) as [Hlt|Hge].
  { exists bytes, (c :: buf), []. rewrite app_nil_r. split_and!; try done; lia. }
  pose proof (cell_bytes_nonneg c). rewrite wrap64 by lia. destruct (IH (bytes - cell_bytes c) (out ++ [c])) as (bytes' & buf' & sent' & -> & -> & H1 & H2 & H3); [lia|].
  exists bytes', buf', (c :: sent'). rewrite <- app_assoc in *. cbn [app] in *. split_and!; try done; try lia. rewrite bytes_of_app in H3. lia.
Qed.

Lemma try_send_ok b : 0 <= bucket_bytes b <= Leg_Bucket_Cap kbps -> Forall (fun c => cell_bytes c <= MAX_PACKET_SIZE) (bucket_buf b) ->
  Z.of_nat (length (bucket_buf b)) <= Leg_Max_Buffered kbps ->
  let b' := Leg_Try_Send_Buffered b in
  bucket_ok b' /\ dl_sent b' ++ bucket_buf b' = dl_sent b ++ bucket_buf b /\ bytes_of (dl_sent b') + bucket_bytes b' = bytes_of (dl_sent b) + bucket_bytes b /\
  bucket_last_filled b' = bucket_last_filled b.
Proof.
  intros Hb Hs Hl b'. unfold b', Leg_Try_Send_Buffered. destruct (try_send_spec (bucket_buf b) (bucket_bytes b) (dl_sent b) Hb) as (bytes' & buf' & sent' & -> & Hbuf & H1 & H2 & H3).
  rewrite Hbuf in Hs, Hl. apply Forall_app in Hs as [_ Hs]. rewrite length_app in Hl. split; [split; cbn; try done; lia|]. cbn. rewrite <- app_assoc, Hbuf. done.
Qed.

Lemma cap_rest b : bucket_ok b -> bucket_bytes b = Leg_Bucket_Cap kbps -> bucket_buf b = [].
Proof.
  intros [_ Hbl Hs _] Hfull. destruct (bucket_buf b) as [|c l]; [done|]. exfalso. apply Forall_cons in Hs as [Hc _]. cbn in Hbl. lia.
Qed.

Lemma link_send_ok lt scat dl_ret b : bucket_ok b -> total_bytes scat <= MAX_PACKET_SIZE ->
  exists r b', Link_Send kbps dl_ret lt scat b = Ret (r, b') /\ bucket_ok b' /\ bucket_last_filled b' = bucket_last_filled b /\
    dl_sent b' ++ bucket_buf b' = (dl_sent b ++ bucket_buf b) ++ (if refused kbps b then [] else [mk_lcell lt scat]) /\
    bytes_of (dl_sent b') + bucket_bytes b' = bytes_of (dl_sent b) + bucket_bytes b.
Proof.
  intros Hok Hsz. pose proof Hok as [Hr Hbl Hs Hl]. pose proof cap_range. unfold Link_Send. fold (refused kbps b). destruct (refused kbps b) eqn:Href.
  { exists 0, b. rewrite app_nil_r. done. }
  unfold refused in Href. rewrite (proj2 (Z.leb_le _ _) Hon) in Href. apply Z.leb_gt in Href.
  rewrite (proj2 (Z.ltb_ge _ _)) by lia. cbn [orb]. set (c := mk_lcell lt scat). assert (Hc : cell_bytes c = total_bytes scat) by done. pose proof (cell_bytes_nonneg c).
  destruct (bool_decide (bucket_buf b = []) && (total_bytes scat <=? bucket_bytes b)) eqn:Hnow.
  - apply andb_true_iff in Hnow as [He%bool_decide_eq_true Hle%Z.leb_le]. eexists _, _. split; [done|]. rewrite wrap64 by lia.
    split; [split; cbn; rewrite ?He; cbn; first [done|unfold Leg_Max_Buffered in *; lia|constructor]|]. split; [done|]. cbn. rewrite He, !app_nil_r. split; [done|]. rewrite bytes_of_app. lia.
  - assert (Hno : existsb (fun x => MAX_PACKET_SIZE <? len x) scat = false).
    { apply not_true_iff_false. intros (x & Hx & Hbig%Z.ltb_lt)%existsb_exists. apply list_elem_of_In, list_elem_of_split in Hx as (l1 & l2 & ->).
      unfold total_bytes in Hsz. rewrite concat_app in Hsz. cbn [concat] in Hsz. rewrite !length_app in Hsz. unfold len in Hbig. lia. }
    rewrite Hno. destruct (try_send_ok (mk_bucket (bucket_bytes b) (bucket_last_filled b) (bucket_buf b ++ [c]) (dl_sent b))) as (Hok' & Heq & Hby & Hlf); [done| |cbn; rewrite length_app; cbn; lia|].
    { cbn. apply Forall_app. split; [done|]. constructor; [lia|constructor]. }
    eexists _, _. split; [done|]. split; [exact Hok'|]. split; [exact Hlf|]. cbn [bucket_buf dl_sent bucket_bytes] in *. split; [by rewrite Heq, app_assoc|exact Hby].
Qed.

Lemma fill_ok now b : bucket_ok b ->
  exists b', Fill_Leg_Bucket kbps now b = Ret b' /\ bucket_ok b' /\ dl_sent b' ++ bucket_buf b' = dl_sent b ++ bucket_buf b /\
    (if bucket_bytes b =? Leg_Bucket_Cap kbps then b' = b
     else bucket_last_filled b' = now /\
          bytes_of (dl_sent b') + bucket_bytes b' <= bytes_of (dl_sent b) + bucket_bytes b + bytes_to_add kbps (E_sub_time now (bucket_last_filled b)) /\
          (forall c rest, bucket_buf b = c :: rest -> cell_bytes c <= bucket_bytes b + bytes_to_add kbps (E_sub_time now (bucket_last_filled b)) -> 0 < cell_bytes c ->
            exists more, dl_sent b' = dl_sent b ++ c :: more)).
Proof.
  intros Hok. pose proof Hok as [Hr Hbl Hs Hl]. pose proof cap_range as Hcr. unfold Fill_Leg_Bucket. rewrite (proj2 (Z.ltb_ge _ _)) by lia.
  destruct (Z.eqb_spec (bucket_bytes b) (Leg_Bucket_Cap kbps)) as [|Hne]; [by exists b|].
  set (a := bytes_to_add _ _). assert (Ha : 0 <= a < 2 ^ 32) by (apply (wrapu_range 32); lia). rewrite wrap64 by lia.
  set (b1 := mk_bucket _ now _ _). assert (Hr1 : 0 <= bucket_bytes b1 <= Leg_Bucket_Cap kbps) by (cbn; lia).
  cbn [bucket_buf b1]. destruct (negb (bool_decide (bucket_buf b = [])) && (0 <? bucket_bytes b1)) eqn:Ht.
  - destruct (try_send_ok b1 Hr1 Hs Hl) as (Hok' & Heq & Hby & Hlf). eexists. split; [done|]. split; [exact Hok'|]. split; [exact Heq|]. split; [exact Hlf|].
    split; [rewrite Hby; cbn; lia|]. intros c rest Hbuf Hfit _. unfold Leg_Try_Send_Buffered. cbn [b1 bucket_bytes bucket_buf dl_sent].
    rewrite Hbuf in *. cbn [try_send]. apply Forall_cons in Hs as [Hcs _]. rewrite (proj2 (Z.ltb_ge _ _)) by lia.
    pose proof (cell_bytes_nonneg c). rewrite wrap64 by lia.
    destruct (try_send_spec rest (Z.min (bucket_bytes b + a) (Leg_Bucket_Cap kbps) - cell_bytes c) (dl_sent b ++ [c])) as (? & ? & more & -> & _); [lia|].
    cbn. exists more. by rewrite <- app_assoc.
  - apply andb_false_iff in Ht. exists b1. split; [done|]. split.
    { split; try done. unfold b1. cbn [bucket_bytes bucket_buf]. destruct (bucket_buf b) as [|c l] eqn:E; [done|]. destruct Ht as [Ht|Ht%Z.ltb_ge]; [done|]. cbn [b1 bucket_bytes] in Ht. cbn [blocked] in Hbl |- *. lia. }
    split; [done|]. split; [done|]. split; [cbn; lia|]. intros c rest Hbuf Hfit Hpos. exfalso. destruct Ht as [Ht|Ht%Z.ltb_ge]; [by rewrite Hbuf in Ht|]. cbn [b1 bucket_bytes] in Ht. lia.
Qed.

Record run_ok (t0 : sp_time) (y : leg_run) : Prop := {
  ro_bucket : bucket_ok (lr_bucket y); ro_order : dl_sent (lr_bucket y) ++ bucket_buf (lr_bucket y) = taken y;
  ro_bytes : bytes_of (dl_sent (lr_bucket y)) + bucket_bytes (lr_bucket y) <= Leg_Bucket_Cap kbps + added kbps (fills y);
  ro_time : elapsed (fills y) = total (bucket_last_filled (lr_bucket y)) - total t0 }.

Lemma leg_run_ok t0 y : leg_reachable kbps t0 y -> run_ok t0 y.
Proof.
  pose proof cap_range as Hcr. intros H. unfold leg_reachable in H. pattern y. eapply rtc_ind_r; [| |exact H].
  { split; [|done| |].
    - split; cbn [lr_bucket new_bucket bucket_bytes bucket_buf]; [lia|done|constructor|unfold Leg_Max_Buffered; cbn [length]; lia].
    - change (0 + Leg_Bucket_Cap kbps <= Leg_Bucket_Cap kbps + 0). lia.
    - change (0 = total t0 - total t0). lia. }
  intros y1 y2 _ Hstep [Hb Ho Hby Ht]. destruct Hstep as [y1 lt scat dl_ret r b Hsz He|y1 now b He].
  - destruct (link_send_ok lt scat dl_ret (lr_bucket y1) Hb Hsz) as (r' & b' & He' & Hok' & Hlf & Hord & Hby'). rewrite He in He'. injection He' as <- <-.
    split; cbn; [done|by rewrite Hord, Ho|lia|congruence].
  - destruct (fill_ok now (lr_bucket y1) Hb) as (b' & He' & Hok' & Hord & Hrest). rewrite He in He'. injection He' as <-.
    destruct (_ =? _); [subst b; by split|]. destruct Hrest as (Hlf & Hby' & _). split; cbn [lr_bucket taken fills]; [done|by rewrite Hord|cbn [added]; lia|].
    cbn [elapsed]. rewrite sub_time_total, Ht, Hlf. lia.
Qed.
End Rate.

Lemma added_le kbps ds : 0 <= kbps < 2 ^ 31 -> Forall (fun d => 0 <= total d) ds -> elapsed ds < 2 ^ 53 ->
  0 <= elapsed ds /\ added kbps ds * 8000 * 2 ^ 104 <= kbps * elapsed ds * (2 ^ 52 + 1) ^ 2.
Proof.
  intros Hk Hds. induction Hds as [|d ds Hd _ IH]; intros He; cbn [added elapsed] in *; [lia|].
  assert (H0 : 0 <= elapsed ds) by (destruct (Z.le_gt_cases 0 (elapsed ds)); [done|]; apply IH; lia).
  destruct (IH ltac:(lia)) as [_ IH']. destruct (bytes_to_add_le kbps d Hk ltac:(lia)) as [_ Hb]. split; [lia|].
  rewrite Z.mul_add_distr_l, !Z.mul_add_distr_r. lia.
Qed.

(** ** Counting losses *)
Fixpoint misses (n : nat) (r : spec_float) : spec_float := match n with O => r | S n => misses n (missed r) end.

Lemma gap_loop_mod n : forall k i seq r, (n <= k)%nat -> 0 <= i < PACK_MAX_SEQ -> seq = (i + Z.of_nat n) mod PACK_MAX_SEQ -> Z.of_nat n < PACK_MAX_SEQ ->
  gap_loop k i seq r = Some (misses n r).
Proof.
  unfold PACK_MAX_SEQ. induction n as [|n IH]; intros k i seq r Hk Hi Hs Hn.
  - rewrite Z.add_0_r, Z.mod_small in Hs by lia. subst. destruct k; cbn; by rewrite Z.eqb_refl.
  - destruct k as [|k]; [lia|]. cbn [gap_loop misses]. rewrite (proj2 (Z.eqb_neq _ _)).
    + pose proof (Z.mod_pos_bound (i + 1) 30000 ltac:(lia)). rewrite u16_small by (unfold PACK_MAX_SEQ; lia). apply IH; [lia|unfold PACK_MAX_SEQ; lia| |lia].
      subst seq. unfold PACK_MAX_SEQ. rewrite Zplus_mod_idemp_l. f_equal. lia.
    + intros ->. destruct (decide (seq + Z.of_nat (S n) < 30000)); [rewrite Z.mod_small in Hs by lia; lia|].
      rewrite (Z.mod_eq _ 30000) in Hs by lia. assert (seq + Z.of_nat (S n) < 60000) by lia.
      assert ((seq + Z.of_nat (S n)) / 30000 = 1) as Hd by (symmetry; apply (Z.div_unique _ _ _ (seq + Z.of_nat (S n) - 30000)); lia). rewrite Hd in Hs. lia.
Qed.

(** The loop never meets a number beyond the range. *)
Lemma gap_loop_hangs n : forall i seq r, 0 <= i < 2 ^ 16 -> PACK_MAX_SEQ <= seq -> i <> seq -> gap_loop n i seq r = None.
Proof.
  unfold PACK_MAX_SEQ. induction n as [|n IH]; intros i seq r Hi Hs Hne; cbn [gap_loop]; rewrite (proj2 (Z.eqb_neq _ _)) by done; [done|].
  pose proof (Z.mod_pos_bound (i + 1) 30000 ltac:(lia)). unfold PACK_MAX_SEQ. rewrite u16_small by lia. apply IH; lia.
Qed.

(** C40: over any run of sends and fillings of a rate-limited leg, the packets on
    the wire followed by those in the queue are exactly the packets taken, in the
    order they were given; a packet is refused only when the queue has
    [Leg_Max_Buffered] packets.  The bytes on the wire exceed the capacity of
    the bucket by at most the configured rate (kbps thousand bits a second, a
    byte for 8000 kbps-microseconds) times the time from the start to the last
    filling, if the clock is not set back: exactly so while the product is
    below 2^50, and up to the rounding of two [double] operations beyond.
    Packets wait only while the bucket cannot pay for the first of them; and no
    call fails for packets of at most [MAX_PACKET_SIZE] bytes. *)
Theorem leg_rate_limited kbps t0 y : 0 <= kbps < 2 ^ 31 -> MAX_PACKET_SIZE <= Leg_Bucket_Cap kbps -> leg_reachable kbps t0 y ->
  let b := lr_bucket y in
  let usec := total (bucket_last_filled b) - total t0 in
  dl_sent b ++ bucket_buf b = taken y /\
  (Forall (fun d => 0 <= total d) (fills y) -> usec < 2 ^ 53 ->
     (kbps * usec < 2 ^ 50 -> 8000 * (bytes_of (dl_sent b) - Leg_Bucket_Cap kbps) <= kbps * usec) /\
     8000 * (bytes_of (dl_sent b) - Leg_Bucket_Cap kbps) * 2 ^ 104 <= kbps * usec * (2 ^ 52 + 1) ^ 2) /\
  blocked (bucket_bytes b) (bucket_buf b) /\ 0 <= bucket_bytes b <= Leg_Bucket_Cap kbps /\ Z.of_nat (length (bucket_buf b)) <= Leg_Max_Buffered kbps /\
  (forall lt scat dl_ret, total_bytes scat <= MAX_PACKET_SIZE -> exists r b', Link_Send kbps dl_ret lt scat b = Ret (r, b')) /\
  (forall now, exists b', Fill_Leg_Bucket kbps now b = Ret b').
Proof.
  intros Hk Hcap Hy b usec. assert (Hon : 0 <= kbps) by lia. destruct (leg_run_ok kbps Hon Hcap t0 y Hy) as [Hb Ho Hby Ht]. pose proof Hb as [Hr Hbl _ Hl].
  fold b in Hb, Ho, Hby, Ht, Hr, Hbl, Hl. split_and!; try done; try lia.
  - intros Hfw Hlim. fold usec in Ht. rewrite <- Ht in Hlim. destruct (added_le kbps (fills y) Hk Hfw Hlim) as [H0 Hadd]. rewrite Ht in *.
    assert (Hall : 8000 * (bytes_of (dl_sent b) - Leg_Bucket_Cap kbps) * 2 ^ 104 <= kbps * usec * (2 ^ 52 + 1) ^ 2) by lia.
    split; [|exact Hall]. intros Hsmall. lia.
  - intros lt scat dl_ret Hsz. destruct (link_send_ok kbps Hon Hcap lt scat dl_ret b Hb Hsz) as (r & b' & He & _). by exists r, b'.
  - intros now. destruct (fill_ok kbps Hon Hcap now b Hb) as (b' & He & _). by exists b'.
Qed.

(** A packet in front of the queue goes out with the first filling after which
    the bucket can pay for it. *)
Theorem leg_queue_progress kbps t0 y now c rest : 0 <= kbps -> MAX_PACKET_SIZE <= Leg_Bucket_Cap kbps -> leg_reachable kbps t0 y ->
  bucket_buf (lr_bucket y) = c :: rest -> 0 < cell_bytes c ->
  cell_bytes c <= bucket_bytes (lr_bucket y) + bytes_to_add kbps (E_sub_time now (bucket_last_filled (lr_bucket y))) ->
  exists b more, Fill_Leg_Bucket kbps now (lr_bucket y) = Ret b /\ dl_sent b = dl_sent (lr_bucket y) ++ c :: more.
Proof.
  intros Hon Hcap Hy Hbuf Hpos Hfit. destruct (leg_run_ok kbps Hon Hcap t0 y Hy) as [Hb _ _ _].
  destruct (fill_ok kbps Hon Hcap now (lr_bucket y) Hb) as (b & He & _ & _ & Hrest). exists b.
  destruct (Z.eqb_spec (bucket_bytes (lr_bucket y)) (Leg_Bucket_Cap kbps)) as [Hfull|_].
  - pose proof (cap_rest kbps Hcap (lr_bucket y) Hb Hfull). congruence.
  - destruct Hrest as (_ & _ & Hsend). destruct (Hsend c rest Hbuf Hfit Hpos) as [more Hm]. by exists more.
Qed.

(** A rate below 16 kbps never refills the bucket when the timer is exact: the
    bytes of one interval are rounded down to 0 and the interval is forgotten. *)
Theorem leg_slow_rate_starves kbps now b : 0 <= kbps < 16 -> total now = total (bucket_last_filled b) + LEG_BUCKET_FILL_USEC ->
  0 <= bucket_bytes b <= Leg_Bucket_Cap kbps -> bucket_buf b = [] ->
  exists b', Fill_Leg_Bucket kbps now b = Ret b' /\ bucket_bytes b' = bucket_bytes b.
Proof.
  intros Hk Ht Hb He. unfold Fill_Leg_Bucket. rewrite (proj2 (Z.ltb_ge _ _)) by lia. destruct (Z.eqb_spec (bucket_bytes b) (Leg_Bucket_Cap kbps)); [by exists b|].
  assert (Hz : bytes_to_add kbps (E_sub_time now (bucket_last_filled b)) = 0).
  { pose proof (sub_time_total now (bucket_last_filled b)) as Hd. unfold total at 1 in Hd. unfold bytes_to_add. rewrite Hd, Ht.
    replace (total (bucket_last_filled b) + LEG_BUCKET_FILL_USEC - total (bucket_last_filled b)) with 500 by (unfold LEG_BUCKET_FILL_USEC; lia).
    assert (kbps ∈ seqZ 0 16) as Hin by (apply elem_of_seqZ; lia). vm_compute in Hin.
    repeat (apply elem_of_cons in Hin as [->|Hin]; [vm_compute; reflexivity|]). by apply not_elem_of_nil in Hin. }
  assert (Hcap : Leg_Bucket_Cap kbps < 2 ^ 31).
  { unfold Leg_Bucket_Cap. destruct (0 <=? kbps); [|lia]. match goal with |- s32 ?x < _ => pose proof (wraps_range 32 x ltac:(lia)) as H; unfold in_s in H; unfold s32; lia end. }
  rewrite Hz, Z.add_0_r, wraps_small by (unfold in_s; lia). cbn [bucket_buf]. rewrite He. eexists. split; [reflexivity|]. cbn [bucket_bytes]. lia.
Qed.

(** With valid numbers the estimate counts every loss once: a packet that
    is [n] numbers ahead of the next expected one, [n] less than half of the
    range, adds [n] losses and one reception and moves the head; a packet behind the
    head by less than half of the range, or the head again, changes nothing. *)
Theorem link_loss_counted l lt head n :
  recvd_seq l lt = head -> 0 <= head < PACK_MAX_SEQ -> lt <> INTRUSION_TOL_LINK ->
  (0 <= n < PACK_MAX_SEQ / 2 - 1 -> let seq := (head + 1 + n) mod PACK_MAX_SEQ in
    exists l', Check_Link_Loss seq lt l = Some l' /\ recvd_seq l' lt = seq /\ loss_rate l' = received (misses (Z.to_nat n) (loss_rate l)) /\
      (forall lt', lt' <> lt -> recvd_seq l' lt' = recvd_seq l lt')) /\
  (0 <= n < PACK_MAX_SEQ / 2 -> Check_Link_Loss ((head - n) mod PACK_MAX_SEQ) lt l = Some l).
Proof.
  intros Hh Hr Hlt. change (PACK_MAX_SEQ / 2) with 15000. unfold PACK_MAX_SEQ in *.
  assert (Hw : forall x, 0 <= x < 60000 -> x mod 30000 = if decide (x < 30000) then x else x - 30000).
  { intros x Hx. destruct (decide (x < 30000)); [by apply Z.mod_small; lia|]. symmetry. apply (Z.mod_unique x 30000 1); lia. }
  split; intros Hn.
  - set (seq := (head + 1 + n) mod 30000). assert (Hs : seq = if decide (head + 1 + n < 30000) then head + 1 + n else head + 1 + n - 30000) by (apply Hw; lia).
    assert (Hs0 : 0 <= seq < 30000) by (apply Z.mod_pos_bound; lia). unfold Check_Link_Loss. rewrite Hh.
    rewrite (proj2 (Z.eqb_neq seq 65535)), (proj2 (Z.eqb_neq lt _)), (proj2 (Z.eqb_neq head _)) by (unfold PACK_MAX_SEQ; lia || done).
    assert (Hnr : reordered head seq = false).
    { unfold reordered, PACK_MAX_SEQ. destruct (Z.leb_spec seq head), (Z.ltb_spec head seq); try lia; cbn [andb orb]; [rewrite orb_false_r|];
        apply Z.ltb_ge; destruct (decide (head + 1 + n < 30000)); lia. }
    rewrite Hnr. unfold first_missing, PACK_MAX_SEQ. rewrite Z.rem_mod_nonneg by lia.
    pose proof (Z.mod_pos_bound (head + 1) 30000 ltac:(lia)). rewrite u16_small by lia.
    rewrite (gap_loop_mod (Z.to_nat n)); [|unfold gap_fuel, PACK_MAX_SEQ; lia|unfold PACK_MAX_SEQ; lia| |unfold PACK_MAX_SEQ; lia].
    2:{ unfold seq, PACK_MAX_SEQ. rewrite Zplus_mod_idemp_l. f_equal. lia. }
    cbn [mbind option_bind]. eexists. split; [reflexivity|]. unfold recvd_seq, set_recvd_seq. cbn [recvd_seqs loss_rate]. rewrite lookup_insert_eq. cbn.
    split; [unfold s16; rewrite wraps_small; [done|lia|unfold in_s; lia]|]. split; [done|]. intros lt' Hne. by rewrite lookup_insert_ne by done.
  - set (seq := (head - n) mod 30000). assert (Hs : seq = if decide (0 <= head - n) then head - n else head - n + 30000).
    { unfold seq. destruct (decide (0 <= head - n)); [by apply Z.mod_small; lia|]. symmetry. apply (Z.mod_unique _ 30000 (-1)); lia. }
    unfold Check_Link_Loss. rewrite Hh. destruct (_ =? 65535); [done|]. rewrite (proj2 (Z.eqb_neq lt _)), (proj2 (Z.eqb_neq head _)) by (unfold PACK_MAX_SEQ; lia || done).
    assert (Hnr : reordered head seq = true); [|by rewrite Hnr].
    unfold reordered, PACK_MAX_SEQ. destruct (Z.leb_spec seq head), (Z.ltb_spec head seq); try lia; cbn [andb orb]; [rewrite orb_false_r|];
      apply Z.ltb_lt; destruct (decide (0 <= head - n)); lia.
Qed.

(** A packet with a number beyond the range (but not 0xffff) makes
    [Check_Link_Loss] loop forever once the head has passed 25000 and the number is
    below the head plus half of the range: whatever number of steps it gets. *)
Theorem link_loss_hangs l lt seq : lt <> INTRUSION_TOL_LINK -> 25000 <= recvd_seq l lt < PACK_MAX_SEQ -> PACK_MAX_SEQ <= seq <= recvd_seq l lt + 15000 ->
  Check_Link_Loss seq lt l = None /\ forall n r, gap_loop n (first_missing (recvd_seq l lt)) seq r = None.
Proof.
  unfold PACK_MAX_SEQ. intros Hlt Hh Hs. set (head := recvd_seq l lt) in *.
  assert (Hf : 0 <= first_missing head < 2 ^ 16 /\ first_missing head < 30000).
  { unfold first_missing, PACK_MAX_SEQ. rewrite Z.rem_mod_nonneg by lia. pose proof (Z.mod_pos_bound (head + 1) 30000 ltac:(lia)). rewrite u16_small by lia. lia. }
  assert (Hloop : forall n r, gap_loop n (first_missing head) seq r = None) by (intros; apply gap_loop_hangs; [lia|unfold PACK_MAX_SEQ; lia|lia]).
  split; [|exact Hloop]. unfold Check_Link_Loss. fold head. rewrite (proj2 (Z.eqb_neq seq 65535)), (proj2 (Z.eqb_neq lt _)), (proj2 (Z.eqb_neq head _)) by (unfold PACK_MAX_SEQ; lia || done).
  assert (Hnr : reordered head seq = false). { unfold reordered, PACK_MAX_SEQ. rewrite (proj2 (Z.leb_gt seq head)), (proj2 (Z.ltb_lt head seq)) by lia. cbn [andb orb]. apply Z.ltb_ge. lia. }
  rewrite Hnr, Hloop. done.
Qed.

(** ** The theorems at an example: the default rate, and 8 kbps *)
Module ExLeg.
Definition pkt : list (list Z) := [replicate 20 1; replicate 1000 2].
Definition c : Leg_Buf_Cell := mk_lcell 1 pkt.
Definition b0 : leg_bucket := new_bucket 8 (mk_time 5 0).
Definition get (r : outcome (Z * leg_bucket)) : leg_bucket := match r with Ret (_, b) => b | _ => b0 end.
Definition b1 : leg_bucket := get (Link_Send 8 1020 1 pkt b0).
Definition b2 : leg_bucket := get (Link_Send 8 1020 1 pkt b1).

Definition y2 : leg_run := mk_run b2 [c; c] [].

Definition l1 : Loss_Data := mk_loss (F64.of_Z 0) {[1 := 29998]} ∅.
Definition l2 : Loss_Data := mk_loss (F64.of_Z 0) {[1 := 26000]} ∅.

Lemma leg_reachable2 : leg_reachable 8 (mk_time 5 0) y2.
Proof.
  eapply rtc_l; [|eapply rtc_l; [|apply rtc_refl]].
  - apply (LSend 8 (mk_run b0 [] []) 1 pkt 1020 1020 b1); [vm_compute; congruence|vm_compute; reflexivity].
  - apply (LSend 8 (mk_run b1 [c] []) 1 pkt 1020 0 b2); [vm_compute; congruence|vm_compute; reflexivity].
Qed.
End ExLeg.

Lemma leg_rate_limited_witness : dl_sent (lr_bucket ExLeg.y2) ++ bucket_buf (lr_bucket ExLeg.y2) = taken ExLeg.y2 /\
  8000 * (bytes_of (dl_sent (lr_bucket ExLeg.y2)) - Leg_Bucket_Cap 8) <= 0 /\ length (bucket_buf ExLeg.b2) = 1%nat.
Proof.
  assert (Ht : total (bucket_last_filled (lr_bucket ExLeg.y2)) - total (mk_time 5 0) = 0) by (vm_compute; reflexivity).
  destruct (leg_rate_limited 8 (mk_time 5 0) ExLeg.y2 ltac:(lia) ltac:(vm_compute; congruence) ExLeg.leg_reachable2) as (H & Hrate & _).
  split; [exact H|]. split; [|vm_compute; reflexivity].
  rewrite Ht in Hrate. destruct (Hrate (List.Forall_nil _) ltac:(lia)) as [Hr _]. apply Hr. lia.
Defined.

Lemma leg_queue_progress_witness : exists b more, Fill_Leg_Bucket 8 (mk_time 6 0) (lr_bucket ExLeg.y2) = Ret b /\ dl_sent b = dl_sent (lr_bucket ExLeg.y2) ++ ExLeg.c :: more.
Proof.
  assert (Hbuf : bucket_buf (lr_bucket ExLeg.y2) = [ExLeg.c]) by (vm_compute; reflexivity).
  assert (Hpos : 0 < cell_bytes ExLeg.c) by (vm_compute; reflexivity).
  assert (Hfit : cell_bytes ExLeg.c <= bucket_bytes (lr_bucket ExLeg.y2) + bytes_to_add 8 (E_sub_time (mk_time 6 0) (bucket_last_filled (lr_bucket ExLeg.y2)))) by (vm_compute; congruence).
  exact (leg_queue_progress 8 (mk_time 5 0) ExLeg.y2 (mk_time 6 0) ExLeg.c [] ltac:(lia) ltac:(vm_compute; congruence) ExLeg.leg_reachable2 Hbuf Hpos Hfit).
Defined.

Lemma leg_slow_rate_starves_witness : exists b, Fill_Leg_Bucket 8 (mk_time 5 500) (mk_bucket 0 (mk_time 5 0) [] []) = Ret b /\ bucket_bytes b = 0.
Proof. apply (leg_slow_rate_starves 8 (mk_time 5 500) (mk_bucket 0 (mk_time 5 0) [] [])); [lia|vm_compute; reflexivity|vm_compute; intuition congruence|reflexivity]. Defined.

Lemma link_loss_counted_witness : exists l, Check_Link_Loss 2 1 ExLeg.l1 = Some l /\ loss_rate l = received (misses 3 (F64.of_Z 0)).
Proof.
  destruct (proj1 (link_loss_counted ExLeg.l1 1 29998 3 ltac:(vm_compute; reflexivity) ltac:(vm_compute; intuition congruence) ltac:(vm_compute; congruence)) ltac:(vm_compute; intuition congruence)) as (l & H & _ & Hr & _).
  exists l. split; [exact H|exact Hr].
Defined.

Lemma link_loss_hangs_witness : Check_Link_Loss 40000 1 ExLeg.l2 = None.
Proof. apply (link_loss_hangs ExLeg.l2 1 40000); vm_compute; intuition congruence. Defined.
