(* ===== verification/Hello.v ===== *)
(** * Hello: legs, links and the hello protocol

    The connections of one daemon to its neighbours: interfaces and legs
    (network.c), the links that run on a leg (link.c), and the hello protocol that
    connects legs, measures them and finds out that they are dead (hello.c), with
    the dispatch of what arrives (protocol.c), on top of the tables of [Daemon].  A
    leg is the number of its creation, an interface its identifier, a link its
    index in [Links].  The windows of a link belong to the models of its protocol;
    here a link has what the hello protocol reads and writes.  [Control_Links] of
    the daemon is the view of [leg->links[CONTROL_LINK]] that the state flooding
    uses.  The timers of the link protocols, the clean-up of a real-time history at
    a hello and the sessions blocked on a link are left to their models;
    wireless mode and intrusion-tolerance mode are off; allocation succeeds. *)
From Stdlib Require Import SpecFloat.
From stdpp Require Import base list gmap numbers option sets.
From Stdlib Require Import ZArith Lia.
From S2P Require Import Prelude CFloat HashMap StdUtil Events NetTypes Route ReliableLink ITFrag Leg Daemon StateFlood.
#[local] Open Scope Z_scope.

Definition UDP_LINK : Z := 1.
Definition RELIABLE_UDP_LINK : Z := 2.
Definition REALTIME_UDP_LINK : Z := 3.
Definition MAX_LINKS_4_EDGE : Z := 7.
Definition MAX_LINKS : Z := MAX_NEIGHBORS * MAX_LINKS_4_EDGE.
Definition UNAVAILABLE_LINK : Z := 1.
Definition CONNECTED_LINK : Z := 4.
Definition CONNECT_LINK_CNT : Z := 1 + DEAD_LINK_CNT / 2.
Definition MAX_LATENCY : Z := 600.
Definition USHRT_MAX : Z := 65535.
Definition UNKNOWN : Z := -1.

Definition HELLO_TYPE : Z := 0x10000000.
Definition HELLO_REQ_TYPE : Z := 0x20000000.
Definition HELLO_PING_TYPE : Z := 0x30000000.
Definition HELLO_MASK : Z := 0x30000000.
Definition Is_hello_type (t : Z) : bool := negb (Z.land t HELLO_MASK =? 0).
Definition Is_hello (t : Z) : bool := Z.land t HELLO_MASK =? HELLO_TYPE.
Definition Is_hello_req (t : Z) : bool := Z.land t HELLO_MASK =? HELLO_REQ_TYPE.

(** ** Numbers: [float] and [double] *)
Definition to_double (x : spec_float) : spec_float :=
  match x with S754_finite s m e => binary_normalize F64.prec F64.emax (if s then Zneg m else Zpos m) e s | _ => x end.
Definition to_single (x : spec_float) : spec_float :=
  match x with S754_finite s m e => binary_normalize F32.prec F32.emax (if s then Zneg m else Zpos m) e s | _ => x end.
(** A decimal constant [n / d]. *)
Definition const (n d : Z) : spec_float := F64.div (F64.of_Z n) (F64.of_Z d).
Definition dsub : spec_float -> spec_float -> spec_float := SFsub F64.prec F64.emax.
#[local] Infix "⊕" := F64.add (at level 50, left associativity).
#[local] Infix "⊖" := dsub (at level 50, left associativity).
#[local] Infix "⊗" := F64.mul (at level 40, left associativity).
#[local] Infix "⊘" := F64.div (at level 40, left associativity).

(** ** Data *)
Record Interface := mk_interf { iid : Z; net_addr : Z; owner : Z }.

Inductive Network_Leg_Status := DISCONNECTED_LEG | NOT_YET_CONNECTED_LEG | CONNECTED_LEG.
#[export] Instance leg_status_eq_dec : EqDecision Network_Leg_Status.
Proof. solve_decision. Defined.

(** The members of a leg that change with its connection. *)
Record leg_conn := mk_conn
  { status : Network_Leg_Status; l_cost : Z; ctrl_link_id : Z; other_side_ctrl_link_id : Z; hellos_out : Z; last_recv_hello : sp_time;
    connect_cnter : Z; last_connected : sp_time }.

(** [l_dst]: the destination of the leg's edge, the owner of the remote interface. *)
Record Network_Leg := mk_leg { src_iid : Z; dst_iid : Z; l_dst : Z; l_links : gmap Z Z; conn : leg_conn; bucket : leg_bucket }.

Record Control_Data := mk_cdata
  { hello_seq : Z; other_side_hello_seq : Z; diff_time : Z; c_rtt : spec_float; l_data : Loss_Data; est_loss_rate : spec_float;
    reported_rtt : Z; reported_loss_rate : spec_float; reported_ts : sp_time }.

(** [r_data]: flags and round trip time. *)
Record Link := mk_lk { link_type : Z; lk_leg : Z; r_data : option (Z * spec_float); c_data : option Control_Data }.

Inductive net_handler :=
| HSend_Hello | HDead_Leg | HHello_Request | HHello_Request_Cnt | HHello_Ping | HNet_Send_State_All | HTry_Send | HFill_Leg_Bucket.
#[export] Instance net_handler_eq_dec : EqDecision net_handler.
Proof. solve_decision. Defined.

Inductive ev_arg := NoArg | ProtArg (p : prot) | LegArg (leg : Z).
#[export] Instance ev_arg_eq_dec : EqDecision ev_arg.
Proof. solve_decision. Defined.

(** [pings]: the legs that hello pings went out on; [made]: the legs created. *)
Record net := mk_net
  { dae : daemon; Known_Interfaces : gmap Z Interface; Known_Addresses : gmap Z Z; Network_Legs : gmap (Z * Z) Z; Legs : gmap Z Network_Leg;
    Links : gmap Z Link; n_queue : list (@time_event net_handler ev_arg); pings : list Z; made : Z }.

(** The configuration: [it_edge] says of an address of a neighbour that the
    configuration file has an edge to it. *)
Record net_conf := mk_nconf
  { Route_Weight : Z; Leg_Rate_Limit_kbps : Z; hello_timeout : sp_time; cnt_timeout : sp_time; ad_timeout : sp_time; hello_cnt_start : Z;
    stable_delay_flag : bool; stable_timeout : spec_float; Config_File_Found : bool; it_edge : Z -> bool; network_flag : bool; c_log : spec_float -> spec_float }.

(** The clock, what [rand()] gives for a new control link (its identifier, which
    is not 0, and the microseconds before its first hello) and for an update of a
    cost, and the answer of [DL_send]. *)
Record net_env := mk_nenv { now : sp_time; rand_id : Z; rand_offset : Z; time_rnd : Z; dl_ret : Z }.

Definition with_dae (d : daemon) (n : net) : net :=
  mk_net d (Known_Interfaces n) (Known_Addresses n) (Network_Legs n) (Legs n) (Links n) (n_queue n) (pings n) (made n).
Definition with_legs (l : gmap Z Network_Leg) (n : net) : net :=
  mk_net (dae n) (Known_Interfaces n) (Known_Addresses n) (Network_Legs n) l (Links n) (n_queue n) (pings n) (made n).
Definition with_links (l : gmap Z Link) (n : net) : net :=
  mk_net (dae n) (Known_Interfaces n) (Known_Addresses n) (Network_Legs n) (Legs n) l (n_queue n) (pings n) (made n).
Definition with_nqueue (q : list (@time_event net_handler ev_arg)) (n : net) : net :=
  mk_net (dae n) (Known_Interfaces n) (Known_Addresses n) (Network_Legs n) (Legs n) (Links n) q (pings n) (made n).

Definition queue (e : net_env) (h : net_handler) (code : Z) (a : ev_arg) (delta : sp_time) (n : net) : net :=
  with_nqueue (E_queue (now e) h code a delta (n_queue n)) n.
Definition dequeue (h : net_handler) (code : Z) (a : ev_arg) (n : net) : net := with_nqueue (snd (E_dequeue h code a (n_queue n))) n.

Definition set_leg (l : Z) (lg : Network_Leg) (n : net) : net := with_legs (<[l := lg]> (Legs n)) n.
Definition set_conn (l : Z) (c : leg_conn) (lg : Network_Leg) (n : net) : net :=
  set_leg l (mk_leg (src_iid lg) (dst_iid lg) (l_dst lg) (l_links lg) c (bucket lg)) n.
Definition set_link (i : Z) (lk : Link) (n : net) : net := with_links (<[i := lk]> (Links n)) n.
Definition set_cdata (i : Z) (lk : Link) (c : Control_Data) (n : net) : net := set_link i (mk_lk (link_type lk) (lk_leg lk) (r_data lk) (Some c)) n.

Definition with_neighbors (l : list (option Z)) (d : daemon) : daemon :=
  mk_daemon (My_Address d) (Wireless d) (All_Nodes d) (All_Nodes_by_ID d) (All_Edges d) (Changed_Edges d) (All_Groups_by_Node d)
    (All_Groups_by_Name d) (Changed_Group_States d) (Link_State_Update_LTS d) l (Control_Links d) (Current_Routing d) (Schedule_Set_Route d)
    (Time_queue d) (calls d) (sent d).
Definition with_control (m : gmap Z Z) (d : daemon) : daemon :=
  mk_daemon (My_Address d) (Wireless d) (All_Nodes d) (All_Nodes_by_ID d) (All_Edges d) (Changed_Edges d) (All_Groups_by_Node d)
    (All_Groups_by_Name d) (Changed_Group_States d) (Link_State_Update_LTS d) (Neighbor_Nodes d) m (Current_Routing d) (Schedule_Set_Route d)
    (Time_queue d) (calls d) (sent d).

(** The pointer [leg->links[mode]]. *)
Definition set_leg_link (l mode : Z) (o : option Z) (lg : Network_Leg) (n : net) : net :=
  let m := match o with Some i => <[mode := i]> (l_links lg) | None => delete mode (l_links lg) end in
  let n := set_leg l (mk_leg (src_iid lg) (dst_iid lg) (l_dst lg) m (conn lg) (bucket lg)) n in
  if mode =? CONTROL_LINK
  then with_dae (with_control (match o with Some i => <[l := i]> (Control_Links (dae n)) | None => delete l (Control_Links (dae n)) end) (dae n)) n
  else n.

Definition is_control (lk : Link) : bool := link_type lk =? CONTROL_LINK.
Definition zero_timeout : sp_time := mk_time 0 0.

(** ** Costs (network.c) *)
Definition DISTANCE_ROUTE : Z := 0.
Definition LATENCY_ROUTE : Z := 1.
Definition LOSSRATE_ROUTE : Z := 2.
Definition AVERAGE_ROUTE : Z := 3.
Definition PROBLEM_ROUTE : Z := 7.
Definition Problem_Route_Stable_Time : sp_time := mk_time 30 0.

Definition Network_Leg_Initial_Cost (cfg : net_conf) : outcome Z :=
  let w := Route_Weight cfg in
  if (w =? DISTANCE_ROUTE) || (w =? LOSSRATE_ROUTE) then Ret 1
  else if w =? PROBLEM_ROUTE then Ret (- MAX_LATENCY)
  else if (w =? LATENCY_ROUTE) || (w =? AVERAGE_ROUTE) then Ret MAX_LATENCY
  else Exit.

(** Arguments and result are [float]s, the arithmetic is in [double]. *)
Definition Expected_Latency (rtt loss_rate : spec_float) : spec_float :=
  let tmp := to_single (to_double rtt ⊘ const 2 1) in
  let tmp :=
    if SFltb (const 0 1) (to_double loss_rate) then
      let p := to_double loss_rate in
      let p2 := to_double (F32.mul loss_rate loss_rate) in
      let p3 := to_double (F32.mul (F32.mul loss_rate loss_rate) loss_rate) in
      let t := to_double tmp in
      let tmp1 := to_double (to_single ((const 2 1 ⊗ p2 ⊖ p3) ⊗ F64.of_Z MAX_LATENCY)) in
      let tmp2 := to_double (to_single ((t ⊗ const 3 1 ⊕ const 10 1) ⊗ (p ⊖ const 2 1 ⊗ p2 ⊕ p3))) in
      to_single (t ⊗ (const 1 1 ⊖ p) ⊕ tmp1 ⊕ tmp2)
    else tmp in
  let tmp := if SFltb tmp (F32.of_Z 2) then F32.of_Z 2 else tmp in
  if SFltb tmp (F32.of_Z MAX_LATENCY) then tmp else F32.of_Z MAX_LATENCY.

(** [(int16) (cost + 0.5)]. *)
Definition round16 (x : spec_float) : Z := s16 (SFtrunc (to_double x ⊕ const 1 2)).

(** The new cost of a leg with cost [prev] and an edge with base cost [base], if
    it is worth reporting. *)
Definition leg_cost (cfg : net_conf) (t : sp_time) (c : Control_Data) (prev base : Z) : outcome (option Z) :=
  let w := Route_Weight cfg in
  if w =? DISTANCE_ROUTE then Ret None
  else if w =? LATENCY_ROUTE then
    let tmp := to_single (to_double (c_rtt c) ⊘ const 2 1) in
    let tmp := if SFltb tmp (F32.of_Z 1) then F32.of_Z 1 else tmp in
    let tmp := to_single (to_double tmp ⊕ const 4 1) in
    let cst := if SFltb tmp (F32.of_Z 300) then tmp else F32.of_Z 300 in
    if Z.abs (SFtrunc (F32.sub (F32.of_Z prev) cst)) <? SFtrunc (const 1 10 ⊗ F64.of_Z prev) then Ret None else Ret (Some (round16 cst))
  else if w =? LOSSRATE_ROUTE then
    let tmp := F32.mul (to_single (c_log cfg (to_double (F32.sub (F32.of_Z 1) (est_loss_rate c))))) (F32.of_Z 10000) in
    if SFltb (F32.sub (F32.of_Z 1) tmp) (F32.of_Z 30000) then Ret (Some (round16 (F32.sub (F32.of_Z 1) tmp))) else Ret (Some 30000)
  else if w =? AVERAGE_ROUTE then
    let cst := Expected_Latency (c_rtt c) (est_loss_rate c) in
    let p := F32.of_Z prev in
    if SFltb cst p && SFltb (to_double (F32.sub p cst)) (F64.of_Z prev ⊗ const 1 10) then Ret None
    else if SFleb p cst && SFltb (to_double (F32.sub cst p)) (F64.of_Z prev ⊗ const 1 10) then Ret None
    else Ret (Some (round16 cst))
  else if w =? PROBLEM_ROUTE then
    let b := F32.of_Z base in
    let FLT_MAX := S754_finite false 16777215 104 in
    let at_least x y := if SFltb (to_double x) y then to_single y else x in
    let thresh := if base =? -1 then FLT_MAX else at_least (to_single (to_double b ⊗ const 125 100)) (F64.of_Z base ⊕ const 5 1) in
    let np := if base =? -1 then FLT_MAX else at_least (to_single (to_double b ⊗ const 115 100)) (F64.of_Z base ⊕ const 3 1) in
    let problem_flag :=
      if SFltb (const 2 100) (to_double (est_loss_rate c)) || SFltb thresh (c_rtt c) then if 0 <=? prev then -1 else 0
      else if SFltb (to_double (est_loss_rate c)) (const 5 1000) && SFltb (c_rtt c) np then if prev <? 0 then 1 else 0
      else 0 in
    let cost16 := round16 (Expected_Latency (c_rtt c) (est_loss_rate c)) in
    let abs_prev := s16 (Z.abs prev) in
    let abs_diff := s16 (Z.abs (abs_prev - cost16)) in
    if (problem_flag =? 0) && ((abs_diff <? 3) || SFltb (F64.of_Z abs_diff) (F64.of_Z abs_prev ⊗ const 1 10)) then Ret None
    else
      let cost16 := if (problem_flag =? -1) || ((problem_flag =? 0) && (prev <? 0)) then s16 (- cost16) else cost16 in
      if ((problem_flag =? 1) || (Z.abs cost16 <? abs_prev)) && (E_compare_time (E_sub_time t (reported_ts c)) Problem_Route_Stable_Time <? 0) then Ret None
      else Ret (Some cost16)
  else Exit.

(** Dropping the empty entries at the end: [Num_Neighbors] goes down. *)
Fixpoint trim (l : list (option Z)) : list (option Z) :=
  match l with [] => [] | x :: l => match trim l, x with [], None => [] | l', _ => x :: l' end end.

Definition set_neighbor_id (id v : Z) (d : daemon) : daemon :=
  with_nodes (alter (fun nd => mk_node (nid nd) (n_edge nd) v (n_cost nd)) id (All_Nodes d)) (All_Nodes_by_ID d) d.

Definition set_edge_cost (c : Z) (ed : Edge) : Edge :=
  bump_timestamp (set_value c (age ed) (mk_edge_extra (base_cost (extra ed)) (index (extra ed)) (lts (extra ed)) (leg (extra ed))) ed).
Definition set_edge_lts (l : Z) (ed : Edge) : Edge :=
  set_value (value ed) (age ed) (mk_edge_extra (base_cost (extra ed)) (index (extra ed)) l (leg (extra ed))) ed.

Definition Network_Leg_Set_Cost (e : net_env) (l new_cost : Z) (n : net) : outcome net :=
  lg ← or_else (Legs n !! l) Fault;
  let c := conn lg in
  let my := My_Address (dae n) in
  edge ← or_else (Get_Edge (dae n) my (l_dst lg)) Fault;
  if (negb (new_cost =? -1) && negb (bool_decide (status c = CONNECTED_LEG))) ||
     ((new_cost =? -1) && bool_decide (status c = CONNECTED_LEG)) then Exit
  else if new_cost =? l_cost c then Ret n
  else
    let n := set_conn l (mk_conn (status c) new_cost (ctrl_link_id c) (other_side_ctrl_link_id c) (hellos_out c) (last_recv_hello c) (connect_cnter c)
                           (last_connected c)) lg n in
    let d := dae n in
    let d := with_calls (calls d ++ [DG_Process_Edge_Update my (l_dst lg) (cost edge) new_cost; MultiPath_Clear_Cache]) d in
    let lts' := Link_State_LTS_inc (Link_State_Update_LTS d) in
    let d := with_lts lts' d in
    let d := with_edges (put_state (All_Edges d) my (l_dst lg) (set_edge_lts lts' (set_edge_cost new_cost edge))) d in
    n ← (if l_cost c =? -1 then
           ctl ← or_else (l_links lg !! CONTROL_LINK) Fault;
           Ret (queue e HNet_Send_State_All ctl (ProtArg GroupsP) zero_timeout
                  (queue e HNet_Send_State_All ctl (ProtArg EdgeP) zero_timeout (with_dae d n)))
         else if new_cost =? -1 then
           nd ← or_else (Get_Node d (l_dst lg)) Fault;
           if (0 <=? neighbor_id nd) && (neighbor_id nd <? Z.of_nat (length (Neighbor_Nodes d)))
           then Ret (with_dae (set_neighbor_id (l_dst lg) (-1) (with_neighbors (trim (<[Z.to_nat (neighbor_id nd) := None]> (Neighbor_Nodes d))) d)) n)
           else Fault
         else Ret (with_dae d n));
    d ← Add_to_changed_states (now e) EdgeP my my (l_dst lg) (dae n);
    Ret (with_dae (Schedule_Routes (now e) d) n).

(** 1: reported, -1: not worth it. *)
Definition Network_Leg_Update_Cost (cfg : net_conf) (e : net_env) (l : Z) (n : net) : outcome (Z * net) :=
  lg ← or_else (Legs n !! l) Fault;
  ctl ← or_else (l_links lg !! CONTROL_LINK) Exit;
  lk ← or_else (Links n !! ctl) Fault;
  if negb (is_control lk) then Exit
  else
    c ← or_else (c_data lk) Exit;
    edge ← or_else (Get_Edge (dae n) (My_Address (dae n)) (l_dst lg)) Fault;
    r ← leg_cost cfg (now e) c (l_cost (conn lg)) (base_cost (extra edge));
    match r with
    | None => Ret (-1, n)
    | Some c => n ← Network_Leg_Set_Cost e l c n; Ret (1, n)
    end.

(** ** Links (link.c) *)
Definition first_free (links : gmap Z Link) : option Z := snd <$> list_find (fun i => links !! i = None) (seqZ 0 MAX_LINKS).
Definition first_neighbor (l : list (option Z)) : nat := match list_find (fun x => x = None) l with Some (i, _) => i | None => length l end.

Definition new_loss : Loss_Data :=
  mk_loss (F64.of_Z 0) (list_to_map (map (fun i => (i, 0)) (seqZ 0 MAX_LINKS_4_EDGE))) (list_to_map (map (fun i => (i, PACK_MAX_SEQ)) (seqZ 0 MAX_LINKS_4_EDGE))).
Definition new_cdata : Control_Data := mk_cdata 0 0 0 (F32.of_Z 1000) new_loss (F32.of_Z UNKNOWN) UNKNOWN (F32.of_Z UNKNOWN) (mk_time 0 0).

(** The random time before the first hello. *)
Definition rand_hello_TO (usec : Z) : sp_time := if 1000000 <? usec then mk_time (usec / 1000000) ((usec / 1000000) mod 1000000) else mk_time 0 usec.

(** The neighbour gets a number if it has none. *)
Definition ensure_neighbor (id : Z) (d : daemon) : outcome daemon :=
  nd ← or_else (Get_Node d id) Fault;
  if neighbor_id nd =? -1 then
    let i := first_neighbor (Neighbor_Nodes d) in
    if Z.of_nat i =? MAX_NEIGHBORS then Exit
    else Ret (with_neighbors (if bool_decide (i = length (Neighbor_Nodes d)) then Neighbor_Nodes d ++ [Some id] else <[i := Some id]> (Neighbor_Nodes d))
                (set_neighbor_id id (Z.of_nat i) d))
  else Ret d.

(** The part of [Create_Link] for control links. *)
Definition create_control (cfg : net_conf) (e : net_env) (l id : Z) (n : net) : outcome net :=
  lg ← or_else (Legs n !! l) Fault;
  lk ← or_else (Links n !! id) Fault;
  let c := conn lg in
  if negb (bool_decide (status c = DISCONNECTED_LEG) && (l_cost c =? -1)) then Exit
  else
    let n := set_conn l (mk_conn NOT_YET_CONNECTED_LEG (-1) (rand_id e) 0 0 (last_recv_hello c) 0 (last_connected c)) lg n in
    let n := set_cdata id lk new_cdata n in
    d ← ensure_neighbor (l_dst lg) (dae n);
    Ret (queue e HSend_Hello id NoArg (rand_hello_TO (rand_offset e)) (with_dae d n)).

Definition Create_Link (cfg : net_conf) (e : net_env) (l mode : Z) (n : net) : outcome (Z * net) :=
  lg ← or_else (Legs n !! l) Fault;
  loc ← or_else (Known_Interfaces n !! src_iid lg) Fault;
  if negb (owner loc =? My_Address (dae n)) then Exit
  else match l_links lg !! mode with
  | Some id => if mode =? INTRUSION_TOL_LINK then Ret (id, n) else Exit
  | None =>
      if negb (mode =? CONTROL_LINK) &&
         (bool_decide (l_links lg !! CONTROL_LINK = None) || negb (bool_decide (status (conn lg) = CONNECTED_LEG)) || (l_cost (conn lg) =? -1)) then Exit
      else if (mode =? INTRUSION_TOL_LINK) && negb (Config_File_Found cfg) then Ret (0, n)
      else
        id ← or_else (first_free (Links n)) Exit;
        let r := if (mode =? CONTROL_LINK) || (mode =? RELIABLE_UDP_LINK) then Some (UNAVAILABLE_LINK, F32.of_Z 0) else None in
        let n := set_leg_link l mode (Some id) lg (set_link id (mk_lk mode l r None) n) in
        n ← (if mode =? CONTROL_LINK then create_control cfg e l id n else Ret n);
        Ret (id, n)
  end.

Definition Destroy_Link (id : Z) (n : net) : outcome net :=
  lk ← or_else (Links n !! id) Exit;
  if link_type lk =? INTRUSION_TOL_LINK then Ret n
  else
    lg ← or_else (Legs n !! lk_leg lk) Fault;
    let n := match r_data lk with
             | None => n
             | Some _ =>
                 let n := dequeue HTry_Send id NoArg n in
                 if is_control lk then
                   dequeue HNet_Send_State_All id (ProtArg GroupsP) (dequeue HNet_Send_State_All id (ProtArg EdgeP)
                     (dequeue HHello_Request_Cnt id NoArg (dequeue HHello_Request id NoArg (dequeue HSend_Hello id NoArg n))))
                 else n
             end in
    let n := set_leg_link (lk_leg lk) (link_type lk) None lg n in
    Ret (with_links (delete id (Links n)) n).

Definition Get_Best_Link (d : daemon) (n : net) (node_id mode : Z) : outcome (option Z) :=
  match Get_Edge d (My_Address d) node_id with
  | Some edge =>
      if negb (cost edge =? -1) || (mode =? INTRUSION_TOL_LINK) then
        l ← or_else (leg (extra edge)) Fault; lg ← or_else (Legs n !! l) Fault; Ret (l_links lg !! mode)
      else Ret None
  | None => Ret None
  end.

(** ** Legs and interfaces (network.c) *)
Definition destroy_mode (l : Z) (n : net) (mode : Z) : outcome net :=
  lg ← or_else (Legs n !! l) Fault;
  match l_links lg !! mode with Some id => Destroy_Link id n | None => Ret n end.

Definition Disconnect_Network_Leg (e : net_env) (l : Z) (n : net) : outcome net :=
  lg ← or_else (Legs n !! l) Fault;
  let c := conn lg in
  if bool_decide (status c = DISCONNECTED_LEG) then Exit
  else
    let n := set_conn l (mk_conn DISCONNECTED_LEG (l_cost c) 0 0 (hellos_out c) (last_recv_hello c) (connect_cnter c) (now e)) lg n in
    n ← foldM (destroy_mode l) n (seqZ 0 MAX_LINKS_4_EDGE);
    Network_Leg_Set_Cost e l (-1) n.

Definition Get_Interface (n : net) (id : Z) : option Interface := Known_Interfaces n !! id.
Definition Get_Interface_by_Addr (n : net) (addr : Z) : option Interface := Known_Addresses n !! addr ≫= Get_Interface n.
Definition Get_Network_Leg (n : net) (local_iid remote_iid : Z) : option Z := Network_Legs n !! (local_iid, remote_iid).

(** The sockets of a local interface are left out. *)
Definition Create_Interface (node id addr : Z) (n : net) : outcome net :=
  match Get_Node (dae n) node, Get_Interface n id, Get_Interface_by_Addr n addr with
  | Some _, None, None =>
      Ret (mk_net (dae n) (<[id := mk_interf id addr node]> (Known_Interfaces n)) (<[addr := id]> (Known_Addresses n)) (Network_Legs n) (Legs n) (Links n)
             (n_queue n) (pings n) (made n))
  | _, _, _ => Exit
  end.

Definition set_edge_leg (l : Z) (ed : Edge) : Edge :=
  set_value (value ed) (age ed) (mk_edge_extra (base_cost (extra ed)) (index (extra ed)) (lts (extra ed)) (Some l)) ed.

Definition Create_Network_Leg (cfg : net_conf) (e : net_env) (local_iid remote_iid : Z) (n : net) : outcome (Z * net) :=
  loc ← or_else (Get_Interface n local_iid) Exit;
  if negb (owner loc =? My_Address (dae n)) then Exit
  else
    rem ← or_else (Get_Interface n remote_iid) Exit;
    if owner rem =? My_Address (dae n) then Exit
    else match Get_Network_Leg n local_iid remote_iid with
    | Some _ => Exit
    | None =>
        d ← (match Get_Edge (dae n) (owner loc) (owner rem) with
             | Some _ => Ret (dae n)
             | None => Create_Edge (now e) (owner loc) (owner rem) (-1) (-1) USHRT_MAX (dae n)
             end);
        edge ← or_else (Get_Edge d (owner loc) (owner rem)) Fault;
        match leg (extra edge) with
        | Some _ => Exit
        | None =>
            let l := made n in
            let limited := 0 <=? Leg_Rate_Limit_kbps cfg in
            let b := if limited then new_bucket (Leg_Rate_Limit_kbps cfg) (now e) else mk_bucket 0 (mk_time 0 0) [] [] in
            let lg := mk_leg local_iid remote_iid (owner rem) ∅ (mk_conn DISCONNECTED_LEG (-1) 0 0 0 (mk_time 0 0) 0 (mk_time 0 0)) b in
            let d := with_edges (put_state (All_Edges d) (owner loc) (owner rem) (set_edge_leg l edge)) d in
            let n := mk_net d (Known_Interfaces n) (Known_Addresses n) (<[(local_iid, remote_iid) := l]> (Network_Legs n)) (<[l := lg]> (Legs n)) (Links n)
                       (n_queue n) (pings n) (l + 1) in
            Ret (l, if limited then queue e HFill_Leg_Bucket 0 (LegArg l) (mk_time 0 LEG_BUCKET_FILL_USEC) n else n)
        end
    end.

(** A leg of the command line or the configuration file; 0 stands for an
    identifier that was not given. *)
Record leg_arg := mk_larg { Local_Interface_ID : Z; Remote_Node_ID : Z; Remote_Interface_ID : Z; Remote_Interface_Address : Z }.

(** The loop of [Init_Nodes] over these legs; [mine]: the local interfaces. *)
Definition Init_Leg (cfg : net_conf) (e : net_env) (mine : list Z) (n : net) (a : leg_arg) : outcome net :=
  let addr := Remote_Interface_Address a in
  let riid := if Remote_Interface_ID a =? 0 then addr else Remote_Interface_ID a in
  let node := if Remote_Node_ID a =? 0 then addr else Remote_Node_ID a in
  local ← (if Local_Interface_ID a =? 0 then match mine with [i] => Ret i | _ => Exit end else Ret (Local_Interface_ID a));
  n ← (match Get_Node (dae n) node with
       | Some _ => Ret n
       | None => d ← Create_Node node (dae n); Ret (with_dae d n)
       end);
  n ← (match Get_Interface n riid with
       | None => Create_Interface node riid addr n
       | Some i => if owner i =? node then Ret n else Exit
       end);
  '(_, n) ← Create_Network_Leg cfg e local riid n;
  Ret n.

Definition Init_Legs (cfg : net_conf) (e : net_env) (mine : list Z) (legs : list leg_arg) (n : net) : outcome net := foldM (Init_Leg cfg e mine) n legs.

(** The event of [Fill_Leg_Bucket]: it queues itself, then fills. *)
Definition Fill_Bucket (cfg : net_conf) (e : net_env) (l : Z) (n : net) : outcome net :=
  if Leg_Rate_Limit_kbps cfg <? 0 then Exit
  else
    let n := queue e HFill_Leg_Bucket 0 (LegArg l) (mk_time 0 LEG_BUCKET_FILL_USEC) n in
    lg ← or_else (Legs n !! l) Fault;
    b ← Fill_Leg_Bucket (Leg_Rate_Limit_kbps cfg) (now e) (bucket lg);
    Ret (set_leg l (mk_leg (src_iid lg) (dst_iid lg) (l_dst lg) (l_links lg) (conn lg) b) n).

(** ** Hellos (hello.c) *)
Record packet_header := mk_phdr { type : Z; sender_id : Z; h_ctrl_link_id : Z; data_len : Z; ack_len : Z; seq_no : Z }.
Record hello_packet := mk_hello { h_seq_no : Z; my_time_sec : Z; my_time_usec : Z; response_seq_no : Z; h_diff_time : Z; h_loss_rate : Z }.
Definition sizeof_hello_packet : Z := 24.

Definition bytes16 (x : Z) : list Z := [x mod 256; (x / 256) mod 256].
Definition hello_scat (h : packet_header) (p : hello_packet) : list (list Z) :=
  [bytes32 (type h) ++ bytes32 (sender_id h) ++ bytes32 (h_ctrl_link_id h) ++ bytes16 (data_len h) ++ bytes16 (ack_len h) ++ bytes16 (seq_no h) ++ [0; 0];
   bytes32 (h_seq_no p) ++ bytes32 (my_time_sec p) ++ bytes32 (my_time_usec p) ++ bytes32 (response_seq_no p) ++ bytes32 (h_diff_time p) ++ bytes32 (h_loss_rate p)].

Definition Flip_hello_pkt (p : hello_packet) : hello_packet :=
  mk_hello (Flip.Flip_int32 (h_seq_no p)) (s32 (Flip.Flip_int32 (u32 (my_time_sec p)))) (s32 (Flip.Flip_int32 (u32 (my_time_usec p)))) (Flip.Flip_int32 (response_seq_no p))
    (s32 (Flip.Flip_int32 (u32 (h_diff_time p)))) (s32 (Flip.Flip_int32 (u32 (h_loss_rate p)))).

Definition with_loss (l : Loss_Data) (c : Control_Data) : Control_Data :=
  mk_cdata (hello_seq c) (other_side_hello_seq c) (diff_time c) (c_rtt c) l (est_loss_rate c) (reported_rtt c) (reported_loss_rate c) (reported_ts c).

(** The control link found for a hello, or [fail]. *)
Definition control_link (id : Z) (n : net) (fail : outcome Link) : outcome Link :=
  lk ← or_else (Links n !! id) fail; if is_control lk then Ret lk else fail.

(** The bits that tell the byte order of the sender, here little-endian. *)
Definition ENDIAN_TYPE : Z := 0x80000080.
Definition Set_endian (t : Z) : Z := Z.lor (Z.land t (Z.lnot ENDIAN_TYPE)) ENDIAN_TYPE.

(** [req]: an immediate answer is asked for. *)
Definition Net_Send_Hello (cfg : net_conf) (e : net_env) (id : Z) (req : bool) (n : net) : outcome net :=
  lk ← control_link id n Exit;
  c ← or_else (c_data lk) Fault;
  lg ← or_else (Legs n !! lk_leg lk) Fault;
  let '(s, ld) := Next_Loss_SeqNo CONTROL_LINK (l_data c) in
  let h := mk_phdr (Set_endian (if req then HELLO_REQ_TYPE else HELLO_TYPE)) (My_Address (dae n)) (ctrl_link_id (conn lg)) sizeof_hello_packet 0 s in
  let p := mk_hello (hello_seq c) (s32 (sec (now e))) (s32 (usec (now e))) (other_side_hello_seq c) (diff_time c) (Compute_Loss_Rate ld) in
  let c := mk_cdata (u32 (hello_seq c + 1)) (other_side_hello_seq c) (diff_time c) (c_rtt c) ld (est_loss_rate c) (reported_rtt c) (reported_loss_rate c)
             (reported_ts c) in
  let n := set_cdata id lk c n in
  if network_flag cfg then
    '(_, b) ← Link_Send (Leg_Rate_Limit_kbps cfg) (dl_ret e) (link_type lk) (hello_scat h p) (bucket lg);
    Ret (set_leg (lk_leg lk) (mk_leg (src_iid lg) (dst_iid lg) (l_dst lg) (l_links lg) (conn lg) b) n)
  else Ret n.

Definition dead_timeout (cfg : net_conf) : sp_time :=
  let t := hello_timeout cfg in
  if sec t =? 0 then mk_time 0 (Z.quot (usec t) 2)
  else let u := Z.quot (sec t * 1000000 + usec t) 2 in mk_time (Z.quot u 1000000) (Z.rem u 1000000).

Definition with_hellos (k : Z) (c : leg_conn) : leg_conn :=
  mk_conn (status c) (l_cost c) (ctrl_link_id c) (other_side_ctrl_link_id c) k (last_recv_hello c) (connect_cnter c) (last_connected c).

Definition Send_Hello (cfg : net_conf) (e : net_env) (id : Z) (n : net) : outcome net :=
  lk ← control_link id n Exit;
  lg ← or_else (Legs n !! lk_leg lk) Fault;
  let k := hellos_out (conn lg) in
  let n := if k =? hello_cnt_start cfg then queue e HHello_Request_Cnt id NoArg (cnt_timeout cfg) n else n in
  let n := if k =? DEAD_LINK_CNT then queue e HDead_Leg id NoArg (dead_timeout cfg) n else n in
  n ← Net_Send_Hello cfg e id false n;
  lg ← or_else (Legs n !! lk_leg lk) Fault;
  Ret (queue e HSend_Hello id NoArg (hello_timeout cfg) (set_conn (lk_leg lk) (with_hellos (s16 (k + 1)) (conn lg)) lg n)).

Definition Send_Hello_Request (cfg : net_conf) (e : net_env) (id : Z) (n : net) : outcome net := Net_Send_Hello cfg e id true n.

Definition Send_Hello_Request_Cnt (cfg : net_conf) (e : net_env) (id : Z) (n : net) : outcome net :=
  _ ← control_link id n Exit;
  n ← Net_Send_Hello cfg e id true n;
  Ret (queue e HHello_Request_Cnt id NoArg (cnt_timeout cfg) n).

Definition Dead_Leg (e : net_env) (id : Z) (n : net) : outcome net :=
  match Links n !! id with
  | None => Ret n
  | Some lk =>
      if negb (is_control lk) then Ret n
      else lg ← or_else (Legs n !! lk_leg lk) Fault; if hellos_out (conn lg) <? DEAD_LINK_CNT then Ret n else Disconnect_Network_Leg e (lk_leg lk) n
  end.

Section Pings.
Context `{HO : HashOrder}.

(** A ping goes out on every leg that is disconnected. *)
Definition Send_Hello_Ping (cfg : net_conf) (e : net_env) (n : net) : net :=
  let dead := filter (fun l => (fun lg => status (conn lg)) <$> Legs n !! l = Some DISCONNECTED_LEG) (hash_iter (Network_Legs n)).*2 in
  queue e HHello_Ping 0 NoArg (ad_timeout cfg)
    (mk_net (dae n) (Known_Interfaces n) (Known_Addresses n) (Network_Legs n) (Legs n) (Links n) (n_queue n)
       (pings n ++ if network_flag cfg then dead else []) (made n)).

Definition Init_Connections (cfg : net_conf) (e : net_env) (n : net) : net := Send_Hello_Ping cfg e n.
End Pings.

(** [stable_timeout], from twice the time of [DEAD_LINK_CNT] hellos. *)
Definition stable_time (hello_timeout : sp_time) : spec_float :=
  const 2 1 ⊗ F64.of_Z DEAD_LINK_CNT ⊗ (F64.of_Z (sec hello_timeout) ⊕ F64.of_Z (usec hello_timeout) ⊘ const 1000000 1).

Definition seconds (t : sp_time) : spec_float := F64.of_Z (sec t) ⊕ F64.of_Z (usec t) ⊘ const 1000000 1.

(** The interface, leg and control link of the sender, created on demand. *)
Definition Process_hello_ping (cfg : net_conf) (e : net_env) (h : packet_header) (from_addr local_iid : Z) (remote leg link : option Z) (n : net) :
  outcome (option Z * net) :=
  n ← (match Get_Node (dae n) (sender_id h) with
       | Some _ => Ret n
       | None => d ← Create_Node (sender_id h) (dae n); Ret (with_dae d n)
       end);
  '(rem, n) ← (match remote with
               | Some r => Ret (r, n)
               | None => n ← Create_Interface (sender_id h) from_addr from_addr n; Ret (from_addr, n)
               end);
  '(l, n) ← (match leg with Some l => Ret (l, n) | None => Create_Network_Leg cfg e local_iid rem n end);
  match link with
  | Some i => Ret (Some i, n)
  | None =>
      lg ← or_else (Legs n !! l) Fault;
      if stable_delay_flag cfg && SFltb (seconds (now e) ⊖ seconds (last_connected (conn lg))) (stable_timeout cfg) then Ret (None, n)
      else
        '(i, n) ← Create_Link cfg e l CONTROL_LINK n;
        lg ← or_else (Legs n !! l) Fault;
        let c := conn lg in
        Ret (Some i, set_conn l (mk_conn (status c) (l_cost c) (ctrl_link_id c) (other_side_ctrl_link_id c) (hellos_out c) (now e) (connect_cnter c)
                                   (last_connected c)) lg n)
  end.

(** Round trip time, clock offset and loss rate from a hello. *)
Definition measure (t : sp_time) (p : hello_packet) (c : Control_Data) : Control_Data * bool :=
  let my_diff := E_sub_time t (mk_time (my_time_sec p) (my_time_usec p)) in
  let rtt_int := s32 (sec my_diff * 1000000 + usec my_diff + s32 (h_diff_time p * 100)) in
  let rtt_int := if rtt_int <? 0 then 100 else rtt_int in
  let diff := s32 (sec my_diff * 10000 + Z.quot (usec my_diff) 100) in
  let fresh := (hello_seq c <=? u32 (response_seq_no p + 20)) && negb (response_seq_no p =? 0) in
  let rtt := to_single (const 95 100 ⊗ to_double (c_rtt c) ⊕ const 5 100 ⊗ (F64.of_Z rtt_int ⊘ const 1000 1)) in
  let rtt := if SFltb (to_double rtt) (const 1 1) then F32.of_Z 1 else rtt in
  let loss := if h_loss_rate p =? UNKNOWN then est_loss_rate c else F32.div (F32.of_Z (h_loss_rate p)) (F32.of_Z LOSS_RATE_SCALE) in
  (mk_cdata (hello_seq c) (h_seq_no p) diff (if fresh then rtt else c_rtt c) (l_data c) loss (reported_rtt c) (reported_loss_rate c) (reported_ts c), fresh).

(** Is the cost of a connected leg looked at again? *)
Definition wants_update (cfg : net_conf) (e : net_env) (c : Control_Data) (my_ts : Z) : bool :=
  let w := Route_Weight cfg in
  if w =? PROBLEM_ROUTE then true
  else if w =? DISTANCE_ROUTE then false
  else if my_ts + 30 + time_rnd e <? sec (now e) then
    let d := SFabs (to_double (F32.sub (F32.of_Z (reported_rtt c)) (c_rtt c))) in
    let by_rtt := ((w =? LATENCY_ROUTE) || (w =? AVERAGE_ROUTE)) &&
                  ((reported_rtt c =? UNKNOWN) || (SFltb (const 1 10 ⊗ F64.of_Z (reported_rtt c)) d && SFleb (const 2 1) d)) in
    let df := F32.sub (reported_loss_rate c) (est_loss_rate c) in
    let df := if SFltb (to_double df) (const 0 1) then SFopp df else df in
    let by_loss := ((w =? LOSSRATE_ROUTE) || (w =? AVERAGE_ROUTE)) && SFltb (const 1 10 ⊗ to_double (reported_loss_rate c)) (to_double df) in
    by_rtt || by_loss
  else false.

Definition report (t : sp_time) (id : Z) (n : net) : outcome net :=
  lk ← or_else (Links n !! id) Fault;
  c ← or_else (c_data lk) Fault;
  Ret (set_cdata id lk (mk_cdata (hello_seq c) (other_side_hello_seq c) (diff_time c) (c_rtt c) (l_data c) (est_loss_rate c) (s32 (SFtrunc (c_rtt c)))
                          (est_loss_rate c) t) n).

Definition set_flags (id f : Z) (n : net) : outcome net :=
  lk ← or_else (Links n !! id) Fault;
  r ← or_else (r_data lk) Fault;
  Ret (set_link id (mk_lk (link_type lk) (lk_leg lk) (Some (f, snd r)) (c_data lk)) n).

(** The leg becomes connected. *)
Definition connect (cfg : net_conf) (e : net_env) (id l : Z) (n : net) : outcome net :=
  lg ← or_else (Legs n !! l) Fault;
  let c := conn lg in
  let n := set_conn l (mk_conn CONNECTED_LEG (l_cost c) (ctrl_link_id c) (other_side_ctrl_link_id c) (hellos_out c) (last_recv_hello c) (connect_cnter c)
                         (last_connected c)) lg n in
  init ← Network_Leg_Initial_Cost cfg;
  n ← Network_Leg_Set_Cost e l init n;
  n ← report (now e) id n;
  '(_, n) ← Create_Link cfg e l UDP_LINK n;
  '(rel, n) ← Create_Link cfg e l RELIABLE_UDP_LINK n;
  '(_, n) ← Create_Link cfg e l REALTIME_UDP_LINK n;
  rem ← or_else (Get_Interface n (dst_iid lg)) Fault;
  '(_, n) ← (if Config_File_Found cfg && it_edge cfg (net_addr rem) then Create_Link cfg e l INTRUSION_TOL_LINK n else Ret (0, n));
  n ← set_flags id CONNECTED_LINK n;
  n ← set_flags rel CONNECTED_LINK n;
  Ret (queue e HTry_Send rel NoArg zero_timeout (queue e HTry_Send id NoArg zero_timeout (queue e HSend_Hello id NoArg zero_timeout n))).

(** A hello of the session known: everything after the check of the session. *)
Definition hello_body (cfg : net_conf) (e : net_env) (id l : Z) (h : packet_header) (p : hello_packet) (n : net) : outcome net :=
  lk ← or_else (Links n !! id) Fault;
  c ← or_else (c_data lk) Fault;
  ld ← or_else (Check_Link_Loss (seq_no h) CONTROL_LINK (l_data c)) Fault;
  let c := with_loss ld c in
  let n := set_cdata id lk c n in
  if u32 (h_seq_no p + 3) <? other_side_hello_seq c then Ret n
  else
    let '(c, fresh) := measure (now e) p c in
    n ← (if fresh then r ← or_else (r_data lk) Fault; Ret (set_link id (mk_lk (link_type lk) (lk_leg lk) (Some (fst r, c_rtt c)) (Some c)) n)
         else Ret (set_cdata id lk c n));
    lg ← or_else (Legs n !! l) Fault;
    let k := conn lg in
    let n := set_conn l (mk_conn (status k) (l_cost k) (ctrl_link_id k) (other_side_ctrl_link_id k) 0 (now e) (connect_cnter k) (last_connected k)) lg n in
    let n := dequeue HHello_Request_Cnt id NoArg n in
    let n := if Is_hello_req (type h) then queue e HSend_Hello id NoArg zero_timeout n else n in
    match status k with
    | CONNECTED_LEG =>
        edge ← or_else (Get_Edge (dae n) (My_Address (dae n)) (l_dst lg)) Fault;
        if wants_update cfg e c (my_timestamp_sec edge) then
          '(r, n) ← Network_Leg_Update_Cost cfg e l n; if 0 <? r then report (now e) id n else Ret n
        else Ret n
    | NOT_YET_CONNECTED_LEG =>
        let cnt := s16 (connect_cnter k + 1) in
        let n := set_conn l (mk_conn (status k) (l_cost k) (ctrl_link_id k) (other_side_ctrl_link_id k) 0 (now e) cnt (last_connected k)) lg n in
        if CONNECT_LINK_CNT <=? cnt then connect cfg e id l n else Ret n
    | DISCONNECTED_LEG => Exit
    end.

(** [len]: the bytes behind the header; [same]: the sender has the same byte order. *)
Definition Process_hello_packet (cfg : net_conf) (e : net_env) (id : Z) (h : packet_header) (p : hello_packet) (len : Z) (same : bool) (n : net) : outcome net :=
  lk ← or_else (Links n !! id) Fault;
  let l := lk_leg lk in
  lg ← or_else (Legs n !! l) Fault;
  if negb (len =? sizeof_hello_packet) then Ret n
  else
    let p := if same then p else Flip_hello_pkt p in
    let k := conn lg in
    if h_ctrl_link_id h =? other_side_ctrl_link_id k then hello_body cfg e id l h p n
    else if other_side_ctrl_link_id k =? 0 then
      c ← or_else (c_data lk) Fault;
      let seqs := list_to_map (map (fun i => (i, if i =? CONTROL_LINK then s16 (seq_no h) else PACK_MAX_SEQ + 1)) (seqZ 0 MAX_LINKS_4_EDGE)) in
      let n := set_conn l (mk_conn (status k) (l_cost k) (ctrl_link_id k) (h_ctrl_link_id h) (hellos_out k) (last_recv_hello k) (connect_cnter k)
                             (last_connected k)) lg n in
      let n := set_cdata id lk (with_loss (mk_loss (loss_rate (l_data c)) seqs (loss_my_seqs (l_data c))) c) n in
      hello_body cfg e id l h p n
    else
      n ← Disconnect_Network_Leg e l n;
      '(i, n) ← Create_Link cfg e l CONTROL_LINK n;
      Send_Hello cfg e i n.

(** ** Dispatch (protocol.c) *)

(** What is left for the protocol of a link: the link the packet belongs to. *)
Definition Prot_process_scat (cfg : net_conf) (e : net_env) (h : packet_header) (p : hello_packet) (len local_iid mode from_addr : Z) (port_ok same : bool)
    (n : net) : outcome (option Z * net) :=
  if negb (len =? data_len h + ack_len h) then Ret (None, n)
  else if negb port_ok then Ret (None, n)
  else
    let remote := Get_Interface_by_Addr n from_addr in
    let l := remote ≫= fun r => Get_Network_Leg n local_iid (iid r) in
    if match remote with Some r => negb (owner r =? sender_id h) | None => false end then Ret (None, n)
    else
      link ← (match l with Some l => lg ← or_else (Legs n !! l) Fault; Ret (l_links lg !! mode) | None => Ret None end);
      if Is_hello_type (type h) then
        if mode =? CONTROL_LINK then
          '(link, n) ← Process_hello_ping cfg e h from_addr local_iid (iid <$> remote) l link n;
          match link with
          | Some i => if Is_hello (type h) || Is_hello_req (type h) then n ← Process_hello_packet cfg e i h p len same n; Ret (None, n) else Ret (None, n)
          | None => Ret (None, n)
          end
        else Ret (None, n)
      else match link, l with
      | Some i, Some l =>
          lg ← or_else (Legs n !! l) Fault;
          if negb (h_ctrl_link_id h =? other_side_ctrl_link_id (conn lg)) then Ret (None, n)
          else match l_links lg !! CONTROL_LINK with
          | None => Ret (Some i, n)
          | Some ctl =>
              lk ← or_else (Links n !! ctl) Fault;
              c ← or_else (c_data lk) Fault;
              ld ← or_else (Check_Link_Loss (seq_no h) mode (l_data c)) Fault;
              Ret (Some i, set_cdata ctl lk (with_loss ld c) n)
          end
      | _, _ => Ret (None, n)
      end.
