(* ===== verification/HelloProof.v ===== *)
(** * HelloProof: the tables of legs and links

    The invariant of interfaces, legs, links, edges, neighbours and timers
    ([wf]), and what the operations on links do to them. *)
From Stdlib Require Import SpecFloat.
From stdpp Require Import base list gmap numbers option sets.
From Stdlib Require Import ZArith Lia.
From S2P Require Import Prelude CFloat HashMap StdUtil Events NetTypes Route ReliableLink ITFrag Leg LegProps Daemon StateFlood FloodProof FloodTotal Hello.
#[local] Open Scope Z_scope.

(** ** Timers *)
Abbreviation timer := (net_handler * Z * ev_arg)%type.
Definition waits (n : net) (k : timer) : Prop := k ∈ ev_key <$> n_queue n.

Lemma keep_elem h c a (q : list (@time_event net_handler ev_arg)) k : k ∈ ev_key <$> keep h c a q <-> k ∈ ev_key <$> q /\ k <> (h, c, a).
Proof.
  unfold keep. rewrite !list_elem_of_fmap. split.
  - intros (e & -> & Hin). apply list_elem_of_filter in Hin as [Hs Hin]. split; [by exists e|]. intros Hk. apply ev_same_key in Hk. congruence.
  - intros [(e & -> & Hin) Hne]. exists e. split; [done|]. apply list_elem_of_filter. split; [|done]. apply not_true_iff_false. rewrite ev_same_key. done.
Qed.

Lemma queue_timer e h c a t n : queue_ok (n_queue n) ->
  queue_ok (n_queue (queue e h c a t n)) /\ forall k, waits (queue e h c a t n) k <-> k = (h, c, a) \/ waits n k.
Proof.
  intros Hq. split; [by apply E_queue_ok|]. intros k. unfold waits, queue, with_nqueue. cbn [n_queue]. rewrite E_queue_insert by apply Hq.
  rewrite insert_time_perm, fmap_cons, elem_of_cons, keep_elem. unfold ev_key at 1. cbn. destruct (decide (k = (h, c, a))); naive_solver.
Qed.

Lemma dequeue_timer h c a n : queue_ok (n_queue n) ->
  queue_ok (n_queue (dequeue h c a n)) /\ forall k, waits (dequeue h c a n) k <-> waits n k /\ k <> (h, c, a).
Proof.
  intros Hq. unfold dequeue, waits, with_nqueue. cbn [n_queue]. rewrite E_dequeue_keep by apply Hq. cbn [snd].
  split; [by apply keep_ok|]. intros k. apply keep_elem.
Qed.

(** ** Neighbours *)
Lemma trim_lookup l : forall i (x : Z), trim l !! i = Some (Some x) <-> l !! i = Some (Some x).
Proof.
  induction l as [|y l IH]; intros i x; [done|]. cbn [trim]. destruct i as [|i]; cbn [lookup list_lookup].
  - destruct (trim l), y; done.
  - rewrite <- IH. destruct (trim l) as [|z t] eqn:E; [|by destruct y]. destruct y; [done|]. split; [done|]. by destruct i.
Qed.

Lemma trim_length l : (length (trim l) <= length l)%nat.
Proof. induction l as [|y l IH]; [done|]. cbn [trim]. destruct (trim l), y; cbn in *; lia. Qed.

Lemma first_neighbor_spec l : let i := first_neighbor l in
  (i <= length l)%nat /\ (i < length l -> l !! i = Some None)%nat /\ forall j x, l !! j = Some x -> (j < i)%nat -> x <> None.
Proof.
  unfold first_neighbor. destruct (list_find _ l) as [[i x]|] eqn:E.
  - apply list_find_Some in E as (Hi & -> & Hmin). cbn zeta. split; [apply lookup_lt_Some in Hi; lia|]. split; [done|]. intros j x Hj Hlt. by apply (Hmin j x).
  - apply list_find_None in E. rewrite Forall_lookup in E. cbn zeta. split; [lia|]. split; [lia|]. intros j x Hj _. by apply (E j).
Qed.

(** ** The invariant *)
Section Tables.
Context (cfg : net_conf).
#[local] Notation kbps := (Leg_Rate_Limit_kbps cfg).

Definition my_edge (n : net) (dst : Z) : option (Z * option Z) := (fun ed : Edge => (cost ed, leg (extra ed))) <$> Get_Edge (dae n) (My_Address (dae n)) dst.
Definition nb (n : net) (id : Z) : option Z := neighbor_id <$> Get_Node (dae n) id.

Definition shape (lk : Link) : Prop :=
  (is_Some (c_data lk) <-> link_type lk = CONTROL_LINK) /\ (is_Some (r_data lk) <-> link_type lk = CONTROL_LINK \/ link_type lk = RELIABLE_UDP_LINK).

Definition control_at (n : net) (i : Z) : Prop := exists lk, Links n !! i = Some lk /\ link_type lk = CONTROL_LINK.

Definition timer_ok (n : net) (k : timer) : Prop :=
  match k with
  | (HSend_Hello, i, a) | (HHello_Request, i, a) | (HHello_Request_Cnt, i, a) => a = NoArg /\ control_at n i
  | (HNet_Send_State_All, i, a) => (exists p, a = ProtArg p) /\ control_at n i
  | (HTry_Send, i, a) => a = NoArg /\ exists lk, Links n !! i = Some lk /\ is_Some (r_data lk)
  | (HFill_Leg_Bucket, _, a) => 0 <= kbps /\ exists l, a = LegArg l /\ is_Some (Legs n !! l)
  | (HDead_Leg, _, _) | (HHello_Ping, _, _) => True
  end.

Record leg_wf (n : net) (l : Z) (lg : Network_Leg) : Prop := {
  lw_number : 0 <= l < made n; lw_other : l_dst lg <> My_Address (dae n);
  lw_local : exists loc, Known_Interfaces n !! src_iid lg = Some loc /\ owner loc = My_Address (dae n);
  lw_remote : exists rem, Known_Interfaces n !! dst_iid lg = Some rem /\ owner rem = l_dst lg;
  lw_table : Network_Legs n !! (src_iid lg, dst_iid lg) = Some l;
  lw_edge : my_edge n (l_dst lg) = Some (l_cost (conn lg), Some l);
  lw_node : is_Some (nb n (l_dst lg));
  lw_links : forall m i, l_links lg !! m = Some i -> exists lk, Links n !! i = Some lk /\ link_type lk = m /\ lk_leg lk = l;
  lw_control : Control_Links (dae n) !! l = l_links lg !! CONTROL_LINK;
  lw_bucket : 0 <= kbps -> bucket_ok kbps (bucket lg) }.

Record wf (n : net) : Prop := {
  wf_queue : queue_ok (n_queue n);
  wf_my : is_Some (nb n (My_Address (dae n)));
  wf_legs : forall l lg, Legs n !! l = Some lg -> leg_wf n l lg;
  wf_table : forall a b l, Network_Legs n !! (a, b) = Some l -> exists lg, Legs n !! l = Some lg /\ src_iid lg = a /\ dst_iid lg = b;
  wf_edges : forall dst c l, my_edge n dst = Some (c, Some l) -> exists lg, Legs n !! l = Some lg /\ l_dst lg = dst;
  wf_links : forall i lk, Links n !! i = Some lk ->
    0 <= i < MAX_LINKS /\ 0 <= link_type lk < MAX_LINKS_4_EDGE /\ shape lk /\ exists lg, Legs n !! lk_leg lk = Some lg /\ l_links lg !! link_type lk = Some i;
  wf_nodes : forall id v, nb n id = Some v -> v <> -1 -> 0 <= v /\ Neighbor_Nodes (dae n) !! Z.to_nat v = Some (Some id);
  wf_neighbors : forall i id, Neighbor_Nodes (dae n) !! i = Some (Some id) -> nb n id = Some (Z.of_nat i) /\ exists l lg, Legs n !! l = Some lg /\ l_dst lg = id;
  wf_length : (length (Neighbor_Nodes (dae n)) <= 256)%nat;
  wf_timers : forall k, waits n k -> timer_ok n k;
  wf_addresses : forall addr i, Known_Addresses n !! addr = Some i -> is_Some (Known_Interfaces n !! i);
  wf_iids : forall i x, Known_Interfaces n !! i = Some x -> iid x = i;
  wf_free : 0 <= made n /\ forall l, Legs n !! l = None -> Control_Links (dae n) !! l = None }.

(** ** Changes that the tables do not notice *)
Definition leg_sim (lg lg' : Network_Leg) : Prop :=
  src_iid lg' = src_iid lg /\ dst_iid lg' = dst_iid lg /\ l_dst lg' = l_dst lg /\ l_links lg' = l_links lg /\ l_cost (conn lg') = l_cost (conn lg) /\
  (0 <= kbps -> bucket_ok kbps (bucket lg) -> bucket_ok kbps (bucket lg')).
Definition link_sim (lk lk' : Link) : Prop :=
  link_type lk' = link_type lk /\ lk_leg lk' = lk_leg lk /\ (is_Some (c_data lk') <-> is_Some (c_data lk)) /\ (is_Some (r_data lk') <-> is_Some (r_data lk)).
Record dae_sim (d d' : daemon) : Prop := {
  ds_my : My_Address d' = My_Address d; ds_nodes : forall id, neighbor_id <$> Get_Node d' id = neighbor_id <$> Get_Node d id;
  ds_neighbors : Neighbor_Nodes d' = Neighbor_Nodes d; ds_control : Control_Links d' = Control_Links d;
  ds_edges : forall dst, (fun ed : Edge => (cost ed, leg (extra ed))) <$> Get_Edge d' (My_Address d) dst = (fun ed : Edge => (cost ed, leg (extra ed))) <$> Get_Edge d (My_Address d) dst }.

Record similar (n n' : net) : Prop := {
  sm_dae : dae_sim (dae n) (dae n'); sm_if : Known_Interfaces n' = Known_Interfaces n; sm_ad : Known_Addresses n' = Known_Addresses n;
  sm_table : Network_Legs n' = Network_Legs n; sm_made : made n' = made n;
  sm_legs : forall l, option_Forall2 leg_sim (Legs n !! l) (Legs n' !! l); sm_links : forall i, option_Forall2 link_sim (Links n !! i) (Links n' !! i) }.

#[export] Instance leg_sim_refl : Reflexive leg_sim.
Proof. intros lg. by split_and!. Qed.
#[export] Instance link_sim_refl : Reflexive link_sim.
Proof. intros lk. by split_and!. Qed.
#[export] Instance dae_sim_refl : Reflexive dae_sim.
Proof. intros d. by split. Qed.

Lemma similar_refl n : similar n n.
Proof. by split. Qed.

Lemma similar_trans a b c : similar a b -> similar b c -> similar a c.
Proof.
  intros [[A1 A2 A3 A4 A5] A6 A7 A8 A9 AL AK] [[B1 B2 B3 B4 B5] B6 B7 B8 B9 BL BK]. split; try congruence.
  - split; congruence.
  - intros l. specialize (AL l). specialize (BL l). destruct AL as [x y (E1 & E2 & E3 & E4 & E5 & E6)|]; inversion BL as [? z (F1 & F2 & F3 & F4 & F5 & F6)|]; subst; constructor.
    split_and!; try congruence. tauto.
  - intros i. specialize (AK i). specialize (BK i). destruct AK as [x y (E1 & E2 & E3 & E4)|]; inversion BK as [? z (F1 & F2 & F3 & F4)|]; subst; constructor.
    split_and!; try congruence; tauto.
Qed.

Lemma sim_edge n n' dst : similar n n' -> my_edge n' dst = my_edge n dst.
Proof. intros Hs. unfold my_edge. rewrite (ds_my _ _ (sm_dae _ _ Hs)). apply (ds_edges _ _ (sm_dae _ _ Hs)). Qed.
Lemma sim_nb n n' id : similar n n' -> nb n' id = nb n id.
Proof. intros Hs. apply (ds_nodes _ _ (sm_dae _ _ Hs)). Qed.
Lemma sim_leg_back n n' l lg' : similar n n' -> Legs n' !! l = Some lg' -> exists lg, Legs n !! l = Some lg /\ leg_sim lg lg'.
Proof. intros Hs Hl. pose proof (sm_legs _ _ Hs l) as H. rewrite Hl in H. inversion H; subst. by eexists. Qed.
Lemma sim_leg_fwd n n' l lg : similar n n' -> Legs n !! l = Some lg -> exists lg', Legs n' !! l = Some lg' /\ leg_sim lg lg'.
Proof. intros Hs Hl. pose proof (sm_legs _ _ Hs l) as H. rewrite Hl in H. inversion H; subst. by eexists. Qed.
Lemma sim_link_back n n' l lk' : similar n n' -> Links n' !! l = Some lk' -> exists lk, Links n !! l = Some lk /\ link_sim lk lk'.
Proof. intros Hs Hl. pose proof (sm_links _ _ Hs l) as H. rewrite Hl in H. inversion H; subst. by eexists. Qed.
Lemma sim_link_fwd n n' l lk : similar n n' -> Links n !! l = Some lk -> exists lk', Links n' !! l = Some lk' /\ link_sim lk lk'.
Proof. intros Hs Hl. pose proof (sm_links _ _ Hs l) as H. rewrite Hl in H. inversion H; subst. by eexists. Qed.

Lemma sim_timer n n' k : similar n n' -> timer_ok n k -> timer_ok n' k.
Proof.
  intros Hs. assert (Hc : forall i, control_at n i -> control_at n' i).
  { intros i (lk & Hk & Ht). destruct (sim_link_fwd _ _ _ _ Hs Hk) as (lk' & Hk' & (E & _)). exists lk'. split; [done|congruence]. }
  destruct k as [[[] i] a]; cbn; try tauto; try (intros [? ?]; split; [done|by apply Hc]).
  - intros [-> (lk & Hk & Hr)]. split; [done|]. destruct (sim_link_fwd _ _ _ _ Hs Hk) as (lk' & Hk' & (_ & _ & _ & E)). exists lk'. split; [done|by apply E].
  - intros [? (l & -> & lg & Hl)]. split; [done|]. exists l. split; [done|]. destruct (sim_leg_fwd _ _ _ _ Hs Hl) as (lg' & Hl' & _). by eexists.
Qed.

(** A similar state with timers that are all right is well formed. *)
Lemma wf_similar n n' : wf n -> similar n n' -> queue_ok (n_queue n') -> (forall k, waits n' k -> waits n k \/ timer_ok n' k) -> wf n'.
Proof.
  intros [W1 W2 W3 W4 W5 W6 W7 W8 W9 W10 W11 W12 W13] Hs Hq Ht. pose proof (sm_dae _ _ Hs) as [D1 D2 D3 D4 D5].
  split; try done.
  - rewrite D1, (sim_nb _ _ _ Hs). exact W2.
  - intros l lg' Hl'. destruct (sim_leg_back _ _ _ _ Hs Hl') as (lg & Hl & (E1 & E2 & E3 & E4 & E5 & E6)). destruct (W3 l lg Hl) as [A1 A2 A3 A4 A5 A6 A7 A8 A9 A10].
    split; rewrite ?E1, ?E2, ?E3, ?E4, ?E5, ?D1, ?(sm_if _ _ Hs), ?(sm_table _ _ Hs), ?(sm_made _ _ Hs), ?(sim_edge _ _ _ Hs), ?(sim_nb _ _ _ Hs), ?D4; try done; [|tauto].
    intros m i Hm. destruct (A8 m i Hm) as (lk & Hk & T1 & T2). destruct (sim_link_fwd _ _ _ _ Hs Hk) as (lk' & Hk' & (F1 & F2 & _)). exists lk'. split_and!; congruence.
  - intros a b l. rewrite (sm_table _ _ Hs). intros Hab. destruct (W4 a b l Hab) as (lg & Hl & <- & <-). destruct (sim_leg_fwd _ _ _ _ Hs Hl) as (lg' & Hl' & (E1 & E2 & _)). by exists lg'.
  - intros dst c l. rewrite (sim_edge _ _ _ Hs). intros Hd. destruct (W5 dst c l Hd) as (lg & Hl & <-). destruct (sim_leg_fwd _ _ _ _ Hs Hl) as (lg' & Hl' & (_ & _ & E & _)). by exists lg'.
  - intros i lk' Hk'. destruct (sim_link_back _ _ _ _ Hs Hk') as (lk & Hk & (E1 & E2 & E3 & E4)). destruct (W6 i lk Hk) as (B1 & B2 & [B3 B3'] & lg & Hl & B4).
    destruct (sim_leg_fwd _ _ _ _ Hs Hl) as (lg' & Hl' & (_ & _ & _ & F & _)). rewrite E1, E2. split; [done|]. split; [done|]. split; [split; rewrite E1; tauto|]. exists lg'. split; [done|congruence].
  - intros id v. rewrite (sim_nb _ _ _ Hs), D3. apply W7.
  - intros i id. rewrite (sim_nb _ _ _ Hs), D3. intros Hi. destruct (W8 i id Hi) as (B1 & l & lg & Hl & B2). split; [done|].
    destruct (sim_leg_fwd _ _ _ _ Hs Hl) as (lg' & Hl' & (_ & _ & E & _)). exists l, lg'. split; congruence.
  - by rewrite D3.
  - intros k Hk. destruct (Ht k Hk) as [Hold|?]; [|done]. eapply sim_timer; [exact Hs|]. by apply W10.
  - rewrite (sm_ad _ _ Hs), (sm_if _ _ Hs). done.
  - rewrite (sm_if _ _ Hs). done.
  - rewrite (sm_made _ _ Hs), D4. split; [apply W13|]. intros l Hl. apply W13. pose proof (sm_legs _ _ Hs l) as H. rewrite Hl in H. by inversion H.
Qed.

Lemma sim_with_nqueue n q : similar n (with_nqueue q n).
Proof. destruct (similar_refl n) as [A B C D E F G]. by split. Qed.
Lemma queue_sim e h c a t n : similar n (queue e h c a t n).
Proof. apply sim_with_nqueue. Qed.
Lemma dequeue_sim h c a n : similar n (dequeue h c a n).
Proof. apply sim_with_nqueue. Qed.

Lemma set_leg_sim n l lg lg' : Legs n !! l = Some lg -> leg_sim lg lg' -> similar n (set_leg l lg' n).
Proof.
  intros Hl Hs. destruct (similar_refl n) as [A B C D E F G]. split; try done. intros l'. cbn. destruct (decide (l' = l)) as [->|].
  - rewrite lookup_insert_eq, Hl. by constructor.
  - rewrite lookup_insert_ne by done. apply F.
Qed.

Lemma set_link_sim n i lk lk' : Links n !! i = Some lk -> link_sim lk lk' -> similar n (set_link i lk' n).
Proof.
  intros Hl Hs. destruct (similar_refl n) as [A B C D E F G]. split; try done. intros l'. cbn. destruct (decide (l' = i)) as [->|].
  - rewrite lookup_insert_eq, Hl. by constructor.
  - rewrite lookup_insert_ne by done. apply G.
Qed.

(** The tables and the timers of similar states. *)
Lemma wf_sim n n' : wf n -> similar n n' -> n_queue n' = n_queue n -> wf n'.
Proof. intros Hw Hs Hq. eapply wf_similar; [exact Hw|exact Hs|rewrite Hq; apply (wf_queue _ Hw)|]. intros k. unfold waits. rewrite Hq. auto. Qed.

Lemma wf_queued e h c a t n : wf n -> timer_ok n (h, c, a) -> wf (queue e h c a t n).
Proof.
  intros Hw Ht. destruct (queue_timer e h c a t n (wf_queue _ Hw)) as [Hq Hk]. eapply wf_similar; [exact Hw|apply queue_sim|exact Hq|].
  intros k [->|?]%Hk; [right; eapply sim_timer; [apply queue_sim|done]|by left].
Qed.

Lemma wf_dequeued h c a n : wf n -> wf (dequeue h c a n).
Proof.
  intros Hw. destruct (dequeue_timer h c a n (wf_queue _ Hw)) as [Hq Hk]. eapply wf_similar; [exact Hw|apply dequeue_sim|exact Hq|]. intros k [? _]%Hk. by left.
Qed.

(** ** Links come and go *)

(** What [set_leg_link] leaves alone. *)
Lemma set_leg_link_frame l m o lg n :
  let n' := set_leg_link l m o lg n in
  let links := match o with Some i => <[m := i]> (l_links lg) | None => delete m (l_links lg) end in
  Known_Interfaces n' = Known_Interfaces n /\ Known_Addresses n' = Known_Addresses n /\ Network_Legs n' = Network_Legs n /\ Links n' = Links n /\
  n_queue n' = n_queue n /\ made n' = made n /\ Legs n' = <[l := mk_leg (src_iid lg) (dst_iid lg) (l_dst lg) links (conn lg) (bucket lg)]> (Legs n) /\
  My_Address (dae n') = My_Address (dae n) /\ All_Nodes (dae n') = All_Nodes (dae n) /\ All_Edges (dae n') = All_Edges (dae n) /\
  Neighbor_Nodes (dae n') = Neighbor_Nodes (dae n) /\
  Control_Links (dae n') = (if m =? CONTROL_LINK then match o with Some i => <[l := i]> (Control_Links (dae n)) | None => delete l (Control_Links (dae n)) end else Control_Links (dae n)).
Proof. intros n' links. unfold n', set_leg_link. destruct (m =? CONTROL_LINK); done. Qed.

(** Everything but links, timers and the leg [l] is as before. *)
Record around (l : Z) (n n' : net) : Prop := {
  ar_if : Known_Interfaces n' = Known_Interfaces n; ar_ad : Known_Addresses n' = Known_Addresses n; ar_table : Network_Legs n' = Network_Legs n; ar_made : made n' = made n;
  ar_my : My_Address (dae n') = My_Address (dae n); ar_nb : forall id, nb n' id = nb n id; ar_edge : forall dst, my_edge n' dst = my_edge n dst;
  ar_neighbors : Neighbor_Nodes (dae n') = Neighbor_Nodes (dae n); ar_legs : forall l', l' <> l -> Legs n' !! l' = Legs n !! l';
  ar_control : forall l', l' <> l -> Control_Links (dae n') !! l' = Control_Links (dae n) !! l'; ar_nodes : All_Nodes (dae n') = All_Nodes (dae n) }.

Lemma set_leg_link_around l m o lg n : around l n (set_leg_link l m o lg n).
Proof.
  destruct (set_leg_link_frame l m o lg n) as (E1 & E2 & E3 & E4 & E5 & E6 & E7 & E8 & E9 & E10 & E11 & E12). split; try done.
  - intros id. unfold nb, Get_Node. by rewrite E9.
  - intros dst. unfold my_edge, Get_Edge. by rewrite E8, E10.
  - intros l' Hl. rewrite E7. by rewrite lookup_insert_ne.
  - intros l' Hl. rewrite E12. destruct (m =? CONTROL_LINK); [|done]. destruct o; [by rewrite lookup_insert_ne|by rewrite lookup_delete_ne].
Qed.

Lemma around_trans l a b c : around l a b -> around l b c -> around l a c.
Proof. intros [A1 A2 A3 A4 A5 A6 A7 A8 A9 A10 A11] [B1 B2 B3 B4 B5 B6 B7 B8 B9 B10 B11]. split; try congruence; intros; rewrite ?B6, ?B7, ?B9, ?B10 by done; auto. Qed.

Lemma around_queue l n q : around l n (with_nqueue q n).
Proof. by split. Qed.
Lemma around_links l n m : around l n (with_links m n).
Proof. by split. Qed.

(** The shared part of the proofs that links come and go. *)
Lemma wf_around n n' l lg lg' :
  wf n -> around l n n' -> Legs n !! l = Some lg -> Legs n' !! l = Some lg' ->
  src_iid lg' = src_iid lg -> dst_iid lg' = dst_iid lg -> l_dst lg' = l_dst lg -> l_cost (conn lg') = l_cost (conn lg) -> bucket lg' = bucket lg ->
  (forall m i, l_links lg' !! m = Some i -> exists lk, Links n' !! i = Some lk /\ link_type lk = m /\ lk_leg lk = l) ->
  Control_Links (dae n') !! l = l_links lg' !! CONTROL_LINK ->
  (forall i lk, Links n !! i = Some lk -> lk_leg lk <> l -> Links n' !! i = Some lk) ->
  (forall i lk, Links n' !! i = Some lk -> (lk_leg lk <> l /\ Links n !! i = Some lk) \/
    (lk_leg lk = l /\ 0 <= i < MAX_LINKS /\ 0 <= link_type lk < MAX_LINKS_4_EDGE /\ shape lk /\ l_links lg' !! link_type lk = Some i)) ->
  queue_ok (n_queue n') -> (forall k, waits n' k -> timer_ok n' k) -> wf n'.
Proof.
  intros [W1 W2 W3 W4 W5 W6 W7 W8 W9 W10 W11 W12 W13] [A1 A2 A3 A4 A5 A6 A7 A8 A9 A10 A11] Hl Hl' E1 E2 E3 E4 E5 Hlinks Hctl Hkeep Hback Hq Ht.
  assert (Hany : forall l1 lg1, Legs n !! l1 = Some lg1 -> exists lg2, Legs n' !! l1 = Some lg2 /\ src_iid lg2 = src_iid lg1 /\ dst_iid lg2 = dst_iid lg1 /\ l_dst lg2 = l_dst lg1).
  { intros l1 lg1 H1. destruct (decide (l1 = l)) as [->|Hne]; [assert (lg1 = lg) as -> by congruence; by exists lg'|]. exists lg1. by rewrite A9. }
  split; try done.
  - rewrite A5, A6. exact W2.
  - intros l1 lg1 H1. destruct (decide (l1 = l)) as [->|Hne].
    + assert (lg1 = lg') as -> by congruence. destruct (W3 l lg Hl) as [B1 B2 B3 B4 B5 B6 B7 B8 B9 B10].
      split; rewrite ?E1, ?E2, ?E3, ?E4, ?E5, ?A1, ?A3, ?A4, ?A5, ?A6, ?A7; done.
    + rewrite A9 in H1 by done. destruct (W3 l1 lg1 H1) as [B1 B2 B3 B4 B5 B6 B7 B8 B9 B10].
      split; rewrite ?A1, ?A3, ?A4, ?A5, ?A6, ?A7, ?A10 by done; try done. intros m i Hm. destruct (B8 m i Hm) as (lk & Hk & T1 & T2). exists lk. split; [|done]. apply Hkeep; [done|congruence].
  - intros a b l1. rewrite A3. intros Hab. destruct (W4 a b l1 Hab) as (lg1 & H1 & <- & <-). destruct (Hany l1 lg1 H1) as (lg2 & ? & ? & ? & _). by exists lg2.
  - intros dst c l1. rewrite A7. intros Hd. destruct (W5 dst c l1 Hd) as (lg1 & H1 & <-). destruct (Hany l1 lg1 H1) as (lg2 & ? & _ & _ & ?). by exists lg2.
  - intros i lk Hk. destruct (Hback i lk Hk) as [[Hne Hk0]|(-> & B1 & B2 & B3 & B4)].
    + destruct (W6 i lk Hk0) as (B1 & B2 & B3 & lg1 & H1 & B4). split; [done|]. split; [done|]. split; [done|]. exists lg1. by rewrite A9.
    + split; [done|]. split; [done|]. split; [done|]. by exists lg'.
  - intros id v. rewrite A6, A8. apply W7.
  - intros i id. rewrite A6, A8. intros Hi. destruct (W8 i id Hi) as (B1 & l1 & lg1 & H1 & B2). split; [done|]. destruct (Hany l1 lg1 H1) as (lg2 & ? & _ & _ & ?). exists l1, lg2. split; congruence.
  - by rewrite A8.
  - rewrite A2, A1. done.
  - rewrite A1. done.
  - rewrite A4. split; [apply W13|]. intros l1 H1. destruct (decide (l1 = l)) as [->|Hne]; [congruence|]. rewrite A10 by done. apply W13. by rewrite <- A9.
Qed.
End Tables.
