(* ===== verification/HelloLink.v ===== *)
(** * HelloLink: creating and destroying links, and the cost of a leg

    What [Destroy_Link], [Create_Link] and [Network_Leg_Set_Cost] do to well-formed
    tables. *)
From Stdlib Require Import SpecFloat.
From stdpp Require Import base list gmap numbers option sets.
From Stdlib Require Import ZArith Lia.
From S2P Require Import Prelude CFloat HashMap StdUtil Events NetTypes Route ReliableLink ITFrag Leg LegProps Daemon StateFlood FloodProof FloodTotal Hello HelloProof.
#[local] Open Scope Z_scope.

Section Links.
Context (cfg : net_conf).
#[local] Notation kbps := (Leg_Rate_Limit_kbps cfg).
#[local] Notation wf := (wf cfg).
#[local] Notation timer_ok := (timer_ok cfg).

(** ** Destroying a link *)
Definition drop_timers (lk : Link) (id : Z) (n : net) : net :=
  match r_data lk with
  | None => n
  | Some _ =>
      let n := dequeue HTry_Send id NoArg n in
      if is_control lk then
        dequeue HNet_Send_State_All id (ProtArg GroupsP) (dequeue HNet_Send_State_All id (ProtArg EdgeP)
          (dequeue HHello_Request_Cnt id NoArg (dequeue HHello_Request id NoArg (dequeue HSend_Hello id NoArg n))))
      else n
  end.

(** The timers that mention link [i] as a link. *)
Definition of_link (i : Z) (k : timer) : Prop :=
  match k with
  | (HSend_Hello, c, _) | (HHello_Request, c, _) | (HHello_Request_Cnt, c, _) | (HNet_Send_State_All, c, _) | (HTry_Send, c, _) => c = i
  | _ => False
  end.

Lemma drop_timers_spec lk i n : wf n -> Links n !! i = Some lk ->
  let n1 := drop_timers lk i n in
  wf n1 /\ (exists q, n1 = with_nqueue q n) /\ (forall k, waits n1 k -> waits n k /\ ~ of_link i k) /\ (forall k, waits n k -> ~ of_link i k -> waits n1 k).
Proof.
  intros Hw Hk n1. destruct (wf_links _ _ Hw i lk Hk) as (_ & _ & [Hc Hr] & _). pose proof (wf_timers _ _ Hw) as Ht.
  assert (Hwait : forall k, waits n k -> of_link i k -> is_Some (r_data lk) /\ (k = (HTry_Send, i, NoArg) \/ link_type lk = CONTROL_LINK)).
  { intros k Hwk Ho. specialize (Ht k Hwk). destruct k as [[[] c] a]; cbn in Ho; try done; subst c; cbn in Ht;
      repeat (match goal with H : _ /\ _ |- _ => destruct H | H : exists _, _ |- _ => destruct H | H : control_at _ _ |- _ => destruct H end); simplify_eq;
      (split; [|first [by right|by left]]); try (apply Hr; by left); done. }
  unfold n1, drop_timers. destruct (r_data lk) as [r|] eqn:Er.
  2:{ split; [done|]. split; [exists (n_queue n); by destruct n|]. split; [|done]. intros k Hwk. split; [done|]. intros Ho. by destruct (Hwait k Hwk Ho) as [[] _]. }
  destruct (dequeue_timer HTry_Send i NoArg n (wf_queue _ _ Hw)) as [Q1 K1]. pose proof (wf_dequeued _ HTry_Send i NoArg n Hw) as W1.
  destruct (is_control lk) eqn:Ei.
  2:{ split; [done|]. split; [by eexists|]. split.
      - intros k Hwk%K1. destruct Hwk as [Hwk Hne]. split; [done|]. intros Ho. destruct (Hwait k Hwk Ho) as [_ [->|Hcon]]; [done|]. unfold is_control in Ei. rewrite Hcon in Ei. done.
      - intros k Hwk Ho. apply K1. split; [done|]. intros ->. by apply Ho. }
  set (n2 := dequeue HTry_Send i NoArg n) in *.
  destruct (dequeue_timer HSend_Hello i NoArg n2 Q1) as [Q2 K2]. pose proof (wf_dequeued _ HSend_Hello i NoArg n2 W1) as W2. set (n3 := dequeue HSend_Hello i NoArg n2) in *.
  destruct (dequeue_timer HHello_Request i NoArg n3 Q2) as [Q3 K3]. pose proof (wf_dequeued _ HHello_Request i NoArg n3 W2) as W3. set (n4 := dequeue HHello_Request i NoArg n3) in *.
  destruct (dequeue_timer HHello_Request_Cnt i NoArg n4 Q3) as [Q4 K4]. pose proof (wf_dequeued _ HHello_Request_Cnt i NoArg n4 W3) as W4. set (n5 := dequeue HHello_Request_Cnt i NoArg n4) in *.
  destruct (dequeue_timer HNet_Send_State_All i (ProtArg EdgeP) n5 Q4) as [Q5 K5]. pose proof (wf_dequeued _ HNet_Send_State_All i (ProtArg EdgeP) n5 W4) as W5. set (n6 := dequeue HNet_Send_State_All i (ProtArg EdgeP) n5) in *.
  destruct (dequeue_timer HNet_Send_State_All i (ProtArg GroupsP) n6 Q5) as [Q6 K6]. pose proof (wf_dequeued _ HNet_Send_State_All i (ProtArg GroupsP) n6 W5) as W6.
  split; [done|]. split; [by eexists|]. split.
  - intros k Hwk. apply K6 in Hwk as [Hwk N6]. apply K5 in Hwk as [Hwk N5]. apply K4 in Hwk as [Hwk N4]. apply K3 in Hwk as [Hwk N3]. apply K2 in Hwk as [Hwk N2]. apply K1 in Hwk as [Hwk N1].
    split; [done|]. intros Ho. specialize (Ht k Hwk). destruct k as [[[] c] a]; cbn in Ho; try done; subst c; cbn in Ht; destruct Ht as [Ha _]; try (by subst a).
    destruct Ha as [[] ->]; done.
  - intros k Hwk Ho. apply K6. split; [|by intros ->; apply Ho]. apply K5. split; [|by intros ->; apply Ho]. apply K4. split; [|by intros ->; apply Ho].
    apply K3. split; [|by intros ->; apply Ho]. apply K2. split; [|by intros ->; apply Ho]. apply K1. split; [done|by intros ->; apply Ho].
Qed.

Lemma of_link_timer n n' i k : ~ of_link i k -> (forall c lk, c <> i -> Links n !! c = Some lk -> Links n' !! c = Some lk) ->
  (forall l, is_Some (Legs n !! l) -> is_Some (Legs n' !! l)) -> timer_ok n k -> timer_ok n' k.
Proof.
  intros Ho Hk Hl. assert (Hc : forall c, c <> i -> control_at n c -> control_at n' c) by (intros c Hc (lk & H1 & H2); exists lk; split; [by apply Hk|done]).
  destruct k as [[[] c] a]; cbn in *; try tauto; try (intros [? ?]; split; [done|by apply Hc]).
  - intros [? (lk & H1 & H2)]. split; [done|]. exists lk. split; [by apply Hk|done].
  - intros [? (l & -> & H)]. split; [done|]. exists l. split; [done|by apply Hl].
Qed.

Lemma destroy_ok n l lg m i : wf n -> Legs n !! l = Some lg -> l_links lg !! m = Some i -> m <> INTRUSION_TOL_LINK ->
  exists n', Destroy_Link i n = Ret n' /\ wf n' /\ around l n n' /\
    Legs n' = <[l := mk_leg (src_iid lg) (dst_iid lg) (l_dst lg) (delete m (l_links lg)) (conn lg) (bucket lg)]> (Legs n) /\ Links n' = delete i (Links n) /\
    (forall k, waits n' k -> waits n k) /\ (forall k, waits n k -> ~ of_link i k -> waits n' k).
Proof.
  intros Hw Hl Hm Hit. destruct (wf_legs _ _ Hw l lg Hl) as [_ _ _ _ _ _ _ Hlinks Hctl _]. destruct (Hlinks m i Hm) as (lk & Hk & Ht & Hlk).
  unfold Destroy_Link. rewrite Hk. cbn [or_else mbind outcome_bind]. rewrite (proj2 (Z.eqb_neq _ _)) by congruence. rewrite Hlk, Hl. cbn [or_else mbind outcome_bind].
  fold (drop_timers lk i n). destruct (drop_timers_spec lk i n Hw Hk) as (Hw1 & (q & Hq) & Hback & Hfwd). set (n1 := drop_timers lk i n) in *. rewrite Ht.
  set (n2 := set_leg_link l m None lg n1). destruct (set_leg_link_frame l m None lg n1) as (E1 & E2 & E3 & E4 & E5 & E6 & E7 & E8 & E9 & E10 & E11 & E12). fold n2 in E1, E2, E3, E4, E5, E6, E7, E8, E9, E10, E11, E12.
  assert (Hleg1 : Legs n1 = Legs n) by (by rewrite Hq). assert (Hlk1 : Links n1 = Links n) by (by rewrite Hq).
  eexists. split; [reflexivity|]. set (n3 := with_links _ n2). assert (Har : around l n1 n3) by (eapply around_trans; [apply set_leg_link_around|apply around_links]).
  assert (Hlegs3 : Legs n3 = <[l := mk_leg (src_iid lg) (dst_iid lg) (l_dst lg) (delete m (l_links lg)) (conn lg) (bucket lg)]> (Legs n)) by (change (Legs n3) with (Legs n2); by rewrite E7, Hleg1).
  assert (Hlks3 : Links n3 = delete i (Links n)) by (change (Links n3) with (delete i (Links n2)); by rewrite E4, Hlk1).
  assert (Hwt : forall k, waits n3 k <-> waits n1 k) by (intros k; unfold waits; change (n_queue n3) with (n_queue n2); by rewrite E5).
  split; [|split; [|split; [done|split; [done|split]]]].
  - apply (wf_around cfg n1 n3 l lg (mk_leg (src_iid lg) (dst_iid lg) (l_dst lg) (delete m (l_links lg)) (conn lg) (bucket lg))); try done; [by rewrite Hleg1|by rewrite Hlegs3, lookup_insert_eq|..].
    + cbn [l_links]. intros m' i' Hm'. apply lookup_delete_Some in Hm' as [Hne Hm']. destruct (Hlinks m' i' Hm') as (lk' & Hk' & T1 & T2). exists lk'. split; [|done].
      rewrite Hlks3. apply lookup_delete_Some. split; [|done]. intros ->. rewrite Hk in Hk'. congruence.
    + cbn [l_links]. change (Control_Links (dae n3)) with (Control_Links (dae n2)). rewrite E12. assert (Hc1 : Control_Links (dae n1) = Control_Links (dae n)) by (by rewrite Hq).
      destruct (Z.eqb_spec m CONTROL_LINK) as [->|Hne]; [by rewrite !lookup_delete_eq|]. rewrite lookup_delete_ne by done. by rewrite Hc1.
    + intros i' lk' Hk' Hne. rewrite Hlk1 in Hk'. rewrite Hlks3. apply lookup_delete_Some. split; [|done]. intros ->. rewrite Hk in Hk'. congruence.
    + intros i' lk' Hk'. rewrite Hlks3 in Hk'. apply lookup_delete_Some in Hk' as [Hne Hk']. destruct (decide (lk_leg lk' = l)) as [He|]; [right|left; by rewrite Hlk1].
      destruct (wf_links _ _ Hw i' lk' Hk') as (B1 & B2 & B3 & lg' & Hl' & B4). split; [done|]. split; [done|]. split; [done|]. split; [done|].
      cbn [l_links]. rewrite He, Hl in Hl'. injection Hl' as <-. apply lookup_delete_Some. split; [|done]. intros Heq. rewrite <- Heq in B4. congruence.
    + change (n_queue n3) with (n_queue n2). rewrite E5. apply (wf_queue _ _ Hw1).
    + intros k Hwk%Hwt. destruct (Hback k Hwk) as [_ Hno]. eapply (of_link_timer n1); [exact Hno| | |by apply (wf_timers _ _ Hw1)].
      * intros c lk' Hc Hk'. rewrite Hlk1 in Hk'. rewrite Hlks3. by apply lookup_delete_Some.
      * intros l' Hl'. rewrite Hleg1 in Hl'. rewrite Hlegs3. apply lookup_insert_is_Some'. by right.
  - destruct Har as [A1 A2 A3 A4 A5 A6 A7 A8 A9 A10 A11]. rewrite Hq in A1, A2, A3, A4, A5, A6, A7, A8, A9, A10, A11. by split.
  - intros k Hwk%Hwt. by apply Hback.
  - intros k Hwk Ho. apply Hwt. by apply Hfwd.
Qed.

(** ** There is always a free place *)
Lemma injection_bound {A} (f : A -> Z) (l : list A) m : 0 <= m -> NoDup l -> (forall x, x ∈ l -> 0 <= f x < m) -> (forall x y, x ∈ l -> y ∈ l -> f x = f y -> x = y) -> Z.of_nat (length l) <= m.
Proof.
  intros Hm Hnd Hr Hinj. assert (Hnd' : NoDup (f <$> l)).
  { clear Hr. induction Hnd as [|x l Hx Hnd IH]; [constructor|]. cbn. constructor.
    - intros Hin. apply list_elem_of_fmap in Hin as (y & Hf & Hy). assert (x = y) as -> by (apply Hinj; [by left|by right|done]). done.
    - apply IH. intros y z Hy Hz. apply Hinj; by right. }
  assert (Hsub : (f <$> l) ⊆+ seqZ 0 m).
  { apply NoDup_submseteq; [done|]. intros z Hz. apply list_elem_of_fmap in Hz as (y & -> & Hy). apply elem_of_seqZ. specialize (Hr y Hy). lia. }
  apply submseteq_length in Hsub. rewrite length_fmap, length_seqZ in Hsub. lia.
Qed.

Lemma first_free_ok n l lg m : wf n -> made n <= MAX_NEIGHBORS -> Legs n !! l = Some lg -> 0 <= m < MAX_LINKS_4_EDGE -> l_links lg !! m = None ->
  exists i, first_free (Links n) = Some i /\ 0 <= i < MAX_LINKS /\ Links n !! i = None.
Proof.
  intros Hw Hmade Hl Hm Hnone. unfold first_free. destruct (list_find _ (seqZ 0 MAX_LINKS)) as [[k i]|] eqn:E.
  { apply list_find_Some in E as (Hk & Hfree & _). exists i. split; [done|]. split; [|done]. apply list_elem_of_lookup_2, elem_of_seqZ in Hk. lia. }
  exfalso. apply list_find_None in E. rewrite Forall_forall in E.
  set (f := fun i => match Links n !! i with Some lk => lk_leg lk * MAX_LINKS_4_EDGE + link_type lk | None => l * MAX_LINKS_4_EDGE + m end).
  assert (Hall : forall i, i ∈ seqZ 0 MAX_LINKS -> exists lk lg', Links n !! i = Some lk /\ Legs n !! lk_leg lk = Some lg' /\ l_links lg' !! link_type lk = Some i /\ 0 <= lk_leg lk < made n /\ 0 <= link_type lk < MAX_LINKS_4_EDGE).
  { intros i Hi. destruct (Links n !! i) as [lk|] eqn:Hk; [|by specialize (E i Hi Hk)]. destruct (wf_links _ _ Hw i lk Hk) as (_ & B & _ & lg' & Hl' & Hi'). exists lk, lg'. pose proof (lw_number _ _ _ _ (wf_legs _ _ Hw _ lg' Hl')). split_and!; try done; lia. }
  destruct (wf_legs _ _ Hw l lg Hl) as [Hnum _ _ _ _ _ _ _ _ _].
  pose proof (injection_bound f ((-1) :: seqZ 0 MAX_LINKS) MAX_LINKS) as Hb. cbn [length] in Hb. rewrite length_seqZ in Hb. unfold MAX_LINKS, MAX_NEIGHBORS, MAX_LINKS_4_EDGE in *.
  assert (Hneg : Links n !! (-1) = None). { destruct (Links n !! (-1)) as [lk|] eqn:Hk; [|done]. destruct (wf_links _ _ Hw _ lk Hk) as ((B & _) & _). lia. }
  apply Z.lt_irrefl with (256 * 7). eapply Z.lt_le_trans; [|apply Hb]; [lia|lia| | |].
  - constructor; [rewrite elem_of_seqZ; lia|apply NoDup_seqZ].
  - intros x Hx. apply elem_of_cons in Hx as [->|Hx]; unfold f; [rewrite Hneg; lia|]. destruct (Hall x Hx) as (lk & _ & -> & _ & _ & ? & ?). lia.
  - assert (Hmix : forall i, i ∈ seqZ 0 (256 * 7) -> f i <> l * 7 + m).
    { intros i Hi. unfold f. destruct (Hall i Hi) as (lk & lg' & -> & Hl' & Hi' & ? & ?). intros Heq. assert (lk_leg lk = l) as Hll by lia. assert (link_type lk = m) as Htt by lia. rewrite Hll, Hl in Hl'. injection Hl' as <-. congruence. }
    assert (Hfn : f (-1) = l * 7 + m) by (unfold f; by rewrite Hneg).
    intros x y Hx Hy. apply elem_of_cons in Hx as [->|Hx]; apply elem_of_cons in Hy as [->|Hy]; try done.
    + rewrite Hfn. intros Heq. by destruct (Hmix y Hy).
    + rewrite Hfn. intros Heq. by destruct (Hmix x Hx).
    + unfold f. destruct (Hall x Hx) as (lk & lg1 & -> & Hl1 & Hi1 & ? & ?), (Hall y Hy) as (lk' & lg2 & -> & Hl2 & Hi2 & ? & ?). intros Heq.
      assert (lk_leg lk = lk_leg lk') as E1 by lia. assert (link_type lk = link_type lk') as E2 by lia. rewrite E1, Hl2 in Hl1. injection Hl1 as <-. rewrite E2 in Hi1. congruence.
Qed.

Lemma neighbors_fit n l lg : wf n -> made n <= MAX_NEIGHBORS -> Legs n !! l = Some lg -> nb n (l_dst lg) = Some (-1) -> (first_neighbor (Neighbor_Nodes (dae n)) < 256)%nat.
Proof.
  intros Hw Hmade Hl Hnb. destruct (first_neighbor_spec (Neighbor_Nodes (dae n))) as (Hle & _ & Hbelow). set (k := first_neighbor _) in *.
  destruct (decide (k < 256)%nat) as [|Hge]; [done|]. exfalso. pose proof (wf_length _ _ Hw). assert (Hk : k = 256%nat) by lia.
  assert (Hall : forall j, (j < 256)%nat -> exists id l' lg', Neighbor_Nodes (dae n) !! j = Some (Some id) /\ nb n id = Some (Z.of_nat j) /\ Legs n !! l' = Some lg' /\ l_dst lg' = id).
  { intros j Hj. destruct (lookup_lt_is_Some_2 (Neighbor_Nodes (dae n)) j ltac:(lia)) as [[id|] Hx]; [|by destruct (Hbelow j None Hx ltac:(lia))].
    destruct (wf_neighbors _ _ Hw j id Hx) as (B1 & l' & lg' & Hl' & B2). by exists id, l', lg'. }
  set (g := fun j : nat => match Neighbor_Nodes (dae n) !! j ≫= id with Some d => match snd <$> my_edge n d with Some (Some l') => l' | _ => 0 end | None => l end).
  assert (Hg : forall j id l' lg', Neighbor_Nodes (dae n) !! j = Some (Some id) -> Legs n !! l' = Some lg' -> l_dst lg' = id -> g j = l').
  { intros j id l' lg' H1 H2 H3. unfold g. rewrite H1. cbn. rewrite <- H3, (lw_edge _ _ _ _ (wf_legs _ _ Hw l' lg' H2)). done. }
  assert (Hg' : g 256%nat = l) by (unfold g; rewrite lookup_ge_None_2 by lia; done).
  pose proof (injection_bound g (seq 0 257) (made n)) as Hb. rewrite length_seq in Hb. unfold MAX_NEIGHBORS in Hmade. enough (Z.of_nat 257 <= made n) by lia. apply Hb.
  - pose proof (lw_number _ _ _ _ (wf_legs _ _ Hw l lg Hl)). lia.
  - apply NoDup_seq.
  - intros j Hj. apply elem_of_seq in Hj. destruct (decide (j = 256)%nat) as [->|]; [rewrite Hg'; exact (lw_number _ _ _ _ (wf_legs _ _ Hw l lg Hl))|].
    destruct (Hall j ltac:(lia)) as (d & l' & lg' & H1 & H2 & H3 & H4). rewrite (Hg j d l' lg' H1 H3 H4). exact (lw_number _ _ _ _ (wf_legs _ _ Hw l' lg' H3)).
  - assert (Hnot : forall j, (j < 256)%nat -> g j <> l).
    { intros j Hj. destruct (Hall j Hj) as (d & l' & lg' & H1 & H2 & H3 & H4). rewrite (Hg j d l' lg' H1 H3 H4). intros ->. rewrite Hl in H3. injection H3 as <-. rewrite H4, H2 in Hnb. injection Hnb. lia. }
    intros i j Hi Hj Heq. apply elem_of_seq in Hi, Hj. destruct (decide (i = 256)%nat) as [->|], (decide (j = 256)%nat) as [->|]; try done.
    + destruct (Hnot j ltac:(lia)). congruence.
    + destruct (Hnot i ltac:(lia)). congruence.
    + destruct (Hall i ltac:(lia)) as (d & l' & lg' & H1 & H2 & H3 & H4), (Hall j ltac:(lia)) as (d2 & l2 & lg2 & G1 & G2 & G3 & G4).
      rewrite (Hg i d l' lg' H1 H3 H4), (Hg j d2 l2 lg2 G1 G3 G4) in Heq. subst l2. rewrite H3 in G3. injection G3 as <-. rewrite H4 in G4. subst d2. rewrite H2 in G2. injection G2. lia.
Qed.
End Links.
