(* ===== verification/HelloMake.v ===== *)
(** * HelloMake: links appear, neighbours get numbers, costs change

    The well-formedness of the tables under [Create_Link], [ensure_neighbor] and
    [Network_Leg_Set_Cost], and the part of the state that each of them leaves
    alone. *)
From Stdlib Require Import SpecFloat.
From stdpp Require Import base list gmap numbers option sets.
From Stdlib Require Import ZArith Lia.
From S2P Require Import Prelude CFloat HashMap StdUtil Events NetTypes Route ReliableLink ITFrag Leg LegProps Daemon StateFlood FloodProof FloodTotal Hello HelloProof HelloLink.
#[local] Open Scope Z_scope.

(** ** What other legs see of a change of leg [l] to [id] *)
Definition node_view (d : daemon) (x : Z) : option (Z * bool) := (fun nd => (nid nd, n_edge nd)) <$> Get_Node d x.
Definition node_keep (d d' : daemon) : Prop := forall x, node_view d' x = node_view d x.

Record beside (l id : Z) (n n' : net) : Prop := {
  bs_legs : forall l', l' <> l -> Legs n' !! l' = Legs n !! l'; bs_nb : forall x, x <> id -> nb n' x = nb n x;
  bs_edge : forall x, x <> id -> my_edge n' x = my_edge n x;
  bs_my : My_Address (dae n') = My_Address (dae n); bs_made : made n' = made n; bs_nodes : node_keep (dae n) (dae n') }.

#[export] Instance node_keep_refl : Reflexive node_keep.
Proof. done. Qed.
#[export] Instance node_keep_trans : Transitive node_keep.
Proof. intros a b c H1 H2 x. by rewrite H2. Qed.
#[export] Instance beside_refl l id : Reflexive (beside l id).
Proof. by split. Qed.
#[export] Instance beside_trans l id : Transitive (beside l id).
Proof. intros a b c [A1 A2 A3 A4 A5 A6] [B1 B2 B3 B4 B5 B6]. split; [intros; rewrite B1 by done; auto|intros; rewrite B2 by done; auto|intros; rewrite B3 by done; auto|congruence|congruence|by etrans]. Qed.

Lemma keep_nodes d d' : All_Nodes d' = All_Nodes d -> node_keep d d'.
Proof. intros H x. unfold node_view, Get_Node. by rewrite H. Qed.

Lemma set_neighbor_keep id v d : node_keep d (set_neighbor_id id v d).
Proof.
  intros x. unfold node_view, Get_Node, set_neighbor_id, with_nodes. cbn. destruct (decide (x = id)) as [->|]; [rewrite lookup_alter_eq|by rewrite lookup_alter_ne].
  by destruct (All_Nodes d !! id).
Qed.

(** The timers of hellos: every control link but [x] has one. *)
Definition hello_ok (x : option Z) (n : net) : Prop := forall i, control_at n i -> x <> Some i -> waits n (HSend_Hello, i, NoArg).

Section Make.
Context (cfg : net_conf).
#[local] Notation kbps := (Leg_Rate_Limit_kbps cfg).
#[local] Notation wf := (wf cfg).
#[local] Notation timer_ok := (timer_ok cfg).

(** ** A link appears *)
Lemma attach_ok n n' l lg lg' mode id lk :
  wf n -> around l n n' -> Legs n !! l = Some lg -> Legs n' !! l = Some lg' -> Links n' = <[id := lk]> (Links n) -> n_queue n' = n_queue n ->
  src_iid lg' = src_iid lg -> dst_iid lg' = dst_iid lg -> l_dst lg' = l_dst lg -> l_cost (conn lg') = l_cost (conn lg) -> bucket lg' = bucket lg ->
  l_links lg' = <[mode := id]> (l_links lg) -> l_links lg !! mode = None -> Links n !! id = None -> 0 <= id < MAX_LINKS -> 0 <= mode < MAX_LINKS_4_EDGE ->
  Control_Links (dae n') !! l = l_links lg' !! CONTROL_LINK -> link_type lk = mode -> lk_leg lk = l -> shape lk -> wf n'.
Proof.
  intros Hw Har Hl Hl' Hk Hq E1 E2 E3 E4 E5 E6 Hnone Hfree Hid Hm Hc T1 T2 Hs. destruct (wf_legs _ _ Hw l lg Hl) as [_ _ _ _ _ _ _ Hlinks _ _].
  assert (Hmono : forall i lk0, Links n !! i = Some lk0 -> Links n' !! i = Some lk0) by (intros i lk0 Hi; rewrite Hk, lookup_insert_ne; [done|congruence]).
  eapply (wf_around cfg n n' l lg lg'); try done.
  - intros m i. rewrite E6. intros [[<- <-]|[Hne Hi]]%lookup_insert_Some; [exists lk; by rewrite Hk, lookup_insert_eq|].
    destruct (Hlinks m i Hi) as (lk0 & H0 & H1 & H2). exists lk0. split; [by apply Hmono|done].
  - intros i lk0 Hi _. by apply Hmono.
  - intros i lk0. rewrite Hk. intros [[<- <-]|[Hne Hi]]%lookup_insert_Some.
    { right. rewrite E6, T1, lookup_insert_eq. done. }
    destruct (decide (lk_leg lk0 = l)) as [He|]; [right|by left]. destruct (wf_links _ _ Hw i lk0 Hi) as (B1 & B2 & B3 & lg0 & H0 & B4). rewrite He, Hl in H0. injection H0 as <-.
    split_and!; try done; try lia. rewrite E6, lookup_insert_ne; [done|congruence].
  - rewrite Hq. apply (wf_queue _ _ Hw).
  - intros k. unfold waits. rewrite Hq. intros Hwk. pose proof (wf_timers _ _ Hw k Hwk) as Ht.
    assert (Hca : forall i, control_at n i -> control_at n' i) by (intros i (lk0 & H0 & H1); exists lk0; split; [by apply Hmono|done]).
    destruct k as [[[] i] a]; cbn in *; try tauto; try (destruct Ht; split; [done|by apply Hca]).
    + destruct Ht as [-> (lk0 & H0 & H1)]. split; [done|]. exists lk0. split; [by apply Hmono|done].
    + destruct Ht as [? (l0 & -> & lg0 & H0)]. split; [done|]. exists l0. split; [done|]. destruct (decide (l0 = l)) as [->|]; [by exists lg'|exists lg0; by rewrite (ar_legs _ _ _ Har)].
Qed.

(** ** Neighbours *)
Lemma nb_set id v d x : neighbor_id <$> Get_Node (set_neighbor_id id v d) x = (if decide (x = id) then (fun _ => v) <$> Get_Node d x else neighbor_id <$> Get_Node d x).
Proof.
  unfold Get_Node, set_neighbor_id, with_nodes. cbn. destruct (decide (x = id)) as [->|]; [rewrite lookup_alter_eq|by rewrite lookup_alter_ne].
  by destruct (All_Nodes d !! id).
Qed.

(** Only the numbers of the neighbours change. *)
Lemma wf_renumber n d : wf n -> My_Address d = My_Address (dae n) -> All_Edges d = All_Edges (dae n) -> Control_Links d = Control_Links (dae n) ->
  (forall x, is_Some (nb n x) -> is_Some (neighbor_id <$> Get_Node d x)) ->
  (forall x v, neighbor_id <$> Get_Node d x = Some v -> v <> -1 -> 0 <= v /\ Neighbor_Nodes d !! Z.to_nat v = Some (Some x)) ->
  (forall i x, Neighbor_Nodes d !! i = Some (Some x) -> neighbor_id <$> Get_Node d x = Some (Z.of_nat i) /\ exists l lg, Legs n !! l = Some lg /\ l_dst lg = x) ->
  (length (Neighbor_Nodes d) <= 256)%nat -> wf (with_dae d n).
Proof.
  intros [W1 W2 W3 W4 W5 W6 W7 W8 W9 W10 W11 W12 W13] E1 E2 E3 Hnb H1 H2 H3.
  assert (He : forall x, my_edge (with_dae d n) x = my_edge n x) by (intros x; unfold my_edge, Get_Edge; cbn; by rewrite E1, E2).
  split; try done.
  - cbn. rewrite E1. by apply Hnb.
  - intros l lg Hl. destruct (W3 l lg Hl) as [A1 A2 A3 A4 A5 A6 A7 A8 A9 A10]. split; rewrite ?He; cbn; rewrite ?E1, ?E3; try done. by apply Hnb.
  - intros dst c l. rewrite He. apply W5.
  - cbn [made with_dae dae Legs]. by rewrite E3.
Qed.

Lemma ensure_neighbor_ok n l lg : wf n -> made n <= MAX_NEIGHBORS -> Legs n !! l = Some lg ->
  exists d, ensure_neighbor (l_dst lg) (dae n) = Ret d /\ wf (with_dae d n) /\ beside l (l_dst lg) n (with_dae d n) /\
    (exists v, nb (with_dae d n) (l_dst lg) = Some v /\ v <> -1) /\ Control_Links d = Control_Links (dae n) /\ (forall x, my_edge (with_dae d n) x = my_edge n x).
Proof.
  intros Hw Hmade Hl. unfold ensure_neighbor. destruct (wf_legs _ _ Hw l lg Hl) as [_ _ _ _ _ _ [v Hv] _ _ _]. pose proof Hv as Hv0. unfold nb in Hv. destruct (Get_Node (dae n) (l_dst lg)) as [nd|] eqn:En; [|done].
  cbn in Hv. injection Hv as Hv. cbn [or_else mbind outcome_bind]. destruct (Z.eqb_spec (neighbor_id nd) (-1)) as [Hneg|Hpos].
  2:{ exists (dae n). assert (Heq : with_dae (dae n) n = n) by (by destruct n). rewrite Heq. split; [done|]. split; [done|]. split; [reflexivity|]. split; [|done]. exists v. split; [done|congruence]. }
  pose proof (neighbors_fit cfg n l lg Hw Hmade Hl ltac:(congruence)) as Hfit. destruct (first_neighbor_spec (Neighbor_Nodes (dae n))) as (F1 & F2 & F3).
  set (k := first_neighbor (Neighbor_Nodes (dae n))) in *. rewrite (proj2 (Z.eqb_neq _ _)) by (unfold MAX_NEIGHBORS; lia).
  set (new := if bool_decide (k = length (Neighbor_Nodes (dae n))) then Neighbor_Nodes (dae n) ++ [Some (l_dst lg)] else <[k := Some (l_dst lg)]> (Neighbor_Nodes (dae n))).
  assert (Hnew : forall i x, new !! i = Some (Some x) <-> (i = k /\ x = l_dst lg) \/ Neighbor_Nodes (dae n) !! i = Some (Some x)).
  { intros i x. unfold new. case_bool_decide as Hk.
    - destruct (decide (i < k)%nat) as [Hi|Hi]; [rewrite lookup_app_l by lia; split; [by right|by intros [[-> _]|]; [lia|]]|].
      rewrite lookup_app_r by lia. rewrite (lookup_ge_None_2 (Neighbor_Nodes (dae n)) i) by lia. destruct (i - length (Neighbor_Nodes (dae n)))%nat eqn:Ei; cbn.
      + split; [intros [= <-]; left; split; [lia|done]|intros [[_ ->]|?]; done].
      + split; [by destruct n0|intros [[-> _]|?]; [lia|done]].
    - destruct (decide (i = k)) as [->|Hi]; [rewrite list_lookup_insert_eq by lia; rewrite F2 by lia; split; [intros [= <-]; by left|intros [[_ ->]|?]; done]|].
      rewrite list_lookup_insert_ne by done. split; [by right|intros [[-> _]|?]; done]. }
  eexists. split; [reflexivity|]. set (d := with_neighbors new _).
  assert (Hd : forall x, neighbor_id <$> Get_Node d x = if decide (x = l_dst lg) then Some (Z.of_nat k) else nb n x).
  { intros x. change (Get_Node d x) with (Get_Node (set_neighbor_id (l_dst lg) (Z.of_nat k) (dae n)) x). rewrite nb_set. destruct (decide _) as [->|]; [by rewrite En|done]. }
  assert (Hfresh : forall i, Neighbor_Nodes (dae n) !! i <> Some (Some (l_dst lg))) by (intros i Hi; destruct (wf_neighbors _ _ Hw i _ Hi) as [Hbad _]; rewrite Hv0 in Hbad; injection Hbad; lia).
  split.
  { apply wf_renumber; try done.
    - intros x. rewrite Hd. destruct (decide _) as [->|]; [|done]. eauto.
    - intros x w. rewrite Hd. cbn [Neighbor_Nodes d with_neighbors]. rewrite Hnew. destruct (decide _) as [->|Hne].
      + intros [= <-] _. split; [lia|]. left. rewrite Nat2Z.id. done.
      + intros Hx Hw1. destruct (wf_nodes _ _ Hw x w Hx Hw1) as [? ?]. split; [done|by right].
    - intros i x. cbn [Neighbor_Nodes d with_neighbors]. rewrite Hnew, Hd. intros [[-> ->]|Hi]; [rewrite decide_True by done; split; [done|by exists l, lg]|].
      destruct (decide _) as [->|Hne]; [by destruct (Hfresh i)|]. by apply (wf_neighbors _ _ Hw).
    - cbn [Neighbor_Nodes d with_neighbors]. pose proof (wf_length _ _ Hw). unfold new. case_bool_decide; rewrite ?length_app, ?length_insert; cbn; lia. }
  split; [split; try done; [intros x Hx; unfold nb at 1; cbn [dae with_dae]; by rewrite Hd, decide_False by done|apply (set_neighbor_keep (l_dst lg) (Z.of_nat k))]|].
  split; [|done]. exists (Z.of_nat k). split; [unfold nb; cbn [dae with_dae]; by rewrite Hd, decide_True by done|lia].
Qed.

(** ** Create_Link *)
Lemma around_beside l id n n' : around l n n' -> beside l id n n'.
Proof. intros [A1 A2 A3 A4 A5 A6 A7 A8 A9 A10 A11]. split; auto. by apply keep_nodes. Qed.

Lemma made_local n l lg : wf n -> Legs n !! l = Some lg -> exists loc, Known_Interfaces n !! src_iid lg = Some loc /\ (owner loc =? My_Address (dae n)) = true.
Proof. intros Hw Hl. destruct (lw_local _ _ _ _ (wf_legs _ _ Hw l lg Hl)) as (loc & H1 & H2). exists loc. split; [done|by apply Z.eqb_eq]. Qed.

Lemma create_data_ok e n l lg mode : wf n -> made n <= MAX_NEIGHBORS -> Legs n !! l = Some lg -> l_links lg !! mode = None -> 0 <= mode < MAX_LINKS_4_EDGE -> mode <> CONTROL_LINK ->
  is_Some (l_links lg !! CONTROL_LINK) -> status (conn lg) = CONNECTED_LEG -> l_cost (conn lg) <> -1 -> (mode = INTRUSION_TOL_LINK -> Config_File_Found cfg = true) ->
  exists i n', Create_Link cfg e l mode n = Ret (i, n') /\ wf n' /\ beside l (l_dst lg) n n' /\ Links n !! i = None /\
    Links n' = <[i := mk_lk mode l (if mode =? RELIABLE_UDP_LINK then Some (UNAVAILABLE_LINK, F32.of_Z 0) else None) None]> (Links n) /\
    Legs n' !! l = Some (mk_leg (src_iid lg) (dst_iid lg) (l_dst lg) (<[mode := i]> (l_links lg)) (conn lg) (bucket lg)) /\
    n_queue n' = n_queue n /\ nb n' (l_dst lg) = nb n (l_dst lg) /\ (forall x, my_edge n' x = my_edge n x) /\ Known_Interfaces n' = Known_Interfaces n.
Proof.
  intros Hw Hmade Hl Hnone Hm Hc [ctl Hctl] Hst Hcost Hit. destruct (made_local n l lg Hw Hl) as (loc & Hloc & Hown). unfold Create_Link.
  rewrite Hl. cbn [or_else mbind outcome_bind]. rewrite Hloc. cbn [or_else mbind outcome_bind]. rewrite Hown, Hnone. cbn [negb].
  rewrite (proj2 (Z.eqb_neq mode _)) by done. cbn [negb andb orb]. rewrite bool_decide_eq_false_2 by congruence. rewrite bool_decide_eq_true_2 by done. rewrite (proj2 (Z.eqb_neq _ _) Hcost). cbn [negb orb].
  assert (Hcfg : (mode =? INTRUSION_TOL_LINK) && negb (Config_File_Found cfg) = false).
  { destruct (Z.eqb_spec mode INTRUSION_TOL_LINK) as [He|]; [by rewrite (Hit He)|done]. }
  rewrite Hcfg. destruct (first_free_ok cfg n l lg mode Hw Hmade Hl Hm Hnone) as (i & Hi & Hr & Hfree). rewrite Hi. cbn [or_else mbind outcome_bind].
  set (lk := mk_lk mode l _ None). eexists i, _. split; [reflexivity|]. set (n' := set_leg_link _ _ _ _ _).
  destruct (set_leg_link_frame l mode (Some i) lg (set_link i lk n)) as (E1 & E2 & E3 & E4 & E5 & E6 & E7 & E8 & E9 & E10 & E11 & E12). fold n' in E1, E2, E3, E4, E5, E6, E7, E8, E9, E10, E11, E12.
  assert (Har : around l n n') by (eapply around_trans; [apply (around_links l n)|apply set_leg_link_around]).
  assert (Hleg : Legs n' !! l = Some (mk_leg (src_iid lg) (dst_iid lg) (l_dst lg) (<[mode := i]> (l_links lg)) (conn lg) (bucket lg))) by (by rewrite E7, lookup_insert_eq).
  split; [|split; [|split; [done|split; [by rewrite E4|split; [done|split; [by rewrite E5|split; [apply (ar_nb _ _ _ Har)|split; [apply (ar_edge _ _ _ Har)|by rewrite E1]]]]]]]].
  - eapply (attach_ok n n' l lg _ mode i lk); try done.
    + rewrite E12, (proj2 (Z.eqb_neq mode _)) by done. cbn [l_links]. rewrite lookup_insert_ne by done. apply (lw_control _ _ _ _ (wf_legs _ _ Hw l lg Hl)).
    + unfold shape, lk. cbn. split; split; try done; try (by intros []). { by destruct (Z.eqb_spec mode RELIABLE_UDP_LINK); [right|intros []]. } intros [| ->]; [done|]. by eexists.
  - by apply around_beside.
Qed.

Definition fresh_conn (e : net_env) (c : leg_conn) : leg_conn := mk_conn NOT_YET_CONNECTED_LEG (-1) (rand_id e) 0 0 (last_recv_hello c) 0 (last_connected c).

Lemma create_control_ok e n l lg : wf n -> made n <= MAX_NEIGHBORS -> Legs n !! l = Some lg -> l_links lg !! CONTROL_LINK = None -> status (conn lg) = DISCONNECTED_LEG -> l_cost (conn lg) = -1 ->
  exists i n', Create_Link cfg e l CONTROL_LINK n = Ret (i, n') /\ wf n' /\ beside l (l_dst lg) n n' /\ Links n !! i = None /\
    Links n' = <[i := mk_lk CONTROL_LINK l (Some (UNAVAILABLE_LINK, F32.of_Z 0)) (Some new_cdata)]> (Links n) /\
    Legs n' !! l = Some (mk_leg (src_iid lg) (dst_iid lg) (l_dst lg) (<[CONTROL_LINK := i]> (l_links lg)) (fresh_conn e (conn lg)) (bucket lg)) /\
    (forall k, waits n' k <-> k = (HSend_Hello, i, NoArg) \/ waits n k) /\ (exists v, nb n' (l_dst lg) = Some v /\ v <> -1) /\ (forall x, my_edge n' x = my_edge n x).
Proof.
  intros Hw Hmade Hl Hnone Hst Hcost. destruct (made_local n l lg Hw Hl) as (loc & Hloc & Hown). unfold Create_Link.
  rewrite Hl. cbn [or_else mbind outcome_bind]. rewrite Hloc. cbn [or_else mbind outcome_bind]. rewrite Hown, Hnone. cbn [negb]. change (CONTROL_LINK =? CONTROL_LINK) with true. change (CONTROL_LINK =? INTRUSION_TOL_LINK) with false. cbn [negb andb orb].
  destruct (first_free_ok cfg n l lg CONTROL_LINK Hw Hmade Hl ltac:(done) Hnone) as (i & Hi & Hr & Hfree). rewrite Hi. cbn [or_else mbind outcome_bind].
  set (n1 := set_leg_link _ _ _ _ _). set (lk := mk_lk _ _ _ _) in n1. destruct (set_leg_link_frame l CONTROL_LINK (Some i) lg (set_link i lk n)) as (E1 & E2 & E3 & E4 & E5 & E6 & E7 & E8 & E9 & E10 & E11 & E12). fold n1 in E1, E2, E3, E4, E5, E6, E7, E8, E9, E10, E11, E12.
  unfold create_control. rewrite E7, lookup_insert_eq. cbn [or_else mbind outcome_bind]. rewrite E4. unfold set_link at 1. cbn [Links with_links]. rewrite lookup_insert_eq. cbn [or_else mbind outcome_bind conn].
  rewrite bool_decide_eq_true_2 by done. rewrite Hcost. change (-1 =? -1) with true. cbn [negb andb l_dst]. fold (fresh_conn e (conn lg)).
  set (n2 := set_cdata _ _ _ _). set (lg' := mk_leg (src_iid lg) (dst_iid lg) (l_dst lg) (<[CONTROL_LINK := i]> (l_links lg)) (fresh_conn e (conn lg)) (bucket lg)).
  assert (Hl2 : Legs n2 = <[l := lg']> (Legs n1)) by done. assert (Hk2 : Links n2 = <[i := mk_lk CONTROL_LINK l (Some (UNAVAILABLE_LINK, F32.of_Z 0)) (Some new_cdata)]> (Links n1)) by done. assert (Hd2 : dae n2 = dae n1) by done.
  assert (Har : around l n n2).
  { eapply around_trans; [apply (around_links l n)|]. eapply around_trans; [apply set_leg_link_around|]. split; try done. intros l' Hne. rewrite Hl2. by rewrite lookup_insert_ne. }
  assert (Hlinks : Links n2 = <[i := mk_lk CONTROL_LINK l (Some (UNAVAILABLE_LINK, F32.of_Z 0)) (Some new_cdata)]> (Links n)) by (rewrite Hk2, E4; apply insert_insert_eq).
  assert (Hq2 : n_queue n2 = n_queue n) by (change (n_queue n2) with (n_queue n1); by rewrite E5).
  assert (Hw2 : wf n2).
  { eapply (attach_ok n n2 l lg lg' CONTROL_LINK i); try done; [by rewrite Hl2, lookup_insert_eq| |].
    - rewrite Hd2, E12. cbn. by rewrite !lookup_insert_eq.
    - unfold shape. cbn. split; split; eauto. }
  destruct (ensure_neighbor_ok n2 l lg' Hw2) as (d & Hd & Hw3 & Hb3 & Hv & Hcl & Hed); [by rewrite (ar_made _ _ _ Har)|by rewrite Hl2, lookup_insert_eq|].
  cbn [l_dst lg'] in *. rewrite Hd. cbn [mbind outcome_bind]. eexists i, _. split; [reflexivity|]. set (n3 := with_dae d n2) in *.
  assert (Hca : control_at n3 i) by (eexists; split; [change (Links n3) with (Links n2); rewrite Hlinks; apply lookup_insert_eq|done]).
  split; [by apply wf_queued; [done|cbn]|]. split.
  { etrans; [apply around_beside; exact Har|]. etrans; [exact Hb3|by split]. }
  split; [done|]. split; [exact Hlinks|]. split; [change (Legs _ !! l) with (Legs n2 !! l); by rewrite Hl2, lookup_insert_eq|]. split; [|split; [exact Hv|]].
  - intros k. rewrite (proj2 (queue_timer e HSend_Hello i NoArg (rand_hello_TO (rand_offset e)) n3 (wf_queue _ _ Hw3)) k). unfold waits. change (n_queue n3) with (n_queue n2). by rewrite Hq2.
  - intros x. change (my_edge n3 x = my_edge n x). rewrite Hed. apply (ar_edge _ _ _ Har).
Qed.
End Make.
