(* ===== verification/HelloCost.v ===== *)
(** * HelloCost: the cost of a leg, and disconnecting it

    [Network_Leg_Set_Cost] keeps the tables well formed and the edge in step with
    the leg; [Disconnect_Network_Leg] takes down the links and the cost; and what
    [Network_Leg_Update_Cost] measures is never the cost of a dead leg, but for the
    metric of loss rates. *)
From Stdlib Require Import SpecFloat.
From stdpp Require Import base list gmap numbers option sets.
From Stdlib Require Import ZArith Lia.
From S2P Require Import Prelude CFloat HashMap StdUtil Events NetTypes Route ReliableLink ITFrag Leg LegProps Daemon StateFlood FloodProof FloodTotal Hello HelloProof HelloLink HelloMake.
#[local] Open Scope Z_scope.

Definition edge_view (ed : Edge) : Z * option Z := (cost ed, leg (extra ed)).

Lemma add_changed_control t p sender src dst d d' : Add_to_changed_states t p sender src dst d = Ret d' -> Control_Links d' = Control_Links d.
Proof.
  intros H. unfold Add_to_changed_states in H. apply bind_Ret in H as (nd & _ & H). apply bind_Ret in H as (c & _ & H). destruct c; [|done]. cbn [negb] in H.
  apply bind_Ret in H as (s & _ & H). apply bind_Ret in H as (m & _ & H). injection H as <-. destruct p; destruct (decide _); done.
Qed.

(** Announcing a change of a state of the local node does not change what a leg owns. *)
Lemma announce_sim t src dst d : is_Some (Get_Node d (My_Address d)) -> is_Some (Get_Edge d src dst) ->
  exists d', Add_to_changed_states t EdgeP (My_Address d) src dst d = Ret d' /\ dae_sim d (Schedule_Routes t d') /\ node_keep d (Schedule_Routes t d').
Proof.
  intros Hmy He. destruct (add_changed_total t EdgeP (My_Address d) src dst d) as [d' Hd]; [by left|exact He|]. exists d'. split; [done|].
  pose proof (add_changed_control _ _ _ _ _ _ _ Hd) as Hc. destruct (add_changed_spec _ _ _ _ _ _ _ Hd) as (s & nd & m & Hs & Hst & _ & (K1 & K2 & K3 & K4 & K5) & _).
  assert (Hsr : My_Address (Schedule_Routes t d') = My_Address d' /\ All_Nodes (Schedule_Routes t d') = All_Nodes d' /\ Neighbor_Nodes (Schedule_Routes t d') = Neighbor_Nodes d' /\
                Control_Links (Schedule_Routes t d') = Control_Links d' /\ All_Edges (Schedule_Routes t d') = All_Edges d') by (unfold Schedule_Routes; by destruct (Schedule_Set_Route d')).
  destruct Hsr as (S1 & S2 & S3 & S4 & S5). split; [|apply keep_nodes; congruence]. split; try congruence.
  - intros id. unfold Get_Node. congruence.
  - intros x. unfold Get_Edge. rewrite S5. cbn in Hst. rewrite Hst. rewrite find_put. destruct (decide _) as [[-> ->]|]; [|done]. cbn in Hs |- *. by rewrite Hs.
Qed.

(** Only the cost of a leg and of its edge change. *)
Section Cost.
Context (cfg : net_conf).
#[local] Notation kbps := (Leg_Rate_Limit_kbps cfg).
#[local] Notation wf := (wf cfg).
#[local] Notation timer_ok := (timer_ok cfg).

Lemma wf_cost n n' l lg lg' c :
  wf n -> Legs n !! l = Some lg -> Legs n' = <[l := lg']> (Legs n) -> conn lg' = mk_conn (status (conn lg)) c (ctrl_link_id (conn lg)) (other_side_ctrl_link_id (conn lg)) (hellos_out (conn lg)) (last_recv_hello (conn lg)) (connect_cnter (conn lg)) (last_connected (conn lg)) ->
  src_iid lg' = src_iid lg -> dst_iid lg' = dst_iid lg -> l_dst lg' = l_dst lg -> l_links lg' = l_links lg -> bucket lg' = bucket lg ->
  Links n' = Links n -> n_queue n' = n_queue n -> Known_Interfaces n' = Known_Interfaces n -> Known_Addresses n' = Known_Addresses n -> Network_Legs n' = Network_Legs n -> made n' = made n ->
  My_Address (dae n') = My_Address (dae n) -> All_Nodes (dae n') = All_Nodes (dae n) -> Neighbor_Nodes (dae n') = Neighbor_Nodes (dae n) -> Control_Links (dae n') = Control_Links (dae n) ->
  (forall x, my_edge n' x = if decide (x = l_dst lg) then Some (c, Some l) else my_edge n x) -> wf n'.
Proof.
  intros [W1 W2 W3 W4 W5 W6 W7 W8 W9 W10 W11 W12 W13] Hl Hleg Hcn E1 E2 E3 E4 E5 Hk Hq E6 E7 E8 E9 D1 D2 D3 D4 He.
  assert (Hnb : forall x, nb n' x = nb n x) by (intros x; unfold nb, Get_Node; by rewrite D2).
  assert (Hany : forall l1 lg1, Legs n !! l1 = Some lg1 -> exists lg2, Legs n' !! l1 = Some lg2 /\ src_iid lg2 = src_iid lg1 /\ dst_iid lg2 = dst_iid lg1 /\ l_dst lg2 = l_dst lg1 /\ l_links lg2 = l_links lg1).
  { intros l1 lg1 H1. rewrite Hleg. destruct (decide (l1 = l)) as [->|Hne]; [assert (lg1 = lg) as -> by congruence; exists lg'; by rewrite lookup_insert_eq|]. exists lg1. by rewrite lookup_insert_ne. }
  assert (Hkt : forall k, timer_ok n k -> timer_ok n' k).
  { intros [[[] i] a]; cbn; unfold control_at; rewrite ?Hk; try tauto. intros [? (l0 & -> & lg0 & H0)]. split; [done|]. exists l0. split; [done|]. destruct (Hany l0 lg0 H0) as (lg2 & ? & _). by exists lg2. }
  split; rewrite ?Hq, ?D1, ?Hnb, ?D3, ?E6, ?E7, ?E8, ?Hk; try done.
  - intros l1 lg1. rewrite Hleg. intros [[<- <-]|[Hne H1]]%lookup_insert_Some.
    + destruct (W3 l lg Hl) as [A1 A2 A3 A4 A5 A6 A7 A8 A9 A10]. split; rewrite ?E1, ?E2, ?E3, ?E4, ?E5, ?D1, ?E6, ?E8, ?E9, ?Hnb, ?D4, ?Hk; try done. rewrite He, decide_True, Hcn by done. done.
    + destruct (W3 l1 lg1 H1) as [A1 A2 A3 A4 A5 A6 A7 A8 A9 A10]. split; rewrite ?D1, ?E6, ?E8, ?E9, ?Hnb, ?D4, ?Hk; try done. rewrite He, decide_False; [done|]. intros Heq. rewrite Heq in A6.
      rewrite (lw_edge _ _ _ _ (W3 l lg Hl)) in A6. congruence.
  - intros a b l1 H1. destruct (W4 a b l1 H1) as (lg1 & H2 & <- & <-). destruct (Hany l1 lg1 H2) as (lg2 & ? & ? & ? & _). by exists lg2.
  - intros dst c1 l1. rewrite He. destruct (decide _) as [->|Hne]; [intros [= _ <-]; exists lg'; by rewrite Hleg, lookup_insert_eq|]. intros H1. destruct (W5 dst c1 l1 H1) as (lg1 & H2 & <-). destruct (Hany l1 lg1 H2) as (lg2 & ? & _ & _ & ? & _). by exists lg2.
  - intros i lk Hi. destruct (W6 i lk Hi) as (B1 & B2 & B3 & lg1 & H1 & B4). destruct (Hany _ lg1 H1) as (lg2 & ? & _ & _ & _ & E). split; [done|]. split; [done|]. split; [done|]. exists lg2. by rewrite E.
  - intros id v. rewrite Hnb. apply W7.
  - intros i id Hi. rewrite Hnb. destruct (W8 i id Hi) as (B1 & l1 & lg1 & H1 & B2). split; [done|]. destruct (Hany l1 lg1 H1) as (lg2 & ? & _ & _ & E & _). exists l1, lg2. split; congruence.
  - intros k. unfold waits. rewrite Hq. intros Hwk. by apply Hkt, W10.
  - rewrite E9, D4. split; [apply W13|]. intros l1. rewrite Hleg. intros [H1 _]%lookup_insert_None. by apply W13.
Qed.

(** A neighbour loses its number. *)
Lemma drop_neighbor_ok n l lg v : wf n -> Legs n !! l = Some lg -> nb n (l_dst lg) = Some v -> v <> -1 ->
  let d := set_neighbor_id (l_dst lg) (-1) (with_neighbors (trim (<[Z.to_nat v := None]> (Neighbor_Nodes (dae n)))) (dae n)) in
  wf (with_dae d n) /\ beside l (l_dst lg) n (with_dae d n) /\ nb (with_dae d n) (l_dst lg) = Some (-1).
Proof.
  intros Hw Hl Hv Hne d. destruct (wf_nodes _ _ Hw _ v Hv Hne) as [Hv0 Hat]. pose proof (lookup_lt_Some _ _ _ Hat) as Hlt.
  assert (Hd : forall x, neighbor_id <$> Get_Node d x = if decide (x = l_dst lg) then Some (-1) else nb n x).
  { intros x. unfold d. rewrite nb_set. unfold nb in *. change (Get_Node (with_neighbors _ (dae n)) x) with (Get_Node (dae n) x). destruct (decide _) as [->|]; [|done]. by destruct (Get_Node (dae n) (l_dst lg)). }
  assert (Hnew : forall i x, Neighbor_Nodes d !! i = Some (Some x) <-> i <> Z.to_nat v /\ Neighbor_Nodes (dae n) !! i = Some (Some x)).
  { intros i x. change (Neighbor_Nodes d) with (trim (<[Z.to_nat v := None]> (Neighbor_Nodes (dae n)))). rewrite trim_lookup. destruct (decide (i = Z.to_nat v)) as [->|Hi].
    - rewrite list_lookup_insert_eq by done. split; [done|by intros []].
    - rewrite list_lookup_insert_ne by done. tauto. }
  split.
  { apply wf_renumber; try done.
    - intros x. rewrite Hd. destruct (decide _) as [->|]; [|done]. eauto.
    - intros x w. rewrite Hd. destruct (decide _) as [->|Hx]; [by intros [= <-]|]. intros H1 H2. destruct (wf_nodes _ _ Hw x w H1 H2) as [H3 H4]. split; [done|]. apply Hnew. split; [|done]. intros Heq. rewrite Heq, Hat in H4. congruence.
    - intros i x [Hi Hx]%Hnew. destruct (wf_neighbors _ _ Hw i x Hx) as [B1 B2]. split; [|done]. rewrite Hd. destruct (decide _) as [->|]; [|done]. rewrite Hv in B1. injection B1 as ->. by rewrite Nat2Z.id in Hi.
    - change (Neighbor_Nodes d) with (trim (<[Z.to_nat v := None]> (Neighbor_Nodes (dae n)))). pose proof (trim_length (<[Z.to_nat v := None]> (Neighbor_Nodes (dae n)))) as H1. rewrite length_insert in H1. pose proof (wf_length _ _ Hw). lia. }
  split; [split; try done; [intros x Hx; unfold nb at 1; cbn [dae with_dae]; by rewrite Hd, decide_False by done|intros x; apply (set_neighbor_keep (l_dst lg) (-1) (with_neighbors (trim (<[Z.to_nat v := None]> (Neighbor_Nodes (dae n)))) (dae n)) x)]|].
  unfold nb. cbn [dae with_dae]. by rewrite Hd, decide_True by done.
Qed.

Lemma dae_sim_beside l id n d : dae_sim (dae n) d -> node_keep (dae n) d -> similar cfg n (with_dae d n) /\ beside l id n (with_dae d n).
Proof.
  intros Hs Hk. pose proof Hs as [S1 S2 S3 S4 S5]. destruct (similar_refl cfg n) as [A B C D E F G]. split; [by split|]. split; try done.
  - intros x _. apply S2.
  - intros x _. unfold my_edge. cbn [dae with_dae]. rewrite S1. apply S5.
Qed.

Definition with_cost (c : Z) (k : leg_conn) : leg_conn :=
  mk_conn (status k) c (ctrl_link_id k) (other_side_ctrl_link_id k) (hellos_out k) (last_recv_hello k) (connect_cnter k) (last_connected k).

Lemma control_of n l lg i : wf n -> Legs n !! l = Some lg -> l_links lg !! CONTROL_LINK = Some i -> control_at n i.
Proof. intros Hw Hl Hi. destruct (lw_links _ _ _ _ (wf_legs _ _ Hw l lg Hl) _ _ Hi) as (lk & H1 & H2 & _). by exists lk. Qed.

Lemma set_cost_ok e n l lg c : wf n -> Legs n !! l = Some lg -> (c <> -1 <-> status (conn lg) = CONNECTED_LEG) ->
  (l_cost (conn lg) = -1 -> c <> -1 -> is_Some (l_links lg !! CONTROL_LINK)) -> (l_cost (conn lg) <> -1 -> c = -1 -> nb n (l_dst lg) <> Some (-1)) ->
  exists n', Network_Leg_Set_Cost e l c n = Ret n' /\ wf n' /\ beside l (l_dst lg) n n' /\ Links n' = Links n /\
    Legs n' !! l = Some (mk_leg (src_iid lg) (dst_iid lg) (l_dst lg) (l_links lg) (with_cost c (conn lg)) (bucket lg)) /\
    (forall k, waits n k -> waits n' k) /\ nb n' (l_dst lg) = (if bool_decide (l_cost (conn lg) <> -1 /\ c = -1) then Some (-1) else nb n (l_dst lg)) /\
    my_edge n' (l_dst lg) = Some (c, Some l) /\ Known_Interfaces n' = Known_Interfaces n.
Proof.
  intros Hw Hl Hst Hup Hdown. pose proof (wf_legs _ _ Hw l lg Hl) as [_ _ _ _ _ Hedge _ _ _ _]. unfold Network_Leg_Set_Cost. rewrite Hl. cbn [or_else mbind outcome_bind].
  pose proof Hedge as Hedge0. unfold my_edge in Hedge. destruct (Get_Edge (dae n) (My_Address (dae n)) (l_dst lg)) as [ed|] eqn:Eed; [|done]. cbn in Hedge. injection Hedge as Hec Hel. cbn [or_else mbind outcome_bind].
  assert (Hguard : (negb (c =? -1) && negb (bool_decide (status (conn lg) = CONNECTED_LEG))) || ((c =? -1) && bool_decide (status (conn lg) = CONNECTED_LEG)) = false).
  { destruct (Z.eqb_spec c (-1)), (bool_decide_reflect (status (conn lg) = CONNECTED_LEG)); try done; cbn; tauto. }
  rewrite Hguard. destruct (Z.eqb_spec c (l_cost (conn lg))) as [Hsame|Hdiff].
  { exists n. split; [done|]. split; [done|]. split; [reflexivity|]. split; [done|]. split; [rewrite Hl; f_equal; unfold with_cost; rewrite Hsame; by destruct lg as [? ? ? ? []]|]. split; [done|].
    rewrite bool_decide_eq_false_2 by (intros [? ?]; congruence). split; [done|]. by rewrite Hedge0, <- Hsame. }
  set (lg' := mk_leg (src_iid lg) (dst_iid lg) (l_dst lg) (l_links lg) (with_cost c (conn lg)) (bucket lg)).
  unfold set_conn. fold (with_cost c (conn lg)). fold lg'. set (nc := set_leg l lg' n). set (d := with_edges _ _).
  set (n1 := with_dae d nc). assert (Hl1 : Legs n1 = <[l := lg']> (Legs n)) by done.
  assert (Hed1 : forall x, my_edge n1 x = if decide (x = l_dst lg) then Some (c, Some l) else my_edge n x).
  { intros x. unfold my_edge at 1, Get_Edge. change (All_Edges (dae n1)) with (put_state (All_Edges (dae n)) (My_Address (dae n)) (l_dst lg) (set_edge_lts (Link_State_LTS_inc (Link_State_Update_LTS (dae n))) (set_edge_cost c ed))).
    change (My_Address (dae n1)) with (My_Address (dae n)). rewrite find_put. destruct (decide (x = l_dst lg)) as [->|Hx].
    - rewrite decide_True by done. cbn. f_equal. unfold set_edge_cost, bump_timestamp. case_match; cbn; by rewrite Hel.
    - rewrite decide_False by naive_solver. done. }
  assert (Hw1 : wf n1) by (eapply (wf_cost n n1 l lg lg' c); done).
  assert (Hb1 : beside l (l_dst lg) n n1).
  { split; try done; [intros l' Hl'; rewrite Hl1; by rewrite lookup_insert_ne|intros x Hx; by rewrite Hed1, decide_False]. }
  assert (Hmid : exists n2, (if l_cost (conn lg) =? -1 then ctl ← or_else (l_links lg !! CONTROL_LINK) Fault;
           Ret (queue e HNet_Send_State_All ctl (ProtArg GroupsP) zero_timeout (queue e HNet_Send_State_All ctl (ProtArg EdgeP) zero_timeout n1))
         else if c =? -1 then nd ← or_else (Get_Node d (l_dst lg)) Fault;
           if (0 <=? neighbor_id nd) && (neighbor_id nd <? Z.of_nat (length (Neighbor_Nodes d)))
           then Ret (with_dae (set_neighbor_id (l_dst lg) (-1) (with_neighbors (trim (<[Z.to_nat (neighbor_id nd) := None]> (Neighbor_Nodes d))) d)) nc) else Fault
         else Ret n1) = Ret n2 /\ wf n2 /\ beside l (l_dst lg) n1 n2 /\ Links n2 = Links n1 /\ Legs n2 = Legs n1 /\ (forall k, waits n1 k -> waits n2 k) /\
         nb n2 (l_dst lg) = (if bool_decide (l_cost (conn lg) <> -1 /\ c = -1) then Some (-1) else nb n (l_dst lg)) /\ (forall x, my_edge n2 x = my_edge n1 x) /\ Known_Interfaces n2 = Known_Interfaces n /\ My_Address (dae n2) = My_Address (dae n)).
  { destruct (Z.eqb_spec (l_cost (conn lg)) (-1)) as [Hc|Hc].
    - destruct (Hup Hc ltac:(congruence)) as [ctl Hctl]. rewrite Hctl. cbn [or_else mbind outcome_bind]. assert (Hca : control_at n1 ctl) by exact (control_of n l lg ctl Hw Hl Hctl).
      assert (Hw2 : wf (queue e HNet_Send_State_All ctl (ProtArg EdgeP) zero_timeout n1)) by (apply wf_queued; [done|split; [by eexists|done]]).
      eexists. split; [reflexivity|]. split; [apply wf_queued; [done|split; [by eexists|exact Hca]]|]. split; [by split|]. split; [done|]. split; [done|]. split.
      { intros k Hk. apply (queue_timer _ _ _ _ _ _ (wf_queue _ _ Hw2)). right. apply (queue_timer _ _ _ _ _ _ (wf_queue _ _ Hw1)). by right. }
      rewrite bool_decide_eq_false_2 by tauto. done.
    - destruct (Z.eqb_spec c (-1)) as [Hcm|Hcm].
      + destruct (lw_node _ _ _ _ (wf_legs _ _ Hw l lg Hl)) as [v Hv]. assert (Hv1 : v <> -1) by (intros ->; by apply Hdown).
        pose proof Hv as Hnd. unfold nb in Hnd. change (Get_Node d (l_dst lg)) with (Get_Node (dae n) (l_dst lg)). destruct (Get_Node (dae n) (l_dst lg)) as [nd|]; [|done]. cbn in Hnd. injection Hnd as Hnd. cbn [or_else mbind outcome_bind]. rewrite Hnd.
        destruct (wf_nodes _ _ Hw _ v Hv Hv1) as [Hv0 Hat]. pose proof (lookup_lt_Some _ _ _ Hat) as Hlt. change (Neighbor_Nodes d) with (Neighbor_Nodes (dae n)).
        rewrite (proj2 (Z.leb_le _ _)), (proj2 (Z.ltb_lt _ _)) by lia. cbn [andb]. eexists. split; [reflexivity|].
        destruct (drop_neighbor_ok n1 l lg' v Hw1 ltac:(by rewrite Hl1, lookup_insert_eq) Hv Hv1) as (Hw2 & Hb2 & Hn2). split; [exact Hw2|]. split; [exact Hb2|]. split; [done|]. split; [done|]. split; [done|].
        rewrite bool_decide_eq_true_2 by done. done.
      + exists n1. split; [done|]. split; [done|]. split; [reflexivity|]. rewrite bool_decide_eq_false_2 by tauto. done. }
  destruct Hmid as (n2 & -> & Hw2 & Hb2 & Hk2 & Hl2 & Hwk2 & Hn2 & He2 & Hi2 & Hm2). cbn [mbind outcome_bind].
  assert (Hmy2 : is_Some (Get_Node (dae n2) (My_Address (dae n2)))). { pose proof (wf_my _ _ Hw2) as Hx. unfold nb in Hx. destruct (Get_Node (dae n2) (My_Address (dae n2))); [by eexists|by destruct Hx]. }
  assert (Hedge2 : is_Some (Get_Edge (dae n2) (My_Address (dae n2)) (l_dst lg))). { pose proof (He2 (l_dst lg)) as Hx. rewrite Hed1, decide_True in Hx by done. unfold my_edge in Hx. destruct (Get_Edge (dae n2) (My_Address (dae n2)) (l_dst lg)); [by eexists|done]. }
  destruct (announce_sim (now e) (My_Address (dae n2)) (l_dst lg) (dae n2) Hmy2 Hedge2) as (d3 & Hd3 & Hs3 & Hk3). rewrite Hm2 in Hd3. rewrite Hd3. cbn [mbind outcome_bind].
  destruct (dae_sim_beside l (l_dst lg) n2 _ Hs3 Hk3) as [Hsim3 Hb3]. eexists. split; [reflexivity|]. set (n3 := with_dae _ n2) in *.
  split; [by eapply wf_sim|]. split; [etrans; [exact Hb1|]; etrans; [exact Hb2|exact Hb3]|]. split; [exact Hk2|]. split; [change (Legs n3) with (Legs n2); by rewrite Hl2, Hl1, lookup_insert_eq|]. split; [exact Hwk2|]. split.
  - rewrite (sim_nb _ _ _ _ Hsim3). exact Hn2.
  - rewrite (sim_edge _ _ _ _ Hsim3), He2, Hed1, decide_True by done. done.
Qed.

(** ** Taking down the links of a leg *)
Definition with_lnks (m : gmap Z Z) (lg : Network_Leg) : Network_Leg := mk_leg (src_iid lg) (dst_iid lg) (l_dst lg) m (conn lg) (bucket lg).

Record downed (l : Z) (lg : Network_Leg) (m : gmap Z Z) (n n' : net) : Prop := {
  dn_wf : wf n'; dn_beside : beside l (l_dst lg) n n'; dn_leg : Legs n' !! l = Some (with_lnks m lg);
  dn_links : forall i lk, Links n' !! i = Some lk -> Links n !! i = Some lk; dn_waits : forall k, waits n' k -> waits n k;
  dn_hello : forall x, hello_ok x n -> hello_ok x n'; dn_nb : forall x, nb n' x = nb n x; dn_edge : forall x, my_edge n' x = my_edge n x;
  dn_ifs : Known_Interfaces n' = Known_Interfaces n }.

Lemma downed_refl l lg n : wf n -> Legs n !! l = Some lg -> downed l lg (l_links lg) n n.
Proof. intros Hw Hl. split; try done. by destruct lg. Qed.

Lemma downed_trans l lg m m' a b c : downed l lg m a b -> downed l (with_lnks m lg) m' b c -> downed l lg m' a c.
Proof. intros [A1 A2 A3 A4 A5 A6 A7 A8 A9] [B1 B2 B3 B4 B5 B6 B7 B8 B9]. split; try done; try (intros; first [rewrite B7; apply A7|rewrite B8; apply A8|auto]); [by etrans|congruence]. Qed.

Definition takes_down (m m0 : Z) : bool := bool_decide (m0 = m /\ m0 <> INTRUSION_TOL_LINK).

Lemma destroy_mode_ok l m n lg : wf n -> Legs n !! l = Some lg ->
  exists n' m', destroy_mode l n m = Ret n' /\ downed l lg m' n n' /\ forall m0, m' !! m0 = if takes_down m m0 then None else l_links lg !! m0.
Proof.
  intros Hw Hl. unfold destroy_mode. rewrite Hl. cbn [or_else mbind outcome_bind]. unfold takes_down. destruct (l_links lg !! m) as [i|] eqn:Em.
  2:{ exists n, (l_links lg). split; [done|]. split; [by apply downed_refl|]. intros m0. case_bool_decide as Hb; [|done]. by destruct Hb as [-> _]. }
  destruct (decide (m = INTRUSION_TOL_LINK)) as [->|Hne].
  { destruct (lw_links _ _ _ _ (wf_legs _ _ Hw l lg Hl) _ _ Em) as (lk & Hk & Ht & _). unfold Destroy_Link. rewrite Hk. cbn [or_else mbind outcome_bind]. rewrite Ht, Z.eqb_refl.
    exists n, (l_links lg). split; [done|]. split; [by apply downed_refl|]. intros m0. case_bool_decide as Hb; [|done]. by destruct Hb as [-> ?]. }
  destruct (destroy_ok cfg n l lg m i Hw Hl Em Hne) as (n1 & -> & Hw1 & Har1 & Hl1 & Hk1 & Hb1 & Hf1). exists n1, (delete m (l_links lg)). split; [done|]. split.
  - split; try done; try apply Har1; try by apply around_beside.
    + by rewrite Hl1, lookup_insert_eq.
    + intros j lk Hj. rewrite Hk1 in Hj. by apply lookup_delete_Some in Hj as [_ ?].
    + intros x Hx j (lk & Hj & Ht) Hjx. rewrite Hk1 in Hj. apply lookup_delete_Some in Hj as [Hji Hj]. apply Hf1; [apply Hx; [by exists lk|done]|]. cbn. congruence.
  - intros m0. case_bool_decide as Hb; [destruct Hb as [-> _]; apply lookup_delete_eq|]. apply lookup_delete_ne. intros <-. by apply Hb.
Qed.

Lemma destroy_modes_ok l ms : forall n lg, wf n -> Legs n !! l = Some lg ->
  exists n' m', foldM (destroy_mode l) n ms = Ret n' /\ downed l lg m' n n' /\ forall m, m' !! m = if existsb (fun x => takes_down x m) ms then None else l_links lg !! m.
Proof.
  induction ms as [|m ms IH]; intros n lg Hw Hl.
  { exists n, (l_links lg). split; [done|]. split; [by apply downed_refl|done]. }
  destruct (destroy_mode_ok l m n lg Hw Hl) as (n1 & m1 & Hd & Hdown & Hm1). cbn [foldM]. rewrite Hd. cbn [mbind outcome_bind].
  destruct (IH n1 (with_lnks m1 lg) (dn_wf _ _ _ _ _ Hdown) (dn_leg _ _ _ _ _ Hdown)) as (n' & m' & Hf & Hdown' & Hm'). exists n', m'. split; [exact Hf|]. split; [by eapply downed_trans|].
  intros m0. rewrite Hm'. cbn [l_links with_lnks existsb]. rewrite Hm1. by destruct (takes_down m m0), (existsb _ ms).
Qed.

(** ** Disconnecting *)
Definition dropped_conn (t : sp_time) (c : leg_conn) : leg_conn :=
  mk_conn DISCONNECTED_LEG (-1) 0 0 (hellos_out c) (last_recv_hello c) (connect_cnter c) t.

Lemma set_conn_ok n l lg k : wf n -> Legs n !! l = Some lg -> l_cost k = l_cost (conn lg) ->
  let n' := set_conn l k lg n in wf n' /\ beside l (l_dst lg) n n' /\ Legs n' !! l = Some (mk_leg (src_iid lg) (dst_iid lg) (l_dst lg) (l_links lg) k (bucket lg)).
Proof.
  intros Hw Hl Hc n'. split; [|split].
  - eapply wf_sim; [exact Hw|eapply set_leg_sim; [exact Hl|by split_and!]|done].
  - split; try done. intros l' Hl'. unfold n', set_conn, set_leg. cbn. by rewrite lookup_insert_ne.
  - unfold n', set_conn, set_leg. cbn. by rewrite lookup_insert_eq.
Qed.

Lemma disconnect_ok e n l lg : wf n -> Legs n !! l = Some lg -> status (conn lg) <> DISCONNECTED_LEG -> (l_cost (conn lg) <> -1 -> nb n (l_dst lg) <> Some (-1)) ->
  exists n' m', Disconnect_Network_Leg e l n = Ret n' /\ wf n' /\ beside l (l_dst lg) n n' /\
    Legs n' !! l = Some (mk_leg (src_iid lg) (dst_iid lg) (l_dst lg) m' (dropped_conn (now e) (conn lg)) (bucket lg)) /\
    (forall m, m' !! m = if bool_decide (m = INTRUSION_TOL_LINK) then l_links lg !! m else None) /\
    (forall i lk, Links n' !! i = Some lk -> Links n !! i = Some lk) /\ (forall x, hello_ok x n -> hello_ok x n') /\ my_edge n' (l_dst lg) = Some (-1, Some l) /\
    Known_Interfaces n' = Known_Interfaces n.
Proof.
  intros Hw Hl Hst Hnb. unfold Disconnect_Network_Leg. rewrite Hl. cbn [or_else mbind outcome_bind]. rewrite bool_decide_eq_false_2 by done.
  set (k := mk_conn DISCONNECTED_LEG _ _ _ _ _ _ _). destruct (set_conn_ok n l lg k Hw Hl eq_refl) as (Hw1 & Hb1 & Hl1). set (n1 := set_conn l k lg n) in *.
  destruct (destroy_modes_ok l (seqZ 0 MAX_LINKS_4_EDGE) n1 _ Hw1 Hl1) as (n2 & m' & Hf & [D1 D2 D3 D4 D5 D6 D7 D8 D9] & Hm'). rewrite Hf. cbn [mbind outcome_bind]. cbn [l_dst] in D2.
  assert (Hm2 : forall m, m' !! m = if bool_decide (m = INTRUSION_TOL_LINK) then l_links lg !! m else None).
  { intros m. rewrite Hm'. cbn [l_links]. case_bool_decide as Hit.
    - subst m. replace (existsb _ _) with false; [done|]. symmetry. by vm_compute.
    - destruct (existsb _ _) eqn:Ee; [done|]. destruct (l_links lg !! m) as [i|] eqn:Em; [|done]. exfalso. assert (Hr : 0 <= m < MAX_LINKS_4_EDGE).
      { destruct (lw_links _ _ _ _ (wf_legs _ _ Hw l lg Hl) _ _ Em) as (lk & Hk & <- & _). by destruct (wf_links _ _ Hw i lk Hk) as (_ & ? & _). }
      apply not_true_iff_false in Ee. apply Ee. apply existsb_exists. exists m. split; [by apply list_elem_of_In, elem_of_seqZ|]. unfold takes_down. by apply bool_decide_eq_true_2. }
  destruct (set_cost_ok e n2 l _ (-1) D1 D3) as (n3 & -> & Hw3 & Hb3 & Hk3 & Hl3 & Hwt3 & Hnb3 & He3 & Hi3); [split; [done|by cbn]|done| |].
  { intros Hc _. rewrite D7. exact (Hnb Hc). }
  exists n3, m'. split; [done|]. split; [done|]. split; [etrans; [exact Hb1|]; etrans; [exact D2|exact Hb3]|]. split; [exact Hl3|]. split; [exact Hm2|]. split; [intros i lk; rewrite Hk3; apply D4|]. split.
  - intros x Hx i (lk & Hi & Ht) Hne. apply Hwt3. apply (D6 x Hx); [|done]. exists lk. split; [by rewrite <- Hk3|done].
  - split; [exact He3|]. by rewrite Hi3, D9.
Qed.
End Cost.

(** ** A measurement never gives the cost of a dead leg

    The metrics other than the loss rate bound the cost they compute: a [float]
    of at least 2 and less than 1024, so that neither its rounding nor the
    negation of that is -1. *)
Definition cost_float (x : spec_float) : Prop := exists m e, x = S754_finite false m e /\ Zpos (digits2_pos m) = 24 /\ -22 <= e <= -14.

(** What is not below a positive number, after rounding to a [float]. *)
Lemma to_single_cut y mb eb : -149 < eb -> SFltb (to_single y) (S754_finite false mb eb) = false ->
  to_single y = S754_nan \/ to_single y = S754_infinity false \/ exists m e, to_single y = S754_finite false m e /\ Zpos (digits2_pos m) = 24 /\ eb <= e.
Proof.
  intros Heb. destruct y as [s|[|]| |[|] m e]; cbn [to_single]; try (intros [=]; fail); [by right; left|by left| |].
  - unfold binary_normalize, binary_round, binary_round_aux. destruct (shl_align _ _ _) as [mz ez]. destruct (shr_fexp _ _ _ _ _) as [r e1]. destruct (shr_fexp _ _ _ _ _) as [r2 e2].
    destruct (shr_m r2); [intros [=]| |by left]. destruct (_ <=? _); intros [=].
  - destruct (binary_normalize _ _ _ _ _) as [s|s| |s m' e'] eqn:E; [intros [=]| |by left|].
    + destruct s; [intros [=]|by right; left].
    + destruct s; [intros [=]|]. rewrite SFltb_pos. intros [H1 H2]%orb_false_iff. apply Z.ltb_ge in H1. right. right. exists m', e'. split; [done|]. split; [|done].
      by apply (normalize_canonical 24 128 ltac:(lia) m e false false m' e' E); unfold emin; lia.
Qed.

Lemma cut_above x mb eb : eb <= -14 -> (exists m e, x = S754_finite false m e /\ Zpos (digits2_pos m) = 24 /\ -22 <= e) -> SFltb x (S754_finite false mb eb) = true -> cost_float x.
Proof.
  intros Heb (m & e & -> & Hd & He). rewrite SFltb_pos. intros H. exists m, e. split; [done|]. split; [done|]. split; [done|].
  apply orb_true_iff in H as [H%Z.ltb_lt|[H%Z.eqb_eq _]%andb_true_iff]; lia.
Qed.

Lemma expected_latency_range rtt loss : cost_float (Expected_Latency rtt loss).
Proof.
  assert (H2 : F32.of_Z 2 = S754_finite false 8388608 (-22)) by (vm_compute; reflexivity). assert (H600 : F32.of_Z MAX_LATENCY = S754_finite false 9830400 (-14)) by (vm_compute; reflexivity).
  unfold Expected_Latency. set (x := if SFltb (const 0 1) _ then _ else _). assert (Hx : exists y, x = to_single y) by (unfold x; destruct (SFltb _ _); by eexists).
  clearbody x. destruct Hx as [y ->]. rewrite H2, H600. assert (C600 : cost_float (S754_finite false 9830400 (-14))) by (exists 9830400%positive, (-14); split_and!; (done || lia)).
  destruct (SFltb (to_single y) (S754_finite false 8388608 (-22))) eqn:E2; [rewrite SFltb_pos; exists 8388608%positive, (-22); split_and!; (done || lia)|].
  destruct (SFltb (to_single y) (S754_finite false 9830400 (-14))) eqn:E6; [|exact C600].
  destruct (to_single_cut y 8388608 (-22) ltac:(lia) E2) as [Hn|[Hn|Hf]]; [by rewrite Hn in E6..|]. by eapply cut_above in E6.
Qed.

(** The value of a number, in units of 2^-200. *)
#[local] Notation U := (2 ^ 200).
Lemma cost_value m e : Zpos (digits2_pos m) = 24 -> -22 <= e <= -14 -> 2 * U <= Zpos m * 2 ^ (e + 200) <= 1024 * U.
Proof.
  intros Hd He. destruct (digits_bounds m) as [Hl Hu]. rewrite Hd in Hl, Hu.
  assert (2 ^ 178 <= 2 ^ (e + 200)) by (apply Z.pow_le_mono_r; lia). assert (2 ^ (e + 200) <= 2 ^ 186) by (apply Z.pow_le_mono_r; lia).
  set (Q := 2 ^ (e + 200)) in *. clearbody Q. split; nia.
Qed.

Lemma add_value m1 e1 m2 e2 : -100 <= e1 -> -100 <= e2 -> let v := Zpos m1 * 2 ^ (e1 + 200) + Zpos m2 * 2 ^ (e2 + 200) in
  match F64.add (S754_finite false m1 e1) (S754_finite false m2 e2) with
  | S754_finite s m e => s = false /\ Zpos (digits2_pos m) = 53 /\ -153 <= e /\ v * (2 ^ 52 - 1) <= Zpos m * 2 ^ (e + 200) * 2 ^ 52 <= v * (2 ^ 52 + 1)
  | S754_infinity s => s = false /\ 2 ^ 800 * U <= v
  | _ => False
  end.
Proof.
  intros H1 H2 v. unfold F64.add, F64.prec, F64.emax. destruct (add_pos 53 1024 m1 e1 m2 e2) as (m & -> & Hm). specialize (Hm 200 ltac:(lia)). set (ez := Z.min e1 e2) in *. assert (Hez : -100 <= ez) by lia.
  pose proof (normalize_normal 53 1024 ltac:(lia) m ez false 200 ltac:(unfold emin; lia) ltac:(lia)) as Hn. destruct (binary_normalize _ _ _ _ _) as [|s| |s m' e']; try done.
  - destruct Hn as [-> Hbig]. split; [done|]. destruct (digits_bounds m) as [Hl _]. assert (Hx : 2 ^ 1000 <= 2 ^ (Zpos (digits2_pos m) - 1) * 2 ^ (ez + 200)) by (rewrite <- Z.pow_add_r by lia; apply Z.pow_le_mono_r; lia).
    assert (2 ^ 1000 = 2 ^ 800 * U) by (rewrite <- Z.pow_add_r by lia; done). assert (2 ^ (Zpos (digits2_pos m) - 1) * 2 ^ (ez + 200) <= Zpos m * 2 ^ (ez + 200)) by (apply Z.mul_le_mono_nonneg_r; lia). unfold v. lia.
  - destruct Hn as (-> & Hd & He & Hlo & Hhi). split; [done|]. split; [done|]. split; [lia|]. unfold v. rewrite <- Hm. done.
Qed.

Lemma round16_range x : cost_float x -> 2 <= round16 x <= 2000.
Proof.
  intros (m & e & -> & Hd & He). unfold round16. assert (Hc : const 1 2 = S754_finite false 4503599627370496 (-53)) by (vm_compute; reflexivity). rewrite Hc. cbn [to_double].
  pose proof (cost_value m e Hd He) as Hv. pose proof (normalize_normal 53 1024 ltac:(lia) m e false 200 ltac:(unfold emin; lia) ltac:(lia)) as Hn. unfold F64.prec, F64.emax.
  destruct (binary_normalize _ _ _ _ _) as [|s| |s m1 e1]; try done; [lia|]. destruct Hn as (-> & _ & He1 & Hlo & Hhi). change (53 - 1) with 52 in *. assert (HU : 0 < U) by lia.
  assert (Hh : 2 * (4503599627370496 * 2 ^ (-53 + 200)) = U) by (vm_compute; reflexivity).
  pose proof (add_value m1 e1 4503599627370496 (-53) ltac:(lia) ltac:(lia)) as Ha. cbv zeta in Ha. destruct (F64.add _ _) as [|s| |s m2 e2]; try done; [lia|]. destruct Ha as (-> & _ & He2 & Hlo2 & Hhi2).
  pose proof (SFtrunc_ge m2 e2 200 2 ltac:(lia) ltac:(lia) ltac:(lia)) as Ht. pose proof (SFtrunc_le m2 e2 200 ltac:(lia) ltac:(lia)) as Ht2. set (T := SFtrunc _) in *. clearbody T.
  assert (T <= 2000) by lia. unfold s16. rewrite wraps_small by (lia || unfold in_s; lia). lia.
Qed.

(** The cost of the latency metric, before it is rounded. *)
Lemma latency_range x : let tmp := to_single x in let tmp := if SFltb tmp (F32.of_Z 1) then F32.of_Z 1 else tmp in let tmp := to_single (F64.add (to_double tmp) (const 4 1)) in
  cost_float (if SFltb tmp (F32.of_Z 300) then tmp else F32.of_Z 300).
Proof.
  cbv zeta. assert (H1 : F32.of_Z 1 = S754_finite false 8388608 (-23)) by (vm_compute; reflexivity). assert (H300 : F32.of_Z 300 = S754_finite false 9830400 (-15)) by (vm_compute; reflexivity).
  assert (H4 : const 4 1 = S754_finite false 4503599627370496 (-50)) by (vm_compute; reflexivity). rewrite H1, H300, H4.
  assert (C300 : cost_float (S754_finite false 9830400 (-15))) by (exists 9830400%positive, (-15); split_and!; (done || lia)).
  set (y := if SFltb (to_single x) _ then _ else _). assert (Hy : y = S754_nan \/ y = S754_infinity false \/ exists m e, y = S754_finite false m e /\ -23 <= e).
  { unfold y. destruct (SFltb _ _) eqn:E; [right; right; by exists 8388608%positive, (-23)|]. destruct (to_single_cut x 8388608 (-23) ltac:(lia) E) as [?|[?|(m & e & ? & _ & ?)]]; [by left|by right; left|right; right; by exists m, e]. }
  clearbody y. destruct Hy as [->|[->|(m & e & -> & He)]]; [exact C300..|]. cbn [to_double].
  pose proof (normalize_normal 53 1024 ltac:(lia) m e false 200 ltac:(unfold emin; lia) ltac:(lia)) as Hn. change (binary_normalize F64.prec F64.emax) with (binary_normalize 53 1024).
  destruct (binary_normalize 53 1024 _ _ _) as [|s| |s m1 e1]; try done; [destruct Hn as [-> _]; exact C300|]. destruct Hn as (-> & _ & He1 & _).
  pose proof (add_value m1 e1 4503599627370496 (-50) ltac:(lia) ltac:(lia)) as Ha. cbv zeta in Ha. destruct (F64.add _ _) as [|s| |s m2 e2]; try done; [destruct Ha as [-> _]; exact C300|]. destruct Ha as (-> & Hd2 & He2 & Hlo2 & _).
  cbn [to_single]. pose proof (normalize_normal 24 128 ltac:(lia) m2 e2 false 200 ltac:(unfold emin; lia) ltac:(lia)) as Hs. change (binary_normalize F32.prec F32.emax) with (binary_normalize 24 128).
  destruct (binary_normalize 24 128 _ _ _) as [|s| |s m3 e3]; try done; [destruct Hs as [-> _]; exact C300|]. destruct Hs as (-> & Hd3 & He3 & Hlo3 & _). destruct (SFltb _ _) eqn:E; [|exact C300].
  eapply cut_above in E; [exact E|lia|]. exists m3, e3. split; [done|]. split; [done|]. assert (Hh : 4503599627370496 * 2 ^ (-50 + 200) = 4 * U) by (vm_compute; reflexivity). assert (HU : 0 < U) by lia.
  change (24 - 1) with 23 in *. assert (Hv : 2 * U <= Zpos m3 * 2 ^ (e3 + 200)) by lia. destruct (digits_bounds m3) as [_ Hu]. rewrite Hd3 in Hu. destruct (Z.le_gt_cases (-22) e3) as [|Hlt]; [done|]. exfalso.
  assert (2 ^ (e3 + 200) <= 2 ^ 177) by (apply Z.pow_le_mono_r; lia). assert (Zpos m3 * 2 ^ (e3 + 200) < 2 ^ 24 * 2 ^ 177) by nia. lia.
Qed.

(** Only the metric of loss rates can give -1. *)
Lemma leg_cost_range cfg t c prev base v : Route_Weight cfg <> LOSSRATE_ROUTE -> leg_cost cfg t c prev base = Ret (Some v) -> 2 <= Z.abs v <= 2000.
Proof.
  intros Hw. unfold leg_cost. destruct (_ =? DISTANCE_ROUTE); [done|]. destruct (_ =? LATENCY_ROUTE).
  { pose proof (latency_range (F64.div (to_double (c_rtt c)) (const 2 1))) as Hr. cbv zeta in Hr |- *. apply round16_range in Hr. destruct (_ <? _); [done|]. set (r := round16 _) in *. clearbody r. intros [= <-]. lia. }
  rewrite (proj2 (Z.eqb_neq _ _) Hw). pose proof (round16_range _ (expected_latency_range (c_rtt c) (est_loss_rate c))) as Hr. destruct (_ =? AVERAGE_ROUTE).
  { destruct (_ && _); [done|]. destruct (_ && _); [done|]. set (r := round16 _) in *. clearbody r. intros [= <-]. lia. }
  destruct (_ =? PROBLEM_ROUTE); [|done]. cbv zeta. set (r := round16 _) in *. clearbody r. assert (Hneg : s16 (- r) = - r) by (unfold s16; apply wraps_small; unfold in_s; lia).
  intros H. repeat case_match; simplify_eq; rewrite ?Hneg; lia.
Qed.
