(* ===== verification/HelloState.v ===== *)
(** * HelloState: the invariant of the connections

    What the status of a leg says about its links, its cost and its neighbour, and
    that the timers of the hello protocol keep it and never fail. *)
From Stdlib Require Import SpecFloat.
From stdpp Require Import base list gmap numbers option sets.
From Stdlib Require Import ZArith Lia.
From S2P Require Import Prelude CFloat HashMap StdUtil Events NetTypes Route ReliableLink ITFrag Leg LegProps Daemon StateFlood FloodProof FloodTotal Hello HelloProof HelloLink HelloMake HelloCost.
#[local] Open Scope Z_scope.

(** ** The loop of [Check_Link_Loss] ends for valid numbers *)
Definition valid_seq (s : Z) : Prop := 0 <= s < PACK_MAX_SEQ \/ s = 0xffff.

Lemma gap_loop_total k i seq r : (Z.to_nat 30000 <= k)%nat -> 0 <= i < PACK_MAX_SEQ -> 0 <= seq < PACK_MAX_SEQ -> is_Some (gap_loop k i seq r).
Proof.
  unfold PACK_MAX_SEQ. intros Hk Hi Hs. pose proof (Z.mod_pos_bound (seq - i) 30000 ltac:(lia)).
  rewrite (gap_loop_mod (Z.to_nat ((seq - i) mod 30000))); [by eexists|lia|done| |unfold PACK_MAX_SEQ; lia].
  unfold PACK_MAX_SEQ. rewrite Z2Nat.id by lia. rewrite Zplus_mod_idemp_r. replace (i + (seq - i)) with seq by lia. by rewrite Z.mod_small by lia.
Qed.

Lemma check_loss_total s lt ld : valid_seq s -> is_Some (Check_Link_Loss s lt ld).
Proof.
  intros Hs. unfold Check_Link_Loss. destruct (Z.eqb_spec s 0xffff); [by eexists|]. destruct Hs as [Hs|?]; [|done]. destruct (_ =? INTRUSION_TOL_LINK); [by eexists|].
  destruct (_ =? PACK_MAX_SEQ + 1); [by eexists|]. destruct (reordered _ _); [by eexists|].
  assert (Hg : is_Some (gap_loop gap_fuel (first_missing (recvd_seq ld lt)) s (loss_rate ld))).
  { set (i := first_missing _). assert (Hi : 0 <= i < 2 ^ 16) by (apply (wrapu_range 16); lia). unfold gap_fuel. change (Z.to_nat (PACK_MAX_SEQ + 1)) with (S (Z.to_nat PACK_MAX_SEQ)). cbn [gap_loop].
    destruct (i =? s); [by eexists|]. pose proof (Z.mod_pos_bound (i + 1) PACK_MAX_SEQ ltac:(done)) as Hm. unfold PACK_MAX_SEQ in *. rewrite u16_small by lia. apply gap_loop_total; unfold PACK_MAX_SEQ; lia. }
  destruct Hg as [r ->]. by eexists.
Qed.

(** ** The invariant *)
Record stat (n : net) (lg : Network_Leg) : Prop := {
  st_control : status (conn lg) = DISCONNECTED_LEG <-> l_links lg !! CONTROL_LINK = None;
  st_cost : status (conn lg) = CONNECTED_LEG <-> l_cost (conn lg) <> -1;
  st_down : forall m i, l_links lg !! m = Some i -> status (conn lg) = CONNECTED_LEG \/ m = CONTROL_LINK \/ m = INTRUSION_TOL_LINK;
  st_up : status (conn lg) = CONNECTED_LEG -> forall m, m ∈ [UDP_LINK; RELIABLE_UDP_LINK; REALTIME_UDP_LINK] -> is_Some (l_links lg !! m);
  st_nb : status (conn lg) <> DISCONNECTED_LEG -> nb n (l_dst lg) <> Some (-1) }.

Definition own_node (d : daemon) (id : Z) : Prop := node_view d id = Some (id, true).

(** [x]: the control link whose hello is being sent, if any. *)
Record net_ok (cfg : net_conf) (x : option Z) (n : net) : Prop := {
  no_wf : wf cfg n; no_stat : forall l lg, Legs n !! l = Some lg -> stat n lg; no_hello : hello_ok x n;
  no_nodes : forall l lg, Legs n !! l = Some lg -> own_node (dae n) (l_dst lg); no_made : made n <= MAX_NEIGHBORS;
  no_bare : forall dst c, my_edge n dst = Some (c, None) -> c = -1 /\ own_node (dae n) dst; no_ids : forall x nd, Get_Node (dae n) x = Some nd -> nid nd = x }.

(** What the hypotheses on the configuration are: a bucket takes a packet of any
    size and the metric is known.  With the metric of loss rates, and with no
    other ([leg_cost_range]), a measurement can give -1, the cost of a dead leg, so
    for that metric it is a hypothesis that none does. *)
Record conf_ok (cfg : net_conf) : Prop := {
  co_bucket : 0 <= Leg_Rate_Limit_kbps cfg -> MAX_PACKET_SIZE <= Leg_Bucket_Cap (Leg_Rate_Limit_kbps cfg);
  co_weight : Route_Weight cfg ∈ [DISTANCE_ROUTE; LATENCY_ROUTE; LOSSRATE_ROUTE; AVERAGE_ROUTE; PROBLEM_ROUTE];
  co_cost : Route_Weight cfg = LOSSRATE_ROUTE -> forall t c prev base v, leg_cost cfg t c prev base = Ret (Some v) -> v <> -1 }.

Lemma cost_alive cfg t c prev base v : conf_ok cfg -> leg_cost cfg t c prev base = Ret (Some v) -> v <> -1.
Proof.
  intros Hcfg Hv. destruct (decide (Route_Weight cfg = LOSSRATE_ROUTE)) as [Hw|Hw]; [by eapply (co_cost _ Hcfg Hw)|]. apply leg_cost_range in Hv; [lia|done].
Qed.

Lemma own_node_keep d d' id : node_keep d d' -> own_node d id -> own_node d' id.
Proof. unfold own_node. by intros ->. Qed.

Lemma ids_keep d d' : node_keep d d' -> (forall x nd, Get_Node d x = Some nd -> nid nd = x) -> forall x nd, Get_Node d' x = Some nd -> nid nd = x.
Proof.
  intros Hk Hi x nd Hx. specialize (Hk x). unfold node_view in Hk. rewrite Hx in Hk. destruct (Get_Node d x) as [nd0|] eqn:E; [|done]. cbn in Hk. injection Hk as Hk _. rewrite Hk. by apply Hi.
Qed.

Lemma hello_ok_mono x x' n n' : hello_ok x n -> (forall i, control_at n' i -> control_at n i) -> (forall k, waits n k -> waits n' k) ->
  (forall i, x = Some i -> x' <> Some i -> waits n' (HSend_Hello, i, NoArg)) -> hello_ok x' n'.
Proof. intros Hx Hc Hw Hi i Hca Hne. destruct (decide (x = Some i)) as [He|He]; [by apply Hi|]. apply Hw, Hx; [by apply Hc|done]. Qed.

Section State.
Context (cfg : net_conf) (Hcfg : conf_ok cfg).
#[local] Notation kbps := (Leg_Rate_Limit_kbps cfg).
#[local] Notation wf := (wf cfg).
#[local] Notation net_ok := (net_ok cfg).
#[local] Notation similar := (similar cfg).

Lemma dst_inj n l lg l' lg' : wf n -> Legs n !! l = Some lg -> Legs n !! l' = Some lg' -> l_dst lg' = l_dst lg -> l' = l.
Proof. intros Hw Hl Hl' He. pose proof (lw_edge _ _ _ _ (wf_legs _ _ Hw l lg Hl)) as H1. pose proof (lw_edge _ _ _ _ (wf_legs _ _ Hw l' lg' Hl')) as H2. rewrite He in H2. congruence. Qed.

(** A change of one leg. *)
Lemma ok_beside x x' n n' l lg lg' : net_ok x n -> Legs n !! l = Some lg -> wf n' -> beside l (l_dst lg) n n' -> Legs n' !! l = Some lg' -> l_dst lg' = l_dst lg ->
  stat n' lg' -> hello_ok x' n' -> net_ok x' n'.
Proof.
  intros [Hw Hs Hh Hn Hm Hbare Hids] Hl Hw' [B1 B2 B3 B4 B5 B6] Hl' Hd Hst Hh'. split; try done; [| |by rewrite B5| |by eapply ids_keep].
  - intros l1 lg1 H1. destruct (decide (l1 = l)) as [->|Hne]; [congruence|]. rewrite B1 in H1 by done. destruct (Hs l1 lg1 H1) as [A1 A2 A3 A4 A5]. split; try done. rewrite B2; [done|]. intros He. apply Hne. exact (dst_inj n l lg l1 lg1 Hw Hl H1 He).
  - intros l1 lg1 H1. eapply own_node_keep; [exact B6|]. destruct (decide (l1 = l)) as [->|Hne]; [|rewrite B1 in H1 by done; by eapply Hn]. assert (lg1 = lg') as -> by congruence. rewrite Hd. by eapply Hn.
  - intros dst c Hc. destruct (decide (dst = l_dst lg)) as [->|Hne]; [pose proof (lw_edge _ _ _ _ (wf_legs _ _ Hw' l lg' Hl')) as He; rewrite Hd in He; congruence|].
    rewrite B3 in Hc by done. destruct (Hbare dst c Hc). split; [done|by eapply own_node_keep].
Qed.

(** A change that the tables do not notice. *)
Lemma ok_similar x x' n n' : net_ok x n -> wf n' -> similar n n' -> (forall l lg lg', Legs n !! l = Some lg -> Legs n' !! l = Some lg' -> status (conn lg') = status (conn lg)) ->
  node_keep (dae n) (dae n') -> hello_ok x' n' -> net_ok x' n'.
Proof.
  intros [Hw Hs Hh Hn Hm Hbare Hids] Hw' Hsim Hst Hk Hh'. split; try done; [| |by rewrite (sm_made _ _ _ Hsim)| |by eapply ids_keep].
  - intros l lg' Hl'. destruct (sim_leg_back _ _ _ _ _ Hsim Hl') as (lg & Hl & (E1 & E2 & E3 & E4 & E5 & _)). pose proof (Hst l lg lg' Hl Hl') as Es. destruct (Hs l lg Hl) as [A1 A2 A3 A4 A5].
    split; rewrite ?Es, ?E3, ?E4, ?E5, ?(sim_nb _ _ _ _ Hsim); done.
  - intros l lg' Hl'. destruct (sim_leg_back _ _ _ _ _ Hsim Hl') as (lg & Hl & (_ & _ & E & _)). rewrite E. eapply own_node_keep; [exact Hk|]. by eapply Hn.
  - intros dst c. rewrite (sim_edge _ _ _ _ Hsim). intros Hc. destruct (Hbare dst c Hc). split; [done|by eapply own_node_keep].
Qed.

Lemma sim_control n n' i : similar n n' -> control_at n' i <-> control_at n i.
Proof.
  intros Hs. split; intros (lk & H1 & H2).
  - destruct (sim_link_back _ _ _ _ _ Hs H1) as (lk0 & H0 & (E & _)). exists lk0. split; [done|congruence].
  - destruct (sim_link_fwd _ _ _ _ _ Hs H1) as (lk0 & H0 & (E & _)). exists lk0. split; [done|congruence].
Qed.

Lemma ok_weaken x n : net_ok None n -> net_ok x n.
Proof. intros [A B C D E F G]. split; try done. intros i Hi _. by apply C. Qed.

(** The leg of a control link. *)
Lemma control_leg x n i : net_ok x n -> control_at n i ->
  exists lk lg c r, Links n !! i = Some lk /\ link_type lk = CONTROL_LINK /\ c_data lk = Some c /\ r_data lk = Some r /\ Legs n !! lk_leg lk = Some lg /\
    l_links lg !! CONTROL_LINK = Some i /\ status (conn lg) <> DISCONNECTED_LEG.
Proof.
  intros [Hw Hs _ _ _ _ _] (lk & Hk & Ht). destruct (wf_links _ _ Hw i lk Hk) as (_ & _ & [Hc Hr] & lg & Hl & Hi). destruct (proj2 Hc Ht) as [c Hcd]. destruct (proj2 Hr (or_introl Ht)) as [r Hrd].
  rewrite Ht in Hi. exists lk, lg, c, r. split_and!; try done. rewrite (st_control _ _ (Hs _ _ Hl)). congruence.
Qed.

(** ** Sending hellos *)
Lemma net_send_hello_ok x e id req n : net_ok x n -> control_at n id ->
  exists n', Net_Send_Hello cfg e id req n = Ret n' /\ similar n n' /\ n_queue n' = n_queue n /\ dae n' = dae n /\ Network_Legs n' = Network_Legs n /\
    (forall l lg lg', Legs n !! l = Some lg -> Legs n' !! l = Some lg' -> conn lg' = conn lg).
Proof.
  intros Hok Hca. destruct (control_leg x n id Hok Hca) as (lk & lg & c & r & Hk & Ht & Hc & Hr & Hl & _ & _). unfold Net_Send_Hello, control_link.
  rewrite Hk. cbn [or_else mbind outcome_bind]. unfold is_control. rewrite Ht. change (CONTROL_LINK =? CONTROL_LINK) with true. cbn [mbind outcome_bind]. rewrite Hc. cbn [or_else mbind outcome_bind]. rewrite Hl. cbn [or_else mbind outcome_bind].
  destruct (Next_Loss_SeqNo CONTROL_LINK (l_data c)) as [s ld]. set (h := mk_phdr _ _ _ _ _ _). set (p := mk_hello _ _ _ _ _ _). set (c' := mk_cdata _ _ _ _ _ _ _ _ _).
  assert (Hsim : similar n (set_cdata id lk c' n)) by (eapply set_link_sim; [exact Hk|]; split_and!; try done; cbn; rewrite Hc; split; eauto).
  destruct (network_flag cfg).
  2:{ eexists. split; [reflexivity|]. split_and!; try done. cbn. congruence. }
  assert (Hsend : exists r' b, Link_Send kbps (dl_ret e) CONTROL_LINK (hello_scat h p) (bucket lg) = Ret (r', b) /\ (0 <= kbps -> bucket_ok kbps (bucket lg) -> bucket_ok kbps b)).
  { destruct (decide (0 <= kbps)) as [Hp|Hp].
    - destruct (link_send_ok kbps Hp (co_bucket _ Hcfg Hp) CONTROL_LINK (hello_scat h p) (dl_ret e) (bucket lg)) as (r' & b & Hs & Hb & _); [by apply (lw_bucket _ _ _ _ (wf_legs _ _ (no_wf _ _ _ Hok) _ lg Hl))|by vm_compute|]. exists r', b. by split.
    - unfold Link_Send. rewrite (proj2 (Z.leb_gt 0 kbps)) by lia. cbn [andb]. rewrite (proj2 (Z.ltb_lt kbps 0)) by lia. eexists _, _. split; [reflexivity|]. lia. }
  destruct Hsend as (r' & b & Hs & Hb). rewrite Ht, Hs. cbn [mbind outcome_bind]. eexists. split; [reflexivity|]. set (n1 := set_cdata id lk c' n) in *. split.
  - eapply similar_trans; [exact Hsim|]. eapply set_leg_sim; [exact Hl|]. by split_and!.
  - split_and!; try done. intros l lg1 lg2 H1. cbn. intros [[<- <-]|[? ?]]%lookup_insert_Some; cbn; congruence.
Qed.

Lemma net_send_keeps x e id req n : net_ok x n -> control_at n id ->
  exists n', Net_Send_Hello cfg e id req n = Ret n' /\ net_ok x n' /\ similar n n' /\ n_queue n' = n_queue n /\ (forall l lg lg', Legs n !! l = Some lg -> Legs n' !! l = Some lg' -> conn lg' = conn lg).
Proof.
  intros Hok Hca. destruct (net_send_hello_ok x e id req n Hok Hca) as (n' & Hs & Hsim & Hq & Hd & _ & Hcn). exists n'. split; [done|]. split; [|done].
  eapply ok_similar; [exact Hok|by eapply wf_sim; [exact (no_wf _ _ _ Hok)|exact Hsim|]|exact Hsim| |by rewrite Hd|].
  - intros l a b Ha Hb. by rewrite (Hcn l a b Ha Hb).
  - eapply hello_ok_mono; [exact (no_hello _ _ _ Hok)|intros i; by apply (sim_control _ _ _ Hsim)|intros t; unfold waits; by rewrite Hq|congruence].
Qed.

Lemma ok_queue x x' e h c a t n : net_ok x n -> timer_ok cfg n (h, c, a) -> (x' = x \/ x' = None /\ (forall i, x = Some i -> (h, c, a) = (HSend_Hello, i, NoArg))) -> net_ok x' (queue e h c a t n).
Proof.
  intros Hok Ht Hx. pose proof (no_wf _ _ _ Hok) as Hw. destruct (queue_timer e h c a t n (wf_queue _ _ Hw)) as [_ Hk]. eapply ok_similar; [exact Hok|by apply wf_queued|apply queue_sim| |reflexivity|].
  - cbn. congruence.
  - eapply hello_ok_mono; [exact (no_hello _ _ _ Hok)| | |].
    + intros i Hi. exact Hi.
    + intros k ?. apply Hk. by right.
    + intros i He Hne. apply Hk. left. destruct Hx as [->|[_ Hx]]; [done|]. by rewrite (Hx i He).
Qed.

Lemma ok_dequeue x h c a n : net_ok x n -> h <> HSend_Hello -> net_ok x (dequeue h c a n).
Proof.
  intros Hok Hh. pose proof (no_wf _ _ _ Hok) as Hw. destruct (dequeue_timer h c a n (wf_queue _ _ Hw)) as [_ Hk]. eapply ok_similar; [exact Hok|by apply wf_dequeued|apply dequeue_sim| |reflexivity|].
  - cbn. congruence.
  - intros i Hi Hx. apply Hk. split; [by apply (no_hello _ _ _ Hok)|congruence].
Qed.

Lemma ok_set_conn x n l lg k : net_ok x n -> Legs n !! l = Some lg -> status k = status (conn lg) -> l_cost k = l_cost (conn lg) -> net_ok x (set_conn l k lg n).
Proof.
  intros Hok Hl Hs Hc. destruct (set_conn_ok cfg n l lg k (no_wf _ _ _ Hok) Hl Hc) as (Hw' & Hb & Hl'). eapply ok_beside; [exact Hok|exact Hl|exact Hw'|exact Hb|exact Hl'|done| |].
  - destruct (no_stat _ _ _ Hok l lg Hl) as [A1 A2 A3 A4 A5]. split; cbn [conn l_links l_dst]; rewrite ?Hs, ?Hc; done.
  - exact (no_hello _ _ _ Hok).
Qed.

Lemma ok_set_cdata x n i lk c : net_ok x n -> Links n !! i = Some lk -> is_Some (c_data lk) -> net_ok x (set_cdata i lk c n).
Proof.
  intros Hok Hk Hc. assert (Hsim : similar n (set_cdata i lk c n)) by (eapply set_link_sim; [exact Hk|]; split_and!; try done; cbn; split; eauto).
  eapply ok_similar; [exact Hok| |exact Hsim|by cbn; congruence|reflexivity|].
  - eapply wf_sim; [exact (no_wf _ _ _ Hok)|exact Hsim|done].
  - eapply hello_ok_mono; [exact (no_hello _ _ _ Hok)|intros j; by apply (sim_control _ _ _ Hsim)|done|congruence].
Qed.

Lemma send_hello_ok e id n : net_ok (Some id) n -> control_at n id ->
  exists n' lk lg lg', Send_Hello cfg e id n = Ret n' /\ net_ok None n' /\ Links n !! id = Some lk /\ Legs n !! lk_leg lk = Some lg /\
    Legs n' !! lk_leg lk = Some lg' /\ l_dst lg' = l_dst lg /\ l_links lg' = l_links lg /\ conn lg' = with_hellos (s16 (hellos_out (conn lg) + 1)) (conn lg) /\
    (hellos_out (conn lg) = DEAD_LINK_CNT -> waits n' (HDead_Leg, id, NoArg)) /\ (forall k, waits n k -> waits n' k).
Proof.
  intros Hok Hca. destruct (control_leg _ n id Hok Hca) as (lk & lg & c & r & Hk & Ht & Hc & Hr & Hl & Hi & Hst). unfold Send_Hello, control_link.
  rewrite Hk. cbn [or_else mbind outcome_bind]. unfold is_control. rewrite Ht. change (CONTROL_LINK =? CONTROL_LINK) with true. cbn [mbind outcome_bind]. rewrite Hl. cbn [or_else mbind outcome_bind].
  set (k := hellos_out (conn lg)). set (n1 := if k =? hello_cnt_start cfg then _ else n).
  assert (H1 : net_ok (Some id) n1 /\ Legs n1 = Legs n /\ control_at n1 id /\ forall t, waits n t -> waits n1 t).
  { unfold n1. destruct (k =? hello_cnt_start cfg); [|done]. split; [apply ok_queue with (Some id); [done|by split|by left]|]. split; [done|]. split; [done|].
    intros t Hwt. apply (queue_timer _ _ _ _ _ _ (wf_queue _ _ (no_wf _ _ _ Hok))). by right. }
  destruct H1 as (Hok1 & Hl1 & Hca1 & Hw1). set (n2 := if k =? DEAD_LINK_CNT then _ else n1).
  assert (H2 : net_ok (Some id) n2 /\ Legs n2 = Legs n1 /\ control_at n2 id /\ (forall t, waits n1 t -> waits n2 t) /\ (k = DEAD_LINK_CNT -> waits n2 (HDead_Leg, id, NoArg))).
  { unfold n2. destruct (Z.eqb_spec k DEAD_LINK_CNT) as [|Hne]; [|done]. split; [apply ok_queue with (Some id); [done|done|by left]|]. split; [done|]. split; [done|].
    destruct (queue_timer e HDead_Leg id NoArg (dead_timeout cfg) n1 (wf_queue _ _ (no_wf _ _ _ Hok1))) as [_ Hq]. split; [intros t Hwt; apply Hq; by right|intros _; apply Hq; by left]. }
  destruct H2 as (Hok2 & Hl2 & Hca2 & Hw2 & Hdead). destruct (net_send_keeps (Some id) e id false n2 Hok2 Hca2) as (n3 & Hs & Hok3 & Hsim & Hq3 & Hcn). rewrite Hs. cbn [mbind outcome_bind].
  assert (Hl2' : Legs n2 !! lk_leg lk = Some lg) by (by rewrite Hl2, Hl1). destruct (sim_leg_fwd _ _ _ _ _ Hsim Hl2') as (lg3 & Hl3 & (E1 & E2 & E3 & E4 & _)). rewrite Hl3. cbn [or_else mbind outcome_bind].
  pose proof (Hcn _ _ _ Hl2' Hl3) as Hc3. rewrite Hc3. assert (Hwt3 : forall t, waits n3 t <-> waits n2 t) by (intros t; unfold waits; by rewrite Hq3).
  set (n4 := set_conn _ _ _ n3). assert (Hok4 : net_ok (Some id) n4) by (apply ok_set_conn; [done|done|by rewrite Hc3|by rewrite Hc3]).
  assert (Hca4 : control_at n4 id) by (by apply (sim_control _ _ _ Hsim)).
  destruct (queue_timer e HSend_Hello id NoArg (hello_timeout cfg) n4 (wf_queue _ _ (no_wf _ _ _ Hok4))) as [_ Hq5].
  eexists _, lk, lg, (mk_leg (src_iid lg3) (dst_iid lg3) (l_dst lg3) (l_links lg3) (with_hellos (s16 (k + 1)) (conn lg)) (bucket lg3)). split; [reflexivity|]. split.
  { apply ok_queue with (Some id); [done|by split|right]. split; [done|]. intros i [= ->]. done. }
  split; [done|]. split; [done|]. split; [unfold n4, set_conn, set_leg, queue; cbn; by rewrite lookup_insert_eq|]. split; [done|]. split; [done|]. split; [done|]. split.
  - intros He. apply Hq5. right. change (waits n3 (HDead_Leg, id, NoArg)). by apply Hwt3, Hdead.
  - intros t Hwt. apply Hq5. right. change (waits n3 t). by apply Hwt3, Hw2, Hw1.
Qed.

(** ** The other timers *)
Lemma request_ok x e id n : net_ok x n -> control_at n id -> exists n', Send_Hello_Request cfg e id n = Ret n' /\ net_ok x n'.
Proof. intros Hok Hca. destruct (net_send_keeps x e id true n Hok Hca) as (n' & H & Hok' & _). by exists n'. Qed.

Lemma request_cnt_ok x e id n : net_ok x n -> control_at n id -> exists n', Send_Hello_Request_Cnt cfg e id n = Ret n' /\ net_ok x n'.
Proof.
  intros Hok Hca. pose proof Hca as (lk & Hk & Ht). unfold Send_Hello_Request_Cnt, control_link. rewrite Hk. cbn [or_else mbind outcome_bind]. unfold is_control. rewrite Ht. change (CONTROL_LINK =? CONTROL_LINK) with true. cbn [mbind outcome_bind].
  destruct (net_send_keeps x e id true n Hok Hca) as (n' & -> & Hok' & Hsim & _). cbn [mbind outcome_bind]. eexists. split; [reflexivity|]. apply ok_queue with x; [done|split; [done|by apply (sim_control _ _ _ Hsim)]|by left].
Qed.

Lemma fill_bucket_ok x e l n : net_ok x n -> 0 <= kbps -> is_Some (Legs n !! l) -> exists n', Fill_Bucket cfg e l n = Ret n' /\ net_ok x n'.
Proof.
  intros Hok Hp [lg Hl]. unfold Fill_Bucket. rewrite (proj2 (Z.ltb_ge kbps 0)) by lia. set (n1 := queue e HFill_Leg_Bucket 0 (LegArg l) _ n).
  assert (Hok1 : net_ok x n1) by (apply ok_queue with x; [done|split; [done|exists l; split; [done|by eexists]]|by left]).
  change (Legs n1) with (Legs n). rewrite Hl. cbn [or_else mbind outcome_bind].
  destruct (fill_ok kbps Hp (co_bucket _ Hcfg Hp) (now e) (bucket lg)) as (b & -> & Hb & _); [by apply (lw_bucket _ _ _ _ (wf_legs _ _ (no_wf _ _ _ Hok) _ lg Hl))|]. cbn [mbind outcome_bind].
  eexists. split; [reflexivity|]. set (lg' := mk_leg _ _ _ _ _ b). assert (Hsim : similar n1 (set_leg l lg' n1)) by (eapply set_leg_sim; [exact Hl|by split_and!]).
  eapply ok_similar; [exact Hok1| |exact Hsim| |reflexivity|].
  - eapply wf_sim; [exact (no_wf _ _ _ Hok1)|exact Hsim|done].
  - intros l1 a c Ha. change (Legs n1) with (Legs n) in Ha. cbn. intros [[<- <-]|[? ?]]%lookup_insert_Some; cbn; congruence.
  - eapply hello_ok_mono; [exact (no_hello _ _ _ Hok1)|intros j; by apply (sim_control _ _ _ Hsim)|done|congruence].
Qed.

(** A leg that is taken down. *)
Lemma ok_disconnect x e n l lg : net_ok x n -> Legs n !! l = Some lg -> status (conn lg) <> DISCONNECTED_LEG ->
  exists n' m', Disconnect_Network_Leg e l n = Ret n' /\ net_ok x n' /\ beside l (l_dst lg) n n' /\
    Legs n' !! l = Some (mk_leg (src_iid lg) (dst_iid lg) (l_dst lg) m' (dropped_conn (now e) (conn lg)) (bucket lg)) /\
    (forall m, m' !! m = if bool_decide (m = INTRUSION_TOL_LINK) then l_links lg !! m else None) /\
    (forall i lk, Links n' !! i = Some lk -> Links n !! i = Some lk) /\ my_edge n' (l_dst lg) = Some (-1, Some l).
Proof.
  intros Hok Hl Hst. destruct (disconnect_ok cfg e n l lg (no_wf _ _ _ Hok) Hl Hst) as (n' & m' & Hd & Hw' & Hb & Hl' & Hm & Hk & Hh & He & _); [intros _; by apply (st_nb _ _ (no_stat _ _ _ Hok l lg Hl))|].
  exists n', m'. split; [done|]. split; [|done]. eapply ok_beside; [exact Hok|exact Hl|exact Hw'|exact Hb|exact Hl'|done| |apply Hh, (no_hello _ _ _ Hok)].
  assert (Hno : m' !! CONTROL_LINK = None) by (by rewrite Hm). split; cbn [conn status l_links l_cost l_dst dropped_conn]; try done; try (by split).
  - intros m i. rewrite Hm. case_bool_decide; [by right; right|done].
Qed.

Lemma dead_leg_ok x e id n : net_ok x n -> exists n', Dead_Leg e id n = Ret n' /\ net_ok x n'.
Proof.
  intros Hok. unfold Dead_Leg. destruct (Links n !! id) as [lk|] eqn:Hk; [|by exists n]. unfold is_control. destruct (Z.eqb_spec (link_type lk) CONTROL_LINK) as [Ht|]; [|by exists n]. cbn [negb].
  destruct (control_leg x n id Hok) as (lk' & lg & c & r & Hk' & _ & _ & _ & Hl & _ & Hst); [by exists lk|]. assert (lk' = lk) as -> by congruence. rewrite Hl. cbn [or_else mbind outcome_bind].
  destruct (_ <? _); [by exists n|]. destruct (ok_disconnect x e n (lk_leg lk) lg Hok Hl Hst) as (n' & m' & H & Hok' & _). by exists n'.
Qed.
End State.
