(* ===== verification/HelloRecv.v ===== *)
(** * HelloRecv: hellos that arrive

    A leg is connected by [connect]; every hello is handled without failure and
    keeps the invariant of the connections. *)
From Stdlib Require Import SpecFloat.
From stdpp Require Import base list gmap numbers option sets.
From Stdlib Require Import ZArith Lia.
From S2P Require Import Prelude CFloat HashMap StdUtil Events NetTypes Route ReliableLink ITFrag Leg LegProps Daemon StateFlood FloodProof FloodTotal Hello HelloProof HelloLink HelloMake HelloCost HelloState.
#[local] Open Scope Z_scope.

Section Recv.
Context (cfg : net_conf) (Hcfg : conf_ok cfg).
#[local] Notation kbps := (Leg_Rate_Limit_kbps cfg).
#[local] Notation wf := (wf cfg).
#[local] Notation net_ok := (net_ok cfg).
#[local] Notation similar := (similar cfg).

(** ** Connecting *)

(** On the way from [n] to a connected leg with the connection [k] and the links [m]. *)
Record going (l : Z) (lg : Network_Leg) (k : leg_conn) (n : net) (m : gmap Z Z) (n' : net) : Prop := {
  g_wf : wf n'; g_beside : beside l (l_dst lg) n n'; g_leg : Legs n' !! l = Some (mk_leg (src_iid lg) (dst_iid lg) (l_dst lg) m k (bucket lg));
  g_waits : forall t, waits n t -> waits n' t; g_control : forall i, control_at n' i -> control_at n i; g_nb : nb n' (l_dst lg) = nb n (l_dst lg);
  g_edge : my_edge n' (l_dst lg) = Some (l_cost k, Some l); g_if : Known_Interfaces n' = Known_Interfaces n }.

Section Going.
Context (l : Z) (lg : Network_Leg) (k : leg_conn) (n : net) (Hmade : made n <= MAX_NEIGHBORS) (Hup : status k = CONNECTED_LEG) (Hcost : l_cost k <> -1).
#[local] Notation going := (going l lg k n).

(** Changes of a link that keep its shape. *)
Lemma going_link m n' i lk lk' : going m n' -> Links n' !! i = Some lk -> link_sim lk lk' -> going m (set_link i lk' n').
Proof.
  intros [G1 G2 G3 G4 G5 G6 G7 G8] Hk Hs. assert (Hsim : similar n' (set_link i lk' n')) by (by eapply set_link_sim). split; try done.
  - eapply wf_sim; [exact G1|exact Hsim|done].
  - etrans; [exact G2|by split].
  - intros j Hj. apply G5. by apply (sim_control _ _ _ _ Hsim).
Qed.

Lemma going_queue m n' e h c a t : going m n' -> timer_ok cfg n' (h, c, a) -> going m (queue e h c a t n').
Proof.
  intros [G1 G2 G3 G4 G5 G6 G7 G8] Ht. split; try done; [by apply wf_queued|etrans; [exact G2|by split]|].
  intros k0 Hk0. apply (queue_timer _ _ _ _ _ _ (wf_queue _ _ G1)). right. by apply G4.
Qed.

Lemma going_member m n' mode i : going m n' -> m !! mode = Some i -> exists lk, Links n' !! i = Some lk /\ link_type lk = mode /\ lk_leg lk = l /\ shape lk.
Proof.
  intros [G1 _ G3 _ _ _ _ _] Hm. destruct (lw_links _ _ _ _ (wf_legs _ _ G1 l _ G3) mode i Hm) as (lk & H1 & H2 & H3). exists lk. split_and!; try done. by destruct (wf_links _ _ G1 i lk H1) as (_ & _ & ? & _).
Qed.

Lemma going_report m n' t i : going m n' -> m !! CONTROL_LINK = Some i -> exists n2, report t i n' = Ret n2 /\ going m n2.
Proof.
  intros Hg Hm. destruct (going_member m n' _ i Hg Hm) as (lk & Hk & Ht & _ & [Hc _]). destruct (proj2 Hc Ht) as [c Hcd]. unfold report. rewrite Hk. cbn [or_else mbind outcome_bind]. rewrite Hcd. cbn [or_else mbind outcome_bind].
  eexists. split; [reflexivity|]. eapply going_link; [exact Hg|exact Hk|]. split_and!; try done; cbn; rewrite Hcd; split; eauto.
Qed.

Lemma going_flags m n' f i mode : going m n' -> m !! mode = Some i -> mode = CONTROL_LINK \/ mode = RELIABLE_UDP_LINK -> exists n2, set_flags i f n' = Ret n2 /\ going m n2.
Proof.
  intros Hg Hm Hmode. destruct (going_member m n' _ i Hg Hm) as (lk & Hk & Ht & _ & [_ Hr]). destruct (proj2 Hr ltac:(by rewrite Ht)) as [r Hrd]. unfold set_flags. rewrite Hk. cbn [or_else mbind outcome_bind]. rewrite Hrd. cbn [or_else mbind outcome_bind].
  eexists. split; [reflexivity|]. eapply going_link; [exact Hg|exact Hk|]. split_and!; try done; cbn; rewrite Hrd; split; eauto.
Qed.

Lemma going_create e m n' mode : going m n' -> m !! mode = None -> 0 <= mode < MAX_LINKS_4_EDGE -> mode <> CONTROL_LINK -> is_Some (m !! CONTROL_LINK) -> (mode = INTRUSION_TOL_LINK -> Config_File_Found cfg = true) ->
  exists i n2, Create_Link cfg e l mode n' = Ret (i, n2) /\ going (<[mode := i]> m) n2.
Proof.
  intros [G1 G2 G3 G4 G5 G6 G7 G8] Hm Hr Hc Hctl Hit.
  destruct (create_data_ok cfg e n' l _ mode G1 ltac:(by rewrite (bs_made _ _ _ _ G2)) G3 Hm Hr Hc Hctl Hup Hcost Hit) as (i & n2 & Hcr & Hw2 & Hb2 & Hfree & Hk2 & Hl2 & Hq2 & Hnb2 & He2 & Hi2).
  exists i, n2. split; [exact Hcr|]. split; try done.
  - etrans; [exact G2|exact Hb2].
  - intros t Ht. unfold waits. rewrite Hq2. by apply G4.
  - intros j (lk & Hj & Ht). rewrite Hk2 in Hj. apply lookup_insert_Some in Hj as [[<- <-]|[_ Hj]]; [done|]. apply G5. by exists lk.
  - cbn [l_dst] in Hnb2. by rewrite Hnb2.
  - by rewrite He2.
  - by rewrite Hi2.
Qed.
End Going.

Lemma initial_cost_ok : exists init, Network_Leg_Initial_Cost cfg = Ret init /\ init <> -1.
Proof.
  pose proof (co_weight _ Hcfg) as H. unfold Network_Leg_Initial_Cost. repeat (apply elem_of_cons in H as [->|H]; [cbn; by eexists|]). by apply not_elem_of_nil in H.
Qed.

Definition connected_conn (c : Z) (k : leg_conn) : leg_conn :=
  mk_conn CONNECTED_LEG c (ctrl_link_id k) (other_side_ctrl_link_id k) (hellos_out k) (last_recv_hello k) (connect_cnter k) (last_connected k).

Lemma status_cost (k : leg_conn) c : mk_conn (status k) c (ctrl_link_id k) (other_side_ctrl_link_id k) (hellos_out k) (last_recv_hello k) (connect_cnter k) (last_connected k) = with_cost c k.
Proof. done. Qed.

(** The leg with its initial cost. *)
Lemma connect_start e n l lg id : net_ok None n -> Legs n !! l = Some lg -> status (conn lg) = NOT_YET_CONNECTED_LEG -> l_links lg !! CONTROL_LINK = Some id ->
  exists init n1, Network_Leg_Initial_Cost cfg = Ret init /\ init <> -1 /\
    Network_Leg_Set_Cost e l init (set_conn l (connected_conn (l_cost (conn lg)) (conn lg)) lg n) = Ret n1 /\ going l lg (connected_conn init (conn lg)) n (l_links lg) n1.
Proof.
  intros Hok Hl Hst Hctl. pose proof (no_wf _ _ _ Hok) as Hw. destruct (no_stat _ _ _ Hok l lg Hl) as [S1 S2 S3 S4 S5]. destruct initial_cost_ok as (init & Hinit & Hne).
  assert (Hc1 : l_cost (conn lg) = -1) by (destruct (decide (l_cost (conn lg) = -1)) as [|Hx]; [done|]; apply S2 in Hx; congruence).
  set (k0 := connected_conn (l_cost (conn lg)) (conn lg)). destruct (set_conn_ok cfg n l lg k0 Hw Hl eq_refl) as (Hw1 & Hb1 & Hl1). set (n0 := set_conn l k0 lg n) in *.
  destruct (set_cost_ok cfg e n0 l _ init Hw1 Hl1) as (n1 & Hs & Hw2 & Hb2 & Hk2 & Hl2 & Hwt2 & Hnb2 & He2 & Hi2); [by split|intros _ _; by eexists|by cbn; rewrite Hc1|].
  exists init, n1. split; [done|]. split; [done|]. split; [exact Hs|]. cbn [conn l_cost k0 connected_conn l_dst src_iid dst_iid l_links bucket] in *. split; try done.
  - by etrans.
  - intros i (lk & Hi & Ht). rewrite Hk2 in Hi. by exists lk.
  - rewrite Hnb2. rewrite bool_decide_eq_false_2 by (intros [? ?]; done). done.
Qed.

Lemma connect_ok e n l lg id : net_ok None n -> Legs n !! l = Some lg -> status (conn lg) = NOT_YET_CONNECTED_LEG -> l_links lg !! CONTROL_LINK = Some id ->
  exists n' init m', connect cfg e id l n = Ret n' /\ net_ok None n' /\ Network_Leg_Initial_Cost cfg = Ret init /\
    Legs n' !! l = Some (mk_leg (src_iid lg) (dst_iid lg) (l_dst lg) m' (connected_conn init (conn lg)) (bucket lg)) /\ my_edge n' (l_dst lg) = Some (init, Some l) /\
    waits n' (HSend_Hello, id, NoArg).
Proof.
  intros Hok Hl Hst Hctl. destruct (no_stat _ _ _ Hok l lg Hl) as [S1 S2 S3 S4 S5]. pose proof (no_made _ _ _ Hok) as Hmade.
  destruct (connect_start e n l lg id Hok Hl Hst Hctl) as (init & n1 & Hinit & Hne & Hset & G1). unfold connect. rewrite Hl. cbn [or_else mbind outcome_bind]. fold (connected_conn (l_cost (conn lg)) (conn lg)).
  rewrite Hinit. cbn [mbind outcome_bind]. rewrite Hset. cbn [mbind outcome_bind]. set (k := connected_conn init (conn lg)) in *. assert (Hk : status k = CONNECTED_LEG) by done. assert (Hkc : l_cost k <> -1) by done.
  destruct (going_report l lg k n _ n1 (now e) id G1 Hctl) as (n2 & -> & G2). cbn [mbind outcome_bind].
  assert (Hfree : forall m, m <> CONTROL_LINK -> m <> INTRUSION_TOL_LINK -> l_links lg !! m = None).
  { intros m H1 H2. destruct (l_links lg !! m) as [i|] eqn:Em; [|done]. destruct (S3 m i Em) as [?|[?|?]]; congruence. }
  destruct (going_create l lg k n Hmade Hk Hkc e _ n2 UDP_LINK G2) as (udp & n3 & -> & G3); [by apply Hfree|done|done|by eexists|done|]. cbn [mbind outcome_bind].
  destruct (going_create l lg k n Hmade Hk Hkc e _ n3 RELIABLE_UDP_LINK G3) as (rel & n4 & -> & G4); [rewrite lookup_insert_ne by done; by apply Hfree|done|done|rewrite lookup_insert_ne by done; by eexists|done|]. cbn [mbind outcome_bind].
  destruct (going_create l lg k n Hmade Hk Hkc e _ n4 REALTIME_UDP_LINK G4) as (rt & n5 & -> & G5); [rewrite !lookup_insert_ne by done; by apply Hfree|done|done|rewrite !lookup_insert_ne by done; by eexists|done|]. cbn [mbind outcome_bind].
  destruct (lw_remote _ _ _ _ (wf_legs _ _ (no_wf _ _ _ Hok) l lg Hl)) as (rem & Hrem & _). unfold Get_Interface. rewrite (g_if _ _ _ _ _ _ G5), Hrem. cbn [or_else mbind outcome_bind].
  set (m5 := <[REALTIME_UDP_LINK := rt]> _) in *.
  assert (Hit : exists x n6 m6, (if Config_File_Found cfg && it_edge cfg (net_addr rem) then Create_Link cfg e l INTRUSION_TOL_LINK n5 else Ret (0, n5)) = Ret (x, n6) /\ going l lg k n m6 n6 /\ forall m, m <> INTRUSION_TOL_LINK -> m6 !! m = m5 !! m).
  { destruct (Config_File_Found cfg && it_edge cfg (net_addr rem)) eqn:Ec; [|by exists 0, n5, m5]. apply andb_true_iff in Ec as [Ec _]. destruct (m5 !! INTRUSION_TOL_LINK) as [j|] eqn:Ej.
    - exists j, n5, m5. split; [|done]. unfold Create_Link. rewrite (g_leg _ _ _ _ _ _ G5). cbn [or_else mbind outcome_bind].
      destruct (made_local cfg n5 l _ (g_wf _ _ _ _ _ _ G5) (g_leg _ _ _ _ _ _ G5)) as (loc & Hloc & Hown). rewrite Hloc. cbn [or_else mbind outcome_bind]. rewrite Hown. cbn [negb l_links]. by rewrite Ej.
    - destruct (going_create l lg k n Hmade Hk Hkc e m5 n5 INTRUSION_TOL_LINK G5 Ej) as (it & n6 & H6 & G6); [done|done|unfold m5; rewrite !lookup_insert_ne by done; by eexists|done|].
      exists it, n6, (<[INTRUSION_TOL_LINK := it]> m5). split; [done|]. split; [done|]. intros m Hm. by rewrite lookup_insert_ne. }
  destruct Hit as (x & n6 & m6 & -> & G6 & Hm6). cbn [mbind outcome_bind].
  assert (M0 : m6 !! CONTROL_LINK = Some id) by (rewrite Hm6 by done; unfold m5; by rewrite !lookup_insert_ne by done).
  assert (M1 : m6 !! RELIABLE_UDP_LINK = Some rel) by (rewrite Hm6 by done; unfold m5; rewrite lookup_insert_ne by done; apply lookup_insert_eq).
  destruct (going_flags l lg k n m6 n6 CONNECTED_LINK id CONTROL_LINK G6 M0) as (n7 & -> & G7); [by left|]. cbn [mbind outcome_bind].
  destruct (going_flags l lg k n m6 n7 CONNECTED_LINK rel RELIABLE_UDP_LINK G7 M1) as (n8 & -> & G8); [by right|]. cbn [mbind outcome_bind].
  destruct (going_member l lg k n m6 n8 CONTROL_LINK id G8 M0) as (lk0 & Hk0 & Ht0 & _ & [_ Hs0]). destruct (going_member l lg k n m6 n8 RELIABLE_UDP_LINK rel G8 M1) as (lk1 & Hk1 & Ht1 & _ & [_ Hs1]).
  set (n9 := queue e HSend_Hello id NoArg zero_timeout n8). assert (G9 : going l lg k n m6 n9) by (apply going_queue; [done|split; [done|by exists lk0]]).
  set (n10 := queue e HTry_Send id NoArg zero_timeout n9). assert (G10 : going l lg k n m6 n10) by (apply going_queue; [done|split; [done|exists lk0; split; [done|apply Hs0; by left]]]).
  assert (G11 : going l lg k n m6 (queue e HTry_Send rel NoArg zero_timeout n10)) by (apply going_queue; [done|split; [done|exists lk1; split; [done|apply Hs1; by right]]]).
  eexists _, init, m6. split; [reflexivity|]. destruct G11 as [W1 W2 W3 W4 W5 W6 W7 W8]. split.
  - eapply ok_beside; [exact Hok|exact Hl|exact W1|exact W2|exact W3|done| |].
    + split; cbn [conn l_links l_dst k connected_conn status l_cost]; try done; try (by left); try (by split; [done|congruence]); try (by split).
      * intros _ m Hm. rewrite Hm6 by (intros ->; by vm_compute in Hm; set_solver). unfold m5. set_unfold in Hm. destruct Hm as [->|[->|[->|[]]]]; [rewrite !lookup_insert_ne by done|..]. 
        -- rewrite lookup_insert_eq. by eexists.
        -- rewrite lookup_insert_ne, lookup_insert_eq by done. by eexists.
        -- rewrite lookup_insert_eq. by eexists.
      * intros _. rewrite W6. apply S5. congruence.
    + eapply hello_ok_mono; [exact (no_hello _ _ _ Hok)|exact W5|exact W4|done].
  - split; [done|]. split; [exact W3|]. split; [exact W7|]. apply W4. apply (no_hello _ _ _ Hok); [|done]. by apply (control_of cfg n l lg id (no_wf _ _ _ Hok)).
Qed.

(** ** A hello of the session *)
Definition heard (t : sp_time) (k : leg_conn) : leg_conn :=
  mk_conn (status k) (l_cost k) (ctrl_link_id k) (other_side_ctrl_link_id k) 0 t (connect_cnter k) (last_connected k).

Definition counted (t : sp_time) (k : leg_conn) : leg_conn :=
  mk_conn (status k) (l_cost k) (ctrl_link_id k) (other_side_ctrl_link_id k) 0 t (s16 (connect_cnter k + 1)) (last_connected k).

Definition is_old (p : hello_packet) (c : Control_Data) : bool := u32 (h_seq_no p + 3) <? other_side_hello_seq c.

(** The end of [hello_body], by the status of the leg. *)
Definition after_hello (e : net_env) (id l : Z) (lg : Network_Leg) (c : Control_Data) (n : net) : outcome net :=
  match status (conn lg) with
  | CONNECTED_LEG =>
      edge ← or_else (Get_Edge (dae n) (My_Address (dae n)) (l_dst lg)) Fault;
      if wants_update cfg e c (my_timestamp_sec edge) then '(r, n) ← Network_Leg_Update_Cost cfg e l n; if 0 <? r then report (now e) id n else Ret n else Ret n
  | NOT_YET_CONNECTED_LEG =>
      let n := set_conn l (counted (now e) (conn lg)) lg n in
      if CONNECT_LINK_CNT <=? s16 (connect_cnter (conn lg) + 1) then connect cfg e id l n else Ret n
  | DISCONNECTED_LEG => Exit
  end.

Lemma ok_set_link x n i lk lk' : net_ok x n -> Links n !! i = Some lk -> link_sim lk lk' -> net_ok x (set_link i lk' n).
Proof.
  intros Hok Hk Hs. assert (Hsim : similar n (set_link i lk' n)) by (by eapply set_link_sim). eapply ok_similar; [exact Hok| |exact Hsim|by cbn; congruence|reflexivity|].
  - eapply wf_sim; [exact (no_wf _ _ _ Hok)|exact Hsim|done].
  - eapply hello_ok_mono; [exact (no_hello _ _ _ Hok)|intros j; by apply (sim_control _ _ _ _ Hsim)|done|congruence].
Qed.

Lemma ok_report t n l lg id : net_ok None n -> Legs n !! l = Some lg -> l_links lg !! CONTROL_LINK = Some id -> exists n', report t id n = Ret n' /\ net_ok None n' /\ Legs n' = Legs n /\ n_queue n' = n_queue n.
Proof.
  intros Hok Hl Hi. destruct (control_leg cfg None n id Hok) as (lk & lg0 & c & r & Hk & _ & Hc & _); [by apply (control_of cfg n l lg id (no_wf _ _ _ Hok))|]. unfold report. rewrite Hk. cbn [or_else mbind outcome_bind]. rewrite Hc. cbn [or_else mbind outcome_bind].
  eexists. split; [reflexivity|]. split; [|done]. apply ok_set_cdata; [done|done|by eexists].
Qed.

Lemma hello_body_split e id l lg lk c h p n : net_ok None n -> Links n !! id = Some lk -> c_data lk = Some c -> lk_leg lk = l -> link_type lk = CONTROL_LINK -> Legs n !! l = Some lg -> l_links lg !! CONTROL_LINK = Some id -> valid_seq (seq_no h) ->
  (exists n1, net_ok None n1 /\ Legs n1 = Legs n /\ hello_body cfg e id l h p n = Ret n1 /\ is_old p c = true) \/
  (exists n1 c1, net_ok None n1 /\ Legs n1 = <[l := mk_leg (src_iid lg) (dst_iid lg) (l_dst lg) (l_links lg) (heard (now e) (conn lg)) (bucket lg)]> (Legs n) /\
     hello_body cfg e id l h p n = after_hello e id l lg c1 n1 /\ is_old p c = false /\ ~ waits n1 (HHello_Request_Cnt, id, NoArg)).
Proof.
  intros Hok Hk Hc Hlk Ht Hl Hi Hseq. unfold hello_body. rewrite Hk. cbn [or_else mbind outcome_bind]. rewrite Hc. cbn [or_else mbind outcome_bind]. destruct (check_loss_total (seq_no h) CONTROL_LINK (l_data c) Hseq) as [ld Hld]. rewrite Hld. cbn [or_else mbind outcome_bind].
  set (c1 := with_loss ld c). set (n1 := set_cdata id lk c1 n). assert (Hok1 : net_ok None n1) by (apply ok_set_cdata; [done|done|by rewrite Hc; eexists]). change (other_side_hello_seq c1) with (other_side_hello_seq c). fold (is_old p c).
  destruct (is_old p c); [left; by exists n1|right]. destruct (measure (now e) p c1) as [c2 fresh].
  destruct (wf_links _ _ (no_wf _ _ _ Hok) id lk Hk) as (_ & _ & [_ Hr] & _). destruct (proj2 Hr (or_introl Ht)) as [r Hrd].
  assert (Hk1 : Links n1 !! id = Some (mk_lk (link_type lk) (lk_leg lk) (r_data lk) (Some c1))) by apply lookup_insert_eq.
  assert (H2 : exists n2, (if fresh then r ← or_else (r_data lk) Fault; Ret (set_link id (mk_lk (link_type lk) (lk_leg lk) (Some (fst r, c_rtt c2)) (Some c2)) n1) else Ret (set_cdata id lk c2 n1)) = Ret n2 /\ net_ok None n2 /\ Legs n2 = Legs n /\ dae n2 = dae n).
  { rewrite Hrd. cbn [or_else mbind outcome_bind]. destruct fresh; (eexists; split; [reflexivity|]; split; [|done]); (eapply ok_set_link; [exact Hok1|exact Hk1|]; split_and!; try done; cbn; rewrite ?Hrd; split; eauto). }
  destruct H2 as (n2 & -> & Hok2 & Hl2 & Hd2). cbn [mbind outcome_bind]. rewrite Hl2, Hl. cbn [or_else mbind outcome_bind]. fold (heard (now e) (conn lg)).
  set (n3 := set_conn l (heard (now e) (conn lg)) lg n2). assert (Hok3 : net_ok None n3) by (apply ok_set_conn; [done|by rewrite Hl2|done|done]).
  set (n4 := dequeue HHello_Request_Cnt id NoArg n3). assert (Hok4 : net_ok None n4) by (by apply ok_dequeue).
  assert (Hnot : ~ waits n4 (HHello_Request_Cnt, id, NoArg)) by (intros Hx; apply (dequeue_timer _ _ _ _ (wf_queue _ _ (no_wf _ _ _ Hok3))) in Hx as [_ Hx]; done).
  assert (Hca : control_at n4 id).
  { apply (sim_control cfg n4 n4); [apply similar_refl|]. apply (control_of cfg n4 l (mk_leg (src_iid lg) (dst_iid lg) (l_dst lg) (l_links lg) (heard (now e) (conn lg)) (bucket lg))); [apply (no_wf _ _ _ Hok4)| |exact Hi]. unfold n4, n3, set_conn, set_leg, dequeue. cbn. by rewrite lookup_insert_eq. }
  set (n5 := if Is_hello_req (type h) then _ else n4).
  assert (H5 : net_ok None n5 /\ Legs n5 = Legs n3 /\ ~ waits n5 (HHello_Request_Cnt, id, NoArg)).
  { unfold n5. destruct (Is_hello_req (type h)); [|done]. split; [apply ok_queue with None; [done|by split|by left]|]. split; [done|]. intros Hx. apply (queue_timer _ _ _ _ _ _ (wf_queue _ _ (no_wf _ _ _ Hok4))) in Hx as [|]; done. }
  destruct H5 as (Hok5 & Hl5 & Hnot5). exists n5, c2. split; [done|]. split; [rewrite Hl5; unfold n3, set_conn, set_leg; cbn; by rewrite Hl2|]. split; [|done]. reflexivity.
Qed.

Lemma leg_cost_ret t c prev base : exists r, leg_cost cfg t c prev base = Ret r.
Proof.
  pose proof (co_weight _ Hcfg) as H. unfold leg_cost. repeat (apply elem_of_cons in H as [->|H]; [cbn -[SFltb SFleb F32.sub F32.of_Z F64.mul F64.add const to_single to_double SFtrunc round16 Expected_Latency E_compare_time]; repeat case_match; by eexists|]).
  by apply not_elem_of_nil in H.
Qed.

Lemma update_cost_ok e n l lg id : net_ok None n -> Legs n !! l = Some lg -> l_links lg !! CONTROL_LINK = Some id -> status (conn lg) = CONNECTED_LEG ->
  exists r n' lg', Network_Leg_Update_Cost cfg e l n = Ret (r, n') /\ net_ok None n' /\ Legs n' !! l = Some lg' /\ l_links lg' = l_links lg.
Proof.
  intros Hok Hl Hi Hst. destruct (no_stat _ _ _ Hok l lg Hl) as [S1 S2 S3 S4 S5]. unfold Network_Leg_Update_Cost. rewrite Hl. cbn [or_else mbind outcome_bind]. rewrite Hi. cbn [or_else mbind outcome_bind].
  destruct (control_leg cfg None n id Hok) as (lk & lg0 & c & r0 & Hk & Ht & Hc & _); [by apply (control_of cfg n l lg id (no_wf _ _ _ Hok))|]. rewrite Hk. cbn [or_else mbind outcome_bind]. unfold is_control. rewrite Ht. change (CONTROL_LINK =? CONTROL_LINK) with true. cbn [negb]. rewrite Hc. cbn [or_else mbind outcome_bind].
  pose proof (lw_edge _ _ _ _ (wf_legs _ _ (no_wf _ _ _ Hok) l lg Hl)) as He. unfold my_edge in He. destruct (Get_Edge (dae n) (My_Address (dae n)) (l_dst lg)) as [ed|]; [|done]. cbn [or_else mbind outcome_bind].
  destruct (leg_cost_ret (now e) c (l_cost (conn lg)) (base_cost (extra ed))) as [[v|] Hv]; rewrite Hv; cbn [mbind outcome_bind].
  2:{ by exists (-1), n, lg. }
  pose proof (cost_alive cfg _ _ _ _ _ Hcfg Hv) as Hne. destruct (set_cost_ok cfg e n l lg v (no_wf _ _ _ Hok) Hl) as (n1 & -> & Hw1 & Hb1 & Hk1 & Hl1 & Hwt1 & Hnb1 & _); [by split|intros _ _; by eexists|done|]. cbn [mbind outcome_bind].
  eexists 1, n1, _. split; [reflexivity|]. split; [|by split; [exact Hl1|]]. eapply ok_beside; [exact Hok|exact Hl|exact Hw1|exact Hb1|exact Hl1|done| |].
  - split; cbn [conn l_links l_dst status l_cost with_cost]; try done. rewrite Hnb1, bool_decide_eq_false_2 by tauto. done.
  - eapply hello_ok_mono; [exact (no_hello _ _ _ Hok)| |exact Hwt1|done]. intros i (lk' & Hi' & Ht'). rewrite Hk1 in Hi'. by exists lk'.
Qed.
End Recv.
