(* ===== verification/HelloDisp.v ===== *)
(** * HelloDisp: sessions, new neighbours and dispatch

    Hellos of this and of another session, the interface, leg and link of a new
    neighbour, and the dispatch of a packet: none fails, each keeps the invariant. *)
From Stdlib Require Import SpecFloat.
From stdpp Require Import base list gmap numbers option sets.
From Stdlib Require Import ZArith Lia.
From S2P Require Import Prelude CFloat HashMap StdUtil Events NetTypes Route ReliableLink ITFrag Leg LegProps Daemon StateFlood FloodProof FloodTotal Hello HelloProof HelloLink HelloMake HelloCost HelloState HelloRecv.
#[local] Open Scope Z_scope.

Section Disp.
Context (cfg : net_conf) (Hcfg : conf_ok cfg).
#[local] Notation kbps := (Leg_Rate_Limit_kbps cfg).
#[local] Notation wf := (wf cfg).
#[local] Notation net_ok := (net_ok cfg).

Lemma after_hello_ok e id l lg lg1 c n : net_ok None n -> Legs n !! l = Some lg1 -> lg1 = mk_leg (src_iid lg) (dst_iid lg) (l_dst lg) (l_links lg) (heard (now e) (conn lg)) (bucket lg) ->
  l_links lg !! CONTROL_LINK = Some id -> status (conn lg) <> DISCONNECTED_LEG -> exists n', after_hello cfg e id l lg c n = Ret n' /\ net_ok None n'.
Proof.
  intros Hok Hl -> Hi Hst. unfold after_hello. destruct (status (conn lg)) eqn:Es; [done| |].
  - fold (counted (now e) (conn lg)). set (n1 := set_conn l _ lg n).
    assert (H1 : net_ok None n1 /\ Legs n1 !! l = Some (mk_leg (src_iid lg) (dst_iid lg) (l_dst lg) (l_links lg) (counted (now e) (conn lg)) (bucket lg))).
    { split; [|apply lookup_insert_eq]. apply (ok_set_conn cfg None n l _ (counted (now e) (conn lg)) Hok Hl); done. }
    destruct H1 as [Hok1 Hl1]. destruct (_ <=? _); [|by exists n1]. destruct (connect_ok cfg Hcfg e n1 l _ id Hok1 Hl1) as (n' & init & m' & H & Hok' & _); [done|done|]. by exists n'.
  - pose proof (lw_edge _ _ _ _ (wf_legs _ _ (no_wf _ _ _ Hok) l _ Hl)) as He. unfold my_edge in He. cbn [l_dst] in He. destruct (Get_Edge (dae n) (My_Address (dae n)) (l_dst lg)) as [ed|]; [|done]. cbn [or_else mbind outcome_bind].
    destruct (wants_update _ _ _ _); [|by exists n]. destruct (update_cost_ok cfg Hcfg e n l _ id Hok Hl Hi) as (r & n1 & lg' & -> & Hok1 & Hl1 & Hi1); [exact Es|]. cbn [mbind outcome_bind].
    destruct (0 <? r); [|by exists n1]. destruct (ok_report cfg (now e) n1 l lg' id Hok1 Hl1) as (n2 & -> & Hok2 & _); [by rewrite Hi1|]. by exists n2.
Qed.

Lemma hello_body_ok e id l lg lk h p n : net_ok None n -> Links n !! id = Some lk -> lk_leg lk = l -> link_type lk = CONTROL_LINK -> Legs n !! l = Some lg -> l_links lg !! CONTROL_LINK = Some id ->
  valid_seq (seq_no h) -> exists n', hello_body cfg e id l h p n = Ret n' /\ net_ok None n'.
Proof.
  intros Hok Hk Hlk Ht Hl Hi Hseq. destruct (control_leg cfg None n id Hok) as (lk' & lg' & c & r & Hk' & _ & Hc & _ & Hl' & _ & Hst); [by exists lk|]. assert (lk' = lk) as -> by congruence. rewrite Hlk, Hl in Hl'. injection Hl' as <-.
  destruct (hello_body_split cfg e id l lg lk c h p n Hok Hk Hc Hlk Ht Hl Hi Hseq) as [(n1 & Hok1 & _ & -> & _)|(n1 & c1 & Hok1 & Hl1 & -> & _)]; [by exists n1|].
  eapply after_hello_ok; [exact Hok1|by rewrite Hl1, lookup_insert_eq|done|done|done].
Qed.

(** ** Another session *)
Lemma ok_create_control x e n l lg : net_ok x n -> Legs n !! l = Some lg -> l_links lg !! CONTROL_LINK = None ->
  exists i n', Create_Link cfg e l CONTROL_LINK n = Ret (i, n') /\ net_ok x n' /\ control_at n' i /\ waits n' (HSend_Hello, i, NoArg) /\ Links n !! i = None /\
    Links n' = <[i := mk_lk CONTROL_LINK l (Some (UNAVAILABLE_LINK, F32.of_Z 0)) (Some new_cdata)]> (Links n) /\
    Legs n' !! l = Some (mk_leg (src_iid lg) (dst_iid lg) (l_dst lg) (<[CONTROL_LINK := i]> (l_links lg)) (fresh_conn e (conn lg)) (bucket lg)).
Proof.
  intros Hok Hl Hi. destruct (no_stat _ _ _ Hok l lg Hl) as [S1 S2 S3 S4 S5]. assert (Hst : status (conn lg) = DISCONNECTED_LEG) by (by apply S1).
  assert (Hc : l_cost (conn lg) = -1) by (destruct (decide (l_cost (conn lg) = -1)) as [|Hx]; [done|]; apply S2 in Hx; congruence).
  destruct (create_control_ok cfg e n l lg (no_wf _ _ _ Hok) (no_made _ _ _ Hok) Hl Hi Hst Hc) as (i & n' & Hcr & Hw' & Hb & Hfree & Hk' & Hl' & Hwt & (v & Hv & Hvn) & He).
  exists i, n'. split; [exact Hcr|]. assert (Hca : control_at n' i) by (eexists; split; [by rewrite Hk', lookup_insert_eq|done]).
  split; [|split; [done|split; [apply Hwt; by left|done]]]. eapply ok_beside; [exact Hok|exact Hl|exact Hw'|exact Hb|exact Hl'|done| |].
  - split; cbn [conn l_links l_dst status l_cost fresh_conn]; try done.
    + by rewrite lookup_insert_eq.
    + intros m j [[<- <-]|[Hne Hj]]%lookup_insert_Some; [by right; left|]. destruct (S3 m j Hj) as [?|[?|?]]; [congruence|by right; left|by right; right].
    + congruence.
  - intros j (lk & Hj & Ht) Hne. apply Hwt. rewrite Hk' in Hj. apply lookup_insert_Some in Hj as [[<- <-]|[_ Hj]]; [by left|]. right. apply (no_hello _ _ _ Hok); [by exists lk|done].
Qed.

Lemma hello_packet_ok e id h p len same n : net_ok None n -> control_at n id -> valid_seq (seq_no h) -> exists n', Process_hello_packet cfg e id h p len same n = Ret n' /\ net_ok None n'.
Proof.
  intros Hok Hca Hseq. destruct (control_leg cfg None n id Hok Hca) as (lk & lg & c & r & Hk & Ht & Hc & Hr & Hl & Hi & Hst). unfold Process_hello_packet. rewrite Hk. cbn [or_else mbind outcome_bind]. rewrite Hl. cbn [or_else mbind outcome_bind].
  destruct (negb (len =? sizeof_hello_packet)); [by exists n|]. set (p' := if same then p else _). destruct (h_ctrl_link_id h =? other_side_ctrl_link_id (conn lg)).
  { by eapply hello_body_ok. }
  destruct (other_side_ctrl_link_id (conn lg) =? 0).
  - rewrite Hc. cbn [or_else mbind outcome_bind]. set (k := mk_conn _ _ _ _ _ _ _ _). set (n1 := set_conn (lk_leg lk) k lg n). assert (Hok1 : net_ok None n1) by (by apply ok_set_conn).
    set (cd := with_loss _ c). set (n2 := set_cdata id lk cd n1). assert (Hok2 : net_ok None n2) by (apply ok_set_cdata; [done|done|by eexists]).
    eapply (hello_body_ok e id (lk_leg lk) (mk_leg (src_iid lg) (dst_iid lg) (l_dst lg) (l_links lg) k (bucket lg))); [exact Hok2|apply lookup_insert_eq|done|done|apply lookup_insert_eq|done|done].
  - destruct (ok_disconnect cfg None e n (lk_leg lk) lg Hok Hl Hst) as (n1 & m' & -> & Hok1 & _ & Hl1 & Hm1 & _). cbn [mbind outcome_bind].
    destruct (ok_create_control None e n1 (lk_leg lk) _ Hok1 Hl1) as (i & n2 & -> & Hok2 & Hca2 & _); [cbn [l_links]; by rewrite Hm1|]. cbn [mbind outcome_bind].
    destruct (send_hello_ok cfg Hcfg e i n2) as (n3 & _ & _ & _ & -> & Hok3 & _); [by apply ok_weaken|done|]. by exists n3.
Qed.

(** ** A new neighbour *)

(** Nothing that belongs to a leg changes. *)
Lemma ok_same x n n' : net_ok x n -> wf n' -> Legs n' = Legs n -> Links n' = Links n -> n_queue n' = n_queue n -> made n' = made n ->
  (forall dst v, nb n dst = Some v -> nb n' dst = Some v) -> (forall dst, my_edge n' dst = my_edge n dst) -> (forall dst v, node_view (dae n) dst = Some v -> node_view (dae n') dst = Some v) ->
  (forall y nd, Get_Node (dae n') y = Some nd -> nid nd = y) -> net_ok x n'.
Proof.
  intros [A1 A2 A3 A4 A5 A6 A7] Hw' E1 E2 E3 E4 Hnb Hed Hnv Hid. split; rewrite ?E1, ?E4; try done.
  - intros l lg Hl. destruct (A2 l lg Hl) as [S1 S2 S3 S4 S5]. split; try done. intros Hst. destruct (lw_node _ _ _ _ (wf_legs _ _ A1 l lg Hl)) as [v Hv]. rewrite (Hnb _ _ Hv). intros [= ->]. by apply S5.
  - intros i Hca Hne. unfold waits. rewrite E3. apply A3; [|done]. unfold control_at in *. by rewrite <- E2.
  - intros l lg Hl. apply Hnv. by apply (A4 l).
  - intros dst c. rewrite Hed. intros Hc. destruct (A6 dst c Hc). split; [done|by apply Hnv].
Qed.

Lemma net_create_node x n id : net_ok x n -> Get_Node (dae n) id = None -> exists d, Create_Node id (dae n) = Ret d /\ net_ok x (with_dae d n) /\ is_Some (Get_Node d id) /\ My_Address d = My_Address (dae n).
Proof.
  intros Hok Hno. unfold Create_Node. rewrite Hno. eexists. split; [reflexivity|]. set (d := with_nodes _ _ _).
  assert (Hg : forall y, Get_Node d y = if decide (y = id) then Some (mk_node id false (-1) (-1)) else Get_Node (dae n) y).
  { intros y. unfold Get_Node, d, with_nodes. cbn. destruct (decide (y = id)) as [->|]; [by rewrite lookup_insert_eq|by rewrite lookup_insert_ne]. }
  assert (Hnb : forall y v, nb n y = Some v -> neighbor_id <$> Get_Node d y = Some v) by (intros y v Hv; rewrite Hg; destruct (decide _) as [->|]; [by unfold nb in Hv; rewrite Hno in Hv|done]).
  split; [|split; [rewrite Hg, decide_True by done; by eexists|done]]. pose proof (no_wf _ _ _ Hok) as Hw. eapply ok_same; [exact Hok| |done|done|done|done|exact Hnb|done| |].
  - apply wf_renumber; try done.
    + intros y [v Hv]. rewrite (Hnb y v Hv). by eexists.
    + intros y v. rewrite Hg. destruct (decide _) as [->|]; [by intros [= <-]|apply (wf_nodes _ _ Hw)].
    + intros i y Hi. destruct (wf_neighbors _ _ Hw i y Hi) as [B1 B2]. split; [by apply Hnb|done].
    + apply (wf_length _ _ Hw).
  - intros y v. unfold node_view. cbn [dae with_dae]. rewrite Hg. destruct (decide _) as [->|]; [by rewrite Hno|done].
  - intros y nd. cbn [dae with_dae]. rewrite Hg. destruct (decide _) as [->|]; [by intros [= <-]|apply (no_ids _ _ _ Hok)].
Qed.

Lemma ok_create_interface x n node id addr : net_ok x n -> is_Some (Get_Node (dae n) node) -> Get_Interface n id = None -> Get_Interface_by_Addr n addr = None ->
  exists n', Create_Interface node id addr n = Ret n' /\ net_ok x n' /\ Known_Interfaces n' = <[id := mk_interf id addr node]> (Known_Interfaces n) /\ dae n' = dae n /\ Legs n' = Legs n /\ Network_Legs n' = Network_Legs n /\ made n' = made n.
Proof.
  intros Hok [nd Hnd] Hif Had. unfold Create_Interface. rewrite Hnd, Hif, Had. eexists. split; [reflexivity|]. split; [|done]. set (n' := mk_net _ _ _ _ _ _ _ _ _).
  assert (Hm : forall i y, Known_Interfaces n !! i = Some y -> Known_Interfaces n' !! i = Some y) by (intros i y Hi; cbn; rewrite lookup_insert_ne; [done|]; intros <-; unfold Get_Interface in Hif; congruence).
  eapply ok_same; [exact Hok| |done|done|done|done|done|done|done|apply (no_ids _ _ _ Hok)]. destruct (no_wf _ _ _ Hok) as [W1 W2 W3 W4 W5 W6 W7 W8 W9 W10 W11 W12 W13]. split; try done.
  - intros l lg Hl. destruct (W3 l lg Hl) as [A1 A2 (loc & L1 & L2) (rem & R1 & R2) A5 A6 A7 A8 A9 A10]. split; try done; [exists loc; by rewrite (Hm _ _ L1)|exists rem; by rewrite (Hm _ _ R1)].
  - intros ad i. cbn [Known_Addresses n']. intros [[<- <-]|[Hne Hi]]%lookup_insert_Some; [cbn; rewrite lookup_insert_eq; by eexists|]. destruct (W11 ad i Hi) as [y Hy]. exists y. by apply Hm.
  - intros i y. cbn [Known_Interfaces n']. intros [[<- <-]|[Hne Hi]]%lookup_insert_Some; [done|by apply W12].
Qed.

(** The edge to a new neighbour. *)
Record edge_ready (d d' : daemon) (dst : Z) (edge : Edge) : Prop := {
  er_edge : Get_Edge d' (My_Address d) dst = Some edge; er_view : edge_view edge = (-1, None); er_my : My_Address d' = My_Address d;
  er_neighbors : Neighbor_Nodes d' = Neighbor_Nodes d; er_control : Control_Links d' = Control_Links d;
  er_nb : forall y, neighbor_id <$> Get_Node d' y = neighbor_id <$> Get_Node d y; er_node : own_node d' dst;
  er_nodes : forall y, y <> dst -> node_view d' y = node_view d y;
  er_others : forall y, y <> dst -> Get_Edge d' (My_Address d) y = Get_Edge d (My_Address d) y }.

Lemma edge_ready_ok x e n dst : net_ok x n -> is_Some (Get_Node (dae n) dst) -> (forall c l, my_edge n dst <> Some (c, Some l)) ->
  exists d edge, (match Get_Edge (dae n) (My_Address (dae n)) dst with Some _ => Ret (dae n) | None => Create_Edge (now e) (My_Address (dae n)) dst (-1) (-1) USHRT_MAX (dae n) end) = Ret d /\ edge_ready (dae n) d dst edge.
Proof.
  intros Hok [nd Hnd] Hfree. destruct (Get_Edge (dae n) (My_Address (dae n)) dst) as [ed|] eqn:Eed.
  - exists (dae n), ed. split; [done|]. assert (He : my_edge n dst = Some (edge_view ed)) by (unfold my_edge; by rewrite Eed). destruct (edge_view ed) as [c [l|]] eqn:Ev; [by destruct (Hfree c l)|].
    destruct (no_bare _ _ _ Hok dst c He) as [-> Hown]. by split.
  - pose proof (wf_my _ _ (no_wf _ _ _ Hok)) as Hmy. unfold nb in Hmy. destruct (Get_Node (dae n) (My_Address (dae n))) as [me|] eqn:Eme; [|by destruct Hmy].
    unfold Create_Edge. rewrite Eme, Hnd, Eed, Z.eqb_refl. cbn [My_Address set_node_edge with_nodes]. rewrite Z.eqb_refl. eexists _, _. split; [reflexivity|].
    assert (Hv : forall y (f : Node -> Z * Z) , (forall a b c d d', f (mk_node a d b c) = f (mk_node a d' b c)) -> f <$> (alter (fun nd => mk_node (nid nd) true (neighbor_id nd) (n_cost nd)) dst (All_Nodes (dae n)) !! y) = f <$> All_Nodes (dae n) !! y).
    { intros y f Hf. destruct (decide (y = dst)) as [->|]; [rewrite lookup_alter_eq|by rewrite lookup_alter_ne]. destruct (All_Nodes (dae n) !! dst) as [nd'|]; [|done]. cbn. f_equal. rewrite (Hf _ _ _ true (n_edge nd')). by destruct nd'. }
    split; try done.
    + unfold Get_Edge. cbn [All_Edges with_edges with_lts]. apply find_put_eq.
    + done.
    + intros y. pose proof (Hv y (fun nd => (neighbor_id nd, 0)) ltac:(done)) as H. unfold Get_Node. cbn [All_Nodes with_edges with_lts]. destruct (_ !! y), (All_Nodes (dae n) !! y); cbn in *; congruence.
    + unfold own_node, node_view, Get_Node in *. cbn [All_Nodes with_edges with_lts with_nodes set_node_edge]. rewrite lookup_alter_eq, Hnd. cbn. f_equal. f_equal. by apply (no_ids _ _ _ Hok).
    + intros y Hy. unfold node_view, Get_Node. cbn [All_Nodes with_edges with_lts with_nodes set_node_edge]. by rewrite lookup_alter_ne.
    + intros y Hy. unfold Get_Edge. cbn [All_Edges with_edges with_lts]. apply find_put_ne. naive_solver.
Qed.

Lemma ok_create_leg x e n local remote loc rem : net_ok x n -> Get_Interface n local = Some loc -> owner loc = My_Address (dae n) -> Get_Interface n remote = Some rem -> owner rem <> My_Address (dae n) ->
  Get_Network_Leg n local remote = None -> made n < MAX_NEIGHBORS -> is_Some (Get_Node (dae n) (owner rem)) -> (forall c l, my_edge n (owner rem) <> Some (c, Some l)) ->
  exists n' lg, Create_Network_Leg cfg e local remote n = Ret (made n, n') /\ net_ok x n' /\ Legs n' !! made n = Some lg /\ l_links lg = ∅ /\ l_dst lg = owner rem.
Proof.
  intros Hok Hloc Hown Hrem Hother Hnone Hmade Hnode Hfree. unfold Create_Network_Leg. rewrite Hloc. cbn [or_else mbind outcome_bind]. rewrite Hown, Z.eqb_refl. cbn [negb]. rewrite Hrem. cbn [or_else mbind outcome_bind].
  rewrite (proj2 (Z.eqb_neq _ _)) by done. rewrite Hnone. destruct (edge_ready_ok x e n (owner rem) Hok Hnode Hfree) as (d & edge & -> & [R1 R2 R3 R4 R5 R6 R7 R8 R9]). cbn [mbind outcome_bind]. rewrite R1. cbn [or_else mbind outcome_bind].
  injection R2 as Rc Rl. rewrite Rl. set (b := if 0 <=? kbps then new_bucket kbps (now e) else mk_bucket 0 (mk_time 0 0) [] []).
  set (lg := mk_leg local remote (owner rem) ∅ (mk_conn DISCONNECTED_LEG (-1) 0 0 0 (mk_time 0 0) 0 (mk_time 0 0)) b).
  set (d2 := with_edges (put_state (All_Edges d) (My_Address (dae n)) (owner rem) (set_edge_leg (made n) edge)) d).
  set (n1 := mk_net d2 (Known_Interfaces n) (Known_Addresses n) (<[(local, remote) := made n]> (Network_Legs n)) (<[made n := lg]> (Legs n)) (Links n) (n_queue n) (pings n) (made n + 1)).
  pose proof (no_wf _ _ _ Hok) as Hw. pose proof Hw as [W1 W2 W3 W4 W5 W6 W7 W8 W9 W10 W11 W12 W13].
  assert (Hfresh : Legs n !! made n = None) by (destruct (Legs n !! made n) as [lg0|] eqn:E; [|done]; pose proof (lw_number _ _ _ _ (W3 _ _ E)); lia).
  assert (Hnb : forall y, nb n1 y = nb n y) by (intros y; unfold nb; apply R6).
  assert (Hed : forall y, my_edge n1 y = if decide (y = owner rem) then Some (-1, Some (made n)) else my_edge n y).
  { intros y. unfold my_edge, Get_Edge. change (dae n1) with d2. change (All_Edges d2) with (put_state (All_Edges d) (My_Address (dae n)) (owner rem) (set_edge_leg (made n) edge)). change (My_Address d2) with (My_Address d). rewrite R3, find_put.
    destruct (decide (y = owner rem)) as [->|Hy]; [rewrite decide_True by done; cbn; by rewrite <- Rc|]. rewrite decide_False by naive_solver. specialize (R9 y Hy). unfold Get_Edge in R9. by rewrite R9. }
  assert (Hmono : forall l0 lg0, Legs n !! l0 = Some lg0 -> Legs n1 !! l0 = Some lg0) by (intros l0 lg0 H0; cbn; rewrite lookup_insert_ne; [done|congruence]).
  assert (Hdst : forall l0 lg0, Legs n !! l0 = Some lg0 -> l_dst lg0 <> owner rem) by (intros l0 lg0 H0 He; pose proof (lw_edge _ _ _ _ (W3 _ _ H0)) as Hx; rewrite He in Hx; by destruct (Hfree _ _ Hx)).
  assert (Hw1 : wf n1).
  { split; try done.
    - rewrite Hnb. change (My_Address (dae n1)) with (My_Address d). by rewrite R3.
    - intros l0 lg0. cbn [Legs n1]. intros [[<- <-]|[Hne H0]]%lookup_insert_Some.
      + split; rewrite ?Hnb, ?Hed; cbn [l_dst l_links src_iid dst_iid lg conn l_cost bucket]; change (My_Address (dae n1)) with (My_Address d); rewrite ?R3; try done.
        * change (made n1) with (made n + 1). lia.
        * by exists loc.
        * by exists rem.
        * cbn. by rewrite lookup_insert_eq.
        * by rewrite decide_True by done.
        * unfold nb. by apply fmap_is_Some.
        * change (Control_Links (dae n1)) with (Control_Links d). rewrite R5, lookup_empty. by apply W13.
        * intros Hp. unfold b. rewrite (proj2 (Z.leb_le _ _) Hp). pose proof (cap_range kbps Hp (co_bucket _ Hcfg Hp)). split; cbn [new_bucket bucket_bytes bucket_buf]; [lia|done|constructor|unfold Leg_Max_Buffered; cbn [length]; lia].
      + destruct (W3 l0 lg0 H0) as [A1 A2 A3 A4 A5 A6 A7 A8 A9 A10].
        split; rewrite ?Hnb, ?Hed; change (My_Address (dae n1)) with (My_Address d); change (Control_Links (dae n1)) with (Control_Links d); rewrite ?R3, ?R5; try done.
        * change (made n1) with (made n + 1). lia.
        * cbn. rewrite lookup_insert_ne; [done|]. intros [= -> ->]. unfold Get_Network_Leg in Hnone. congruence.
        * rewrite decide_False; [done|by eapply Hdst].
    - intros a c l0. cbn [Network_Legs n1]. intros [[[= <- <-] <-]|[Hne H0]]%lookup_insert_Some; [exists lg; cbn; by rewrite lookup_insert_eq|]. destruct (W4 a c l0 H0) as (lg0 & H1 & H2). exists lg0. split; [by apply Hmono|done].
    - intros dst c l0. rewrite Hed. destruct (decide _) as [->|]; [intros [= _ <-]; exists lg; cbn; by rewrite lookup_insert_eq|]. intros H0. destruct (W5 dst c l0 H0) as (lg0 & H1 & H2). exists lg0. split; [by apply Hmono|done].
    - intros i lk Hi. destruct (W6 i lk Hi) as (B1 & B2 & B3 & lg0 & H1 & H2). split; [done|]. split; [done|]. split; [done|]. exists lg0. split; [by apply Hmono|done].
    - intros y v. rewrite Hnb. change (Neighbor_Nodes (dae n1)) with (Neighbor_Nodes d). rewrite R4. apply W7.
    - intros i y. change (Neighbor_Nodes (dae n1)) with (Neighbor_Nodes d). rewrite R4, Hnb. intros Hi. destruct (W8 i y Hi) as (B1 & l0 & lg0 & H1 & H2). split; [done|]. exists l0, lg0. split; [by apply Hmono|done].
    - change (Neighbor_Nodes (dae n1)) with (Neighbor_Nodes d). by rewrite R4.
    - intros t Ht. pose proof (W10 t Ht) as Hok0. destruct t as [[[] i] a]; try exact Hok0. cbn in Hok0 |- *. destruct Hok0 as [? (l0 & -> & lg0 & H0)]. split; [done|]. exists l0. split; [done|]. exists lg0. by apply Hmono.
    - change (made n1) with (made n + 1). change (Control_Links (dae n1)) with (Control_Links d). rewrite R5. split; [lia|]. intros l0. cbn [Legs n1]. intros [H0 _]%lookup_insert_None. by apply W13. }
  assert (Hok1 : net_ok x n1).
  { split; try done.
    - intros l0 lg0. cbn [Legs n1]. intros [[<- <-]|[Hne H0]]%lookup_insert_Some; [by split|]. destruct (no_stat _ _ _ Hok l0 lg0 H0) as [S1 S2 S3 S4 S5]. split; try done. by rewrite Hnb.
    - exact (no_hello _ _ _ Hok).
    - intros l0 lg0. cbn [Legs n1]. intros [[<- <-]|[Hne H0]]%lookup_insert_Some; [exact R7|]. unfold own_node. change (node_view (dae n1)) with (node_view d). rewrite R8 by (by eapply Hdst). exact (no_nodes _ _ _ Hok l0 lg0 H0).
    - change (made n1) with (made n + 1). lia.
    - intros y c. rewrite Hed. destruct (decide _) as [->|Hy]; [done|]. intros Hc. destruct (no_bare _ _ _ Hok y c Hc) as [-> Ho]. split; [done|]. unfold own_node. change (node_view (dae n1)) with (node_view d). by rewrite R8.
    - intros y nd Hy. change (Get_Node d y = Some nd) in Hy. destruct (decide (y = owner rem)) as [->|Hne]; [unfold own_node, node_view in R7; rewrite Hy in R7; by injection R7|].
      specialize (R8 y Hne). unfold node_view in R8. rewrite Hy in R8. destruct (Get_Node (dae n) y) as [nd0|] eqn:E0; [|done]. injection R8 as -> _. by apply (no_ids _ _ _ Hok). }
  eexists _, lg. split; [reflexivity|]. split; [|split; [|done]].
  - destruct (Z.leb_spec 0 kbps); [|done]. apply ok_queue with x; [done| |by left]. split; [done|]. exists (made n). split; [done|]. exists lg. cbn. by rewrite lookup_insert_eq.
  - destruct (0 <=? kbps); cbn; by rewrite lookup_insert_eq.
Qed.

(** ** A packet *)
Lemma net_ensure_node n id : net_ok None n -> exists d, (match Get_Node (dae n) id with Some _ => Ret n | None => d ← Create_Node id (dae n); Ret (with_dae d n) end) = Ret (with_dae d n) /\ net_ok None (with_dae d n) /\ is_Some (Get_Node d id) /\
  My_Address d = My_Address (dae n) /\ All_Edges d = All_Edges (dae n).
Proof.
  intros Hok. destruct (Get_Node (dae n) id) as [nd|] eqn:E.
  - exists (dae n). replace (with_dae (dae n) n) with n by (by destruct n). split; [done|]. split; [done|]. split; [by rewrite E; eexists|done].
  - destruct (net_create_node None n id Hok E) as (d & Hd & Hok' & Hs & Hm). rewrite Hd. exists d. split; [done|]. split; [done|]. split; [done|]. split; [done|]. unfold Create_Node in Hd. rewrite E in Hd. by injection Hd as <-.
Qed.

(** A leg of the configuration is made, or the daemon ends with an alarm. *)
Lemma create_leg_known e n local remote rem : net_ok None n -> made n < MAX_NEIGHBORS -> Get_Interface n remote = Some rem -> is_Some (Get_Node (dae n) (owner rem)) ->
  (exists l n', Create_Network_Leg cfg e local remote n = Ret (l, n') /\ net_ok None n') \/ Create_Network_Leg cfg e local remote n = Exit.
Proof.
  intros Hok Hmade Hrem Hnode. destruct (Get_Interface n local) as [loc|] eqn:Hloc; [|right; unfold Create_Network_Leg; by rewrite Hloc].
  destruct (decide (owner loc = My_Address (dae n))) as [Hown|Hown]; [|right; unfold Create_Network_Leg; rewrite Hloc; cbn [or_else mbind outcome_bind]; by rewrite (proj2 (Z.eqb_neq _ _) Hown)].
  destruct (decide (owner rem = My_Address (dae n))) as [Ho|Ho].
  { right. unfold Create_Network_Leg. rewrite Hloc, Hrem. cbn [or_else mbind outcome_bind]. by rewrite Hown, Ho, Z.eqb_refl. }
  destruct (Get_Network_Leg n local remote) as [l|] eqn:Hleg.
  { right. unfold Create_Network_Leg. rewrite Hloc, Hrem. cbn [or_else mbind outcome_bind]. by rewrite Hown, Z.eqb_refl, (proj2 (Z.eqb_neq _ _) Ho), Hleg. }
  destruct (my_edge n (owner rem)) as [[c [l|]]|] eqn:He.
  { right. unfold Create_Network_Leg. rewrite Hloc, Hrem. cbn [or_else mbind outcome_bind]. rewrite Hown, Z.eqb_refl, (proj2 (Z.eqb_neq _ _) Ho), Hleg. unfold my_edge in He.
    destruct (Get_Edge (dae n) (My_Address (dae n)) (owner rem)) as [ed|] eqn:Ed; [|done]. cbn in He. injection He as _ He. cbn [negb mbind outcome_bind]. rewrite Ed. cbn [or_else mbind outcome_bind]. by rewrite He. }
  all: left; destruct (ok_create_leg None e n local remote loc rem Hok Hloc Hown Hrem Ho Hleg Hmade Hnode) as (n' & lg & Hc & Hok' & _); [congruence|]; by exists (made n), n'.
Qed.

Lemma init_leg_ok e mine n a : net_ok None n -> made n < MAX_NEIGHBORS -> (exists n', Init_Leg cfg e mine n a = Ret n' /\ net_ok None n') \/ Init_Leg cfg e mine n a = Exit.
Proof.
  intros Hok Hmade. unfold Init_Leg. set (node := if Remote_Node_ID a =? 0 then _ else _). set (riid := if Remote_Interface_ID a =? 0 then _ else _).
  assert (Hloc : exists r : outcome Z, (if Local_Interface_ID a =? 0 then match mine with [i] => Ret i | _ => Exit end else Ret (Local_Interface_ID a)) = r /\ (r = Exit \/ exists i, r = Ret i)).
  { eexists. split; [reflexivity|]. destruct (Local_Interface_ID a =? 0); [|right; by eexists]. destruct mine as [|i [|? ?]]; [by left|right; by eexists|by left]. }
  destruct Hloc as (? & -> & [->|[local ->]]); [by right|]. cbn [mbind outcome_bind].
  destruct (net_ensure_node n node Hok) as (d & -> & Hok0 & Hnode & Hmy & Hed). cbn [mbind outcome_bind]. set (n0 := with_dae d n) in *.
  assert (Hif : (exists n1 rem, (match Get_Interface n0 riid with None => Create_Interface node riid (Remote_Interface_Address a) n0 | Some i => if owner i =? node then Ret n0 else Exit end) = Ret n1 /\
      net_ok None n1 /\ Get_Interface n1 riid = Some rem /\ owner rem = node /\ dae n1 = d /\ made n1 = made n) \/
    (match Get_Interface n0 riid with None => Create_Interface node riid (Remote_Interface_Address a) n0 | Some i => if owner i =? node then Ret n0 else Exit end) = Exit).
  { destruct (Get_Interface n0 riid) as [i|] eqn:Ei; [destruct (Z.eqb_spec (owner i) node) as [He|]; [left; by exists n0, i|by right]|].
    destruct (Get_Interface_by_Addr n0 (Remote_Interface_Address a)) eqn:Ea; [right; unfold Create_Interface; rewrite Ei, Ea; by destruct (Get_Node _ _)|].
    destruct (ok_create_interface None n0 node riid (Remote_Interface_Address a) Hok0 Hnode Ei Ea) as (n1 & -> & Hok1 & Hi1 & Hd1 & _ & _ & Hm1). left. eexists n1, _. unfold Get_Interface. rewrite Hi1, lookup_insert_eq. by split_and!. }
  destruct Hif as [(n1 & rem & -> & Hok1 & Hrem & Hown & Hd1 & Hm1)| ->]; [|by right]. cbn [mbind outcome_bind].
  destruct (create_leg_known e n1 local riid rem Hok1) as [(l & n2 & -> & Hok2)| ->]; [by rewrite Hm1|done|by rewrite Hd1, Hown|left; by exists n2|by right].
Qed.

(** A neighbour for which a leg can be made. *)
Record newcomer (n : net) (id : Z) : Prop := {
  nc_room : made n < MAX_NEIGHBORS; nc_other : id <> My_Address (dae n); nc_free : forall c l, my_edge n id <> Some (c, Some l) }.

Lemma new_leg_ok e h from_addr local remote loc n : net_ok None n -> Get_Interface n local = Some loc -> owner loc = My_Address (dae n) -> newcomer n (sender_id h) ->
  match remote with
  | Some r => exists rem, Get_Interface n r = Some rem /\ owner rem = sender_id h /\ Get_Network_Leg n local r = None
  | None => Get_Interface n from_addr = None /\ Get_Interface_by_Addr n from_addr = None
  end -> is_Some (Get_Node (dae n) (sender_id h)) ->
  exists rem n1 n2 lg, (match remote with Some r => Ret (r, n) | None => n ← Create_Interface (sender_id h) from_addr from_addr n; Ret (from_addr, n) end) = Ret (rem, n1) /\
    Create_Network_Leg cfg e local rem n1 = Ret (made n1, n2) /\ net_ok None n2 /\ Legs n2 !! made n1 = Some lg /\ l_links lg = ∅ /\ l_dst lg = sender_id h.
Proof.
  intros Hok Hloc Hown [N1 N2 N3] Hrem Hnode. destruct remote as [r|].
  - destruct Hrem as (rem & H1 & H2 & H3). destruct (ok_create_leg None e n local r loc rem Hok Hloc Hown H1) as (n2 & lg & ? & ? & ? & ? & ?); rewrite ?H2; try done. exists r, n, n2, lg. split_and!; first [done|congruence].
  - destruct Hrem as [H1 H2]. destruct (ok_create_interface None n (sender_id h) from_addr from_addr Hok Hnode H1 H2) as (n1 & -> & Hok1 & Hi1 & Hd1 & Hl1 & Ht1 & Hm1). cbn [mbind outcome_bind].
    assert (Hnone : Get_Network_Leg n1 local from_addr = None).
    { unfold Get_Network_Leg. rewrite Ht1. destruct (Network_Legs n !! (local, from_addr)) as [l0|] eqn:E; [|done]. exfalso. destruct (wf_table _ _ (no_wf _ _ _ Hok) _ _ _ E) as (lg0 & G1 & _ & G2).
      destruct (lw_remote _ _ _ _ (wf_legs _ _ (no_wf _ _ _ Hok) l0 lg0 G1)) as (rem & G3 & _). rewrite G2 in G3. unfold Get_Interface in H1. congruence. }
    assert (Hloc1 : Get_Interface n1 local = Some loc) by (unfold Get_Interface in *; rewrite Hi1, lookup_insert_ne; congruence).
    destruct (ok_create_leg None e n1 local from_addr loc (mk_interf from_addr from_addr (sender_id h)) Hok1 Hloc1) as (n2 & lg & ? & ? & ? & ? & ?); rewrite ?Hd1, ?Hm1; try done.
    { unfold Get_Interface. by rewrite Hi1, lookup_insert_eq. }
    { intros c l. unfold my_edge. rewrite Hd1. apply N3. }
    exists from_addr, n1, n2, lg. split_and!; first [done|congruence].
Qed.

Lemma ping_link_ok e l lg n : net_ok None n -> Legs n !! l = Some lg -> l_links lg !! CONTROL_LINK = None ->
  exists o n', (lg ← or_else (Legs n !! l) Fault;
      if stable_delay_flag cfg && SFltb (dsub (seconds (now e)) (seconds (last_connected (conn lg)))) (stable_timeout cfg) then Ret (None, n)
      else
        '(i, n) ← Create_Link cfg e l CONTROL_LINK n;
        lg ← or_else (Legs n !! l) Fault;
        let c := conn lg in
        Ret (Some i, set_conn l (mk_conn (status c) (l_cost c) (ctrl_link_id c) (other_side_ctrl_link_id c) (hellos_out c) (now e) (connect_cnter c) (last_connected c)) lg n)) = Ret (o, n') /\
    net_ok None n' /\ (forall i, o = Some i -> control_at n' i).
Proof.
  intros Hok Hl Hi. rewrite Hl. cbn [or_else mbind outcome_bind]. destruct (_ && _); [by exists None, n|].
  destruct (ok_create_control None e n l lg Hok Hl Hi) as (i & n1 & -> & Hok1 & Hca & _ & _ & _ & Hl1). cbn [mbind outcome_bind]. rewrite Hl1. cbn [or_else mbind outcome_bind].
  eexists (Some i), _. split; [reflexivity|]. split; [by apply ok_set_conn|]. intros j [= <-]. exact Hca.
Qed.

Lemma hello_ping_ok e h from_addr local remote leg link loc n : net_ok None n -> Get_Interface n local = Some loc -> owner loc = My_Address (dae n) ->
  match leg with
  | Some l => is_Some remote /\ exists lg, Legs n !! l = Some lg /\ link = l_links lg !! CONTROL_LINK
  | None => link = None /\ newcomer n (sender_id h) /\
      match remote with
      | Some r => exists rem, Get_Interface n r = Some rem /\ owner rem = sender_id h /\ Get_Network_Leg n local r = None
      | None => Get_Interface n from_addr = None /\ Get_Interface_by_Addr n from_addr = None
      end
  end ->
  exists o n', Process_hello_ping cfg e h from_addr local remote leg link n = Ret (o, n') /\ net_ok None n' /\ (forall i, o = Some i -> control_at n' i).
Proof.
  intros Hok Hloc Hown Hcase. unfold Process_hello_ping. destruct (net_ensure_node n (sender_id h) Hok) as (d & -> & Hok0 & Hnode & Hmy & Hed). cbn [mbind outcome_bind]. set (n0 := with_dae d n) in *. destruct leg as [l|].
  - destruct Hcase as [[r ->] (lg & Hl & ->)]. cbn [mbind outcome_bind]. destruct (l_links lg !! CONTROL_LINK) as [i|] eqn:Ei.
    + exists (Some i), n0. split; [done|]. split; [done|]. intros j [= <-]. by apply (control_of cfg n0 l lg i (no_wf _ _ _ Hok0)).
    + by apply (ping_link_ok e l lg n0 Hok0).
  - destruct Hcase as (-> & [N1 N2 N3] & Hrem).
    assert (Hnew : newcomer n0 (sender_id h)) by (split; [done|by cbn; rewrite Hmy|]; intros c l; unfold my_edge, Get_Edge; cbn [dae n0 with_dae]; rewrite Hmy, Hed; apply N3).
    destruct (new_leg_ok e h from_addr local remote loc n0 Hok0 Hloc ltac:(by cbn; rewrite Hmy) Hnew Hrem Hnode) as (rem & n1 & n2 & lg & Hcr & Hleg & Hok2 & Hl2 & Hlk & _).
    unfold n0 in Hcr |- *. rewrite Hcr. cbn [mbind outcome_bind]. rewrite Hleg. cbn [mbind outcome_bind]. apply (ping_link_ok e (made n1) lg n2 Hok2 Hl2). by rewrite Hlk.
Qed.

(** What the theorem asks of a packet: a number in range, a local interface of
    this node, and, when a hello comes from an unknown address, a sender that is
    neither this node nor the neighbour of a leg. *)
Record admissible (h : packet_header) (local mode from_addr : Z) (n : net) : Prop := {
  ad_seq : valid_seq (seq_no h); ad_local : exists loc, Get_Interface n local = Some loc /\ owner loc = My_Address (dae n);
  ad_new : Is_hello_type (type h) = true -> mode = CONTROL_LINK ->
    (Get_Interface_by_Addr n from_addr ≫= fun r => Get_Network_Leg n local (iid r)) = None ->
    newcomer n (sender_id h) /\ (Get_Interface_by_Addr n from_addr = None -> Get_Interface n from_addr = None) }.

Lemma dispatch_ok e h p len local mode from_addr port_ok same n : net_ok None n -> admissible h local mode from_addr n ->
  exists o n', Prot_process_scat cfg e h p len local mode from_addr port_ok same n = Ret (o, n') /\ net_ok None n'.
Proof.
  intros Hok [Hseq (loc & Hloc & Hown) Hnew]. unfold Prot_process_scat. destruct (negb (len =? _)); [by exists None, n|]. destruct (negb port_ok); [by exists None, n|].
  destruct (match Get_Interface_by_Addr n from_addr with Some r => negb (owner r =? sender_id h) | None => false end) eqn:Hcl; [by exists None, n|].
  set (ol := Get_Interface_by_Addr n from_addr ≫= fun r => Get_Network_Leg n local (iid r)) in *.
  assert (Hleg : forall l, ol = Some l -> exists r lg, Get_Interface_by_Addr n from_addr = Some r /\ Legs n !! l = Some lg).
  { intros l Hl. unfold ol in Hl. apply bind_Some in Hl as (r & Hr & Hl). destruct (wf_table _ _ (no_wf _ _ _ Hok) _ _ _ Hl) as (lg & ? & _). by exists r, lg. }
  assert (Hlk : exists lk, (match ol with Some l => lg ← or_else (Legs n !! l) Fault; Ret (l_links lg !! mode) | None => Ret None end) = Ret lk /\
    match ol with Some l => exists r lg, Get_Interface_by_Addr n from_addr = Some r /\ Legs n !! l = Some lg /\ lk = l_links lg !! mode | None => lk = None end).
  { destruct ol as [l|]; [|by exists None]. destruct (Hleg l eq_refl) as (r & lg & Hr & Hl). rewrite Hl. cbn [or_else mbind outcome_bind]. eexists. split; [reflexivity|]. by exists r, lg. }
  destruct Hlk as (lk & -> & Hlk). cbn [mbind outcome_bind]. destruct (Is_hello_type (type h)) eqn:Eh.
  - destruct (Z.eqb_spec mode CONTROL_LINK) as [->|]; [|by exists None, n].
    destruct (hello_ping_ok e h from_addr local (iid <$> Get_Interface_by_Addr n from_addr) ol lk loc n Hok Hloc Hown) as (o & n1 & -> & Hok1 & Hca).
    { destruct ol as [l|] eqn:Eol.
      - destruct Hlk as (r & lg & Hr & Hl & ->). rewrite Hr. split; [by eexists|]. by exists lg.
      - destruct (Hnew eq_refl eq_refl eq_refl) as [Hn1 Hn2]. split; [done|]. split; [done|]. destruct (Get_Interface_by_Addr n from_addr) as [r|] eqn:Er; [|by split; [apply Hn2|]]. cbn.
        unfold Get_Interface_by_Addr in Er. apply bind_Some in Er as (i & Hi & Hr). unfold Get_Interface in Hr. pose proof (wf_iids _ _ (no_wf _ _ _ Hok) i r Hr) as Hiid. exists r. unfold Get_Interface. rewrite Hiid. split; [done|].
        split; [apply negb_false_iff, Z.eqb_eq in Hcl; exact Hcl|]. unfold ol in Eol. cbn in Eol. by rewrite Hiid in Eol. }
    cbn [mbind outcome_bind]. destruct o as [i|]; [|by exists None, n1]. destruct (_ || _); [|by exists None, n1].
    destruct (hello_packet_ok e i h p len same n1 Hok1 (Hca i eq_refl) Hseq) as (n2 & -> & Hok2). by exists None, n2.
  - destruct lk as [i|]; [|by exists None, n]. destruct ol as [l|]; [|by exists None, n]. destruct (Hleg l eq_refl) as (r & lg & _ & Hl). rewrite Hl. cbn [or_else mbind outcome_bind].
    destruct (negb (_ =? _)); [by exists None, n|]. destruct (l_links lg !! CONTROL_LINK) as [ctl|] eqn:Ectl; [|by exists (Some i), n].
    destruct (control_leg cfg None n ctl Hok) as (lk & lg0 & c & r0 & Hk & Ht & Hc & _); [by apply (control_of cfg n l lg ctl (no_wf _ _ _ Hok))|]. rewrite Hk. cbn [or_else mbind outcome_bind]. rewrite Hc. cbn [or_else mbind outcome_bind].
    destruct (check_loss_total (seq_no h) mode (l_data c) Hseq) as [ld ->]. cbn [or_else mbind outcome_bind]. eexists (Some i), _. split; [reflexivity|]. apply ok_set_cdata; [done|done|by eexists].
Qed.
End Disp.
