(* ===== verification/HelloSys.v ===== *)
(** * HelloSys: the connections as a system

    The steps of a daemon that touch its connections: the legs configured at its
    start and the first pings, the event at the head of the time queue, a packet, and what the other parts of the daemon do to the shared
    tables in the meantime ([foreign]).  Every step keeps the invariant. *)
From Stdlib Require Import SpecFloat.
From stdpp Require Import base list gmap numbers option sets relations.
From Stdlib Require Import ZArith Lia.
From S2P Require Import Prelude CFloat HashMap StdUtil Events NetTypes Route ReliableLink ITFrag Leg LegProps Daemon StateFlood FloodProof FloodTotal Hello HelloProof HelloLink HelloMake HelloCost HelloState HelloRecv HelloDisp.
#[local] Open Scope Z_scope.

(** ** The rest of the daemon *)
Definition edge_at (d : daemon) (dst : Z) : option (Z * option Z) := edge_view <$> Get_Edge d (My_Address d) dst.

(** The tables of the daemon may change as long as nodes of legs, their numbers and
    the edges of legs stay, new nodes are nobody's neighbours, and new edges of the
    local node have no leg and no cost. *)
Record foreign (d d' : daemon) : Prop := {
  fo_my : My_Address d' = My_Address d; fo_neighbors : Neighbor_Nodes d' = Neighbor_Nodes d; fo_control : Control_Links d' = Control_Links d;
  fo_nb : forall id v, neighbor_id <$> Get_Node d id = Some v -> neighbor_id <$> Get_Node d' id = Some v;
  fo_new : forall id v, neighbor_id <$> Get_Node d' id = Some v -> neighbor_id <$> Get_Node d id = Some v \/ v = -1;
  fo_own : forall id, own_node d id -> own_node d' id; fo_ids : (forall x nd, Get_Node d x = Some nd -> nid nd = x) -> forall x nd, Get_Node d' x = Some nd -> nid nd = x;
  fo_edge : forall dst v, edge_at d dst = Some v -> edge_at d' dst = Some v;
  fo_bare : (forall x nd, Get_Node d x = Some nd -> nid nd = x) -> forall dst v, edge_at d' dst = Some v -> edge_at d dst = Some v \/ v = (-1, None) /\ own_node d' dst }.

#[export] Instance foreign_refl : Reflexive foreign.
Proof. split; try done; by left. Qed.
#[export] Instance foreign_trans : Transitive foreign.
Proof.
  intros a b c [A1 A2 A3 A4 A5 A6 A7 A8 A9] [B1 B2 B3 B4 B5 B6 B7 B8 B9]. split; try congruence; auto.
  - intros id v Hc. destruct (B5 id v Hc) as [Hb|]; [by apply A5|by right].
  - intros Hi dst v Hc. destruct (B9 (A7 Hi) dst v Hc) as [Hb|]; [|by right]. destruct (A9 Hi dst v Hb) as [|[-> Ho]]; [by left|right; auto].
Qed.

(** A change that legs and nodes do not see. *)
Lemma foreign_frame d d' : My_Address d' = My_Address d -> Neighbor_Nodes d' = Neighbor_Nodes d -> Control_Links d' = Control_Links d -> All_Nodes d' = All_Nodes d ->
  (forall dst, edge_at d' dst = edge_at d dst) -> foreign d d'.
Proof.
  intros E1 E2 E3 E4 E5. assert (Hn : forall x, Get_Node d' x = Get_Node d x) by (intros x; unfold Get_Node; by rewrite E4).
  split; try done; try (intros; rewrite ?Hn, ?E5 in *; auto; fail).
  - intros id. unfold own_node, node_view. by rewrite Hn.
Qed.

Section Sys.
Context `{HO : HashOrder}.
Context (cfg : net_conf) (Hcfg : conf_ok cfg).
#[local] Notation kbps := (Leg_Rate_Limit_kbps cfg).
#[local] Notation wf := (wf cfg).
#[local] Notation net_ok := (net_ok cfg).

Lemma ok_foreign x n d : net_ok x n -> foreign (dae n) d -> net_ok x (with_dae d n).
Proof.
  intros [Hw Hs Hh Hn Hm Hb Hi] [F1 F2 F3 F4 F5 F6 F7 F8 F9]. pose proof Hw as [W1 W2 W3 W4 W5 W6 W7 W8 W9 W10 W11 W12 W13].
  assert (Hedge : forall y, my_edge (with_dae d n) y = edge_at d y) by done. assert (Hedge0 : forall y, my_edge n y = edge_at (dae n) y) by done.
  assert (Hnb : forall y v, nb n y = Some v -> nb (with_dae d n) y = Some v) by exact F4.
  assert (Hnb' : forall y v, nb (with_dae d n) y = Some v -> v <> -1 -> nb n y = Some v) by (intros y v Hy Hv; by destruct (F5 y v Hy)).
  assert (Hbare : forall y c o, my_edge (with_dae d n) y = Some (c, o) -> my_edge n y = Some (c, o) \/ c = -1 /\ o = None /\ own_node d y).
  { intros y c o. rewrite Hedge. intros Hy. destruct (F9 Hi y _ Hy) as [|[[= -> ->] ?]]; [by left|by right]. }
  split; try done.
  - split; try done.
    + change (My_Address (dae (with_dae d n))) with (My_Address d). rewrite F1. destruct W2 as [v Hv]. rewrite (Hnb _ _ Hv). by eexists.
    + intros l lg Hl. destruct (W3 l lg Hl) as [A1 A2 A3 A4 A5 A6 [v A7] A8 A9 A10]. split; cbn [dae with_dae]; rewrite ?F1, ?F3; try done; [|rewrite (Hnb _ _ A7); by eexists]. rewrite Hedge. apply F8. exact A6.
    + intros y c l Hy. destruct (Hbare y c _ Hy) as [Hy'|(_ & ? & _)]; [by apply (W5 y c l)|done].
    + intros y v Hy Hv. cbn [dae with_dae]. rewrite F2. apply W7; [by apply Hnb'|done].
    + intros i y. cbn [dae with_dae]. rewrite F2. intros Hy. destruct (W8 i y Hy) as [B1 B2]. split; [by apply Hnb|done].
    + cbn [dae with_dae]. by rewrite F2.
    + cbn [dae with_dae made Legs]. by rewrite F3.
  - intros l lg Hl. destruct (Hs l lg Hl) as [S1 S2 S3 S4 S5]. split; try done. intros Hst. destruct (lw_node _ _ _ _ (W3 l lg Hl)) as [v Hv]. rewrite (Hnb _ _ Hv). intros [= ->]. by apply S5.
  - intros l lg Hl. apply F6. by apply (Hn l).
  - intros y c Hy. destruct (Hbare y c _ Hy) as [Hy'|(-> & _ & Ho)]; [|by split]. destruct (Hb y c Hy') as [-> Ho]. split; [done|by apply F6].
  - by apply F7.
Qed.

(** ** Steps *)
Definition run_timer (e : net_env) (k : timer) (n : net) : outcome net :=
  match k with
  | (HSend_Hello, i, _) => Send_Hello cfg e i n
  | (HDead_Leg, i, _) => Dead_Leg e i n
  | (HHello_Request, i, _) => Send_Hello_Request cfg e i n
  | (HHello_Request_Cnt, i, _) => Send_Hello_Request_Cnt cfg e i n
  | (HHello_Ping, _, _) => Ret (Send_Hello_Ping cfg e n)
  | (HNet_Send_State_All, i, ProtArg p) => Ret (with_dae (Net_Send_State_All (now e) p i (dae n)) n)
  | (HFill_Leg_Bucket, _, LegArg l) => Fill_Bucket cfg e l n
  | (HTry_Send, _, _) => Ret n
  | _ => Fault
  end.

(** The start of the daemon takes steps too: [Init_Nodes] makes a leg that was
    configured (no more than there may be neighbours), and [Init_Connections]
    sends the first pings and queues the next. *)
Inductive net_step : net -> net -> Prop :=
| NLeg e mine a n n' : made n < MAX_NEIGHBORS -> Init_Leg cfg e mine n a = Ret n' -> net_step n n'
| NInit e n : net_step n (Init_Connections cfg e n)
| NTimer e ev q n n' : n_queue n = ev :: q -> run_timer e (ev_key ev) (with_nqueue q n) = Ret n' -> net_step n n'
| NPacket e h p len local mode from_addr port_ok same n o n' : admissible h local mode from_addr n ->
    Prot_process_scat cfg e h p len local mode from_addr port_ok same n = Ret (o, n') -> net_step n n'
| NForeign n d : foreign (dae n) d -> net_step n (with_dae d n).

(** A daemon as [Init_Nodes] has it before its loop over the legs: its own node
    and interfaces, the nodes and edges of the configuration file, and no leg. *)
Record net_start (n : net) : Prop := {
  ns_my : nb n (My_Address (dae n)) = Some (-1); ns_one : forall x nd, Get_Node (dae n) x = Some nd -> nid nd = x /\ neighbor_id nd = -1;
  ns_legs : Legs n = ∅; ns_links : Links n = ∅; ns_table : Network_Legs n = ∅; ns_queue : n_queue n = []; ns_made : made n = 0;
  ns_edges : forall dst v, edge_at (dae n) dst = Some v -> v = (-1, None) /\ own_node (dae n) dst; ns_neighbors : Neighbor_Nodes (dae n) = []; ns_control : Control_Links (dae n) = ∅;
  ns_ad : forall addr i, Known_Addresses n !! addr = Some i -> is_Some (Known_Interfaces n !! i); ns_if : forall i x, Known_Interfaces n !! i = Some x -> iid x = i }.

Definition net_reachable (n : net) : Prop := exists n0, net_start n0 /\ rtc net_step n0 n.

Lemma start_ok n : net_start n -> net_ok None n.
Proof.
  intros [N1 N2 N3 N4 N5 N6 N7 N8 N9 N10 N11 N12]. split; rewrite ?N3, ?N7; try done.
  - split; rewrite ?N3, ?N4, ?N5, ?N6, ?N7, ?N9, ?N10; try done.
    + split; constructor.
    + intros dst c l Hd. destruct (N8 dst _ Hd) as [? _]. done.
    + intros id v Hv Hne. unfold nb in Hv. destruct (Get_Node (dae n) id) as [nd|] eqn:E; [|done]. destruct (N2 id nd E) as [_ H2]. cbn in Hv. congruence.
    + cbn. lia.
    + unfold waits. rewrite N6. intros k Hk. by apply not_elem_of_nil in Hk.
  - intros i (lk & Hk & _). rewrite N4 in Hk. done.
  - intros dst c Hd. destruct (N8 dst _ Hd) as [[= ->] ?]. done.
  - intros x nd Hx. by destruct (N2 x nd Hx).
Qed.

(** An event leaves the queue. *)
Lemma ok_fire n ev q : net_ok None n -> n_queue n = ev :: q ->
  let n1 := with_nqueue q n in net_ok (if bool_decide (ev_func ev = HSend_Hello) then Some (ev_code ev) else None) n1 /\ timer_ok cfg n1 (ev_key ev).
Proof.
  intros Hok Hq n1. pose proof (no_wf _ _ _ Hok) as Hw. assert (Hsim : similar cfg n n1) by apply sim_with_nqueue.
  assert (Hin : forall k, waits n k <-> k = ev_key ev \/ waits n1 k) by (intros k; unfold waits; rewrite Hq, fmap_cons; apply elem_of_cons).
  assert (Hq1 : queue_ok q). { pose proof (wf_queue _ _ Hw) as [H1 H2]. rewrite Hq in H1, H2. rewrite fmap_cons in H2. inversion H1; subst. clear H1. apply NoDup_cons in H2 as [_ H2]. by split. }
  split; [|eapply sim_timer; [exact Hsim|]; apply (wf_timers _ _ Hw), Hin; by left].
  eapply ok_similar; [exact Hok| |exact Hsim|by cbn; congruence|reflexivity|].
  - eapply wf_similar; [exact Hw|exact Hsim|exact Hq1|]. intros k Hk. left. apply Hin. by right.
  - intros i Hca Hne. destruct (proj1 (Hin _) (no_hello _ _ _ Hok i Hca ltac:(done))) as [He|]; [|done]. exfalso. apply Hne. unfold ev_key in He. injection He as H1 H2 _. rewrite bool_decide_eq_true_2 by done. by rewrite H2.
Qed.

Lemma ping_ok e n x : net_ok x n -> net_ok x (Send_Hello_Ping cfg e n).
Proof.
  intros Hok. unfold Send_Hello_Ping. set (n1 := mk_net _ _ _ _ _ _ _ _ _). assert (Hok1 : net_ok x n1).
  { eapply ok_same; [exact Hok| |done|done|done|done|done|done|done|apply (no_ids _ _ _ Hok)]. destruct (no_wf _ _ _ Hok) as [W1 W2 W3 W4 W5 W6 W7 W8 W9 W10 W11 W12 W13]. split; try done. intros l lg Hl. destruct (W3 l lg Hl). by split. }
  apply ok_queue with x; [done|done|by left].
Qed.

(** The event at the head runs, and the invariant holds again. *)
Lemma timer_runs e ev q n : net_ok None n -> n_queue n = ev :: q -> exists n', run_timer e (ev_key ev) (with_nqueue q n) = Ret n' /\ net_ok None n'.
Proof.
  intros Hok Hq. destruct (ok_fire n ev q Hok Hq) as [Hok1 Ht]. unfold ev_key in *. destruct ev as [t h c a]. cbn [ev_func ev_code ev_data] in *. destruct h; cbn in Hok1; cbn in Ht |- *.
  - destruct Ht as [_ Hca]. destruct (send_hello_ok cfg Hcfg e c _ Hok1 Hca) as (n' & _ & _ & _ & H & Hok' & _). by exists n'.
  - by apply dead_leg_ok.
  - destruct Ht as [_ Hca]. by apply request_ok.
  - destruct Ht as [_ Hca]. by apply request_cnt_ok.
  - eexists. split; [reflexivity|]. by apply ping_ok.
  - destruct Ht as [[p ->] _]. eexists. split; [reflexivity|]. apply ok_foreign; [done|]. by apply foreign_frame.
  - by eexists.
  - destruct Ht as [Hp (l & -> & Hl)]. by apply fill_bucket_ok.
Qed.

Lemma net_reachable_ok n : net_reachable n -> net_ok None n.
Proof.
  intros (n0 & H0 & Hr). apply start_ok in H0. induction Hr as [|a b c Hab _ IH]; [done|]. apply IH. destruct Hab as [e mine a n n' Hm Hrun|e n|e ev q n n' Hq Hrun|e h p len local mode from_addr port_ok same n o n' Had Hrun|n d Hf].
  - destruct (init_leg_ok cfg Hcfg e mine n a H0 Hm) as [(n2 & H2 & Hok)|H2]; congruence.
  - by apply ping_ok.
  - destruct (timer_runs e ev q n H0 Hq) as (n2 & H2 & Hok). congruence.
  - destruct (dispatch_ok cfg Hcfg e h p len local mode from_addr port_ok same n H0 Had) as (o2 & n2 & H2 & Hok). congruence.
  - by apply ok_foreign.
Qed.
End Sys.
