(* ===== verification/HelloFlood.v ===== *)
(** * HelloFlood: state flooding beside the connections

    What the flooding of edges and groups does to the tables of the daemon is
    [foreign] to the connections: it never touches the edge, the node or the number
    of a neighbour that has a leg. *)
From Stdlib Require Import SpecFloat.
From stdpp Require Import base list gmap numbers option sets relations.
From Stdlib Require Import ZArith Lia.
From S2P Require Import Prelude CFloat HashMap StdUtil Events NetTypes Route ReliableLink ITFrag Leg LegProps Daemon StateFlood FloodProof FloodTotal Hello HelloProof HelloLink HelloMake HelloCost HelloState HelloSys.
#[local] Open Scope Z_scope.

(** A state of the table of edges is rewritten. *)
Lemma foreign_put d d' src dst ed ed' : My_Address d' = My_Address d -> Neighbor_Nodes d' = Neighbor_Nodes d -> Control_Links d' = Control_Links d -> All_Nodes d' = All_Nodes d ->
  Get_Edge d src dst = Some ed -> All_Edges d' = put_state (All_Edges d) src dst ed' -> (src = My_Address d -> edge_view ed' = edge_view ed) -> foreign d d'.
Proof.
  intros E1 E2 E3 E4 He Hp Hv. apply foreign_frame; try done. intros y. unfold edge_at, Get_Edge in *. rewrite E1, Hp, find_put. destruct (decide _) as [[H1 H2]|]; [|done].
  subst y. rewrite <- H1 in *. rewrite He. cbn. by rewrite Hv.
Qed.

Lemma foreign_node id d d' : ensure_node id d = Ret d' -> foreign d d'.
Proof.
  unfold ensure_node, Create_Node. destruct (Get_Node d id) as [nd|] eqn:E; [by intros [= <-]|]. intros [= <-]. set (d' := with_nodes _ _ _).
  assert (Hg : forall y, Get_Node d' y = if decide (y = id) then Some (mk_node id false (-1) (-1)) else Get_Node d y).
  { intros y. unfold Get_Node, d', with_nodes. cbn. destruct (decide (y = id)) as [->|]; [by rewrite lookup_insert_eq|by rewrite lookup_insert_ne]. }
  split; try done.
  - intros y v. rewrite Hg. destruct (decide _) as [->|]; [by rewrite E|done].
  - intros y v. rewrite Hg. destruct (decide _) as [->|]; [intros [= <-]; by right|by left].
  - intros y. unfold own_node, node_view. rewrite Hg. destruct (decide _) as [->|]; [by rewrite E|done].
  - intros Hi y nd. rewrite Hg. destruct (decide _) as [->|]; [by intros [= <-]|apply Hi].
  - intros _ y v Hy. by left.
Qed.

Lemma foreign_edge t src dst d d' : ensure_edge t src dst d = Ret d' -> foreign d d'.
Proof.
  unfold ensure_edge. destruct (Get_Edge d src dst) as [ed|] eqn:E; [by intros [= <-]|]. unfold Create_Edge. destruct (Get_Node d src) as [ns|] eqn:Es; [|done]. destruct (Get_Node d dst) as [nt|] eqn:Et; [|done]. rewrite E.
  destruct (Z.eqb_spec src (My_Address d)) as [Hs|Hs].
  - cbn [My_Address set_node_edge with_nodes]. rewrite (proj2 (Z.eqb_eq _ _) Hs). intros [= <-].
    match goal with |- foreign d ?x => set (d' := x) end.
    assert (Hn : forall y, Get_Node d' y = (if decide (y = dst) then (fun nd => mk_node (nid nd) true (neighbor_id nd) (n_cost nd)) <$> Get_Node d y else Get_Node d y)).
    { intros y. unfold d', Get_Node. cbn. destruct (decide (y = dst)) as [->|]; [by rewrite lookup_alter_eq|by rewrite lookup_alter_ne]. }
    assert (He : forall y, edge_at d' y = if decide (y = dst) then Some (-1, None) else edge_at d y).
    { intros y. unfold edge_at, Get_Edge, d'. cbn [All_Edges with_edges with_lts My_Address set_node_edge with_nodes]. rewrite find_put. destruct (decide (y = dst)) as [->|Hy]; [by rewrite decide_True by done|]. rewrite decide_False; [done|]. naive_solver. }
    split; try done.
    + intros y v. rewrite Hn. destruct (decide _) as [->|]; [|done]. by destruct (Get_Node d dst).
    + intros y v. rewrite Hn. destruct (decide _) as [->|]; [|by left]. destruct (Get_Node d dst); by left.
    + intros y. unfold own_node, node_view. rewrite Hn. destruct (decide _) as [->|]; [|done]. rewrite Et. cbn. congruence.
    + intros Hi y nd. rewrite Hn. destruct (decide _) as [->|]; [|apply Hi]. rewrite Et. cbn. intros [= <-]. exact (Hi dst nt Et).
    + intros y v. rewrite He. destruct (decide _) as [->|]; [|done]. unfold edge_at. rewrite <- Hs, E. done.
    + intros Hi y v. rewrite He. destruct (decide _) as [->|]; [|by left]. intros [= <-]. right. split; [done|]. unfold own_node, node_view. rewrite Hn, decide_True, Et by done. cbn. by rewrite (Hi dst nt Et).
  - rewrite (proj2 (Z.eqb_neq _ _) Hs). intros [= <-]. apply foreign_frame; try done. intros y. unfold edge_at, Get_Edge. cbn [All_Edges with_edges My_Address]. rewrite find_put, decide_False; [done|]. naive_solver.
Qed.

Lemma foreign_announce t p sender src dst d d' : Add_to_changed_states t p sender src dst d = Ret d' -> foreign d d'.
Proof.
  intros H. pose proof (add_changed_control _ _ _ _ _ _ _ H) as Hc. destruct (add_changed_spec _ _ _ _ _ _ _ H) as (s & nd & m & Hs & Hst & Hot & (K1 & K2 & K3 & K4 & K5) & _). destruct p; cbn in Hs, Hst, Hot.
  - by eapply foreign_put.
  - apply foreign_frame; try done. intros y. unfold edge_at, Get_Edge. by rewrite K1, Hot.
Qed.

Lemma foreign_edge_cell t source cell d d' b : Edge_Process_state_cell t source cell d = Ret (d', b) -> foreign d d'.
Proof.
  intros H. unfold Edge_Process_state_cell in H. apply bind_Ret in H as (d1 & H1 & H). apply bind_Ret in H as (d2 & H2 & H). apply bind_Ret in H as (d3 & H3 & H).
  etrans; [by eapply foreign_node|]. etrans; [by eapply foreign_node|]. etrans; [by eapply foreign_edge|]. set (d4 := if 0 <? _ then _ else d3) in H.
  assert (H4 : foreign d3 d4) by (unfold d4; destruct (0 <? _); [by apply foreign_frame|reflexivity]). etrans; [exact H4|]. clear H1 H2 H3 H4.
  apply bind_Ret in H as (ed & Hed & H). apply or_else_Ret in Hed; [|done]. destruct (Z.eqb_spec source (My_Address d4)) as [Hs|Hs]; cbn [negb] in H.
  - apply bind_Ret in H as (d5 & H5 & H). injection H as <- <-. etrans; [|by eapply foreign_announce]. eapply foreign_put; [..|exact Hed| |]; [done|done|done|done|reflexivity|]. intros _. unfold edge_view, bump_timestamp. cbn. by destruct (_ <=? _).
  - injection H as <- <-. eapply foreign_put; [..|exact Hed| |]; [done|done|done|done|reflexivity|]. intros ?. done.
Qed.

Lemma foreign_group_cell t source cell d d' b : Groups_Process_state_cell t source cell d = Ret (d', b) -> foreign d d'.
Proof.
  intros H. unfold Groups_Process_state_cell in H. apply bind_Ret in H as (d1 & H1 & H). etrans; [|clear H1].
  { unfold ensure_group, Create_Group in H1. destruct (Find_State _ _ _) eqn:E; [injection H1 as <-; reflexivity|]. rewrite ?E in H1. destruct (My_Address d =? source); injection H1 as <-; by apply foreign_frame. }
  apply bind_Ret in H as (g & Hg & H). destruct (source =? My_Address d1); cbn [negb] in H; [|injection H as <- <-; by apply foreign_frame].
  apply bind_Ret in H as (d5 & H5 & H). injection H as <- <-. etrans; [|by eapply foreign_announce]. by apply foreign_frame.
Qed.

Lemma foreign_cell t p sender source d f cell d' f' : process_cell t p sender source (d, f) cell = Ret (d', f') -> foreign d d'.
Proof.
  intros H. unfold process_cell in H. destruct (match Find_State _ _ _ with None => true | Some s => _ end).
  - apply bind_Ret in H as ([d1 b] & H1 & H). etrans; [destruct p; [by eapply foreign_edge_cell|by eapply foreign_group_cell]|]. destruct b; [|by injection H as <- <-].
    apply bind_Ret in H as (d2 & H2 & H). injection H as <- <-. by eapply foreign_announce.
  - destruct (Find_State _ _ _) as [s|]; [|by injection H as <- <-]. destruct (same_time s cell); [|by injection H as <- <-]. destruct (Find_Changed_State _ _ _); [|by injection H as <- <-].
    apply bind_Ret in H as (nd & _ & H). apply bind_Ret in H as (m & _ & H). injection H as <- <-. destruct p; by apply foreign_frame.
Qed.

(** A whole state packet is foreign to the connections. *)
Lemma foreign_body t p sender body d d' : Process_state_body t p sender body d = Ret d' -> foreign d d'.
Proof.
  intros H. unfold Process_state_body in H. apply bind_Ret in H as ([d1 f] & H1 & H). injection H as <-.
  assert (Hf : foreign d d1).
  { apply (foldM_inv (fun st => foreign d st.1)) in H1; [done| |done]. intros [d2 f2] pkt [d3 f3] _ Hf2 H2. unfold process_packet in H2.
    apply (foldM_inv (fun st => foreign d st.1)) in H2; [done| |done]. intros [d4 f4] c [d5 f5] _ Hf4 H4. cbn [fst] in *. etrans; [exact Hf4|]. by eapply foreign_cell. }
  destruct (f && _); [|done]. etrans; [exact Hf|]. unfold Schedule_Routes. destruct (Schedule_Set_Route d1); [reflexivity|by apply foreign_frame].
Qed.
