(* ===== verification/HelloProps.v ===== *)
(** * HelloProps: what the connections promise

    The invariant of legs, links and edges in every reachable state, that no event
    and no admissible packet ends the daemon, that silent neighbours are found out
    and present ones connected, that sessions are told apart, and what a packet
    that is not admissible does. *)
From Stdlib Require Import SpecFloat.
From stdpp Require Import base list gmap numbers option sets relations.
From Stdlib Require Import ZArith Lia.
From S2P Require Import Prelude CFloat HashMap StdUtil Events NetTypes Route ReliableLink ITFrag Leg LegProps Daemon StateFlood FloodProof FloodTotal Hello HelloProof HelloLink HelloMake HelloCost HelloState HelloRecv HelloDisp HelloSys HelloFlood.
#[local] Open Scope Z_scope.

Section Facts.
Context `{HO : HashOrder}.
Context (cfg : net_conf) (Hcfg : conf_ok cfg).
#[local] Notation net_ok := (net_ok cfg).

Lemma edge_of x n l lg : net_ok x n -> Legs n !! l = Some lg -> exists ed, Get_Edge (dae n) (My_Address (dae n)) (l_dst lg) = Some ed /\ cost ed = l_cost (conn lg) /\ leg (extra ed) = Some l.
Proof.
  intros Hok Hl. pose proof (lw_edge _ _ _ _ (wf_legs _ _ (no_wf _ _ _ Hok) l lg Hl)) as He. unfold my_edge in He. destruct (Get_Edge _ _ _) as [ed|]; [|done]. cbn in He. injection He as H1 H2. by exists ed.
Qed.

(** A connected leg is what the flooding needs of a neighbour. *)
Lemma connected_ready x n l lg : net_ok x n -> Legs n !! l = Some lg -> status (conn lg) = CONNECTED_LEG -> ready (dae n) (l_dst lg).
Proof.
  intros Hok Hl Hst. pose proof (no_wf _ _ _ Hok) as Hw. destruct (no_stat _ _ _ Hok l lg Hl) as [_ S2 _ _ S5]. split.
  { pose proof (wf_my _ _ Hw) as Hx. unfold nb in Hx. destruct (Get_Node (dae n) (My_Address (dae n))); [by eexists|by destruct Hx]. }
  destruct (edge_of x n l lg Hok Hl) as (ed & He & Hc & _). split; [|exists ed; split; [done|rewrite Hc; by apply S2]].
  pose proof (no_nodes _ _ _ Hok l lg Hl) as Ho. unfold own_node, node_view in Ho. pose proof (S5 ltac:(congruence)) as Hnb. unfold nb in Hnb. destruct (Get_Node (dae n) (l_dst lg)) as [nd|] eqn:E; [|done]. injection Ho as H1 H2. exists nd. split; [done|]. split; [done|]. split; [done|].
  destruct (wf_nodes _ _ Hw (l_dst lg) (neighbor_id nd)) as [H3 H4]; [by unfold nb; rewrite E|cbn in Hnb; congruence|]. split; [done|]. apply lookup_lt_Some in H4. pose proof (wf_length _ _ Hw). unfold MAX_NEIGHBORS. lia.
Qed.

Lemma control_link_leg x n l lg i : net_ok x n -> Legs n !! l = Some lg -> l_links lg !! CONTROL_LINK = Some i -> exists lk, Links n !! i = Some lk /\ lk_leg lk = l /\ link_type lk = CONTROL_LINK /\ status (conn lg) <> DISCONNECTED_LEG.
Proof.
  intros Hok Hl Hi. destruct (lw_links _ _ _ _ (wf_legs _ _ (no_wf _ _ _ Hok) l lg Hl) _ _ Hi) as (lk & H1 & H2 & H3). exists lk. split_and!; try done. rewrite (st_control _ _ (no_stat _ _ _ Hok l lg Hl)). congruence.
Qed.

(** Hellos without an answer. *)
Lemma silent_run i l es : forall n lg, net_ok None n -> Legs n !! l = Some lg -> l_links lg !! CONTROL_LINK = Some i -> 0 <= hellos_out (conn lg) <= DEAD_LINK_CNT -> Z.of_nat (length es) = DEAD_LINK_CNT + 1 - hellos_out (conn lg) ->
  exists n1 lg1, foldM (fun n e => Send_Hello cfg e i n) n es = Ret n1 /\ net_ok None n1 /\ waits n1 (HDead_Leg, i, NoArg) /\ Legs n1 !! l = Some lg1 /\ l_dst lg1 = l_dst lg /\
    l_links lg1 = l_links lg /\ hellos_out (conn lg1) = DEAD_LINK_CNT + 1.
Proof.
  induction es as [|e es IH]; intros n lg Hok Hl Hi Hk Hlen; [cbn in Hlen; lia|]. destruct (control_link_leg None n l lg i Hok Hl Hi) as (lk & Hlk & Hleg & Ht & Hst).
  destruct (send_hello_ok cfg Hcfg e i n) as (n' & lk' & lg0 & lg' & Hs & Hok' & Hlk' & Hl0 & Hl' & Hd & Hln & Hcn & Hdead & _); [by apply ok_weaken|by exists lk|]. assert (lk' = lk) as -> by congruence. rewrite Hleg in Hl0, Hl'. assert (lg0 = lg) as -> by congruence.
  cbn [foldM]. rewrite Hs. cbn [mbind outcome_bind]. assert (Hh : hellos_out (conn lg') = hellos_out (conn lg) + 1) by (rewrite Hcn; cbn; apply wraps_small; [lia|unfold in_s, DEAD_LINK_CNT in *; lia]).
  destruct (decide (hellos_out (conn lg) = DEAD_LINK_CNT)) as [Heq|Hne].
  - destruct es as [|e2 es]; [|cbn in Hlen; lia]. exists n', lg'. split; [done|]. split; [done|]. split; [by apply Hdead|]. split; [done|]. split; [done|]. split; [done|]. lia.
  - destruct (IH n' lg' Hok' Hl' ltac:(by rewrite Hln)) as (n1 & lg1 & Hf & Hok1 & Hw1 & Hl1 & Hd1 & Hln1 & Hh1); [lia|cbn in Hlen; lia|]. exists n1, lg1. split; [exact Hf|]. split_and!; congruence.
Qed.

(** One more hello of the session before the leg is connected. *)
Lemma hello_step e n l lg i lk c h p : net_ok None n -> Legs n !! l = Some lg -> l_links lg !! CONTROL_LINK = Some i -> Links n !! i = Some lk -> c_data lk = Some c -> status (conn lg) = NOT_YET_CONNECTED_LEG ->
  h_ctrl_link_id h = other_side_ctrl_link_id (conn lg) -> valid_seq (seq_no h) -> is_old p c = false ->
  exists n1, net_ok None n1 /\ Legs n1 !! l = Some (mk_leg (src_iid lg) (dst_iid lg) (l_dst lg) (l_links lg) (counted (now e) (conn lg)) (bucket lg)) /\
    Process_hello_packet cfg e i h p sizeof_hello_packet true n = (if CONNECT_LINK_CNT <=? s16 (connect_cnter (conn lg) + 1) then connect cfg e i l n1 else Ret n1).
Proof.
  intros Hok Hl Hi Hk Hc Hst Hh Hseq Hold. destruct (control_link_leg None n l lg i Hok Hl Hi) as (lk' & Hk' & Hleg & Ht & _). assert (lk' = lk) as -> by congruence.
  destruct (hello_body_split cfg e i l lg lk c h p n Hok Hk Hc Hleg Ht Hl Hi Hseq) as [(n1 & _ & _ & _ & Hbad)|(n1 & c1 & Hok1 & Hl1 & Hb & _ & _)]; [congruence|].
  exists (set_conn l (counted (now e) (conn lg)) lg n1). split; [|split; [apply lookup_insert_eq|]].
  - eapply (ok_set_conn cfg None n1 l (mk_leg (src_iid lg) (dst_iid lg) (l_dst lg) (l_links lg) (heard (now e) (conn lg)) (bucket lg)) (counted (now e) (conn lg)) Hok1); [by rewrite Hl1, lookup_insert_eq|done|done].
  - unfold Process_hello_packet. rewrite Hk. cbn [or_else mbind outcome_bind]. rewrite Hleg, Hl. cbn [or_else mbind outcome_bind]. change (sizeof_hello_packet =? sizeof_hello_packet) with true. cbn [negb]. rewrite Hh, Z.eqb_refl, Hb. unfold after_hello. by rewrite Hst.
Qed.
End Facts.

(** C5: In every state of a daemon's connections that is reachable from its start,
    through the legs of its configuration, the first pings, timers, packets and what
    the other parts do to the tables, with a known routing metric (the metric of
    loss rates only where no measurement gives the cost -1): a leg is disconnected
    exactly when it has no control link; it has a cost exactly when it is
    connected; its edge has the cost of the leg; a connected leg has its three data
    links and no other leg has one; and every control link has its next hello in the
    time queue, so that a silent neighbour will be noticed. *)
Theorem hello_consistent `{HO : HashOrder} cfg n l lg : conf_ok cfg -> net_reachable cfg n -> Legs n !! l = Some lg ->
  (status (conn lg) = DISCONNECTED_LEG <-> l_links lg !! CONTROL_LINK = None) /\ (status (conn lg) = CONNECTED_LEG <-> l_cost (conn lg) <> -1) /\
  (exists ed, Get_Edge (dae n) (My_Address (dae n)) (l_dst lg) = Some ed /\ cost ed = l_cost (conn lg) /\ leg (extra ed) = Some l) /\
  (forall m, m ∈ [UDP_LINK; RELIABLE_UDP_LINK; REALTIME_UDP_LINK] -> status (conn lg) = CONNECTED_LEG <-> is_Some (l_links lg !! m)) /\
  (forall i, l_links lg !! CONTROL_LINK = Some i -> waits n (HSend_Hello, i, NoArg)).
Proof.
  intros Hcfg Hr Hl. pose proof (net_reachable_ok cfg Hcfg n Hr) as Hok. destruct (no_stat _ _ _ Hok l lg Hl) as [S1 S2 S3 S4 S5]. split; [done|]. split; [done|]. split; [by eapply edge_of|]. split.
  - intros m Hm. split; [intros Hst; by apply S4|]. intros [i Hi]. destruct (S3 m i Hi) as [|[->| ->]]; [done| |]; (set_unfold in Hm; destruct Hm as [Hm|[Hm|[Hm|[]]]]; discriminate Hm).
  - intros i Hi. apply (no_hello _ _ _ Hok); [|done]. by eapply control_of; [apply (no_wf _ _ _ Hok)|..].
Qed.


(** C7: The connections and the state flooding fit together: whatever a neighbour
    with a connected leg floods is processed without failure, and the state
    after it is again a reachable state of the connections. *)
Theorem hello_supports_flooding `{HO : HashOrder} cfg n l lg t p body : conf_ok cfg -> net_reachable cfg n -> Legs n !! l = Some lg -> status (conn lg) = CONNECTED_LEG ->
  exists d, Process_state_body t p (l_dst lg) body (dae n) = Ret d /\ net_reachable cfg (with_dae d n).
Proof.
  intros Hcfg Hr Hl Hst. pose proof (net_reachable_ok cfg Hcfg n Hr) as Hok. destruct (process_body_total t p (l_dst lg) body (dae n)) as (d & Hd & _); [by eapply connected_ready|]. exists d. split; [done|].
  destruct Hr as (n0 & H0 & Hr). exists n0. split; [done|]. eapply rtc_r; [exact Hr|]. apply NForeign. by eapply foreign_body.
Qed.

(** C8: A neighbour that stays silent is given up: after the hello that follows
    [DEAD_LINK_CNT] unanswered ones, [Dead_Leg] is in the queue, and when it runs the
    leg is disconnected, its edge has no cost, and its links (but the
    intrusion-tolerant one) are gone. *)
Theorem silent_leg_dies `{HO : HashOrder} cfg n l lg i es e : conf_ok cfg -> net_reachable cfg n -> Legs n !! l = Some lg -> l_links lg !! CONTROL_LINK = Some i ->
  0 <= hellos_out (conn lg) <= DEAD_LINK_CNT -> Z.of_nat (length es) = DEAD_LINK_CNT + 1 - hellos_out (conn lg) ->
  exists n1 n2 lg2, foldM (fun n e => Send_Hello cfg e i n) n es = Ret n1 /\ waits n1 (HDead_Leg, i, NoArg) /\ Dead_Leg e i n1 = Ret n2 /\ Legs n2 !! l = Some lg2 /\
    status (conn lg2) = DISCONNECTED_LEG /\ (forall m, m <> INTRUSION_TOL_LINK -> l_links lg2 !! m = None) /\
    cost <$> Get_Edge (dae n2) (My_Address (dae n2)) (l_dst lg) = Some (-1).
Proof.
  intros Hcfg Hr Hl Hi Hk Hlen. pose proof (net_reachable_ok cfg Hcfg n Hr) as Hok. destruct (silent_run cfg Hcfg i l es n lg Hok Hl Hi Hk Hlen) as (n1 & lg1 & Hf & Hok1 & Hw & Hl1 & Hd & Hln & Hh).
  destruct (control_link_leg cfg None n1 l lg1 i Hok1 Hl1 ltac:(by rewrite Hln)) as (lk & Hlk & Hleg & Ht & Hst). destruct (ok_disconnect cfg None e n1 l lg1 Hok1 Hl1 Hst) as (n2 & m' & Hdis & Hok2 & _ & Hl2 & Hm & _ & He).
  exists n1, n2. eexists. split; [exact Hf|]. split; [exact Hw|]. split.
  - unfold Dead_Leg. rewrite Hlk. unfold is_control. rewrite Ht. cbn [negb]. change (CONTROL_LINK =? CONTROL_LINK) with true. cbn [negb]. rewrite Hleg, Hl1. cbn [or_else mbind outcome_bind]. rewrite (proj2 (Z.ltb_ge _ _)) by lia. exact Hdis.
  - split; [exact Hl2|]. split; [done|]. split; [intros m Hne; cbn [l_links]; rewrite Hm; by rewrite bool_decide_eq_false_2|]. rewrite <- Hd. unfold my_edge in He. destruct (Get_Edge _ _ _); [|done]. cbn in He |- *. congruence.
Qed.

(** Every hello of the session counts: below [CONNECT_LINK_CNT] it only moves the
    counter and the time; the one that reaches it connects the leg with the initial
    cost of the metric, announces the edge and opens the three data links. *)
Theorem hello_connects `{HO : HashOrder} cfg e n l lg i lk c h p : conf_ok cfg -> net_reachable cfg n -> Legs n !! l = Some lg -> l_links lg !! CONTROL_LINK = Some i -> Links n !! i = Some lk -> c_data lk = Some c ->
  status (conn lg) = NOT_YET_CONNECTED_LEG -> 0 <= connect_cnter (conn lg) < 32767 -> h_ctrl_link_id h = other_side_ctrl_link_id (conn lg) -> valid_seq (seq_no h) -> is_old p c = false ->
  exists n' lg', Process_hello_packet cfg e i h p sizeof_hello_packet true n = Ret n' /\ Legs n' !! l = Some lg' /\ l_dst lg' = l_dst lg /\ hellos_out (conn lg') = 0 /\
    connect_cnter (conn lg') = connect_cnter (conn lg) + 1 /\
    if CONNECT_LINK_CNT <=? connect_cnter (conn lg) + 1
    then status (conn lg') = CONNECTED_LEG /\ Network_Leg_Initial_Cost cfg = Ret (l_cost (conn lg')) /\ cost <$> Get_Edge (dae n') (My_Address (dae n')) (l_dst lg) = Some (l_cost (conn lg')) /\
         forall m, m ∈ [UDP_LINK; RELIABLE_UDP_LINK; REALTIME_UDP_LINK] -> is_Some (l_links lg' !! m)
    else status (conn lg') = NOT_YET_CONNECTED_LEG /\ l_links lg' = l_links lg.
Proof.
  intros Hcfg Hr Hl Hi Hk Hc Hst Hcnt Hh Hseq Hold. pose proof (net_reachable_ok cfg Hcfg n Hr) as Hok. destruct (hello_step cfg e n l lg i lk c h p Hok Hl Hi Hk Hc Hst Hh Hseq Hold) as (n1 & Hok1 & Hl1 & ->).
  assert (Hs : s16 (connect_cnter (conn lg) + 1) = connect_cnter (conn lg) + 1) by (apply wraps_small; [lia|unfold in_s; lia]). rewrite Hs. destruct (Z.leb_spec CONNECT_LINK_CNT (connect_cnter (conn lg) + 1)) as [Hle|Hlt].
  - destruct (connect_ok cfg Hcfg e n1 l _ i Hok1 Hl1 Hst Hi) as (n' & init & m' & Hcon & Hok' & Hinit & Hl' & He & _). exists n'. eexists. split; [exact Hcon|]. split; [exact Hl'|]. split; [done|]. split; [done|]. split; [exact Hs|].
    split; [done|]. split; [exact Hinit|]. split; [unfold my_edge in He; cbn [l_dst] in He; destruct (Get_Edge _ _ _); [|done]; cbn in He |- *; congruence|]. intros m Hm. by apply (st_up _ _ (no_stat _ _ _ Hok' l _ Hl')).
  - exists n1. eexists. split; [done|]. split; [exact Hl1|]. split; [done|]. split; [done|]. split; [exact Hs|]. done.
Qed.

(** Sessions are told apart by the identifiers of the control links: a data packet
    of another session changes nothing; a hello of another session restarts the leg
    with an identifier of its own, no cost, no data link, a new control link and a
    hello on the way. *)
Theorem hello_session `{HO : HashOrder} cfg e n l lg i h p : conf_ok cfg -> net_reachable cfg n -> Legs n !! l = Some lg -> l_links lg !! CONTROL_LINK = Some i ->
  h_ctrl_link_id h <> other_side_ctrl_link_id (conn lg) ->
  (forall len local mode from_addr port_ok same rem, Get_Interface_by_Addr n from_addr = Some rem -> Get_Network_Leg n local (iid rem) = Some l -> Is_hello_type (type h) = false ->
     Prot_process_scat cfg e h p len local mode from_addr port_ok same n = Ret (None, n)) /\
  (other_side_ctrl_link_id (conn lg) <> 0 -> forall same, exists n' lg' j, Process_hello_packet cfg e i h p sizeof_hello_packet same n = Ret n' /\ Legs n' !! l = Some lg' /\
     status (conn lg') = NOT_YET_CONNECTED_LEG /\ ctrl_link_id (conn lg') = rand_id e /\ other_side_ctrl_link_id (conn lg') = 0 /\ l_cost (conn lg') = -1 /\ hellos_out (conn lg') = 1 /\
     l_links lg' !! CONTROL_LINK = Some j /\ (forall m, m <> CONTROL_LINK -> m <> INTRUSION_TOL_LINK -> l_links lg' !! m = None) /\ waits n' (HSend_Hello, j, NoArg)).
Proof.
  intros Hcfg Hr Hl Hi Hne. pose proof (net_reachable_ok cfg Hcfg n Hr) as Hok. split.
  - intros len local mode from_addr port_ok same rem Hrem Hleg Hty. unfold Prot_process_scat. destruct (negb (len =? _)); [done|]. destruct (negb port_ok); [done|]. rewrite Hrem. cbn [mbind option_bind]. rewrite Hleg. destruct (negb (owner rem =? _)); [done|].
    rewrite Hl. cbn [or_else mbind outcome_bind]. rewrite Hty. destruct (l_links lg !! mode); [|done]. cbn [or_else mbind outcome_bind]. by rewrite (proj2 (Z.eqb_neq _ _) Hne).
  - intros Hz same. destruct (control_link_leg cfg None n l lg i Hok Hl Hi) as (lk & Hk & Hleg & Ht & Hst). unfold Process_hello_packet. rewrite Hk. cbn [or_else mbind outcome_bind]. rewrite Hleg, Hl. cbn [or_else mbind outcome_bind].
    change (sizeof_hello_packet =? sizeof_hello_packet) with true. cbn [negb]. rewrite (proj2 (Z.eqb_neq _ _) Hne), (proj2 (Z.eqb_neq _ _) Hz).
    destruct (ok_disconnect cfg None e n l lg Hok Hl Hst) as (n1 & m' & -> & Hok1 & _ & Hl1 & Hm1 & _). cbn [mbind outcome_bind].
    destruct (ok_create_control cfg None e n1 l _ Hok1 Hl1) as (j & n2 & -> & Hok2 & Hca2 & Hw2 & Hfree & Hk2 & Hl2); [cbn [l_links]; by rewrite Hm1|]. cbn [mbind outcome_bind].
    destruct (send_hello_ok cfg Hcfg e j n2) as (n3 & lk3 & lg0 & lg3 & Hs & Hok3 & Hlk3 & Hl0 & Hl3 & _ & Hln & Hcn & _ & Hwt); [by apply ok_weaken|done|]. rewrite Hk2, lookup_insert_eq in Hlk3. injection Hlk3 as <-. cbn [lk_leg] in *.
    rewrite Hl2 in Hl0. injection Hl0 as <-. exists n3, lg3, j. split; [exact Hs|]. split; [exact Hl3|]. rewrite Hcn, Hln. cbn [conn l_links]. split; [done|]. split; [done|]. split; [done|]. split; [done|]. split; [done|].
    split; [apply lookup_insert_eq|]. split; [intros m H1 H2; rewrite lookup_insert_ne by done; rewrite Hm1; by rewrite bool_decide_eq_false_2|]. by apply Hwt.
Qed.

(** C33: A hello from an address without an interface ends the daemon when it
    claims the identifier of the daemon itself or of a neighbour it has a leg to: any
    host that can reach the port can do this. *)
Theorem hello_claim_exits `{HO : HashOrder} cfg e n h p local loc from_addr same : conf_ok cfg -> net_reachable cfg n -> Get_Interface n local = Some loc -> owner loc = My_Address (dae n) ->
  Get_Interface_by_Addr n from_addr = None -> Get_Interface n from_addr = None -> Is_hello_type (type h) = true ->
  (sender_id h = My_Address (dae n) \/ exists l lg, Legs n !! l = Some lg /\ l_dst lg = sender_id h) ->
  Prot_process_scat cfg e h p (data_len h + ack_len h) local CONTROL_LINK from_addr true same n = Exit.
Proof.
  intros Hcfg Hr Hloc Hown Had Hif Hty Hclaim. pose proof (net_reachable_ok cfg Hcfg n Hr) as Hok. unfold Prot_process_scat. rewrite Z.eqb_refl. cbn [negb]. rewrite Had. cbn [mbind option_bind outcome_bind]. rewrite Hty. change (CONTROL_LINK =? CONTROL_LINK) with true. cbn [fmap option_fmap option_map].
  unfold Process_hello_ping. destruct (net_ensure_node cfg n (sender_id h) Hok) as (d & -> & Hok0 & Hnode & Hmy & Hed). cbn [mbind outcome_bind]. set (n0 := with_dae d n) in *.
  destruct (ok_create_interface cfg None n0 (sender_id h) from_addr from_addr Hok0 Hnode Hif Had) as (n1 & -> & Hok1 & Hi1 & Hd1 & Hl1 & Ht1 & _). cbn [mbind outcome_bind].
  assert (Hfail : Create_Network_Leg cfg e local from_addr n1 = Exit); [|by rewrite Hfail]. unfold Create_Network_Leg, Get_Interface. assert (Hne : local <> from_addr) by congruence. rewrite Hi1, (lookup_insert_ne _ from_addr local) by congruence. unfold Get_Interface in Hloc. change (Known_Interfaces n0) with (Known_Interfaces n). rewrite Hloc. cbn [or_else mbind outcome_bind].
  rewrite Hd1. change (dae n0) with d. rewrite Hmy, Hown, Z.eqb_refl. cbn [negb]. rewrite lookup_insert_eq. cbn [or_else mbind outcome_bind owner].
  destruct (Z.eqb_spec (sender_id h) (My_Address (dae n))) as [|Hother]; [done|]. destruct Hclaim as [|(l & lg & Hl & Hdst)]; [done|]. destruct (Get_Network_Leg n1 local from_addr); [done|].
  destruct (edge_of cfg None n l lg Hok Hl) as (ed & He & _ & Hleg). rewrite Hdst in He. assert (He' : Get_Edge d (My_Address (dae n)) (sender_id h) = Some ed) by (unfold Get_Edge in *; by rewrite Hed). rewrite He'. cbn [mbind outcome_bind]. rewrite He'. cbn [or_else mbind outcome_bind]. by rewrite Hleg.
Qed.

(** ** The theorems at an example: node 1 hears from node 2 *)
Module ExHello.
#[export] Instance order : HashOrder := {| hash_iter := fun _ _ _ _ m => map_to_list m; hash_iter_perm := fun _ _ _ _ m => Permutation_refl (map_to_list m) |}.

Definition d0 : daemon := mk_daemon 1 false {[1 := mk_node 1 false (-1) (-1)]} [1] ∅ ∅ ∅ ∅ ∅ 10 [] ∅ (mk_regime 0 [] ∅ [] ∅) false [] [] [].
Definition cfg : net_conf := mk_nconf DISTANCE_ROUTE 500000 (mk_time 0 100000) (mk_time 0 100000) (mk_time 1 0) 7 true (stable_time (mk_time 0 100000)) false (fun _ => false) true (fun x => x).
Definition n0 : net := mk_net d0 {[100 := mk_interf 100 1000 1]} {[1000 := 100]} ∅ ∅ ∅ [] [] 0.
Definition env (t : Z) : net_env := mk_nenv (mk_time t 0) 55 30000 3 44.
Definition hd (ty cid s : Z) : packet_header := mk_phdr ty 2 cid 24 0 s.
Definition pk (s t r : Z) : hello_packet := mk_hello s t 0 r 0 0.
Definition get (r : outcome (option Z * net)) : net := match r with Ret (_, n) => n | _ => n0 end.
Definition rcv (t ty cid s r : Z) (n : net) : outcome (option Z * net) := Prot_process_scat cfg (env t) (hd ty cid s) (pk s t r) 24 100 0 2000 true true n.

(** After a ping, after five hellos, and after the sixth, which connects. *)
Definition n1 : net := get (rcv 10 HELLO_PING_TYPE 0 0 0 n0).
Definition n2 : net := get (rcv 11 HELLO_TYPE 77 1 1 n1).
Definition n3 : net := get (rcv 12 HELLO_TYPE 77 2 1 n2).
Definition n4 : net := get (rcv 13 HELLO_TYPE 77 3 1 n3).
Definition n5 : net := get (rcv 14 HELLO_TYPE 77 4 1 n4).
Definition n6 : net := get (rcv 15 HELLO_TYPE 77 5 1 n5).
Definition n7 : net := get (rcv 16 HELLO_TYPE 77 6 1 n6).

Lemma cfg_ok : conf_ok cfg.
Proof. split; [vm_compute; congruence|vm_compute; set_solver|done]. Qed.

Lemma n0_start : net_start n0.
Proof.
  split; try (vm_compute; reflexivity).
  - intros x nd H. unfold Get_Node in H. cbn in H. apply lookup_singleton_Some in H as [<- <-]. done.
  - intros dst v H. done.
  - intros addr i H. cbn in H. apply lookup_singleton_Some in H as [<- <-]. cbn. rewrite lookup_singleton_eq. by eexists.
  - intros i x H. cbn in H. apply lookup_singleton_Some in H as [<- <-]. done.
Qed.

Lemma old_step n n' t cid s : 0 <= s < 30000 -> rcv t HELLO_TYPE cid s 1 n = Ret (None, n') -> (exists loc, Get_Interface n 100 = Some loc /\ owner loc = My_Address (dae n)) ->
  (Get_Interface_by_Addr n 2000 ≫= fun r => Get_Network_Leg n 100 (iid r)) = Some 0 -> net_step cfg n n'.
Proof. intros Hs Hr Hloc Hleg. eapply NPacket; [|exact Hr]. split; [by left|done|]. intros _ _. cbn. congruence. Qed.

Lemma n1_reach : net_reachable cfg n1.
Proof.
  exists n0. split; [apply n0_start|]. eapply rtc_l; [|apply rtc_refl]. eapply (NPacket cfg (env 10) (hd HELLO_PING_TYPE 0 0) (pk 0 10 0) 24 100 0 2000 true true n0 None); [|vm_compute; reflexivity].
  split; [left; vm_compute; intuition congruence|by exists (mk_interf 100 1000 1)|]. intros _ _ _. split; [|done]. split; [vm_compute; reflexivity|vm_compute; congruence|]. intros c l. vm_compute. congruence.
Qed.

Ltac old_step a b t s := apply (old_step a b t 77 s); [|vm_compute; reflexivity|exists (mk_interf 100 1000 1); split; vm_compute; reflexivity|vm_compute; reflexivity]; lia.

Lemma n6_reach : net_reachable cfg n6.
Proof.
  destruct n1_reach as (n & Hs & Hr). exists n. split; [exact Hs|]. etrans; [exact Hr|].
  eapply (rtc_l _ _ n2); [old_step n1 n2 11 1|]. eapply (rtc_l _ _ n3); [old_step n2 n3 12 2|]. eapply (rtc_l _ _ n4); [old_step n3 n4 13 3|]. eapply (rtc_l _ _ n5); [old_step n4 n5 14 4|]. eapply (rtc_l _ _ n6); [old_step n5 n6 15 5|]. apply rtc_refl.
Qed.

Lemma n7_reach : net_reachable cfg n7.
Proof. destruct n6_reach as (n & Hs & Hr). exists n. split; [exact Hs|]. eapply rtc_r; [exact Hr|]. old_step n6 n7 16 6. Qed.

(** The same node started with a leg to node 2, and its first pings. *)
Definition n0' : net := default n0 (match Init_Legs cfg (env 9) [100] [mk_larg 0 2 0 2000] n0 with Ret n => Some (Init_Connections cfg (env 9) n) | _ => None end).

Lemma n0'_reach : net_reachable cfg n0'.
Proof.
  exists n0. split; [apply n0_start|]. destruct (Init_Leg cfg (env 9) [100] n0 (mk_larg 0 2 0 2000)) as [n| |] eqn:E; [|vm_compute in E; discriminate E..].
  eapply rtc_l; [eapply (NLeg cfg (env 9) [100] (mk_larg 0 2 0 2000)); [|exact E]; vm_compute; reflexivity|]. eapply rtc_l; [apply (NInit cfg (env 9))|].
  unfold n0', Init_Legs. cbn [foldM]. rewrite E. apply rtc_refl.
Qed.

(** A loss rate that is reported as negative: its logarithm, as -0.00025 gives it,
    makes a cost of -1. *)
Definition loss_cfg : net_conf := mk_nconf LOSSRATE_ROUTE 500000 (mk_time 0 100000) (mk_time 0 100000) (mk_time 1 0) 7 true (stable_time (mk_time 0 100000)) false (fun _ => false) true (fun _ => const 25 100000).

Definition leg0 (n : net) : Network_Leg := default (mk_leg 0 0 0 ∅ (mk_conn DISCONNECTED_LEG 0 0 0 0 (mk_time 0 0) 0 (mk_time 0 0)) (mk_bucket 0 (mk_time 0 0) [] [])) (Legs n !! 0).
Definition link0 (n : net) : Link := default (mk_lk 0 0 None None) (Links n !! 0).
Definition cd0 (n : net) : Control_Data := default new_cdata (c_data (link0 n)).
End ExHello.
#[local] Existing Instance ExHello.order.

Lemma hello_consistent_witness : status (conn (ExHello.leg0 ExHello.n7)) = CONNECTED_LEG /\ waits ExHello.n7 (HSend_Hello, 0, NoArg).
Proof.
  split; [vm_compute; reflexivity|].
  destruct (hello_consistent ExHello.cfg ExHello.n7 0 (ExHello.leg0 ExHello.n7) ExHello.cfg_ok ExHello.n7_reach ltac:(vm_compute; reflexivity)) as (_ & _ & _ & _ & H). apply H. vm_compute. reflexivity.
Defined.

Example started_leg_pinged : pings ExHello.n0' = [0] /\ status (conn (ExHello.leg0 ExHello.n0')) = DISCONNECTED_LEG /\ net_reachable ExHello.cfg ExHello.n0'.
Proof. split; [vm_compute; reflexivity|]. split; [vm_compute; reflexivity|apply ExHello.n0'_reach]. Qed.

Example lossrate_dead_cost : leg_cost ExHello.loss_cfg (mk_time 0 0) (ExHello.cd0 ExHello.n7) 1 (-1) = Ret (Some (-1)).
Proof. vm_compute. reflexivity. Qed.


Lemma hello_supports_flooding_witness : exists d, Process_state_body (mk_time 20 0) EdgeP 2 [mk_packet 3 [mk_cell 4 5 0 10 1 0]] (dae ExHello.n7) = Ret d /\ net_reachable ExHello.cfg (with_dae d ExHello.n7).
Proof. apply (hello_supports_flooding ExHello.cfg ExHello.n7 0 (ExHello.leg0 ExHello.n7) (mk_time 20 0) EdgeP [mk_packet 3 [mk_cell 4 5 0 10 1 0]] ExHello.cfg_ok ExHello.n7_reach); vm_compute; reflexivity. Defined.

Lemma silent_leg_dies_witness : exists n1 n2, foldM (fun n e => Send_Hello ExHello.cfg e 0 n) ExHello.n7 (ExHello.env <$> seqZ 17 11) = Ret n1 /\ Dead_Leg (ExHello.env 30) 0 n1 = Ret n2 /\ cost <$> Get_Edge (dae n2) (My_Address (dae n2)) 2 = Some (-1).
Proof.
  destruct (silent_leg_dies ExHello.cfg ExHello.n7 0 (ExHello.leg0 ExHello.n7) 0 (ExHello.env <$> seqZ 17 11) (ExHello.env 30) ExHello.cfg_ok ExHello.n7_reach ltac:(vm_compute; reflexivity) ltac:(vm_compute; reflexivity) ltac:(vm_compute; intuition congruence) ltac:(vm_compute; reflexivity))
    as (n1 & n2 & lg2 & H1 & _ & H2 & _ & _ & _ & H3). exists n1, n2. split; [exact H1|]. split; [exact H2|exact H3].
Defined.

Lemma hello_connects_witness : exists n' lg', Process_hello_packet ExHello.cfg (ExHello.env 16) 0 (ExHello.hd HELLO_TYPE 77 6) (ExHello.pk 6 16 1) sizeof_hello_packet true ExHello.n6 = Ret n' /\ Legs n' !! 0 = Some lg' /\ status (conn lg') = CONNECTED_LEG.
Proof.
  destruct (hello_connects ExHello.cfg (ExHello.env 16) ExHello.n6 0 (ExHello.leg0 ExHello.n6) 0 (ExHello.link0 ExHello.n6) (ExHello.cd0 ExHello.n6) (ExHello.hd HELLO_TYPE 77 6) (ExHello.pk 6 16 1) ExHello.cfg_ok ExHello.n6_reach
    ltac:(vm_compute; reflexivity) ltac:(vm_compute; reflexivity) ltac:(vm_compute; reflexivity) ltac:(vm_compute; reflexivity) ltac:(vm_compute; reflexivity) ltac:(vm_compute; intuition congruence) ltac:(vm_compute; reflexivity) ltac:(left; vm_compute; intuition congruence) ltac:(vm_compute; reflexivity))
    as (n' & lg' & H1 & H2 & _ & _ & _ & H3). exists n', lg'. split; [exact H1|]. split; [exact H2|]. replace (_ <=? _) with true in H3 by (vm_compute; reflexivity). apply H3.
Defined.

Lemma hello_session_witness : exists n' lg', Process_hello_packet ExHello.cfg (ExHello.env 17) 0 (ExHello.hd HELLO_TYPE 78 1) (ExHello.pk 1 17 1) sizeof_hello_packet true ExHello.n7 = Ret n' /\ Legs n' !! 0 = Some lg' /\ status (conn lg') = NOT_YET_CONNECTED_LEG.
Proof.
  destruct (proj2 (hello_session ExHello.cfg (ExHello.env 17) ExHello.n7 0 (ExHello.leg0 ExHello.n7) 0 (ExHello.hd HELLO_TYPE 78 1) (ExHello.pk 1 17 1) ExHello.cfg_ok ExHello.n7_reach ltac:(vm_compute; reflexivity) ltac:(vm_compute; reflexivity) ltac:(vm_compute; congruence)) ltac:(vm_compute; congruence) true)
    as (n' & lg' & j & H1 & H2 & H3 & _). exists n', lg'. split; [exact H1|]. split; [exact H2|exact H3].
Defined.

Lemma hello_claim_exits_witness : Prot_process_scat ExHello.cfg (ExHello.env 17) (ExHello.hd HELLO_PING_TYPE 0 0) (ExHello.pk 0 17 0) 24 100 CONTROL_LINK 3000 true true ExHello.n7 = Exit.
Proof.
  apply (hello_claim_exits ExHello.cfg (ExHello.env 17) ExHello.n7 (ExHello.hd HELLO_PING_TYPE 0 0) (ExHello.pk 0 17 0) 100 (mk_interf 100 1000 1) 3000 true ExHello.cfg_ok ExHello.n7_reach); try (vm_compute; reflexivity).
  right. exists 0, (ExHello.leg0 ExHello.n7). split; vm_compute; reflexivity.
Defined.
