(* ===== verification/SklList.v ===== *)
(** * SklList: skip lists as ordered lists

    What the clients of [stdskl] (stdutil/src/stdskl.c) rely on: a skip list is
    the list of its elements in the order of the comparison function.  The
    argument [p] of the operations compares the key that is looked for with the
    key of an element, as [cmp_fcn(key, elem)] does: it is positive on the
    elements before the key, zero on those that match. *)
From stdpp Require Import base list gmap numbers option sets.
From Stdlib Require Import ZArith Lia.
From S2P Require Import Prelude.
#[local] Open Scope Z_scope.

Section ops.
Context {X : Type}.
Implicit Types (p : X -> Z) (l : list X).

(** [stdskl_find]. *)
Fixpoint skl_find p l : option X :=
  match l with
  | [] => None
  | x :: l => if p x =? 0 then Some x else skl_find p l
  end.

(** [stdskl_insert] at the lower bound of the key. *)
Fixpoint skl_insert p (x : X) l : list X :=
  match l with
  | [] => [x]
  | y :: l' => if p y <=? 0 then x :: l else y :: skl_insert p x l'
  end.

(** [stdskl_erase] of the element that [stdskl_find] finds. *)
Fixpoint skl_erase p l : list X :=
  match l with
  | [] => []
  | x :: l => if p x =? 0 then l else x :: skl_erase p l
  end.

Lemma skl_insert_perm p x l : skl_insert p x l ≡ₚ x :: l.
Proof.
  induction l as [|y l IH]; [done|]. cbn. destruct (p y <=? 0); [done|]. rewrite IH. apply Permutation_swap.
Qed.

Lemma skl_find_some p l x : skl_find p l = Some x -> x ∈ l /\ p x = 0.
Proof.
  induction l as [|y l IH]; [done|]. cbn. destruct (Z.eqb_spec (p y) 0).
  - intros [= ->]. split; [left|done].
  - intros [? ?]%IH. split; [by right|done].
Qed.

Lemma skl_find_none p l : skl_find p l = None <-> forall x, x ∈ l -> p x <> 0.
Proof.
  induction l as [|y l IH]; cbn; [split; [intros _ x H; by apply elem_of_nil in H|done]|].
  destruct (Z.eqb_spec (p y) 0) as [Hy|Hy].
  - split; [done|]. intros H. exfalso. apply (H y); [left|done].
  - rewrite IH. split; [intros H x [->|?]%elem_of_cons; auto|intros H x Hx; apply H; by right].
Qed.

(** When at most one element matches, finding is membership. *)
Lemma skl_find_unique p l x :
  (forall y, y ∈ l -> p y = 0 -> y = x) -> x ∈ l -> p x = 0 -> skl_find p l = Some x.
Proof.
  intros Hu Hx Hp. destruct (skl_find p l) as [y|] eqn:Hf.
  - apply skl_find_some in Hf as [? ?]. f_equal. auto.
  - exfalso. by eapply skl_find_none.
Qed.

Lemma skl_erase_spec p l x : NoDup l -> (forall y z, y ∈ l -> z ∈ l -> p y = 0 -> p z = 0 -> y = z) ->
  x ∈ skl_erase p l <-> x ∈ l /\ p x <> 0.
Proof.
  induction l as [|y l IH]; intros Hn Hu; cbn; [split; [by intros ?%elem_of_nil|by intros [?%elem_of_nil ?]]|].
  apply NoDup_cons in Hn as [Hy Hn]. destruct (Z.eqb_spec (p y) 0) as [Hp|Hp].
  - rewrite elem_of_cons. split; [|by intros [[->|?] ?]]. intros Hx. split; [by right|]. intros H0.
    assert (x = y) as ->; [|done]. apply Hu; [by right|left|done|done].
  - rewrite !elem_of_cons, IH; [|done|intros ? ? ? ?; apply Hu; by right]. split; [intros [->|[? ?]]; auto|].
    intros [[->|?] ?]; auto.
Qed.

Lemma skl_erase_sublist p l : skl_erase p l `sublist_of` l.
Proof.
  induction l as [|y l IH]; [done|]. cbn. destruct (p y =? 0); [by apply sublist_cons|by apply sublist_skip].
Qed.
End ops.
