(* ===== verification/Dissem.v ===== *)
(** * Dissem: dissemination graphs (daemon/dissem_graphs.c)

    [DG_Compute_Graphs] computes, for every configured destination, four graphs
    over the configured links: two disjoint paths, a source-problem graph, a
    destination-problem graph and their union.  [DG_Process_Edge_Update] follows
    the problems on the links and says which of the graphs is used for each
    destination at present.  Skip lists are ordered lists ([SklList]), a
    pointer to a node of a search is the node's identifier.  Costs are the
    16-bit costs of the configuration, whose sums the source keeps as doubles
    exactly; [None] stands for [DBL_MAX].  Allocation succeeds. *)
From stdpp Require Import base list gmap numbers option sets.
From Stdlib Require Import ZArith Lia.
From S2P Require Import Prelude HashMap NetTypes SklList MultiPath.
#[local] Open Scope Z_scope.

Definition MAX_NODES : Z := 50.
Definition DG_LATENCY_REQ : Z := 130.
Definition DG_PROB_COUNT_THRESH : Z := 2.
Definition DG_NUM_GRAPHS : Z := 4.

(** ** Graphs *)
Notation Edge_Key := (Z * Z)%type.
(** An edge of a graph and an entry of [Sorted_Edges]: cost and index. *)
Record DG_Edge := mk_dge { dg_cost : Z; dg_index : Z }.
#[export] Instance DG_Edge_eq_dec : EqDecision DG_Edge.
Proof. solve_decision. Defined.
Record Graph := mk_graph { Nodes : list Z; Edges : list (Edge_Key * DG_Edge) }.

Definition Node_Cmp (l r : Z) : Z := if l <? r then -1 else if r <? l then 1 else 0.
Definition DG_Edge_Cmp (l r : Edge_Key) : Z :=
  if l.1 <? r.1 then -1 else if r.1 <? l.1 then 1
  else if l.2 <? r.2 then -1 else if r.2 <? l.2 then 1 else 0.
Definition Edge_Ptr_Cmp (l r : DG_Edge) : Z :=
  if dg_cost l <? dg_cost r then -1 else if dg_cost r <? dg_cost l then 1 else 0.

Definition Graph_Init : Graph := mk_graph [] [].

(** The value of an edge of the graph. *)
Definition g_find (g : Graph) (k : Edge_Key) : option DG_Edge :=
  snd <$> skl_find (fun x : Edge_Key * DG_Edge => DG_Edge_Cmp k x.1) (Edges g).

Definition Graph_add_node (g : Graph) (id : Z) : Graph :=
  match skl_find (Node_Cmp id) (Nodes g) with
  | Some _ => g
  | None => mk_graph (skl_insert (Node_Cmp id) id (Nodes g)) (Edges g)
  end.

Section graphs.
Context (Directed_Edges : bool).

Definition edge_key (h1 h2 : Z) : Edge_Key :=
  if negb Directed_Edges then if h1 <? h2 then (h1, h2) else (h2, h1) else (h1, h2).

Definition Graph_add_edge (g : Graph) (h1 h2 c index : Z) : Graph :=
  if h1 =? h2 then g
  else
    let key := edge_key h1 h2 in
    match g_find g key with
    | Some _ => g
    | None =>
        let g := Graph_add_node (Graph_add_node g key.1) key.2 in
        mk_graph (Nodes g) (skl_insert (fun x : Edge_Key * DG_Edge => DG_Edge_Cmp key x.1) (key, mk_dge c index) (Edges g))
    end.

(** Every edge of a list, in order. *)
Definition add_edges (g : Graph) (l : list (Edge_Key * DG_Edge)) : Graph :=
  foldl (fun g x => Graph_add_edge g x.1.1 x.1.2 (dg_cost x.2) (dg_index x.2)) g l.

(** ** Shortest paths *)

(** [prev_edge] is not initialised before [prev] is set. *)
Record SP_Node := mk_sp
  { prev : option Z; prev_edge : option DG_Edge; prev_dist : option Z; src_dist : option Z; nghbrs : list (DG_Edge * Z) }.
Definition sp_new : SP_Node := mk_sp None None None None [].

(** The nodes, and the skip list of those not finished yet. *)
Record sp_state := mk_sps { sp_store : gmap Z SP_Node; sp_nodes : list Z }.
Definition sp (s : gmap Z SP_Node) (id : Z) : SP_Node := default sp_new (s !! id).

Definition SP_Add_Node (s : sp_state) (id : Z) : sp_state :=
  match skl_find (Node_Cmp id) (sp_nodes s) with
  | Some _ => s
  | None => mk_sps (<[id := sp_new]> (sp_store s)) (skl_insert (Node_Cmp id) id (sp_nodes s))
  end.

(** Where an edge goes among edges of the same cost depends on the heights of
    the skip list; here it goes in front ([relax_order] shows that the order
    does not matter). *)
Definition add_nghbr (s : gmap Z SP_Node) (a b : Z) (e : DG_Edge) : gmap Z SP_Node :=
  let n := sp s a in
  <[a := mk_sp (prev n) (prev_edge n) (prev_dist n) (src_dist n)
           (skl_insert (fun x : DG_Edge * Z => Edge_Ptr_Cmp e x.1) (e, b) (nghbrs n))]> s.

Definition SP_Add_Edge (s : sp_state) (src_id dst_id : Z) (e : DG_Edge) : sp_state :=
  let s := SP_Add_Node (SP_Add_Node s src_id) dst_id in
  let st := add_nghbr (sp_store s) src_id dst_id e in
  let st := if Directed_Edges then st else add_nghbr st dst_id src_id e in
  mk_sps st (sp_nodes s).

(** The list of nodes of the search; [skip] says which edges are left out. *)
Definition sp_build (skip : Edge_Key -> bool) (g : Graph) (src : Z) : sp_state :=
  foldl (fun s x => if skip x.1 then s else SP_Add_Edge s x.1.1 x.1.2 x.2) (SP_Add_Node (mk_sps ∅ []) src) (Edges g).

(** Comparison of distances; [None] is [DBL_MAX]. *)
Definition dist_lt (a b : option Z) : bool :=
  match a, b with
  | Some a, Some b => a <? b
  | Some _, None => true
  | None, _ => false
  end.

Definition sp_min (s : gmap Z SP_Node) (l : list Z) : option Z :=
  foldl (fun min n => match min with
                      | None => Some n
                      | Some m => if dist_lt (src_dist (sp s n)) (src_dist (sp s m)) then Some n else Some m
                      end) None l.

(** One neighbour of the nearest node. *)
Definition sp_relax (min : Z) (s : gmap Z SP_Node) (x : DG_Edge * Z) : gmap Z SP_Node :=
  let '(e, id) := x in
  match src_dist (sp s min) with
  | None => s
  | Some d =>
      let n := sp s id in
      if dist_lt (Some (d + dg_cost e)) (src_dist n)
      then <[id := mk_sp (Some min) (Some e) (Some (dg_cost e)) (Some (d + dg_cost e)) (nghbrs n)]> s
      else s
  end.

(** The search: every pass finishes a node.  [stop] is the destination at which
    [Shortest_Path] ends; the answer is the state, the finished nodes, the last
    one first, and whether the search stopped there. *)
Fixpoint sp_search (stop : option Z) (fuel : nat) (s : sp_state) (fin : list Z) : outcome (sp_state * list Z * bool) :=
  match fuel with
  | O => Fault
  | S fuel =>
      match sp_min (sp_store s) (sp_nodes s) with
      | None => Ret (s, fin, false)
      | Some min =>
          match src_dist (sp (sp_store s) min) with
          | None => Ret (s, fin, false)
          | Some _ =>
              if decide (stop = Some min) then Ret (s, fin, true)
              else
                let st := foldl (sp_relax min) (sp_store s) (nghbrs (sp (sp_store s) min)) in
                sp_search stop fuel (mk_sps st (skl_erase (Node_Cmp min) (sp_nodes s))) (min :: fin)
          end
      end
  end.

(** The source is at distance 0. *)
Definition sp_start (s : sp_state) (src : Z) : sp_state :=
  let n := sp (sp_store s) src in
  mk_sps (<[src := mk_sp (prev n) (prev_edge n) (prev_dist n) (Some 0) (nghbrs n)]> (sp_store s)) (sp_nodes s).

Definition sp_run (stop : option Z) (skip : Edge_Key -> bool) (g : Graph) (src : Z) : outcome (sp_state * list Z * bool) :=
  let s := sp_start (sp_build skip g src) src in
  sp_search stop (S (length (sp_nodes s))) s [].

(** The walk back from a node to the source. *)
Fixpoint path_back (fuel : nat) (s : gmap Z SP_Node) (src n : Z) (g : Graph) : outcome Graph :=
  if n =? src then Ret g
  else match fuel with
  | O => Fault
  | S fuel =>
      p ← or_else (prev (sp s n)) Fault;
      d ← or_else (prev_dist (sp s n)) Fault;
      e ← or_else (prev_edge (sp s n)) Fault;
      path_back fuel s src p (Graph_add_edge g p n d (dg_index e))
  end.

(** A finished node that is a neighbour of the destination, near enough. *)
Definition add_target (g : Graph) (src dst max_latency : Z) (s : gmap Z SP_Node) (fuel : nat) (result_g : outcome Graph) (n : Z)
    : outcome Graph :=
  result_g ← result_g;
  match g_find g (n, dst), src_dist (sp s n) with
  | Some e, Some d =>
      if max_latency <? dg_cost e + d then Ret result_g
      else path_back fuel s src n (Graph_add_edge result_g n dst (dg_cost e) (dg_index e))
  | _, _ => Ret result_g
  end.

Section order.
Context `{HO : HashOrder}.

(** The finished nodes, as the hash table lists them. *)
Definition fin_iter (fin : list Z) : list Z := fst <$> hash_iter (list_to_map ((fun n => (n, n)) <$> fin) : gmap Z Z).

Definition Destination_Problem_Shortest_Path_Tree (g : Graph) (src dst max_latency : Z) : outcome Graph :=
  '(s, fin, _) ← sp_run None (fun k => (k.1 =? dst) || (k.2 =? dst)) g src;
  foldl (add_target g src dst max_latency (sp_store s) (length fin)) (Ret (Graph_add_node Graph_Init src)) (fin_iter fin).

Definition Shortest_Path_Tree (g : Graph) (src : Z) : outcome Graph :=
  '(s, fin, _) ← sp_run None (fun _ => false) g src;
  foldl (fun r n => g ← r; path_back (length fin) (sp_store s) src n g) (Ret (Graph_add_node Graph_Init src)) (fin_iter fin).

Definition Destination_Problem_Graph (g : Graph) (src_id dst_id max_latency : Z) : outcome (option Graph) :=
  ret_g ← Destination_Problem_Shortest_Path_Tree g src_id dst_id max_latency;
  Ret (if (length (Edges ret_g) =? 0)%nat then None else Some ret_g).

(** The edge in the other direction. *)
Definition flip (x : Edge_Key * DG_Edge) : Edge_Key * DG_Edge := ((x.1.2, x.1.1), x.2).

Definition Source_Problem_Graph (g : Graph) (src_id dst_id max_latency : Z) : outcome (option Graph) :=
  if negb Directed_Edges then Destination_Problem_Graph g dst_id src_id max_latency
  else
    let tmp_g := add_edges Graph_Init (flip <$> Edges g) in
    dst_g ← Destination_Problem_Graph tmp_g dst_id src_id max_latency;
    Ret (match dst_g with None => None | Some d => Some (add_edges Graph_Init (flip <$> Edges d)) end).
End order.

(** [None]: [DBL_MAX]. *)
Definition Shortest_Path (g : option Graph) (src dst : Z) : outcome (option Z) :=
  match g with
  | None => Ret None
  | Some g =>
      '(s, _, found) ← sp_run (Some dst) (fun _ => false) g src;
      Ret (if found : bool then src_dist (sp (sp_store s) dst) else None)
  end.

(** ** Masks *)
Definition Graph_to_Bitmask (size : nat) (g : option Graph) : outcome (list Z) :=
  match g with
  | None => Ret (empty_mask size)
  | Some g => foldl (fun m x => m ← m; set_index m (dg_index x.2)) (Ret (empty_mask size)) (Edges g)
  end.

Definition Source_Destination_Problem_Bitmask_from_SDP_Graphs (size : nat) (src_g dst_g : option Graph) : outcome (list Z) :=
  match src_g, dst_g with
  | Some src_g, Some dst_g =>
      Graph_to_Bitmask size (Some (add_edges (add_edges Graph_Init (Edges src_g)) (Edges dst_g)))
  | _, _ => Graph_to_Bitmask size None
  end.
End graphs.

(** A NULL mask is not readable; the byte of the index is written without a
    bounds check. *)
Definition DG_Edge_In_Graph (size : nat) (edge_index : Z) (graph_mask : option (list Z)) : outcome bool :=
  edge_mask ← neighbor_mask size edge_index;
  graph_mask ← or_else graph_mask Fault;
  Ret (negb (forallb (Z.eqb 0) (zip_with Z.land (words size graph_mask) (words size edge_mask)))).

(** ** The graphs of the destinations *)

(** The configuration: that of the disjoint paths, [Sorted_Edges] with the
    indexes given at start-up, and whether the routing weight is
    [PROBLEM_ROUTE]. *)
Record dg_conf := mk_dgc
  { dg_mp : mp_conf; dg_directed : bool; dg_problem_route : bool;
    Sorted_Edges : list (Edge_Key * DG_Edge); Node_Lookup_Addr_to_ID : gmap Z Z }.

(** A destination: the fields multipath.c reads, and the rest. *)
Record DG_Dest := mk_dd
  { dd_graph : DG_Dst; edge_lists : Z -> list (Edge_Key * Z); problem_count : Z; problems : list Z }.
Record DG_Src := mk_ds { s_problem_count : Z; s_problems : list Z }.
Record dg_state := mk_dgs
  { DG_Destinations : list DG_Dest; DG_Source : DG_Src; DG_Problem_List : list (Edge_Key * Z) }.

Definition gtype (t : DG_Dest) : Z := current_graph_type (dd_graph t).
Definition set_gtype (j : Z) (t : DG_Dest) : DG_Dest :=
  mk_dd (mk_dg (bitmasks (dd_graph t)) j) (edge_lists t) (problem_count t) (problems t).
Definition set_problem (v n : Z) (count : Z) (t : DG_Dest) : DG_Dest :=
  mk_dd (dd_graph t) (edge_lists t) count (<[Z.to_nat n := v]> (problems t)).

Definition no_problems : list Z := repeat 0 (Z.to_nat (MAX_NODES + 1)).
Definition dg_none : DG_Dest := mk_dd (mk_dg (fun _ => None) DG_NONE_GRAPH) (fun _ => []) 0 no_problems.
Definition dg_initial : dg_state := mk_dgs (repeat dg_none (Z.to_nat (MAX_NODES + 1))) (mk_ds 0 no_problems) [].

Definition key_insert (k : Edge_Key) (index : Z) (l : list (Edge_Key * Z)) : list (Edge_Key * Z) :=
  skl_insert (fun x : Edge_Key * Z => DG_Edge_Cmp k x.1) (k, index) l.
Definition key_find (k : Edge_Key) (l : list (Edge_Key * Z)) : option (Edge_Key * Z) :=
  skl_find (fun x : Edge_Key * Z => DG_Edge_Cmp k x.1) l.
Definition key_erase (k : Edge_Key) (l : list (Edge_Key * Z)) : list (Edge_Key * Z) :=
  skl_erase (fun x : Edge_Key * Z => DG_Edge_Cmp k x.1) l.

(** The edges of a mask. *)
Definition mask_edges (size : nat) (edges : list (Edge_Key * DG_Edge)) (mask : list Z) : outcome (list (Edge_Key * Z)) :=
  foldl (fun l x => l ← l;
                    b ← DG_Edge_In_Graph size (dg_index x.2) (Some mask);
                    Ret (if b : bool then key_insert x.1 (dg_index x.2) l else l)) (Ret []) edges.

(** The function of a graph type with the values of the four graphs. *)
Definition four {A} (none k2 src dst both : A) (j : Z) : A :=
  if j =? DG_K2_GRAPH then k2 else if j =? DG_SRC_GRAPH then src
  else if j =? DG_DST_GRAPH then dst else if j =? DG_SRC_DST_GRAPH then both else none.

Section compute_graphs.
Context `{HO : HashOrder} (cfg : dg_conf).
Let size := mp_size (dg_mp cfg).
Let My_ID := mp_My_ID (dg_mp cfg).

(** The graphs of one destination. *)
Definition compute_dest (edges : edge_table) (base_graph : Graph) (dest_id : Z) : outcome DG_Dest :=
  '(_, k2) ← MultiPath_Compute (dg_mp cfg) edges dest_id 2 true false;
  k2_edges ← mask_edges size (Sorted_Edges cfg) k2;
  src_graph ← Source_Problem_Graph (dg_directed cfg) base_graph My_ID dest_id DG_LATENCY_REQ;
  dst_graph ← Destination_Problem_Graph (dg_directed cfg) base_graph My_ID dest_id DG_LATENCY_REQ;
  src_mask ← Graph_to_Bitmask size src_graph;
  dst_mask ← Graph_to_Bitmask size dst_graph;
  both_mask ← Source_Destination_Problem_Bitmask_from_SDP_Graphs (dg_directed cfg) size src_graph dst_graph;
  let fall mask := if MultiPath_Is_Equal size (empty_mask size) mask then k2 else mask in
  src_edges ← mask_edges size (Sorted_Edges cfg) (fall src_mask);
  dst_edges ← mask_edges size (Sorted_Edges cfg) (fall dst_mask);
  both_edges ← mask_edges size (Sorted_Edges cfg) (fall both_mask);
  Ret (mk_dd (mk_dg (four None (Some k2) (Some (fall src_mask)) (Some (fall dst_mask)) (Some (fall both_mask))) DG_K2_GRAPH)
             (four [] k2_edges src_edges dst_edges both_edges) 0 no_problems).

(** [nodes]: the identifiers, in the order of [Node_Lookup_ID_to_Addr]; one that
    is no index of [DG_Destinations] is not defined. *)
Definition DG_Compute_Graphs (edges : edge_table) (nodes : list Z) : outcome dg_state :=
  if negb (dg_directed cfg) then Ret dg_initial
  else
    let base_graph := add_edges (dg_directed cfg) Graph_Init (Sorted_Edges cfg) in
    foldl (fun s dest_id =>
             s ← s;
             t ← compute_dest edges base_graph dest_id;
             if (0 <=? dest_id) && (dest_id <=? MAX_NODES)
             then Ret (mk_dgs (<[Z.to_nat dest_id := t]> (DG_Destinations s)) (DG_Source s) (DG_Problem_List s))
             else Fault) (Ret dg_initial) nodes.
End compute_graphs.

(** ** Following the problems *)

Definition DG_Problem_On_Graph (prob : list (Edge_Key * Z)) (edge_list : list (Edge_Key * Z)) (k : Edge_Key) (type : Z) : bool :=
  existsb (fun x : Edge_Key * Z =>
             negb ((type =? DG_SRC_GRAPH) && (x.1.1 =? k.1) || (type =? DG_DST_GRAPH) && (x.1.2 =? k.2)) &&
             bool_decide (is_Some (key_find x.1 prob))) edge_list.

(** A loop over the destinations 1 to [MAX_NODES]: [i] is the index of the first
    of [l]. *)
Fixpoint for_dests (f : Z -> DG_Dest -> outcome DG_Dest) (i : Z) (l : list DG_Dest) : outcome (list DG_Dest) :=
  match l with
  | [] => Ret []
  | t :: l => t ← (if i =? 0 then Ret t else f i t); l ← for_dests f (i + 1) l; Ret (t :: l)
  end.

(** An update of the destination of the edge. *)
Definition at_dest (i : Z) (f : DG_Dest -> outcome DG_Dest) (l : list DG_Dest) : outcome (list DG_Dest) :=
  t ← or_else (l !! Z.to_nat i) Fault; t ← f t; Ret (<[Z.to_nat i := t]> l).

Definition problem_at (n : Z) (l : list Z) : outcome Z := or_else (l !! Z.to_nat n) Fault.

Section update.
Context (cfg : dg_conf).
Let size := mp_size (dg_mp cfg).
Let My_ID := mp_My_ID (dg_mp cfg).

(** A destination that uses a source or destination graph the edge is on. *)
Definition switch_both (k : Edge_Key) (edge_index : Z) (i : Z) (t : DG_Dest) : outcome DG_Dest :=
  if gtype t =? DG_NONE_GRAPH then Ret t
  else if (gtype t =? DG_SRC_GRAPH) && negb (k.1 =? My_ID) || (gtype t =? DG_DST_GRAPH) && negb (k.2 =? i) then
    b ← DG_Edge_In_Graph size edge_index (bitmasks (dd_graph t) (gtype t));
    Ret (if b : bool then set_gtype DG_SRC_DST_GRAPH t else t)
  else Ret t.

Definition new_dest_problem (prob : list (Edge_Key * Z)) (k : Edge_Key) (t : DG_Dest) : outcome DG_Dest :=
  if gtype t =? DG_NONE_GRAPH then Ret t
  else
    v ← problem_at k.1 (problems t);
    if negb (v =? 0) then Ret t
    else
      let t := set_problem 1 k.1 (problem_count t + 1) t in
      Ret (if problem_count t =? DG_PROB_COUNT_THRESH then
             if gtype t =? DG_SRC_GRAPH then set_gtype DG_SRC_DST_GRAPH t
             else if gtype t =? DG_K2_GRAPH then
               if DG_Problem_On_Graph prob (edge_lists t DG_DST_GRAPH) k DG_DST_GRAPH
               then set_gtype DG_SRC_DST_GRAPH t else set_gtype DG_DST_GRAPH t
             else t
           else t).

Definition source_problem (prob : list (Edge_Key * Z)) (k : Edge_Key) (_ : Z) (t : DG_Dest) : outcome DG_Dest :=
  Ret (if gtype t =? DG_NONE_GRAPH then t
       else if gtype t =? DG_DST_GRAPH then set_gtype DG_SRC_DST_GRAPH t
       else if gtype t =? DG_K2_GRAPH then
         if DG_Problem_On_Graph prob (edge_lists t DG_SRC_GRAPH) k DG_SRC_GRAPH
         then set_gtype DG_SRC_DST_GRAPH t else set_gtype DG_SRC_GRAPH t
       else t).

Definition new_source_problem (k : Edge_Key) (s : dg_state) : outcome dg_state :=
  if negb (k.1 =? My_ID) then Ret s
  else
    v ← problem_at k.2 (s_problems (DG_Source s));
    if negb (v =? 0) then Ret s
    else
      let src := mk_ds (s_problem_count (DG_Source s) + 1) (<[Z.to_nat k.2 := 1]> (s_problems (DG_Source s))) in
      l ← (if s_problem_count src =? DG_PROB_COUNT_THRESH
           then for_dests (source_problem (DG_Problem_List s) k) 0 (DG_Destinations s) else Ret (DG_Destinations s));
      Ret (mk_dgs l src (DG_Problem_List s)).

Definition problem_started (k : Edge_Key) (edge_index : Z) (s : dg_state) : outcome dg_state :=
  match key_find k (DG_Problem_List s) with
  | Some _ => Ret s
  | None =>
      let prob := key_insert k edge_index (DG_Problem_List s) in
      l ← for_dests (switch_both k edge_index) 0 (DG_Destinations s);
      l ← at_dest k.2 (new_dest_problem prob k) l;
      new_source_problem k (mk_dgs l (DG_Source s) prob)
  end.

Definition dest_resolved (src_count : Z) (prob : list (Edge_Key * Z)) (k : Edge_Key) (t : DG_Dest) : outcome DG_Dest :=
  if gtype t =? DG_NONE_GRAPH then Ret t
  else
    v ← problem_at k.1 (problems t);
    if negb (v =? 1) then Ret t
    else
      let t' := if problem_count t =? DG_PROB_COUNT_THRESH then
                  if gtype t =? DG_DST_GRAPH then set_gtype DG_K2_GRAPH t
                  else if gtype t =? DG_SRC_DST_GRAPH then
                    if src_count <? DG_PROB_COUNT_THRESH then set_gtype DG_K2_GRAPH t
                    else if negb (DG_Problem_On_Graph prob (edge_lists t DG_SRC_GRAPH) (My_ID, k.2) DG_SRC_GRAPH)
                    then set_gtype DG_SRC_GRAPH t else t
                  else t
                else t in
      Ret (set_problem 0 k.1 (problem_count t - 1) t').

Definition source_resolved (prob : list (Edge_Key * Z)) (i : Z) (t : DG_Dest) : outcome DG_Dest :=
  Ret (if gtype t =? DG_NONE_GRAPH then t
       else if gtype t =? DG_SRC_GRAPH then set_gtype DG_K2_GRAPH t
       else if gtype t =? DG_SRC_DST_GRAPH then
         if problem_count t <? DG_PROB_COUNT_THRESH then set_gtype DG_K2_GRAPH t
         else if negb (DG_Problem_On_Graph prob (edge_lists t DG_DST_GRAPH) (My_ID, i) DG_DST_GRAPH)
         then set_gtype DG_DST_GRAPH t else t
       else t).

Definition resolve_source (k : Edge_Key) (s : dg_state) : outcome dg_state :=
  if negb (k.1 =? My_ID) then Ret s
  else
    v ← problem_at k.2 (s_problems (DG_Source s));
    if negb (v =? 1) then Ret s
    else
      l ← (if s_problem_count (DG_Source s) =? DG_PROB_COUNT_THRESH
           then for_dests (source_resolved (DG_Problem_List s)) 0 (DG_Destinations s) else Ret (DG_Destinations s));
      Ret (mk_dgs l (mk_ds (s_problem_count (DG_Source s) - 1) (<[Z.to_nat k.2 := 0]> (s_problems (DG_Source s))))
             (DG_Problem_List s)).

(** The source-destination graph of a destination with neither problem is an
    error the daemon exits on. *)
Definition middle_resolved (src_count : Z) (prob : list (Edge_Key * Z)) (i : Z) (t : DG_Dest) : outcome DG_Dest :=
  if gtype t =? DG_SRC_DST_GRAPH then
    if (src_count <? DG_PROB_COUNT_THRESH) && (problem_count t <? DG_PROB_COUNT_THRESH) then Exit
    else if src_count <? DG_PROB_COUNT_THRESH then
      Ret (if negb (DG_Problem_On_Graph prob (edge_lists t DG_DST_GRAPH) (My_ID, i) DG_DST_GRAPH) then set_gtype DG_DST_GRAPH t else t)
    else if problem_count t <? DG_PROB_COUNT_THRESH then
      Ret (if negb (DG_Problem_On_Graph prob (edge_lists t DG_SRC_GRAPH) (My_ID, i) DG_SRC_GRAPH) then set_gtype DG_SRC_GRAPH t else t)
    else Ret t
  else Ret t.

Definition problem_resolved (k : Edge_Key) (s : dg_state) : outcome dg_state :=
  match key_find k (DG_Problem_List s) with
  | None => Ret s
  | Some _ =>
      let prob := key_erase k (DG_Problem_List s) in
      l ← at_dest k.2 (dest_resolved (s_problem_count (DG_Source s)) prob k) (DG_Destinations s);
      s ← resolve_source k (mk_dgs l (DG_Source s) prob);
      l ← for_dests (middle_resolved (s_problem_count (DG_Source s)) prob) 0 (DG_Destinations s);
      Ret (mk_dgs l (DG_Source s) (DG_Problem_List s))
  end.

(** The update of an edge given by the addresses of its ends, its index and its
    cost before and after. *)
Definition no_change (old_cost new_cost : Z) : bool :=
  (new_cost =? -1) && (old_cost =? -1) || (new_cost <? -1) && (old_cost <? -1) || (0 <=? new_cost) && (0 <=? old_cost).

Definition DG_Process_Edge_Update (src dst edge_index old_cost new_cost : Z) (s : dg_state) : outcome dg_state :=
  if negb (dg_problem_route cfg) then Ret s
  else if no_change old_cost new_cost then Ret s
  else
    match Node_Lookup_Addr_to_ID cfg !! dst, Node_Lookup_Addr_to_ID cfg !! src with
    | Some d, Some s' =>
        if new_cost <? 0 then problem_started (s', d) edge_index s else problem_resolved (s', d) s
    | _, _ => Ret s
    end.
End update.
