(* ===== verification/DissemState.v ===== *)
(** * DissemState: which graph a destination uses

    The state [DG_Process_Edge_Update] keeps is determined by the set of links
    that have a problem: the counts, the marks, and the graph used for each
    destination.  [dg_inv] says so, and every update preserves it. *)
From stdpp Require Import base list gmap numbers option sets.
From Stdlib Require Import ZArith Lia.
From S2P Require Import Prelude NetTypes SklList MultiPath Dissem.
#[local] Open Scope Z_scope.

Lemma DG_Edge_Cmp_eq k k' : DG_Edge_Cmp k k' = 0 <-> k = k'.
Proof.
  destruct k as [a b], k' as [c d]. unfold DG_Edge_Cmp. cbn.
  destruct (Z.ltb_spec a c), (Z.ltb_spec c a), (Z.ltb_spec b d), (Z.ltb_spec d b); split; intros H'; try (injection H'; intros); try (f_equal; lia); lia.
Qed.

Lemma Node_Cmp_eq a b : Node_Cmp a b = 0 <-> a = b.
Proof. unfold Node_Cmp. destruct (Z.ltb_spec a b), (Z.ltb_spec b a); lia. Qed.

(** ** Lists of keys *)
Lemma key_find_spec k l : is_Some (key_find k l) <-> k ∈ l.*1.
Proof.
  unfold key_find. split.
  - intros [[k' i] H]. apply skl_find_some in H as [Hin ->%DG_Edge_Cmp_eq]. apply list_elem_of_fmap. by exists (k', i).
  - intros ([k' i] & -> & Hin)%list_elem_of_fmap. destruct (skl_find _ l) as [x|] eqn:Hf; [by eexists|].
    exfalso. eapply skl_find_none in Hf; [|exact Hin]. by apply Hf, DG_Edge_Cmp_eq.
Qed.

Lemma key_insert_elem k i l k' : k' ∈ (key_insert k i l).*1 <-> k' = k \/ k' ∈ l.*1.
Proof. unfold key_insert. rewrite skl_insert_perm, fmap_cons, elem_of_cons. done. Qed.

Lemma key_erase_elem k l k' : NoDup l.*1 -> k' ∈ (key_erase k l).*1 <-> k' <> k /\ k' ∈ l.*1.
Proof.
  intros Hn. assert (Huniq : forall y z : Edge_Key * Z, y ∈ l -> z ∈ l -> y.1 = z.1 -> y = z).
  { intros y z Hy Hz Hk. apply list_elem_of_lookup in Hy as [i Hi], Hz as [j Hj]. assert (i = j) as ->; [|congruence].
    eapply NoDup_lookup; [exact Hn|rewrite list_lookup_fmap, Hi; done|rewrite list_lookup_fmap, Hj, Hk; done]. }
  rewrite !list_elem_of_fmap. unfold key_erase. split.
  - intros (x & -> & Hx). apply skl_erase_spec in Hx as [Hx Hne].
    + rewrite DG_Edge_Cmp_eq in Hne. split; [congruence|by exists x].
    + by apply (NoDup_fmap_1 fst).
    + intros y z Hy Hz H1%DG_Edge_Cmp_eq H2%DG_Edge_Cmp_eq. apply Huniq; congruence.
  - intros [Hne (x & -> & Hx)]. exists x. split; [done|]. apply skl_erase_spec.
    + by apply (NoDup_fmap_1 fst).
    + intros y z Hy Hz H1%DG_Edge_Cmp_eq H2%DG_Edge_Cmp_eq. apply Huniq; congruence.
    + split; [done|]. rewrite DG_Edge_Cmp_eq. congruence.
Qed.

Lemma key_insert_nodup k i l : k ∉ l.*1 -> NoDup l.*1 -> NoDup (key_insert k i l).*1.
Proof. intros Hk Hn. unfold key_insert. rewrite skl_insert_perm, fmap_cons. by apply NoDup_cons. Qed.

Lemma key_erase_nodup k l : NoDup l.*1 -> NoDup (key_erase k l).*1.
Proof.
  intros Hn. eapply sublist_NoDup; [exact Hn|]. apply fmap_sublist, skl_erase_sublist.
Qed.

(** ** The graph a set of problems calls for *)
Section spec.
Context (My_ID : Z).
Implicit Types (P : gset Edge_Key) (i : Z) (t : DG_Dest).

(** How many outgoing links of this node, and how many links into a destination,
    have a problem. *)
Definition src_problems P : Z := Z.of_nat (size (filter (fun k : Edge_Key => k.1 = My_ID) P)).
Definition dst_problems P i : Z := Z.of_nat (size (filter (fun k : Edge_Key => k.2 = i) P)).

(** A problem on a graph, away from its source or its destination. *)
Definition src_trouble P t : bool :=
  existsb (fun x : Edge_Key * Z => negb (x.1.1 =? My_ID) && bool_decide (x.1 ∈ P)) (edge_lists t DG_SRC_GRAPH).
Definition dst_trouble P i t : bool :=
  existsb (fun x : Edge_Key * Z => negb (x.1.2 =? i) && bool_decide (x.1 ∈ P)) (edge_lists t DG_DST_GRAPH).

Definition graph_for P i t : Z :=
  match 2 <=? src_problems P, 2 <=? dst_problems P i with
  | false, false => DG_K2_GRAPH
  | true, false => if src_trouble P t then DG_SRC_DST_GRAPH else DG_SRC_GRAPH
  | false, true => if dst_trouble P i t then DG_SRC_DST_GRAPH else DG_DST_GRAPH
  | true, true => DG_SRC_DST_GRAPH
  end.

Definition mark (b : bool) : Z := if b then 1 else 0.

(** A destination that has graphs. *)
Record dest_ok P i t : Prop := {
  do_count : problem_count t = dst_problems P i;
  do_marks : forall n, 0 <= n <= MAX_NODES -> problems t !! Z.to_nat n = Some (mark (bool_decide ((n, i) ∈ P)));
  do_graph : gtype t = graph_for P i t }.

Definition dest_inv P i t : Prop := gtype t = DG_NONE_GRAPH \/ dest_ok P i t.

(** The state that goes with a set of problems. *)
Record dg_inv P (s : dg_state) : Prop := {
  di_nodup : NoDup (DG_Problem_List s).*1;
  di_list : forall k, k ∈ (DG_Problem_List s).*1 <-> k ∈ P;
  di_range : forall k, k ∈ P -> 1 <= k.1 <= MAX_NODES /\ 1 <= k.2 <= MAX_NODES;
  di_scount : s_problem_count (DG_Source s) = src_problems P;
  di_smarks : forall n, 0 <= n <= MAX_NODES -> s_problems (DG_Source s) !! Z.to_nat n = Some (mark (bool_decide ((My_ID, n) ∈ P)));
  di_length : length (DG_Destinations s) = Z.to_nat (MAX_NODES + 1);
  di_zero : forall t, DG_Destinations s !! 0%nat = Some t -> gtype t = DG_NONE_GRAPH;
  di_dests : forall i t, DG_Destinations s !! Z.to_nat i = Some t -> 0 <= i -> dest_inv P i t }.

(** *** Counting *)
Lemma filter_add (Q : Edge_Key -> Prop) `{!forall k, Decision (Q k)} P k : k ∉ P ->
  size (filter Q ({[k]} ∪ P)) = ((if decide (Q k) then 1 else 0) + size (filter Q P))%nat.
Proof.
  intros Hk. rewrite filter_union_L, (filter_singleton_L Q). destruct (decide (Q k)).
  - rewrite size_union, size_singleton; [done|]. set_solver.
  - by rewrite union_empty_l_L.
  - apply _.
Qed.

Lemma filter_remove (Q : Edge_Key -> Prop) `{!forall k, Decision (Q k)} P k : k ∈ P ->
  size (filter Q P) = ((if decide (Q k) then 1 else 0) + size (filter Q (P ∖ {[k]})))%nat.
Proof.
  intros Hk. rewrite <- filter_add by set_solver. f_equal. f_equal. apply set_eq. intros x. destruct (decide (x = k)); set_solver.
Qed.

Lemma src_add P k : k ∉ P -> src_problems ({[k]} ∪ P) = (if k.1 =? My_ID then 1 else 0) + src_problems P.
Proof. intros Hk. unfold src_problems. rewrite filter_add by done. destruct (decide _), (Z.eqb_spec k.1 My_ID); lia. Qed.
Lemma dst_add P k i : k ∉ P -> dst_problems ({[k]} ∪ P) i = (if k.2 =? i then 1 else 0) + dst_problems P i.
Proof. intros Hk. unfold dst_problems. rewrite filter_add by done. destruct (decide _), (Z.eqb_spec k.2 i); lia. Qed.
Lemma src_remove P k : k ∈ P -> src_problems P = (if k.1 =? My_ID then 1 else 0) + src_problems (P ∖ {[k]}).
Proof. intros Hk. unfold src_problems. rewrite (filter_remove _ P k) by done. destruct (decide _), (Z.eqb_spec k.1 My_ID); lia. Qed.
Lemma dst_remove P k i : k ∈ P -> dst_problems P i = (if k.2 =? i then 1 else 0) + dst_problems (P ∖ {[k]}) i.
Proof. intros Hk. unfold dst_problems. rewrite (filter_remove _ P k) by done. destruct (decide _), (Z.eqb_spec k.2 i); lia. Qed.

(** *** Trouble *)
Lemma existsb_add {A} (f g : A -> bool) (h : A -> bool) l :
  (forall x, f x = g x || h x) -> existsb f l = existsb g l || existsb h l.
Proof. intros H. induction l as [|x l IH]; [done|]. cbn. rewrite IH, H. destruct (g x), (h x), (existsb g l); done. Qed.

Definition on_graph (k : Edge_Key) t (j : Z) : bool := bool_decide (k ∈ (edge_lists t j).*1).

Lemma on_graph_exists k t j (f : Edge_Key -> bool) :
  existsb (fun x : Edge_Key * Z => f x.1 && bool_decide (x.1 = k)) (edge_lists t j) = f k && on_graph k t j.
Proof.
  unfold on_graph. apply eq_true_iff_eq. rewrite existsb_exists, andb_true_iff, bool_decide_eq_true, list_elem_of_fmap. split.
  - intros (x & Hx & [Hf Hk%bool_decide_eq_true]%andb_true_iff). subst k. split; [done|]. exists x. split; [done|by apply list_elem_of_In].
  - intros [Hf (x & -> & Hx)]. exists x. split; [by apply list_elem_of_In|]. by rewrite Hf, bool_decide_eq_true_2.
Qed.

Lemma src_trouble_add P k t : src_trouble ({[k]} ∪ P) t = src_trouble P t || negb (k.1 =? My_ID) && on_graph k t DG_SRC_GRAPH.
Proof.
  unfold src_trouble. rewrite <- (on_graph_exists k t DG_SRC_GRAPH (fun k => negb (k.1 =? My_ID))). apply existsb_add. intros [x n]. cbn.
  destruct (negb _); [|done]. cbn. apply eq_true_iff_eq. rewrite orb_true_iff, !bool_decide_eq_true. set_solver.
Qed.
Lemma dst_trouble_add P k i t : dst_trouble ({[k]} ∪ P) i t = dst_trouble P i t || negb (k.2 =? i) && on_graph k t DG_DST_GRAPH.
Proof.
  unfold dst_trouble. rewrite <- (on_graph_exists k t DG_DST_GRAPH (fun k => negb (k.2 =? i))). apply existsb_add. intros [x n]. cbn.
  destruct (negb _); [|done]. cbn. apply eq_true_iff_eq. rewrite orb_true_iff, !bool_decide_eq_true. set_solver.
Qed.

Lemma problem_on_graph_src prob P l d t : (forall k, k ∈ prob.*1 <-> k ∈ P) -> l = edge_lists t DG_SRC_GRAPH ->
  DG_Problem_On_Graph prob l (My_ID, d) DG_SRC_GRAPH = src_trouble P t.
Proof.
  intros Hp ->. unfold DG_Problem_On_Graph, src_trouble. induction (edge_lists t DG_SRC_GRAPH) as [|x l IH]; [done|]. cbn [existsb].
  rewrite IH. f_equal. cbn [fst]. change (DG_SRC_GRAPH =? DG_SRC_GRAPH) with true. change (DG_SRC_GRAPH =? DG_DST_GRAPH) with false.
  cbn [andb]. rewrite orb_false_r. f_equal. apply bool_decide_ext. by rewrite key_find_spec.
Qed.
Lemma problem_on_graph_dst prob P l a i t : (forall k, k ∈ prob.*1 <-> k ∈ P) -> l = edge_lists t DG_DST_GRAPH ->
  DG_Problem_On_Graph prob l (a, i) DG_DST_GRAPH = dst_trouble P i t.
Proof.
  intros Hp ->. unfold DG_Problem_On_Graph, dst_trouble. induction (edge_lists t DG_DST_GRAPH) as [|x l IH]; [done|]. cbn [existsb].
  rewrite IH. f_equal. cbn [snd]. change (DG_DST_GRAPH =? DG_SRC_GRAPH) with false. change (DG_DST_GRAPH =? DG_DST_GRAPH) with true.
  cbn [andb orb]. f_equal. apply bool_decide_ext. by rewrite key_find_spec.
Qed.
End spec.

(** Splits on the comparisons of a goal, dropping the cases that cannot be. *)
Ltac decide_ints :=
  repeat (match goal with
          | |- context [?x <=? ?y] => destruct (Z.leb_spec x y)
          | |- context [?x <? ?y] => destruct (Z.ltb_spec x y)
          | |- context [?x + ?z =? ?y] => destruct (Z.eqb_spec (x + z) y)
          end; try (exfalso; lia)).

#[local] Arguments DG_Problem_On_Graph : simpl never.
#[local] Arguments src_trouble : simpl never.
#[local] Arguments dst_trouble : simpl never.
#[local] Arguments on_graph : simpl never.

(** ** The loops *)
Definition skip_zero (h : Z -> DG_Dest -> DG_Dest) (n : nat) (t : DG_Dest) : DG_Dest := if decide (n = 0%nat) then t else h (Z.of_nat n) t.

Lemma for_dests_from f h l : forall m,
  (forall n t, l !! n = Some t -> (m + n)%nat <> 0%nat -> f (Z.of_nat (m + n)) t = Ret (h (Z.of_nat (m + n)) t)) ->
  for_dests f (Z.of_nat m) l = Ret (imap (fun n => skip_zero h (m + n)) l).
Proof.
  induction l as [|t l IH]; intros m H; [done|]. cbn [for_dests]. specialize (IH (S m)).
  replace (Z.of_nat m + 1) with (Z.of_nat (S m)) by lia. rewrite IH.
  2: { intros n t' Ht' Hne. specialize (H (S n) t' Ht'). replace (m + S n)%nat with (S m + n)%nat in H by lia. by apply H. }
  cbn [imap]. unfold skip_zero at 2. rewrite Nat.add_0_r. destruct (Z.eqb_spec (Z.of_nat m) 0), (decide (m = 0%nat)); try lia.
  - cbn [mbind outcome_bind]. do 2 f_equal. apply imap_ext. intros n x _. cbn. f_equal. lia.
  - specialize (H 0%nat t eq_refl). rewrite Nat.add_0_r in H. rewrite H by done. cbn [mbind outcome_bind]. do 2 f_equal.
    apply imap_ext. intros n' x _. cbn. f_equal. lia.
Qed.

Lemma for_dests_map f h l :
  (forall n t, l !! n = Some t -> n <> 0%nat -> f (Z.of_nat n) t = Ret (h (Z.of_nat n) t)) ->
  for_dests f 0 l = Ret (imap (skip_zero h) l).
Proof. intros H. by apply (for_dests_from f h l 0). Qed.

(** What no update changes: the masks, the edges, and whether there are graphs. *)
Definition static_of (t : DG_Dest) : (Z -> option (list Z)) * (Z -> list (Edge_Key * Z)) * bool :=
  (bitmasks (dd_graph t), edge_lists t, gtype t =? DG_NONE_GRAPH).

(** The mask of a graph and its list of edges agree on a link. *)
Definition static_ok (size : nat) (k : Edge_Key) (index : Z) (t : DG_Dest) : Prop :=
  forall j, j = DG_SRC_GRAPH \/ j = DG_DST_GRAPH -> DG_Edge_In_Graph size index (bitmasks (dd_graph t) j) = Ret (on_graph k t j).

Lemma static_ok_of size k index t t' : static_of t = static_of t' -> static_ok size k index t -> static_ok size k index t'.
Proof. unfold static_of, static_ok, on_graph. intros [= <- <- _]. done. Qed.

(** ** One destination when a problem starts *)
Section dest.
Context (cfg : dg_conf).
Let My_ID := mp_My_ID (dg_mp cfg).

Definition to_both (k : Edge_Key) (i : Z) (t : DG_Dest) : DG_Dest :=
  if ((gtype t =? DG_SRC_GRAPH) && negb (k.1 =? My_ID) || (gtype t =? DG_DST_GRAPH) && negb (k.2 =? i)) && on_graph k t (gtype t)
  then set_gtype DG_SRC_DST_GRAPH t else t.

Lemma switch_both_pure k index i t : (gtype t <> DG_NONE_GRAPH -> static_ok (mp_size (dg_mp cfg)) k index t) ->
  switch_both cfg k index i t = Ret (to_both k i t).
Proof.
  intros Hs. unfold switch_both, to_both. destruct (Z.eqb_spec (gtype t) DG_NONE_GRAPH) as [->|Hn]; [done|]. specialize (Hs Hn).
  destruct (Z.eqb_spec (gtype t) DG_SRC_GRAPH) as [H|H].
  - rewrite !H. change (DG_SRC_GRAPH =? DG_DST_GRAPH) with false. cbn [andb]. rewrite orb_false_r. fold My_ID.
    destruct (negb (k.1 =? My_ID)); [|done]. rewrite (Hs DG_SRC_GRAPH) by auto. done.
  - cbn [andb orb]. destruct (Z.eqb_spec (gtype t) DG_DST_GRAPH) as [H'|H']; [|done].
    rewrite !H'. cbn [andb]. destruct (negb (k.2 =? i)); [|done]. rewrite (Hs DG_DST_GRAPH) by auto. done.
Qed.

Definition add_dest_problem (prob : list (Edge_Key * Z)) (k : Edge_Key) (t : DG_Dest) : DG_Dest :=
  if gtype t =? DG_NONE_GRAPH then t
  else
    let t := set_problem 1 k.1 (problem_count t + 1) t in
    if problem_count t =? DG_PROB_COUNT_THRESH then
      if gtype t =? DG_SRC_GRAPH then set_gtype DG_SRC_DST_GRAPH t
      else if gtype t =? DG_K2_GRAPH then
        if DG_Problem_On_Graph prob (edge_lists t DG_DST_GRAPH) k DG_DST_GRAPH
        then set_gtype DG_SRC_DST_GRAPH t else set_gtype DG_DST_GRAPH t
      else t
    else t.

Lemma new_dest_problem_pure prob k t : (gtype t <> DG_NONE_GRAPH -> problems t !! Z.to_nat k.1 = Some 0) ->
  new_dest_problem prob k t = Ret (add_dest_problem prob k t).
Proof.
  intros H. unfold new_dest_problem, add_dest_problem. destruct (Z.eqb_spec (gtype t) DG_NONE_GRAPH) as [|Hn]; [done|].
  unfold problem_at. rewrite (H Hn). done.
Qed.

Definition add_source_problem (prob : list (Edge_Key * Z)) (k : Edge_Key) (t : DG_Dest) : DG_Dest :=
  if gtype t =? DG_NONE_GRAPH then t
  else if gtype t =? DG_DST_GRAPH then set_gtype DG_SRC_DST_GRAPH t
  else if gtype t =? DG_K2_GRAPH then
    if DG_Problem_On_Graph prob (edge_lists t DG_SRC_GRAPH) k DG_SRC_GRAPH
    then set_gtype DG_SRC_DST_GRAPH t else set_gtype DG_SRC_GRAPH t
  else t.

(** All that happens to destination [i]. *)
Definition started (prob : list (Edge_Key * Z)) (P : gset Edge_Key) (k : Edge_Key) (i : Z) (t : DG_Dest) : DG_Dest :=
  let t := to_both k i t in
  let t := if i =? k.2 then add_dest_problem prob k t else t in
  if (k.1 =? My_ID) && (src_problems My_ID P + 1 =? DG_PROB_COUNT_THRESH) then add_source_problem prob k t else t.

Lemma graph_for_cases P i t : graph_for My_ID P i t ∈ [DG_K2_GRAPH; DG_SRC_GRAPH; DG_DST_GRAPH; DG_SRC_DST_GRAPH].
Proof. unfold graph_for. repeat case_match; set_solver. Qed.

Lemma graph_for_static P i t t' : edge_lists t = edge_lists t' -> graph_for My_ID P i t = graph_for My_ID P i t'.
Proof. unfold graph_for, src_trouble, dst_trouble. by intros ->. Qed.

Lemma started_static prob P k i t : static_of (started prob P k i t) = static_of t.
Proof.
  destruct t as [[bm ty] el pc pb]. unfold started, to_both, add_source_problem, add_dest_problem, set_problem, set_gtype, static_of, gtype.
  cbn. destruct (Z.eqb_spec ty DG_NONE_GRAPH) as [->|Hn]; cbn; repeat (case_match; cbn in *; try done);
    repeat match goal with H : _ =? _ = true |- _ => apply Z.eqb_eq in H; subst end; try done; try (f_equal; by apply Z.eqb_neq).
Qed.

Lemma started_fields prob P k i t : gtype t <> DG_NONE_GRAPH ->
  problem_count (started prob P k i t) = problem_count t + (if k.2 =? i then 1 else 0) /\
  problems (started prob P k i t) = if k.2 =? i then <[Z.to_nat k.1 := 1]> (problems t) else problems t.
Proof.
  destruct t as [[bm ty] el pc pb]. unfold started, to_both, add_source_problem, add_dest_problem, set_problem, set_gtype, gtype. cbn.
  rewrite (Z.eqb_sym i). intros Hn. assert (Hn' : ty =? DG_NONE_GRAPH = false) by by apply Z.eqb_neq.
  destruct (k.2 =? i); repeat (case_match; cbn in *; try congruence; try (split; [lia|done])).
Qed.

Lemma marks_add P k i l : 0 <= k.1 -> (Z.to_nat k.1 < length l)%nat ->
  (forall n, 0 <= n <= MAX_NODES -> l !! Z.to_nat n = Some (mark (bool_decide ((n, i) ∈ P)))) ->
  forall n, 0 <= n <= MAX_NODES ->
    (if k.2 =? i then <[Z.to_nat k.1 := 1]> l else l) !! Z.to_nat n = Some (mark (bool_decide ((n, i) ∈ ({[k]} ∪ P : gset Edge_Key)))).
Proof.
  intros H0 Hlen Hl n Hn. destruct k as [a b]. cbn [fst snd] in *. destruct (Z.eqb_spec b i) as [->|Hne].
  - destruct (decide (n = a)) as [->|Hna].
    + rewrite list_lookup_insert_eq by done. rewrite bool_decide_eq_true_2; [done|set_solver].
    + rewrite list_lookup_insert_ne by lia. rewrite Hl by done. do 2 f_equal. apply bool_decide_ext. set_solver.
  - rewrite Hl by done. do 2 f_equal. apply bool_decide_ext. set_solver.
Qed.

(** The graph types alone: [TS] and [TD] are the troubles there were, [oS] and
    [oD] say that the link is on the graph. *)
Definition both_type (b1 b2 oS oD : bool) (ty : Z) : Z :=
  if (ty =? DG_SRC_GRAPH) && negb b1 && oS || (ty =? DG_DST_GRAPH) && negb b2 && oD then DG_SRC_DST_GRAPH else ty.
Definition new_dest_type (n ty : Z) (TD : bool) : Z :=
  if ty =? DG_NONE_GRAPH then ty
  else if n =? 2 then
    if ty =? DG_SRC_GRAPH then DG_SRC_DST_GRAPH
    else if ty =? DG_K2_GRAPH then if TD then DG_SRC_DST_GRAPH else DG_DST_GRAPH else ty
  else ty.
Definition new_source_type (ty : Z) (TS : bool) : Z :=
  if ty =? DG_NONE_GRAPH then ty
  else if ty =? DG_DST_GRAPH then DG_SRC_DST_GRAPH
  else if ty =? DG_K2_GRAPH then if TS then DG_SRC_DST_GRAPH else DG_SRC_GRAPH
  else ty.

Lemma started_types prob P k i t : k ∉ P -> (forall k', k' ∈ prob.*1 <-> k' ∈ ({[k]} ∪ P : gset Edge_Key)) ->
  let b1 := k.1 =? My_ID in let b2 := k.2 =? i in
  let TS := src_trouble My_ID P t in let TD := dst_trouble P i t in
  let ty1 := both_type b1 b2 (on_graph k t DG_SRC_GRAPH) (on_graph k t DG_DST_GRAPH) (gtype t) in
  let ty2 := if b2 then new_dest_type (problem_count t + 1) ty1 TD else ty1 in
  gtype (started prob P k i t) = if b1 && (src_problems My_ID P + 1 =? 2) then new_source_type ty2 TS else ty2.
Proof.
  intros Hk Hp. cbv zeta. set (t1 := to_both k i t). set (t2 := if i =? k.2 then add_dest_problem prob k t1 else t1).
  assert (He1 : edge_lists t1 = edge_lists t /\ problem_count t1 = problem_count t).
  { unfold t1, to_both, set_gtype. case_match; done. }
  assert (He2 : edge_lists t2 = edge_lists t).
  { unfold t2, add_dest_problem, set_problem, set_gtype. repeat case_match; cbn; tauto. }
  assert (H1 : gtype t1 = both_type (k.1 =? My_ID) (k.2 =? i) (on_graph k t DG_SRC_GRAPH) (on_graph k t DG_DST_GRAPH) (gtype t)).
  { unfold t1, to_both, both_type, set_gtype. destruct (Z.eqb_spec (gtype t) DG_SRC_GRAPH) as [He|He]; [rewrite !He|destruct (Z.eqb_spec (gtype t) DG_DST_GRAPH) as [He'|He']; [rewrite !He'|done]];
    destruct (k.1 =? My_ID), (k.2 =? i), (on_graph k t DG_SRC_GRAPH), (on_graph k t DG_DST_GRAPH); cbn; done. }
  assert (H2 : gtype t2 = if k.2 =? i then new_dest_type (problem_count t + 1) (gtype t1) (dst_trouble P i t) else gtype t1).
  { unfold t2. rewrite (Z.eqb_sym i). destruct (Z.eqb_spec k.2 i) as [Hi|]; [|done].
    assert (Hd : DG_Problem_On_Graph prob (edge_lists t1 DG_DST_GRAPH) k DG_DST_GRAPH = dst_trouble P i t).
    { destruct k as [a b]. cbn in Hi. subst b. rewrite (problem_on_graph_dst prob _ _ a i t Hp) by (by rewrite (proj1 He1)).
      rewrite dst_trouble_add. cbn. rewrite Z.eqb_refl. cbn. by rewrite orb_false_r. }
    unfold add_dest_problem, new_dest_type, set_problem, set_gtype, DG_PROB_COUNT_THRESH, gtype. cbn. rewrite Hd, (proj2 He1).
    destruct (dst_trouble P i t); repeat case_match; cbn in *; first [reflexivity|congruence]. }
  rewrite <- H1, <- H2. unfold started. fold t1 t2. unfold DG_PROB_COUNT_THRESH. destruct (Z.eqb_spec k.1 My_ID) as [Hs|]; [|done]. cbn [andb].
  assert (Hd : DG_Problem_On_Graph prob (edge_lists t2 DG_SRC_GRAPH) k DG_SRC_GRAPH = src_trouble My_ID P t).
  { destruct k as [a b]. cbn in Hs. rewrite Hs in *. rewrite (problem_on_graph_src My_ID prob _ _ b t Hp) by (by rewrite He2).
    rewrite src_trouble_add. cbn. rewrite Z.eqb_refl. cbn. by rewrite orb_false_r. }
  unfold add_source_problem, new_source_type, set_gtype. rewrite Hd. destruct (src_trouble My_ID P t); repeat case_match; cbn in *; first [reflexivity|congruence].
Qed.

Lemma started_graph prob P k i t :
  dest_ok My_ID P i t -> k ∉ P -> (forall k', k' ∈ prob.*1 <-> k' ∈ ({[k]} ∪ P : gset Edge_Key)) ->
  gtype (started prob P k i t) = graph_for My_ID ({[k]} ∪ P) i t.
Proof.
  intros [Hc _ Hg] Hk Hp. rewrite (started_types prob P k i t Hk Hp). rewrite Hg, Hc. unfold graph_for.
  rewrite src_add, dst_add, src_trouble_add, dst_trouble_add by done. clear Hg Hc.
  generalize (src_trouble My_ID P t) as TS, (dst_trouble P i t) as TD, (on_graph k t DG_SRC_GRAPH) as oS, (on_graph k t DG_DST_GRAPH) as oD.
  generalize (src_problems My_ID P) as c, (dst_problems P i) as n, (k.1 =? My_ID) as b1, (k.2 =? i) as b2. clear.
  intros c n b1 b2 TS TD oS oD. unfold both_type, new_dest_type, new_source_type.
  destruct (Z.leb_spec 2 c) as [Hc2|Hc2], (Z.leb_spec 2 n) as [Hn2|Hn2], b1, b2; decide_ints;
  destruct TS, TD, oS, oD; reflexivity.
Qed.

Lemma started_ok prob P k i t :
  dest_inv My_ID P i t -> k ∉ P -> 0 <= k.1 <= MAX_NODES -> (forall k', k' ∈ prob.*1 <-> k' ∈ ({[k]} ∪ P : gset Edge_Key)) ->
  dest_inv My_ID ({[k]} ∪ P) i (started prob P k i t).
Proof.
  intros Hi Hk Hr Hp. pose proof (started_static prob P k i t) as Hst. destruct Hi as [Hn|Hok].
  { left. injection Hst as _ _ Hst. rewrite Hn in Hst. by apply Z.eqb_eq. }
  right. pose proof Hok as [Hc Hm Hg]. assert (Hn : gtype t <> DG_NONE_GRAPH).
  { rewrite Hg. pose proof (graph_for_cases P i t) as H. intros H'. rewrite H' in H. vm_compute in H. set_solver. }
  destruct (started_fields prob P k i t Hn) as [Hc' Hm']. injection Hst as Hbm Hel Hty. split.
  - rewrite Hc', dst_add by done. destruct (k.2 =? i); lia.
  - rewrite Hm'. apply marks_add; [lia| |done]. specialize (Hm k.1 Hr). by apply lookup_lt_Some in Hm.
  - rewrite (started_graph prob P k i t Hok Hk Hp). by apply graph_for_static.
Qed.

(** ** One destination when a problem is resolved *)
Definition del_dest_problem (src_count : Z) (prob : list (Edge_Key * Z)) (k : Edge_Key) (t : DG_Dest) : DG_Dest :=
  if gtype t =? DG_NONE_GRAPH then t
  else
    set_problem 0 k.1 (problem_count t - 1)
      (if problem_count t =? DG_PROB_COUNT_THRESH then
         if gtype t =? DG_DST_GRAPH then set_gtype DG_K2_GRAPH t
         else if gtype t =? DG_SRC_DST_GRAPH then
           if src_count <? DG_PROB_COUNT_THRESH then set_gtype DG_K2_GRAPH t
           else if negb (DG_Problem_On_Graph prob (edge_lists t DG_SRC_GRAPH) (My_ID, k.2) DG_SRC_GRAPH)
           then set_gtype DG_SRC_GRAPH t else t
         else t
       else t).

Lemma dest_resolved_pure src_count prob k t : (gtype t <> DG_NONE_GRAPH -> problems t !! Z.to_nat k.1 = Some 1) ->
  dest_resolved cfg src_count prob k t = Ret (del_dest_problem src_count prob k t).
Proof.
  intros H. unfold dest_resolved, del_dest_problem. destruct (Z.eqb_spec (gtype t) DG_NONE_GRAPH) as [|Hn]; [done|].
  unfold problem_at. rewrite (H Hn). done.
Qed.

Definition del_source_problem (prob : list (Edge_Key * Z)) (i : Z) (t : DG_Dest) : DG_Dest :=
  if gtype t =? DG_NONE_GRAPH then t
  else if gtype t =? DG_SRC_GRAPH then set_gtype DG_K2_GRAPH t
  else if gtype t =? DG_SRC_DST_GRAPH then
    if problem_count t <? DG_PROB_COUNT_THRESH then set_gtype DG_K2_GRAPH t
    else if negb (DG_Problem_On_Graph prob (edge_lists t DG_DST_GRAPH) (My_ID, i) DG_DST_GRAPH)
    then set_gtype DG_DST_GRAPH t else t
  else t.

Definition del_middle (src_count : Z) (prob : list (Edge_Key * Z)) (i : Z) (t : DG_Dest) : DG_Dest :=
  if gtype t =? DG_SRC_DST_GRAPH then
    if src_count <? DG_PROB_COUNT_THRESH then
      if negb (DG_Problem_On_Graph prob (edge_lists t DG_DST_GRAPH) (My_ID, i) DG_DST_GRAPH) then set_gtype DG_DST_GRAPH t else t
    else if problem_count t <? DG_PROB_COUNT_THRESH then
      if negb (DG_Problem_On_Graph prob (edge_lists t DG_SRC_GRAPH) (My_ID, i) DG_SRC_GRAPH) then set_gtype DG_SRC_GRAPH t else t
    else t
  else t.

Lemma middle_resolved_pure src_count prob i t :
  (gtype t = DG_SRC_DST_GRAPH -> DG_PROB_COUNT_THRESH <= src_count \/ DG_PROB_COUNT_THRESH <= problem_count t) ->
  middle_resolved cfg src_count prob i t = Ret (del_middle src_count prob i t).
Proof.
  intros H. unfold middle_resolved, del_middle. destruct (Z.eqb_spec (gtype t) DG_SRC_DST_GRAPH) as [He|]; [|done]. specialize (H He).
  destruct (Z.ltb_spec src_count DG_PROB_COUNT_THRESH), (Z.ltb_spec (problem_count t) DG_PROB_COUNT_THRESH); cbn; try done. lia.
Qed.

(** Before the last loop, and at the end; [P] is what remains. *)
Definition resolving (prob : list (Edge_Key * Z)) (P : gset Edge_Key) (k : Edge_Key) (i : Z) (t : DG_Dest) : DG_Dest :=
  let src_count := src_problems My_ID ({[k]} ∪ P) in
  let t := if i =? k.2 then del_dest_problem src_count prob k t else t in
  if (k.1 =? My_ID) && (src_count =? DG_PROB_COUNT_THRESH) then del_source_problem prob i t else t.
Definition resolved (prob : list (Edge_Key * Z)) (P : gset Edge_Key) (k : Edge_Key) (i : Z) (t : DG_Dest) : DG_Dest :=
  del_middle (src_problems My_ID P) prob i (resolving prob P k i t).

Lemma resolved_static prob P k i t :
  static_of (resolving prob P k i t) = static_of t /\ static_of (resolved prob P k i t) = static_of t.
Proof.
  destruct t as [[bm ty] el pc pb].
  unfold resolved, resolving, del_middle, del_source_problem, del_dest_problem, set_problem, set_gtype, static_of, gtype. cbn.
  destruct (Z.eqb_spec ty DG_NONE_GRAPH) as [->|Hn]; cbn; repeat (case_match; cbn in *; try done);
    repeat match goal with H : _ =? _ = true |- _ => apply Z.eqb_eq in H; subst end; try done; split; try done; f_equal; by apply Z.eqb_neq.
Qed.

Lemma resolved_fields prob P k i t : gtype t <> DG_NONE_GRAPH ->
  problem_count (resolving prob P k i t) = problem_count t - (if k.2 =? i then 1 else 0) /\
  problem_count (resolved prob P k i t) = problem_count t - (if k.2 =? i then 1 else 0) /\
  problems (resolved prob P k i t) = if k.2 =? i then <[Z.to_nat k.1 := 0]> (problems t) else problems t.
Proof.
  assert (Hm : forall c t, problem_count (del_middle c prob i t) = problem_count t /\ problems (del_middle c prob i t) = problems t).
  { intros c t'. unfold del_middle, set_gtype. repeat case_match; done. }
  assert (Hs : forall t, problem_count (del_source_problem prob i t) = problem_count t /\ problems (del_source_problem prob i t) = problems t).
  { intros t'. unfold del_source_problem, set_gtype. repeat case_match; done. }
  intros Hn. unfold resolved. rewrite !(proj1 (Hm _ _)), !(proj2 (Hm _ _)). unfold resolving. rewrite (Z.eqb_sym i).
  apply Z.eqb_neq in Hn.
  destruct (k.2 =? i), ((k.1 =? My_ID) && _); rewrite ?(proj1 (Hs _)), ?(proj2 (Hs _)); unfold del_dest_problem; rewrite ?Hn;
    unfold set_problem, set_gtype; repeat case_match; cbn; split_and!; try done; lia.
Qed.

Lemma marks_remove P k i l : 0 <= k.1 -> (Z.to_nat k.1 < length l)%nat -> k ∉ P ->
  (forall n, 0 <= n <= MAX_NODES -> l !! Z.to_nat n = Some (mark (bool_decide ((n, i) ∈ ({[k]} ∪ P : gset Edge_Key))))) ->
  forall n, 0 <= n <= MAX_NODES ->
    (if k.2 =? i then <[Z.to_nat k.1 := 0]> l else l) !! Z.to_nat n = Some (mark (bool_decide ((n, i) ∈ P))).
Proof.
  intros H0 Hlen Hk Hl n Hn. destruct k as [a b]. cbn [fst snd] in *. destruct (Z.eqb_spec b i) as [->|Hne].
  - destruct (decide (n = a)) as [->|Hna].
    + rewrite list_lookup_insert_eq by done. by rewrite bool_decide_eq_false_2.
    + rewrite list_lookup_insert_ne by lia. rewrite Hl by done. do 2 f_equal. apply bool_decide_ext. set_solver.
  - rewrite Hl by done. do 2 f_equal. apply bool_decide_ext. set_solver.
Qed.

(** The graph types alone: [TS] and [TD] are the troubles that remain. *)
Definition dest_type (src_count count ty : Z) (TS : bool) : Z :=
  if ty =? DG_NONE_GRAPH then ty
  else if count =? 2 then
    if ty =? DG_DST_GRAPH then DG_K2_GRAPH
    else if ty =? DG_SRC_DST_GRAPH then
      if src_count <? 2 then DG_K2_GRAPH else if TS then ty else DG_SRC_GRAPH
    else ty
  else ty.
Definition source_type (count ty : Z) (TD : bool) : Z :=
  if ty =? DG_NONE_GRAPH then ty
  else if ty =? DG_SRC_GRAPH then DG_K2_GRAPH
  else if ty =? DG_SRC_DST_GRAPH then if count <? 2 then DG_K2_GRAPH else if TD then ty else DG_DST_GRAPH
  else ty.
Definition middle_type (src_count count ty : Z) (TS TD : bool) : Z :=
  if ty =? DG_SRC_DST_GRAPH then
    if src_count <? 2 then if TD then ty else DG_DST_GRAPH
    else if count <? 2 then if TS then ty else DG_SRC_GRAPH else ty
  else ty.

Lemma resolved_types prob P k i t : gtype t <> DG_NONE_GRAPH -> (forall k', k' ∈ prob.*1 <-> k' ∈ P) ->
  let c := src_problems My_ID ({[k]} ∪ P) in
  let TS := src_trouble My_ID P t in let TD := dst_trouble P i t in
  let n := problem_count t - (if k.2 =? i then 1 else 0) in
  let ty1 := if k.2 =? i then dest_type c (problem_count t) (gtype t) TS else gtype t in
  let ty2 := if (k.1 =? My_ID) && (c =? 2) then source_type n ty1 TD else ty1 in
  gtype (resolving prob P k i t) = ty2 /\ gtype (resolved prob P k i t) = middle_type (src_problems My_ID P) n ty2 TS TD.
Proof.
  intros Hn Hp. destruct (resolved_fields prob P k i t Hn) as (Hcount & _). cbv zeta.
  set (c := src_problems My_ID ({[k]} ∪ P)). set (n := problem_count t - _).
  set (t1 := if i =? k.2 then del_dest_problem c prob k t else t).
  assert (Hel : edge_lists t1 = edge_lists t).
  { unfold t1, del_dest_problem, set_problem, set_gtype. repeat case_match; done. }
  assert (Hn1 : problem_count t1 = n).
  { unfold t1, n, del_dest_problem, set_problem. rewrite (Z.eqb_sym i), (proj2 (Z.eqb_neq _ _) Hn). case_match; cbn; lia. }
  assert (H1 : gtype t1 = if k.2 =? i then dest_type c (problem_count t) (gtype t) (src_trouble My_ID P t) else gtype t).
  { unfold t1. rewrite (Z.eqb_sym i). case_match; [|done]. unfold del_dest_problem, dest_type, set_problem, set_gtype, DG_PROB_COUNT_THRESH.
    rewrite (problem_on_graph_src My_ID prob P _ k.2 t Hp) by done. destruct (src_trouble My_ID P t); repeat case_match; cbn in *; first [reflexivity|congruence]. }
  assert (H2 : gtype (resolving prob P k i t) = if (k.1 =? My_ID) && (c =? 2) then source_type n (gtype t1) (dst_trouble P i t) else gtype t1).
  { change (resolving prob P k i t) with (if (k.1 =? My_ID) && (c =? 2) then del_source_problem prob i t1 else t1).
    destruct ((k.1 =? My_ID) && (c =? 2)); [|done]. unfold del_source_problem, source_type, set_gtype, DG_PROB_COUNT_THRESH.
    rewrite (problem_on_graph_dst prob P _ My_ID i t Hp) by congruence. rewrite Hn1. destruct (dst_trouble P i t); repeat case_match; cbn in *; first [reflexivity|congruence]. }
  rewrite <- H1, <- H2. split; [done|].
  assert (Hel2 : edge_lists (resolving prob P k i t) = edge_lists t).
  { pose proof (proj1 (resolved_static prob P k i t)) as Hs. by injection Hs. }
  unfold resolved, del_middle, middle_type, set_gtype, DG_PROB_COUNT_THRESH. rewrite Hcount, Hel2. fold n.
  rewrite (problem_on_graph_dst prob P _ My_ID i t Hp), (problem_on_graph_src My_ID prob P _ i t Hp) by done.
  destruct (src_trouble My_ID P t), (dst_trouble P i t); repeat case_match; cbn in *; first [reflexivity|congruence].
Qed.

Lemma resolved_graph prob P k i t :
  dest_ok My_ID ({[k]} ∪ P) i t -> k ∉ P -> (forall k', k' ∈ prob.*1 <-> k' ∈ P) ->
  gtype (resolved prob P k i t) = graph_for My_ID P i t /\
  (gtype (resolving prob P k i t) = DG_SRC_DST_GRAPH ->
     DG_PROB_COUNT_THRESH <= src_problems My_ID P \/ DG_PROB_COUNT_THRESH <= problem_count (resolving prob P k i t)).
Proof.
  intros [Hc _ Hg] Hk Hp. assert (Hn : gtype t <> DG_NONE_GRAPH).
  { rewrite Hg. pose proof (graph_for_cases ({[k]} ∪ P) i t) as H. intros H'. rewrite H' in H. vm_compute in H. set_solver. }
  destruct (resolved_types prob P k i t Hn Hp) as [H1 H2]. rewrite H1, H2, (proj1 (resolved_fields prob P k i t Hn)). clear H1 H2 Hn.
  unfold graph_for in *. rewrite src_add, dst_add, src_trouble_add, dst_trouble_add in Hg by done. rewrite dst_add in Hc by done. rewrite src_add by done.
  rewrite Hg, Hc. clear Hg Hc. generalize (src_trouble My_ID P t) as TS, (dst_trouble P i t) as TD, (on_graph k t DG_SRC_GRAPH) as oS, (on_graph k t DG_DST_GRAPH) as oD.
  unfold dest_type, source_type, middle_type, DG_PROB_COUNT_THRESH. assert (0 <= src_problems My_ID P) by (unfold src_problems; lia).
  assert (0 <= dst_problems P i) by (unfold dst_problems; lia). revert H H0.
  generalize (src_problems My_ID P) as c, (dst_problems P i) as n, (k.1 =? My_ID) as b1, (k.2 =? i) as b2. clear.
  intros c n b1 b2 Hc Hn TS TD oS oD.
  destruct (Z.leb_spec 2 c) as [Hc2|Hc2], (Z.leb_spec 2 n) as [Hn2|Hn2], b1, b2; decide_ints;
  destruct TS, TD, oS, oD; cbn; decide_ints; split; first [reflexivity|intros; lia|done].
Qed.

Lemma resolved_ok prob P k i t :
  dest_inv My_ID ({[k]} ∪ P) i t -> k ∉ P -> 0 <= k.1 <= MAX_NODES -> (forall k', k' ∈ prob.*1 <-> k' ∈ P) ->
  dest_inv My_ID P i (resolved prob P k i t).
Proof.
  intros Hi Hk Hr Hp. pose proof (proj2 (resolved_static prob P k i t)) as Hst. destruct Hi as [Hn|Hok].
  { left. injection Hst as _ _ Hst. rewrite Hn in Hst. by apply Z.eqb_eq. }
  right. pose proof Hok as [Hc Hm Hg]. assert (Hn : gtype t <> DG_NONE_GRAPH).
  { rewrite Hg. pose proof (graph_for_cases ({[k]} ∪ P) i t) as H. intros H'. rewrite H' in H. vm_compute in H. set_solver. }
  destruct (resolved_fields prob P k i t Hn) as (_ & Hc' & Hm'). injection Hst as Hbm Hel Hty. split.
  - rewrite Hc', Hc, dst_add by done. destruct (k.2 =? i); lia.
  - rewrite Hm'. apply marks_remove; [lia| |done|done]. specialize (Hm k.1 Hr). by apply lookup_lt_Some in Hm.
  - rewrite (proj1 (resolved_graph prob P k i t Hok Hk Hp)). by apply graph_for_static.
Qed.
End dest.
