(* ===== verification/DissemUpdate.v ===== *)
(** * DissemUpdate: the updates keep the state of the problems

    [problem_started] and [problem_resolved] take the state of a set of problems
    ([dg_inv] of [DissemState]) to that of the set with the link, or without
    it. *)
From stdpp Require Import base list gmap numbers option sets.
From Stdlib Require Import ZArith Lia.
From S2P Require Import Prelude NetTypes SklList MultiPath Dissem DissemState.
#[local] Open Scope Z_scope.

(** ** Whole updates *)
Section update.
Context (cfg : dg_conf).
Let My_ID := mp_My_ID (dg_mp cfg).
Let size := mp_size (dg_mp cfg).

Definition in_range (k : Edge_Key) : Prop := 1 <= k.1 <= MAX_NODES /\ 1 <= k.2 <= MAX_NODES.
Definition statics (s : dg_state) := static_of <$> DG_Destinations s.
(** Masks and lists of edges agree on the link, for every destination. *)
Definition link_ok (k : Edge_Key) (index : Z) (s : dg_state) : Prop :=
  forall t, t ∈ DG_Destinations s -> gtype t <> DG_NONE_GRAPH -> static_ok size k index t.

Lemma link_ok_statics k index s s' : statics s = statics s' -> link_ok k index s -> link_ok k index s'.
Proof.
  intros Hst Hl t Ht Hn. assert (Hin : static_of t ∈ statics s) by (rewrite Hst; by apply list_elem_of_fmap_2).
  apply list_elem_of_fmap in Hin as (t' & Heq & Ht'). apply (static_ok_of _ _ _ t'); [done|]. apply Hl; [done|].
  unfold static_of in Heq. injection Heq as _ _ Hb. intros H. rewrite H in Hb. by apply Z.eqb_neq in Hn; rewrite Hn in Hb.
Qed.

Lemma skip_zero_lookup h l n t' : imap (skip_zero h) l !! n = Some t' ->
  exists t, l !! n = Some t /\ t' = if decide (n = 0%nat) then t else h (Z.of_nat n) t.
Proof. rewrite list_lookup_imap. intros (t & Hl & ->)%fmap_Some. by exists t. Qed.

Lemma statics_skip_zero h l : (forall i t, static_of (h i t) = static_of t) -> static_of <$> imap (skip_zero h) l = static_of <$> l.
Proof.
  intros H. apply list_eq. intros n. rewrite !list_lookup_fmap, list_lookup_imap. destruct (l !! n); [|done]. cbn. unfold skip_zero.
  case_decide; [done|]. by rewrite H.
Qed.

(** The three passes of a problem that starts are one pass. *)
Lemma started_passes prob P k l t1 : 1 <= k.2 -> imap (skip_zero (to_both cfg k)) l !! Z.to_nat k.2 = Some t1 ->
  let l2 := <[Z.to_nat k.2 := add_dest_problem prob k t1]> (imap (skip_zero (to_both cfg k)) l) in
  (if (k.1 =? My_ID) && (src_problems My_ID P + 1 =? DG_PROB_COUNT_THRESH)
   then imap (skip_zero (fun _ => add_source_problem prob k)) l2 else l2) = imap (skip_zero (started cfg prob P k)) l.
Proof.
  intros Hk Ht1 l2. assert (Hl2 : l2 = imap (skip_zero (fun i t => if i =? k.2 then add_dest_problem prob k (to_both cfg k i t) else to_both cfg k i t)) l).
  { apply list_eq. intros n. unfold l2. destruct (decide (n = Z.to_nat k.2)) as [->|Hn].
    - rewrite list_lookup_insert_eq by (by apply lookup_lt_Some in Ht1). apply skip_zero_lookup in Ht1 as (t & Ht & ->).
      rewrite list_lookup_imap, Ht. cbn. unfold skip_zero. destruct (decide _); [lia|]. rewrite Z2Nat.id by lia. by rewrite Z.eqb_refl.
    - rewrite list_lookup_insert_ne by done. rewrite !list_lookup_imap. destruct (l !! n); [|done]. cbn. unfold skip_zero.
      destruct (decide _); [done|]. destruct (Z.eqb_spec (Z.of_nat n) k.2); [lia|done]. }
  rewrite Hl2. unfold started. fold My_ID. destruct (_ && _); [|done].
  apply list_eq. intros n. rewrite !list_lookup_imap. destruct (l !! n); [|done]. cbn. unfold skip_zero. by destruct (decide _).
Qed.

Lemma new_source_problem_pure k s P : in_range k -> k ∉ P -> k.1 = My_ID ->
  s_problem_count (DG_Source s) = src_problems My_ID P ->
  s_problems (DG_Source s) !! Z.to_nat k.2 = Some 0 ->
  new_source_problem cfg k s = Ret (mk_dgs
    (if src_problems My_ID P + 1 =? DG_PROB_COUNT_THRESH
     then imap (skip_zero (fun _ => add_source_problem (DG_Problem_List s) k)) (DG_Destinations s) else DG_Destinations s)
    (mk_ds (src_problems My_ID P + 1) (<[Z.to_nat k.2 := 1]> (s_problems (DG_Source s)))) (DG_Problem_List s)).
Proof.
  intros Hr Hk H1 Hc Hm. unfold new_source_problem. fold My_ID. rewrite (proj2 (Z.eqb_eq _ _) H1). cbn [negb]. unfold problem_at. rewrite Hm.
  cbn [or_else mbind outcome_bind]. cbn. rewrite Hc. destruct (src_problems My_ID P + 1 =? DG_PROB_COUNT_THRESH); [|done].
  erewrite for_dests_map; [reflexivity|]. intros n t _ _. done.
Qed.

Lemma dg_none_dec P i t : dest_inv My_ID P i t -> gtype t <> DG_NONE_GRAPH -> dest_ok My_ID P i t.
Proof. by intros [|]. Qed.

Lemma problem_started_ok P k index s : dg_inv My_ID P s -> in_range k -> link_ok k index s ->
  exists s', problem_started cfg k index s = Ret s' /\ dg_inv My_ID ({[k]} ∪ P) s' /\ statics s' = statics s.
Proof.
  intros [Hnd Hl Hrg Hsc Hsm Hlen Hz Hd] [Hr1 Hr2] Hlk. unfold problem_started. destruct (key_find k (DG_Problem_List s)) as [x|] eqn:Hf.
  { assert (k ∈ P) by (apply Hl, key_find_spec; by eexists). exists s. split; [done|]. replace ({[k]} ∪ P) with P by set_solver. done. }
  assert (Hk : k ∉ P) by (rewrite <- Hl, <- key_find_spec, Hf; by intros [? ?]).
  set (prob := key_insert k index (DG_Problem_List s)).
  assert (Hp : forall k', k' ∈ prob.*1 <-> k' ∈ ({[k]} ∪ P : gset Edge_Key)).
  { intros k'. unfold prob. rewrite key_insert_elem, Hl. set_solver. }
  rewrite (for_dests_map _ (to_both cfg k)).
  2: { intros n t Ht _. apply switch_both_pure. intros Hn. apply Hlk; [by eapply list_elem_of_lookup_2|done]. }
  cbn [mbind outcome_bind]. destruct (lookup_lt_is_Some_2 (imap (skip_zero (to_both cfg k)) (DG_Destinations s)) (Z.to_nat k.2)) as [t1 Ht1].
  { rewrite length_imap, Hlen. lia. }
  unfold at_dest. rewrite Ht1. cbn [or_else mbind outcome_bind]. rewrite new_dest_problem_pure.
  2: { intros Hn. apply skip_zero_lookup in Ht1 as (t & Ht & ->). destruct (decide _); [lia|].
       rewrite Z2Nat.id in * by lia. specialize (Hd k.2 t Ht ltac:(lia)).
       assert (Hn' : gtype t <> DG_NONE_GRAPH) by (intros H; apply Hn; unfold to_both; by rewrite H).
       apply dg_none_dec in Hd as [_ Hm _]; [|done]. replace (problems (to_both cfg k k.2 t)) with (problems t) by (unfold to_both; by case_match).
       rewrite Hm by lia. rewrite bool_decide_eq_false_2; [done|]. by destruct k. }
  cbn [mbind outcome_bind].
  pose proof (started_passes prob P k (DG_Destinations s) t1 ltac:(lia) Ht1) as Hpass. cbv zeta in Hpass.
  assert (Hdests : forall i t', imap (skip_zero (started cfg prob P k)) (DG_Destinations s) !! Z.to_nat i = Some t' -> 0 <= i -> dest_inv My_ID ({[k]} ∪ P) i t').
  { intros i t' Ht' Hi. apply skip_zero_lookup in Ht' as (t & Ht & ->). case_decide as H0.
    - left. apply Hz. rewrite <- H0. done.
    - rewrite Z2Nat.id by lia. apply started_ok; [by apply Hd|done|lia|done]. }
  assert (Hz' : forall t', imap (skip_zero (started cfg prob P k)) (DG_Destinations s) !! 0%nat = Some t' -> gtype t' = DG_NONE_GRAPH).
  { intros t' (t & Ht & ->)%skip_zero_lookup. cbn. by apply Hz. }
  assert (Hnd' : NoDup prob.*1) by (apply key_insert_nodup; [by rewrite Hl|done]).
  assert (Hrg' : forall k', k' ∈ ({[k]} ∪ P : gset Edge_Key) -> in_range k').
  { intros k' [->%elem_of_singleton|H]%elem_of_union; [done|by apply Hrg]. }
  destruct (Z.eqb_spec k.1 My_ID) as [H1|H1].
  - assert (Hm0 : s_problems (DG_Source s) !! Z.to_nat k.2 = Some 0).
    { rewrite Hsm by lia. rewrite bool_decide_eq_false_2; [done|]. destruct k; cbn in *; by subst. }
    rewrite (new_source_problem_pure k _ P) by done.
    cbn [DG_Destinations DG_Source DG_Problem_List]. cbn [andb] in Hpass. rewrite Hpass. eexists. split; [done|].
    split; [|unfold statics; cbn; apply statics_skip_zero; intros; apply started_static].
    split; cbn; try done.
    + rewrite src_add by done. rewrite (proj2 (Z.eqb_eq _ _) H1). lia.
    + intros n Hn. destruct k as [a b]. cbn in *. subst a. destruct (decide (n = b)) as [->|Hne].
      * specialize (Hsm b Hn). rewrite list_lookup_insert_eq by (by apply lookup_lt_Some in Hsm). rewrite bool_decide_eq_true_2; [done|set_solver].
      * rewrite list_lookup_insert_ne by lia. rewrite Hsm by done. do 2 f_equal. apply bool_decide_ext. set_solver.
    + by rewrite length_imap.
  - unfold new_source_problem. fold My_ID. rewrite (proj2 (Z.eqb_neq _ _) H1). cbn [negb]. cbn [andb] in Hpass. rewrite Hpass.
    eexists. split; [done|]. split; [|unfold statics; cbn; apply statics_skip_zero; intros; apply started_static].
    split; cbn; try done.
    + rewrite src_add by done. rewrite (proj2 (Z.eqb_neq _ _) H1). lia.
    + intros n Hn. rewrite Hsm by done. do 2 f_equal. apply bool_decide_ext. destruct k; cbn in *. set_solver.
    + by rewrite length_imap.
Qed.

(** The passes before the last one, when a problem is resolved. *)
Lemma resolving_passes prob P k l t : 1 <= k.2 -> l !! Z.to_nat k.2 = Some t -> (forall t0, l !! 0%nat = Some t0 -> gtype t0 = DG_NONE_GRAPH) ->
  let c := src_problems My_ID ({[k]} ∪ P) in
  let l1 := <[Z.to_nat k.2 := del_dest_problem cfg c prob k t]> l in
  (if (k.1 =? My_ID) && (c =? DG_PROB_COUNT_THRESH)
   then imap (skip_zero (del_source_problem cfg prob)) l1 else l1) = imap (skip_zero (resolving cfg prob P k)) l.
Proof.
  intros Hk Ht Hz c l1. assert (Hl1 : l1 = imap (skip_zero (fun i t => if i =? k.2 then del_dest_problem cfg c prob k t else t)) l).
  { apply list_eq. intros n. unfold l1. destruct (decide (n = Z.to_nat k.2)) as [->|Hn].
    - rewrite list_lookup_insert_eq by (by apply lookup_lt_Some in Ht). rewrite list_lookup_imap, Ht. cbn. unfold skip_zero.
      destruct (decide _); [lia|]. rewrite Z2Nat.id by lia. by rewrite Z.eqb_refl.
    - rewrite list_lookup_insert_ne by done. rewrite !list_lookup_imap. destruct (l !! n); [|done]. cbn. unfold skip_zero.
      destruct (decide _); [done|]. destruct (Z.eqb_spec (Z.of_nat n) k.2); [lia|done]. }
  rewrite Hl1. unfold resolving. fold My_ID. fold c. destruct (_ && _); [|done].
  apply list_eq. intros n. rewrite !list_lookup_imap. destruct (l !! n); [|done]. cbn. unfold skip_zero. by destruct (decide _).
Qed.

Lemma resolve_source_pure k s P : k ∉ P ->
  s_problem_count (DG_Source s) = src_problems My_ID ({[k]} ∪ P) ->
  (k.1 = My_ID -> s_problems (DG_Source s) !! Z.to_nat k.2 = Some 1) ->
  resolve_source cfg k s = Ret (mk_dgs
    (if (k.1 =? My_ID) && (src_problems My_ID ({[k]} ∪ P) =? DG_PROB_COUNT_THRESH)
     then imap (skip_zero (del_source_problem cfg (DG_Problem_List s))) (DG_Destinations s) else DG_Destinations s)
    (mk_ds (src_problems My_ID P) (if k.1 =? My_ID then <[Z.to_nat k.2 := 0]> (s_problems (DG_Source s)) else s_problems (DG_Source s)))
    (DG_Problem_List s)).
Proof.
  intros Hk Hc Hm. unfold resolve_source. fold My_ID. destruct (Z.eqb_spec k.1 My_ID) as [H1|H1]; cbn [negb andb].
  - unfold problem_at. rewrite (Hm H1). cbn [or_else mbind outcome_bind]. cbn. rewrite Hc.
    replace (src_problems My_ID ({[k]} ∪ P) - 1) with (src_problems My_ID P)
      by (rewrite src_add by done; rewrite (proj2 (Z.eqb_eq _ _) H1); lia).
    destruct (_ =? DG_PROB_COUNT_THRESH); [|done]. erewrite for_dests_map; [reflexivity|]. intros n t _ _. done.
  - rewrite src_add in Hc by done. rewrite (proj2 (Z.eqb_neq _ _) H1), Z.add_0_l in Hc. rewrite <- Hc. by destruct s as [? [] ?].
Qed.

Lemma problem_resolved_ok P k s : dg_inv My_ID P s -> in_range k ->
  exists s', problem_resolved cfg k s = Ret s' /\ dg_inv My_ID (P ∖ {[k]}) s' /\ statics s' = statics s.
Proof.
  intros [Hnd Hl Hrg Hsc Hsm Hlen Hz Hd] [Hr1 Hr2]. unfold problem_resolved. destruct (key_find k (DG_Problem_List s)) as [x|] eqn:Hf.
  2: { assert (Hk : k ∉ P) by (rewrite <- Hl, <- key_find_spec, Hf; by intros [? ?]). exists s. split; [done|].
       replace (P ∖ {[k]}) with P by set_solver. done. }
  assert (Hk : k ∈ P) by (apply Hl, key_find_spec; by eexists).
  remember (P ∖ {[k]}) as P' eqn:HP'. assert (Hk' : k ∉ P') by set_solver.
  assert (HP : P = {[k]} ∪ P') by (apply set_eq; intros z; destruct (decide (z = k)); set_solver). clear HP'. subst P.
  set (prob := key_erase k (DG_Problem_List s)).
  assert (Hp : forall k', k' ∈ prob.*1 <-> k' ∈ P').
  { intros k'. unfold prob. rewrite key_erase_elem, Hl by done. set_solver. }
  destruct (lookup_lt_is_Some_2 (DG_Destinations s) (Z.to_nat k.2)) as [t Ht]; [rewrite Hlen; lia|].
  unfold at_dest. rewrite Ht. cbn [or_else mbind outcome_bind]. rewrite dest_resolved_pure.
  2: { intros Hn. specialize (Hd k.2 t Ht ltac:(lia)). apply dg_none_dec in Hd as [_ Hm _]; [|done].
       rewrite Hm by lia. rewrite bool_decide_eq_true_2; [done|]. destruct k; set_solver. }
  cbn [mbind outcome_bind]. rewrite (resolve_source_pure k _ P'); [|done|done|].
  2: { cbn. intros H1. rewrite Hsm by lia. rewrite bool_decide_eq_true_2; [done|]. destruct k; cbn in *; subst; set_solver. }
  cbn [mbind outcome_bind DG_Destinations DG_Source DG_Problem_List s_problem_count s_problems].
  pose proof (resolving_passes prob P' k (DG_Destinations s) t ltac:(lia) Ht Hz) as Hpass. cbv zeta in Hpass. rewrite Hsc, Hpass.
  rewrite (for_dests_map _ (del_middle cfg (src_problems My_ID P') prob)).
  2: { intros n t' Ht' Hn0. apply middle_resolved_pure. apply skip_zero_lookup in Ht' as (t0 & Ht0 & ->). case_decide; [done|].
       assert (Hd0 : dest_inv My_ID ({[k]} ∪ P') (Z.of_nat n) t0) by (apply Hd; [by rewrite Nat2Z.id|lia]).
       destruct Hd0 as [Hno|Hok]; [|apply (resolved_graph cfg prob P' k _ t0 Hok Hk' Hp)].
       intros Hb. exfalso. pose proof (proj1 (resolved_static cfg prob P' k (Z.of_nat n) t0)) as Hs. injection Hs as _ _ Hs.
       rewrite Hno, Hb in Hs. done. }
  cbn [mbind outcome_bind]. eexists. split; [done|].
  replace (imap (skip_zero (del_middle cfg (src_problems My_ID P') prob)) (imap (skip_zero (resolving cfg prob P' k)) (DG_Destinations s)))
    with (imap (skip_zero (resolved cfg prob P' k)) (DG_Destinations s)).
  2: { apply list_eq. intros n. rewrite !list_lookup_imap. destruct (DG_Destinations s !! n); [|done]. cbn. unfold skip_zero. by destruct (decide _). }
  split; [|unfold statics; cbn; apply statics_skip_zero; intros; apply resolved_static].
  split; cbn; try done.
  - by apply key_erase_nodup.
  - intros k' Hk''. apply Hrg. set_solver.
  - intros n Hn. destruct k as [a b]. cbn [fst snd] in *. destruct (Z.eqb_spec a My_ID) as [->|H1].
    + destruct (decide (n = b)) as [->|Hne].
      * pose proof (Hsm b Hn) as Hb. rewrite list_lookup_insert_eq by (by apply lookup_lt_Some in Hb). by rewrite bool_decide_eq_false_2.
      * rewrite list_lookup_insert_ne by lia. rewrite Hsm by done. do 2 f_equal. apply bool_decide_ext. set_solver.
    + rewrite Hsm by done. do 2 f_equal. apply bool_decide_ext. set_solver.
  - by rewrite length_imap.
  - intros t' (t0 & Ht0 & ->)%skip_zero_lookup. cbn. by apply Hz.
  - intros i t' Ht' Hi. apply skip_zero_lookup in Ht' as (t0 & Ht0 & ->). case_decide as H0.
    + left. apply Hz. by rewrite <- H0.
    + rewrite Z2Nat.id by lia. apply resolved_ok; [by apply Hd|done|lia|done].
Qed.
End update.
