(* ===== verification/DissemGraph.v ===== *)
(** * DissemGraph: graphs and the search for shortest paths

    [g_find] after the operations on graphs, the search ([sp_search]) with its
    invariant [sp_inv], and the least distances it ends with. *)
From stdpp Require Import base list gmap numbers option sets.
From Stdlib Require Import ZArith Lia.
From S2P Require Import Prelude NetTypes SklList MultiPath Dissem DissemState.
#[local] Open Scope Z_scope.

(** Splits on the decision of the goal. *)
Ltac decide_goal H := match goal with |- context [decide ?P] => destruct (decide P) as [H|H] end.

(** ** Finding after inserting *)
Lemma skl_find_insert_ne {X} (p q : X -> Z) x l : p x <> 0 -> skl_find p (skl_insert q x l) = skl_find p l.
Proof.
  intros Hx. apply Z.eqb_neq in Hx. induction l as [|y l IH]; cbn; [by rewrite Hx|].
  destruct (q y <=? 0); cbn; [by rewrite Hx|]. by rewrite IH.
Qed.

Lemma skl_find_insert_eq {X} (p q : X -> Z) x l : p x = 0 -> skl_find p l = None -> skl_find p (skl_insert q x l) = Some x.
Proof.
  intros Hx. apply Z.eqb_eq in Hx. induction l as [|y l IH]; cbn; [by rewrite Hx|].
  destruct (p y =? 0) eqn:Hy; [done|]. intros H. destruct (q y <=? 0); cbn; [by rewrite Hx|]. by rewrite Hy, IH.
Qed.

(** The value of the first entry of a key in a list of edges. *)
Definition assoc (k : Edge_Key) (l : list (Edge_Key * DG_Edge)) : option DG_Edge :=
  snd <$> skl_find (fun x : Edge_Key * DG_Edge => DG_Edge_Cmp k x.1) l.

Lemma g_find_assoc g k : g_find g k = assoc k (Edges g).
Proof. done. Qed.

Lemma assoc_cons k x l : assoc k (x :: l) = if decide (k = x.1) then Some x.2 else assoc k l.
Proof.
  unfold assoc. cbn. destruct (Z.eqb_spec (DG_Edge_Cmp k x.1) 0) as [He|He]; rewrite DG_Edge_Cmp_eq in He; by destruct (decide _).
Qed.

Lemma assoc_elem k e l : assoc k l = Some e -> (k, e) ∈ l.
Proof.
  induction l as [|x l IH]; [done|]. rewrite assoc_cons. case_decide as H; [intros [= <-]; subst k; destruct x; left|].
  intros ?%IH. by right.
Qed.

Lemma assoc_none k l : assoc k l = None <-> k ∉ l.*1.
Proof.
  induction l as [|x l IH]; [split; [intros _ H; by apply elem_of_nil in H|done]|]. rewrite assoc_cons, fmap_cons, not_elem_of_cons.
  case_decide; [naive_solver|]. rewrite IH. naive_solver.
Qed.

Lemma assoc_nodup k e l : NoDup l.*1 -> (k, e) ∈ l -> assoc k l = Some e.
Proof.
  induction l as [|x l IH]; [intros _ H; by apply elem_of_nil in H|]. rewrite fmap_cons. intros [Hx Hn]%NoDup_cons. rewrite assoc_cons.
  intros [<-|H]%elem_of_cons; [by destruct (decide _)|]. case_decide as Heq; [|by apply IH].
  exfalso. apply Hx. rewrite <- Heq. apply list_elem_of_fmap. by exists (k, e).
Qed.

(** A list whose entries all agree with a function. *)
Lemma assoc_consistent k e l (f : Edge_Key -> option DG_Edge) : (forall k e, (k, e) ∈ l -> f k = Some e) ->
  assoc k l = Some e <-> (k, e) ∈ l.
Proof.
  intros Hf. split; [apply assoc_elem|]. intros Hin. destruct (assoc k l) as [e'|] eqn:Ha.
  - apply assoc_elem in Ha. apply Hf in Ha. apply Hf in Hin. congruence.
  - apply assoc_none in Ha. exfalso. apply Ha, list_elem_of_fmap. by exists (k, e).
Qed.

Lemma Graph_add_node_edges g id : Edges (Graph_add_node g id) = Edges g.
Proof. unfold Graph_add_node. by case_match. Qed.

Lemma g_find_add g h1 h2 c i k :
  g_find (Graph_add_edge true g h1 h2 c i) k
  = if decide (k = (h1, h2) /\ h1 <> h2) then Some (default (mk_dge c i) (g_find g k)) else g_find g k.
Proof.
  unfold Graph_add_edge, edge_key. cbn [negb]. destruct (Z.eqb_spec h1 h2) as [->|Hne]; [rewrite decide_False by tauto; done|].
  destruct (g_find g (h1, h2)) as [e|] eqn:Hf.
  - case_decide as H; [|done]. destruct H as [-> _]. by rewrite Hf.
  - unfold g_find at 1. cbn [Edges]. rewrite !Graph_add_node_edges. case_decide as H.
    + destruct H as [-> _]. rewrite Hf. rewrite skl_find_insert_eq; [done|by apply DG_Edge_Cmp_eq|].
      unfold g_find in Hf. by destruct (skl_find _ _).
    + rewrite skl_find_insert_ne; [done|]. cbn. rewrite DG_Edge_Cmp_eq. tauto.
Qed.

Definition loop_free (g : Graph) : Prop := forall a, g_find g (a, a) = None.

Lemma g_find_add_edges g l k : k.1 <> k.2 ->
  g_find (add_edges true g l) k = match g_find g k with Some e => Some e | None => assoc k l end.
Proof.
  intros Hk. unfold add_edges. revert g. induction l as [|[[a b] [c i]] l IH]; intros g; [cbn; by destruct (g_find g k)|].
  cbn [foldl fst snd dg_cost dg_index]. rewrite IH, g_find_add, assoc_cons. cbn [fst snd]. destruct (decide (k = (a, b))) as [->|Hn].
  - cbn in Hk. rewrite decide_True by done. by destruct (g_find g (a, b)).
  - rewrite decide_False by tauto. done.
Qed.

Lemma add_edges_loop_free g l : loop_free g -> loop_free (add_edges true g l).
Proof.
  unfold add_edges. revert g. induction l as [|[[a b] [c i]] l IH]; intros g Hg; [done|]. cbn [foldl]. apply IH. intros x.
  rewrite g_find_add. rewrite decide_False; [apply Hg|]. cbn. intros [[= -> ->] ?]. done.
Qed.

(** Every key once. *)
Lemma Graph_add_edge_nodup g h1 h2 c i : NoDup (Edges g).*1 -> NoDup (Edges (Graph_add_edge true g h1 h2 c i)).*1.
Proof.
  intros Hg. unfold Graph_add_edge, edge_key. cbn [negb]. case_match; [done|]. destruct (g_find g (h1, h2)) eqn:Hf; [done|]. cbn [Edges].
  rewrite !Graph_add_node_edges, skl_insert_perm, fmap_cons. apply NoDup_cons. split; [|done]. apply assoc_none. done.
Qed.

Lemma add_edges_nodup g l : NoDup (Edges g).*1 -> NoDup (Edges (add_edges true g l)).*1.
Proof.
  unfold add_edges. revert g. induction l as [|x l IH]; intros g Hg; [done|]. cbn [foldl]. by apply IH, Graph_add_edge_nodup.
Qed.

Lemma g_find_elem g k e : NoDup (Edges g).*1 -> (k, e) ∈ Edges g <-> g_find g k = Some e.
Proof. intros Hn. split; [by apply assoc_nodup|apply assoc_elem]. Qed.

(** ** Relaxing the neighbours of a node *)
Definition D (st : gmap Z SP_Node) (v : Z) : option Z := src_dist (sp st v).

Lemma sp_insert st v n w : sp (<[v := n]> st) w = if decide (w = v) then n else sp st w.
Proof.
  unfold sp. case_decide as H; [subst; by rewrite lookup_insert_eq|]. rewrite lookup_insert_ne by congruence. done.
Qed.

Lemma dist_lt_trans a b c : dist_lt a b = true -> dist_lt c b = false -> dist_lt a c = true.
Proof.
  destruct a as [a|], b as [b|], c as [c|]; cbn; try done; rewrite ?Z.ltb_lt, ?Z.ltb_ge; lia.
Qed.

Lemma relax_lookup m dm st e v w : D st m = Some dm ->
  sp (sp_relax m st (e, v)) w
  = if decide (w = v /\ dist_lt (Some (dm + dg_cost e)) (D st v) = true)
    then mk_sp (Some m) (Some e) (Some (dg_cost e)) (Some (dm + dg_cost e)) (nghbrs (sp st v)) else sp st w.
Proof.
  intros Hm. unfold sp_relax. unfold D in *. rewrite Hm. destruct (dist_lt _ _) eqn:Hlt.
  - rewrite sp_insert. case_decide as H; [subst; by rewrite decide_True|]. rewrite decide_False by tauto. done.
  - by rewrite decide_False by (intros [_ ?]; congruence).
Qed.

(** What became of a node, and the distance of every neighbour. *)
Lemma relax_fold m dm l : forall st, D st m = Some dm -> (forall e v, (e, v) ∈ l -> 0 <= dg_cost e) ->
  let st' := foldl (sp_relax m) st l in
  (forall v, sp st' v = sp st v \/
     exists e, (e, v) ∈ l /\ dist_lt (Some (dm + dg_cost e)) (D st v) = true /\
       sp st' v = mk_sp (Some m) (Some e) (Some (dg_cost e)) (Some (dm + dg_cost e)) (nghbrs (sp st v))) /\
  (forall e v, (e, v) ∈ l -> exists d, D st' v = Some d /\ d <= dm + dg_cost e).
Proof.
  induction l as [|[e0 v0] l IH]; intros st Hm Hc; cbn [foldl].
  { split; [by left|]. intros e v H. by apply elem_of_nil in H. }
  set (st1 := sp_relax m st (e0, v0)). assert (Hc0 : 0 <= dg_cost e0) by (eapply Hc; left).
  pose proof (fun w => relax_lookup m dm st e0 v0 w Hm) as H1. fold st1 in H1.
  assert (Hm1 : D st1 m = Some dm).
  { unfold D. rewrite H1. decide_goal H; [|exact Hm]. destruct H as [<- Hlt]. rewrite Hm in Hlt. cbn in Hlt. apply Z.ltb_lt in Hlt. lia. }
  destruct (IH st1 Hm1) as [IH1 IH2]; [intros e v H; apply (Hc e v); by right|]. set (st' := foldl (sp_relax m) st1 l) in *. split.
  - intros v. assert (Hnb : nghbrs (sp st1 v) = nghbrs (sp st v)) by (rewrite H1; decide_goal H; [destruct H as [-> _]|]; done).
    assert (Hle : dist_lt (D st v) (D st1 v) = false).
    { unfold D. rewrite H1. decide_goal H; [destruct H as [-> Hlt]|].
      - unfold D in Hlt. cbn [src_dist]. destruct (src_dist (sp st v0)) as [d|]; [|done]. cbn in *. apply Z.ltb_lt in Hlt. apply Z.ltb_ge. lia.
      - destruct (src_dist _); [apply Z.ltb_irrefl|done]. }
    destruct (IH1 v) as [->|(e & Hin & Hlt & ->)].
    + rewrite H1. decide_goal H; [|by left]. destruct H as [-> Hlt]. right. exists e0. split; [left|done].
    + right. exists e. split; [by right|]. rewrite Hnb. split; [|done]. unfold dist_lt in *. destruct (D st v), (D st1 v); try done; rewrite ?Z.ltb_lt, ?Z.ltb_ge in *; lia.
  - intros e v [[= -> ->]|Hin]%elem_of_cons; [|by apply IH2].
    assert (Hd1 : exists d, D st1 v0 = Some d /\ d <= dm + dg_cost e0).
    { unfold D. rewrite H1. decide_goal H; [eexists; split; [done|lia]|]. unfold D in H.
      destruct (src_dist (sp st v0)) as [d|]; [|exfalso; apply H; done]. exists d. split; [done|]. cbn in H.
      destruct (Z.ltb_spec (dm + dg_cost e0) d); [exfalso; by apply H|lia]. }
    destruct Hd1 as (d & Hd & Hle). destruct (IH1 v0) as [Heq|(e & _ & Hlt & Heq)]; unfold D; rewrite Heq.
    + by exists d.
    + rewrite Hd in Hlt. cbn in Hlt. apply Z.ltb_lt in Hlt. eexists. split; [done|]. lia.
Qed.

(** The order of neighbours that are different nodes does not matter. *)
Lemma relax_order m dm l l' st : l ≡ₚ l' -> NoDup l.*2 -> (forall e v, (e, v) ∈ l -> 0 <= dg_cost e) -> D st m = Some dm ->
  foldl (sp_relax m) st l = foldl (sp_relax m) st l'.
Proof.
  assert (Hkeep : forall st e v, D st m = Some dm -> 0 <= dg_cost e -> D (sp_relax m st (e, v)) m = Some dm).
  { intros st0 e v Hm Hc. unfold D. rewrite (relax_lookup m dm) by done. case_decide as H; [|exact Hm]. destruct H as [<- Hlt].
    rewrite Hm in Hlt. cbn in Hlt. apply Z.ltb_lt in Hlt. lia. }
  intros Hp. revert st. induction Hp as [|[e v] l l' Hp IH|[e v] [e' v'] l|l l' l'' Hp1 IH1 Hp2 IH2]; intros st Hn Hc Hm; cbn [foldl].
  - done.
  - rewrite fmap_cons in Hn. apply NoDup_cons in Hn as [_ Hn]. apply IH; [done|intros; eapply Hc; by right|]. apply Hkeep; [done|]. eapply Hc. left.
  - f_equal. rewrite !fmap_cons in Hn. apply NoDup_cons in Hn as [Hne _]. cbn in Hne. apply not_elem_of_cons in Hne as [Hne _].
    pose proof (Hkeep st e' v' Hm ltac:(eapply Hc; left)) as H1. pose proof (Hkeep st e v Hm ltac:(eapply Hc; right; left)) as H2.
    unfold sp_relax at 1 3. unfold D in Hm, H1, H2. rewrite H1, H2. unfold sp_relax. rewrite Hm.
    destruct (dist_lt (Some (dm + dg_cost e)) (src_dist (sp st v))) eqn:Hv, (dist_lt (Some (dm + dg_cost e')) (src_dist (sp st v'))) eqn:Hv';
      rewrite ?sp_insert, ?decide_False by congruence; rewrite ?Hv, ?Hv'; try done. apply insert_insert_ne. congruence.
  - rewrite IH1 by done. apply IH2; [by rewrite <- Hp1|intros ev v; rewrite <- Hp1; apply Hc|done].
Qed.

(** ** The nearest node *)
Lemma sp_min_spec st l :
  match sp_min st l with
  | None => l = []
  | Some m => m ∈ l /\ forall v, v ∈ l -> dist_lt (D st v) (D st m) = false
  end.
Proof.
  unfold sp_min. induction l as [|v l IH] using rev_ind; [done|]. rewrite foldl_app. cbn [foldl].
  assert (Hirr : forall a, dist_lt a a = false) by (intros [a|]; [apply Z.ltb_irrefl|done]).
  destruct (foldl _ None l) as [m|].
  - destruct IH as [Hm Hall]. unfold D in *. destruct (dist_lt (src_dist (sp st v)) (src_dist (sp st m))) eqn:Hlt.
    + split; [set_solver|]. intros w [Hw| ->%list_elem_of_singleton]%elem_of_app; [|done]. specialize (Hall w Hw).
      destruct (dist_lt (src_dist (sp st w)) (src_dist (sp st v))) eqn:Hwv; [|done].
      unfold dist_lt in *. destruct (src_dist (sp st v)), (src_dist (sp st m)), (src_dist (sp st w)); try done; rewrite ?Z.ltb_lt, ?Z.ltb_ge in *; lia.
    + split; [set_solver|]. intros w [Hw| ->%list_elem_of_singleton]%elem_of_app; [by apply Hall|done].
  - subst l. split; [set_solver|]. intros w ->%list_elem_of_singleton. apply Hirr.
Qed.

(** ** The search *)
Section search.
(** The nodes, the neighbours of each, and the source. *)
Context (V : list Z) (A : Z -> list (DG_Edge * Z)) (src : Z).
Context (V_nodup : NoDup V) (src_V : src ∈ V).
Context (A_V : forall a e b, (e, b) ∈ A a -> a ∈ V /\ b ∈ V) (A_cost : forall a e b, (e, b) ∈ A a -> 0 <= dg_cost e).

(** There is a walk from the source of a cost. *)
Inductive reach : Z -> Z -> Prop :=
| reach_src : reach src 0
| reach_step u v e c : reach u c -> (e, v) ∈ A u -> reach v (c + dg_cost e).

Lemma reach_bounds v c : reach v c -> v ∈ V /\ 0 <= c.
Proof. induction 1 as [|u v e c H [IH1 IH2] He]; [done|]. pose proof (A_V _ _ _ He). pose proof (A_cost _ _ _ He). split; [tauto|lia]. Qed.

(** [F]: the finished nodes, the last one first. *)
Record sp_inv (s : sp_state) (F : list Z) : Prop := {
  si_nghbrs : forall v, nghbrs (sp (sp_store s) v) = A v;
  si_part : sp_nodes s ++ F ≡ₚ V;
  si_reach : forall v d, D (sp_store s) v = Some d -> reach v d;
  si_src : D (sp_store s) src = Some 0;
  si_prev : forall v d, v <> src -> D (sp_store s) v = Some d ->
    exists p e dp, prev (sp (sp_store s) v) = Some p /\ prev_edge (sp (sp_store s) v) = Some e /\ prev_dist (sp (sp_store s) v) = Some (dg_cost e) /\
      (e, v) ∈ A p /\ p ∈ F /\ D (sp_store s) p = Some dp /\ d = dp + dg_cost e;
  si_order : forall F1 v F2, F = F1 ++ v :: F2 -> v <> src -> exists p, prev (sp (sp_store s) v) = Some p /\ p ∈ F2;
  si_fin : forall f, f ∈ F -> exists df, D (sp_store s) f = Some df /\
    (forall e v, (e, v) ∈ A f -> exists dv, D (sp_store s) v = Some dv /\ dv <= df + dg_cost e) /\
    (forall u du, u ∈ sp_nodes s -> D (sp_store s) u = Some du -> df <= du) }.

Lemma si_nodup s F : sp_inv s F -> NoDup (sp_nodes s ++ F).
Proof. intros [_ Hp _ _ _ _ _]. by rewrite Hp. Qed.

Lemma sp_erase m l : NoDup l -> m ∈ l -> l ≡ₚ m :: skl_erase (Node_Cmp m) l.
Proof.
  induction l as [|x l IH]; intros Hn Hm; [by apply elem_of_nil in Hm|]. apply NoDup_cons in Hn as [Hx Hn]. cbn.
  destruct (Z.eqb_spec (Node_Cmp m x) 0) as [He|He]; rewrite Node_Cmp_eq in He; [by subst|].
  apply elem_of_cons in Hm as [->|Hm]; [done|]. rewrite (IH Hn Hm) at 1. apply Permutation_swap.
Qed.

(** A pass of the loop. *)
Lemma sp_inv_step s F m dm : sp_inv s F -> m ∈ sp_nodes s -> D (sp_store s) m = Some dm ->
  (forall v, v ∈ sp_nodes s -> dist_lt (D (sp_store s) v) (Some dm) = false) ->
  sp_inv (mk_sps (foldl (sp_relax m) (sp_store s) (nghbrs (sp (sp_store s) m))) (skl_erase (Node_Cmp m) (sp_nodes s))) (m :: F).
Proof.
  intros Hi Hm Hdm Hmin. pose proof (si_nodup _ _ Hi) as Hnd. destruct Hi as [Hnb Hpt Hre Hs0 Hpv Hord Hfin].
  apply NoDup_app in Hnd as (Hn1 & Hdisj & Hn2). pose proof (sp_erase m _ Hn1 Hm) as Her.
  destruct (relax_fold m dm (nghbrs (sp (sp_store s) m)) (sp_store s) Hdm) as [Hr1 Hr2]; [intros e v; rewrite Hnb; apply A_cost|].
  rewrite Hnb in *. set (st' := foldl (sp_relax m) (sp_store s) (A m)) in *.
  assert (Hopen : forall v, v ∈ skl_erase (Node_Cmp m) (sp_nodes s) -> v ∈ sp_nodes s) by (intros v Hv; rewrite Her; by right).
  assert (Hdm0 : 0 <= dm) by (apply (reach_bounds m), Hre, Hdm).
  assert (Hkeep : forall f, f ∈ m :: F -> sp st' f = sp (sp_store s) f).
  { intros f Hf. destruct (Hr1 f) as [|(e & He & Hlt & _)]; [done|exfalso]. pose proof (A_cost _ _ _ He) as Hc.
    assert (Hdf : exists df, D (sp_store s) f = Some df /\ df <= dm).
    { apply elem_of_cons in Hf as [->|Hf]; [by exists dm|]. destruct (Hfin f Hf) as (df & Hdf & _ & Hle). exists df. split; [done|]. by apply (Hle m). }
    destruct Hdf as (df & Hdf & Hle). rewrite Hdf in Hlt. cbn in Hlt. apply Z.ltb_lt in Hlt. lia. }
  assert (HkeepD : forall f, f ∈ m :: F -> D st' f = D (sp_store s) f) by (intros f Hf; unfold D; by rewrite Hkeep).
  assert (Hlow : forall u du, u ∈ sp_nodes s -> D st' u = Some du -> dm <= du).
  { intros u du Hu Hdu. unfold D in Hdu. destruct (Hr1 u) as [Heq|(e & He & _ & Heq)]; rewrite Heq in Hdu.
    - specialize (Hmin u Hu). unfold D in Hmin. rewrite Hdu in Hmin. cbn in Hmin. apply Z.ltb_ge in Hmin. done.
    - cbn in Hdu. injection Hdu as <-. pose proof (A_cost _ _ _ He). lia. }
  split; cbn [sp_store sp_nodes].
  - intros v. destruct (Hr1 v) as [->|(e & _ & _ & ->)]; [done|]. apply Hnb.
  - rewrite <- Permutation_middle. etrans; [|exact Hpt]. rewrite app_comm_cons. by rewrite <- Her.
  - intros v d Hd. unfold D in Hd. destruct (Hr1 v) as [Heq|(e & He & _ & Heq)]; rewrite Heq in Hd; [by apply Hre|].
    cbn in Hd. injection Hd as <-. eapply reach_step; [by apply Hre|done].
  - destruct (Hr1 src) as [Heq|(e & He & Hlt & _)]; [unfold D; by rewrite Heq|]. rewrite Hs0 in Hlt. cbn in Hlt. apply Z.ltb_lt in Hlt.
    pose proof (A_cost _ _ _ He). lia.
  - intros v d Hv Hd. unfold D in Hd. destruct (Hr1 v) as [Heq|(e & He & _ & Heq)]; rewrite Heq in *.
    + destruct (Hpv v d Hv Hd) as (p & e & dp & ? & ? & ? & ? & Hp & Hdp & ?). exists p, e, dp. split_and!; try done; [by right|].
      rewrite HkeepD by (by right). done.
    + cbn in Hd. injection Hd as <-. exists m, e, dm. split_and!; try done; [left|]. rewrite HkeepD by left. done.
  - intros F1 v F2 HF Hv. destruct F1 as [|x F1]; cbn in HF; injection HF as <- HF.
    + subst F2. destruct (Hpv m dm Hv Hdm) as (p & e & dp & Hp & _ & _ & _ & Hin & _). exists p. rewrite Hkeep by left. done.
    + destruct (Hord F1 v F2 HF Hv) as (p & Hp & Hin). exists p. rewrite Hkeep; [done|]. right. rewrite HF. set_solver.
  - intros f Hf. rewrite HkeepD by done. apply elem_of_cons in Hf as [->|Hf].
    + exists dm. split; [done|]. split; [by apply Hr2|]. intros u du Hu Hdu. by apply (Hlow u du); [apply Hopen|].
    + destruct (Hfin f Hf) as (df & Hdf & Harcs & Hle). exists df. split; [done|]. split.
      * intros e v He. destruct (Harcs e v He) as (dv & Hdv & Hdle). destruct (Hr1 v) as [Heq|(e' & _ & Hlt & Heq)].
        -- exists dv. unfold D. rewrite Heq. done.
        -- rewrite Hdv in Hlt. cbn in Hlt. apply Z.ltb_lt in Hlt. eexists. unfold D. rewrite Heq. split; [done|]. lia.
      * intros u du Hu Hdu. pose proof (Hlow u du (Hopen u Hu) Hdu). specialize (Hle m dm Hm Hdm). lia.
Qed.

(** Walks are no shorter than the distances found, or lead to nodes farther than
    every open one. *)
Lemma sp_inv_lower s F v c : sp_inv s F -> reach v c ->
  (v ∈ F -> exists d, D (sp_store s) v = Some d /\ d <= c) /\
  (v ∈ sp_nodes s -> exists u du, u ∈ sp_nodes s /\ D (sp_store s) u = Some du /\ du <= c).
Proof.
  intros [Hnb Hpt Hre Hs0 Hpv Hord Hfin] Hr. induction Hr as [|u v e c Hu [IH1 IH2] He].
  - split; intros Hin; [by exists 0|]. by exists src, 0.
  - pose proof (A_cost _ _ _ He) as Hc. destruct (A_V _ _ _ He) as [HuV HvV]. rewrite <- Hpt, elem_of_app in HuV. destruct HuV as [HuO|HuF].
    + destruct (IH2 HuO) as (w & dw & Hw & Hdw & Hle). split; [|intros _; exists w, dw; split_and!; [done|done|lia]].
      intros HvF. destruct (Hfin v HvF) as (df & Hdf & _ & Hlow). exists df. split; [done|]. specialize (Hlow w dw Hw Hdw). lia.
    + destruct (IH1 HuF) as (d & Hd & Hle). destruct (Hfin u HuF) as (df & Hdf & Harcs & _). rewrite Hd in Hdf. injection Hdf as <-.
      destruct (Harcs e v He) as (dv & Hdv & Hdle). split; [intros _; exists dv; split; [done|lia]|].
      intros HvO. exists v, dv. split_and!; [done|done|lia].
Qed.

(** The search ends; [found] says that it stopped at the nearest open node. *)
Lemma sp_search_ok stop : forall fuel s F, sp_inv s F -> (length (sp_nodes s) < fuel)%nat ->
  exists s' F' found, sp_search stop fuel s F = Ret (s', F', found) /\ sp_inv s' F' /\
    (if found : bool then exists m dm, stop = Some m /\ m ∈ sp_nodes s' /\ D (sp_store s') m = Some dm /\
                            (forall v dv, v ∈ sp_nodes s' -> D (sp_store s') v = Some dv -> dm <= dv)
     else (forall v, v ∈ sp_nodes s' -> D (sp_store s') v = None) /\ forall v, stop = Some v -> v ∉ F -> v ∉ F').
Proof.
  induction fuel as [|fuel IH]; intros s F Hi Hf; [lia|]. cbn [sp_search].
  pose proof (sp_min_spec (sp_store s) (sp_nodes s)) as Hmin. destruct (sp_min _ _) as [m|].
  2: { exists s, F, false. split; [done|]. split; [done|]. rewrite Hmin. split; [intros v Hv; by apply elem_of_nil in Hv|done]. }
  destruct Hmin as [Hm Hall]. fold (D (sp_store s) m). destruct (D (sp_store s) m) as [dm|] eqn:Hdm.
  2: { exists s, F, false. split; [done|]. split; [done|]. split; [|done]. intros v Hv. specialize (Hall v Hv). by destruct (D (sp_store s) v). }
  destruct (decide (stop = Some m)) as [Hst|Hst].
  - exists s, F, true. split; [done|]. split; [done|]. exists m, dm. split_and!; try done. intros v dv Hv Hdv. specialize (Hall v Hv).
    rewrite Hdv in Hall. cbn in Hall. by apply Z.ltb_ge in Hall.
  - pose proof (sp_inv_step s F m dm Hi Hm Hdm Hall) as Hi'. pose proof (si_nodup _ _ Hi) as Hnd. apply NoDup_app in Hnd as (Hn1 & Hdisj & _).
    destruct (IH _ _ Hi') as (s' & F' & found & Hrun & Hi'' & Hend).
    { cbn [sp_nodes]. pose proof (sp_erase m _ Hn1 Hm) as Her. apply Permutation_length in Her. cbn in Her. lia. }
    exists s', F', found. split; [done|]. split; [done|]. destruct found; [done|]. destruct Hend as [H1 H2]. split; [done|].
    intros v Hv Hn. apply H2; [done|]. apply not_elem_of_cons. split; [congruence|done].
Qed.

(** The least cost of a walk to a node. *)
Definition least (v c : Z) : Prop := reach v c /\ forall c', reach v c' -> c <= c'.

Lemma sp_done s F v : sp_inv s F -> (forall v, v ∈ sp_nodes s -> D (sp_store s) v = None) ->
  (forall d, D (sp_store s) v = Some d <-> least v d) /\ (v ∈ F <-> exists c, reach v c).
Proof.
  intros Hi Hopen. assert (Hlow : forall v c, reach v c -> v ∈ F /\ exists d, D (sp_store s) v = Some d /\ d <= c).
  { intros w c Hr. destruct (sp_inv_lower s F w c Hi Hr) as [H1 H2]. destruct (reach_bounds w c Hr) as [Hw _].
    rewrite <- (si_part _ _ Hi), elem_of_app in Hw. destruct Hw as [Hw|Hw]; [|split; [done|by apply H1]].
    destruct (H2 Hw) as (u & du & Hu & Hdu & _). by rewrite Hopen in Hdu. }
  split.
  - intros d. split.
    + intros Hd. split; [by apply (si_reach _ _ Hi)|]. intros c' (_ & d' & Hd' & Hle)%Hlow. congruence.
    + intros [Hr Hmin]. destruct (Hlow v d Hr) as (_ & d' & Hd' & Hle). rewrite Hd'. f_equal.
      pose proof (Hmin d' (si_reach _ _ Hi _ _ Hd')). lia.
  - split; [|intros [c Hr]; by apply (Hlow v c)]. intros Hv. destruct (si_fin _ _ Hi v Hv) as (d & Hd & _). exists d. by apply (si_reach _ _ Hi).
Qed.

(** ** The walk back *)
Inductive chain (st : gmap Z SP_Node) : Z -> list (Edge_Key * DG_Edge) -> Prop :=
| chain_src : chain st src []
| chain_step v p e l : v <> src -> prev (sp st v) = Some p -> prev_edge (sp st v) = Some e -> prev_dist (sp st v) = Some (dg_cost e) ->
    (e, v) ∈ A p -> chain st p l -> chain st v (((p, v), e) :: l).

Lemma path_back_ok s F : sp_inv s F -> forall fuel F1 v F2 g, F = F1 ++ v :: F2 -> (length F2 <= fuel)%nat ->
  exists l, chain (sp_store s) v l /\ path_back true fuel (sp_store s) src v g = Ret (add_edges true g l).
Proof.
  intros Hi. induction fuel as [fuel IH] using lt_wf_ind. intros F1 v F2 g HF Hlen.
  destruct (decide (v = src)) as [->|Hv].
  { exists []. split; [constructor|]. destruct fuel; cbn; by rewrite Z.eqb_refl. }
  destruct (si_order _ _ Hi F1 v F2 HF Hv) as (p & Hp & Hin).
  destruct (si_fin _ _ Hi v) as (d & Hd & _); [rewrite HF; set_solver|].
  destruct (si_prev _ _ Hi v d Hv Hd) as (p' & e & dp & Hp' & He & Hpd & HA & _). rewrite Hp in Hp'. injection Hp' as <-.
  apply list_elem_of_split in Hin as (G1 & G2 & HG). destruct fuel as [|fuel]; [rewrite HG, length_app in Hlen; cbn in Hlen; lia|].
  cbn [path_back]. rewrite (proj2 (Z.eqb_neq _ _) Hv), Hp, He, Hpd. cbn [or_else mbind outcome_bind].
  destruct (IH fuel ltac:(lia) (F1 ++ v :: G1) p G2 (Graph_add_edge true g p v (dg_cost e) (dg_index e))) as (l & Hch & Hrun).
  - rewrite HF, HG, <- app_assoc. done.
  - rewrite HG, length_app in Hlen. cbn in Hlen. lia.
  - exists (((p, v), e) :: l). split; [by econstructor|]. rewrite Hrun. done.
Qed.

Lemma chain_unique st v l l' : chain st v l -> chain st v l' -> l = l'.
Proof.
  intros H. revert l'. induction H as [|v p e l Hv Hp He Hd HA H IH]; intros l' H'; inversion H'; subst; try done.
  assert (p0 = p) as -> by congruence. assert (e0 = e) as -> by congruence. f_equal. by apply IH.
Qed.

Lemma chain_edges st v l a b e : chain st v l -> ((a, b), e) ∈ l -> (e, b) ∈ A a.
Proof.
  induction 1 as [|v p e' l Hv Hp He Hd HA H IH]; intros Hin; [by apply elem_of_nil in Hin|].
  apply elem_of_cons in Hin as [[= -> -> ->]|Hin]; [done|by apply IH].
Qed.
End search.
