(* ===== verification/DissemPath.v ===== *)
(** * DissemPath: the problem graphs

    The list of nodes a search starts from ([sp_build]), and what the
    destination-problem graph and the source-problem graph are made of. *)
From stdpp Require Import base list gmap numbers option sets.
From Stdlib Require Import ZArith Lia.
From S2P Require Import Prelude HashMap NetTypes SklList MultiPath Dissem DissemState DissemGraph.
#[local] Open Scope Z_scope.

(** ** The nodes of a search *)
Record build_ok (skip : Edge_Key -> bool) (l : list (Edge_Key * DG_Edge)) (src : Z) (s : sp_state) : Prop := {
  bo_nodup : NoDup (sp_nodes s);
  bo_src : src ∈ sp_nodes s;
  bo_new : forall v, v ∉ sp_nodes s -> sp (sp_store s) v = sp_new;
  bo_far : forall v, D (sp_store s) v = None;
  bo_arcs : forall a e b, (e, b) ∈ nghbrs (sp (sp_store s) a) <-> ((a, b), e) ∈ l /\ skip (a, b) = false;
  bo_ends : forall a b e, ((a, b), e) ∈ l -> skip (a, b) = false -> a ∈ sp_nodes s /\ b ∈ sp_nodes s }.

Lemma SP_Add_Node_ok s id : NoDup (sp_nodes s) -> (forall v, v ∉ sp_nodes s -> sp (sp_store s) v = sp_new) ->
  NoDup (sp_nodes (SP_Add_Node s id)) /\ (forall v, v ∈ sp_nodes (SP_Add_Node s id) <-> v = id \/ v ∈ sp_nodes s) /\
  (forall v, sp (sp_store (SP_Add_Node s id)) v = sp (sp_store s) v).
Proof.
  intros Hn Hnew. unfold SP_Add_Node. destruct (skl_find (Node_Cmp id) (sp_nodes s)) as [x|] eqn:Hf.
  - apply skl_find_some in Hf as [Hx ->%Node_Cmp_eq]. split; [done|]. split; [naive_solver|done].
  - assert (Hid : id ∉ sp_nodes s) by (intros H; eapply skl_find_none; [exact Hf|exact H|by apply Node_Cmp_eq]). cbn. split; [|split].
    + rewrite skl_insert_perm. by apply NoDup_cons.
    + intros v. rewrite skl_insert_perm. apply elem_of_cons.
    + intros v. rewrite sp_insert. case_decide; [subst; by rewrite Hnew|done].
Qed.

Lemma add_nghbr_sp st a b e v : sp (add_nghbr st a b e) v
  = if decide (v = a) then mk_sp (prev (sp st a)) (prev_edge (sp st a)) (prev_dist (sp st a)) (src_dist (sp st a))
      (skl_insert (fun x : DG_Edge * Z => Edge_Ptr_Cmp e x.1) (e, b) (nghbrs (sp st a))) else sp st v.
Proof. unfold add_nghbr. by rewrite sp_insert. Qed.

Lemma sp_build_ok skip g src : build_ok skip (Edges g) src (sp_build true skip g src).
Proof.
  unfold sp_build. induction (Edges g) as [|[[a b] e] l IH] using rev_ind.
  - cbn [foldl]. destruct (SP_Add_Node_ok (mk_sps ∅ []) src) as (H1 & H2 & H3); [apply NoDup_nil_2|intros v _; cbn; unfold sp; by rewrite lookup_empty|].
    assert (Hsp : forall v, sp (sp_store (SP_Add_Node (mk_sps ∅ []) src)) v = sp_new) by (intros v; rewrite H3; unfold sp; cbn; by rewrite lookup_empty).
    split; [done|apply H2; by left|intros; apply Hsp|intros v; unfold D; by rewrite Hsp| |].
    + intros x e y. rewrite Hsp. cbn. split; [by intros ?%elem_of_nil|by intros [?%elem_of_nil ?]].
    + intros x y e H. by apply elem_of_nil in H.
  - rewrite foldl_app. cbn [foldl fst snd]. set (s := foldl _ _ l) in *. destruct IH as [Hn Hs Hnew Hfar Harcs Hends].
    destruct (skip (a, b)) eqn:Hsk.
    + split; try done.
      * intros x e' y. rewrite Harcs, elem_of_app, list_elem_of_singleton. split; [naive_solver|]. intros [[?|[= -> -> ->]] ?]; [done|congruence].
      * intros x y e'. rewrite elem_of_app, list_elem_of_singleton. intros [?|[= -> -> ->]] ?; [by eapply Hends|congruence].
    + unfold SP_Add_Edge. destruct (SP_Add_Node_ok s a Hn Hnew) as (Hn1 & Hin1 & Hsp1).
      destruct (SP_Add_Node_ok (SP_Add_Node s a) b Hn1) as (Hn2 & Hin2 & Hsp2).
      { intros v Hv. rewrite Hsp1. apply Hnew. rewrite Hin1 in Hv. tauto. }
      set (s2 := SP_Add_Node (SP_Add_Node s a) b) in *. assert (Hsp : forall v, sp (sp_store s2) v = sp (sp_store s) v) by (intros v; by rewrite Hsp2, Hsp1).
      assert (Hin : forall v, v ∈ sp_nodes s2 <-> v = a \/ v = b \/ v ∈ sp_nodes s) by (intros v; rewrite Hin2, Hin1; tauto).
      split; cbn [sp_store sp_nodes]; try done.
      * apply Hin. tauto.
      * intros v Hv. rewrite Hin in Hv. rewrite add_nghbr_sp. rewrite decide_False by tauto. rewrite Hsp. apply Hnew. tauto.
      * intros v. unfold D. rewrite add_nghbr_sp. decide_goal H; cbn; rewrite Hsp; apply Hfar.
      * intros x e' y. rewrite add_nghbr_sp, elem_of_app, list_elem_of_singleton. decide_goal H.
        -- subst x. cbn [nghbrs]. rewrite skl_insert_perm, elem_of_cons, Hsp, Harcs. split; [intros [[= -> ->]|?]; tauto|].
           intros [[?|[= -> ->]] ?]; tauto.
        -- rewrite Hsp, Harcs. split; [tauto|]. intros [[?|[= -> -> ->]] ?]; tauto.
      * intros x y e'. rewrite elem_of_app, list_elem_of_singleton, !Hin. intros [Hl|[= -> -> ->]] Hk; [|tauto].
        destruct (Hends _ _ _ Hl Hk). tauto.
Qed.

(** ** A search on a graph *)
Section run.
Context (g : Graph) (skip : Edge_Key -> bool) (src : Z).
Context (g_nodup : NoDup (Edges g).*1) (g_cost : forall k e, g_find g k = Some e -> 0 <= dg_cost e).

Definition run_V : list Z := sp_nodes (sp_build true skip g src).
Definition run_A (a : Z) : list (DG_Edge * Z) := nghbrs (sp (sp_store (sp_build true skip g src)) a).

Lemma run_A_spec a e b : (e, b) ∈ run_A a <-> g_find g (a, b) = Some e /\ skip (a, b) = false.
Proof. unfold run_A. rewrite (bo_arcs _ _ _ _ (sp_build_ok skip g src)), g_find_elem by done. done. Qed.

Lemma run_A_V a e b : (e, b) ∈ run_A a -> a ∈ run_V /\ b ∈ run_V.
Proof.
  intros [Hg Hk]%run_A_spec. eapply (bo_ends _ _ _ _ (sp_build_ok skip g src)); [|done]. apply g_find_elem; [done|exact Hg].
Qed.

Lemma run_A_cost a e b : (e, b) ∈ run_A a -> 0 <= dg_cost e.
Proof. intros [Hg _]%run_A_spec. by eapply g_cost. Qed.

Lemma run_inv : sp_inv run_V run_A src (sp_start (sp_build true skip g src) src) [].
Proof.
  destruct (sp_build_ok skip g src) as [Hn Hs Hnew Hfar Harcs Hends]. set (s := sp_build true skip g src) in *.
  assert (Hsp : forall v, sp (sp_store (sp_start s src)) v
    = if decide (v = src) then mk_sp (prev (sp (sp_store s) src)) (prev_edge (sp (sp_store s) src)) (prev_dist (sp (sp_store s) src)) (Some 0) (nghbrs (sp (sp_store s) src))
      else sp (sp_store s) v) by (intros v; unfold sp_start; cbn; by rewrite sp_insert).
  assert (HD : forall v d, D (sp_store (sp_start s src)) v = Some d -> v = src /\ d = 0).
  { intros v d. unfold D. rewrite Hsp. decide_goal H; [cbn; intros [= <-]; done|]. intros Hd. specialize (Hfar v). unfold D in Hfar. congruence. }
  split.
  - intros v. rewrite Hsp. unfold run_A. fold s. decide_goal H; [by subst|done].
  - cbn. by rewrite app_nil_r.
  - intros v d [-> ->]%HD. constructor.
  - unfold D. rewrite Hsp. by rewrite decide_True.
  - intros v d Hv [? _]%HD. done.
  - intros F1 v F2 H. by destruct F1.
  - intros f Hf. by apply elem_of_nil in Hf.
Qed.

Lemma sp_run_ok stop : exists s F found, sp_run true stop skip g src = Ret (s, F, found) /\ sp_inv run_V run_A src s F /\
    (if found : bool then exists m dm, stop = Some m /\ m ∈ sp_nodes s /\ D (sp_store s) m = Some dm /\
                            (forall v dv, v ∈ sp_nodes s -> D (sp_store s) v = Some dv -> dm <= dv)
     else (forall v, v ∈ sp_nodes s -> D (sp_store s) v = None) /\ forall v, stop = Some v -> v ∉ F).
Proof.
  unfold sp_run. pose proof (bo_nodup _ _ _ _ (sp_build_ok skip g src)) as Hn.
  destruct (sp_search_ok run_V run_A src Hn (bo_src _ _ _ _ (sp_build_ok skip g src)) run_A_V run_A_cost stop
              (S (length (sp_nodes (sp_start (sp_build true skip g src) src)))) _ [] run_inv) as (s & F & found & Hrun & Hi & Hend); [lia|].
  exists s, F, found. split; [exact Hrun|]. split; [done|]. destruct found; [done|]. destruct Hend as [H1 H2]. split; [done|].
  intros v Hv. apply H2; [done|]. apply not_elem_of_nil.
Qed.
End run.

(** ** Walks *)
(** A walk of the graph that does not touch [avoid], and its cost. *)
Inductive dwalk (g : Graph) (avoid a : Z) : Z -> Z -> Prop :=
| dwalk_nil : dwalk g avoid a a 0
| dwalk_step u v e c : dwalk g avoid a u c -> g_find g (u, v) = Some e -> u <> avoid -> v <> avoid -> dwalk g avoid a v (c + dg_cost e).

Definition least_walk (g : Graph) (avoid a v c : Z) : Prop := dwalk g avoid a v c /\ forall c', dwalk g avoid a v c' -> c <= c'.

(** A neighbour of the destination that is near enough. *)
Definition target (g : Graph) (src dst max_latency n : Z) : Prop :=
  exists e c, g_find g (n, dst) = Some e /\ dwalk g dst src n c /\ dg_cost e + c <= max_latency.

(** What a destination-problem graph is: edges of the graph; into the
    destination, those of the neighbours that are near enough; for each of
    these a shortest walk from the source; and no other edge. *)
Record dest_graph (g : Graph) (src dst max_latency : Z) (g' : Graph) : Prop := {
  dg_sub : forall k e, g_find g' k = Some e -> g_find g k = Some e;
  dg_into : forall n, is_Some (g_find g' (n, dst)) <-> target g src dst max_latency n;
  dg_paths : forall n, target g src dst max_latency n -> exists c, dwalk g' dst src n c /\ least_walk g dst src n c;
  dg_only : forall a b e, g_find g' (a, b) = Some e -> b <> dst ->
    exists n c1 c2, target g src dst max_latency n /\ dwalk g' dst src a c1 /\ dwalk g' dst b n c2 /\ least_walk g dst src n (c1 + dg_cost e + c2) }.

Lemma dwalk_app g avoid a b v c c' : dwalk g avoid a b c -> dwalk g avoid b v c' -> dwalk g avoid a v (c + c').
Proof.
  intros H. induction 1 as [|u v e c' H' IH He Hu Hv]; [by rewrite Z.add_0_r|]. rewrite Z.add_assoc. by eapply dwalk_step.
Qed.

Lemma fin_iter_perm `{HO : HashOrder} F : NoDup F -> fin_iter F ≡ₚ F.
Proof.
  intros Hn. unfold fin_iter. rewrite hash_iter_perm, map_to_list_to_map.
  - rewrite <- list_fmap_compose. change (fst ∘ (fun n : Z => (n, n))) with (@id Z). by rewrite list_fmap_id.
  - rewrite <- list_fmap_compose. change (fst ∘ (fun n : Z => (n, n))) with (@id Z). by rewrite list_fmap_id.
Qed.

Section dest.
Context `{HO : HashOrder} (g : Graph) (src dst L : Z).
Context (g_nodup : NoDup (Edges g).*1) (g_cost : forall k e, g_find g k = Some e -> 0 <= dg_cost e) (g_loops : loop_free g).
Let skip (k : Edge_Key) : bool := (k.1 =? dst) || (k.2 =? dst).
Let A := run_A g skip src.

Lemma skip_spec a b : skip (a, b) = false <-> a <> dst /\ b <> dst.
Proof. unfold skip. cbn. rewrite orb_false_iff, !Z.eqb_neq. done. Qed.

Lemma reach_walk v c : reach A src v c <-> dwalk g dst src v c.
Proof.
  split; induction 1 as [|u v e c H IH He]; try (by constructor).
  - apply run_A_spec in He as [He Hk]; [|done]. apply skip_spec in Hk as [? ?]. by eapply dwalk_step.
  - eapply reach_step; [done|]. apply run_A_spec; [done|]. split; [done|]. by apply skip_spec.
Qed.

(** The edges one finished node adds. *)
Definition adds (st : gmap Z SP_Node) (n : Z) (x : Edge_Key * DG_Edge) : Prop :=
  exists e d l, g_find g (n, dst) = Some e /\ D st n = Some d /\ dg_cost e + d <= L /\ chain A src st n l /\ x ∈ ((n, dst), e) :: l.

Lemma add_targets_ok s F l : sp_inv (run_V g skip src) A src s F -> (forall n, n ∈ l -> n ∈ F) -> forall g0,
  exists T, foldl (add_target true g src dst L (sp_store s) (length F)) (Ret g0) l = Ret (add_edges true g0 T) /\
    forall x, x ∈ T <-> exists n, n ∈ l /\ adds (sp_store s) n x.
Proof.
  intros Hi. pose proof (sp_build_ok skip g src) as Hb. induction l as [|n l IH]; intros Hl g0.
  { exists []. split; [done|]. intros x. split; [by intros ?%elem_of_nil|by intros (n & ?%elem_of_nil & _)]. }
  cbn [foldl]. assert (Hone : exists T, add_target true g src dst L (sp_store s) (length F) (Ret g0) n = Ret (add_edges true g0 T) /\
    forall x, x ∈ T <-> adds (sp_store s) n x).
  { assert (HnF : n ∈ F) by (apply Hl; left). unfold add_target. cbn [mbind outcome_bind]. fold (D (sp_store s) n).
    destruct (si_fin _ _ _ _ _ Hi n HnF) as (d & Hd & _). rewrite Hd. destruct (g_find g (n, dst)) as [e|] eqn:He.
    2: { exists []. split; [done|]. intros x. split; [by intros ?%elem_of_nil|]. intros (e & ? & ? & ? & _). congruence. }
    destruct (Z.ltb_spec L (dg_cost e + d)) as [Hlt|Hle].
    { exists []. split; [done|]. intros x. split; [by intros ?%elem_of_nil|]. intros (e' & d' & ? & ? & ? & ? & _). assert (e' = e) by congruence. assert (d' = d) by congruence. subst. lia. }
    apply list_elem_of_split in HnF as (F1 & F2 & HF).
    destruct (path_back_ok _ _ _ (bo_nodup _ _ _ _ Hb) (bo_src _ _ _ _ Hb) (run_A_V g skip src g_nodup) (run_A_cost g skip src g_nodup g_cost) s F Hi (length F) F1 n F2 (Graph_add_edge true g0 n dst (dg_cost e) (dg_index e)) HF) as (ch & Hch & Hrun).
    { rewrite HF, length_app. cbn. lia. }
    exists (((n, dst), e) :: ch). split; [exact Hrun|]. intros x. split.
    - intros Hx. by exists e, d, ch.
    - intros (e' & d' & ch' & He' & Hd' & _ & Hch' & Hx). assert (e' = e) by congruence. subst e'. by rewrite (chain_unique _ _ _ _ _ _ Hch Hch'). }
  destruct Hone as (T1 & -> & HT1). destruct (IH (fun m Hm => Hl m (list_elem_of_further _ _ _ Hm)) (add_edges true g0 T1)) as (T2 & -> & HT2).
  exists (T1 ++ T2). split; [unfold add_edges; by rewrite foldl_app|]. intros x. rewrite elem_of_app, HT1, HT2. split.
  - intros [?|(m & ? & ?)]; [exists n; split; [left|done]|exists m; split; [by right|done]].
  - intros (m & [->|Hm]%elem_of_cons & ?); [by left|right; by exists m].
Qed.

(** A chain is a walk from the source, and passes every edge on it. *)
Lemma chain_walk s F g' n l d : sp_inv (run_V g skip src) A src s F -> chain A src (sp_store s) n l -> D (sp_store s) n = Some d ->
  (forall k e, (k, e) ∈ l -> g_find g' k = Some e) ->
  dwalk g' dst src n d /\
  forall a b e, ((a, b), e) ∈ l -> exists c1 c2, dwalk g' dst src a c1 /\ dwalk g' dst b n c2 /\ d = c1 + dg_cost e + c2.
Proof.
  intros Hi Hch. revert d. induction Hch as [|n p e l Hn Hp He Hpd HA Hch IH]; intros d Hd Hg.
  { rewrite (si_src _ _ _ _ _ Hi) in Hd. injection Hd as <-. split; [constructor|]. intros a b e H. by apply elem_of_nil in H. }
  destruct (si_prev _ _ _ _ _ Hi n d Hn Hd) as (p' & e' & dp & Hp' & He' & _ & _ & _ & Hdp & ->).
  assert (p' = p) by congruence. assert (e' = e) by congruence. subst p' e'.
  destruct (IH dp Hdp (fun k x H => Hg k x (list_elem_of_further _ _ _ H))) as [Hw Hall].
  assert (Hpn : g_find g' (p, n) = Some e) by (apply Hg; left). apply run_A_spec in HA as [_ [Hpd' Hnd]%skip_spec]; [|done].
  split; [by eapply dwalk_step|]. intros a b x [[= -> -> ->]|Hin]%elem_of_cons.
  - exists dp, 0. split; [done|]. split; [constructor|lia].
  - destruct (Hall a b x Hin) as (c1 & c2 & H1 & H2 & ->). exists c1, (c2 + dg_cost e). split; [done|]. split; [by eapply dwalk_step|lia].
Qed.

(** The edges of the result. *)
Lemma dest_tree_run : exists s F g', Destination_Problem_Shortest_Path_Tree true g src dst L = Ret g' /\
  sp_inv (run_V g skip src) A src s F /\ (forall v, v ∈ sp_nodes s -> D (sp_store s) v = None) /\ NoDup (Edges g').*1 /\ loop_free g' /\
  forall k e, g_find g' k = Some e <-> exists n, n ∈ F /\ adds (sp_store s) n (k, e).
Proof.
  unfold Destination_Problem_Shortest_Path_Tree. pose proof (sp_build_ok skip g src) as Hb.
  destruct (sp_run_ok g skip src g_nodup g_cost None) as (s & F & found & Hrun & Hi & Hend). fold skip. rewrite Hrun. cbn [mbind outcome_bind].
  destruct found; [by destruct Hend as (m & ? & ? & _)|]. destruct Hend as [Hopen _].
  assert (HnF : NoDup F) by (pose proof (si_nodup _ _ _ (bo_nodup _ _ _ _ Hb) _ _ Hi) as Hnd; by apply NoDup_app in Hnd as (_ & _ & ?)).
  pose proof (fin_iter_perm F HnF) as Hperm.
  destruct (add_targets_ok s F (fin_iter F) Hi) with (g0 := Graph_add_node Graph_Init src) as (T & -> & HT); [intros n; by rewrite Hperm|].
  set (g' := add_edges true (Graph_add_node Graph_Init src) T). exists s, F, g'.
  assert (Hlf : loop_free g') by (apply add_edges_loop_free; intros a; unfold g_find; by rewrite Graph_add_node_edges).
  assert (HnT : NoDup (Edges g').*1) by (apply add_edges_nodup; rewrite Graph_add_node_edges; apply NoDup_nil_2).
  assert (Hcons : forall k e, (k, e) ∈ T -> g_find g k = Some e).
  { intros k e (n & _ & e' & d & l & He' & _ & _ & Hch & [[= -> ->]|Hin]%elem_of_cons)%HT; [done|]. destruct k as [a b].
    by apply (chain_edges _ _ _ _ _ _ _ _ Hch), run_A_spec in Hin as [? _]. }
  split_and!; try done. intros [a b] e. transitivity (((a, b), e) ∈ T); [|rewrite HT; by setoid_rewrite Hperm].
  destruct (decide (a = b)) as [->|Hab].
  - rewrite (Hlf b). split; [done|]. intros H%Hcons. by rewrite (g_loops b) in H.
  - unfold g'. rewrite g_find_add_edges by done. unfold g_find at 1. rewrite Graph_add_node_edges. cbn.
    by apply (assoc_consistent _ _ _ (g_find g)).
Qed.

Section result.
Context (s : sp_state) (F : list Z) (Hi : sp_inv (run_V g skip src) A src s F) (Hopen : forall v, v ∈ sp_nodes s -> D (sp_store s) v = None).

Lemma fin_least v : (forall d, D (sp_store s) v = Some d <-> least_walk g dst src v d) /\ (v ∈ F <-> exists c, dwalk g dst src v c).
Proof.
  pose proof (sp_build_ok skip g src) as Hb.
  destruct (sp_done _ _ _ (bo_src _ _ _ _ Hb) (run_A_V g skip src g_nodup) (run_A_cost g skip src g_nodup g_cost) s F v Hi Hopen) as [H1 H2].
  unfold least_walk. setoid_rewrite <- reach_walk. done.
Qed.

Lemma target_spec n : target g src dst L n <-> exists e d, g_find g (n, dst) = Some e /\ n ∈ F /\ D (sp_store s) n = Some d /\ dg_cost e + d <= L.
Proof.
  destruct (fin_least n) as [HD HF]. split.
  - intros (e & c & He & Hw & Hle). assert (HnF : n ∈ F) by (apply HF; by exists c).
    destruct (si_fin _ _ _ _ _ Hi n HnF) as (d & Hd & _). exists e, d. split_and!; try done.
    pose proof (proj2 (proj1 (HD d) Hd) c Hw). lia.
  - intros (e & d & He & _ & Hd & Hle). exists e, d. split; [done|]. split; [|done]. by apply HD.
Qed.

Lemma fin_chain n : n ∈ F -> exists l, chain A src (sp_store s) n l.
Proof.
  pose proof (sp_build_ok skip g src) as Hb. intros (F1 & F2 & HF)%list_elem_of_split.
  destruct (path_back_ok _ _ _ (bo_nodup _ _ _ _ Hb) (bo_src _ _ _ _ Hb) (run_A_V g skip src g_nodup) (run_A_cost g skip src g_nodup g_cost) s F Hi
              (length F2) F1 n F2 Graph_Init HF ltac:(lia)) as (l & Hch & _). by exists l.
Qed.

Lemma edges_dest_graph g' : (forall k e, g_find g' k = Some e <-> exists n, n ∈ F /\ adds (sp_store s) n (k, e)) -> dest_graph g src dst L g'.
Proof.
  intros Hfind. assert (Hsub : forall n e d l, n ∈ F -> g_find g (n, dst) = Some e -> D (sp_store s) n = Some d -> dg_cost e + d <= L ->
    chain A src (sp_store s) n l -> forall k x, (k, x) ∈ ((n, dst), e) :: l -> g_find g' k = Some x).
  { intros n e d l Hn He Hd Hle Hch k x Hx. apply Hfind. exists n. split; [done|]. by exists e, d, l. }
  split.
  - intros [a b] e (n & _ & e' & d & l & He' & _ & _ & Hch & [[= -> -> ->]|Hin]%elem_of_cons)%Hfind; [done|].
    by apply (chain_edges _ _ _ _ _ _ _ _ Hch), run_A_spec in Hin as [? _].
  - intros n. rewrite target_spec. split.
    + intros [e (m & Hm & e' & d & l & He' & Hd & Hle & Hch & [[= -> ->]|Hx]%elem_of_cons)%Hfind]; [by exists e', d|].
      apply (chain_edges _ _ _ _ _ _ _ _ Hch), run_A_spec in Hx as [_ [_ Hx]%skip_spec]; done.
    + intros (e & d & He & Hm & Hd & Hle). destruct (fin_chain n Hm) as [l Hch]. exists e. eapply Hsub; try done. left.
  - intros n (e & d & He & Hm & Hd & Hle)%target_spec. destruct (fin_chain n Hm) as [l Hch]. exists d.
    split; [|by apply (fin_least n)]. apply (chain_walk s F g' n l d Hi Hch Hd). intros k x Hx. eapply Hsub; try done. by right.
  - intros a b x (n & Hm & e & d & l & He & Hd & Hle & Hch & [[= -> -> ->]|Hx]%elem_of_cons)%Hfind Hb'; [done|].
    destruct (chain_walk s F g' n l d Hi Hch Hd) as [_ Hall]; [intros k y Hy; eapply Hsub; try done; by right|].
    destruct (Hall a b x Hx) as (c1 & c2 & H1 & H2 & ->). exists n, c1, c2. split; [apply target_spec; by exists e, (c1 + dg_cost x + c2)|].
    split_and!; try done. by apply (fin_least n).
Qed.
End result.

Lemma dest_tree_ok : exists g', Destination_Problem_Shortest_Path_Tree true g src dst L = Ret g' /\
  dest_graph g src dst L g' /\ NoDup (Edges g').*1 /\ loop_free g'.
Proof.
  destruct dest_tree_run as (s & F & g' & Hrun & Hi & Hopen & Hn & Hl & Hfind). exists g'. split; [done|]. split; [|done].
  by apply (edges_dest_graph s F).
Qed.

(** No graph when no neighbour of the destination is near enough. *)
Lemma dest_problem_ok : exists r, Destination_Problem_Graph true g src dst L = Ret r /\
  match r with
  | Some g' => dest_graph g src dst L g' /\ NoDup (Edges g').*1 /\ loop_free g' /\ exists n, target g src dst L n
  | None => forall n, ~ target g src dst L n
  end.
Proof.
  destruct dest_tree_ok as (g' & Hrun & Hg & Hn & Hl). unfold Destination_Problem_Graph. rewrite Hrun. cbn [mbind outcome_bind].
  eexists. split; [done|]. destruct (Edges g') as [|[[a b] e] l] eqn:He; cbn.
  - intros n Ht. apply (dg_into _ _ _ _ _ Hg) in Ht as [e Hf]. unfold g_find in Hf. by rewrite He in Hf.
  - split; [done|]. rewrite <- He in Hn. split; [by rewrite He in *|]. split; [done|].
    assert (Hf : g_find g' (a, b) = Some e) by (apply g_find_elem; [done|rewrite He; left]).
    destruct (decide (b = dst)) as [->|Hb]; [exists a; apply (dg_into _ _ _ _ _ Hg); by eexists|].
    destruct (dg_only _ _ _ _ _ Hg a b e Hf Hb) as (n & _ & _ & Ht & _). by exists n.
Qed.
End dest.
