(* ===== verification/DissemMask.v ===== *)
(** * DissemMask: source problems and masks

    The source-problem graph is the destination-problem graph of the reversed
    network; a mask holds the indexes of the edges of a graph; the list of edges
    of a mask. *)
From stdpp Require Import base list gmap numbers option sets.
From Stdlib Require Import ZArith Lia.
From S2P Require Import Prelude HashMap NetTypes SklList MultiPath MultiPathProof MultiPathFlow MultiPathNet MultiPathProps Dissem DissemState DissemGraph DissemPath.
#[local] Open Scope Z_scope.

(** ** Reversed graphs *)
Definition reversed (g g' : Graph) : Prop := forall a b, g_find g' (a, b) = g_find g (b, a).

Lemma assoc_flip a b l : assoc (a, b) (flip <$> l) = assoc (b, a) l.
Proof.
  induction l as [|[[x y] e] l IH]; [done|]. rewrite fmap_cons, !assoc_cons, IH. cbn.
  destruct (decide ((a, b) = (y, x))), (decide ((b, a) = (x, y))); congruence.
Qed.

Lemma flip_reversed g : loop_free g -> reversed g (add_edges true Graph_Init (flip <$> Edges g)).
Proof.
  intros Hl a b. destruct (decide (a = b)) as [->|Hab].
  - rewrite (Hl b). apply add_edges_loop_free. done.
  - rewrite g_find_add_edges by done. cbn. apply assoc_flip.
Qed.

Lemma Graph_Init_nodup : NoDup (Edges Graph_Init).*1.
Proof. apply NoDup_nil_2. Qed.

(** What a source-problem graph is: a destination-problem graph of the reversed
    network, reversed. *)
Definition source_graph (g : Graph) (src dst max_latency : Z) (g' : Graph) : Prop :=
  exists r r', reversed g r /\ reversed g' r' /\ dest_graph r dst src max_latency r'.
Definition source_target (g : Graph) (src dst max_latency n : Z) : Prop :=
  exists r, reversed g r /\ target r dst src max_latency n.

Lemma dwalk_reversed r r' avoid a v c : (forall k, g_find r k = g_find r' k) -> dwalk r avoid a v c -> dwalk r' avoid a v c.
Proof. intros H. induction 1 as [|u v e c Hw IH He Hu Hv]; [constructor|]. eapply dwalk_step; [done| |done|done]. by rewrite <- H. Qed.

Lemma target_reversed r r' src dst L n : (forall k, g_find r k = g_find r' k) -> target r src dst L n -> target r' src dst L n.
Proof. intros H (e & c & He & Hw & Hle). exists e, c. rewrite <- H. split; [done|]. split; [by eapply dwalk_reversed|done]. Qed.

Section source.
Context `{HO : HashOrder} (g : Graph) (src dst L : Z).
Context (g_nodup : NoDup (Edges g).*1) (g_cost : forall k e, g_find g k = Some e -> 0 <= dg_cost e) (g_loops : loop_free g).

Lemma source_problem_ok : exists r, Source_Problem_Graph true g src dst L = Ret r /\
  match r with
  | Some g' => source_graph g src dst L g' /\ NoDup (Edges g').*1 /\ loop_free g' /\ exists n, source_target g src dst L n
  | None => forall n, ~ source_target g src dst L n
  end.
Proof.
  unfold Source_Problem_Graph. cbn [negb]. set (r := add_edges true Graph_Init (flip <$> Edges g)).
  assert (Hr : reversed g r) by by apply flip_reversed. assert (Hrl : loop_free r) by (apply add_edges_loop_free; done).
  destruct (dest_problem_ok r dst src L) as (o & -> & Ho); [apply add_edges_nodup, Graph_Init_nodup| |done|].
  { intros [a b] e. rewrite Hr. apply g_cost. }
  cbn [mbind outcome_bind]. eexists. split; [done|]. destruct o as [r'|].
  - destruct Ho as (Hg & Hn & Hl & n & Ht). pose proof (flip_reversed r' Hl) as Hr'.
    split; [exists r, r'; split; [done|]; split; [|done]; intros a b; by rewrite Hr'|].
    split; [apply add_edges_nodup, Graph_Init_nodup|]. split; [apply add_edges_loop_free; done|]. exists n, r. done.
  - intros n (r2 & Hr2 & Ht). apply (Ho n). eapply target_reversed; [|exact Ht]. intros [a b]. by rewrite Hr2, Hr.
Qed.
End source.

(** ** Masks *)
Section masks.
Context (size : nat).
Definition index_ok (i : Z) : Prop := 0 <= i < 8 * Z.of_nat size.

Lemma set_indexes_ok (l : list (Edge_Key * DG_Edge)) m : (forall x, x ∈ l -> index_ok (dg_index x.2)) -> length m = size ->
  exists m', foldl (fun m x => m ← m; set_index m (dg_index x.2)) (Ret m) l = Ret m' /\ length m' = size /\
    forall i, 0 <= i -> has_link m' i = true <-> has_link m i = true \/ exists x, x ∈ l /\ dg_index x.2 = i.
Proof.
  revert m. induction l as [|x l IH]; intros m Hl Hm.
  - exists m. split; [done|]. split; [done|]. intros i Hi. split; [by left|]. intros [?|(x & ?%elem_of_nil & _)]; done.
  - cbn [foldl mbind outcome_bind]. destruct (set_index_ok size m (dg_index x.2) Hm (Hl x (list_elem_of_here _ _))) as (m1 & -> & Hm1 & Hb1).
    destruct (IH m1) as (m' & Hrun & Hm' & Hb'); [intros y Hy; apply Hl; by right|done|]. exists m'. split; [exact Hrun|]. split; [done|].
    intros i Hi. rewrite Hb', Hb1, orb_true_iff, Z.eqb_eq by done. split.
    + intros [[?| ->]|(y & ? & ?)]; [by left|right; exists x; split; [left|done]|right; exists y; split; [by right|done]].
    + intros [?|(y & [->|Hy]%elem_of_cons & <-)]; [by left; left|left; by right|right; by exists y].
Qed.

(** The mask of a graph; without a graph, of none. *)
Lemma Graph_to_Bitmask_ok og : (forall g k e, og = Some g -> g_find g k = Some e -> index_ok (dg_index e)) ->
  (forall g, og = Some g -> NoDup (Edges g).*1) ->
  exists m, Graph_to_Bitmask size og = Ret m /\ length m = size /\
    forall i, 0 <= i -> has_link m i = true <-> exists g k e, og = Some g /\ g_find g k = Some e /\ dg_index e = i.
Proof.
  intros Hi Hn. destruct og as [g|]; cbn [Graph_to_Bitmask].
  - specialize (Hn g eq_refl). destruct (set_indexes_ok (Edges g) (empty_mask size)) as (m & -> & Hm & Hb); [|apply repeat_length|].
    { intros [k e] Hx. apply (Hi g k e eq_refl). by apply g_find_elem. }
    exists m. split; [done|]. split; [done|]. intros i Hpos. rewrite Hb, empty_mask_has by done. split.
    + intros [?|([k e] & Hx & <-)]; [done|]. exists g, k, e. by apply g_find_elem in Hx.
    + intros (g' & k & e & [= <-] & Hf & <-). right. exists (k, e). split; [by apply g_find_elem|done].
  - exists (empty_mask size). split; [done|]. split; [apply repeat_length|]. intros i _. rewrite empty_mask_has. split; [done|].
    by intros (g & k & e & ? & _).
Qed.

Lemma both_mask_ok sg dg : (forall g k e, sg = Some g \/ dg = Some g -> g_find g k = Some e -> index_ok (dg_index e)) ->
  (forall g, sg = Some g \/ dg = Some g -> NoDup (Edges g).*1 /\ loop_free g) ->
  exists m, Source_Destination_Problem_Bitmask_from_SDP_Graphs true size sg dg = Ret m /\ length m = size /\
    forall i, 0 <= i -> has_link m i = true <-> is_Some sg /\ is_Some dg /\
      exists g k e, (sg = Some g \/ dg = Some g) /\ g_find g k = Some e /\
        (forall g', sg = Some g' -> is_Some (g_find g' k) -> g_find g' k = Some e) /\ dg_index e = i.
Proof.
  intros Hi Hn. assert (Hnone : exists m, Graph_to_Bitmask size None = Ret m /\ length m = size /\ forall i, 0 <= i -> has_link m i = false).
  { exists (empty_mask size). split; [done|]. split; [apply repeat_length|]. intros; apply empty_mask_has. }
  destruct Hnone as (m0 & Hrun0 & Hm0 & Hb0).
  destruct sg as [s|]; [destruct dg as [d|]|]; cbn [Source_Destination_Problem_Bitmask_from_SDP_Graphs].
  2,3: exists m0; split; [done|]; split; [done|]; intros i Hpos; rewrite Hb0 by done; split; [done|]; intros ([? ?] & [? ?] & _); done.
  destruct (Hn s) as [Hns Hls]; [by left|]. destruct (Hn d) as [Hnd Hld]; [by right|].
  set (u := add_edges true (add_edges true Graph_Init (Edges s)) (Edges d)).
  assert (Hu : forall k, g_find u k = match g_find s k with Some e => Some e | None => g_find d k end).
  { intros [a b]. destruct (decide (a = b)) as [->|Hab].
    - rewrite (Hls b), (Hld b). apply add_edges_loop_free, add_edges_loop_free. done.
    - unfold u. rewrite !g_find_add_edges by done. cbn. done. }
  destruct (Graph_to_Bitmask_ok (Some u)) as (m & Hrun & Hm & Hb).
  - intros g k e [= <-]. rewrite Hu. destruct (g_find s k) as [x|] eqn:Hs; [intros [= <-]; by apply (Hi s k); [left|]|intros Hd; by apply (Hi d k); [right|]].
  - intros g [= <-]. apply add_edges_nodup, add_edges_nodup, Graph_Init_nodup.
  - exists m. split; [done|]. split; [done|]. intros i Hpos. rewrite Hb by done. split.
    + intros (g & k & e & [= <-] & Hf & <-). split; [done|]. split; [done|]. rewrite Hu in Hf. destruct (g_find s k) as [x|] eqn:Hs.
      * injection Hf as ->. exists s, k, e. split_and!; [by left|done| |done]. intros g' [= <-] _. done.
      * exists d, k, e. split_and!; [by right|done| |done]. intros g' [= <-]. rewrite Hs. by intros [? ?].
    + intros (_ & _ & g & k & e & Hg & Hf & Huniq & <-). exists u, k, e. split; [done|]. split; [|done]. rewrite Hu.
      destruct (g_find s k) as [x|] eqn:Hs; [rewrite <- Hs; apply Huniq; [done|by rewrite Hs]|]. destruct Hg as [[= <-]|[= <-]]; [congruence|done].
Qed.

(** ** The test of a bit *)
Context (size8 : (8 | size)%nat).

Lemma dg_words_all m : length m = size -> words size m = m.
Proof.
  intros Hm. unfold words. destruct size8 as [q Hq]. apply take_ge. rewrite Hm, Hq, Nat.div_mul by lia. lia.
Qed.

Lemma mask_bit_land b i : Z.land b (mask_bit i) = 0 <-> Z.testbit b (7 - i mod 8) = false.
Proof.
  pose proof (Z.mod_pos_bound i 8 ltac:(lia)). split.
  - intros H0. assert (Hb : Z.testbit (Z.land b (mask_bit i)) (7 - i mod 8) = false) by (rewrite H0; apply Z.bits_0).
    rewrite Z.land_spec, mask_bit_testbit, Z.eqb_refl, andb_true_r in Hb by lia. done.
  - intros Hb. apply Z.bits_inj'. intros j Hj. rewrite Z.land_spec, mask_bit_testbit, Z.bits_0 by done.
    destruct (Z.eqb_spec j (7 - i mod 8)) as [->|]; [by rewrite Hb|apply andb_false_r].
Qed.

Lemma land_at (m : list Z) n b : forallb (Z.eqb 0) (zip_with Z.land m (<[n := b]> (repeat 0 (length m)))) = (Z.land (default 0 (m !! n)) b =? 0).
Proof.
  revert n. induction m as [|x m IH]; intros n; [cbn; by rewrite Z.land_0_l|].
  assert (Hz : forall m, forallb (Z.eqb 0) (zip_with Z.land m (repeat 0 (length m))) = true).
  { clear. intros m. induction m as [|y m IH]; [done|]. cbn. by rewrite Z.land_0_r. }
  destruct n as [|n]; cbn [length repeat insert list_insert zip_with forallb lookup list_lookup default from_option].
  - rewrite Hz, andb_true_r. apply Z.eqb_sym.
  - rewrite Z.land_0_r. cbn. apply IH.
Qed.

Lemma DG_Edge_In_Graph_ok i m : index_ok i -> length m = size -> DG_Edge_In_Graph size i (Some m) = Ret (has_link m i).
Proof.
  intros [Hi1 Hi2] Hm. assert (Hlt : (Z.to_nat (i / 8) < size)%nat).
  { assert (i / 8 < Z.of_nat size) by (apply Z.div_lt_upper_bound; lia). pose proof (Z.div_pos i 8). lia. }
  unfold DG_Edge_In_Graph, neighbor_mask. rewrite decide_True by done. cbn [mbind outcome_bind or_else]. do 2 f_equal.
  rewrite dg_words_all by done. unfold empty_mask. rewrite dg_words_all by (by rewrite length_insert, repeat_length). rewrite <- Hm, land_at.
  unfold has_link. apply eq_true_iff_eq. rewrite negb_true_iff, Z.eqb_neq, mask_bit_land, not_false_iff_true. done.
Qed.

(** An index past the end of the mask is a write outside it. *)
Lemma DG_Edge_In_Graph_fault i m : 8 * Z.of_nat size <= i -> DG_Edge_In_Graph size i m = Fault.
Proof.
  intros Hi. unfold DG_Edge_In_Graph, neighbor_mask. rewrite decide_False; [done|]. assert (Z.of_nat size <= i / 8) by (apply Z.div_le_lower_bound; lia). lia.
Qed.

(** The edges of a mask. *)
Lemma mask_edges_ok edges m : (forall x, x ∈ edges -> index_ok (dg_index x.2)) -> length m = size ->
  exists l, mask_edges size edges m = Ret l /\
    forall k i, (k, i) ∈ l <-> exists e, (k, e) ∈ edges /\ dg_index e = i /\ has_link m i = true.
Proof.
  intros Hi Hm. unfold mask_edges. induction edges as [|[k0 e0] edges IH] using rev_ind.
  { exists []. split; [done|]. intros k i. split; [by intros ?%elem_of_nil|by intros (e & ?%elem_of_nil & _)]. }
  destruct IH as (l & Hrun & Hl); [intros x Hx; apply Hi; set_solver|]. rewrite foldl_app, Hrun. cbn [foldl mbind outcome_bind fst snd].
  rewrite DG_Edge_In_Graph_ok by (try done; apply (Hi (k0, e0)); set_solver). cbn [mbind outcome_bind]. eexists. split; [done|].
  intros k i. transitivity ((k, i) ∈ l \/ k = k0 /\ i = dg_index e0 /\ has_link m i = true).
  - destruct (has_link m (dg_index e0)) eqn:Hh.
    + unfold key_insert. rewrite skl_insert_perm, elem_of_cons. split; [intros [[= -> ->]|?]; tauto|]. intros [?|(-> & -> & _)]; tauto.
    + split; [by left|]. intros [?|(-> & -> & ?)]; [done|congruence].
  - rewrite Hl. split.
    + intros [(e & He & ? & ?)|(-> & -> & ?)]; [exists e|exists e0]; (split; [set_solver|done]).
    + intros (e & [He|[= -> ->]%list_elem_of_singleton]%elem_of_app & <- & ?); [left; by exists e|by right].
Qed.
End masks.

(** ** The other searches *)
Section shortest.
Context `{HO : HashOrder} (g : Graph) (src : Z).
Context (g_nodup : NoDup (Edges g).*1) (g_cost : forall k e, g_find g k = Some e -> 0 <= dg_cost e).

(** Walks over all edges. *)
Inductive gwalk (a : Z) : Z -> Z -> Prop :=
| gwalk_nil : gwalk a a 0
| gwalk_step u v e c : gwalk a u c -> g_find g (u, v) = Some e -> gwalk a v (c + dg_cost e).

Lemma reach_gwalk v c : reach (run_A g (fun _ => false) src) src v c <-> gwalk src v c.
Proof.
  split; induction 1 as [|u v e c H IH He]; try (by constructor).
  - apply run_A_spec in He as [He _]; [|done]. by eapply gwalk_step.
  - eapply reach_step; [done|]. by apply run_A_spec.
Qed.

Lemma Shortest_Path_ok dst : exists r, Shortest_Path true (Some g) src dst = Ret r /\
  match r with
  | Some c => gwalk src dst c /\ forall c', gwalk src dst c' -> c <= c'
  | None => forall c, ~ gwalk src dst c
  end.
Proof.
  unfold Shortest_Path. pose proof (sp_build_ok (fun _ => false) g src) as Hb.
  destruct (sp_run_ok g (fun _ => false) src g_nodup g_cost (Some dst)) as (s & F & found & Hrun & Hi & Hend). rewrite Hrun. cbn [mbind outcome_bind].
  eexists. split; [done|].
  pose proof (fun v c => sp_inv_lower _ _ _ (run_A_V g _ src g_nodup) (run_A_cost g _ src g_nodup g_cost) s F v c Hi) as Hlow.
  destruct found.
  - destruct Hend as (m & dm & [= <-] & Hm & Hd & Hmin). fold (D (sp_store s) dst). rewrite Hd. split; [apply reach_gwalk; by apply (si_reach _ _ _ _ _ Hi)|].
    intros c' Hc'%reach_gwalk. destruct (proj2 (Hlow dst c' Hc') Hm) as (u & du & Hu & Hdu & Hle). specialize (Hmin u du Hu Hdu). lia.
  - destruct Hend as [Hopen HF]. intros c Hc%reach_gwalk.
    destruct (reach_bounds _ _ _ (bo_src _ _ _ _ Hb) (run_A_V g _ src g_nodup) (run_A_cost g _ src g_nodup g_cost) dst c Hc) as [HV _].
    rewrite <- (si_part _ _ _ _ _ Hi), elem_of_app in HV. destruct HV as [HV|HV]; [|by apply (HF dst)].
    destruct (proj2 (Hlow dst c Hc) HV) as (u & du & Hu & Hdu & _). by rewrite Hopen in Hdu.
Qed.
End shortest.

(** The tree has a shortest walk to every node that can be reached. *)
Section tree.
Context `{HO : HashOrder} (g : Graph) (src : Z).
Context (g_nodup : NoDup (Edges g).*1) (g_cost : forall k e, g_find g k = Some e -> 0 <= dg_cost e) (g_loops : loop_free g).
Let A := run_A g (fun _ => false) src.
Let V := run_V g (fun _ => false) src.

Lemma chain_gwalk s F g' n l d : sp_inv V A src s F -> chain A src (sp_store s) n l -> D (sp_store s) n = Some d ->
  (forall k e, (k, e) ∈ l -> g_find g' k = Some e) -> gwalk g' src n d.
Proof.
  intros Hi Hch. revert d. induction Hch as [|n p e l Hn Hp He Hpd HA Hch IH]; intros d Hd Hg.
  { rewrite (si_src _ _ _ _ _ Hi) in Hd. injection Hd as <-. constructor. }
  destruct (si_prev _ _ _ _ _ Hi n d Hn Hd) as (p' & e' & dp & Hp' & He' & _ & _ & _ & Hdp & ->).
  assert (p' = p) by congruence. assert (e' = e) by congruence. subst p' e'.
  eapply gwalk_step; [apply IH; [done|intros; apply Hg; by right]|apply Hg; left].
Qed.

Lemma back_all_ok s F l : sp_inv V A src s F -> (forall n, n ∈ l -> n ∈ F) -> forall g0,
  exists T, foldl (fun r n => g ← r; path_back true (length F) (sp_store s) src n g) (Ret g0) l = Ret (add_edges true g0 T) /\
    (forall x, x ∈ T -> exists n ch, n ∈ l /\ chain A src (sp_store s) n ch /\ x ∈ ch) /\
    (forall n, n ∈ l -> exists ch, chain A src (sp_store s) n ch /\ forall x, x ∈ ch -> x ∈ T).
Proof.
  intros Hi. pose proof (sp_build_ok (fun _ => false) g src) as Hb. induction l as [|n l IH]; intros Hl g0.
  { exists []. split; [done|]. split; [intros x H; by apply elem_of_nil in H|intros n H; by apply elem_of_nil in H]. }
  cbn [foldl mbind outcome_bind]. assert (HnF : n ∈ F) by (apply Hl; left). apply list_elem_of_split in HnF as (F1 & F2 & HF).
  destruct (path_back_ok _ _ _ (bo_nodup _ _ _ _ Hb) (bo_src _ _ _ _ Hb) (run_A_V g _ src g_nodup) (run_A_cost g _ src g_nodup g_cost) s F Hi
              (length F) F1 n F2 g0 HF) as (ch & Hch & Hrun); [rewrite HF, length_app; cbn; lia|]. rewrite Hrun.
  destruct (IH (fun m Hm => Hl m (list_elem_of_further _ _ _ Hm)) (add_edges true g0 ch)) as (T & -> & HT1 & HT2).
  exists (ch ++ T). split; [unfold add_edges; by rewrite foldl_app|]. split.
  - intros x [Hx|Hx]%elem_of_app; [exists n, ch; split; [left|done]|]. destruct (HT1 x Hx) as (m & ch' & Hm & ?). exists m, ch'. split; [by right|done].
  - intros m [->|Hm]%elem_of_cons; [exists ch; split; [done|]; intros x Hx; apply elem_of_app; by left|].
    destruct (HT2 m Hm) as (ch' & Hch' & Hsub). exists ch'. split; [done|]. intros x Hx. apply elem_of_app. right. by apply Hsub.
Qed.

Lemma Shortest_Path_Tree_ok : exists g', Shortest_Path_Tree true g src = Ret g' /\
  (forall k e, g_find g' k = Some e -> g_find g k = Some e) /\
  forall v c, gwalk g src v c -> exists c', gwalk g' src v c' /\ forall c'', gwalk g src v c'' -> c' <= c''.
Proof.
  unfold Shortest_Path_Tree. pose proof (sp_build_ok (fun _ => false) g src) as Hb.
  destruct (sp_run_ok g (fun _ => false) src g_nodup g_cost None) as (s & F & found & Hrun & Hi & Hend). rewrite Hrun. cbn [mbind outcome_bind].
  destruct found; [by destruct Hend as (m & ? & ? & _)|]. destruct Hend as [Hopen _].
  assert (HnF : NoDup F) by (pose proof (si_nodup _ _ _ (bo_nodup _ _ _ _ Hb) _ _ Hi) as Hnd; by apply NoDup_app in Hnd as (_ & _ & ?)).
  pose proof (fin_iter_perm F HnF) as Hperm.
  destruct (back_all_ok s F (fin_iter F) Hi) with (g0 := Graph_add_node Graph_Init src) as (T & -> & HT1 & HT2); [intros n; by rewrite Hperm|].
  eexists. split; [done|]. set (g' := add_edges true (Graph_add_node Graph_Init src) T).
  assert (Hcons : forall k e, (k, e) ∈ T -> g_find g k = Some e).
  { intros [a b] e (n & ch & _ & Hch & Hx)%HT1. by apply (chain_edges _ _ _ _ _ _ _ _ Hch), run_A_spec in Hx as [? _]. }
  assert (Hfind : forall k e, (k, e) ∈ T -> g_find g' k = Some e).
  { intros [a b] e Hin. destruct (decide (a = b)) as [->|Hab]; [apply Hcons in Hin; by rewrite (g_loops b) in Hin|].
    unfold g'. rewrite g_find_add_edges by done. unfold g_find at 1. rewrite Graph_add_node_edges. cbn. by apply (assoc_consistent _ _ _ (g_find g)). }
  split.
  - intros [a b] e He. apply Hcons. destruct (decide (a = b)) as [->|Hab].
    { exfalso. unfold g' in He. rewrite add_edges_loop_free in He; [done|]. intros x. unfold g_find. by rewrite Graph_add_node_edges. }
    unfold g' in He. rewrite g_find_add_edges in He by done. unfold g_find at 1 in He. rewrite Graph_add_node_edges in He. cbn in He. by apply assoc_elem.
  - intros v c Hw%reach_gwalk; [|done].
    destruct (sp_done _ _ _ (bo_src _ _ _ _ Hb) (run_A_V g _ src g_nodup) (run_A_cost g _ src g_nodup g_cost) s F v Hi Hopen) as [HD HF].
    assert (Hv : v ∈ F) by (apply HF; by exists c). destruct (si_fin _ _ _ _ _ Hi v Hv) as (d & Hd & _). exists d. split.
    + destruct (HT2 v) as (ch & Hch & Hsub); [by rewrite Hperm|]. eapply chain_gwalk; try done. intros k e Hk. by apply Hfind, Hsub.
    + intros c'' Hc''%reach_gwalk; [|done]. by apply (proj1 (HD d) Hd).
Qed.
End tree.
