(* ===== verification/DissemCompute.v ===== *)
(** * DissemCompute: the graphs of every destination

    [DG_Compute_Graphs] ends, gives every configured destination its masks, and
    leaves the state of an empty set of problems. *)
From stdpp Require Import base list gmap numbers option sets.
From Stdlib Require Import ZArith Lia.
From S2P Require Import Prelude HashMap NetTypes SklList MultiPath MultiPathProof MultiPathFlow MultiPathNet MultiPathProps.
From S2P Require Import Dissem DissemState DissemUpdate DissemGraph DissemPath DissemMask.
#[local] Open Scope Z_scope.

(** The links of the flow network. *)
Definition dg_links (cfg : dg_conf) : list (Z * Z * Z) := (fun x : Edge_Key * DG_Edge => (x.1.1, x.1.2, dg_index x.2)) <$> Sorted_Edges cfg.

(** A configuration with directed edges: identifiers from 1 to [MAX_NODES], one
    link per pair of nodes, costs that are not negative, masks of whole words
    with a bit for every link. *)
Record dgc_ok (cfg : dg_conf) (edges : edge_table) : Prop := {
  dc_directed : dg_directed cfg = true;
  dc_size : (8 | mp_size (dg_mp cfg))%nat;
  dc_nodes : forall n, n ∈ mp_nodes (dg_mp cfg) -> 1 <= n <= MAX_NODES;
  dc_me : mp_My_ID (dg_mp cfg) ∈ mp_nodes (dg_mp cfg);
  dc_addr : forall a n, Node_Lookup_Addr_to_ID cfg !! a = Some n -> n ∈ mp_nodes (dg_mp cfg);
  dc_keys : NoDup (Sorted_Edges cfg).*1;
  dc_index : forall x, x ∈ Sorted_Edges cfg -> index_ok (mp_size (dg_mp cfg)) (dg_index x.2);
  dc_cost : forall x, x ∈ Sorted_Edges cfg -> 0 <= dg_cost x.2;
  dc_mp : mp_num_nodes (dg_mp cfg) = length (mp_nodes (dg_mp cfg)) /\
          mp_edges (dg_mp cfg) = Init_MultiPath true (mp_nodes (dg_mp cfg)) (dg_links cfg);
  dc_topology : topology_ok true (mp_nodes (dg_mp cfg)) (dg_links cfg) edges true false }.

Section compute.
Context `{HO : HashOrder} (cfg : dg_conf) (edges : edge_table) (Hcfg : dgc_ok cfg edges).
Let size := mp_size (dg_mp cfg).
Let My_ID := mp_My_ID (dg_mp cfg).
Let nodes := mp_nodes (dg_mp cfg).

Definition base_graph : Graph := add_edges true Graph_Init (Sorted_Edges cfg).

Lemma arcs_directed (l : list (Z * Z * Z)) : arcs true l = l.
Proof. unfold arcs. induction l as [|[[a b] i] l IH]; [done|]. cbn in *. by rewrite IH. Qed.

Lemma base_loops : loop_free base_graph.
Proof. by apply add_edges_loop_free. Qed.

Lemma sorted_no_loop k e : (k, e) ∈ Sorted_Edges cfg -> k.1 <> k.2.
Proof.
  intros Hin. destruct k as [a b]. assert (Ha : (a, b, dg_index e) ∈ arcs true (dg_links cfg)).
  { rewrite arcs_directed. unfold dg_links. apply list_elem_of_fmap. by exists ((a, b), e). }
  by apply (to_links _ _ _ _ _ _ (dc_topology _ _ Hcfg)) in Ha as (_ & _ & ?).
Qed.

Lemma base_find k e : g_find base_graph k = Some e <-> (k, e) ∈ Sorted_Edges cfg.
Proof.
  split.
  - destruct k as [a b]. destruct (decide (a = b)) as [->|Hab]; [by rewrite base_loops|].
    unfold base_graph. rewrite g_find_add_edges by done. cbn. apply assoc_elem.
  - intros Hin. unfold base_graph. rewrite g_find_add_edges by (by eapply sorted_no_loop). cbn. apply assoc_nodup; [apply Hcfg|done].
Qed.

Lemma base_nodup : NoDup (Edges base_graph).*1.
Proof. apply add_edges_nodup, Graph_Init_nodup. Qed.

Lemma base_cost k e : g_find base_graph k = Some e -> 0 <= dg_cost e.
Proof. intros H%base_find. by apply (dc_cost _ _ Hcfg) in H. Qed.

Lemma base_index k e : g_find base_graph k = Some e -> index_ok size (dg_index e).
Proof. intros H%base_find. by apply (dc_index _ _ Hcfg) in H. Qed.

(** The disjoint paths. *)
Lemma k2_ok d : d ∈ nodes -> exists n k2, MultiPath_Compute (dg_mp cfg) edges d 2 true false = Ret (n, k2) /\ length k2 = size.
Proof.
  intros Hd. destruct (dg_mp cfg) as [sz num nds es me] eqn:Hmp. destruct (dc_mp _ _ Hcfg) as [Hnum Hes].
  pose proof (dc_me _ _ Hcfg) as Hme. pose proof (dc_topology _ _ Hcfg) as Hto. pose proof (dc_index _ _ Hcfg) as Hix.
  unfold size, nodes in *. rewrite Hmp in *. cbn in *. subst num es. destruct (decide (d = me)) as [->|Hne].
  - unfold MultiPath_Compute. rewrite Z.eqb_refl. eexists _, _. split; [done|]. apply repeat_length.
  - destruct (compute_ok _ _ _ _ _ _ Hto sz me d 2 Hme Hd (not_eq_sym Hne)) as (n & mask & qs & H & _ & _ & _ & Hl & _); [|by exists n, mask].
    intros x y i. rewrite arcs_directed. unfold dg_links. intros ([k e] & [= -> -> ->] & Hin)%list_elem_of_fmap. by apply Hix in Hin.
Qed.

(** The mask that marks the edges of a graph, or the disjoint paths when there
    is no graph. *)
Definition mask_for (og : option Graph) (k2 m : list Z) : Prop :=
  match og with
  | Some g => forall i, 0 <= i -> has_link m i = true <-> exists k e, g_find g k = Some e /\ dg_index e = i
  | None => m = k2
  end.

Definition fall (k2 mask : list Z) : list Z := if MultiPath_Is_Equal size (empty_mask size) mask then k2 else mask.

Lemma fall_empty k2 : fall k2 (empty_mask size) = k2.
Proof. unfold fall, MultiPath_Is_Equal. by rewrite bool_decide_eq_true_2. Qed.

Lemma fall_marked k2 mask i : length mask = size -> 0 <= i -> has_link mask i = true -> fall k2 mask = mask.
Proof.
  intros Hl Hi Hb. unfold fall, MultiPath_Is_Equal. rewrite bool_decide_eq_false_2; [done|].
  rewrite !(dg_words_all size (dc_size _ _ Hcfg)) by (try apply repeat_length; done). intros <-. by rewrite empty_mask_has in Hb.
Qed.

Lemma graph_mask_ok og k2 : length k2 = size ->
  (forall g, og = Some g -> NoDup (Edges g).*1 /\ (exists k, is_Some (g_find g k)) /\ forall k e, g_find g k = Some e -> g_find base_graph k = Some e) ->
  exists m, Graph_to_Bitmask size og = Ret m /\ length (fall k2 m) = size /\ mask_for og k2 (fall k2 m).
Proof.
  intros Hk2 Hg. destruct (Graph_to_Bitmask_ok size og) as (m & Hrun & Hl & Hb).
  - intros g k e Ho He. eapply base_index, (proj2 (proj2 (Hg g Ho))), He.
  - intros g Ho. by apply Hg.
  - exists m. split; [done|]. destruct og as [g|].
    + destruct (Hg g eq_refl) as (_ & (k & e & He) & Hsub). assert (Hi : index_ok size (dg_index e)) by (eapply base_index, Hsub, He).
      rewrite (fall_marked k2 m (dg_index e)); [|done|apply Hi|apply Hb; [apply Hi|by exists g, k, e]]. split; [done|].
      intros i Hpos. rewrite Hb by done. split; [intros (g' & k' & e' & [= <-] & ?); by exists k', e'|intros (k' & e' & ?); by exists g, k', e'].
    + cbn in Hrun. injection Hrun as <-. by rewrite fall_empty.
Qed.

(** What the graphs of a destination are. *)
Definition src_choice (d : Z) (og : option Graph) : Prop :=
  match og with
  | Some g => source_graph base_graph My_ID d DG_LATENCY_REQ g
  | None => forall n, ~ source_target base_graph My_ID d DG_LATENCY_REQ n
  end.
Definition dst_choice (d : Z) (og : option Graph) : Prop :=
  match og with
  | Some g => dest_graph base_graph My_ID d DG_LATENCY_REQ g
  | None => forall n, ~ target base_graph My_ID d DG_LATENCY_REQ n
  end.
(** The union of the two graphs, when there are both. *)
Definition both_for (sg dg : option Graph) (k2 m : list Z) : Prop :=
  match sg, dg with
  | Some s, Some d => forall i, 0 <= i -> has_link m i = true <-> exists g k e, (g = s \/ g = d) /\ g_find g k = Some e /\ dg_index e = i
  | _, _ => m = k2
  end.

Record dest_masks (d : Z) (t : DG_Dest) (sg dg : option Graph) (k2 ms md mb : list Z) : Prop := {
  dm_src : src_choice d sg;
  dm_dst : dst_choice d dg;
  dm_paths : exists n, MultiPath_Compute (dg_mp cfg) edges d 2 true false = Ret (n, k2);
  dm_k2 : bitmasks (dd_graph t) DG_K2_GRAPH = Some k2;
  dm_smask : bitmasks (dd_graph t) DG_SRC_GRAPH = Some ms /\ mask_for sg k2 ms;
  dm_dmask : bitmasks (dd_graph t) DG_DST_GRAPH = Some md /\ mask_for dg k2 md;
  dm_both : bitmasks (dd_graph t) DG_SRC_DST_GRAPH = Some mb /\ both_for sg dg k2 mb }.

Lemma source_sub d g k e : source_graph base_graph My_ID d DG_LATENCY_REQ g -> g_find g k = Some e -> g_find base_graph k = Some e.
Proof.
  intros (r & r' & Hr & Hr' & Hg) He. destruct k as [a b]. rewrite <- Hr' in He. apply (dg_sub _ _ _ _ _ Hg) in He. by rewrite Hr in He.
Qed.

Lemma src_graph_ok d : exists og, Source_Problem_Graph true base_graph My_ID d DG_LATENCY_REQ = Ret og /\ src_choice d og /\
  forall g, og = Some g -> NoDup (Edges g).*1 /\ loop_free g /\ (exists k, is_Some (g_find g k)) /\ forall k e, g_find g k = Some e -> g_find base_graph k = Some e.
Proof.
  destruct (source_problem_ok base_graph My_ID d DG_LATENCY_REQ base_cost base_loops) as (og & Hrun & Hog). exists og. split; [done|].
  destruct og as [g|]; [|by split]. destruct Hog as (Hg & Hn & Hl & n & r & Hr & Ht). split; [done|]. intros g' [= <-].
  split_and!; try done; [|intros k e; by apply source_sub with (d := d)]. destruct Hg as (r1 & r' & Hr1 & Hr' & Hg).
  assert (Ht1 : target r1 d My_ID DG_LATENCY_REQ n) by (eapply target_reversed; [|exact Ht]; intros [a b]; by rewrite Hr, Hr1).
  apply (dg_into _ _ _ _ _ Hg) in Ht1. exists (My_ID, n). by rewrite <- Hr'.
Qed.

Lemma dst_graph_ok d : exists og, Destination_Problem_Graph true base_graph My_ID d DG_LATENCY_REQ = Ret og /\ dst_choice d og /\
  forall g, og = Some g -> NoDup (Edges g).*1 /\ loop_free g /\ (exists k, is_Some (g_find g k)) /\ forall k e, g_find g k = Some e -> g_find base_graph k = Some e.
Proof.
  destruct (dest_problem_ok base_graph My_ID d DG_LATENCY_REQ base_nodup base_cost base_loops) as (og & Hrun & Hog). exists og. split; [done|].
  destruct og as [g|]; [|by split]. destruct Hog as (Hg & Hn & Hl & n & Ht). split; [done|]. intros g' [= <-].
  split_and!; try done; [|apply Hg]. apply (dg_into _ _ _ _ _ Hg) in Ht. by exists (n, d).
Qed.

Lemma union_mask_ok sg dg k2 : length k2 = size ->
  (forall g, sg = Some g \/ dg = Some g -> NoDup (Edges g).*1 /\ loop_free g /\ (exists k, is_Some (g_find g k)) /\ forall k e, g_find g k = Some e -> g_find base_graph k = Some e) ->
  exists m, Source_Destination_Problem_Bitmask_from_SDP_Graphs true size sg dg = Ret m /\ length (fall k2 m) = size /\ both_for sg dg k2 (fall k2 m).
Proof.
  intros Hk2 Hg. destruct sg as [s|]; [destruct dg as [d|]|].
  2,3: exists (empty_mask size); split; [done|]; by rewrite fall_empty.
  destruct (both_mask_ok size (Some s) (Some d)) as (m & Hrun & Hl & Hb).
  - intros g k e Ho He. eapply base_index, (proj2 (proj2 (proj2 (Hg g Ho)))), He.
  - intros g Ho. destruct (Hg g Ho) as (? & ? & _). done.
  - exists m. split; [done|]. assert (Hm : forall i, 0 <= i -> has_link m i = true <-> exists g k e, (g = s \/ g = d) /\ g_find g k = Some e /\ dg_index e = i).
    { intros i Hi. rewrite Hb by done. split.
      - intros (_ & _ & g & k & e & Ho & He & _ & Hx). exists g, k, e. split; [|done]. destruct Ho as [[= ->]|[= ->]]; tauto.
      - intros (g & k & e & Ho & He & Hx). split; [done|]. split; [done|]. exists g, k, e. split; [destruct Ho as [-> | ->]; tauto|]. split; [done|]. split; [|done].
        intros g' [= <-] [e' He']. rewrite He'. f_equal. destruct (Hg s) as (_ & _ & _ & Hs); [by left|].
        assert (Hge : g_find base_graph k = Some e) by (destruct Ho as [-> | ->]; [by apply Hs|destruct (Hg d) as (_ & _ & _ & Hd); [by right|by apply Hd]]).
        apply Hs in He'. congruence. }
    destruct (Hg s) as (_ & _ & (k & e & He) & Hs); [by left|]. assert (Hi : index_ok size (dg_index e)) by (eapply base_index, Hs, He).
    rewrite (fall_marked k2 m (dg_index e)); [done|done|apply Hi|apply Hm; [apply Hi|exists s, k, e; tauto]].
Qed.

(** A mask and its list of edges agree. *)
Lemma edges_agree m : length m = size -> exists l, mask_edges size (Sorted_Edges cfg) m = Ret l /\
  forall x, x ∈ Sorted_Edges cfg -> DG_Edge_In_Graph size (dg_index x.2) (Some m) = Ret (bool_decide (x.1 ∈ l.*1)).
Proof.
  intros Hm. destruct (mask_edges_ok size (dc_size _ _ Hcfg) (Sorted_Edges cfg) m (dc_index _ _ Hcfg) Hm) as (l & Hrun & Hl).
  exists l. split; [done|]. intros [k e] Hx. rewrite (DG_Edge_In_Graph_ok size (dc_size _ _ Hcfg) _ _ (dc_index _ _ Hcfg _ Hx) Hm). f_equal.
  apply eq_true_iff_eq. rewrite bool_decide_eq_true. cbn. rewrite list_elem_of_fmap. split.
  - intros Hb. exists (k, dg_index e). split; [done|]. apply Hl. by exists e.
  - intros ([k' i] & [= <-] & Hin). apply Hl in Hin as (e' & He' & <- & Hb). assert (e' = e) as ->; [|done].
    assert (H1 : assoc k (Sorted_Edges cfg) = Some e') by (apply assoc_nodup; [apply Hcfg|done]).
    assert (H2 : assoc k (Sorted_Edges cfg) = Some e) by (apply assoc_nodup; [apply Hcfg|done]). congruence.
Qed.

Lemma compute_dest_ok d : d ∈ nodes -> exists t, compute_dest cfg edges base_graph d = Ret t /\
  gtype t = DG_K2_GRAPH /\ problem_count t = 0 /\ problems t = no_problems /\
  (exists sg dg k2 ms md mb, dest_masks d t sg dg k2 ms md mb) /\
  forall x, x ∈ Sorted_Edges cfg -> static_ok size x.1 (dg_index x.2) t.
Proof.
  intros Hd. unfold compute_dest. fold size My_ID. rewrite (dc_directed _ _ Hcfg). destruct (k2_ok d Hd) as (n & k2 & Hk2 & Hl2). rewrite Hk2. cbn [mbind outcome_bind].
  destruct (edges_agree k2 Hl2) as (l2 & -> & _). cbn [mbind outcome_bind].
  destruct (src_graph_ok d) as (sg & -> & Hsg & Hs). cbn [mbind outcome_bind].
  destruct (dst_graph_ok d) as (dg & -> & Hdg & Hdd). cbn [mbind outcome_bind].
  destruct (graph_mask_ok sg k2 Hl2) as (ms & -> & Hls & Hms); [intros g Ho; destruct (Hs g Ho) as (? & ? & ? & ?); done|]. cbn [mbind outcome_bind].
  destruct (graph_mask_ok dg k2 Hl2) as (md & -> & Hld & Hmd); [intros g Ho; destruct (Hdd g Ho) as (? & ? & ? & ?); done|]. cbn [mbind outcome_bind].
  destruct (union_mask_ok sg dg k2 Hl2) as (mb & -> & Hlb & Hmb); [intros g [Ho|Ho]; [by apply Hs|by apply Hdd]|]. cbn [mbind outcome_bind].
  fold (fall k2 ms) (fall k2 md) (fall k2 mb).
  destruct (edges_agree _ Hls) as (ls & -> & Has). cbn [mbind outcome_bind]. destruct (edges_agree _ Hld) as (ld & -> & Had). cbn [mbind outcome_bind].
  destruct (edges_agree _ Hlb) as (lb & -> & Hab). cbn [mbind outcome_bind].
  eexists. split; [done|]. split; [done|]. split; [done|]. split; [done|]. split.
  - exists sg, dg, k2, (fall k2 ms), (fall k2 md), (fall k2 mb). split; try done. by exists n.
  - intros x Hx j [-> | ->]; unfold on_graph; cbn; [by apply Has|by apply Had].
Qed.

(** ** All destinations *)
Lemma repeat_lookup {X} (x : X) m : forall n, (n < m)%nat -> repeat x m !! n = Some x.
Proof. induction m as [|m IH]; intros [|n] H; cbn; [lia|lia|done|]. apply IH. lia. Qed.

Lemma dg_none_lookup n t : DG_Destinations dg_initial !! n = Some t -> t = dg_none.
Proof. cbn [dg_initial DG_Destinations]. intros H. by apply list_elem_of_lookup_2, list_elem_of_In, repeat_spec in H. Qed.

Lemma compute_fold_ok order : (forall d, d ∈ order -> d ∈ nodes) ->
  exists s, foldl (fun s dest_id => s ← s; t ← compute_dest cfg edges base_graph dest_id;
             if (0 <=? dest_id) && (dest_id <=? MAX_NODES)
             then Ret (mk_dgs (<[Z.to_nat dest_id := t]> (DG_Destinations s)) (DG_Source s) (DG_Problem_List s))
             else Fault) (Ret dg_initial) order = Ret s /\
    DG_Source s = DG_Source dg_initial /\ DG_Problem_List s = [] /\ length (DG_Destinations s) = Z.to_nat (MAX_NODES + 1) /\
    (forall n t, DG_Destinations s !! n = Some t -> t = dg_none \/ Z.of_nat n ∈ order /\ compute_dest cfg edges base_graph (Z.of_nat n) = Ret t) /\
    (forall d, d ∈ order -> exists t, DG_Destinations s !! Z.to_nat d = Some t /\ compute_dest cfg edges base_graph d = Ret t).
Proof.
  induction order as [|d order IH] using rev_ind; intros Ho.
  { exists dg_initial. split_and!; try done; [intros n t H; left; by eapply dg_none_lookup|intros d H; by apply elem_of_nil in H]. }
  destruct IH as (s & Hrun & Hsrc & Hlist & Hlen & Hall & Hd); [intros; apply Ho; set_solver|].
  rewrite foldl_app, Hrun. cbn [foldl mbind outcome_bind]. assert (Hdn : d ∈ nodes) by (apply Ho; set_solver).
  destruct (compute_dest_ok d Hdn) as (t & Ht & _). rewrite Ht. cbn [mbind outcome_bind]. pose proof (dc_nodes _ _ Hcfg d Hdn) as Hr.
  rewrite (proj2 (Z.leb_le 0 d)), (proj2 (Z.leb_le d MAX_NODES)) by lia. cbn [andb]. eexists. split; [done|]. cbn [DG_Source DG_Problem_List DG_Destinations].
  assert (Hlt : (Z.to_nat d < length (DG_Destinations s))%nat) by (rewrite Hlen; lia).
  split_and!; try done; [by rewrite length_insert| |].
  - intros n t' Hn. destruct (decide (n = Z.to_nat d)) as [->|Hne].
    + rewrite list_lookup_insert_eq in Hn by done. injection Hn as <-. right. rewrite Z2Nat.id by lia. split; [set_solver|done].
    + rewrite list_lookup_insert_ne in Hn by done. destruct (Hall n t' Hn) as [?|[? ?]]; [by left|right; split; [set_solver|done]].
  - intros d' Hd'. destruct (decide (d' = d)) as [->|Hne].
    + exists t. by rewrite list_lookup_insert_eq.
    + assert (Hin : d' ∈ order) by set_solver. destruct (Hd d' Hin) as (t' & Ht' & Hc'). exists t'. split; [|done].
      rewrite list_lookup_insert_ne; [done|]. pose proof (dc_nodes _ _ Hcfg d' (Ho d' Hd')). lia.
Qed.

Lemma DG_Compute_Graphs_ok order : order ≡ₚ nodes ->
  exists s, DG_Compute_Graphs cfg edges order = Ret s /\ dg_inv My_ID ∅ s /\
    (forall d, d ∈ nodes -> exists t, DG_Destinations s !! Z.to_nat d = Some t /\ gtype t = DG_K2_GRAPH /\
       exists sg dg k2 ms md mb, dest_masks d t sg dg k2 ms md mb) /\
    (forall x, x ∈ Sorted_Edges cfg -> link_ok cfg x.1 (dg_index x.2) s).
Proof.
  intros Hperm. unfold DG_Compute_Graphs. rewrite (dc_directed _ _ Hcfg). cbn [negb]. fold base_graph.
  destruct (compute_fold_ok order) as (s & -> & Hsrc & Hlist & Hlen & Hall & Hd); [intros d; by rewrite Hperm|]. exists s. split; [done|].
  assert (Hzero : forall n, 0 <= n <= MAX_NODES -> no_problems !! Z.to_nat n = Some 0).
  { intros n Hn. unfold no_problems. apply repeat_lookup. unfold MAX_NODES in *. lia. }
  assert (Hcount : forall Q (HQ : forall k, Decision (Q k)), @base.size (gset Edge_Key) _ (filter Q (∅ : gset Edge_Key)) = 0%nat).
  { intros Q HQ. apply size_empty_iff. set_solver. }
  split; [|split].
  - split.
    + rewrite Hlist. apply NoDup_nil_2.
    + intros k. rewrite Hlist. set_solver.
    + set_solver.
    + rewrite Hsrc. cbn. unfold src_problems. by rewrite Hcount.
    + intros n Hn. rewrite Hsrc. cbn. by apply Hzero.
    + done.
    + intros t Ht. destruct (Hall 0%nat t Ht) as [->|[H0 _]]; [done|]. rewrite Hperm in H0. apply (dc_nodes _ _ Hcfg) in H0. lia.
    + intros i t Ht Hi. destruct (Hall _ t Ht) as [->|[Hin Hc]]; [by left|right]. rewrite Z2Nat.id in * by done. rewrite Hperm in Hin.
      destruct (compute_dest_ok i Hin) as (t' & Hc' & Hg & Hpc & Hpr & _). rewrite Hc in Hc'. injection Hc' as <-. split.
      * rewrite Hpc. unfold dst_problems. by rewrite Hcount.
      * intros n Hn. rewrite Hpr. by apply Hzero.
      * rewrite Hg. unfold graph_for, src_problems, dst_problems. by rewrite !Hcount.
  - intros d Hdn. destruct (Hd d) as (t & Ht & Hc); [by rewrite Hperm|]. exists t. split; [done|].
    destruct (compute_dest_ok d Hdn) as (t' & Hc' & Hg & _ & _ & Hm & _). rewrite Hc in Hc'. injection Hc' as <-. done.
  - intros x Hx t [n Hn]%list_elem_of_lookup Hnone. destruct (Hall n t Hn) as [->|[Hin Hc]]; [done|]. rewrite Hperm in Hin.
    destruct (compute_dest_ok _ Hin) as (t' & Hc' & _ & _ & _ & _ & Hst). rewrite Hc in Hc'. injection Hc' as <-. by apply Hst.
Qed.
End compute.
