(* ===== verification/DissemProps.v ===== *)
(** * DissemProps: properties of the dissemination graphs

    The graphs computed at start-up; the graph used for a destination is a
    function of the links that have a problem at present; what a message is
    stamped with; and what happens with a link that is not configured. *)
From stdpp Require Import base list gmap numbers option sets.
From Stdlib Require Import ZArith Lia.
From S2P Require Import Prelude HashMap NetTypes SklList MultiPath MultiPathProof MultiPathFlow MultiPathNet MultiPathProps.
From S2P Require Import Dissem DissemState DissemUpdate DissemGraph DissemPath DissemMask DissemCompute.
#[local] Open Scope Z_scope.

(** ** Sequences of updates *)
Record update := mk_up { u_src : Z; u_dst : Z; u_index : Z; u_old : Z; u_new : Z }.

Definition dg_step (cfg : dg_conf) (s : dg_state) (u : update) : outcome dg_state :=
  DG_Process_Edge_Update cfg (u_src u) (u_dst u) (u_index u) (u_old u) (u_new u) s.
Definition dg_run (cfg : dg_conf) (s : dg_state) (us : list update) : outcome dg_state :=
  foldl (fun r u => s ← r; dg_step cfg s u) (Ret s) us.

(** The set of links with a problem: a link enters it when its cost becomes
    negative and leaves it when its cost is not negative any more. *)
Definition track (cfg : dg_conf) (P : gset Edge_Key) (u : update) : gset Edge_Key :=
  match Node_Lookup_Addr_to_ID cfg !! u_src u, Node_Lookup_Addr_to_ID cfg !! u_dst u with
  | Some a, Some b =>
      if dg_problem_route cfg && negb (no_change (u_old u) (u_new u))
      then if u_new u <? 0 then {[(a, b)]} ∪ P else P ∖ {[(a, b)]}
      else P
  | _, _ => P
  end.

(** The link is one of the configuration, with its index. *)
Definition configured (cfg : dg_conf) (u : update) : Prop :=
  forall a b, Node_Lookup_Addr_to_ID cfg !! u_src u = Some a -> Node_Lookup_Addr_to_ID cfg !! u_dst u = Some b ->
    exists e, ((a, b), e) ∈ Sorted_Edges cfg /\ u_index u = dg_index e.

Section run.
Context (cfg : dg_conf) (edges : edge_table) (Hcfg : dgc_ok cfg edges).
Let My_ID := mp_My_ID (dg_mp cfg).

Lemma dg_step_ok P s u : dg_inv My_ID P s -> (forall x, x ∈ Sorted_Edges cfg -> link_ok cfg x.1 (dg_index x.2) s) -> configured cfg u ->
  exists s', dg_step cfg s u = Ret s' /\ dg_inv My_ID (track cfg P u) s' /\ statics s' = statics s.
Proof.
  intros Hi Hl Hc. unfold dg_step, DG_Process_Edge_Update, track. unfold configured in Hc.
  destruct (dg_problem_route cfg); cbn [negb andb]; [|exists s; by repeat case_match].
  destruct (no_change (u_old u) (u_new u)); cbn [negb]; [exists s; by repeat case_match|].
  destruct (Node_Lookup_Addr_to_ID cfg !! u_dst u) as [b|] eqn:Hb; [|exists s; by repeat case_match].
  destruct (Node_Lookup_Addr_to_ID cfg !! u_src u) as [a|] eqn:Ha; [|by exists s].
  destruct (Hc a b eq_refl eq_refl) as (e & He & ->). apply (dc_addr _ _ Hcfg), (dc_nodes _ _ Hcfg) in Ha. apply (dc_addr _ _ Hcfg), (dc_nodes _ _ Hcfg) in Hb.
  destruct (u_new u <? 0); [by apply problem_started_ok; [| |apply (Hl _ He)]|by apply problem_resolved_ok].
Qed.

Lemma dg_run_ok us : forall P s, dg_inv My_ID P s -> (forall x, x ∈ Sorted_Edges cfg -> link_ok cfg x.1 (dg_index x.2) s) -> Forall (configured cfg) us ->
  exists s', dg_run cfg s us = Ret s' /\ dg_inv My_ID (foldl (track cfg) P us) s' /\ statics s' = statics s.
Proof.
  induction us as [|u us IH]; intros P s Hi Hl Hc; [by exists s|]. apply Forall_cons in Hc as [Hu Hc].
  destruct (dg_step_ok P s u Hi Hl Hu) as (s1 & H1 & Hi1 & Hs1). destruct (IH (track cfg P u) s1 Hi1) as (s' & H' & Hi' & Hs'); [|done|].
  { intros x Hx. apply (link_ok_statics cfg _ _ s); [done|]. by apply Hl. }
  exists s'. split; [|split; [done|congruence]]. unfold dg_run. cbn [foldl mbind outcome_bind]. rewrite H1. exact H'.
Qed.
End run.

(** A destination after a run. *)
Lemma dg_dest_ok cfg edges s0 us s d t0 : dgc_ok cfg edges -> dg_inv (mp_My_ID (dg_mp cfg)) ∅ s0 ->
  (forall x, x ∈ Sorted_Edges cfg -> link_ok cfg x.1 (dg_index x.2) s0) -> Forall (configured cfg) us -> dg_run cfg s0 us = Ret s ->
  1 <= d -> DG_Destinations s0 !! Z.to_nat d = Some t0 -> gtype t0 <> DG_NONE_GRAPH ->
  let P := foldl (track cfg) ∅ us in
  exists t, DG_Destinations s !! Z.to_nat d = Some t /\ bitmasks (dd_graph t) = bitmasks (dd_graph t0) /\ problem_count t = dst_problems P d /\
    gtype t = graph_for (mp_My_ID (dg_mp cfg)) P d t0.
Proof.
  intros Hcfg Hi Hl Hus Hrun Hr Ht0 Hg P. destruct (dg_run_ok cfg edges Hcfg us ∅ s0 Hi Hl Hus) as (s' & Hrun' & Hi' & Hst). rewrite Hrun in Hrun'. injection Hrun' as <-.
  assert (Hlk : statics s !! Z.to_nat d = Some (static_of t0)) by (rewrite Hst; unfold statics; by rewrite list_lookup_fmap, Ht0).
  unfold statics in Hlk. rewrite list_lookup_fmap in Hlk. apply fmap_Some in Hlk as (t & Ht & Heq). exists t. split; [done|].
  injection Heq as Hbm Hel Hno. split; [done|]. destruct (di_dests _ _ _ Hi' d t Ht ltac:(lia)) as [Hn|[Hc _ Hgt]].
  { rewrite Hn in Hno. apply Z.eqb_neq in Hg. by rewrite Hg in Hno. }
  split; [done|]. rewrite Hgt. symmetry. by apply graph_for_static with (cfg := cfg).
Qed.

(** C10: the dissemination graphs.  With directed links [DG_Compute_Graphs] gives
    every configured destination its four masks: the two disjoint paths; the
    destination-problem graph, which has an edge into the destination from every
    neighbour that can be reached within the latency bound around it, a shortest
    path to each of these, and nothing else; the source-problem graph, the same
    on the reversed network; and the union of the two.  Where no neighbour is
    near enough the disjoint paths take their place.  The search ends, follows
    no NULL pointer, and writes no mask out of bounds. *)
Theorem dissem_graphs_correct `{HO : HashOrder} cfg edges order :
  dgc_ok cfg edges -> order ≡ₚ mp_nodes (dg_mp cfg) ->
  exists s, DG_Compute_Graphs cfg edges order = Ret s /\
    forall d, d ∈ mp_nodes (dg_mp cfg) -> exists t, DG_Destinations s !! Z.to_nat d = Some t /\ gtype t = DG_K2_GRAPH /\
      exists sg dg k2 ms md mb, dest_masks cfg edges d t sg dg k2 ms md mb.
Proof.
  intros Hcfg Ho. destruct (DG_Compute_Graphs_ok cfg edges Hcfg order Ho) as (s & H & _ & Hd & _). by exists s.
Qed.

(** C9: the graph in use.  After any sequence of cost updates of configured
    links, the graph [DG_Process_Edge_Update] has chosen for a destination is a
    function of the set of links that have a problem now: the disjoint paths with
    fewer than two problems at either end, the source (destination) graph with
    two or more problems there and none elsewhere on that graph, the
    source-destination graph otherwise.  The counts and marks are those of the
    set, and the daemon never exits with a source-destination graph that has
    neither problem. *)
Theorem dissem_follows_problems `{HO : HashOrder} cfg edges order s0 us :
  dgc_ok cfg edges -> order ≡ₚ mp_nodes (dg_mp cfg) -> DG_Compute_Graphs cfg edges order = Ret s0 -> Forall (configured cfg) us ->
  let P := foldl (track cfg) ∅ us in
  exists s, dg_run cfg s0 us = Ret s /\ (forall k, k ∈ (DG_Problem_List s).*1 <-> k ∈ P) /\
    s_problem_count (DG_Source s) = src_problems (mp_My_ID (dg_mp cfg)) P /\
    forall d, d ∈ mp_nodes (dg_mp cfg) -> exists t0 t, DG_Destinations s0 !! Z.to_nat d = Some t0 /\ DG_Destinations s !! Z.to_nat d = Some t /\
      bitmasks (dd_graph t) = bitmasks (dd_graph t0) /\ problem_count t = dst_problems P d /\
      gtype t = graph_for (mp_My_ID (dg_mp cfg)) P d t0.
Proof.
  intros Hcfg Ho Hrun0 Hus P. destruct (DG_Compute_Graphs_ok cfg edges Hcfg order Ho) as (s0' & H & Hi & Hd & Hl). rewrite Hrun0 in H. injection H as <-.
  destruct (dg_run_ok cfg edges Hcfg us ∅ s0 Hi Hl Hus) as (s & Hrun & Hi' & Hst). exists s. split; [done|]. split; [apply Hi'|]. split; [apply Hi'|].
  intros d Hdn. destruct (Hd d Hdn) as (t0 & Ht0 & Hg & _). pose proof (dc_nodes _ _ Hcfg d Hdn) as Hr.
  destruct (dg_dest_ok cfg edges s0 us s d t0) as (t & ?); try done; [lia|by rewrite Hg|]. by exists t0, t.
Qed.

(** ** Stamping *)
(** [DG_Destinations] as multipath.c reads it. *)
Definition dg_view (s : dg_state) (d : Z) : DG_Dst :=
  match DG_Destinations s !! Z.to_nat d with Some t => dd_graph t | None => mk_dg (fun _ => None) DG_NONE_GRAPH end.

(** C11: routing on dissemination graphs.  A message stamped for dissemination
    graphs gets the mask that the links with a problem call for: the disjoint
    paths of the present costs, the source or destination graph computed at
    start-up, or the source-destination graph together with those paths.
    [cur]: the costs at present. *)
Theorem dissem_stamp `{HO : HashOrder} cfg edges order s0 us s cur d c :
  dgc_ok cfg edges -> order ≡ₚ mp_nodes (dg_mp cfg) -> DG_Compute_Graphs cfg edges order = Ret s0 -> Forall (configured cfg) us -> dg_run cfg s0 us = Ret s ->
  d ∈ mp_nodes (dg_mp cfg) -> cache_ok (dg_mp cfg) cur c -> (forall k, exists n mask, MultiPath_Compute (dg_mp cfg) cur d k false false = Ret (n, mask)) ->
  exists t0 mask c', DG_Destinations s0 !! Z.to_nat d = Some t0 /\
    MultiPath_Stamp_Bitmask MAX_NODES (dg_view s) (dg_mp cfg) cur d DG_K_FLAG c = Ret (Some mask, c') /\
    stamped (dg_mp cfg) cur (mk_dg (bitmasks (dd_graph t0)) (graph_for (mp_My_ID (dg_mp cfg)) (foldl (track cfg) ∅ us) d t0)) d DG_K_FLAG mask /\
    cache_ok (dg_mp cfg) cur c'.
Proof.
  intros Hcfg Ho Hrun0 Hus Hrun Hdn Hc Hk. destruct (DG_Compute_Graphs_ok cfg edges Hcfg order Ho) as (s0' & H & Hi & Hd & Hl). rewrite Hrun0 in H. injection H as <-.
  destruct (Hd d Hdn) as (t0 & Ht0 & Hg & sg & dgr & k2 & ms & md & mb & Hm). pose proof (dc_nodes _ _ Hcfg d Hdn) as Hr.
  destruct (dg_dest_ok cfg edges s0 us s d t0) as (t & Ht & Hbm' & _ & Hty'); try done; [lia|by rewrite Hg|].
  assert (Hbm : bitmasks (dg_view s d) = bitmasks (dd_graph t0)) by (unfold dg_view; by rewrite Ht).
  assert (Hty : current_graph_type (dg_view s d) = graph_for (mp_My_ID (dg_mp cfg)) (foldl (track cfg) ∅ us) d t0) by (unfold dg_view; by rewrite Ht).
  assert (Hdg : forall j, In j [DG_SRC_GRAPH; DG_DST_GRAPH; DG_SRC_DST_GRAPH] -> is_Some (bitmasks (dg_view s d) j)).
  { rewrite Hbm. intros j [<-|[<-|[<-|[]]]]; eexists; [apply (dm_smask _ _ _ _ _ _ _ _ _ _ Hm)|apply (dm_dmask _ _ _ _ _ _ _ _ _ _ Hm)|apply (dm_both _ _ _ _ _ _ _ _ _ _ Hm)]. }
  destruct (stamp_ok MAX_NODES (dg_view s) (dg_mp cfg) cur d DG_K_FLAG c Hc ltac:(done) Hk Hdg) as (_ & _ & Hst).
  destruct Hst as (mask & c' & Hrun' & Hs & Hc'); [unfold MAX_NODES in *; lia|]. exists t0, mask, c'. split_and!; try done.
  unfold stamped in *. cbn [bitmasks current_graph_type]. rewrite Hbm, Hty in Hs. done.
Qed.

(** ** A link that is not configured *)
Lemma for_dests_fault f l : forall i n t, l !! n = Some t -> i + Z.of_nat n <> 0 -> 0 <= i -> f (i + Z.of_nat n) t = Fault ->
  (forall j t, f j t <> Exit) -> for_dests f i l = Fault.
Proof.
  induction l as [|x l IH]; intros i n t Hl Hn Hi Hf Hex; [done|]. cbn [for_dests]. destruct n as [|n]; cbn in Hl.
  - injection Hl as ->. rewrite Z.add_0_r in *. rewrite (proj2 (Z.eqb_neq i 0)) by done. by rewrite Hf.
  - assert (Hrec : for_dests f (i + 1) l = Fault).
    { apply (IH (i + 1) n t Hl); [lia|lia| |done]. rewrite <- Hf. f_equal. lia. }
    destruct (i =? 0); [cbn [mbind outcome_bind]; by rewrite Hrec|]. destruct (f i x) eqn:Hx; cbn [mbind outcome_bind]; [by rewrite Hrec|by apply Hex in Hx|done].
Qed.

(** C34: a link that is not in the configuration file, between nodes that are,
    has the index [USHRT_MAX].  When a problem starts on it while a destination
    uses a source or destination graph, [DG_Edge_In_Graph] writes outside its
    mask, for every mask of fewer than 8192 bytes. *)
Theorem dissem_foreign_link_faults cfg s src dst a b old_cost new_cost i t :
  dg_problem_route cfg = true -> Z.of_nat (mp_size (dg_mp cfg)) < 8192 ->
  Node_Lookup_Addr_to_ID cfg !! src = Some a -> Node_Lookup_Addr_to_ID cfg !! dst = Some b ->
  0 <= old_cost -> new_cost < 0 -> key_find (a, b) (DG_Problem_List s) = None ->
  1 <= i -> DG_Destinations s !! Z.to_nat i = Some t ->
  gtype t = DG_SRC_GRAPH /\ a <> mp_My_ID (dg_mp cfg) \/ gtype t = DG_DST_GRAPH /\ b <> i ->
  DG_Process_Edge_Update cfg src dst USHRT_MAX old_cost new_cost s = Fault.
Proof.
  intros Hpr Hsz Ha Hb Hold Hnew Hk Hi Ht Hg. unfold DG_Process_Edge_Update. rewrite Hpr. cbn [negb].
  assert (Hch : no_change old_cost new_cost = false).
  { unfold no_change. destruct (Z.eqb_spec old_cost (-1)), (Z.ltb_spec old_cost (-1)), (Z.leb_spec 0 new_cost); lia. }
  rewrite Hch, Hb, Ha, (proj2 (Z.ltb_lt new_cost 0)) by lia. unfold problem_started. rewrite Hk.
  rewrite (for_dests_fault (switch_both cfg (a, b) USHRT_MAX) (DG_Destinations s) 0 (Z.to_nat i) t); [done|done|lia|lia| |].
  - rewrite Z.add_0_l, Z2Nat.id by lia. unfold switch_both. rewrite DG_Edge_In_Graph_fault by (unfold USHRT_MAX; lia). cbn [fst snd].
    destruct Hg as [[-> Hne]|[-> Hne]]; [rewrite (proj2 (Z.eqb_neq a _) Hne)|rewrite (proj2 (Z.eqb_neq b _) Hne)]; done.
  - intros j t'. unfold switch_both. rewrite DG_Edge_In_Graph_fault by (unfold USHRT_MAX; lia). repeat case_match; done.
Qed.

(** ** An example: node 1 reaches node 4 over 2 and over 3 *)
Module ExD.
#[export] Instance order : HashOrder :=
  {| hash_iter := fun K _ _ V m => map_to_list m; hash_iter_perm := fun K _ _ V m => reflexivity _ |}.

Definition nodes : list Z := [1; 2; 3; 4].
Definition sorted : list (Edge_Key * DG_Edge) :=
  [((1, 2), mk_dge 10 0); ((1, 3), mk_dge 20 1); ((2, 1), mk_dge 10 2); ((2, 4), mk_dge 30 3);
   ((3, 1), mk_dge 20 4); ((3, 4), mk_dge 15 5); ((4, 2), mk_dge 30 6); ((4, 3), mk_dge 15 7)].
Definition costs : edge_table := fun a b => if (a + b =? 3) then (10, 10) else if a + b =? 4 then (20, 20) else if a + b =? 6 then (30, 30) else (15, 15).
Definition links : list (Z * Z * Z) := (fun x : Edge_Key * DG_Edge => (x.1.1, x.1.2, dg_index x.2)) <$> sorted.
Definition mp : mp_conf := mk_mp 8 4 nodes (Init_MultiPath true nodes links) 1.
Definition addrs : gmap Z Z := list_to_map [(101, 1); (102, 2); (103, 3); (104, 4)].
Definition cfg : dg_conf := mk_dgc mp true true sorted addrs.

Lemma dissem_topology : topology_ok true nodes links costs true false.
Proof.
  split.
  - apply (bool_decide_unpack _). vm_compute. exact I.
  - intros a b i H. rewrite arcs_directed in H. unfold links, sorted in H. cbn in H. unfold nodes.
    repeat (apply elem_of_cons in H as [[= -> -> ->]|H]; [set_solver by lia|]). by apply elem_of_nil in H.
  - apply (bool_decide_unpack _). vm_compute. exact I.
  - intros a b i c H Hc. rewrite arcs_directed in H. unfold links, sorted in H. cbn in H.
    repeat (apply elem_of_cons in H as [[= -> -> ->]|H]; [vm_compute in Hc; injection Hc as <-; lia|]). by apply elem_of_nil in H.
Qed.

Lemma topology_now : topology_ok true nodes links costs false false.
Proof.
  destruct dissem_topology as [H1 H2 H3 _]. split; [exact H1|exact H2|exact H3|].
  intros a b i c H Hc. rewrite arcs_directed in H. unfold links, sorted in H. cbn in H.
  repeat (apply elem_of_cons in H as [[= -> -> ->]|H]; [vm_compute in Hc; injection Hc as <-; lia|]). by apply elem_of_nil in H.
Qed.

Lemma dissem_indexes x y i : (x, y, i) ∈ arcs true links -> 0 <= i < 8 * Z.of_nat 8.
Proof.
  intros H. rewrite arcs_directed in H. unfold links, sorted in H. cbn in H. repeat (apply elem_of_cons in H as [[= -> -> ->]|H]; [lia|]). by apply elem_of_nil in H.
Qed.

Lemma dissem_cfg_ok : dgc_ok cfg costs.
Proof.
  split; cbn [cfg dg_directed dg_mp mp mp_size mp_nodes mp_My_ID Node_Lookup_Addr_to_ID Sorted_Edges].
  - done.
  - by exists 1%nat.
  - intros n H. unfold nodes, MAX_NODES in *. set_solver by lia.
  - unfold nodes. set_solver.
  - intros a n H. apply elem_of_list_to_map_2 in H. unfold nodes. set_solver.
  - apply (bool_decide_unpack _). vm_compute. exact I.
  - intros x H. unfold index_ok, sorted in *. repeat (apply elem_of_cons in H as [->|H]; [cbn; lia|]). by apply elem_of_nil in H.
  - intros x H. unfold sorted in *. repeat (apply elem_of_cons in H as [->|H]; [cbn; lia|]). by apply elem_of_nil in H.
  - done.
  - exact dissem_topology.
Qed.

(** Both links into node 4 fail, then one of this node's. *)
Definition fails : list update := [mk_up 102 104 3 5 (-100); mk_up 103 104 5 5 (-1)].
Definition start : outcome dg_state := DG_Compute_Graphs cfg costs nodes.

Lemma fails_ok : Forall (configured cfg) fails.
Proof.
  apply Forall_cons. split; [|apply Forall_cons; split; [|apply Forall_nil; done]]; intros a b Ha Hb; vm_compute in Ha, Hb; injection Ha as <-; injection Hb as <-.
  - exists (mk_dge 30 3). split; [|reflexivity]. apply (bool_decide_unpack _). vm_compute. exact I.
  - exists (mk_dge 15 5). split; [|reflexivity]. apply (bool_decide_unpack _). vm_compute. exact I.
Qed.

Lemma dissem_start_ok : exists s, start = Ret s.
Proof. destruct (DG_Compute_Graphs_ok cfg costs dissem_cfg_ok nodes) as (s & H & _); [done|]. by exists s. Qed.

Lemma node4 : 4 ∈ mp_nodes (dg_mp cfg).
Proof. apply (bool_decide_unpack _). vm_compute. exact I. Qed.

Lemma paths_now k : exists n mask, MultiPath_Compute mp costs 4 k false false = Ret (n, mask).
Proof.
  destruct (compute_ok _ _ _ _ _ _ topology_now 8 1 4 k) as (n & mask & _ & H & _);
    [unfold nodes; set_solver|unfold nodes; set_solver|lia|apply dissem_indexes|]. exists n, mask. exact H.
Qed.
End ExD.
#[local] Existing Instance ExD.order.

(** The graphs of node 4: into it from 2 and from 3. *)
Lemma dissem_graphs_correct_witness :
  exists s t sg dg k2 ms md mb, ExD.start = Ret s /\ DG_Destinations s !! 4%nat = Some t /\ dest_masks ExD.cfg ExD.costs 4 t sg dg k2 ms md mb /\
    bitmasks (dd_graph t) DG_DST_GRAPH = Some [212; 0; 0; 0; 0; 0; 0; 0].
Proof.
  destruct (dissem_graphs_correct ExD.cfg ExD.costs ExD.nodes ExD.dissem_cfg_ok) as (s & H & Hd); [done|].
  destruct (Hd 4 ExD.node4) as (t & Ht & _ & sg & dg & k2 & ms & md & mb & Hm).
  exists s, t, sg, dg, k2, ms, md, mb. split; [exact H|]. split; [exact Ht|]. split; [exact Hm|].
  assert (Hb : match ExD.start with Ret s => (fun t => bitmasks (dd_graph t) DG_DST_GRAPH) <$> DG_Destinations s !! 4%nat | _ => None end
               = Some (Some [212; 0; 0; 0; 0; 0; 0; 0])) by (vm_compute; reflexivity).
  unfold ExD.start in Hb. rewrite H in Hb. change (Z.to_nat 4) with 4%nat in Ht. rewrite Ht in Hb. cbn in Hb. congruence.
Defined.

(** With two problems at node 4 its destination graph is used. *)
Lemma dissem_follows_problems_witness :
  exists s t, dg_run ExD.cfg (match ExD.start with Ret s => s | _ => dg_initial end) ExD.fails = Ret s /\ DG_Destinations s !! 4%nat = Some t /\
    problem_count t = 2 /\ gtype t = DG_DST_GRAPH.
Proof.
  destruct ExD.dissem_start_ok as [s0 Hs0]. rewrite Hs0.
  destruct (dissem_follows_problems ExD.cfg ExD.costs ExD.nodes s0 ExD.fails ExD.dissem_cfg_ok) as (s & Hrun & _ & _ & Hd); [done|exact Hs0|exact ExD.fails_ok|].
  destruct (Hd 4 ExD.node4) as (t0 & t & Ht0 & Ht & _ & Hc & Hg).
  exists s, t. split; [exact Hrun|]. split; [exact Ht|]. split; [rewrite Hc; vm_compute; reflexivity|].
  assert (Hb : match ExD.start with Ret s => (fun t => graph_for 1 (foldl (track ExD.cfg) ∅ ExD.fails) 4 t) <$> DG_Destinations s !! 4%nat | _ => None end
               = Some DG_DST_GRAPH) by (vm_compute; reflexivity).
  rewrite Hs0 in Hb. change (Z.to_nat 4) with 4%nat in Ht0. rewrite Ht0 in Hb. injection Hb as Hb. rewrite Hg. exact Hb.
Defined.

(** A message to node 4 then gets the destination graph. *)
Lemma dissem_stamp_witness :
  exists s mask c', dg_run ExD.cfg (match ExD.start with Ret s => s | _ => dg_initial end) ExD.fails = Ret s /\
    MultiPath_Stamp_Bitmask MAX_NODES (dg_view s) ExD.mp ExD.costs 4 DG_K_FLAG ∅ = Ret (Some mask, c') /\ mask = [212; 0; 0; 0; 0; 0; 0; 0].
Proof.
  destruct ExD.dissem_start_ok as [s0 Hs0]. rewrite Hs0.
  assert (Hrun : exists s, dg_run ExD.cfg s0 ExD.fails = Ret s).
  { assert (Hb : match ExD.start with Ret s0 => match dg_run ExD.cfg s0 ExD.fails with Ret _ => true | _ => false end | _ => false end = true) by (vm_compute; reflexivity).
    rewrite Hs0 in Hb. destruct (dg_run ExD.cfg s0 ExD.fails) as [s| |]; [exists s; reflexivity|discriminate Hb|discriminate Hb]. }
  destruct Hrun as [s Hrun]. exists s.
  destruct (dissem_stamp ExD.cfg ExD.costs ExD.nodes s0 ExD.fails s ExD.costs 4 ∅ ExD.dissem_cfg_ok) as (t0 & mask & c' & Ht0 & Hst & Hm & _);
    [done|exact Hs0|exact ExD.fails_ok|exact Hrun|exact ExD.node4|intros d k mask H; by rewrite lookup_empty in H|exact ExD.paths_now|].
  exists mask, c'. split; [exact Hrun|]. split; [exact Hst|].
  assert (Hg : graph_for 1 (foldl (track ExD.cfg) ∅ ExD.fails) 4 t0 = DG_DST_GRAPH).
  { assert (Hb : match ExD.start with Ret s => (fun t => graph_for 1 (foldl (track ExD.cfg) ∅ ExD.fails) 4 t) <$> DG_Destinations s !! 4%nat | _ => None end
             = Some DG_DST_GRAPH) by (vm_compute; reflexivity).
    rewrite Hs0 in Hb. change (Z.to_nat 4) with 4%nat in Ht0. rewrite Ht0 in Hb. injection Hb as Hb. exact Hb. }
  assert (Hb : match ExD.start with Ret s => (fun t => bitmasks (dd_graph t) DG_DST_GRAPH) <$> DG_Destinations s !! 4%nat | _ => None end
             = Some (Some [212; 0; 0; 0; 0; 0; 0; 0])) by (vm_compute; reflexivity).
  rewrite Hs0 in Hb. change (Z.to_nat 4) with 4%nat in Ht0. rewrite Ht0 in Hb. injection Hb as Hb.
  change (mp_My_ID (dg_mp ExD.cfg)) with 1 in Hm. rewrite Hg in Hm. unfold stamped in Hm. cbn [bitmasks current_graph_type] in Hm.
  destruct (decide (DG_K_FLAG = 0)) as [E|_]; [discriminate E|]. destruct (decide (DG_K_FLAG = DG_K_FLAG)) as [_|E]; [|destruct (E eq_refl)].
  destruct (decide (DG_DST_GRAPH = DG_SRC_GRAPH \/ DG_DST_GRAPH = DG_DST_GRAPH)) as [_|E]; [|destruct E; right; reflexivity].
  rewrite Hm in Hb. injection Hb as Hb. exact Hb.
Defined.

(** The link from 2 to 3 is not configured. *)
Lemma dissem_foreign_link_faults_witness :
  exists s, dg_run ExD.cfg (match ExD.start with Ret s => s | _ => dg_initial end) ExD.fails = Ret s /\
    DG_Process_Edge_Update ExD.cfg 102 103 USHRT_MAX 5 (-1) s = Fault.
Proof.
  assert (Hrun : exists s t, dg_run ExD.cfg (match ExD.start with Ret s => s | _ => dg_initial end) ExD.fails = Ret s /\
    DG_Destinations s !! 4%nat = Some t /\ gtype t = DG_DST_GRAPH /\ key_find (2, 3) (DG_Problem_List s) = None).
  { assert (Hb : match dg_run ExD.cfg (match ExD.start with Ret s => s | _ => dg_initial end) ExD.fails with
                 | Ret s => (gtype <$> DG_Destinations s !! 4%nat, key_find (2, 3) (DG_Problem_List s)) | _ => (None, None) end
                 = (Some DG_DST_GRAPH, None)) by (vm_compute; reflexivity).
    destruct (dg_run _ _ _) as [s| |]; [|discriminate Hb|discriminate Hb]. injection Hb as Hg Hk. apply fmap_Some in Hg as (t & Ht & Hg).
    exists s, t. split; [reflexivity|]. split; [exact Ht|]. split; [symmetry; exact Hg|exact Hk]. }
  destruct Hrun as (s & t & Hrun & Ht & Hg & Hk). exists s. split; [exact Hrun|].
  apply (dissem_foreign_link_faults ExD.cfg s 102 103 2 3 5 (-1) 4 t);
    [reflexivity|cbn; lia|reflexivity|reflexivity|lia|lia|exact Hk|lia|exact Ht|right; split; [exact Hg|lia]].
Defined.
