(* ===== verification/StdSkl.v ===== *)
(** * StdSkl: the skip list (stdutil/src/stdskl.c)

    Nodes of random height in the memory, linked on every level in both
    directions through a sentinel.  A pointer is the address of a node; malloc
    gives an address that was never used before, or fails; the arrays of a new
    node are not initialised.  Outcomes are those of [NetTypes]: [Fault] is a
    pointer to freed or unallocated memory, an index outside the arrays of a
    node, the key of the sentinel, or a walk that does not end. *)
From stdpp Require Import base list gmap numbers option sets.
From Stdlib Require Import ZArith Lia.
From S2P Require Import Prelude StdUtil NetTypes.
Import Rand48.
#[local] Open Scope Z_scope.

Definition STDSKL_MAX_HEIGHT : nat := 31.

(** The two directions of a level. *)
Inductive dir := Lt | Rt.
Definition opposite (d : dir) : dir := match d with Lt => Rt | Rt => Lt end.

Section skl.
Context {K V : Type} (cmp_fcn : K -> K -> Z).

(** [entry]: key and value; none in the sentinel. *)
Record stdskl_node := mk_sn { height : nat; prevs : list nat; nexts : list nat; entry : option (K * V) }.
Abbreviation memory := (gmap nat stdskl_node).

(** [mem] and [brk]: the allocated nodes and the next unused address. *)
Record stdskl := mk_skl
  { mem : memory; brk : nat; end_node : nat; sk_size : Z; seed : rand_state; rand_bits : Z; bits_left : Z }.

Definition links (d : dir) (n : stdskl_node) : list nat := match d with Lt => prevs n | Rt => nexts n end.

Definition node_at (m : memory) (p : nat) : outcome stdskl_node := or_else (m !! p) Fault.
Definition link_at (m : memory) (d : dir) (lvl p : nat) : outcome nat :=
  n ← node_at m p; or_else (links d n !! lvl) Fault.
Definition key_at (m : memory) (p : nat) : outcome K :=
  n ← node_at m p; kv ← or_else (entry n) Fault; Ret (fst kv).
Definition set_link (d : dir) (lvl p q : nat) (m : memory) : outcome memory :=
  n ← node_at m p;
  if decide (lvl < length (links d n))%nat then
    Ret (<[p := match d with
                | Lt => mk_sn (height n) (<[lvl := q]> (prevs n)) (nexts n) (entry n)
                | Rt => mk_sn (height n) (prevs n) (<[lvl := q]> (nexts n)) (entry n)
                end]> m)
  else Fault.

(** ** Searching *)

(** The comparison goes on in this direction. *)
Definition goes (d : dir) (c : Z) : bool := match d with Rt => 0 <? c | Lt => c <? 0 end.

(** Along one level, while the key is beyond the next node. *)
Fixpoint run_level (fuel : nat) (m : memory) (e : nat) (key : K) (d : dir) (lvl curr next : nat) (c : Z) : outcome (nat * nat * Z) :=
  if decide (next = e) then Ret (curr, next, c)
  else
    k ← key_at m next;
    let c := cmp_fcn key k in
    if goes d c then
      match fuel with
      | O => Fault
      | S fuel => next' ← link_at m d lvl next; run_level fuel m e key d lvl next next' c
      end
    else Ret (curr, next, c).

(** Down the levels on which the next node is the same. *)
Fixpoint run_down (m : memory) (d : dir) (curr next lvl : nat) : outcome nat :=
  match lvl with
  | O => Ret O
  | S l => q ← link_at m d (S l) curr; if decide (q = next) then run_down m d curr next l else Ret (S l)
  end.

(** Down to the bottom level; [inl]: a match that will do. *)
Fixpoint find_levels (fuel : nat) (m : memory) (e : nat) (key : K) (find_any : bool) (d : dir)
    (lvl curr : nat) (next : option nat) (c : Z) : outcome (nat + nat * option nat * Z) :=
  match lvl with
  | O => Ret (inr (curr, next, c))
  | S l =>
      match fuel with
      | O => Fault
      | S fuel =>
          next ← link_at m d lvl curr;
          '(curr, next, c) ← run_level (size m) m e key d lvl curr next c;
          if find_any && bool_decide (next <> e) && (c =? 0) then Ret (inl next)
          else lvl ← run_down m d curr next l; find_levels fuel m e key find_any d lvl curr (Some next) c
      end
  end.

(** [stdskl_low_find_right] ([Rt]) and [stdskl_low_find_left] ([Lt]). *)
Definition stdskl_low_find (l : stdskl) (d : dir) (key : K) (find_any : bool) : outcome (bool * nat) :=
  let e := end_node l in
  n ← node_at (mem l) e;
  r ← find_levels (height n) (mem l) e key find_any d (height n) e None (-1);
  match r with
  | inl p => Ret (true, p)
  | inr (curr, next, c) =>
      p ← link_at (mem l) d 0 curr;
      '(p, c) ← (if decide (Some p = next) then Ret (p, c)
                 else '(_, p, c) ← run_level (size (mem l)) (mem l) e key d 0 curr p c; Ret (p, c));
      Ret (bool_decide (p <> e) && (c =? 0), p)
  end.
Definition stdskl_low_find_right (l : stdskl) (key : K) (find_any : bool) : outcome (bool * nat) := stdskl_low_find l Rt key find_any.
Definition stdskl_low_find_left (l : stdskl) (key : K) (find_any : bool) : outcome (bool * nat) := stdskl_low_find l Lt key find_any.

(** Iterators are the addresses of nodes. *)
Definition stdskl_find (l : stdskl) (key : K) : outcome nat :=
  '(found, p) ← stdskl_low_find_right l key true; Ret (if found : bool then p else end_node l).
Definition stdskl_lowerb (l : stdskl) (key : K) : outcome nat := '(_, p) ← stdskl_low_find_right l key false; Ret p.
Definition stdskl_upperb (l : stdskl) (key : K) : outcome nat :=
  '(_, p) ← stdskl_low_find_left l key false; link_at (mem l) Rt 0 p.
Definition stdskl_contains (l : stdskl) (key : K) : outcome bool := '(found, _) ← stdskl_low_find_right l key true; Ret found.

Definition stdskl_begin (l : stdskl) : outcome nat := link_at (mem l) Rt 0 (end_node l).
Definition stdskl_end (l : stdskl) : nat := end_node l.
Definition stdskl_is_end (l : stdskl) (it : nat) : bool := bool_decide (it = end_node l).
Definition stdskl_is_begin (l : stdskl) (it : nat) : outcome bool := b ← stdskl_begin l; Ret (bool_decide (it = b)).
Definition stdskl_it_next (l : stdskl) (it : nat) : outcome nat := link_at (mem l) Rt 0 it.
Definition stdskl_it_prev (l : stdskl) (it : nat) : outcome nat := link_at (mem l) Lt 0 it.
Definition stdskl_last (l : stdskl) : outcome nat := if sk_size l =? 0 then Fault else stdskl_it_prev l (end_node l).
Fixpoint stdskl_it_advance (num_advance : nat) (l : stdskl) (it : nat) : outcome nat :=
  match num_advance with
  | O => Ret it
  | S n => it ← stdskl_it_next l it; stdskl_it_advance n l it
  end.
Fixpoint stdskl_it_retreat (num_retreat : nat) (l : stdskl) (it : nat) : outcome nat :=
  match num_retreat with
  | O => Ret it
  | S n => it ← stdskl_it_prev l it; stdskl_it_retreat n l it
  end.
Definition stdskl_it_entry (l : stdskl) (it : nat) : outcome (K * V) := n ← node_at (mem l) it; or_else (entry n) Fault.
Definition stdskl_get (l : stdskl) (elem_num : Z) : outcome nat :=
  if elem_num <? Z.shiftr (sk_size l) 1 then it ← stdskl_begin l; stdskl_it_advance (Z.to_nat elem_num) l it
  else stdskl_it_retreat (Z.to_nat (sk_size l - elem_num)) l (end_node l).
Definition stdskl_size (l : stdskl) : Z := sk_size l.
Definition stdskl_empty (l : stdskl) : bool := sk_size l =? 0.

(** ** Linking *)

(** To a node that is taller than the level. *)
Fixpoint taller (fuel : nat) (m : memory) (d : dir) (lvl q : nat) : outcome nat :=
  n ← node_at m q;
  if decide (height n = lvl) then
    match fuel with
    | O => Fault
    | S fuel => q ← link_at m d lvl q; taller fuel m d lvl q
    end
  else Ret q.

(** [n] more levels after this one. *)
Fixpoint link_levels (n : nat) (d : dir) (lvl q node : nat) (m : memory) : outcome memory :=
  m ← set_link d lvl node q m;
  m ← set_link (opposite d) lvl q node m;
  match n with
  | O => Ret m
  | S n => q ← taller (size m) m d lvl q; link_levels n d (S lvl) q node m
  end.

Definition stdskl_low_link_right (ins_pos node : nat) (m : memory) : outcome memory :=
  n ← node_at m node; link_levels (height n) Rt 0 ins_pos node m.
Definition stdskl_low_link_left (ins_pos node : nat) (m : memory) : outcome memory :=
  prev ← link_at m Lt 0 ins_pos; n ← node_at m node; link_levels (height n) Lt 0 prev node m.

(** ** Creating nodes *)

(** Up by a level with chance 1/4; [n]: levels that are left. *)
Fixpoint random_height (n : nat) (h : nat) (s : rand_state) (bits lft : Z) : nat * rand_state * Z * Z :=
  let '(bits, s, lft) := if lft =? 0 then let '(b, s) := stdrand32 s in (b, s, 32) else (bits, s, lft) in
  let keep_going := Z.land bits 3 =? 3 in
  let lft := lft - 2 in
  let bits := Z.shiftr bits 2 in
  match n with
  | S n => if keep_going then random_height n (S h) s bits lft else (h, s, bits, lft)
  | O => (h, s, bits, lft)
  end.

(** A new node; the sentinel has no entry. *)
Definition new_node (h : nat) (kv : option (K * V)) : stdskl_node := mk_sn h (repeat 0%nat (S h)) (repeat 0%nat (S h)) kv.

(** The levels of the old sentinel that are in use are moved to the new one;
    answers the level after the last of them. *)
Fixpoint move_levels (n lvl e e' : nat) (m : memory) : outcome (memory * nat) :=
  p ← link_at m Lt lvl e;
  if decide (p = e) then Ret (m, lvl)
  else
    m ← set_link Lt lvl e' p m;
    m ← set_link Rt lvl p e' m;
    q ← link_at m Rt lvl e;
    m ← set_link Rt lvl e' q m;
    m ← set_link Lt lvl q e' m;
    match n with
    | O => Ret (m, S lvl)
    | S n => move_levels n (S lvl) e e' m
    end.

Fixpoint self_levels (n lvl e : nat) (m : memory) : outcome memory :=
  m ← set_link Lt lvl e e m;
  m ← set_link Rt lvl e e m;
  match n with
  | O => Ret m
  | S n => self_levels n (S lvl) e m
  end.

(** A taller sentinel. *)
Definition grow_end (h : nat) (next : nat) (l : stdskl) : outcome (stdskl * nat) :=
  let e := end_node l in let e' := brk l in
  n ← node_at (mem l) e;
  let h' := if decide (h < STDSKL_MAX_HEIGHT)%nat then S h else h in
  let m := <[e' := new_node h' None]> (mem l) in
  '(m, lvl) ← move_levels (height n) 0 e e' m;
  m ← self_levels (h' - lvl) lvl e' m;
  Ret (mk_skl (delete e m) (S (brk l)) e' (sk_size l) (seed l) (rand_bits l) (bits_left l), if decide (next = e) then e' else next).

(** ** Inserting *)

(** Whether the key may go in front of [next]; the comparison with its key. *)
Definition fits (l : stdskl) (key : K) (prev next : nat) : outcome (bool * Z) :=
  let e := end_node l in
  c ← (if decide (next = e) then Ret (-1) else k ← key_at (mem l) next; Ret (cmp_fcn key k));
  if bool_decide (next <> e) && (0 <? c) then Ret (false, c)
  else if decide (prev = e) then Ret (true, c)
  else k ← key_at (mem l) prev; Ret (negb (cmp_fcn key k <? 0), c).

(** The position for a key: the hint, the one after it, or a search. *)
Definition insert_pos (l : stdskl) (hint : bool) (next : nat) (key : K) : outcome (nat * Z) :=
  let search := '(found, p) ← stdskl_low_find_right l key true; Ret (p, if found : bool then 0 else 1) in
  if hint then
    prev ← link_at (mem l) Lt 0 next;
    '(ok, c) ← fits l key prev next;
    if ok : bool then Ret (next, c)
    else
      next' ← link_at (mem l) Rt 0 next;
      '(ok, c) ← fits l key next next';
      if ok : bool then Ret (next', c) else search
  else search.

(** One key and value.  [ok]: the answers of malloc for the node and for the
    sentinel; the answer: the node inserted or overwritten, [None] when there is
    no memory, and the position it is linked in front of. *)
Definition insert_one (ok : bool * bool) (overwrite hint : bool) (next : nat) (key : K) (val : V) (l : stdskl)
    : outcome (option nat * nat * stdskl) :=
  '(next, c) ← insert_pos l hint next key;
  if negb overwrite || bool_decide (next = end_node l) || negb (c =? 0) then
    let '(h, s, bits, lft) := random_height STDSKL_MAX_HEIGHT 0 (seed l) (rand_bits l) (bits_left l) in
    let l := mk_skl (mem l) (brk l) (end_node l) (sk_size l) s bits lft in
    if negb (fst ok) then Ret (None, next, l)
    else
      let node := brk l in
      n ← node_at (mem l) (end_node l);
      let l := mk_skl (<[node := new_node h (Some (key, val))]> (mem l)) (S node) (end_node l) (sk_size l) s bits lft in
      if decide (height n < h)%nat then
        if negb (snd ok) then Ret (None, next, mk_skl (delete node (mem l)) (brk l) (end_node l) (sk_size l) s bits lft)
        else
          '(l, next) ← grow_end h next l;
          m ← stdskl_low_link_left next node (mem l);
          m ← stdskl_low_link_right next node m;
          Ret (Some node, next, mk_skl m (brk l) (end_node l) (sk_size l + 1) s bits lft)
      else
        m ← stdskl_low_link_left next node (mem l);
        m ← stdskl_low_link_right next node m;
        Ret (Some node, next, mk_skl m (brk l) (end_node l) (sk_size l + 1) s bits lft)
  else
    n ← node_at (mem l) next;
    Ret (Some next, next, mk_skl (<[next := mk_sn (height n) (prevs n) (nexts n) (Some (key, val))]> (mem l))
                            (brk l) (end_node l) (sk_size l) (seed l) (rand_bits l) (bits_left l)).

(** A sequence of keys and values; answers the first node inserted. *)
Fixpoint insert_seq (overwrite hint : bool) (next : nat) (first : option nat) (kvs : list ((bool * bool) * K * V)) (l : stdskl)
    : outcome (bool * nat * stdskl) :=
  match kvs with
  | [] => Ret (true, default (end_node l) first, l)
  | (ok, key, val) :: kvs =>
      '(node, next, l) ← insert_one ok overwrite hint next key val l;
      match node with
      | None => Ret (false, default (end_node l) first, l)
      | Some p => insert_seq overwrite true next (match first with Some _ => first | None => Some p end) kvs l
      end
  end.
Definition stdskl_low_insert (overwrite hint : bool) (it : nat) (kvs : list ((bool * bool) * K * V)) (l : stdskl)
    : outcome (bool * nat * stdskl) := insert_seq overwrite hint it None kvs l.

(** The sequences, arrays and repetitions of the callers are the list [kvs]. *)
Definition stdskl_put_seq_n (hint : bool) (it : nat) (kvs : list ((bool * bool) * K * V)) (l : stdskl) := stdskl_low_insert true hint it kvs l.
Definition stdskl_put_seq (hint : bool) (it : nat) (kvs : list ((bool * bool) * K * V)) (l : stdskl) := stdskl_low_insert true hint it kvs l.
Definition stdskl_put_n (hint : bool) (it : nat) (kvs : list ((bool * bool) * K * V)) (l : stdskl) := stdskl_put_seq_n hint it kvs l.
Definition stdskl_put (ok : bool * bool) (hint : bool) (it : nat) (key : K) (val : V) (l : stdskl) := stdskl_put_n hint it [(ok, key, val)] l.
Definition stdskl_insert_seq_n (hint : bool) (it : nat) (kvs : list ((bool * bool) * K * V)) (l : stdskl) := stdskl_low_insert false hint it kvs l.
Definition stdskl_insert_seq (hint : bool) (it : nat) (kvs : list ((bool * bool) * K * V)) (l : stdskl) := stdskl_low_insert false hint it kvs l.
Definition stdskl_insert_n (hint : bool) (it : nat) (kvs : list ((bool * bool) * K * V)) (l : stdskl) := stdskl_insert_seq_n hint it kvs l.
Definition stdskl_insert (ok : bool * bool) (hint : bool) (it : nat) (key : K) (val : V) (l : stdskl) := stdskl_insert_n hint it [(ok, key, val)] l.
Definition stdskl_insert_rep (oks : list (bool * bool)) (hint : bool) (it : nat) (key : K) (val : V) (l : stdskl) :=
  stdskl_low_insert false hint it (map (fun ok => (ok, key, val)) oks) l.

(** ** Erasing *)

(** The nodes from [next] on are freed, up to [num_erase] of them, or up to
    [stop]; [-1]: the largest count. *)
Fixpoint free_nodes (fuel : nat) (e : nat) (stop : option nat) (num_erase : Z) (next max_lvl : nat) (erased : Z) (m : memory)
    : outcome (memory * nat * nat * Z) :=
  if (erased =? num_erase) || bool_decide (Some next = stop) then Ret (m, next, max_lvl, erased)
  else
    match fuel with
    | O => Fault
    | S fuel =>
        if decide (next = e) then Fault
        else
          x ← node_at m next;
          p ← link_at m Rt 0 next;
          free_nodes fuel e stop num_erase p (Nat.max max_lvl (height x)) (erased + 1) (delete next m)
    end.

(** The two parts of the list are joined on [n] levels above this one. *)
Fixpoint stitch (n lvl prev next : nat) (m : memory) : outcome memory :=
  m ← set_link Rt lvl prev next m;
  m ← set_link Lt lvl next prev m;
  match n with
  | O => Ret m
  | S n =>
      prev ← taller (size m) m Lt lvl prev;
      next ← taller (size m) m Rt lvl next;
      stitch n (S lvl) prev next m
  end.

(** Answers the count and the node after the last one erased. *)
Definition stdskl_low_erase (b : nat) (e : option nat) (num_erase : Z) (l : stdskl) : outcome (Z * nat * stdskl) :=
  prev ← link_at (mem l) Lt 0 b;
  '(m, next, max_lvl, erased) ← free_nodes (size (mem l)) (end_node l) e num_erase b 0 0 (mem l);
  m ← stitch max_lvl 0 prev next m;
  Ret (erased, next, mk_skl m (brk l) (end_node l) (sk_size l - erased) (seed l) (rand_bits l) (bits_left l)).
Definition stdskl_erase_n (it : nat) (num_erase : Z) (l : stdskl) : outcome (nat * stdskl) :=
  '(_, it, l) ← stdskl_low_erase it None num_erase l; Ret (it, l).
Definition stdskl_erase (it : nat) (l : stdskl) : outcome (nat * stdskl) := stdskl_erase_n it 1 l.
Definition stdskl_erase_seq (b e : nat) (l : stdskl) : outcome (Z * nat * stdskl) := stdskl_low_erase b (Some e) (-1) l.

(** Every entry of a key. *)
Fixpoint erase_key_loop (fuel : nat) (key : K) (it : nat) (ret : Z) (l : stdskl) : outcome (Z * stdskl) :=
  if decide (it = end_node l) then Ret (ret, l)
  else
    k ← key_at (mem l) it;
    if cmp_fcn key k =? 0 then
      match fuel with
      | O => Fault
      | S fuel => '(it, l) ← stdskl_erase it l; erase_key_loop fuel key it (ret + 1) l
      end
    else Ret (ret, l).
Definition stdskl_erase_key (key : K) (l : stdskl) : outcome (Z * stdskl) :=
  it ← stdskl_lowerb l key; erase_key_loop (size (mem l)) key it 0 l.

(** ** Construction *)

(** The sentinel refers to itself, from a level down. *)
Fixpoint self_down (lvl e : nat) (m : memory) : outcome memory :=
  m ← set_link Lt lvl e e m;
  m ← set_link Rt lvl e e m;
  match lvl with
  | O => Ret m
  | S lvl => self_down lvl e m
  end.

Fixpoint clear_loop (fuel : nat) (e curr : nat) (m : memory) : outcome memory :=
  if decide (curr = e) then Ret m
  else
    match fuel with
    | O => Fault
    | S fuel => next ← link_at m Rt 0 curr; clear_loop fuel e next (delete curr m)
    end.
Definition stdskl_clear (l : stdskl) : outcome stdskl :=
  let e := end_node l in
  curr ← link_at (mem l) Rt 0 e;
  m ← clear_loop (size (mem l)) e curr (mem l);
  n ← node_at m e;
  m ← self_down (height n) e m;
  Ret (mk_skl m (brk l) e 0 (seed l) (rand_bits l) (bits_left l)).

(** [s]: the state of the generator, seeded from the clock; [bits]: what the
    memory holds; [None]: no memory for the sentinel. *)
Definition stdskl_construct (ok : bool) (s : rand_state) (bits : Z) : outcome (option stdskl) :=
  if ok then
    m ← self_down 4 0 {[ 0%nat := new_node 4 None ]};
    Ret (Some (mk_skl m 1 0 0 s bits 0))
  else Ret None.

(** Reclaims the nodes; answers what is left of the memory. *)
Definition stdskl_destruct (l : stdskl) : outcome memory :=
  l ← stdskl_clear l; Ret (delete (end_node l) (mem l)).

(** [n] entries from an iterator on. *)
Fixpoint seq_entries (n : nat) (l : stdskl) (it : nat) : outcome (list (K * V)) :=
  match n with
  | O => Ret []
  | S n => kv ← stdskl_it_entry l it; it ← stdskl_it_next l it; kvs ← seq_entries n l it; Ret (kv :: kvs)
  end.

(** [ok]: the answer of malloc for the sentinel; [oks]: those for the nodes. *)
Definition stdskl_copy_construct (ok : bool) (oks : nat -> bool * bool) (s : rand_state) (bits : Z) (src : stdskl) : outcome (option stdskl) :=
  dst ← stdskl_construct ok s bits;
  match dst with
  | None => Ret None
  | Some dst =>
      it ← stdskl_begin src;
      kvs ← seq_entries (Z.to_nat (sk_size src)) src it;
      '(st, _, dst) ← stdskl_insert_seq_n false (end_node dst) (imap (fun i kv => (oks i, kv.1, kv.2)) kvs) dst;
      if st : bool then Ret (Some dst) else _ ← stdskl_destruct dst; Ret None
  end.

Definition stdskl_swap (l1 l2 : stdskl) : stdskl * stdskl := (l2, l1).

(** Of two different lists; answers the status and the new [dst]. *)
Definition stdskl_set_eq (ok : bool) (oks : nat -> bool * bool) (s : rand_state) (bits : Z) (dst src : stdskl) : outcome (bool * stdskl) :=
  cpy ← stdskl_copy_construct ok oks s bits src;
  match cpy with
  | None => Ret (false, dst)
  | Some cpy => let '(dst, cpy) := stdskl_swap dst cpy in _ ← stdskl_destruct cpy; Ret (true, dst)
  end.

Definition stdskl_dseed (bytes : list Z) (l : stdskl) : stdskl :=
  mk_skl (mem l) (brk l) (end_node l) (sk_size l) (stdrand32_dseed (HashCode.stdhcode_sfh bytes)) (rand_bits l) 0.
End skl.
