(* ===== verification/StdSklMem.v ===== *)
(** * StdSklMem: the memory of a skip list

    A memory is seen through the height and entry of its nodes and through
    their links; on every level, the nodes that reach it form a ring through the
    sentinel, in both directions.  Then what the loops of stdskl.c that join nodes
    level by level do to the links: [link_levels] around a new node, [stitch]
    across a gap. *)
From stdpp Require Import base list gmap numbers option sets.
From Stdlib Require Import ZArith Lia.
From S2P Require Import Prelude NetTypes StdSkl.

#[export] Instance dir_eq_dec : EqDecision dir.
Proof. solve_decision. Defined.

Lemma opposite_invol d : opposite (opposite d) = d.
Proof. by destruct d. Qed.

(** ** Rings *)

(** The first of a list of addresses, and the last one, the sentinel when there
    is none. *)
Definition first (e : nat) (l : list nat) : nat := match l with [] => e | p :: _ => p end.
Fixpoint final (e : nat) (l : list nat) : nat := match l with [] => e | p :: l => final p l end.

Lemma first_app e l1 l2 : first e (l1 ++ l2) = first (first e l2) l1.
Proof. by destruct l1. Qed.
Lemma final_app e l1 l2 : final e (l1 ++ l2) = final (final e l1) l2.
Proof. revert e. induction l1 as [|x l1 IH]; intros e; cbn; auto. Qed.
Lemma final_reverse e l : final e l = first e (reverse l).
Proof. revert e. induction l as [|x l IH]; intros e; [done|]. rewrite reverse_cons, first_app. apply IH. Qed.
Lemma first_in e l : first e l ∈ e :: l.
Proof. destruct l; cbn; [left|right; left]. Qed.
Lemma final_in e l : final e l ∈ e :: l.
Proof.
  revert e. induction l as [|x l IH]; intros e; cbn; [left|]. right. apply IH.
Qed.

(** [f] leads from [p] through the list to [q]. *)
Fixpoint chain (f : nat -> option nat) (p : nat) (l : list nat) (q : nat) : Prop :=
  match l with [] => f p = Some q | x :: l => f p = Some x /\ chain f x l q end.
(** ... to the last of the list; from the first of the list. *)
Fixpoint upto (f : nat -> option nat) (p : nat) (l : list nat) : Prop :=
  match l with [] => True | x :: l => f p = Some x /\ upto f x l end.
Definition after (f : nat -> option nat) (l : list nat) (q : nat) : Prop :=
  match l with [] => True | x :: l => chain f x l q end.

Lemma chain_cut f p l1 l2 q :
  chain f p (l1 ++ l2) q <-> upto f p l1 /\ f (final p l1) = Some (first q l2) /\ after f l2 q.
Proof.
  revert p. induction l1 as [|x l1 IH]; intros p; cbn; [|rewrite IH; tauto].
  destruct l2; cbn; tauto.
Qed.

Lemma upto_ext f g p l : NoDup (p :: l) -> (forall y, y ∈ p :: l -> y <> final p l -> g y = f y) -> upto f p l -> upto g p l.
Proof.
  revert p. induction l as [|x l IH]; intros p Hnd Hg; [done|]. cbn. intros [H1 H2].
  apply NoDup_cons in Hnd as [Hp Hnd]. split; [|apply IH; [done| |done]].
  - rewrite Hg; [done|left|]. cbn. intros ->. apply Hp, final_in.
  - intros y Hy Hne. apply Hg; [by right|done].
Qed.
Lemma chain_ext f g p l q : (forall y, y ∈ p :: l -> g y = f y) -> chain f p l q -> chain g p l q.
Proof.
  revert p. induction l as [|x l IH]; intros p Hg; cbn; [by rewrite Hg by left|]. intros [H1 H2].
  split; [by rewrite Hg by left|]. apply IH; [|done]. intros y Hy. apply Hg. by right.
Qed.
Lemma after_ext f g l q : (forall y, y ∈ l -> g y = f y) -> after f l q -> after g l q.
Proof. destruct l as [|x l]; [done|]. apply chain_ext. Qed.
Lemma after_app f l1 l2 q : after f (l1 ++ l2) q -> after f l2 q.
Proof. destruct l1 as [|x l1]; [done|]. cbn. intros (_ & _ & ?)%chain_cut. done. Qed.

(** A ring through the sentinel. *)
Definition ring (f : nat -> option nat) (e : nat) (l : list nat) : Prop := chain f e l e.

Lemma ring_link f e l1 l2 : ring f e (l1 ++ l2) -> f (final e l1) = Some (first e l2).
Proof. intros (_ & H & _)%chain_cut. exact H. Qed.

(** The part of the list between two nodes is replaced by another. *)
Lemma ring_replace f g e l1 k k' l2 :
  NoDup (e :: l1 ++ l2) -> ring f e (l1 ++ k ++ l2) ->
  chain g (final e l1) k' (first e l2) -> (forall y, y ∈ e :: l1 ++ l2 -> y <> final e l1 -> g y = f y) ->
  ring g e (l1 ++ k' ++ l2).
Proof.
  intros Hnd (Hu & _ & Ha)%chain_cut Hc Hg. apply after_app in Ha. apply NoDup_cons in Hnd as [He Hnd].
  pose proof Hnd as (Hn1 & Hn2 & _)%NoDup_app. apply chain_cut. rewrite elem_of_app in He.
  assert (Hl2 : forall y, y ∈ l2 -> g y = f y).
  { intros y Hy. apply Hg; [right; rewrite elem_of_app; by right|]. intros ->. pose proof (final_in e l1) as [H|H]%elem_of_cons.
    - rewrite H in Hy. tauto.
    - exact (Hn2 _ H Hy). }
  split; [|split].
  - apply (upto_ext f); [constructor; [tauto|done]| |done]. intros y Hy Hne. apply Hg; [|done].
    apply elem_of_cons in Hy as [->|Hy]; [left|right]. rewrite elem_of_app. by left.
  - destruct k'; cbn in *; tauto.
  - destruct k' as [|x k']; cbn in *; [by eapply after_ext|]. destruct Hc as [_ Hc]. apply chain_cut.
    rewrite <-(app_nil_r k') in Hc. apply chain_cut in Hc as (? & ? & _). eauto using after_ext.
Qed.

(** ** The view of a memory *)
Section view.
Context {K V : Type}.
Implicit Types (m : gmap nat (@stdskl_node K V)) (d : dir) (l p q e : nat).

Definition info m p : option (nat * option (K * V)) := (fun n => (height n, entry n)) <$> m !! p.
Definition hgt m p : option nat := height <$> m !! p.
Definition lk m d l p : option nat := n ← m !! p; links d n !! l.
Definition wf m : Prop := forall p n d, m !! p = Some n -> length (links d n) = S (height n).

Lemma info_hgt m p h o : info m p = Some (h, o) -> hgt m p = Some h.
Proof. unfold info, hgt. destruct (m !! p); cbn; congruence. Qed.
Lemma hgt_node m p h : hgt m p = Some h -> exists n, m !! p = Some n /\ height n = h /\ node_at m p = Ret n.
Proof. unfold hgt, node_at. destruct (m !! p) as [n|]; cbn; [|done]. intros [= <-]. by exists n. Qed.
Lemma link_at_lk m d l p q : lk m d l p = Some q -> link_at m d l p = Ret q.
Proof.
  unfold lk, link_at, node_at. destruct (m !! p) as [n|]; cbn; [|done]. by intros ->.
Qed.
Lemma lk_hgt m d l p q : wf m -> lk m d l p = Some q -> exists h, hgt m p = Some h /\ (l <= h)%nat.
Proof.
  intros Hw. unfold lk, hgt. destruct (m !! p) as [n|] eqn:E; cbn; [|done]. intros Hl%lookup_lt_Some.
  rewrite (Hw _ _ _ E) in Hl. eexists. split; [done|lia].
Qed.

(** [m'] has the nodes of [m] and the links of [f]. *)
Record relinked m m' (f : dir -> nat -> nat -> option nat) : Prop := mk_relinked
  { rl_wf : wf m'; rl_info : forall p, info m' p = info m p; rl_lk : forall d l p, lk m' d l p = f d l p }.

Lemma rl_hgt m m' f p : relinked m m' f -> hgt m' p = hgt m p.
Proof.
  intros R. pose proof (rl_info _ _ _ R p) as H. revert H. unfold info, hgt.
  destruct (m !! p), (m' !! p); cbn; congruence.
Qed.
Lemma rl_trans m1 m2 m3 f g h : relinked m1 m2 f -> relinked m2 m3 g -> (forall d l p, g d l p = h d l p) -> relinked m1 m3 h.
Proof. intros [] [] H. constructor; [done|congruence|]. intros. rewrite <-H. auto. Qed.

Definition upd d l p q (f : dir -> nat -> nat -> option nat) : dir -> nat -> nat -> option nat := fun d' l' p' =>
  if decide (d' = d /\ l' = l /\ p' = p) then Some q else f d' l' p'.

Lemma skl_set_link_ok d l p q m h : wf m -> hgt m p = Some h -> (l <= h)%nat ->
  exists m', set_link d l p q m = Ret m' /\ relinked m m' (upd d l p q (lk m)).
Proof.
  intros Hw (n & Hn & <- & Hna)%hgt_node Hl. unfold set_link. rewrite Hna. cbn [mbind outcome_bind].
  rewrite decide_True by (rewrite (Hw _ _ _ Hn); lia). eexists. split; [done|].
  pose proof (Hw _ _ Lt Hn) as HL. pose proof (Hw _ _ Rt Hn) as HR. cbn in HL, HR. constructor.
  - intros p' n' d'. destruct (decide (p' = p)) as [->|Hp].
    + rewrite lookup_insert_eq. intros [= <-]. destruct d, d'; cbn; rewrite ?length_insert; done.
    + rewrite lookup_insert_ne by done. apply Hw.
  - intros p'. unfold info. destruct (decide (p' = p)) as [->|Hp].
    + rewrite lookup_insert_eq, Hn. by destruct d.
    + by rewrite lookup_insert_ne.
  - intros d' l' p'. unfold lk, upd. destruct (decide (p' = p)) as [->|Hp].
    + rewrite lookup_insert_eq, Hn. cbn. case_decide as H.
      * destruct H as (-> & -> & _). destruct d; cbn; apply list_lookup_insert_eq; lia.
      * destruct d, d'; cbn; try done; apply list_lookup_insert_ne; intros ->; auto.
    + rewrite lookup_insert_ne by done. case_decide; naive_solver.
Qed.

(** ** Items *)
Record item := mk_item { ip : nat; ih : nat; ikv : K * V }.
Implicit Types (x : item) (xs ys zs : list item).

(** The addresses of the items that reach a level. *)
Definition lptrs l xs : list nat := ip <$> filter (fun x => (l <= ih x)%nat) xs.

Lemma lptrs_app l xs ys : lptrs l (xs ++ ys) = lptrs l xs ++ lptrs l ys.
Proof. unfold lptrs. by rewrite filter_app, fmap_app. Qed.
Lemma lptrs_cons_le l x xs : (l <= ih x)%nat -> lptrs l (x :: xs) = ip x :: lptrs l xs.
Proof. intros. unfold lptrs. by rewrite filter_cons_True. Qed.
Lemma lptrs_cons_gt l x xs : (ih x < l)%nat -> lptrs l (x :: xs) = lptrs l xs.
Proof. intros. unfold lptrs. rewrite filter_cons_False by lia. done. Qed.
Lemma lptrs_reverse l xs : lptrs l (reverse xs) = reverse (lptrs l xs).
Proof.
  induction xs as [|x xs IH]; [done|]. rewrite reverse_cons, lptrs_app, IH. destruct (decide (l <= ih x)%nat).
  - rewrite !lptrs_cons_le by done. by rewrite reverse_cons.
  - rewrite !lptrs_cons_gt by lia. apply app_nil_r.
Qed.
Lemma elem_of_lptrs l xs p : p ∈ lptrs l xs <-> exists x, p = ip x /\ x ∈ xs /\ (l <= ih x)%nat.
Proof. unfold lptrs. rewrite list_elem_of_fmap. setoid_rewrite list_elem_of_filter. naive_solver. Qed.
Lemma lptrs_sub l xs p : p ∈ lptrs l xs -> p ∈ ip <$> xs.
Proof. rewrite elem_of_lptrs, list_elem_of_fmap. naive_solver. Qed.
Lemma lptrs_0 xs : lptrs 0 xs = ip <$> xs.
Proof. induction xs as [|x xs IH]; [done|]. rewrite lptrs_cons_le by lia. cbn. by rewrite IH. Qed.
Lemma lptrs_NoDup l e xs : NoDup (e :: (ip <$> xs)) -> NoDup (e :: lptrs l xs).
Proof.
  intros [He Hn]%NoDup_cons. constructor; [intros H%lptrs_sub; done|]. clear He. induction xs as [|x xs IH]; [constructor|].
  cbn in Hn. apply NoDup_cons in Hn as [Hx Hn]. destruct (decide (l <= ih x)%nat).
  - rewrite lptrs_cons_le by done. constructor; [intros H%lptrs_sub; done|auto].
  - rewrite lptrs_cons_gt by lia. auto.
Qed.

(** The heights of the items and of the sentinel are those of the nodes. *)
Definition tall m e H xs : Prop := hgt m e = Some H /\ forall x, x ∈ xs -> hgt m (ip x) = Some (ih x).

Lemma tall_first m e H xs l : tall m e H xs -> (l <= H)%nat -> exists h, hgt m (first e (lptrs l xs)) = Some h /\ (l <= h)%nat.
Proof.
  intros [He Hx] Hl. pose proof (first_in e (lptrs l xs)) as [->|(x & -> & Hi & ?)%elem_of_lptrs]%elem_of_cons; eauto.
Qed.
Lemma tall_relinked m m' f e H xs : relinked m m' f -> tall m e H xs -> tall m' e H xs.
Proof. intros R [He Hx]. split; [by rewrite (rl_hgt _ _ _ _ R)|]. intros x Hi. rewrite (rl_hgt _ _ _ _ R). auto. Qed.
Lemma tall_cons m e H x xs : tall m e H (x :: xs) -> hgt m (ip x) = Some (ih x) /\ tall m e H xs.
Proof. intros [He Hx]. split; [apply Hx; left|]. split; [done|]. intros y Hy. apply Hx. by right. Qed.

(** The walk up to a taller node. *)
Lemma taller_ok m d e H l zs fuel : tall m e H zs -> (l < H)%nat -> (length zs <= fuel)%nat ->
  after (lk m d l) (lptrs l zs) e -> taller fuel m d l (first e (lptrs l zs)) = Ret (first e (lptrs (S l) zs)).
Proof.
  revert fuel. induction zs as [|x zs IH]; intros fuel Ht Hl Hf Ha.
  - destruct Ht as [(n & Hn & Hh & Hna)%hgt_node _]. destruct fuel; cbn; rewrite Hna; cbn; by rewrite decide_False by lia.
  - apply tall_cons in Ht as [(n & Hn & Hh & Hna)%hgt_node Ht]. cbn in Hf.
    destruct (decide (ih x < l)%nat); [|destruct (decide (ih x = l)) as [El|]].
    + rewrite lptrs_cons_gt in Ha |- * by lia. rewrite (lptrs_cons_gt (S l)) by lia. apply IH; [done|done|lia|done].
    + rewrite lptrs_cons_le in Ha |- * by lia. rewrite (lptrs_cons_gt (S l)) by lia. destruct fuel as [|fuel]; [lia|].
      cbn in Ha |- *. rewrite Hna. cbn. rewrite decide_True by lia.
      assert (lk m d l (ip x) = Some (first e (lptrs l zs)) /\ after (lk m d l) (lptrs l zs) e) as [Hq Ha'].
      { destruct (lptrs l zs); cbn in Ha |- *; tauto. }
      rewrite (link_at_lk _ _ _ _ _ Hq). cbn. apply IH; [done|done|lia|done].
    + rewrite !lptrs_cons_le by lia. destruct fuel; [lia|]. cbn. rewrite Hna. cbn. by rewrite decide_False by lia.
Qed.
End view.

(** * Linking on all levels *)

Section link.
Context {K V : Type}.
Implicit Types (m : gmap nat (@stdskl_node K V)) (d : dir) (l p q e : nat) (zs ys xs : list (@item K V)).

(** On the levels from [lo] to [hi], [a] and [b] are joined. *)
Definition joined d (lo hi : nat) (a b : nat -> nat) (f : dir -> nat -> nat -> option nat) : dir -> nat -> nat -> option nat :=
  fun d' j p =>
    if decide (lo <= j <= hi)%nat then
      if decide (d' = d /\ p = a j) then Some (b j)
      else if decide (d' = opposite d /\ p = b j) then Some (a j) else f d' j p
    else f d' j p.

Lemma joined_at d lo hi a b f j p : (lo <= j <= hi)%nat -> p = a j -> joined d lo hi a b f d j p = Some (b j).
Proof. intros. unfold joined. by rewrite !decide_True. Qed.
Lemma joined_back d lo hi a b f j p : (lo <= j <= hi)%nat -> p = b j -> joined d lo hi a b f (opposite d) j p = Some (a j).
Proof. intros. unfold joined. rewrite decide_True, decide_False, decide_True by (done || by destruct d; intros [? _]). done. Qed.
Lemma joined_level d lo hi a b f d' j p : ~ (lo <= j <= hi)%nat -> joined d lo hi a b f d' j p = f d' j p.
Proof. intros. unfold joined. by rewrite decide_False. Qed.
Lemma joined_other d lo hi a b f j p : p <> a j -> joined d lo hi a b f d j p = f d j p.
Proof.
  intros. unfold joined. destruct (decide (lo <= j <= hi)%nat); [|done].
  rewrite !decide_False; [done| |tauto]. intros [? _]. by destruct d.
Qed.
Lemma joined_other_back d lo hi a b f j p : p <> b j -> joined d lo hi a b f (opposite d) j p = f (opposite d) j p.
Proof.
  intros. unfold joined. destruct (decide (lo <= j <= hi)%nat); [|done].
  rewrite !decide_False; [done|tauto|]. intros [? _]. by destruct d.
Qed.

Lemma joined_step d lo hi a b f d' j p : (lo < hi)%nat ->
  joined d (S lo) hi a b (joined d lo lo (fun _ => a lo) (fun _ => b lo) f) d' j p = joined d lo hi a b f d' j p.
Proof.
  intros. unfold joined. destruct (decide (S lo <= j <= hi)%nat).
  - rewrite (decide_False (P := (lo <= j <= lo)%nat)) by lia. by rewrite (decide_True (P := (lo <= j <= hi)%nat)) by lia.
  - destruct (decide (lo <= j <= lo)%nat) as [Hj|].
    + rewrite (decide_True (P := (lo <= j <= hi)%nat)) by lia. by replace j with lo by lia.
    + by rewrite (decide_False (P := (lo <= j <= hi)%nat)) by lia.
Qed.
Lemma joined_ext d lo hi a b f g d' j p : (forall d j p, f d j p = g d j p) -> joined d lo hi a b f d' j p = joined d lo hi a b g d' j p.
Proof. intros Hf. unfold joined. by rewrite !Hf. Qed.

(** One level. *)
Lemma join_ok d l a b m ha hb : wf m -> hgt m a = Some ha -> (l <= ha)%nat -> hgt m b = Some hb -> (l <= hb)%nat ->
  exists m1 m', set_link d l a b m = Ret m1 /\ set_link (opposite d) l b a m1 = Ret m' /\
    relinked m m' (joined d l l (fun _ => a) (fun _ => b) (lk m)).
Proof.
  intros Hw Ha Hla Hb Hlb. destruct (skl_set_link_ok d l a b m ha Hw Ha Hla) as (m1 & E1 & R1).
  destruct (skl_set_link_ok (opposite d) l b a m1 hb (rl_wf _ _ _ R1)) as (m' & E2 & R2); [by rewrite (rl_hgt _ _ _ _ R1)|done|].
  exists m1, m'. split; [done|]. split; [done|]. eapply rl_trans; [exact R1|exact R2|]. intros d' j p. unfold upd, joined.
  rewrite (rl_lk _ _ _ R1). unfold upd.
  destruct (decide (l <= j <= l)%nat) as [Hj|Hj].
  - assert (j = l) as -> by lia. destruct (decide (d' = d)) as [->|Hd].
    + rewrite decide_False by (intros [? _]; by destruct d). destruct (decide (p = a)); [by rewrite !decide_True|].
      rewrite decide_False by tauto. rewrite decide_False by tauto. rewrite decide_False; [done|]. intros [? _]. by destruct d.
    + rewrite (decide_False (P := d' = d /\ l = l /\ p = a)) by tauto. rewrite (decide_False (P := d' = d /\ p = a)) by tauto.
      destruct (decide (d' = opposite d /\ p = b)) as [[-> ->]|]; [by rewrite decide_True|]. rewrite decide_False by tauto. done.
  - rewrite !decide_False by (intros (_ & -> & _); lia). done.
Qed.

Lemma length_size m zs : NoDup (ip <$> zs) -> (forall x, x ∈ zs -> hgt m (ip x) = Some (ih x)) -> (length zs <= size m)%nat.
Proof.
  intros Hn Hx. rewrite <-(length_fmap ip zs), <-(size_list_to_set (C := gset nat) _ Hn), <-size_dom. apply subseteq_size.
  intros p. rewrite elem_of_list_to_set, list_elem_of_fmap. intros (x & -> & Hi). specialize (Hx x Hi).
  unfold hgt in Hx. apply elem_of_dom. destruct (m !! ip x); [eauto|done].
Qed.

(** The walk uses the links in one direction, of the items. *)
Lemma taller_size m d e H l zs : tall m e H zs -> (l < H)%nat -> NoDup (ip <$> zs) ->
  after (lk m d l) (lptrs l zs) e -> taller (size m) m d l (first e (lptrs l zs)) = Ret (first e (lptrs (S l) zs)).
Proof. intros Ht Hl Hn Ha. eapply taller_ok; [done|done| |done]. apply length_size; [done|apply Ht]. Qed.

Lemma link_levels_ok n d l node h e H zs m :
  wf m -> hgt m node = Some h -> (l + n <= h)%nat -> (h <= H)%nat -> tall m e H zs -> NoDup (ip <$> zs) -> node ∉ ip <$> zs ->
  (forall j, (l <= j < l + n)%nat -> after (lk m d j) (lptrs j zs) e) ->
  exists m', link_levels n d l (first e (lptrs l zs)) node m = Ret m' /\
    relinked m m' (joined d l (l + n) (fun _ => node) (fun j => first e (lptrs j zs)) (lk m)).
Proof.
  revert l m. induction n as [|n IH]; intros l m Hw Hh Hl HH Ht Hn Hd Ha;
    destruct (tall_first m e H zs l Ht ltac:(lia)) as (hq & Hq & Hlq);
    destruct (join_ok d l node (first e (lptrs l zs)) m h hq Hw Hh ltac:(lia) Hq Hlq) as (m1 & m' & E1 & E2 & R);
    cbn [link_levels]; rewrite E1; cbn [mbind outcome_bind]; rewrite E2; cbn [mbind outcome_bind].
  - exists m'. split; [done|]. eapply rl_trans; [constructor; [exact Hw|done|done]|exact R|]. intros d' j p.
    unfold joined. rewrite Nat.add_0_r. destruct (decide (l <= j <= l)%nat) as [?|]; [|done]. by assert (j = l) as -> by lia.
  - assert (Ht' := tall_relinked _ _ _ _ _ _ R Ht).
    assert (Ha' : forall j, (l <= j < l + S n)%nat -> after (lk m' d j) (lptrs j zs) e).
    { intros j Hj. eapply after_ext; [|by apply Ha]. intros y Hy. rewrite (rl_lk _ _ _ R). apply joined_other.
      intros ->. apply Hd. by eapply lptrs_sub. }
    rewrite (taller_size m' d e H l zs) by (done || lia || apply Ha'; lia). cbn [mbind outcome_bind].
    destruct (IH (S l) m' (rl_wf _ _ _ R)) as (m2 & E3 & R2); [by rewrite (rl_hgt _ _ _ _ R)|lia|done|done|done|done|intros; apply Ha'; lia|].
    exists m2. split; [exact E3|]. eapply rl_trans; [exact R|exact R2|]. intros d' j p.
    rewrite (joined_ext _ _ _ _ _ _ _ _ _ _ (rl_lk _ _ _ R)). replace (S l + n)%nat with (l + S n)%nat by lia.
    rewrite <-(joined_step d l (l + S n)) by lia. done.
Qed.

(** The links that lead away from the gap stay as they are. *)
Lemma stitch_ok n l e H ys zs m :
  wf m -> (l + n <= H)%nat -> tall m e H ys -> tall m e H zs -> NoDup (ip <$> ys) -> NoDup (ip <$> zs) ->
  e ∉ ip <$> ys -> e ∉ ip <$> zs -> (forall p, p ∈ ip <$> ys -> p ∉ ip <$> zs) ->
  (forall j, (l <= j < l + n)%nat -> after (lk m Lt j) (lptrs j ys) e /\ after (lk m Rt j) (lptrs j zs) e) ->
  exists m', stitch n l (first e (lptrs l ys)) (first e (lptrs l zs)) m = Ret m' /\
    relinked m m' (joined Rt l (l + n) (fun j => first e (lptrs j ys)) (fun j => first e (lptrs j zs)) (lk m)).
Proof.
  revert l m. induction n as [|n IH]; intros l m Hw Hl Hty Htz Hny Hnz Hey Hez Hd Ha;
    destruct (tall_first m e H ys l Hty ltac:(lia)) as (hp & Hp & Hlp);
    destruct (tall_first m e H zs l Htz ltac:(lia)) as (hq & Hq & Hlq);
    destruct (join_ok Rt l _ _ m hp hq Hw Hp ltac:(lia) Hq Hlq) as (m1 & m' & E1 & E2 & R);
    cbn [stitch]; rewrite E1; cbn [mbind outcome_bind]; cbn [opposite] in E2; rewrite E2; cbn [mbind outcome_bind].
  - exists m'. split; [done|]. eapply rl_trans; [constructor; [exact Hw|done|done]|exact R|]. intros d' j p.
    unfold joined. rewrite Nat.add_0_r. destruct (decide (l <= j <= l)%nat) as [?|]; [|done]. by assert (j = l) as -> by lia.
  - assert (Hty' := tall_relinked _ _ _ _ _ _ R Hty). assert (Htz' := tall_relinked _ _ _ _ _ _ R Htz).
    assert (Ha' : forall j, (l <= j < l + S n)%nat -> after (lk m' Lt j) (lptrs j ys) e /\ after (lk m' Rt j) (lptrs j zs) e).
    { intros j Hj. destruct (Ha j Hj) as [Hay Haz]. split; (eapply after_ext; [|done]); intros y Hy%lptrs_sub; rewrite (rl_lk _ _ _ R).
      - change Lt with (opposite Rt). apply joined_other_back. intros ->.
        pose proof (first_in e (lptrs l zs)) as [Eq|Hi%lptrs_sub]%elem_of_cons; [rewrite Eq in Hy; done|]. by eapply Hd.
      - apply joined_other. intros ->.
        pose proof (first_in e (lptrs l ys)) as [Eq|Hi%lptrs_sub]%elem_of_cons; [rewrite Eq in Hy; done|]. by eapply Hd. }
    rewrite (taller_size m' Lt e H l ys) by (done || lia || apply Ha'; lia). cbn [mbind outcome_bind].
    rewrite (taller_size m' Rt e H l zs) by (done || lia || apply Ha'; lia). cbn [mbind outcome_bind].
    destruct (IH (S l) m' (rl_wf _ _ _ R)) as (m2 & E3 & R2); [lia|done|done|done|done|done|done|done|intros; apply Ha'; lia|].
    exists m2. split; [exact E3|]. eapply rl_trans; [exact R|exact R2|]. intros d' j p.
    rewrite (joined_ext _ _ _ _ _ _ _ _ _ _ (rl_lk _ _ _ R)). replace (S l + n)%nat with (l + S n)%nat by lia.
    rewrite <-(joined_step Rt l (l + S n)) by lia. done.
Qed.
End link.
