(* ===== verification/StdSklRep.v ===== *)
(** * StdSklRep: lists represented by linked nodes

    The representation of a list of items, and that it is kept by the parts of
    stdskl.c that change the links: a node is linked in, a run of nodes is freed
    and the rest joined, every node is freed, the sentinel is replaced by a taller
    one. *)
From stdpp Require Import base list gmap numbers option sets.
From Stdlib Require Import ZArith Lia.
From S2P Require Import Prelude NetTypes StdSkl StdSklMem.

(** The items in a direction. *)
Definition dirl {A} (d : dir) (xs : list A) : list A := match d with Rt => xs | Lt => reverse xs end.

Lemma elem_of_dirl {A} d (xs : list A) x : x ∈ dirl d xs <-> x ∈ xs.
Proof. destruct d; cbn; [apply elem_of_reverse|done]. Qed.
Lemma dirl_opposite {A} d (xs ys zs : list A) : dirl d xs = reverse ys ++ zs -> dirl (opposite d) xs = reverse zs ++ ys.
Proof.
  destruct d; cbn [dirl opposite]; intros E.
  - by rewrite <-(reverse_involutive xs), E, reverse_app, reverse_involutive.
  - by rewrite E, reverse_app, reverse_involutive.
Qed.

Section rep.
Context {K V : Type}.
Implicit Types (m : gmap nat (@stdskl_node K V)) (d : dir) (l p q e : nat) (zs ys xs : list (@item K V)).

Record rep m e (H : nat) xs : Prop := mk_rep
  { r_wf : wf m;
    r_end : info m e = Some (H, None);
    r_items : forall x, x ∈ xs -> info m (ip x) = Some (ih x, Some (ikv x));
    r_nodup : NoDup (e :: (ip <$> xs));
    r_low : forall x, x ∈ xs -> (ih x <= H)%nat;
    r_ring : forall d l, (l <= H)%nat -> ring (lk m d l) e (lptrs l (dirl d xs)) }.

(** The nodes of the memory. *)
Definition owned m (ps : list nat) : Prop := forall p, is_Some (m !! p) -> p ∈ ps.

Lemma rep_tall m e H xs ys : rep m e H xs -> (forall x, x ∈ ys -> x ∈ xs) -> tall m e H ys.
Proof. intros R Hs. split; [|intros x Hx]; eapply info_hgt; [apply R|apply R; auto]. Qed.

(** The links across a gap, and beyond it. *)
Lemma rep_gap m e H xs d ys zs l : rep m e H xs -> dirl d xs = reverse ys ++ zs -> (l <= H)%nat ->
  lk m d l (first e (lptrs l ys)) = Some (first e (lptrs l zs)) /\ after (lk m d l) (lptrs l zs) e.
Proof.
  intros R E Hl. pose proof (r_ring _ _ _ _ R d l Hl) as Hr. rewrite E, lptrs_app in Hr.
  apply chain_cut in Hr as (_ & Hf & Ha). by rewrite final_reverse, <-lptrs_reverse, reverse_involutive in Hf.
Qed.

Lemma NoDup_dirl m e H xs d : rep m e H xs -> NoDup (e :: (ip <$> dirl d xs)).
Proof.
  intros R. pose proof (r_nodup _ _ _ _ R) as Hn. destruct d; [|done]. cbn [dirl].
  by rewrite (reverse_Permutation xs).
Qed.

(** Other nodes are of no account. *)
Lemma rep_frame m m' e H xs : rep m e H xs -> wf m' -> (forall p, p ∈ e :: (ip <$> xs) -> m' !! p = m !! p) -> rep m' e H xs.
Proof.
  intros [Rw Re Ri Rn Rl Rr] Hw Hm. constructor; [done|..|done|done|].
  - unfold info. rewrite Hm by left. exact Re.
  - intros x Hx. unfold info. rewrite Hm; [by apply Ri|]. right. by apply list_elem_of_fmap_2.
  - intros d l Hl. eapply chain_ext; [|by apply Rr]. intros y Hy. unfold lk. rewrite Hm; [done|].
    apply elem_of_cons in Hy as [->|Hy%lptrs_sub]; [left|right].
    apply list_elem_of_fmap in Hy as (x & -> & Hx%elem_of_dirl). by apply list_elem_of_fmap_2.
Qed.
Lemma wf_insert m p n : wf m -> (forall d, length (links d n) = S (height n)) -> wf (<[p := n]> m).
Proof.
  intros Rw Hn p' n' d. destruct (decide (p' = p)) as [->|?]; [rewrite lookup_insert_eq; by intros [= <-]|].
  rewrite lookup_insert_ne by done. apply Rw.
Qed.
Lemma wf_delete m p : wf m -> wf (delete p m).
Proof. intros Rw p' n' d [? ?]%lookup_delete_Some. by eapply Rw. Qed.
Lemma new_node_links h (kv : option (K * V)) d : length (links d (new_node h kv)) = S (height (new_node h kv)).
Proof. destruct d; cbn; by rewrite repeat_length. Qed.
Lemma rep_add m e H xs p n : rep m e H xs -> p ∉ e :: (ip <$> xs) -> (forall d, length (links d n) = S (height n)) -> rep (<[p := n]> m) e H xs.
Proof.
  intros R Hp Hn. eapply rep_frame; [done|by apply wf_insert; [apply R|]|]. intros q Hq. apply lookup_insert_ne. by intros ->.
Qed.
Lemma rep_del m e H xs p : rep m e H xs -> p ∉ e :: (ip <$> xs) -> rep (delete p m) e H xs.
Proof.
  intros R Hp. eapply rep_frame; [done|apply wf_delete, R|]. intros q Hq. apply lookup_delete_ne. by intros ->.
Qed.

(** On one level, a node between two parts of the list. *)
Lemma ring_node f g e j ys zs (x : item) :
  NoDup (e :: (ip <$> reverse ys ++ zs)) -> ip x ∉ e :: (ip <$> reverse ys ++ zs) ->
  ring f e (lptrs j (reverse ys ++ zs)) ->
  ((j <= ih x)%nat -> g (first e (lptrs j ys)) = Some (ip x) /\ g (ip x) = Some (first e (lptrs j zs))) ->
  (forall p, p <> ip x -> ((j <= ih x)%nat -> p <> first e (lptrs j ys)) -> g p = f p) ->
  ring g e (lptrs j (reverse ys ++ x :: zs)).
Proof.
  intros Hnd Hx Hr Hg1 Hg. rewrite lptrs_app in Hr |- *. apply (lptrs_NoDup j) in Hnd. rewrite lptrs_app in Hnd.
  assert (Hne : forall y, y ∈ e :: lptrs j (reverse ys) ++ lptrs j zs -> y <> ip x).
  { intros y Hy ->. apply Hx. apply elem_of_cons in Hy as [->|Hy]; [left|right]. rewrite <-lptrs_app in Hy. by eapply lptrs_sub. }
  destruct (decide (j <= ih x)%nat) as [Hj|Hj].
  - rewrite lptrs_cons_le by done. apply (ring_replace f g e _ [] [ip x]); [done|done| |].
    + cbn. rewrite final_reverse, <-lptrs_reverse, reverse_involutive. auto.
    + intros y Hy. rewrite final_reverse, <-lptrs_reverse, reverse_involutive. intros. apply Hg; auto.
  - rewrite lptrs_cons_gt by lia. eapply chain_ext; [|exact Hr]. intros y Hy. apply Hg; [by apply Hne|lia].
Qed.

(** [x] is linked between the parts on every level it reaches. *)
Lemma rep_link m m' e H xs ys zs (x : item) :
  rep m e H xs -> xs = reverse ys ++ zs -> info m (ip x) = Some (ih x, Some (ikv x)) -> (ih x <= H)%nat -> ip x ∉ e :: (ip <$> xs) ->
  relinked m m' (joined Rt 0 (ih x) (fun _ => ip x) (fun j => first e (lptrs j zs))
                   (joined Lt 0 (ih x) (fun _ => ip x) (fun j => first e (lptrs j ys)) (lk m))) ->
  rep m' e H (reverse ys ++ x :: zs).
Proof.
  intros R -> Hx Hh Hf L. pose proof (r_nodup _ _ _ _ R) as Hn.
  assert (Hfst : forall j us, (forall y, y ∈ us -> y ∈ reverse ys ++ zs) -> ip x <> first e (lptrs j us)).
  { intros j us Hs E. apply Hf. rewrite E. pose proof (first_in e (lptrs j us)) as [->|Hy%lptrs_sub]%elem_of_cons; [left|right].
    apply list_elem_of_fmap in Hy as (y & -> & Hy). apply list_elem_of_fmap_2. auto. }
  assert (Hfy : forall j, ip x <> first e (lptrs j ys)) by (intros j; apply Hfst; intros y; rewrite elem_of_app, elem_of_reverse; tauto).
  assert (Hfz : forall j, ip x <> first e (lptrs j zs)) by (intros j; apply Hfst; intros y; rewrite elem_of_app; tauto).
  constructor.
  - apply L.
  - rewrite (rl_info _ _ _ L). apply R.
  - intros y Hy. rewrite (rl_info _ _ _ L). rewrite elem_of_app, elem_of_cons in Hy.
    destruct Hy as [Hy|[->|Hy]]; [|done|]; apply R; rewrite elem_of_app; tauto.
  - rewrite fmap_app in Hn, Hf |- *. cbn [fmap list_fmap]. rewrite <-Permutation_middle, Permutation_swap. by constructor.
  - intros y Hy. rewrite elem_of_app, elem_of_cons in Hy. destruct Hy as [Hy|[->|Hy]]; [|done|]; apply R; rewrite elem_of_app; tauto.
  - intros d j Hj. pose proof (r_ring _ _ _ _ R d j Hj) as Hr. destruct d.
    + assert (E : dirl Lt (reverse ys ++ zs) = reverse zs ++ ys) by (cbn; by rewrite reverse_app, reverse_involutive).
      assert (E' : dirl Lt (reverse ys ++ x :: zs) = reverse zs ++ x :: ys)
        by (cbn [dirl]; by rewrite reverse_app, reverse_cons, reverse_involutive, <-app_assoc).
      rewrite E in Hr. rewrite E'. pose proof (NoDup_dirl _ _ _ _ Lt R) as Hn'. rewrite E in Hn'.
      apply (ring_node (lk m Lt j)); [done| |done|..].
      * rewrite <-E. rewrite elem_of_cons, list_elem_of_fmap in Hf |- *. setoid_rewrite elem_of_dirl. done.
      * intros Hjx. rewrite !(rl_lk _ _ _ L). split; [by apply (joined_back Rt); [lia|]|].
        rewrite (joined_other_back Rt) by apply Hfz. by apply joined_at; [lia|].
      * intros p Hp Hpf. rewrite (rl_lk _ _ _ L). destruct (decide (j <= ih x)%nat).
        -- rewrite (joined_other_back Rt) by auto. by apply joined_other.
        -- rewrite !joined_level by lia. done.
    + cbn [dirl] in Hr |- *. apply (ring_node (lk m Rt j)); [done|done|done|..].
      * intros Hjx. rewrite !(rl_lk _ _ _ L). split; [|by apply joined_at; [lia|]].
        rewrite joined_other by (intros E; by apply (Hfy j)). by apply (joined_back Lt); [lia|].
      * intros p Hp Hpf. rewrite (rl_lk _ _ _ L). destruct (decide (j <= ih x)%nat).
        -- rewrite joined_other by auto. apply (joined_other_back Lt). auto.
        -- rewrite !joined_level by lia. done.
Qed.

(** [stdskl_low_link_left] and [stdskl_low_link_right]. *)
Lemma link_in m e H ys zs (x : item) :
  rep m e H (reverse ys ++ zs) -> info m (ip x) = Some (ih x, Some (ikv x)) -> (ih x <= H)%nat ->
  ip x ∉ e :: (ip <$> reverse ys ++ zs) ->
  exists m1 m', stdskl_low_link_left (first e (ip <$> zs)) (ip x) m = Ret m1 /\
    stdskl_low_link_right (first e (ip <$> zs)) (ip x) m1 = Ret m' /\
    (forall p, info m' p = info m p) /\ rep m' e H (reverse ys ++ x :: zs).
Proof.
  intros R Hx Hh Hf. pose proof (r_nodup _ _ _ _ R) as [He Hn]%NoDup_cons. rewrite fmap_app in He, Hn.
  apply NoDup_app in Hn as (Hny & Hd & Hnz). rewrite fmap_reverse, reverse_Permutation in Hny.
  assert (HL : dirl Lt (reverse ys ++ zs) = reverse zs ++ ys) by (cbn; by rewrite reverse_app, reverse_involutive).
  assert (Hty : tall m e H ys) by (eapply rep_tall; [done|]; intros y; rewrite elem_of_app, elem_of_reverse; tauto).
  assert (Htz : tall m e H zs) by (eapply rep_tall; [done|]; intros y; rewrite elem_of_app; tauto).
  assert (Hhx := info_hgt _ _ _ _ Hx).
  assert (Hxy : ip x ∉ ip <$> ys) by (intros Hi; apply Hf; rewrite fmap_app, fmap_reverse, elem_of_cons, elem_of_app, elem_of_reverse; tauto).
  assert (Hxz : ip x ∉ ip <$> zs) by (intros Hi; apply Hf; rewrite fmap_app, elem_of_cons, elem_of_app; tauto).
  destruct (link_levels_ok (ih x) Lt 0 (ip x) (ih x) e H ys m) as (m1 & E1 & R1); [apply R|done|lia|done|done|done|done| |].
  { intros j Hj. by apply (rep_gap _ _ _ _ Lt zs ys j R HL); lia. }
  destruct (link_levels_ok (ih x) Rt 0 (ip x) (ih x) e H zs m1) as (m' & E2 & R2).
  { apply R1. } { by rewrite (rl_hgt _ _ _ _ R1). } { lia. } { done. } { by eapply tall_relinked. } { done. } { done. }
  { intros j Hj. eapply after_ext; [|by apply (rep_gap _ _ _ _ Rt ys zs j R eq_refl); lia].
    intros y Hy%lptrs_sub. rewrite (rl_lk _ _ _ R1). apply (joined_other_back Lt). intros ->.
    pose proof (first_in e (lptrs j ys)) as [E|Hi%lptrs_sub]%elem_of_cons.
    - rewrite E in Hy. apply He. rewrite elem_of_app. tauto.
    - apply (Hd _ ltac:(by rewrite fmap_reverse, elem_of_reverse)). exact Hy. }
  rewrite !lptrs_0 in E1, E2. exists m1, m'. split; [|split; [|split]].
  - unfold stdskl_low_link_left. destruct (rep_gap _ _ _ _ Lt zs ys 0%nat R HL ltac:(lia)) as [Hg _]. rewrite !lptrs_0 in Hg.
    rewrite (link_at_lk _ _ _ _ _ Hg). cbn [mbind outcome_bind]. destruct (hgt_node _ _ _ Hhx) as (n & _ & Hnh & ->). cbn [mbind outcome_bind].
    rewrite Hnh. exact E1.
  - unfold stdskl_low_link_right. rewrite <-(rl_hgt _ _ _ _ R1) in Hhx. destruct (hgt_node _ _ _ Hhx) as (n & _ & Hnh & ->). cbn [mbind outcome_bind].
    rewrite Hnh. exact E2.
  - intros p. by rewrite (rl_info _ _ _ R2), (rl_info _ _ _ R1).
  - eapply rep_link; [exact R|done|done|done|done|]. eapply rl_trans; [exact R1|exact R2|]. intros d j p.
    apply joined_ext. apply R1.
Qed.
End rep.

(** * Nodes taken out *)

Section unlink.
Context {K V : Type}.
Implicit Types (m : gmap nat (@stdskl_node K V)) (d : dir) (l p q e : nat) (zs ys xs ks : list (@item K V)).

(** [m'] is [m] without the nodes of the list. *)
Definition without m m' (ps : list nat) : Prop := forall p, m' !! p = if decide (p ∈ ps) then None else m !! p.

Lemma without_keep m m' ps p : without m m' ps -> p ∉ ps -> m' !! p = m !! p.
Proof. intros W Hp. by rewrite W, decide_False. Qed.
Lemma without_wf m m' ps : without m m' ps -> wf m -> wf m'.
Proof. intros W Hw p n d. rewrite W. case_decide; [done|apply Hw]. Qed.
Lemma without_info m m' ps p : without m m' ps -> p ∉ ps -> info m' p = info m p.
Proof. intros W Hp. unfold info. by rewrite (without_keep _ _ _ _ W). Qed.
Lemma without_lk m m' ps d l p : without m m' ps -> p ∉ ps -> lk m' d l p = lk m d l p.
Proof. intros W Hp. unfold lk. by rewrite (without_keep _ _ _ _ W). Qed.
Lemma without_cons m m' p ps : without (delete p m) m' ps -> without m m' (p :: ps).
Proof.
  intros W q. rewrite W. destruct (decide (q ∈ ps)); [by rewrite decide_True by by right|].
  destruct (decide (q = p)) as [->|]; [rewrite lookup_delete_eq, decide_True by left; done|].
  rewrite lookup_delete_ne by done. by rewrite decide_False by (rewrite elem_of_cons; tauto).
Qed.
Lemma after_delete m p l us e : p ∉ us -> after (lk m Rt l) us e -> after (lk (delete p m) Rt l) us e.
Proof. intros Hp. apply after_ext. intros y Hy. unfold lk. rewrite lookup_delete_ne; [done|]. by intros ->. Qed.
Lemma after_cons f p us e : after f (p :: us) e -> f p = Some (first e us) /\ after f us e.
Proof. destruct us; cbn; tauto. Qed.

(** The loop stops after [ks]: by the count, or at the node [stop]. *)
Definition stops (stop : option nat) (num erased : Z) e ks zs : Prop :=
  (forall k1 x k2, ks = k1 ++ x :: k2 -> (erased + Z.of_nat (length k1) <> num)%Z /\ Some (ip x) <> stop) /\
  ((erased + Z.of_nat (length ks) = num)%Z \/ Some (first e (ip <$> zs)) = stop).

Lemma stops_cons stop num erased e x ks zs : stops stop num erased e (x :: ks) zs ->
  erased <> num /\ Some (ip x) <> stop /\ stops stop num (erased + 1) e ks zs.
Proof.
  intros [H1 H2]. destruct (H1 [] x ks eq_refl) as [Ha Hb]. cbn in Ha, H2. split; [lia|]. split; [done|]. split.
  - intros k1 y k2 ->. destruct (H1 (x :: k1) y k2 eq_refl) as [Hc Hd]. cbn in Hc. split; [lia|done].
  - destruct H2; [left; lia|by right].
Qed.
Lemma stops_count e ks zs : stops None (Z.of_nat (length ks)) 0 e ks zs.
Proof. split; [|left; lia]. intros k1 x k2 ->. split; [|done]. rewrite length_app. cbn. lia. Qed.
Lemma stops_at e ks zs : NoDup (e :: (ip <$> ks ++ zs)) -> stops (Some (first e (ip <$> zs))) (-1) 0 e ks zs.
Proof.
  intros [He Hn]%NoDup_cons. split; [|by right]. intros k1 x k2 ->. split; [lia|]. intros [= E].
  rewrite fmap_app in He, Hn. apply NoDup_app in Hn as (_ & Hd & _).
  assert (Hx : ip x ∈ ip <$> k1 ++ x :: k2) by (apply list_elem_of_fmap_2; rewrite elem_of_app, elem_of_cons; tauto).
  pose proof (first_in e (ip <$> zs)) as [Ei|Hi]%elem_of_cons; rewrite E in *.
  - apply He. rewrite elem_of_app, <-Ei. tauto.
  - exact (Hd _ Hx Hi).
Qed.

Lemma free_nodes_ok ks zs e stop num fuel mx erased m H :
  NoDup (e :: (ip <$> ks ++ zs)) -> (length ks <= fuel)%nat -> stops stop num erased e ks zs ->
  (forall x, x ∈ ks -> hgt m (ip x) = Some (ih x) /\ (ih x <= H)%nat) -> (mx <= H)%nat ->
  after (lk m Rt 0) (ip <$> ks ++ zs) e ->
  exists m' mx', free_nodes fuel e stop num (first e (ip <$> ks ++ zs)) mx erased m
      = Ret (m', first e (ip <$> zs), mx', (erased + Z.of_nat (length ks))%Z) /\
    without m m' (ip <$> ks) /\ (mx <= mx' <= H)%nat /\ forall x, x ∈ ks -> (ih x <= mx')%nat.
Proof.
  revert fuel mx erased m. induction ks as [|x ks IH]; intros fuel mx erased m Hn Hf Hs Hk Hmx Ha.
  - exists m, mx. split; [|split; [|split; [lia|intros ? []%elem_of_nil]]].
    + destruct Hs as [_ Hs]. cbn in Hs |- *. rewrite Z.add_0_r in Hs |- *.
      assert ((erased =? num)%Z || bool_decide (Some (first e (ip <$> zs)) = stop) = true) as E.
      { destruct Hs as [->|Hs]; [by rewrite Z.eqb_refl|]. rewrite bool_decide_true by done. apply orb_true_r. }
      destruct fuel; cbn; by rewrite E.
    + intros p. cbn. done.
  - apply stops_cons in Hs as (Hs1 & Hs2 & Hs). destruct fuel as [|fuel]; [cbn in Hf; lia|]. cbn in Hf.
    cbn [app fmap list_fmap] in Hn, Ha |- *. apply NoDup_cons in Hn as [He Hn]. apply NoDup_cons in Hn as [Hx Hn].
    apply after_cons in Ha as [Hq Ha]. destruct (Hk x ltac:(left)) as [(n & Hnx & Hhx & Hna)%hgt_node Hxh].
    destruct (IH fuel (Nat.max mx (ih x)) (erased + 1)%Z (delete (ip x) m)) as (m' & mx' & E & W & Hm & Hks).
    { constructor; [|done]. intros Hi. apply He. by right. } { lia. } { done. }
    { intros y Hy. destruct (Hk y ltac:(by right)) as [Hh Hl]. split; [|done]. unfold hgt in Hh |- *. rewrite lookup_delete_ne; [done|].
      intros E. apply Hx. rewrite E. apply list_elem_of_fmap_2. rewrite elem_of_app. tauto. }
    { lia. } { by apply after_delete. }
    exists m', mx'. split; [|split; [|split; [lia|]]].
    + cbn [free_nodes first]. rewrite (proj2 (Z.eqb_neq _ _) Hs1), bool_decide_false by done. cbn [orb].
      rewrite decide_False by (intros <-; apply He; left). rewrite Hna. cbn [mbind outcome_bind].
      rewrite (link_at_lk _ _ _ _ _ Hq). cbn [mbind outcome_bind]. rewrite Hhx, E. cbn [length]. do 2 f_equal. lia.
    + by apply without_cons.
    + intros y [->|Hy]%elem_of_cons; [lia|auto].
Qed.

(** On one level, a part of the list that ends at level [n] is left out. *)
Lemma ring_gap f g e j ys ks zs n :
  NoDup (e :: lptrs j (reverse ys ++ zs)) -> ring f e (lptrs j (reverse ys ++ ks ++ zs)) -> (forall x, x ∈ ks -> (ih x <= n)%nat) ->
  ((j <= n)%nat -> g (first e (lptrs j ys)) = Some (first e (lptrs j zs))) ->
  (forall p, p ∈ e :: lptrs j (reverse ys ++ zs) -> ((j <= n)%nat -> p <> first e (lptrs j ys)) -> g p = f p) ->
  ring g e (lptrs j (reverse ys ++ zs)).
Proof.
  intros Hn Hr Hk Hg1 Hg. rewrite !lptrs_app in Hr. rewrite lptrs_app in Hn, Hg |- *. destruct (decide (j <= n)%nat) as [Hj|Hj].
  - eapply (ring_replace _ _ _ _ (lptrs j ks) []); [done|exact Hr|..]; rewrite final_reverse, <-lptrs_reverse, reverse_involutive; [cbn; auto|].
    intros y Hy ?. apply Hg; auto.
  - assert (lptrs j ks = []) as E.
    { destruct (lptrs j ks) as [|p ?] eqn:E; [done|]. exfalso.
      assert (p ∈ lptrs j ks) as (x & _ & Hx & ?)%elem_of_lptrs by (rewrite E; left). specialize (Hk x Hx). lia. }
    rewrite E in Hr. eapply chain_ext; [|exact Hr]. intros y Hy. apply Hg; [done|lia].
Qed.

(** A run of nodes is taken out. *)
Lemma rep_unlink m m1 m' e H ys ks zs n :
  rep m e H (reverse ys ++ ks ++ zs) -> without m m1 (ip <$> ks) -> (forall x, x ∈ ks -> (ih x <= n)%nat) ->
  relinked m1 m' (joined Rt 0 n (fun j => first e (lptrs j ys)) (fun j => first e (lptrs j zs)) (lk m1)) ->
  rep m' e H (reverse ys ++ zs).
Proof.
  intros R W Hk L. pose proof (r_nodup _ _ _ _ R) as Hn.
  assert (Hsub : forall x, x ∈ reverse ys ++ zs -> x ∈ reverse ys ++ ks ++ zs) by (intros x; rewrite !elem_of_app; tauto).
  assert (Hn' : NoDup (e :: (ip <$> reverse ys ++ zs))).
  { eapply sublist_NoDup; [exact Hn|]. apply sublist_skip. rewrite !fmap_app. apply sublist_app; [done|]. by apply sublist_inserts_l. }
  assert (Hout : forall p, p ∈ e :: (ip <$> reverse ys ++ zs) -> p ∉ ip <$> ks).
  { intros p Hp Hpk. rewrite !fmap_app in Hn. rewrite fmap_app, elem_of_cons, elem_of_app in Hp. apply NoDup_cons in Hn as [He Hn].
    rewrite !elem_of_app in He. apply NoDup_app in Hn as (_ & Hd & (_ & Hd' & _)%NoDup_app). destruct Hp as [->|[Hp|Hp]]; [tauto|..].
    - apply (Hd p Hp). rewrite elem_of_app. tauto.
    - by apply (Hd' p Hpk). }
  assert (Hi : forall p, p ∈ e :: (ip <$> reverse ys ++ zs) -> info m' p = info m p).
  { intros p Hp. rewrite (rl_info _ _ _ L). apply (without_info _ _ _ _ W). auto. }
  assert (Hlk : forall d j p us, (forall x, x ∈ us -> x ∈ reverse ys ++ zs) -> p ∈ e :: lptrs j us -> lk m1 d j p = lk m d j p).
  { intros d j p us Hus Hp. apply (without_lk _ _ _ _ _ _ W), Hout.
    apply elem_of_cons in Hp as [->|Hp%lptrs_sub]; [left|right]. apply list_elem_of_fmap in Hp as (x & -> & Hx). by apply list_elem_of_fmap_2, Hus. }
  constructor.
  - apply L.
  - rewrite Hi by left. apply R.
  - intros x Hx. rewrite Hi by (right; by apply list_elem_of_fmap_2). apply R. auto.
  - done.
  - intros x Hx. apply R. auto.
  - intros d j Hj. pose proof (r_ring _ _ _ _ R d j Hj) as Hr. destruct d.
    + cbn [dirl] in Hr |- *. rewrite !reverse_app, !reverse_involutive, <-app_assoc in Hr. rewrite reverse_app, reverse_involutive.
      eapply (ring_gap _ _ _ _ zs (reverse ks) ys n); [|exact Hr|intros x; rewrite elem_of_reverse; apply Hk|..].
      * apply lptrs_NoDup. by rewrite fmap_app, fmap_reverse, reverse_Permutation, Permutation_app_comm, <-(reverse_Permutation (ip <$> ys)), <-fmap_reverse, <-fmap_app.
      * intros Hjn. rewrite (rl_lk _ _ _ L). apply (joined_back Rt); [lia|done].
      * intros p Hp Hne. rewrite (rl_lk _ _ _ L). rewrite <-(Hlk Lt j p (reverse zs ++ ys)); [|intros x; rewrite !elem_of_app, !elem_of_reverse; tauto|done].
        destruct (decide (j <= n)%nat); [apply (joined_other_back Rt); auto|apply joined_level; lia].
    + cbn [dirl] in Hr |- *. eapply (ring_gap _ _ _ _ ys ks zs n); [by apply lptrs_NoDup|exact Hr|done|..].
      * intros Hjn. rewrite (rl_lk _ _ _ L). apply joined_at; [lia|done].
      * intros p Hp Hne. rewrite (rl_lk _ _ _ L). rewrite <-(Hlk Rt j p _ (fun x Hx => Hx) Hp).
        destruct (decide (j <= n)%nat); [apply joined_other; auto|apply joined_level; lia].
Qed.

(** [free_nodes] and [stitch]. *)
Lemma unlink m e H ys ks zs stop num :
  rep m e H (reverse ys ++ ks ++ zs) -> stops stop num 0 e ks zs ->
  exists m1 mx m', free_nodes (size m) e stop num (first e (ip <$> ks ++ zs)) 0 0 m
      = Ret (m1, first e (ip <$> zs), mx, Z.of_nat (length ks)) /\
    stitch mx 0 (first e (ip <$> ys)) (first e (ip <$> zs)) m1 = Ret m' /\
    (forall p, info m' p = if decide (p ∈ ip <$> ks) then None else info m p) /\
    rep m' e H (reverse ys ++ zs).
Proof.
  intros R Hs. pose proof (r_nodup _ _ _ _ R) as Hn. pose proof Hn as [He Hn1]%NoDup_cons. rewrite fmap_app in He, Hn1.
  apply NoDup_app in Hn1 as (Hny & Hd & Hnk). rewrite elem_of_app in He. rewrite fmap_reverse, reverse_Permutation in Hny.
  destruct (free_nodes_ok ks zs e stop num (size m) 0 0 m H) as (m1 & mx & E & W & Hmx & Hks).
  { constructor; tauto. } { transitivity (length (ks ++ zs)); [rewrite length_app; lia|]. apply length_size; [done|].
    intros x Hx. eapply info_hgt, R. rewrite elem_of_app. tauto. } { done. }
  { intros x Hx. split; [eapply info_hgt, R|apply R]; rewrite !elem_of_app; tauto. } { lia. }
  { rewrite <-lptrs_0. apply (rep_gap _ _ _ _ Rt ys (ks ++ zs) 0%nat R eq_refl). lia. }
  rewrite fmap_app in Hnk, Hd, He. pose proof Hnk as (_ & Hdk & Hnz)%NoDup_app. rewrite elem_of_app in He.
  assert (Hk : forall us : list (@item K V), (forall x, x ∈ us -> x ∈ ys \/ x ∈ zs) -> forall p, p ∈ ip <$> us -> p ∉ ip <$> ks).
  { intros us Hus p (x & -> & [Hx|Hx]%Hus)%list_elem_of_fmap Hpk.
    - apply (Hd (ip x)); [rewrite fmap_reverse, elem_of_reverse; by apply list_elem_of_fmap_2|]. rewrite elem_of_app. tauto.
    - eapply Hdk; [done|]. by apply list_elem_of_fmap_2. }
  assert (Ht : forall us : list (@item K V), (forall x, x ∈ us -> x ∈ ys \/ x ∈ zs) -> tall m1 e H us).
  { intros us Hus. split; [|intros x Hx]; eapply info_hgt; (rewrite (without_info _ _ _ _ W); [apply R|]).
    - tauto.
    - rewrite !elem_of_app, elem_of_reverse. destruct (Hus x Hx); tauto.
    - eapply Hk; [done|]. by apply list_elem_of_fmap_2. }
  destruct (stitch_ok mx 0 e H ys zs m1) as (m' & E' & L).
  { eapply without_wf; [done|apply R]. } { lia. } { apply Ht. tauto. } { apply Ht. tauto. } { done. } { done. }
  { rewrite fmap_reverse, elem_of_reverse in He. tauto. } { tauto. }
  { intros p Hp Hz. apply (Hd p); [by rewrite fmap_reverse, elem_of_reverse|]. rewrite elem_of_app. tauto. }
  { intros j Hj. assert (HL : dirl Lt (reverse ys ++ ks ++ zs) = reverse (ks ++ zs) ++ ys) by (cbn; by rewrite reverse_app, reverse_involutive).
    destruct (rep_gap _ _ _ _ Lt (ks ++ zs) ys j R HL ltac:(lia)) as [_ HaL].
    destruct (rep_gap _ _ _ _ Rt (reverse ks ++ ys) zs j R ltac:(cbn [dirl]; by rewrite reverse_app, reverse_involutive, app_assoc) ltac:(lia)) as [_ HaR].
    split; (eapply after_ext; [|done]); intros y Hy%lptrs_sub; apply (without_lk _ _ _ _ _ _ W); (eapply Hk; [|done]); tauto. }
  rewrite !lptrs_0 in E'. rewrite Z.add_0_l in E. exists m1, mx, m'. split; [done|]. split; [done|]. split.
  - intros p. rewrite (rl_info _ _ _ L). unfold info. rewrite W. by case_decide.
  - eapply rep_unlink; [exact R|done|done|]. exact L.
Qed.
End unlink.

(** * The sentinel *)

Section sentinel.
Context {K V : Type}.
Implicit Types (m : gmap nat (@stdskl_node K V)) (d : dir) (l p q e : nat) (zs ys xs ks : list (@item K V)).

(** [e] refers to itself on the levels from [lo] to [hi]. *)
Definition selfed e (lo hi : nat) (f : dir -> nat -> nat -> option nat) : dir -> nat -> nat -> option nat := fun d j p =>
  if decide ((lo <= j <= hi)%nat /\ p = e) then Some e else f d j p.

Lemma self_join e l m h : wf m -> hgt m e = Some h -> (l <= h)%nat ->
  exists m1 m', set_link Lt l e e m = Ret m1 /\ set_link Rt l e e m1 = Ret m' /\ relinked m m' (selfed e l l (lk m)).
Proof.
  intros Hw He Hl. destruct (join_ok Lt l e e m h h Hw He Hl He Hl) as (m1 & m' & E1 & E2 & R).
  exists m1, m'. split; [done|]. split; [done|]. eapply rl_trans; [constructor; [exact Hw|done|done]|exact R|]. intros d j p.
  unfold joined, selfed. destruct (decide (l <= j <= l)%nat); [|by rewrite decide_False by tauto].
  destruct (decide (p = e)) as [->|]; [|by rewrite !decide_False by tauto]. rewrite (decide_True (P := (l <= j <= l)%nat /\ e = e)) by done.
  destruct (decide (d = Lt /\ e = e)); [done|]. rewrite decide_True; [done|]. destruct d; naive_solver.
Qed.

Lemma self_down_ok l e m h : wf m -> hgt m e = Some h -> (l <= h)%nat ->
  exists m', self_down l e m = Ret m' /\ relinked m m' (selfed e 0 l (lk m)).
Proof.
  revert m. induction l as [|l IH]; intros m Hw He Hl;
    destruct (self_join e _ m h Hw He Hl) as (m1 & m2 & E1 & E2 & R); cbn [self_down]; rewrite E1; cbn [mbind outcome_bind];
    rewrite E2; cbn [mbind outcome_bind].
  - by exists m2.
  - destruct (IH m2) as (m' & E3 & R'); [apply R|by rewrite (rl_hgt _ _ _ _ R)|lia|]. exists m'. split; [done|].
    eapply rl_trans; [exact R|exact R'|]. intros d j p. unfold selfed. rewrite (rl_lk _ _ _ R). unfold selfed.
    repeat case_decide; done || (exfalso; lia).
Qed.
Lemma self_levels_ok n l e m h : wf m -> hgt m e = Some h -> (l + n <= h)%nat ->
  exists m', self_levels n l e m = Ret m' /\ relinked m m' (selfed e l (l + n) (lk m)).
Proof.
  revert l m. induction n as [|n IH]; intros l m Hw He Hl;
    destruct (self_join e l m h Hw He ltac:(lia)) as (m1 & m2 & E1 & E2 & R); cbn [self_levels]; rewrite E1; cbn [mbind outcome_bind];
    rewrite E2; cbn [mbind outcome_bind].
  - exists m2. by rewrite Nat.add_0_r.
  - destruct (IH (S l) m2) as (m' & E3 & R'); [apply R|by rewrite (rl_hgt _ _ _ _ R)|lia|]. exists m'. split; [done|].
    eapply rl_trans; [exact R|exact R'|]. intros d j p. unfold selfed. rewrite (rl_lk _ _ _ R). unfold selfed.
    repeat case_decide; done || (exfalso; lia).
Qed.

(** A sentinel that refers to itself on every level is an empty list. *)
Lemma rep_empty m m' e H : info m e = Some (H, None) -> relinked m m' (selfed e 0 H (lk m)) -> rep m' e H [].
Proof.
  intros He L. constructor.
  - apply L.
  - by rewrite (rl_info _ _ _ L).
  - intros x []%elem_of_nil.
  - apply NoDup_singleton.
  - intros x []%elem_of_nil.
  - intros d l Hl. rewrite (elem_of_nil_inv (lptrs l (dirl d [])));
      [cbn; rewrite (rl_lk _ _ _ L); unfold selfed; by rewrite decide_True by (split; [lia|done])|].
    intros p (x & _ & []%elem_of_dirl%elem_of_nil & _)%elem_of_lptrs.
Qed.

Lemma clear_loop_ok zs e fuel m : NoDup (e :: (ip <$> zs)) -> (length zs <= fuel)%nat -> after (lk m Rt 0) (ip <$> zs) e ->
  exists m', clear_loop fuel e (first e (ip <$> zs)) m = Ret m' /\ without m m' (ip <$> zs).
Proof.
  revert fuel m. induction zs as [|x zs IH]; intros fuel m Hn Hf Ha.
  - exists m. split; [destruct fuel; cbn; by rewrite decide_True|]. intros p. done.
  - destruct fuel as [|fuel]; [cbn in Hf; lia|]. cbn in Hf. cbn [fmap list_fmap] in Hn, Ha |- *.
    apply NoDup_cons in Hn as [He Hn]. apply NoDup_cons in Hn as [Hx Hn]. apply after_cons in Ha as [Hq Ha].
    destruct (IH fuel (delete (ip x) m)) as (m' & E & W).
    { constructor; [|done]. intros Hi. apply He. by right. } { lia. } { by apply after_delete. }
    exists m'. split; [|by apply without_cons]. cbn [clear_loop first]. rewrite decide_False by (intros <-; apply He; left).
    rewrite (link_at_lk _ _ _ _ _ Hq). exact E.
Qed.

(** ** A taller sentinel *)

(** On one level, the ring through another sentinel. *)
Lemma ring_swap f g e e' us : NoDup (e :: us) -> e' ∉ us -> ring f e us ->
  g e' = Some (first e' us) -> (us <> [] -> g (final e' us) = Some e') ->
  (forall p, p ∈ us -> p <> final e' us -> g p = f p) -> ring g e' us.
Proof.
  destruct us as [|x us]; intros Hn He' Hr Hg1 Hg2 Hg; [done|]. cbn in Hg1, Hg2, Hg. split; [done|].
  apply NoDup_cons in Hn as [He Hn]. destruct Hr as [_ Hr]. rewrite <-(app_nil_r us) in Hr |- *.
  apply chain_cut in Hr as (Hu & _ & _). apply chain_cut. split; [|split; [cbn; by apply Hg2|done]].
  eapply upto_ext; [done| |exact Hu]. done.
Qed.

(** On the levels from [lo] up to [hi], [e'] stands for the sentinel. *)
Definition moved e' xs (lo hi : nat) (f : dir -> nat -> nat -> option nat) : dir -> nat -> nat -> option nat := fun d j p =>
  if decide (lo <= j < hi)%nat then
    if decide (p = e') then Some (first e' (lptrs j (dirl d xs)))
    else if decide (p = final e' (lptrs j (dirl d xs))) then Some e' else f d j p
  else f d j p.

Lemma final_dirl e' xs j d : final e' (lptrs j (dirl d xs)) = first e' (lptrs j (dirl (opposite d) xs)).
Proof. rewrite final_reverse, <-lptrs_reverse. destruct d; cbn [dirl opposite]; by rewrite ?reverse_involutive. Qed.

(** The new memory holds the list with its new sentinel. *)
Lemma rep_moved m m' e e' H h xs : rep m e H xs -> (H < h)%nat -> info m e' = Some (h, None) -> e' ∉ e :: (ip <$> xs) ->
  relinked m m' (moved e' xs 0 (S h) (lk m)) -> rep m' e' h xs.
Proof.
  intros R Hh He' Hf L. rewrite elem_of_cons in Hf. pose proof (r_nodup _ _ _ _ R) as Hn. constructor.
  - apply L.
  - by rewrite (rl_info _ _ _ L).
  - intros x Hx. rewrite (rl_info _ _ _ L). by apply R.
  - apply NoDup_cons in Hn as [? ?]. constructor; [tauto|done].
  - intros x Hx. pose proof (r_low _ _ _ _ R x Hx). lia.
  - intros d j Hj. assert (Hin : forall p, p ∈ lptrs j (dirl d xs) -> p ∈ ip <$> xs).
    { intros p (x & -> & Hx%elem_of_dirl)%lptrs_sub%list_elem_of_fmap. by apply list_elem_of_fmap_2. }
    assert (Hne : e' ∉ lptrs j (dirl d xs)) by (intros Hi%Hin; tauto).
    destruct (decide (j <= H)%nat) as [HjH|HjH].
    + eapply ring_swap; [|done|by apply (r_ring _ _ _ _ R d j)|..].
      * apply lptrs_NoDup. by eapply NoDup_dirl.
      * rewrite (rl_lk _ _ _ L). unfold moved. by rewrite decide_True, decide_True by (done || lia).
      * intros Hnil. rewrite (rl_lk _ _ _ L). unfold moved. rewrite decide_True by lia. rewrite decide_False; [by rewrite decide_True|].
        intros E. destruct (lptrs j (dirl d xs)) as [|p us]; [done|]. cbn in E. apply Hne. rewrite <-E. apply final_in.
      * intros p Hp Hpf. rewrite (rl_lk _ _ _ L). unfold moved. rewrite decide_True by lia. rewrite !decide_False; [done|done|]. by intros ->.
    + rewrite (elem_of_nil_inv (lptrs j (dirl d xs))).
      { cbn. rewrite (rl_lk _ _ _ L). unfold moved. rewrite decide_True, decide_True by (done || lia). f_equal.
        destruct (lptrs j (dirl d xs)) as [|p us] eqn:E; [done|]. exfalso.
        assert (p ∈ lptrs j (dirl d xs)) as (x & _ & Hx%elem_of_dirl & ?)%elem_of_lptrs by (rewrite E; left).
        pose proof (r_low _ _ _ _ R x Hx). lia. }
      intros p (x & _ & Hx%elem_of_dirl & ?)%elem_of_lptrs. pose proof (r_low _ _ _ _ R x Hx). lia.
Qed.

Lemma moved_step e' xs l f p q d j r :
  p = first e' (lptrs l (dirl Lt xs)) -> q = first e' (lptrs l (dirl Rt xs)) -> p <> e' -> q <> e' ->
  joined Rt l l (fun _ => e') (fun _ => q) (joined Lt l l (fun _ => e') (fun _ => p) (moved e' xs 0 l f)) d j r = moved e' xs 0 (S l) f d j r.
Proof.
  intros Hp Hq Hpe Hqe. destruct (decide (j = l)) as [->|Hj].
  - unfold joined, moved. rewrite !(decide_True (P := (l <= l <= l)%nat)) by lia. rewrite (decide_False (P := (0 <= l < l)%nat)) by lia.
    rewrite (decide_True (P := (0 <= l < S l)%nat)) by lia. rewrite final_dirl. destruct d; cbn [opposite]; rewrite <-Hp, <-?Hq.
    + rewrite (decide_False (P := Lt = Rt /\ r = e')) by (intros [? _]; done). destruct (decide (r = e')) as [->|].
      * rewrite decide_False by (intros [_ ?]; done). by rewrite decide_True.
      * destruct (decide (r = q)); [by rewrite decide_True|]. by rewrite !decide_False by (intros [? ?]; done).
    + destruct (decide (r = e')) as [->|]; [by rewrite decide_True|]. rewrite (decide_False (P := Rt = Rt /\ r = e')) by (intros [? ?]; done).
      rewrite (decide_False (P := Rt = Lt /\ r = q)) by (intros [? ?]; done). rewrite (decide_False (P := Rt = Lt /\ r = e')) by (intros [? ?]; done).
      destruct (decide (r = p)); [by rewrite decide_True|]. by rewrite !decide_False by (intros [? ?]; done).
  - rewrite !joined_level by lia. unfold moved. destruct (decide (0 <= j < l)%nat).
    + by rewrite (decide_True (P := (0 <= j < S l)%nat)) by lia.
    + by rewrite (decide_False (P := (0 <= j < S l)%nat)) by lia.
Qed.

Section moving.
Context m e e' (H h : nat) xs.
Hypotheses (R : rep m e H xs) (Hh : (H < h)%nat) (He' : info m e' = Some (h, None)) (Hf : e' ∉ e :: (ip <$> xs)).

Lemma level_node j d p : p ∈ lptrs j (dirl d xs) -> p <> e /\ p <> e' /\ exists hp, hgt m p = Some hp /\ (j <= hp)%nat.
Proof.
  intros (x & -> & Hx%elem_of_dirl & ?)%elem_of_lptrs. pose proof (r_nodup _ _ _ _ R) as [Hn _]%NoDup_cons.
  pose proof Hf as Hf'. rewrite elem_of_cons in Hf'. pose proof (list_elem_of_fmap_2 ip _ _ Hx).
  split; [intros E; apply Hn; by rewrite <-E|]. split; [intros E; apply Hf'; right; by rewrite <-E|].
  eexists. split; [eapply info_hgt; by apply R|done].
Qed.
Lemma level_empty l d j d' : lptrs l (dirl d xs) = [] -> (l <= j)%nat -> lptrs j (dirl d' xs) = [].
Proof.
  intros E Hj. apply elem_of_nil_inv. intros y (x & _ & Hx%elem_of_dirl & ?)%elem_of_lptrs.
  assert (ip x ∈ lptrs l (dirl d xs)) as Hi by (apply elem_of_lptrs; exists x; rewrite elem_of_dirl; split; [done|split; [done|lia]]).
  rewrite E in Hi. by apply elem_of_nil in Hi.
Qed.

(** One level: it is empty, or its ring goes through the new sentinel. *)
Lemma move_level l mc : (l <= H)%nat -> relinked m mc (moved e' xs 0 l (lk m)) ->
  (link_at mc Lt l e = Ret e /\ lptrs l (dirl Lt xs) = []) \/
  exists p m1 m2 q m3 m4, link_at mc Lt l e = Ret p /\ p <> e /\ set_link Lt l e' p mc = Ret m1 /\ set_link Rt l p e' m1 = Ret m2 /\
    link_at m2 Rt l e = Ret q /\ set_link Rt l e' q m2 = Ret m3 /\ set_link Lt l q e' m3 = Ret m4 /\
    relinked m m4 (moved e' xs 0 (S l) (lk m)).
Proof.
  intros Hl L. assert (Hlow : forall d, lk mc d l e = Some (first e (lptrs l (dirl d xs)))).
  { intros d. rewrite (rl_lk _ _ _ L). unfold moved. rewrite decide_False by lia. apply (ring_link _ _ []), (r_ring _ _ _ _ R); lia. }
  pose proof (Hlow Lt) as HL. pose proof (Hlow Rt) as HR.
  destruct (lptrs l (dirl Lt xs)) as [|p us] eqn:EL; [left; split; [by apply link_at_lk|done]|right].
  destruct (level_node l Lt p) as (Hpe & Hpe' & hp & Hhp & Hlp); [rewrite EL; left|].
  destruct (lptrs l (dirl Rt xs)) as [|q vs] eqn:ER; [by rewrite (level_empty l Rt l Lt ER) in EL|].
  destruct (level_node l Rt q) as (Hqe & Hqe' & hq & Hhq & Hlq); [rewrite ER; left|].
  destruct (join_ok Lt l e' p mc h hp) as (m1 & m2 & E1 & E2 & R1);
    [apply L|rewrite (rl_hgt _ _ _ _ L); by eapply info_hgt|lia|by rewrite (rl_hgt _ _ _ _ L)|done|].
  destruct (join_ok Rt l e' q m2 h hq) as (m3 & m4 & E3 & E4 & R2);
    [apply R1|rewrite (rl_hgt _ _ _ _ R1), (rl_hgt _ _ _ _ L); by eapply info_hgt|lia|by rewrite (rl_hgt _ _ _ _ R1), (rl_hgt _ _ _ _ L)|done|].
  exists p, m1, m2, q, m3, m4. do 4 (split; [done || by apply link_at_lk|]).
  split; [apply link_at_lk; by rewrite (rl_lk _ _ _ R1), (joined_other_back Lt)|]. do 2 (split; [done|]).
  eapply rl_trans; [exact L|eapply rl_trans; [exact R1|exact R2|reflexivity]|]. intros d j r.
  rewrite (joined_ext _ _ _ _ _ _ _ _ _ _ (rl_lk _ _ _ R1)).
  rewrite (joined_ext _ _ _ _ _ _ (joined Lt l l (fun _ => e') (fun _ => p) (moved e' xs 0 l (lk m)))) by (intros; apply joined_ext, L).
  apply moved_step; [by rewrite EL|by rewrite ER|done|done].
Qed.

(** The levels that are in use are moved. *)
Lemma move_levels_ok n l mc : (l + n = H)%nat -> relinked m mc (moved e' xs 0 l (lk m)) ->
  exists m' l1, move_levels n l e e' mc = Ret (m', l1) /\ (l1 <= S H)%nat /\ (forall j d, (l1 <= j)%nat -> lptrs j (dirl d xs) = []) /\
    relinked m m' (moved e' xs 0 l1 (lk m)).
Proof.
  revert l mc. induction n as [|n IH]; intros l mc Hl L.
  all: destruct (move_level l mc ltac:(lia) L) as [[E0 Hnil]|(p & m1 & m2 & q & m3 & m4 & E0 & Hp & E1 & E2 & E3 & E4 & E5 & L')];
    cbn [move_levels]; rewrite E0; cbn [mbind outcome_bind].
  1,3: exists mc, l; rewrite decide_True by done; split; [done|]; split; [lia|]; split; [|done]; intros j d; by apply level_empty with (d := Lt).
  all: rewrite decide_False by done; rewrite E1; cbn [mbind outcome_bind]; rewrite E2; cbn [mbind outcome_bind]; rewrite E3;
    cbn [mbind outcome_bind]; rewrite E4; cbn [mbind outcome_bind]; rewrite E5; cbn [mbind outcome_bind].
  - exists m4, (S l). split; [done|]. split; [lia|]. split; [|done]. intros j d Hj. apply elem_of_nil_inv.
    intros y (x & _ & Hx%elem_of_dirl & ?)%elem_of_lptrs. pose proof (r_low _ _ _ _ R x Hx). lia.
  - apply IH; [lia|done].
Qed.

(** The list with a taller sentinel. *)
Lemma move_end : exists m1 l1 m', move_levels H 0 e e' m = Ret (m1, l1) /\ self_levels (h - l1) l1 e' m1 = Ret m' /\
    (forall p, info m' p = info m p) /\ rep m' e' h xs.
Proof.
  destruct (move_levels_ok H 0 m eq_refl) as (m1 & l1 & E1 & Hl1 & Hnil & L1).
  { constructor; [apply R|done|]. intros d j p. unfold moved. by rewrite decide_False by lia. }
  destruct (self_levels_ok (h - l1) l1 e' m1 h) as (m' & E2 & L2); [apply L1|rewrite (rl_hgt _ _ _ _ L1); by eapply info_hgt|lia|].
  assert (L : relinked m m' (moved e' xs 0 (S h) (lk m))).
  { eapply rl_trans; [exact L1|exact L2|]. intros d j p. unfold selfed. rewrite (rl_lk _ _ _ L1). unfold moved.
    destruct (decide (0 <= j < l1)%nat).
    - rewrite decide_False by lia. by rewrite (decide_True (P := (0 <= j < S h)%nat)) by lia.
    - destruct (decide (0 <= j < S h)%nat); [|by rewrite decide_False by lia]. rewrite !Hnil by lia. cbn.
      destruct (decide (p = e')) as [->|]; [by rewrite decide_True by (split; [lia|done])|]. by rewrite decide_False by tauto. }
  exists m1, l1, m'. split; [done|]. split; [done|]. split; [apply L|]. by eapply rep_moved.
Qed.
End moving.
End sentinel.
