(* ===== verification/StdSklFind.v ===== *)
(** * StdSklFind: searching a skip list

    The searches of stdskl.c from the left and from the right, down the levels:
    on a sorted list they end, and answer the first element that is not beyond
    the key, or any match. *)
From stdpp Require Import base list gmap numbers option sets.
From Stdlib Require Import ZArith Lia Sorted.
From S2P Require Import Prelude NetTypes StdSkl StdSklMem StdSklRep.
#[local] Open Scope Z_scope.

(** What a list relies on: the comparison is a total preorder. *)
Class KeyOrder {K : Type} (cmp : K -> K -> Z) : Prop :=
  { cmp_sign : forall a b, 0 < cmp a b <-> cmp b a < 0;
    cmp_le_trans : forall a b c, cmp a b <= 0 -> cmp b c <= 0 -> cmp a c <= 0 }.

Section find.
Context {K V : Type} (cmp : K -> K -> Z) `{!KeyOrder cmp}.
Implicit Types (m : gmap nat (@stdskl_node K V)) (d : dir) (l p q e : nat) (x : @item K V) (zs ys xs us vs : list (@item K V)).

Definition ik x : K := fst (ikv x).
Definition sorted xs : Prop := StronglySorted (fun x y => cmp (ik x) (ik y) <= 0) xs.

Lemma cmp_pos_mono k a b : cmp a b <= 0 -> 0 < cmp k b -> 0 < cmp k a.
Proof.
  intros Hab Hk. destruct (Z.lt_ge_cases 0 (cmp k a)); [done|]. pose proof (cmp_le_trans k a b). lia.
Qed.
Lemma cmp_neg_mono k a b : cmp a b <= 0 -> cmp k a < 0 -> cmp k b < 0.
Proof.
  intros Hab Hk%cmp_sign. apply cmp_sign. destruct (Z.lt_ge_cases 0 (cmp b k)); [done|]. pose proof (cmp_le_trans a b k). lia.
Qed.
Lemma cmp_zero_sym a b : cmp a b = 0 -> cmp b a = 0.
Proof. intros E. pose proof (cmp_sign a b). pose proof (cmp_sign b a). lia. Qed.

(** The key is beyond an item. *)
Definition beyond d (k : K) x : Prop := goes d (cmp k (ik x)) = true.

Lemma sorted_app_le xs ys x y : sorted (xs ++ ys) -> x ∈ xs -> y ∈ ys -> cmp (ik x) (ik y) <= 0.
Proof.
  induction xs as [|z xs IH]; intros Hs Hx Hy; [by apply elem_of_nil in Hx|]. cbn in Hs. inversion Hs as [|? ? Hs' Hf]; subst.
  apply elem_of_cons in Hx as [->|Hx]; [|auto]. rewrite Forall_forall in Hf. apply Hf. rewrite elem_of_app. by right.
Qed.

(** It is beyond what comes before an item it is beyond of. *)
Lemma beyond_mono d k xs us x vs y : sorted xs -> dirl d xs = us ++ x :: vs -> beyond d k x -> y ∈ us -> beyond d k y.
Proof.
  intros Hs E Hb Hy. unfold beyond in *. destruct d; cbn [goes dirl] in *.
  - apply (f_equal reverse) in E. rewrite reverse_involutive, reverse_app, reverse_cons in E. rewrite E in Hs.
    apply Z.ltb_lt. apply Z.ltb_lt in Hb. eapply cmp_neg_mono; [|done].
    eapply sorted_app_le; [exact Hs| |]; rewrite ?elem_of_app, ?elem_of_reverse; [right; left|done].
  - subst xs. apply Z.ltb_lt. apply Z.ltb_lt in Hb. eapply cmp_pos_mono; [|done]. eapply sorted_app_le; [exact Hs|done|left].
Qed.

Lemma lptrs_split l zs p ps : lptrs l zs = p :: ps ->
  exists us x vs, zs = us ++ x :: vs /\ lptrs l us = [] /\ p = ip x /\ (l <= ih x)%nat /\ ps = lptrs l vs.
Proof.
  induction zs as [|z zs IH]; [done|]. destruct (decide (l <= ih z)%nat).
  - rewrite lptrs_cons_le by done. intros [= <- <-]. by exists [], z, zs.
  - rewrite lptrs_cons_gt by lia. intros (us & x & vs & -> & ? & ? & ? & ?)%IH. exists (z :: us), x, vs.
    rewrite lptrs_cons_gt by lia. done.
Qed.

Section search.
Context m e (H : nat) xs (k : K) d.
Hypotheses (R : rep m e H xs) (Hs : sorted xs).

(** A place in the list: the items behind, all passed, and those ahead; the
    nearest item behind reaches the level. *)
Record place (l : nat) ys zs : Prop := mk_place
  { pl_split : dirl d xs = reverse ys ++ zs;
    pl_passed : forall y, y ∈ ys -> beyond d k y;
    pl_head : match ys with [] => True | y :: _ => (l <= ih y)%nat end }.

Lemma place_first l j ys zs : place l ys zs -> (j <= l)%nat -> first e (lptrs j ys) = first e (ip <$> ys).
Proof. intros P Hj. pose proof (pl_head _ _ _ P). destruct ys; [done|]. rewrite lptrs_cons_le by lia. done. Qed.
Lemma place_link l j ys zs : place l ys zs -> (j <= l)%nat -> (l <= H)%nat -> link_at m d j (first e (ip <$> ys)) = Ret (first e (lptrs j zs)).
Proof.
  intros P Hj Hl. apply link_at_lk. rewrite <-(place_first l j ys zs P Hj).
  apply (rep_gap _ _ _ _ d ys zs j R (pl_split _ _ _ P)). lia.
Qed.
Lemma place_down l j ys zs : place l ys zs -> (j <= l)%nat -> place j ys zs.
Proof. intros P Hj. constructor; [apply P|apply P|]. pose proof (pl_head _ _ _ P). destruct ys; [done|lia]. Qed.

Lemma place_elem l ys zs x : place l ys zs -> x ∈ zs -> x ∈ xs.
Proof. intros P Hx. apply (elem_of_dirl d). rewrite (pl_split _ _ _ P), elem_of_app. tauto. Qed.
Lemma key_at_item x : x ∈ xs -> key_at m (ip x) = Ret (ik x).
Proof.
  intros Hx. pose proof (r_items _ _ _ _ R x Hx) as Hi. unfold info in Hi. unfold key_at, node_at.
  destruct (m !! ip x) as [n|]; [|done]. cbn in Hi |- *. injection Hi as _ ->. done.
Qed.
Lemma item_not_end x : x ∈ xs -> ip x <> e.
Proof. intros Hx E. pose proof (r_nodup _ _ _ _ R) as [Hn _]%NoDup_cons. apply Hn. rewrite <-E. by apply list_elem_of_fmap_2. Qed.
Lemma item_inj x y : x ∈ xs -> y ∈ xs -> ip x = ip y -> x = y.
Proof.
  intros Hx Hy E. pose proof (r_items _ _ _ _ R x Hx) as H1. pose proof (r_items _ _ _ _ R y Hy) as H2. rewrite E in H1.
  destruct x, y; cbn in *. congruence.
Qed.

(** Where a run on one level stops. *)
Definition stopped q (c : Z) : Prop := q = e \/ exists x, x ∈ xs /\ q = ip x /\ c = cmp k (ik x) /\ goes d c = false.

Lemma run_level_ok l ys zs fuel c : place l ys zs -> (l <= H)%nat -> (length zs <= fuel)%nat ->
  exists ys' zs' c', run_level cmp fuel m e k d l (first e (ip <$> ys)) (first e (lptrs l zs)) c
      = Ret (first e (ip <$> ys'), first e (lptrs l zs'), c') /\
    place l ys' zs' /\ stopped (first e (lptrs l zs')) c'.
Proof.
  revert ys zs c. induction fuel as [|fuel IH]; intros ys zs c P Hl Hf.
  { destruct zs; [|cbn in Hf; lia]. exists ys, [], c. cbn. rewrite decide_True by done. split; [done|]. split; [done|by left]. }
  destruct (lptrs l zs) as [|p ps] eqn:E.
  { exists ys, zs, c. rewrite E. cbn. rewrite decide_True by done. split; [done|]. split; [done|by left]. }
  apply lptrs_split in E as (us & x & vs & -> & Hus & -> & Hx & ->).
  assert (Hin : x ∈ xs) by (eapply place_elem; [done|]; rewrite elem_of_app, elem_of_cons; tauto).
  cbn [first]. cbn [run_level]. rewrite decide_False by (by apply item_not_end). rewrite key_at_item by done. cbn [mbind outcome_bind].
  destruct (goes d (cmp k (ik x))) eqn:Hg.
  - assert (P' : place l (x :: reverse us ++ ys) vs).
    { constructor; [|intros y|done].
      - rewrite (pl_split _ _ _ P), reverse_cons, reverse_app, reverse_involutive, <-!app_assoc. done.
      - rewrite elem_of_cons, elem_of_app, elem_of_reverse. intros [->|[Hy|Hy]]; [done| |by apply P].
        eapply beyond_mono; [exact Hs| |exact Hg|]; [rewrite (pl_split _ _ _ P), app_assoc; done|]. rewrite elem_of_app. tauto. }
    change (ip x) with (first e (ip <$> x :: reverse us ++ ys)). rewrite (place_link l l _ _ P') by lia. cbn [mbind outcome_bind].
    apply IH; [done|done|]. rewrite length_app in Hf. cbn in Hf. lia.
  - exists ys, (us ++ x :: vs), (cmp k (ik x)). rewrite lptrs_app, Hus, lptrs_cons_le by done. cbn. split; [done|]. split; [done|].
    right. by exists x.
Qed.

Lemma run_down_ok l ys zs q : place l ys zs -> (l <= H)%nat -> exists j, run_down m d (first e (ip <$> ys)) q l = Ret j /\ (j <= l)%nat.
Proof.
  induction l as [|l IH]; intros P Hl; [by exists 0%nat|]. cbn [run_down]. rewrite (place_link (S l) (S l) _ _ P) by lia.
  cbn [mbind outcome_bind]. case_decide; [|by exists (S l)].
  destruct IH as (j & E & Hj); [eapply place_down; [done|lia]|lia|]. exists j. split; [done|lia].
Qed.

Lemma zs_size l ys zs : place l ys zs -> (length zs <= size m)%nat.
Proof.
  intros P. transitivity (length (dirl d xs)); [rewrite (pl_split _ _ _ P), length_app; lia|]. apply length_size.
  - pose proof (NoDup_dirl _ _ _ _ d R) as [_ ?]%NoDup_cons. done.
  - intros x Hx%elem_of_dirl. eapply info_hgt. by apply R.
Qed.

Definition found (next : option nat) (c : Z) : Prop := match next with None => True | Some q => stopped q c end.

(** Down the levels: a match, or the place on the bottom level. *)
Lemma find_levels_ok fuel any l ys zs next c : place l ys zs -> (l <= H)%nat -> (l <= fuel)%nat -> found next c ->
  exists r, find_levels cmp fuel m e k any d l (first e (ip <$> ys)) next c = Ret r /\
    match r with
    | inl p => any = true /\ exists x, x ∈ xs /\ p = ip x /\ cmp k (ik x) = 0
    | inr (curr, next', c') => exists ys' zs', curr = first e (ip <$> ys') /\ place 0 ys' zs' /\ found next' c'
    end.
Proof.
  revert l ys zs next c. induction fuel as [|fuel IH]; intros l ys zs next c P Hl Hf Hn.
  { destruct l; [|lia]. exists (inr (first e (ip <$> ys), next, c)). split; [done|]. by exists ys, zs. }
  destruct l as [|l]; [exists (inr (first e (ip <$> ys), next, c)); split; [done|]; by exists ys, zs|].
  cbn [find_levels]. rewrite (place_link (S l) (S l) _ _ P) by lia. cbn [mbind outcome_bind].
  destruct (run_level_ok (S l) ys zs (size m) c P Hl (zs_size _ _ _ P)) as (ys' & zs' & c' & -> & P' & St). cbn [mbind outcome_bind].
  destruct (any && bool_decide (first e (lptrs (S l) zs') <> e) && (c' =? 0)) eqn:Eany.
  - apply andb_true_iff in Eany as [[Ea Eb]%andb_true_iff Ec%Z.eqb_eq]. apply bool_decide_eq_true in Eb.
    destruct St as [?|(x & Hx & Eq & Hc & _)]; [done|]. exists (inl (ip x)). rewrite Eq. split; [done|]. split; [done|].
    exists x. split; [done|]. split; [done|congruence].
  - destruct (run_down_ok l ys' zs' (first e (lptrs (S l) zs'))) as (j & -> & Hj); [eapply place_down; [done|lia]|lia|].
    cbn [mbind outcome_bind]. eapply IH; [eapply place_down; [done|lia]|lia|lia|done].
Qed.
End search.

(** What a search answers. *)
Definition search_result (xs : list item) e (k : K) d (any b : bool) p : Prop :=
  (any = true /\ b = true /\ exists x, x ∈ xs /\ p = ip x /\ cmp k (ik x) = 0) \/
  exists ys zs, dirl d xs = reverse ys ++ zs /\ (forall y, y ∈ ys -> beyond d k y) /\ (forall z, z ∈ zs -> ~ beyond d k z) /\
    p = first e (ip <$> zs) /\ b = match zs with [] => false | z :: _ => cmp k (ik z) =? 0 end.

Lemma search_place m e H xs k d ys zs b c : rep m e H xs -> sorted xs -> place xs k d 0 ys zs ->
  stopped e xs k d (first e (ip <$> zs)) c -> b = bool_decide (first e (ip <$> zs) <> e) && (c =? 0) ->
  search_result xs e k d false b (first e (ip <$> zs)).
Proof.
  intros R Hs P St ->. right. exists ys, zs. split; [apply P|]. split; [apply P|].
  destruct zs as [|z zs]; [split; [intros ? []%elem_of_nil|]; split; [done|]; by rewrite bool_decide_false by (intros []; done)|].
  assert (Hz : z ∈ xs) by (eapply place_elem; [done|left]). pose proof (item_not_end _ _ _ _ R z Hz) as Hze. cbn [fmap list_fmap first] in St |- *.
  destruct St as [?|(x & Hx & Eq & -> & Hg)]; [done|]. apply (item_inj _ _ _ _ R z x Hz Hx) in Eq as <-.
  split; [|split; [done|by rewrite bool_decide_true]]. intros y Hy Hb. apply elem_of_cons in Hy as [->|Hy]; [by unfold beyond in Hb; rewrite Hg in Hb|].
  apply list_elem_of_split in Hy as (u & v & ->).
  assert (beyond d k z) as Hbz; [|by unfold beyond in Hbz; rewrite Hg in Hbz].
  eapply beyond_mono with (us := reverse ys ++ z :: u); [exact Hs| |exact Hb|rewrite elem_of_app, elem_of_cons; tauto].
  rewrite (pl_split _ _ _ _ _ _ P), <-app_assoc. done.
Qed.

(** [stdskl_low_find_right] and [stdskl_low_find_left]. *)
Lemma low_find_ok (l : stdskl) H xs k d any : rep (mem l) (end_node l) H xs -> sorted xs ->
  exists b p, stdskl_low_find cmp l d k any = Ret (b, p) /\ search_result xs (end_node l) k d any b p.
Proof.
  intros R Hs. unfold stdskl_low_find. set (m := mem l) in *. set (e := end_node l) in *.
  destruct (hgt_node _ _ _ (info_hgt _ _ _ _ (r_end _ _ _ _ R))) as (n & _ & Hh & ->). cbn [mbind outcome_bind]. rewrite Hh.
  assert (P0 : place xs k d H [] (dirl d xs)) by (constructor; [done|intros ? []%elem_of_nil|done]).
  destruct (find_levels_ok m e H xs k d R Hs H any H [] (dirl d xs) None (-1) P0) as (r & Er & Hr); [done|done|done|].
  cbn [fmap list_fmap first] in Er. rewrite Er. cbn [mbind outcome_bind]. destruct r as [p|[[curr next] c]].
  { destruct Hr as [-> Hr]. exists true, p. split; [done|]. left. done. }
  destruct Hr as (ys & zs & -> & P & Hf). rewrite (place_link m e H xs k d R 0 0 ys zs P) by lia. cbn [mbind outcome_bind]. rewrite lptrs_0.
  assert (Hany : forall b p, search_result xs e k d false b p -> search_result xs e k d any b p) by (intros ? ? [[? _]|?]; [done|by right]).
  destruct (decide (Some (first e (ip <$> zs)) = next)) as [<-|Hne]; cbn [mbind outcome_bind].
  - eexists _, _. split; [done|]. by eapply Hany, search_place.
  - destruct (run_level_ok m e H xs k d R Hs 0 ys zs (size m) c P ltac:(lia) (zs_size _ _ _ _ _ _ R _ _ _ P)) as (ys' & zs' & c' & E & P' & St).
    rewrite lptrs_0 in E, St. rewrite lptrs_0 in E. rewrite E. cbn [mbind outcome_bind]. eexists _, _. split; [done|].
    by eapply Hany, search_place.
Qed.
End find.
