(* ===== verification/StdSklOps.v ===== *)
(** * StdSklOps: the operations of a skip list on the list it holds

    A skip list that holds a sorted list of items holds, after an insertion,
    the list with the new item at a place that keeps it sorted, or with a match
    overwritten; when there is no memory it holds what it held.  Then iterators,
    sequences of insertions, erasure, clearing and construction. *)
From stdpp Require Import base list gmap numbers option sets.
From Stdlib Require Import ZArith Lia Sorted.
From S2P Require Import Prelude StdUtil NetTypes StdSkl StdSklMem StdSklRep StdSklFind.
#[local] Open Scope Z_scope.

Section insert.
Context {K V : Type} (cmp : K -> K -> Z) `{!KeyOrder cmp}.
Implicit Types (m : gmap nat (@stdskl_node K V)) (d : dir) (p q e : nat) (x : @item K V) (zs ys xs a b : list (@item K V)) (l : @stdskl K V).

Record holds l xs : Prop := mk_holds
  { h_rep : exists H, rep (mem l) (end_node l) H xs;
    h_sorted : sorted cmp xs;
    h_dom : forall p, is_Some (info (mem l) p) -> p ∈ end_node l :: (ip <$> xs);
    h_brk : forall p, p ∈ end_node l :: (ip <$> xs) -> (p < brk l)%nat;
    h_size : sk_size l = Z.of_nat (length xs) }.

Lemma sorted_app xs ys : sorted cmp (xs ++ ys) <-> sorted cmp xs /\ sorted cmp ys /\ forall x y, x ∈ xs -> y ∈ ys -> cmp (ik x) (ik y) <= 0.
Proof.
  split.
  - intros Hs. split; [|split; [|intros; by eapply sorted_app_le]].
    + induction xs as [|x xs IH]; [constructor|]. inversion Hs as [|? ? Hs' Hf]; subst. constructor; [by apply IH|].
      by apply Forall_app in Hf as [? _].
    + induction xs as [|x xs IH]; [done|]. inversion Hs; subst. auto.
  - intros (Hx & Hy & Hxy). induction xs as [|x xs IH]; [done|]. inversion Hx as [|? ? Hx' Hf]; subst. cbn. constructor.
    + apply IH; [done|]. intros. apply Hxy; [by right|done].
    + apply Forall_app. split; [done|]. apply Forall_forall. intros y ?. apply Hxy; [left|done].
Qed.

(** A key fits between two parts of the list. *)
Definition fit (k : K) a b : Prop := (forall x, x ∈ a -> 0 <= cmp k (ik x)) /\ (forall x, x ∈ b -> cmp k (ik x) <= 0).

Lemma fit_sorted k a b x : sorted cmp (a ++ b) -> ik x = k -> fit k a b -> sorted cmp (a ++ x :: b).
Proof.
  intros (Ha & Hb & Hab)%sorted_app <- [Fa Fb]. apply sorted_app. split; [done|]. split.
  - constructor; [done|]. by apply Forall_forall.
  - intros y z Hy [->|Hz]%elem_of_cons; [|auto]. specialize (Fa y Hy). pose proof (cmp_sign (ik y) (ik x)). lia.
Qed.

(** An item that matches the key. *)
Lemma match_fit k a x b : sorted cmp (a ++ x :: b) -> cmp k (ik x) = 0 -> fit k a (x :: b).
Proof.
  intros (_ & Hxb & Hab)%sorted_app E. inversion Hxb as [|? ? _ Hf]; subst. rewrite Forall_forall in Hf. split.
  - intros y Hy. specialize (Hab y x Hy ltac:(left)). pose proof (cmp_neg_mono cmp k (ik y) (ik x) Hab). lia.
  - intros z [->|Hz]%elem_of_cons; [lia|]. eapply cmp_le_trans; [|by apply Hf]. lia.
Qed.
Lemma match_sorted k v a x b : sorted cmp (a ++ x :: b) -> cmp k (ik x) = 0 -> sorted cmp (a ++ mk_item (ip x) (ih x) (k, v) :: b).
Proof.
  intros Hs E. destruct (match_fit k a x b Hs E) as [Fa Fb]. apply (fit_sorted k); [|done|split; [done|]].
  - apply sorted_app in Hs as (? & Hxb & Hab). inversion Hxb; subst. apply sorted_app. split; [done|]. split; [done|].
    intros y z ? ?. apply Hab; [done|by right].
  - intros z Hz. apply Fb. by right.
Qed.

(** What the comparison says of an item next to the place. *)
Lemma fit_next k a z b : sorted cmp (a ++ z :: b) -> cmp k (ik z) <= 0 -> forall x, x ∈ z :: b -> cmp k (ik x) <= 0.
Proof.
  intros (_ & Hs & _)%sorted_app Hz x [->|Hx]%elem_of_cons; [done|]. inversion Hs as [|? ? _ Hf]; subst. rewrite Forall_forall in Hf.
  eapply cmp_le_trans; [done|auto].
Qed.
Lemma fit_prev k a y b : sorted cmp (a ++ y :: b) -> 0 <= cmp k (ik y) -> forall x, x ∈ a -> 0 <= cmp k (ik x).
Proof.
  intros (_ & _ & Hs)%sorted_app Hz x Hx. specialize (Hs x y Hx ltac:(left)). pose proof (cmp_neg_mono cmp k (ik x) (ik y) Hs). lia.
Qed.

(** The comparison with the item at the place; -1 at the end. *)
Definition cmp_at (k : K) zs : Z := match zs with [] => -1 | z :: _ => cmp k (ik z) end.

Lemma first_end m e H xs zs : rep m e H xs -> (forall x, x ∈ zs -> x ∈ xs) -> first e (ip <$> zs) = e <-> zs = [].
Proof.
  intros R Hs. destruct zs as [|z zs]; [done|]. split; [|done]. intros E. exfalso. cbn in E.
  by eapply (item_not_end _ _ _ _ R z); [apply Hs; left|].
Qed.

Lemma fits_ok l H ys zs k : rep (mem l) (end_node l) H (reverse ys ++ zs) -> sorted cmp (reverse ys ++ zs) ->
  exists ok c, fits cmp l k (first (end_node l) (ip <$> ys)) (first (end_node l) (ip <$> zs)) = Ret (ok, c) /\
    (ok = true -> fit k (reverse ys) zs /\ c = cmp_at k zs).
Proof.
  intros R Hs. set (e := end_node l) in *. unfold fits. fold e.
  assert (Hz : forall z, z ∈ zs -> z ∈ reverse ys ++ zs) by (intros; rewrite elem_of_app; tauto).
  assert (Hy : forall y, y ∈ ys -> y ∈ reverse ys ++ zs) by (intros; rewrite elem_of_app, elem_of_reverse; tauto).
  assert (exists c, (if decide (first e (ip <$> zs) = e) then Ret (-1) else k0 ← key_at (mem l) (first e (ip <$> zs)); Ret (cmp k k0)) = Ret c /\ c = cmp_at k zs) as (c & -> & ->).
  { destruct zs as [|z zs]; cbn [fmap list_fmap first]; [rewrite decide_True by done; eauto|].
    rewrite decide_False by (eapply item_not_end; [done|]; apply Hz; left). rewrite (key_at_item _ _ _ _ R z) by (apply Hz; left). eauto. }
  cbn [mbind outcome_bind]. destruct (bool_decide (first e (ip <$> zs) <> e) && (0 <? cmp_at k zs)) eqn:Enext; [by eexists _, _|].
  assert (Fz : forall x, x ∈ zs -> cmp k (ik x) <= 0).
  { destruct zs as [|z zs]; [intros ? []%elem_of_nil|]. eapply fit_next; [exact Hs|]. cbn in Enext.
    rewrite bool_decide_true in Enext by (eapply item_not_end; [done|]; apply Hz; left). cbn in Enext. apply Z.ltb_ge in Enext. lia. }
  destruct ys as [|y ys]; cbn [fmap list_fmap first].
  { rewrite decide_True by done. eexists _, _. split; [done|]. intros _. split; [|done]. split; [|done].
    cbn. intros ? []%elem_of_nil. }
  rewrite decide_False by (eapply item_not_end; [done|]; apply Hy; left).
  rewrite (key_at_item _ _ _ _ R y) by (apply Hy; left). cbn [mbind outcome_bind]. eexists _, _. split; [done|].
  intros Ec%negb_true_iff%Z.ltb_ge. split; [|done]. split; [|done]. rewrite reverse_cons. intros x [Hx|Hx]%elem_of_app.
  - eapply (fit_prev k (reverse ys) y zs); [by rewrite reverse_cons, <-app_assoc in Hs|done|done].
  - apply list_elem_of_singleton in Hx as ->. lia.
Qed.

(** The result of a full search, as a place for the key. *)
Lemma search_fit H e xs k (found : bool) p m : rep m e H xs -> sorted cmp xs -> search_result cmp xs e k Rt true found p ->
  exists a b, xs = a ++ b /\ p = first e (ip <$> b) /\ fit k a b /\
    if found then exists z b', b = z :: b' /\ cmp k (ik z) = 0 else forall x, x ∈ xs -> cmp k (ik x) <> 0.
Proof.
  intros R Hs [(_ & -> & x & Hx & -> & E)|(ys & zs & Ex & Hy & Hz & -> & ->)].
  - apply list_elem_of_split in Hx as (a & b & ->). exists a, (x :: b). split; [done|]. split; [done|]. split; [by apply match_fit|]. by exists x, b.
  - cbn [dirl] in Ex. subst xs. unfold beyond in Hy, Hz. cbn [goes] in Hy, Hz.
    assert (Hy' : forall y, y ∈ ys -> 0 < cmp k (ik y)) by (intros y Hi; by apply Z.ltb_lt, Hy).
    assert (Hz' : forall z, z ∈ zs -> cmp k (ik z) <= 0) by (intros z Hi; apply Z.ltb_ge; by destruct (0 <? cmp k (ik z)) eqn:E; [destruct (Hz z Hi)|]).
    exists (reverse ys), zs. split; [done|]. split; [done|].
    split; [split; [intros y; rewrite elem_of_reverse; intros Hi; specialize (Hy' y Hi); lia|done]|].
    destruct (match zs with [] => false | z :: _ => cmp k (ik z) =? 0 end) eqn:Ef.
    + destruct zs as [|z zs]; [done|]. apply Z.eqb_eq in Ef. by exists z, zs.
    + intros x. rewrite elem_of_app, elem_of_reverse. intros [Hi|Hi]; [specialize (Hy' x Hi); lia|].
      destruct zs as [|z zs]; [by apply elem_of_nil in Hi|]. apply Z.eqb_neq in Ef. specialize (Hz' z ltac:(left)).
      apply elem_of_cons in Hi as [->|Hi]; [done|]. apply sorted_app in Hs as (_ & Hs & _). inversion Hs as [|? ? _ Hf]; subst.
      rewrite Forall_forall in Hf. pose proof (cmp_neg_mono cmp k (ik z) (ik x) (Hf x Hi)). lia.
Qed.

(** A place for a key, and the comparison with the item there; after a full
    search that comparison says whether there is a match. *)
Definition pos_ok xs e (hint : bool) (k : K) p (c : Z) : Prop :=
  exists a b, p = first e (ip <$> b) /\ xs = a ++ b /\ fit k a b /\
    (forall z b', b = z :: b' -> c = 0 <-> cmp k (ik z) = 0) /\
    (hint = false -> (b = [] \/ c <> 0) -> forall x, x ∈ a ++ b -> cmp k (ik x) <> 0).

Lemma pos_fits e k a b : fit k a b -> pos_ok (a ++ b) e true k (first e (ip <$> b)) (cmp_at k b).
Proof. intros Hf. exists a, b. split; [done|]. split; [done|]. split; [done|]. split; [by intros z b' ->|done]. Qed.

Lemma pos_search l H xs hint k : rep (mem l) (end_node l) H xs -> sorted cmp xs ->
  exists p c, ('(found, p) ← stdskl_low_find_right cmp l k true; Ret (p, if found : bool then 0 else 1)) = Ret (p, c) /\ pos_ok xs (end_node l) hint k p c.
Proof.
  intros R Hs. destruct (low_find_ok cmp l H _ k Rt true R Hs) as (found & p & E & Hr). unfold stdskl_low_find_right. rewrite E. cbn [mbind outcome_bind].
  destruct (search_fit H _ _ k found p _ R Hs Hr) as (a & b & -> & -> & Hf & Hm). eexists _, _. split; [done|]. exists a, b. do 3 (split; [done|]). destruct found.
  - destruct Hm as (z & b' & -> & Hz). split; [by intros ? ? [= -> ->]|]. intros _ [?|?]; done.
  - split; [|done]. intros z b' ->. split; [done|]. intros Hz. destruct (Hm z); [|done]. rewrite elem_of_app, elem_of_cons. tauto.
Qed.

(** The place an insertion chooses, with the hint at any place of the list. *)
Lemma insert_pos_ok l H ys zs hint k : rep (mem l) (end_node l) H (reverse ys ++ zs) -> sorted cmp (reverse ys ++ zs) ->
  exists p c, insert_pos cmp l hint (first (end_node l) (ip <$> zs)) k = Ret (p, c) /\ pos_ok (reverse ys ++ zs) (end_node l) hint k p c.
Proof.
  intros R Hs. assert (Hsearch := fun h => pos_search l H (reverse ys ++ zs) h k R Hs). unfold insert_pos. destruct hint; [|apply Hsearch].
  assert (HL : dirl Lt (reverse ys ++ zs) = reverse zs ++ ys) by (cbn; by rewrite reverse_app, reverse_involutive).
  destruct (rep_gap _ _ _ _ Lt zs ys 0%nat R HL ltac:(lia)) as [Hprev _]. rewrite !lptrs_0 in Hprev. rewrite (link_at_lk _ _ _ _ _ Hprev). cbn [mbind outcome_bind].
  destruct (fits_ok l H ys zs k R Hs) as (ok & c & -> & Hok). cbn [mbind outcome_bind].
  destruct ok; [destruct (Hok eq_refl) as [Hf ->]; eexists _, _; split; [done|]; by apply pos_fits|].
  assert (exists ys' zs', first (end_node l) (ip <$> zs) = first (end_node l) (ip <$> ys') /\ reverse ys' ++ zs' = reverse ys ++ zs) as (ys' & zs' & Eh & Esp).
  { destruct zs as [|z zs]; [exists [], (reverse ys); by rewrite app_nil_r|]. exists (z :: ys), zs. by rewrite reverse_cons, <-app_assoc. }
  rewrite Eh. destruct (rep_gap _ _ _ _ Rt ys' zs' 0%nat R ltac:(done) ltac:(lia)) as [Hnext _]. rewrite !lptrs_0 in Hnext.
  rewrite (link_at_lk _ _ _ _ _ Hnext). cbn [mbind outcome_bind]. rewrite <-Esp in R, Hs, Hsearch |- *.
  destruct (fits_ok l H ys' zs' k R Hs) as (ok & c' & -> & Hok'). cbn [mbind outcome_bind].
  destruct ok; [|apply Hsearch]. destruct (Hok' eq_refl) as [Hf ->]. eexists _, _. split; [done|]. by apply pos_fits.
Qed.

(** ** A match is overwritten *)
Lemma rep_overwrite m e H a x b kv n : rep m e H (a ++ x :: b) -> m !! ip x = Some n ->
  rep (<[ip x := mk_sn (height n) (prevs n) (nexts n) (Some kv)]> m) e H (a ++ mk_item (ip x) (ih x) kv :: b).
Proof.
  intros R Hn. assert (Hx : x ∈ a ++ x :: b) by (rewrite elem_of_app, elem_of_cons; tauto).
  pose proof (item_not_end _ _ _ _ R x Hx) as Hxe.
  assert (Eip : ip <$> a ++ mk_item (ip x) (ih x) kv :: b = ip <$> a ++ x :: b) by (by rewrite !fmap_app).
  assert (Elp : forall d j, lptrs j (dirl d (a ++ mk_item (ip x) (ih x) kv :: b)) = lptrs j (dirl d (a ++ x :: b))).
  { assert (E : forall j, lptrs j (a ++ mk_item (ip x) (ih x) kv :: b) = lptrs j (a ++ x :: b)).
    { intros j. rewrite !lptrs_app. f_equal. destruct (decide (j <= ih x)%nat); [by rewrite !lptrs_cons_le|by rewrite !lptrs_cons_gt by (cbn; lia)]. }
    intros [] j; cbn [dirl]; [rewrite !lptrs_reverse|]; by rewrite E. }
  constructor.
  - apply wf_insert; [apply R|]. intros d. pose proof (r_wf _ _ _ _ R _ _ d Hn) as Hw. by destruct d.
  - unfold info. rewrite lookup_insert_ne by done. apply R.
  - intros y Hy. rewrite elem_of_app, elem_of_cons in Hy. unfold info. destruct (decide (ip y = ip x)) as [E|Hne].
    + assert (y = mk_item (ip x) (ih x) kv) as ->.
      { destruct Hy as [Hy|[Hy|Hy]]; [|done|]; exfalso; pose proof (r_nodup _ _ _ _ R) as [_ Hnd]%NoDup_cons; rewrite fmap_app in Hnd;
          apply NoDup_app in Hnd as (_ & Hd & [Hxb _]%NoDup_cons); pose proof (list_elem_of_fmap_2 ip _ _ Hy) as Hi; rewrite E in Hi;
          [apply (Hd _ Hi); cbn; left|done]. }
      cbn [ip]. rewrite lookup_insert_eq. cbn. pose proof (r_items _ _ _ _ R x Hx) as Hi. unfold info in Hi. rewrite Hn in Hi. cbn in Hi. congruence.
    + rewrite lookup_insert_ne by done. apply R. rewrite elem_of_app, elem_of_cons. destruct Hy as [?|[->|?]]; [tauto|done|tauto].
  - rewrite Eip. apply R.
  - intros y Hy. rewrite elem_of_app, elem_of_cons in Hy. destruct Hy as [Hy|[->|Hy]];
      [apply R; rewrite elem_of_app; tauto|by apply (r_low _ _ _ _ R x)|apply R; rewrite elem_of_app, elem_of_cons; tauto].
  - intros d j Hj. rewrite Elp. eapply chain_ext; [|by apply (r_ring _ _ _ _ R)]. intros y _. unfold lk.
    destruct (decide (y = ip x)) as [->|]; [|by rewrite lookup_insert_ne]. rewrite lookup_insert_eq, Hn. by destruct d.
Qed.

(** ** A new node is linked in *)
Lemma holds_change l xs s bits lft : holds l xs -> holds (mk_skl (mem l) (brk l) (end_node l) (sk_size l) s bits lft) xs.
Proof. intros [A B C D E]. by constructor. Qed.

(** The new node, in the memory but not linked. *)
Definition with_node l (h : nat) (k : K) (v : V) s bits lft : stdskl :=
  mk_skl (<[brk l := new_node h (Some (k, v))]> (mem l)) (S (brk l)) (end_node l) (sk_size l) s bits lft.

Lemma with_node_rep l xs H h k v s bits lft : holds l xs -> rep (mem l) (end_node l) H xs ->
  rep (mem (with_node l h k v s bits lft)) (end_node l) H xs /\ info (mem (with_node l h k v s bits lft)) (brk l) = Some (h, Some (k, v)) /\
  brk l ∉ end_node l :: (ip <$> xs).
Proof.
  intros Hl R. assert (Hf : brk l ∉ end_node l :: (ip <$> xs)) by (intros Hi%(h_brk _ _ Hl); lia).
  split; [apply rep_add; [done|done|apply new_node_links]|]. split; [|done]. unfold info. cbn. by rewrite lookup_insert_eq.
Qed.

Lemma info_insert m p n q : is_Some (info (<[p := n]> m) q) -> q = p \/ is_Some (info m q).
Proof.
  unfold info. destruct (decide (q = p)) as [->|]; [by left|]. rewrite lookup_insert_ne by done. by right.
Qed.

(** Linked between two parts of the list. *)
Lemma link_new m e H a b h k v node l s bits lft br :
  holds l (a ++ b) -> fit k a b -> rep m e H (a ++ b) -> info m node = Some (h, Some (k, v)) -> (h <= H)%nat -> node ∉ e :: (ip <$> a ++ b) ->
  (forall p, is_Some (info m p) -> p ∈ e :: node :: (ip <$> a ++ b)) -> (forall p, p ∈ e :: node :: (ip <$> a ++ b) -> (p < br)%nat) ->
  exists m1 m', stdskl_low_link_left (first e (ip <$> b)) node m = Ret m1 /\ stdskl_low_link_right (first e (ip <$> b)) node m1 = Ret m' /\
    holds (mk_skl m' br e (sk_size l + 1) s bits lft) (a ++ mk_item node h (k, v) :: b).
Proof.
  intros Hl Hf R Hi Hh Hn Hdom Hbr. pose proof R as R'. rewrite <-(reverse_involutive a) in R', Hn.
  destruct (link_in m e H (reverse a) b (mk_item node h (k, v)) R' Hi Hh Hn) as (m1 & m' & E1 & E2 & Hinfo & Rn).
  rewrite reverse_involutive in Rn. exists m1, m'. split; [done|]. split; [done|].
  assert (Hin : forall p, p ∈ e :: node :: (ip <$> a ++ b) <-> p ∈ e :: (ip <$> a ++ mk_item node h (k, v) :: b)).
  { intros p. rewrite !fmap_app. cbn [fmap list_fmap ip]. rewrite !elem_of_cons, !elem_of_app, elem_of_cons. tauto. }
  constructor; cbn [mem end_node brk sk_size].
  - by exists H.
  - apply (fit_sorted k); [apply Hl|done|done].
  - intros p Hp. apply Hin, Hdom. by rewrite <-Hinfo.
  - intros p Hp%Hin. auto.
  - rewrite (h_size _ _ Hl), !length_app. cbn. lia.
Qed.

(** [grow_end] on a list whose new node is not linked yet. *)
Lemma grow_end_ok l xs H h k v s bits lft b : holds l xs -> rep (mem l) (end_node l) H xs -> (H < h)%nat -> (forall x, x ∈ b -> x ∈ xs) ->
  exists l' h', grow_end h (first (end_node l) (ip <$> b)) (with_node l h k v s bits lft) = Ret (l', first (end_node l') (ip <$> b)) /\
    rep (mem l') (end_node l') h' xs /\ (h <= h')%nat /\ sk_size l' = sk_size l /\ info (mem l') (brk l) = Some (h, Some (k, v)) /\
    brk l ∉ end_node l' :: (ip <$> xs) /\ (forall p, is_Some (info (mem l') p) -> p ∈ end_node l' :: brk l :: (ip <$> xs)) /\
    (forall p, p ∈ end_node l' :: brk l :: (ip <$> xs) -> (p < brk l')%nat).
Proof.
  intros Hl R Hh Hb. destruct (with_node_rep l xs H h k v s bits lft Hl R) as (R1 & Hnode & Hfresh).
  set (l1 := with_node l h k v s bits lft) in *. set (e := end_node l) in *. set (e' := S (brk l)).
  set (h' := if decide (h < STDSKL_MAX_HEIGHT)%nat then S h else h). assert (Hh' : (h <= h')%nat) by (subst h'; case_decide; lia).
  pose proof (fun p => h_brk _ _ Hl p) as Hbrk. fold e in Hbrk.
  assert (He' : e' ∉ e :: (ip <$> xs)) by (intros Hi%Hbrk; subst e'; lia).
  pose proof (rep_add _ _ _ _ e' (new_node h' None) R1 He' (new_node_links _ _)) as R2. set (m2 := <[e' := new_node h' None]> (mem l1)) in *.
  assert (Hi2 : info m2 e' = Some (h', None)) by (unfold info, m2; by rewrite lookup_insert_eq).
  destruct (move_end m2 e e' H h' xs R2 ltac:(lia) Hi2 He') as (m3 & l1' & m4 & E3 & E4 & Hinfo & R4).
  assert (Hne : e <> e') by (intros E; apply He'; rewrite E; left).
  pose proof (r_nodup _ _ _ _ R) as [Hexs _]%NoDup_cons.
  assert (R5 : rep (delete e m4) e' h' xs) by (apply rep_del; [done|]; rewrite elem_of_cons; tauto).
  exists (mk_skl (delete e m4) (S e') e' (sk_size l) s bits lft), h'. cbn [mem end_node brk sk_size].
  assert (Hdel : forall p, info (delete e m4) p = if decide (p = e) then None else info m2 p).
  { intros p. rewrite <-Hinfo. unfold info. case_decide; subst; [by rewrite lookup_delete_eq|by rewrite lookup_delete_ne]. }
  split; [|split; [done|]; split; [done|]; split; [done|]; split; [|split; [|split]]].
  - unfold grow_end. cbn [end_node brk mem l1 with_node]. fold e l1. fold e'.
    destruct (hgt_node _ _ _ (info_hgt _ _ _ _ (r_end _ _ _ _ R1))) as (n & _ & Hhn & Hna). unfold l1 in Hna. cbn [mem with_node] in Hna. rewrite Hna. cbn [mbind outcome_bind].
    fold h'. rewrite Hhn. unfold m2, l1 in E3. cbn [mem with_node] in E3. rewrite E3. cbn [mbind outcome_bind]. rewrite E4. cbn [mbind outcome_bind].
    do 2 f_equal. destruct b as [|x b]; cbn [fmap list_fmap first]; [by rewrite decide_True|].
    rewrite decide_False; [done|]. eapply item_not_end; [exact R|]. apply Hb. left.
  - rewrite Hdel, decide_False by (intros E; apply Hfresh; rewrite E; left). unfold info, m2. rewrite lookup_insert_ne by (subst e'; lia). exact Hnode.
  - rewrite elem_of_cons. intros [E|Hi]; [subst e'; lia|]. apply Hfresh. by right.
  - intros p. rewrite Hdel. case_decide as Hpe; [by intros []|]. intros [->|Hp]%info_insert; [left|]. apply info_insert in Hp as [->|Hp]; [right; left|].
    apply (h_dom _ _ Hl) in Hp. fold e in Hp. apply elem_of_cons in Hp as [?|?]; [done|]. by do 2 right.
  - intros p. rewrite !elem_of_cons. intros [->|[->|Hp]]; [lia|subst e'; lia|]. specialize (Hbrk p ltac:(by right)). subst e'. lia.
Qed.

(** ** One key and value *)

(** What an insertion makes of a list: a match is overwritten, or the new item
    is put where it fits; without a hint, [stdskl_put] finds a match if there
    is one. *)
Definition inserted (ow hint : bool) (k : K) (v : V) xs xs' p : Prop :=
  exists a x b, xs' = a ++ x :: b /\ p = ip x /\ ikv x = (k, v) /\
    ((ow = true /\ exists y, xs = a ++ y :: b /\ ip y = ip x /\ cmp k (ik y) = 0) \/
     (xs = a ++ b /\ fit k a b /\ (ow = true -> hint = false -> forall z, z ∈ xs -> cmp k (ik z) <> 0))).

(** The answer of [insert_one] and the position of the next hint. *)
Definition insert_result (ok : bool * bool) (ow hint : bool) (k : K) (v : V) xs (r : option nat * nat * stdskl) : Prop :=
  let '(r, next, l) := r in
  match r with
  | None => ok <> (true, true) /\ holds l xs
  | Some p => exists a b, next = first (end_node l) (ip <$> b) /\ holds l (a ++ b) /\ inserted ow hint k v xs (a ++ b) p
  end.

Lemma overwrite_ok l H a x b k v ok ow hint : ow = true -> holds l (a ++ x :: b) -> rep (mem l) (end_node l) H (a ++ x :: b) -> cmp k (ik x) = 0 ->
  exists n, node_at (mem l) (ip x) = Ret n /\
    insert_result ok ow hint k v (a ++ x :: b) (Some (ip x), ip x, mk_skl (<[ip x := mk_sn (height n) (prevs n) (nexts n) (Some (k, v))]> (mem l))
                            (brk l) (end_node l) (sk_size l) (seed l) (rand_bits l) (bits_left l)).
Proof.
  intros -> Hl R Hk. assert (Hx : x ∈ a ++ x :: b) by (rewrite elem_of_app, elem_of_cons; tauto).
  destruct (hgt_node _ _ _ (info_hgt _ _ _ _ (r_items _ _ _ _ R x Hx))) as (n & Hn & _ & Hna). exists n. split; [done|].
  assert (Eip : ip <$> a ++ mk_item (ip x) (ih x) (k, v) :: b = ip <$> a ++ x :: b) by (by rewrite !fmap_app).
  exists a, (mk_item (ip x) (ih x) (k, v) :: b). split; [done|]. split.
  - constructor; cbn [mem end_node brk sk_size]; rewrite ?Eip.
    + exists H. by apply rep_overwrite.
    + apply match_sorted; [apply Hl|done].
    + intros p [->|Hp]%info_insert; [right; by apply list_elem_of_fmap_2|by apply Hl].
    + apply Hl.
    + rewrite (h_size _ _ Hl), !length_app. done.
  - exists a, (mk_item (ip x) (ih x) (k, v)), b. split; [done|]. split; [done|]. split; [done|]. left. split; [done|]. by exists x.
Qed.

(** A new item goes to the place that was chosen. *)
Lemma insert_new_at ok ow hint k v l a b c next : holds l (a ++ b) -> insert_pos cmp l hint next k = Ret (first (end_node l) (ip <$> b), c) -> fit k a b ->
  negb ow || bool_decide (first (end_node l) (ip <$> b) = end_node l) || negb (c =? 0) = true ->
  exists r next' l', insert_one cmp ok ow hint next k v l = Ret (r, next', l') /\
    match r with
    | None => ok <> (true, true) /\ holds l' (a ++ b)
    | Some p => exists h, next' = first (end_node l') (ip <$> b) /\ holds l' (a ++ mk_item p h (k, v) :: b)
    end.
Proof.
  intros Hl Epos Hf Enew. destruct (h_rep _ _ Hl) as [H R]. unfold insert_one. rewrite Epos. cbn [mbind outcome_bind]. rewrite Enew.
  destruct (random_height STDSKL_MAX_HEIGHT 0 (seed l) (rand_bits l) (bits_left l)) as [[[h s] bits] lft]. cbn [mem end_node brk sk_size].
  destruct ok as [ok1 ok2]. cbn [fst snd]. destruct ok1; cbn [negb]; [|eexists _, _, _; split; [done|]; split; [done|by apply holds_change]].
  destruct (hgt_node _ _ _ (info_hgt _ _ _ _ (r_end _ _ _ _ R))) as (n & _ & <- & ->). cbn [mbind outcome_bind].
  destruct (with_node_rep l (a ++ b) (height n) h k v s bits lft Hl R) as (R1 & Hnode & Hfresh).
  destruct (decide (height n < h)%nat) as [Hlt|Hge].
  - destruct ok2; cbn [negb].
    + destruct (grow_end_ok l (a ++ b) (height n) h k v s bits lft b Hl R Hlt) as (l' & h' & Eg & R' & Hh & Hsz & Hi & Hn & Hdom & Hbr); [intros; rewrite elem_of_app; tauto|].
      unfold with_node in Eg. rewrite Eg. cbn [mbind outcome_bind].
      destruct (link_new (mem l') (end_node l') h' a b h k v (brk l) l s bits lft (brk l') Hl Hf R' Hi Hh Hn Hdom Hbr) as (m1 & m' & E1 & E2 & Hh').
      rewrite E1. cbn [mbind outcome_bind]. rewrite E2. cbn [mbind outcome_bind]. rewrite Hsz. eexists _, _, _. split; [done|]. by exists h.
    + eexists _, _, _. split; [done|]. split; [done|]. rewrite delete_insert_id; [destruct Hl as [A B C D E]; constructor; [done|done|done| |done]|].
      * intros p Hp%D. cbn. lia.
      * destruct (mem l !! brk l) eqn:E; [|done]. exfalso. apply Hfresh, Hl. unfold info. rewrite E. by eexists.
  - destruct (link_new (mem (with_node l h k v s bits lft)) (end_node l) (height n) a b h k v (brk l) l s bits lft (S (brk l)) Hl Hf R1 Hnode ltac:(lia) Hfresh)
      as (m1 & m' & E1 & E2 & Hh').
    { intros p [->|Hp%(h_dom _ _ Hl)]%info_insert; [right; left|]. apply elem_of_cons in Hp as [->|?]; [left|by do 2 right]. }
    { intros p. rewrite !elem_of_cons. intros Hp. assert (p = brk l \/ p ∈ end_node l :: (ip <$> a ++ b)) as [->|?%(h_brk _ _ Hl)] by (rewrite elem_of_cons; tauto); lia. }
    unfold with_node in E1. cbn [mem] in E1. rewrite E1. cbn [mbind outcome_bind]. rewrite E2. cbn [mbind outcome_bind]. eexists _, _, _. split; [done|]. by exists h.
Qed.

Lemma insert_one_ok ok ow hint k v l a0 b0 : holds l (a0 ++ b0) ->
  exists r, insert_one cmp ok ow hint (first (end_node l) (ip <$> b0)) k v l = Ret r /\ insert_result ok ow hint k v (a0 ++ b0) r.
Proof.
  intros Hl. destruct (h_rep _ _ Hl) as [H R]. pose proof (h_sorted _ _ Hl) as Hs.
  destruct (insert_pos_ok l H (reverse a0) b0 hint k) as (p & c & Epos & Hpos); [by rewrite reverse_involutive|by rewrite reverse_involutive|].
  rewrite reverse_involutive in Hpos. destruct Hpos as (a & b & -> & Eab & Hf & Hc & Hno). rewrite Eab in *. clear Eab a0.
  destruct (negb ow || bool_decide (first (end_node l) (ip <$> b) = end_node l) || negb (c =? 0)) eqn:Enew.
  - destruct (insert_new_at ok ow hint k v l a b c _ Hl Epos Hf Enew) as (r & next & l' & E & Hr). rewrite E. eexists. split; [done|].
    destruct r as [p|]; [|done]. destruct Hr as (h & -> & Hl'). exists (a ++ [mk_item p h (k, v)]), b. rewrite <-app_assoc. split; [done|]. split; [done|].
    exists a, (mk_item p h (k, v)), b. do 3 (split; [done|]). right. do 2 (split; [done|]). intros -> Hh. apply Hno; [done|]. cbn in Enew.
    apply orb_true_iff in Enew as [En%bool_decide_eq_true|En%negb_true_iff%Z.eqb_neq]; [left|by right].
    eapply first_end; [exact R| |exact En]. intros; rewrite elem_of_app; tauto.
  - unfold insert_one. rewrite Epos. cbn [mbind outcome_bind]. rewrite Enew.
    apply orb_false_iff in Enew as [[E1%negb_false_iff E2%bool_decide_eq_false]%orb_false_iff E3%negb_false_iff%Z.eqb_eq].
    destruct b as [|x b]; [done|]. cbn [fmap list_fmap first].
    destruct (overwrite_ok l H a x b k v ok ow hint E1 Hl R (proj1 (Hc x b eq_refl) E3)) as (n & -> & Hr). cbn [mbind outcome_bind]. by eexists.
Qed.
End insert.

(** * The other operations *)

Section ops.
Context {K V : Type} (cmp : K -> K -> Z) `{!KeyOrder cmp}.
Implicit Types (m : gmap nat (@stdskl_node K V)) (d : dir) (p q e : nat) (x : @item K V) (zs ys xs ks a b : list (@item K V)) (l : @stdskl K V).
Abbreviation holds := (holds cmp).

(** ** Iterators *)

(** The iterator in front of a part of the list. *)
Definition it_of l b : nat := first (end_node l) (ip <$> b).

Lemma it_next_ok l a x b : holds l (a ++ x :: b) -> stdskl_it_next l (ip x) = Ret (it_of l b).
Proof.
  intros Hl. destruct (h_rep _ _ _ Hl) as [H R]. apply link_at_lk. unfold it_of. rewrite <-(lptrs_0 b).
  apply (rep_gap _ _ _ _ Rt (x :: reverse a) b 0%nat R); [cbn [dirl]; by rewrite reverse_cons, reverse_involutive, <-app_assoc|lia].
Qed.
Lemma it_prev_ok l a x b : holds l (a ++ x :: b) -> stdskl_it_prev l (it_of l b) = Ret (ip x).
Proof.
  intros Hl. destruct (h_rep _ _ _ Hl) as [H R]. apply link_at_lk. unfold it_of. rewrite <-(lptrs_0 b).
  apply (rep_gap _ _ _ _ Lt b (x :: reverse a) 0%nat R); [|lia]. cbn [dirl]. by rewrite reverse_app, reverse_cons, <-app_assoc.
Qed.
Lemma begin_ok l xs : holds l xs -> stdskl_begin l = Ret (it_of l xs).
Proof.
  intros Hl. destruct (h_rep _ _ _ Hl) as [H R]. apply link_at_lk. unfold it_of. rewrite <-(lptrs_0 xs). by apply (rep_gap _ _ _ _ Rt [] xs 0%nat R); [|lia].
Qed.
Lemma last_ok l xs : holds l xs -> stdskl_it_prev l (end_node l) = Ret (it_of l (reverse xs)).
Proof.
  intros Hl. destruct (h_rep _ _ _ Hl) as [H R]. apply link_at_lk. unfold it_of. rewrite <-(lptrs_0 (reverse xs)). by apply (rep_gap _ _ _ _ Lt [] (reverse xs) 0%nat R); [|lia].
Qed.

Lemma advance_ok l a ks b : holds l (a ++ ks ++ b) -> stdskl_it_advance (length ks) l (it_of l (ks ++ b)) = Ret (it_of l b).
Proof.
  revert a. induction ks as [|x ks IH]; intros a Hl; [done|]. cbn [length stdskl_it_advance app it_of fmap list_fmap first].
  unfold it_of at 1. cbn [app fmap list_fmap first]. rewrite (it_next_ok l a x (ks ++ b) Hl). cbn [mbind outcome_bind].
  apply (IH (a ++ [x])). by rewrite <-app_assoc.
Qed.
Lemma retreat_ok l a ks b : holds l (a ++ ks ++ b) -> stdskl_it_retreat (length ks) l (it_of l b) = Ret (it_of l (ks ++ b)).
Proof.
  revert b. induction ks as [|x ks IH] using rev_ind; intros b Hl; [done|]. rewrite length_app. cbn [length]. rewrite Nat.add_1_r. cbn [stdskl_it_retreat].
  rewrite <-app_assoc in Hl |- *. cbn [app] in Hl |- *. rewrite (it_prev_ok l (a ++ ks) x b) by (by rewrite <-app_assoc). cbn [mbind outcome_bind].
  change (ip x) with (it_of l (x :: b)). by apply IH.
Qed.

Lemma get_ok l a b : holds l (a ++ b) -> stdskl_get l (Z.of_nat (length a)) = Ret (it_of l b).
Proof.
  intros Hl. unfold stdskl_get. destruct (_ <? _).
  - rewrite (begin_ok l _ Hl). cbn [mbind outcome_bind]. rewrite Nat2Z.id. by apply (advance_ok l [] a b).
  - rewrite (h_size _ _ _ Hl), length_app. replace (Z.to_nat _) with (length b) by lia.
    pose proof (retreat_ok l a b []) as Hr. rewrite !app_nil_r in Hr. by apply Hr.
Qed.

Lemma entry_ok l xs x : holds l xs -> x ∈ xs -> stdskl_it_entry l (ip x) = Ret (ikv x).
Proof.
  intros Hl Hx. destruct (h_rep _ _ _ Hl) as [H R]. pose proof (r_items _ _ _ _ R x Hx) as Hi. unfold info in Hi.
  unfold stdskl_it_entry, node_at. destruct (mem l !! ip x) as [n|]; [|done]. cbn in Hi |- *. by injection Hi as _ ->.
Qed.
Lemma it_of_end l xs b : holds l xs -> (forall x, x ∈ b -> x ∈ xs) -> it_of l b = end_node l <-> b = [].
Proof. intros Hl. destruct (h_rep _ _ _ Hl) as [H R]. intros Hb. unfold it_of. by apply (first_end (mem l) (end_node l) H xs b). Qed.

(** ** Sequences of insertions *)
Inductive inserts (ow : bool) : bool -> list ((bool * bool) * K * V) -> list item -> bool -> list item -> Prop :=
| inserts_nil hint xs : inserts ow hint [] xs true xs
| inserts_fail hint ok k v kvs xs : ok <> (true, true) -> inserts ow hint ((ok, k, v) :: kvs) xs false xs
| inserts_cons hint ok k v kvs xs xs1 xs' st p :
    inserted cmp ow hint k v xs xs1 p -> inserts ow true kvs xs1 st xs' -> inserts ow hint ((ok, k, v) :: kvs) xs st xs'.

Lemma insert_seq_ok ow kvs hint fst l a b : holds l (a ++ b) ->
  exists st it l' xs', insert_seq cmp ow hint (it_of l b) fst kvs l = Ret (st, it, l') /\ holds l' xs' /\ inserts ow hint kvs (a ++ b) st xs'.
Proof.
  revert hint fst l a b. induction kvs as [|[[ok k] v] kvs IH]; intros hint fst l a b Hl.
  - eexists _, _, _, (a ++ b). split; [done|]. split; [done|]. constructor.
  - cbn [insert_seq]. destruct (insert_one_ok cmp ok ow hint k v l a b Hl) as ([[r next] l1] & E & Hr). fold (it_of l b) in E. rewrite E. cbn [mbind outcome_bind].
    destruct r as [p|].
    + destruct Hr as (a1 & b1 & -> & Hl1 & Hins).
      destruct (IH true (match fst with Some _ => fst | None => Some p end) l1 a1 b1 Hl1) as (st & it & l' & xs' & E' & Hl' & Hi).
      exists st, it, l', xs'. split; [done|]. split; [done|]. by econstructor.
    + destruct Hr as [Hok Hl1]. eexists _, _, _, (a ++ b). split; [done|]. split; [done|]. by constructor.
Qed.

(** ** Erasing *)
Lemma low_erase_ok l a ks b stop num : holds l (a ++ ks ++ b) -> stops stop num 0 (end_node l) ks b ->
  exists l', stdskl_low_erase (it_of l (ks ++ b)) stop num l = Ret (Z.of_nat (length ks), it_of l' b, l') /\ holds l' (a ++ b) /\
    end_node l' = end_node l.
Proof.
  intros Hl Hst. destruct (h_rep _ _ _ Hl) as [H R]. pose proof R as R'. rewrite <-(reverse_involutive a) in R'.
  destruct (unlink (mem l) (end_node l) H (reverse a) ks b stop num R' Hst) as (m1 & mx & m' & E1 & E2 & Hi & Rn).
  rewrite reverse_involutive in Rn.
  destruct (rep_gap _ _ _ _ Lt (ks ++ b) (reverse a) 0%nat R (reverse_app _ _) ltac:(lia)) as [Hg _]. rewrite !lptrs_0 in Hg.
  unfold stdskl_low_erase, it_of. rewrite (link_at_lk _ _ _ _ _ Hg). cbn [mbind outcome_bind]. rewrite E1. cbn [mbind outcome_bind]. rewrite E2. cbn [mbind outcome_bind].
  exists (mk_skl m' (brk l) (end_node l) (sk_size l - Z.of_nat (length ks)) (seed l) (rand_bits l) (bits_left l)).
  split; [done|]. split; [|done]. constructor; cbn [mem end_node brk sk_size].
  - by exists H.
  - destruct (proj1 (sorted_app cmp _ _) (h_sorted _ _ _ Hl)) as (Ha & (_ & Hb & _)%sorted_app & Hab). apply sorted_app.
    split; [done|]. split; [done|]. intros y z Hy Hz. apply Hab; [done|]. rewrite elem_of_app. tauto.
  - intros p. rewrite Hi. case_decide as Hk; [by intros []|]. intros Hp%(h_dom _ _ _ Hl).
    rewrite !fmap_app, elem_of_cons, !elem_of_app in Hp. rewrite fmap_app, elem_of_cons, elem_of_app. tauto.
  - intros p Hp. apply (h_brk _ _ _ Hl). rewrite !fmap_app, elem_of_cons, !elem_of_app. rewrite fmap_app, elem_of_cons, elem_of_app in Hp. tauto.
  - rewrite (h_size _ _ _ Hl), !length_app. lia.
Qed.

Lemma erase_one_ok l a x b : holds l (a ++ x :: b) -> exists l', stdskl_erase (ip x) l = Ret (it_of l' b, l') /\ holds l' (a ++ b) /\ end_node l' = end_node l.
Proof.
  intros Hl. destruct (low_erase_ok l a [x] b None 1 Hl (stops_count _ [x] b)) as (l' & E & Hl' & He).
  exists l'. split; [|done]. unfold stdskl_erase, stdskl_erase_n. change (ip x) with (it_of l ([x] ++ b)). rewrite E. done.
Qed.

Lemma filter_keep {A} (P : A -> Prop) `{!forall y, Decision (P y)} (us : list A) : (forall y, y ∈ us -> P y) -> filter P us = us.
Proof. induction us as [|u us IH]; intros Hu; [done|]. rewrite filter_cons_True by (apply Hu; left). f_equal. apply IH. intros y ?. apply Hu. by right. Qed.
Lemma filter_drop {A} (P : A -> Prop) `{!forall y, Decision (P y)} (us : list A) : (forall y, y ∈ us -> ~ P y) -> filter P us = [].
Proof. induction us as [|u us IH]; intros Hu; [done|]. rewrite filter_cons_False by (apply Hu; left). apply IH. intros y ?. apply Hu. by right. Qed.

(** The items of a key, which are next to each other. *)
Lemma erase_key_loop_ok k fuel l a b ret : holds l (a ++ b) -> (forall z, z ∈ b -> cmp k (ik z) <= 0) -> (length b <= fuel)%nat ->
  exists l', erase_key_loop cmp fuel k (it_of l b) ret l = Ret (ret + Z.of_nat (length (filter (fun x => cmp k (ik x) = 0) b)), l') /\
    holds l' (a ++ filter (fun x => cmp k (ik x) <> 0) b).
Proof.
  revert fuel l ret. induction b as [|x b IH]; intros fuel l ret Hl Hb Hf.
  - exists l. split; [|done]. cbn [filter list_filter length]. rewrite Z.add_0_r. destruct fuel; cbn; by rewrite decide_True.
  - destruct fuel as [|fuel]; [cbn in Hf; lia|]. cbn in Hf. destruct (h_rep _ _ _ Hl) as [H R].
    assert (Hx : x ∈ a ++ x :: b) by (rewrite elem_of_app, elem_of_cons; tauto). unfold it_of. cbn [erase_key_loop fmap list_fmap first].
    rewrite decide_False by (by eapply item_not_end). rewrite (key_at_item _ _ _ _ R x Hx). cbn [mbind outcome_bind].
    destruct (Z.eqb_spec (cmp k (ik x)) 0) as [E|E].
    + destruct (erase_one_ok l a x b Hl) as (l1 & -> & Hl1 & _). cbn [mbind outcome_bind].
      destruct (IH fuel l1 (ret + 1) Hl1) as (l' & E' & Hl'); [intros z Hz; apply Hb; by right|lia|].
      exists l'. rewrite E'. rewrite filter_cons_True by done. rewrite filter_cons_False by (by intros []). split; [|done]. do 2 f_equal. cbn [length]. lia.
    + assert (Hn : forall z, z ∈ x :: b -> cmp k (ik z) <> 0).
      { intros z [->|Hz]%elem_of_cons; [done|]. destruct (proj1 (sorted_app cmp _ _) (h_sorted _ _ _ Hl)) as (_ & Hs & _).
        inversion Hs as [|? ? _ Hfa]; subst. rewrite Forall_forall in Hfa. pose proof (cmp_neg_mono cmp k (ik x) (ik z) (Hfa z Hz)).
        specialize (Hb x ltac:(left)). lia. }
      exists l. rewrite (filter_keep (fun x => cmp k (ik x) <> 0) (x :: b)) by done.
      rewrite (filter_drop (fun x => cmp k (ik x) = 0) (x :: b)) by done. split; [|done]. cbn [length]. by rewrite Z.add_0_r.
Qed.

Lemma erase_key_ok k l xs : holds l xs ->
  exists l', stdskl_erase_key cmp k l = Ret (Z.of_nat (length (filter (fun x => cmp k (ik x) = 0) xs)), l') /\
    holds l' (filter (fun x => cmp k (ik x) <> 0) xs).
Proof.
  intros Hl. destruct (h_rep _ _ _ Hl) as [H R]. unfold stdskl_erase_key, stdskl_lowerb, stdskl_low_find_right.
  destruct (low_find_ok cmp l H xs k Rt false R (h_sorted _ _ _ Hl)) as (found & p & -> & [[? _]|(ys & zs & E & Hy & Hz & -> & _)]); [done|].
  cbn [mbind outcome_bind]. cbn [dirl] in E. subst xs. unfold beyond in Hy, Hz. cbn [goes] in Hy, Hz.
  assert (Hy' : forall y, y ∈ reverse ys -> cmp k (ik y) <> 0) by (intros y; rewrite elem_of_reverse; intros ?%Hy%Z.ltb_lt; lia).
  destruct (erase_key_loop_ok k (size (mem l)) l (reverse ys) zs 0 Hl) as (l' & E & Hl').
  - intros z ?%Hz. destruct (Z.ltb_spec 0 (cmp k (ik z))); [done|lia].
  - transitivity (length (reverse ys ++ zs)); [rewrite length_app; lia|]. apply length_size.
    + by pose proof (r_nodup _ _ _ _ R) as [_ ?]%NoDup_cons.
    + intros x Hx. eapply info_hgt. by apply R.
  - unfold it_of in E. rewrite E. exists l'. rewrite !filter_app, (filter_drop _ _ Hy'). rewrite (filter_keep (fun x => cmp k (ik x) <> 0) (reverse ys)) by done. done.
Qed.

(** ** Clearing and construction *)
Lemma skl_clear_ok l xs : holds l xs -> exists l', stdskl_clear l = Ret l' /\ holds l' [].
Proof.
  intros Hl. destruct (h_rep _ _ _ Hl) as [H R]. unfold stdskl_clear. rewrite (begin_ok l xs Hl : link_at _ _ _ _ = _). cbn [mbind outcome_bind].
  destruct (rep_gap _ _ _ _ Rt [] xs 0%nat R eq_refl ltac:(lia)) as [_ Ha]. rewrite lptrs_0 in Ha.
  destruct (clear_loop_ok xs (end_node l) (size (mem l)) (mem l) (r_nodup _ _ _ _ R)) as (m1 & E1 & W); [|done|].
  { pose proof (r_nodup _ _ _ _ R) as [_ ?]%NoDup_cons. apply length_size; [done|]. intros x Hx. eapply info_hgt. by apply R. }
  unfold it_of. rewrite E1. cbn [mbind outcome_bind]. pose proof (r_nodup _ _ _ _ R) as [He _]%NoDup_cons.
  assert (Hi : info m1 (end_node l) = Some (H, None)) by (rewrite (without_info _ _ _ _ W He); apply R).
  destruct (hgt_node _ _ _ (info_hgt _ _ _ _ Hi)) as (n & _ & Hh & ->). cbn [mbind outcome_bind].
  destruct (self_down_ok (height n) (end_node l) m1 H) as (m' & E2 & L); [eapply without_wf; [done|apply R]|by eapply info_hgt|lia|].
  rewrite E2. cbn [mbind outcome_bind]. eexists. split; [done|]. constructor; cbn [mem end_node brk sk_size].
  - exists H. rewrite Hh in L. by eapply rep_empty.
  - constructor.
  - intros p. rewrite (rl_info _ _ _ L). intros Hp. destruct (decide (p ∈ ip <$> xs)) as [Hin|Hin].
    + unfold info in Hp. rewrite W, decide_True in Hp by done. by destruct Hp.
    + rewrite (without_info _ _ _ _ W Hin) in Hp. apply (h_dom _ _ _ Hl) in Hp. apply elem_of_cons in Hp as [->|?]; [left|done].
  - intros p Hp. apply (h_brk _ _ _ Hl). apply elem_of_cons in Hp as [->|[]%elem_of_nil]. left.
  - done.
Qed.

Lemma construct_ok s bits : exists l, stdskl_construct true s bits = Ret (Some l) /\ holds l [].
Proof.
  set (m0 := {[ 0%nat := new_node 4 None ]} : gmap nat (@stdskl_node K V)).
  assert (Hw : wf m0) by (intros p n d [<- <-]%lookup_singleton_Some; apply new_node_links).
  assert (Hi : info m0 0 = Some (4%nat, None)) by (unfold info, m0; by rewrite lookup_singleton_eq).
  destruct (self_down_ok 4 0 m0 4 Hw (info_hgt _ _ _ _ Hi) ltac:(lia)) as (m & E & L).
  unfold stdskl_construct. fold m0. rewrite E. eexists. split; [done|]. constructor; cbn [mem end_node brk sk_size].
  - exists 4%nat. by eapply rep_empty.
  - constructor.
  - intros p. rewrite (rl_info _ _ _ L). unfold info, m0. destruct (decide (p = 0%nat)) as [->|]; [left|].
    rewrite lookup_singleton_ne by done. by intros [].
  - intros p [->|[]%elem_of_nil]%elem_of_cons. lia.
  - done.
Qed.

(** ** Copies *)

(** Behind the last item, which the new one does not precede. *)
Lemma append_pos l xs hint k : holds l xs -> (hint = false -> xs = []) -> (forall x, x ∈ xs -> 0 <= cmp k (ik x)) ->
  exists c, insert_pos cmp l hint (end_node l) k = Ret (end_node l, c).
Proof.
  intros Hl Hh Hk. destruct (h_rep _ _ _ Hl) as [H R]. destruct hint.
  - unfold insert_pos, fits. rewrite (last_ok l xs Hl : link_at _ _ _ _ = _). cbn [mbind outcome_bind]. rewrite decide_True by done. cbn [mbind outcome_bind].
    rewrite bool_decide_false by (intros []; done). cbn [andb]. unfold it_of. destruct (reverse xs) as [|y ys] eqn:E; cbn [fmap list_fmap first].
    + rewrite decide_True by done. by eexists.
    + assert (Hy : y ∈ xs) by (apply elem_of_reverse; rewrite E; left). rewrite decide_False by (by eapply item_not_end).
      rewrite (key_at_item _ _ _ _ R y Hy). cbn [mbind outcome_bind]. rewrite (proj2 (Z.ltb_ge _ _)) by (by apply Hk). by eexists.
  - rewrite (Hh eq_refl) in *. destruct (pos_search cmp l H [] false k R (h_sorted _ _ _ Hl)) as (p & c & E & (a & b & -> & Eab & _)).
    symmetry in Eab. apply app_eq_nil in Eab as [-> ->]. exists c. exact E.
Qed.

Lemma append_seq es hint fst l xs : holds l xs -> (hint = false -> xs = []) -> StronglySorted (fun e1 e2 : (bool * bool) * K * V => cmp e1.1.2 e2.1.2 <= 0) es ->
  (forall x r, x ∈ xs -> r ∈ es -> cmp (ik x) r.1.2 <= 0) ->
  exists st it l' ys, insert_seq cmp false hint (end_node l) fst es l = Ret (st, it, l') /\ holds l' (xs ++ ys) /\
    if st then ikv <$> ys = (fun r => (r.1.2, r.2)) <$> es else exists r, r ∈ es /\ r.1.1 <> (true, true).
Proof.
  revert hint fst l xs. induction es as [|[[ok k] v] es IH]; intros hint fst l xs Hl Hh Hs Hx.
  { eexists true, _, l, []. split; [done|]. by rewrite app_nil_r. }
  inversion Hs as [|? ? Hs' Hf]; subst. rewrite Forall_forall in Hf.
  assert (Hk : forall x, x ∈ xs -> 0 <= cmp k (ik x)).
  { intros x Hi. specialize (Hx x _ Hi ltac:(left)). cbn in Hx. pose proof (cmp_sign (ik x) k). lia. }
  destruct (append_pos l xs hint k Hl Hh Hk) as (c & Ep). assert (Hl0 : holds l (xs ++ [])) by (by rewrite app_nil_r).
  destruct (insert_new_at cmp ok false hint k v l xs [] c (end_node l) Hl0 Ep) as (r & next & l1 & E & Hr); [split; [done|intros ? []%elem_of_nil]|done|].
  cbn [insert_seq]. rewrite E. cbn [mbind outcome_bind]. destruct r as [p|].
  - destruct Hr as (h & -> & Hl1). cbn [fmap list_fmap first].
    destruct (IH true (match fst with Some _ => fst | None => Some p end) l1 (xs ++ [mk_item p h (k, v)]) Hl1) as (st & it & l' & ys & E' & Hl' & Hy); [done|done| |].
    { intros x e Hi He. apply elem_of_app in Hi as [Hi|Hi]; [apply Hx; [done|by right]|]. apply list_elem_of_singleton in Hi as ->. by apply (Hf e). }
    exists st, it, l', (mk_item p h (k, v) :: ys). split; [done|]. rewrite <-app_assoc in Hl'. split; [done|].
    destruct st; [cbn; by f_equal|]. destruct Hy as (e & He & Hne). exists e. split; [by right|done].
  - destruct Hr as [Hok Hl1]. eexists false, _, _, []. split; [done|]. split; [done|]. exists (ok, k, v). split; [left|done].
Qed.

Lemma seq_entries_ok l a b : holds l (a ++ b) -> seq_entries (length b) l (it_of l b) = Ret (ikv <$> b).
Proof.
  revert a. induction b as [|x b IH]; intros a Hl; [done|]. cbn [length seq_entries]. change (it_of l (x :: b)) with (ip x).
  rewrite (entry_ok l (a ++ x :: b) x Hl) by (rewrite elem_of_app, elem_of_cons; tauto). cbn [mbind outcome_bind].
  rewrite (it_next_ok l a x b Hl). cbn [mbind outcome_bind]. rewrite (IH (a ++ [x])); [done|]. by rewrite <-app_assoc.
Qed.

(** All memory is given back. *)
Lemma destruct_ok l xs : holds l xs -> stdskl_destruct l = Ret ∅.
Proof.
  intros Hl. unfold stdskl_destruct. destruct (skl_clear_ok l xs Hl) as (l' & -> & Hl'). cbn [mbind outcome_bind]. f_equal.
  apply map_eq. intros p. rewrite lookup_empty. destruct (decide (p = end_node l')) as [->|Hp]; [apply lookup_delete_eq|].
  rewrite lookup_delete_ne by done. destruct (mem l' !! p) as [n|] eqn:E; [|done]. exfalso.
  assert (is_Some (info (mem l') p)) as Hi%(h_dom _ _ _ Hl') by (unfold info; rewrite E; by eexists).
  by apply elem_of_cons in Hi as [?|[]%elem_of_nil].
Qed.

Lemma imap_sorted (oks : nat -> bool * bool) (ks : list (K * V)) : StronglySorted (fun y z => cmp y.1 z.1 <= 0) ks ->
  StronglySorted (fun e1 e2 : (bool * bool) * K * V => cmp e1.1.2 e2.1.2 <= 0) (imap (fun i kv => (oks i, kv.1, kv.2)) ks).
Proof.
  intros Hs. revert oks. induction Hs as [|z ks Hs IH Hf]; intros oks; [constructor|]. cbn [imap]. constructor; [apply (IH (fun i => oks (S i)))|].
  apply Forall_forall. intros e (i & y & -> & Hy)%elem_of_lookup_imap. cbn. rewrite Forall_forall in Hf. apply Hf. by eapply list_elem_of_lookup_2.
Qed.

Lemma copy_ok ok oks s bits src xs : holds src xs ->
  exists r, stdskl_copy_construct cmp ok oks s bits src = Ret r /\
    match r with
    | Some dst => exists ys, holds dst ys /\ ikv <$> ys = ikv <$> xs
    | None => ok = false \/ exists i, (i < length xs)%nat /\ oks i <> (true, true)
    end.
Proof.
  intros Hl. unfold stdskl_copy_construct. destruct ok; [|eexists; split; [done|]; by left].
  destruct (construct_ok s bits) as (dst & -> & H0). cbn [mbind outcome_bind]. rewrite (begin_ok src xs Hl). cbn [mbind outcome_bind].
  rewrite (h_size _ _ _ Hl), Nat2Z.id, (seq_entries_ok src [] xs Hl). cbn [mbind outcome_bind].
  destruct (append_seq (imap (fun i kv => (oks i, kv.1, kv.2)) (ikv <$> xs)) false None dst [] H0) as (st & it & l' & ys & E & Hl' & Hy); [done| |by intros ? ? []%elem_of_nil|].
  { apply imap_sorted. pose proof (h_sorted _ _ _ Hl) as Hs. clear -Hs. induction Hs as [|z zs _ IH Hf]; cbn; constructor; [done|]. by apply Forall_fmap. }
  unfold stdskl_insert_seq_n, stdskl_low_insert. rewrite E. cbn [mbind outcome_bind]. destruct st.
  - eexists. split; [done|]. exists ys. split; [done|]. rewrite Hy. apply list_eq. intros i.
    rewrite list_lookup_fmap, list_lookup_imap. destruct ((ikv <$> xs) !! i) as [[? ?]|]; done.
  - rewrite (destruct_ok l' _ Hl'). eexists. split; [done|]. right. destruct Hy as (e & (i & y & -> & Hi)%elem_of_lookup_imap & Hne).
    exists i. split; [|done]. apply lookup_lt_Some in Hi. by rewrite length_fmap in Hi.
Qed.
End ops.
