(* ===== verification/StdSklSpec.v ===== *)
(** * StdSklSpec: what a skip list promises

    The operations of a skip list as a client makes them, its iterators named
    by positions, and the ordered list of entries they act on. *)
From stdpp Require Import base list gmap numbers option sets.
From Stdlib Require Import ZArith Lia Sorted.
From S2P Require Import Prelude StdUtil NetTypes SklList StdSkl StdSklMem StdSklRep StdSklFind StdSklOps.
#[local] Open Scope Z_scope.

(** [hint]: the position of the hint, if one is given; a key and value come with
    the answers of malloc for them. *)
Inductive skl_op {K V : Type} :=
| OFind (k : K) | OContains (k : K) | OLowerb (k : K) | OUpperb (k : K) | OGet (i : nat)
| OInsert (overwrite : bool) (hint : option nat) (kvs : list ((bool * bool) * K * V))
| OErase (i n : nat) | OEraseSeq (i j : nat) | OEraseKey (k : K) | OClear | OSeed (bytes : list Z).
Arguments skl_op : clear implicits.

Inductive skl_answer {K V : Type} := AEntry (o : option (K * V)) | ABool (b : bool) | ACount (n : Z) | ADone | ASkip.
Arguments skl_answer : clear implicits.

(** The positions an operation is given are within the list. *)
Definition valid {K V} (op : skl_op K V) (n : Z) : bool :=
  match op with
  | OGet i => Z.of_nat i <=? n
  | OInsert _ (Some i) _ => Z.of_nat i <=? n
  | OErase i c => Z.of_nat (i + c) <=? n
  | OEraseSeq i j => (i <=? j)%nat && (Z.of_nat j <=? n)
  | _ => true
  end.

Section spec.
Context {K V : Type} (cmp : K -> K -> Z) `{!KeyOrder cmp}.
Abbreviation skl := (@stdskl K V).
Implicit Types (l : skl) (xs : list (K * V)).

(** The entry at an iterator, none at the end. *)
Definition entry_at l (it : nat) : outcome (option (K * V)) :=
  if stdskl_is_end l it then Ret None else kv ← stdskl_it_entry l it; Ret (Some kv).

Definition exec (op : skl_op K V) l : outcome (skl_answer K V * skl) :=
  if valid op (stdskl_size l) then
    match op with
    | OFind k => it ← stdskl_find cmp l k; o ← entry_at l it; Ret (AEntry o, l)
    | OContains k => b ← stdskl_contains cmp l k; Ret (ABool b, l)
    | OLowerb k => it ← stdskl_lowerb cmp l k; o ← entry_at l it; Ret (AEntry o, l)
    | OUpperb k => it ← stdskl_upperb cmp l k; o ← entry_at l it; Ret (AEntry o, l)
    | OGet i => it ← stdskl_get l (Z.of_nat i); o ← entry_at l it; Ret (AEntry o, l)
    | OInsert overwrite hint kvs =>
        it ← match hint with Some i => stdskl_get l (Z.of_nat i) | None => Ret (stdskl_end l) end;
        '(st, _, l) ← (if overwrite : bool then stdskl_put_seq_n else stdskl_insert_seq_n) cmp (bool_decide (is_Some hint)) it kvs l;
        Ret (ABool st, l)
    | OErase i n =>
        it ← stdskl_get l (Z.of_nat i);
        '(it, l) ← stdskl_erase_n it (Z.of_nat n) l;
        o ← entry_at l it;
        Ret (AEntry o, l)
    | OEraseSeq i j =>
        b ← stdskl_get l (Z.of_nat i);
        e ← stdskl_get l (Z.of_nat j);
        '(erased, _, l) ← stdskl_erase_seq b e l;
        Ret (ACount erased, l)
    | OEraseKey k => '(n, l) ← stdskl_erase_key cmp k l; Ret (ACount n, l)
    | OClear => l ← stdskl_clear l; Ret (ADone, l)
    | OSeed bytes => Ret (ADone, stdskl_dseed bytes l)
    end
  else Ret (ASkip, l).

Fixpoint run (ops : list (skl_op K V)) l : outcome (list (skl_answer K V) * skl) :=
  match ops with
  | [] => Ret ([], l)
  | op :: ops => '(r, l) ← exec op l; '(rs, l) ← run ops l; Ret (r :: rs, l)
  end.

(** The entries in a direction, by iterators. *)
Fixpoint walk (fuel : nat) (d : dir) l (it : nat) : outcome (list (K * V)) :=
  if stdskl_is_end l it then Ret []
  else
    match fuel with
    | O => Fault
    | S fuel =>
        kv ← stdskl_it_entry l it;
        it ← match d with Rt => stdskl_it_next l it | Lt => stdskl_it_prev l it end;
        kvs ← walk fuel d l it;
        Ret (kv :: kvs)
    end.
Definition contents (d : dir) l : outcome (list (K * V)) :=
  it ← match d with Rt => stdskl_begin l | Lt => stdskl_it_prev l (stdskl_end l) end;
  walk (Z.to_nat (stdskl_size l)) d l it.

(** ** The ordered list *)
Definition abs_insert (ow hint : bool) (k : K) (v : V) xs xs' : Prop :=
  (ow = true /\ exists a k' v' b, xs = a ++ (k', v') :: b /\ cmp k k' = 0 /\ xs' = a ++ (k, v) :: b) \/
  (exists a b, xs = a ++ b /\ xs' = a ++ (k, v) :: b /\ (forall x, x ∈ a -> 0 <= cmp k x.1) /\ (forall x, x ∈ b -> cmp k x.1 <= 0) /\
     (ow = true -> hint = false -> forall x, x ∈ xs -> cmp k x.1 <> 0)).

(** Up to the first failure of malloc; the position of an insertion is the hint
    of the next one. *)
Inductive abs_inserts (ow : bool) : bool -> list ((bool * bool) * K * V) -> list (K * V) -> bool -> list (K * V) -> Prop :=
| abs_inserts_nil hint xs : abs_inserts ow hint [] xs true xs
| abs_inserts_fail hint ok k v kvs xs : ok <> (true, true) -> abs_inserts ow hint ((ok, k, v) :: kvs) xs false xs
| abs_inserts_cons hint ok k v kvs xs xs1 xs' st :
    abs_insert ow hint k v xs xs1 -> abs_inserts ow true kvs xs1 st xs' -> abs_inserts ow hint ((ok, k, v) :: kvs) xs st xs'.

Definition abs_step xs (op : skl_op K V) (r : skl_answer K V) xs' : Prop :=
  if valid op (Z.of_nat (length xs)) then
    match op with
    | OFind k => xs' = xs /\ exists o, r = AEntry o /\
        match o with Some x => x ∈ xs /\ cmp k x.1 = 0 | None => forall x, x ∈ xs -> cmp k x.1 <> 0 end
    | OContains k => xs' = xs /\ exists b, r = ABool b /\ (b = true <-> exists x, x ∈ xs /\ cmp k x.1 = 0)
    | OLowerb k => xs' = xs /\ r = AEntry (head (filter (fun x => cmp k x.1 <= 0) xs))
    | OUpperb k => xs' = xs /\ r = AEntry (head (filter (fun x => cmp k x.1 < 0) xs))
    | OGet i => xs' = xs /\ r = AEntry (xs !! i)
    | OInsert ow hint kvs => exists st, r = ABool st /\ abs_inserts ow (bool_decide (is_Some hint)) kvs xs st xs'
    | OErase i n => xs' = take i xs ++ drop (i + n) xs /\ r = AEntry (xs !! (i + n)%nat)
    | OEraseSeq i j => xs' = take i xs ++ drop j xs /\ r = ACount (Z.of_nat (j - i))
    | OEraseKey k => xs' = filter (fun x => cmp k x.1 <> 0) xs /\ r = ACount (Z.of_nat (length (filter (fun x => cmp k x.1 = 0) xs)))
    | OClear => xs' = [] /\ r = ADone
    | OSeed _ => xs' = xs /\ r = ADone
    end
  else xs' = xs /\ r = ASkip.

Inductive abs_run : list (K * V) -> list (skl_op K V) -> list (skl_answer K V) -> list (K * V) -> Prop :=
| abs_run_nil xs : abs_run xs [] [] xs
| abs_run_cons xs op r xs1 ops rs xs' : abs_step xs op r xs1 -> abs_run xs1 ops rs xs' -> abs_run xs (op :: ops) (r :: rs) xs'.
End spec.
