(* ===== verification/StdSklProps.v ===== *)
(** * StdSklProps: a skip list is an ordered list

    Every sequence of operations on a skip list of stdskl.c, from its
    construction, behaves as on the ordered list of its entries. *)
From stdpp Require Import base list gmap numbers option sets.
From Stdlib Require Import ZArith Lia Sorted.
From S2P Require Import Prelude StdUtil NetTypes SklList StdSkl StdSklMem StdSklRep StdSklFind StdSklOps StdSklSpec.
#[local] Open Scope Z_scope.

Section props.
Context {K V : Type} (cmp : K -> K -> Z) `{!KeyOrder cmp}.
Implicit Types (x : @item K V) (zs ys xs a b : list (@item K V)) (l : @stdskl K V).
Abbreviation holds := (holds cmp).
Abbreviation kvs := (fmap ikv).

Lemma kvs_filter (P : K * V -> Prop) `{!forall y, Decision (P y)} xs : filter P (ikv <$> xs) = ikv <$> filter (fun x => P (ikv x)) xs.
Proof.
  induction xs as [|x xs IH]; [done|]. cbn [fmap list_fmap]. destruct (decide (P (ikv x))).
  - by rewrite !filter_cons_True, IH.
  - by rewrite !filter_cons_False, IH.
Qed.
Lemma elem_of_kvs xs kv : kv ∈ ikv <$> xs <-> exists x, x ∈ xs /\ kv = ikv x.
Proof. rewrite list_elem_of_fmap. naive_solver. Qed.

Lemma entry_at_ok l xs b : holds l xs -> (forall x, x ∈ b -> x ∈ xs) -> entry_at l (it_of l b) = Ret (head (ikv <$> b)).
Proof.
  intros Hl Hb. unfold entry_at, stdskl_is_end. destruct b as [|x b]; [by rewrite bool_decide_true|].
  rewrite bool_decide_false by (by intros ?%(it_of_end cmp l xs)). unfold it_of. cbn [fmap list_fmap first]. rewrite (entry_ok cmp l xs x Hl) by (apply Hb; left). done.
Qed.

(** ** The searches *)
Lemma find_answer l xs k : holds l xs -> exists it o, stdskl_find cmp l k = Ret it /\ entry_at l it = Ret o /\
  match o with Some kv => kv ∈ ikv <$> xs /\ cmp k kv.1 = 0 | None => forall kv, kv ∈ ikv <$> xs -> cmp k kv.1 <> 0 end.
Proof.
  intros Hl. destruct (h_rep _ _ _ Hl) as [H R]. unfold stdskl_find, stdskl_low_find_right.
  destruct (low_find_ok cmp l H xs k Rt true R (h_sorted _ _ _ Hl)) as (found & p & -> & Hr). cbn [mbind outcome_bind].
  destruct (search_fit cmp H _ xs k found p _ R (h_sorted _ _ _ Hl) Hr) as (a & b & -> & -> & _ & Hm). destruct found.
  - destruct Hm as (z & b' & -> & Hz). eexists _, (Some (ikv z)). split; [done|]. fold (it_of l (z :: b')).
    rewrite (entry_at_ok l (a ++ z :: b') (z :: b') Hl) by (intros; rewrite elem_of_app; tauto). split; [done|]. split; [|done].
    apply elem_of_kvs. exists z. rewrite elem_of_app, elem_of_cons. tauto.
  - eexists _, None. split; [done|]. change (end_node l) with (it_of l []).
    rewrite (entry_at_ok l (a ++ b) [] Hl) by (by intros ? []%elem_of_nil). split; [done|].
    intros kv (x & Hx & ->)%elem_of_kvs. by apply Hm.
Qed.

Lemma contains_answer l xs k : holds l xs -> exists b : bool, stdskl_contains cmp l k = Ret b /\ (b = true <-> exists kv, kv ∈ ikv <$> xs /\ cmp k kv.1 = 0).
Proof.
  intros Hl. destruct (h_rep _ _ _ Hl) as [H R]. unfold stdskl_contains, stdskl_low_find_right.
  destruct (low_find_ok cmp l H xs k Rt true R (h_sorted _ _ _ Hl)) as (found & p & -> & Hr). cbn [mbind outcome_bind]. exists found. split; [done|].
  destruct (search_fit cmp H _ xs k found p _ R (h_sorted _ _ _ Hl) Hr) as (a & b & -> & -> & _ & Hm). destruct found.
  - split; [|done]. intros _. destruct Hm as (z & b' & -> & Hz). exists (ikv z). split; [|done]. apply elem_of_kvs. exists z.
    rewrite elem_of_app, elem_of_cons. tauto.
  - split; [done|]. intros (kv & (x & Hx & ->)%elem_of_kvs & Hz). by destruct (Hm x Hx).
Qed.

(** The first item that passes a test, when a split of the list separates them. *)
Lemma head_filter_split {A} (P : A -> Prop) `{!forall y, Decision (P y)} (us vs : list A) :
  (forall y, y ∈ us -> ~ P y) -> (forall y, y ∈ vs -> P y) -> head (filter P (us ++ vs)) = head vs.
Proof. intros Hu Hv. by rewrite filter_app, (filter_drop _ us Hu), (filter_keep _ vs Hv). Qed.

Lemma lowerb_answer l xs k : holds l xs -> exists it, stdskl_lowerb cmp l k = Ret it /\
  entry_at l it = Ret (head (filter (fun kv => cmp k kv.1 <= 0) (ikv <$> xs))).
Proof.
  intros Hl. destruct (h_rep _ _ _ Hl) as [H R]. unfold stdskl_lowerb, stdskl_low_find_right.
  destruct (low_find_ok cmp l H xs k Rt false R (h_sorted _ _ _ Hl)) as (found & p & -> & [[? _]|(ys & zs & E & Hy & Hz & -> & _)]); [done|].
  cbn [dirl] in E. subst xs. unfold beyond in Hy, Hz. cbn [goes] in Hy, Hz. eexists. split; [done|].
  fold (it_of l zs). rewrite (entry_at_ok l (reverse ys ++ zs) zs Hl) by (intros; rewrite elem_of_app; tauto). f_equal. rewrite fmap_app. symmetry. apply head_filter_split.
  - intros kv (y & Hi & ->)%elem_of_kvs. rewrite elem_of_reverse in Hi. apply Hy, Z.ltb_lt in Hi. unfold ik in Hi. lia.
  - intros kv (z & Hi & ->)%elem_of_kvs. apply Hz in Hi. destruct (Z.ltb_spec 0 (cmp k (ik z))); [done|]. done.
Qed.

Lemma upperb_answer l xs k : holds l xs -> exists it, stdskl_upperb cmp l k = Ret it /\
  entry_at l it = Ret (head (filter (fun kv => cmp k kv.1 < 0) (ikv <$> xs))).
Proof.
  intros Hl. destruct (h_rep _ _ _ Hl) as [H R]. unfold stdskl_upperb, stdskl_low_find_left.
  destruct (low_find_ok cmp l H xs k Lt false R (h_sorted _ _ _ Hl)) as (found & p & -> & [[? _]|(ys & zs & E & Hy & Hz & -> & _)]); [done|].
  cbn [mbind outcome_bind]. apply (dirl_opposite Lt) in E. cbn [opposite dirl] in E. subst xs. unfold beyond in Hy, Hz. cbn [goes] in Hy, Hz.
  destruct (rep_gap _ _ _ _ Rt zs ys 0%nat R eq_refl ltac:(lia)) as [Hg _]. rewrite !lptrs_0 in Hg. rewrite (link_at_lk _ _ _ _ _ Hg).
  eexists. split; [done|]. fold (it_of l ys).
  rewrite (entry_at_ok l (reverse zs ++ ys) ys Hl) by (intros; rewrite elem_of_app; tauto). f_equal. rewrite fmap_app. symmetry. apply head_filter_split.
  - intros kv (z & Hi & ->)%elem_of_kvs. rewrite elem_of_reverse in Hi. apply Hz in Hi. intros Hlt%Z.ltb_lt. by apply Hi.
  - intros kv (y & Hi & ->)%elem_of_kvs. apply Hy, Z.ltb_lt in Hi. done.
Qed.

(** ** One operation *)
Lemma inserts_abs ow hint ks xs st xs' : inserts cmp ow hint ks xs st xs' -> abs_inserts cmp ow hint ks (kvs xs) st (kvs xs').
Proof.
  induction 1 as [| |hint ok k v ks xs xs1 xs' st p Hi _ IH]; [constructor|by constructor|]. econstructor; [|exact IH].
  destruct Hi as (a & x & b & -> & _ & Ex & [[-> (y & -> & _ & Hk)]|(-> & [Fa Fb] & Hno)]).
  - left. split; [done|]. exists (kvs a), (ikv y).1, (ikv y).2, (kvs b). rewrite !fmap_app. cbn [fmap list_fmap]. rewrite Ex.
    by destruct (ikv y) eqn:E; unfold ik in Hk; rewrite E in Hk.
  - right. exists (kvs a), (kvs b). rewrite !fmap_app. cbn [fmap list_fmap]. rewrite Ex. split; [done|]. split; [done|].
    split; [intros kv (z & Hz & ->)%elem_of_kvs; by apply Fa|]. split; [intros kv (z & Hz & ->)%elem_of_kvs; by apply Fb|].
    intros How Hh kv Hkv. rewrite <-fmap_app in Hkv. apply elem_of_kvs in Hkv as (z & Hz & ->). by apply Hno.
Qed.

Lemma head_drop {A} (us : list A) i : head (drop i us) = us !! i.
Proof. revert i. induction us as [|u us IH]; intros [|i]; cbn; auto. Qed.

Lemma skl_get_at l xs i : holds l xs -> (i <= length xs)%nat -> stdskl_get l (Z.of_nat i) = Ret (it_of l (drop i xs)).
Proof. intros Hl Hi. rewrite <-(length_take_le xs i) at 1 by lia. apply (get_ok cmp). by rewrite take_drop. Qed.

Lemma get_answer l xs i : holds l xs -> (i <= length xs)%nat -> entry_at l (it_of l (drop i xs)) = Ret (kvs xs !! i).
Proof.
  intros Hl Hi. rewrite (entry_at_ok l xs _ Hl) by (intros x Hx; rewrite <-(take_drop i xs), elem_of_app; tauto).
  by rewrite fmap_drop, head_drop.
Qed.

Lemma insert_answer l xs i ow hint ks : holds l xs ->
  exists st it l' xs', (if ow : bool then stdskl_put_seq_n else stdskl_insert_seq_n) cmp hint (it_of l (drop i xs)) ks l = Ret (st, it, l') /\ holds l' xs' /\
    abs_inserts cmp ow hint ks (kvs xs) st (kvs xs').
Proof.
  intros Hl. rewrite <-(take_drop i xs) in Hl.
  destruct (insert_seq_ok cmp ow ks hint None l (take i xs) (drop i xs) Hl) as (st & it & l' & xs' & E & Hl' & Hi). rewrite take_drop in Hi.
  exists st, it, l', xs'. split; [by destruct ow|]. split; [done|]. by apply inserts_abs.
Qed.

Lemma erase_answer l xs i n : holds l xs -> (i + n <= length xs)%nat ->
  exists it l' xs', stdskl_erase_n (it_of l (drop i xs)) (Z.of_nat n) l = Ret (it, l') /\ holds l' xs' /\
    kvs xs' = take i (kvs xs) ++ drop (i + n) (kvs xs) /\ entry_at l' it = Ret (kvs xs !! (i + n)%nat).
Proof.
  intros Hl Hn. unfold stdskl_erase_n.
  assert (Ed : take n (drop i xs) ++ drop (i + n) xs = drop i xs) by (by rewrite <-drop_drop, take_drop).
  assert (En : Z.of_nat n = Z.of_nat (length (take n (drop i xs)))) by (rewrite length_take, length_drop; lia).
  rewrite <-(take_drop i xs), <-Ed in Hl. destruct (low_erase_ok cmp l _ _ _ None _ Hl (stops_count _ _ _)) as (l' & E & Hl' & _).
  rewrite <-En, Ed in E. rewrite E. cbn [mbind outcome_bind]. eexists _, _, _. split; [done|]. split; [exact Hl'|].
  rewrite (entry_at_ok l' _ _ Hl') by (intros; rewrite elem_of_app; tauto). by rewrite fmap_app, !fmap_take, !fmap_drop, head_drop.
Qed.

Lemma erase_seq_answer l xs i j : holds l xs -> (i <= j <= length xs)%nat ->
  exists it l' xs', stdskl_erase_seq (it_of l (drop i xs)) (it_of l (drop j xs)) l = Ret (Z.of_nat (j - i), it, l') /\ holds l' xs' /\
    kvs xs' = take i (kvs xs) ++ drop j (kvs xs).
Proof.
  intros Hl Hj. unfold stdskl_erase_seq.
  assert (Ed : take (j - i) (drop i xs) ++ drop j xs = drop i xs).
  { replace j with (i + (j - i))%nat at 2 by lia. by rewrite <-drop_drop, take_drop. }
  assert (En : Z.of_nat (length (take (j - i) (drop i xs))) = Z.of_nat (j - i)) by (rewrite length_take, length_drop; lia).
  destruct (h_rep _ _ _ Hl) as [H R]. pose proof (r_nodup _ _ _ _ R) as [He Hn]%NoDup_cons. rewrite <-(take_drop i xs), <-Ed in Hl.
  destruct (low_erase_ok cmp l _ _ _ (Some (it_of l (drop j xs))) (-1) Hl) as (l' & E & Hl' & _).
  { apply stops_at. rewrite Ed. rewrite <-(take_drop i xs), fmap_app in He, Hn. apply NoDup_app in Hn as (_ & _ & Hn).
    constructor; [|done]. intros Hi. apply He. rewrite elem_of_app. tauto. }
  rewrite Ed, En in E. eexists _, _, _. split; [exact E|]. split; [exact Hl'|]. by rewrite fmap_app, fmap_take, fmap_drop.
Qed.

Lemma exec_ok op l xs : holds l xs -> exists r l' xs', exec cmp op l = Ret (r, l') /\ holds l' xs' /\ abs_step cmp (kvs xs) op r (kvs xs').
Proof.
  intros Hl. unfold exec, abs_step, stdskl_size. rewrite length_fmap, <-(h_size _ _ _ Hl).
  destruct (valid op (sk_size l)) eqn:Hv; [|by exists ASkip, l, xs]. rewrite (h_size _ _ _ Hl) in Hv.
  destruct op as [k|k|k|k|i|ow hint ks|i n|i j|k| |bytes]; cbn [valid] in Hv.
  - destruct (find_answer l xs k Hl) as (it & o & -> & E & Ho). cbn [mbind outcome_bind]. rewrite E. eexists _, _, xs. do 3 (split; [done|]). by exists o.
  - destruct (contains_answer l xs k Hl) as (b & -> & Hb). eexists _, _, xs. do 3 (split; [done|]). by exists b.
  - destruct (lowerb_answer l xs k Hl) as (it & -> & E). cbn [mbind outcome_bind]. rewrite E. by eexists _, _, xs.
  - destruct (upperb_answer l xs k Hl) as (it & -> & E). cbn [mbind outcome_bind]. rewrite E. by eexists _, _, xs.
  - apply Z.leb_le in Hv. rewrite (skl_get_at l xs) by (done || lia). cbn [mbind outcome_bind]. rewrite (get_answer l xs) by (done || lia). by eexists _, _, xs.
  - assert (exists i, match hint with Some i => stdskl_get l (Z.of_nat i) | None => Ret (stdskl_end l) end = Ret (it_of l (drop i xs))) as (i & ->).
    { destruct hint as [i|]; [apply Z.leb_le in Hv; exists i; by rewrite (skl_get_at l xs) by (done || lia)|]. exists (length xs). by rewrite drop_all. }
    destruct (insert_answer l xs i ow (bool_decide (is_Some hint)) ks Hl) as (st & it & l' & xs' & E & Hl' & Hi). cbn [mbind outcome_bind]. rewrite E. eexists _, _, xs'. do 2 (split; [done|]). by exists st.
  - apply Z.leb_le in Hv. rewrite (skl_get_at l xs) by (done || lia). cbn [mbind outcome_bind].
    destruct (erase_answer l xs i n Hl ltac:(lia)) as (it & l' & xs' & -> & Hl' & Ex & Ee). cbn [mbind outcome_bind]. rewrite Ee. by eexists _, _, xs'.
  - apply andb_true_iff in Hv as [Hij%Nat.leb_le Hj%Z.leb_le]. rewrite !(skl_get_at l xs) by (done || lia). cbn [mbind outcome_bind].
    destruct (erase_seq_answer l xs i j Hl ltac:(lia)) as (it & l' & xs' & -> & Hl' & Ex). by eexists _, _, xs'.
  - destruct (erase_key_ok cmp k l xs Hl) as (l' & -> & Hl'). eexists _, _, _. split; [done|]. split; [done|]. by rewrite !kvs_filter, length_fmap.
  - destruct (skl_clear_ok cmp l xs Hl) as (l' & -> & Hl'). by eexists _, _, [].
  - eexists _, _, xs. split; [done|]. split; [by apply holds_change|done].
Qed.

Lemma skl_run_ok ops l xs : holds l xs -> exists rs l' xs', run cmp ops l = Ret (rs, l') /\ holds l' xs' /\ abs_run cmp (kvs xs) ops rs (kvs xs').
Proof.
  revert l xs. induction ops as [|op ops IH]; intros l xs Hl; [exists [], l, xs; split; [done|]; split; [done|constructor]|].
  destruct (exec_ok op l xs Hl) as (r & l1 & xs1 & E & Hl1 & Hs). destruct (IH l1 xs1 Hl1) as (rs & l' & xs' & E' & Hl' & Hr).
  exists (r :: rs), l', xs'. cbn [run]. rewrite E. cbn [mbind outcome_bind]. rewrite E'. split; [done|]. split; [done|]. by econstructor.
Qed.

(** ** The entries, by iterators *)
Lemma walk_ok l d a b : holds l (match d with Rt => a ++ b | Lt => reverse b ++ reverse a end) ->
  walk (length b) d l (it_of l b) = Ret (kvs b).
Proof.
  revert a. induction b as [|x b IH]; intros a Hl; [cbn; unfold stdskl_is_end; by rewrite bool_decide_true|]. cbn [length walk].
  set (xs := match d with Rt => a ++ x :: b | Lt => reverse (x :: b) ++ reverse a end) in *.
  assert (Hx : x ∈ xs) by (subst xs; destruct d; rewrite elem_of_app, ?elem_of_reverse, elem_of_cons; tauto).
  assert (Hne : it_of l (x :: b) <> end_node l).
  { intros E%(it_of_end cmp l xs _ Hl); [done|]. intros y Hy. subst xs. destruct d; rewrite elem_of_app, ?elem_of_reverse; tauto. }
  unfold stdskl_is_end. rewrite bool_decide_false by done. change (it_of l (x :: b)) with (ip x). rewrite (entry_ok cmp l xs x Hl Hx). cbn [mbind outcome_bind].
  assert (match d with Rt => stdskl_it_next l (ip x) | Lt => stdskl_it_prev l (ip x) end = Ret (it_of l b)) as ->.
  { subst xs. destruct d; [|by eapply it_next_ok]. destruct (h_rep _ _ _ Hl) as [H R]. apply link_at_lk. unfold it_of. rewrite <-(lptrs_0 b).
    apply (rep_gap _ _ _ _ Lt (x :: reverse a) b 0%nat R); [|lia]. cbn [dirl].
    by rewrite reverse_app, !reverse_involutive, reverse_cons, reverse_involutive, <-app_assoc. }
  cbn [mbind outcome_bind]. rewrite (IH (a ++ [x])); [done|]. subst xs. destruct d.
  - rewrite reverse_app. by rewrite reverse_cons, <-app_assoc in Hl.
  - by rewrite <-app_assoc.
Qed.

Lemma contents_ok l xs : holds l xs -> contents Rt l = Ret (kvs xs) /\ contents Lt l = Ret (reverse (kvs xs)).
Proof.
  intros Hl. unfold contents, stdskl_size, stdskl_end. rewrite (h_size _ _ _ Hl), Nat2Z.id, (begin_ok cmp l xs Hl), (last_ok cmp l xs Hl). cbn [mbind outcome_bind].
  split; [by apply (walk_ok l Rt [] xs)|]. rewrite <-(length_reverse xs), <-fmap_reverse. apply (walk_ok l Lt []). cbn. by rewrite reverse_involutive, app_nil_r.
Qed.

Lemma holds_kvs_sorted l xs : holds l xs -> StronglySorted (fun x y : K * V => cmp x.1 y.1 <= 0) (kvs xs).
Proof.
  intros Hl. pose proof (h_sorted _ _ _ Hl) as Hs. clear Hl. induction Hs as [|x xs _ IH Hf]; [constructor|]. cbn. constructor; [done|].
  apply Forall_fmap. exact Hf.
Qed.

End props.

Section theorems.
Context {K V : Type} (cmp : K -> K -> Z) `{!KeyOrder cmp}.
Implicit Types (l : @stdskl K V) (xs : list (K * V)).
Abbreviation kvs := (fmap ikv).

(** A list made by operations. *)
Definition built l : Prop := exists s bits l0 ops rs, stdskl_construct true s bits = Ret (Some l0) /\ run cmp ops l0 = Ret (rs, l).

Lemma built_holds l : built l -> exists its, holds cmp l its.
Proof.
  intros (s & bits & l0 & ops & rs & E0 & E). destruct (construct_ok (V := V) cmp s bits) as (l0' & E0' & H0).
  assert (l0' = l0) as -> by congruence. destruct (skl_run_ok cmp ops l0 [] H0) as (rs' & l' & xs' & E' & Hl' & _).
  rewrite E in E'. injection E' as _ <-. by exists xs'.
Qed.

(** ** Lists without equal keys *)
Lemma cmp_zero_both k k1 k2 : cmp k k1 = 0 -> cmp k k2 = 0 -> cmp k1 k2 = 0.
Proof.
  intros Ha Hb. pose proof (cmp_zero_sym cmp _ _ Ha). pose proof (cmp_zero_sym cmp _ _ Hb).
  pose proof (cmp_le_trans k1 k k2). pose proof (cmp_le_trans k2 k k1). pose proof (cmp_sign k1 k2). pose proof (cmp_sign k2 k1). lia.
Qed.
Definition distinct (ks : list (K * V)) : Prop := forall i j x y, ks !! i = Some x -> ks !! j = Some y -> cmp x.1 y.1 = 0 -> i = j.

Lemma distinct_match ks k x y : distinct ks -> x ∈ ks -> y ∈ ks -> cmp k x.1 = 0 -> cmp k y.1 = 0 -> x = y.
Proof.
  intros Hd [i Hi]%list_elem_of_lookup [j Hj]%list_elem_of_lookup Hx Hy.
  assert (i = j) as ->; [|congruence]. eapply Hd; [done|done|]. by eapply cmp_zero_both.
Qed.

Lemma skl_insert_split (p : K * V -> Z) kv us vs : (forall y, y ∈ us -> 0 < p y) -> (forall y, y ∈ vs -> p y <= 0) ->
  skl_insert p kv (us ++ vs) = us ++ kv :: vs.
Proof.
  intros Hu Hv. induction us as [|u us IH]; cbn [app skl_insert].
  - destruct vs as [|y vs]; [done|]. cbn. rewrite (proj2 (Z.leb_le _ _)); [done|]. apply Hv. left.
  - rewrite (proj2 (Z.leb_gt _ _)) by (apply Hu; left). rewrite IH; [done|]. intros y Hy. apply Hu. by right.
Qed.

Lemma skl_erase_at (p : K * V -> Z) ks i x : ks !! i = Some x -> p x = 0 -> (forall j y, (j < i)%nat -> ks !! j = Some y -> p y <> 0) ->
  skl_erase p ks = take i ks ++ drop (i + 1) ks.
Proof.
  revert i. induction ks as [|u ks IH]; intros [|i] Hi Hx Hb; [done|done|..]; cbn in Hi.
  - injection Hi as ->. cbn. by rewrite Hx, drop_0.
  - cbn [skl_erase take drop Nat.add app]. rewrite (proj2 (Z.eqb_neq _ _)) by (by apply (Hb 0%nat); [lia|]). f_equal.
    apply IH; [done|done|]. intros j y Hj Hy. by apply (Hb (S j)); [lia|].
Qed.

(** C38: from construction, whatever operations a client makes (searches,
    insertions and overwriting of sequences with and without hints and with
    failing allocations, erasure by position, sequence and key, clearing), the
    skip list never follows a bad pointer or loops; each answer is that of the
    ordered list of the entries, and at the end iteration in either direction
    and the size give that list, which is sorted. *)
Theorem stdskl_refines_list s bits (ops : list (skl_op K V)) :
  exists l0 rs l xs, stdskl_construct true s bits = Ret (Some l0) /\ run cmp ops l0 = Ret (rs, l) /\ abs_run cmp [] ops rs xs /\
    StronglySorted (fun x y => cmp x.1 y.1 <= 0) xs /\
    contents Rt l = Ret xs /\ contents Lt l = Ret (reverse xs) /\ stdskl_size l = Z.of_nat (length xs).
Proof.
  destruct (construct_ok (V := V) cmp s bits) as (l0 & E0 & H0). destruct (skl_run_ok cmp ops l0 [] H0) as (rs & l & xs & E & Hl & Hr).
  exists l0, rs, l, (kvs xs). split; [done|]. split; [done|]. split; [done|]. split; [by apply (holds_kvs_sorted cmp l)|].
  destruct (contents_ok cmp l xs Hl) as [-> ->]. rewrite length_fmap. split; [done|]. split; [done|]. apply Hl.
Qed.

(** On a list made by operations in which no two keys are equal, finding a
    key, inserting one that is not there, at any hint, and erasing the entry of
    one are the functions on ordered lists by which the other components
    describe a skip list. *)
Theorem stdskl_unique_keys l xs : built l -> contents Rt l = Ret xs -> distinct xs ->
  (forall k, exec cmp (OFind k) l = Ret (AEntry (skl_find (fun x => cmp k x.1) xs), l)) /\
  (forall k v ow hint, (forall x, x ∈ xs -> cmp k x.1 <> 0) -> match hint with Some i => (i <= length xs)%nat | None => True end ->
     exists l', exec cmp (OInsert ow hint [((true, true), k, v)]) l = Ret (ABool true, l') /\
       contents Rt l' = Ret (skl_insert (fun x => cmp k x.1) (k, v) xs)) /\
  (forall k i x, xs !! i = Some x -> cmp k x.1 = 0 ->
     exists l', exec cmp (OErase i 1) l = Ret (AEntry (xs !! S i), l') /\ contents Rt l' = Ret (skl_erase (fun x => cmp k x.1) xs)).
Proof.
  intros [its Hl]%built_holds Hc Hd. destruct (contents_ok cmp l its Hl) as [Hc' _]. rewrite Hc in Hc'. injection Hc' as ->. split; [|split].
  - intros k. destruct (find_answer cmp l its k Hl) as (it & o & E & Eo & Ho). unfold exec. cbn [valid]. rewrite E. cbn [mbind outcome_bind]. rewrite Eo.
    cbn [mbind outcome_bind]. do 3 f_equal. symmetry. destruct o as [x|]; [|by apply skl_find_none].
    destruct Ho as [Hx Hk]. apply skl_find_unique; [|done|done]. intros y Hy Hky. by eapply distinct_match.
  - intros k v ow hint Hno Hh. destruct (exec_ok cmp (OInsert ow hint [(true, true, k, v)]) l its Hl) as (r & l' & its' & E & Hl' & Hs).
    unfold abs_step in Hs. assert (valid (OInsert ow hint [(true, true, k, v)]) (Z.of_nat (length (kvs its))) = true) as Hv.
    { destruct hint; cbn; [apply Z.leb_le; lia|done]. }
    rewrite Hv in Hs. destruct Hs as (st & -> & Hi). inversion Hi as [|? ? ? ? ? ? Hok|? ? ? ? ? ? xs1 ? ? Ha Hn]; subst; [done|]. inversion Hn; subst.
    exists l'. split; [done|]. destruct (contents_ok cmp l' its' Hl') as [-> _]. f_equal.
    destruct Ha as [[_ (a & k' & v' & b & Ea & Hk & _)]|(a & b & Ea & -> & Fa & Fb & _)].
    + exfalso. apply (Hno (k', v')); [|done]. rewrite Ea, elem_of_app, elem_of_cons. tauto.
    + rewrite Ea in Hno |- *. symmetry. apply skl_insert_split; [|done]. intros y Hy. specialize (Fa y Hy).
      specialize (Hno y ltac:(rewrite elem_of_app; tauto)). lia.
  - intros k i x Hi Hk. destruct (exec_ok cmp (OErase i 1) l its Hl) as (r & l' & its' & E & Hl' & Hs). unfold abs_step in Hs.
    pose proof (lookup_lt_Some _ _ _ Hi) as Hlt. cbn [valid] in Hs. rewrite (proj2 (Z.leb_le _ _)) in Hs by lia. destruct Hs as [Ex ->].
    rewrite Nat.add_1_r in E. exists l'. split; [done|]. destruct (contents_ok cmp l' its' Hl') as [-> _]. f_equal. rewrite Ex. symmetry.
    eapply skl_erase_at; [done|done|]. intros j y Hj Hy Hky. assert (j = i) as ->; [|lia].
    eapply Hd; [done|done|]. by eapply cmp_zero_both.
Qed.

(** A copy has the entries of its source, in the same order, also those with
    equal keys, unless an allocation fails; assignment then leaves the list as it
    is; destruction gives all memory back. *)
Theorem stdskl_copy_correct ok oks s bits l dst xs : built l -> built dst -> contents Rt l = Ret xs ->
  (exists r, stdskl_copy_construct cmp ok oks s bits l = Ret r /\
     match r with
     | Some cpy => contents Rt cpy = Ret xs /\ contents Lt cpy = Ret (reverse xs)
     | None => ok = false \/ exists i, (i < length xs)%nat /\ oks i <> (true, true)
     end) /\
  (exists b l', stdskl_set_eq cmp ok oks s bits dst l = Ret (b, l') /\ if b : bool then contents Rt l' = Ret xs else l' = dst) /\
  stdskl_destruct l = Ret ∅.
Proof.
  intros [its Hl]%built_holds [its' Hd]%built_holds Hc. destruct (contents_ok cmp l its Hl) as [Hc' _]. rewrite Hc in Hc'. injection Hc' as ->.
  destruct (copy_ok cmp ok oks s bits l its Hl) as (r & E & Hr). unfold stdskl_set_eq. rewrite E. cbn [mbind outcome_bind].
  rewrite length_fmap. split; [|split].
  - exists r. split; [done|]. destruct r as [cpy|]; [|done]. destruct Hr as (ys & Hy & <-). by apply (contents_ok cmp).
  - destruct r as [cpy|]; [|by eexists _, _]. destruct Hr as (ys & Hy & <-). cbn [stdskl_swap]. rewrite (destruct_ok cmp dst its' Hd). cbn [mbind outcome_bind].
    eexists _, _. split; [done|]. by apply (contents_ok cmp).
  - by eapply destruct_ok.
Qed.
End theorems.

#[export] Instance sub_order : KeyOrder Z.sub.
Proof. constructor; lia. Qed.

(** A list of numbers, filled, searched and cut. *)
Module ExSkl.
Definition s0 : Rand48.rand_state := Rand48.mk_rand 1 2 3.
Definition one (k v : Z) : (bool * bool) * Z * Z := ((true, true), k, v).
Definition ops0 : list (skl_op Z Z) :=
  [OInsert false None [one 30 1; one 10 2; one 20 3; one 20 4]; OLowerb 15; OUpperb 20; OErase 0 1; OInsert false (Some 3%nat) [((false, true), 5, 9)]; OEraseKey 20].
Definition ops1 : list (skl_op Z Z) := [OInsert false None [one 30 1; one 10 2; one 20 3]].
Definition empty : @stdskl Z Z :=
  match stdskl_construct true s0 0 with Ret (Some l) => l | _ => mk_skl ∅ 0 0 0 s0 0 0 end.
Definition filled : @stdskl Z Z := match run Z.sub ops1 empty with Ret (_, l) => l | _ => empty end.
End ExSkl.

Lemma stdskl_refines_list_witness :
  KeyOrder Z.sub /\
  (exists l0 rs l xs, stdskl_construct true ExSkl.s0 0 = Ret (Some l0) /\ run Z.sub ExSkl.ops0 l0 = Ret (rs, l) /\ abs_run Z.sub [] ExSkl.ops0 rs xs /\
    StronglySorted (fun x y => x.1 - y.1 <= 0) xs /\
    contents Rt l = Ret xs /\ contents Lt l = Ret (reverse xs) /\ stdskl_size l = Z.of_nat (length xs)) /\
  (l ← run Z.sub ExSkl.ops0 ExSkl.empty; Ret l.1) =
    Ret [ABool true; AEntry (Some (20, 3)); AEntry (Some (30, 1)); AEntry (Some (20, 3)); ABool false; ACount 2].
Proof.
  split; [exact sub_order|]. split; [exact (stdskl_refines_list Z.sub ExSkl.s0 0 ExSkl.ops0)|]. vm_compute. reflexivity.
Defined.

Lemma stdskl_unique_keys_witness : exists l', exec Z.sub (OInsert false (Some 0%nat) [ExSkl.one 15 4]) ExSkl.filled = Ret (ABool true, l') /\
  contents Rt l' = Ret [(10, 2); (15, 4); (20, 3); (30, 1)].
Proof.
  assert (Hd : distinct Z.sub [(10, 2); (20, 3); (30, 1)]).
  { intros [|[|[|i]]] [|[|[|j]]] x y Hx Hy; cbn in Hx, Hy; intros E; try reflexivity; try discriminate; injection Hx as <-; injection Hy as <-; cbn in E; discriminate. }
  assert (Hb : built Z.sub ExSkl.filled).
  { exists ExSkl.s0, 0, ExSkl.empty, ExSkl.ops1, [ABool true]. split; vm_compute; reflexivity. }
  assert (Hc : contents Rt ExSkl.filled = Ret [(10, 2); (20, 3); (30, 1)]) by (vm_compute; reflexivity).
  destruct (stdskl_unique_keys Z.sub ExSkl.filled _ Hb Hc Hd) as (_ & Hi & _).
  clear Hb Hc Hd. destruct (Hi 15 4 false (Some 0%nat)) as (l' & E & Ec); [clear Hi|apply Nat.le_0_l|exists l'; split; [exact E|exact Ec]].
  intros x Hx. repeat (apply elem_of_cons in Hx as [->|Hx]; [discriminate|]). apply elem_of_nil in Hx. destruct Hx.
Defined.

(** [stdskl_put_n] is documented as a [stdskl_put] of each pair, and
    [stdskl_put] overwrites an entry of the key if there is one; but after the
    first pair the position of the last insertion is used as a hint, and the
    entry in front of a hint is not looked at: the array (5, 1), (5, 2) put into an
    empty list leaves both entries, of which a search gives the first, where the
    two calls of [stdskl_put] leave (5, 2). *)
Theorem stdskl_put_n_duplicates :
  (l ← stdskl_construct true ExSkl.s0 0;
   match l with
   | Some l =>
       '(_, _, l) ← stdskl_put_n Z.sub false (end_node l) [ExSkl.one 5 1; ExSkl.one 5 2] l;
       it ← stdskl_find Z.sub l 5; kv ← stdskl_it_entry l it; c ← contents Rt l; Ret (c, kv)
   | None => Fault
   end) = Ret ([(5, 1); (5, 2)], (5, 1)) /\
  (l ← stdskl_construct true ExSkl.s0 0;
   match l with
   | Some l =>
       '(_, _, l) ← stdskl_put Z.sub (true, true) false (end_node l) 5 1 l;
       '(_, _, l) ← stdskl_put Z.sub (true, true) false (end_node l) 5 2 l;
       it ← stdskl_find Z.sub l 5; kv ← stdskl_it_entry l it; c ← contents Rt l; Ret (c, kv)
   | None => Fault
   end) = Ret ([(5, 2)], (5, 2)).
Proof. split; vm_compute; reflexivity. Qed.
